(* ===== verification/_CoqProject ===== *)
-Q . S2P
Prelude.v
Chars.v
Support.v
Utf8.v
Match.v
Dbuf.v
Hash.v
Dlist.v
Whowas.v
Crule.v
MessageTags.v
Command.v
Parse.v
Operclass.v
Fdlist.v
Badwords.v
Send.v
Websocket.v
MemberModes.v
Channel.v
Bans.v
NameLists.v
ConfPre.v
ConfParse.v
Event.v
Times.v
Unrealdb.v
HistoryLog.v
HistoryRequests.v
HistoryDelete.v
HistoryFile.v
History.v
HistoryApi.v
HistoryMode.v
Chathistory.v
Conversation.v
UserMatch.v
Extbans.v
SecurityGroup.v
GroupConfig.v
UserModes.v
UmodeCommand.v
