(* ===== verification/Prelude.v ===== *)
(** * Verification of the core of ObbyIRCd

    ObbyIRCd is an IRC server in C, a descendant of UnrealIRCd.  Data from a
    socket is appended to a receive queue per client (src/src/dbuf.c); lines
    are taken from the queue while the client is not lagged up, split into
    message tags, sender, command and parameters, and handed to the handler of
    the command if the sender may use it (src/src/parse.c,
    src/src/modules/message-tags.c, src/src/api-command.c).  Clients and
    channels are found through hash tables (src/src/hash.c); nicknames that are
    gone through a ring with intrusive lists (src/src/whowas.c,
    src/src/list.c).  Masks, bad words, rules and operator permissions decide
    what a client may do (src/src/match.c, src/src/modules/crule.c,
    src/src/operclass.c).  Channels keep lists of members and of bans
    (src/src/channel.c, src/src/api-channelmode.c); a ban is a mask of a user
    (src/src/modules/tkl.c) or an extended ban of a module
    (src/src/api-extban.c, src/src/modules/extbans).  Security groups classify
    clients by their properties, masks and rules (src/src/securitygroup.c).
    Modules register user modes (src/src/api-usermode.c), which users change and
    servers tell each other (src/src/modules/mode.c, src/src/user.c).  Answers are cut to size,
    queued and written when the socket has room (src/src/send.c,
    src/src/socket.c), for some clients in websocket frames
    (src/src/modules/websocket_common.c).  Below all of it are string helpers
    (src/src/support.c, src/src/utf8.c), the event loop (src/src/fdlist.c,
    src/src/dispatch.c) and timed events (src/src/api-event.c).  The
    configuration file is turned into a tree of entries whose conditional parts
    are resolved in three phases (src/src/conf.c, src/src/conf_preprocessor.c).
    What is said in a channel with mode +H (src/src/modules/chanmodes/history.c)
    goes through an API to the backends that modules register
    (src/src/api-history-backend.c).  It is kept in memory within limits
    (src/src/modules/history_backend_mem.c), answered on request
    (src/src/modules/chathistory.c, src/src/modules/history.c) and saved in
    database files, encrypted or not (src/src/unrealdb.c), which a restart reads
    back.

    ** How C is modelled

    This file: [res A] is the outcome of a piece of C: [Ok a], [UB] (a read or
    write outside an object, a NULL dereference, a failed assert, an overflow of
    a signed integer) or [NoFuel].  [let! x := m in k] sequences outcomes.
    A loop is [loop body fuel state], where [body] gives the next state or the
    result; [loop_total] turns an invariant and a measure into termination, and
    the theorems show that the fuel of every definition is enough.  A byte is a
    [Z] in [0,256) ([char] is unsigned in this program); a C string is the list
    of its bytes without the NUL, [cstr] saying that none of them is 0; [rd s i]
    reads [s[i]], the NUL at its length, and is [UB] behind it; [deref] is a
    read at the start.  Machine integers are [Z] with their wrap-around written
    out ([u8], [u32], [u64], [i32]).  Pointers into a string are offsets or the
    rest of the string; pointers to objects are [nat] addresses in a [gmap].

    ** The files

    - Chars: tolowertab, touppertab, char_atribs and the macros on them
      (match.c, include/common.h), smycmp, and strcasecmp of the C library.
    - Support: strlcpy and its relatives (module [Strl]), strtoken and
      strtoken_noskip ([Strtoken]), base64 ([B64]), strnatcmp ([Natcmp]).
      Base64 round trips; natural comparison is total, antisymmetric and orders
      numbers by value.
    - Utf8: the validator equals the grammar of RFC 3629; the repair of invalid
      text is valid, faithful and within its buffer; cutting keeps validity.
    - Match: match_simple and match_esc equal the meaning [glob] of a mask, a
      sequence of tokens; collapse preserves it; the Match object with PCRE2 as
      a parameter; the IPv6 mask.
    - Dbuf: the list of blocks refines a byte queue ([dbuf_refines_queue]); the
      class [ByteQueue] is what parse.c relies on, with dbuf as its instance.
    - Hash: SipHash-2-4 against its published value; the three tables refine
      case-insensitive maps for all runs and all keys; the find functions.
    - Dlist: doubly linked lists with shared links: add, append, delete,
      priority insertion, with what is left untouched.
    - Whowas: the ring of 2000 entries with its hash and client lists refines a
      bounded list of events; no released client is ever returned.
    - Crule: the rule language: tokenizer, parser, evaluator.  Parsing always
      terminates; printing and parsing is the identity; memory safety under the
      condition [rule_safe] that the findings show to be needed.
    - MessageTags: escaping, parsing and printing tags, the filters, and the
      registry of handlers (api-messagetag.c).  Round trip between two servers.
    - Command: the command table (api-command.c).
    - Parse: process_packet, parse_client_queued, parse, parse2, do_numeric and
      fake lag.  What a function does besides returning is a list of events.
      Every line is handled safely, and a handler runs only for who may use it.
      A handler may empty the queue of a client that lives on, as STARTTLS does.
    - Operclass: ACLs of operator classes, from the configuration block to
      ValidatePermissionsForPath.
    - Fdlist: the table of descriptors and the epoll backend with the kernel's
      watch list as state; invariant over all reachable states.
    - Badwords: our_strcasestr, fast_badword_match and fast_badword_replace.
    - Send: preparing a line, the send queue (a Dbuf), delivery to the socket and
      the write events (Fdlist).  Nothing is lost, repeated or reordered, and
      queued data always has a callback; the kernel watches for it when epoll_ctl
      succeeds, which is not assumed.
    - Websocket: frames in both directions on top of Send.  Reassembly from any
      chunks, safety for any bytes, and output that decodes to its lines.
    - MemberModes: the modes of channel members, their ranks and prefixes.
    - Channel: Member, Membership and LocalMember objects on a heap with free
      lists, joining, leaving, creation and destruction; in every reachable state
      the lists represent one relation between channels and clients.
    - Bans: the lists of bans, the conversion of masks, the names of channels.
    - NameLists: lists of names and of names with values (list.c), the tables of
      flags of the configuration and their bisection (conf.c).
    - ConfPre: defines, conditions and variables of the configuration.  A printed
      condition is read back; resolving keeps exactly what holds.  An empty define
      is a NULL: [defines_ok N] names the variables [N] that may be one.
    - ConfParse: from the text of a file to its entries.  Every text is read to
      its end; a printed configuration is parsed to its entries, of which those
      are kept whose conditions hold ([condition_holds], apart from the code).
    - Event: the list of events while their functions add, change and delete
      events: one round runs what is due, once, and reaches no freed event.
    - Times: sizes and times with units, as the configuration and messages have
      them (misc.c, json.c, conf.c).  What is printed is read back.
    - Unrealdb: database files (unrealdb.c): headers, typed values, blocks of
      encrypted data.  The class [Crypto] has the operations of the libraries,
      [CryptoLaws] what the code relies on: argon2 succeeds for the parameters it
      documents, unless it gets no memory, and opening a file may be refused
      ([chance]).  A file that was written and closed is read back, and what was
      changed or cut is not accepted as complete.
    - HistoryLog: the log of one channel (history_backend_mem.c): doubly linked
      lines with their limits in number and time, with multiline batches.  The
      log refines a list cut at its head.
    - HistoryRequests: the requests before, after, between, around and latest, by
      time or by message id, and paging through a whole log.
    - HistoryDelete: removal of lines by id, account or time.
    - HistoryFile: the names of the files, writing and reading one log and the
      master database.
    - History: the table of logs, its operations as a backend, the timer that
      trims and saves, flushing, and the reading of all files at a restart.  The
      table refines a map of logs together with its files, with persistence or
      without, whatever the disk does.
    - HistoryApi: the registry of backends, whose functions belong to modules
      that are loaded and unloaded, and the sending of a result.  Calls reach the
      live backends; what is sent is read back by the rules of batches.
    - HistoryMode: mode +H: its configuration, its parameter in both directions,
      recording, and playback on join.
    - Chathistory: the commands CHATHISTORY and HISTORY on the channels of
      Channel, the API and the backend in memory.  Only members get history, and
      they get what the log has.
    - Conversation: what is said in a channel is what a member reads.
    - UserMatch: masks nick!user@host against a client (match_user of tkl.c),
      with networks of addresses, and lists of addresses.  The class
      [AddressLaws] says what is used of inet_pton.
    - Extbans: the registry of extended bans, the form in which a mask is kept,
      and the check of a client against bans and exceptions, with the modules
      quiet, join, nickchange, partmsg, account, realname, channel and certfp.
    - SecurityGroup: the criteria of groups and the groups of a client, with the
      functions of rules on clients, run by the evaluator of Crule.  Without
      cycles the nine levels are enough and membership is what the criteria say.
    - GroupConfig: the configuration of groups and match blocks; the criteria
      made of a block are those that its entries name.
    - UserModes: the registry of user modes with a bit for each, modules that come
      and go, strings of modes and of changes, server notice masks.
    - UmodeCommand: the command that changes user modes, and the modes that users
      get as they connect.  For all runs the registry refines a map from letters;
      nobody gets a mode that is not granted; and the copies of a user on other
      servers stay in step.

    ** Parameters

    PCRE2, the random source, hooks, spamfilter, command handlers, callbacks of
    tag handlers and permission validators, the functions of rules that look at
    counters, servers, user modes, tags or the text of a message, the result of epoll_ctl, what the system answers to a write, the
    receiver of websocket payloads, the hook that may keep an empty channel, the
    environment, files, modules and build constants that conditions of the
    configuration look at, what the functions of events do, the ciphers, key
    derivation and hashes of libsodium, argon2 and OpenSSL, the clock, random
    ids and salts, the outcome of closing and renaming a file, whether a
    channel is permanent, the ids of batches, the registered capabilities and
    letters of channel modes, the client that an account stands for, inet_pton,
    which block of settings the groups of a user lead to, and the functions of other modules for
    extended bans and user modes are arguments of the definitions; no theorem assumes more of them than its statement says.

    ** Fuel and bounds

    [match_fuel] is quadratic in mask and name, the bound of the backtracking;
    loops over strings have their length plus one; [parse_fuel] of rules is
    linear in the text, by a potential that every call of the parser lowers; the
    configuration parser has the length of its text plus one;
    [PERM_FUEL] covers the eleven rounds after which the code gives up; the loops
    over a database have the length of its buffer or file plus one; the timer of
    the history takes 17 of 1019 slots per call, so that 60 calls reach all; the
    check of a ban has the length of its text plus one, since every extended ban
    in it takes some of the text; security groups are evaluated by recursion on
    the levels that are left of the nine of the code.  Sizes are those of the headers: blocks of 8168 bytes, lines of 16384, 2000 WHOWAS
    entries, tables of 32768 slots, tags of 8191 bytes.

    ** What is not modelled

    The blocks of the configuration (the handlers that test and run entries), the
    modes of channels themselves, the other modules of extended bans, accepting
    sockets, TLS, DNS, logging, the embedded JavaScript engine and most command
    modules: they are mostly input and output, calls of libraries, or use state
    of many other parts.  Next in the plan: the registry of channel modes and
    flood protection. *)

From stdpp Require Import base tactics list numbers strings gmap sorting.
From Stdlib Require Import ZArith Lia.

Local Open Scope Z_scope.

(** ** Results of C code

    A piece of C either returns a value, has undefined behaviour (an access
    outside an object, a NULL dereference, a failed [assert]), or, in this
    model only, runs out of the fuel given to a loop. *)
Inductive res (A : Type) : Type :=
| Ok (a : A)
| UB
| NoFuel.
Arguments Ok {_} _.
Arguments UB {_}.
Arguments NoFuel {_}.

Definition rbind {A B} (m : res A) (f : A → res B) : res B :=
  match m with Ok a => f a | UB => UB | NoFuel => NoFuel end.

Declare Scope res_scope.
Delimit Scope res_scope with res.
Notation "'let!' x := m 'in' k" := (rbind m (fun x => k))
  (at level 10, x pattern, m at level 100, k at level 200,
   format "'[v' 'let!'  x  :=  m  'in' '/' k ']'") : res_scope.
Open Scope res_scope.

#[global] Instance res_eq_dec {A} `{EqDecision A} : EqDecision (res A).
Proof. solve_decision. Defined.

Lemma rbind_Ok {A B} (m : res A) (f : A → res B) b :
  rbind m f = Ok b ↔ ∃ a, m = Ok a ∧ f a = Ok b.
Proof. destruct m; simpl; naive_solver. Qed.
Lemma Ok_inj {A} (x y : A) : Ok x = Ok y → x = y.
Proof. by intros [=]. Qed.

(** The check of an [assert], or of a condition a pointer access needs. *)
Definition require (b : bool) : res unit := if b then Ok () else UB.

(** ** Loops

    One iteration of a C loop either continues with a new loop state or
    leaves the loop with a result.  [loop_total] is the total-correctness
    rule used by all the loop proofs: an invariant, a measure, and enough
    fuel. *)
Inductive step (S R : Type) : Type :=
| Next (s : S)
| Done (r : R).
Arguments Next {_ _} _.
Arguments Done {_ _} _.

Section Loop.
Context {S R : Type} (body : S → res (step S R)).

Fixpoint loop (fuel : nat) (s : S) : res R :=
  match fuel with
  | O => NoFuel
  | Datatypes.S f =>
      match body s with
      | Ok (Next s') => loop f s'
      | Ok (Done r) => Ok r
      | UB => UB
      | NoFuel => NoFuel
      end
  end.

Lemma loop_total (I : S → Prop) (μ : S → nat) (Q : R → Prop) :
  (∀ s, I s → ∃ o, body s = Ok o ∧
     match o with
     | Next s' => I s' ∧ (μ s' < μ s)%nat
     | Done r => Q r
     end) →
  ∀ fuel s, I s → (μ s < fuel)%nat → ∃ r, loop fuel s = Ok r ∧ Q r.
Proof.
  intros Hbody fuel. induction fuel as [|fuel IH]; intros s Hs Hμ; [lia|].
  simpl. destruct (Hbody s Hs) as ([s'|r] & -> & Ho).
  - destruct Ho as [HI Hlt]. apply IH; [done|lia].
  - by exists r.
Qed.

Lemma loop_mono fuel fuel' s r :
  loop fuel s = Ok r → (fuel ≤ fuel')%nat → loop fuel' s = Ok r.
Proof.
  revert fuel' s. induction fuel as [|fuel IH]; intros fuel' s; [done|].
  destruct fuel' as [|fuel']; [lia|]. simpl.
  destruct (body s) as [[s'|r']| |]; try done.
  intros H1 H2. apply IH; [done|lia].
Qed.
End Loop.

(** ** Bytes and C strings

    The program is compiled with unsigned [char]: a byte is a [Z] between 0
    and 255.  A C string is the list of the bytes before its NUL; reading at
    its length gives the NUL, reading further is undefined. *)
Definition byte (c : Z) : Prop := 0 ≤ c < 256.
Definition cchar (c : Z) : Prop := 0 < c < 256.
Definition cstr (s : list Z) : Prop := Forall cchar s.

#[global] Instance byte_dec c : Decision (byte c).
Proof. unfold byte. apply _. Defined.
#[global] Instance cchar_dec c : Decision (cchar c).
Proof. unfold cchar. apply _. Defined.
#[global] Instance cstr_dec s : Decision (cstr s).
Proof. unfold cstr. apply _. Defined.

Definition rd (s : list Z) (i : nat) : res Z :=
  match s !! i with
  | Some c => Ok c
  | None => if (i =? length s)%nat then Ok 0 else UB
  end.

(** A pointer into a string may also be the suffix it points at. *)
Definition deref (p : list Z) : Z := hd 0 p.

(** Bytes of a string literal. *)
Fixpoint bs (s : string) : list Z :=
  match s with
  | EmptyString => []
  | String a r => Z.of_N (Ascii.N_of_ascii a) :: bs r
  end.

Arguments bs _%_string_scope.

(** Character constants of the sources. *)
Abbreviation NUL := 0 (only parsing).
Abbreviation TAB := 9 (only parsing).
Abbreviation LF := 10 (only parsing).
Abbreviation CR := 13 (only parsing).
Abbreviation SPACE_CH := 32 (only parsing).
Abbreviation BANG := 33 (only parsing).
Abbreviation HASH := 35 (only parsing).
Abbreviation AMP := 38 (only parsing).
Abbreviation QUOTE := 39 (only parsing).
Abbreviation LPAREN := 40 (only parsing).
Abbreviation RPAREN := 41 (only parsing).
Abbreviation STAR := 42 (only parsing).
Abbreviation COMMA := 44 (only parsing).
Abbreviation DASH := 45 (only parsing).
Abbreviation DOT := 46 (only parsing).
Abbreviation SLASH := 47 (only parsing).
Abbreviation COLON := 58 (only parsing).
Abbreviation SEMI := 59 (only parsing).
Abbreviation LESS := 60 (only parsing).
Abbreviation EQUAL := 61 (only parsing).
Abbreviation MORE := 62 (only parsing).
Abbreviation QMARK := 63 (only parsing).
Abbreviation AT := 64 (only parsing).
Abbreviation BSLASH := 92 (only parsing).
Abbreviation UNDERSCORE := 95 (only parsing).
Abbreviation PIPE := 124 (only parsing).

Create HintDb obby discriminated.

Lemma rd_lookup s i c : s !! i = Some c → rd s i = Ok c.
Proof. unfold rd. by intros ->. Qed.

Lemma rd_length s : rd s (length s) = Ok 0.
Proof. unfold rd. by rewrite lookup_ge_None_2, Nat.eqb_refl by lia. Qed.

Lemma rd_total s i : (i ≤ length s)%nat → ∃ c, rd s i = Ok c.
Proof.
  intros Hi. destruct (decide (i = length s)) as [->|Hne].
  - exists 0. apply rd_length.
  - destruct (lookup_lt_is_Some_2 s i ltac:(lia)) as [c Hc].
    exists c. by apply rd_lookup.
Qed.

Lemma cstr_lookup s i c : cstr s → s !! i = Some c → cchar c.
Proof. intros Hs Hc. by eapply Forall_lookup_1 in Hc. Qed.

Lemma rd_zero s i : cstr s → rd s i = Ok 0 → i = length s.
Proof.
  intros Hs. unfold rd. destruct (s !! i) as [c|] eqn:E.
  - intros [= ->]. apply cstr_lookup in E; [|done]. unfold cchar in E. lia.
  - destruct (Nat.eqb_spec i (length s)); done.
Qed.

Lemma rd_drop s i : (i ≤ length s)%nat → rd s i = Ok (deref (drop i s)).
Proof.
  intros Hi. unfold deref. destruct (drop i s) as [|c r] eqn:E.
  - assert (i = length s) as -> by (apply (f_equal length) in E;
      rewrite length_drop in E; simpl in E; lia).
    apply rd_length.
  - apply rd_lookup. rewrite <-(Nat.add_0_r i), <-lookup_drop, E. done.
Qed.

Lemma drop_cons_S {A} (s : list A) i c r : drop i s = c :: r → drop (S i) s = r.
Proof.
  intros E. rewrite <-Nat.add_1_r, <-drop_drop, E. done.
Qed.

Lemma drop_nil_inv {A} (s : list A) i : drop i s = [] → (length s ≤ i)%nat.
Proof.
  intros E. apply (f_equal length) in E. rewrite length_drop in E. simpl in E. lia.
Qed.

Lemma drop_cons_lt {A} (s : list A) i c r : drop i s = c :: r → (i < length s)%nat.
Proof.
  intros E. apply (f_equal length) in E. rewrite length_drop in E. simpl in E. lia.
Qed.

Lemma cstr_drop s i : cstr s → cstr (drop i s).
Proof. apply Forall_drop. Qed.
Lemma cstr_take s i : cstr s → cstr (take i s).
Proof. apply Forall_take. Qed.
Lemma cstr_app s t : cstr s → cstr t → cstr (s ++ t).
Proof. intros. by apply Forall_app. Qed.
Lemma cstr_cons_inv c s : cstr (c :: s) → cchar c ∧ cstr s.
Proof. by intros [? ?]%Forall_cons. Qed.
Lemma cstr_nil : cstr [].
Proof. constructor. Qed.
#[export] Hint Resolve cstr_drop cstr_take cstr_app cstr_nil : obby.

(** Facts about all 256 bytes, checked by computation. *)
Definition all_bytes : list Z := seqZ 0 256.

Lemma all_bytes_ind (P : Z → bool) :
  forallb P all_bytes = true → ∀ c, byte c → P c = true.
Proof.
  intros H c Hc. rewrite forallb_forall in H. apply H.
  apply list_elem_of_In, elem_of_seqZ. unfold byte in Hc. lia.
Qed.

(** ** Machine integers *)
Definition u8 (z : Z) : Z := z mod 2 ^ 8.
Definition u32 (z : Z) : Z := z mod 2 ^ 32.
Definition u64 (z : Z) : Z := z mod 2 ^ 64.
(** Conversion to a 32-bit [int]. *)
Definition i32 (z : Z) : Z := (z + 2 ^ 31) mod 2 ^ 32 - 2 ^ 31.

Lemma i32_small z : - 2 ^ 31 ≤ z < 2 ^ 31 → i32 z = z.
Proof. intros H. unfold i32. rewrite Z.mod_small; lia. Qed.

(** ** Tactics *)

(** Case analysis on the boolean comparisons of the code. *)
Ltac bool_cases :=
  repeat match goal with
  | H : context [Z.eqb ?a ?b] |- _ => destruct (Z.eqb_spec a b)
  | |- context [Z.eqb ?a ?b] => destruct (Z.eqb_spec a b)
  | H : context [Nat.eqb ?a ?b] |- _ => destruct (Nat.eqb_spec a b)
  | |- context [Nat.eqb ?a ?b] => destruct (Nat.eqb_spec a b)
  | H : context [Z.ltb ?a ?b] |- _ => destruct (Z.ltb_spec a b)
  | |- context [Z.ltb ?a ?b] => destruct (Z.ltb_spec a b)
  | H : context [Z.leb ?a ?b] |- _ => destruct (Z.leb_spec a b)
  | |- context [Z.leb ?a ?b] => destruct (Z.leb_spec a b)
  | H : context [Nat.ltb ?a ?b] |- _ => destruct (Nat.ltb_spec a b)
  | |- context [Nat.ltb ?a ?b] => destruct (Nat.ltb_spec a b)
  | H : context [Nat.leb ?a ?b] |- _ => destruct (Nat.leb_spec a b)
  | |- context [Nat.leb ?a ?b] => destruct (Nat.leb_spec a b)
  end; simpl in *; try done; try lia.

(** Linear arithmetic with divisions and remainders by constants. *)
Ltac dlia := Z.to_euclidean_division_equations; lia.

(** ** Lists: the longest prefix that satisfies a test *)
Fixpoint take_while {A} (P : A → bool) (l : list A) : list A :=
  match l with
  | x :: r => if P x then x :: take_while P r else []
  | [] => []
  end.
Fixpoint drop_while {A} (P : A → bool) (l : list A) : list A :=
  match l with
  | x :: r => if P x then drop_while P r else l
  | [] => []
  end.

Lemma take_drop_while {A} (P : A → bool) l : take_while P l ++ drop_while P l = l.
Proof. induction l as [|x l IH]; simpl; [done|]. destruct (P x); simpl; congruence. Qed.

Lemma drop_while_drop {A} (P : A → bool) l :
  drop_while P l = drop (length (take_while P l)) l.
Proof. induction l as [|x l IH]; simpl; [done|]. by destruct (P x). Qed.

Lemma take_while_Forall {A} (P : A → bool) l : Forall (λ x, P x = true) (take_while P l).
Proof. induction l as [|x l IH]; simpl; [done|]. destruct (P x) eqn:E; by constructor. Qed.

Lemma drop_while_head {A} (P : A → bool) l x r : drop_while P l = x :: r → P x = false.
Proof.
  induction l as [|y l IH]; simpl; [done|]. destruct (P y) eqn:E; [done|]. by intros [= <- _].
Qed.

Lemma take_while_app {A} (P : A → bool) l r :
  Forall (λ x, P x = true) l → take_while P (l ++ r) = l ++ take_while P r.
Proof. induction 1 as [|x l Hx _ IH]; simpl; [done|]. by rewrite Hx, IH. Qed.
Lemma drop_while_app {A} (P : A → bool) l r :
  Forall (λ x, P x = true) l → drop_while P (l ++ r) = drop_while P r.
Proof. induction 1 as [|x l Hx _ IH]; simpl; [done|]. by rewrite Hx, IH. Qed.
Lemma take_while_all {A} (P : A → bool) l : Forall (λ x, P x = true) l → take_while P l = l.
Proof. intros H. rewrite <-(app_nil_r l) at 1. rewrite take_while_app by done. apply app_nil_r. Qed.
Lemma drop_while_all {A} (P : A → bool) l : Forall (λ x, P x = true) l → drop_while P l = [].
Proof. intros H. rewrite <-(app_nil_r l). by rewrite drop_while_app. Qed.
Lemma drop_while_length {A} (P : A → bool) l : (length (drop_while P l) ≤ length l)%nat.
Proof. induction l as [|x l IH]; simpl; [lia|]. destruct (P x); simpl; lia. Qed.
Lemma cstr_drop_while P s : cstr s → cstr (drop_while P s).
Proof. intros H. rewrite drop_while_drop. by apply cstr_drop. Qed.
Lemma cstr_take_while P s : cstr s → cstr (take_while P s).
Proof. intros H. rewrite <-(take_drop_while P s) in H. by apply Forall_app in H as [? _]. Qed.

(** A filter that keeps everything. *)
Lemma filter_all {A} (P : A → Prop) `{∀ x, Decision (P x)} l : Forall P l → filter P l = l.
Proof. induction 1 as [|x l Hx _ IH]; [done|]. by rewrite filter_cons_True, IH. Qed.
Lemma filter_iff_on {A} (P Q : A → Prop) `{∀ x, Decision (P x), ∀ x, Decision (Q x)} (l : list A) :
  (∀ x, x ∈ l → P x ↔ Q x) → filter P l = filter Q l.
Proof.
  induction l as [|x l IH]; intros Hl; [done|]. rewrite !filter_cons.
  assert (filter P l = filter Q l) as -> by (apply IH; intros y Hy; apply Hl; by right).
  pose proof (Hl x ltac:(by left)). repeat case_decide; tauto.
Qed.

(** Parts of a list in its order, and lists without duplicates. *)
Lemma sublist_Forall {A} (P : A → Prop) l k : k `sublist_of` l → Forall P l → Forall P k.
Proof. intros Hs. rewrite !Forall_forall. intros Hl x Hx. apply Hl. by eapply elem_of_sublist in Hs. Qed.
Lemma NoDup_map_inj {A B} (f : A → B) (l : list A) x y : NoDup (map f l) → x ∈ l → y ∈ l → f x = f y → x = y.
Proof.
  intros Hn [i Hi]%list_elem_of_lookup [j Hj]%list_elem_of_lookup E.
  assert (i = j) as ->; [|congruence]. apply (NoDup_lookup (map f l) i j (f x)); [done| |].
  - by rewrite list_lookup_fmap, Hi.
  - by rewrite list_lookup_fmap, Hj, E.
Qed.
Lemma sorted_sublist {A} (R : relation A) l k : k `sublist_of` l → StronglySorted R l → StronglySorted R k.
Proof.
  induction 1 as [|x k l Hs IH|x k l Hs IH]; intros Hl; [done| |]; inversion Hl as [|?? H1 H2]; subst; [|by auto].
  constructor; [by auto|]. by eapply sublist_Forall.
Qed.

(** ** Numbers

    [isspace] and [atoi] of the C library; a [long] that does not fit an [int] is
    cut to its low bits. *)
Definition c_space (c : Z) : bool := (c =? 32) || ((9 <=? c) && (c <=? 13)).
Fixpoint digits_val (acc : Z) (s : list Z) : Z :=
  match s with
  | c :: r => if (48 <=? c) && (c <=? 57) then digits_val (acc * 10 + (c - 48)) r else acc
  | [] => acc
  end.
Definition clamp64 (z : Z) : Z := Z.max (- 2 ^ 63) (Z.min (2 ^ 63 - 1) z).
Definition atoi (s : list Z) : Z :=
  let s := drop_while c_space s in
  match s with
  | c :: r =>
      if c =? DASH then i32 (clamp64 (- digits_val 0 r))
      else if c =? 43 then i32 (clamp64 (digits_val 0 r))
      else i32 (clamp64 (digits_val 0 s))
  | [] => 0
  end.
