(* ===== verification/Chars.v ===== *)
(** * Character tables and case-insensitive comparison

    The three 256-entry tables of [src/match.c] with the classification
    macros of [include/common.h] that read them, and the two string
    comparisons built on them, [smycmp] and [mycmp]. *)

From stdpp Require Import base tactics list numbers strings.
From Stdlib Require Import ZArith Lia.
From S2P Require Import Prelude.

Local Open Scope Z_scope.

(** ** Tables (src/match.c) *)

(** Attribute bits of [include/common.h]. *)
Definition PRINT : Z := 1.
Definition CNTRL : Z := 2.
Definition ALPHA : Z := 4.
Definition DIGIT : Z := 16.
Definition SPACE : Z := 32.
Definition ALLOW : Z := 64.

Definition tolowertab : list Z := [
   0; 0x1; 0x2; 0x3; 0x4; 0x5; 0x6; 0x7; 0x8; 0x9; 0xa;
   0xb; 0xc; 0xd; 0xe; 0xf; 0x10; 0x11; 0x12; 0x13; 0x14;
   0x15; 0x16; 0x17; 0x18; 0x19; 0x1a; 0x1b; 0x1c; 0x1d;
   0x1e; 0x1f;
   32; 33; 34; 35; 36; 37; 38; 0x27; 40; 41;
   42; 43; 44; 45; 46; 47;
   48; 49; 50; 51; 52; 53; 54; 55; 56; 57;
   58; 59; 60; 61; 62; 63;
   64; 97; 98; 99; 100; 101; 102; 103; 104; 105;
   106; 107; 108; 109; 110; 111; 112; 113; 114; 115;
   116; 117; 118; 119; 120; 121; 122; 91; 92; 93; 94;
   95;
   96; 97; 98; 99; 100; 101; 102; 103; 104; 105;
   106; 107; 108; 109; 110; 111; 112; 113; 114; 115;
   116; 117; 118; 119; 120; 121; 122; 123; 124; 125; 126;
   0x7f;
   0x80; 0x81; 0x82; 0x83; 0x84; 0x85; 0x86; 0x87; 0x88; 0x89;
   0x8a; 0x8b; 0x8c; 0x8d; 0x8e; 0x8f;
   0x90; 0x91; 0x92; 0x93; 0x94; 0x95; 0x96; 0x97; 0x98; 0x99;
   0x9a; 0x9b; 0x9c; 0x9d; 0x9e; 0x9f;
   0xa0; 0xa1; 0xa2; 0xa3; 0xa4; 0xa5; 0xa6; 0xa7; 0xa8; 0xa9;
   0xaa; 0xab; 0xac; 0xad; 0xae; 0xaf;
   0xb0; 0xb1; 0xb2; 0xb3; 0xb4; 0xb5; 0xb6; 0xb7; 0xb8; 0xb9;
   0xba; 0xbb; 0xbc; 0xbd; 0xbe; 0xbf;
   0xc0; 0xc1; 0xc2; 0xc3; 0xc4; 0xc5; 0xc6; 0xc7; 0xc8; 0xc9;
   0xca; 0xcb; 0xcc; 0xcd; 0xce; 0xcf;
   0xd0; 0xd1; 0xd2; 0xd3; 0xd4; 0xd5; 0xd6; 0xd7; 0xd8; 0xd9;
   0xda; 0xdb; 0xdc; 0xdd; 0xde; 0xdf;
   0xe0; 0xe1; 0xe2; 0xe3; 0xe4; 0xe5; 0xe6; 0xe7; 0xe8; 0xe9;
   0xea; 0xeb; 0xec; 0xed; 0xee; 0xef;
   0xf0; 0xf1; 0xf2; 0xf3; 0xf4; 0xf5; 0xf6; 0xf7; 0xf8; 0xf9;
   0xfa; 0xfb; 0xfc; 0xfd; 0xfe; 0xff].

Definition touppertab : list Z := [
   0; 0x1; 0x2; 0x3; 0x4; 0x5; 0x6; 0x7; 0x8; 0x9; 0xa;
   0xb; 0xc; 0xd; 0xe; 0xf; 0x10; 0x11; 0x12; 0x13; 0x14;
   0x15; 0x16; 0x17; 0x18; 0x19; 0x1a; 0x1b; 0x1c; 0x1d;
   0x1e; 0x1f;
   32; 33; 34; 35; 36; 37; 38; 0x27; 40; 41;
   42; 43; 44; 45; 46; 47;
   48; 49; 50; 51; 52; 53; 54; 55; 56; 57;
   58; 59; 60; 61; 62; 63;
   64; 65; 66; 67; 68; 69; 70; 71; 72; 73;
   74; 75; 76; 77; 78; 79; 80; 81; 82; 83;
   84; 85; 86; 87; 88; 89; 90; 91; 92; 93; 94;
   0x5f;
   96; 65; 66; 67; 68; 69; 70; 71; 72; 73;
   74; 75; 76; 77; 78; 79; 80; 81; 82; 83;
   84; 85; 86; 87; 88; 89; 90; 123; 124; 125; 126;
   0x7f;
   0x80; 0x81; 0x82; 0x83; 0x84; 0x85; 0x86; 0x87; 0x88; 0x89;
   0x8a; 0x8b; 0x8c; 0x8d; 0x8e; 0x8f;
   0x90; 0x91; 0x92; 0x93; 0x94; 0x95; 0x96; 0x97; 0x98; 0x99;
   0x9a; 0x9b; 0x9c; 0x9d; 0x9e; 0x9f;
   0xa0; 0xa1; 0xa2; 0xa3; 0xa4; 0xa5; 0xa6; 0xa7; 0xa8; 0xa9;
   0xaa; 0xab; 0xac; 0xad; 0xae; 0xaf;
   0xb0; 0xb1; 0xb2; 0xb3; 0xb4; 0xb5; 0xb6; 0xb7; 0xb8; 0xb9;
   0xba; 0xbb; 0xbc; 0xbd; 0xbe; 0xbf;
   0xc0; 0xc1; 0xc2; 0xc3; 0xc4; 0xc5; 0xc6; 0xc7; 0xc8; 0xc9;
   0xca; 0xcb; 0xcc; 0xcd; 0xce; 0xcf;
   0xd0; 0xd1; 0xd2; 0xd3; 0xd4; 0xd5; 0xd6; 0xd7; 0xd8; 0xd9;
   0xda; 0xdb; 0xdc; 0xdd; 0xde; 0xdf;
   0xe0; 0xe1; 0xe2; 0xe3; 0xe4; 0xe5; 0xe6; 0xe7; 0xe8; 0xe9;
   0xea; 0xeb; 0xec; 0xed; 0xee; 0xef;
   0xf0; 0xf1; 0xf2; 0xf3; 0xf4; 0xf5; 0xf6; 0xf7; 0xf8; 0xf9;
   0xfa; 0xfb; 0xfc; 0xfd; 0xfe; 0xff].

#[local] Infix ".|" := Z.lor (at level 50, left associativity).

Definition char_atribs : list Z := [
   CNTRL; CNTRL; CNTRL; CNTRL; CNTRL; CNTRL; CNTRL; CNTRL;
   CNTRL; (CNTRL .| SPACE); (CNTRL .| SPACE); (CNTRL .| SPACE);
   (CNTRL .| SPACE);
   (CNTRL .| SPACE); CNTRL; CNTRL;
   CNTRL; CNTRL; CNTRL; CNTRL; CNTRL; CNTRL; CNTRL; CNTRL;
   CNTRL; CNTRL; CNTRL; CNTRL; CNTRL; CNTRL; CNTRL; CNTRL;
   (PRINT .| SPACE);
   PRINT; PRINT; PRINT; PRINT; PRINT; PRINT; PRINT; PRINT;
   PRINT; PRINT; PRINT; PRINT; (PRINT .| ALLOW); (PRINT .| ALLOW);
   PRINT;
   ((PRINT .| DIGIT) .| ALLOW); ((PRINT .| DIGIT) .| ALLOW);
   ((PRINT .| DIGIT) .| ALLOW);
   ((PRINT .| DIGIT) .| ALLOW); ((PRINT .| DIGIT) .| ALLOW);
   ((PRINT .| DIGIT) .| ALLOW);
   ((PRINT .| DIGIT) .| ALLOW); ((PRINT .| DIGIT) .| ALLOW);
   ((PRINT .| DIGIT) .| ALLOW);
   ((PRINT .| DIGIT) .| ALLOW); PRINT; PRINT;
   PRINT; PRINT; PRINT; PRINT;
   PRINT;
   ((PRINT .| ALPHA) .| ALLOW); ((PRINT .| ALPHA) .| ALLOW);
   ((PRINT .| ALPHA) .| ALLOW);
   ((PRINT .| ALPHA) .| ALLOW); ((PRINT .| ALPHA) .| ALLOW);
   ((PRINT .| ALPHA) .| ALLOW);
   ((PRINT .| ALPHA) .| ALLOW); ((PRINT .| ALPHA) .| ALLOW);
   ((PRINT .| ALPHA) .| ALLOW);
   ((PRINT .| ALPHA) .| ALLOW); ((PRINT .| ALPHA) .| ALLOW);
   ((PRINT .| ALPHA) .| ALLOW);
   ((PRINT .| ALPHA) .| ALLOW); ((PRINT .| ALPHA) .| ALLOW);
   ((PRINT .| ALPHA) .| ALLOW);
   ((PRINT .| ALPHA) .| ALLOW); ((PRINT .| ALPHA) .| ALLOW);
   ((PRINT .| ALPHA) .| ALLOW);
   ((PRINT .| ALPHA) .| ALLOW); ((PRINT .| ALPHA) .| ALLOW);
   ((PRINT .| ALPHA) .| ALLOW);
   ((PRINT .| ALPHA) .| ALLOW); ((PRINT .| ALPHA) .| ALLOW);
   ((PRINT .| ALPHA) .| ALLOW);
   ((PRINT .| ALPHA) .| ALLOW); ((PRINT .| ALPHA) .| ALLOW); PRINT;
   PRINT; PRINT; PRINT;
   (PRINT .| ALLOW); PRINT;
   ((PRINT .| ALPHA) .| ALLOW); ((PRINT .| ALPHA) .| ALLOW);
   ((PRINT .| ALPHA) .| ALLOW);
   ((PRINT .| ALPHA) .| ALLOW); ((PRINT .| ALPHA) .| ALLOW);
   ((PRINT .| ALPHA) .| ALLOW);
   ((PRINT .| ALPHA) .| ALLOW); ((PRINT .| ALPHA) .| ALLOW);
   ((PRINT .| ALPHA) .| ALLOW);
   ((PRINT .| ALPHA) .| ALLOW); ((PRINT .| ALPHA) .| ALLOW);
   ((PRINT .| ALPHA) .| ALLOW);
   ((PRINT .| ALPHA) .| ALLOW); ((PRINT .| ALPHA) .| ALLOW);
   ((PRINT .| ALPHA) .| ALLOW);
   ((PRINT .| ALPHA) .| ALLOW); ((PRINT .| ALPHA) .| ALLOW);
   ((PRINT .| ALPHA) .| ALLOW);
   ((PRINT .| ALPHA) .| ALLOW); ((PRINT .| ALPHA) .| ALLOW);
   ((PRINT .| ALPHA) .| ALLOW);
   ((PRINT .| ALPHA) .| ALLOW); ((PRINT .| ALPHA) .| ALLOW);
   ((PRINT .| ALPHA) .| ALLOW);
   ((PRINT .| ALPHA) .| ALLOW); ((PRINT .| ALPHA) .| ALLOW); PRINT;
   PRINT; PRINT; PRINT;
   0;
   0; 0; 0; 0; 0; 0; 0; 0; 0; 0; 0; 0; 0; 0; 0; 0;
   0; 0; 0; 0; 0; 0; 0; 0; 0; 0; 0; 0; 0; 0; 0; 0;
   0; 0; 0; 0; 0; 0; 0; 0; 0; 0; 0; 0; 0; 0; 0; 0;
   0; 0; 0; 0; 0; 0; 0; 0; 0; 0; 0; 0; 0; 0; 0; 0;
   0; 0; 0; 0; 0; 0; 0; 0; 0; 0; 0; 0; 0; 0; 0; 0;
   0; 0; 0; 0; 0; 0; 0; 0; 0; 0; 0; 0; 0; 0; 0; 0;
   0; 0; 0; 0; 0; 0; 0; 0; 0; 0; 0; 0; 0; 0; 0; 0;
   0; 0; 0; 0; 0; 0; 0; 0; 0; 0; 0; 0; 0; 0; 0; 0].

(** An array access whose index is a byte; the arrays have 256 entries. *)
Definition tab (t : list Z) (c : Z) : Z := nth (Z.to_nat (u8 c)) t 0.
Definition tolower (c : Z) : Z := tab tolowertab c.
Definition toupper (c : Z) : Z := tab touppertab c.

(** The macros that are used as conditions: true when the C value is not 0. *)
Definition has_attr (mask c : Z) : bool := negb (Z.land (tab char_atribs c) mask =? 0).
Definition isallowed (c : Z) : bool := has_attr ALLOW c.
Definition iscntrl (c : Z) : bool := has_attr CNTRL c.
Definition isalpha (c : Z) : bool := has_attr ALPHA c.
Definition isspace (c : Z) : bool := has_attr SPACE c.
Definition isupper (c : Z) : bool := has_attr ALPHA c && (u8 c <? 0x60).
Definition islower (c : Z) : bool := has_attr ALPHA c && (0x5f <? u8 c).
Definition isdigit (c : Z) : bool := has_attr DIGIT c.
Definition isalnum (c : Z) : bool := has_attr (Z.lor DIGIT ALPHA) c.
Definition isgraph (c : Z) : bool := has_attr PRINT c && negb (u8 c =? 0x32).
Definition ispunct (c : Z) : bool := negb (has_attr (Z.lor (Z.lor CNTRL ALPHA) DIGIT) c).
Definition iswseperator (c : Z) : bool := negb (isalnum c) && negb (128 <=? u8 c).

(** ** Comparison (src/match.c, include/common.h) *)

(** [smycmp]: walk both strings while the upper-cased characters agree. *)
Fixpoint smycmp (s1 s2 : list Z) : res Z :=
  let r := toupper (deref s1) - toupper (deref s2) in
  if r =? 0 then
    match s1 with
    | [] => Ok 0
    | _ :: s1' =>
        match s2 with
        | [] => UB  (* would step past the NUL of s2 *)
        | _ :: s2' => smycmp s1' s2'
        end
    end
  else Ok r.

(** The macro [mycmp], true when the strings differ: it compares the first
    characters and calls [smycmp] on the rest, without a test for the NUL. *)
Definition mycmp (a b : list Z) : res bool :=
  if negb (toupper (deref a) =? toupper (deref b)) then Ok true
  else match a, b with
       | _ :: a', _ :: b' => let! r := smycmp a' b' in Ok (negb (r =? 0))
       | _, _ => UB
       end.

(** The C library's [strcasecmp]. *)
Fixpoint strcasecmp (a b : list Z) : Z :=
  let d := tolower (deref a) - tolower (deref b) in
  if d =? 0 then
    match a, b with
    | _ :: a', _ :: b' => strcasecmp a' b'
    | _, _ => 0
    end
  else d.

(** ** Theory *)

Lemma u8_byte c : byte c → u8 c = c.
Proof. unfold byte, u8. intros. by apply Z.mod_small. Qed.

Lemma u8_range c : byte (u8 c).
Proof. unfold byte, u8. apply Z.mod_pos_bound. lia. Qed.

(** The tables are plain ASCII case mapping. *)
Definition ascii_lower (c : Z) : Z := if (65 <=? c) && (c <=? 90) then c + 32 else c.
Definition ascii_upper (c : Z) : Z := if (97 <=? c) && (c <=? 122) then c - 32 else c.

Lemma tolower_ascii c : byte c → tolower c = ascii_lower c.
Proof.
  intros H. apply Z.eqb_eq.
  apply (all_bytes_ind (fun c => tolower c =? ascii_lower c)); [by vm_compute|done].
Qed.

Lemma toupper_ascii c : byte c → toupper c = ascii_upper c.
Proof.
  intros H. apply Z.eqb_eq.
  apply (all_bytes_ind (fun c => toupper c =? ascii_upper c)); [by vm_compute|done].
Qed.

Lemma cchar_byte c : cchar c → byte c.
Proof. unfold cchar, byte. lia. Qed.
Lemma byte_0 : byte 0.
Proof. unfold byte. lia. Qed.
#[export] Hint Resolve cchar_byte byte_0 : obby.

Lemma cstr_bytes s : cstr s → Forall byte s.
Proof. induction 1; constructor; eauto with obby. Qed.
#[export] Hint Resolve cstr_bytes : obby.

Lemma deref_byte s : cstr s → byte (deref s).
Proof. destruct s; simpl; [by eauto with obby|]. intros [? ?]%cstr_cons_inv. eauto with obby. Qed.
#[export] Hint Resolve deref_byte : obby.

(** Upper-casing and lower-casing identify the same characters: this is what
    lets the hash (lower case) be used with the comparison (upper case). *)
Lemma toupper_tolower_eq c d :
  byte c → byte d → toupper c = toupper d ↔ tolower c = tolower d.
Proof.
  intros Hc Hd. rewrite !toupper_ascii, !tolower_ascii by done.
  unfold ascii_lower, ascii_upper. unfold byte in *.
  repeat case_match; lia.
Qed.

Lemma toupper_zero c : byte c → toupper c = 0 ↔ c = 0.
Proof.
  intros Hc. rewrite toupper_ascii by done. unfold ascii_upper, byte in *.
  repeat case_match; lia.
Qed.

(** The case-insensitive identity of a string. *)
Definition casefold (s : list Z) : list Z := map tolower s.

Lemma smycmp_spec s1 s2 :
  cstr s1 → cstr s2 →
  ∃ r, smycmp s1 s2 = Ok r ∧ (r = 0 ↔ casefold s1 = casefold s2).
Proof.
  revert s2. induction s1 as [|c s1 IH]; intros s2 H1 H2; simpl.
  - change (toupper 0) with 0. destruct s2 as [|d s2]; simpl;
      try change (toupper 0) with 0; simpl.
    + by exists 0.
    + apply cstr_cons_inv in H2 as [Hd _]. pose proof (cchar_byte _ Hd) as Hb.
      pose proof (toupper_zero d Hb) as Hz. unfold cchar in Hd.
      destruct (Z.eqb_spec (0 - toupper d) 0); [lia|].
      eexists. split; [done|]. split; [lia|done].
  - apply cstr_cons_inv in H1 as [Hc H1]. pose proof (cchar_byte _ Hc) as Hb.
    destruct s2 as [|d s2]; simpl.
    + pose proof (toupper_zero c Hb) as Hz. unfold cchar in Hc.
      change (toupper 0) with 0.
      destruct (Z.eqb_spec (toupper c - 0) 0); [lia|].
      eexists. split; [done|]. split; [lia|done].
    + apply cstr_cons_inv in H2 as [Hd H2]. pose proof (cchar_byte _ Hd) as Hb'.
      pose proof (toupper_tolower_eq c d Hb Hb') as He.
      destruct (Z.eqb_spec (toupper c - toupper d) 0).
      * destruct (IH s2 H1 H2) as (r & -> & Hr). exists r. split; [done|].
        rewrite Hr. split; [intros ->; f_equal; apply He; lia|]. by intros [= _ ?].
      * eexists. split; [done|]. split; [lia|]. intros [= ? ?]. exfalso.
        apply n. rewrite (proj2 He); [lia|done].
Qed.

(** [mycmp] agrees with [smycmp] unless both strings are empty, where it
    reads past the NUL bytes. *)
Lemma mycmp_spec a b :
  cstr a → cstr b → (a ≠ [] ∨ b ≠ []) →
  mycmp a b = Ok (bool_decide (casefold a ≠ casefold b)).
Proof.
  intros Ha Hb Hne. destruct (smycmp_spec a b Ha Hb) as (r & Hr & Hiff).
  unfold mycmp. destruct a as [|c a], b as [|d b]; [naive_solver|..].
  - apply cstr_cons_inv in Hb as [Hd _].
    pose proof (toupper_zero d (cchar_byte _ Hd)). unfold cchar in *.
    rewrite bool_decide_eq_true_2 by done. unfold deref. simpl hd.
    change (toupper 0) with 0. bool_cases.
  - apply cstr_cons_inv in Ha as [Hc _].
    pose proof (toupper_zero c (cchar_byte _ Hc)). unfold cchar in *.
    rewrite bool_decide_eq_true_2 by done. unfold deref. simpl hd.
    change (toupper 0) with 0. bool_cases.
  - simpl in Hr. unfold deref in *. simpl hd in *.
    destruct (Z.eqb_spec (toupper c) (toupper d)) as [E|E]; simpl negb; cbv iota.
    + rewrite E, Z.sub_diag in Hr. simpl in Hr. rewrite Hr. simpl rbind. f_equal.
      destruct (Z.eqb_spec r 0).
      * rewrite bool_decide_eq_false_2; tauto.
      * rewrite bool_decide_eq_true_2; tauto.
    + rewrite bool_decide_eq_true_2; [done|]. intros [= Hcd _]. apply E.
      apply cstr_cons_inv in Ha as [Hc _], Hb as [Hd _].
      by apply toupper_tolower_eq; eauto with obby.
Qed.

(** Comparison of case-folded strings. *)
Fixpoint cmpz (a b : list Z) : Z :=
  match a, b with
  | [], [] => 0
  | [], y :: _ => - y
  | x :: _, [] => x
  | x :: a', y :: b' => if x =? y then cmpz a' b' else x - y
  end.

Lemma strcasecmp_cmpz a b : cstr a → cstr b → strcasecmp a b = cmpz (casefold a) (casefold b).
Proof.
  assert (∀ c, cchar c → tolower c ≠ 0) as Hnz.
  { intros c Hc. unfold cchar in Hc. rewrite tolower_ascii by (unfold byte; lia).
    unfold ascii_lower. bool_cases. }
  intros Ha. revert b. induction Ha as [|x a Hx Ha IH]; intros b Hb.
  - destruct Hb as [|y b Hy Hb]; [done|]. unfold cmpz. cbn [strcasecmp deref hd casefold map].
    change (tolower 0) with 0. specialize (Hnz y Hy). destruct (Z.eqb_spec (0 - tolower y) 0); lia.
  - destruct Hb as [|y b Hy Hb]; cbn [strcasecmp deref hd casefold map cmpz].
    + change (tolower 0) with 0. specialize (Hnz x Hx). destruct (Z.eqb_spec (tolower x - 0) 0); lia.
    + rewrite (IH b Hb). unfold casefold.
      destruct (Z.eqb_spec (tolower x - tolower y) 0), (Z.eqb_spec (tolower x) (tolower y)); (done || lia).
Qed.

Lemma cmpz_refl a : cmpz a a = 0.
Proof. induction a as [|x a IH]; [done|]. simpl. by rewrite Z.eqb_refl. Qed.

Lemma cmpz_trans a b c :
  Forall (λ x, 0 < x) a → Forall (λ x, 0 < x) b → Forall (λ x, 0 < x) c →
  cmpz a b < 0 → cmpz b c < 0 → cmpz a c < 0.
Proof.
  intros Ha. revert b c. induction Ha as [|x a Hx Ha IH]; intros b c Hb Hc; destruct Hb as [|y b Hy Hb];
    destruct Hc as [|z c Hz Hc]; simpl; try lia.
  destruct (Z.eqb_spec x y) as [->|], (Z.eqb_spec y z) as [->|]; bool_cases. by apply IH.
Qed.

Lemma cmpz_anti a b : cmpz a b = - cmpz b a.
Proof.
  revert b. induction a as [|x a IH]; intros [|y b]; simpl; try lia.
  rewrite (Z.eqb_sym y x). destruct (Z.eqb_spec x y); [apply IH|lia].
Qed.

Lemma cmpz_zero a b : Forall (λ x, 0 < x) a → Forall (λ x, 0 < x) b → cmpz a b = 0 → a = b.
Proof.
  intros Ha. revert b. induction Ha as [|x a Hx Ha IH]; intros b Hb; destruct Hb as [|y b Hy Hb]; simpl;
    try (done || lia).
  destruct (Z.eqb_spec x y) as [->|]; [|lia]. intros H. by rewrite (IH b Hb H).
Qed.

Lemma casefold_pos s : cstr s → Forall (λ x, 0 < x) (casefold s).
Proof.
  induction 1 as [|c s Hc _ IH]; simpl; constructor; [|done].
  unfold cchar in Hc. rewrite tolower_ascii by (unfold byte; lia). unfold ascii_lower. bool_cases.
Qed.

Lemma strcasecmp_eq a b :
  cstr a → cstr b → (strcasecmp a b =? 0) = bool_decide (casefold a = casefold b).
Proof.
  intros Ha Hb. rewrite strcasecmp_cmpz by done.
  destruct (Z.eqb_spec (cmpz (casefold a) (casefold b)) 0) as [E|E]; symmetry.
  - apply bool_decide_eq_true_2, cmpz_zero; by try apply casefold_pos.
  - apply bool_decide_eq_false_2. intros He. rewrite He, cmpz_refl in E. done.
Qed.
