(* ===== verification/Support.v ===== *)
(** * Library routines of src/support.c

    Bounded string copies and concatenations, tokenisers, base64, natural
    ordering.  A destination buffer of [size] bytes is
    represented by the C string it holds; the routines return the new string
    together with the value the C function returns. *)

From stdpp Require Import base tactics list numbers strings.
From Stdlib Require Import ZArith Lia.
From S2P Require Import Prelude Chars.

Local Open Scope Z_scope.

(** ** Bounded copies *)
Module Strl.

(** Number of bytes before the NUL, but at most [maxlen]. *)
Definition strnlen (s : list Z) (maxlen : nat) : nat := Nat.min (length s) maxlen.

Definition strlcpy (dst src : list Z) (size : nat) : list Z * nat :=
  let len := length src in
  let ret := len in
  if (size <=? 0)%nat then (dst, 0%nat) else
  let len := if (size <=? len)%nat then (size - 1)%nat else len in
  (take len src, ret).

Definition strlncpy (dst src : list Z) (size n : nat) : list Z * nat :=
  let len := strnlen src n in
  let ret := len in
  if (size <=? 0)%nat then (dst, 0%nat) else
  let len := if (size <=? len)%nat then (size - 1)%nat else len in
  (take len src, ret).

Definition strlcat (dst src : list Z) (size : nat) : list Z * nat :=
  let len1 := length dst in
  let len2 := length src in
  let ret := (len1 + len2)%nat in
  if (size <=? len1)%nat then (dst, size) else
  let len2 := if (size <=? len1 + len2)%nat then (size - (len1 + 1))%nat else len2 in
  if (0 <? len2)%nat then (dst ++ take len2 src, ret) else (dst, ret).

Definition strlncat (dst src : list Z) (size n : nat) : list Z * nat :=
  let len1 := length dst in
  let len2 := strnlen src n in
  let ret := (len1 + len2)%nat in
  if (size <=? len1)%nat then (dst, size) else
  let len2 := if (size <=? len1 + len2)%nat then (size - (len1 + 1))%nat else len2 in
  if (0 <? len2)%nat then (dst ++ take len2 src, ret) else (dst, ret).

Definition strlcat_letter (buf : list Z) (c : Z) (buflen : nat) : list Z :=
  let n := length buf in
  if ((buflen =? 0)%nat || (buflen - 1 <=? n)%nat)%bool then buf
  else buf ++ [c].

(** A NULL source is [None]. *)
Definition strldup (src : option (list Z)) (max : nat) : option (list Z) :=
  if (max =? 0)%nat then None else
  match src with
  | None => None
  | Some s =>
      let n := length s in
      let n := if (max - 1 <? n)%nat then (max - 1)%nat else n in
      Some (take n s)
  end.

(** Cut off at the first CR or LF. *)
Fixpoint stripcrlf (c : list Z) : list Z :=
  match c with
  | [] => []
  | x :: r => if (x =? LF) || (x =? CR) then [] else x :: stripcrlf r
  end.

(** [size] counts the room left for characters; the loop of both
    [strtolower_safe] and [strtoupper_safe]. *)
Fixpoint case_copy (f : Z → Z) (src : list Z) (size : nat) : list Z :=
  match src, size with
  | x :: r, S size' => f x :: case_copy f r size'
  | _, _ => []
  end.

Definition strtolower_safe (dst src : list Z) (size : nat) : list Z :=
  match size with O => dst | S size' => case_copy tolower src size' end.
Definition strtoupper_safe (dst src : list Z) (size : nat) : list Z :=
  match size with O => dst | S size' => case_copy toupper src size' end.

(** All the copies are [take]: at most [size - 1] characters, so that the NUL
    fits. *)
Lemma strlcpy_fst dst src size :
  (0 < size)%nat → fst (strlcpy dst src size) = take (size - 1) src.
Proof.
  intros Hs. unfold strlcpy. destruct (Nat.leb_spec size 0); [lia|]. simpl.
  destruct (Nat.leb_spec size (length src)); [done|].
  by rewrite !take_ge by lia.
Qed.

Lemma strlcat_fst dst src size :
  (length dst < size)%nat →
  fst (strlcat dst src size) = take (size - 1) (dst ++ src).
Proof.
  intros Hs. unfold strlcat. destruct (Nat.leb_spec size (length dst)); [lia|].
  rewrite take_app, (take_ge dst) by lia.
  destruct (Nat.leb_spec size (length dst + length src)).
  - replace (size - (length dst + 1))%nat with (size - 1 - length dst)%nat by lia.
    destruct (Nat.ltb_spec 0 (size - 1 - length dst)); simpl; [done|].
    replace (size - 1 - length dst)%nat with 0%nat by lia. by rewrite app_nil_r.
  - rewrite (take_ge src (size - 1 - length dst)) by lia.
    destruct (Nat.ltb_spec 0 (length src)); simpl; [by rewrite take_ge by lia|].
    destruct src; simpl in *; [by rewrite app_nil_r|lia].
Qed.

Lemma strlncat_strlcat dst src size n :
  fst (strlncat dst src size n) = fst (strlcat dst (take n src) size).
Proof.
  unfold strlncat, strlcat, strnlen. rewrite length_take.
  rewrite (Nat.min_comm (length src) n).
  destruct (size <=? length dst)%nat; [done|].
  match goal with |- context [(0 <? ?k)%nat] => set (len2 := k) end.
  destruct (0 <? len2)%nat; [|done]. simpl. f_equal.
  rewrite take_take. f_equal. subst len2.
  destruct (Nat.leb_spec size (length dst + n `min` length src)); lia.
Qed.

Lemma strlncat_fst dst src size n :
  (length dst < size)%nat →
  fst (strlncat dst src size n) = take (size - 1) (dst ++ take n src).
Proof. intros. by rewrite strlncat_strlcat, strlcat_fst. Qed.

(** Appending to a buffer that was already truncated truncates the whole. *)
Lemma strlcat_trunc T src size :
  (0 < size)%nat →
  fst (strlcat (take (size - 1) T) src size) = take (size - 1) (T ++ src).
Proof.
  intros Hs. rewrite strlcat_fst by (rewrite length_take; lia).
  rewrite !take_app, take_take, Nat.min_id. f_equal. rewrite length_take.
  destruct (Nat.le_gt_cases (length T) (size - 1)).
  - by rewrite Nat.min_r by done.
  - rewrite Nat.min_l by lia.
    by replace (size - 1 - (size - 1))%nat with (size - 1 - length T)%nat by lia.
Qed.

Lemma strlncat_trunc T src size n :
  (0 < size)%nat →
  fst (strlncat (take (size - 1) T) src size n) = take (size - 1) (T ++ take n src).
Proof. intros. by rewrite strlncat_strlcat, strlcat_trunc. Qed.

Lemma case_copy_take f src size : case_copy f src size = take size (map f src).
Proof. revert size; induction src; intros []; simpl; congruence. Qed.

End Strl.

(** ** Tokenisers *)
Module Strtoken.

(** [strchr(fs, c) != NULL] for a character that is not NUL. *)
Definition sep (fs : list Z) (c : Z) : bool := bool_decide (c ∈ fs).

Fixpoint skip_seps (fs pos : list Z) : list Z :=
  match pos with
  | c :: r => if sep fs c then skip_seps fs r else pos
  | [] => []
  end.

(** The token and what follows its terminator: [None] at the NUL. *)
Fixpoint scan_token (fs pos : list Z) : list Z * option (list Z) :=
  match pos with
  | [] => ([], None)
  | c :: r =>
      if sep fs c then ([], Some r)
      else let '(tok, rest) := scan_token fs r in (c :: tok, rest)
  end.

(** [strtoken]: [pos] is the string to scan, or the saved pointer; the
    result is the token (or NULL) and the new saved pointer. *)
Definition strtoken (pos : option (list Z)) (fs : list Z)
  : option (list Z) * option (list Z) :=
  match pos with
  | None => (None, None)
  | Some p =>
      match skip_seps fs p with
      | [] => (None, None)
      | p' => let '(tok, save) := scan_token fs p' in (Some tok, save)
      end
  end.

(** [strtoken_noskip]: [str] when it is a new scan, otherwise the saved
    pointer. *)
Definition strtoken_noskip (pos : option (list Z)) (fs : list Z)
  : option (list Z) * option (list Z) :=
  match pos with
  | None => (None, None)
  | Some p => let '(tok, save) := scan_token fs p in (Some tok, save)
  end.

(** The idiom [for (t = strtoken(&p, str, fs); t; t = strtoken(&p, NULL, fs))]
    collects every token. *)
Fixpoint tokens_of (tk : option (list Z) → list Z → option (list Z) * option (list Z))
    (fs : list Z) (fuel : nat) (pos : option (list Z)) : res (list (list Z)) :=
  match fuel with
  | O => NoFuel
  | S f =>
      match tk pos fs with
      | (None, _) => Ok []
      | (Some t, save) => let! ts := tokens_of tk fs f save in Ok (t :: ts)
      end
  end.

Definition strtoken_all (fs str : list Z) : res (list (list Z)) :=
  tokens_of strtoken fs (length str + 2) (Some str).
Definition strtoken_noskip_all (fs str : list Z) : res (list (list Z)) :=
  tokens_of strtoken_noskip fs (length str + 2) (Some str).

(** Reference: split at every separator. *)
Fixpoint split (fs s : list Z) : list (list Z) :=
  match s with
  | [] => [[]]
  | c :: r =>
      if sep fs c then [] :: split fs r
      else match split fs r with
           | t :: ts => (c :: t) :: ts
           | [] => [[c]]
           end
  end.

Definition nonempty (t : list Z) : bool := match t with [] => false | _ => true end.

Lemma split_scan fs s :
  split fs s = match scan_token fs s with
               | (tok, None) => [tok]
               | (tok, Some r) => tok :: split fs r
               end.
Proof.
  induction s as [|c r IH]; simpl; [done|].
  destruct (sep fs c); [done|]. rewrite IH.
  destruct (scan_token fs r) as [tok [rest|]]; done.
Qed.

Lemma scan_token_length fs s tok r :
  scan_token fs s = (tok, Some r) → (length r < length s)%nat.
Proof.
  revert tok. induction s as [|c s IH]; intros tok; simpl; [done|].
  destruct (sep fs c); [intros [= _ ->]; lia|].
  destruct (scan_token fs s) as [tok' rest] eqn:E. intros [= _ ->].
  specialize (IH tok' eq_refl). lia.
Qed.

Lemma skip_seps_length fs s : (length (skip_seps fs s) ≤ length s)%nat.
Proof. induction s as [|c s IH]; simpl; [lia|]. destruct (sep fs c); simpl; lia. Qed.

Lemma filter_skip_seps fs s :
  base.filter (λ t, nonempty t) (split fs (skip_seps fs s)) =
  base.filter (λ t, nonempty t) (split fs s).
Proof.
  induction s as [|c s IH]; simpl; [done|].
  destruct (sep fs c) eqn:E; [|simpl; by rewrite E]. rewrite IH.
  by rewrite filter_cons_False by (simpl; tauto).
Qed.

Lemma skip_seps_head fs s c r : skip_seps fs s = c :: r → sep fs c = false.
Proof.
  induction s as [|d s IH]; simpl; [done|].
  destruct (sep fs d) eqn:E; [done|]. by intros [= -> ->].
Qed.

Lemma scan_token_head fs c r tok rest :
  sep fs c = false → scan_token fs (c :: r) = (tok, rest) → nonempty tok.
Proof.
  intros Hc. simpl. rewrite Hc. destruct (scan_token fs r). by intros [= <- _].
Qed.

(** [strtoken] yields the non-empty pieces of the string, in order, and its
    loop ends after at most one call per character. *)
Lemma strtoken_all_split fs s :
  strtoken_all fs s = Ok (base.filter (λ t, nonempty t) (split fs s)).
Proof.
  unfold strtoken_all.
  assert (∀ fuel p, (length p + 1 < fuel)%nat →
    tokens_of strtoken fs fuel (Some p) = Ok (base.filter (λ t, nonempty t) (split fs p)))
    as H; [|apply H; lia].
  intros fuel. induction fuel as [|fuel IH]; intros p Hf; [lia|].
  cbn [tokens_of strtoken]. rewrite <-filter_skip_seps.
  pose proof (skip_seps_length fs p) as Hlen.
  destruct (skip_seps fs p) as [|c r] eqn:E; [done|].
  apply skip_seps_head in E. rewrite split_scan.
  destruct (scan_token fs (c :: r)) as [tok rest] eqn:Es.
  pose proof (scan_token_head _ _ _ _ _ E Es) as Hne.
  destruct rest as [r'|].
  - apply scan_token_length in Es. rewrite IH by (simpl in *; lia).
    simpl rbind. by rewrite filter_cons_True.
  - destruct fuel; [simpl in *; lia|]. simpl.
    by rewrite filter_cons_True.
Qed.

(** [strtoken_noskip] yields every piece, the empty ones too. *)
Lemma strtoken_noskip_all_split fs s :
  strtoken_noskip_all fs s = Ok (split fs s).
Proof.
  unfold strtoken_noskip_all.
  assert (∀ fuel p, (length p + 1 < fuel)%nat →
    tokens_of strtoken_noskip fs fuel (Some p) = Ok (split fs p)) as H;
    [|apply H; lia].
  intros fuel. induction fuel as [|fuel IH]; intros p Hf; [lia|].
  cbn [tokens_of strtoken_noskip]. rewrite split_scan.
  destruct (scan_token fs p) as [tok [r'|]] eqn:Es.
  - apply scan_token_length in Es. by rewrite IH by lia.
  - destruct fuel; [lia|]. done.
Qed.

(** Text without separators is one token. *)
Definition unsep (fs t : list Z) : Prop := Forall (λ c, sep fs c = false) t.

Lemma scan_token_unsep fs t : unsep fs t → scan_token fs t = (t, None).
Proof. induction 1 as [|c t Hc _ IH]; simpl; [done|]. by rewrite Hc, IH. Qed.

Lemma scan_token_app fs t c r :
  unsep fs t → sep fs c = true → scan_token fs (t ++ c :: r) = (t, Some r).
Proof. intros Ht Hc. induction Ht as [|x t Hx _ IH]; simpl; [by rewrite Hc|]. by rewrite Hx, IH. Qed.

Lemma scan_token_inv fs s tok rest :
  scan_token fs s = (tok, rest) →
  unsep fs tok ∧ match rest with
                 | None => s = tok
                 | Some r => ∃ c, sep fs c = true ∧ s = tok ++ c :: r
                 end.
Proof.
  revert tok. induction s as [|c s IH]; intros tok; simpl.
  { intros [= <- <-]. by split; [constructor|]. }
  destruct (sep fs c) eqn:Ec.
  { intros [= <- <-]. split; [constructor|]. by exists c. }
  destruct (scan_token fs s) as [tok' rest'] eqn:E. intros [= <- ->].
  destruct (IH tok' eq_refl) as [Hu Hr]. split; [by constructor|].
  destruct rest as [r|]; [|by subst]. destruct Hr as (d & Hd & ->). by exists d.
Qed.

Lemma split_unsep fs t : unsep fs t → split fs t = [t].
Proof. intros Ht. by rewrite split_scan, scan_token_unsep. Qed.

Lemma split_app fs t c r :
  unsep fs t → sep fs c = true → split fs (t ++ c :: r) = t :: split fs r.
Proof. intros Ht Hc. by rewrite split_scan, scan_token_app. Qed.

Lemma split_length fs s :
  list_sum (map (λ t, S (length t)) (split fs s)) = S (length s).
Proof.
  induction s as [|c s IH]; simpl; [done|]. destruct (sep fs c); simpl; [by rewrite IH|].
  destruct (split fs s) as [|t ts] eqn:E; simpl in *; lia.
Qed.

Lemma split_elem fs s t c : t ∈ split fs s → c ∈ t → c ∈ s ∧ sep fs c = false.
Proof.
  revert t. induction s as [|d s IH]; intros t; simpl.
  { rewrite list_elem_of_singleton. intros ->. by rewrite elem_of_nil. }
  destruct (sep fs d) eqn:Ed.
  { rewrite elem_of_cons. intros [->|Ht] Hc; [by apply elem_of_nil in Hc|].
    destruct (IH t Ht Hc). split; [by right|done]. }
  destruct (split fs s) as [|u us] eqn:E; rewrite elem_of_cons.
  { intros [->|H]; [|by apply elem_of_nil in H]. rewrite list_elem_of_singleton. intros ->.
    split; [by left|done]. }
  intros [->|Ht] Hc.
  - apply elem_of_cons in Hc as [->|Hc]; [split; [by left|done]|].
    destruct (IH u ltac:(by left) Hc). split; [by right|done].
  - destruct (IH t ltac:(by right) Hc). split; [by right|done].
Qed.

End Strtoken.

(** ** Base64 *)
Module B64.

Definition Base64 : list Z :=
  bs "ABCDEFGHIJKLMNOPQRSTUVWXYZabcdefghijklmnopqrstuvwxyz0123456789+/".
Definition Pad64 : Z := 61.

(** [Base64[i]] for an output value below 64. *)
Definition b64_char (i : Z) : Z := nth (Z.to_nat i) Base64 0.

Definition out0 (i0 : Z) : Z := u8 (Z.shiftr i0 2).
Definition out1 (i0 i1 : Z) : Z := u8 (Z.shiftl (Z.land i0 0x03) 4 + Z.shiftr i1 4).
Definition out2 (i1 i2 : Z) : Z := u8 (Z.shiftl (Z.land i1 0x0f) 2 + Z.shiftr i2 6).
Definition out3 (i2 : Z) : Z := u8 (Z.land i2 0x3f).

(** [target] is what has been written so far, its length is [datalength];
    [None] is the return value -1. *)
Fixpoint b64_encode_from (src target : list Z) (targsize : nat) : option (list Z) :=
  let datalength := length target in
  match src with
  | i0 :: i1 :: i2 :: src' =>
      if (targsize <? datalength + 4)%nat then None
      else b64_encode_from src'
             (target ++ [b64_char (out0 i0); b64_char (out1 i0 i1);
                         b64_char (out2 i1 i2); b64_char (out3 i2)]) targsize
  | [] =>
      if (targsize <=? datalength)%nat then None else Some target
  | i0 :: tl =>
      let srclength := length src in
      let i1 := match tl with i1 :: _ => i1 | [] => 0 end in
      if (targsize <? datalength + 4)%nat then None
      else
        let target := target ++
          [b64_char (out0 i0); b64_char (out1 i0 i1);
           if (srclength =? 1)%nat then Pad64 else b64_char (out2 i1 0); Pad64] in
        if (targsize <=? length target)%nat then None else Some target
  end.

Definition b64_encode (src : list Z) (targsize : nat) : option (list Z) :=
  b64_encode_from src [] targsize.

(** [strchr(Base64, ch)] as an offset in [Base64]. *)
Fixpoint index_in (t : list Z) (ch : Z) : option Z :=
  match t with
  | [] => None
  | c :: r => if c =? ch then Some 0 else Z.succ <$> index_in r ch
  end.
Definition b64_pos (ch : Z) : option Z := index_in Base64 ch.

(** The decoder's variables; [target = None] is a NULL target, which makes
    the call compute the length only. *)
Record dec := Dec { d_state : Z; d_index : nat; d_target : option (list Z) }.

(** The body of the [switch] of the main loop; [None] is return -1. *)
Definition dec_char (targsize : nat) (pos : Z) (d : dec) : option dec :=
  let i := d_index d in
  if d_state d =? 0 then
    match d_target d with
    | Some t => if (targsize <=? i)%nat then None
                else Some (Dec 1 i (Some (<[i := u8 (Z.shiftl pos 2)]> t)))
    | None => Some (Dec 1 i None)
    end
  else if d_state d =? 1 then
    match d_target d with
    | Some t => if (targsize <=? i + 1)%nat then None
                else Some (Dec 2 (i + 1) (Some
                  (<[(i + 1)%nat := u8 (Z.shiftl (Z.land pos 0x0f) 4)]>
                    (<[i := u8 (Z.lor (nth i t 0) (Z.shiftr pos 4))]> t))))
    | None => Some (Dec 2 (i + 1) None)
    end
  else if d_state d =? 2 then
    match d_target d with
    | Some t => if (targsize <=? i + 1)%nat then None
                else Some (Dec 3 (i + 1) (Some
                  (<[(i + 1)%nat := u8 (Z.shiftl (Z.land pos 0x03) 6)]>
                    (<[i := u8 (Z.lor (nth i t 0) (Z.shiftr pos 2))]> t))))
    | None => Some (Dec 3 (i + 1) None)
    end
  else
    match d_target d with
    | Some t => if (targsize <=? i)%nat then None
                else Some (Dec 0 (i + 1) (Some (<[i := u8 (Z.lor (nth i t 0) pos)]> t)))
    | None => Some (Dec 0 (i + 1) None)
    end.

(** The main loop: stops at the NUL ([inl]) or at the first pad character,
    with the rest of the source ([inr]). *)
Fixpoint dec_loop (targsize : nat) (src : list Z) (d : dec) : option (dec * option (list Z)) :=
  match src with
  | [] => Some (d, None)
  | ch :: src' =>
      if isspace ch then dec_loop targsize src' d
      else if ch =? Pad64 then Some (d, Some src')
      else match b64_pos ch with
           | None => None
           | Some pos =>
               match dec_char targsize pos d with
               | None => None
               | Some d' => dec_loop targsize src' d'
               end
           end
  end.

Fixpoint skip_space (src : list Z) : list Z :=
  match src with
  | c :: r => if isspace c then skip_space r else src
  | [] => []
  end.

(** Only whitespace may follow, and the byte being assembled must be 0. *)
Definition dec_tail (d : dec) (src : list Z) : option (nat * option (list Z)) :=
  match skip_space src with
  | _ :: _ => None
  | [] =>
      match d_target d with
      | Some t => if nth (d_index d) t 0 =? 0 then Some (d_index d, d_target d) else None
      | None => Some (d_index d, None)
      end
  end.

(** What follows the loop: the checks on the padding. *)
Definition dec_finish (o : option (dec * option (list Z))) : option (nat * option (list Z)) :=
  match o with
  | None => None
  | Some (d, None) => if d_state d =? 0 then Some (d_index d, d_target d) else None
  | Some (d, Some rest) =>
      if (d_state d =? 0) || (d_state d =? 1) then None
      else if d_state d =? 2 then
        match skip_space rest with
        | c :: rest' => if c =? Pad64 then dec_tail d rest' else None
        | [] => None
        end
      else dec_tail d rest
  end.

(** Return value and final contents of the target. *)
Definition b64_decode (src : list Z) (target : option (list Z)) (targsize : nat)
  : option (nat * option (list Z)) :=
  dec_finish (dec_loop targsize src (Dec 0 0 target)).

(** *** Theory *)

Lemma b64_alphabet i :
  0 ≤ i < 64 →
  b64_pos (b64_char i) = Some i ∧ isspace (b64_char i) = false ∧
  (b64_char i =? Pad64) = false.
Proof.
  intros Hi.
  assert (byte i) as Hb by (unfold byte; lia).
  pose (P := fun i => (64 <=? i) ||
    (bool_decide (b64_pos (b64_char i) = Some i) && negb (isspace (b64_char i))
     && negb (b64_char i =? Pad64))).
  assert (P i = true) as HP.
  { apply all_bytes_ind; [by vm_compute|done]. }
  unfold P in HP. rewrite orb_true_iff, !andb_true_iff, !negb_true_iff in HP.
  destruct HP as [HP|[[HP ?] ?]]; [lia|]. by apply bool_decide_eq_true in HP.
Qed.

(** Byte identities behind the 6-bit regrouping. *)
Ltac bits_to_arith :=
  unfold out0, out1, out2, out3, u8, byte in *;
  repeat first [ rewrite Z.shiftl_mul_pow2 by lia | rewrite Z.shiftr_div_pow2 by lia ];
  change 0x03 with (Z.ones 2) in *; change 0x0f with (Z.ones 4) in *;
  change 0x3f with (Z.ones 6) in *;
  rewrite ?Z.land_ones by lia;
  change (2 ^ 2) with 4 in *; change (2 ^ 4) with 16 in *;
  change (2 ^ 6) with 64 in *; change (2 ^ 8) with 256 in *.

Lemma out_range a b c :
  byte a → byte b → byte c →
  0 ≤ out0 a < 64 ∧ 0 ≤ out1 a b < 64 ∧ 0 ≤ out2 b c < 64 ∧ 0 ≤ out3 c < 64.
Proof. intros. bits_to_arith. dlia. Qed.

Lemma one_byte (f : Z → Z) :
  forallb (fun a => f a =? a) all_bytes = true → ∀ a, byte a → f a = a.
Proof. intros H a Ha. apply Z.eqb_eq. by apply (all_bytes_ind (fun a => f a =? a)). Qed.

Lemma regroup0 a b : byte a → byte b →
  u8 (Z.lor (u8 (Z.shiftl (out0 a) 2)) (Z.shiftr (out1 a b) 4)) = a.
Proof.
  intros Ha Hb. replace (Z.shiftr (out1 a b) 4) with (Z.land a 0x03) by (bits_to_arith; dlia).
  by apply (one_byte (fun a => u8 (Z.lor (u8 (Z.shiftl (out0 a) 2)) (Z.land a 3)))).
Qed.

Lemma regroup1 a b c : byte a → byte b → byte c →
  u8 (Z.lor (u8 (Z.shiftl (Z.land (out1 a b) 0x0f) 4)) (Z.shiftr (out2 b c) 2)) = b.
Proof.
  intros Ha Hb Hc.
  replace (Z.shiftr (out2 b c) 2) with (Z.land b 0x0f) by (bits_to_arith; dlia).
  replace (Z.land (out1 a b) 0x0f) with (Z.shiftr b 4) by (bits_to_arith; dlia).
  by apply (one_byte (fun b => u8 (Z.lor (u8 (Z.shiftl (Z.shiftr b 4) 4)) (Z.land b 0x0f)))).
Qed.

Lemma regroup2 b c : byte b → byte c →
  u8 (Z.lor (u8 (Z.shiftl (Z.land (out2 b c) 0x03) 6)) (out3 c)) = c.
Proof.
  intros Hb Hc.
  replace (Z.land (out2 b c) 0x03) with (Z.shiftr c 6) by (bits_to_arith; dlia).
  by apply (one_byte (fun c => u8 (Z.lor (u8 (Z.shiftl (Z.shiftr c 6) 6)) (out3 c)))).
Qed.

(** Padding bits are zero. *)
Lemma pad1 a : byte a → u8 (Z.shiftl (Z.land (out1 a 0) 0x0f) 4) = 0.
Proof. intros. bits_to_arith. dlia. Qed.
Lemma pad2 b : byte b → u8 (Z.shiftl (Z.land (out2 b 0) 0x03) 6) = 0.
Proof. intros. bits_to_arith. dlia. Qed.

(** The encoding without the size checks. *)
Fixpoint enc (src : list Z) : list Z :=
  match src with
  | i0 :: i1 :: i2 :: src' =>
      [b64_char (out0 i0); b64_char (out1 i0 i1);
       b64_char (out2 i1 i2); b64_char (out3 i2)] ++ enc src'
  | [] => []
  | [i0] => [b64_char (out0 i0); b64_char (out1 i0 0); Pad64; Pad64]
  | [i0; i1] => [b64_char (out0 i0); b64_char (out1 i0 i1); b64_char (out2 i1 0); Pad64]
  end.

(** Induction three bytes at a time. *)
Lemma triple_ind (P : list Z → Prop) :
  P [] → (∀ a, P [a]) → (∀ a b, P [a; b]) →
  (∀ a b c l, P l → P (a :: b :: c :: l)) → ∀ l, P l.
Proof.
  intros H0 H1 H2 H3.
  fix IH 1. intros [|a [|b [|c l]]]; [done|apply H1|apply H2|]. apply H3, IH.
Qed.

Lemma b64_encode_from_enc src target ts :
  b64_encode_from src target ts =
  if (ts <=? length target + length (enc src))%nat then None else Some (target ++ enc src).
Proof.
  revert target. induction src as [|a|a b|a b c src IH] using triple_ind; intros target.
  - simpl. rewrite app_nil_r, Nat.add_0_r. done.
  - simpl. rewrite length_app. simpl.
    destruct (Nat.ltb_spec ts (length target + 4)), (Nat.leb_spec ts (length target + 4));
      (done || lia).
  - simpl. rewrite length_app. simpl.
    destruct (Nat.ltb_spec ts (length target + 4)), (Nat.leb_spec ts (length target + 4));
      (done || lia).
  - cbn [b64_encode_from enc app]. rewrite IH, length_app. cbn [length].
    replace (length target + 4 + length (enc src))%nat
      with (length target + S (S (S (S (length (enc src))))))%nat by lia.
    rewrite <-app_assoc. cbn [app].
    destruct (Nat.ltb_spec ts (length target + 4)); [|done].
    destruct (Nat.leb_spec ts (length target + S (S (S (S (length (enc src))))))); [done|lia].
Qed.

Lemma enc_length src : length (enc src) = (4 * ((length src + 2) / 3))%nat.
Proof.
  induction src as [|a|a b|a b c src IH] using triple_ind; [done..|].
  cbn [enc app length]. rewrite IH.
  replace (S (S (S (length src))) + 2)%nat with (length src + 2 + 1 * 3)%nat by lia.
  rewrite Nat.div_add by lia. lia.
Qed.

(** One encoded character of the alphabet. *)
Lemma dec_loop_char ts i src d :
  0 ≤ i < 64 →
  dec_loop ts (b64_char i :: src) d =
  match dec_char ts i d with None => None | Some d' => dec_loop ts src d' end.
Proof. intros Hi. destruct (b64_alphabet i Hi) as (H1 & H2 & H3). simpl. by rewrite H2, H3, H1. Qed.

(** The target is split at the write position. *)
Lemma insert_at (pre : list Z) k v l :
  <[(length pre + k)%nat := v]> (pre ++ l) = pre ++ <[k := v]> l.
Proof. apply insert_app_r. Qed.
Lemma insert_at0 (pre : list Z) v l :
  <[length pre := v]> (pre ++ l) = pre ++ <[0%nat := v]> l.
Proof. rewrite <-(insert_at pre 0), Nat.add_0_r. done. Qed.
Lemma nth_at (pre : list Z) k l : nth (length pre + k) (pre ++ l) 0 = nth k l 0.
Proof. rewrite app_nth2 by lia. f_equal. lia. Qed.
Lemma nth_at0 (pre : list Z) l : nth (length pre) (pre ++ l) 0 = nth 0 l 0.
Proof. rewrite <-(nth_at pre 0), Nat.add_0_r. done. Qed.

Ltac dec_step :=
  rewrite dec_loop_char by assumption; unfold dec_char; cbn [d_state d_index d_target];
  cbv beta iota delta [Z.eqb Pos.eqb];
  match goal with |- context [(?a <=? ?b)%nat] => destruct (Nat.leb_spec a b); [lia|] end;
  rewrite <-?Nat.add_assoc, ?insert_at0, ?insert_at, ?nth_at0, ?nth_at;
  cbn [Nat.add]; cbn [insert list_insert nth].

Lemma dec_loop_pad ts src d : dec_loop ts (Pad64 :: src) d = Some (d, Some src).
Proof. done. Qed.

Lemma dec_group ts a b c src pre x y z rest :
  byte a → byte b → byte c → (length pre + 2 < ts)%nat →
  dec_loop ts (enc [a; b; c] ++ src) (Dec 0 (length pre) (Some (pre ++ x :: y :: z :: rest))) =
  dec_loop ts src (Dec 0 (length pre + 3) (Some (pre ++ a :: b :: c :: rest))).
Proof.
  intros Ha Hb Hc Hts. destruct (out_range a b c) as (? & ? & ? & ?); [done..|].
  cbn [enc app]. do 4 dec_step.
  by rewrite regroup0, regroup1, regroup2.
Qed.

Lemma dec_rest1 ts a pre x y rest :
  byte a → (length pre + 1 < ts)%nat →
  dec_finish (dec_loop ts (enc [a]) (Dec 0 (length pre) (Some (pre ++ x :: y :: rest)))) =
  Some ((length pre + 1)%nat, Some (pre ++ a :: 0 :: rest)).
Proof.
  intros Ha Hts. destruct (out_range a 0 0) as (? & ? & ? & ?); [done|apply byte_0..|].
  cbn [enc]. do 2 dec_step. rewrite dec_loop_pad.
  unfold dec_finish, dec_tail. cbn [d_state d_index d_target].
  change (skip_space [Pad64]) with [Pad64].
  cbv beta iota delta [Z.eqb Pos.eqb orb Pad64]. cbn [skip_space]. rewrite nth_at. cbn [nth].
  rewrite pad1, regroup0 by eauto with obby. done.
Qed.

Lemma dec_rest2 ts a b pre x y z rest :
  byte a → byte b → (length pre + 2 < ts)%nat →
  dec_finish (dec_loop ts (enc [a; b]) (Dec 0 (length pre) (Some (pre ++ x :: y :: z :: rest)))) =
  Some ((length pre + 2)%nat, Some (pre ++ a :: b :: 0 :: rest)).
Proof.
  intros Ha Hb Hts. destruct (out_range a b 0) as (? & ? & ? & ?); [done..|apply byte_0|].
  cbn [enc]. do 3 dec_step. rewrite dec_loop_pad.
  unfold dec_finish, dec_tail. cbn [d_state d_index d_target skip_space].
  cbv beta iota delta [Z.eqb Pos.eqb orb]. rewrite nth_at. cbn [nth].
  rewrite pad2, regroup0, regroup1 by eauto with obby. done.
Qed.

Lemma decode_enc ts src pre buf :
  Forall byte src → (length src < length buf)%nat → (length pre + length buf ≤ ts)%nat →
  ∃ rest, dec_finish (dec_loop ts (enc src) (Dec 0 (length pre) (Some (pre ++ buf)))) =
          Some ((length pre + length src)%nat, Some (pre ++ src ++ rest)).
Proof.
  revert pre buf. induction src as [|a|a b|a b c src IH] using triple_ind;
    intros pre buf Hsrc Hbuf Hts.
  - exists buf. simpl. by rewrite Nat.add_0_r.
  - apply Forall_cons in Hsrc as [Ha _]. destruct buf as [|x [|y rest]]; simpl in Hbuf, Hts; try lia.
    exists (0 :: rest). apply dec_rest1; [done|lia].
  - apply Forall_cons in Hsrc as [Ha Hsrc]. apply Forall_cons in Hsrc as [Hb _].
    destruct buf as [|x [|y [|z rest]]]; simpl in Hbuf, Hts; try lia.
    exists (0 :: rest). apply dec_rest2; [done|done|lia].
  - apply Forall_cons in Hsrc as [Ha Hsrc]. apply Forall_cons in Hsrc as [Hb Hsrc].
    apply Forall_cons in Hsrc as [Hc Hsrc].
    destruct buf as [|x [|y [|z rest]]]; simpl in Hbuf, Hts; try lia.
    change (enc (a :: b :: c :: src)) with (enc [a; b; c] ++ enc src).
    rewrite dec_group by (done || lia).
    destruct (IH (pre ++ [a; b; c]) rest) as [rest' H];
      [done|lia|rewrite length_app; simpl; lia|].
    rewrite length_app, <-!app_assoc in H. simpl in H.
    exists rest'. simpl. rewrite H. f_equal. f_equal. lia.
Qed.

End B64.

(** Base64 round trip.  For any byte string that fits, [b64_encode]
    succeeds, and [b64_decode] of its output into any buffer at least one
    byte larger than the data returns the data's length and stores exactly
    the data in front of the buffer. *)
Theorem b64_roundtrip src targsize buf :
  Forall byte src →
  (4 * ((length src + 2) / 3) < targsize)%nat →
  (length src < length buf)%nat →
  ∃ e rest, B64.b64_encode src targsize = Some e ∧
    length e = (4 * ((length src + 2) / 3))%nat ∧
    B64.b64_decode e (Some buf) (length buf) = Some (length src, Some (src ++ rest)).
Proof.
  intros Hsrc Hts Hbuf.
  destruct (B64.decode_enc (length buf) src [] buf) as [rest Hd]; [done|done|simpl; lia|].
  exists (B64.enc src), rest. unfold B64.b64_encode, B64.b64_decode.
  rewrite B64.b64_encode_from_enc, B64.enc_length. simpl length.
  destruct (Nat.leb_spec targsize (0 + 4 * ((length src + 2) / 3))); [lia|]. done.
Qed.

(** ** Natural ordering *)
Module Natcmp.

Fixpoint compare_right (a b : list Z) (bias : Z) : res Z :=
  let ca := deref a in
  let cb := deref b in
  if negb (isdigit ca) && negb (isdigit cb) then Ok bias
  else if negb (isdigit ca) then Ok (-1)
  else if negb (isdigit cb) then Ok 1
  else
    let next bias := match a, b with
                     | _ :: a', _ :: b' => compare_right a' b' bias
                     | _, _ => UB
                     end in
    if ca <? cb then next (if bias =? 0 then -1 else bias)
    else if cb <? ca then next (if bias =? 0 then 1 else bias)
    else if (ca =? 0) && (cb =? 0) then Ok bias
    else next bias.

Fixpoint compare_left (a b : list Z) : res Z :=
  let ca := deref a in
  let cb := deref b in
  if negb (isdigit ca) && negb (isdigit cb) then Ok 0
  else if negb (isdigit ca) then Ok (-1)
  else if negb (isdigit cb) then Ok 1
  else if ca <? cb then Ok (-1)
  else if cb <? ca then Ok 1
  else match a, b with
       | _ :: a', _ :: b' => compare_left a' b'
       | _, _ => UB
       end.

(** One round of the [while (1)] of [strnatcmp0]; the state is the pair of
    positions [a+ai], [b+bi]. *)
Definition natcmp_body (fold_case : bool) (st : list Z * list Z)
  : res (step (list Z * list Z) Z) :=
  let a := B64.skip_space (fst st) in
  let b := B64.skip_space (snd st) in
  let ca := deref a in
  let cb := deref b in
  let! result := (if isdigit ca && isdigit cb
            then if (ca =? 48) || (cb =? 48) then compare_left a b
                 else compare_right a b 0
            else Ok 0) in
  if negb (result =? 0) then Ok (Done result)
  else if (ca =? 0) && (cb =? 0) then Ok (Done 0)
  else
    let ca := if fold_case then toupper ca else ca in
    let cb := if fold_case then toupper cb else cb in
    if ca <? cb then Ok (Done (-1))
    else if cb <? ca then Ok (Done 1)
    else match a, b with
         | _ :: a', _ :: b' => Ok (Next (a', b'))
         | _, _ => UB
         end.

Definition strnatcmp0 (a b : list Z) (fold_case : bool) : res Z :=
  loop (natcmp_body fold_case) (S (length a)) (a, b).
Definition strnatcmp (a b : list Z) : res Z := strnatcmp0 a b false.
Definition strnatcasecmp (a b : list Z) : res Z := strnatcmp0 a b true.

Lemma isdigit_deref_nil : isdigit (deref []) = false.
Proof. done. Qed.

(** [o'] is the result of the comparison with the arguments exchanged. *)
Definition opposite (o o' : res Z) : Prop :=
  ∃ r, o = Ok r ∧ o' = Ok (- r) ∧ -1 ≤ r ≤ 1.

Lemma compare_right_opp a b bias :
  -1 ≤ bias ≤ 1 → opposite (compare_right a b bias) (compare_right b a (- bias)).
Proof.
  revert b bias. induction a as [|x a IH]; intros b bias Hbias.
  - destruct b as [|y b]; simpl; change (isdigit 0) with false; simpl.
    + by exists bias.
    + destruct (isdigit y); simpl; [by exists (-1)|by exists bias].
  - destruct b as [|y b]; simpl; change (isdigit 0) with false; simpl.
    + destruct (isdigit x); simpl; [by exists 1|by exists bias].
    + destruct (isdigit x), (isdigit y); simpl;
        [|by exists 1|by exists (-1)|by exists bias].
      destruct (Z.ltb_spec x y), (Z.ltb_spec y x); [lia|..].
      * destruct (Z.eqb_spec bias 0) as [->|]; simpl.
        -- apply (IH b (-1)); lia.
        -- destruct (Z.eqb_spec (- bias) 0); [lia|]. by apply IH.
      * destruct (Z.eqb_spec bias 0) as [->|]; simpl.
        -- apply (IH b 1); lia.
        -- destruct (Z.eqb_spec (- bias) 0); [lia|]. by apply IH.
      * assert (x = y) as -> by lia. rewrite andb_diag.
        destruct (y =? 0); [by exists bias|by apply IH].
Qed.

Lemma compare_left_opp a b : opposite (compare_left a b) (compare_left b a).
Proof.
  revert b. induction a as [|x a IH]; intros b.
  - destruct b as [|y b]; simpl; change (isdigit 0) with false; simpl.
    + by exists 0.
    + destruct (isdigit y); simpl; [by exists (-1)|by exists 0].
  - destruct b as [|y b]; simpl; change (isdigit 0) with false; simpl.
    + destruct (isdigit x); simpl; [by exists 1|by exists 0].
    + destruct (isdigit x), (isdigit y); simpl;
        [|by exists 1|by exists (-1)|by exists 0].
      destruct (Z.ltb_spec x y), (Z.ltb_spec y x);
        [lia|by exists (-1)|by exists 1|apply IH].
Qed.

Lemma skip_space_suffix s : ∃ k, B64.skip_space s = drop k s.
Proof.
  induction s as [|c s [k IH]]; simpl; [by exists 0%nat|].
  destruct (isspace c); [by exists (S k)|by exists 0%nat].
Qed.

Lemma skip_space_cstr s :
  cstr s → cstr (B64.skip_space s) ∧ (length (B64.skip_space s) ≤ length s)%nat.
Proof.
  intros Hs. destruct (skip_space_suffix s) as [k ->].
  split; [by apply cstr_drop|]. rewrite length_drop. lia.
Qed.

(** The digit-run comparison of both orders. *)
Lemma run_opp a b ca cb :
  opposite
    (if isdigit ca && isdigit cb
     then if (ca =? 48) || (cb =? 48) then compare_left a b else compare_right a b 0
     else Ok 0)
    (if isdigit cb && isdigit ca
     then if (cb =? 48) || (ca =? 48) then compare_left b a else compare_right b a 0
     else Ok 0).
Proof.
  rewrite (andb_comm (isdigit cb)), (orb_comm (cb =? 48)).
  destruct (isdigit ca && isdigit cb); [|by exists 0].
  destruct ((ca =? 48) || (cb =? 48)); [apply compare_left_opp|].
  by apply (compare_right_opp a b 0).
Qed.

Lemma natcmp_loop_opp fc fuel fuel' a b :
  cstr a → cstr b → (length a < fuel)%nat → (length b < fuel')%nat →
  opposite (loop (natcmp_body fc) fuel (a, b)) (loop (natcmp_body fc) fuel' (b, a)).
Proof.
  revert fuel' a b. induction fuel as [|fuel IH]; intros fuel' a b Ha Hb Hf Hf'; [lia|].
  destruct fuel' as [|fuel']; [lia|]. simpl. unfold natcmp_body. simpl.
  destruct (skip_space_cstr a Ha) as [Ha' Hla].
  destruct (skip_space_cstr b Hb) as [Hb' Hlb].
  set (a' := B64.skip_space a) in *. set (b' := B64.skip_space b) in *.
  destruct (run_opp a' b' (deref a') (deref b')) as (r & -> & -> & Hr). simpl.
  destruct (Z.eqb_spec r 0) as [->|Hr0]; simpl.
  2:{ destruct (Z.eqb_spec (- r) 0); [lia|]. simpl. by exists r. }
  rewrite (andb_comm (deref b' =? 0)).
  destruct ((deref a' =? 0) && (deref b' =? 0)) eqn:E; [by exists 0|].
  set (ca := if fc then _ else _). set (cb := if fc then toupper (deref b') else _).
  destruct (Z.ltb_spec ca cb), (Z.ltb_spec cb ca);
    [lia|by exists (-1)|by exists 1|].
  assert (ca = cb) as Heq by lia.
  assert (∀ s, cstr s → byte (deref s)) as Hby by eauto with obby.
  assert (Hz : deref a' = 0 ↔ deref b' = 0).
  { unfold ca, cb in Heq. destruct fc; [|by rewrite Heq].
    rewrite <-(toupper_zero (deref a')), <-(toupper_zero (deref b')) by auto.
    by rewrite Heq. }
  destruct a' as [|x a'], b' as [|y b']; simpl in *.
  - done.
  - exfalso. apply cstr_cons_inv in Hb' as [Hy _]. unfold cchar in Hy. lia.
  - exfalso. apply cstr_cons_inv in Ha' as [Hx _]. unfold cchar in Hx. lia.
  - apply cstr_cons_inv in Ha' as [_ Ha'], Hb' as [_ Hb']. apply IH; auto; lia.
Qed.

(** The number a run of digits denotes, behind the number [acc]. *)
Fixpoint value (acc : Z) (s : list Z) : Z :=
  match s with [] => acc | c :: r => value (10 * acc + (c - 48)) r end.

Definition digits (s : list Z) : Prop := Forall (λ c, 48 ≤ c ≤ 57) s.

Lemma digit_check (f : Z → bool) c : forallb f (seqZ 48 10) = true → 48 ≤ c ≤ 57 → f c = true.
Proof.
  intros H Hc. rewrite List.forallb_forall in H. apply H, list_elem_of_In, elem_of_seqZ. lia.
Qed.
Lemma isdigit_range c : 48 ≤ c ≤ 57 → isdigit c = true.
Proof. by apply digit_check. Qed.
Lemma isspace_digit c : 48 ≤ c ≤ 57 → isspace c = false.
Proof. intros H. apply negb_true_iff. by apply (digit_check (λ c, negb (isspace c))). Qed.

Lemma value_bounds acc s :
  digits s → 0 ≤ acc →
  acc * 10 ^ Z.of_nat (length s) ≤ value acc s < (acc + 1) * 10 ^ Z.of_nat (length s).
Proof.
  intros Hs. revert acc. induction Hs as [|c s Hc _ IH]; intros acc Ha; simpl value; [simpl; lia|].
  specialize (IH (10 * acc + (c - 48)) ltac:(lia)).
  cbn [length]. rewrite Nat2Z.inj_succ, Z.pow_succ_r by lia.
  assert (0 < 10 ^ Z.of_nat (length s)) by (apply Z.pow_pos_nonneg; lia). nia.
Qed.

(** [compare_right] on two runs of digits: the longer one is larger, and runs
    of one length compare as numbers. *)
Lemma compare_right_digits da db ra rb va vb :
  digits da → digits db → isdigit (deref ra) = false → isdigit (deref rb) = false →
  compare_right (da ++ ra) (db ++ rb) (Z.sgn (va - vb)) =
    Ok (if (length da =? length db)%nat then Z.sgn (value va da - value vb db)
        else Z.sgn (Z.of_nat (length da) - Z.of_nat (length db))).
Proof.
  intros Hda. revert db va vb.
  induction Hda as [|x da Hx Hda IH]; intros db va vb Hdb Hra Hrb; destruct Hdb as [|y db Hy Hdb].
  - simpl. destruct ra, rb; simpl in *; by rewrite ?Hra, ?Hrb.
  - destruct ra; simpl in *; rewrite ?Hra, (isdigit_range y) by done; simpl; f_equal; lia.
  - destruct rb; simpl in *; rewrite ?Hrb, (isdigit_range x) by done; simpl; f_equal; lia.
  - specialize (IH db (10 * va + (x - 48)) (10 * vb + (y - 48)) Hdb Hra Hrb).
    cbn [app compare_right length value Nat.eqb]. simpl deref. rewrite (isdigit_range x), (isdigit_range y) by done.
    cbn [negb andb]. rewrite !Nat2Z.inj_succ.
    replace (Z.succ (Z.of_nat (length da)) - Z.succ (Z.of_nat (length db)))
      with (Z.of_nat (length da) - Z.of_nat (length db)) by lia.
    rewrite <-IH. destruct (Z.eqb_spec (Z.sgn (va - vb)) 0) as [E|E];
      destruct (Z.ltb_spec x y), (Z.ltb_spec y x); try lia;
      try (destruct (Z.eqb_spec x 0); [lia|]; cbn [andb]); f_equal; lia.
Qed.

(** Two numbers without leading zeros, whatever follows them. *)
Lemma natcmp_numbers da db ra rb fc :
  digits da → digits db → (49 ≤ deref da) → (49 ≤ deref db) →
  isdigit (deref ra) = false → isdigit (deref rb) = false → value 0 da ≠ value 0 db →
  strnatcmp0 (da ++ ra) (db ++ rb) fc = Ok (Z.sgn (value 0 da - value 0 db)).
Proof.
  intros Hda Hdb Hza Hzb Hra Hrb Hne.
  pose proof (compare_right_digits da db ra rb 0 0 Hda Hdb Hra Hrb) as Hc.
  destruct da as [|x da], db as [|y db]; simpl in Hza, Hzb; try lia.
  apply Forall_cons in Hda as [Hx Hda], Hdb as [Hy Hdb].
  unfold strnatcmp0. cbn [loop length app]. unfold natcmp_body. cbn [fst snd B64.skip_space].
  rewrite (isspace_digit x), (isspace_digit y) by done. simpl deref. rewrite (isdigit_range x), (isdigit_range y) by done.
  destruct (Z.eqb_spec x 48), (Z.eqb_spec y 48); try lia. cbn [andb orb].
  cbn [app] in Hc. change (Z.sgn (0 - 0)) with 0 in Hc. rewrite Hc. cbn [rbind].
  pose proof (value_bounds (x - 48) da Hda ltac:(lia)) as Ba.
  pose proof (value_bounds (y - 48) db Hdb ltac:(lia)) as Bb.
  cbn [value] in *. rewrite !Z.mul_0_r, !Z.add_0_l in *.
  destruct (Nat.eqb_spec (length (x :: da)) (length (y :: db))) as [E|E]; cbn [length] in E.
  { destruct (Z.eqb_spec (Z.sgn (value (x - 48) da - value (y - 48) db)) 0); [lia|done]. }
  replace (Z.sgn (value (x - 48) da - value (y - 48) db))
    with (Z.sgn (Z.of_nat (length (x :: da)) - Z.of_nat (length (y :: db)))).
  { destruct (Z.eqb_spec (Z.sgn (Z.of_nat (length (x :: da)) - Z.of_nat (length (y :: db)))) 0);
      cbn [length] in *; [lia|done]. }
  assert (∀ i j : nat, (i < j)%nat → 10 * 10 ^ Z.of_nat i ≤ 10 ^ Z.of_nat j) as Hpow.
  { intros i j Hij. rewrite <-Z.pow_succ_r by lia. apply Z.pow_le_mono_r; lia. }
  cbn [length]. destruct (Nat.lt_total (length da) (length db)) as [Hl|[Hl|Hl]]; [|lia|];
    specialize (Hpow _ _ Hl).
  - assert (value (x - 48) da < value (y - 48) db) by nia. lia.
  - assert (value (y - 48) db < value (x - 48) da) by nia. lia.
Qed.

End Natcmp.

(** Natural-order comparison.  On C strings [strnatcmp0] always returns,
    without reading past a terminator, one of -1, 0 and 1; exchanging the
    arguments negates the result, so that equal strings compare equal; and
    where both strings start with a number, without leading zeros, different
    numbers are ordered by their values, whatever follows them. *)
Theorem strnatcmp0_correct a b fold_case :
  cstr a → cstr b →
  (∃ r, Natcmp.strnatcmp0 a b fold_case = Ok r ∧
        Natcmp.strnatcmp0 b a fold_case = Ok (- r) ∧ -1 ≤ r ≤ 1) ∧
  Natcmp.strnatcmp0 a a fold_case = Ok 0 ∧
  (∀ da db ra rb, a = da ++ ra → b = db ++ rb →
     Natcmp.digits da → Natcmp.digits db → 49 ≤ deref da → 49 ≤ deref db →
     isdigit (deref ra) = false → isdigit (deref rb) = false →
     Natcmp.value 0 da ≠ Natcmp.value 0 db →
     Natcmp.strnatcmp0 a b fold_case = Ok (Z.sgn (Natcmp.value 0 da - Natcmp.value 0 db))).
Proof.
  intros Ha Hb. split; [apply Natcmp.natcmp_loop_opp; auto; lia|]. split.
  - destruct (Natcmp.natcmp_loop_opp fold_case (S (length a)) (S (length a)) a a)
      as (r & H1 & H2 & _); [done..|lia|lia|].
    unfold Natcmp.strnatcmp0. rewrite H1 in H2 |- *. injection H2 as ?. f_equal. lia.
  - intros da db ra rb -> ->. apply Natcmp.natcmp_numbers.
Qed.

(** Version 1.4.10 is newer than 1.4.9: here, 10 against 9. *)
Lemma strnatcmp0_correct_witness : Natcmp.strnatcmp0 (bs "10.a") (bs "9") true = Ok 1.
Proof.
  apply (strnatcmp0_correct (bs "10.a") (bs "9") true) with (da := bs "10") (db := bs "9") (ra := bs ".a") (rb := []);
    try reflexivity; try (apply (bool_decide_unpack _); vm_compute; exact I); vm_compute; done.
Defined.

Lemma b64_roundtrip_witness :
  ∃ e rest, B64.b64_encode [0; 255; 16; 131] 16 = Some e ∧ length e = 8%nat ∧
    B64.b64_decode e (Some (replicate 8 7)) 8 = Some (4%nat, Some ([0; 255; 16; 131] ++ rest)).
Proof.
  apply (b64_roundtrip [0; 255; 16; 131] 16 (replicate 8 7)).
  - apply (bool_decide_unpack _). vm_compute. exact I.
  - vm_compute. lia.
  - simpl. lia.
Defined.
