(* ===== verification/Utf8.v ===== *)
(** * UTF-8 helpers of src/utf8.c

    The validator ([fast_validate], [unrl_utf8_validate]), the backward scan
    for a character boundary, the conversion of arbitrary bytes to valid
    UTF-8 ([unrl_utf8_make_valid]) and [utf8_valid_cutoff].  The reference is
    the grammar of RFC 3629, section 4. *)

From stdpp Require Import base tactics list numbers.
From Stdlib Require Import ZArith Lia.
From S2P Require Import Prelude Chars Support.

Local Open Scope Z_scope.

(** ** The code *)

(** [p++] for a pointer that must stay inside the string. *)
Definition next (p : list Z) : res (list Z) :=
  match p with _ :: r => Ok r | [] => UB end.

(** The macro VALIDATE_BYTE, true when it does not jump to [error]. *)
Definition validate_byte (p : list Z) (mask expect : Z) : bool :=
  Z.land (deref p) mask =? expect.

(** The multi-byte part of [fast_validate]: [p] points at a byte >= 128.
    [Some p'] is the position of the last byte of the sequence, [None] is the
    [error] label. *)
Definition validate_last (p : list Z) : res (option (list Z)) :=
  let! p := next p in
  Ok (if validate_byte p 0xc0 0x80 then Some p else None).

Definition validate_seq (p : list Z) : res (option (list Z)) :=
  let c := deref p in
  if c <? 0xe0 then
    if c <? 0xc2 then Ok None else validate_last p
  else if c <? 0xf0 then
    let sw := Z.land c 0x0f in
    let! p := next p in
    let ok :=
      if sw =? 0 then validate_byte p 0xe0 0xa0
      else if sw =? 0x0d then validate_byte p 0xe0 0x80
      else validate_byte p 0xc0 0x80 in
    if ok then validate_last p else Ok None
  else if c <? 0xf5 then
    let sw := Z.land c 0x07 in
    let! p := next p in
    let ok :=
      if sw =? 0 then validate_byte p 0xc0 0x80 && negb (Z.land (deref p) 0x30 =? 0)
      else if sw =? 4 then validate_byte p 0xf0 0x80
      else validate_byte p 0xc0 0x80 in
    if ok then
      let! p := next p in
      if validate_byte p 0xc0 0x80 then validate_last p else Ok None
    else Ok None
  else Ok None.

Definition fast_validate_body (p : list Z) : res (step (list Z) (list Z)) :=
  if deref p =? 0 then Ok (Done p)
  else if 128 <=? deref p then
    let last := p in
    let! o := validate_seq p in
    match o with
    | Some p => let! p := next p in Ok (Next p)
    | None => Ok (Done last)
    end
  else let! p := next p in Ok (Next p).

Definition fast_validate (str : list Z) : res (list Z) :=
  loop fast_validate_body (S (length str)) str.

(** Result and the pointer stored in [*end]. *)
Definition unrl_utf8_validate (str : list Z) : res (bool * list Z) :=
  let! p := fast_validate str in
  Ok (deref p =? 0, p).

(** [p] is the offset of the pointer [p] from [begin]. *)
Fixpoint unrl_utf8_find_prev_char (begin : list Z) (p : nat) : res (option nat) :=
  match p with
  | O => Ok None
  | S i =>
      let! c := rd begin i in
      if negb (Z.land c 0xc0 =? 0x80) then Ok (Some i)
      else unrl_utf8_find_prev_char begin i
  end.

(** The replacement character, "\357\277\275" in the source. *)
Definition replacement : list Z := [0xef; 0xbf; 0xbd].

Record mv_state := MV {
  mv_remainder : list Z;
  mv_remaining_bytes : Z;
  mv_out : list Z;
  mv_replaced : bool
}.

(** One round of the [while (remaining_bytes != 0)] loop; the result is the
    output buffer and the flag [replaced]. *)
Definition make_valid_body (str : list Z) (outputbuflen : nat) (strictlen : Z)
    (st : mv_state) : res (step mv_state (list Z * bool)) :=
  if mv_remaining_bytes st =? 0 then Ok (Done (mv_out st, mv_replaced st))
  else
    let! (valid, invalid) := unrl_utf8_validate (mv_remainder st) in
    if valid then
      if negb (mv_replaced st) then
        if negb (strictlen =? 0)
        then Ok (Done (fst (Strl.strlcpy (mv_out st) str outputbuflen), true))
        else Ok (Done (mv_out st, false))
      else Ok (Done (fst (Strl.strlcat (mv_out st) (mv_remainder st) outputbuflen), true))
    else
      let valid_bytes := (length (mv_remainder st) - length invalid)%nat in
      let out := fst (Strl.strlncat (mv_out st) (mv_remainder st) outputbuflen valid_bytes) in
      let out := fst (Strl.strlcat out replacement outputbuflen) in
      let! rest := next invalid in
      Ok (Next (MV rest (mv_remaining_bytes st - (Z.of_nat valid_bytes + 1)) out true)).

(** Offset of the first space, as [strchr(outputbuf, ' ')]. *)
Fixpoint strchr_off (s : list Z) (c : Z) : option nat :=
  match s with
  | [] => None
  | x :: r => if x =? c then Some 0%nat else S <$> strchr_off r c
  end.

(** The cut of [strictlen == 2]: the shortened buffer, or [None] when the
    line does not have to be fixed. *)
Definition strict_cut (out : list Z) : option (list Z) :=
  if deref out =? AT then
    match strchr_off out SPACE_CH with
    | Some i =>
        if (511 <? length out - (i + 1))%nat then Some (take (i + 1 + 511) out) else None
    | None => None
    end
  else if (511 <? length out)%nat then Some (take 511 out) else None.

(** [cut_at = unrl_utf8_find_prev_char(buf, buf+k); if (cut_at) *cut_at = 0] *)
Definition cut_back (out : list Z) (k : nat) : res (list Z) :=
  let! o := unrl_utf8_find_prev_char out k in
  Ok match o with Some i => take i out | None => out end.

Inductive mv_result := MvNull | MvInput | MvOutput (s : list Z).

Definition unrl_utf8_make_valid (str : option (list Z)) (outputbuflen : nat)
    (strictlen : Z) : res mv_result :=
  match str with
  | None => Ok MvNull
  | Some str =>
      if (outputbuflen =? 0)%nat then Ok MvNull else
      let! (out, replaced) :=
        loop (make_valid_body str outputbuflen strictlen) (S (length str))
             (MV str (Z.of_nat (length str)) [] false) in
      if negb replaced then Ok MvInput else
      match (if strictlen =? 2 then strict_cut out else None) with
      | Some out => let! s := cut_back out (length out) in Ok (MvOutput s)
      | None =>
          if (length out =? outputbuflen - 1)%nat
          then let! s := cut_back out (outputbuflen - 1) in Ok (MvOutput s)
          else Ok (MvOutput out)
      end
  end.

(** [msg] and [*len] after the call. *)
Definition utf8_valid_cutoff (msg : list Z) (len : nat) : res (list Z * nat) :=
  let! o := unrl_utf8_find_prev_char msg (len + 1) in
  Ok match o with Some i => (take i msg, i) | None => (msg, len) end.

(** ** The grammar of RFC 3629 *)

Definition within (lo hi c : Z) : bool := (lo <=? c) && (c <=? hi).
Definition tail_byte (c : Z) : bool := within 0x80 0xbf c.

Definition utf8_char (l : list Z) : bool :=
  match l with
  | [a] => within 0x01 0x7f a
  | [a; b] => within 0xc2 0xdf a && tail_byte b
  | [a; b; c] =>
      ((a =? 0xe0) && within 0xa0 0xbf b
       || within 0xe1 0xec a && tail_byte b
       || (a =? 0xed) && within 0x80 0x9f b
       || within 0xee 0xef a && tail_byte b) && tail_byte c
  | [a; b; c; d] =>
      ((a =? 0xf0) && within 0x90 0xbf b
       || within 0xf1 0xf3 a && tail_byte b
       || (a =? 0xf4) && within 0x80 0x8f b) && tail_byte c && tail_byte d
  | _ => false
  end.

Inductive utf8 : list Z → Prop :=
| utf8_nil : utf8 []
| utf8_app ch s : utf8_char ch = true → utf8 s → utf8 (ch ++ s).

(** The repair of arbitrary bytes: characters are kept, a byte at which no
    character starts becomes U+FFFD. *)
Inductive repaired : list Z → list Z → Prop :=
| repaired_nil : repaired [] []
| repaired_char ch s t : utf8_char ch = true → repaired s t → repaired (ch ++ s) (ch ++ t)
| repaired_bad c s t :
    (∀ ch rest, c :: s = ch ++ rest → utf8_char ch = false) →
    repaired s t → repaired (c :: s) (replacement ++ t).

(** ** Theory *)

(** The masks of the code are the ranges of the grammar. *)
Ltac byte_check f :=
  match goal with
  | H : byte ?c |- _ => apply (all_bytes_ind f); [by vm_compute|exact H]
  end.

Lemma mask_c0 c : byte c → (Z.land c 0xc0 =? 0x80) = tail_byte c.
Proof. intros H. apply eqb_prop. byte_check (λ c, eqb (Z.land c 0xc0 =? 0x80) (tail_byte c)). Qed.
Lemma mask_e0_a0 c : byte c → (Z.land c 0xe0 =? 0xa0) = within 0xa0 0xbf c.
Proof. intros H. apply eqb_prop. byte_check (λ c, eqb (Z.land c 0xe0 =? 0xa0) (within 0xa0 0xbf c)). Qed.
Lemma mask_e0_80 c : byte c → (Z.land c 0xe0 =? 0x80) = within 0x80 0x9f c.
Proof. intros H. apply eqb_prop. byte_check (λ c, eqb (Z.land c 0xe0 =? 0x80) (within 0x80 0x9f c)). Qed.
Lemma mask_f0_80 c : byte c → (Z.land c 0xf0 =? 0x80) = within 0x80 0x8f c.
Proof. intros H. apply eqb_prop. byte_check (λ c, eqb (Z.land c 0xf0 =? 0x80) (within 0x80 0x8f c)). Qed.
Lemma mask_30 c : byte c →
  (Z.land c 0xc0 =? 0x80) && negb (Z.land c 0x30 =? 0) = within 0x90 0xbf c.
Proof.
  intros H. apply eqb_prop.
  byte_check (λ c, eqb ((Z.land c 0xc0 =? 0x80) && negb (Z.land c 0x30 =? 0)) (within 0x90 0xbf c)).
Qed.
Lemma low_nibble c : byte c → 0xe0 ≤ c < 0xf0 → Z.land c 0x0f = c - 0xe0.
Proof.
  intros H Hc. apply Z.eqb_eq.
  assert (implb (within 0xe0 0xef c) (Z.land c 0x0f =? c - 0xe0) = true) as HP by
    byte_check (λ c, implb (within 0xe0 0xef c) (Z.land c 0x0f =? c - 0xe0)).
  unfold within in HP. destruct (Z.leb_spec 0xe0 c), (Z.leb_spec c 0xef); simpl in HP; (done || lia).
Qed.
Lemma low_bits c : byte c → 0xf0 ≤ c < 0xf5 → Z.land c 0x07 = c - 0xf0.
Proof.
  intros H Hc. apply Z.eqb_eq.
  assert (implb (within 0xf0 0xf4 c) (Z.land c 0x07 =? c - 0xf0) = true) as HP by
    byte_check (λ c, implb (within 0xf0 0xf4 c) (Z.land c 0x07 =? c - 0xf0)).
  unfold within in HP. destruct (Z.leb_spec 0xf0 c), (Z.leb_spec c 0xf4); simpl in HP; (done || lia).
Qed.

Lemma tail_byte_0 : tail_byte 0 = false.
Proof. done. Qed.

(** Every character is a lead byte followed by at most three tail bytes. *)
Lemma utf8_char_shape ch :
  utf8_char ch = true →
  ∃ a tl, ch = a :: tl ∧ tail_byte a = false ∧ 0 < a ∧ Forall tail_byte tl ∧ (length tl ≤ 3)%nat.
Proof.
  unfold utf8_char, tail_byte, within.
  destruct ch as [|a [|b [|c [|d [|]]]]]; try done; intros H;
    eexists _, _; split_and!; try reflexivity; try (repeat constructor);
    try (simpl; lia); try apply Is_true_true; unfold tail_byte, within; lia.
Qed.

Lemma utf8_char_nonempty ch : utf8_char ch = true → ch ≠ [].
Proof. by intros (? & ? & -> & _)%utf8_char_shape. Qed.

(** The multi-byte recogniser accepts exactly the characters of the
    grammar. *)
Definition seq_ok (p : list Z) (o : option (list Z)) : Prop :=
  match o with
  | Some p' => ∃ ch x rest, p' = x :: rest ∧ p = ch ++ rest ∧ utf8_char ch = true
  | None => ∀ ch rest, p = ch ++ rest → utf8_char ch = false
  end.

Lemma no_char_prefix p :
  (∀ n, utf8_char (take n p) = false) → ∀ ch rest, p = ch ++ rest → utf8_char ch = false.
Proof. intros H ch rest ->. specialize (H (length ch)). by rewrite take_app_length in H. Qed.

Lemma within_spec lo hi c : within lo hi c = true ↔ lo ≤ c ≤ hi.
Proof. unfold within. lia. Qed.

Lemma validate_last_spec p :
  p ≠ [] → cstr p →
  ∃ o, validate_last p = Ok o ∧
    match p with
    | _ :: b :: r => o = if tail_byte b then Some (b :: r) else None
    | _ => o = None
    end.
Proof.
  intros Hne Hp. destruct p as [|a p]; [done|]. unfold validate_last. simpl.
  apply cstr_cons_inv in Hp as [_ Hp]. unfold validate_byte. destruct p as [|b p]; simpl.
  - eauto.
  - apply cstr_cons_inv in Hp as [Hb _]. rewrite mask_c0 by eauto with obby. eauto.
Qed.

(** Refutes every prefix of a string whose first bytes are known. *)
Ltac no_char :=
  unfold seq_ok; refine (no_char_prefix _ _);
  intros [|[|[|[|[|]]]]]; simpl;
  repeat (match goal with |- context [match ?p with [] => _ | _ => _ end] => destruct p end; simpl);
  rewrite ?firstn_nil; unfold tail_byte, within in *; lia.

(** Exhibits a character of the grammar. *)
Ltac is_char l :=
  exists l; eexists _, _; split_and!; [reflexivity|reflexivity|];
  simpl; unfold tail_byte, within in *; lia.

Lemma validate_seq_2 a p :
  cstr (a :: p) → 128 ≤ a < 0xe0 → ∃ o, validate_seq (a :: p) = Ok o ∧ seq_ok (a :: p) o.
Proof.
  intros Hp Ha. unfold validate_seq. simpl deref.
  destruct (Z.ltb_spec a 0xe0); [|lia].
  destruct (Z.ltb_spec a 0xc2); [eexists; split; [done|]; no_char|].
  destruct (validate_last_spec (a :: p)) as (o & -> & Ho); [done..|].
  eexists. split; [done|]. destruct p as [|b r]; subst o; [no_char|].
  destruct (tail_byte b) eqn:Hb; [is_char [a; b]|no_char].
Qed.

Lemma validate_seq_3 a p :
  cstr (a :: p) → 0xe0 ≤ a < 0xf0 → ∃ o, validate_seq (a :: p) = Ok o ∧ seq_ok (a :: p) o.
Proof.
  intros Hp Ha. apply cstr_cons_inv in Hp as [Ha' Hp].
  unfold validate_seq. simpl deref.
  destruct (Z.ltb_spec a 0xe0); [lia|]. destruct (Z.ltb_spec a 0xf0); [|lia].
  rewrite low_nibble by eauto with obby. cbn [next rbind].
  destruct p as [|b p].
  { unfold validate_byte. simpl. eexists.
    split; [by repeat case_match|]. no_char. }
  pose proof Hp as [Hb Hp']%cstr_cons_inv. unfold validate_byte at 1 2 3. simpl deref.
  rewrite mask_e0_a0, mask_e0_80, mask_c0 by eauto with obby.
  match goal with |- context [if ?x then validate_last _ else _] => destruct x eqn:Hok end.
  2:{ eexists. split; [done|]. unfold tail_byte, within in Hok.
      destruct (Z.eqb_spec (a - 0xe0) 0), (Z.eqb_spec (a - 0xe0) 0x0d); no_char. }
  destruct (validate_last_spec (b :: p)) as (o & -> & Ho); [done..|].
  eexists. split; [done|].
  destruct (Z.eqb_spec (a - 0xe0) 0), (Z.eqb_spec (a - 0xe0) 0x0d);
    (destruct p as [|c r]; subst o; [no_char|];
     destruct (tail_byte c) eqn:Hc; [is_char [a; b; c]|no_char]).
Qed.

Lemma validate_seq_4 a p :
  cstr (a :: p) → 0xf0 ≤ a < 0xf5 → ∃ o, validate_seq (a :: p) = Ok o ∧ seq_ok (a :: p) o.
Proof.
  intros Hp Ha. apply cstr_cons_inv in Hp as [Ha' Hp].
  unfold validate_seq. simpl deref.
  destruct (Z.ltb_spec a 0xe0); [lia|]. destruct (Z.ltb_spec a 0xf0); [lia|].
  destruct (Z.ltb_spec a 0xf5); [|lia].
  rewrite low_bits by eauto with obby. cbn [next rbind].
  destruct p as [|b p].
  { unfold validate_byte. simpl. eexists.
    split; [by repeat case_match|]. no_char. }
  pose proof Hp as [Hb Hp']%cstr_cons_inv. unfold validate_byte at 1 2 3. simpl deref.
  rewrite mask_30, mask_f0_80, mask_c0 by eauto with obby.
  match goal with |- context [if ?x then (let! _ := _ in _) else _] => destruct x eqn:Hok end.
  2:{ eexists. split; [done|]. unfold tail_byte, within in Hok.
      destruct (Z.eqb_spec (a - 0xf0) 0), (Z.eqb_spec (a - 0xf0) 4); no_char. }
  cbn [next rbind]. destruct p as [|c p].
  { simpl. eexists. split; [done|].
    destruct (Z.eqb_spec (a - 0xf0) 0), (Z.eqb_spec (a - 0xf0) 4); no_char. }
  pose proof Hp' as [Hc Hp'']%cstr_cons_inv. unfold validate_byte. simpl deref.
  rewrite mask_c0 by eauto with obby. destruct (tail_byte c) eqn:Htc.
  2:{ eexists. split; [done|]. no_char. }
  destruct (validate_last_spec (c :: p)) as (o & -> & Ho); [done..|].
  eexists. split; [done|].
  destruct (Z.eqb_spec (a - 0xf0) 0), (Z.eqb_spec (a - 0xf0) 4);
    (destruct p as [|d r]; subst o; [no_char|];
     destruct (tail_byte d) eqn:Hd; [is_char [a; b; c; d]|no_char]).
Qed.

Lemma validate_seq_spec p :
  cstr p → 128 ≤ deref p → ∃ o, validate_seq p = Ok o ∧ seq_ok p o.
Proof.
  intros Hp Ha. destruct p as [|a p]; [simpl in Ha; lia|]. simpl in Ha.
  destruct (decide (a < 0xe0)); [apply validate_seq_2; (done || lia)|].
  destruct (decide (a < 0xf0)); [apply validate_seq_3; (done || lia)|].
  destruct (decide (a < 0xf5)); [apply validate_seq_4; (done || lia)|].
  unfold validate_seq. simpl deref.
  destruct (Z.ltb_spec a 0xe0); [lia|]. destruct (Z.ltb_spec a 0xf0); [lia|].
  destruct (Z.ltb_spec a 0xf5); [lia|]. eexists. split; [done|]. no_char.
Qed.

Lemma utf8_concat a b : utf8 a → utf8 b → utf8 (a ++ b).
Proof. induction 1; intros; [done|]. rewrite <-app_assoc. constructor; auto. Qed.

Lemma utf8_one ch : utf8_char ch = true → utf8 ch.
Proof. intros. rewrite <-(app_nil_r ch). by constructor; [|constructor]. Qed.

(** No character is a proper prefix of another. *)
Lemma utf8_char_prefix_free ch1 ch2 r1 r2 :
  utf8_char ch1 = true → utf8_char ch2 = true → ch1 ++ r1 = ch2 ++ r2 → ch1 = ch2.
Proof.
  intros H1 H2 E.
  destruct ch1 as [|a1 [|b1 [|c1 [|d1 [|]]]]]; try done;
  destruct ch2 as [|a2 [|b2 [|c2 [|d2 [|]]]]]; try done;
  simpl in *; unfold tail_byte, within in *; simplify_eq; try done; exfalso; lia.
Qed.

Lemma utf8_cancel v p : utf8 v → utf8 (v ++ p) → utf8 p.
Proof.
  induction 1 as [|ch s Hch Hs IH]; [done|]. rewrite <-app_assoc. intros H.
  inversion H as [E|ch' s' Hch' Hs' E].
  - apply utf8_char_nonempty in Hch. by destruct ch.
  - pose proof (utf8_char_prefix_free _ _ _ _ Hch' Hch E) as ->.
    apply app_inv_head in E. subst s'. by apply IH.
Qed.

Lemma fast_validate_spec s :
  cstr s →
  ∃ p, fast_validate s = Ok p ∧
    ∃ v, s = v ++ p ∧ utf8 v ∧ (p = [] ∨ ∀ ch rest, p = ch ++ rest → utf8_char ch = false).
Proof.
  intros Hs. unfold fast_validate.
  apply (loop_total _ (λ p, ∃ v, s = v ++ p ∧ utf8 v) length);
    [|by exists []; split; [|constructor]|lia].
  intros p (v & E & Hv). assert (cstr p) as Hp by (subst s; by apply Forall_app in Hs as [_ ?]).
  unfold fast_validate_body. destruct (Z.eqb_spec (deref p) 0) as [Hz|Hz].
  - eexists. split; [done|]. exists v. split_and!; [done..|]. left.
    destruct p as [|c p]; [done|]. apply cstr_cons_inv in Hp as [Hc _].
    simpl in Hz. unfold cchar in Hc. lia.
  - destruct (Z.leb_spec 128 (deref p)).
    + destruct (validate_seq_spec p) as ([p'|] & -> & Ho); [done..| |]; simpl.
      * destruct Ho as (ch & x & rest & -> & -> & Hch). simpl.
        eexists. split; [done|]. split.
        -- exists (v ++ ch). rewrite <-app_assoc. split; [done|].
           by apply utf8_concat, utf8_one.
        -- apply utf8_char_nonempty in Hch. destruct ch; [done|].
           simpl. rewrite length_app. lia.
      * eexists. split; [done|]. exists v. eauto.
    + destruct p as [|c p]; [done|]. simpl in *. eexists. split; [done|]. split; [|lia].
      exists (v ++ [c]). rewrite <-app_assoc. split; [done|].
      apply utf8_concat, utf8_one; [done|]. apply cstr_cons_inv in Hp as [Hc _].
      unfold cchar in Hc. simpl. unfold within. lia.
Qed.

Lemma utf8_cstr s : utf8 s → cstr s.
Proof.
  induction 1 as [|ch s Hch _ IH]; [constructor|]. apply cstr_app; [|done].
  unfold cstr, cchar.
  destruct ch as [|a1 [|b1 [|c1 [|d1 [|]]]]]; try done; simpl in *;
    unfold tail_byte, within in *; repeat constructor; lia.
Qed.

Lemma utf8_inv s : utf8 s → s = [] ∨ ∃ ch rest, s = ch ++ rest ∧ utf8_char ch = true ∧ utf8 rest.
Proof. destruct 1; [by left|right; eauto]. Qed.

Lemma validate_spec s :
  cstr s →
  ∃ b p, unrl_utf8_validate s = Ok (b, p) ∧
    (b = true ↔ utf8 s) ∧ (b = true → p = []) ∧
    ∃ v, s = v ++ p ∧ utf8 v ∧
      (b = false → p ≠ [] ∧ ∀ ch rest, p = ch ++ rest → utf8_char ch = false).
Proof.
  intros Hs. destruct (fast_validate_spec s Hs) as (p & Hp & v & E & Hv & Hno).
  unfold unrl_utf8_validate. rewrite Hp. simpl. eexists _, _. split; [done|].
  destruct p as [|c p]; simpl.
  - rewrite app_nil_r in E. subst. split_and!; [done..|].
    exists v. by rewrite app_nil_r.
  - destruct Hno as [?|Hno]; [done|].
    assert (cchar c) as Hc.
    { subst s. apply Forall_app in Hs as [_ Hs]. by apply cstr_cons_inv in Hs as [? _]. }
    unfold cchar in Hc. destruct (Z.eqb_spec c 0); [lia|]. split_and!; [|done|].
    + split; [done|]. intros Hu. subst s. apply utf8_cancel in Hu; [|done].
      apply utf8_inv in Hu as [?|(ch & rest & Hcp & Hch & _)]; [done|].
      specialize (Hno ch rest Hcp). congruence.
    + by exists v.
Qed.

Lemma repaired_app v s t : utf8 v → repaired s t → repaired (v ++ s) (v ++ t).
Proof.
  intros Hv Hs. induction Hv as [|ch v Hch _ IH]; [done|]. rewrite <-!app_assoc.
  by apply repaired_char.
Qed.

Lemma repaired_id s t : repaired s t → utf8 s → t = s.
Proof.
  induction 1 as [|ch s t Hch _ IH|c s t Hno _ IH]; intros Hu; [done|..].
  - f_equal. apply IH. by eapply utf8_cancel; [apply utf8_one|].
  - apply utf8_inv in Hu as [?|(ch & rest & E & Hch & _)]; [done|].
    specialize (Hno ch rest E). congruence.
Qed.

(** *** Cutting at a character boundary *)

Lemma find_prev_at v a tl k :
  byte a → tail_byte a = false → Forall byte tl → Forall tail_byte tl → (k ≤ length tl)%nat →
  unrl_utf8_find_prev_char (v ++ a :: tl) (length v + S k) = Ok (Some (length v)).
Proof.
  intros Ha Hna Hb Htl. induction k as [|k IH]; intros Hk.
  - rewrite Nat.add_1_r. simpl. rewrite (rd_lookup _ _ a) by (by rewrite list_lookup_middle).
    simpl. by rewrite mask_c0, Hna by done.
  - destruct (lookup_lt_is_Some_2 tl k ltac:(lia)) as [c Hc].
    rewrite Nat.add_succ_r. simpl. rewrite (rd_lookup _ _ c).
    2:{ rewrite lookup_app_r by lia.
        replace (length v + S k - length v)%nat with (S k) by lia. done. }
    simpl. rewrite mask_c0 by (by eapply Forall_lookup_1 in Hc).
    eapply Forall_lookup_1 in Hc; [|exact Htl]. apply Is_true_true in Hc. rewrite Hc. simpl.
    apply IH. lia.
Qed.

Lemma utf8_snoc v : utf8 v → v = [] ∨ ∃ v' ch, v = v' ++ ch ∧ utf8 v' ∧ utf8_char ch = true.
Proof.
  induction 1 as [|ch s Hch Hs IH]; [by left|]. right.
  destruct IH as [->|(v' & ch' & -> & ? & ?)].
  - exists [], ch. rewrite app_nil_r. split_and!; [done|constructor|done].
  - exists (ch ++ v'), ch'. rewrite app_assoc. split_and!; [done|by constructor|done].
Qed.

(** A truncated UTF-8 string: complete characters, then a lead byte with
    some of its tail. *)
Lemma utf8_take T k :
  utf8 T → take k T = [] ∨
  ∃ v a tl, take k T = v ++ a :: tl ∧ utf8 v ∧ tail_byte a = false ∧ Forall tail_byte tl ∧
            (length tl ≤ 3)%nat.
Proof.
  intros HT. revert k. induction HT as [|ch s Hch Hs IH]; intros k; [by left; destruct k|].
  destruct (utf8_char_shape ch Hch) as (a & tl & -> & Ha & _ & Htl & H3).
  destruct (decide (k = 0%nat)) as [->|]; [by left|]. right.
  destruct (decide (k ≤ S (length tl))%nat) as [Hk|Hk].
  - exists [], a, (take (k - 1) tl).
    rewrite take_app_le by (simpl; lia). destruct k; [lia|].
    split_and!; [simpl; by rewrite Nat.sub_0_r|constructor|done|by apply Forall_take|].
    rewrite length_take. lia.
  - rewrite take_app_ge by (simpl; lia).
    destruct (IH (k - length (a :: tl))%nat) as [E|(v & b & tl' & E & Hv & Hb & Htl' & H3')].
    + exists [], a, tl. rewrite E, app_nil_r. split_and!; [done|constructor|done|done|done].
    + exists ((a :: tl) ++ v), b, tl'. rewrite E. simpl. rewrite <-app_assoc.
      split_and!; [done|by apply (utf8_app (a :: tl))|done|done|done].
Qed.

Definition truncated (out : list Z) : Prop := ∃ T k, utf8 T ∧ out = take k T.

Lemma truncated_take out j : truncated out → truncated (take j out).
Proof. intros (T & k & HT & ->). exists T, (j `min` k)%nat. by rewrite take_take. Qed.

(** The last boundary of a truncated string: what precedes it is valid, and
    at most one character follows. *)
Lemma find_prev_truncated out :
  truncated out → out ≠ [] →
  ∃ i, unrl_utf8_find_prev_char out (length out) = Ok (Some i) ∧ utf8 (take i out) ∧
       (i < length out)%nat ∧ (length out ≤ i + 4)%nat.
Proof.
  intros (T & k & HT & ->) Hne.
  destruct (utf8_take T k HT) as [E|(v & a & tl & E & Hv & Ha & Htl & H3)]; [done|].
  assert (cstr (v ++ a :: tl)) as Hc by (rewrite <-E; apply cstr_take, utf8_cstr, HT).
  rewrite E. apply Forall_app in Hc as [_ Hc]. apply cstr_cons_inv in Hc as [Hca Hctl].
  rewrite length_app. simpl length. rewrite find_prev_at by eauto with obby.
  exists (length v). rewrite take_app_length. split_and!; [done|done|lia|lia].
Qed.

(** Cutting a truncated string at the last boundary makes it valid. *)
Lemma cut_back_truncated out :
  truncated out →
  ∃ i, cut_back out (length out) = Ok (take i out) ∧ utf8 (take i out) ∧
       (length (take i out) ≤ length out - 1)%nat ∧ (length out ≤ length (take i out) + 4)%nat.
Proof.
  intros Ht. destruct (decide (out = [])) as [->|Hne].
  - exists 0%nat. split_and!; [done|constructor|simpl; lia..].
  - destruct (find_prev_truncated out Ht Hne) as (i & Hf & Hu & Hi & H4).
    exists i. unfold cut_back. rewrite Hf, length_take. split_and!; [done|done|lia..].
Qed.

(** The scan only reads below its starting point. *)
Lemma find_prev_ext s s' k :
  (∀ i, (i < k)%nat → rd s i = rd s' i) →
  unrl_utf8_find_prev_char s k = unrl_utf8_find_prev_char s' k.
Proof.
  induction k as [|k IH]; intros H; simpl; [done|]. rewrite H by lia.
  destruct (rd s' k); simpl; [|done..]. by rewrite IH by (intros; apply H; lia).
Qed.

(** *** [unrl_utf8_make_valid] *)

Lemma make_valid_loop str size strictlen :
  cstr str → (0 < size)%nat →
  ∃ r, loop (make_valid_body str size strictlen) (S (length str))
         (MV str (Z.of_nat (length str)) [] false) = Ok r ∧
    let '(out, replaced) := r in
    if replaced then ∃ T, utf8 T ∧ out = take (size - 1) T ∧ repaired str T
    else utf8 str ∧ (strictlen = 0 ∨ str = []).
Proof.
  intros Hstr Hsize.
  apply (loop_total _ (λ st,
    cstr (mv_remainder st) ∧ mv_remaining_bytes st = Z.of_nat (length (mv_remainder st)) ∧
    (∃ T, utf8 T ∧ mv_out st = take (size - 1) T ∧
       ∀ t, repaired (mv_remainder st) t → repaired str (T ++ t)) ∧
    if mv_replaced st then True else mv_remainder st = str ∧ mv_out st = [])
    (λ st, length (mv_remainder st))).
  2:{ simpl. split_and!; try done. exists []. split_and!; [constructor|by destruct (size - 1)%nat|done]. }
  2:{ simpl. lia. }
  intros [rem rb out rep] (Hrem & Hrb & (T & HT & Hout & Hfix) & Hrep). simpl in *. subst rb.
  unfold make_valid_body. cbn [mv_remainder mv_remaining_bytes mv_out mv_replaced].
  destruct (Z.eqb_spec (Z.of_nat (length rem)) 0) as [Hz|Hz].
  { eexists. split; [done|]. destruct rep.
    - destruct rem; [|done]. exists T. split_and!; [done..|].
      rewrite <-(app_nil_r T). apply Hfix. constructor.
    - destruct Hrep as [<- _]. destruct rem; [|done]. split; [constructor|by right]. }
  destruct (validate_spec rem Hrem) as (b & p & -> & Hb & Hbp & v & Ev & Hv & Hp).
  cbn [rbind]. destruct b.
  - destruct rep; simpl.
    + eexists. split; [done|]. exists (T ++ rem).
      assert (utf8 rem) by (by apply Hb).
      split_and!; [by apply utf8_concat| |].
      * subst out. by rewrite Strl.strlcat_trunc.
      * apply Hfix. rewrite <-(app_nil_r rem). apply repaired_app; [done|constructor].
    + destruct Hrep as [-> ->]. destruct (Z.eqb_spec strictlen 0) as [->|]; simpl.
      * eexists. split; [done|]. split; [by apply Hb|by left].
      * eexists. split; [done|]. exists str. rewrite Strl.strlcpy_fst by done.
        assert (utf8 str) by (by apply Hb). split_and!; [done|done|].
        rewrite <-(app_nil_r str). apply repaired_app; [done|constructor].
  - destruct (Hp eq_refl) as [Hne Hno]. destruct p as [|x rest]; [done|]. simpl.
    eexists. split; [done|]. cbn [mv_remainder mv_remaining_bytes mv_out mv_replaced].
    assert (length rem = length v + S (length rest))%nat as Hlen
      by (subst rem; rewrite length_app; done).
    split; [|lia]. split_and!.
    + subst rem. apply Forall_app in Hrem as [_ Hrem]. by apply cstr_cons_inv in Hrem as [_ ?].
    + lia.
    + exists ((T ++ v) ++ replacement).
      assert (∀ t, repaired rest t → repaired str (((T ++ v) ++ replacement) ++ t)) as Hfix'.
      { intros t Ht. rewrite <-!app_assoc. apply Hfix. rewrite Ev. apply repaired_app; [done|].
        by apply repaired_bad. }
      split_and!; [apply utf8_concat; [by apply utf8_concat|by apply utf8_one]| |done].
      clear Hfix Hfix'. subst out. rewrite Strl.strlncat_trunc, Strl.strlcat_trunc by done.
      do 3 f_equal. rewrite Hlen. subst rem.
      replace (length v + S (length rest) - S (length rest))%nat with (length v) by lia.
      by rewrite take_app_length.
    + done.
Qed.

Lemma strict_cut_take out s : strict_cut out = Some s → ∃ j, s = take j out ∧ (511 ≤ length s)%nat.
Proof.
  unfold strict_cut.
  repeat (case_match; try match goal with H : (_ <? _)%nat = true |- _ => apply Nat.ltb_lt in H end);
    intros [= <-]; eexists; (split; [done|]); rewrite length_take; lia.
Qed.

Lemma strict_cut_bound out :
  deref out ≠ AT →
  match strict_cut out with
  | Some s => (length s = 511)%nat
  | None => (length out ≤ 511)%nat
  end.
Proof.
  intros H. unfold strict_cut. destruct (Z.eqb_spec (deref out) AT); [done|].
  destruct (Nat.ltb_spec 511 (length out)); [rewrite length_take|]; lia.
Qed.

(** A cut of [out] that does not start with a tag marker. *)
Lemma strict_bound out i j n :
  (deref out ≠ AT → (length (take j out) ≤ n)%nat) →
  deref (take i (take j out)) ≠ AT → (length (take i (take j out)) ≤ n)%nat.
Proof.
  intros H Hd. rewrite length_take. destruct i, j, out; simpl in *; lia.
Qed.

(** The validator accepts exactly the strings of the RFC 3629 grammar,
    never reads past the terminator, and [*end] points just after the longest
    prefix made of well-formed characters. *)
Theorem unrl_utf8_validate_correct s :
  cstr s →
  ∃ b p v, unrl_utf8_validate s = Ok (b, p) ∧
    s = v ++ p ∧ utf8 v ∧ (b = true ↔ utf8 s) ∧ (b = true ↔ p = []) ∧
    ∀ ch rest, p = ch ++ rest → utf8_char ch = false.
Proof.
  intros Hs. destruct (validate_spec s Hs) as (b & p & H & Hb & Hp & v & E & Hv & Hne).
  exists b, p, v. split_and!; [done|done|done|done|destruct b; split; naive_solver|].
  destruct b; [|by apply Hne]. rewrite Hp by done. by intros [|] rest [=].
Qed.

Lemma make_valid_spec str outputbuflen strictlen :
  cstr str → (0 < outputbuflen)%nat →
  ∃ r, unrl_utf8_make_valid (Some str) outputbuflen strictlen = Ok r ∧
    match r with
    | MvNull => False
    | MvInput => utf8 str ∧ (strictlen = 0 ∨ str = [])
    | MvOutput s =>
        utf8 s ∧ (length s < outputbuflen)%nat ∧
        (strictlen = 2 → deref s ≠ AT → (length s ≤ 511)%nat) ∧
        ∃ T, repaired str T ∧ s `prefix_of` T ∧
          (s = T ∨ (outputbuflen ≤ length s + 5)%nat ∨ strictlen = 2 ∧ (507 ≤ length s)%nat)
    end.
Proof.
  intros Hs Hsize. unfold unrl_utf8_make_valid.
  destruct (Nat.eqb_spec outputbuflen 0); [lia|].
  destruct (make_valid_loop str outputbuflen strictlen) as ([out rep] & -> & Hr); [done..|].
  cbn [rbind]. destruct rep; [|eexists; split; [done|]; exact Hr].
  destruct Hr as (T & HT & -> & Hfix). simpl negb. cbv iota.
  set (out := take (outputbuflen - 1) T).
  assert (truncated out) as Ht by (by exists T, (outputbuflen - 1)%nat).
  assert (length out < outputbuflen)%nat as Hlen by (unfold out; rewrite length_take; lia).
  pose proof (strict_cut_bound out) as Hbound.
  destruct (if strictlen =? 2 then _ else _) as [s|] eqn:Ecut.
  - destruct (Z.eqb_spec strictlen 2); [|done]. rewrite Ecut in Hbound.
    apply strict_cut_take in Ecut as (j & -> & Hj).
    destruct (cut_back_truncated (take j out)) as (i & -> & Hu & Hl & Hl4); [by apply truncated_take|].
    eexists. split; [done|]. split_and!; [done|rewrite !length_take in *; lia| |].
    + intros _. apply strict_bound. intros Hd. specialize (Hbound Hd). lia.
    + exists T. split_and!; [done|by unfold out; rewrite !take_take; eexists; symmetry; apply take_drop|].
      right; right. split; [done|lia].
  - assert (∀ i, strictlen = 2 → deref (take i out) ≠ AT → (length (take i out) ≤ 511)%nat) as Hb.
    { intros i ->. simpl in Ecut. rewrite Ecut in Hbound.
      rewrite <-(firstn_all out). apply strict_bound. by rewrite firstn_all. }
    destruct (Nat.eqb_spec (length out) (outputbuflen - 1)) as [E|E].
    + rewrite <-E. destruct (cut_back_truncated out Ht) as (i & -> & Hu & Hl & Hl4).
      eexists. split; [done|]. split_and!; [done|lia|by apply Hb|]. exists T.
      split_and!; [done|by unfold out; rewrite take_take; eexists; symmetry; apply take_drop|].
      right; left. lia.
    + assert (out = T) as HoT by (unfold out in *; rewrite length_take in E; by rewrite take_ge by lia).
      clearbody out. subst out.
      eexists. split; [done|]. specialize (Hb (length T)). rewrite firstn_all in Hb.
      split_and!; [done|done|done|]. exists T. split_and!; [done|done|by left].
Qed.

(** C40.  Whatever the input bytes, [unrl_utf8_make_valid] terminates and the
    string it returns is valid UTF-8.  The input itself is returned only when
    it was valid.  Otherwise the output is a prefix of the repaired input, in
    which every byte at which no character starts has become U+FFFD; it fits
    the buffer with its NUL, and it is the whole of it unless at most four
    bytes of the buffer are left, or [strictlen == 2] and it has at least 507
    bytes; with [strictlen == 2] an untagged line has at most 511 bytes. *)
Theorem unrl_utf8_make_valid_correct str outputbuflen strictlen :
  cstr str → (0 < outputbuflen)%nat →
  ∃ r, unrl_utf8_make_valid (Some str) outputbuflen strictlen = Ok r ∧
    match r with
    | MvNull => False
    | MvInput => utf8 str ∧ (strictlen = 0 ∨ str = [])
    | MvOutput s =>
        utf8 s ∧ (length s < outputbuflen)%nat ∧
        (strictlen = 2 → deref s ≠ AT → (length s ≤ 511)%nat) ∧
        ∃ T, repaired str T ∧ s `prefix_of` T ∧
          (s = T ∨ (outputbuflen ≤ length s + 5)%nat ∨ strictlen = 2 ∧ (507 ≤ length s)%nat)
    end.
Proof. apply make_valid_spec. Qed.

(** A valid string that is shorter than the buffer comes back unchanged
    under [strictlen == 1]. *)
Lemma make_valid_id str outputbuflen :
  utf8 str → str ≠ [] → (length str + 1 < outputbuflen)%nat →
  unrl_utf8_make_valid (Some str) outputbuflen 1 = Ok (MvOutput str).
Proof.
  intros Hu Hne Hlen. unfold unrl_utf8_make_valid.
  destruct (Nat.eqb_spec outputbuflen 0); [lia|].
  destruct (make_valid_loop str outputbuflen 1) as ([out rep] & -> & Hr); [by apply utf8_cstr|lia|].
  cbn [rbind]. destruct rep; [|destruct Hr as [_ [?|?]]; done].
  destruct Hr as (T & _ & -> & ->%repaired_id); [|done]. simpl. rewrite take_ge by lia.
  destruct (Nat.eqb_spec (length str) (outputbuflen - 1)); [lia|done].
Qed.

(** The boundary case of [strictlen == 2]: a line of exactly 511 bytes is not
    shortened. *)
Theorem make_valid_strict_511 :
  unrl_utf8_make_valid (Some (replicate 511 65)) 2048 2 = Ok (MvOutput (replicate 511 65)) ∧
  ∃ s, unrl_utf8_make_valid (Some (replicate 512 65)) 2048 2 = Ok (MvOutput s) ∧
       length s = 510%nat.
Proof. split; [by vm_compute|]. eexists. split; by vm_compute. Qed.

Lemma utf8_valid_cutoff_spec msg len :
  utf8 msg → (len ≤ length msg)%nat →
  ∃ n, utf8_valid_cutoff msg len = Ok (take n msg, n) ∧
       utf8 (take n msg) ∧ (n ≤ len)%nat ∧ (len ≤ n + 3)%nat.
Proof.
  intros Hu Hlen. unfold utf8_valid_cutoff. destruct (decide (len = length msg)) as [->|Hne].
  - exists (length msg). rewrite Nat.add_1_r. simpl. rewrite rd_length. simpl.
    rewrite firstn_all. split_and!; [done|done|lia|lia].
  - rewrite (find_prev_ext _ (take (len + 1) msg)).
    2:{ intros i Hi. destruct (lookup_lt_is_Some_2 msg i ltac:(lia)) as [c Hc].
        rewrite !(rd_lookup _ _ c); [done| |done]. by rewrite lookup_take_lt by lia. }
    destruct (find_prev_truncated (take (len + 1) msg)) as (i & Hf & Hv & Hi & H4).
    + by exists msg, (len + 1)%nat.
    + intros E. apply (f_equal length) in E. rewrite length_take in E. simpl in E. lia.
    + rewrite length_take, Nat.min_l in * by lia. rewrite Hf. simpl.
      exists i. rewrite take_take, Nat.min_l in Hv by lia. split_and!; [done|done|lia|lia].
Qed.

(** [utf8_valid_cutoff] on a valid string: the result is valid UTF-8, is
    the prefix of the message of the reported new length, and at most three
    bytes shorter than the requested length. *)
Theorem utf8_valid_cutoff_correct msg len :
  utf8 msg → (len ≤ length msg)%nat →
  ∃ n, utf8_valid_cutoff msg len = Ok (take n msg, n) ∧
       utf8 (take n msg) ∧ (n ≤ len)%nat ∧ (len ≤ n + 3)%nat.
Proof. apply utf8_valid_cutoff_spec. Qed.

(** "caf\xe9": a Latin-1 byte at the end. *)
Lemma unrl_utf8_validate_witness :
  ∃ b p v, unrl_utf8_validate [99; 97; 102; 0xe9] = Ok (b, p) ∧
    [99; 97; 102; 0xe9] = v ++ p ∧ utf8 v ∧ (b = true ↔ p = []).
Proof.
  destruct (unrl_utf8_validate_correct [99; 97; 102; 0xe9]) as (b & p & v & H1 & H2 & H3 & _ & H4 & _).
  - apply (bool_decide_unpack _). vm_compute. exact I.
  - exists b, p, v. split; [exact H1|]. split; [exact H2|]. split; [exact H3|exact H4].
Defined.

Lemma unrl_utf8_make_valid_witness :
  ∃ r, unrl_utf8_make_valid (Some [99; 97; 102; 0xe9]) 16 0 = Ok r ∧ r ≠ MvNull.
Proof.
  destruct (unrl_utf8_make_valid_correct [99; 97; 102; 0xe9] 16 0) as (r & H1 & H2).
  - apply (bool_decide_unpack _). vm_compute. exact I.
  - lia.
  - exists r. split; [exact H1|]. intros ->. exact H2.
Defined.

Lemma utf8_valid_cutoff_witness :
  ∃ n, utf8_valid_cutoff [97; 0xc3; 0xa9; 98] 2 = Ok (take n [97; 0xc3; 0xa9; 98], n) ∧ (n ≤ 2)%nat.
Proof.
  destruct (utf8_valid_cutoff_correct [97; 0xc3; 0xa9; 98] 2) as (n & H1 & _ & H2 & _).
  - apply (utf8_app [97]); [reflexivity|]. apply (utf8_app [0xc3; 0xa9]); [reflexivity|].
    apply (utf8_app [98]); [reflexivity|constructor].
  - simpl. lia.
  - exists n. split; [exact H1|exact H2].
Defined.
