(* ===== verification/Match.v ===== *)
(** * Mask matching of src/match.c

    The wildcard matchers [match_simple] and [match_esc], the pattern
    reducer [collapse], the [Match] object ([unreal_match]) and the IPv6
    prefix mask.  Pointers into the mask and the name are offsets; a read
    outside the string is [UB]. *)

From stdpp Require Import base tactics list numbers strings.
From Stdlib Require Import ZArith Lia.
From S2P Require Import Prelude Chars.

Local Open Scope Z_scope.

(** ** The matchers *)

Definition lc (c : Z) : Z := tolower c.

(** Skip a run of stars in the mask, from the offset [m]. *)
Fixpoint star_run (p : list Z) : nat :=
  match p with
  | c :: r => if c =? STAR then S (star_run r) else 0%nat
  | [] => 0%nat
  end.
Definition skip_stars (mask : list Z) (m : nat) : nat := (m + star_run (drop m mask))%nat.

(** Step back over question marks, not before the start of the mask; entered
    with [m] already decremented once. *)
Fixpoint back_qmarks (mask : list Z) (m : nat) : res nat :=
  match m with
  | O => Ok 0%nat
  | S m' =>
      let! c := rd mask m in
      if c =? QMARK then back_qmarks mask m' else Ok m
  end.

(** The four pointers of both matchers. *)
Record mstate := MS { ms_m : nat; ms_n : nat; ms_ma : option nat; ms_na : nat }.

(** The head of the loop: a run of stars moves [ma] and [na]. *)
Definition star_head (mask : list Z) (s : mstate) : res mstate :=
  let! c := rd mask (ms_m s) in
  if c =? STAR then
    let m := skip_stars mask (ms_m s) in
    Ok (MS m (ms_n s) (Some m) (ms_n s))
  else Ok s.

(** The comparison at the end of the loop of [match_simple]. *)
Definition simple_compare (mask name : list Z) (s : mstate) : res (step mstate bool) :=
  let! c := rd mask (ms_m s) in
  let! d := rd name (ms_n s) in
  if negb (lc c =? lc d) && negb ((c =? UNDERSCORE) && (d =? SPACE_CH)) && negb (c =? QMARK)
  then match ms_ma s with
       | None => Ok (Done false)
       | Some a => Ok (Next (MS a (S (ms_na s)) (Some a) (S (ms_na s))))
       end
  else Ok (Next (MS (S (ms_m s)) (S (ms_n s)) (ms_ma s) (ms_na s))).

(** The comparison at the end of the loop of [match_esc]: a question mark
    matches, a backslash makes the next character literal. *)
Definition esc_literal (name : list Z) (s : mstate) (m : nat) (c : Z)
  : res (step mstate bool) :=
  let! d := rd name (ms_n s) in
  if negb (lc c =? lc d) && negb ((c =? UNDERSCORE) && (d =? SPACE_CH))
  then match ms_ma s with
       | None => Ok (Done false)
       | Some a => Ok (Next (MS a (S (ms_na s)) (Some a) (S (ms_na s))))
       end
  else Ok (Next (MS (S m) (S (ms_n s)) (ms_ma s) (ms_na s))).

Definition esc_compare (mask name : list Z) (s : mstate) : res (step mstate bool) :=
  let m := ms_m s in
  let! c := rd mask m in
  if negb (c =? QMARK) then
    if c =? BSLASH then
      let! c' := rd mask (S m) in
      if c' =? 0 then Ok (Done false) (* unfinished escape sequence *)
      else esc_literal name s (S m) c'
    else esc_literal name s m c
  else Ok (Next (MS (S m) (S (ms_n s)) (ms_ma s) (ms_na s))).

(** One round of [while (1)]; the two matchers differ in [compare]. *)
Definition match_body (compare : list Z → list Z → mstate → res (step mstate bool))
    (mask name : list Z) (s : mstate) : res (step mstate bool) :=
  let! s := star_head mask s in
  let! c := rd mask (ms_m s) in
  let! d := rd name (ms_n s) in
  if c =? 0 then
    if d =? 0 then Ok (Done true)
    else match ms_ma s with
         | None => Ok (Done false)
         | Some a =>
             match ms_m s with
             | O => UB
             | S m1 =>
                 let! k := back_qmarks mask m1 in
                 let! e := rd mask k in
                 if e =? STAR then Ok (Done true)
                 else compare mask name (MS a (S (ms_na s)) (Some a) (S (ms_na s)))
             end
         end
  else if d =? 0 then
    let! e := rd mask (skip_stars mask (ms_m s)) in
    Ok (Done (e =? 0))
  else compare mask name s.

(** Every round either moves forward in the mask or moves [na]. *)
Definition match_fuel (mask name : list Z) : nat :=
  S ((length name + 1) * (length mask + 1) + length mask).

Definition match_simple (mask name : list Z) : res bool :=
  loop (match_body simple_compare mask name) (match_fuel mask name) (MS 0 0 None 0).
Definition match_esc (mask name : list Z) : res bool :=
  loop (match_body esc_compare mask name) (match_fuel mask name) (MS 0 0 None 0).


(** *** [collapse] *)

(** The copy loop behind a star and a question mark: the question marks of a
    run of stars and question marks are kept, the rest follows. *)
Fixpoint keep_qmarks (t : list Z) : list Z :=
  match t with
  | c :: t' =>
      if c =? QMARK then QMARK :: keep_qmarks t'
      else if c =? STAR then keep_qmarks t'
      else t
  | [] => []
  end.

(** What [collapse] leaves behind a star, [t] being what followed it. *)
Definition after_star (t : list Z) : list Z :=
  match t with
  | c :: t' =>
      if c =? STAR then drop (star_run t) t
      else if c =? QMARK then QMARK :: keep_qmarks t'
      else t
  | [] => []
  end.

Fixpoint collapse_from (fuel : nat) (s : list Z) : list Z :=
  match fuel with
  | O => s
  | S f =>
      match s with
      | [] => []
      | c :: t =>
          if c =? BSLASH then
            match t with
            | [] => s
            | x :: t' => c :: x :: collapse_from f t'
            end
          else if c =? STAR then c :: collapse_from f (after_star t)
          else c :: collapse_from f t
      end
  end.
Definition collapse (pattern : list Z) : list Z := collapse_from (length pattern) pattern.

(** ** What a mask means *)

(** A mask is a sequence of tokens; [TBad] is a backslash at the end of the
    mask, which matches nothing. *)
Inductive tok := TStar | TAny | TLit (c : Z) | TBad.

#[global] Instance tok_eq_dec : EqDecision tok.
Proof. solve_decision. Defined.

(** A literal of the mask matches the same letter in either case, and an
    underscore also matches a space. *)
Definition ch_eq (c d : Z) : bool :=
  (lc c =? lc d) || ((c =? UNDERSCORE) && (d =? SPACE_CH)).

Definition tok_match (t : tok) (d : Z) : bool :=
  match t with
  | TAny => true
  | TLit c => ch_eq c d
  | TStar | TBad => false
  end.

(** The reference: a star matches any number of characters, every other token
    exactly one. *)
Fixpoint glob (ts : list tok) (name : list Z) : bool :=
  match ts with
  | [] => match name with [] => true | _ => false end
  | TStar :: ts' =>
      (fix star (name : list Z) : bool :=
         glob ts' name ||
         match name with [] => false | _ :: name' => star name' end) name
  | t :: ts' =>
      match name with
      | [] => false
      | d :: name' => tok_match t d && glob ts' name'
      end
  end.

(** Tokens of a mask for [match_simple]. *)
Definition simple_tok (c : Z) : tok :=
  if c =? STAR then TStar else if c =? QMARK then TAny else TLit c.
Definition simple_toks (mask : list Z) : list tok := map simple_tok mask.

(** Tokens of a mask for [match_esc] and [collapse]. *)
Fixpoint esc_toks (mask : list Z) : list tok :=
  match mask with
  | [] => []
  | c :: r =>
      if c =? BSLASH then
        match r with
        | [] => [TBad]
        | x :: r' => TLit x :: esc_toks r'
        end
      else simple_tok c :: esc_toks r
  end.

Lemma glob_star ts name :
  glob (TStar :: ts) name = true ↔
  ∃ j, (j ≤ length name)%nat ∧ glob ts (drop j name) = true.
Proof.
  simpl. induction name as [|d name IH].
  - rewrite orb_false_r. split.
    + intros H. exists 0%nat. split; [lia|]. by destruct ts.
    + intros (j & _ & H). by rewrite drop_nil in H.
  - rewrite orb_true_iff, IH. split.
    + intros [H|(j & Hj & H)]; [exists 0%nat|exists (S j)]; split; simpl; (done || lia).
    + intros ([|j] & Hj & H); [by left|right]. exists j. simpl in *. split; (done || lia).
Qed.

Lemma glob_cons t ts name :
  t ≠ TStar →
  glob (t :: ts) name = match name with
                        | [] => false
                        | d :: name' => tok_match t d && glob ts name'
                        end.
Proof. by destruct t. Qed.

(** A segment without stars consumes exactly its length. *)
Definition starless (seg : list tok) : Prop := Forall (λ t, t ≠ TStar) seg.
Definition segmatch (seg : list tok) (s : list Z) : Prop :=
  Forall2 (λ t d, tok_match t d = true) seg s.

Lemma glob_seg seg r s :
  starless seg →
  glob (seg ++ r) s = true ↔
  (length seg ≤ length s)%nat ∧ segmatch seg (take (length seg) s) ∧
  glob r (drop (length seg) s) = true.
Proof.
  intros Hseg. revert s. induction Hseg as [|t seg Hc Hseg IH]; intros s.
  - simpl. rewrite drop_0. split; [intros; split_and!; [lia|constructor|done]|by intros (_ & _ & ?)].
  - change ((t :: seg) ++ r) with (t :: (seg ++ r)). rewrite glob_cons by done.
    destruct s as [|d s].
    + simpl. split; [done|]. intros (? & _). lia.
    + rewrite andb_true_iff, IH. simpl. split.
      * intros (? & ? & ? & ?). split_and!; [lia|by constructor|done].
      * intros (? & H & ?). inversion H; subst. split_and!; [done|lia|done|done].
Qed.

Lemma star_run_spec p :
  ∃ r, p = replicate (star_run p) STAR ++ r ∧ r = drop (star_run p) p ∧ deref r ≠ STAR.
Proof.
  induction p as [|c p (r & E & Er & Hr)]; simpl; [by exists []|].
  destruct (Z.eqb_spec c STAR) as [->|Hc]; simpl.
  - exists r. split_and!; [by rewrite <-E|done|done].
  - by exists (c :: p).
Qed.

Lemma glob_stars k r s :
  (0 < k)%nat →
  glob (replicate k TStar ++ r) s = true ↔ ∃ j, (j ≤ length s)%nat ∧ glob r (drop j s) = true.
Proof.
  intros Hk. destruct k as [|k]; [lia|]. clear Hk. revert s.
  induction k as [|k IH]; intros s; [apply glob_star|].
  change (replicate (S (S k)) TStar ++ r) with (TStar :: (replicate (S k) TStar ++ r)).
  rewrite glob_star. setoid_rewrite IH. setoid_rewrite drop_drop. setoid_rewrite length_drop.
  split.
  - intros (j & Hj & i & Hi & H). exists (j + i)%nat. split; [lia|done].
  - intros (j & Hj & H). exists 0%nat. split; [lia|]. exists j. simpl. split; [lia|done].
Qed.

Lemma glob_bad ts s : TBad ∈ ts → glob ts s = false.
Proof.
  intros Hin. apply not_true_is_false. revert s.
  induction ts as [|t ts IH]; intros s; [by apply not_elem_of_nil in Hin|].
  destruct (decide (t = TStar)) as [->|Ht].
  - rewrite glob_star. intros (j & _ & H).
    apply elem_of_cons in Hin as [?|Hin]; [done|]. by eapply IH.
  - rewrite glob_cons by done. destruct s as [|d s]; [done|].
    apply elem_of_cons in Hin as [<-|Hin]; [done|].
    intros [_ ?]%andb_true_iff. by eapply IH.
Qed.

Lemma glob_anys seg s :
  Forall (λ t, t = TAny) seg → length s = length seg → glob seg s = true.
Proof.
  intros Hq. revert s. induction Hq as [|c seg -> _ IH]; intros [|d s] Hl; try done.
  simpl. apply IH. simpl in Hl. lia.
Qed.

(** ** The matching loop, for any token syntax

    [tk] splits a mask suffix into tokens, [width] is the number of mask
    characters of the first token. *)
Section Matcher.
Context (mask name : list Z) (Hmask : cstr mask) (Hname : cstr name).
Context (compare : list Z → list Z → mstate → res (step mstate bool)).
Context (tk : list Z → list tok) (width : list Z → nat).
Context (tk_nil : tk [] = []).
Context (tk_star : ∀ r, tk (STAR :: r) = TStar :: tk r).
Context (tk_cons : ∀ p, p ≠ [] → deref p ≠ STAR →
  ∃ t, t ≠ TStar ∧ tk p = t :: tk (drop (width p) p) ∧ (0 < width p)%nat ∧
       (t ≠ TBad → (width p ≤ length p)%nat)).
(** What the comparison does with the first token at [m]. *)
Context (compare_ok : ∀ s c p t d,
  drop (ms_m s) mask = c :: p → c ≠ STAR → name !! ms_n s = Some d →
  tk (c :: p) = t :: tk (drop (width (c :: p)) (c :: p)) →
  compare mask name s =
    Ok (if decide (t = TBad) then Done false
        else if tok_match t d
        then Next (MS (ms_m s + width (c :: p)) (S (ms_n s)) (ms_ma s) (ms_na s))
        else match ms_ma s with
             | None => Done false
             | Some a => Next (MS a (S (ms_na s)) (Some a) (S (ms_na s)))
             end)).
(** The backward test finds the last star iff only [?] follows it. *)
Context (back_ok : ∀ a seg,
  (0 < a)%nat → mask !! (a - 1)%nat = Some STAR → starless seg → TBad ∉ seg →
  tk (drop a mask) = seg → (∃ pre, tk mask = pre ++ seg) →
  ∃ k e, back_qmarks mask (length mask - 1) = Ok k ∧ mask !! k = Some e ∧
    (e = STAR ↔ Forall (λ t, t = TAny) seg)).

Let answer : bool := glob (tk mask) name.

(** Before the first star the rest of the mask must match the rest of the
    name.  After a star, with [a] just behind it: the segment of the mask
    between [a] and [m] has no star and matches the name between [na] and
    [n], and the whole mask matches iff the mask from [a] matches the name
    from some offset that is not before [na]. *)
Definition inv (s : mstate) : Prop :=
  (ms_m s ≤ length mask)%nat ∧ (ms_n s ≤ length name)%nat ∧
  (∃ pre, tk mask = pre ++ tk (drop (ms_m s) mask)) ∧
  match ms_ma s with
  | None => ms_na s = 0%nat ∧ answer = glob (tk (drop (ms_m s) mask)) (drop (ms_n s) name)
  | Some a =>
      (0 < a ≤ ms_m s)%nat ∧ mask !! (a - 1)%nat = Some STAR ∧
      (∃ pre, tk mask = pre ++ tk (drop a mask)) ∧
      (answer = true ↔
         ∃ j, (ms_na s ≤ j ≤ length name)%nat ∧ glob (tk (drop a mask)) (drop j name) = true) ∧
      ∃ seg, tk (drop a mask) = seg ++ tk (drop (ms_m s) mask) ∧ starless seg ∧ (TBad ∉ seg) ∧
             ms_n s = (ms_na s + length seg)%nat ∧
             segmatch seg (take (length seg) (drop (ms_na s) name))
  end.

Definition mu (s : mstate) : nat :=
  ((length name + 1 - ms_na s) * (length mask + 1) + (length mask - ms_m s))%nat.

Lemma inv_na s : inv s → (ms_na s ≤ ms_n s)%nat.
Proof.
  intros (_ & _ & _ & H).
  destruct (ms_ma s); [destruct H as (_ & _ & _ & _ & seg & _ & _ & _ & -> & _)|]; lia.
Qed.

Lemma mu_le s m' na' :
  (ms_na s ≤ na')%nat → (ms_m s ≤ m')%nat →
  ((length name + 1 - na') * (length mask + 1) + (length mask - m') ≤ mu s)%nat.
Proof. intros. unfold mu. nia. Qed.

Lemma tk_stars k r : tk (replicate k STAR ++ r) = replicate k TStar ++ tk r.
Proof. induction k as [|k IH]; [done|]. simpl. by rewrite tk_star, IH. Qed.

(** The next star: everything before it is settled. *)
Lemma inv_next_star s r k :
  inv s → drop (ms_m s) mask = replicate (S k) STAR ++ r →
  answer = true ↔
  ∃ j, (ms_n s ≤ j ≤ length name)%nat ∧ glob (tk r) (drop j name) = true.
Proof.
  intros (Hm & Hn & _ & H) E. destruct (ms_ma s) as [a|].
  - destruct H as (_ & _ & _ & -> & seg & Ea & Hseg & _ & Hns & Hmt).
    rewrite Ea, E, tk_stars.
    setoid_rewrite glob_seg; [|done]. setoid_rewrite glob_stars; [|lia].
    setoid_rewrite drop_drop. setoid_rewrite length_drop. split.
    + intros (j & Hj & Hl & _ & i & Hi & Hg). exists (j + (length seg + i))%nat.
      split; [lia|]. rewrite <-Hg, ?drop_drop. first [done | do 2 f_equal; lia].
    + intros (j & Hj & Hg). exists (ms_na s). split_and!; [lia|lia|lia|done|].
      exists (j - ms_n s)%nat. split; [lia|].
      rewrite <-Hg, ?drop_drop. first [done | do 2 f_equal; lia].
  - destruct H as [_ ->]. rewrite E, tk_stars, glob_stars by lia.
    setoid_rewrite drop_drop. setoid_rewrite length_drop. split.
    + intros (j & Hj & Hg). exists (ms_n s + j)%nat. split; [lia|done].
    + intros (j & Hj & Hg). exists (j - ms_n s)%nat. split; [lia|].
      rewrite <-Hg, ?drop_drop. first [done | do 2 f_equal; lia].
Qed.

Lemma star_head_spec s :
  inv s →
  ∃ s', star_head mask s = Ok s' ∧ inv s' ∧ deref (drop (ms_m s') mask) ≠ STAR ∧
        ms_n s' = ms_n s ∧ (mu s' ≤ mu s)%nat.
Proof.
  intros Hs. pose proof (inv_na s Hs) as Hna. pose proof Hs as (Hm & Hn & [pre Hpre] & _).
  unfold star_head. rewrite rd_drop by done. simpl.
  destruct (Z.eqb_spec (deref (drop (ms_m s) mask)) STAR) as [Hc|Hc].
  2:{ exists s. by split_and!. }
  destruct (star_run_spec (drop (ms_m s) mask)) as (r & E & Er & Hr).
  destruct (drop (ms_m s) mask) as [|c p] eqn:Ed; [done|]. simpl in Hc. subst c.
  set (m' := skip_stars mask (ms_m s)).
  assert (m' = ms_m s + S (star_run p))%nat as Hm' by (unfold m', skip_stars; by rewrite Ed).
  simpl star_run in E, Er. rewrite <-Ed, drop_drop in Er.
  rewrite <-Ed in E, Hpre.
  assert (m' ≤ length mask)%nat as Hle.
  { apply (f_equal length) in E. rewrite length_app, length_replicate, length_drop in E. lia. }
  assert (∃ pre, tk mask = pre ++ tk r) as Hpre'.
  { exists (pre ++ replicate (S (star_run p)) TStar). rewrite Hpre, E, tk_stars.
    by rewrite <-app_assoc. }
  eexists. split; [done|]. simpl. rewrite Hm', <-Er. split_and!; [|done|done|].
  2:{ rewrite <-Hm'. unfold mu at 1. simpl. apply mu_le; lia. }
  split_and!; simpl; [lia|done|by rewrite <-Er|split_and!]; [lia|lia| | | |].
  - replace (ms_m s + S (star_run p) - 1)%nat with (ms_m s + star_run p)%nat by lia.
    rewrite <-lookup_drop, E. rewrite lookup_app_l by (rewrite length_replicate; lia).
    apply lookup_replicate. split; [done|lia].
  - by rewrite <-Er.
  - rewrite <-Er. apply (inv_next_star s r (star_run p) Hs E).
  - exists []. simpl. rewrite <-Er.
    split_and!; [done|constructor|apply not_elem_of_nil|lia|constructor].
Qed.

(** Giving up on [na]: the mask behind the star does not match there. *)
Lemma inv_retry s a :
  inv s → ms_ma s = Some a → (ms_na s < length name)%nat →
  glob (tk (drop (ms_m s) mask)) (drop (ms_n s) name) = false →
  inv (MS a (S (ms_na s)) (Some a) (S (ms_na s))).
Proof.
  intros (Hm & Hn & _ & H) Hma Hlt Hf. rewrite Hma in H.
  destruct H as (Ha & Hst & Hpre & Hans & seg & Ea & Hseg & Hbad & Hns & Hmt).
  split_and!; simpl; [lia|lia|done|split_and!]; [lia|lia|done|done| |].
  - rewrite Hans. split.
    + intros (j & Hj & Hg). exists j. split; [|done].
      destruct (decide (j = ms_na s)) as [->|]; [|lia]. exfalso.
      rewrite Ea, glob_seg, drop_drop, <-Hns in Hg by done. destruct Hg as (_ & _ & Hg).
      congruence.
    + intros (j & Hj & Hg). exists j. split; [lia|done].
  - exists []. split_and!; [done|constructor|apply not_elem_of_nil|simpl; lia|constructor].
Qed.

(** Step past a token that matched. *)
Lemma inv_advance s c p t d :
  inv s → drop (ms_m s) mask = c :: p → name !! ms_n s = Some d → t ≠ TStar → t ≠ TBad →
  tk (c :: p) = t :: tk (drop (width (c :: p)) (c :: p)) →
  (width (c :: p) ≤ length (c :: p))%nat → tok_match t d = true →
  inv (MS (ms_m s + width (c :: p)) (S (ms_n s)) (ms_ma s) (ms_na s)).
Proof.
  intros (Hm & Hn & [pre Hpre] & H) Hc Hd Hns Hnb Htk Hw Ht.
  pose proof (lookup_lt_Some _ _ _ Hd).
  assert (length (c :: p) = length mask - ms_m s)%nat as Hlen
    by (rewrite <-Hc, length_drop; done).
  rewrite <-Hc, drop_drop in Htk. rewrite Hc in Htk at 2.
  split_and!; simpl; [lia|lia| |].
  { exists (pre ++ [t]). by rewrite Hpre, Htk, <-app_assoc. }
  destruct (ms_ma s) as [a|].
  - destruct H as (Ha & Hst & Hprea & Hans & seg & Ea & Hseg & Hbad & Hnn & Hmt).
    split_and!; [lia|lia|done|done|done|]. exists (seg ++ [t]).
    rewrite length_app. simpl. split_and!.
    + by rewrite Ea, Htk, <-app_assoc.
    + apply Forall_app. split; [done|]. by repeat constructor.
    + rewrite elem_of_app, list_elem_of_singleton. intros [?|?]; congruence.
    + lia.
    + rewrite Nat.add_1_r, (take_S_r _ _ d).
      * apply Forall2_app; [done|]. by repeat constructor.
      * by rewrite lookup_drop, <-Hnn.
  - destruct H as [-> ->]. split; [done|].
    by rewrite Htk, (drop_S _ _ _ Hd), glob_cons, Ht by done.
Qed.

Lemma compare_spec s :
  inv s → deref (drop (ms_m s) mask) ≠ STAR →
  (ms_m s < length mask)%nat → (ms_n s < length name)%nat →
  ∃ o, compare mask name s = Ok o ∧
    match o with
    | Next s' => inv s' ∧ (mu s' < mu s)%nat
    | Done b => b = answer
    end.
Proof.
  intros Hs Hst Hm Hn. pose proof (inv_na s Hs) as Hna.
  destruct (drop (ms_m s) mask) as [|c p] eqn:Ed; [apply drop_nil_inv in Ed; lia|].
  simpl in Hst. destruct (lookup_lt_is_Some_2 name (ms_n s) Hn) as [d Hd].
  destruct (tk_cons (c :: p)) as (t & Ht & Htk & Hw & Hwl); [done..|].
  rewrite (compare_ok s c p t d) by done. pose proof Hs as (_ & _ & [pre Hpre] & H).
  eexists. split; [done|]. destruct (decide (t = TBad)) as [->|Hnb].
  { unfold answer. rewrite glob_bad; [done|]. rewrite Hpre, Ed, Htk.
    apply elem_of_app. right. apply elem_of_cons. by left. }
  destruct (tok_match t d) eqn:Hmt.
  { split; [by eapply inv_advance; eauto|]. unfold mu. simpl. lia. }
  assert (glob (tk (drop (ms_m s) mask)) (drop (ms_n s) name) = false) as Hf.
  { by rewrite Ed, Htk, (drop_S _ _ _ Hd), glob_cons, Hmt by done. }
  destruct (ms_ma s) as [a|] eqn:Hma.
  - split; [apply inv_retry; (done || lia)|]. unfold mu. simpl. nia.
  - destruct H as [_ ->]. done.
Qed.

(** The mask is used up but the name is not, behind a star. *)
Lemma mask_end_spec s a :
  inv s → ms_ma s = Some a → ms_m s = length mask → (ms_n s < length name)%nat →
  ∃ m1 k e, ms_m s = S m1 ∧ back_qmarks mask m1 = Ok k ∧ rd mask k = Ok e ∧
    if e =? STAR then answer = true
    else inv (MS a (S (ms_na s)) (Some a) (S (ms_na s))) ∧
         deref (drop a mask) ≠ STAR ∧ (a < length mask)%nat ∧
         (S (ms_na s) < length name)%nat.
Proof.
  intros Hs Hma Hm Hn. pose proof Hs as (_ & _ & _ & H). rewrite Hma in H.
  destruct H as (Ha & Hst & Hpre & Hans & seg & Ea & Hseg & Hbad & Hns & Hmt).
  rewrite Hm, (drop_ge mask (length mask)), tk_nil, app_nil_r in Ea by lia.
  rewrite Ea in Hpre.
  destruct (back_ok a seg) as (k & e & Hk & He & Hiff); [lia|done..|].
  exists (length mask - 1)%nat, k, e. split_and!; [lia|done|by apply rd_lookup|].
  destruct (Z.eqb_spec e STAR) as [->|Hne].
  - rewrite Hans, Ea. exists (length name - length seg)%nat. split; [lia|].
    apply glob_anys; [by apply Hiff|]. rewrite length_drop. lia.
  - assert (seg ≠ []) as Hnil by (intros ->; apply Hne, Hiff; constructor).
    assert (drop a mask ≠ []) as Hdn by (intros E; rewrite E, tk_nil in Ea; done).
    destruct (drop a mask) as [|c p] eqn:Ed; [done|].
    split_and!.
    + eapply inv_retry; [done|done|lia|].
      rewrite Hm, (drop_ge mask), tk_nil by lia.
      destruct (lookup_lt_is_Some_2 name (ms_n s) Hn) as [d Hdd].
      by rewrite (drop_S _ _ _ Hdd).
    + simpl. intros ->. rewrite tk_star in Ea. subst seg. by inversion Hseg.
    + by eapply drop_cons_lt.
    + destruct seg; [done|]. simpl in *. lia.
Qed.

(** The name is used up but the mask is not. *)
Lemma name_end_spec s :
  inv s → ms_n s = length name → (ms_m s < length mask)%nat →
  deref (drop (ms_m s) mask) ≠ STAR → answer = false.
Proof.
  intros (Hm & _ & _ & H) Hn Hlt Hst.
  destruct (drop (ms_m s) mask) as [|c p] eqn:Ed; [apply drop_nil_inv in Ed; lia|].
  simpl in Hst. destruct (tk_cons (c :: p)) as (t & Ht & Htk & _); [done..|].
  destruct (ms_ma s) as [a|].
  - destruct H as (Ha & _ & _ & Hans & seg & Ea & Hseg & _ & Hns & Hmt).
    apply not_true_is_false. rewrite Hans. intros (j & Hj & Hg).
    rewrite Ea, Htk, glob_seg in Hg by done. destruct Hg as (Hl & _ & Hg).
    rewrite glob_cons, drop_drop, (drop_ge name) in Hg by (done || lia). done.
  - destruct H as [_ ->]. rewrite Hn, (drop_ge name), Htk, glob_cons by (done || lia). done.
Qed.

(** Both strings are used up. *)
Lemma both_end_spec s :
  inv s → ms_m s = length mask → ms_n s = length name → answer = true.
Proof.
  intros (_ & _ & _ & H) Hc Hd. destruct (ms_ma s) as [a|].
  - destruct H as (Ha & _ & _ & Hans & seg & Ea & Hseg & _ & Hns & Hmt). rewrite Hans.
    exists (ms_na s). split; [lia|]. rewrite Ea, glob_seg by done.
    rewrite length_drop, drop_drop, <-Hns, Hc, Hd, (drop_ge mask), tk_nil,
      (drop_ge name (length name)) by lia.
    split_and!; [lia|done|done].
  - destruct H as [_ ->]. rewrite Hc, Hd, !drop_ge, tk_nil by lia. done.
Qed.

Lemma rd_nonzero_lt s i c : (i ≤ length s)%nat → rd s i = Ok c → c ≠ 0 → (i < length s)%nat.
Proof.
  intros Hi Hr Hc. destruct (decide (i = length s)) as [E|]; [|lia].
  rewrite E, rd_length in Hr. congruence.
Qed.

Lemma match_body_spec s :
  inv s →
  ∃ o, match_body compare mask name s = Ok o ∧
    match o with
    | Next s' => inv s' ∧ (mu s' < mu s)%nat
    | Done b => b = answer
    end.
Proof.
  intros Hs. destruct (star_head_spec s Hs) as (s' & Hh & Hs' & Hst & _ & Hmu).
  unfold match_body. rewrite Hh. simpl. clear Hh. pose proof Hs' as (Hm & Hn & _ & H).
  destruct (rd_total mask (ms_m s') Hm) as [c Hc].
  destruct (rd_total name (ms_n s') Hn) as [d Hd]. rewrite Hc, Hd. simpl.
  destruct (Z.eqb_spec c 0) as [->|Hc0].
  - apply rd_zero in Hc; [|done]. destruct (Z.eqb_spec d 0) as [->|Hd0].
    + apply rd_zero in Hd; [|done]. eexists. split; [done|]. symmetry.
      by eapply both_end_spec.
    + apply rd_nonzero_lt in Hd; [|done..]. destruct (ms_ma s') as [a|] eqn:Hma.
      * destruct (mask_end_spec s' a) as (m1 & k & e & -> & -> & He & Hres); [done..|].
        simpl. rewrite He. simpl. destruct (e =? STAR); [by eexists|].
        destruct Hres as (Hi & Hs2 & Hl1 & Hl2).
        destruct (compare_spec _ Hi) as (o & -> & Ho); [done..|].
        exists o. split; [done|]. destruct o as [s2|]; [|done]. destruct Ho as [? Hlt2].
        split; [done|]. pose proof (inv_na _ Hs') as Hna'.
        assert (mu (MS a (S (ms_na s')) (Some a) (S (ms_na s'))) ≤ mu s')%nat; [|lia].
        unfold mu. simpl. nia.
      * destruct H as [_ ->]. eexists. split; [done|].
        destruct (lookup_lt_is_Some_2 name (ms_n s') Hd) as [d' Hdd].
        by rewrite Hc, (drop_ge mask), tk_nil, (drop_S _ _ _ Hdd) by lia.
  - pose proof (rd_nonzero_lt _ _ _ Hm Hc Hc0) as Hlm.
    destruct (Z.eqb_spec d 0) as [->|Hd0].
    + apply rd_zero in Hd; [|done]. unfold skip_stars.
      assert (star_run (drop (ms_m s') mask) = 0%nat) as ->.
      { destruct (drop (ms_m s') mask) as [|c' p]; [done|]. simpl in *.
        by destruct (Z.eqb_spec c' STAR). }
      rewrite Nat.add_0_r, Hc. simpl. eexists. split; [done|].
      destruct (Z.eqb_spec c 0); [done|]. symmetry. by eapply name_end_spec.
    + pose proof (rd_nonzero_lt _ _ _ Hn Hd Hd0) as Hlt.
      destruct (compare_spec s' Hs') as (o & -> & Ho); [done..|].
      exists o. split; [done|]. destruct o; [|done]. destruct Ho. split; [done|lia].
Qed.

Lemma match_loop_correct :
  loop (match_body compare mask name) (match_fuel mask name) (MS 0 0 None 0) =
  Ok (glob (tk mask) name).
Proof.
  destruct (loop_total (match_body compare mask name) inv mu (λ b, b = answer)) with
    (fuel := match_fuel mask name) (s := MS 0 0 None 0)
    as (r & -> & ->); [| |unfold mu, match_fuel; simpl; lia|done].
  - intros s Hs. by apply match_body_spec.
  - split_and!; simpl; [lia|lia|by exists []|]. by rewrite !drop_0.
Qed.
End Matcher.

(** *** The backward scan, on characters *)
Lemma back_qmarks_spec mask a i :
  (0 < a)%nat → mask !! (a - 1)%nat = Some STAR → (a + i ≤ length mask)%nat →
  ∃ k e, back_qmarks mask (a - 1 + i) = Ok k ∧ mask !! k = Some e ∧
    (Forall (λ c, c = QMARK) (take i (drop a mask)) ∧ e = STAR ∨
     ¬ Forall (λ c, c = QMARK) (take i (drop a mask)) ∧ e ∈ drop a mask).
Proof.
  intros Ha Hst. induction i as [|i IH]; intros Hi.
  - exists (a - 1)%nat, STAR. rewrite Nat.add_0_r. split_and!; [|done|].
    + destruct (a - 1)%nat eqn:E; simpl; [done|]. by rewrite (rd_lookup _ _ _ Hst).
    + left. split; [constructor|done].
  - destruct (lookup_lt_is_Some_2 mask (a + i)%nat ltac:(lia)) as [c Hc].
    rewrite Nat.add_succ_r. cbn [back_qmarks].
    replace (S (a - 1 + i)) with (a + i)%nat by lia. rewrite (rd_lookup _ _ _ Hc). cbn [rbind].
    pose proof Hc as Hc'. rewrite <-lookup_drop in Hc'. rewrite (take_S_r _ _ _ Hc').
    setoid_rewrite Forall_app. setoid_rewrite Forall_singleton.
    destruct (Z.eqb_spec c QMARK) as [->|Hq].
    + destruct IH as (k & e & -> & He & Hor); [lia|]. exists k, e.
      split_and!; [done|done|]. naive_solver.
    + exists (a + i)%nat, c. split_and!; [done|done|]. right. split; [naive_solver|].
      by eapply list_elem_of_lookup_2.
Qed.

Lemma back_qmarks_end mask a :
  (0 < a ≤ length mask)%nat → mask !! (a - 1)%nat = Some STAR → STAR ∉ drop a mask →
  ∃ k e, back_qmarks mask (length mask - 1) = Ok k ∧ mask !! k = Some e ∧
    (e = STAR ↔ Forall (λ c, c = QMARK) (drop a mask)).
Proof.
  intros Ha Hst Hno.
  destruct (back_qmarks_spec mask a (length mask - a)) as (k & e & Hk & He & Hor);
    [lia|done|lia|].
  replace (a - 1 + (length mask - a))%nat with (length mask - 1)%nat in Hk by lia.
  rewrite take_ge in Hor by (rewrite length_drop; lia).
  exists k, e. split_and!; [done|done|]. naive_solver.
Qed.

(** *** [match_simple] *)
Lemma simple_tok_match c d :
  c ≠ STAR →
  negb (lc c =? lc d) && negb ((c =? UNDERSCORE) && (d =? SPACE_CH)) && negb (c =? QMARK) =
  negb (tok_match (simple_tok c) d).
Proof.
  intros Hc. unfold simple_tok. destruct (Z.eqb_spec c STAR); [done|].
  destruct (c =? QMARK); simpl; [by rewrite andb_false_r|]. unfold ch_eq.
  by rewrite negb_orb, andb_true_r.
Qed.

Lemma match_simple_glob mask name :
  cstr mask → cstr name → match_simple mask name = Ok (glob (simple_toks mask) name).
Proof.
  intros Hm Hn. unfold match_simple.
  apply (match_loop_correct mask name Hm Hn simple_compare simple_toks (λ _, 1%nat)); [done..| | |].
  - intros [|c p] Hp Hst; [done|]. exists (simple_tok c). simpl in *.
    split_and!; [|done|lia|lia]. unfold simple_tok.
    destruct (Z.eqb_spec c STAR); [done|]. by destruct (c =? QMARK).
  - intros s c p t d Hc Hst Hd [= <-]. pose proof Hc as Hlt%drop_cons_lt.
    unfold simple_compare. rewrite rd_drop, Hc by lia. rewrite (rd_lookup _ _ _ Hd). cbn [rbind].
    change (deref (c :: p)) with c. rewrite simple_tok_match, Nat.add_1_r by done.
    destruct (decide (simple_tok c = TBad)) as [E|_].
    { unfold simple_tok in E. by repeat case_match. }
    destruct (tok_match (simple_tok c) d); simpl; [done|]. by destruct (ms_ma s).
  - intros a seg Ha Hst Hsl _ <- _.
    assert (a ≤ length mask)%nat by (apply lookup_lt_Some in Hst; lia).
    destruct (back_qmarks_end mask a) as (k & e & Hk & He & Hiff); [lia|done| |].
    + intros Hin. apply (list_elem_of_fmap_2 simple_tok) in Hin.
      unfold starless in Hsl. rewrite Forall_forall in Hsl. by eapply Hsl.
    + exists k, e. split_and!; [done|done|]. rewrite Hiff. unfold simple_toks.
      rewrite Forall_map. apply Forall_iff. intros c. unfold simple_tok. split.
      * intros ->. done.
      * case_match; [done|]. case_match; [|done]. intros _. by apply Z.eqb_eq.
Qed.

(** C24.  [match_simple] is exact: for every mask and every name it
    terminates within the given number of rounds, reads neither string past
    its NUL, and answers whether the name matches the wildcard mask. *)
Theorem match_simple_correct mask name :
  cstr mask → cstr name → match_simple mask name = Ok (glob (simple_toks mask) name).
Proof. apply match_simple_glob. Qed.

(** *** [match_esc] *)

(** Induction on a mask in the steps of the escape syntax. *)
Lemma esc_ind (P : list Z → Prop) :
  P [] → P [BSLASH] →
  (∀ x r, P r → P (BSLASH :: x :: r)) →
  (∀ c r, c ≠ BSLASH → P r → P (c :: r)) →
  ∀ p, P p.
Proof.
  intros Hnil Hone Hesc Hcons p. remember (length p) as n eqn:En.
  revert p En. induction (lt_wf n) as [n _ IH]. intros p ->.
  destruct p as [|c r]; [done|]. destruct (decide (c = BSLASH)) as [->|Hc].
  - destruct r as [|x r]; [done|]. apply Hesc. eapply IH; [|done]. simpl. lia.
  - apply Hcons; [done|]. eapply IH; [|done]. simpl. lia.
Qed.

Lemma esc_toks_esc x r : esc_toks (BSLASH :: x :: r) = TLit x :: esc_toks r.
Proof. done. Qed.
Lemma esc_toks_plain c r : c ≠ BSLASH → esc_toks (c :: r) = simple_tok c :: esc_toks r.
Proof. intros Hc. simpl. by destruct (Z.eqb_spec c BSLASH). Qed.

Lemma esc_star_in p :
  STAR ∈ p → TStar ∈ esc_toks p ∨ TLit STAR ∈ esc_toks p.
Proof.
  pattern p. apply esc_ind; clear p.
  - by intros ?%not_elem_of_nil.
  - by intros [?|?%not_elem_of_nil]%elem_of_cons.
  - intros x r IH. rewrite esc_toks_esc, !elem_of_cons.
    intros [?|[->|Hin]]; [done|auto|]. destruct (IH Hin); auto.
  - intros c r Hc IH. rewrite esc_toks_plain, !elem_of_cons by done.
    intros [<-|Hin]; [by auto|]. destruct (IH Hin); auto.
Qed.

Lemma esc_all_any p :
  Forall (λ t, t = TAny) (esc_toks p) ↔ Forall (λ c, c = QMARK) p.
Proof.
  pattern p. apply esc_ind; clear p.
  - split; constructor.
  - split; by inversion 1.
  - intros x r IH. rewrite esc_toks_esc, !Forall_cons. split; [by intros [? _]|by intros [? _]].
  - intros c r Hc IH. rewrite esc_toks_plain, !Forall_cons, IH by done.
    unfold simple_tok. split; intros [H ?]; (split; [|done]); [|by subst c].
    case_match; [done|]. case_match; [|done]. by apply Z.eqb_eq.
Qed.

Definition esc_width (p : list Z) : nat :=
  if deref p =? BSLASH then 2%nat else 1%nat.

(** [match_esc] is exact for every mask without an escaped star: a
    backslash makes the next character literal, a backslash at the end of the
    mask never matches. *)
Theorem match_esc_correct mask name :
  cstr mask → cstr name → TLit STAR ∉ esc_toks mask →
  match_esc mask name = Ok (glob (esc_toks mask) name).
Proof.
  intros Hm Hn Hesc. unfold match_esc.
  apply (match_loop_correct mask name Hm Hn esc_compare esc_toks esc_width); [done..| | |].
  - intros [|c p] Hp Hst; [done|]. unfold esc_width. simpl in *.
    destruct (Z.eqb_spec c BSLASH) as [->|Hc].
    + destruct p as [|x r]; [exists TBad|exists (TLit x)]; split_and!; simpl; (done || lia).
    + exists (simple_tok c). split_and!; simpl; [|done|lia|lia].
      unfold simple_tok. destruct (Z.eqb_spec c STAR); [done|]. by destruct (c =? QMARK).
  - intros s c p t d Hc Hst Hd Ht. pose proof Hc as Hlt%drop_cons_lt.
    unfold esc_compare, esc_width in *. rewrite rd_drop, Hc by lia. cbn [rbind deref hd] in *.
    assert (∀ m x, esc_literal name s m x = Ok (if tok_match (TLit x) d
       then Next (MS (S m) (S (ms_n s)) (ms_ma s) (ms_na s))
       else match ms_ma s with
            | None => Done false
            | Some a => Next (MS a (S (ms_na s)) (Some a) (S (ms_na s))) end)) as Hlit.
    { intros m x. unfold esc_literal. rewrite (rd_lookup _ _ _ Hd). cbn [rbind tok_match].
      unfold ch_eq. rewrite <-negb_orb. destruct (_ || _); simpl; [done|]. by destruct (ms_ma s). }
    destruct (Z.eqb_spec c BSLASH) as [->|Hcb].
    + cbn [negb Z.eqb]. change (BSLASH =? QMARK) with false. cbn [negb].
      pose proof (drop_cons_S _ _ _ _ Hc) as Hp. rewrite rd_drop by lia. rewrite Hp.
      destruct p as [|x r]; simpl in Ht; injection Ht as <-; [done|].
      assert (cchar x) as Hx.
      { apply (cstr_drop _ (S (ms_m s))) in Hm. rewrite Hp in Hm.
        by apply cstr_cons_inv in Hm as [? _]. }
      unfold cchar in Hx. simpl. destruct (Z.eqb_spec x 0); [lia|].
      rewrite Hlit. by replace (ms_m s + 2)%nat with (S (S (ms_m s))) by lia.
    + rewrite esc_toks_plain in Ht by done. injection Ht as <-. rewrite Nat.add_1_r, Hlit.
      unfold simple_tok. destruct (Z.eqb_spec c STAR); [done|].
      destruct (Z.eqb_spec c QMARK); simpl; done.
  - intros a seg Ha Hst Hsl _ Hseg [pre Hpre].
    assert (a ≤ length mask)%nat by (apply lookup_lt_Some in Hst; lia).
    destruct (back_qmarks_end mask a) as (k & e & Hk & He & Hiff); [lia|done| |].
    + intros [Hin|Hin]%esc_star_in; rewrite Hseg in Hin.
      * unfold starless in Hsl. rewrite Forall_forall in Hsl. by eapply Hsl.
      * apply Hesc. rewrite Hpre. apply elem_of_app. by right.
    + exists k, e. split_and!; [done|done|]. rewrite Hiff, <-Hseg. symmetry. apply esc_all_any.
Qed.

(** With an escaped star at the end, the backward scan takes the literal star
    for a wildcard: the mask requires the name to end in a star, and the name
    does not. *)
Theorem match_esc_escaped_star :
  match_esc (bs "*\*") (bs "*x") = Ok true ∧ glob (esc_toks (bs "*\*")) (bs "*x") = false.
Proof. split; vm_compute; reflexivity. Qed.

(** *** [collapse] *)

(** Masks that accept the same names. *)
Definition tequiv (ts us : list tok) : Prop := ∀ s, glob ts s = glob us s.

#[global] Instance tequiv_equivalence : Equivalence tequiv.
Proof.
  split; [by intros ? ?|by intros ? ? H s|]. intros x y z H1 H2 s. by rewrite H1, H2.
Qed.

#[global] Instance cons_tequiv_proper t : Proper (tequiv ==> tequiv) (cons t).
Proof.
  intros ts us H s. destruct (decide (t = TStar)) as [->|Ht].
  - apply eq_bool_prop_intro. rewrite !Is_true_true, !glob_star.
    split; intros (j & ? & ?); exists j; [rewrite <-H|rewrite H]; done.
  - rewrite !glob_cons by done. destruct s; [done|]. by rewrite H.
Qed.

Lemma tequiv_star_star ts : tequiv (TStar :: TStar :: ts) (TStar :: ts).
Proof.
  intros s. apply eq_bool_prop_intro. rewrite !Is_true_true.
  change (TStar :: TStar :: ts) with (replicate 2 TStar ++ ts).
  by rewrite glob_stars, glob_star by lia.
Qed.

Lemma tequiv_star_any ts : tequiv (TStar :: TAny :: ts) (TAny :: TStar :: ts).
Proof.
  intros s. apply eq_bool_prop_intro. rewrite !Is_true_true, glob_star, (glob_cons TAny) by done.
  destruct s as [|d s].
  - split; [|done]. intros (j & _ & H). by rewrite drop_nil in H.
  - cbn [tok_match andb]. rewrite glob_star. split.
    + intros (j & Hj & H). rewrite glob_cons in H by done.
      destruct (drop j (d :: s)) as [|d' s'] eqn:E; [done|].
      exists j. pose proof E as Hlt%drop_cons_lt. apply drop_cons_S in E. simpl in *.
      rewrite E. split; [lia|done].
    + intros (j & Hj & H). exists j. simpl. split; [lia|].
      destruct (drop j (d :: s)) as [|d' s'] eqn:E.
      * apply drop_nil_inv in E. simpl in E. lia.
      * apply drop_cons_S in E. simpl in E. by rewrite E in H.
Qed.

Lemma keep_qmarks_equiv t :
  tequiv (TStar :: esc_toks (keep_qmarks t)) (TStar :: esc_toks t).
Proof.
  induction t as [|c t IH]; [done|]. cbn [keep_qmarks].
  destruct (Z.eqb_spec c QMARK) as [->|Hq].
  - rewrite !esc_toks_plain by done. change (simple_tok QMARK) with TAny.
    rewrite !tequiv_star_any. by apply cons_tequiv_proper.
  - destruct (Z.eqb_spec c STAR) as [->|Hs]; [|done].
    rewrite esc_toks_plain by done. change (simple_tok STAR) with TStar.
    by rewrite IH, tequiv_star_star.
Qed.

Lemma esc_toks_stars k r : esc_toks (replicate k STAR ++ r) = replicate k TStar ++ esc_toks r.
Proof. induction k as [|k IH]; [done|]. simpl. by rewrite IH. Qed.

Lemma after_star_equiv t :
  tequiv (TStar :: esc_toks (after_star t)) (TStar :: esc_toks t).
Proof.
  destruct t as [|c t]; [done|]. unfold after_star. destruct (Z.eqb_spec c STAR) as [->|Hc].
  - destruct (star_run_spec (STAR :: t)) as (r & E & Er & _). rewrite <-Er, E, esc_toks_stars.
    clear. induction (star_run (STAR :: t)) as [|k IH]; [done|]. simpl replicate. simpl app.
    by rewrite tequiv_star_star.
  - destruct (Z.eqb_spec c QMARK) as [->|Hq]; [|done].
    rewrite !esc_toks_plain by done. change (simple_tok QMARK) with TAny.
    by rewrite !tequiv_star_any, keep_qmarks_equiv.
Qed.

Lemma keep_qmarks_length t : (length (keep_qmarks t) ≤ length t)%nat.
Proof. induction t as [|c t IH]; simpl; [lia|]. repeat case_match; simpl; lia. Qed.

Lemma after_star_length t : (length (after_star t) ≤ length t)%nat.
Proof.
  destruct t as [|c t]; [done|]. unfold after_star.
  repeat case_match; rewrite ?length_drop; simpl; try lia.
  pose proof (keep_qmarks_length t). lia.
Qed.

Lemma collapse_from_spec f p :
  (length p ≤ f)%nat →
  tequiv (esc_toks (collapse_from f p)) (esc_toks p) ∧
  (length (collapse_from f p) ≤ length p)%nat.
Proof.
  revert p. induction f as [|f IH]; intros [|c t] Hl;
    [by split|simpl in Hl; lia|by split|].
  simpl in Hl. cbn [collapse_from]. destruct (Z.eqb_spec c BSLASH) as [->|Hb].
  - destruct t as [|x t]; [done|]. simpl in Hl. destruct (IH t) as [He Hle]; [lia|].
    rewrite !esc_toks_esc. simpl. split; [by rewrite He|lia].
  - pose proof (after_star_length t).
    destruct (IH t) as [He Hle]; [lia|]. destruct (IH (after_star t)) as [He' Hle']; [lia|].
    destruct (Z.eqb_spec c STAR) as [->|Hs]; simpl length.
    + rewrite !esc_toks_plain by done. change (simple_tok STAR) with TStar.
      rewrite He', after_star_equiv. split; [done|lia].
    + rewrite !esc_toks_plain, He by done. split; [done|lia].
Qed.

(** Reducing a mask with [collapse] does not change which names it
    matches, and never makes it longer, so the in-place rewrite stays inside
    the buffer. *)
Theorem collapse_preserves pattern name :
  glob (esc_toks (collapse pattern)) name = glob (esc_toks pattern) name ∧
  (length (collapse pattern) ≤ length pattern)%nat.
Proof.
  destruct (collapse_from_spec (length pattern) pattern) as [He Hl]; [lia|].
  split; [apply He|done].
Qed.

(** The rewrite is not always minimal: a run of stars is reduced before the
    question marks behind it are looked at. *)
Theorem collapse_not_minimal :
  collapse (bs "**?*") = bs "*?*" ∧ collapse (bs "*?*") = bs "*?".
Proof. split; reflexivity. Qed.

Lemma match_simple_witness :
  match_simple (bs "*.Example.?rg") (bs "irc.example.org") = Ok true.
Proof. apply match_simple_correct; apply (bool_decide_unpack _); reflexivity. Defined.

Lemma match_esc_witness :
  match_esc (bs "a\?*b") (bs "A?xyzB") = Ok true.
Proof. apply match_esc_correct; apply (bool_decide_unpack _); reflexivity. Defined.

(** ** The [Match] object

    A spamfilter or ban entry carries its matching method.  The regular
    expression library (PCRE2) is not part of the sources: the compiled
    expressions and the two calls the code makes are variables. *)
Section MatchObject.
Context (regex : Type).
(** [pcre2_compile(str, ...)]: the expression, or an error code and offset. *)
Context (pcre2_compile : list Z → bool → regex + (Z * Z)).
(** [pcre2_match(expr, str, ...)]: the return code. *)
Context (pcre2_match : regex → list Z → Z).
Context (PCRE2_ERROR_NOMATCH PCRE2_ERROR_PARTIAL : Z).

Definition MATCH_SIMPLE : Z := 1.
Definition MATCH_PCRE_REGEX : Z := 2.
Definition MATCH_NONE : Z := 3.

Record Match := MkMatch { m_str : list Z; m_type : Z; m_expr : option regex }.

(** The error, when there is one, is the code and offset the text is made
    from; an unknown type gives NULL without an error text. *)
Definition unreal_create_match (type : Z) (str : list Z) (utf8 : bool)
  : option Match * option (Z * Z) :=
  if type =? MATCH_SIMPLE then (Some (MkMatch str type None), None)
  else if type =? MATCH_PCRE_REGEX then
    match pcre2_compile str utf8 with
    | inl e => (Some (MkMatch str type (Some e)), None)
    | inr err => (None, Some err)
    end
  else if type =? MATCH_NONE then (Some (MkMatch str type None), None)
  else (None, None).

(** The answer and what [*error] is set to (the PCRE2 code behind the
    text); [want_error] says whether [error] is not NULL. *)
Definition unreal_match (m : Match) (str : list Z) (want_error : bool)
  : res (bool * option Z) :=
  if m_type m =? MATCH_SIMPLE then
    let! b := match_simple (m_str m) str in Ok (b, None)
  else if m_type m =? MATCH_PCRE_REGEX then
    match m_expr m with
    | None => UB
    | Some e =>
        let ret := pcre2_match e str in
        if 0 <? ret then Ok (true, None)
        else if want_error && (ret <? 0) && negb (ret =? PCRE2_ERROR_NOMATCH)
                && negb (ret =? PCRE2_ERROR_PARTIAL)
        then Ok (false, Some ret)
        else Ok (false, None)
    end
  else if m_type m =? MATCH_NONE then Ok (true, None)
  else Ok (false, None).

Definition unreal_match_method_strtoval (str : list Z) : Z :=
  if bool_decide (str = bs "regex") || bool_decide (str = bs "pcre") then MATCH_PCRE_REGEX
  else if bool_decide (str = bs "simple") || bool_decide (str = bs "glob") then MATCH_SIMPLE
  else if bool_decide (str = bs "none") then MATCH_NONE
  else 0.

Definition unreal_match_method_valtostr (val : Z) : list Z :=
  if val =? MATCH_PCRE_REGEX then bs "regex"
  else if val =? MATCH_SIMPLE then bs "simple"
  else if val =? MATCH_NONE then bs "none"
  else bs "unknown".

Lemma match_method_roundtrip v :
  unreal_match_method_strtoval (unreal_match_method_valtostr v) =
  if (1 <=? v) && (v <=? 3) then v else 0.
Proof.
  unfold unreal_match_method_valtostr.
  destruct (Z.eqb_spec v MATCH_PCRE_REGEX) as [->|]; [done|].
  destruct (Z.eqb_spec v MATCH_SIMPLE) as [->|]; [done|].
  destruct (Z.eqb_spec v MATCH_NONE) as [->|]; [done|].
  unfold MATCH_PCRE_REGEX, MATCH_SIMPLE, MATCH_NONE in *.
  replace ((1 <=? v) && (v <=? 3)) with false; [reflexivity|].
  symmetry. apply andb_false_iff. rewrite !Z.leb_gt. lia.
Qed.

(** An entry made by [unreal_create_match] can always be matched: no
    missing expression is used, a simple mask means its wildcard language,
    [none] matches everything, a regular expression matches exactly when
    PCRE2 reports a positive count, and an error is only ever reported
    together with the answer "no match". *)
Theorem unreal_create_then_match type str utf8 m want s :
  (unreal_create_match type str utf8).1 = Some m → cstr str → cstr s →
  ∃ b err, unreal_match m s want = Ok (b, err) ∧
    (type = MATCH_SIMPLE → b = glob (simple_toks str) s) ∧
    (type = MATCH_NONE → b = true) ∧
    (type = MATCH_PCRE_REGEX →
       ∃ e, pcre2_compile str utf8 = inl e ∧ b = (0 <? pcre2_match e s)) ∧
    (err ≠ None → b = false ∧ want = true ∧ type = MATCH_PCRE_REGEX).
Proof.
  unfold unreal_create_match, unreal_match. intros Hm Hstr Hs.
  destruct (Z.eqb_spec type MATCH_SIMPLE) as [->|Hn1].
  { simplify_eq/=. rewrite match_simple_glob by done. cbn [rbind].
    eexists _, _. split; [done|]. split_and!; done. }
  destruct (Z.eqb_spec type MATCH_PCRE_REGEX) as [->|Hn2].
  { destruct (pcre2_compile str utf8) as [e|err] eqn:Ee; simplify_eq/=.
    destruct (Z.ltb_spec 0 (pcre2_match e s)) as [Hp|Hp];
      [|destruct (want && _ && _ && _) eqn:Ew]; eexists _, _; (split; [done|]);
      split_and!; try done; intros _.
    - exists e. split; [done|]. symmetry. by apply Z.ltb_lt.
    - exists e. split; [done|]. symmetry. by apply Z.ltb_ge.
    - by destruct want.
    - exists e. split; [done|]. symmetry. by apply Z.ltb_ge. }
  destruct (Z.eqb_spec type MATCH_NONE) as [->|Hn3]; simplify_eq/=.
  eexists _, _. split; [done|]. split_and!; done.
Qed.
End MatchObject.

(** ** [mask_ipv6_rawip]

    [dst] is [None] when the destination is the source itself. *)
Definition mask_ipv6_rawip (src : list Z) (prefix : Z) (dst : option (list Z)) : res (list Z) :=
  let! _ := require (length src =? 16)%nat in
  let! _ := require (match dst with None => true | Some d => length d =? 16 end)%nat in
  let prefix := if prefix <? 0 then 0 else if 128 <? prefix then 128 else prefix in
  let full_bytes := prefix / 8 in
  let leftover_bits := prefix mod 8 in
  let dst := src in (* memcpy(dst, src, 16) unless they are the same *)
  let '(dst, full_bytes) :=
    if (0 <? leftover_bits) && (full_bytes <? 16) then
      let mask := u8 (Z.shiftl 0xFF (8 - leftover_bits)) in
      let i := Z.to_nat full_bytes in
      (<[i := Z.land (src !!! i) mask]> dst, full_bytes + 1)
    else (dst, full_bytes) in
  Ok (if full_bytes <? 16
      then take (Z.to_nat full_bytes) dst ++ replicate (Z.to_nat (16 - full_bytes)) 0
      else dst).

(** Bit [i] of an address, counted from the most significant one. *)
Definition addr_bit (a : list Z) (i : nat) : bool :=
  Z.testbit (a !!! (i / 8)%nat) (7 - Z.of_nat (i mod 8)).

Lemma prefix_mask_bit l k :
  0 < l < 8 → 0 ≤ k < 8 → Z.testbit (u8 (Z.shiftl 0xFF (8 - l))) k = (8 - l <=? k).
Proof.
  intros Hl Hk.
  assert (Forall (λ l, Forall (λ k,
    Bool.eqb (Z.testbit (u8 (Z.shiftl 0xFF (8 - l))) k) (8 - l <=? k) = true)
      (seqZ 0 8)) (seqZ 1 7)) as H by (apply (bool_decide_unpack _); vm_compute; done).
  rewrite Forall_forall in H. specialize (H l ltac:(apply elem_of_seqZ; lia)).
  rewrite Forall_forall in H. specialize (H k ltac:(apply elem_of_seqZ; lia)).
  by apply eqb_prop.
Qed.

(** [mask_ipv6_rawip] keeps the first [prefix] bits of an address and
    clears the others, for every prefix length (out-of-range ones are
    clamped), and stays inside the 16 bytes. *)
Theorem mask_ipv6_rawip_correct src prefix dst i :
  length src = 16%nat → Forall byte src →
  match dst with None => True | Some d => length d = 16%nat end → (i < 128)%nat →
  ∃ a, mask_ipv6_rawip src prefix dst = Ok a ∧ length a = 16%nat ∧
       addr_bit a i = (Z.of_nat i <? prefix) && addr_bit src i.
Proof.
  intros Hl Hb Hd Hi. unfold mask_ipv6_rawip. rewrite Hl. cbn [rbind require Nat.eqb].
  replace (match dst with None => true | Some d => (length d =? 16)%nat end) with true
    by (destruct dst; [symmetry; by apply Nat.eqb_eq|done]). cbn [rbind require].
  set (p := if prefix <? 0 then 0 else if 128 <? prefix then 128 else prefix).
  assert (0 ≤ p ≤ 128) as Hp by (unfold p; bool_cases).
  assert ((Z.of_nat i <? prefix) = (Z.of_nat i <? p)) as -> by (unfold p; bool_cases).
  clearbody p. clear prefix. set (q := p / 8). set (l := p mod 8).
  assert (p = 8 * q + l ∧ 0 ≤ l < 8) as [Hpq Hlr] by (unfold q, l; dlia).
  clearbody q l. pose proof (Nat.div_mod_eq i 8) as Hdm.
  pose proof (Nat.mod_upper_bound i 8 ltac:(lia)) as Hmb. unfold addr_bit.
  set (j := (i / 8)%nat) in *. set (r := (i mod 8)%nat) in *. clearbody j r.
  destruct (Z.ltb_spec 0 l) as [Hl0|Hl0]; simpl andb; cycle 1.
  - cbv iota beta zeta. destruct (Z.ltb_spec q 16) as [Hq|Hq].
    + eexists. split; [done|]. rewrite length_app, length_take, length_replicate, Hl.
      split; [lia|]. destruct (Z.ltb_spec (Z.of_nat i) p).
      * rewrite lookup_total_app_l by (rewrite length_take; lia).
        by rewrite lookup_total_take_lt by lia.
      * rewrite lookup_total_app_r by (rewrite length_take; lia).
        rewrite lookup_total_replicate_2 by (rewrite length_take; lia).
        by rewrite Z.testbit_0_l.
    + eexists. split; [done|]. split; [done|].
      by rewrite (proj2 (Z.ltb_lt (Z.of_nat i) p)) by lia.
  - assert (q < 16) as Hq by lia. rewrite (proj2 (Z.ltb_lt q 16) Hq).
    set (m := u8 (Z.shiftl 255 (8 - l))).
    assert (∀ d : list Z, d = <[Z.to_nat q := Z.land (src !!! Z.to_nat q) m]> src →
      Z.testbit (d !!! j) (7 - Z.of_nat r) =
      Z.testbit (src !!! j) (7 - Z.of_nat r) && ((Z.of_nat j <? q) || (q <? Z.of_nat j) ||
        (Z.of_nat r <? l))) as Hd'.
    { intros d ->. destruct (decide (j = Z.to_nat q)) as [->|Hj].
      - rewrite list_lookup_total_insert_eq by lia. rewrite Z.land_spec. f_equal.
        unfold m. rewrite prefix_mask_bit by lia. bool_cases.
      - rewrite list_lookup_total_insert_ne by done.
        destruct (Z.ltb_spec (Z.of_nat j) q); [by rewrite andb_true_r|].
        destruct (Z.ltb_spec q (Z.of_nat j)); [by rewrite andb_true_r|lia]. }
    set (d := <[Z.to_nat q := _]> src) in *. specialize (Hd' d eq_refl).
    assert (length d = 16%nat) as Hld by (unfold d; by rewrite length_insert).
    clearbody d. cbv iota beta zeta.
    destruct (Z.ltb_spec (q + 1) 16) as [Hq1|Hq1]; eexists; (split; [done|]).
    + rewrite length_app, length_take, length_replicate, Hld. split; [lia|].
      destruct (decide (j < Z.to_nat (q + 1))%nat) as [Hj|Hj].
      * rewrite lookup_total_app_l by (rewrite length_take; lia).
        rewrite lookup_total_take_lt, Hd' by lia. rewrite andb_comm. f_equal. bool_cases.
      * rewrite lookup_total_app_r by (rewrite length_take; lia).
        rewrite lookup_total_replicate_2 by (rewrite length_take; lia).
        rewrite Z.testbit_0_l. by rewrite (proj2 (Z.ltb_ge (Z.of_nat i) p)) by lia.
    + split; [done|]. rewrite Hd', andb_comm. f_equal. bool_cases.
Qed.

Lemma mask_ipv6_witness :
  ∃ a, mask_ipv6_rawip (replicate 16 255) 61 None = Ok a ∧ length a = 16%nat ∧
       addr_bit a 62 = (Z.of_nat 62 <? 61) && addr_bit (replicate 16 255) 62.
Proof.
  apply mask_ipv6_rawip_correct; [done|by repeat constructor|done|lia].
Defined.

Lemma unreal_create_then_match_witness :
  ∃ b err, unreal_match unit (λ _ _, -47) (-1) (-2) (MkMatch unit (bs "a+") 2 (Some tt)) (bs "b") true
           = Ok (b, err) ∧ (err ≠ None → b = false).
Proof.
  destruct (unreal_create_then_match unit (λ _ _, inl tt) (λ _ _, -47) (-1) (-2)
    2 (bs "a+") false (MkMatch unit (bs "a+") 2 (Some tt)) true (bs "b"))
    as (b & err & H & _ & _ & _ & He);
    [done|apply (bool_decide_unpack _); reflexivity..|].
  exists b, err. split; [exact H|]. intros Hn. exact (proj1 (He Hn)).
Defined.
