(* ===== verification/Dbuf.v ===== *)
(** * Dynamic byte queues (src/dbuf.c)

    A [dbuf] is a list of blocks of at most [DBUF_BLOCK_SIZE] bytes with a
    total length.  The abstract queue it implements is the byte string of its
    blocks in order; the interface [ByteQueue] states what the users of a
    [dbuf] rely on, and the operations of the file discharge it. *)

From stdpp Require Import base tactics list numbers strings.
From Stdlib Require Import ZArith Lia.
From S2P Require Import Prelude.

Local Open Scope Z_scope.

Definition DBUF_BLOCK_SIZE : nat := Z.to_nat (4072 + 4096).
Definition READBUFSIZE : nat := Z.to_nat 16384.

(** A block is the [size] bytes of its [data] that are in use. *)
Record dbuf := MkDbuf { dlength : Z; dbuf_list : list (list Z) }.

Definition dbuf_queue_init : dbuf := MkDbuf 0 [].

(** A new block at the tail of the list. *)
Definition dbuf_alloc (d : dbuf) : dbuf := MkDbuf (dlength d) (dbuf_list d ++ [[]]).

(** Unlink the block at the head of the list. *)
Definition dbuf_free (d : dbuf) : dbuf := MkDbuf (dlength d) (tail (dbuf_list d)).

(** One round of the copy loop of [dbuf_put]; the loop ends when nothing is
    left to copy.  Without a block, [dbuf_list.prev] is the list head itself. *)
Definition dbuf_put_body (s : dbuf * list Z) : res (step (dbuf * list Z) dbuf) :=
  let '(d, buf) := s in
  if (0 <? length buf)%nat then
    match list.last (dbuf_list d) with
    | None => UB
    | Some block =>
        let amount := (DBUF_BLOCK_SIZE - length block)%nat in
        let '(d, block, amount) :=
          if (amount =? 0)%nat then (dbuf_alloc d, [], DBUF_BLOCK_SIZE)
          else (d, block, amount) in
        let amount := if (length buf <? amount)%nat then length buf else amount in
        let block' := block ++ take amount buf in
        let blocks := removelast (dbuf_list d) ++ [block'] in
        Ok (Next (MkDbuf (u32 (dlength d + Z.of_nat amount)) blocks, drop amount buf))
    end
  else Ok (Done d).

Definition dbuf_put (d : dbuf) (buf : list Z) : res dbuf :=
  let! _ := require (0 <? length buf)%nat in
  let d := match dbuf_list d with [] => dbuf_alloc d | _ => d end in
  loop dbuf_put_body (S (length buf)) (d, buf).

(** The loop of [dbuf_delete] removes whole blocks, the rest is cut from the
    first block that remains. *)
Definition dbuf_delete_body (s : dbuf * nat) : res (step (dbuf * nat) dbuf) :=
  let '(d, len) := s in
  if (len =? 0)%nat then Ok (Done d)
  else match dbuf_list d with
       | [] => UB
       | block :: rest =>
           if (len <? length block)%nat then
             Ok (Done (MkDbuf (u32 (dlength d - Z.of_nat len)) (drop len block :: rest)))
           else
             let d := MkDbuf (u32 (dlength d - Z.of_nat (length block))) (dbuf_list d) in
             Ok (Next (dbuf_free d, (len - length block)%nat))
       end.

Definition dbuf_delete (d : dbuf) (len : nat) : res dbuf :=
  let! _ := require (Z.of_nat len <=? dlength d) in
  if (len =? 0)%nat then Ok d
  else loop dbuf_delete_body (S (length (dbuf_list d))) (d, len).

Definition DBufClear (d : dbuf) : res dbuf := dbuf_delete d (Z.to_nat (dlength d)).

(** *** [dbuf_getmsg] *)

(** The locals of the scan; [g_buf] is what was written at [p]. *)
Record gstate := GS { line_bytes : nat; empty_bytes : nat; phase : nat; g_buf : list Z }.

(** One character: [inr] is the return in the middle of the scan. *)
Definition getmsg_char (s : gstate) (c : Z) : gstate + gstate :=
  if (c =? CR) || (c =? LF) || ((c =? SPACE_CH) && negb (phase s =? 1)%nat) then
    inl (GS (line_bytes s) (S (empty_bytes s))
            (if (phase s =? 1)%nat then 2%nat else phase s) (g_buf s))
  else if (phase s =? 2)%nat then inr s
  else inl (GS (S (line_bytes s)) (empty_bytes s) 1
               (if (line_bytes s <? READBUFSIZE - 2)%nat then g_buf s ++ [c] else g_buf s)).

(** The two nested loops: the characters of a block, and the blocks. *)
Fixpoint getmsg_block (s : gstate) (data : list Z) : gstate + gstate :=
  match data with
  | [] => inl s
  | c :: r => match getmsg_char s c with inl s' => getmsg_block s' r | inr s' => inr s' end
  end.
Fixpoint getmsg_blocks (s : gstate) (bl : list (list Z)) : gstate + gstate :=
  match bl with
  | [] => inl s
  | b :: r => match getmsg_block s b with inl s' => getmsg_blocks s' r | inr s' => inr s' end
  end.

(** The queue afterwards, the number returned, and the string left in [buf]. *)
Definition dbuf_getmsg (d : dbuf) : res (dbuf * nat * list Z) :=
  match getmsg_blocks (GS 0 0 0 []) (dbuf_list d) with
  | inr s =>
      let! d := dbuf_delete d (line_bytes s + empty_bytes s) in
      Ok (d, Nat.min (line_bytes s) (READBUFSIZE - 2), g_buf s)
  | inl s =>
      let '(lb, out) := if (phase s =? 2)%nat then (line_bytes s, g_buf s) else (0%nat, []) in
      let! d := dbuf_delete d (lb + empty_bytes s) in
      Ok (d, Nat.min lb (READBUFSIZE - 2), out)
  end.

Definition dbuf_get (d : dbuf) : res (dbuf * nat * list Z) :=
  let bytes := sum_list (map length (dbuf_list d)) in
  let buf := concat (dbuf_list d) in
  let! d := dbuf_delete d bytes in
  Ok (d, bytes, buf).

(** ** The abstract queue *)

(** White space the line reader drops around a line, and the end of a line. *)
Definition is_blank (c : Z) : bool := (c =? CR) || (c =? LF) || (c =? SPACE_CH).
Definition is_eol (c : Z) : bool := (c =? CR) || (c =? LF).

(** Take the first complete line: leading blanks go in any case; a line is
    only taken with its end, the blanks behind it go with it, and at most
    [READBUFSIZE - 2] of its bytes are delivered. *)
Definition spec_getmsg (q : list Z) : list Z * nat * list Z :=
  let q1 := drop_while is_blank q in
  let line := take_while (λ c, negb (is_eol c)) q1 in
  let rest := drop_while (λ c, negb (is_eol c)) q1 in
  match rest with
  | [] => (q1, 0%nat, [])
  | _ => (drop_while is_blank rest, Nat.min (length line) (READBUFSIZE - 2),
          take (READBUFSIZE - 2) line)
  end.

Class ByteQueue (T : Type) := {
  bq_ok : T → Prop;
  bq_contents : T → list Z;
  bq_new : T;
  bq_put : T → list Z → res T;
  bq_delete : T → nat → res T;
  bq_getmsg : T → res (T * nat * list Z);
  bq_get : T → res (T * nat * list Z);
  bq_new_spec : bq_ok bq_new ∧ bq_contents bq_new = [];
  bq_put_spec : ∀ q b, bq_ok q → b ≠ [] →
    Z.of_nat (length (bq_contents q) + length b) < 2 ^ 32 →
    ∃ q', bq_put q b = Ok q' ∧ bq_ok q' ∧ bq_contents q' = bq_contents q ++ b;
  bq_delete_spec : ∀ q n, bq_ok q → (n ≤ length (bq_contents q))%nat →
    ∃ q', bq_delete q n = Ok q' ∧ bq_ok q' ∧ bq_contents q' = drop n (bq_contents q);
  bq_getmsg_spec : ∀ q, bq_ok q →
    ∃ q' n out, bq_getmsg q = Ok (q', n, out) ∧ bq_ok q' ∧
      (bq_contents q', n, out) = spec_getmsg (bq_contents q);
  bq_get_spec : ∀ q, bq_ok q →
    ∃ q', bq_get q = Ok (q', length (bq_contents q), bq_contents q) ∧ bq_ok q' ∧
      bq_contents q' = []
}.

(** ** The invariant *)

Lemma block_size_pos : (0 < DBUF_BLOCK_SIZE)%nat.
Proof. unfold DBUF_BLOCK_SIZE. lia. Qed.

#[global] Opaque DBUF_BLOCK_SIZE READBUFSIZE.

Definition contents (d : dbuf) : list Z := concat (dbuf_list d).

(** Between the first and the last block every block is full. *)
Definition packed (bl : list (list Z)) : Prop :=
  Forall (λ b, length b = DBUF_BLOCK_SIZE) (removelast (tail bl)).

Definition block_ok (b : list Z) : Prop := (0 < length b ≤ DBUF_BLOCK_SIZE)%nat.

Definition dbuf_ok (d : dbuf) : Prop :=
  Forall block_ok (dbuf_list d) ∧ packed (dbuf_list d) ∧
  dlength d = Z.of_nat (length (contents d)) ∧ dlength d < 2 ^ 32.

Lemma u32_small z : 0 ≤ z < 2 ^ 32 → u32 z = z.
Proof. intros. unfold u32. by apply Z.mod_small. Qed.

Lemma removelast_snoc {A} (l : list A) x : removelast (l ++ [x]) = l.
Proof. apply removelast_last. Qed.

Lemma packed_snoc bl b :
  packed (bl ++ [b]) ↔ Forall (λ b, length b = DBUF_BLOCK_SIZE) (tail bl).
Proof.
  unfold packed. destruct bl as [|b0 bl]; simpl; [by split|]. by rewrite removelast_snoc.
Qed.

Lemma packed_tail bl : packed bl → packed (tail bl).
Proof.
  destruct bl as [|b bl]; [done|]. unfold packed. simpl.
  destruct bl as [|b2 [|b3 bl]]; simpl; [done..|]. intros H. by inversion H.
Qed.

Lemma length_concat_sum (bl : list (list Z)) : sum_list (map length bl) = length (concat bl).
Proof. induction bl as [|b bl IH]; [done|]. simpl. rewrite length_app. lia. Qed.

(** ** [dbuf_put] *)

(** The state of the copy loop: the last block may be empty only while
    something is left to copy. *)
Definition put_inv (q : list Z) (s : dbuf * list Z) : Prop :=
  let '(d, buf) := s in
  ∃ bl b, dbuf_list d = bl ++ [b] ∧ Forall block_ok bl ∧
    Forall (λ b, length b = DBUF_BLOCK_SIZE) (tail bl) ∧
    (length b ≤ DBUF_BLOCK_SIZE)%nat ∧ (b ≠ [] ∨ buf ≠ []) ∧
    dlength d = Z.of_nat (length (contents d)) ∧
    contents d ++ buf = q ∧ Z.of_nat (length q) < 2 ^ 32.

Lemma concat_snoc (bl : list (list Z)) b : concat (bl ++ [b]) = concat bl ++ b.
Proof. rewrite concat_app. simpl. by rewrite app_nil_r. Qed.

Lemma put_inv_next q len bl b n buf :
  put_inv q (MkDbuf len (bl ++ [b]), buf) → (n ≤ length buf)%nat → (0 < n)%nat →
  (length b + n ≤ DBUF_BLOCK_SIZE)%nat →
  put_inv q (MkDbuf (u32 (len + Z.of_nat n)) (bl ++ [b ++ take n buf]), drop n buf).
Proof.
  intros (bl' & b' & E & Hbl & Ht & Hb & _ & Hlen & Hq & Hlq) Hn Hn0 Hfit.
  simpl in E. apply app_inj_tail in E as [<- <-]. unfold contents in *. simpl in *.
  rewrite !concat_snoc in *. rewrite length_app in Hlen.
  assert (length q = length (concat bl) + length b + length buf)%nat as Hll
    by (subst q; rewrite !length_app; lia).
  exists bl, (b ++ take n buf). simpl. unfold contents. simpl.
  rewrite concat_snoc, !length_app, length_take.
  split_and!; [done|done|done|lia| | | |done].
  - left. intros [_ E]%app_eq_nil. apply (f_equal length) in E.
    rewrite length_take in E. simpl in E. lia.
  - rewrite u32_small by lia. lia.
  - rewrite <-!app_assoc, take_drop. by rewrite app_assoc.
Qed.

Lemma dbuf_put_body_spec q s :
  put_inv q s →
  ∃ o, dbuf_put_body s = Ok o ∧
    match o with
    | Next s' => put_inv q s' ∧ (length s'.2 < length s.2)%nat
    | Done d => dbuf_ok d ∧ contents d = q
    end.
Proof.
  destruct s as [[len l] buf]. intros Hs.
  pose proof Hs as (bl & b & E & Hbl & Ht & Hb & Hne & Hlen & Hq & Hlq).
  unfold contents in *. simpl in *. subst l. rewrite concat_snoc in *.
  destruct (Nat.ltb_spec 0 (length buf)) as [Hlt|Hlt]; cycle 1.
  - destruct buf as [|c buf]; [|simpl in Hlt; lia]. destruct Hne as [Hne|?]; [|done].
    rewrite app_nil_r in Hq. eexists. split; [done|]. split.
    + split_and!; simpl; [|by apply packed_snoc| |subst q; lia].
      * apply Forall_app. split; [done|]. apply Forall_singleton. split; [|done].
        destruct b; [done|simpl; lia].
      * unfold contents. simpl. by rewrite concat_snoc, Hlen.
    + unfold contents. simpl. by rewrite concat_snoc.
  - rewrite list.last_snoc.
    destruct (Nat.eqb_spec (DBUF_BLOCK_SIZE - length b) 0) as [Hf|Hf].
    + eexists. split; [done|]. simpl. rewrite removelast_snoc.
      change (take _ buf) with ([] ++ take (if (length buf <? DBUF_BLOCK_SIZE)%nat
        then length buf else DBUF_BLOCK_SIZE) buf).
      split; [apply put_inv_next|rewrite length_drop]; pose proof block_size_pos; try (simpl; bool_cases; fail).
      exists (bl ++ [b]), []. unfold contents. simpl. rewrite !concat_snoc, app_nil_r.
      split_and!; try done.
      * apply Forall_app. split; [done|]. apply Forall_singleton.
        pose proof block_size_pos. split; lia.
      * destruct bl as [|b0 bl]; simpl; [constructor|].
        apply Forall_app. split; [done|]. apply Forall_singleton. lia.
      * simpl; lia.
      * right. by destruct buf; [simpl in Hlt; lia|].
    + eexists. split; [done|]. simpl. rewrite removelast_snoc.
      split; [apply put_inv_next; try (bool_cases; fail); done|].
      rewrite length_drop. bool_cases.
Qed.

Lemma dbuf_put_ok d buf :
  dbuf_ok d → buf ≠ [] → Z.of_nat (length (contents d) + length buf) < 2 ^ 32 →
  ∃ d', dbuf_put d buf = Ok d' ∧ dbuf_ok d' ∧ contents d' = contents d ++ buf.
Proof.
  intros (Hbl & Hp & Hlen & Hlt) Hne Hmax. unfold dbuf_put.
  assert ((0 <? length buf)%nat = true) as ->
    by (destruct buf; [done|apply Nat.ltb_lt; simpl; lia]). cbn [require rbind].
  set (d0 := match dbuf_list d with [] => dbuf_alloc d | _ => d end).
  assert (put_inv (contents d ++ buf) (d0, buf)) as Hinv.
  { unfold put_inv, d0. rewrite length_app. destruct d as [len l]. simpl in *.
    destruct l as [|x l] using rev_ind.
    - exists [], []. simpl. unfold contents in *. simpl in *. split_and!; (done || lia || auto).
    - apply packed_snoc in Hp. apply Forall_app in Hbl as [Hbl Hx].
      rewrite Forall_singleton in Hx. exists l, x. unfold block_ok in Hx.
      replace (match l ++ [x] with [] => _ | _ => _ end) with (MkDbuf len (l ++ [x]))
        by (by destruct l). simpl. split_and!; try done; try lia; auto. }
  destruct (loop_total dbuf_put_body (put_inv (contents d ++ buf)) (λ s, length s.2)
    (λ d', dbuf_ok d' ∧ contents d' = contents d ++ buf)) with
    (fuel := S (length buf)) (s := (d0, buf)) as (r & -> & Hr); [|done|simpl; lia|by eauto].
  apply dbuf_put_body_spec.
Qed.

(** ** [dbuf_delete] *)

Definition delete_inv (q : list Z) (s : dbuf * nat) : Prop :=
  let '(d, len) := s in
  dbuf_ok d ∧ (len ≤ length (contents d))%nat ∧ drop len (contents d) = q.

Lemma dbuf_delete_body_spec q s :
  delete_inv q s →
  ∃ o, dbuf_delete_body s = Ok o ∧
    match o with
    | Next s' => delete_inv q s' ∧
                 (length (dbuf_list s'.1) < length (dbuf_list s.1))%nat
    | Done d => dbuf_ok d ∧ contents d = q
    end.
Proof.
  destruct s as [[dl bl] len]. intros [(Hbl & Hp & Hlen & Hlt) [Hle Hq]].
  unfold dbuf_delete_body, contents in *. simpl in *.
  destruct (Nat.eqb_spec len 0) as [->|Hn0].
  { eexists. split; [done|]. rewrite drop_0 in Hq. by split_and!. }
  destruct bl as [|b bl]; [simpl in *; lia|].
  inversion Hbl as [|? ? Hb Hbl']; subst. unfold block_ok in Hb.
  cbn [concat] in *. rewrite length_app in *.
  destruct (Nat.ltb_spec len (length b)) as [Hc|Hc]; eexists; (split; [done|]).
  - rewrite drop_app_le by lia. split; [|done]. unfold dbuf_ok, contents. simpl.
    rewrite length_app, length_drop, u32_small by lia. split_and!; [|done|lia|lia].
    constructor; [|done]. unfold block_ok. rewrite length_drop. lia.
  - split; [|simpl; lia]. split_and!; simpl; unfold contents; simpl.
    + split_and!; simpl; [done|by apply (packed_tail (b :: bl))| |];
        unfold contents; simpl; rewrite u32_small by lia; lia.
    + lia.
    + by rewrite drop_app_ge by lia.
Qed.

Lemma dbuf_delete_ok d n :
  dbuf_ok d → (n ≤ length (contents d))%nat →
  ∃ d', dbuf_delete d n = Ok d' ∧ dbuf_ok d' ∧ contents d' = drop n (contents d).
Proof.
  intros Hd Hn. pose proof Hd as (_ & _ & Hlen & _). unfold dbuf_delete.
  rewrite (proj2 (Z.leb_le _ _)) by lia. cbn [require rbind].
  destruct (Nat.eqb_spec n 0) as [->|Hn0].
  { exists d. rewrite drop_0. by split_and!. }
  destruct (loop_total dbuf_delete_body (delete_inv (drop n (contents d)))
    (λ s, length (dbuf_list s.1)) (λ d', dbuf_ok d' ∧ contents d' = drop n (contents d))) with
    (fuel := S (length (dbuf_list d))) (s := (d, n)) as (r & -> & Hr);
    [apply dbuf_delete_body_spec|done|simpl; lia|by eauto].
Qed.

(** ** [dbuf_getmsg] *)

Lemma getmsg_block_app s l1 l2 :
  getmsg_block s (l1 ++ l2) =
  match getmsg_block s l1 with inl s' => getmsg_block s' l2 | inr s' => inr s' end.
Proof.
  revert s. induction l1 as [|c l1 IH]; intros s; [done|]. simpl.
  destruct (getmsg_char s c); [apply IH|done].
Qed.

(** The block structure does not matter to the scan. *)
Lemma getmsg_blocks_concat s bl : getmsg_blocks s bl = getmsg_block s (concat bl).
Proof.
  revert s. induction bl as [|b bl IH]; intros s; [done|]. simpl. rewrite getmsg_block_app.
  destruct (getmsg_block s b); [apply IH|done].
Qed.

(** The three phases, as runs of the scan. *)
Lemma scan_blanks s q :
  phase s ≠ 1%nat → Forall (λ c, is_blank c = true) q →
  getmsg_block s q = inl (GS (line_bytes s) (length q + empty_bytes s) (phase s) (g_buf s)).
Proof.
  intros Hph Hq. revert s Hph. induction Hq as [|c q Hc _ IH]; intros s Hph; [by destruct s|].
  assert (getmsg_char s c = inl (GS (line_bytes s) (S (empty_bytes s)) (phase s) (g_buf s))) as Hg.
  { unfold getmsg_char, is_blank in *. destruct (Nat.eqb_spec (phase s) 1) as [|_]; [done|].
    simpl. by rewrite andb_true_r, Hc. }
  cbn [getmsg_block]. rewrite Hg, IH by done. simpl. by rewrite Nat.add_succ_r.
Qed.

Lemma scan_line s q :
  phase s = 1%nat → Forall (λ c, negb (is_eol c) = true) q →
  (length (g_buf s) = Nat.min (line_bytes s) (READBUFSIZE - 2)) →
  getmsg_block s q = inl (GS (length q + line_bytes s) (empty_bytes s) 1
    (g_buf s ++ take (READBUFSIZE - 2 - line_bytes s) q)).
Proof.
  intros Hph Hq. revert s Hph. induction Hq as [|c q Hc _ IH]; intros s Hph Hlen.
  { destruct s. simpl in *. by rewrite take_nil, app_nil_r, Hph. }
  assert (getmsg_char s c = inl (GS (S (line_bytes s)) (empty_bytes s) 1
    (if (line_bytes s <? READBUFSIZE - 2)%nat then g_buf s ++ [c] else g_buf s))) as Hg.
  { unfold getmsg_char, is_eol in *. rewrite Hph. simpl.
    rewrite andb_false_r, orb_false_r. by destruct (_ || _). }
  cbn [getmsg_block]. rewrite Hg. destruct (Nat.ltb_spec (line_bytes s) (READBUFSIZE - 2)).
  - rewrite IH; cbn [phase line_bytes g_buf empty_bytes]; [|done|rewrite length_app; cbn [length]; lia].
    simpl. replace (READBUFSIZE - 2 - line_bytes s)%nat
      with (S (READBUFSIZE - 2 - S (line_bytes s))) by lia.
    simpl. by rewrite <-app_assoc, Nat.add_succ_r.
  - rewrite IH; cbn [phase line_bytes g_buf empty_bytes]; [|done|lia].
    replace (READBUFSIZE - 2 - S (line_bytes s))%nat with 0%nat by lia.
    replace (READBUFSIZE - 2 - line_bytes s)%nat with 0%nat by lia.
    simpl. by rewrite Nat.add_succ_r.
Qed.

(** The scan after the end of the line: it stops at the first character that
    is not blank, or at the end of the queue. *)
Lemma scan_after s q :
  phase s = 2%nat →
  ∃ s', (getmsg_block s q = inl s' ∨ getmsg_block s q = inr s') ∧
    s' = GS (line_bytes s) (length (take_while is_blank q) + empty_bytes s) 2 (g_buf s).
Proof.
  intros Hph.
  assert (getmsg_block s q = getmsg_block
    (GS (line_bytes s) (length (take_while is_blank q) + empty_bytes s) 2 (g_buf s))
    (drop_while is_blank q)) as ->.
  { rewrite <-(take_drop_while is_blank q) at 1. rewrite getmsg_block_app.
    rewrite scan_blanks by (try congruence; apply take_while_Forall). by rewrite Hph. }
  destruct (drop_while is_blank q) as [|c r] eqn:E; [by eauto|].
  apply drop_while_head in E. eexists. split; [right|done]. cbn [getmsg_block].
  unfold getmsg_char, is_blank in *. simpl. rewrite andb_true_r, E. done.
Qed.

(** The whole scan, from the start. *)
Lemma scan_spec q :
  let q1 := drop_while is_blank q in
  let line := take_while (λ c, negb (is_eol c)) q1 in
  let rest := drop_while (λ c, negb (is_eol c)) q1 in
  let blanks := length (take_while is_blank q) in
  match rest with
  | [] => ∃ s', getmsg_block (GS 0 0 0 []) q = inl s' ∧ phase s' ≠ 2%nat ∧ empty_bytes s' = blanks
  | _ => ∃ s', (getmsg_block (GS 0 0 0 []) q = inl s' ∨ getmsg_block (GS 0 0 0 []) q = inr s') ∧
      s' = GS (length line) (length (take_while is_blank rest) + blanks) 2
              (take (READBUFSIZE - 2) line)
  end.
Proof.
  intros q1 line rest blanks.
  assert (getmsg_block (GS 0 0 0 []) q = getmsg_block (GS 0 blanks 0 []) q1) as Hs0.
  { rewrite <-(take_drop_while is_blank q) at 1. rewrite getmsg_block_app.
    rewrite scan_blanks by (done || apply take_while_Forall). simpl. by rewrite Nat.add_0_r. }
  rewrite Hs0. clear Hs0. fold q1.
  destruct q1 as [|c q2] eqn:Eq1; [by eexists|].
  assert (is_blank c = false) as Hc by (by apply (drop_while_head is_blank q c q2)).
  assert (is_eol c = false) as Hce by (unfold is_blank, is_eol in *; destruct (c =? CR), (c =? LF); done).
  assert (getmsg_block (GS 0 blanks 0 []) (c :: q2) = getmsg_block (GS 0 blanks 1 []) (c :: q2)) as ->.
  { simpl. unfold getmsg_char. simpl. unfold is_blank in Hc.
    destruct (c =? CR), (c =? LF), (c =? SPACE_CH); done. }
  rewrite <-(take_drop_while (λ c, negb (is_eol c)) (c :: q2)). fold line rest.
  rewrite getmsg_block_app, scan_line by (done || apply take_while_Forall). simpl.
  rewrite Nat.sub_0_r, Nat.add_0_r. destruct rest as [|e r] eqn:Er; [by eexists|].
  apply drop_while_head in Er. apply negb_false_iff in Er.
  assert (∀ lb eb b, getmsg_char (GS lb eb 1 b) e = inl (GS lb (S eb) 2 b)) as He.
  { intros. unfold getmsg_char, is_eol in *. simpl. by rewrite Er. }
  cbn [getmsg_block]. rewrite He.
  destruct (scan_after (GS (length line) (S blanks) 2 (take (READBUFSIZE - 2) line)) r)
    as (s' & Hs' & ->); [done|].
  eexists. split; [exact Hs'|]. simpl. f_equal.
  assert (is_blank e = true) as -> by (unfold is_blank, is_eol in *; by rewrite Er). simpl. lia.
Qed.

Lemma dbuf_getmsg_ok d :
  dbuf_ok d →
  ∃ d' n out, dbuf_getmsg d = Ok (d', n, out) ∧ dbuf_ok d' ∧
    (contents d', n, out) = spec_getmsg (contents d).
Proof.
  intros Hd. unfold dbuf_getmsg. rewrite getmsg_blocks_concat. fold (contents d).
  pose proof (scan_spec (contents d)) as Hscan. simpl in Hscan. unfold spec_getmsg.
  set (q := contents d) in *. set (q1 := drop_while is_blank q) in *.
  set (line := take_while _ q1) in *. set (rest := drop_while _ q1) in *.
  assert (q = take_while is_blank q ++ line ++ rest) as Hq
    by (unfold line, rest; rewrite take_drop_while; unfold q1; by rewrite take_drop_while).
  assert (q1 = drop (length (take_while is_blank q)) q) as Hq1 by apply drop_while_drop.
  destruct rest as [|e r] eqn:Er.
  - destruct Hscan as (s & -> & Hph & He). destruct (Nat.eqb_spec (phase s) 2); [done|].
    destruct (dbuf_delete_ok d (0 + empty_bytes s)) as (d' & -> & Hd' & Hc); [done| |].
    { fold q. rewrite Hq, length_app, He. lia. }
    eexists d', _, _. split; [done|]. split; [done|]. fold q in Hc.
    rewrite Hc, He. simpl. by rewrite Hq1.
  - destruct Hscan as (s & Hs & ->).
    set (k := (length line + (length (take_while is_blank (e :: r)) +
      length (take_while is_blank q)))%nat) in *.
    assert (k ≤ length q)%nat as Hk.
    { unfold k. rewrite Hq at 2. rewrite !length_app.
      assert (length (take_while is_blank (e :: r)) ≤ length (e :: r))%nat; [|lia].
      rewrite <-(take_drop_while is_blank (e :: r)) at 2. rewrite length_app. lia. }
    assert (drop k q = drop_while is_blank (e :: r)) as Hdrop.
    { rewrite Hq, app_assoc, drop_app_ge by (rewrite length_app; unfold k; lia).
      rewrite drop_while_drop. f_equal. rewrite length_app. unfold k. lia. }
    destruct (dbuf_delete_ok d k Hd Hk) as (d' & Hdel & Hd' & Hc).
    exists d', (length line `min` (READBUFSIZE - 2))%nat, (take (READBUFSIZE - 2) line).
    split; [|split; [done|]]; [|by rewrite Hc, <-Hdrop].
    destruct Hs as [-> | ->]; cbn [line_bytes empty_bytes phase g_buf Nat.eqb]; fold k;
      by rewrite Hdel.
Qed.

Lemma dbuf_get_ok d :
  dbuf_ok d →
  ∃ d', dbuf_get d = Ok (d', length (contents d), contents d) ∧ dbuf_ok d' ∧ contents d' = [].
Proof.
  intros Hd. unfold dbuf_get. rewrite length_concat_sum. fold (contents d).
  destruct (dbuf_delete_ok d (length (contents d)) Hd) as (d' & -> & Hd' & Hc); [lia|].
  exists d'. rewrite drop_ge in Hc by lia. by split_and!.
Qed.

Lemma dbuf_init_ok : dbuf_ok dbuf_queue_init ∧ contents dbuf_queue_init = [].
Proof. split; [|done]. split_and!; simpl; [constructor|constructor|done|lia]. Qed.

(** The blocks implement the byte queue. *)
#[export] Instance dbuf_ByteQueue : ByteQueue dbuf := {|
  bq_ok := dbuf_ok; bq_contents := contents; bq_new := dbuf_queue_init;
  bq_put := dbuf_put; bq_delete := dbuf_delete; bq_getmsg := dbuf_getmsg; bq_get := dbuf_get;
  bq_new_spec := dbuf_init_ok; bq_put_spec := dbuf_put_ok; bq_delete_spec := dbuf_delete_ok;
  bq_getmsg_spec := dbuf_getmsg_ok; bq_get_spec := dbuf_get_ok |}.

(** ** Runs of operations

    What the rest of the server does with a queue is a sequence of calls;
    each call's outcome is what the caller sees. *)
Inductive dop :=
| DPut (buf : list Z)
| DDelete (n : nat)
| DGetmsg
| DGet
| DClear.

Inductive dout :=
| DNone
| DBytes (n : nat) (buf : list Z).

#[global] Instance dout_eq_dec : EqDecision dout.
Proof. solve_decision. Defined.

Definition dbuf_op (d : dbuf) (o : dop) : res (dbuf * dout) :=
  match o with
  | DPut buf => let! d := dbuf_put d buf in Ok (d, DNone)
  | DDelete n => let! d := dbuf_delete d n in Ok (d, DNone)
  | DGetmsg => let! (d, n, buf) := dbuf_getmsg d in Ok (d, DBytes n buf)
  | DGet => let! (d, n, buf) := dbuf_get d in Ok (d, DBytes n buf)
  | DClear => let! d := DBufClear d in Ok (d, DNone)
  end.

Fixpoint dbuf_run (d : dbuf) (os : list dop) : res (dbuf * list dout) :=
  match os with
  | [] => Ok (d, [])
  | o :: os => let! (d, x) := dbuf_op d o in let! (d, xs) := dbuf_run d os in Ok (d, x :: xs)
  end.

(** The same calls on a plain byte string; [None] when a call breaks the
    contract: an empty put, deleting more than there is, 4 GB of data. *)
Definition queue_op (q : list Z) (o : dop) : option (list Z * dout) :=
  match o with
  | DPut buf => if (0 <? length buf)%nat && (Z.of_nat (length q + length buf) <? 2 ^ 32)
                then Some (q ++ buf, DNone) else None
  | DDelete n => if (n <=? length q)%nat then Some (drop n q, DNone) else None
  | DGetmsg => let '(q, n, buf) := spec_getmsg q in Some (q, DBytes n buf)
  | DGet => Some ([], DBytes (length q) q)
  | DClear => Some ([], DNone)
  end.

Fixpoint queue_run (q : list Z) (os : list dop) : option (list Z * list dout) :=
  match os with
  | [] => Some (q, [])
  | o :: os =>
      '(q, x) ← queue_op q o;
      '(q, xs) ← queue_run q os;
      Some (q, x :: xs)
  end.

Lemma dbuf_op_refines d o q x :
  dbuf_ok d → queue_op (contents d) o = Some (q, x) →
  ∃ d', dbuf_op d o = Ok (d', x) ∧ dbuf_ok d' ∧ contents d' = q.
Proof.
  intros Hd. destruct o as [buf|n| | |]; simpl.
  - destruct (Nat.ltb_spec 0 (length buf)), (Z.ltb_spec (Z.of_nat (length (contents d) + length buf)) (2 ^ 32));
      simpl; try done. intros [= <- <-].
    destruct (dbuf_put_ok d buf) as (d' & -> & ? & ?); [done|by destruct buf; [simpl in *; lia|]|done|].
    by exists d'.
  - destruct (Nat.leb_spec n (length (contents d))); [|done]. intros [= <- <-].
    destruct (dbuf_delete_ok d n) as (d' & -> & ? & ?); [done..|]. by exists d'.
  - destruct (dbuf_getmsg_ok d Hd) as (d' & n & out & -> & ? & Hs). rewrite <-Hs.
    intros [= <- <-]. by exists d'.
  - destruct (dbuf_get_ok d Hd) as (d' & -> & ? & ?). intros [= <- <-]. by exists d'.
  - intros [= <- <-]. unfold DBufClear. pose proof Hd as (_ & _ & -> & _). rewrite Nat2Z.id.
    destruct (dbuf_delete_ok d (length (contents d))) as (d' & -> & ? & Hc); [done|lia|].
    exists d'. rewrite drop_ge in Hc by lia. by split_and!.
Qed.

Lemma dbuf_run_refines os d q outs :
  dbuf_ok d → queue_run (contents d) os = Some (q, outs) →
  ∃ d', dbuf_run d os = Ok (d', outs) ∧ dbuf_ok d' ∧ contents d' = q.
Proof.
  revert d q outs. induction os as [|o os IH]; intros d q outs Hd; simpl.
  - intros [= <- <-]. by exists d.
  - destruct (queue_op (contents d) o) as [[q1 x]|] eqn:Eo; [|done]. simpl.
    destruct (dbuf_op_refines d o q1 x Hd Eo) as (d1 & -> & Hd1 & <-). simpl.
    destruct (queue_run (contents d1) os) as [[q2 xs]|] eqn:Er; [|done]. simpl.
    intros [= <- <-]. destruct (IH d1 q2 xs Hd1 Er) as (d2 & -> & ? & ?). by exists d2.
Qed.

(** C23.  The block list implements a byte queue: whatever sequence of puts,
    deletes, line reads and full reads is made on a fresh queue within the
    contract, no assertion fails, no block is overrun, and every call delivers
    exactly what the same calls on a plain byte string deliver. *)
Theorem dbuf_refines_queue os q outs :
  queue_run [] os = Some (q, outs) →
  ∃ d, dbuf_run dbuf_queue_init os = Ok (d, outs) ∧ dbuf_ok d ∧ contents d = q.
Proof. destruct dbuf_init_ok as [Hok <-]. by apply dbuf_run_refines. Qed.

Lemma dbuf_refines_queue_witness :
  ∃ d, dbuf_run dbuf_queue_init
         [DPut (bs "  NICK a"); DGetmsg; DPut [98; 13]; DPut (10 :: bs "USER"); DGetmsg; DGet]
       = Ok (d, [DNone; DBytes 0 []; DNone; DNone; DBytes 7 (bs "NICK ab"); DBytes 4 (bs "USER")])
       ∧ dbuf_ok d ∧ contents d = [].
Proof. apply dbuf_refines_queue. vm_compute. reflexivity. Defined.

Lemma queue_run_puts q chunks :
  Forall (λ b, b ≠ []) chunks → Z.of_nat (length q + length (concat chunks)) < 2 ^ 32 →
  queue_run q (map DPut chunks) = Some (q ++ concat chunks, map (λ _, DNone) chunks).
Proof.
  intros Hne. revert q. induction Hne as [|b chunks Hb _ IH]; intros q Hmax.
  - simpl. by rewrite app_nil_r.
  - cbn [concat] in Hmax. rewrite length_app in Hmax. cbn [map queue_run queue_op].
    rewrite (proj2 (Nat.ltb_lt 0 (length b))) by (destruct b; [done|simpl; lia]).
    rewrite (proj2 (Z.ltb_lt _ _)) by lia. cbn [andb mbind option_bind].
    rewrite IH by (rewrite length_app; lia). cbn [mbind option_bind concat].
    by rewrite <-app_assoc.
Qed.

(** A line sent in any number of pieces is delivered whole, once it is
    terminated: with [line] starting with a character that is not blank and
    containing no CR or LF, the reader gets it (cut to what fits in the
    receive buffer), and the blanks around it are gone from the queue. *)
Theorem dbuf_line_reassembled chunks lead line eol rest :
  Forall (λ b, b ≠ []) chunks → Z.of_nat (length (concat chunks)) < 2 ^ 32 →
  concat chunks = lead ++ line ++ eol :: rest →
  Forall (λ c, is_blank c = true) lead → is_eol eol = true →
  Forall (λ c, is_eol c = false) line → line ≠ [] → is_blank (hd 0 line) = false →
  ∃ d d', dbuf_run dbuf_queue_init (map DPut chunks) = Ok (d, map (λ _, DNone) chunks) ∧
    dbuf_getmsg d = Ok (d', Nat.min (length line) (READBUFSIZE - 2),
                        take (READBUFSIZE - 2) line) ∧
    dbuf_ok d' ∧ contents d' = drop_while is_blank rest.
Proof.
  intros Hne Hmax Hcat Hlead Heol Hline Hnil Hhd. destruct dbuf_init_ok as [Hok Hc0].
  destruct (dbuf_run_refines (map DPut chunks) dbuf_queue_init (concat chunks)
    (map (λ _, DNone) chunks) Hok) as (d & Hrun & Hd & Hc); [rewrite Hc0; by apply queue_run_puts|].
  destruct (dbuf_getmsg_ok d Hd) as (d' & n & out & Hg & Hd' & Hs).
  exists d, d'. rewrite Hrun, Hg. rewrite Hc, Hcat in Hs. unfold spec_getmsg in Hs.
  assert (drop_while is_blank (lead ++ line ++ eol :: rest) = line ++ eol :: rest) as E1.
  { rewrite drop_while_app by done. destruct line as [|c l]; [done|].
    simpl in *. by rewrite Hhd. }
  assert (Forall (λ c, negb (is_eol c) = true) line) as Hline'
    by (eapply Forall_impl; [done|]; intros c ->; done).
  rewrite E1, take_while_app, drop_while_app in Hs by done. simpl in Hs. rewrite Heol in Hs.
  simpl in Hs. rewrite app_nil_r in Hs.
  assert (is_blank eol = true) as Hbe by (unfold is_blank, is_eol in *; by rewrite Heol).
  rewrite Hbe in Hs. injection Hs as -> -> ->. by split_and!.
Qed.

Lemma dbuf_line_reassembled_witness :
  ∃ d d', dbuf_run dbuf_queue_init (map DPut [bs " PI"; bs "NG x"; [13; 10; 80]])
            = Ok (d, [DNone; DNone; DNone]) ∧
          dbuf_getmsg d = Ok (d', Nat.min 6 (READBUFSIZE - 2), take (READBUFSIZE - 2) (bs "PING x")) ∧
          dbuf_ok d' ∧ contents d' = bs "P".
Proof.
  apply (dbuf_line_reassembled [bs " PI"; bs "NG x"; [13; 10; 80]] (bs " ") (bs "PING x") 13
    [10; 80]); by repeat constructor.
Defined.

(** The queue wastes at most two partly filled blocks: its memory is
    bounded by its contents. *)
Theorem dbuf_memory_bound os q outs :
  queue_run [] os = Some (q, outs) →
  ∃ d, dbuf_run dbuf_queue_init os = Ok (d, outs) ∧
    (length (dbuf_list d) * DBUF_BLOCK_SIZE ≤ length q + 2 * DBUF_BLOCK_SIZE)%nat ∧
    Forall (λ b, length b ≤ DBUF_BLOCK_SIZE)%nat (dbuf_list d).
Proof.
  intros Hq. destruct dbuf_init_ok as [Hok Hc0]. rewrite <-Hc0 in Hq.
  destruct (dbuf_run_refines _ _ _ _ Hok Hq) as (d & Hd & (Hbl & Hp & _) & <-).
  exists d. split; [done|]. split; [|eapply Forall_impl; [exact Hbl|]; unfold block_ok; lia].
  unfold contents, packed in *. destruct (dbuf_list d) as [|b bl]; [simpl; lia|].
  cbn [list.tail] in Hp. cbn [concat]. rewrite length_app. clear -Hp.
  destruct bl as [|c bl] using rev_ind; [simpl; lia|].
  rewrite removelast_snoc in Hp. rewrite concat_app, length_app.
  assert (length (concat bl) = length bl * DBUF_BLOCK_SIZE)%nat;
    [|simpl; rewrite length_app; simpl; nia].
  clear -Hp. induction Hp as [|x bl Hx _ IH]; simpl; [done|]. rewrite length_app. lia.
Qed.

Lemma dbuf_memory_bound_witness :
  ∃ d, dbuf_run dbuf_queue_init [DPut (bs "hello"); DDelete 2] = Ok (d, [DNone; DNone]) ∧
    (length (dbuf_list d) * DBUF_BLOCK_SIZE ≤ length (bs "llo") + 2 * DBUF_BLOCK_SIZE)%nat ∧
    Forall (λ b, length b ≤ DBUF_BLOCK_SIZE)%nat (dbuf_list d).
Proof. apply dbuf_memory_bound. vm_compute. reflexivity. Defined.
