(* ===== verification/Hash.v ===== *)
(** * Hash tables of the server (src/hash.c)

    SipHash with 64-bit wrap-around, the client, ID and channel tables, the
    lookup functions built on them, and the timer that walks the ID table.
    A client or channel is a number that stands for its address; following a
    pointer to an object that does not exist is [UB]. *)

From stdpp Require Import base tactics list numbers strings gmap.
From Stdlib Require Import ZArith Lia.
From S2P Require Import Prelude Chars Support.

Local Open Scope Z_scope.

(** ** SipHash *)

Definition ROTL (x b : Z) : Z := Z.lor (u64 (Z.shiftl x b)) (Z.shiftr x (64 - b)).

(** The byte at [p[i]], or 0 where the caller's check on the length makes the
    access impossible. *)
Definition at0 (p : list Z) (i : nat) : Z := nth i p 0.

(** [U8TO64_LE] and [U8TO64_LE_NOCASE]: [f] is the identity or [tolower]. *)
Definition U8TO64_LE (f : Z → Z) (p : list Z) : Z :=
  Z.lor (f (at0 p 0)) (Z.lor (Z.shiftl (f (at0 p 1)) 8)
  (Z.lor (Z.shiftl (f (at0 p 2)) 16) (Z.lor (Z.shiftl (f (at0 p 3)) 24)
  (Z.lor (Z.shiftl (f (at0 p 4)) 32) (Z.lor (Z.shiftl (f (at0 p 5)) 40)
  (Z.lor (Z.shiftl (f (at0 p 6)) 48) (Z.shiftl (f (at0 p 7)) 56))))))).

(** The bytes [U64TO8_LE] stores. *)
Definition U64TO8_LE (v : Z) : list Z :=
  map (λ i, u8 (Z.shiftr v (8 * Z.of_nat i))) (seq 0 8).

Record sip := Sip { v0 : Z; v1 : Z; v2 : Z; v3 : Z }.

Definition SIPROUND (s : sip) : sip :=
  let '(Sip v0 v1 v2 v3) := s in
  let v0 := u64 (v0 + v1) in
  let v1 := ROTL v1 13 in
  let v1 := Z.lxor v1 v0 in
  let v0 := ROTL v0 32 in
  let v2 := u64 (v2 + v3) in
  let v3 := ROTL v3 16 in
  let v3 := Z.lxor v3 v2 in
  let v0 := u64 (v0 + v3) in
  let v3 := ROTL v3 21 in
  let v3 := Z.lxor v3 v0 in
  let v2 := u64 (v2 + v1) in
  let v1 := ROTL v1 17 in
  let v1 := Z.lxor v1 v2 in
  let v2 := ROTL v2 32 in
  Sip v0 v1 v2 v3.

(** The loop over the 8-byte words of the input; [n] words. *)
Fixpoint sip_words (f : Z → Z) (n : nat) (inp : list Z) (s : sip) : sip * list Z :=
  match n with
  | O => (s, inp)
  | S n =>
      let m := U8TO64_LE f inp in
      let s := Sip (v0 s) (v1 s) (v2 s) (Z.lxor (v3 s) m) in
      let s := SIPROUND (SIPROUND s) in
      let s := Sip (Z.lxor (v0 s) m) (v1 s) (v2 s) (v3 s) in
      sip_words f n (drop 8 inp) s
  end.

(** The [switch] with its fall-through cases: case [left] adds byte
    [left - 1] and goes on with case [left - 1]. *)
Fixpoint sip_left (f : Z → Z) (left : nat) (inp : list Z) (b : Z) : Z :=
  match left with
  | O => b
  | S l => sip_left f l inp (Z.lor b (Z.shiftl (f (at0 inp l)) (8 * Z.of_nat l)))
  end.

(** The body the two hash functions share: they are the same code but for
    [f].  The result is stored with [U64TO8_LE] into the bytes of the returned
    integer. *)
Definition sip_body (f : Z → Z) (inp k : list Z) : Z :=
  let inlen := length inp in
  let k0 := U8TO64_LE id k in
  let k1 := U8TO64_LE id (drop 8 k) in
  let b := u64 (Z.shiftl (Z.of_nat inlen) 56) in
  let s := Sip (Z.lxor 0x736f6d6570736575 k0) (Z.lxor 0x646f72616e646f6d k1)
               (Z.lxor 0x6c7967656e657261 k0) (Z.lxor 0x7465646279746573 k1) in
  let '(s, rest) := sip_words f (inlen / 8) inp s in
  let b := sip_left f (inlen mod 8) rest b in
  let s := Sip (v0 s) (v1 s) (v2 s) (Z.lxor (v3 s) b) in
  let s := SIPROUND (SIPROUND s) in
  let s := Sip (Z.lxor (v0 s) b) (v1 s) (Z.lxor (v2 s) 0xff) (v3 s) in
  let s := SIPROUND (SIPROUND (SIPROUND (SIPROUND s))) in
  let b := Z.lxor (Z.lxor (Z.lxor (v0 s) (v1 s)) (v2 s)) (v3 s) in
  U8TO64_LE id (U64TO8_LE b).

Definition siphash_raw (inp k : list Z) : Z := sip_body id inp k.
Definition siphash_nocase (inp k : list Z) : Z := sip_body tolower inp k.
Definition siphash (inp k : list Z) : Z := siphash_raw inp k.

(** [getrandom8] is a parameter: the random bytes to come. *)
Definition siphash_generate_key (random : list Z) : list Z * list Z :=
  (take 16 random, drop 16 random).

(** *** Theory *)

Lemma at0_map f p i : f 0 = 0 → at0 (map f p) i = f (at0 p i).
Proof. intros Hf. unfold at0. rewrite <-Hf at 1. apply map_nth. Qed.

Lemma U8TO64_LE_map f p : f 0 = 0 → U8TO64_LE id (map f p) = U8TO64_LE f p.
Proof. intros Hf. unfold U8TO64_LE. by rewrite !at0_map by done. Qed.

Lemma sip_words_map f n p s :
  f 0 = 0 → sip_words id n (map f p) s = ((sip_words f n p s).1, map f (sip_words f n p s).2).
Proof.
  intros Hf. revert p s. induction n as [|n IH]; intros p s; [done|].
  simpl. rewrite U8TO64_LE_map, skipn_map by done. apply IH.
Qed.

Lemma sip_left_map f l p b :
  f 0 = 0 → sip_left id l (map f p) b = sip_left f l p b.
Proof.
  intros Hf. revert b. induction l as [|l IH]; intros b; [done|].
  cbn [sip_left]. rewrite at0_map by done. apply IH.
Qed.

(** Hashing without case is hashing the lower-case string. *)
Lemma siphash_nocase_raw s k : siphash_nocase s k = siphash_raw (casefold s) k.
Proof.
  unfold siphash_nocase, siphash_raw, casefold, sip_body. rewrite length_map.
  rewrite sip_words_map by done. destruct (sip_words tolower _ _ _) as [st rest]. cbn [fst snd].
  by rewrite sip_left_map by done.
Qed.

Lemma siphash_casefold s t k :
  casefold s = casefold t → siphash_nocase s k = siphash_nocase t k.
Proof. intros H. by rewrite !siphash_nocase_raw, H. Qed.

(** [siphash_raw] is SipHash-2-4: it gives the published result on the
    reference input (key 00..0f, message 00..0e), and the case-insensitive
    variant is the same function of the lower-cased string, so that strings
    the server's comparison treats as equal have the same hash value. *)
Theorem siphash_correct :
  siphash_raw (seqZ 0 15) (seqZ 0 16) = 0xa129ca6149be45e5 ∧
  (∀ s k, siphash_nocase s k = siphash_raw (casefold s) k) ∧
  (∀ s t k, cstr s → cstr t → smycmp s t = Ok 0 → siphash_nocase s k = siphash_nocase t k).
Proof.
  split_and!; [vm_compute; reflexivity|apply siphash_nocase_raw|].
  intros s t k Hs Ht H. destruct (smycmp_spec s t Hs Ht) as (r & Hr & Hiff).
  apply siphash_casefold, Hiff. congruence.
Qed.

(** ** Tables *)

Definition NICK_HASH_TABLE_SIZE : Z := 32768.
Definition CHAN_HASH_TABLE_SIZE : Z := 32768.
Definition WHOWAS_HASH_TABLE_SIZE : Z := 32768.

Definition NICKLEN : nat := 30.
Definition HOSTLEN : nat := 63.
Definition SIDLEN : nat := 3.

Abbreviation table := (gmap Z (list nat)).
Definition bucket (t : table) (h : Z) : list nat := default [] (t !! h).

Inductive status := ST_OTHER | ST_ME | ST_UNKNOWN | ST_SERVER | ST_USER.
#[global] Instance status_eq_dec : EqDecision status.
Proof. solve_decision. Defined.

(** The fields of a client these functions look at; [c_user] is the server
    name in [client->user]. *)
Record client := Client {
  c_name : list Z;
  c_id : list Z;
  c_status : status;
  c_user : option (list Z)
}.
Definition IsServer (c : client) : bool := bool_decide (c_status c = ST_SERVER).
Definition IsMe (c : client) : bool := bool_decide (c_status c = ST_ME).
Definition IsUser (c : client) : bool := bool_decide (c_status c = ST_USER).

Record hstate := HS {
  clients : gmap nat client;
  channels : gmap nat (list Z);
  clientTable : table;
  idTable : table;
  channelTable : table;
  siphashkey_nick : list Z;
  siphashkey_chan : list Z;
  siphashkey_whowas : list Z;
  tainted : bool
}.

Definition init_hash (random : list Z) (h : hstate) : hstate :=
  let '(knick, random) := siphash_generate_key random in
  let '(kchan, random) := siphash_generate_key random in
  let '(kwhowas, random) := siphash_generate_key random in
  HS (clients h) (channels h) ∅ ∅ ∅ knick kchan kwhowas (tainted h).

Definition hash_client_name (st : hstate) (name : list Z) : Z :=
  siphash_nocase name (siphashkey_nick st) mod NICK_HASH_TABLE_SIZE.
Definition hash_channel_name (st : hstate) (name : list Z) : Z :=
  siphash_nocase name (siphashkey_chan st) mod CHAN_HASH_TABLE_SIZE.
Definition hash_whowas_name (st : hstate) (name : list Z) : Z :=
  siphash_nocase name (siphashkey_whowas st) mod WHOWAS_HASH_TABLE_SIZE.

Definition linked (t : table) (c : nat) : bool :=
  existsb (λ p : Z * list nat, bool_decide (c ∈ p.2)) (map_to_list t).

(** [list_add]: at the front of a bucket.  Adding a node that is already in a
    list corrupts both lists. *)
Definition list_add (t : table) (h : Z) (c : nat) : res table :=
  if linked t c then UB else Ok (<[h := c :: bucket t h]> t).
(** [list_del]: out of whatever list the node is in. *)
Definition list_del (t : table) (c : nat) : table := filter (λ x, x ≠ c) <$> t.

Definition set_clientTable (t : table) (st : hstate) : hstate :=
  HS (clients st) (channels st) t (idTable st) (channelTable st)
     (siphashkey_nick st) (siphashkey_chan st) (siphashkey_whowas st) (tainted st).
Definition set_idTable (t : table) (st : hstate) : hstate :=
  HS (clients st) (channels st) (clientTable st) t (channelTable st)
     (siphashkey_nick st) (siphashkey_chan st) (siphashkey_whowas st) (tainted st).
Definition set_channelTable (t : table) (st : hstate) : hstate :=
  HS (clients st) (channels st) (clientTable st) (idTable st) t
     (siphashkey_nick st) (siphashkey_chan st) (siphashkey_whowas st) (tainted st).

Definition add_to_client_hash_table (name : list Z) (c : nat) (st : hstate) : res hstate :=
  if tainted st then Ok st
  else let! t := list_add (clientTable st) (hash_client_name st name) c in
       Ok (set_clientTable t st).

Definition add_to_id_hash_table (name : list Z) (c : nat) (st : hstate) : res hstate :=
  let! t := list_add (idTable st) (hash_client_name st name) c in
  Ok (set_idTable t st).

(** The channel list is linked through [hnextch]; the same channel twice
    would make the list circular. *)
Definition add_to_channel_hash_table (name : list Z) (c : nat) (st : hstate) : res hstate :=
  let! t := list_add (channelTable st) (hash_channel_name st name) c in
  Ok (set_channelTable t st).

Definition del_from_client_hash_table (c : nat) (st : hstate) : hstate :=
  if linked (clientTable st) c then set_clientTable (list_del (clientTable st) c) st else st.
Definition del_from_id_hash_table (c : nat) (st : hstate) : hstate :=
  if linked (idTable st) c then set_idTable (list_del (idTable st) c) st else st.

(** The walk of [del_from_channel_hash_table]: unlink the first occurrence. *)
Fixpoint unlink (c : nat) (l : list nat) : list nat :=
  match l with
  | [] => []
  | tmp :: r => if (tmp =? c)%nat then r else tmp :: unlink c r
  end.
Definition del_from_channel_hash_table (name : list Z) (c : nat) (st : hstate) : hstate :=
  let h := hash_channel_name st name in
  match channelTable st !! h with
  | None => st
  | Some l => set_channelTable (<[h := unlink c l]> (channelTable st)) st
  end.

(** The lookup loop: the first entry that is wanted and whose key compares
    equal; [get] follows the pointer. *)
Fixpoint find_in {A} (get : nat → option A) (key : A → list Z) (want : A → bool)
    (name : list Z) (l : list nat) : res (option nat) :=
  match l with
  | [] => Ok None
  | tmp :: r =>
      match get tmp with
      | None => UB
      | Some o =>
          if want o then
            let! x := smycmp name (key o) in
            if x =? 0 then Ok (Some tmp) else find_in get key want name r
          else find_in get key want name r
      end
  end.

(** A found client, or the default the caller gave. *)
Definition or_default (r : res (option nat)) (def : option nat) : res (option nat) :=
  let! o := r in Ok (match o with Some c => Some c | None => def end).

Definition hash_find_client (name : list Z) (def : option nat) (st : hstate) : res (option nat) :=
  or_default (find_in (λ c, clients st !! c) c_name (λ _, true) name
    (bucket (clientTable st) (hash_client_name st name))) def.

Definition hash_find_id (name : list Z) (def : option nat) (st : hstate) : res (option nat) :=
  or_default (find_in (λ c, clients st !! c) c_id (λ _, true) name
    (bucket (idTable st) (hash_client_name st name))) def.

Definition hash_find_server (server : list Z) (def : option nat) (st : hstate) : res (option nat) :=
  or_default (find_in (λ c, clients st !! c) c_name (λ c, IsServer c || IsMe c) server
    (bucket (clientTable st) (hash_client_name st server))) def.

(** [requester] is NULL or a client. *)
Definition find_client (name : list Z) (requester : option client) (st : hstate)
  : res (option nat) :=
  let! byid :=
    match requester with
    | None => hash_find_id name None st
    | Some r => if IsServer r then hash_find_id name None st else Ok None
    end in
  match byid with
  | Some c => Ok (Some c)
  | None => hash_find_client name None st
  end.

Definition find_server (name : option (list Z)) (requester : option client) (st : hstate)
  : res (option nat) :=
  match name with
  | None => Ok None
  | Some name =>
      let! r := find_client name None st in
      match r with
      | None => Ok None
      | Some c => match clients st !! c with
                  | None => UB
                  | Some o => Ok (if IsServer o || IsMe o then Some c else None)
                  end
      end
  end.

Definition find_user (name : list Z) (requester : option client) (st : hstate)
  : res (option nat) :=
  let! r := find_client name requester st in
  match r with
  | None => Ok None
  | Some c => match clients st !! c with
              | None => UB
              | Some o => Ok (if IsUser o && bool_decide (c_user o ≠ None) then Some c else None)
              end
  end.

Definition hash_find_nickatserver (str : list Z) (def : option nat) (st : hstate)
  : res (option nat) :=
  let nick := (Strl.strlcpy [] str (NICKLEN + HOSTLEN + 1)).1 in
  let head := take_while (λ c, negb (c =? AT)) nick in
  let serv := match drop_while (λ c, negb (c =? AT)) nick with
              | [] => None
              | _ :: s => Some s
              end in
  let! r := find_user head None st in
  match r with
  | None => Ok None
  | Some c =>
      match serv with
      | None => Ok (Some c)
      | Some s =>
          match clients st !! c with
          | None => UB
          | Some o =>
              match c_user o with
              | None => Ok def
              | Some srv => let! x := smycmp s srv in Ok (if x =? 0 then Some c else def)
              end
          end
      end
  end.

Definition find_channel (name : list Z) (st : hstate) : res (option nat) :=
  find_in (λ c, channels st !! c) id (λ _, true) name
    (bucket (channelTable st) (hash_channel_name st name)).

Definition hash_get_chan_bucket (hashv : Z) (st : hstate) : option nat :=
  if CHAN_HASH_TABLE_SIZE <=? hashv then None
  else head (bucket (channelTable st) hashv).

Definition find_server_by_uid (uid : list Z) (st : hstate) : res (option nat) :=
  if negb (isdigit (deref uid)) then Ok None
  else hash_find_id (Strl.strlcpy [] uid (SIDLEN + 1)).1 None st.

(** The timer: the static [slot] and the slots whose clients are updated. *)
Definition WORKPERITERATION : nat := Z.to_nat (NICK_HASH_TABLE_SIZE / 24).
Fixpoint timer_slots (work : nat) (slot : Z) : list Z * Z :=
  match work with
  | O => ([], slot)
  | S w =>
      let next := if NICK_HASH_TABLE_SIZE <=? slot + 1 then 0 else slot + 1 in
      let '(l, s) := timer_slots w next in (slot :: l, s)
  end.
Definition update_known_user_cache_timer (slot : Z) (st : hstate) : list nat * Z :=
  let '(slots, slot) := timer_slots WORKPERITERATION slot in
  (concat (map (bucket (idTable st)) slots), slot).

(** ** A table is a case-insensitive map *)

Lemma linked_spec t c : linked t c = true ↔ ∃ h, c ∈ bucket t h.
Proof.
  unfold linked. rewrite existsb_exists. split.
  - intros ([h l] & Hin%list_elem_of_In & Hc%bool_decide_eq_true).
    apply elem_of_map_to_list in Hin. exists h. unfold bucket. by rewrite Hin.
  - intros [h Hc]. unfold bucket in Hc. destruct (t !! h) as [l|] eqn:E; simpl in Hc;
      [|by apply not_elem_of_nil in Hc].
    exists (h, l). rewrite <-list_elem_of_In, elem_of_map_to_list.
    split; [done|]. by apply bool_decide_eq_true_2.
Qed.

Lemma bucket_insert t h h' l :
  bucket (<[h := l]> t) h' = if decide (h' = h) then l else bucket t h'.
Proof.
  unfold bucket. destruct (decide (h' = h)) as [->|];
    [by rewrite lookup_insert_eq|by rewrite lookup_insert_ne].
Qed.

Lemma bucket_list_del t c h : bucket (list_del t c) h = filter (λ x, x ≠ c) (bucket t h).
Proof.
  unfold bucket, list_del. rewrite lookup_fmap. by destruct (t !! h).
Qed.

Lemma bucket_empty h : bucket ∅ h = [].
Proof. unfold bucket. by rewrite lookup_empty. Qed.

Lemma unlink_spec c l : NoDup l → NoDup (unlink c l) ∧ ∀ d, d ∈ unlink c l ↔ d ∈ l ∧ d ≠ c.
Proof.
  induction 1 as [|x l Hx Hl [IH1 IH2]]; simpl.
  { split; [constructor|]. intros d. rewrite elem_of_nil. tauto. }
  destruct (Nat.eqb_spec x c) as [->|Hne].
  - split; [done|]. intros d. rewrite elem_of_cons. split.
    + intros Hd. split; [auto|]. by intros ->.
    + intros [[?|?] ?]; done.
  - split.
    + constructor; [|done]. rewrite IH2. tauto.
    + intros d. rewrite !elem_of_cons, IH2. split; [intros [->|]; tauto|tauto].
Qed.

Section Table.
Context {A : Type} (get : nat → option A) (key : A → list Z) (hash : list Z → Z).
Context (hash_ci : ∀ s t, casefold s = casefold t → hash s = hash t).

(** The table [t] holds exactly the map [M] from case-folded names to
    objects, each object in the bucket of its name. *)
Record repr (t : table) (M : gmap (list Z) nat) : Prop := {
  repr_in : ∀ h c, c ∈ bucket t h ↔
    ∃ o, get c = Some o ∧ cstr (key o) ∧ hash (key o) = h ∧ M !! casefold (key o) = Some c;
  repr_dom : ∀ k c, M !! k = Some c →
    ∃ o, get c = Some o ∧ cstr (key o) ∧ casefold (key o) = k;
  repr_nodup : ∀ h, NoDup (bucket t h)
}.

Lemma find_in_spec want name l :
  cstr name → (∀ c, c ∈ l → ∃ o, get c = Some o ∧ cstr (key o)) →
  ∃ r, find_in get key want name l = Ok r ∧
    match r with
    | Some c => c ∈ l ∧ ∃ o, get c = Some o ∧ want o = true ∧ casefold (key o) = casefold name
    | None => ∀ c o, c ∈ l → get c = Some o → want o = true → casefold (key o) ≠ casefold name
    end.
Proof.
  intros Hn. induction l as [|c l IH]; intros Hl.
  { exists None. split; [done|]. by intros c o ?%not_elem_of_nil. }
  destruct IH as (r & Hr & Hspec). { intros x Hx. apply Hl. apply elem_of_cons. auto. }
  destruct (Hl c) as (o & Ho & Hk); [apply elem_of_cons; auto|].
  destruct (smycmp_spec name (key o) Hn Hk) as (x & Hx & Hiff).
  cbn [find_in]. rewrite Ho, Hx. cbn [rbind].
  destruct (want o) eqn:Hw; [destruct (Z.eqb_spec x 0) as [->|Hne]|].
  - exists (Some c). split; [done|]. split; [apply elem_of_cons; auto|]. exists o.
    split_and!; [done|done|]. symmetry. by apply Hiff.
  - exists r. split; [done|]. destruct r as [c'|].
    + destruct Hspec as [Hin ?]. split; [apply elem_of_cons; auto|done].
    + intros c' o' [->|Hin]%elem_of_cons Hg Hw'; [|exact (Hspec c' o' Hin Hg Hw')]. simplify_eq.
      intros E. apply Hne, Hiff. done.
  - exists r. split; [done|]. destruct r as [c'|].
    + destruct Hspec as [Hin ?]. split; [apply elem_of_cons; auto|done].
    + intros c' o' [->|Hin]%elem_of_cons Hg Hw'; [|exact (Hspec c' o' Hin Hg Hw')]. congruence.
Qed.

Lemma repr_linked t M c :
  repr t M → linked t c = true ↔ ∃ k, M !! k = Some c.
Proof.
  intros HR. rewrite linked_spec. split.
  - intros [h Hc]. apply (repr_in _ _ HR) in Hc as (o & _ & _ & _ & HM). eauto.
  - intros [k HM]. destruct (repr_dom _ _ HR _ _ HM) as (o & Ho & Hc & <-).
    exists (hash (key o)). apply (repr_in _ _ HR). eauto.
Qed.

Lemma find_in_repr t M want name :
  repr t M → cstr name →
  ∃ r, find_in get key want name (bucket t (hash name)) = Ok r ∧
    ∀ c, r = Some c ↔
      M !! casefold name = Some c ∧ ∃ o, get c = Some o ∧ want o = true.
Proof.
  intros HR Hn.
  destruct (find_in_spec want name (bucket t (hash name)) Hn) as (r & -> & Hr).
  { intros c Hc. apply (repr_in _ _ HR) in Hc as (o & ? & ? & _). eauto. }
  exists r. split; [done|]. intros c. split.
  - intros ->. destruct Hr as (Hin & o & Ho & Hw & Hk).
    apply (repr_in _ _ HR) in Hin as (o' & Ho' & _ & _ & HM). simplify_eq.
    rewrite Hk in HM. eauto.
  - intros (HM & o & Ho & Hw). destruct (repr_dom _ _ HR _ _ HM) as (o' & Ho' & Hc & Hk).
    simplify_eq.
    assert (c ∈ bucket t (hash name)) as Hin.
    { apply (repr_in _ _ HR). exists o. rewrite Hk. auto. }
    destruct r as [c'|]; [|by exfalso; eapply Hr].
    destruct Hr as (Hin' & o'' & Ho'' & Hw'' & Hk'').
    apply (repr_in _ _ HR) in Hin' as (o2 & Ho2 & _ & _ & HM2). simplify_eq.
    rewrite Hk'' in HM2. congruence.
Qed.

Lemma find_in_repr_all t M name :
  repr t M → cstr name →
  find_in get key (λ _, true) name (bucket t (hash name)) = Ok (M !! casefold name).
Proof.
  intros HR Hn. destruct (find_in_repr t M (λ _, true) name HR Hn) as (r & -> & Hr).
  f_equal. destruct (M !! casefold name) as [c|] eqn:E.
  - apply Hr. split; [done|]. destruct (repr_dom _ _ HR _ _ E) as (o & ? & _). eauto.
  - destruct r as [c|]; [|done]. destruct (proj1 (Hr c) eq_refl). congruence.
Qed.

Lemma repr_empty : repr ∅ ∅.
Proof.
  split.
  - intros h c. rewrite bucket_empty. split; [by intros ?%not_elem_of_nil|].
    intros (o & _ & _ & _ & H). by rewrite lookup_empty in H.
  - intros k c. by rewrite lookup_empty.
  - intros h. rewrite bucket_empty. constructor.
Qed.

Lemma repr_add t M c o :
  repr t M → get c = Some o → cstr (key o) → M !! casefold (key o) = None →
  list_add t (hash (key o)) c = Ok (<[hash (key o) := c :: bucket t (hash (key o))]> t) ∧
  repr (<[hash (key o) := c :: bucket t (hash (key o))]> t) (<[casefold (key o) := c]> M).
Proof.
  intros HR Ho Hc HM.
  assert (∀ k, M !! k ≠ Some c) as Hfresh.
  { intros k E. destruct (repr_dom _ _ HR _ _ E) as (o' & Ho' & _ & <-). congruence. }
  assert (linked t c = false) as Hl.
  { apply not_true_is_false. rewrite repr_linked by done. intros [k E]. by eapply Hfresh. }
  split; [unfold list_add; by rewrite Hl|]. split.
  - intros h d. rewrite bucket_insert. destruct (decide (h = hash (key o))) as [->|Hne].
    + rewrite elem_of_cons, (repr_in _ _ HR). split.
      * intros [->|(o' & Ho' & Hc' & Hh & HM')].
        -- exists o. by rewrite lookup_insert_eq.
        -- exists o'. rewrite lookup_insert_ne; [done|]. intros E. congruence.
      * intros (o' & Ho' & Hc' & Hh & HM'). apply lookup_insert_Some in HM' as [[E <-]|[Hne HM']];
          [by left|right; eauto].
    + rewrite (repr_in _ _ HR). split.
      * intros (o' & Ho' & Hc' & Hh & HM'). exists o'.
        rewrite lookup_insert_ne; [done|]. intros E. congruence.
      * intros (o' & Ho' & Hc' & Hh & HM').
        apply lookup_insert_Some in HM' as [[E <-]|[Hne' HM']]; [|eauto].
        exfalso. apply Hne. rewrite <-Hh. by apply hash_ci.
  - intros k d [[<- <-]|[Hne Hd]]%lookup_insert_Some; [eauto|]. by eapply repr_dom.
  - intros h. rewrite bucket_insert. destruct (decide (h = hash (key o))) as [->|Hne];
      [|by eapply repr_nodup].
    constructor; [|by eapply repr_nodup]. rewrite (repr_in _ _ HR).
    intros (o' & Ho' & _ & _ & HM'). by eapply Hfresh.
Qed.

(** Removing the object [c] of the map. *)
Lemma repr_remove t t' M c o :
  repr t M → get c = Some o → M !! casefold (key o) = Some c →
  (∀ h, NoDup (bucket t' h)) → (∀ h d, d ∈ bucket t' h ↔ d ∈ bucket t h ∧ d ≠ c) →
  repr t' (delete (casefold (key o)) M).
Proof.
  intros HR Ho HM Hnd Hin. split; [|intros k d [_ Hd]%lookup_delete_Some; by eapply repr_dom|done].
  intros h d. rewrite Hin, (repr_in _ _ HR). split.
  - intros [(o' & Ho' & Hc' & Hh & HM') Hne]. exists o'. split_and!; try done.
    apply lookup_delete_Some. split; [|done]. intros E. rewrite <-E in HM'. congruence.
  - intros (o' & Ho' & Hc' & Hh & HM'). apply lookup_delete_Some in HM' as [Hne HM'].
    split; [eauto|]. intros ->. simplify_eq.
Qed.

Lemma repr_list_del t M c o :
  repr t M → get c = Some o → M !! casefold (key o) = Some c →
  repr (list_del t c) (delete (casefold (key o)) M).
Proof.
  intros HR Ho HM. eapply repr_remove; [done|done|done| |].
  - intros h. rewrite bucket_list_del. apply NoDup_filter. by eapply repr_nodup.
  - intros h d. rewrite bucket_list_del, list_elem_of_filter. tauto.
Qed.

Lemma repr_unlink t M c o l :
  repr t M → get c = Some o → M !! casefold (key o) = Some c → t !! hash (key o) = Some l →
  repr (<[hash (key o) := unlink c l]> t) (delete (casefold (key o)) M).
Proof.
  intros HR Ho HM Hl.
  assert (bucket t (hash (key o)) = l) as Hb by (unfold bucket; by rewrite Hl).
  pose proof (repr_nodup _ _ HR (hash (key o))) as Hnd. rewrite Hb in Hnd.
  destruct (unlink_spec c l Hnd) as [Hu1 Hu2].
  eapply repr_remove; [done|done|done| |].
  - intros h. rewrite bucket_insert. case_decide; [done|]. by eapply repr_nodup.
  - intros h d. rewrite bucket_insert. case_decide as Hh; [by rewrite Hu2, Hh, Hb|].
    split; [|tauto]. intros Hd. split; [done|]. intros ->.
    apply (repr_in _ _ HR) in Hd as (o' & Ho' & _ & Hh' & _). congruence.
Qed.
End Table.

(** Objects of the table may change as long as their keys stay. *)
Lemma repr_get_ext {A} (get get' : nat → option A) key hash t M :
  repr get key hash t M → (∀ k c, M !! k = Some c → key <$> get' c = key <$> get c) →
  repr get' key hash t M.
Proof.
  intros HR Hg.
  assert (∀ g1 g2 : nat → option A, (∀ k c, M !! k = Some c → key <$> g2 c = key <$> g1 c) →
    ∀ k c o, M !! k = Some c → g1 c = Some o → ∃ o', g2 c = Some o' ∧ key o' = key o) as Hcast.
  { intros g1 g2 H12 k c o HM Ho. specialize (H12 k c HM). rewrite Ho in H12.
    destruct (g2 c) as [o'|]; simplify_eq/=. eauto. }
  split.
  - intros h c. rewrite (repr_in _ _ _ _ _ HR). split.
    + intros (o & Ho & Hc & Hh & HM). destruct (Hcast _ _ Hg _ _ _ HM Ho) as (o' & Ho' & E).
      exists o'. by rewrite E.
    + intros (o & Ho & Hc & Hh & HM).
      destruct (Hcast get' get ltac:(intros; symmetry; by eapply Hg) _ _ _ HM Ho) as (o' & Ho' & E).
      exists o'. by rewrite E.
  - intros k c HM. destruct (repr_dom _ _ _ _ _ HR _ _ HM) as (o & Ho & ? & ?).
    destruct (Hcast _ _ Hg _ _ _ HM Ho) as (o' & Ho' & E). exists o'. by rewrite E.
  - by eapply repr_nodup.
Qed.

Lemma hash_client_ci st s t :
  casefold s = casefold t → hash_client_name st s = hash_client_name st t.
Proof. intros H. unfold hash_client_name. by rewrite (siphash_casefold s t). Qed.
Lemma hash_channel_ci st s t :
  casefold s = casefold t → hash_channel_name st s = hash_channel_name st t.
Proof. intros H. unfold hash_channel_name. by rewrite (siphash_casefold s t). Qed.

(** ** The tables as maps, over runs of operations *)

(** What the server keeps, abstractly: the objects, and for each table a map
    from case-folded names to objects. *)
Record spec := Spec {
  sp_clients : gmap nat client;
  sp_channels : gmap nat (list Z);
  sp_names : gmap (list Z) nat;
  sp_ids : gmap (list Z) nat;
  sp_chans : gmap (list Z) nat
}.

Record hinv (st : hstate) (sp : spec) : Prop := {
  hinv_clients : clients st = sp_clients sp;
  hinv_channels : channels st = sp_channels sp;
  hinv_tainted : tainted st = false;
  hinv_names : repr (λ c, sp_clients sp !! c) c_name (hash_client_name st) (clientTable st) (sp_names sp);
  hinv_ids : repr (λ c, sp_clients sp !! c) c_id (hash_client_name st) (idTable st) (sp_ids sp);
  hinv_chans : repr (λ c, sp_channels sp !! c) id (hash_channel_name st) (channelTable st) (sp_chans sp)
}.

(** Calls of this file, and what the rest of the server does to the objects
    in between: create and free them, and change the name of a client while
    it is not in the name table. *)
Inductive hop :=
| HNewClient (c : nat) (o : client)
| HFreeClient (c : nat)
| HRename (c : nat) (name : list Z)
| HNewChannel (c : nat) (name : list Z)
| HAddName (c : nat)
| HDelName (c : nat)
| HAddId (c : nat)
| HDelId (c : nat)
| HAddChan (c : nat)
| HDelChan (c : nat)
| HFindClient (name : list Z) (def : option nat)
| HFindId (name : list Z) (def : option nat)
| HFindServer (name : list Z) (def : option nat)
| HFindChannel (name : list Z).

Definition set_objects (cl : gmap nat client) (ch : gmap nat (list Z)) (st : hstate) : hstate :=
  HS cl ch (clientTable st) (idTable st) (channelTable st)
     (siphashkey_nick st) (siphashkey_chan st) (siphashkey_whowas st) (tainted st).

Definition get_obj {A} (o : option A) : res A := match o with Some a => Ok a | None => UB end.

Definition rename (o : client) (name : list Z) : client :=
  Client name (c_id o) (c_status o) (c_user o).

Definition hash_op (st : hstate) (op : hop) : res (hstate * option (option nat)) :=
  match op with
  | HNewClient c o => Ok (set_objects (<[c := o]> (clients st)) (channels st) st, None)
  | HFreeClient c => Ok (set_objects (delete c (clients st)) (channels st) st, None)
  | HRename c n =>
      let! o := get_obj (clients st !! c) in
      Ok (set_objects (<[c := rename o n]> (clients st)) (channels st) st, None)
  | HNewChannel c n => Ok (set_objects (clients st) (<[c := n]> (channels st)) st, None)
  | HAddName c =>
      let! o := get_obj (clients st !! c) in
      let! st := add_to_client_hash_table (c_name o) c st in Ok (st, None)
  | HDelName c => Ok (del_from_client_hash_table c st, None)
  | HAddId c =>
      let! o := get_obj (clients st !! c) in
      let! st := add_to_id_hash_table (c_id o) c st in Ok (st, None)
  | HDelId c => Ok (del_from_id_hash_table c st, None)
  | HAddChan c =>
      let! n := get_obj (channels st !! c) in
      let! st := add_to_channel_hash_table n c st in Ok (st, None)
  | HDelChan c =>
      let! n := get_obj (channels st !! c) in
      Ok (del_from_channel_hash_table n c st, None)
  | HFindClient n def => let! r := hash_find_client n def st in Ok (st, Some r)
  | HFindId n def => let! r := hash_find_id n def st in Ok (st, Some r)
  | HFindServer n def => let! r := hash_find_server n def st in Ok (st, Some r)
  | HFindChannel n => let! r := find_channel n st in Ok (st, Some r)
  end.

(** Remove the object from a map if it is there under its own name. *)
Definition drop_key (n : list Z) (c : nat) (M : gmap (list Z) nat) : gmap (list Z) nat :=
  if decide (M !! casefold n = Some c) then delete (casefold n) M else M.

Definition or_def (o def : option nat) : option nat := match o with Some c => Some c | None => def end.

Definition is_srv (sp : spec) (c : nat) : bool :=
  match sp_clients sp !! c with Some o => IsServer o || IsMe o | None => false end.

(** The contract: names are C strings, no two entries of a table share a
    case-folded name, an object is not changed or freed while it is listed. *)
Definition spec_op (sp : spec) (op : hop) : option (spec * option (option nat)) :=
  let '(Spec cl ch names ids chans) := sp in
  match op with
  | HNewClient c o =>
      if decide (cl !! c = None ∧ cstr (c_name o) ∧ cstr (c_id o))
      then Some (Spec (<[c := o]> cl) ch names ids chans, None) else None
  | HFreeClient c =>
      o ← cl !! c;
      if decide (names !! casefold (c_name o) ≠ Some c ∧ ids !! casefold (c_id o) ≠ Some c)
      then Some (Spec (delete c cl) ch names ids chans, None) else None
  | HRename c n =>
      o ← cl !! c;
      if decide (names !! casefold (c_name o) ≠ Some c ∧ cstr n)
      then Some (Spec (<[c := rename o n]> cl) ch names ids chans, None) else None
  | HNewChannel c n =>
      if decide (ch !! c = None ∧ cstr n)
      then Some (Spec cl (<[c := n]> ch) names ids chans, None) else None
  | HAddName c =>
      o ← cl !! c;
      if decide (names !! casefold (c_name o) = None ∧ cstr (c_name o))
      then Some (Spec cl ch (<[casefold (c_name o) := c]> names) ids chans, None) else None
  | HDelName c =>
      o ← cl !! c; Some (Spec cl ch (drop_key (c_name o) c names) ids chans, None)
  | HAddId c =>
      o ← cl !! c;
      if decide (ids !! casefold (c_id o) = None ∧ cstr (c_id o))
      then Some (Spec cl ch names (<[casefold (c_id o) := c]> ids) chans, None) else None
  | HDelId c =>
      o ← cl !! c; Some (Spec cl ch names (drop_key (c_id o) c ids) chans, None)
  | HAddChan c =>
      n ← ch !! c;
      if decide (chans !! casefold n = None ∧ cstr n)
      then Some (Spec cl ch names ids (<[casefold n := c]> chans), None) else None
  | HDelChan c =>
      n ← ch !! c; Some (Spec cl ch names ids (drop_key n c chans), None)
  | HFindClient n def =>
      if decide (cstr n) then Some (sp, Some (or_def (names !! casefold n) def)) else None
  | HFindId n def =>
      if decide (cstr n) then Some (sp, Some (or_def (ids !! casefold n) def)) else None
  | HFindServer n def =>
      if decide (cstr n)
      then Some (sp, Some (match names !! casefold n with
                           | Some c => if is_srv sp c then Some c else def
                           | None => def
                           end))
      else None
  | HFindChannel n =>
      if decide (cstr n) then Some (sp, Some (chans !! casefold n)) else None
  end.

Definition hash_run (st : hstate) (ops : list hop) : res (hstate * list (option (option nat))) :=
  fold_left (λ acc op,
    let! (st, outs) := acc in
    let! (st, o) := hash_op st op in Ok (st, outs ++ [o])) ops (Ok (st, [])).
Definition spec_run (sp : spec) (ops : list hop) : option (spec * list (option (option nat))) :=
  fold_left (λ acc op,
    '(sp, outs) ← acc;
    '(sp, o) ← spec_op sp op; Some (sp, outs ++ [o])) ops (Some (sp, [])).

(** *** One operation *)

(** An unlinked object is nowhere in the map. *)
Lemma repr_not_in {A} (get : nat → option A) key hash t M c o :
  repr get key hash t M → get c = Some o → M !! casefold (key o) ≠ Some c →
  ∀ k, M !! k ≠ Some c.
Proof.
  intros HR Ho Hn k E. destruct (repr_dom _ _ _ _ _ HR _ _ E) as (o' & Ho' & _ & <-). congruence.
Qed.

Lemma repr_drop_key {A} (get : nat → option A) key hash t M c o :
  repr get key hash t M → get c = Some o →
  repr get key hash (if linked t c then list_del t c else t) (drop_key (key o) c M).
Proof.
  intros HR Ho. unfold drop_key. destruct (decide (M !! casefold (key o) = Some c)) as [E|E].
  - rewrite (proj2 (repr_linked _ _ _ _ _ c HR)) by eauto. by apply repr_list_del.
  - destruct (linked t c) eqn:El; [|done]. apply (repr_linked _ _ _ _ _ _ HR) in El as [k Hk].
    by destruct (repr_not_in _ _ _ _ _ _ _ HR Ho E k).
Qed.

Ltac hinv_split := split; cbn [clients channels tainted clientTable idTable channelTable
  sp_clients sp_channels sp_names sp_ids sp_chans set_objects set_clientTable set_idTable
  set_channelTable]; try done.

Lemma hop_objects st sp cl ch :
  hinv st sp →
  (∀ k c, sp_names sp !! k = Some c → c_name <$> cl !! c = c_name <$> sp_clients sp !! c) →
  (∀ k c, sp_ids sp !! k = Some c → c_id <$> cl !! c = c_id <$> sp_clients sp !! c) →
  (∀ k c, sp_chans sp !! k = Some c → ch !! c = sp_channels sp !! c) →
  hinv (set_objects cl ch st) (Spec cl ch (sp_names sp) (sp_ids sp) (sp_chans sp)).
Proof.
  intros H Hn Hi Hc. destruct H. hinv_split.
  - by eapply repr_get_ext.
  - by eapply repr_get_ext.
  - eapply repr_get_ext; [done|]. intros k c HM. by rewrite (Hc k c HM).
Qed.

Definition refines (st : hstate) (op : hop) (sp : spec) (x : option (option nat)) : Prop :=
  ∃ st', hash_op st op = Ok (st', x) ∧ hinv st' sp.

Lemma op_objects_refines st sp op sp' x :
  hinv st sp → spec_op sp op = Some (sp', x) →
  match op with
  | HNewClient _ _ | HFreeClient _ | HRename _ _ | HNewChannel _ _ => refines st op sp' x
  | _ => True
  end.
Proof.
  intros H. pose proof H as [Hcl Hch _ HN HI HC]. destruct sp as [cl ch names ids chans].
  unfold refines. destruct op as [c o|c|c n|c n| | | | | | | | | | ]; try done; cbn [spec_op hash_op];
    simpl in Hcl, Hch, HN, HI, HC; rewrite ?Hcl, ?Hch.
  - case_decide as Hd; [|done]. intros [= <- <-]. destruct Hd as (Hf & _).
    eexists. split; [done|]. apply (hop_objects st _ (<[c:=o]> cl) ch H); simpl; [| |done].
    + intros k d HM. rewrite lookup_insert_ne; [done|]. intros ->.
      destruct (repr_dom _ _ _ _ _ HN _ _ HM) as (? & ? & _). congruence.
    + intros k d HM. rewrite lookup_insert_ne; [done|]. intros ->.
      destruct (repr_dom _ _ _ _ _ HI _ _ HM) as (? & ? & _). congruence.
  - destruct (cl !! c) as [o|] eqn:Ho; [|done]. simpl. case_decide as Hd; [|done].
    intros [= <- <-]. destruct Hd as (Hn & Hi). eexists. split; [done|].
    apply (hop_objects st _ (delete c cl) ch H); simpl; [| |done].
    + intros k d HM. rewrite lookup_delete_ne; [done|]. intros ->.
      by eapply (repr_not_in _ _ _ _ _ d o HN).
    + intros k d HM. rewrite lookup_delete_ne; [done|]. intros ->.
      by eapply (repr_not_in _ _ _ _ _ d o HI).
  - destruct (cl !! c) as [o|] eqn:Ho; [|done]. simpl. case_decide as Hd; [|done].
    intros [= <- <-]. destruct Hd as (Hn & _). eexists. split; [done|].
    apply (hop_objects st _ (<[c:=rename o n]> cl) ch H); simpl; [| |done].
    + intros k d HM. rewrite lookup_insert_ne; [done|]. intros ->.
      by eapply (repr_not_in _ _ _ _ _ d o HN).
    + intros k d HM. destruct (decide (c = d)) as [->|]; [|by rewrite lookup_insert_ne].
      by rewrite lookup_insert_eq, Ho.
  - case_decide as Hd; [|done]. intros [= <- <-]. destruct Hd as (Hf & _).
    eexists. split; [done|]. apply (hop_objects st _ cl (<[c:=n]> ch) H); simpl; [done|done|].
    intros k d HM. rewrite lookup_insert_ne; [done|]. intros ->.
    destruct (repr_dom _ _ _ _ _ HC _ _ HM) as (? & ? & _). congruence.
Qed.

Lemma op_table_refines st sp op sp' x :
  hinv st sp → spec_op sp op = Some (sp', x) →
  match op with
  | HAddName _ | HDelName _ | HAddId _ | HDelId _ | HAddChan _ | HDelChan _ => refines st op sp' x
  | _ => True
  end.
Proof.
  intros H. pose proof H as [Hcl Hch Ht HN HI HC]. destruct sp as [cl ch names ids chans].
  unfold refines. destruct op as [ | | | |c|c|c|c|c|c| | | | ]; try done; cbn [spec_op hash_op];
    simpl in Hcl, Hch, HN, HI, HC; rewrite ?Hcl, ?Hch.
  - destruct (cl !! c) as [o|] eqn:Ho; [|done]. simpl. case_decide as Hd; [|done].
    intros [= <- <-]. destruct Hd as [HM Hc].
    destruct (repr_add _ _ _ (hash_client_ci st) _ _ c o HN Ho Hc HM) as [Ha HR].
    unfold add_to_client_hash_table. rewrite Ht, Ha. eexists. split; [done|]. by hinv_split.
  - destruct (cl !! c) as [o|] eqn:Ho; [|done]. simpl. intros [= <- <-]. eexists. split; [done|].
    pose proof (repr_drop_key _ _ _ _ _ c o HN Ho) as HR. unfold del_from_client_hash_table.
    destruct (linked (clientTable st) c); by hinv_split.
  - destruct (cl !! c) as [o|] eqn:Ho; [|done]. simpl. case_decide as Hd; [|done].
    intros [= <- <-]. destruct Hd as [HM Hc].
    destruct (repr_add _ _ _ (hash_client_ci st) _ _ c o HI Ho Hc HM) as [Ha HR].
    unfold add_to_id_hash_table. rewrite Ha. eexists. split; [done|]. by hinv_split.
  - destruct (cl !! c) as [o|] eqn:Ho; [|done]. simpl. intros [= <- <-]. eexists. split; [done|].
    pose proof (repr_drop_key _ _ _ _ _ c o HI Ho) as HR. unfold del_from_id_hash_table.
    destruct (linked (idTable st) c); by hinv_split.
  - destruct (ch !! c) as [n|] eqn:Ho; [|done]. simpl. case_decide as Hd; [|done].
    intros [= <- <-]. destruct Hd as [HM Hc].
    destruct (repr_add _ _ _ (hash_channel_ci st) _ _ c n HC Ho Hc HM) as [Ha HR].
    unfold id in Ha, HR. unfold add_to_channel_hash_table. rewrite Ha.
    eexists. split; [done|]. by hinv_split.
  - destruct (ch !! c) as [n|] eqn:Ho; [|done]. simpl. intros [= <- <-]. eexists. split; [done|].
    unfold del_from_channel_hash_table, drop_key.
    destruct (decide (chans !! casefold n = Some c)) as [E|E].
    + destruct (channelTable st !! hash_channel_name st n) as [l|] eqn:El.
      * pose proof (repr_unlink _ _ _ _ _ c n l HC Ho E El) as HR. unfold id in HR. by hinv_split.
      * exfalso. assert (c ∈ bucket (channelTable st) (hash_channel_name st n)) as Hin.
        { apply (repr_in _ _ _ _ _ HC). exists n. split_and!; try done.
          by destruct (repr_dom _ _ _ _ _ HC _ _ E) as (? & ? & ? & _); simplify_eq. }
        unfold bucket in Hin. rewrite El in Hin. by apply not_elem_of_nil in Hin.
    + destruct (channelTable st !! hash_channel_name st n) as [l|] eqn:El; [|by hinv_split].
      assert (unlink c l = l) as ->; [|rewrite insert_id by done; by hinv_split].
      assert (c ∉ l) as Hnl.
      { intros Hin. assert (c ∈ bucket (channelTable st) (hash_channel_name st n)) as Hb
          by (unfold bucket; by rewrite El).
        apply (repr_in _ _ _ _ _ HC) in Hb as (n' & Hn' & _ & _ & HM). by simplify_eq. }
      clear -Hnl. induction l as [|y l IH]; [done|]. simpl.
      apply not_elem_of_cons in Hnl as [? ?].
      destruct (Nat.eqb_spec y c); [done|]. by rewrite IH.
Qed.

Lemma op_find_refines st sp op sp' x :
  hinv st sp → spec_op sp op = Some (sp', x) →
  match op with
  | HFindClient _ _ | HFindId _ _ | HFindServer _ _ | HFindChannel _ => refines st op sp' x
  | _ => True
  end.
Proof.
  intros H. pose proof H as [Hcl Hch Ht HN HI HC]. destruct sp as [cl ch names ids chans].
  unfold refines. destruct op as [ | | | | | | | | | |n def|n def|n def|n]; try done;
    cbn [spec_op hash_op]; simpl in Hcl, Hch, HN, HI, HC;
    (case_decide as Hn; [|done]); intros [= <- <-]; exists st; (split; [|done]).
  - unfold hash_find_client. rewrite Hcl.
    by rewrite (find_in_repr_all _ _ _ (hash_client_ci st) _ _ _ HN Hn).
  - unfold hash_find_id. rewrite Hcl. by rewrite (find_in_repr_all _ _ _ (hash_client_ci st) _ _ _ HI Hn).
  - unfold hash_find_server. rewrite Hcl.
    destruct (find_in_repr _ _ _ (hash_client_ci st) _ _ (λ c, IsServer c || IsMe c) n HN Hn) as (r & -> & Hr).
    cbn [or_default rbind]. unfold is_srv. simpl. repeat f_equal.
    destruct (names !! casefold n) as [c|] eqn:E.
    + destruct (repr_dom _ _ _ _ _ HN _ _ E) as (o & Ho & _). rewrite Ho.
      destruct (IsServer o || IsMe o) eqn:Hs.
      * rewrite (proj2 (Hr c)); [done|]. eauto.
      * destruct r as [c'|]; [|done]. destruct (proj1 (Hr c') eq_refl) as (? & o' & ? & ?).
        simplify_eq. congruence.
    + destruct r as [c'|]; [|done]. destruct (proj1 (Hr c') eq_refl) as (? & _). congruence.
  - unfold find_channel. rewrite Hch. by rewrite (find_in_repr_all _ _ _ (hash_channel_ci st) _ _ _ HC Hn).
Qed.

Lemma hash_op_refines st sp op sp' x :
  hinv st sp → spec_op sp op = Some (sp', x) → refines st op sp' x.
Proof.
  intros H Hs. pose proof (op_objects_refines _ _ _ _ _ H Hs). pose proof (op_table_refines _ _ _ _ _ H Hs).
  pose proof (op_find_refines _ _ _ _ _ H Hs). by destruct op.
Qed.

Lemma hash_run_fold st sp outs ops sp' outs' :
  hinv st sp →
  fold_left (λ acc op, '(sp, outs) ← acc; '(sp, o) ← spec_op sp op; Some (sp, outs ++ [o]))
    ops (Some (sp, outs)) = Some (sp', outs') →
  ∃ st', fold_left (λ acc op, let! (st, outs) := acc in
      let! (st, o) := hash_op st op in Ok (st, outs ++ [o])) ops (Ok (st, outs)) = Ok (st', outs')
    ∧ hinv st' sp'.
Proof.
  revert st sp outs. induction ops as [|op ops IH]; intros st sp outs H; simpl.
  - intros [= <- <-]. by exists st.
  - destruct (spec_op sp op) as [[sp1 x]|] eqn:E; simpl.
    + destruct (hash_op_refines st sp op sp1 x H E) as (st1 & -> & H1). simpl. by apply IH.
    + intros Hf. exfalso. clear -Hf. induction ops as [|op' ops IH]; [done|]. by apply IH.
Qed.

Definition empty_state : hstate := HS ∅ ∅ ∅ ∅ ∅ [] [] [] false.
Definition spec0 : spec := Spec ∅ ∅ ∅ ∅ ∅.

Lemma hinv_init random : hinv (init_hash random empty_state) spec0.
Proof. split; try done; apply repr_empty. Qed.

(** C25.  The three hash tables implement case-insensitive maps.  Whatever
    the random keys are, any run of insertions, removals, renames and lookups
    that respects the contract (no two live entries of a table with equal
    names, an object is not renamed or freed while it is listed) behaves on
    the tables exactly as on three maps from case-folded names to objects:
    no list is corrupted, no freed object is looked at, and every lookup of
    names, IDs, servers and channels, in any spelling, returns what the map
    holds. *)
Theorem hash_tables_refine_maps random ops sp outs :
  spec_run spec0 ops = Some (sp, outs) →
  ∃ st, hash_run (init_hash random empty_state) ops = Ok (st, outs) ∧ hinv st sp.
Proof. apply hash_run_fold, hinv_init. Qed.

Definition demo_user : client := Client (bs "Alice") (bs "001AAAAAA") ST_USER (Some (bs "irc.one")).
Definition demo_server : client := Client (bs "irc.one") (bs "001") ST_SERVER None.
Definition demo_ops : list hop :=
  [HNewClient 1 demo_user; HNewClient 2 demo_server; HAddName 1; HAddName 2; HAddId 1; HAddId 2;
   HFindClient (bs "aLICE") None; HDelName 1; HRename 1 (bs "Bob"); HAddName 1;
   HFindClient (bs "alice") None; HFindServer (bs "IRC.ONE") None; HFindId (bs "001aaaaaa") None].

Lemma hash_tables_refine_maps_witness :
  ∃ st sp, hash_run (init_hash (seqZ 1 48) empty_state) demo_ops =
    Ok (st, [None; None; None; None; None; None; Some (Some 1%nat); None; None; None;
             Some None; Some (Some 2%nat); Some (Some 1%nat)]) ∧ hinv st sp.
Proof.
  edestruct (hash_tables_refine_maps (seqZ 1 48) demo_ops) as (st & H & Hi);
    [vm_compute; reflexivity|].
  exists st. eexists. split; [exact H|exact Hi].
Defined.

(** ** The lookup functions *)

Definition uses_ids (requester : option client) : bool :=
  match requester with None => true | Some r => IsServer r end.

(** Keep a result if its object satisfies a test. *)
Definition keep (sp : spec) (test : client → bool) (r : option nat) : option nat :=
  c ← r; o ← sp_clients sp !! c; if test o then Some c else None.

Lemma hash_find_id_spec st sp name def :
  hinv st sp → cstr name → hash_find_id name def st = Ok (or_def (sp_ids sp !! casefold name) def).
Proof.
  intros H Hn. unfold hash_find_id. rewrite (hinv_clients _ _ H).
  by rewrite (find_in_repr_all _ _ _ (hash_client_ci st) _ _ _ (hinv_ids _ _ H) Hn).
Qed.

Lemma find_client_spec st sp name req :
  hinv st sp → cstr name →
  find_client name req st =
    Ok (or_def (if uses_ids req then sp_ids sp !! casefold name else None)
               (sp_names sp !! casefold name)).
Proof.
  intros H Hn. unfold find_client.
  assert (hash_find_client name None st = Ok (sp_names sp !! casefold name)) as Hname.
  { unfold hash_find_client. rewrite (hinv_clients _ _ H).
    rewrite (find_in_repr_all _ _ _ (hash_client_ci st) _ _ _ (hinv_names _ _ H) Hn).
    cbn [or_default rbind]. by destruct (sp_names sp !! casefold name). }
  rewrite !(hash_find_id_spec st sp) by done.
  destruct req as [r|]; simpl; [destruct (IsServer r)|]; simpl; [|done|];
    destruct (sp_ids sp !! casefold name); simpl; done.
Qed.

(** Everything [find_client] returns is a live object. *)
Lemma find_client_live st sp name req c :
  hinv st sp → cstr name → find_client name req st = Ok (Some c) →
  ∃ o, clients st !! c = Some o ∧ sp_clients sp !! c = Some o.
Proof.
  intros H Hn Hf. rewrite (find_client_spec st sp) in Hf by done.
  rewrite (hinv_clients _ _ H). destruct (uses_ids req); simpl in Hf.
  - destruct (sp_ids sp !! casefold name) as [c'|] eqn:E; simpl in Hf; injection Hf as Hf.
    + subst c'. destruct (repr_dom _ _ _ _ _ (hinv_ids _ _ H) _ _ E) as (o & ? & _). eauto.
    + destruct (repr_dom _ _ _ _ _ (hinv_names _ _ H) _ _ Hf) as (o & ? & _). eauto.
  - injection Hf as E. destruct (repr_dom _ _ _ _ _ (hinv_names _ _ H) _ _ E) as (o & ? & _). eauto.
Qed.

Definition is_person (o : client) : bool := IsUser o && bool_decide (c_user o ≠ None).

Lemma find_user_spec st sp name req :
  hinv st sp → cstr name →
  find_user name req st =
    Ok (keep sp is_person (or_def (if uses_ids req then sp_ids sp !! casefold name else None)
                                  (sp_names sp !! casefold name))).
Proof.
  intros H Hn. unfold find_user. pose proof (find_client_live st sp name req) as Hlive.
  rewrite (find_client_spec st sp name req H Hn) in *. cbn [rbind].
  destruct (or_def _ _) as [c|]; [|done].
  destruct (Hlive c H Hn eq_refl) as (o & -> & Ho). unfold keep. simpl. by rewrite Ho.
Qed.

(** On every reachable state the lookup functions return live objects
    of the right kind: [find_client] prefers the ID table when the requester
    is absent or a server and falls back to the name table, [find_user]
    returns only users that are fully set up, and [find_server] only servers,
    searching IDs and names whoever asks. *)
Theorem find_functions_correct st sp name req :
  hinv st sp → cstr name →
  let by_id := sp_ids sp !! casefold name in
  let by_name := sp_names sp !! casefold name in
  let found := or_def (if uses_ids req then by_id else None) by_name in
  find_client name req st = Ok found ∧
  find_user name req st = Ok (keep sp is_person found) ∧
  find_server (Some name) req st =
    Ok (keep sp (λ o, IsServer o || IsMe o) (or_def by_id by_name)) ∧
  find_server None req st = Ok None.
Proof.
  intros H Hn by_id by_name found. split_and!; [by apply find_client_spec|by apply find_user_spec| |done].
  unfold find_server. pose proof (find_client_live st sp name None) as Hlive.
  rewrite (find_client_spec st sp name None H Hn) in *. cbn [rbind uses_ids].
  fold by_id by_name. destruct (or_def by_id by_name) as [c|] eqn:E; [|done].
  destruct (Hlive c H Hn) as (o & -> & Ho); [simpl; by rewrite <-E|].
  unfold keep. simpl. by rewrite Ho.
Qed.

Definition demo_setup : list hop :=
  [HNewClient 1 demo_user; HNewClient 2 demo_server; HAddName 1; HAddName 2; HAddId 1; HAddId 2].
Definition demo_state : res (hstate * list (option (option nat))) :=
  hash_run (init_hash (seqZ 1 48) empty_state) demo_setup.
Definition demo_spec : spec :=
  Spec (<[2%nat := demo_server]> {[1%nat := demo_user]}) ∅
    (<[bs "irc.one" := 2%nat]> {[bs "alice" := 1%nat]})
    (<[bs "001" := 2%nat]> {[bs "001aaaaaa" := 1%nat]}) ∅.

Lemma demo_state_inv : ∃ st, demo_state = Ok (st, replicate 6 None) ∧ hinv st demo_spec.
Proof. apply (hash_run_fold _ spec0); [apply hinv_init|vm_compute; reflexivity]. Qed.

Lemma find_functions_correct_witness :
  ∃ st, hinv st demo_spec ∧ find_user (bs "ALICE") (Some demo_user) st = Ok (Some 1%nat).
Proof.
  destruct demo_state_inv as (st & _ & Hi). exists st. split; [exact Hi|].
  destruct (find_functions_correct st demo_spec (bs "ALICE") (Some demo_user) Hi) as (_ & H & _);
    [apply (bool_decide_unpack _); vm_compute; reflexivity|].
  rewrite H. vm_compute. reflexivity.
Defined.

(** The documentation of [find_server] says the ID table is only searched for
    servers; the requester is ignored. *)
Theorem find_server_ignores_requester :
  ∃ st outs, demo_state = Ok (st, outs) ∧ IsServer demo_user = false ∧
    find_server (Some (bs "001")) (Some demo_user) st = Ok (Some 2%nat).
Proof.
  destruct demo_state_inv as (st & Hs & Hi). eexists st, _. split_and!; [exact Hs|done|].
  assert (cstr (bs "001")) as Hc by (apply (bool_decide_unpack _); vm_compute; reflexivity).
  unfold find_server. rewrite (find_client_spec st demo_spec _ _ Hi Hc).
  replace (or_def _ _) with (Some 2%nat) by (vm_compute; reflexivity). cbn [rbind].
  by rewrite (hinv_clients _ _ Hi).
Qed.

(** For any text the lookup returns, and what it returns is live. *)
Lemma hash_find_nickatserver_live st sp str :
  hinv st sp → cstr str →
  (∀ c o s, sp_clients sp !! c = Some o → c_user o = Some s → cstr s) →
  ∃ r, hash_find_nickatserver str None st = Ok r ∧
    ∀ c, r = Some c → ∃ o, sp_clients sp !! c = Some o.
Proof.
  intros H Hs Huser. unfold hash_find_nickatserver.
  set (nick := (Strl.strlcpy [] str (NICKLEN + HOSTLEN + 1)).1).
  assert (cstr nick) as Hn by (unfold nick; rewrite Strl.strlcpy_fst by lia; auto with obby).
  rewrite <-(take_drop_while (λ c, negb (c =? AT)) nick) in Hn. apply Forall_app in Hn as [Hh Ht].
  rewrite (find_user_spec st sp _ None H Hh). cbn [rbind].
  destruct (keep _ _ _) as [c|] eqn:Ek; [|by exists None].
  assert (∃ o, sp_clients sp !! c = Some o) as [o Ho].
  { unfold keep in Ek. apply bind_Some in Ek as (c' & _ & Ek). apply bind_Some in Ek as (o & Ho & Ek).
    destruct (is_person o); simplify_eq. eauto. }
  destruct (drop_while _ nick) as [|x s]; [exists (Some c); split; [done|]; intros ? [= <-]; eauto|].
  rewrite (hinv_clients _ _ H), Ho. destruct (c_user o) as [srv|] eqn:Eu; [|by exists None].
  apply cstr_cons_inv in Ht as [_ Ht].
  destruct (smycmp_spec s srv Ht ltac:(by eapply Huser)) as (y & -> & _). cbn [rbind].
  destruct (y =? 0); [exists (Some c)|by exists None]. split; [done|]. intros ? [= <-]. eauto.
Qed.

(** [hash_find_nickatserver]: for nick@server (or a bare nick)
    that fits its buffer, the user is found by nick, and a server part must
    name the user's server, in any case; a wrong server gives the default,
    an unknown nick gives NULL. *)
Theorem hash_find_nickatserver_correct st sp nick serv def :
  hinv st sp → cstr nick → AT ∉ nick → (∀ s, serv = Some s → cstr s) →
  (∀ c o s, sp_clients sp !! c = Some o → c_user o = Some s → cstr s) →
  let str := nick ++ (match serv with Some s => AT :: s | None => [] end) in
  (length str ≤ NICKLEN + HOSTLEN)%nat →
  ∃ u, find_user nick None st = Ok u ∧
    hash_find_nickatserver str def st =
      Ok (match u with
          | None => None
          | Some c =>
              match serv with
              | None => Some c
              | Some s =>
                  if decide ((o ← sp_clients sp !! c; casefold <$> c_user o) = Some (casefold s))
                  then Some c else def
              end
          end).
Proof.
  intros H Hnick Hat Hserv Huser str Hlen. unfold hash_find_nickatserver.
  assert (Forall (λ c, negb (c =? AT) = true) nick) as Hn.
  { apply Forall_forall. intros c Hc. destruct (Z.eqb_spec c AT) as [->|]; [|done].
    done. }
  assert ((Strl.strlcpy [] str (NICKLEN + HOSTLEN + 1)).1 = str) as ->.
  { rewrite Strl.strlcpy_fst by lia. apply take_ge. lia. }
  assert (take_while (λ c, negb (c =? AT)) str = nick) as ->.
  { unfold str. rewrite take_while_app by done. destruct serv; simpl; by rewrite app_nil_r. }
  assert (drop_while (λ c, negb (c =? AT)) str =
    match serv with Some s => AT :: s | None => [] end) as ->.
  { unfold str. rewrite drop_while_app by done. by destruct serv. }
  pose proof (find_user_spec st sp nick None H Hnick) as Hu. rewrite Hu. cbn [rbind].
  eexists. split; [done|]. destruct (keep _ _ _) as [c|] eqn:Ek; [|by destruct serv].
  destruct serv as [s|]; [|done].
  assert (∃ o srv, sp_clients sp !! c = Some o ∧ c_user o = Some srv) as (o & srv & Ho & Hs).
  { unfold keep in Ek. apply bind_Some in Ek as (c' & _ & Ek). apply bind_Some in Ek as (o & Ho & Ek).
    destruct (is_person o) eqn:Ep; simplify_eq. exists o.
    apply andb_true_iff in Ep as [_ Ep%bool_decide_eq_true].
    destruct (c_user o) as [srv|]; [|done]. eauto. }
  rewrite (hinv_clients _ _ H), Ho, Hs.
  destruct (smycmp_spec s srv) as (x & -> & Hx); [by apply Hserv|by eapply Huser|]. cbn [rbind].
  f_equal. destruct (Z.eqb_spec x 0) as [->|Hne].
  - rewrite decide_True; [done|]. simpl. rewrite Hs. simpl. f_equal.
    symmetry. by apply Hx.
  - rewrite decide_False; [done|]. simpl. rewrite Hs. simpl. intros [= E].
    apply Hne, Hx. done.
Qed.

Lemma hash_find_nickatserver_witness :
  ∃ st, hash_find_nickatserver (bs "alice@IRC.One") None st = Ok (Some 1%nat).
Proof.
  destruct demo_state_inv as (st & _ & Hi). exists st.
  destruct (hash_find_nickatserver_correct st demo_spec (bs "alice") (Some (bs "IRC.One")) None Hi)
    as (u & Hf & He).
  - apply (bool_decide_unpack _); vm_compute; reflexivity.
  - apply (bool_decide_unpack _); vm_compute; reflexivity.
  - intros s [= <-]. apply (bool_decide_unpack _); vm_compute; reflexivity.
  - intros c o s Ho Hs. cbn [sp_clients demo_spec] in Ho.
    apply lookup_insert_Some in Ho as [[_ <-]|[_ Ho]]; [done|].
    apply lookup_singleton_Some in Ho as [_ <-]. injection Hs as <-.
    apply (bool_decide_unpack _); vm_compute; reflexivity.
  - vm_compute. lia.
  - assert (cstr (bs "alice")) as Hc by (apply (bool_decide_unpack _); vm_compute; reflexivity).
    rewrite (find_user_spec st demo_spec _ _ Hi Hc) in Hf. vm_compute in Hf. injection Hf as <-. exact He.
Defined.

(** ** The timer *)

(** The slots of [n] consecutive calls of the timer, and the static [slot]. *)
Fixpoint timer_calls (n : nat) (slot : Z) : list Z * Z :=
  match n with
  | O => ([], slot)
  | S n => let '(l, slot) := timer_slots WORKPERITERATION slot in
           let '(l', slot) := timer_calls n slot in (l ++ l', slot)
  end.

Lemma timer_slots_spec n slot :
  0 ≤ slot < NICK_HASH_TABLE_SIZE →
  timer_slots n slot = (map (λ i, (slot + Z.of_nat i) mod NICK_HASH_TABLE_SIZE) (seq 0 n),
                        (slot + Z.of_nat n) mod NICK_HASH_TABLE_SIZE).
Proof.
  revert slot. induction n as [|n IH]; intros slot Hs.
  { cbn [timer_slots seq map]. rewrite Z.add_0_r, Z.mod_small by done. done. }
  cbn [timer_slots]. set (next := if _ <=? _ then 0 else slot + 1).
  assert (0 ≤ next < NICK_HASH_TABLE_SIZE) as Hnext.
  { unfold next. unfold NICK_HASH_TABLE_SIZE in *. bool_cases. }
  assert (∀ k, (next + k) mod NICK_HASH_TABLE_SIZE = (slot + 1 + k) mod NICK_HASH_TABLE_SIZE) as Hk.
  { intros k. unfold next. destruct (Z.leb_spec NICK_HASH_TABLE_SIZE (slot + 1)); [|done].
    replace (slot + 1 + k) with (0 + k + 1 * NICK_HASH_TABLE_SIZE) by lia.
    by rewrite Z.mod_add by done. }
  rewrite IH by done. cbn [seq map]. f_equal.
  - f_equal; [rewrite Z.add_0_r, Z.mod_small by done; done|]. rewrite <-seq_shift, map_map.
    apply map_ext. intros i. rewrite Hk. f_equal. lia.
  - rewrite Hk. f_equal. lia.
Qed.

Lemma seq_add_map w j k : seq (w + j) k = map (Nat.add w) (seq j k).
Proof.
  revert j. induction k as [|k IH]; intros j; [done|]. simpl. by rewrite <-IH, Nat.add_succ_r.
Qed.

Lemma timer_calls_spec n slot :
  0 ≤ slot < NICK_HASH_TABLE_SIZE →
  timer_calls n slot = timer_slots (n * WORKPERITERATION) slot.
Proof.
  revert slot. induction n as [|n IH]; intros slot Hs; [done|].
  cbn [timer_calls Nat.mul]. rewrite !timer_slots_spec by done.
  rewrite IH by (apply Z.mod_pos_bound; done). rewrite timer_slots_spec by (apply Z.mod_pos_bound; done).
  rewrite seq_app, map_app. f_equal.
  - f_equal. rewrite (Nat.add_comm 0), seq_add_map, map_map. apply map_ext. intros i.
    rewrite Zplus_mod_idemp_l. f_equal. lia.
  - rewrite Zplus_mod_idemp_l. f_equal. lia.
Qed.

(** The timer that refreshes the known-user status never leaves the
    table: wherever it stands, 25 consecutive calls visit every slot, hence
    every listed client; 24 calls do not, since 24 does not divide the table
    size. *)
Theorem timer_visits_all slot h :
  0 ≤ slot < NICK_HASH_TABLE_SIZE → 0 ≤ h < NICK_HASH_TABLE_SIZE →
  h ∈ (timer_calls 25 slot).1 ∧ Forall (λ s, 0 ≤ s < NICK_HASH_TABLE_SIZE) (timer_calls 25 slot).1 ∧
  (slot + 32760 ≤ h < slot + 32768 → h ∉ (timer_calls 24 slot).1).
Proof.
  intros Hs Hh. rewrite !timer_calls_spec, !timer_slots_spec by done. cbn [fst].
  assert (Z.of_nat WORKPERITERATION = 1365) as HW by done. split_and!.
  - apply list_elem_of_fmap. exists (Z.to_nat ((h - slot) mod NICK_HASH_TABLE_SIZE)).
    pose proof (Z.mod_pos_bound (h - slot) NICK_HASH_TABLE_SIZE ltac:(done)) as Hb.
    rewrite Z2Nat.id by lia. split.
    + rewrite Zplus_mod_idemp_r. replace (slot + (h - slot)) with h by lia.
      by rewrite Z.mod_small.
    + apply elem_of_seq. unfold NICK_HASH_TABLE_SIZE in *. lia.
  - apply Forall_fmap, Forall_true. intros i. simpl. apply Z.mod_pos_bound. done.
  - intros Hr Hin. apply list_elem_of_fmap in Hin as (i & E & Hi%elem_of_seq).
    unfold NICK_HASH_TABLE_SIZE in *. rewrite Z.mod_small in E by lia. lia.
Qed.

Lemma timer_visits_all_witness :
  32767 ∈ (timer_calls 25 0).1 ∧ 32767 ∉ (timer_calls 24 0).1.
Proof.
  destruct (timer_visits_all 0 32767) as (H & _ & Hn); [unfold NICK_HASH_TABLE_SIZE; lia..|].
  split; [exact H|]. apply Hn. lia.
Defined.
