(* ===== verification/Dlist.v ===== *)
(** * Doubly linked lists (src/list.c, src/whowas.c)

    Items are numbers that stand for addresses; the [next] and [prev] fields
    of all items are a map, and writing through a pointer to an item that does
    not exist is [UB].  [dlist] relates the pointers to the sequence of items;
    every operation is proved to implement the operation on sequences and to
    leave all other items alone. *)

From stdpp Require Import base tactics list numbers strings gmap.
From Stdlib Require Import ZArith Lia Sorted.
From S2P Require Import Prelude.

Local Open Scope Z_scope.

(** [next] and [prev] of every item. *)
Abbreviation links := (gmap nat (option nat * option nat)).

Definition get_links (L : links) (x : nat) : res (option nat * option nat) :=
  match L !! x with Some np => Ok np | None => UB end.
Definition set_next (L : links) (x : nat) (n : option nat) : res links :=
  match L !! x with Some (_, p) => Ok (<[x := (n, p)]> L) | None => UB end.
Definition set_prev (L : links) (x : nat) (p : option nat) : res links :=
  match L !! x with Some (n, _) => Ok (<[x := (n, p)]> L) | None => UB end.
(** The same, behind a test that the pointer is not NULL. *)
Definition set_next_opt (L : links) (x : option nat) (n : option nat) : res links :=
  match x with Some x => set_next L x n | None => Ok L end.
Definition set_prev_opt (L : links) (x : option nat) (p : option nat) : res links :=
  match x with Some x => set_prev L x p | None => Ok L end.

(** ** src/list.c *)

Definition add_ListItem (item : nat) (list : option nat) (L : links) : res (option nat * links) :=
  let! L := set_next L item list in
  let! L := set_prev L item None in
  let! L := set_prev_opt L list (Some item) in
  Ok (Some item, L).

(** [for (l = *list; l->next; l = l->next);] *)
Fixpoint walk_last (fuel : nat) (L : links) (l : nat) : res nat :=
  match fuel with
  | O => NoFuel
  | S f =>
      let! (n, _) := get_links L l in
      match n with Some n => walk_last f L n | None => Ok l end
  end.

Definition append_ListItem (item : nat) (list : option nat) (L : links)
  : res (option nat * links) :=
  match list with
  | None => Ok (Some item, L)
  | Some h =>
      let! l := walk_last (S (size L)) L h in
      let! L := set_next L l (Some item) in
      let! L := set_prev L item (Some l) in
      Ok (list, L)
  end.

Definition del_ListItem (item : option nat) (list : option nat) (L : links)
  : res (option nat * links) :=
  match item with
  | None => Ok (list, L)
  | Some it =>
      let! (n, p) := get_links L it in
      let! L := set_next_opt L p n in
      let! (n, p) := get_links L it in
      let! L := set_prev_opt L n p in
      let! (n, _) := get_links L it in
      let list := if decide (list = Some it) then n else list in
      let! L := set_prev L it None in
      let! L := set_next L it None in
      Ok (list, L)
  end.

(** The search of [add_ListItemPrio]: the first item with at least the
    priority, and the last item looked at. *)
Fixpoint find_prio (fuel : nat) (prio : nat → Z) (L : links) (priority : Z)
    (x last : option nat) : res (option nat * option nat) :=
  match fuel with
  | O => NoFuel
  | S f =>
      match x with
      | None => Ok (None, last)
      | Some y =>
          if priority <=? prio y then Ok (Some y, Some y)
          else let! (n, _) := get_links L y in find_prio f prio L priority n (Some y)
      end
  end.

Definition add_ListItemPrio (new : nat) (list : option nat) (prio : nat → Z) (priority : Z)
    (L : links) : res (option nat * links) :=
  match list with
  | None => Ok (Some new, L)
  | Some _ =>
      let! (x, last) := find_prio (S (S (size L))) prio L priority list None in
      match x with
      | Some x =>
          let! (_, xp) := get_links L x in
          match xp with
          | Some y =>
              let! L := set_prev L new (Some y) in
              let! L := set_next L new (Some x) in
              let! L := set_next L y (Some new) in
              let! L := set_prev L x (Some new) in
              Ok (list, L)
          | None =>
              let! L := set_next L new (Some x) in
              let! L := set_prev L x (Some new) in
              Ok (Some new, L)
          end
      | None =>
          match last with
          | None => UB
          | Some last =>
              let! L := set_next L last (Some new) in
              let! L := set_prev L new (Some last) in
              Ok (list, L)
          end
      end
  end.

(** ** src/whowas.c

    [add_whowas_to_list] and [add_whowas_to_clist] are the same code on two
    pairs of fields, and so are the two [del] functions. *)
Definition add_whowas (bucket : option nat) (whowas : nat) (L : links) : res (option nat * links) :=
  let! L := set_prev L whowas None in
  let! L := set_next L whowas bucket in
  let! L := set_prev_opt L bucket (Some whowas) in
  Ok (Some whowas, L).

Definition del_whowas (bucket : option nat) (whowas : nat) (L : links) : res (option nat * links) :=
  let! (n, p) := get_links L whowas in
  let! L := set_next_opt L p n in
  let bucket := match p with Some _ => bucket | None => n end in
  let! (n, p) := get_links L whowas in
  let! L := set_prev_opt L n p in
  Ok (bucket, L).

(** ** Lists as sequences *)

(** From [hd], with [p] before it, the pointers run through the items [l] and
    arrive at [e]; [q] is the last item. *)
Fixpoint lseg (L : links) (p hd : option nat) (l : list nat) (e q : option nat) : Prop :=
  match l with
  | [] => hd = e ∧ p = q
  | x :: r => hd = Some x ∧ ∃ n, L !! x = Some (n, p) ∧ lseg L (Some x) n r e q
  end.

Definition dlist (L : links) (hd : option nat) (l : list nat) : Prop :=
  NoDup l ∧ ∃ q, lseg L None hd l None q.

Lemma lseg_app L p hd l1 l2 e q :
  lseg L p hd (l1 ++ l2) e q ↔ ∃ m r, lseg L p hd l1 m r ∧ lseg L r m l2 e q.
Proof.
  revert p hd. induction l1 as [|x l1 IH]; intros p hd; simpl.
  - split; [intros H; by exists hd, p|]. by intros (m & r & [-> ->] & H).
  - setoid_rewrite IH. split.
    + intros (-> & n & Hx & m & r & H1 & H2). exists m, r. eauto 6.
    + intros (m & r & (-> & n & Hx & H1) & H2). eauto 8.
Qed.

Lemma lseg_frame L L' p hd l e q :
  (∀ x, x ∈ l → L' !! x = L !! x) → lseg L p hd l e q → lseg L' p hd l e q.
Proof.
  revert p hd. induction l as [|x l IH]; intros p hd Hf; simpl; [done|].
  intros (-> & n & Hx & H). split; [done|]. exists n. split.
  - rewrite Hf; [done|]. apply elem_of_cons. by left.
  - apply IH; [|done]. intros y Hy. apply Hf. apply elem_of_cons. by right.
Qed.

Lemma lseg_insert L p hd l e q x v :
  x ∉ l → lseg L p hd l e q → lseg (<[x := v]> L) p hd l e q.
Proof.
  intros Hx. apply lseg_frame. intros y Hy. apply lookup_insert_ne. by intros ->.
Qed.

(** Changing what comes after the last item. *)
Lemma lseg_snoc_next L p hd l x e q :
  x ∉ l → lseg L p hd (l ++ [x]) e q →
  ∃ pp, L !! x = Some (e, pp) ∧ q = Some x ∧
    ∀ e', lseg (<[x := (e', pp)]> L) p hd (l ++ [x]) e' q.
Proof.
  intros Hnl (m & r & H1 & H2)%lseg_app. simpl in H2. destruct H2 as (-> & n & Hx & -> & <-).
  exists r. split_and!; [done|done|]. intros e'. apply lseg_app. exists (Some x), r.
  split; [by apply lseg_insert|]. simpl. split; [done|]. exists e'.
  by rewrite lookup_insert_eq.
Qed.

(** Changing what comes before the first item. *)
Lemma lseg_cons_prev L p hd y l e q :
  y ∉ l → lseg L p hd (y :: l) e q →
  ∃ n, L !! y = Some (n, p) ∧ hd = Some y ∧
    ∀ p', lseg (<[y := (n, p')]> L) p' hd (y :: l) e q.
Proof.
  intros Hnl (-> & n & Hy & H). exists n. split_and!; [done|done|]. intros p'. simpl.
  split; [done|]. exists n. rewrite lookup_insert_eq. split; [done|]. by apply lseg_insert.
Qed.

Lemma dlist_nil_inv L l : dlist L None l → l = [].
Proof. intros [_ [q H]]. destruct l; [done|]. simpl in H. by destruct H. Qed.

Lemma dlist_hd L hd l : dlist L hd l → hd = head l.
Proof. intros [_ [q H]]. destruct l; simpl in *; by destruct H. Qed.

Lemma dlist_frame L L' hd l :
  (∀ x, x ∈ l → L' !! x = L !! x) → dlist L hd l → dlist L' hd l.
Proof. intros Hf [Hn [q H]]. split; [done|]. exists q. by eapply lseg_frame. Qed.

Lemma dlist_dom L hd l x : dlist L hd l → x ∈ l → is_Some (L !! x).
Proof.
  intros [_ [q H]] Hin. apply list_elem_of_split in Hin as (l1 & l2 & ->).
  apply lseg_app in H as (m & r & _ & H). simpl in H. destruct H as (_ & n & Hx & _). by eexists.
Qed.

(** What an operation may touch: the links of the items [l]. *)
Record same_outside (l : list nat) (L L' : links) : Prop := {
  outside_eq : ∀ x, x ∉ l → L' !! x = L !! x;
  outside_dom : ∀ x, is_Some (L !! x) ↔ is_Some (L' !! x)
}.

Lemma same_outside_refl l L : same_outside l L L.
Proof. by split. Qed.

Lemma same_outside_insert l L L' x v :
  same_outside l L L' → x ∈ l → is_Some (L' !! x) → same_outside l L (<[x := v]> L').
Proof.
  intros [H1 H2] Hx Hs. split.
  - intros y Hy. rewrite lookup_insert_ne; [by apply H1|]. by intros ->.
  - intros y. rewrite H2. destruct (decide (x = y)) as [->|Hne].
    + rewrite lookup_insert_eq. split; [by eexists|done].
    + by rewrite lookup_insert_ne.
Qed.

(** *** Adding at the front *)

Lemma push_front L hd l w n0 p0 :
  dlist L hd l → w ∉ l → L !! w = Some (n0, p0) →
  ∃ L', set_prev_opt (<[w := (hd, None)]> L) hd (Some w) = Ok L' ∧
    dlist L' (Some w) (w :: l) ∧ same_outside (w :: l) L L'.
Proof.
  intros [Hnd [q H]] Hw HLw. assert (w ∈ w :: l) as Hww by (apply elem_of_cons; by left).
  assert (same_outside (w :: l) L (<[w := (hd, None)]> L)) as Hso.
  { apply same_outside_insert; [apply same_outside_refl|done|by eexists]. }
  destruct l as [|y l].
  - destruct H as [-> <-]. eexists. split; [done|]. split; [|done]. split; [by constructor|].
    exists (Some w). simpl. split; [done|]. exists None. by rewrite lookup_insert_eq.
  - apply NoDup_cons in Hnd as [Hy Hnd]. apply not_elem_of_cons in Hw as [Hwy Hwl].
    apply (lseg_cons_prev _ _ _ _ _ _ _ Hy) in H as (n & Hn & -> & H). simpl. unfold set_prev.
    rewrite lookup_insert_ne, Hn by done. eexists. split; [done|]. split.
    + split; [constructor; [set_solver|by constructor]|].
      exists q. simpl. split; [done|]. exists (Some y).
      rewrite lookup_insert_ne, lookup_insert_eq by done. split; [done|].
      specialize (H (Some w)). rewrite insert_insert_ne by done.
      apply (lseg_insert _ _ _ _ _ _ w (Some y, None)) in H; [|set_solver]. done.
    + apply same_outside_insert; [done|set_solver|]. rewrite lookup_insert_ne, Hn by done. by eexists.
Qed.

Lemma add_whowas_spec L hd l w :
  dlist L hd l → w ∉ l → is_Some (L !! w) →
  ∃ L', add_whowas hd w L = Ok (Some w, L') ∧ dlist L' (Some w) (w :: l) ∧
    same_outside (w :: l) L L'.
Proof.
  intros Hd Hw [[n0 p0] HLw]. destruct (push_front L hd l w n0 p0) as (L' & HL' & Hd' & Hs); [done..|].
  exists L'. unfold add_whowas, set_next. unfold set_prev at 1. rewrite HLw. cbn [rbind].
  rewrite lookup_insert_eq, insert_insert_eq. cbn [rbind]. rewrite HL'. done.
Qed.

Lemma add_ListItem_spec L hd l w :
  dlist L hd l → w ∉ l → is_Some (L !! w) →
  ∃ L', add_ListItem w hd L = Ok (Some w, L') ∧ dlist L' (Some w) (w :: l) ∧
    same_outside (w :: l) L L'.
Proof.
  intros Hd Hw [[n0 p0] HLw]. destruct (push_front L hd l w n0 p0) as (L' & HL' & Hd' & Hs); [done..|].
  exists L'. unfold add_ListItem, set_next. unfold set_prev at 1. rewrite HLw. cbn [rbind].
  rewrite lookup_insert_eq, insert_insert_eq. cbn [rbind]. rewrite HL'. done.
Qed.

(** *** Removing *)

(** Joining two segments after the item between them is cut out. *)
Lemma lseg_bridge_prev L n l2 q w p :
  NoDup l2 → lseg L (Some w) n l2 None q →
  ∃ L2 q', set_prev_opt L n p = Ok L2 ∧ lseg L2 p n l2 None q' ∧
    same_outside l2 L L2 ∧ (l2 ≠ [] → q' = q).
Proof.
  intros Hnd H. destruct l2 as [|y l2].
  - destruct H as [-> <-]. exists L, p. split_and!; [done|done|apply same_outside_refl|done].
  - apply NoDup_cons in Hnd as [Hy Hnd].
    apply (lseg_cons_prev _ _ _ _ _ _ _ Hy) in H as (n' & Hn & -> & H).
    simpl. unfold set_prev. rewrite Hn. eexists _, q. split; [done|]. split; [apply H|]. split; [|done].
    apply same_outside_insert; [apply same_outside_refl|set_solver|by eexists].
Qed.

Lemma lseg_bridge_next L hd l1 w r n :
  NoDup l1 → lseg L None hd l1 (Some w) r →
  ∃ L1, set_next_opt L r n = Ok L1 ∧
    lseg L1 None (match r with Some _ => hd | None => n end) l1 n r ∧
    same_outside l1 L L1 ∧ (r = None ↔ l1 = []).
Proof.
  intros Hnd H. destruct l1 as [|x l1 _] using rev_ind.
  - destruct H as [-> <-]. exists L. split; [done|]. split; [done|].
    split; [apply same_outside_refl|by split].
  - apply NoDup_app in Hnd as (_ & Hx & _).
    apply (lseg_snoc_next _ _ _ _ _ _ _ ltac:(intros ?; by eapply Hx; [|apply list_elem_of_singleton]))
      in H as (pp & Hxx & -> & H).
    simpl. unfold set_next. rewrite Hxx. eexists. split; [done|]. split; [apply H|]. split.
    + apply same_outside_insert; [apply same_outside_refl|set_solver|by eexists].
    + split; [done|]. by intros [_ ?]%app_eq_nil.
Qed.

Lemma same_outside_trans l1 l2 l L L1 L2 :
  same_outside l1 L L1 → same_outside l2 L1 L2 →
  (∀ x, x ∈ l1 ∨ x ∈ l2 → x ∈ l) → same_outside l L L2.
Proof.
  intros [H1 D1] [H2 D2] Hl. split.
  - intros x Hx. rewrite H2, H1; [done| |]; intros ?; apply Hx, Hl; auto.
  - intros x. by rewrite D1, D2.
Qed.

Lemma dlist_unlink L hd l1 w l2 :
  dlist L hd (l1 ++ w :: l2) →
  ∃ n p L1 L2, L !! w = Some (n, p) ∧ set_next_opt L p n = Ok L1 ∧ L1 !! w = Some (n, p) ∧
    set_prev_opt L1 n p = Ok L2 ∧ L2 !! w = Some (n, p) ∧
    dlist L2 (match p with Some _ => hd | None => n end) (l1 ++ l2) ∧
    same_outside (l1 ++ l2) L L2 ∧ (hd = Some w ↔ p = None).
Proof.
  intros [Hnd [q H]]. apply lseg_app in H as (m & r & H1 & H2).
  simpl in H2. destruct H2 as (-> & n & Hw & H2).
  apply NoDup_app in Hnd as (Hnd1 & Hdis & Hnd2). apply NoDup_cons in Hnd2 as [Hw2 Hnd2].
  assert (w ∉ l1) as Hw1 by (intros ?; eapply Hdis; [done|apply elem_of_cons; by left]).
  destruct (lseg_bridge_next L hd l1 w r n Hnd1 H1) as (L1 & HL1 & Hl1 & Hs1 & Hr).
  assert (∀ x, x ∈ l2 → x ∉ l1) as Hd2 by (intros x Hx ?; eapply Hdis; [done|apply elem_of_cons; by right]).
  assert (lseg L1 (Some w) n l2 None q) as H2'.
  { eapply lseg_frame; [|done]. intros x Hx. apply (outside_eq _ _ _ Hs1). auto. }
  destruct (lseg_bridge_prev L1 n l2 q w r Hnd2 H2') as (L2 & q' & HL2 & Hl2 & Hs2 & Hq).
  assert (L1 !! w = L !! w) as E1 by (by apply (outside_eq _ _ _ Hs1)).
  assert (L2 !! w = L1 !! w) as E2 by (by apply (outside_eq _ _ _ Hs2)).
  exists n, r, L1, L2. split_and!; [done|done|congruence|done|congruence| | |].
  - split.
    + apply NoDup_app. split_and!; [done| |done]. intros x Hx1 Hx2. by eapply Hd2.
    + exists q'. apply lseg_app. exists n, r. split; [|done].
      eapply lseg_frame; [|done]. intros x Hx. apply (outside_eq _ _ _ Hs2). intros Hx2. by eapply Hd2.
  - eapply same_outside_trans; [done|done|]. intros x. rewrite elem_of_app. tauto.
  - rewrite Hr. split.
    + intros ->. destruct l1 as [|x l1]; [done|]. destruct H1 as ([= ->] & _). set_solver.
    + intros ->. by destruct H1 as [-> _].
Qed.

Lemma del_whowas_spec L hd l1 w l2 :
  dlist L hd (l1 ++ w :: l2) →
  ∃ hd' L', del_whowas hd w L = Ok (hd', L') ∧ dlist L' hd' (l1 ++ l2) ∧
    same_outside (l1 ++ l2) L L'.
Proof.
  intros H. destruct (dlist_unlink _ _ _ _ _ H) as
    (n & p & L1 & L2 & Hw & HL1 & Hw1 & HL2 & Hw2 & Hd & Hs & _).
  eexists _, L2. unfold del_whowas, get_links. rewrite Hw. cbn [rbind]. rewrite HL1. cbn [rbind].
  rewrite Hw1. cbn [rbind]. rewrite HL2. done.
Qed.

(** [del_ListItem] removes exactly the given item from a well-formed
    list, keeps the others in order, clears the pointers of the removed item,
    and touches no item outside the list; a NULL item is ignored. *)
Theorem del_ListItem_correct L hd l1 w l2 :
  dlist L hd (l1 ++ w :: l2) →
  ∃ hd' L', del_ListItem (Some w) hd L = Ok (hd', L') ∧ dlist L' hd' (l1 ++ l2) ∧
    L' !! w = Some (None, None) ∧ same_outside (l1 ++ w :: l2) L L' ∧
    del_ListItem None hd L = Ok (hd, L).
Proof.
  intros H. destruct (dlist_unlink _ _ _ _ _ H) as
    (n & p & L1 & L2 & Hw & HL1 & Hw1 & HL2 & Hw2 & Hd & Hs & Hhd).
  assert (w ∉ l1 ++ l2) as Hnw.
  { destruct H as [Hnd _]. apply NoDup_app in Hnd as (_ & Hdis & Hnd2).
    apply NoDup_cons in Hnd2 as [? _]. rewrite elem_of_app.
    intros [?|?]; [|done]. eapply Hdis; [done|apply elem_of_cons; by left]. }
  eexists _, _. unfold del_ListItem, get_links. rewrite Hw. cbn [rbind]. rewrite HL1. cbn [rbind].
  rewrite Hw1. cbn [rbind]. rewrite HL2. cbn [rbind]. rewrite Hw2. cbn [rbind].
  unfold set_prev, set_next. rewrite Hw2. cbn [rbind]. rewrite lookup_insert_eq. cbn [rbind].
  split; [done|]. rewrite insert_insert_eq. split_and!; [|by rewrite lookup_insert_eq| |done].
  - assert ((if decide (hd = Some w) then n else hd) = match p with Some _ => hd | None => n end) as ->.
    { destruct (decide (hd = Some w)) as [E|E]; rewrite Hhd in E; [by rewrite E|by destruct p]. }
    eapply dlist_frame; [|done]. intros x Hx. apply lookup_insert_ne. by intros ->.
  - assert (same_outside (l1 ++ w :: l2) L L2) as Hs'.
    { apply (same_outside_trans [] (l1 ++ l2) _ L L); [apply same_outside_refl|done|].
      intros x. rewrite !elem_of_app, elem_of_cons. set_solver. }
    apply same_outside_insert; [done|set_solver|by eexists].
Qed.

(** *** Walking and inserting in the middle *)

(** Rebuild the list around a new item between [l1] and [l2]. *)
Lemma insert_before L hd l1 x l2 w n0 p0 :
  dlist L hd (l1 ++ x :: l2) → w ∉ l1 ++ x :: l2 → L !! w = Some (n0, p0) →
  ∃ xn xp, L !! x = Some (xn, xp) ∧ (xp = None ↔ l1 = []) ∧
    ∀ L0, L0 = <[w := (Some x, xp)]> L →
    ∃ L1, set_next_opt L0 xp (Some w) = Ok L1 ∧
      L1 !! x = Some (xn, xp) ∧
      dlist (<[x := (xn, Some w)]> L1) (match xp with Some _ => hd | None => Some w end)
            (l1 ++ w :: x :: l2) ∧
      same_outside (l1 ++ w :: x :: l2) L (<[x := (xn, Some w)]> L1).
Proof.
  intros [Hnd [q H]] Hw HLw. apply lseg_app in H as (m & r & H1 & H2).
  pose proof H2 as (-> & xn & Hx & _).
  pose proof Hnd as (Hnd1 & Hdis & Hnd2)%NoDup_app. pose proof Hnd2 as [Hx2 _]%NoDup_cons.
  exists xn, r. split; [done|]. split.
  { destruct l1 as [|y l1]; [by destruct H1 as [_ <-]|]. split; [|done].
    intros ->. exfalso. destruct l1 as [|z l1 _] using rev_ind; [by destruct H1 as (_ & ? & _ & _ & ?)|].
    apply (lseg_app _ _ _ (y :: l1) [z]) in H1 as (? & ? & _ & Hz).
    simpl in Hz. by destruct Hz as (_ & ? & _ & _ & ?). }
  intros L0 ->.
  assert (w ∉ l1 ∧ w ≠ x ∧ w ∉ l2) as (Hw1 & Hwx & Hw2) by set_solver.
  assert (x ∉ l1) as Hx1 by (intros ?; eapply Hdis; [done|apply elem_of_cons; by left]).
  apply (lseg_insert _ _ _ _ _ _ w (Some x, r)) in H1; [|done].
  destruct (lseg_bridge_next _ hd l1 x r (Some w) Hnd1 H1) as (L1 & HL1 & Hl1 & Hs1 & Hr).
  exists L1. split; [done|].
  assert (L1 !! x = Some (xn, r)) as HL1x.
  { rewrite (outside_eq _ _ _ Hs1) by done. by rewrite lookup_insert_ne. }
  split; [done|].
  assert (L1 !! w = Some (Some x, r)) as HL1w.
  { rewrite (outside_eq _ _ _ Hs1) by done. by rewrite lookup_insert_eq. }
  split.
  - split.
    + apply NoDup_app. split_and!; [done| |constructor; [set_solver|done]].
      intros y Hy1 Hy2. apply elem_of_cons in Hy2 as [->|Hy2]; [done|]. by eapply Hdis.
    + exists q. apply lseg_app. exists (Some w), r. split.
      { by apply lseg_insert. }
      simpl. split; [done|]. exists (Some x). rewrite lookup_insert_ne by done. split; [done|].
      split; [done|]. exists xn. rewrite lookup_insert_eq. split; [done|].
      simpl in H2. destruct H2 as (_ & xn' & Hx' & H2). rewrite Hx in Hx'. injection Hx' as <-.
      apply lseg_insert; [done|]. eapply lseg_frame; [|done]. intros y Hy.
      rewrite (outside_eq _ _ _ Hs1) by (intros ?; eapply Hdis; [done|apply elem_of_cons; by right]).
      apply lookup_insert_ne. by intros ->.
  - apply same_outside_insert; [|set_solver|by eexists].
    eapply same_outside_trans; [|done|].
    + apply (same_outside_insert [w]); [apply same_outside_refl|set_solver|by eexists].
    + set_solver.
Qed.

(** Append behind the last item. *)
Lemma insert_last L hd l x w n0 :
  dlist L hd (l ++ [x]) → w ∉ l ++ [x] → L !! w = Some (None, n0) →
  ∃ xp, L !! x = Some (None, xp) ∧
    dlist (<[w := (None, Some x)]> (<[x := (Some w, xp)]> L)) hd (l ++ [x; w]) ∧
    same_outside (l ++ [x; w]) L (<[w := (None, Some x)]> (<[x := (Some w, xp)]> L)).
Proof.
  intros [Hnd [q H]] Hw HLw. pose proof Hnd as (Hnd1 & Hdis & _)%NoDup_app.
  assert (x ∉ l) as Hxl by (intros ?; by eapply Hdis; [|apply list_elem_of_singleton]).
  assert (w ∉ l ∧ w ≠ x) as (Hwl & Hwx) by set_solver.
  apply (lseg_snoc_next _ _ _ _ _ _ _ Hxl) in H as (xp & Hx & -> & H).
  exists xp. split; [done|]. split.
  - split.
    + change (l ++ [x; w]) with (l ++ [x] ++ [w]). rewrite app_assoc. apply NoDup_app.
      split_and!; [done| |apply NoDup_singleton]. intros y Hy ->%list_elem_of_singleton. done.
    + exists (Some w). change (l ++ [x; w]) with (l ++ [x] ++ [w]). rewrite app_assoc. apply lseg_app.
      exists (Some w), (Some x). split; [apply lseg_insert; [set_solver|apply H]|].
      simpl. split; [done|]. exists None. by rewrite lookup_insert_eq.
  - apply same_outside_insert; [|set_solver|rewrite lookup_insert_ne by done; by eexists].
    apply same_outside_insert; [apply same_outside_refl|set_solver|by eexists].
Qed.

Lemma dlist_size L hd l : dlist L hd l → (length l ≤ size L)%nat.
Proof.
  intros H. pose proof H as [Hnd _].
  rewrite <-(size_dom (D := gset nat)), <-(size_list_to_set (C := gset nat) l) by done.
  apply subseteq_size. intros x Hx. apply elem_of_list_to_set in Hx.
  apply elem_of_dom. by eapply dlist_dom.
Qed.

Lemma walk_last_spec L p l x q h fuel :
  lseg L p (Some h) (l ++ [x]) None q → (length l < fuel)%nat → walk_last fuel L h = Ok x.
Proof.
  revert p h fuel. induction l as [|y l IH]; intros p h [|fuel] H Hf; try (simpl in Hf; lia).
  - destruct H as ([= ->] & n & Hx & -> & _). simpl. unfold get_links. by rewrite Hx.
  - destruct H as ([= ->] & n & Hy & H). simpl. unfold get_links. rewrite Hy. cbn [rbind].
    destruct n as [n|]; [|destruct l; simpl in H; by destruct H].
    eapply IH; [done|simpl in Hf; lia].
Qed.

Lemma find_prio_spec L prio pr l fuel p hd last q :
  lseg L p hd l None q → (length l < fuel)%nat →
  find_prio fuel prio L pr hd last =
    Ok (match drop_while (λ y, prio y <? pr) l with
        | y :: _ => (Some y, Some y)
        | [] => (None, match list.last l with Some z => Some z | None => last end)
        end).
Proof.
  revert p hd fuel last. induction l as [|y l IH]; intros p hd [|fuel] last H Hf; try (simpl in Hf; lia).
  - by destruct H as [-> _].
  - destruct H as (-> & n & Hy & H). cbn [find_prio drop_while].
    destruct (Z.leb_spec pr (prio y)).
    + by rewrite (proj2 (Z.ltb_ge _ _)).
    + rewrite (proj2 (Z.ltb_lt _ _)) by done. unfold get_links. rewrite Hy. cbn [rbind].
      erewrite IH; [|done|simpl in Hf; lia]. destruct (drop_while _ l); [|done].
      rewrite list.last_cons. by destruct (list.last l).
Qed.

(** [add_ListItem] puts a fresh item in front of a well-formed list and
    [append_ListItem] puts it at the end (its walk ends); the list stays well
    formed and no other item is touched. *)
Theorem add_append_ListItem_correct L hd l w :
  dlist L hd l → w ∉ l → L !! w = Some (None, None) →
  (∃ L', add_ListItem w hd L = Ok (Some w, L') ∧ dlist L' (Some w) (w :: l) ∧
         same_outside (w :: l) L L') ∧
  (∃ hd' L', append_ListItem w hd L = Ok (hd', L') ∧ dlist L' hd' (l ++ [w]) ∧
         same_outside (l ++ [w]) L L').
Proof.
  intros Hd Hw HLw. split; [apply add_ListItem_spec; [done|done|by eexists]|].
  destruct l as [|x l _] using rev_ind.
  - destruct Hd as [_ [q [-> <-]]]. exists (Some w), L. simpl. split; [done|]. split.
    + split; [apply NoDup_singleton|]. exists (Some w). simpl. eauto.
    + apply same_outside_refl.
  - destruct (insert_last L hd l x w None Hd Hw HLw) as (xp & Hx & Hd' & Hs).
    pose proof (dlist_size _ _ _ Hd) as Hsize. rewrite length_app in Hsize. simpl in Hsize.
    assert (w ≠ x) as Hwx by set_solver.
    destruct hd as [h|]; [|apply dlist_nil_inv, app_eq_nil in Hd; by destruct Hd].
    eexists _, _. unfold append_ListItem. pose proof Hd as [_ [q Hl]].
    rewrite (walk_last_spec _ _ _ _ _ _ _ Hl) by lia. cbn [rbind].
    unfold set_next, set_prev. rewrite Hx. cbn [rbind]. rewrite lookup_insert_ne, HLw by done.
    cbn [rbind]. split; [done|]. by rewrite <-app_assoc.
Qed.

Lemma prio_insert L hd l w prio pr :
  dlist L hd l → w ∉ l → L !! w = Some (None, None) →
  ∃ hd' L', add_ListItemPrio w hd prio pr L = Ok (hd', L') ∧
    dlist L' hd' (take_while (λ y, prio y <? pr) l ++ w :: drop_while (λ y, prio y <? pr) l) ∧
    same_outside (w :: l) L L'.
Proof.
  intros Hd Hw HLw. destruct hd as [h|].
  2:{ apply dlist_nil_inv in Hd as ->. exists (Some w), L. split; [done|]. split.
      - split; [apply NoDup_singleton|]. exists (Some w). simpl. eauto.
      - apply same_outside_refl. }
  pose proof (dlist_size _ _ _ Hd) as Hsize. pose proof Hd as [_ [q Hl]].
  unfold add_ListItemPrio. rewrite (find_prio_spec _ _ _ _ _ _ _ _ _ Hl) by lia. cbn [rbind].
  set (l1 := take_while _ l). destruct (drop_while (λ y, prio y <? pr) l) as [|x l2] eqn:E2.
  - assert (l = l1) as El by (rewrite <-(app_nil_r l1), <-E2; unfold l1; by rewrite take_drop_while).
    destruct l as [|x l _] using rev_ind; [by apply dlist_hd in Hd|].
    rewrite list.last_snoc. destruct (insert_last L _ l x w None Hd Hw HLw) as (xp & Hx & Hd' & Hs).
    assert (w ≠ x) as Hwx by set_solver.
    eexists _, _. unfold set_next, set_prev. rewrite Hx. cbn [rbind].
    rewrite lookup_insert_ne, HLw by done. cbn [rbind]. split; [done|].
    rewrite <-El, <-app_assoc. split; [done|]. eapply same_outside_trans; [apply (same_outside_refl [])|done|].
    set_solver.
  - assert (l = l1 ++ x :: l2) as El by (rewrite <-E2; unfold l1; by rewrite take_drop_while).
    rewrite El in Hd, Hw. destruct (insert_before L _ l1 x l2 w None None Hd Hw HLw)
      as (xn & xp & Hx & Hxp & Hins).
    destruct (Hins _ eq_refl) as (L1 & HL1 & HL1x & Hd' & Hs').
    assert (w ≠ x) as Hwx by set_solver.
    assert (same_outside (w :: l) L (<[x:=(xn, Some w)]> L1)) as Hso.
    { eapply same_outside_trans; [apply (same_outside_refl [])|exact Hs'|]. rewrite El. set_solver. }
    unfold get_links. rewrite Hx. cbn [rbind]. destruct xp as [y|].
    + eexists _, _. unfold set_prev at 1. rewrite HLw. cbn [rbind]. unfold set_next at 1.
      rewrite lookup_insert_eq, insert_insert_eq. cbn [rbind]. simpl in HL1. rewrite HL1. cbn [rbind].
      unfold set_prev. rewrite HL1x. cbn [rbind]. split; [done|]. by split.
    + simpl in HL1. injection HL1 as <-. eexists _, _. unfold set_next. rewrite HLw. cbn [rbind].
      unfold set_prev. rewrite HL1x. cbn [rbind]. split; [done|]. by split.
Qed.

(** [add_ListItemPrio] keeps a list ordered by priority: the new item
    goes in front of the first item whose priority is at least as high, all
    other items keep their order, and the list stays well formed. *)
Theorem add_ListItemPrio_correct L hd l w prio :
  dlist L hd l → w ∉ l → L !! w = Some (None, None) →
  StronglySorted (λ x y, prio x ≤ prio y) l →
  ∃ hd' L' l1 l2, add_ListItemPrio w hd prio (prio w) L = Ok (hd', L') ∧ l = l1 ++ l2 ∧
    dlist L' hd' (l1 ++ w :: l2) ∧ StronglySorted (λ x y, prio x ≤ prio y) (l1 ++ w :: l2) ∧
    Forall (λ x, prio x < prio w) l1 ∧ Forall (λ x, prio w ≤ prio x) l2 ∧
    same_outside (w :: l) L L'.
Proof.
  intros Hd Hw HLw Hsort.
  destruct (prio_insert L hd l w prio (prio w) Hd Hw HLw) as (hd' & L' & Hr & Hd' & Hs).
  set (l1 := take_while (λ y, prio y <? prio w) l) in *.
  set (l2 := drop_while (λ y, prio y <? prio w) l) in *.
  assert (l = l1 ++ l2) as El by (unfold l1, l2; by rewrite take_drop_while).
  assert (Forall (λ x, prio x < prio w) l1) as H1.
  { eapply Forall_impl; [apply take_while_Forall|]. intros x Hx. by apply Z.ltb_lt. }
  assert (∀ x r, l2 = x :: r → prio w ≤ prio x) as Hhead.
  { intros x r E. apply Z.ltb_ge. by eapply (drop_while_head (λ y, prio y <? prio w)). }
  clearbody l1 l2.
  assert (Forall (λ x, prio w ≤ prio x) l2) as H2.
  { destruct l2 as [|x r]; [constructor|]. pose proof (Hhead x r eq_refl) as E2.
    assert (StronglySorted (λ x y, prio x ≤ prio y) (x :: r)) as Hs2.
    { rewrite El in Hsort. clear -Hsort. induction l1 as [|y l1 IH]; [done|].
      apply IH. by inversion Hsort. }
    inversion Hs2 as [|? ? _ Hall]; subst. constructor; [done|].
    eapply Forall_impl; [done|]. simpl. lia. }
  exists hd', L', l1, l2. split; [done|]. split; [done|]. split; [done|]. split; [|done].
  clear -Hsort El H1 H2. rewrite El in Hsort. clear El l. induction H1 as [|y l1 Hy _ IH]; simpl in *.
  - by constructor.
  - inversion Hsort as [|? ? Hs Hall]; subst. constructor; [by apply IH|].
    apply Forall_app in Hall as [? ?]. apply Forall_app. split; [done|]. constructor; [lia|done].
Qed.

(** The documentation says an item is added as the last one of its priority;
    it becomes the first one. *)
Theorem add_ListItemPrio_first_of_equals :
  ∃ L', add_ListItemPrio 2 (Some 1%nat) (λ _, 0) 0
          (<[2%nat := (None, None)]> {[1%nat := (None, None)]}) = Ok (Some 2%nat, L') ∧
        dlist L' (Some 2%nat) [2%nat; 1%nat].
Proof.
  eexists. split; [vm_compute; reflexivity|]. split; [by apply (bool_decide_unpack _)|].
  exists (Some 1%nat). simpl. split; [done|]. eexists. split; [vm_compute; reflexivity|].
  split; [done|]. eexists. split; [vm_compute; reflexivity|]. done.
Qed.

Definition demo_links : links :=
  <[1%nat := (Some 2%nat, None)]> (<[2%nat := (None, Some 1%nat)]> {[3%nat := (None, None)]}).

Lemma demo_dlist : dlist demo_links (Some 1%nat) [1; 2]%nat.
Proof.
  split; [by apply (bool_decide_unpack _)|]. exists (Some 2%nat). simpl. split; [done|].
  eexists. split; [vm_compute; reflexivity|]. split; [done|]. eexists.
  split; [vm_compute; reflexivity|]. done.
Qed.

Lemma del_ListItem_witness :
  ∃ hd' L', del_ListItem (Some 1%nat) (Some 1%nat) demo_links = Ok (hd', L') ∧ dlist L' hd' [2%nat].
Proof.
  destruct (del_ListItem_correct demo_links (Some 1%nat) [] 1 [2%nat] demo_dlist)
    as (hd' & L' & H & Hd & _).
  exists hd', L'. split; [exact H|exact Hd].
Defined.

Lemma add_append_ListItem_witness :
  ∃ hd' L', append_ListItem 3 (Some 1%nat) demo_links = Ok (hd', L') ∧ dlist L' hd' [1; 2; 3]%nat.
Proof.
  destruct (add_append_ListItem_correct demo_links (Some 1%nat) [1; 2]%nat 3 demo_dlist)
    as (_ & hd' & L' & H & Hd & _); [set_solver|reflexivity|].
  exists hd', L'. split; [exact H|exact Hd].
Defined.

Lemma add_ListItemPrio_witness :
  ∃ hd' L' l1 l2, add_ListItemPrio 3 (Some 1%nat) Z.of_nat 3 demo_links = Ok (hd', L') ∧
    [1; 2]%nat = l1 ++ l2 ∧ dlist L' hd' (l1 ++ 3%nat :: l2).
Proof.
  destruct (add_ListItemPrio_correct demo_links (Some 1%nat) [1; 2]%nat 3 Z.of_nat demo_dlist)
    as (hd' & L' & l1 & l2 & H & El & Hd & _); [set_solver|reflexivity| |].
  - repeat constructor; simpl; lia.
  - exists hd', L', l1, l2. split; [exact H|]. split; [exact El|exact Hd].
Defined.
