(* ===== verification/Whowas.v ===== *)
(** * The nickname history (src/whowas.c)

    A ring of [NICKNAMEHISTORYLENGTH] entries; the used entries are on a list
    per hash value of the nickname, and those of online clients also on a list
    per client.  The two pairs of link fields of an entry are kept in two maps
    (see Dlist.v).  The abstract history is the sequence of the last entries,
    newest first. *)

From stdpp Require Import base tactics list numbers strings gmap.
From Stdlib Require Import ZArith Lia.
From S2P Require Import Prelude Chars Hash Dlist.

Local Open Scope Z_scope.

Definition NICKNAMEHISTORYLENGTH : nat := Z.to_nat 2000.

(** The data fields of [struct Whowas]; [hashv] is -1 in a free entry. *)
Record WhoWas := MkWhoWas {
  hashv : Z;
  w_name : option (list Z);
  w_username : option (list Z);
  w_hostname : option (list Z);
  w_virthost : option (list Z);
  w_ip : option (list Z);
  w_servername : option (list Z);
  w_realname : option (list Z);
  w_account : option (list Z);
  w_umodes : Z;
  w_logon : Z;
  w_logoff : Z;
  w_connected_since : Z;
  w_event : Z;
  w_online : option nat
}.

Definition entry0 : WhoWas :=
  MkWhoWas (-1) None None None None None None None None 0 0 0 0 0 None.

(** What [create_whowas_entry] reads of a client. *)
Record wclient := WClient {
  wc_name : list Z;
  wc_username : list Z;
  wc_realhost : list Z;
  wc_ip : option (list Z);
  wc_virthost : option (list Z);
  wc_server : list Z;
  wc_info : list Z;
  wc_account : list Z;
  wc_umodes : Z;
  wc_lastnick : Z;
  wc_creationtime : Z
}.

(** [uwhowas c] is [client->user->whowas]; [wlive] are the clients that have
    not been freed. *)
Record wstate := WS {
  WHOWAS : gmap nat WhoWas;
  hlinks : links;
  clinks : links;
  WHOWASHASH : gmap Z nat;
  uwhowas : gmap nat nat;
  whowas_next : nat;
  wlive : gset nat
}.

Definition head_of {K} `{Countable K} (m : gmap K nat) (k : K) : option nat := m !! k.
(** Store a list head; NULL is the absence of an entry. *)
Definition set_head {K} `{Countable K} (m : gmap K nat) (k : K) (h : option nat) : gmap K nat :=
  match h with Some x => <[k := x]> m | None => delete k m end.

Lemma filter_ext_in {A} (P Q : A → Prop) `{∀ x, Decision (P x)} `{∀ x, Decision (Q x)} (l : list A) :
  (∀ x, x ∈ l → P x ↔ Q x) → filter P l = filter Q l.
Proof.
  induction l as [|x l IH]; intros HPQ; [done|].
  assert (P x ↔ Q x) as Hx by (apply HPQ; apply elem_of_cons; by left).
  assert (filter P l = filter Q l) as El by (apply IH; intros y Hy; apply HPQ; apply elem_of_cons; by right).
  destruct (decide (P x)).
  - by rewrite !filter_cons_True, El by tauto.
  - by rewrite !filter_cons_False, El by tauto.
Qed.

(** A filter loses one element when the test fails on it from then on. *)
Lemma filter_remove {A} `{EqDecision A} (P Q : A → Prop) `{∀ x, Decision (P x)} `{∀ x, Decision (Q x)}
    (l : list A) w :
  NoDup l → w ∈ l → P w → (∀ x, x ∈ l → Q x ↔ P x ∧ x ≠ w) →
  ∃ l1 l2, filter P l = l1 ++ w :: l2 ∧ filter Q l = l1 ++ l2.
Proof.
  intros Hnd. induction Hnd as [|x l Hx Hnd IH]; intros Hw HP HQ; [by apply not_elem_of_nil in Hw|].
  apply elem_of_cons in Hw as [<-|Hw].
  - exists [], (filter P l). rewrite filter_cons_True by done. split; [done|].
    rewrite filter_cons_False by (rewrite HQ; [naive_solver|set_solver]). simpl.
    apply filter_ext_in. intros y Hy.
    rewrite HQ by (apply elem_of_cons; by right). split; [tauto|]. intros ?.
    split; [done|]. by intros ->.
  - destruct IH as (l1 & l2 & E1 & E2); [done|done|intros y Hy; apply HQ; set_solver|].
    assert (x ≠ w) as Hxw by (by intros ->).
    assert (Q x ↔ P x) as Hxx.
    { rewrite (HQ x) by (apply elem_of_cons; by left). split; [by intros [? _]|done]. }
    destruct (decide (P x)).
    + exists (x :: l1), l2. rewrite !filter_cons_True by tauto. by rewrite E1, E2.
    + exists l1, l2. rewrite !filter_cons_False by tauto. done.
Qed.

(** ** Families of lists

    The items [R], in order, are spread over lists by the key [k]. *)
Section Family.
Context {K : Type} `{Countable K}.
Implicit Types (k : nat → option K) (heads : gmap K nat).

Definition family (L : links) heads k (R : list nat) : Prop :=
  ∀ key : K, dlist L (heads !! key) (filter (λ w, k w = Some key) R).

Lemma set_head_eq heads (key : K) h : set_head heads key h !! key = h.
Proof. destruct h; simpl; [apply lookup_insert_eq|apply lookup_delete_eq]. Qed.
Lemma set_head_ne heads (key key' : K) h : key ≠ key' → set_head heads key h !! key' = heads !! key'.
Proof. intros. destruct h; simpl; [by apply lookup_insert_ne|by apply lookup_delete_ne]. Qed.

Lemma family_ext L heads k k' R :
  (∀ w, w ∈ R → k' w = k w) → family L heads k R → family L heads k' R.
Proof.
  intros Hk HF key. rewrite (filter_ext_in _ (λ w, k w = Some key)); [apply HF|].
  intros w Hw. by rewrite Hk.
Qed.

Lemma family_unlink L heads k k' R w q0 :
  NoDup R → w ∈ R → k w = Some q0 → k' w = None → (∀ x, x ≠ w → k' x = k x) →
  family L heads k R →
  ∃ h L', del_whowas (heads !! q0) w L = Ok (h, L') ∧
    family L' (set_head heads q0 h) k' R ∧ (∀ x, is_Some (L !! x) ↔ is_Some (L' !! x)).
Proof.
  intros Hnd Hw Hk Hk' Hsame HF.
  destruct (filter_remove (λ x, k x = Some q0) (λ x, k' x = Some q0) R w) as (l1 & l2 & E1 & E2);
    [done|done|done| |].
  { intros x _. destruct (decide (x = w)) as [->|Hne]; [rewrite Hk'; naive_solver|].
    rewrite Hsame by done. tauto. }
  pose proof (HF q0) as Hd. rewrite E1 in Hd.
  destruct (del_whowas_spec _ _ _ _ _ Hd) as (h & L' & -> & Hd' & Hs).
  exists h, L'. split; [done|]. split; [|apply (outside_dom _ _ _ Hs)].
  intros key. destruct (decide (q0 = key)) as [<-|Hne].
  - by rewrite set_head_eq, E2.
  - rewrite set_head_ne by done. rewrite (filter_ext_in _ (λ w, k w = Some key)).
    + eapply dlist_frame; [|apply HF]. intros x [Hx _]%list_elem_of_filter.
      apply (outside_eq _ _ _ Hs). rewrite <-E2, list_elem_of_filter. intros [Hx' _].
      destruct (decide (x = w)) as [->|Hxw]; [congruence|]. rewrite Hsame in Hx' by done. congruence.
    + intros x _. destruct (decide (x = w)) as [->|Hxw]; [rewrite Hk', Hk; naive_solver|].
      by rewrite Hsame.
Qed.

(** The oldest item, on no list, becomes the newest one. *)
Lemma family_rotate L heads k k' r w :
  k w = None → k' w = None → (∀ x, x ≠ w → k' x = k x) → w ∉ r →
  family L heads k (r ++ [w]) → family L heads k' (w :: r).
Proof.
  intros Hk Hk' Hsame Hw HF key. rewrite filter_cons_False by (by rewrite Hk').
  pose proof (HF key) as Hd. rewrite filter_app, (filter_cons_False _ w) in Hd by (by rewrite Hk).
  simpl in Hd. rewrite app_nil_r in Hd. rewrite (filter_ext_in _ (λ w, k w = Some key)); [done|].
  intros x Hx. rewrite Hsame; [done|]. by intros ->.
Qed.

Lemma family_push L heads k k' r w q0 :
  k w = None → k' w = Some q0 → (∀ x, x ≠ w → k' x = k x) → w ∉ r → is_Some (L !! w) →
  family L heads k (r ++ [w]) →
  ∃ L', add_whowas (heads !! q0) w L = Ok (Some w, L') ∧
    family L' (set_head heads q0 (Some w)) k' (w :: r) ∧
    (∀ x, is_Some (L !! x) ↔ is_Some (L' !! x)).
Proof.
  intros Hk Hk' Hsame Hw HL HF.
  assert (∀ key, filter (λ w, k' w = Some key) r = filter (λ w, k w = Some key) (r ++ [w])) as Ef.
  { intros key. rewrite filter_app, (filter_cons_False _ w) by (by rewrite Hk). simpl.
    rewrite app_nil_r. apply filter_ext_in. intros x Hx. rewrite Hsame; [done|]. by intros ->. }
  pose proof (HF q0) as Hd. rewrite <-Ef in Hd.
  destruct (add_whowas_spec _ _ _ w Hd) as (L' & -> & Hd' & Hs);
    [rewrite list_elem_of_filter; naive_solver|done|].
  exists L'. split; [done|]. split; [|apply (outside_dom _ _ _ Hs)].
  intros key. destruct (decide (q0 = key)) as [<-|Hne].
  - by rewrite set_head_eq, filter_cons_True.
  - rewrite set_head_ne by done. rewrite filter_cons_False by (rewrite Hk'; naive_solver).
    rewrite Ef. eapply dlist_frame; [|apply HF]. intros x Hx. rewrite <-Ef in Hx.
    apply list_elem_of_filter in Hx as [Hx Hxr]. apply (outside_eq _ _ _ Hs).
    rewrite elem_of_cons, list_elem_of_filter. intros [->|[Hx' _]]; [done|]. congruence.
Qed.

Lemma family_head L heads k R (key : K) (t : nat) :
  family L heads k R → heads !! key = Some t → t ∈ R ∧ k t = Some key.
Proof.
  intros HF Ht. pose proof (dlist_hd _ _ _ (HF key)) as Hh. rewrite Ht in Hh.
  assert (t ∈ filter (λ w, k w = Some key) R) as Hin.
  { destruct (filter (λ w, k w = Some key) R); simplify_eq/=. apply elem_of_cons. by left. }
  apply list_elem_of_filter in Hin. tauto.
Qed.
End Family.

(** The hash value of a slot, and the client it is linked to. *)
Definition hv (st : wstate) (w : nat) : Z :=
  match WHOWAS st !! w with Some e => hashv e | None => -1 end.
Definition on (st : wstate) (w : nat) : option nat :=
  match WHOWAS st !! w with
  | Some e => if hashv e =? -1 then None else w_online e
  | None => None
  end.

Section Whowas.
Context (keys : hstate).
Definition hash_name (n : list Z) : Z := hash_whowas_name keys n.

Definition free_whowas_fields (e : WhoWas) : WhoWas :=
  MkWhoWas (-1) None None None None None None None None (w_umodes e) 0 0 0 0 (w_online e).

(** Dereferencing [client->user->whowas] of a freed client is [UB], and so
    is an index outside [WHOWASHASH]. *)
Definition free_whowas_entry (w : nat) (st : wstate) : res wstate :=
  match WHOWAS st !! w with
  | None => UB
  | Some e =>
      let hv := hashv e in
      let entries := <[w := free_whowas_fields e]> (WHOWAS st) in
      let! (uw, cl) :=
        match w_online e with
        | None => Ok (uwhowas st, clinks st)
        | Some c =>
            let! _ := require (bool_decide (c ∈ wlive st)) in
            let! (h, cl) := del_whowas (uwhowas st !! c) w (clinks st) in
            Ok (set_head (uwhowas st) c h, cl)
        end in
      let! _ := require ((0 <=? hv) && (hv <? WHOWAS_HASH_TABLE_SIZE)) in
      let! (h, hl) := del_whowas (WHOWASHASH st !! hv) w (hlinks st) in
      Ok (WS entries hl cl (set_head (WHOWASHASH st) hv h) uw (whowas_next st) (wlive st))
  end.

(** The strings a free entry holds are NULL, so that [safe_strdup] stores
    copies; [safe_strdup] of NULL stores NULL. *)
Definition create_whowas_entry (c : wclient) (event now : Z) (e : WhoWas) : WhoWas :=
  MkWhoWas (hash_name (wc_name c)) (Some (wc_name c)) (Some (wc_username c))
    (Some (wc_realhost c))
    (match wc_virthost c with Some v => Some v | None => Some [] end)
    (wc_ip c) (Some (wc_server c)) (Some (wc_info c))
    (if bool_decide (wc_account c ≠ bs "0") then Some (wc_account c) else w_account e)
    (wc_umodes c) (wc_lastnick c) now (wc_creationtime c) event (w_online e).

Definition set_online (o : option nat) (e : WhoWas) : WhoWas :=
  MkWhoWas (hashv e) (w_name e) (w_username e) (w_hostname e) (w_virthost e) (w_ip e)
    (w_servername e) (w_realname e) (w_account e) (w_umodes e) (w_logon e) (w_logoff e)
    (w_connected_since e) (w_event e) o.

(** [id] is the address of the client, [c] its data. *)
Definition add_history (id : nat) (c : wclient) (online : bool) (event now : Z) (st : wstate)
  : res wstate :=
  let new := whowas_next st in
  match WHOWAS st !! new with
  | None => UB
  | Some e =>
      let! st := if negb (hashv e =? -1) then free_whowas_entry new st else Ok st in
      match WHOWAS st !! new with
      | None => UB
      | Some e =>
          let e := create_whowas_entry c event now e in
          let! _ := require (bool_decide (id ∈ wlive st)) in
          let! (e, uw, cl) :=
            if online then
              let e := set_online (Some id) e in
              let! (h, cl) := add_whowas (uwhowas st !! id) new (clinks st) in
              Ok (e, set_head (uwhowas st) id h, cl)
            else Ok (set_online None e, uwhowas st, clinks st) in
          let hv := hashv e in
          let! _ := require ((0 <=? hv) && (hv <? WHOWAS_HASH_TABLE_SIZE)) in
          let! (h, hl) := add_whowas (WHOWASHASH st !! hv) new (hlinks st) in
          let next := S new in
          let next := if (next =? NICKNAMEHISTORYLENGTH)%nat then 0%nat else next in
          Ok (WS (<[new := e]> (WHOWAS st)) hl cl (set_head (WHOWASHASH st) hv h) uw next (wlive st))
      end
  end.

(** One round of the loop of [off_history]. *)
Definition off_history_body (id : nat) (s : wstate * option nat)
  : res (step (wstate * option nat) wstate) :=
  let '(st, temp) := s in
  match temp with
  | None => Ok (Done st)
  | Some t =>
      let! (next, _) := get_links (clinks st) t in
      match WHOWAS st !! t with
      | None => UB
      | Some e =>
          let! (h, cl) := del_whowas (uwhowas st !! id) t (clinks st) in
          Ok (Next (WS (<[t := set_online None e]> (WHOWAS st)) (hlinks st) cl
                      (WHOWASHASH st) (set_head (uwhowas st) id h) (whowas_next st) (wlive st),
                    next))
      end
  end.
Definition off_history (id : nat) (st : wstate) : res wstate :=
  let! _ := require (bool_decide (id ∈ wlive st)) in
  loop (off_history_body id) (S (S (size (clinks st)))) (st, uwhowas st !! id).

(** The walk of [get_history]; [limit] is [TStime() - timelimit]. *)
Fixpoint get_history_from (fuel : nat) (st : wstate) (nick : list Z) (limit : Z) (temp : option nat)
  : res (option nat) :=
  match fuel with
  | O => NoFuel
  | S f =>
      match temp with
      | None => Ok None
      | Some t =>
          match WHOWAS st !! t with
          | Some e =>
              match w_name e with
              | None => UB
              | Some name =>
                  let! differs := mycmp nick name in
                  let! (next, _) := get_links (hlinks st) t in
                  if differs then get_history_from f st nick limit next
                  else if w_logoff e <? limit then get_history_from f st nick limit next
                  else Ok (w_online e)
              end
          | None => UB
          end
      end
  end.
Definition get_history (nick : list Z) (timelimit now : Z) (st : wstate) : res (option nat) :=
  get_history_from (S (S (size (hlinks st)))) st nick (now - timelimit)
    (WHOWASHASH st !! hash_name nick).

(** The number of used entries; [um] is this times the size of an entry. *)
Definition count_whowas_memory (st : wstate) (sizeof : Z) : Z * Z :=
  let u := Z.of_nat (length (filter (λ i, hv st i ≠ -1) (seq 0 NICKNAMEHISTORYLENGTH))) in
  (u, u * sizeof).

Definition initwhowas (st : wstate) : wstate :=
  WS (list_to_map (map (λ i, (i, entry0)) (seq 0 NICKNAMEHISTORYLENGTH)))
     (list_to_map (map (λ i, (i, (None, None))) (seq 0 NICKNAMEHISTORYLENGTH)))
     (list_to_map (map (λ i, (i, (None, None))) (seq 0 NICKNAMEHISTORYLENGTH)))
     ∅ (uwhowas st) (whowas_next st) (wlive st).

(** ** The ring *)

(** The slots from the newest to the oldest, when [n] is filled next. *)
Definition ring (n : nat) : list nat :=
  map (λ i, (n + NICKNAMEHISTORYLENGTH - 1 - i) mod NICKNAMEHISTORYLENGTH)%nat
      (seq 0 NICKNAMEHISTORYLENGTH).
Definition ring_tail (n : nat) : list nat :=
  map (λ i, (n + NICKNAMEHISTORYLENGTH - 1 - i) mod NICKNAMEHISTORYLENGTH)%nat
      (seq 0 (NICKNAMEHISTORYLENGTH - 1)).
Definition ring_next (n : nat) : nat :=
  if (S n =? NICKNAMEHISTORYLENGTH)%nat then 0%nat else S n.

Lemma NHL_pos : (1 < NICKNAMEHISTORYLENGTH)%nat.
Proof. unfold NICKNAMEHISTORYLENGTH. lia. Qed.
#[local] Opaque NICKNAMEHISTORYLENGTH.

Lemma ring_snoc n : (n < NICKNAMEHISTORYLENGTH)%nat → ring n = ring_tail n ++ [n].
Proof.
  intros Hn. unfold ring, ring_tail. pose proof NHL_pos.
  set (N := NICKNAMEHISTORYLENGTH) in *.
  replace (seq 0 N) with (seq 0 (N - 1) ++ [0 + (N - 1)]%nat)
    by (rewrite <-seq_S; f_equal; lia).
  rewrite map_app. f_equal. simpl. f_equal.
  replace (n + N - 1 - (N - 1))%nat with n by lia. by apply Nat.mod_small.
Qed.

Lemma ring_cons n :
  (n < NICKNAMEHISTORYLENGTH)%nat → ring (ring_next n) = n :: ring_tail n.
Proof.
  intros Hn. unfold ring, ring_tail. pose proof NHL_pos as Hp.
  set (N := NICKNAMEHISTORYLENGTH) in *.
  assert (∀ i, (i < N)%nat → (ring_next n + N - 1 - i) mod N = (n + N - i) mod N)%nat as Hr.
  { intros i Hi. unfold ring_next. fold N. destruct (Nat.eqb_spec (S n) N) as [E|E].
    - replace (n + N - i)%nat with (0 + N - 1 - i + 1 * N)%nat by lia.
      by rewrite Nat.Div0.mod_add.
    - f_equal. lia. }
  replace (seq 0 N) with (0 :: seq 1 (N - 1))%nat
    by (change (0 :: seq 1 (N - 1))%nat with (seq 0 (S (N - 1))); f_equal; lia).
  cbn [map]. f_equal.
  - rewrite Hr by lia. replace (n + N - 0)%nat with (n + 1 * N)%nat by lia.
    rewrite Nat.Div0.mod_add. by apply Nat.mod_small.
  - rewrite <-seq_shift, map_map. apply map_ext_in. intros i [_ Hi]%in_seq.
    rewrite Hr by lia. f_equal. lia.
Qed.

Lemma ring_elem n w :
  (n < NICKNAMEHISTORYLENGTH)%nat → w ∈ ring n ↔ (w < NICKNAMEHISTORYLENGTH)%nat.
Proof.
  intros Hn. pose proof NHL_pos. unfold ring. rewrite list_elem_of_fmap. split.
  - intros (i & -> & _). apply Nat.mod_upper_bound. lia.
  - intros Hw. set (N := NICKNAMEHISTORYLENGTH) in *.
    destruct (decide (w < n)%nat).
    + exists (n - 1 - w)%nat. split; [|apply elem_of_seq; lia].
      replace (n + N - 1 - (n - 1 - w))%nat with (w + 1 * N)%nat by lia.
      rewrite Nat.Div0.mod_add. by rewrite Nat.mod_small.
    + exists (n + N - 1 - w)%nat. split; [|apply elem_of_seq; lia].
      replace (n + N - 1 - (n + N - 1 - w))%nat with w by lia. by rewrite Nat.mod_small.
Qed.

Lemma ring_length n : length (ring n) = NICKNAMEHISTORYLENGTH.
Proof. unfold ring. by rewrite length_map, length_seq. Qed.

Lemma ring_NoDup n : (n < NICKNAMEHISTORYLENGTH)%nat → NoDup (ring n).
Proof.
  intros Hn. apply NoDup_ListNoDup.
  apply (NoDup_incl_NoDup (seq_NoDup NICKNAMEHISTORYLENGTH 0)).
  - by rewrite ring_length, length_seq.
  - intros x [_ Hx]%in_seq. apply list_elem_of_In, ring_elem; [done|lia].
Qed.

(** ** The invariant *)

(** The hash value of a used slot. *)
Definition hk (st : wstate) (w : nat) : option Z :=
  if hv st w =? -1 then None else Some (hv st w).

(** A used entry has a name, and the hash value of that name; a free entry
    has no account. *)
Definition entry_ok (e : WhoWas) : Prop :=
  (hashv e ≠ -1 → ∃ n, w_name e = Some n ∧ cstr n ∧ n ≠ [] ∧ hashv e = hash_name n) ∧
  (hashv e = -1 → w_account e = None).
Definition entries_ok (E : gmap nat WhoWas) : Prop := ∀ w e, E !! w = Some e → entry_ok e.

Lemma entries_ok_insert E w e : entries_ok E → entry_ok e → entries_ok (<[w := e]> E).
Proof. intros HE He x e' [[_ <-]|[_ Hx]]%lookup_insert_Some; [done|by eapply HE]. Qed.

Record core (st : wstate) : Prop := {
  wi_next : (whowas_next st < NICKNAMEHISTORYLENGTH)%nat;
  wi_bound : ∀ w, ¬ (w < NICKNAMEHISTORYLENGTH)%nat → WHOWAS st !! w = None;
  wi_dom : ∀ w, (w < NICKNAMEHISTORYLENGTH)%nat →
    is_Some (WHOWAS st !! w) ∧ is_Some (hlinks st !! w) ∧ is_Some (clinks st !! w);
  wi_entry : entries_ok (WHOWAS st);
  wi_hash : family (hlinks st) (WHOWASHASH st) (hk st) (ring (whowas_next st));
  wi_client : family (clinks st) (uwhowas st) (on st) (ring (whowas_next st));
  wi_live : ∀ w c, on st w = Some c → c ∈ wlive st
}.

Lemma bound_insert (E : gmap nat WhoWas) w e :
  (w < NICKNAMEHISTORYLENGTH)%nat → (∀ x, ¬ (x < NICKNAMEHISTORYLENGTH)%nat → E !! x = None) →
  ∀ x, ¬ (x < NICKNAMEHISTORYLENGTH)%nat → <[w := e]> E !! x = None.
Proof. intros Hw HE x Hx. rewrite lookup_insert_ne by (by intros ->). by apply HE. Qed.

(** The ring is filled from slot 0, and full once it has wrapped around. *)
Definition filled (st : wstate) : Prop :=
  (∀ w, (w < NICKNAMEHISTORYLENGTH)%nat → hv st w ≠ -1 ↔ (w < whowas_next st)%nat) ∨
  (∀ w, (w < NICKNAMEHISTORYLENGTH)%nat → hv st w ≠ -1).

Definition winv (st : wstate) : Prop := core st ∧ filled st.

Lemma hash_name_range n : 0 ≤ hash_name n < WHOWAS_HASH_TABLE_SIZE.
Proof. unfold hash_name, hash_whowas_name. by apply Z.mod_pos_bound. Qed.


Lemma hk_entry st w e : WHOWAS st !! w = Some e → hk st w = if hashv e =? -1 then None else Some (hashv e).
Proof. intros He. unfold hk, hv. by rewrite He. Qed.
Lemma on_entry st w e : WHOWAS st !! w = Some e → on st w = if hashv e =? -1 then None else w_online e.
Proof. intros He. unfold on. by rewrite He. Qed.

(** Only slot [w] differs between two states. *)
Definition same_but (w : nat) (st st' : wstate) : Prop :=
  ∀ x, x ≠ w → WHOWAS st' !! x = WHOWAS st !! x.
Lemma same_but_hv w st st' x : same_but w st st' → x ≠ w → hv st' x = hv st x.
Proof. intros Hs Hx. unfold hv. by rewrite Hs. Qed.
Lemma same_but_hk w st st' x : same_but w st st' → x ≠ w → hk st' x = hk st x.
Proof. intros Hs Hx. unfold hk. by rewrite (same_but_hv w st). Qed.
Lemma same_but_on w st st' x : same_but w st st' → x ≠ w → on st' x = on st x.
Proof. intros Hs Hx. unfold on. by rewrite Hs. Qed.
Lemma insert_same_but w e st hl cl hh uw nx lv :
  same_but w st (WS (<[w := e]> (WHOWAS st)) hl cl hh uw nx lv).
Proof. intros x Hx. simpl. by apply lookup_insert_ne. Qed.

Lemma free_ok st w e :
  core st → (w < NICKNAMEHISTORYLENGTH)%nat → WHOWAS st !! w = Some e → hashv e ≠ -1 →
  ∃ st', free_whowas_entry w st = Ok st' ∧ core st' ∧
    WHOWAS st' = <[w := free_whowas_fields e]> (WHOWAS st) ∧
    whowas_next st' = whowas_next st ∧ wlive st' = wlive st.
Proof.
  intros HC Hw He Hne. pose proof (wi_next _ HC) as Hnext.
  pose proof (ring_NoDup _ Hnext) as HRnd.
  assert (w ∈ ring (whowas_next st)) as HwR by (by apply ring_elem).
  destruct (proj1 (wi_entry _ HC _ _ He) Hne) as (n & _ & _ & _ & Hhash).
  pose proof (hash_name_range n) as Hrange. rewrite <-Hhash in Hrange.
  set (entries := <[w := free_whowas_fields e]> (WHOWAS st)).
  set (k' := λ x, if decide (x = w) then None else hk st x).
  set (o' := λ x, if decide (x = w) then None else on st x).
  assert (∀ hl cl hh uw, ∀ x, hk (WS entries hl cl hh uw (whowas_next st) (wlive st)) x = k' x) as Hk'.
  { intros hl cl hh uw x. unfold k'. case_decide as Hx.
    - subst x. apply (hk_entry _ _ (free_whowas_fields e)). simpl. unfold entries. by rewrite lookup_insert_eq.
    - apply (same_but_hk w st); [apply insert_same_but|done]. }
  assert (∀ hl cl hh uw, ∀ x, on (WS entries hl cl hh uw (whowas_next st) (wlive st)) x = o' x) as Ho'.
  { intros hl cl hh uw x. unfold o'. case_decide as Hx.
    - subst x. apply (on_entry _ _ (free_whowas_fields e)). simpl. unfold entries. by rewrite lookup_insert_eq.
    - apply (same_but_on w st); [apply insert_same_but|done]. }
  destruct (family_unlink (hlinks st) (WHOWASHASH st) (hk st) k' (ring (whowas_next st)) w (hashv e))
    as (h & hl & Hdel & Hfam & Hdom); [done|done| | | |apply (wi_hash _ HC)|].
  { rewrite (hk_entry _ _ _ He). by destruct (Z.eqb_spec (hashv e) (-1)). }
  { unfold k'. by rewrite decide_True. }
  { intros x Hx. unfold k'. by rewrite decide_False. }
  assert (∃ uw cl, match w_online e with
        | None => Ok (uwhowas st, clinks st)
        | Some c =>
            let! _ := require (bool_decide (c ∈ wlive st)) in
            let! (h, cl) := del_whowas (uwhowas st !! c) w (clinks st) in
            Ok (set_head (uwhowas st) c h, cl)
        end = Ok (uw, cl) ∧ family cl uw o' (ring (whowas_next st)) ∧
        (∀ x, is_Some (clinks st !! x) ↔ is_Some (cl !! x))) as (uw & cl & Hcl & Hcfam & Hcdom).
  { pose proof (on_entry _ _ _ He) as Hon. destruct (Z.eqb_spec (hashv e) (-1)) as [|_]; [done|].
    destruct (w_online e) as [c|].
    - destruct (family_unlink (clinks st) (uwhowas st) (on st) o' (ring (whowas_next st)) w c)
        as (h2 & cl & Hdel2 & Hfam2 & Hdom2); [done|done|done| | |apply (wi_client _ HC)|].
      { unfold o'. by rewrite decide_True. }
      { intros x Hx. unfold o'. by rewrite decide_False. }
      rewrite bool_decide_eq_true_2 by (by eapply (wi_live _ HC)). cbn [require rbind].
      rewrite Hdel2. cbn [rbind]. by eexists _, _.
    - exists (uwhowas st), (clinks st). split; [done|]. split; [|done].
      eapply family_ext; [|apply (wi_client _ HC)]. intros x _. unfold o'. case_decide; [|done].
      by subst x. }
  unfold free_whowas_entry. rewrite He. fold entries. rewrite Hcl. cbn [rbind].
  rewrite (proj2 (Z.leb_le _ _)), (proj2 (Z.ltb_lt _ _)) by lia. cbn [andb require rbind].
  rewrite Hdel. cbn [rbind]. eexists. split; [done|]. split; [|done]. split; simpl.
  - done.
  - by apply bound_insert, (wi_bound _ HC).
  - intros x Hx. destruct (wi_dom _ HC x Hx) as (H1 & H2 & H3). rewrite <-Hdom, <-Hcdom.
    split; [|done]. unfold entries. destruct (decide (w = x)) as [->|];
      [rewrite lookup_insert_eq; by eexists|by rewrite lookup_insert_ne].
  - apply entries_ok_insert; [apply (wi_entry _ HC)|]. by split.
  - eapply family_ext; [|exact Hfam]. intros x _. apply Hk'.
  - eapply family_ext; [|exact Hcfam]. intros x _. apply Ho'.
  - intros x c. rewrite Ho'. unfold o'. case_decide; [done|]. apply (wi_live _ HC).
Qed.

Definition new_entry (id : nat) (c : wclient) (online : bool) (event now : Z) (e : WhoWas) : WhoWas :=
  set_online (if online then Some id else None) (create_whowas_entry c event now e).

Lemma add_new st id c online event now e :
  core st → WHOWAS st !! whowas_next st = Some e → hashv e = -1 → id ∈ wlive st →
  cstr (wc_name c) → wc_name c ≠ [] →
  ∃ st', add_history id c online event now st = Ok st' ∧ core st' ∧
    WHOWAS st' = <[whowas_next st := new_entry id c online event now e]> (WHOWAS st) ∧
    whowas_next st' = ring_next (whowas_next st) ∧ wlive st' = wlive st.
Proof.
  intros HC He Hfree Hlive Hname Hne. pose proof (wi_next _ HC) as Hnext.
  set (w := whowas_next st) in *. pose proof (ring_NoDup _ Hnext) as HRnd.
  rewrite (ring_snoc w Hnext) in HRnd. apply NoDup_app in HRnd as (_ & Hwr & _).
  assert (w ∉ ring_tail w) as Hw by (intros ?; by eapply Hwr; [|apply list_elem_of_singleton]).
  destruct (wi_dom _ HC w Hnext) as (_ & Hhl & Hcl).
  set (e' := new_entry id c online event now e). set (entries := <[w := e']> (WHOWAS st)).
  assert (hashv e' = hash_name (wc_name c)) as Hh' by done.
  pose proof (hash_name_range (wc_name c)) as Hrange.
  set (k' := λ x, if decide (x = w) then Some (hash_name (wc_name c)) else hk st x).
  set (o' := λ x, if decide (x = w) then (if online then Some id else None) else on st x).
  assert (∀ hl cl hh uw nx lv x, hk (WS entries hl cl hh uw nx lv) x = k' x) as Hk'.
  { intros hl cl hh uw nx lv x. unfold k'. case_decide as Hx.
    - subst x. rewrite (hk_entry _ _ e') by (simpl; unfold entries; by rewrite lookup_insert_eq).
      rewrite Hh'. destruct (Z.eqb_spec (hash_name (wc_name c)) (-1)); [lia|done].
    - apply (same_but_hk w st); [apply insert_same_but|done]. }
  assert (∀ hl cl hh uw nx lv x, on (WS entries hl cl hh uw nx lv) x = o' x) as Ho'.
  { intros hl cl hh uw nx lv x. unfold o'. case_decide as Hx.
    - subst x. rewrite (on_entry _ _ e') by (simpl; unfold entries; by rewrite lookup_insert_eq).
      rewrite Hh'. destruct (Z.eqb_spec (hash_name (wc_name c)) (-1)); [lia|done].
    - apply (same_but_on w st); [apply insert_same_but|done]. }
  assert (hk st w = None) as Hkw by (rewrite (hk_entry _ _ _ He), Hfree; done).
  assert (on st w = None) as How by (rewrite (on_entry _ _ _ He), Hfree; done).
  pose proof (wi_hash _ HC) as HF. fold w in HF. rewrite (ring_snoc w Hnext) in HF.
  pose proof (wi_client _ HC) as HG. fold w in HG. rewrite (ring_snoc w Hnext) in HG.
  destruct (family_push (hlinks st) (WHOWASHASH st) (hk st) k' (ring_tail w) w
    (hash_name (wc_name c))) as (hl & Hadd & Hfam & Hdom); [done| | |done|done|done|].
  { unfold k'. by rewrite decide_True. }
  { intros x Hx. unfold k'. by rewrite decide_False. }
  assert (∃ uw cl, (if online then
              let e := set_online (Some id) (create_whowas_entry c event now e) in
              let! (h, cl) := add_whowas (uwhowas st !! id) w (clinks st) in
              Ok (e, set_head (uwhowas st) id h, cl)
            else Ok (set_online None (create_whowas_entry c event now e), uwhowas st, clinks st))
      = Ok (e', uw, cl) ∧ family cl uw o' (w :: ring_tail w) ∧
      (∀ x, is_Some (clinks st !! x) ↔ is_Some (cl !! x))) as (uw & cl & Hcase & Hcfam & Hcdom).
  { destruct online.
    - destruct (family_push (clinks st) (uwhowas st) (on st) o' (ring_tail w) w id)
        as (cl & Hadd2 & Hfam2 & Hdom2); [done| | |done|done|done|].
      { unfold o'. by rewrite decide_True. }
      { intros x Hx. unfold o'. by rewrite decide_False. }
      cbn zeta. rewrite Hadd2. cbn [rbind]. by eexists _, _.
    - eexists _, _. split; [done|]. split; [|done].
      eapply family_rotate; [exact How| | |exact Hw|exact HG].
      + unfold o'. by rewrite decide_True.
      + intros x Hx. unfold o'. by rewrite decide_False. }
  unfold add_history. fold w. rewrite He, Hfree. cbn [negb Z.eqb Pos.eqb rbind]. rewrite He.
  rewrite bool_decide_eq_true_2 by done. cbn [require rbind]. cbv zeta in Hcase |- *. rewrite Hcase. cbn [rbind].
  rewrite Hh', (proj2 (Z.leb_le _ _)), (proj2 (Z.ltb_lt _ _)) by lia. cbn [andb require rbind].
  rewrite Hadd. cbn [rbind]. fold entries. eexists. split; [done|]. fold (ring_next w).
  split; [|done]. split; simpl.
  - unfold ring_next. pose proof NHL_pos. bool_cases.
  - by apply bound_insert, (wi_bound _ HC).
  - intros x Hx. destruct (wi_dom _ HC x Hx) as (H1 & H2 & H3). rewrite <-Hdom, <-Hcdom.
    split; [|done]. unfold entries. destruct (decide (w = x)) as [->|];
      [rewrite lookup_insert_eq; by eexists|by rewrite lookup_insert_ne].
  - apply entries_ok_insert; [apply (wi_entry _ HC)|]. split; [|lia]. intros _. by exists (wc_name c).
  - rewrite (ring_cons w Hnext). eapply family_ext; [|exact Hfam]. intros x _. apply Hk'.
  - rewrite (ring_cons w Hnext). eapply family_ext; [|exact Hcfam]. intros x _. apply Ho'.
  - intros x d. rewrite Ho'. unfold o'. case_decide; [|apply (wi_live _ HC)].
    destruct online; [by intros [= <-]|done].
Qed.

(** ** The abstract history *)

Definition used (E : gmap nat WhoWas) (w : nat) : option WhoWas :=
  e ← E !! w; if hashv e =? -1 then None else Some e.
(** The used entries, newest first. *)
Definition hist (st : wstate) : list WhoWas := omap (used (WHOWAS st)) (ring (whowas_next st)).

(** Spec of the three operations. *)
Definition spec_entry (id : nat) (c : wclient) (online : bool) (event now : Z) : WhoWas :=
  new_entry id c online event now entry0.
Definition spec_add (id : nat) (c : wclient) (online : bool) (event now : Z) (h : list WhoWas)
  : list WhoWas :=
  take NICKNAMEHISTORYLENGTH (spec_entry id c online event now :: h).
Definition clear_online (id : nat) (e : WhoWas) : WhoWas :=
  if decide (w_online e = Some id) then set_online None e else e.
Definition spec_off (id : nat) (h : list WhoWas) : list WhoWas := map (clear_online id) h.
Fixpoint spec_get (nick : list Z) (limit : Z) (h : list WhoWas) : option nat :=
  match h with
  | [] => None
  | e :: r =>
      if decide (casefold <$> w_name e = Some (casefold nick) ∧ limit ≤ w_logoff e)
      then w_online e else spec_get nick limit r
  end.

Lemma omap_cons_eq E w (l : list nat) :
  omap (used E) (w :: l) =
  match used E w with Some e => e :: omap (used E) l | None => omap (used E) l end.
Proof. done. Qed.

Lemma omap_used_ext E E' (l : list nat) :
  (∀ w, w ∈ l → E' !! w = E !! w) → omap (used E') l = omap (used E) l.
Proof.
  induction l as [|w l IH]; intros HE; [done|]. rewrite !omap_cons_eq. unfold used at 1 4.
  rewrite HE by (apply elem_of_cons; by left). rewrite IH; [done|].
  intros x Hx. apply HE. apply elem_of_cons. by right.
Qed.

Lemma used_length E (l : list nat) : (length (omap (used E) l) ≤ length l)%nat.
Proof. induction l as [|w l IH]; [done|]. rewrite omap_cons_eq. destruct (used E w); simpl; lia. Qed.

Lemma used_full E (l : list nat) :
  (∀ w, w ∈ l → is_Some (used E w)) → length (omap (used E) l) = length l.
Proof.
  induction l as [|w l IH]; intros HE; [done|]. rewrite omap_cons_eq.
  destruct (HE w) as [e He]; [apply elem_of_cons; by left|]. rewrite He. simpl. f_equal.
  apply IH. intros x Hx. apply HE. apply elem_of_cons. by right.
Qed.

Lemma hv_used st w : hv st w ≠ -1 ↔ is_Some (used (WHOWAS st) w).
Proof.
  unfold hv, used. destruct (WHOWAS st !! w) as [e|]; simpl.
  - destruct (Z.eqb_spec (hashv e) (-1)) as [->|]; split; try done; by intros [? ?].
  - split; [done|by intros [? ?]].
Qed.

Lemma ring_tail_length n : length (ring_tail n) = (NICKNAMEHISTORYLENGTH - 1)%nat.
Proof. unfold ring_tail. by rewrite length_map, length_seq. Qed.

Lemma ring_tail_lt n w :
  (n < NICKNAMEHISTORYLENGTH)%nat → w ∈ ring_tail n → (w < NICKNAMEHISTORYLENGTH)%nat ∧ w ≠ n.
Proof.
  intros Hn Hw. split.
  - apply (ring_elem n w Hn). rewrite (ring_snoc n Hn). apply elem_of_app. by left.
  - intros ->. pose proof (ring_NoDup _ Hn) as Hnd. rewrite (ring_snoc n Hn) in Hnd.
    apply NoDup_app in Hnd as (_ & Hd & _). by eapply Hd; [|apply list_elem_of_singleton].
Qed.

(** A new entry pushes out the oldest one when the ring is full. *)
Lemma hist_push st st' e' :
  (whowas_next st < NICKNAMEHISTORYLENGTH)%nat → filled st →
  whowas_next st' = ring_next (whowas_next st) →
  (∀ x, x ≠ whowas_next st → WHOWAS st' !! x = WHOWAS st !! x) →
  used (WHOWAS st') (whowas_next st) = Some e' →
  hist st' = take NICKNAMEHISTORYLENGTH (e' :: hist st) ∧ filled st'.
Proof.
  intros Hn Hfill Hnext Hsame He'. set (w := whowas_next st) in *. split.
  - unfold hist. rewrite Hnext. fold w. rewrite (ring_cons w Hn), (ring_snoc w Hn).
    rewrite omap_app, !omap_cons_eq, He'. pose proof NHL_pos.
    replace NICKNAMEHISTORYLENGTH with (S (NICKNAMEHISTORYLENGTH - 1)) by lia. simpl. f_equal.
    rewrite (omap_used_ext (WHOWAS st)); cycle 1.
    { intros x Hx. apply Hsame. by apply (ring_tail_lt w x Hn). }
    pose proof (used_length (WHOWAS st) (ring_tail w)) as Hlen. rewrite ring_tail_length in Hlen.
    destruct (used (WHOWAS st) w) as [e|] eqn:Ew; simpl.
    + rewrite take_app_le; [symmetry; apply take_ge; lia|]. rewrite used_full, ring_tail_length; [done|].
      intros x Hx. apply hv_used. destruct (ring_tail_lt w x Hn Hx) as [Hxn Hxw].
      destruct Hfill as [Hf|Hf]; [|by apply Hf]. exfalso.
      assert (hv st w ≠ -1) as Hw by (apply hv_used; by eexists). apply Hf in Hw; [|done]. lia.
    + rewrite app_nil_r, take_ge by lia. done.
  - assert (hv st' w ≠ -1) as Hw by (apply hv_used; rewrite He'; by eexists).
    assert (∀ x, x ≠ w → hv st' x = hv st x) as Hx by (intros x Hx; unfold hv; by rewrite Hsame).
    unfold filled. rewrite Hnext. fold w. destruct Hfill as [Hf|Hf].
    + unfold ring_next. destruct (Nat.eqb_spec (S w) NICKNAMEHISTORYLENGTH) as [E|E].
      * right. intros x Hxn. destruct (decide (x = w)) as [->|]; [done|]. rewrite Hx, Hf by done.
        fold w. lia.
      * left. intros x Hxn. destruct (decide (x = w)) as [->|]; [split; [lia|done]|].
        rewrite Hx, Hf by done. fold w. lia.
    + right. intros x Hxn. destruct (decide (x = w)) as [->|]; [done|]. rewrite Hx by done. by apply Hf.
Qed.

Lemma add_history_ok st id c online event now :
  winv st → id ∈ wlive st → cstr (wc_name c) → wc_name c ≠ [] →
  ∃ st', add_history id c online event now st = Ok st' ∧ winv st' ∧
    hist st' = spec_add id c online event now (hist st) ∧ wlive st' = wlive st.
Proof.
  intros [HC Hfill] Hlive Hname Hne. pose proof (wi_next _ HC) as Hn.
  destruct (wi_dom _ HC _ Hn) as ([e He] & _ & _).
  pose proof (hash_name_range (wc_name c)) as Hrange.
  assert (∀ e0, w_account e0 = None →
    new_entry id c online event now e0 = spec_entry id c online event now) as Hspec.
  { intros e0 Ha. unfold spec_entry, new_entry, create_whowas_entry, set_online. simpl. by rewrite Ha. }
  assert (∀ E e0, w_account e0 = None →
    used (<[whowas_next st := new_entry id c online event now e0]> E) (whowas_next st) =
    Some (spec_entry id c online event now)) as Hused.
  { intros E e0 Ha. unfold used. rewrite lookup_insert_eq. simpl.
    destruct (Z.eqb_spec (hash_name (wc_name c)) (-1)); [lia|]. by rewrite Hspec. }
  destruct (decide (hashv e = -1)) as [Hf|Hf].
  - destruct (add_new st id c online event now e HC He Hf Hlive Hname Hne)
      as (st' & Hst' & HC' & HW & Hnx & Hlv).
    pose proof (proj2 (wi_entry _ HC _ _ He) Hf) as Ha.
    destruct (hist_push st st' (spec_entry id c online event now) Hn Hfill Hnx) as [Hh Hf'].
    { intros x Hx. rewrite HW. by apply lookup_insert_ne. }
    { rewrite HW. by apply Hused. }
    exists st'. by split_and!.
  - destruct (free_ok st _ e HC Hn He Hf) as (st1 & Hst1 & HC1 & HW1 & Hn1 & Hlv1).
    assert (WHOWAS st1 !! whowas_next st1 = Some (free_whowas_fields e)) as He1.
    { rewrite HW1, Hn1. apply lookup_insert_eq. }
    destruct (add_new st1 id c online event now (free_whowas_fields e) HC1 He1)
      as (st' & Hst' & HC' & HW & Hnx & Hlv); [done|by rewrite Hlv1|done|done|].
    destruct (hist_push st st' (spec_entry id c online event now) Hn Hfill) as [Hh Hf'].
    { by rewrite Hnx, Hn1. }
    { intros x Hx. rewrite HW, HW1, Hn1. by rewrite !lookup_insert_ne. }
    { rewrite HW, Hn1. by apply Hused. }
    exists st'. split; [|split; [done|split; [done|congruence]]].
    unfold add_history in Hst' |- *. rewrite He.
    destruct (Z.eqb_spec (hashv e) (-1)) as [|_]; [done|]. cbn [negb]. rewrite Hst1. cbn [rbind].
    rewrite He1 in Hst'. cbn [free_whowas_fields hashv negb Z.eqb Pos.eqb rbind] in Hst'.
    rewrite He1 in Hst'. rewrite Hn1 in Hst', He1. rewrite He1. exact Hst'.
Qed.

(** ** [off_history] *)

Lemma del_whowas_first hd t L n h L' :
  L !! t = Some (n, None) → del_whowas hd t L = Ok (h, L') → h = n.
Proof.
  intros Ht. unfold del_whowas, get_links. rewrite Ht. cbn [rbind set_next_opt]. rewrite Ht.
  cbn [rbind]. destruct (set_prev_opt L n None); simpl; congruence.
Qed.

Lemma clear_online_twice id e : clear_online id (clear_online id e) = clear_online id e.
Proof. unfold clear_online. repeat case_decide; done. Qed.

Definition off_inv (id : nat) (st0 : wstate) (s : wstate * option nat) : Prop :=
  let '(st, temp) := s in
  core st ∧ temp = uwhowas st !! id ∧ whowas_next st = whowas_next st0 ∧ wlive st = wlive st0 ∧
  (∀ w, hv st w = hv st0 w) ∧ map (clear_online id) (hist st) = map (clear_online id) (hist st0).

(** Taking one entry off the list of its client. *)
Lemma unlink_online st id t e h cl :
  core st → WHOWAS st !! t = Some e → hashv e ≠ -1 → w_online e = Some id →
  let st' := WS (<[t := set_online None e]> (WHOWAS st)) (hlinks st) cl (WHOWASHASH st)
                (set_head (uwhowas st) id h) (whowas_next st) (wlive st) in
  (∀ x, is_Some (clinks st !! x) ↔ is_Some (cl !! x)) →
  family cl (set_head (uwhowas st) id h) (on st') (ring (whowas_next st)) →
  core st' ∧ (∀ w, hv st' w = hv st w) ∧
  map (clear_online id) (hist st') = map (clear_online id) (hist st).
Proof.
  intros HC He Hne Hon st' Hdom Hfam.
  assert (same_but t st st') as Hs by apply insert_same_but.
  assert (WHOWAS st' !! t = Some (set_online None e)) as He' by (simpl; by rewrite lookup_insert_eq).
  assert (∀ w, hv st' w = hv st w) as Hhv.
  { intros w. destruct (decide (w = t)) as [->|]; [|by apply (same_but_hv t)].
    unfold hv. by rewrite He', He. }
  split; [|split; [done|]].
  - split; simpl.
    + apply (wi_next _ HC).
    + apply bound_insert, (wi_bound _ HC). destruct (decide (t < NICKNAMEHISTORYLENGTH)%nat) as [|Ht];
        [done|]. by rewrite (wi_bound _ HC t Ht) in He.
    + intros x Hx. destruct (wi_dom _ HC x Hx) as (H1 & H2 & H3). rewrite <-Hdom. split; [|done].
      destruct (decide (t = x)) as [->|]; [rewrite lookup_insert_eq; by eexists|by rewrite lookup_insert_ne].
    + apply entries_ok_insert; [apply (wi_entry _ HC)|]. apply (wi_entry _ HC _ _ He).
    + eapply family_ext; [|apply (wi_hash _ HC)]. intros w _. unfold hk. by rewrite Hhv.
    + done.
    + intros w c Hw. change (on st' w = Some c) in Hw. destruct (decide (w = t)) as [->|Hwt].
      * rewrite (on_entry _ _ _ He') in Hw. simpl in Hw. by destruct (hashv e =? -1).
      * apply (wi_live _ HC w). by rewrite <-(same_but_on t st st' w).
  - clear Hfam. unfold hist. change (whowas_next st') with (whowas_next st).
    induction (ring (whowas_next st)) as [|w l IH]; [done|]. rewrite !omap_cons_eq.
    assert (clear_online id <$> used (WHOWAS st') w = clear_online id <$> used (WHOWAS st) w) as Hu.
    { destruct (decide (w = t)) as [->|Hwt]; [|unfold used; by rewrite Hs].
      unfold used. rewrite He', He. simpl. destruct (hashv e =? -1); [done|]. simpl. f_equal.
      unfold clear_online. rewrite (decide_True _ _ Hon). by rewrite decide_False. }
    destruct (used (WHOWAS st') w) as [a|], (used (WHOWAS st) w) as [b|]; try done.
    injection Hu as Hu. cbn [map]. f_equal; [exact Hu|exact IH].
Qed.

Lemma off_history_body_spec id st0 s :
  off_inv id st0 s →
  ∃ o, off_history_body id s = Ok o ∧
    match o with
    | Next s' => off_inv id st0 s' ∧
        (length (filter (λ w, on s'.1 w = Some id) (ring (whowas_next st0))) <
         length (filter (λ w, on s.1 w = Some id) (ring (whowas_next st0))))%nat
    | Done st => core st ∧ whowas_next st = whowas_next st0 ∧ wlive st = wlive st0 ∧
        (∀ w, hv st w = hv st0 w) ∧ hist st = spec_off id (hist st0) ∧ ∀ w, on st w ≠ Some id
    end.
Proof.
  destruct s as [st temp]. intros (HC & -> & Hnx & Hlv & Hhv & Hh).
  pose proof (wi_next _ HC) as Hn. pose proof (wi_client _ HC id) as Hd.
  simpl. destruct (uwhowas st !! id) as [t|] eqn:Et; cycle 1.
  { eexists. split; [done|]. split_and!; try done.
    - apply dlist_nil_inv in Hd. unfold spec_off. rewrite <-Hh. unfold hist.
      rewrite Hnx in *. clear -Hd. induction (ring (whowas_next st0)) as [|w l IH]; [done|].
      rewrite omap_cons_eq. destruct (decide (on st w = Some id)) as [Hw|Hw];
        [by rewrite filter_cons_True in Hd|]. rewrite filter_cons_False in Hd by done.
      destruct (used (WHOWAS st) w) as [e|] eqn:Eu; [|by apply IH]. simpl. rewrite <-(IH Hd). f_equal.
      unfold clear_online. rewrite decide_False; [done|]. intros Ho. apply Hw.
      unfold used in Eu. apply bind_Some in Eu as (e' & He & Eu). unfold on. rewrite He.
      destruct (hashv e' =? -1); congruence.
    - intros w Hw. apply dlist_nil_inv in Hd.
      assert (w ∈ filter (λ w, on st w = Some id) (ring (whowas_next st))) as Hin.
      { apply list_elem_of_filter. split; [done|]. apply ring_elem; [done|].
        unfold on in Hw. destruct (decide (w < NICKNAMEHISTORYLENGTH)%nat) as [|Hge]; [done|].
        exfalso. by rewrite (wi_bound _ HC w Hge) in Hw. }
      rewrite Hd in Hin. by apply not_elem_of_nil in Hin. }
  destruct (family_head _ _ _ _ _ _ (wi_client _ HC) Et) as [HtR Hont].
  pose proof (proj1 (ring_elem _ _ Hn) HtR) as Htn.
  destruct (wi_dom _ HC t Htn) as ([e He] & _ & _).
  pose proof Hont as Hont'. rewrite (on_entry _ _ _ He) in Hont'.
  destruct (Z.eqb_spec (hashv e) (-1)) as [|Hne]; [done|].
  set (st1 := WS (<[t := set_online None e]> (WHOWAS st)) (hlinks st) (clinks st) (WHOWASHASH st)
                 (uwhowas st) (whowas_next st) (wlive st)).
  destruct (family_unlink (clinks st) (uwhowas st) (on st) (on st1) (ring (whowas_next st)) t id)
    as (h & cl & Hdel & Hfam & Hdom); [by apply ring_NoDup|done|done| | |apply (wi_client _ HC)|].
  { rewrite (on_entry st1 t (set_online None e)) by (simpl; by rewrite lookup_insert_eq). simpl.
    by destruct (hashv e =? -1). }
  { intros x Hx. apply (same_but_on t); [apply insert_same_but|done]. }
  assert (∃ n, clinks st !! t = Some (n, None)) as [n Hnt].
  { destruct Hd as [_ [q Hd]]. destruct (filter _ _) as [|x r]; [by destruct Hd|].
    destruct Hd as ([= <-] & n & Hx & _). by exists n. }
  rewrite Et in Hdel. pose proof (del_whowas_first _ _ _ _ _ _ Hnt Hdel) as ->.
  destruct (unlink_online st id t e n cl HC He Hne Hont' Hdom) as (HC' & Hhv' & Hh').
  { eapply family_ext; [|exact Hfam]. intros w _. done. }
  unfold get_links. rewrite Hnt. cbn [rbind]. rewrite He, Hdel. cbn [rbind].
  eexists. split; [done|]. split.
  - split_and!; [done| |done|done| |].
    + simpl. by rewrite set_head_eq.
    + intros w. by rewrite Hhv'.
    + by rewrite Hh'.
  - cbn [fst]. rewrite <-Hnx.
    destruct (filter_remove (λ w, on st w = Some id) (λ w, on st1 w = Some id)
      (ring (whowas_next st)) t) as (l1 & l2 & E1 & E2); [by apply ring_NoDup|done|done| |].
    { intros x _. destruct (decide (x = t)) as [->|Hx].
      - rewrite (on_entry st1 t (set_online None e)) by (simpl; by rewrite lookup_insert_eq). simpl.
        destruct (hashv e =? -1); naive_solver.
      - rewrite (same_but_on t st st1 x) by (try apply insert_same_but; done). tauto. }
    rewrite E1. erewrite (filter_ext_in _ (λ w, on st1 w = Some id)); [|done].
    rewrite E2, !length_app. simpl. lia.
Qed.

Lemma off_history_ok st id :
  winv st → id ∈ wlive st →
  ∃ st', off_history id st = Ok st' ∧ winv st' ∧ hist st' = spec_off id (hist st) ∧
    wlive st' = wlive st ∧ ∀ w, on st' w ≠ Some id.
Proof.
  intros [HC Hfill] Hlive. unfold off_history. rewrite bool_decide_eq_true_2 by done.
  cbn [require rbind].
  destruct (loop_total (off_history_body id) (off_inv id st)
    (λ s, length (filter (λ w, on s.1 w = Some id) (ring (whowas_next st))))
    (λ st', core st' ∧ whowas_next st' = whowas_next st ∧ wlive st' = wlive st ∧
        (∀ w, hv st' w = hv st w) ∧ hist st' = spec_off id (hist st) ∧ ∀ w, on st' w ≠ Some id)) with
    (fuel := S (S (size (clinks st)))) (s := (st, uwhowas st !! id))
    as (st' & -> & HC' & Hnx & Hlv & Hhv & Hh & Hon).
  - apply off_history_body_spec.
  - by split_and!.
  - pose proof (dlist_size _ _ _ (wi_client _ HC id)). simpl. lia.
  - exists st'. split; [done|]. split; [split; [done|]|by split].
    destruct Hfill as [Hf|Hf]; [left|right]; intros w Hw; rewrite Hhv, ?Hnx; by apply Hf.
Qed.

(** ** [get_history] *)

Lemma hash_name_ci a b : casefold a = casefold b → hash_name a = hash_name b.
Proof. intros E. unfold hash_name, hash_whowas_name. by rewrite (siphash_casefold a b). Qed.

(** What the walk finds in a list of entries. *)
Lemma get_history_from_spec st nick limit l fuel p hd q :
  cstr nick → lseg (hlinks st) p hd l None q →
  (∀ t, t ∈ l → ∃ e n, WHOWAS st !! t = Some e ∧ w_name e = Some n ∧ cstr n ∧ n ≠ []) →
  (length l < fuel)%nat →
  get_history_from fuel st nick limit hd = Ok (spec_get nick limit (omap (λ t, WHOWAS st !! t) l)).
Proof.
  intros Hnick. revert p hd fuel. induction l as [|t l IH]; intros p hd [|fuel] H Hall Hf;
    try (simpl in Hf; lia).
  { by destruct H as [-> _]. }
  destruct H as (-> & n & Ht & H). destruct (Hall t) as (e & nm & He & Hnm & Hc & Hne);
    [apply elem_of_cons; by left|].
  specialize (IH _ _ fuel H ltac:(intros x Hx; apply Hall; apply elem_of_cons; by right)
    ltac:(simpl in Hf; lia)).
  change (omap (λ t, WHOWAS st !! t) (t :: l)) with
    (match WHOWAS st !! t with Some e => e :: omap (λ t, WHOWAS st !! t) l
     | None => omap (λ t, WHOWAS st !! t) l end).
  cbn [get_history_from]. unfold get_links. rewrite He, Hnm, Ht. cbn [spec_get].
  rewrite mycmp_spec by auto. cbn [rbind]. rewrite Hnm. simpl.
  destruct (decide (casefold nm = casefold nick)) as [E|E].
  - rewrite bool_decide_eq_false_2 by (rewrite E; tauto).
    destruct (Z.ltb_spec (w_logoff e) limit).
    + rewrite IH. rewrite decide_False; [done|]. intros [_ ?]. lia.
    + rewrite decide_True; [done|]. split; [by rewrite E|lia].
  - rewrite bool_decide_eq_true_2 by congruence. rewrite IH.
    rewrite decide_False; [done|]. intros [[= ?] _]. done.
Qed.

Lemma spec_get_bucket st nick limit l :
  core st →
  spec_get nick limit (omap (λ t, WHOWAS st !! t) (filter (λ w, hk st w = Some (hash_name nick)) l)) =
  spec_get nick limit (omap (used (WHOWAS st)) l).
Proof.
  intros HC. induction l as [|w l IH]; [done|]. rewrite omap_cons_eq.
  unfold used at 1. destruct (WHOWAS st !! w) as [e|] eqn:He; simpl; cycle 1.
  { rewrite filter_cons_False; [done|]. unfold hk, hv. by rewrite He. }
  pose proof (hk_entry _ _ _ He) as Hk. destruct (Z.eqb_spec (hashv e) (-1)) as [_|Hne].
  { rewrite filter_cons_False; [done|]. by rewrite Hk. }
  destruct (decide (hashv e = hash_name nick)) as [E|E].
  - rewrite filter_cons_True by (by rewrite Hk, E).
    change (omap (λ t, WHOWAS st !! t) (w :: ?l)) with
      (match WHOWAS st !! w with Some e => e :: omap (λ t, WHOWAS st !! t) l
       | None => omap (λ t, WHOWAS st !! t) l end).
    simpl. rewrite He. simpl. by rewrite IH.
  - rewrite filter_cons_False by (rewrite Hk; congruence). simpl. rewrite IH.
    rewrite decide_False; [done|]. intros [Hn _].
    destruct (proj1 (wi_entry _ HC _ _ He) Hne) as (n & Hname & _ & _ & Hh).
    rewrite Hname in Hn. simpl in Hn. injection Hn as Hn. apply E. rewrite Hh. by apply hash_name_ci.
Qed.

Lemma get_history_ok st nick timelimit now :
  core st → cstr nick →
  get_history nick timelimit now st = Ok (spec_get nick (now - timelimit) (hist st)).
Proof.
  intros HC Hnick. unfold get_history. pose proof (wi_hash _ HC (hash_name nick)) as Hd.
  pose proof (dlist_size _ _ _ Hd) as Hsize. destruct Hd as [_ [q Hd]].
  erewrite get_history_from_spec; [|done|exact Hd| |lia].
  - unfold hist. by rewrite spec_get_bucket.
  - intros t [Ht _]%list_elem_of_filter. unfold hk, hv in Ht.
    destruct (WHOWAS st !! t) as [e|] eqn:He; [|done].
    destruct (Z.eqb_spec (hashv e) (-1)) as [|Hne]; [done|].
    destruct (proj1 (wi_entry _ HC _ _ He) Hne) as (n & ? & ? & ? & _). by exists e, n.
Qed.

(** ** Runs *)

Inductive wop :=
| WNew (id : nat)
| WAdd (id : nat) (c : wclient) (online : bool) (event now : Z)
| WOff (id : nat)
| WFree (id : nat)
| WGet (nick : list Z) (timelimit now : Z).

Definition set_live (lv : gset nat) (st : wstate) : wstate :=
  WS (WHOWAS st) (hlinks st) (clinks st) (WHOWASHASH st) (uwhowas st) (whowas_next st) lv.

(** [WNew] and [WFree] are the creation and the release of a client
    elsewhere in the server. *)
Definition whowas_op (st : wstate) (o : wop) : res (wstate * option (option nat)) :=
  match o with
  | WNew id => Ok (set_live ({[id]} ∪ wlive st) st, None)
  | WAdd id c online event now =>
      let! st := add_history id c online event now st in Ok (st, None)
  | WOff id => let! st := off_history id st in Ok (st, None)
  | WFree id => Ok (set_live (wlive st ∖ {[id]}) st, None)
  | WGet nick tl now => let! r := get_history nick tl now st in Ok (st, Some r)
  end.
Fixpoint whowas_run (st : wstate) (os : list wop) : res (wstate * list (option (option nat))) :=
  match os with
  | [] => Ok (st, [])
  | o :: os => let! (st, x) := whowas_op st o in
               let! (st, xs) := whowas_run st os in Ok (st, x :: xs)
  end.

(** The contract: nicknames are not empty, only live clients are recorded,
    and a client is released only when no entry is linked to it. *)
Definition hist_op (s : gset nat * list WhoWas) (o : wop)
  : option (gset nat * list WhoWas * option (option nat)) :=
  let '(lv, h) := s in
  match o with
  | WNew id => if decide (id ∉ lv) then Some ({[id]} ∪ lv, h, None) else None
  | WAdd id c online event now =>
      if decide (id ∈ lv ∧ cstr (wc_name c) ∧ wc_name c ≠ [])
      then Some (lv, spec_add id c online event now h, None) else None
  | WOff id => if decide (id ∈ lv) then Some (lv, spec_off id h, None) else None
  | WFree id => if decide (id ∈ lv ∧ Forall (λ e, w_online e ≠ Some id) h)
                then Some (lv ∖ {[id]}, h, None) else None
  | WGet nick tl now =>
      if decide (cstr nick) then Some (lv, h, Some (spec_get nick (now - tl) h)) else None
  end.
Fixpoint hist_run (s : gset nat * list WhoWas) (os : list wop)
  : option (gset nat * list WhoWas * list (option (option nat))) :=
  match os with
  | [] => Some (s, [])
  | o :: os => '(s, x) ← hist_op s o; '(s, xs) ← hist_run s os; Some (s, x :: xs)
  end.

Lemma winv_set_live st lv :
  winv st → (∀ w c, on st w = Some c → c ∈ lv) → winv (set_live lv st).
Proof. intros [HC Hf] Hl. split; [|exact Hf]. destruct HC. by split. Qed.

(** Every linked client is the client of a history entry. *)
Lemma on_hist st w c : core st → on st w = Some c → ∃ e, e ∈ hist st ∧ w_online e = Some c.
Proof.
  intros HC Hw. unfold on in Hw. destruct (WHOWAS st !! w) as [e|] eqn:He; [|done].
  destruct (hashv e =? -1) eqn:Eh; [done|]. exists e. split; [|done].
  apply list_elem_of_omap. exists w. split.
  - apply ring_elem; [apply (wi_next _ HC)|].
    destruct (decide (w < NICKNAMEHISTORYLENGTH)%nat) as [|Hge]; [done|].
    by rewrite (wi_bound _ HC w Hge) in He.
  - unfold used. rewrite He. simpl. by rewrite Eh.
Qed.

Lemma whowas_op_refines st o lv h x :
  winv st → hist_op (wlive st, hist st) o = Some (lv, h, x) →
  ∃ st', whowas_op st o = Ok (st', x) ∧ winv st' ∧ wlive st' = lv ∧ hist st' = h.
Proof.
  intros Hi. pose proof Hi as [HC _]. destruct o as [id|id c online event now|id|id|nick tl now]; simpl;
    (case_decide as Hd; [|done]); intros [= <- <- <-].
  - eexists. split; [done|]. split; [|done]. apply winv_set_live; [done|].
    intros w c Hw. apply elem_of_union. right. by eapply (wi_live _ HC).
  - destruct Hd as (Hid & Hc & Hne).
    destruct (add_history_ok st id c online event now Hi Hid Hc Hne) as (st' & -> & Hi' & Hh & Hlv).
    by exists st'.
  - destruct (off_history_ok st id Hi Hd) as (st' & -> & Hi' & Hh & Hlv & _). by exists st'.
  - destruct Hd as [Hid Hall]. eexists. split; [done|]. split; [|done].
    apply winv_set_live; [done|]. intros w c Hw. apply elem_of_difference.
    split; [by eapply (wi_live _ HC)|]. rewrite elem_of_singleton. intros ->.
    destruct (on_hist st w id HC Hw) as (e & He & Ho).
    rewrite Forall_forall in Hall. by apply (Hall e).
  - rewrite get_history_ok by done. by exists st.
Qed.

Lemma whowas_run_refines st os lv h xs :
  winv st → hist_run (wlive st, hist st) os = Some (lv, h, xs) →
  ∃ st', whowas_run st os = Ok (st', xs) ∧ winv st' ∧ wlive st' = lv ∧ hist st' = h.
Proof.
  revert st lv h xs. induction os as [|o os IH]; intros st lv h xs Hi; cbn [hist_run whowas_run].
  - intros [= <- <- <-]. by exists st.
  - destruct (hist_op (wlive st, hist st) o) as [[[lv1 h1] x]|] eqn:Eo; [|done]. simpl.
    destruct (whowas_op_refines _ _ _ _ _ Hi Eo) as (st1 & -> & Hi1 & <- & <-). simpl.
    destruct (hist_run (wlive st1, hist st1) os) as [[[lv2 h2] xs2]|] eqn:Er; [|done]. simpl.
    intros [= <- <- <-]. destruct (IH _ _ _ _ Hi1 Er) as (st2 & -> & ? & ? & ?). by exists st2.
Qed.

Definition wstate0 : wstate := initwhowas (WS ∅ ∅ ∅ ∅ ∅ 0 ∅).

Lemma init_lookup {A} (a : A) w :
  (list_to_map (map (λ i, (i, a)) (seq 0 NICKNAMEHISTORYLENGTH)) : gmap nat A) !! w =
  if decide (w < NICKNAMEHISTORYLENGTH)%nat then Some a else None.
Proof.
  generalize NICKNAMEHISTORYLENGTH as n. intros n.
  assert (∀ j, (list_to_map (map (λ i, (i, a)) (seq j n)) : gmap nat A) !! w =
    if decide (j ≤ w < j + n)%nat then Some a else None) as H.
  { induction n as [|n IH]; intros j; simpl.
    - rewrite lookup_empty. by rewrite decide_False by lia.
    - destruct (decide (w = j)) as [->|Hw].
      + rewrite lookup_insert_eq. by rewrite decide_True by lia.
      + rewrite lookup_insert_ne, IH by done. repeat case_decide; (done || lia). }
  rewrite H. repeat case_decide; (done || lia).
Qed.

Lemma wstate0_inv : winv wstate0 ∧ hist wstate0 = [] ∧ wlive wstate0 = ∅.
Proof.
  assert (∀ w, WHOWAS wstate0 !! w = if decide (w < NICKNAMEHISTORYLENGTH)%nat then Some entry0 else None)
    as HW by apply init_lookup.
  assert (∀ w, hv wstate0 w = -1) as Hhv by (intros w; unfold hv; rewrite HW; by case_decide).
  assert (∀ w, on wstate0 w = None) as Hon by (intros w; unfold on; rewrite HW; by case_decide).
  assert (∀ K (EK : EqDecision K) (CK : Countable K) (k : nat → option K) L R,
    (∀ w, k w = None) → family L ∅ k R) as Hfam.
  { intros K EK CK k L R Hk key. rewrite lookup_empty.
    replace (filter (λ w, k w = Some key) R) with (@nil nat).
    - split; [constructor|]. by exists None.
    - symmetry. induction R as [|w R IH]; [done|]. by rewrite filter_cons_False by (by rewrite Hk). }
  split; [|split; [|done]].
  - split; [split|].
    + pose proof NHL_pos. simpl. lia.
    + intros w Hw. rewrite HW. by rewrite decide_False.
    + intros w Hw. rewrite HW, decide_True by done. simpl. rewrite !init_lookup, !decide_True by done.
      by split_and!.
    + intros w e. rewrite HW. case_decide; [|done]. intros [= <-]. by split.
    + apply Hfam. intros w. unfold hk. by rewrite Hhv.
    + apply Hfam. apply Hon.
    + intros w c. by rewrite Hon.
    + left. intros w Hw. rewrite Hhv. simpl. split; [done|lia].
  - unfold hist. induction (ring (whowas_next wstate0)) as [|w l IH]; [done|].
    rewrite omap_cons_eq. unfold used at 1. rewrite HW. by case_decide.
Qed.

(** C27.  The ring with its hash lists and client lists implements a bounded
    history: any run of recordings, disconnects, client releases and lookups
    within the contract goes through without a bad pointer and gives the
    answers of a plain list of the last [NICKNAMEHISTORYLENGTH] entries,
    newest first, where a lookup returns the client of the first entry whose
    nickname is equal up to case and that is recent enough. *)
Theorem whowas_refines_history os lv h xs :
  hist_run (∅, []) os = Some (lv, h, xs) →
  ∃ st, whowas_run wstate0 os = Ok (st, xs) ∧ winv st ∧ wlive st = lv ∧ hist st = h.
Proof.
  intros H. destruct wstate0_inv as (Hi & Hh & Hl). apply whowas_run_refines; [done|].
  by rewrite Hl, Hh.
Qed.

Lemma spec_get_in nick limit h c :
  spec_get nick limit h = Some c → ∃ e, e ∈ h ∧ w_online e = Some c.
Proof.
  induction h as [|e h IH]; simpl; [done|]. case_decide.
  - intros Ho. exists e. split; [apply elem_of_cons; by left|done].
  - intros Hg. destruct (IH Hg) as (e' & He' & Ho). exists e'. split; [apply elem_of_cons; by right|done].
Qed.

(** The history never hands out a released client: after any run, the
    client returned by [get_history] is live, and the number of used slots
    that [count_whowas_memory] reports never exceeds the ring. *)
Theorem whowas_no_dangling os lv h xs nick timelimit now :
  hist_run (∅, []) os = Some (lv, h, xs) → cstr nick →
  ∃ st r, whowas_run wstate0 os = Ok (st, xs) ∧ get_history nick timelimit now st = Ok r ∧
    (∀ c, r = Some c → c ∈ lv) ∧
    (count_whowas_memory st 1).1 ≤ Z.of_nat NICKNAMEHISTORYLENGTH.
Proof.
  intros H Hnick. destruct wstate0_inv as (Hi & Hh & Hl). rewrite <-Hl, <-Hh in H.
  destruct (whowas_run_refines _ _ _ _ _ Hi H) as (st & Hrun & [HC _] & <- & <-).
  exists st, (spec_get nick (now - timelimit) (hist st)). split; [done|].
  split; [by apply get_history_ok|]. split.
  - clear Hrun H Hi Hh Hl. intros c (e & He & Ho)%spec_get_in.
    apply list_elem_of_omap in He as (w & _ & Hu).
    apply (wi_live _ HC w). unfold used in Hu. apply bind_Some in Hu as (e' & He' & Hu).
    unfold on. rewrite He'. destruct (hashv e' =? -1); [done|]. by injection Hu as <-.
  - clear. cbn [count_whowas_memory fst]. pose proof (length_filter (λ i, hv st i ≠ -1) (seq 0 NICKNAMEHISTORYLENGTH)) as Hlen.
    rewrite length_seq in Hlen. lia.
Qed.
End Whowas.

Definition demo_wclient : wclient :=
  WClient (bs "Alice") (bs "alice") (bs "host.example") None None (bs "irc.one") (bs "real")
    (bs "0") 0 100 90.
Definition demo_history : list wop :=
  [WNew 7; WAdd 7 demo_wclient true 1 200; WGet (bs "aLiCe") 60 210; WGet (bs "alice") 60 300;
   WOff 7; WGet (bs "alice") 60 210; WFree 7].

Lemma whowas_refines_history_witness :
  ∃ st, whowas_run empty_state wstate0 demo_history =
    Ok (st, [None; None; Some (Some 7%nat); Some None; None; Some None; None]) ∧ wlive st = ∅.
Proof.
  edestruct (whowas_refines_history empty_state demo_history) as (st & H & _ & Hl & _);
    [vm_compute; reflexivity|].
  exists st. split; [exact H|exact Hl].
Defined.

Lemma whowas_no_dangling_witness :
  ∃ st r, whowas_run empty_state wstate0 (take 2 demo_history) = Ok (st, [None; None]) ∧
    get_history empty_state (bs "ALICE") 60 210 st = Ok r ∧
    (∀ c, r = Some c → c ∈ ({[7%nat]} ∪ ∅ : gset nat)).
Proof.
  edestruct (whowas_no_dangling empty_state (take 2 demo_history)) as (st & r & H & Hg & Hl & _);
    [vm_compute; reflexivity|apply (bool_decide_unpack (cstr (bs "ALICE"))); vm_compute; reflexivity|].
  exists st, r. split; [exact H|]. split; [exact Hg|exact Hl].
Defined.
