(* ===== verification/Crule.v ===== *)
(** * Connection and spamfilter rules (src/modules/crule.c)

    The tokenizer and recursive-descent parser of the rule language, the
    function table with its binary search, the evaluation of rule trees, and
    the rule functions that only look at the text.  Pointers into the rule are
    suffixes of it; reading past its NUL, writing past [arg[]] or a local
    buffer and evaluating a NULL node are [UB]. *)

From stdpp Require Import base tactics list numbers strings sets.
From Stdlib Require Import ZArith Lia.
From S2P Require Import Prelude Chars Support.

Local Open Scope Z_scope.

Inductive token :=
| CR_UNKNOWN | CR_END | CR_AND | CR_OR | CR_NOT | CR_OPENPAREN | CR_CLOSEPAREN | CR_COMMA
| CR_EQUAL | CR_LESS_THAN | CR_MORE_THAN | CR_WORD.

Inductive errcode :=
| CR_NOERR | CR_UNEXPCTTOK | CR_UNKNWTOK | CR_EXPCTAND | CR_EXPCTOR | CR_EXPCTPRIM
| CR_EXPCTOPEN | CR_EXPCTCLOSE | CR_UNKNWFUNC | CR_ARGMISMAT | CR_EXPCTVALUE.

#[global] Instance token_eq_dec : EqDecision token.
Proof. solve_decision. Defined.
#[global] Instance errcode_eq_dec : EqDecision errcode.
Proof. solve_decision. Defined.

(** The integer values of the error enum. *)
Definition errnum (e : errcode) : Z :=
  match e with
  | CR_NOERR => 0 | CR_UNEXPCTTOK => 1 | CR_UNKNWTOK => 2 | CR_EXPCTAND => 3 | CR_EXPCTOR => 4
  | CR_EXPCTPRIM => 5 | CR_EXPCTOPEN => 6 | CR_EXPCTCLOSE => 7 | CR_UNKNWFUNC => 8
  | CR_ARGMISMAT => 9 | CR_EXPCTVALUE => 10
  end.

Definition crule_errstr : list (list Z) :=
  [bs "Unknown error"; bs "Unexpected token"; bs "Unknown token"; bs "And expr expected";
   bs "Or expr expected"; bs "Primary expected"; bs "( expected"; bs ") expected";
   bs "Unknown function"; bs "Argument mismatch"; bs "Missing value in comparisson"].

Definition CR_MAXARGLEN : nat := Z.to_nat 160.
Definition CR_MAXARGS : nat := 5.

Definition IsComparisson (t : token) : bool :=
  match t with CR_EQUAL | CR_LESS_THAN | CR_MORE_THAN => true | _ => false end.

(** A rule tree.  The arguments of operators may be NULL while a tree is
    built; [NFunc] has the function (NULL until the call is complete), its
    string arguments, and the comparison. *)
Inductive node :=
| NAnd (a b : option node)
| NOr (a b : option node)
| NNot (a : option node)
| NFunc (f : option (list Z)) (args : list (list Z)) (test : token) (value : Z).

(** ** The function table *)

Definition crule_funclist : list (list Z * Z) :=
  [(bs "bytes_received", 0); (bs "bytes_sent", 0); (bs "cap_set", 1); (bs "cap_version", 0);
   (bs "channel_count", 0); (bs "channel_member_count", 0); (bs "connected", 1);
   (bs "connections_from_ip", 0); (bs "destination", 1); (bs "digit_percentage", 0);
   (bs "directcon", 1); (bs "directop", 0); (bs "has_channel_mode", 1); (bs "has_swhois", 0);
   (bs "has_user_mode", 1); (bs "idle_time", 0); (bs "in_channel", 1); (bs "in_security_group", 1);
   (bs "inchannel", 1); (bs "is_away", 0); (bs "is_identified", 0); (bs "is_local", 0);
   (bs "is_oper", 0); (bs "is_tls", 0); (bs "is_webirc", 0); (bs "is_websocket", 0);
   (bs "match_account", 1); (bs "match_asn", 1); (bs "match_asname", 1); (bs "match_away", 1);
   (bs "match_certfp", 1); (bs "match_class", 1); (bs "match_country", 1); (bs "match_ip", 1);
   (bs "match_mask", 1); (bs "match_operclass", 1); (bs "match_operlogin", 1);
   (bs "match_realhost", 1); (bs "match_realname", 1); (bs "match_server", 1); (bs "match_sni", 1);
   (bs "match_tls_cipher", 1); (bs "match_vhost", 1); (bs "max_repeat_count", 0);
   (bs "messages_received", 0); (bs "messages_sent", 0); (bs "mixed_utf8_score", 0);
   (bs "non_ascii_percentage", 0); (bs "online_time", 0); (bs "reputation", 0);
   (bs "server_flood_count", 1); (bs "server_port", 0); (bs "tag", 1); (bs "text_byte_count", 0);
   (bs "text_character_count", 0); (bs "total_channel_flood_count", 1);
   (bs "unicode_block_count", 0); (bs "unicode_count", 1); (bs "uppercase_percentage", 0);
   (bs "via", 2); (bs "word_count", 0)].

Definition crule_funclist_compare (key : list Z) (entry : list Z * Z) : Z :=
  strcasecmp key entry.1.

(** The C library's [bsearch]: halve the interval [l, u). *)
Fixpoint bsearch (fuel : nat) (key : list Z) (tbl : list (list Z * Z)) (l u : nat)
  : option (list Z * Z) :=
  match fuel with
  | O => None
  | S f =>
      if (l <? u)%nat then
        let idx := ((l + u) / 2)%nat in
        match tbl !! idx with
        | None => None
        | Some e =>
            let c := crule_funclist_compare key e in
            if c <? 0 then bsearch f key tbl l idx
            else if 0 <? c then bsearch f key tbl (S idx) u
            else Some e
        end
      else None
  end.
Definition find_function (name : list Z) : option (list Z * Z) :=
  bsearch (S (length crule_funclist)) name crule_funclist 0 (length crule_funclist).

(** ** Evaluation *)

Section Eval.
(** What the rule functions return for their arguments, in the context at
    hand. *)
Context (call : list Z → list (list Z) → res Z).

Definition test_result (test : token) (value ret : Z) : Z :=
  match test with
  | CR_EQUAL => if ret =? value then 1 else 0
  | CR_LESS_THAN => if ret <? value then 1 else 0
  | CR_MORE_THAN => if value <? ret then 1 else 0
  | _ => ret
  end.

(** [crule_eval] with [crule__andor] and [crule__not]; the operator nodes
    have no comparison. *)
Fixpoint crule_eval (rule : node) : res Z :=
  let eval_opt (o : option node) : res Z :=
    match o with Some n => crule_eval n | None => UB end in
  match rule with
  | NAnd a b =>
      let! r := eval_opt a in
      if negb (r =? 0) then let! r2 := eval_opt b in Ok (if r2 =? 0 then 0 else 1) else Ok 0
  | NOr a b =>
      let! r := eval_opt a in
      if negb (r =? 0) then Ok 1 else let! r2 := eval_opt b in Ok (if r2 =? 0 then 0 else 1)
  | NNot a => let! r := eval_opt a in Ok (if r =? 0 then 1 else 0)
  | NFunc None _ _ _ => UB
  | NFunc (Some f) args test value => let! r := call f args in Ok (test_result test value r)
  end.
End Eval.

(** ** The tokenizer *)

Definition word_start (c : Z) : bool :=
  isalnum c || (c =? STAR) || (c =? QMARK) || (c =? DOT) || (c =? DASH) || (c =? UNDERSCORE)
  || (c =? QUOTE).

(** [pending] holds a first [&], [|] or [=]. *)
Fixpoint crule_gettoken (pending : Z) (p : list Z) : errcode * token * list Z :=
  match p with
  | [] => (CR_NOERR, CR_END, [])
  | c :: r =>
      if (c =? SPACE_CH) || (c =? TAB) then crule_gettoken pending r
      else if c =? AMP then
        if pending =? 0 then crule_gettoken AMP r
        else if pending =? AMP then (CR_NOERR, CR_AND, r) else (CR_UNKNWTOK, CR_UNKNOWN, r)
      else if c =? PIPE then
        if pending =? 0 then crule_gettoken PIPE r
        else if pending =? PIPE then (CR_NOERR, CR_OR, r) else (CR_UNKNWTOK, CR_UNKNOWN, r)
      else if c =? BANG then (CR_NOERR, CR_NOT, r)
      else if c =? LPAREN then (CR_NOERR, CR_OPENPAREN, r)
      else if c =? RPAREN then (CR_NOERR, CR_CLOSEPAREN, r)
      else if c =? LESS then (CR_NOERR, CR_LESS_THAN, r)
      else if c =? MORE then (CR_NOERR, CR_MORE_THAN, r)
      else if c =? EQUAL then
        if pending =? 0 then crule_gettoken EQUAL r
        else if pending =? EQUAL then (CR_NOERR, CR_EQUAL, r) else (CR_UNKNWTOK, CR_UNKNOWN, r)
      else if c =? COMMA then (CR_NOERR, CR_COMMA, r)
      else if c =? COLON then (CR_NOERR, CR_END, r)
      else if word_start c then (CR_NOERR, CR_WORD, p)
      else (CR_UNKNWTOK, CR_UNKNOWN, p)
  end.
Definition gettoken (p : list Z) : errcode * token * list Z := crule_gettoken 0 p.

Definition word_char (quoted : bool) (c : Z) : bool :=
  isalnum c || (c =? STAR) || (c =? QMARK) || (c =? DOT) || (c =? DASH) || (c =? UNDERSCORE)
  || (quoted && negb (c =? QUOTE)).

(** The copy loop; [max] is the room left.  Copying the NUL of the rule makes
    the next access read behind it. *)
Fixpoint getword_loop (max : nat) (quoted : bool) (p word : list Z) : res (list Z * list Z) :=
  match max with
  | O => Ok (word, p)
  | S m =>
      if word_char quoted (deref p) then
        match p with
        | [] => UB
        | c :: r => getword_loop m quoted r (word ++ [c])
        end
      else Ok (word, p)
  end.

Definition crule_getword (maxlen : nat) (p : list Z) : res (list Z * list Z) :=
  let quoted := deref p =? QUOTE in
  let p := if quoted then tail p else p in
  let! (word, p) := getword_loop maxlen quoted p [] in
  Ok (word, if quoted && (deref p =? QUOTE) then tail p else p).

(** ** The parser

    Every function returns the error code, the tree it leaves (also when it
    fails, for [crule_free]), the next token and the rest of the input. *)
Definition pres (A : Type) : Type := res (errcode * A * token * list Z).

(** The argument loop of [crule_parsearglist]. *)
Fixpoint parsearglist_loop (fuel : nat) (args : list (list Z)) (currarg : list Z) (arglen : nat)
    (tok : token) (p : list Z) : pres (list (list Z)) :=
  match fuel with
  | O => NoFuel
  | S f =>
      match tok with
      | CR_WORD =>
          let! (word, p) := crule_getword (CR_MAXARGLEN - 1) p in
          let wordlen := length word in
          let! (currarg, arglen) :=
            match currarg with
            | _ :: _ =>
                if (arglen + wordlen <? CR_MAXARGLEN - 1)%nat then
                  let s := currarg ++ SPACE_CH :: word in
                  let! _ := require (length s <? CR_MAXARGLEN)%nat in
                  Ok (s, (arglen + wordlen + 1)%nat)
                else Ok (currarg, arglen)
            | [] =>
                let! _ := require (wordlen <? CR_MAXARGLEN)%nat in
                Ok (word, wordlen)
            end in
          let '(err, tok, p) := gettoken p in
          if decide (err = CR_NOERR) then parsearglist_loop f args currarg arglen tok p
          else Ok (err, args, tok, p)
      | _ =>
          let! args :=
            match currarg with
            | _ :: _ =>
                let! _ := require (length args <? CR_MAXARGS)%nat in Ok (args ++ [currarg])
            | [] => Ok args
            end in
          if decide (tok = CR_COMMA) then
            let '(err, tok, p) := gettoken p in
            if decide (err = CR_NOERR) then parsearglist_loop f args [] arglen tok p
            else Ok (err, args, tok, p)
          else Ok (CR_NOERR, args, tok, p)
      end
  end.
Definition crule_parsearglist (tok : token) (p : list Z) : pres (list (list Z)) :=
  parsearglist_loop (S (S (2 * length p))) [] [] 0 tok p.

Definition crule_parsefunction (p : list Z) : pres (option node) :=
  let! (funcname, p) := crule_getword (CR_MAXARGLEN - 1) p in
  let '(err, tok, p) := gettoken p in
  if decide (err ≠ CR_NOERR) then Ok (err, None, tok, p)
  else if decide (tok ≠ CR_OPENPAREN) then Ok (CR_EXPCTOPEN, None, tok, p)
  else match find_function funcname with
  | None => Ok (CR_UNKNWFUNC, None, tok, p)
  | Some func =>
      let '(err, tok, p) := gettoken p in
      if decide (err ≠ CR_NOERR) then Ok (err, None, tok, p) else
      let! (err, args, tok, p) := crule_parsearglist tok p in
      let aborted := Some (NFunc None args CR_UNKNOWN 0) in
      if decide (err ≠ CR_NOERR) then Ok (err, aborted, tok, p)
      else if decide (tok ≠ CR_CLOSEPAREN) then Ok (CR_EXPCTCLOSE, aborted, tok, p)
      else if negb (func.2 =? Z.of_nat (length args)) && negb (func.2 =? -1)
      then Ok (CR_ARGMISMAT, aborted, tok, p) else
      let '(err, tok, p) := gettoken p in
      if decide (err ≠ CR_NOERR) then Ok (err, aborted, tok, p) else
      if IsComparisson tok then
        let test := tok in
        let aborted := Some (NFunc None args test 0) in
        let '(err, tok, p) := gettoken p in
        if decide (err ≠ CR_NOERR) then Ok (err, aborted, tok, p)
        else if decide (tok ≠ CR_WORD) then Ok (CR_EXPCTVALUE, aborted, tok, p) else
        let! (value, p) := crule_getword (CR_MAXARGLEN - 1) p in
        let '(err, tok, p) := gettoken p in
        if decide (err ≠ CR_NOERR) then Ok (err, aborted, tok, p)
        else Ok (CR_NOERR, Some (NFunc (Some func.1) args test (atoi value)), tok, p)
      else Ok (CR_NOERR, Some (NFunc (Some func.1) args CR_UNKNOWN 0), tok, p)
  end.

(** [root->arg[1] = e] for an operator node. *)
Definition set_arg1 (root : node) (e : option node) : node :=
  match root with
  | NAnd a _ => NAnd a e
  | NOr a _ => NOr a e
  | n => n
  end.

(** The three mutually recursive functions.  The or- and and-loops carry the
    root built so far; the primary loop carries whether it is below a [!]. *)
Fixpoint parseorexpr (fuel : nat) (root : option node) (tok : token) (p : list Z)
  : pres (option node) :=
  match fuel with
  | O => NoFuel
  | S f =>
      let! (err, andexpr, tok, p) := parseandexpr f None tok p in
      if decide (err = CR_NOERR ∧ tok = CR_OR) then
        let root := match root with
                    | Some r => NOr (Some (set_arg1 r andexpr)) None
                    | None => NOr andexpr None
                    end in
        let '(err, tok, p) := gettoken p in
        if decide (err = CR_NOERR) then parseorexpr f (Some root) tok p
        else Ok (err, Some root, tok, p)
      else match root with
      | Some r =>
          match andexpr with
          | Some _ => Ok (err, Some (set_arg1 r andexpr), tok, p)
          | None => Ok (CR_EXPCTAND, Some (set_arg1 r None), tok, p)
          end
      | None => Ok (err, andexpr, tok, p)
      end
  end
with parseandexpr (fuel : nat) (root : option node) (tok : token) (p : list Z)
  : pres (option node) :=
  match fuel with
  | O => NoFuel
  | S f =>
      let! (err, primary, tok, p) := parseprimary f false tok p in
      if decide (err = CR_NOERR ∧ tok = CR_AND) then
        let root := match root with
                    | Some r => NAnd (Some (set_arg1 r primary)) None
                    | None => NAnd primary None
                    end in
        let '(err, tok, p) := gettoken p in
        if decide (err = CR_NOERR) then parseandexpr f (Some root) tok p
        else Ok (err, Some root, tok, p)
      else match root with
      | Some r =>
          match primary with
          | Some _ => Ok (err, Some (set_arg1 r primary), tok, p)
          | None => Ok (CR_EXPCTPRIM, Some (set_arg1 r None), tok, p)
          end
      | None => Ok (err, primary, tok, p)
      end
  end
with parseprimary (fuel : nat) (below_not : bool) (tok : token) (p : list Z)
  : pres (option node) :=
  match fuel with
  | O => NoFuel
  | S f =>
      match tok with
      | CR_OPENPAREN =>
          let '(err, tok, p) := gettoken p in
          if decide (err ≠ CR_NOERR) then Ok (err, None, tok, p) else
          let! (err, ins, tok, p) := parseorexpr f None tok p in
          if decide (err ≠ CR_NOERR) then Ok (err, ins, tok, p) else
          match ins with
          | None => Ok (CR_EXPCTAND, None, tok, p)
          | Some _ =>
              if decide (tok ≠ CR_CLOSEPAREN) then Ok (CR_EXPCTCLOSE, ins, tok, p)
              else let '(err, tok, p) := gettoken p in Ok (err, ins, tok, p)
          end
      | CR_NOT =>
          let '(err, tok, p) := gettoken p in
          if decide (err ≠ CR_NOERR) then Ok (err, Some (NNot None), tok, p) else
          let! (err, ins, tok, p) := parseprimary f true tok p in
          Ok (err, Some (NNot ins), tok, p)
      | CR_WORD => crule_parsefunction p
      | _ => Ok (if below_not then CR_EXPCTPRIM else CR_NOERR, None, tok, p)
      end
  end.

(** Enough for every call, see [parse_terminates]. *)
Definition parse_fuel (rule : list Z) : nat := (4 * length rule + 4)%nat.

Definition crule_parse (rule : list Z) : res (option node) :=
  let '(err, tok, p) := gettoken rule in
  if decide (err ≠ CR_NOERR) then Ok None else
  let! (err, root, tok, p) := parseorexpr (parse_fuel rule) None tok p in
  if decide (err ≠ CR_NOERR) then Ok None else
  match root with
  | Some r => if decide (tok = CR_END) then Ok (Some r) else Ok None
  | None => Ok None
  end.

Definition crule_test (rule : list Z) : res Z :=
  let '(err, tok, p) := gettoken rule in
  if decide (err ≠ CR_NOERR) then Ok (errnum err + 1) else
  let! (err, root, tok, p) := parseorexpr (parse_fuel rule) None tok p in
  if decide (err ≠ CR_NOERR) then Ok (errnum err + 1) else
  match root with
  | Some r => if decide (tok = CR_END) then Ok 0 else Ok (errnum CR_UNEXPCTTOK + 1)
  | None => Ok (errnum CR_EXPCTOR + 1)
  end.

Definition crule_errstring (err : Z) : res (list Z) :=
  if err =? 0 then Ok (bs "No error")
  else match crule_errstr !! Z.to_nat (err - 1) with
       | Some s => if 0 <=? err - 1 then Ok s else UB
       | None => UB
       end.

(** *** Findings *)

(** A doubled operator is accepted and leaves a NULL operand, which the
    evaluation then follows. *)
Theorem crule_null_operand :
  crule_test (bs "is_tls() && && is_oper()") = Ok 0 ∧
  ∃ t, crule_parse (bs "is_tls() && && is_oper()") = Ok (Some t) ∧
       crule_eval (λ _ _, Ok 1) t = UB.
Proof. split; [vm_compute; reflexivity|]. eexists. split; vm_compute; reflexivity. Qed.

(** An unterminated quote makes the scanner read behind the rule. *)
Theorem crule_unterminated_quote : crule_test (bs "tag('x") = UB.
Proof. vm_compute. reflexivity. Qed.

(** More than five arguments are written behind [arg[CR_MAXARGS]]. *)
Theorem crule_too_many_args : crule_test (bs "via(a,b,c,d,e,f)") = UB.
Proof. vm_compute. reflexivity. Qed.

(** A single operator character is dropped when another token follows. *)
Theorem crule_lone_operator :
  crule_parse (bs "is_tls() &") = crule_parse (bs "is_tls()") ∧
  crule_test (bs "|is_tls()") = Ok 0.
Proof. split; vm_compute; reflexivity. Qed.

(** ** Theory *)

(** *** [crule_test] and [crule_parse] agree *)

Lemma errstring_errnum e : is_Some (crule_errstr !! Z.to_nat (errnum e)) ∧ 0 ≤ errnum e.
Proof. destruct e; simpl; split; (eexists; reflexivity) || lia. Qed.

Lemma errstring_ok e : ∃ s, crule_errstring (errnum e + 1) = Ok s.
Proof.
  destruct (errstring_errnum e) as [[s Hs] Hp]. exists s. unfold crule_errstring.
  destruct (Z.eqb_spec (errnum e + 1) 0); [lia|].
  replace (errnum e + 1 - 1) with (errnum e) by lia. rewrite Hs.
  by rewrite (proj2 (Z.leb_le 0 _)).
Qed.

(** A rule passes [crule_test] exactly when [crule_parse] produces a
    tree for it, and every code [crule_test] returns has an error text:
    [crule_errstring] never leaves its table. *)
Theorem crule_test_parse rule :
  (crule_test rule = Ok 0 ↔ ∃ t, crule_parse rule = Ok (Some t)) ∧
  (∀ e, crule_test rule = Ok e → ∃ s, crule_errstring e = Ok s).
Proof.
  unfold crule_test, crule_parse. destruct (gettoken rule) as [[err tok] p].
  assert (∀ e, Ok (errnum e + 1) ≠ Ok 0) as Hne.
  { intros e [= E]. pose proof (errstring_errnum e) as [_ ?]. lia. }
  destruct (decide (err ≠ CR_NOERR)) as [He|He].
  { split; [split; [by intros ?%Hne|by intros [? ?]]|]. intros e [= <-]. apply errstring_ok. }
  destruct (parseorexpr (parse_fuel rule) None tok p) as [[[[err2 root] tok2] p2]| |]; simpl;
    [|split; [split; [done|by intros [? ?]]|done]..].
  destruct (decide (err2 ≠ CR_NOERR)) as [He2|He2].
  { split; [split; [by intros ?%Hne|by intros [? ?]]|]. intros e [= <-]. apply errstring_ok. }
  destruct root as [r|].
  - destruct (decide (tok2 = CR_END)).
    + split; [split; eauto|]. intros e0 [= <-]. by eexists.
    + split; [split; [done|by intros [? ?]]|]. intros e0 [= <-]. apply (errstring_ok CR_UNEXPCTTOK).
  - split; [split; [done|by intros [? ?]]|]. intros e [= <-]. apply (errstring_ok CR_EXPCTOR).
Qed.

(** *** Termination and memory safety *)

(** Every quote is closed after at most [CR_MAXARGLEN - 1] characters;
    [st] is the number of characters read since an opening quote. *)
Fixpoint qok (st : option nat) (s : list Z) : bool :=
  match s with
  | [] => match st with None => true | Some _ => false end
  | c :: r =>
      match st with
      | None => if c =? QUOTE then qok (Some 0%nat) r else qok None r
      | Some k => if c =? QUOTE then qok None r
                  else (S k <=? CR_MAXARGLEN - 1)%nat && qok (Some (S k)) r
      end
  end.

Fixpoint commas (s : list Z) : nat :=
  match s with
  | c :: r => if c =? COMMA then S (commas r) else commas r
  | [] => 0%nat
  end.

(** The condition on an input suffix, when the rule is a safe one. *)
Definition input_ok (safe : bool) (p : list Z) (n : nat) : Prop :=
  safe = true → qok None p = true ∧ (commas p + n ≤ 4)%nat.

(** A result that never runs out of fuel, and has undefined behaviour only
    for an unsafe rule. *)
Definition outcome {A} (safe : bool) (r : res A) (P : A → Prop) : Prop :=
  match r with Ok a => P a | UB => safe = false | NoFuel => False end.

Lemma outcome_bind {A B} safe (r : res A) (f : A → res B) (P : A → Prop) (Q : B → Prop) :
  outcome safe r P → (∀ a, P a → outcome safe (f a) Q) → outcome safe (rbind r f) Q.
Proof. destruct r; simpl; auto. Qed.

Definition is_comma (t : token) : nat := match t with CR_COMMA => 1%nat | _ => 0%nat end.

(** The work a token and the rest of the input stand for. *)
Definition weight (t : token) : nat := match t with CR_WORD | CR_END => 0%nat | _ => 3%nat end.
Definition phi (t : token) (p : list Z) : nat := (4 * length p + weight t)%nat.

Lemma input_ok_le safe p n p' n' :
  input_ok safe p n → (qok None p = true → qok None p' = true) →
  (commas p' + n' ≤ commas p + n)%nat → input_ok safe p' n'.
Proof. intros H Hq Hc Hs. destruct (H Hs). split; [auto|lia]. Qed.

Lemma gettoken_spec pending p err t p' :
  crule_gettoken pending p = (err, t, p') → err = CR_NOERR →
  (phi t p' ≤ 4 * length p)%nat ∧ (2 * length p' + is_comma t ≤ 2 * length p)%nat ∧
  (t = CR_WORD → word_start (deref p') = true ∧ p' ≠ []) ∧
  (qok None p = true → qok None p' = true) ∧ (commas p' + is_comma t ≤ commas p)%nat.
Proof.
  intros E Herr. revert pending E. induction p as [|c r IH]; intros pending E; simpl in E.
  { injection E as <- <- <-. simpl. split_and!; (done || lia). }
  unfold phi in *.
  assert (∀ pd, c ≠ QUOTE → crule_gettoken pd r = (err, t, p') →
    (4 * length p' + weight t ≤ 4 * length (c :: r))%nat ∧
    (2 * length p' + is_comma t ≤ 2 * length (c :: r))%nat ∧
    (t = CR_WORD → word_start (deref p') = true ∧ p' ≠ []) ∧
    (qok None (c :: r) = true → qok None p' = true) ∧ (commas p' + is_comma t ≤ commas (c :: r))%nat) as Hskip.
  { intros pd Hq E'. destruct (IH _ E') as (H1 & H2 & H3 & H4 & H5). simpl.
    split_and!; [lia|lia|done| |].
    - destruct (Z.eqb_spec c QUOTE); done.
    - destruct (c =? COMMA); lia. }
  assert (∀ t0, c ≠ QUOTE → c ≠ COMMA → t0 ≠ CR_WORD → is_comma t0 = 0%nat → (CR_NOERR, t0, r) = (err, t, p') →
    (4 * length p' + weight t ≤ 4 * length (c :: r))%nat ∧
    (2 * length p' + is_comma t ≤ 2 * length (c :: r))%nat ∧
    (t = CR_WORD → word_start (deref p') = true ∧ p' ≠ []) ∧
    (qok None (c :: r) = true → qok None p' = true) ∧ (commas p' + is_comma t ≤ commas (c :: r))%nat) as Htok.
  { intros t0 Hq Hcm Hw Hc0 [= <- <- <-]. simpl. rewrite Hc0. split_and!.
    - destruct t0; simpl; lia.
    - lia.
    - done.
    - destruct (Z.eqb_spec c QUOTE); done.
    - destruct (Z.eqb_spec c COMMA); [done|lia]. }
  destruct ((c =? SPACE_CH) || (c =? TAB)) eqn:E1.
  { eapply Hskip; [|exact E]. intros ->. discriminate E1. }
  subst err.
  destruct (Z.eqb_spec c AMP) as [->|_].
  { destruct (pending =? 0); [by eapply (Hskip _ ltac:(done) E)|]. destruct (pending =? AMP); [eapply Htok; [..|exact E]; done|done]. }
  destruct (Z.eqb_spec c PIPE) as [->|_].
  { destruct (pending =? 0); [by eapply (Hskip _ ltac:(done) E)|]. destruct (pending =? PIPE); [eapply Htok; [..|exact E]; done|done]. }
  destruct (Z.eqb_spec c BANG) as [->|_]; [eapply Htok; [..|exact E]; done|].
  destruct (Z.eqb_spec c LPAREN) as [->|_]; [eapply Htok; [..|exact E]; done|].
  destruct (Z.eqb_spec c RPAREN) as [->|_]; [eapply Htok; [..|exact E]; done|].
  destruct (Z.eqb_spec c LESS) as [->|_]; [eapply Htok; [..|exact E]; done|].
  destruct (Z.eqb_spec c MORE) as [->|_]; [eapply Htok; [..|exact E]; done|].
  destruct (Z.eqb_spec c EQUAL) as [->|_].
  { destruct (pending =? 0); [by eapply (Hskip _ ltac:(done) E)|]. destruct (pending =? EQUAL); [eapply Htok; [..|exact E]; done|done]. }
  destruct (Z.eqb_spec c COMMA) as [->|_].
  { injection E as <- <-. simpl. split_and!; (done || lia). }
  destruct (Z.eqb_spec c COLON) as [->|_]; [eapply Htok; [..|exact E]; done|].
  destruct (word_start c) eqn:Ew; [|done]. injection E as <- <-.
  split_and!; try done; simpl; lia.
Qed.

Lemma maxarglen_pos : (1 < CR_MAXARGLEN)%nat.
Proof. unfold CR_MAXARGLEN. lia. Qed.
#[global] Opaque CR_MAXARGLEN.

Lemma word_char_quote q : word_char q QUOTE = false.
Proof. by destruct q. Qed.

Lemma word_char_unquoted c : word_start c = true → c ≠ QUOTE → word_char false c = true.
Proof.
  unfold word_start, word_char. intros H Hc. destruct (Z.eqb_spec c QUOTE); [done|].
  by rewrite orb_false_r in *.
Qed.

Lemma word_char_quoted c : c ≠ QUOTE → word_char true c = true.
Proof.
  intros Hc. unfold word_char. destruct (Z.eqb_spec c QUOTE); [done|]. by rewrite orb_true_r.
Qed.

Lemma getword_unquoted max p word :
  ∃ w p', getword_loop max false p word = Ok (w, p') ∧ (length p' ≤ length p)%nat ∧
    (length w ≤ length word + max)%nat ∧ (commas p' ≤ commas p)%nat ∧
    (qok None p = true → qok None p' = true).
Proof.
  revert p word. induction max as [|max IH]; intros p word; simpl.
  { exists word, p. split_and!; (done || lia). }
  destruct (word_char false (deref p)) eqn:Ew; cycle 1.
  { exists word, p. split_and!; (done || lia). }
  destruct p as [|c r]; [done|]. simpl in Ew.
  destruct (IH r (word ++ [c])) as (w & p' & -> & H1 & H2 & H3 & H4).
  rewrite length_app in H2. simpl in H2. exists w, p'. simpl.
  destruct (Z.eqb_spec c QUOTE) as [->|]; [done|].
  split_and!; [done|lia|lia| |done]. destruct (c =? COMMA); lia.
Qed.

Lemma getword_quoted safe max k p word :
  (max + k = CR_MAXARGLEN - 1)%nat → (safe = true → qok (Some k) p = true) →
  outcome safe (getword_loop max true p word) (λ '(w, p'),
    (length p' ≤ length p)%nat ∧ (length w ≤ length word + max)%nat ∧ (commas p' ≤ commas p)%nat ∧
    (qok (Some k) p = true → deref p' = QUOTE ∧ qok None (tail p') = true)).
Proof.
  revert k p word. induction max as [|max IH]; intros k p word Hk Hsafe; cbn [getword_loop].
  { simpl. split_and!; [lia|lia|lia|]. intros Hq. destruct p as [|c r]; [done|]. cbn [qok deref hd list.tail] in Hq |- *.
    destruct (Z.eqb_spec c QUOTE) as [->|]; [done|].
    apply andb_true_iff in Hq as [Hq _]. apply Nat.leb_le in Hq. lia. }
  destruct p as [|c r].
  { destruct safe; [|done]. by specialize (Hsafe eq_refl). }
  simpl deref. destruct (Z.eqb_spec c QUOTE) as [->|Hc].
  { rewrite word_char_quote. simpl. split_and!; [lia|lia|lia|done]. }
  rewrite word_char_quoted by done.
  assert (∀ b, qok (Some k) (c :: r) = b → qok (Some (S k)) r = b ∨ b = false) as Hq.
  { intros b Hb. cbn [qok] in Hb. destruct (Z.eqb_spec c QUOTE); [done|].
    destruct (S k <=? CR_MAXARGLEN - 1)%nat; simpl in Hb; auto. }
  pose proof (IH (S k) r (word ++ [c]) ltac:(lia)) as Hrec.
  destruct (getword_loop max true r (word ++ [c])) as [[w p']| |]; simpl in *.
  - destruct Hrec as (H1 & H2 & H3 & H4).
    { intros Hs. destruct (Hq true (Hsafe Hs)); [done|done]. }
    rewrite length_app in H2. simpl in H2. split_and!; [lia|lia| |].
    + destruct (c =? COMMA); lia.
    + intros Hqq. apply H4. destruct (Hq true Hqq); done.
  - apply Hrec. intros Hs. destruct (Hq true (Hsafe Hs)); done.
  - apply Hrec. intros Hs. destruct (Hq true (Hsafe Hs)); done.
Qed.

Lemma crule_getword_spec safe p n :
  word_start (deref p) = true → p ≠ [] → input_ok safe p n →
  outcome safe (crule_getword (CR_MAXARGLEN - 1) p) (λ '(w, p'),
    (length p' < length p)%nat ∧ (length w < CR_MAXARGLEN)%nat ∧ input_ok safe p' n).
Proof.
  intros Hw Hp Hin. destruct p as [|c r]; [done|]. simpl in Hw. pose proof maxarglen_pos as Hmax.
  unfold crule_getword. simpl deref. destruct (Z.eqb_spec c QUOTE) as [->|Hc].
  - simpl list.tail.
    assert (safe = true → qok (Some 0%nat) r = true ∧ (commas r + n ≤ 4)%nat) as Hin'.
    { intros Hs. by destruct (Hin Hs). }
    eapply outcome_bind; [apply (getword_quoted safe (CR_MAXARGLEN - 1) 0); [lia|apply Hin']|].
    intros [w p'] (H1 & H2 & H3 & H4). simpl in H2 |- *. destruct (Z.eqb_spec (deref p') QUOTE) as [E|E].
    + simpl. destruct p' as [|c' r']; [done|]. simpl in *. subst c'.
      split_and!; [lia|lia|]. intros Hs. destruct (Hin' Hs) as [Hq Hcm]. split; [by apply H4|].
      simpl in H3. lia.
    + simpl. split_and!; [lia|lia|]. intros Hs. destruct (Hin' Hs) as [Hq Hcm]. by destruct (H4 Hq).
  - cbv iota. destruct (CR_MAXARGLEN - 1)%nat as [|m] eqn:Em; [lia|]. cbn [getword_loop deref hd].
    rewrite word_char_unquoted by done.
    destruct (getword_unquoted m r ([] ++ [c])) as (w & p' & -> & H1 & H2 & H3 & H4). simpl in H2 |- *.
    split_and!; [lia|lia|]. intros Hs. destruct (Hin Hs) as [Hq Hcm]. simpl in Hq, Hcm.
    destruct (Z.eqb_spec c QUOTE); [done|]. split; [auto|]. destruct (c =? COMMA); lia.
Qed.

(** *** The argument list *)

Lemma gettoken_input safe pending p err t p' n :
  crule_gettoken pending p = (err, t, p') → err = CR_NOERR → input_ok safe p n →
  input_ok safe p' (n + is_comma t).
Proof.
  intros E He Hin. destruct (gettoken_spec _ _ _ _ _ E He) as (_ & _ & _ & Hq & Hc).
  eapply input_ok_le; [done|done|lia].
Qed.

Lemma input_ok_weaken safe p n n' : input_ok safe p n → (n' ≤ n)%nat → input_ok safe p n'.
Proof. intros H Hn Hs. destruct (H Hs). split; [done|lia]. Qed.

Lemma parsearglist_spec safe fuel args currarg arglen tok p :
  (2 * length p + is_comma tok < fuel)%nat →
  input_ok safe p (length args + is_comma tok) →
  (tok = CR_WORD → word_start (deref p) = true ∧ p ≠ []) →
  (currarg ≠ [] → arglen = length currarg) → (length currarg < CR_MAXARGLEN)%nat →
  outcome safe (parsearglist_loop fuel args currarg arglen tok p) (λ '(err, args', tok', p'),
    err = CR_NOERR → (length p' ≤ length p)%nat ∧ input_ok safe p' 0 ∧
      (tok' = CR_WORD → word_start (deref p') = true ∧ p' ≠ [])).
Proof.
  revert args currarg arglen tok p. induction fuel as [|fuel IH];
    intros args currarg arglen tok p Hf Hin Hw Hca Hcl; [lia|].
  destruct (decide (tok = CR_WORD)) as [->|Hnw].
  - destruct (Hw eq_refl) as [Hws Hpn]. cbn [parsearglist_loop].
    eapply outcome_bind; [by apply (crule_getword_spec safe p (length args + 0))|].
    intros [w p1] (Hl1 & Hl2 & Hin1).
    assert (outcome safe (match currarg with
            | [] => let! _ := require (length w <? CR_MAXARGLEN)%nat in Ok (w, length w)
            | _ :: _ =>
                if (arglen + length w <? CR_MAXARGLEN - 1)%nat then
                  let s := currarg ++ SPACE_CH :: w in
                  let! _ := require (length s <? CR_MAXARGLEN)%nat in
                  Ok (s, (arglen + length w + 1)%nat)
                else Ok (currarg, arglen)
            end) (λ '(ca, al), (ca ≠ [] → al = length ca) ∧ (length ca < CR_MAXARGLEN)%nat)) as Hcase.
    { destruct currarg as [|c0 ca].
      - rewrite (proj2 (Nat.ltb_lt _ _) Hl2). simpl. done.
      - destruct (Nat.ltb_spec (arglen + length w) (CR_MAXARGLEN - 1)) as [Hlt|Hge].
        + rewrite (Hca ltac:(done)) in *. cbv zeta. rewrite length_app. simpl in *.
          rewrite (proj2 (Nat.ltb_lt _ _)) by lia. simpl. rewrite length_app. simpl. split; [lia|lia].
        + simpl. split; [by intros _; apply Hca|done]. }
    eapply outcome_bind; [exact Hcase|]. intros [ca al] [Hca' Hcl'].
    destruct (gettoken p1) as [[err t] p2] eqn:Eg. case_decide as He; [|by simpl; intros ?].
    destruct (gettoken_spec _ _ _ _ _ Eg He) as (_ & Hm & Hw2 & _).
    pose proof (gettoken_input safe _ _ _ _ _ _ Eg He Hin1) as Hin2. rewrite Nat.add_0_r in Hin2.
    pose proof (IH args ca al t p2 ltac:(lia) Hin2 Hw2 Hca' Hcl') as Hrec.
    destruct (parsearglist_loop fuel args ca al t p2) as [[[[err' a'] t'] p']| |]; simpl in *; [|done..].
    intros He'. destruct (Hrec He') as (? & ? & ?). split_and!; [lia|done|done].
  - assert (parsearglist_loop (S fuel) args currarg arglen tok p =
      let! args := match currarg with
            | _ :: _ => let! _ := require (length args <? CR_MAXARGS)%nat in Ok (args ++ [currarg])
            | [] => Ok args
            end in
          if decide (tok = CR_COMMA) then
            let '(err, tok, p) := gettoken p in
            if decide (err = CR_NOERR) then parsearglist_loop fuel args [] arglen tok p
            else Ok (err, args, tok, p)
          else Ok (CR_NOERR, args, tok, p)) as -> by (by destruct tok).
    assert (outcome safe (match currarg with
            | _ :: _ => let! _ := require (length args <? CR_MAXARGS)%nat in Ok (args ++ [currarg])
            | [] => Ok args
            end) (λ args', (length args' ≤ S (length args))%nat)) as Hcase.
    { destruct currarg; [simpl; lia|].
      destruct (Nat.ltb_spec (length args) CR_MAXARGS) as [|Hge]; simpl; [rewrite length_app; simpl; lia|].
      destruct safe; [|done]. destruct (Hin eq_refl) as [_ Hc]. unfold CR_MAXARGS in Hge. lia. }
    eapply outcome_bind; [exact Hcase|]. intros args' Hargs'. cbv beta in Hargs'.
    destruct (decide (tok = CR_COMMA)) as [->|Hnc].
    + destruct (gettoken p) as [[err t] p2] eqn:Eg. case_decide as He; [|by simpl; intros ?].
      destruct (gettoken_spec _ _ _ _ _ Eg He) as (_ & Hm & Hw2 & _).
      assert (input_ok safe p2 (length args' + is_comma t)) as Hin2.
      { eapply input_ok_weaken; [exact (gettoken_input safe _ _ _ _ _ _ Eg He Hin)|]. simpl. lia. }
      cbn [is_comma] in Hf.
      assert (length (@nil Z) < CR_MAXARGLEN)%nat as H0 by (pose proof maxarglen_pos; cbn [length]; lia).
      pose proof (IH args' [] arglen t p2 ltac:(lia) Hin2 Hw2 ltac:(done) H0) as Hrec.
      destruct (parsearglist_loop fuel args' [] arglen t p2) as [[[[err' a'] t'] p']| |]; simpl in *; [|done..].
      intros He'. destruct (Hrec He') as (? & ? & ?). split_and!; [lia|done|done].
    + simpl. intros _. split_and!; [lia| |done]. eapply input_ok_weaken; [done|lia].
Qed.

(** *** The expression parser *)

(** The condition on the token in hand. *)
Definition tok_ok (t : token) (p : list Z) : Prop :=
  t = CR_WORD → word_start (deref p) = true ∧ p ≠ [].

(** What every parse function guarantees. *)
Definition parse_post {A} (safe : bool) (bound : nat) (r : pres A) : Prop :=
  outcome safe r (λ '(err, _, t, p), err = CR_NOERR →
    (phi t p ≤ bound)%nat ∧ tok_ok t p ∧ input_ok safe p 0).

Lemma gettoken_post safe p err t p' :
  gettoken p = (err, t, p') → err = CR_NOERR → input_ok safe p 0 →
  (phi t p' ≤ 4 * length p)%nat ∧ tok_ok t p' ∧ input_ok safe p' 0.
Proof.
  intros E He Hin. destruct (gettoken_spec _ _ _ _ _ E He) as (H1 & _ & H3 & _).
  split_and!; [done|done|]. eapply input_ok_weaken; [exact (gettoken_input safe _ _ _ _ _ _ E He Hin)|lia].
Qed.

Lemma parsefunction_post safe p :
  tok_ok CR_WORD p → input_ok safe p 0 → parse_post safe (4 * length p) (crule_parsefunction p).
Proof.
  intros Ht Hin. destruct (Ht eq_refl) as [Hws Hpn]. unfold parse_post, crule_parsefunction.
  eapply outcome_bind; [by apply (crule_getword_spec safe p 0)|]. intros [fname p1] (Hl1 & _ & Hin1).
  destruct (gettoken p1) as [[err t] p2] eqn:E1. case_decide as He1; [by intros ?|].
 destruct (gettoken_post safe _ _ _ _ E1 He1 Hin1) as (Hp2 & _ & Hin2).
  case_decide; [by intros ?|]. destruct (find_function fname) as [func|]; [|by intros ?].
  destruct (gettoken p2) as [[err2 t2] p3] eqn:E2. case_decide as He2; [by intros ?|].
 destruct (gettoken_spec _ _ _ _ _ E2 He2) as (_ & Hm2 & Hw2 & _).
  pose proof (gettoken_input safe _ _ _ _ _ _ E2 He2 Hin2) as Hin3.
  unfold phi in *. eapply outcome_bind.
  { apply (parsearglist_spec safe); [|exact Hin3|exact Hw2|done|pose proof maxarglen_pos; cbn [length]; lia].
    destruct t2; simpl; lia. }
  intros [[[err3 args] t3] p4] H3. case_decide as He3; [by intros ?|].
  destruct (H3 He3) as (Hl4 & Hin4 & Hw4). case_decide; [by intros ?|]. case_match; [by intros ?|].
  destruct (gettoken p4) as [[err4 t4] p5] eqn:E4. case_decide as He4; [by intros ?|].
 destruct (gettoken_post safe _ _ _ _ E4 He4 Hin4) as (Hp5 & Ht5 & Hin5).
  unfold phi in *. destruct (IsComparisson t4); [|intros _; split_and!; [lia|done|done]].
  destruct (gettoken p5) as [[err5 t5] p6] eqn:E5. case_decide as He5; [by intros ?|].
 destruct (gettoken_post safe _ _ _ _ E5 He5 Hin5) as (Hp6 & Ht6 & Hin6).
  case_decide as Hw6; [by intros ?|]. destruct (Ht6 Hw6) as [Hws6 Hpn6].
  eapply outcome_bind; [by apply (crule_getword_spec safe p6 0)|]. intros [value p7] (Hl7 & _ & Hin7).
  destruct (gettoken p7) as [[err7 t7] p8] eqn:E7. case_decide as He7; [by intros ?|].
 destruct (gettoken_post safe _ _ _ _ E7 He7 Hin7) as (Hp8 & Ht8 & Hin8).
  unfold phi in *. intros _. split_and!; [lia|done|done].
Qed.

Definition posts (fuel : nat) : Prop :=
  (∀ safe root t p, tok_ok t p → input_ok safe p 0 → (phi t p + 3 ≤ fuel)%nat →
     parse_post safe (phi t p) (parseorexpr fuel root t p)) ∧
  (∀ safe root t p, tok_ok t p → input_ok safe p 0 → (phi t p + 2 ≤ fuel)%nat →
     parse_post safe (phi t p) (parseandexpr fuel root t p)) ∧
  (∀ safe below t p, tok_ok t p → input_ok safe p 0 → (phi t p + 1 ≤ fuel)%nat →
     parse_post safe (phi t p) (parseprimary fuel below t p)).

Lemma post_le {A} safe b b' (r : pres A) : parse_post safe b r → (b ≤ b')%nat → parse_post safe b' r.
Proof.
  unfold parse_post. destruct r as [[[[e x] t] p]| |]; simpl; [|done..].
  intros H Hb He. destruct (H He) as (? & ? & ?). split_and!; [lia|done|done].
Qed.

Lemma parse_posts fuel : posts fuel.
Proof.
  induction fuel as [|fuel (IHor & IHand & IHprim)].
  { split_and!; intros; lia. }
  split_and!.
  - intros safe root t p Ht Hin Hf. cbn [parseorexpr].
    eapply outcome_bind; [apply (IHand safe None t p Ht Hin); lia|].
    intros [[[err a] t1] p1] H1. case_decide as Hc.
    + destruct Hc as [He ->]. destruct (H1 He) as (Hp1 & _ & Hin1).
      destruct (gettoken p1) as [[err2 t2] p2] eqn:E2. case_decide as He2; [|by intros ?].
      destruct (gettoken_post safe _ _ _ _ E2 He2 Hin1) as (Hp2 & Ht2 & Hin2).
      unfold phi in *. simpl weight in Hp1.
      eapply post_le; [apply IHor; [done|done|unfold phi; lia]|unfold phi; lia].
    + destruct root as [r|]; [destruct a|]; simpl; [exact H1|by intros ?|exact H1].
  - intros safe root t p Ht Hin Hf. cbn [parseandexpr].
    eapply outcome_bind; [apply (IHprim safe false t p Ht Hin); lia|].
    intros [[[err a] t1] p1] H1. case_decide as Hc.
    + destruct Hc as [He ->]. destruct (H1 He) as (Hp1 & _ & Hin1).
      destruct (gettoken p1) as [[err2 t2] p2] eqn:E2. case_decide as He2; [|by intros ?].
      destruct (gettoken_post safe _ _ _ _ E2 He2 Hin1) as (Hp2 & Ht2 & Hin2).
      unfold phi in *. simpl weight in Hp1.
      eapply post_le; [apply IHand; [done|done|unfold phi; lia]|unfold phi; lia].
    + destruct root as [r|]; [destruct a|]; simpl; [exact H1|by intros ?|exact H1].
  - intros safe below t p Ht Hin Hf. cbn [parseprimary].
    destruct t; try (simpl; intros _; by split_and!).
    + (* ! *) destruct (gettoken p) as [[err2 t2] p2] eqn:E2. case_decide as He2; [by intros ?|].
 destruct (gettoken_post safe _ _ _ _ E2 He2 Hin) as (Hp2 & Ht2 & Hin2).
      unfold phi in Hf. simpl weight in Hf.
      eapply outcome_bind; [apply (IHprim safe true t2 p2 Ht2 Hin2); lia|].
      intros [[[err3 a] t3] p3] H3. simpl. intros He3. destruct (H3 He3) as (H4 & ? & ?).
      split_and!; [unfold phi in *; lia|done|done].
    + (* parenthesis *) destruct (gettoken p) as [[err2 t2] p2] eqn:E2. case_decide as He2; [by intros ?|].
 destruct (gettoken_post safe _ _ _ _ E2 He2 Hin) as (Hp2 & Ht2 & Hin2).
      unfold phi in Hf. simpl weight in Hf.
      eapply outcome_bind; [apply (IHor safe None t2 p2 Ht2 Hin2); lia|].
      intros [[[err3 a] t3] p3] H3. case_decide as He3; [by intros ?|].
      destruct (H3 He3) as (H4 & _ & Hin3). destruct a as [a|]; [|by intros ?].
      case_decide; [by intros ?|]. destruct (gettoken p3) as [[err4 t4] p4] eqn:E4. simpl. intros He4.
      destruct (gettoken_post safe _ _ _ _ E4 He4 Hin3) as (? & ? & ?).
      split_and!; [unfold phi in *; lia|done|done].
    + (* word *) eapply post_le; [by apply parsefunction_post|unfold phi; lia].
Qed.

(** The rules for which the scanner stays inside its buffers: quotes are
    closed in time, and there are at most four commas. *)
Definition rule_safe (rule : list Z) : bool := qok None rule && (commas rule <=? 4)%nat.

(** Parsing terminates on every rule: the fuel suffices whatever the
    text is.  And for a rule whose quotes are closed within the argument
    length and that has at most four commas it is memory safe: it never reads
    behind the rule, never overruns the word and argument buffers, and never
    writes outside [arg[]]. *)
Theorem crule_parse_total rule :
  crule_parse rule ≠ NoFuel ∧ crule_test rule ≠ NoFuel ∧
  (rule_safe rule = true → ∃ t e, crule_parse rule = Ok t ∧ crule_test rule = Ok e).
Proof.
  set (safe := rule_safe rule).
  assert (input_ok safe rule 0) as Hin.
  { intros Hs. apply andb_true_iff in Hs as [? ?%Nat.leb_le]. split; [done|lia]. }
  unfold crule_parse, crule_test. destruct (gettoken rule) as [[err t] p] eqn:E.
  case_decide as He; [split_and!; (done || eauto)|].
  destruct (gettoken_post safe _ _ _ _ E He Hin) as (Hp & Ht & Hin').
  destruct (parse_posts (parse_fuel rule)) as (Hor & _ & _).
  specialize (Hor safe None t p Ht Hin'). unfold parse_fuel in Hor at 1. specialize (Hor ltac:(lia)).
  unfold parse_post in Hor. destruct (parseorexpr (parse_fuel rule) None t p) as [[[[e2 r] t2] p2]| |];
    simpl in *; [|split_and!; [done|done|congruence]|done].
  split_and!; repeat case_decide; destruct r; repeat case_decide; try done; eauto.
Qed.

Lemma crule_parse_total_witness :
  ∃ t e, crule_parse (bs "is_tls() && !match_mask('a b, c')") = Ok t ∧
         crule_test (bs "is_tls() && !match_mask('a b, c')") = Ok e.
Proof. apply crule_parse_total. vm_compute. reflexivity. Defined.

(** *** The function table *)

(** The table is sorted, as its comment demands. *)
Definition table_sorted (tbl : list (list Z * Z)) : Prop :=
  ∀ i j e f, (i < j)%nat → tbl !! i = Some e → tbl !! j = Some f →
    cmpz (casefold e.1) (casefold f.1) < 0.

Lemma funclist_sorted : table_sorted crule_funclist ∧ Forall (λ e, cstr e.1) crule_funclist.
Proof.
  split; [|apply (bool_decide_unpack _); vm_compute; reflexivity].
  assert (Forall (λ j, Forall (λ i, match crule_funclist !! i, crule_funclist !! j with
    | Some e, Some f => cmpz (casefold e.1) (casefold f.1) < 0 | _, _ => True end) (seq 0 j))
    (seq 0 (length crule_funclist))) as H.
  { assert (forallb (λ j, forallb (λ i, match crule_funclist !! i, crule_funclist !! j with
      | Some e, Some f => cmpz (casefold e.1) (casefold f.1) <? 0 | _, _ => true end) (seq 0 j))
      (seq 0 (length crule_funclist)) = true) as Hb by (vm_compute; reflexivity).
    apply Forall_forall. intros j Hj. apply Forall_forall. intros i Hi.
    rewrite forallb_forall in Hb. specialize (Hb j (proj1 (list_elem_of_In _ _) Hj)).
    rewrite forallb_forall in Hb. specialize (Hb i (proj1 (list_elem_of_In _ _) Hi)).
    destruct (crule_funclist !! i), (crule_funclist !! j); try done. by apply Z.ltb_lt. }
  intros i j e f Hij He Hf. rewrite Forall_forall in H.
  specialize (H j ltac:(apply elem_of_seq; apply lookup_lt_Some in Hf; lia)).
  rewrite Forall_forall in H. specialize (H i ltac:(apply elem_of_seq; lia)). by rewrite He, Hf in H.
Qed.

Section BSearch.
Context (tbl : list (list Z * Z)) (Hsort : table_sorted tbl) (Hstr : Forall (λ e, cstr e.1) tbl).
Context (key : list Z) (Hkey : cstr key).

Lemma tbl_cstr i e : tbl !! i = Some e → cstr e.1.
Proof using Hstr. intros H. exact (Forall_lookup_1 _ _ _ _ Hstr H). Qed.

Lemma compare_key i e :
  tbl !! i = Some e → crule_funclist_compare key e = cmpz (casefold key) (casefold e.1).
Proof using Hstr Hkey. intros H. apply strcasecmp_cmpz; [done|]. by eapply tbl_cstr. Qed.

Lemma bsearch_sound fuel l u e :
  bsearch fuel key tbl l u = Some e → e ∈ tbl ∧ casefold key = casefold e.1.
Proof using Hstr Hkey.
  revert l u. induction fuel as [|f IH]; intros l u; [done|]. cbn [bsearch].
  destruct (l <? u)%nat; [|done]. destruct (tbl !! ((l + u) / 2)%nat) as [x|] eqn:Ex; [|done].
  rewrite (compare_key _ _ Ex).
  destruct (Z.ltb_spec (cmpz (casefold key) (casefold x.1)) 0); [apply IH|].
  destruct (Z.ltb_spec 0 (cmpz (casefold key) (casefold x.1))); [apply IH|].
  intros [= <-]. split; [by eapply list_elem_of_lookup_2|].
  apply cmpz_zero; [by apply casefold_pos| |lia]. apply casefold_pos. by eapply tbl_cstr.
Qed.

Lemma bsearch_complete fuel l u m e :
  (u - l < fuel)%nat → (u ≤ length tbl)%nat → (l ≤ m < u)%nat → tbl !! m = Some e →
  casefold key = casefold e.1 → bsearch fuel key tbl l u = Some e.
Proof using Hsort Hstr Hkey.
  revert l u. induction fuel as [|f IH]; intros l u Hf Hu Hm He Hk; [lia|]. cbn [bsearch].
  rewrite (proj2 (Nat.ltb_lt l u)) by lia.
  pose proof (Nat.div_mod_eq (l + u) 2). pose proof (Nat.mod_upper_bound (l + u) 2 ltac:(lia)).
  set (idx := ((l + u) / 2)%nat) in *. clearbody idx.
  destruct (lookup_lt_is_Some_2 tbl idx ltac:(lia)) as [x Hx]. rewrite Hx.
  rewrite (compare_key _ _ Hx), Hk.
  destruct (Nat.lt_trichotomy m idx) as [Hlt|[->|Hgt]].
  - pose proof (Hsort m idx e x Hlt He Hx). rewrite (proj2 (Z.ltb_lt _ _)) by done. apply IH; (done || lia).
  - rewrite Hx in He. injection He as ->. by rewrite cmpz_refl.
  - pose proof (Hsort idx m x e Hgt Hx He) as H1. pose proof (cmpz_anti (casefold x.1) (casefold e.1)) as H2.
    rewrite (proj2 (Z.ltb_ge _ _)), (proj2 (Z.ltb_lt _ _)) by lia. apply IH; (done || lia).
Qed.
End BSearch.

(** The binary search of the function table finds exactly the functions
    of the table, whatever the case of the name: the table is sorted in the
    order of its comparison. *)
Theorem find_function_correct name e :
  cstr name →
  find_function name = Some e ↔ e ∈ crule_funclist ∧ casefold name = casefold e.1.
Proof.
  intros Hn. destruct funclist_sorted as [Hs Hc]. unfold find_function. split.
  - by apply bsearch_sound.
  - intros [Hin Hk]. apply list_elem_of_lookup_1 in Hin as [m Hm].
    eapply (bsearch_complete _ Hs Hc _ Hn); [lia|lia| |done|done].
    apply lookup_lt_Some in Hm. lia.
Qed.

Lemma find_function_witness : find_function (bs "Match_Mask") = Some (bs "match_mask", 1).
Proof.
  apply find_function_correct; [apply (bool_decide_unpack _); vm_compute; reflexivity|].
  split; [|vm_compute; reflexivity]. apply (list_elem_of_lookup_2 _ 34). reflexivity.
Defined.

(** *** Round trip

    Expressions of the rule language, their text, and the tree and value they
    stand for.  Arguments are written in quotes, operators with their
    parentheses. *)
Inductive expr :=
| EFunc (f : list Z) (args : list (list Z)) (cmp : option (token * list Z))
| ENot (e : expr)
| EAnd (a b : expr)
| EOr (a b : expr).

Definition op_text (t : token) : list Z :=
  match t with CR_EQUAL => bs "==" | CR_LESS_THAN => bs "<" | CR_MORE_THAN => bs ">" | _ => [] end.
Definition quote (a : list Z) : list Z := QUOTE :: a ++ [QUOTE].
Fixpoint args_text (args : list (list Z)) : list Z :=
  match args with
  | [] => []
  | [a] => quote a
  | a :: r => quote a ++ COMMA :: args_text r
  end.
Definition cmp_text (cmp : option (token * list Z)) : list Z :=
  match cmp with Some (t, v) => op_text t ++ v | None => [] end.
Fixpoint text (e : expr) : list Z :=
  match e with
  | EFunc f args cmp => f ++ LPAREN :: args_text args ++ RPAREN :: cmp_text cmp
  | ENot e => BANG :: text e
  | EAnd a b => LPAREN :: text a ++ bs "&&" ++ text b ++ [RPAREN]
  | EOr a b => LPAREN :: text a ++ bs "||" ++ text b ++ [RPAREN]
  end.

Definition plain (w : list Z) : Prop :=
  w ≠ [] ∧ Forall (λ c, word_char false c = true) w ∧ (length w ≤ CR_MAXARGLEN - 1)%nat.
Definition arg_ok (a : list Z) : Prop :=
  a ≠ [] ∧ Forall (λ c, c ≠ QUOTE) a ∧ (length a ≤ CR_MAXARGLEN - 1)%nat.

Fixpoint wf (e : expr) : Prop :=
  match e with
  | EFunc f args cmp =>
      plain f ∧ Forall arg_ok args ∧ (length args ≤ CR_MAXARGS)%nat ∧
      (∃ fn, find_function f = Some (fn, Z.of_nat (length args))) ∧
      match cmp with Some (t, v) => IsComparisson t = true ∧ plain v | None => True end
  | ENot e => wf e
  | EAnd a b | EOr a b => wf a ∧ wf b
  end.

(** The function of the table a name stands for. *)
Definition func_name (f : list Z) : list Z :=
  match find_function f with Some (fn, _) => fn | None => f end.

Fixpoint tree (e : expr) : node :=
  match e with
  | EFunc f args cmp =>
      match cmp with
      | Some (t, v) => NFunc (Some (func_name f)) args t (atoi v)
      | None => NFunc (Some (func_name f)) args CR_UNKNOWN 0
      end
  | ENot e => NNot (Some (tree e))
  | EAnd a b => NAnd (Some (tree a)) (Some (tree b))
  | EOr a b => NOr (Some (tree a)) (Some (tree b))
  end.

Section Meaning.
Context (call : list Z → list (list Z) → Z).
Definition truth (z : Z) : Z := if z =? 0 then 0 else 1.
Fixpoint meaning (e : expr) : Z :=
  match e with
  | EFunc f args cmp =>
      match cmp with
      | Some (t, v) => test_result t (atoi v) (call (func_name f) args)
      | None => call (func_name f) args
      end
  | ENot e => 1 - truth (meaning e)
  | EAnd a b => truth (meaning a) * truth (meaning b)
  | EOr a b => Z.max (truth (meaning a)) (truth (meaning b))
  end.

(** The calls of functions in an expression; the tree evaluates to the meaning
    when each of them returns its value. *)
Fixpoint leaves (e : expr) : list (list Z * list (list Z)) :=
  match e with
  | EFunc f args _ => [(func_name f, args)]
  | ENot e => leaves e
  | EAnd a b | EOr a b => leaves a ++ leaves b
  end.
Lemma eval_tree ev e : Forall (λ x, ev x.1 x.2 = Ok (call x.1 x.2)) (leaves e) → crule_eval ev (tree e) = Ok (meaning e).
Proof.
  induction e as [f args cmp|e IH|a IHa b IHb|a IHa b IHb]; cbn [leaves]; [intros [E _]%Forall_cons|intros He|intros [Ha Hb]%Forall_app..]; simpl.
  - destruct cmp as [[t v]|]; simpl in *; by rewrite E.
  - rewrite IH by done. simpl. unfold truth. by destruct (meaning e =? 0).
  - rewrite IHa by done. simpl. unfold truth. destruct (meaning a =? 0); simpl; [done|].
    rewrite IHb by done. simpl. by destruct (meaning b =? 0).
  - rewrite IHa by done. simpl. unfold truth. destruct (meaning a =? 0); simpl.
    + rewrite IHb by done. simpl. by destruct (meaning b =? 0).
    + by destruct (meaning b =? 0).
Qed.
End Meaning.

(** Scanning words. *)
Lemma gettoken_word c r : word_start c = true → gettoken (c :: r) = (CR_NOERR, CR_WORD, c :: r).
Proof.
  intros Hw. unfold gettoken. cbn [crule_gettoken].
  destruct ((c =? SPACE_CH) || (c =? TAB)) eqn:E.
  { apply orb_true_iff in E as [->%Z.eqb_eq| ->%Z.eqb_eq]; discriminate Hw. }
  repeat match goal with
  | |- context [if c =? ?k then _ else _] =>
      destruct (Z.eqb_spec c k) as [->|_]; [discriminate Hw|]
  end.
  by rewrite Hw.
Qed.

Lemma word_char_start c : word_char false c = true → word_start c = true ∧ c ≠ QUOTE.
Proof.
  intros H. unfold word_start, word_char in *. rewrite orb_false_r in H. rewrite H. split; [done|].
  intros ->. discriminate H.
Qed.

Lemma getword_loop_plain max w rest acc :
  Forall (λ c, word_char false c = true) w → (length w ≤ max)%nat →
  word_char false (deref rest) = false →
  getword_loop max false (w ++ rest) acc = Ok (acc ++ w, rest).
Proof.
  intros Hw. revert max acc. induction Hw as [|c w Hc _ IH]; intros [|max] acc Hl Hr; simpl in *; try lia.
  - by rewrite app_nil_r.
  - by rewrite Hr, app_nil_r.
  - rewrite Hc, IH by (done || lia). by rewrite <-app_assoc.
Qed.

Lemma getword_loop_quoted max w rest acc :
  Forall (λ c, c ≠ QUOTE) w → (length w ≤ max)%nat →
  getword_loop max true (w ++ QUOTE :: rest) acc = Ok (acc ++ w, QUOTE :: rest).
Proof.
  intros Hw. revert max acc. induction Hw as [|c w Hc _ IH]; intros [|max] acc Hl; cbn [app getword_loop deref hd];
    simpl in Hl; try lia.
  - by rewrite app_nil_r.
  - by rewrite word_char_quote, app_nil_r.
  - rewrite word_char_quoted, IH by (done || lia). by rewrite <-app_assoc.
Qed.

Lemma getword_plain w rest :
  plain w → word_char false (deref rest) = false →
  crule_getword (CR_MAXARGLEN - 1) (w ++ rest) = Ok (w, rest) ∧
  gettoken (w ++ rest) = (CR_NOERR, CR_WORD, w ++ rest).
Proof.
  intros (Hne & Hw & Hl) Hr. destruct w as [|c w]; [done|].
  assert (word_start c = true ∧ c ≠ QUOTE) as [Hs Hq] by (inversion Hw; by apply word_char_start).
  split; [|by apply gettoken_word]. unfold crule_getword. simpl deref.
  destruct (Z.eqb_spec c QUOTE); [done|]. by rewrite getword_loop_plain.
Qed.

Lemma getword_quote a rest :
  arg_ok a → crule_getword (CR_MAXARGLEN - 1) (quote a ++ rest) = Ok (a, rest).
Proof.
  intros (_ & Ha & Hl). unfold crule_getword, quote. simpl. rewrite <-app_assoc.
  cbn [app]. by rewrite getword_loop_quoted.
Qed.

(** A closing parenthesis, a comma or an operator follows. *)
Definition follow (rest : list Z) (t : token) (p : list Z) : Prop :=
  word_char false (deref rest) = false ∧ gettoken rest = (CR_NOERR, t, p) ∧ IsComparisson t = false.

Lemma args_loop args r fuel pre :
  Forall arg_ok args → args ≠ [] → (length pre + length args ≤ CR_MAXARGS)%nat →
  (2 * length args < fuel)%nat →
  ∀ arglen, parsearglist_loop fuel pre [] arglen CR_WORD (args_text args ++ RPAREN :: r) =
    Ok (CR_NOERR, pre ++ args, CR_CLOSEPAREN, r).
Proof.
  revert fuel pre. induction args as [|a args IH]; intros fuel pre Hall Hne Hlen Hf arglen; [done|].
  inversion Hall as [|? ? Ha Hall']; subst. pose proof Ha as (Hane & Haq & Hal).
  pose proof maxarglen_pos as Hmax.
  assert (∀ rest t p f, gettoken rest = (CR_NOERR, t, p) →
    parsearglist_loop (S f) pre [] arglen CR_WORD (quote a ++ rest) =
    parsearglist_loop f pre a (length a) t p) as Hstep.
  { intros rest t p f Hg. cbn [parsearglist_loop]. rewrite getword_quote by done. cbn [rbind].
    rewrite (proj2 (Nat.ltb_lt (length a) CR_MAXARGLEN)) by lia. cbn [require rbind]. rewrite Hg.
    by rewrite decide_True. }
  destruct fuel as [|[|fuel]]; simpl in Hf; try lia. destruct a as [|c a]; [done|]. simpl in Hlen.
  destruct args as [|b args].
  - cbn [args_text]. rewrite (Hstep (RPAREN :: r) CR_CLOSEPAREN r) by done.
    cbn [parsearglist_loop]. rewrite (proj2 (Nat.ltb_lt (length pre) CR_MAXARGS)) by lia.
    cbn [require rbind]. by rewrite decide_False.
  - change (args_text ((c :: a) :: b :: args)) with (quote (c :: a) ++ COMMA :: args_text (b :: args)).
    rewrite <-app_assoc. cbn [app].
    rewrite (Hstep (COMMA :: args_text (b :: args) ++ RPAREN :: r) CR_COMMA
      (args_text (b :: args) ++ RPAREN :: r)) by done.
    cbn [parsearglist_loop]. rewrite (proj2 (Nat.ltb_lt (length pre) CR_MAXARGS)) by lia.
    cbn [require rbind]. rewrite decide_True by done.
    assert (gettoken (args_text (b :: args) ++ RPAREN :: r) =
      (CR_NOERR, CR_WORD, args_text (b :: args) ++ RPAREN :: r)) as ->.
    { destruct args; by apply gettoken_word. }
    rewrite decide_True by done. rewrite IH; [by rewrite <-app_assoc|done|done| |simpl in *; lia].
    rewrite length_app. simpl in *. lia.
Qed.

Lemma parsefunction_text f args cmp rest t p :
  wf (EFunc f args cmp) → follow rest t p →
  gettoken (text (EFunc f args cmp) ++ rest) =
    (CR_NOERR, CR_WORD, text (EFunc f args cmp) ++ rest) ∧
  crule_parsefunction (text (EFunc f args cmp) ++ rest) =
    Ok (CR_NOERR, Some (tree (EFunc f args cmp)), t, p).
Proof.
  intros (Hf & Hargs & Hlen & [fn Hfn] & Hcmp) (Hr & Hg & Hnc). cbn [text].
  rewrite <-app_assoc. cbn [app]. rewrite <-app_assoc. cbn [app].
  set (after := cmp_text cmp ++ rest).
  destruct (getword_plain f (LPAREN :: args_text args ++ RPAREN :: after) Hf ltac:(done)) as [Hw Hgt].
  split; [exact Hgt|]. unfold crule_parsefunction. rewrite Hw. cbn [rbind].
  change (gettoken (LPAREN :: ?x)) with (CR_NOERR, CR_OPENPAREN, x). cbv iota beta.
  rewrite decide_False by (intros HH; by apply HH). rewrite decide_False by (intros HH; by apply HH).
  rewrite Hfn.
  assert (∃ t1, gettoken (args_text args ++ RPAREN :: after) =
      (CR_NOERR, t1, if decide (args = []) then after else args_text args ++ RPAREN :: after) ∧
      crule_parsearglist t1 (if decide (args = []) then after else args_text args ++ RPAREN :: after) =
      Ok (CR_NOERR, args, CR_CLOSEPAREN, after)) as (t1 & -> & Hargl).
  { destruct args as [|a args].
    - exists CR_CLOSEPAREN. split; [done|]. done.
    - exists CR_WORD. rewrite decide_False by done. split; [destruct args; by apply gettoken_word|].
      unfold crule_parsearglist. apply (args_loop (a :: args) after _ []); [done|done|simpl in *; lia|].
      assert (length (a :: args) ≤ length (args_text (a :: args)))%nat.
      { clear. revert a. induction args as [|b args IH]; intros a; [simpl; lia|].
        change (args_text (a :: b :: args)) with (quote a ++ COMMA :: args_text (b :: args)).
        rewrite length_app. specialize (IH b). simpl length in *. lia. }
      rewrite length_app. simpl length in *. lia. }
  cbv iota beta. rewrite decide_False by (intros HH; by apply HH). rewrite Hargl. cbn [rbind].
  rewrite decide_False by (intros HH; by apply HH). rewrite decide_False by (intros HH; by apply HH).
  cbn [snd]. rewrite Z.eqb_refl. cbn [negb andb].
  unfold tree, func_name. rewrite Hfn. destruct cmp as [[op v]|]; cycle 1.
  { unfold after. cbn [cmp_text app]. rewrite Hg. rewrite decide_False by (intros HH; by apply HH).
    by rewrite Hnc. }
  destruct Hcmp as [Hop Hv]. destruct (getword_plain v rest Hv Hr) as [Hwv Hgv].
  assert (gettoken after = (CR_NOERR, op, v ++ rest)) as ->.
  { unfold after. cbn [cmp_text]. rewrite <-app_assoc. by destruct op. }
  rewrite decide_False by (intros HH; by apply HH). rewrite Hop, Hgv. cbv iota beta.
  rewrite decide_False by (intros HH; by apply HH). rewrite decide_False by (intros HH; by apply HH).
  rewrite Hwv. cbn [rbind]. rewrite Hg. by rewrite decide_False by (intros HH; by apply HH).
Qed.

(** Fuel for an expression. *)
Fixpoint need (e : expr) : nat :=
  match e with
  | EFunc _ _ _ => 1%nat
  | ENot e => S (need e)
  | EAnd a b | EOr a b => (4 + need a + need b)%nat
  end.

Lemma parseprimary_text e fuel below rest t p :
  wf e → follow rest t p → (need e ≤ fuel)%nat →
  ∃ t0 p0, gettoken (text e ++ rest) = (CR_NOERR, t0, p0) ∧
    parseprimary fuel below t0 p0 = Ok (CR_NOERR, Some (tree e), t, p).
Proof.
  revert fuel below rest t p. induction e as [f args cmp|e IH|a IHa b IHb|a IHa b IHb];
    intros [|fuel] below rest t p Hwf Hfol Hn; try (simpl in Hn; lia).
  - destruct (parsefunction_text f args cmp rest t p Hwf Hfol) as [Hg Hp]. by eexists _, _.
  - simpl in Hn. destruct (IH fuel true rest t p Hwf Hfol ltac:(lia)) as (t0 & p0 & Hg & Hp).
    exists CR_NOT, (text e ++ rest). split; [done|]. cbn [parseprimary]. rewrite Hg.
    rewrite decide_False by (intros HH; by apply HH). by rewrite Hp.
  - simpl in Hn. destruct Hwf as [Hwa Hwb]. destruct Hfol as (_ & Hgr & _).
    destruct fuel as [|[|[|fuel]]]; try lia.
    destruct (IHb fuel false (RPAREN :: rest) CR_CLOSEPAREN rest Hwb) as (tb & pb & Hgb & Hpb); [done|lia|].
    destruct (IHa (S fuel) false (bs "&&" ++ text b ++ RPAREN :: rest) CR_AND (text b ++ RPAREN :: rest) Hwa)
      as (ta & pa & Hga & Hpa); [done|lia|].
    eexists CR_OPENPAREN, _. split.
    { cbn [text app]. rewrite <-!app_assoc. done. }
    cbn [parseprimary]. cbn [app] in *. rewrite Hga.
    rewrite decide_False by (intros HH; by apply HH). cbn [parseorexpr parseandexpr]. rewrite Hpa.
    cbn [rbind]. rewrite decide_True by done. rewrite Hgb. rewrite decide_True by done.
    rewrite Hpb. cbn [rbind]. rewrite decide_False by (by intros [_ ?]). cbn [rbind set_arg1].
    rewrite decide_False by (by intros [_ ?]). cbn [rbind]. rewrite decide_False by (intros HH; by apply HH).
    rewrite decide_False by (intros HH; by apply HH). by rewrite Hgr.
  - simpl in Hn. destruct Hwf as [Hwa Hwb]. destruct Hfol as (_ & Hgr & _).
    destruct fuel as [|[|[|fuel]]]; try lia.
    destruct (IHb fuel false (RPAREN :: rest) CR_CLOSEPAREN rest Hwb) as (tb & pb & Hgb & Hpb); [done|lia|].
    destruct (IHa (S fuel) false (bs "||" ++ text b ++ RPAREN :: rest) CR_OR (text b ++ RPAREN :: rest) Hwa)
      as (ta & pa & Hga & Hpa); [done|lia|].
    eexists CR_OPENPAREN, _. split.
    { cbn [text app]. rewrite <-!app_assoc. done. }
    cbn [parseprimary]. cbn [app] in *. rewrite Hga.
    rewrite decide_False by (intros HH; by apply HH). cbn [parseorexpr parseandexpr]. rewrite Hpa.
    cbn [rbind]. rewrite decide_False by (by intros [_ ?]). cbn [rbind]. rewrite decide_True by done.
    rewrite Hgb. rewrite decide_True by done. rewrite Hpb. cbn [rbind].
    rewrite decide_False by (by intros [_ ?]). cbn [rbind]. rewrite decide_False by (by intros [_ ?]).
    cbn [rbind set_arg1]. rewrite decide_False by (intros HH; by apply HH).
    rewrite decide_False by (intros HH; by apply HH). by rewrite Hgr.
Qed.

Lemma need_le e : wf e → (need e ≤ 4 * length (text e))%nat.
Proof.
  induction e as [f args cmp|e IH|a IHa b IHb|a IHa b IHb]; intros Hwf; cbn [need text];
    rewrite ?length_app; cbn [length bs]; rewrite ?length_app; cbn [length].
  - lia.
  - specialize (IH Hwf). lia.
  - destruct Hwf as [Ha Hb]. specialize (IHa Ha). specialize (IHb Hb). lia.
  - destruct Hwf as [Ha Hb]. specialize (IHa Ha). specialize (IHb Hb). lia.
Qed.

Lemma parse_of_text e : wf e → crule_parse (text e) = Ok (Some (tree e)) ∧ crule_test (text e) = Ok 0.
Proof.
  intros Hwf. pose proof (need_le e Hwf) as Hn.
  assert (∃ f, parse_fuel (text e) = S (S f) ∧ (need e ≤ f)%nat) as (f & Hf & Hle).
  { exists (4 * length (text e) + 2)%nat. unfold parse_fuel. split; lia. }
  destruct (parseprimary_text e f false [] CR_END [] Hwf) as (t0 & p0 & Hg & Hp); [done|done|].
  rewrite app_nil_r in Hg.
  assert (parseorexpr (parse_fuel (text e)) None t0 p0 = Ok (CR_NOERR, Some (tree e), CR_END, [])) as Hor.
  { rewrite Hf. cbn [parseorexpr parseandexpr]. rewrite Hp. cbn [rbind].
    rewrite decide_False by (by intros [_ ?]). cbn [rbind]. by rewrite decide_False by (by intros [_ ?]). }
  split.
  - unfold crule_parse. rewrite Hg. rewrite decide_False by (intros HH; by apply HH). rewrite Hor.
    cbn [rbind]. by rewrite decide_False by (intros HH; by apply HH).
  - unfold crule_test. rewrite Hg. rewrite decide_False by (intros HH; by apply HH). rewrite Hor.
    cbn [rbind]. by rewrite decide_False by (intros HH; by apply HH).
Qed.

(** C31.  Writing an expression and parsing it gives back its tree, and the
    tree evaluates to the meaning of the expression: functions with their
    arguments and comparisons, [!], [&&] and [||] in any nesting. *)
Theorem crule_roundtrip e call :
  wf e →
  crule_parse (text e) = Ok (Some (tree e)) ∧ crule_test (text e) = Ok 0 ∧
  crule_eval (λ f args, Ok (call f args)) (tree e) = Ok (meaning call e).
Proof. intros Hwf. destruct (parse_of_text e Hwf) as [H1 H2]. split_and!; [done..|]. by apply eval_tree, Forall_true. Qed.

Definition demo_expr : expr :=
  EAnd (ENot (EFunc (bs "is_tls") [] None))
       (EOr (EFunc (bs "REPUTATION") [] (Some (CR_LESS_THAN, bs "10")))
            (EFunc (bs "match_mask") [bs "*!*@a b"] None)).

Lemma crule_roundtrip_witness :
  crule_parse (bs "(!is_tls()&&(REPUTATION()<10||match_mask('*!*@a b')))") = Ok (Some (tree demo_expr)).
Proof.
  apply (crule_roundtrip demo_expr (λ _ _, 0)). cbn [wf demo_expr].
  unfold plain, arg_ok. change (CR_MAXARGLEN - 1)%nat with (Z.to_nat 159).
  split_and!; try (apply (bool_decide_unpack _); vm_compute; reflexivity);
    try (eexists; vm_compute; reflexivity); (done || simpl; lia).
Defined.

(** ** Rule functions that count characters of the text *)

Definition count (P : Z → bool) (s : list Z) : Z := Z.of_nat (length (filter (λ c, P c = true) s)).

(** The shape of the three percentage loops: characters that count, and those
    among them that qualify. *)
Fixpoint percent_loop (counts hit : Z → bool) (p : list Z) (total hits : Z) : Z * Z :=
  match p with
  | [] => (total, hits)
  | c :: r =>
      if counts c then percent_loop counts hit r (total + 1) (if hit c then hits + 1 else hits)
      else percent_loop counts hit r total hits
  end.
Definition percentage (counts hit : Z → bool) (text : option (list Z)) : Z :=
  match text with
  | None => 0
  | Some p =>
      let '(total, hits) := percent_loop counts hit p 0 0 in
      if 0 <? total then Z.quot (hits * 100) total else 0
  end.
Definition crule_uppercase_percentage (text : option (list Z)) : Z := percentage isalpha isupper text.
Definition crule_non_ascii_percentage (text : option (list Z)) : Z :=
  percentage (λ _, true) (λ c, negb (Z.land c 0x80 =? 0)) text.
Definition crule_digit_percentage (text : option (list Z)) : Z := percentage (λ _, true) isdigit text.

Fixpoint word_count_loop (p : list Z) (count : Z) (in_word : bool) : Z :=
  match p with
  | [] => count
  | c :: r =>
      if (c =? SPACE_CH) || (c =? TAB) then word_count_loop r count false
      else if negb in_word then word_count_loop r (count + 1) true
      else word_count_loop r count in_word
  end.
Definition crule_word_count (text : option (list Z)) : Z :=
  match text with None => 0 | Some p => word_count_loop p 0 false end.

(** [prev] is the character before [p]. *)
Fixpoint repeat_loop (prev : Z) (p : list Z) (cur max : Z) : Z :=
  match p with
  | [] => if max <? cur then cur else max
  | c :: r =>
      if c =? prev then repeat_loop c r (cur + 1) max
      else repeat_loop c r 1 (if max <? cur then cur else max)
  end.
Definition crule_max_repeat_count (text : option (list Z)) : Z :=
  match text with
  | None => 0
  | Some [] => 0
  | Some (c :: r) => repeat_loop c r 1 0
  end.

Lemma percent_loop_spec counts hit p total hits :
  percent_loop counts hit p total hits =
    (total + count counts p, hits + count (λ c, counts c && hit c) p).
Proof.
  revert total hits. induction p as [|c p IH]; intros total hits; simpl.
  { unfold count. simpl. f_equal; lia. }
  rewrite !IH. unfold count. rewrite !filter_cons.
  destruct (counts c), (hit c); simpl; repeat case_decide; try done; simpl; f_equal; lia.
Qed.

Lemma count_le (P Q : Z → bool) p : (∀ c, Q c = true → P c = true) → 0 ≤ count Q p ≤ count P p.
Proof.
  intros H. unfold count. split; [lia|]. apply inj_le. induction p as [|c p IH]; [done|].
  rewrite !filter_cons. repeat case_decide; simpl; try lia. exfalso. auto.
Qed.

Lemma percentage_spec counts hit s :
  0 ≤ percentage counts hit (Some s) ≤ 100 ∧
  (count counts s ≠ 0 →
     percentage counts hit (Some s) = 100 * count (λ c, counts c && hit c) s / count counts s).
Proof.
  unfold percentage. rewrite percent_loop_spec, !Z.add_0_l.
  pose proof (count_le counts (λ c, counts c && hit c) s
    ltac:(intros c [? _]%andb_true_iff; done)) as Hle.
  destruct (Z.ltb_spec 0 (count counts s)) as [Hp|Hp].
  - rewrite Z.quot_div_nonneg by lia. split; [|intros _; f_equal; lia]. split.
    + apply Z.div_pos; lia.
    + apply Z.div_le_upper_bound; lia.
  - split; [lia|]. lia.
Qed.

(** A run of [n] equal characters inside [s]. *)
Definition has_run (s : list Z) (n : nat) : Prop := ∃ a c b, s = a ++ replicate n c ++ b.

(** The longest run of equal characters. *)
Fixpoint longest_run (s : list Z) : Z :=
  match s with
  | [] => 0
  | c :: r => Z.max (Z.of_nat (length (take_while (λ x, x =? c) s))) (longest_run r)
  end.

Lemma repeat_loop_spec prev p cur max :
  0 < cur → 0 ≤ max →
  repeat_loop prev p cur max =
    Z.max max (Z.max (cur + Z.of_nat (length (take_while (λ x, x =? prev) p))) (longest_run p)).
Proof.
  revert prev cur max. induction p as [|c p IH]; intros prev cur max Hc Hm.
  { simpl. bool_cases. }
  cbn [repeat_loop longest_run take_while]. rewrite Z.eqb_refl.
  destruct (Z.eqb_spec c prev) as [->|Hne].
  - rewrite IH by lia. cbn [length]. lia.
  - rewrite IH by (try lia; bool_cases). cbn [length].
    destruct (Z.ltb_spec max cur); lia.
Qed.

(** The words of a text: the non-empty pieces between spaces and tabs. *)
Definition words (s : list Z) : list (list Z) :=
  filter (λ t, Strtoken.nonempty t = true) (Strtoken.split [SPACE_CH; TAB] s).

Lemma split_cons fs s : ∃ t ts, Strtoken.split fs s = t :: ts.
Proof.
  destruct s as [|c s]; simpl; [by eexists _, _|]. destruct (Strtoken.sep fs c); [by eexists _, _|].
  destruct (Strtoken.split fs s); by eexists _, _.
Qed.

Lemma word_count_loop_spec s n in_word :
  word_count_loop s n in_word =
    n + Z.of_nat (length (words s)) -
    (if in_word && Strtoken.nonempty (hd [] (Strtoken.split [SPACE_CH; TAB] s)) then 1 else 0).
Proof.
  revert n in_word. induction s as [|c s IH]; intros n in_word.
  { simpl. unfold words. simpl. rewrite andb_false_r. lia. }
  assert (Strtoken.sep [SPACE_CH; TAB] c = (c =? SPACE_CH) || (c =? TAB)) as Hsep.
  { unfold Strtoken.sep. destruct (Z.eqb_spec c SPACE_CH) as [->|H1]; [done|].
    destruct (Z.eqb_spec c TAB) as [->|H2]; [done|]. simpl. apply bool_decide_eq_false_2. set_solver. }
  destruct (split_cons [SPACE_CH; TAB] s) as (t & ts & Es). specialize (IH).
  unfold words in *. cbn [word_count_loop Strtoken.split]. rewrite Hsep.
  destruct ((c =? SPACE_CH) || (c =? TAB)).
  - rewrite IH, filter_cons_False by done. simpl. rewrite andb_false_r. lia.
  - rewrite Es in *. rewrite filter_cons_True by done. cbn [hd Strtoken.nonempty length] in *.
    rewrite andb_true_r. destruct in_word; simpl negb; cbv iota; rewrite IH; simpl andb;
      (destruct t as [|x t]; [rewrite filter_cons_False by done|rewrite filter_cons_True by done]);
      cbn [Strtoken.nonempty length]; lia.
Qed.

(** The text functions compute what their names say: the percentages
    are the rounded-down shares, between 0 and 100 (no division by zero on a
    text without letters), [max_repeat_count] is the length of the longest
    run of equal characters, and [word_count] the number of words. *)
Theorem text_functions_correct s :
  0 ≤ crule_uppercase_percentage (Some s) ≤ 100 ∧
  (count isalpha s ≠ 0 → crule_uppercase_percentage (Some s) =
     100 * count (λ c, isalpha c && isupper c) s / count isalpha s) ∧
  0 ≤ crule_digit_percentage (Some s) ≤ 100 ∧
  (s ≠ [] → crule_digit_percentage (Some s) = 100 * count isdigit s / Z.of_nat (length s)) ∧
  (s ≠ [] → crule_non_ascii_percentage (Some s) =
     100 * count (λ c, negb (Z.land c 0x80 =? 0)) s / Z.of_nat (length s)) ∧
  crule_max_repeat_count (Some s) = longest_run s ∧
  crule_word_count (Some s) = Z.of_nat (length (words s)).
Proof.
  assert (count (λ _, true) s = Z.of_nat (length s)) as Hall.
  { unfold count. f_equal. induction s as [|c s IH]; [done|]. rewrite filter_cons_True by done.
    simpl. by rewrite IH. }
  assert (s ≠ [] → count (λ _, true) s ≠ 0) as Hne by (rewrite Hall; destruct s; [done|simpl; lia]).
  split_and!; try apply percentage_spec.
  - intros Hs. rewrite <-Hall. apply (percentage_spec (λ _, true) isdigit s). auto.
  - intros Hs. rewrite <-Hall. by apply (percentage_spec (λ _, true) (λ c, negb (Z.land c 0x80 =? 0)) s), Hne.
  - destruct s as [|c s]; [done|]. cbn [crule_max_repeat_count longest_run take_while].
    rewrite repeat_loop_spec, Z.eqb_refl by lia. cbn [length]. lia.
  - cbn [crule_word_count]. rewrite word_count_loop_spec. simpl. lia.
Qed.

Lemma text_functions_witness :
  crule_uppercase_percentage (Some (bs "HELlo 12")) =
    100 * count (λ c, isalpha c && isupper c) (bs "HELlo 12") / count isalpha (bs "HELlo 12").
Proof. apply text_functions_correct. vm_compute. discriminate. Defined.
