(* ===== verification/MessageTags.v ===== *)
(** * Message tags (src/modules/message-tags.c, src/api-messagetag.c)

    The registry of message-tag handlers, the escaping of tag values, the
    parser of the tag part of a line and the printer that relays tags to a
    client or server.  A handler's function pointers are Rocq functions of the
    client they are called with. *)

From stdpp Require Import base tactics list numbers strings gmap.
From Stdlib Require Import ZArith Lia.
From S2P Require Import Prelude Chars Support.

Local Open Scope Z_scope.

Definition SERVER_TAG_SIZE_LIMIT : nat := Z.to_nat 8191.
Definition CLIENT_TAG_SIZE_LIMIT : nat := Z.to_nat 8191.

(** ** Escaping *)

Fixpoint message_tag_unescape (inp : list Z) : list Z :=
  match inp with
  | [] => []
  | c :: r =>
      if c =? BSLASH then
        match r with
        | [] => []  (* unfinished escaping *)
        | d :: r' =>
            (if d =? COLON then SEMI
             else if d =? 115 then SPACE_CH
             else if d =? 114 then CR
             else if d =? 110 then LF
             else d) :: message_tag_unescape r'
        end
      else c :: message_tag_unescape r
  end.

(** The characters that are escaped, and the letter that stands for each. *)
Definition special (c : Z) : bool :=
  (c =? SEMI) || (c =? SPACE_CH) || (c =? BSLASH) || (c =? CR) || (c =? LF).
Definition escape_letter (c : Z) : Z :=
  if c =? SEMI then COLON
  else if c =? SPACE_CH then 115
  else if c =? BSLASH then BSLASH
  else if c =? CR then 114
  else 110.

(** [room] is [end - o]. *)
Fixpoint escape_loop (inp : list Z) (room : nat) : list Z :=
  match inp with
  | [] => []
  | c :: r =>
      if special c then
        if (room <? 3)%nat then []
        else BSLASH :: escape_letter c :: escape_loop r (room - 2)
      else
        if (room <? 2)%nat then []
        else c :: escape_loop r (room - 1)
  end.

(** The final NUL needs a byte of room. *)
Definition message_tag_escape (inp : list Z) (outsize : nat) : res (list Z) :=
  let! _ := require (0 <? outsize)%nat in
  Ok (escape_loop inp outsize).

(** ** Clients, capabilities and handlers *)

(** What the module looks at in a client: [c_dir] is the direction it is
    reached through, if any, as (IsServer, SupportMTAGS). *)
Record mclient := MClient {
  m_server : bool;             (* IsServer *)
  m_local : bool;              (* MyConnect *)
  m_caps : Z;                  (* local->caps *)
  m_dir : option (bool * bool)
}.

Record ClientCapability := ClientCap { cc_id : nat; cc_cap : Z }.

Record MessageTagHandler := MTagHandler {
  h_id : nat;                  (* its address *)
  h_name : list Z;
  h_flags : Z;
  h_is_ok : mclient → list Z → list Z → bool;
  h_should_send : option (mclient → bool);
  h_owner : option nat;
  h_clicap : option ClientCapability;
  h_unloaded : bool
}.

Definition MTAG_HANDLER_FLAGS_NO_CAP_NEEDED : Z := 1.
Definition no_cap_needed (flags : Z) : bool :=
  negb (Z.land flags MTAG_HANDLER_FLAGS_NO_CAP_NEEDED =? 0).

(** [MessageTagHandlerFind] on the list [mtaghandlers]. *)
Definition MessageTagHandlerFind (name : list Z) (hs : list MessageTagHandler)
  : option MessageTagHandler :=
  List.find (λ m, strcasecmp name (h_name m) =? 0) hs.

(** The request passed by a module. *)
Record MessageTagHandlerInfo := MTagInfo {
  i_name : list Z;
  i_flags : Z;
  i_is_ok : mclient → list Z → list Z → bool;
  i_should_send : option (mclient → bool);
  i_clicap : option ClientCapability
}.

(** The registry: the list of handlers, the message-tag objects of each
    module, and the back pointers of the capabilities ([cc->mtag_handler]).
    [g_next] is the address the allocator returns next. *)
Record registry := Registry {
  g_handlers : list MessageTagHandler;
  g_objects : gmap nat (list nat);
  g_backptr : gmap nat nat;
  g_next : nat
}.

Definition update_handler (id : nat) (f : MessageTagHandler → MessageTagHandler)
    (hs : list MessageTagHandler) : list MessageTagHandler :=
  map (λ m, if (h_id m =? id)%nat then f m else m) hs.

(** [MessageTagHandlerAdd]: UB stands for the calls to [abort]; a NULL result
    is [None]. *)
Definition MessageTagHandlerAdd (module : option nat) (mreq : MessageTagHandlerInfo)
    (g : registry) : res (registry * option nat) :=
  if no_cap_needed (i_flags mreq) && bool_decide (is_Some (i_clicap mreq)) then UB
  else if negb (no_cap_needed (i_flags mreq)) && negb (bool_decide (is_Some (i_clicap mreq))) then UB
  else
  let fill (m : MessageTagHandler) :=
    MTagHandler (h_id m) (h_name m) (i_flags mreq) (i_is_ok mreq) (i_should_send mreq)
      module (i_clicap mreq) false in
  let finish id hs next :=
    Ok (Registry hs
          (match module with
           | Some o => <[o := id :: default [] (g_objects g !! o)]> (g_objects g)
           | None => g_objects g
           end)
          (match i_clicap mreq with
           | Some cc => <[cc_id cc := id]> (g_backptr g)
           | None => g_backptr g
           end)
          next, Some id) in
  match MessageTagHandlerFind (i_name mreq) (g_handlers g) with
  | Some m =>
      if h_unloaded m then
        finish (h_id m) (update_handler (h_id m) fill (g_handlers g)) (g_next g)
      else Ok (g, None)
  | None =>
      let m := MTagHandler (g_next g) (i_name mreq) 0 (λ _ _ _, false) None None None false in
      finish (g_next g) (fill m :: g_handlers g) (S (g_next g))
  end.

Definition unload_mtag_handler_commit (m : MessageTagHandler) (g : registry) : registry :=
  Registry (filter (λ x, h_id x ≠ h_id m) (g_handlers g)) (g_objects g)
    (match h_clicap m with
     | Some cc => delete (cc_id cc) (g_backptr g)
     | None => g_backptr g
     end)
    (g_next g).

(** The loop that deletes the first object of the module for this handler. *)
Fixpoint del_object (id : nat) (objs : list nat) : list nat :=
  match objs with
  | [] => []
  | o :: r => if (o =? id)%nat then r else o :: del_object id r
  end.

Definition MessageTagHandlerDel (rehashing : bool) (m : MessageTagHandler) (g : registry)
  : registry :=
  let clear (un : bool) (x : MessageTagHandler) :=
    MTagHandler (h_id x) (h_name x) (h_flags x) (h_is_ok x) (h_should_send x)
      None (h_clicap x) (un || h_unloaded x) in
  let objs := match h_owner m with
              | Some o => <[o := del_object (h_id m) (default [] (g_objects g !! o))]> (g_objects g)
              | None => g_objects g
              end in
  let g' := Registry (update_handler (h_id m) (clear rehashing) (g_handlers g)) objs
              (g_backptr g) (g_next g) in
  if rehashing then g' else unload_mtag_handler_commit m g'.

Definition unload_all_unused_mtag_handlers (g : registry) : registry :=
  foldl (λ g m, if h_unloaded m then unload_mtag_handler_commit m g else g) g (g_handlers g).

(** ** Filters *)

Definition message_tag_ok (hs : list MessageTagHandler) (client : mclient) (name value : list Z)
  : bool :=
  match MessageTagHandlerFind name hs with
  | None => m_server client || negb (m_local client)
  | Some m => h_is_ok m client name value
  end.

Definition client_accepts_tag (CAP_MESSAGE_TAGS : Z) (hs : list MessageTagHandler)
    (token : list Z) (client : mclient) : bool :=
  if m_server client || negb (m_local client) then true else
  match MessageTagHandlerFind token hs with
  | None => false
  | Some m =>
      if match h_should_send m with Some f => negb (f client) | None => false end then false
      else if negb (Z.land (m_caps client) CAP_MESSAGE_TAGS =? 0) then true
      else if no_cap_needed (h_flags m) then false
      else match h_clicap m with
           | Some cc => negb (Z.land (m_caps client) (cc_cap cc) =? 0)
           | None => false
           end
  end.

(** ** Parser *)

Record MessageTag := MTag { t_name : list Z; t_value : option (list Z) }.
#[global] Instance MessageTag_eq_dec : EqDecision MessageTag.
Proof. solve_decision. Defined.

(** Unescaping into one of the static buffers [name] and [value]. *)
Definition unescape_into (size : nat) (inp : list Z) : res (list Z) :=
  let out := message_tag_unescape inp in
  let! _ := require (length out <? size)%nat in Ok out.

(** One element, [name=value] or [name]. *)
Definition parse_element (hs : list MessageTagHandler) (client : mclient) (element : list Z)
    (mtag_list : list MessageTag) : res (list MessageTag) :=
  let '(nm, x) := Strtoken.scan_token [EQUAL] element in
  let! value := match x with
                | Some v => unescape_into (S SERVER_TAG_SIZE_LIMIT) v
                | None => Ok []
                end in
  let! name := unescape_into (S SERVER_TAG_SIZE_LIMIT) nm in
  if message_tag_ok hs client name value then
    Ok (MTag name (match value with [] => None | _ => Some value end) :: mtag_list)
  else Ok mtag_list.

Fixpoint parse_elements (hs : list MessageTagHandler) (client : mclient) (els : list (list Z))
    (mtag_list : list MessageTag) : res (list MessageTag) :=
  match els with
  | [] => Ok mtag_list
  | e :: r => let! l := parse_element hs client e mtag_list in parse_elements hs client r l
  end.

(** [_parse_message_tags]: the new value of [*str], the list of tags, and
    whether ERR_INPUTTOOLONG was sent.  The caller has seen that [*str] starts
    with an at-sign. *)
Definition parse_message_tags (hs : list MessageTagHandler) (client : mclient) (str : list Z)
    (mtag_list : list MessageTag) : res (list Z * list MessageTag * bool) :=
  let! _ := require (deref str =? AT) in
  let '(head, remainder) := Strtoken.scan_token [SPACE_CH] str in
  let lenstr := length head in
  let toolong := (m_server client && (SERVER_TAG_SIZE_LIMIT <? lenstr)%nat)
    || (negb (m_server client) && (CLIENT_TAG_SIZE_LIMIT <? lenstr)%nat) in
  let remainder := if toolong then None else remainder in
  match remainder with
  | None => Ok ([], mtag_list, toolong)
  | Some rest =>
      let! els := Strtoken.strtoken_all [SEMI] (tail head) in
      let! l := parse_elements hs client els mtag_list in
      Ok (rest, l, false)
  end.

(** ** Printer *)

(** [snprintf] into a buffer of [size] bytes. *)
Definition snprintf (size : nat) (s : list Z) : list Z := take (size - 1) s.

Definition TAGBUF : nat := Z.to_nat 8192.
Definition TAGSBUF : nat := Z.to_nat 16384.

Definition tag_text (m : MessageTag) : res (list Z) :=
  match t_value m with
  | Some v =>
      let! name := message_tag_escape (t_name m) TAGBUF in
      let! value := message_tag_escape v TAGBUF in
      Ok (snprintf TAGBUF (name ++ [EQUAL] ++ value ++ [SEMI]))
  | None =>
      let! name := message_tag_escape (t_name m) TAGBUF in
      Ok (snprintf TAGBUF (name ++ [SEMI]))
  end.

Fixpoint tags_loop (accepts : MessageTag → bool) (ms : list MessageTag) (buf : list Z)
  : res (list Z) :=
  match ms with
  | [] => Ok buf
  | m :: r =>
      if negb (accepts m) then tags_loop accepts r buf
      else
        let! tbuf := tag_text m in
        tags_loop accepts r (fst (Strl.strlcat buf tbuf TAGSBUF))
  end.

Definition mtags_to_string (CAP_MESSAGE_TAGS : Z) (hs : list MessageTagHandler)
    (ms : list MessageTag) (client : option mclient) : res (option (list Z)) :=
  match ms with
  | [] => Ok None
  | _ =>
      if match client with
         | Some c => match m_dir c with Some (srv, sup) => srv && negb sup | None => false end
         | None => false
         end then Ok None
      else
        let accepts m := match client with
                         | Some c => client_accepts_tag CAP_MESSAGE_TAGS hs (t_name m) c
                         | None => true
                         end in
        let! buf := tags_loop accepts ms [] in
        match buf with
        | [] => Ok None
        | _ => Ok (Some (take (length buf - 1) buf))
        end
  end.

(** ** Theory *)

#[global] Opaque TAGBUF TAGSBUF SERVER_TAG_SIZE_LIMIT CLIENT_TAG_SIZE_LIMIT.
Lemma TAGBUF_val : Z.of_nat TAGBUF = 8192.
Proof. by vm_compute. Qed.
Lemma TAGSBUF_val : Z.of_nat TAGSBUF = 16384.
Proof. by vm_compute. Qed.
Lemma SERVER_LIMIT_val : Z.of_nat SERVER_TAG_SIZE_LIMIT = 8191.
Proof. by vm_compute. Qed.
Lemma CLIENT_LIMIT_val : Z.of_nat CLIENT_TAG_SIZE_LIMIT = 8191.
Proof. by vm_compute. Qed.
Ltac sizes :=
  pose proof TAGBUF_val; pose proof TAGSBUF_val; pose proof SERVER_LIMIT_val;
  pose proof CLIENT_LIMIT_val; lia.

(** Escaping without a bound. *)
Definition escape_char (c : Z) : list Z :=
  if special c then [BSLASH; escape_letter c] else [c].
Definition escape_all (s : list Z) : list Z := concat (map escape_char s).

Lemma escape_all_cons c s : escape_all (c :: s) = escape_char c ++ escape_all s.
Proof. done. Qed.

Lemma special_cases c :
  special c = true → c = SEMI ∨ c = SPACE_CH ∨ c = BSLASH ∨ c = CR ∨ c = LF.
Proof. unfold special. bool_cases; auto. Qed.

Lemma special_false c : special c = false → c ≠ SEMI ∧ c ≠ SPACE_CH ∧ c ≠ BSLASH ∧ c ≠ CR ∧ c ≠ LF.
Proof. unfold special. bool_cases. Qed.

Lemma unescape_escape_char c s :
  message_tag_unescape (escape_char c ++ s) = c :: message_tag_unescape s.
Proof.
  unfold escape_char. destruct (special c) eqn:E.
  - by destruct (special_cases c E) as [->|[->|[->|[->| ->]]]].
  - apply special_false in E as (_ & _ & ? & _). simpl. bool_cases.
Qed.

Lemma unescape_escape_all s r :
  message_tag_unescape (escape_all s ++ r) = s ++ message_tag_unescape r.
Proof.
  induction s as [|c s IH]; [done|].
  by rewrite escape_all_cons, <-app_assoc, unescape_escape_char, IH.
Qed.

(** The bounded loop escapes a prefix, as long as it can be. *)
Lemma escape_loop_spec s room :
  (0 < room)%nat →
  ∃ k, (k ≤ length s)%nat ∧ escape_loop s room = escape_all (take k s) ∧
    (length (escape_loop s room) < room)%nat ∧
    ((k < length s)%nat → (room ≤ length (escape_all (take (S k) s)))%nat).
Proof.
  revert room. induction s as [|c s IH]; intros room Hr;
    [exists 0%nat; simpl; repeat split; lia|].
  assert (∀ k, escape_all (take (S k) (c :: s)) = escape_char c ++ escape_all (take k s)) as Hc by done.
  cbn [escape_loop]. unfold escape_char in Hc. destruct (special c) eqn:E.
  - destruct (Nat.ltb_spec room 3).
    + exists 0%nat. rewrite Hc. simpl. repeat split; lia.
    + destruct (IH (room - 2)%nat ltac:(lia)) as (k & Hk & -> & Hl & Hm). exists (S k).
      rewrite !Hc. simpl length. repeat split; try lia.
  - destruct (Nat.ltb_spec room 2).
    + exists 0%nat. rewrite Hc. simpl. repeat split; lia.
    + destruct (IH (room - 1)%nat ltac:(lia)) as (k & Hk & -> & Hl & Hm). exists (S k).
      rewrite !Hc. simpl length. repeat split; try lia.
Qed.

Lemma escape_all_app s t : escape_all (s ++ t) = escape_all s ++ escape_all t.
Proof. unfold escape_all. by rewrite map_app, concat_app. Qed.

Lemma escape_all_take_length k s : (length (escape_all (take k s)) ≤ length (escape_all s))%nat.
Proof.
  rewrite <-(take_drop k s) at 2. rewrite escape_all_app, length_app. lia.
Qed.

(** When the whole escaped text fits, it is what is written. *)
Lemma escape_fits s size :
  (length (escape_all s) < size)%nat → message_tag_escape s size = Ok (escape_all s).
Proof.
  intros Hs. unfold message_tag_escape. destruct (Nat.ltb_spec 0 size); [simpl|lia]. f_equal.
  destruct (escape_loop_spec s size) as (k & Hk & -> & Hl & Hm); [lia|].
  destruct (decide (k < length s)%nat) as [Hlt|]; [|by rewrite take_ge by lia].
  pose proof (Hm Hlt). pose proof (escape_all_take_length (S k) s). lia.
Qed.

(** The characters that end an element never appear in escaped text. *)
Definition plain_char (c : Z) : Prop := c ≠ SEMI ∧ c ≠ SPACE_CH ∧ c ≠ CR ∧ c ≠ LF.

Lemma escape_all_plain s : Forall plain_char (escape_all s).
Proof.
  induction s as [|c s IH]; [constructor|]. rewrite escape_all_cons. apply Forall_app. split; [|done].
  unfold escape_char. destruct (special c) eqn:E.
  - destruct (special_cases c E) as [->|[->|[->|[->| ->]]]]; repeat constructor; done.
  - apply special_false in E. repeat constructor; tauto.
Qed.

Lemma escape_all_eq_free s : EQUAL ∉ s → EQUAL ∉ escape_all s.
Proof.
  induction s as [|c s IH]; [done|]. rewrite escape_all_cons, not_elem_of_cons, not_elem_of_app.
  intros [Hc Hs]. split; [|by apply IH]. unfold escape_char. destruct (special c) eqn:E.
  - destruct (special_cases c E) as [->|[->|[->|[->| ->]]]]; rewrite !elem_of_cons, elem_of_nil; intros [?|[?|?]]; done.
  - rewrite elem_of_cons, elem_of_nil. naive_solver.
Qed.

(** [message_tag_escape] keeps its documented promises for every input
    and buffer size: the output fits with its NUL, contains none of the
    characters that delimit tags, unescapes to a prefix of the input (so no
    escape sequence is cut in half), and that prefix is the longest that
    fits; in particular it is the whole input when there is room. *)
Theorem message_tag_escape_correct s size :
  (0 < size)%nat →
  ∃ out k, message_tag_escape s size = Ok out ∧
    (length out < size)%nat ∧ Forall plain_char out ∧
    message_tag_unescape out = take k s ∧ (k ≤ length s)%nat ∧
    ((k < length s)%nat → (size ≤ length (escape_all (take (S k) s)))%nat).
Proof.
  intros Hs. destruct (escape_loop_spec s size Hs) as (k & Hk & E & Hl & Hm).
  exists (escape_loop s size), k. unfold message_tag_escape.
  destruct (Nat.ltb_spec 0 size); [|lia]. simpl. split; [done|]. split; [done|].
  rewrite E. split; [apply escape_all_plain|]. split; [|by split].
  rewrite <-(app_nil_r (escape_all _)), unescape_escape_all. simpl. by rewrite app_nil_r.
Qed.

Lemma message_tag_escape_witness :
  ∃ out k, message_tag_escape (bs "a;b c") 6 = Ok out ∧
    (length out < 6)%nat ∧ Forall plain_char out ∧
    message_tag_unescape out = take k (bs "a;b c") ∧ (k ≤ 5)%nat ∧
    ((k < 5)%nat → (6 ≤ length (escape_all (take (S k) (bs "a;b c"))))%nat).
Proof. apply (message_tag_escape_correct (bs "a;b c") 6). lia. Defined.

(** *** Tags as text *)

Definition tag_str (m : MessageTag) : list Z :=
  escape_all (t_name m) ++ match t_value m with Some v => EQUAL :: escape_all v | None => [] end.
Definition tags_str (ms : list MessageTag) : list Z := concat (map (λ m, tag_str m ++ [SEMI]) ms).

(** A tag that a line can carry: no [=] in the name, no empty value, and
    some text. *)
Record tag_wf (m : MessageTag) : Prop := {
  wf_name : EQUAL ∉ t_name m;
  wf_value : t_value m ≠ Some [];
  wf_text : tag_str m ≠ []
}.

Lemma tags_str_cons m ms : tags_str (m :: ms) = tag_str m ++ SEMI :: tags_str ms.
Proof. unfold tags_str. simpl. by rewrite <-app_assoc. Qed.

Lemma tag_text_fits m :
  (length (tag_str m) < TAGBUF - 1)%nat → tag_text m = Ok (tag_str m ++ [SEMI]).
Proof.
  unfold tag_text, tag_str, snprintf. destruct (t_value m) as [v|].
  - rewrite length_app. cbn [length]. intros Hl. rewrite !escape_fits by lia. simpl.
    rewrite take_ge; [by rewrite <-app_assoc|]. rewrite length_app. simpl. rewrite length_app. simpl. lia.
  - rewrite app_nil_r. intros Hl. rewrite escape_fits by lia. simpl.
    rewrite take_ge; [done|]. rewrite length_app. simpl. lia.
Qed.

Lemma tags_loop_fits (accepts : MessageTag → bool) ms buf :
  (length (buf ++ tags_str (filter (λ m, accepts m = true) ms)) < TAGBUF)%nat →
  tags_loop accepts ms buf = Ok (buf ++ tags_str (filter (λ m, accepts m = true) ms)).
Proof.
  revert buf. induction ms as [|m ms IH]; intros buf; cbn [tags_loop]; [by rewrite app_nil_r|].
  destruct (accepts m) eqn:Ha; simpl negb; cbv iota;
    [rewrite filter_cons_True by done|rewrite filter_cons_False by congruence; apply IH].
  rewrite tags_str_cons. intros Hl.
  rewrite !length_app in Hl. cbn [length] in Hl. rewrite tag_text_fits by lia. simpl rbind.
  rewrite Strl.strlcat_fst by sizes.
  rewrite take_ge by (rewrite !length_app; simpl; sizes).
  assert (∀ t, (buf ++ tag_str m ++ [SEMI]) ++ t = buf ++ tag_str m ++ SEMI :: t) as Hb
    by (intros t; by rewrite <-!app_assoc).
  rewrite IH; rewrite Hb; [done|]. rewrite !length_app. cbn [length]. lia.
Qed.

(** The text that is sent: the tags joined by semicolons. *)
Definition tags_line (ms : list MessageTag) : list Z := take (length (tags_str ms) - 1) (tags_str ms).

Lemma tags_line_cons m ms :
  tags_line (m :: ms) = match ms with [] => tag_str m | _ => tag_str m ++ SEMI :: tags_line ms end.
Proof.
  unfold tags_line. rewrite tags_str_cons, length_app. cbn [length]. destruct ms as [|m' ms].
  - simpl. rewrite take_app_le, take_ge by lia. done.
  - rewrite (tags_str_cons m'). rewrite length_app. cbn [length].
    rewrite take_app_ge by lia.
    match goal with |- _ ++ take ?k _ = _ =>
      replace k with (S (length (tag_str m') + S (length (tags_str ms)) - 1))%nat by lia end.
    done.
Qed.

Lemma tags_line_length ms : ms ≠ [] → S (length (tags_line ms)) = length (tags_str ms).
Proof.
  intros Hne. unfold tags_line. rewrite length_take. destruct ms as [|m ms]; [done|].
  rewrite tags_str_cons, length_app. simpl. lia.
Qed.

Lemma sep_one c d : Strtoken.sep [c] d = (d =? c).
Proof.
  unfold Strtoken.sep. destruct (Z.eqb_spec d c) as [->|Hne];
    [apply bool_decide_eq_true_2|apply bool_decide_eq_false_2];
    by rewrite list_elem_of_singleton.
Qed.

Lemma unsep_one c t : c ∉ t → Strtoken.unsep [c] t.
Proof.
  intros Hc. apply Forall_forall. intros d Hd. rewrite sep_one. apply Z.eqb_neq. by intros ->.
Qed.

Lemma tag_str_plain m : Forall plain_char (tag_str m).
Proof.
  unfold tag_str. apply Forall_app. split; [apply escape_all_plain|].
  destruct (t_value m); constructor; [by vm_compute|apply escape_all_plain].
Qed.

Lemma plain_not_in c s : ¬ plain_char c → Forall plain_char s → c ∉ s.
Proof. intros Hc Hs Hin. rewrite Forall_forall in Hs. by apply Hc, Hs. Qed.

Lemma split_tags_line ms :
  ms ≠ [] → Strtoken.split [SEMI] (tags_line ms) = map tag_str ms.
Proof.
  induction ms as [|m ms IH]; [done|]. intros _. rewrite tags_line_cons.
  assert (SEMI ∉ tag_str m) as Hs.
  { apply plain_not_in; [|apply tag_str_plain]. unfold plain_char. tauto. }
  destruct ms as [|m' ms].
  - by rewrite Strtoken.split_unsep by (by apply unsep_one).
  - rewrite Strtoken.split_app by (try apply unsep_one; done). rewrite IH by done. done.
Qed.

Lemma tags_line_space ms : SPACE_CH ∉ tags_line ms.
Proof.
  induction ms as [|m ms IH]; [apply not_elem_of_nil|]. rewrite tags_line_cons.
  assert (SPACE_CH ∉ tag_str m) as Hs.
  { apply plain_not_in; [|apply tag_str_plain]. unfold plain_char. tauto. }
  destruct ms; [done|]. rewrite not_elem_of_app, not_elem_of_cons. by split_and!.
Qed.

(** *** Parsing *)

Lemma unescape_length s : (length (message_tag_unescape s) ≤ length s)%nat.
Proof.
  induction s as [s IH] using (induction_ltof1 _ (@length Z)). unfold ltof in IH.
  destruct s as [|c r]; [done|]. cbn [message_tag_unescape]. destruct (c =? BSLASH).
  - destruct r as [|d r]; simpl; [lia|]. pose proof (IH r ltac:(simpl; lia)). lia.
  - pose proof (IH r ltac:(simpl; lia)). simpl. lia.
Qed.

Lemma unescape_into_ok s size :
  (length s < size)%nat → unescape_into size s = Ok (message_tag_unescape s).
Proof.
  intros Hs. unfold unescape_into. pose proof (unescape_length s).
  destruct (Nat.ltb_spec (length (message_tag_unescape s)) size); [done|lia].
Qed.

(** The tag an element stands for. *)
Definition element_tag (e : list Z) : MessageTag :=
  let '(nm, x) := Strtoken.scan_token [EQUAL] e in
  let value := match x with Some v => message_tag_unescape v | None => [] end in
  MTag (message_tag_unescape nm) (match value with [] => None | _ => Some value end).

Definition tag_accepted (hs : list MessageTagHandler) (client : mclient) (m : MessageTag) : bool :=
  message_tag_ok hs client (t_name m) (default [] (t_value m)).

Lemma scan_token_parts fs e nm x :
  Strtoken.scan_token fs e = (nm, x) →
  (length nm + length (default [] x) + match x with Some _ => 1 | None => 0 end = length e)%nat.
Proof.
  intros E. apply Strtoken.scan_token_inv in E as [_ E]. destruct x as [v|]; simpl.
  - destruct E as (c & _ & ->). rewrite length_app. simpl. lia.
  - subst. lia.
Qed.

Lemma parse_element_ok hs client e l :
  (length e ≤ SERVER_TAG_SIZE_LIMIT)%nat →
  parse_element hs client e l =
    Ok (if tag_accepted hs client (element_tag e) then element_tag e :: l else l).
Proof.
  intros Hl. unfold parse_element, element_tag.
  destruct (Strtoken.scan_token [EQUAL] e) as [nm x] eqn:E.
  pose proof (scan_token_parts _ _ _ _ E) as Hlen.
  destruct x as [v|]; simpl in Hlen; rewrite !unescape_into_ok by lia; simpl rbind;
    unfold tag_accepted; simpl; [destruct (message_tag_unescape v) as [|c u]|]; simpl;
    by destruct (message_tag_ok hs client _ _).
Qed.

Lemma parse_elements_ok hs client els l :
  Forall (λ e, length e ≤ SERVER_TAG_SIZE_LIMIT)%nat els →
  parse_elements hs client els l =
    Ok (rev (filter (λ m, tag_accepted hs client m = true) (map element_tag els)) ++ l).
Proof.
  intros Hl. revert l. induction Hl as [|e els He _ IH]; intros l; [done|].
  cbn [parse_elements map]. rewrite parse_element_ok by done. simpl rbind. rewrite IH, filter_cons.
  destruct (tag_accepted hs client (element_tag e)); case_decide; try done. simpl.
  by rewrite <-app_assoc.
Qed.

Lemma element_tag_str m : tag_wf m → element_tag (tag_str m) = m.
Proof.
  intros [Hn Hv Ht]. unfold element_tag, tag_str in *. destruct m as [n [v|]]; simpl in *.
  - rewrite Strtoken.scan_token_app by (try apply unsep_one, escape_all_eq_free; done).
    rewrite <-(app_nil_r (escape_all v)), <-(app_nil_r (escape_all n)), !unescape_escape_all. simpl.
    rewrite !app_nil_r. by destruct v.
  - rewrite app_nil_r in *. rewrite Strtoken.scan_token_unsep by (by apply unsep_one, escape_all_eq_free).
    by rewrite <-(app_nil_r (escape_all n)), unescape_escape_all, app_nil_r.
Qed.

(** The elements of the tag part of a line. *)
Definition elements (head : list Z) : list (list Z) :=
  filter (λ t, Strtoken.nonempty t = true) (Strtoken.split [SEMI] head).

Lemma filter_nonempty_eq (l : list (list Z)) :
  filter (λ t, Strtoken.nonempty t) l = filter (λ t, Strtoken.nonempty t = true) l.
Proof. apply list_filter_iff. intros t. by destruct t. Qed.

Definition tag_sum (ts : list (list Z)) : nat := list_sum (map (λ t, S (length t)) ts).

Lemma elements_sum head : (tag_sum (elements head) ≤ S (length head))%nat.
Proof.
  unfold elements, tag_sum. rewrite <-(Strtoken.split_length [SEMI]).
  induction (Strtoken.split [SEMI] head) as [|t ts IH]; [done|]. rewrite filter_cons.
  case_decide; simpl; lia.
Qed.

Lemma sum_elem t ts : t ∈ ts → (length t < tag_sum ts)%nat.
Proof.
  unfold tag_sum. induction 1 as [t ts|t u ts _ IH]; simpl; lia.
Qed.

(** [parse_message_tags] on a line with a tag part that is not too long. *)
Lemma parse_message_tags_ok hs client head rest l :
  SPACE_CH ∉ head → (length head < SERVER_TAG_SIZE_LIMIT)%nat →
  parse_message_tags hs client (AT :: head ++ SPACE_CH :: rest) l =
    Ok (rest, rev (filter (λ m, tag_accepted hs client m = true)
                     (map element_tag (elements head))) ++ l, false).
Proof.
  intros Hsp Hl. unfold parse_message_tags.
  assert (Strtoken.scan_token [SPACE_CH] (AT :: head ++ SPACE_CH :: rest) = (AT :: head, Some rest)) as ->.
  { apply (Strtoken.scan_token_app _ (AT :: head)); [|by rewrite sep_one].
    by apply unsep_one, not_elem_of_cons. }
  cbn [deref hd require rbind]. rewrite Z.eqb_refl. cbn [require rbind].
  cbn [length list.tail tail]. destruct (Nat.ltb_spec SERVER_TAG_SIZE_LIMIT (S (length head))); [lia|].
  destruct (Nat.ltb_spec CLIENT_TAG_SIZE_LIMIT (S (length head))); [exfalso; sizes|].
  rewrite !andb_false_r. simpl orb. cbv iota.
  rewrite Strtoken.strtoken_all_split. simpl rbind. rewrite filter_nonempty_eq.
  fold (elements head). rewrite parse_elements_ok; [done|].
  apply Forall_forall. intros e He%sum_elem. pose proof (elements_sum head). sizes.
Qed.

Lemma elements_tags_line ms :
  Forall tag_wf ms → ms ≠ [] → elements (tags_line ms) = map tag_str ms.
Proof.
  intros Hwf Hne. unfold elements. rewrite split_tags_line by done. clear Hne.
  induction Hwf as [|m ms [_ _ Hm] _ IH]; [done|]. simpl. rewrite filter_cons_True, IH; [done|].
  by destruct (tag_str m).
Qed.

Lemma map_element_tag ms : Forall tag_wf ms → map element_tag (map tag_str ms) = ms.
Proof. induction 1 as [|m ms Hm _ IH]; [done|]. simpl. by rewrite element_tag_str, IH. Qed.

(** *** Sending and receiving *)

(** A client or link that can be sent tags at all. *)
Definition mtags_link (client : option mclient) : bool :=
  match client with
  | Some c => match m_dir c with Some (srv, sup) => negb (srv && negb sup) | None => true end
  | None => true
  end.
Definition accepts (CAP_MESSAGE_TAGS : Z) (hs : list MessageTagHandler) (client : option mclient)
    (m : MessageTag) : bool :=
  match client with
  | Some c => client_accepts_tag CAP_MESSAGE_TAGS hs (t_name m) c
  | None => true
  end.

Lemma mtags_to_string_fits CAP hs ms client :
  mtags_link client = true →
  let sent := filter (λ m, accepts CAP hs client m = true) ms in
  sent ≠ [] → (length (tags_str sent) ≤ SERVER_TAG_SIZE_LIMIT)%nat →
  mtags_to_string CAP hs ms client = Ok (Some (tags_line sent)).
Proof.
  intros Hlink sent Hne Hl. unfold mtags_to_string. destruct ms as [|m ms]; [done|].
  assert (match client with
          | Some c => match m_dir c with Some (srv, sup) => srv && negb sup | None => false end
          | None => false
          end = false) as ->.
  { destruct client as [c|]; [|done]. simpl in Hlink. destruct (m_dir c) as [[[] []]|]; done. }
  rewrite (tags_loop_fits (accepts CAP hs client)) by (simpl; fold sent; sizes).
  simpl rbind. fold sent. pose proof (tags_line_length sent Hne).
  destruct (tags_str sent) eqn:E; [simpl in *; lia|]. rewrite <-E. done.
Qed.

Lemma tags_parse_back hs peer ms rest l :
  Forall tag_wf ms → ms ≠ [] → (length (tags_str ms) ≤ SERVER_TAG_SIZE_LIMIT)%nat →
  parse_message_tags hs peer (AT :: tags_line ms ++ SPACE_CH :: rest) l =
    Ok (rest, rev (filter (λ m, tag_accepted hs peer m = true) ms) ++ l, false).
Proof.
  intros Hwf Hne Hl. pose proof (tags_line_length ms Hne).
  rewrite parse_message_tags_ok by (apply tags_line_space || lia).
  by rewrite elements_tags_line, map_element_tag.
Qed.

(** C28.  Round trip of message tags.  When the tags a recipient accepts are
    well-formed and fit the size limit, the line built from
    [mtags_to_string] is parsed back by the receiving side to exactly those
    tags, names and values unescaped, minus the ones its own filter refuses;
    the rest of the line is what follows.  ([AddListItem] puts each new tag
    first, so the order is reversed.) *)
Theorem mtags_roundtrip CAP hs ms client hs' peer rest l :
  mtags_link client = true →
  let sent := filter (λ m, accepts CAP hs client m = true) ms in
  sent ≠ [] → Forall tag_wf sent → (length (tags_str sent) ≤ SERVER_TAG_SIZE_LIMIT)%nat →
  ∃ out, mtags_to_string CAP hs ms client = Ok (Some out) ∧
    parse_message_tags hs' peer (AT :: out ++ SPACE_CH :: rest) l =
      Ok (rest, rev (filter (λ m, tag_accepted hs' peer m = true) sent) ++ l, false).
Proof.
  intros Hlink sent Hne Hwf Hl. exists (tags_line sent).
  split; [by apply mtags_to_string_fits|by apply tags_parse_back].
Qed.

(** *** Relaying what was received *)

(** Lines read from a socket hold no CR or LF. *)
Definition eol_free (s : list Z) : Prop := CR ∉ s ∧ LF ∉ s.

(** Escaping what was unescaped never takes more room than the original. *)
Lemma escape_unescape_length s :
  Forall plain_char s → (length (escape_all (message_tag_unescape s)) ≤ length s)%nat.
Proof.
  assert (∀ c, (length (escape_char c) ≤ 2)%nat) as H2.
  { intros c. unfold escape_char. destruct (special c); simpl; lia. }
  induction s as [s IH] using (induction_ltof1 _ (@length Z)). unfold ltof in IH.
  destruct s as [|c r]; [done|]. intros [Hc Hr]%Forall_cons. cbn [message_tag_unescape].
  destruct (Z.eqb_spec c BSLASH) as [->|Hne].
  - destruct r as [|d r]; [simpl; lia|]. apply Forall_cons in Hr as [Hd Hr].
    rewrite escape_all_cons, length_app. pose proof (IH r ltac:(simpl; lia) Hr).
    match goal with |- (length (escape_char ?x) + _ ≤ _)%nat => pose proof (H2 x) end.
    cbn [length]. lia.
  - rewrite escape_all_cons, length_app. pose proof (IH r ltac:(simpl; lia) Hr).
    unfold escape_char, special, plain_char in *. cbn [length].
    destruct Hc as (? & ? & ? & ?). bool_cases.
Qed.

Lemma unescape_eq_free s : EQUAL ∉ s → EQUAL ∉ message_tag_unescape s.
Proof.
  induction s as [s IH] using (induction_ltof1 _ (@length Z)). unfold ltof in IH.
  destruct s as [|c r]; [done|]. rewrite not_elem_of_cons. intros [Hc Hr].
  cbn [message_tag_unescape]. destruct (Z.eqb_spec c BSLASH) as [->|Hne].
  - destruct r as [|d r]; [apply not_elem_of_nil|]. apply not_elem_of_cons in Hr as [Hd Hr].
    rewrite not_elem_of_cons. split; [|apply IH; [simpl; lia|done]]. bool_cases.
  - rewrite not_elem_of_cons. split; [done|]. apply IH; [simpl; lia|done].
Qed.

Lemma element_tag_fits e :
  Forall plain_char e →
  (length (tag_str (element_tag e)) ≤ length e)%nat ∧
  EQUAL ∉ t_name (element_tag e) ∧ t_value (element_tag e) ≠ Some [].
Proof.
  intros He. unfold element_tag. destruct (Strtoken.scan_token [EQUAL] e) as [nm x] eqn:E.
  pose proof (scan_token_parts _ _ _ _ E) as Hlen.
  apply Strtoken.scan_token_inv in E as [Hu E].
  assert (EQUAL ∉ nm) as Hnm.
  { intros Hin. unfold Strtoken.unsep in Hu. rewrite Forall_forall in Hu.
    specialize (Hu _ Hin). by rewrite sep_one in Hu. }
  assert (Forall plain_char nm ∧ Forall plain_char (default [] x)) as [Hpn Hpv].
  { destruct x as [v|]; [|by subst]. destruct E as (c & _ & ->).
    apply Forall_app in He as [? He]. apply Forall_cons in He as [_ ?]. done. }
  pose proof (escape_unescape_length nm Hpn). unfold tag_str. cbn [t_name t_value].
  split; [|split; [by apply unescape_eq_free|]].
  2: { destruct x as [v|]; [destruct (message_tag_unescape v)|]; done. }
  rewrite length_app. destruct x as [v|]; simpl in *; [|lia].
  pose proof (escape_unescape_length v Hpv). destruct (message_tag_unescape v); simpl in *; lia.
Qed.

Lemma tag_sum_cons t ts : tag_sum (t :: ts) = (S (length t) + tag_sum ts)%nat.
Proof. done. Qed.
Lemma tag_sum_app ts us : tag_sum (ts ++ us) = (tag_sum ts + tag_sum us)%nat.
Proof. unfold tag_sum. by rewrite map_app, list_sum_app. Qed.

Lemma tags_str_length ms : length (tags_str ms) = tag_sum (map tag_str ms).
Proof.
  unfold tag_sum. induction ms as [|m ms IH]; [done|].
  rewrite tags_str_cons, length_app. cbn [length]. rewrite IH. simpl. lia.
Qed.

Lemma tag_sum_perm_le (hs : list MessageTagHandler) client (els : list (list Z)) :
  Forall (λ e, Forall plain_char e) els →
  let ms := rev (filter (λ m, tag_accepted hs client m = true) (map element_tag els)) in
  (length (tags_str ms) ≤ tag_sum els)%nat ∧
  Forall (λ m, EQUAL ∉ t_name m ∧ t_value m ≠ Some []) ms.
Proof.
  intros He ms. subst ms. induction He as [|e els He _ [IH1 IH2]]; [done|].
  destruct (element_tag_fits e He) as (Hl & Hn & Hv). cbn [map]. rewrite filter_cons.
  rewrite tag_sum_cons. case_decide; [|split; [lia|done]].
  cbn [rev]. split; [|apply Forall_app; split; [done|]; by repeat constructor].
  rewrite tags_str_length in *. rewrite map_app, tag_sum_app. cbn [map]. rewrite tag_sum_cons.
  change (tag_sum []) with 0%nat. lia.
Qed.

Lemma elements_plain head :
  SPACE_CH ∉ head → eol_free head → Forall (λ e, Forall plain_char e) (elements head).
Proof.
  intros Hsp [Hcr Hlf]. apply Forall_forall. intros e He. apply Forall_forall. intros c Hc.
  apply list_elem_of_filter in He as [_ He]. destruct (Strtoken.split_elem _ _ _ _ He Hc) as [Hin Hs].
  rewrite sep_one in Hs. apply Z.eqb_neq in Hs. unfold plain_char. repeat split; [done|..];
    intros ->; done.
Qed.

(** The tag part of a line, or the reason there is none. *)
Lemma parse_message_tags_cases hs client str :
  deref str = AT → eol_free str →
  (∃ b, parse_message_tags hs client str [] = Ok ([], [], b)) ∨
  ∃ head rest, str = AT :: head ++ SPACE_CH :: rest ∧ SPACE_CH ∉ head ∧ eol_free head ∧
    (length head < SERVER_TAG_SIZE_LIMIT)%nat.
Proof.
  intros Hat Heol. destruct str as [|c str]; [done|]. unfold deref in Hat. simpl in Hat. subst c.
  destruct (Strtoken.scan_token [SPACE_CH] (AT :: str)) as [hd rem] eqn:E.
  destruct (decide ((SERVER_TAG_SIZE_LIMIT < length hd)%nat ∨ rem = None)) as [Hbad|Hok].
  - left. unfold parse_message_tags. rewrite E. cbn [deref List.hd]. rewrite Z.eqb_refl. cbn [require rbind].
    destruct Hbad as [Hl| ->]; [|match goal with |- context [if ?b then None else None] => destruct b end; by eexists].
    replace (_ || _)%bool with true; [by eexists|].
    destruct (m_server client); simpl; bool_cases; sizes.
  - right. pose proof (scan_token_parts _ _ _ _ E) as Hlen.
    apply Strtoken.scan_token_inv in E as [Hu E]. destruct rem as [rest|]; [|tauto].
    destruct E as (c & Hc & E). rewrite sep_one in Hc. apply Z.eqb_eq in Hc as ->.
    destruct hd as [|c hd]; simpl in E; [done|]. injection E as <- ->.
    exists hd, rest. split; [done|]. split.
    + intros Hin. unfold Strtoken.unsep in Hu. rewrite Forall_forall in Hu.
      specialize (Hu SPACE_CH ltac:(by right)). by rewrite sep_one in Hu.
    + split; [|simpl in *; lia]. destruct Heol as [H1 H2]. split; intros Hin;
        [apply H1|apply H2]; right; apply elem_of_app; by left.
Qed.

(** Tags are relayed without loss.  For every line with a tag part
    (without CR or LF, as read from a socket) the parser returns a result,
    never overrunning its buffers; and when a server link is then sent the
    parsed tags, nothing is truncated by the printer's buffers: the server at
    the other end, if its filter accepts them, parses the same tags (the order
    reversed).  A tag that has no text at all, such as a lone backslash, is the
    only one that cannot be relayed. *)
Theorem mtags_relay hs client str :
  deref str = AT → eol_free str →
  ∃ rest ms toolong, parse_message_tags hs client str [] = Ok (rest, ms, toolong) ∧
    ∀ CAP hs0 link hs' peer,
      ms ≠ [] → Forall (λ m, tag_str m ≠ []) ms →
      mtags_link (Some link) = true → m_server link || negb (m_local link) = true →
      Forall (λ m, tag_accepted hs' peer m = true) ms →
      ∃ out, mtags_to_string CAP hs0 ms (Some link) = Ok (Some out) ∧
        parse_message_tags hs' peer (AT :: out ++ SPACE_CH :: rest) [] = Ok (rest, rev ms, false).
Proof.
  intros Hat Heol.
  destruct (parse_message_tags_cases hs client str Hat Heol) as [[b Hb]|(head & rest & -> & Hsp & He & Hl)].
  { exists [], [], b. split; [done|]. by intros. }
  set (ms := rev (filter (λ m, tag_accepted hs client m = true) (map element_tag (elements head)))).
  exists rest, ms, false. rewrite parse_message_tags_ok, app_nil_r by done. split; [done|].
  destruct (tag_sum_perm_le hs client (elements head) (elements_plain head Hsp He)) as [Hs Hw].
  fold ms in Hs, Hw. pose proof (elements_sum head). intros CAP hs0 link hs' peer Hne Ht Hlink Hsrv Hacc.
  assert (filter (λ m, accepts CAP hs0 (Some link) m = true) ms = ms) as Hall.
  { apply filter_all, Forall_true. intros m. simpl. unfold client_accepts_tag. by rewrite Hsrv. }
  assert (Forall tag_wf ms) as Hwf.
  { apply Forall_forall. intros m Hm. rewrite Forall_forall in Hw, Ht. destruct (Hw m Hm).
    constructor; auto. }
  exists (tags_line ms). split.
  - rewrite mtags_to_string_fits; rewrite ?Hall; (done || lia).
  - rewrite tags_parse_back by (done || lia). rewrite app_nil_r.
    by rewrite filter_all.
Qed.

Definition demo_handler : MessageTagHandler :=
  MTagHandler 0 (bs "msgid") 1 (λ c _ _, m_server c) None None None false.
Definition demo_user : mclient := MClient false true 4 None.
Definition demo_peer : mclient := MClient true true 0 (Some (true, true)).
Definition demo_tags : list MessageTag :=
  [MTag (bs "MsgId") (Some (bs "a;b")); MTag (bs "secret") None].

Lemma mtags_roundtrip_witness :
  ∃ out, mtags_to_string 4 [demo_handler] demo_tags (Some demo_user) = Ok (Some out) ∧
    parse_message_tags [] demo_peer (AT :: out ++ SPACE_CH :: bs "PING") [] =
      Ok (bs "PING", [MTag (bs "MsgId") (Some (bs "a;b"))], false).
Proof.
  apply (mtags_roundtrip 4 [demo_handler] demo_tags (Some demo_user) [] demo_peer (bs "PING") []).
  - reflexivity.
  - vm_compute. discriminate.
  - vm_compute filter. apply Forall_singleton. constructor; [apply (bool_decide_unpack _); vm_compute; exact I|discriminate|vm_compute; discriminate].
  - apply (bool_decide_unpack _). vm_compute. exact I.
Defined.

Lemma mtags_relay_witness :
  ∃ rest ms toolong,
    parse_message_tags [demo_handler] demo_peer (bs "@a=x\sy;b PING x") [] = Ok (rest, ms, toolong) ∧
    ∀ CAP hs0 link hs' peer,
      ms ≠ [] → Forall (λ m, tag_str m ≠ []) ms →
      mtags_link (Some link) = true → m_server link || negb (m_local link) = true →
      Forall (λ m, tag_accepted hs' peer m = true) ms →
      ∃ out, mtags_to_string CAP hs0 ms (Some link) = Ok (Some out) ∧
        parse_message_tags hs' peer (AT :: out ++ SPACE_CH :: rest) [] = Ok (rest, rev ms, false).
Proof.
  apply mtags_relay; [reflexivity|].
  split; apply (bool_decide_unpack _); vm_compute; exact I.
Defined.

(** *** The registry of handlers *)

Definition cap_consistent (flags : Z) (cc : option ClientCapability) : bool :=
  xorb (no_cap_needed flags) (bool_decide (is_Some cc)).

(** Handlers have distinct addresses, all allocated, and names that differ by
    more than case; each needs a capability or says that it needs none. *)
Record reg_ok (g : registry) : Prop := {
  reg_ids : NoDup (map h_id (g_handlers g));
  reg_names : NoDup (map (λ m, casefold (h_name m)) (g_handlers g));
  reg_fresh : Forall (λ m, h_id m < g_next g)%nat (g_handlers g);
  reg_cstr : Forall (λ m, cstr (h_name m)) (g_handlers g);
  reg_caps : Forall (λ m, cap_consistent (h_flags m) (h_clicap m) = true) (g_handlers g)
}.

(** The handler that a lookup of [n] must give, whatever the list order. *)
Lemma Find_spec hs n m :
  NoDup (map (λ m, casefold (h_name m)) hs) → Forall (λ m, cstr (h_name m)) hs → cstr n →
  MessageTagHandlerFind n hs = Some m ↔ m ∈ hs ∧ casefold (h_name m) = casefold n.
Proof.
  intros Hnd Hc Hn. unfold MessageTagHandlerFind. induction hs as [|x hs IH]; simpl.
  { rewrite elem_of_nil. naive_solver. }
  apply NoDup_cons in Hnd as [Hx Hnd]. apply Forall_cons in Hc as [Hcx Hc].
  rewrite strcasecmp_eq by done. rewrite elem_of_cons. case_bool_decide as E.
  - split; [intros [= <-]; auto|]. intros [[->|Hin] Hm]; [done|]. exfalso. apply Hx.
    rewrite <-E, <-Hm. by apply (list_elem_of_fmap_2 (λ m, casefold (h_name m))).
  - rewrite IH by done. split; [intros [??]; auto|]. intros [[->|?] ?]; [congruence|done].
Qed.

Lemma Find_none hs n :
  NoDup (map (λ m, casefold (h_name m)) hs) → Forall (λ m, cstr (h_name m)) hs → cstr n →
  MessageTagHandlerFind n hs = None → ∀ m, m ∈ hs → casefold (h_name m) ≠ casefold n.
Proof.
  intros Hnd Hc Hn Hf m Hm He.
  assert (MessageTagHandlerFind n hs = Some m) as H by (by apply Find_spec). congruence.
Qed.

Definition touch (id : nat) (f : MessageTagHandler → MessageTagHandler) (m : MessageTagHandler)
  : MessageTagHandler := if (h_id m =? id)%nat then f m else m.

(** Updating the fields of one handler, its identity apart. *)
Definition keeps_identity (f : MessageTagHandler → MessageTagHandler) : Prop :=
  ∀ m, h_id (f m) = h_id m ∧ h_name (f m) = h_name m.

Lemma touch_identity id f : keeps_identity f → keeps_identity (touch id f).
Proof. intros Hf m. unfold touch. destruct (_ =? _)%nat; [apply Hf|done]. Qed.

Lemma Find_update id f n hs :
  keeps_identity f →
  MessageTagHandlerFind n (update_handler id f hs) = touch id f <$> MessageTagHandlerFind n hs.
Proof.
  intros Hf. unfold MessageTagHandlerFind, update_handler.
  change (λ m, if (h_id m =? id)%nat then f m else m) with (touch id f).
  induction hs as [|m hs IH]; simpl; [done|].
  rewrite (proj2 (touch_identity id f Hf m)). by destruct (strcasecmp n (h_name m) =? 0).
Qed.

Lemma Find_filter (P : MessageTagHandler → Prop) `{∀ m, Decision (P m)} n hs :
  (∀ m, m ∈ hs → ¬ P m → (strcasecmp n (h_name m) =? 0) = false) →
  MessageTagHandlerFind n (filter P hs) = MessageTagHandlerFind n hs.
Proof.
  unfold MessageTagHandlerFind. induction hs as [|m hs IH]; intros Hn; [done|].
  rewrite filter_cons. case_decide as HP; simpl.
  - destruct (strcasecmp n (h_name m) =? 0); [done|]. apply IH. intros; apply Hn; [by right|done].
  - rewrite Hn by (by left || done). apply IH. intros; apply Hn; [by right|done].
Qed.

Lemma reg_ok_update id f g objs bp :
  keeps_identity f → (∀ m, cap_consistent (h_flags (f m)) (h_clicap (f m)) = true) ∨
    (∀ m, h_flags (f m) = h_flags m ∧ h_clicap (f m) = h_clicap m) →
  reg_ok g → reg_ok (Registry (update_handler id f (g_handlers g)) objs bp (g_next g)).
Proof.
  intros Hf Hcap [H1 H2 H3 H4 H5]. unfold update_handler.
  change (λ m, if (h_id m =? id)%nat then f m else m) with (touch id f).
  pose proof (touch_identity id f Hf) as Ht. constructor; simpl.
  - rewrite map_map, (map_ext _ h_id); [done|]. intros m. apply Ht.
  - rewrite map_map, (map_ext _ (λ m, casefold (h_name m))); [done|]. intros m. f_equal. apply Ht.
  - apply Forall_map. eapply Forall_impl; [exact H3|]. intros m. simpl. by rewrite (proj1 (Ht m)).
  - apply Forall_map. eapply Forall_impl; [exact H4|]. intros m. simpl. by rewrite (proj2 (Ht m)).
  - apply Forall_map. eapply Forall_impl; [exact H5|]. intros m Hm. simpl. unfold touch.
    destruct (_ =? _)%nat; [|done]. destruct Hcap as [Hc|Hc]; [apply Hc|].
    destruct (Hc m) as [-> ->]. done.
Qed.

Lemma reg_ok_filter (P : MessageTagHandler → Prop) `{∀ m, Decision (P m)} g objs bp :
  reg_ok g → reg_ok (Registry (filter P (g_handlers g)) objs bp (g_next g)).
Proof.
  intros [H1 H2 H3 H4 H5].
  pose proof (sublist_filter P (g_handlers g)) as Hs.
  assert (∀ Q, Forall Q (g_handlers g) → Forall Q (filter P (g_handlers g))) as Hq.
  { intros Q HQ. rewrite Forall_forall in *. intros m [_ Hm]%list_elem_of_filter. auto. }
  constructor; simpl; auto.
  - eapply sublist_NoDup; [exact H1|]. by apply (fmap_sublist h_id).
  - eapply sublist_NoDup; [exact H2|]. by apply (fmap_sublist (λ m, casefold (h_name m))).
Qed.

Lemma Find_other g id n m :
  reg_ok g → m ∈ g_handlers g → h_id m = id → cstr n → casefold n ≠ casefold (h_name m) →
  ∀ f, touch id f <$> MessageTagHandlerFind n (g_handlers g) = MessageTagHandlerFind n (g_handlers g).
Proof.
  intros [H1 H2 H3 H4 H5] Hm Hid Hn Hne f.
  destruct (MessageTagHandlerFind n (g_handlers g)) as [x|] eqn:E; [|done]. simpl. f_equal.
  apply Find_spec in E as [Hx Hxn]; [|done..]. unfold touch.
  destruct (Nat.eqb_spec (h_id x) id) as [He|]; [|done]. exfalso. apply Hne. rewrite <-Hxn. do 2 f_equal.
  apply list_elem_of_lookup in Hx as [i Hi], Hm as [j Hj]. f_equal.
  eapply (NoDup_lookup _ i j (h_id m)) in H1; [|rewrite list_lookup_fmap, Hi; simpl; congruence
    |rewrite list_lookup_fmap, Hj; done]. congruence.
Qed.

Lemma Add_correct module req g :
  reg_ok g → cstr (i_name req) → cap_consistent (i_flags req) (i_clicap req) = true →
  ∃ g' r, MessageTagHandlerAdd module req g = Ok (g', r) ∧ reg_ok g' ∧
    (∀ n, cstr n → casefold n ≠ casefold (i_name req) →
       MessageTagHandlerFind n (g_handlers g') = MessageTagHandlerFind n (g_handlers g)) ∧
    match r with
    | None => g' = g ∧ ∃ m, MessageTagHandlerFind (i_name req) (g_handlers g) = Some m ∧ h_unloaded m = false
    | Some id => ∃ m, MessageTagHandlerFind (i_name req) (g_handlers g') = Some m ∧
        h_id m = id ∧ h_flags m = i_flags req ∧ h_is_ok m = i_is_ok req ∧
        h_clicap m = i_clicap req ∧ h_owner m = module ∧ h_unloaded m = false
    end.
Proof.
  intros Hg Hc Hcap. pose proof Hg as [H1 H2 H3 H4 H5]. unfold MessageTagHandlerAdd.
  assert (no_cap_needed (i_flags req) && bool_decide (is_Some (i_clicap req)) = false ∧
          negb (no_cap_needed (i_flags req)) && negb (bool_decide (is_Some (i_clicap req))) = false) as [-> ->].
  { unfold cap_consistent in Hcap. by destruct (no_cap_needed _), (bool_decide _). }
  destruct (MessageTagHandlerFind (i_name req) (g_handlers g)) as [m|] eqn:E.
  - pose proof E as [Hm Hmn]%Find_spec; [|done..]. destruct (h_unloaded m) eqn:Eu.
    + eexists _, _. split; [done|]. split; [apply reg_ok_update; [done|by left|done]|]. cbn [g_handlers].
      split.
      * intros n Hn Hne. rewrite Find_update by done. eapply Find_other; eauto. congruence.
      * rewrite Find_update, E by done. eexists. split; [done|]. simpl. unfold touch.
        by rewrite Nat.eqb_refl.
    + exists g, None. split; [done|]. split; [done|]. split; [done|]. eauto.
  - eexists _, _. split; [done|]. simpl. split.
    + constructor; simpl.
      * apply NoDup_cons. split; [|done]. intros (m & Hm & Hin)%list_elem_of_fmap.
        rewrite Forall_forall in H3. specialize (H3 m Hin). lia.
      * apply NoDup_cons. split; [|done]. intros (m & Hm & Hin)%list_elem_of_fmap.
        by apply (Find_none _ _ H2 H4 Hc E m Hin).
      * constructor; [simpl; lia|]. eapply Forall_impl; [exact H3|]. simpl. lia.
      * by constructor.
      * by constructor.
    + split.
      * intros n Hn Hne. unfold MessageTagHandlerFind. simpl. rewrite strcasecmp_eq by done.
        by rewrite bool_decide_eq_false_2.
      * unfold MessageTagHandlerFind. simpl.
        rewrite strcasecmp_eq, bool_decide_eq_true_2 by done. by eexists.
Qed.

Lemma handler_by_id g m x :
  reg_ok g → m ∈ g_handlers g → x ∈ g_handlers g → h_id x = h_id m → x = m.
Proof.
  intros [H1 _ _ _ _] Hm Hx He. apply list_elem_of_lookup in Hx as [i Hi], Hm as [j Hj].
  eapply (NoDup_lookup _ i j (h_id m)) in H1; [|rewrite list_lookup_fmap, Hi; simpl; congruence
    |rewrite list_lookup_fmap, Hj; done]. congruence.
Qed.

Lemma Del_correct rehashing m g :
  reg_ok g → m ∈ g_handlers g →
  let g' := MessageTagHandlerDel rehashing m g in
  reg_ok g' ∧
  (∀ n, cstr n → casefold n ≠ casefold (h_name m) →
     MessageTagHandlerFind n (g_handlers g') = MessageTagHandlerFind n (g_handlers g)) ∧
  (if rehashing
   then ∃ m', MessageTagHandlerFind (h_name m) (g_handlers g') = Some m' ∧
          h_id m' = h_id m ∧ h_owner m' = None ∧ h_unloaded m' = true
   else MessageTagHandlerFind (h_name m) (g_handlers g') = None).
Proof.
  intros Hg Hm. pose proof Hg as [H1 H2 H3 H4 H5].
  assert (cstr (h_name m)) as Hc by (rewrite Forall_forall in H4; auto).
  assert (MessageTagHandlerFind (h_name m) (g_handlers g) = Some m) as Hfm by (by apply Find_spec).
  unfold MessageTagHandlerDel.
  match goal with |- context [update_handler _ ?f _] => set (clear := f) end.
  match goal with |- context [Registry _ ?o _ _] => set (objs := o) end.
  assert (keeps_identity clear) as Hk by done.
  assert (reg_ok (Registry (update_handler (h_id m) clear (g_handlers g)) objs (g_backptr g) (g_next g)))
    as Hg' by (apply reg_ok_update; [done|by right|done]).
  assert (∀ n, cstr n → casefold n ≠ casefold (h_name m) →
    MessageTagHandlerFind n (update_handler (h_id m) clear (g_handlers g)) =
    MessageTagHandlerFind n (g_handlers g)) as Hoth.
  { intros n Hn Hne. rewrite Find_update by done. by eapply Find_other. }
  destruct rehashing.
  - split; [done|]. split; [done|]. simpl g_handlers. rewrite Find_update, Hfm by done. simpl.
    unfold touch. rewrite Nat.eqb_refl. by eexists.
  - unfold unload_mtag_handler_commit. cbn [g_handlers g_objects g_backptr g_next].
    split; [by apply (reg_ok_filter _ (Registry _ objs (g_backptr g) (g_next g)))|]. split.
    + intros n Hn Hne. rewrite Find_filter; [by apply Hoth|].
      intros x Hx Hid%dec_stable. rewrite strcasecmp_eq by
        (try done; destruct Hg' as [_ _ _ Hc' _]; rewrite Forall_forall in Hc'; auto).
      apply bool_decide_eq_false_2. intros E. apply Hne. rewrite E.
      unfold update_handler in Hx. apply list_elem_of_fmap in Hx as (y & -> & Hy).
      change (if (h_id y =? h_id m)%nat then clear y else y) with (touch (h_id m) clear y) in *.
      pose proof (touch_identity (h_id m) clear Hk y) as [Hi Hn']. rewrite Hn'.
      rewrite Hi in Hid. by rewrite (handler_by_id g m y).
    + match goal with |- ?F = None => destruct F as [x|] eqn:E end; [|done]. exfalso.
      destruct (reg_ok_filter (λ x, h_id x ≠ h_id m) _ objs (g_backptr g) Hg') as [_ Hb2 _ Hb4 _].
      apply Find_spec in E as [Hx Hxn]; [|done..].
      apply list_elem_of_filter in Hx as [Hid Hx].
      unfold update_handler in Hx. apply list_elem_of_fmap in Hx as (y & -> & Hy).
      change (if (h_id y =? h_id m)%nat then clear y else y) with (touch (h_id m) clear y) in *.
      pose proof (touch_identity (h_id m) clear Hk y) as [Hi Hn']. rewrite Hi in Hid. rewrite Hn' in Hxn.
      apply Hid. f_equal. assert (MessageTagHandlerFind (h_name m) (g_handlers g) = Some y) by (by apply Find_spec).
      congruence.
Qed.

Lemma unload_all_handlers g :
  reg_ok g →
  g_handlers (unload_all_unused_mtag_handlers g) = filter (λ m, h_unloaded m = false) (g_handlers g) ∧
  reg_ok (unload_all_unused_mtag_handlers g).
Proof.
  intros Hg. unfold unload_all_unused_mtag_handlers.
  assert (∀ l h, reg_ok h → let h' := foldl (λ g m, if h_unloaded m then unload_mtag_handler_commit m g else g) h l in
    reg_ok h' ∧ g_handlers h' =
      filter (λ x, Forall (λ m, h_unloaded m = true → h_id x ≠ h_id m) l) (g_handlers h)) as H.
  { induction l as [|m l IH]; intros h Hh; simpl.
    { split; [done|]. symmetry. apply filter_all, Forall_true. constructor. }
    destruct (h_unloaded m) eqn:Eu.
    - destruct (IH (unload_mtag_handler_commit m h)) as [Ha Hb]; [by apply reg_ok_filter|].
      split; [done|]. rewrite Hb. unfold unload_mtag_handler_commit. simpl.
      rewrite list_filter_filter. apply list_filter_iff. intros x. rewrite Forall_cons. tauto.
    - destruct (IH h Hh) as [Ha Hb]. split; [done|]. rewrite Hb.
      apply list_filter_iff. intros x. rewrite Forall_cons. split; [split; [congruence|done]|tauto]. }
  destruct (H (g_handlers g) g Hg) as [Ha Hb]. split; [|done]. rewrite Hb.
  apply filter_iff_on. intros x Hx. rewrite Forall_forall. split.
  - intros Hall. destruct (h_unloaded x) eqn:E; [|done]. by destruct (Hall x Hx E).
  - intros Hu m Hm Hum Hid. rewrite (handler_by_id g m x) in Hu by done. congruence.
Qed.

(** The handler registry is a map from tag names, up to case, to
    handlers: registering a consistent request either succeeds and makes
    exactly that name resolve to the new data, or fails because an active
    handler of that name exists; deleting a handler makes its name
    unresolvable at once, or, during a rehash, marks it so that
    [unload_all_unused_mtag_handlers] removes exactly the marked ones.  Every
    operation leaves the lookups of other names alone and preserves the
    well-formedness of the registry. *)
Theorem mtag_registry_correct g :
  reg_ok g →
  (∀ module req, cstr (i_name req) → cap_consistent (i_flags req) (i_clicap req) = true →
     ∃ g' r, MessageTagHandlerAdd module req g = Ok (g', r) ∧ reg_ok g' ∧
       (∀ n, cstr n → casefold n ≠ casefold (i_name req) →
          MessageTagHandlerFind n (g_handlers g') = MessageTagHandlerFind n (g_handlers g)) ∧
       match r with
       | None => g' = g ∧
           ∃ m, MessageTagHandlerFind (i_name req) (g_handlers g) = Some m ∧ h_unloaded m = false
       | Some id => ∃ m, MessageTagHandlerFind (i_name req) (g_handlers g') = Some m ∧
           h_id m = id ∧ h_flags m = i_flags req ∧ h_is_ok m = i_is_ok req ∧
           h_clicap m = i_clicap req ∧ h_owner m = module ∧ h_unloaded m = false
       end) ∧
  (∀ rehashing m, m ∈ g_handlers g →
     let g' := MessageTagHandlerDel rehashing m g in
     reg_ok g' ∧
     (∀ n, cstr n → casefold n ≠ casefold (h_name m) →
        MessageTagHandlerFind n (g_handlers g') = MessageTagHandlerFind n (g_handlers g)) ∧
     (if rehashing
      then ∃ m', MessageTagHandlerFind (h_name m) (g_handlers g') = Some m' ∧
             h_id m' = h_id m ∧ h_owner m' = None ∧ h_unloaded m' = true
      else MessageTagHandlerFind (h_name m) (g_handlers g') = None)) ∧
  g_handlers (unload_all_unused_mtag_handlers g) = filter (λ m, h_unloaded m = false) (g_handlers g) ∧
  reg_ok (unload_all_unused_mtag_handlers g).
Proof.
  intros Hg. split; [|split].
  - intros module req Hc Hcap. by apply Add_correct.
  - intros rehashing m Hm. by apply Del_correct.
  - by apply unload_all_handlers.
Qed.

Definition demo_registry : registry := Registry [demo_handler] ∅ ∅ 1.

Lemma mtag_registry_witness :
  ∃ g' r, MessageTagHandlerAdd (Some 3%nat) (MTagInfo (bs "time") 0 (λ _ _ _, true) None (Some (ClientCap 5 16)))
            demo_registry = Ok (g', r) ∧ reg_ok g'.
Proof.
  destruct (mtag_registry_correct demo_registry) as [Hadd _].
  - constructor; simpl; apply (bool_decide_unpack _); vm_compute; exact I.
  - destruct (Hadd (Some 3%nat) (MTagInfo (bs "time") 0 (λ _ _ _, true) None (Some (ClientCap 5 16))))
      as (g' & r & He & Hg & _); [apply (bool_decide_unpack _); vm_compute; exact I|reflexivity|].
    exists g', r. split; [exact He|exact Hg].
Defined.
