(* ===== verification/Command.v ===== *)
(** * The command table (src/api-command.c)

    Commands live in 256 lists, one per first letter.  The table is a map from
    the letter to the list, newest command first.  A command's handler is
    known by the address of the command; overrides and the per-module object
    lists are not modelled. *)

From stdpp Require Import base tactics list numbers strings gmap.
From Stdlib Require Import ZArith Lia.
From S2P Require Import Prelude Chars.

Local Open Scope Z_scope.

Definition MAXPARA : Z := 30.

Definition CMD_UNREGISTERED : Z := 0x0001.
Definition CMD_USER : Z := 0x0002.
Definition CMD_SERVER : Z := 0x0004.
Definition CMD_SHUN : Z := 0x0008.
Definition CMD_NOLAG : Z := 0x0010.
Definition CMD_ALIAS : Z := 0x0020.
Definition CMD_RESETIDLE : Z := 0x0040.
Definition CMD_VIRUS : Z := 0x0080.
Definition CMD_OPER : Z := 0x0200.
Definition CMD_CONTROL : Z := 0x0400.
Definition CMD_BIGLINES : Z := 0x0800.
Definition CMD_TEXTANALYSIS : Z := 0x1000.

(** [flags & bit] as a condition. *)
Definition has (flags bit : Z) : bool := negb (Z.land flags bit =? 0).

Record RealCommand := RealCmd {
  rc_id : nat;
  rc_cmd : list Z;
  rc_flags : Z;
  rc_parameters : Z
}.
#[global] Instance RealCommand_eq_dec : EqDecision RealCommand.
Proof. solve_decision. Defined.

Abbreviation cmdhash := (gmap Z (list RealCommand)).

Definition letter (cmd : list Z) : Z := toupper (deref cmd).
Definition cmds (h : cmdhash) (l : Z) : list RealCommand := default [] (h !! l).

(** ** Lookup *)

(** The tests that skip a command ([continue]) in [find_command]. *)
Definition cmd_visible (flags : Z) (p : RealCommand) : bool :=
  if has flags CMD_CONTROL then has (rc_flags p) CMD_CONTROL
  else
    negb (has flags CMD_UNREGISTERED && negb (has (rc_flags p) CMD_UNREGISTERED)) &&
    negb (has flags CMD_SHUN && negb (has (rc_flags p) CMD_SHUN)) &&
    negb (has flags CMD_VIRUS && negb (has (rc_flags p) CMD_VIRUS)) &&
    negb (has flags CMD_ALIAS && negb (has (rc_flags p) CMD_ALIAS)) &&
    negb (has (rc_flags p) CMD_CONTROL).

Definition find_command (cmd : list Z) (flags : Z) (h : cmdhash) : option RealCommand :=
  List.find (λ p, cmd_visible flags p && (strcasecmp (rc_cmd p) cmd =? 0)) (cmds h (letter cmd)).

Definition find_command_simple (cmd : list Z) (h : cmdhash) : option RealCommand :=
  List.find (λ p, strcasecmp (rc_cmd p) cmd =? 0) (cmds h (letter cmd)).

Definition CommandExists (name : list Z) (h : cmdhash) : bool :=
  List.existsb (λ p, strcasecmp (rc_cmd p) name =? 0) (cmds h (letter name)).

(** ** Registration *)

(** [id] is the address that [safe_alloc] returns. *)
Definition add_Command_backend (id : nat) (cmd : list Z) (h : cmdhash) : RealCommand * cmdhash :=
  let c := RealCmd id cmd 0 0 in
  (c, <[letter cmd := c :: cmds h (letter cmd)]> h).

Inductive moderr := MODERR_NOERROR | MODERR_EXISTS | MODERR_INVALID.
#[global] Instance moderr_eq_dec : EqDecision moderr.
Proof. solve_decision. Defined.

(** [CommandAddInternal]: the table, whether a [Command] was returned, and the
    error code stored in the module, if there is a module. *)
Definition CommandAddInternal (module : bool) (id : nat) (cmd : list Z) (params flags : Z)
    (h : cmdhash) : cmdhash * bool * option moderr :=
  let err e := if module then Some e else None in
  if match find_command cmd flags h with Some c => rc_flags c =? flags | None => false end then
    (h, false, err MODERR_EXISTS)
  else if flags =? 0 then (h, false, err MODERR_INVALID)
  else
    let '(c, h') := add_Command_backend id cmd h in
    let parameters := if MAXPARA <? u8 params then MAXPARA else u8 params in
    let c' := RealCmd (rc_id c) (rc_cmd c) flags parameters in
    let h'' := <[letter cmd := c' :: tail (cmds h' (letter cmd))]> h' in
    (h'', module, err MODERR_NOERROR).

Definition CommandAdd (module : bool) (id : nat) (cmd : list Z) (params flags : Z) (h : cmdhash)
  : cmdhash * bool * option moderr :=
  if has flags CMD_ALIAS then (h, false, None)
  else CommandAddInternal module id cmd params flags h.

Definition AliasAdd (module : bool) (id : nat) (cmd : list Z) (params flags : Z) (h : cmdhash)
  : cmdhash * bool * option moderr :=
  let flags := if has flags CMD_ALIAS then flags else Z.lor flags CMD_ALIAS in
  CommandAddInternal module id cmd params flags h.

Definition CommandDelX (cmd : RealCommand) (h : cmdhash) : cmdhash :=
  <[letter (rc_cmd cmd) := filter (λ p, rc_id p ≠ rc_id cmd) (cmds h (letter (rc_cmd cmd)))]> h.

Definition init_CommandHash : cmdhash :=
  foldl (λ h '(id, cmd, params, flags), (CommandAdd false id cmd params flags h).1.1) ∅
    [(1%nat, bs "ERROR", MAXPARA, Z.lor CMD_UNREGISTERED CMD_SERVER);
     (2%nat, bs "VERSION", MAXPARA, Z.lor (Z.lor CMD_UNREGISTERED CMD_USER) CMD_SERVER);
     (3%nat, bs "INFO", MAXPARA, CMD_USER);
     (4%nat, bs "DNS", MAXPARA, CMD_USER);
     (5%nat, bs "REHASH", MAXPARA, Z.lor CMD_USER CMD_SERVER);
     (6%nat, bs "RESTART", 2, CMD_USER);
     (7%nat, bs "DIE", MAXPARA, CMD_USER);
     (8%nat, bs "CREDITS", MAXPARA, CMD_USER);
     (9%nat, bs "LICENSE", MAXPARA, CMD_USER);
     (10%nat, bs "MODULE", MAXPARA, CMD_USER)].

(** ** Theory *)

(** Every command is in the list of its letter, its address is its own, its
    name is a C string and its parameter count fits. *)
Record cmds_ok (h : cmdhash) : Prop := {
  ok_letter : ∀ l p, p ∈ cmds h l → letter (rc_cmd p) = l;
  ok_ids : ∀ l, NoDup (map rc_id (cmds h l));
  ok_cstr : ∀ l p, p ∈ cmds h l → cstr (rc_cmd p);
  ok_params : ∀ l p, p ∈ cmds h l → 0 ≤ rc_parameters p ≤ MAXPARA
}.

Definition registered (h : cmdhash) (p : RealCommand) : Prop := ∃ l, p ∈ cmds h l.

Lemma letter_ci a b : cstr a → cstr b → casefold a = casefold b → letter a = letter b.
Proof.
  intros Ha Hb E. unfold letter. destruct a as [|x a], b as [|y b]; try done. simpl in *.
  injection E as E _. apply cstr_cons_inv in Ha as [Ha _], Hb as [Hb _].
  by apply toupper_tolower_eq; eauto with obby.
Qed.

Lemma cmds_insert h l l' x : cmds (<[l := x]> h) l' = if decide (l = l') then x else cmds h l'.
Proof. unfold cmds. case_decide; subst; by rewrite ?lookup_insert_eq, ?lookup_insert_ne. Qed.

Lemma find_some_elem {A} (f : A → bool) l x : List.find f l = Some x → x ∈ l ∧ f x = true.
Proof. intros H. apply find_some in H as [H ?]. by rewrite list_elem_of_In. Qed.

(** Any lookup is exact: what it returns has the name, up to case, and passes
    the test, and when it returns nothing no registered command does. *)
Lemma find_exact (test : RealCommand → bool) cmd h :
  cmds_ok h → cstr cmd →
  match List.find (λ p, test p && (strcasecmp (rc_cmd p) cmd =? 0)) (cmds h (letter cmd)) with
  | Some p => registered h p ∧ casefold (rc_cmd p) = casefold cmd ∧ test p = true
  | None => ∀ p, registered h p → casefold (rc_cmd p) = casefold cmd → test p = false
  end.
Proof.
  intros [H1 _ H3 _] Hc. destruct (List.find _ _) as [p|] eqn:E.
  - apply find_some_elem in E as [Hp Ht]. apply andb_true_iff in Ht as [Ht Hs].
    rewrite strcasecmp_eq in Hs by eauto. apply bool_decide_eq_true in Hs.
    split; [by eexists|]. done.
  - intros p [l Hp] Hn. pose proof (H3 _ _ Hp) as Hcp.
    pose proof (find_none _ _ E p) as Hf. rewrite <-list_elem_of_In in Hf.
    assert (l = letter cmd) as -> by (rewrite <-(H1 _ _ Hp); by apply letter_ci).
    specialize (Hf Hp). simpl in Hf. rewrite strcasecmp_eq in Hf by done.
    rewrite bool_decide_eq_true_2, andb_true_r in Hf by done. done.
Qed.

Lemma CommandAddInternal_ok module id cmd params flags h h' b e :
  cmds_ok h → cstr cmd → (∀ p, registered h p → rc_id p ≠ id) →
  CommandAddInternal module id cmd params flags h = (h', b, e) →
  (h' = h ∧ b = false ∧
     (flags = 0 ∨ ∃ p, registered h p ∧ casefold (rc_cmd p) = casefold cmd ∧ rc_flags p = flags)) ∨
  (b = module ∧ flags ≠ 0 ∧ cmds_ok h' ∧
   ∃ p, rc_id p = id ∧ rc_cmd p = cmd ∧ rc_flags p = flags ∧
     ∀ l, cmds h' l = if decide (letter cmd = l) then p :: cmds h l else cmds h l).
Proof.
  intros Hh Hc Hid. unfold CommandAddInternal.
  pose proof (find_exact (cmd_visible flags) cmd h Hh Hc) as Hf. fold (find_command cmd flags h) in Hf.
  destruct (match find_command cmd flags h with Some c => rc_flags c =? flags | None => false end) eqn:Em.
  { intros [= <- <- _]. left. split; [done|]. split; [done|]. right.
    destruct (find_command cmd flags h) as [p|]; [|done]. exists p. apply Z.eqb_eq in Em. naive_solver. }
  destruct (Z.eqb_spec flags 0) as [->|Hfl]; [intros [= <- <- _]; left; auto|].
  simpl. intros [= <- <- _]. right. split; [done|]. split; [done|].
  rewrite insert_insert_eq. rewrite !cmds_insert, decide_True by done. cbn [tail].
  match goal with |- context [RealCmd id cmd flags ?n] => set (p := RealCmd id cmd flags n) end.
  assert (∀ l, cmds (<[letter cmd := p :: cmds h (letter cmd)]> h) l =
    if decide (letter cmd = l) then p :: cmds h l else cmds h l) as Hl.
  { intros l. rewrite cmds_insert. case_decide; by subst. }
  split; [|by exists p]. destruct Hh as [H1 H2 H3 H4].
  constructor; intros l; rewrite Hl; case_decide as E; eauto.
  - intros q [->|Hq]%elem_of_cons; [done|auto].
  - simpl. apply NoDup_cons. split; [|done]. intros (q & Hq & Hin)%list_elem_of_fmap.
    apply (Hid q); [by eexists|done].
  - intros q [->|Hq]%elem_of_cons; [done|eauto].
  - intros q [->|Hq]%elem_of_cons; [|eauto]. simpl. pose proof (u8_range params) as Hu.
    unfold byte in Hu. destruct (Z.ltb_spec MAXPARA (u8 params)); unfold MAXPARA in *; lia.
Qed.

Lemma find_command_simple_exact cmd h :
  find_command_simple cmd h =
    List.find (λ p, true && (strcasecmp (rc_cmd p) cmd =? 0)) (cmds h (letter cmd)).
Proof. done. Qed.

Lemma CommandDelX_ok cmd h :
  cmds_ok h → registered h cmd →
  cmds_ok (CommandDelX cmd h) ∧
  ∀ p, registered (CommandDelX cmd h) p ↔ registered h p ∧ p ≠ cmd.
Proof.
  intros [H1 H2 H3 H4] [l0 Hcmd]. pose proof (H1 _ _ Hcmd) as Hl0. subst l0. unfold CommandDelX.
  set (L := letter (rc_cmd cmd)) in *.
  assert (∀ l p, p ∈ cmds (<[L := filter (λ p, rc_id p ≠ rc_id cmd) (cmds h L)]> h) l ↔
    p ∈ cmds h l ∧ (l = L → rc_id p ≠ rc_id cmd)) as Hin.
  { intros l p. rewrite cmds_insert. case_decide as E.
    - subst l. rewrite list_elem_of_filter. naive_solver.
    - naive_solver. }
  split.
  - constructor; intros l; try (intros p [Hp _]%Hin; eauto; done).
    rewrite cmds_insert. case_decide; [|done]. subst l.
    eapply sublist_NoDup; [apply (H2 L)|]. apply (fmap_sublist rc_id), sublist_filter.
  - intros p. unfold registered. setoid_rewrite Hin. split.
    + intros (l & Hp & Hid). split; [by eexists|]. intros ->. apply Hid; [|done]. symmetry. by apply H1.
    + intros [[l Hp] Hne]. exists l. split; [done|]. intros -> Hid. apply Hne.
      apply list_elem_of_lookup in Hp as [i Hi], Hcmd as [j Hj]. specialize (H2 L).
      eapply (NoDup_lookup _ i j (rc_id cmd)) in H2; [|rewrite list_lookup_fmap, Hi; simpl; congruence
        |rewrite list_lookup_fmap, Hj; done]. congruence.
Qed.

(** The command table.  On a well-formed table a lookup is exact: it
    finds a command of that name, ignoring case, that the requester's flags may
    see, and when it finds none there is none.  Registering a command under a
    fresh address either leaves the table alone, because the flags are empty or
    a visible command of that name has the same flags, or puts it in front of
    all others of its letter; deleting removes just that command; and the
    table stays well-formed. *)
Theorem command_table_correct h :
  cmds_ok h →
  (∀ cmd flags, cstr cmd →
     match find_command cmd flags h with
     | Some p => registered h p ∧ casefold (rc_cmd p) = casefold cmd ∧ cmd_visible flags p = true
     | None => ∀ p, registered h p → casefold (rc_cmd p) = casefold cmd → cmd_visible flags p = false
     end) ∧
  (∀ cmd, cstr cmd → CommandExists cmd h = bool_decide (is_Some (find_command_simple cmd h))) ∧
  (∀ module id cmd params flags h' b e, cstr cmd → (∀ p, registered h p → rc_id p ≠ id) →
     CommandAdd module id cmd params flags h = (h', b, e) ∨
     AliasAdd module id cmd params flags h = (h', b, e) →
     cmds_ok h' ∧
     (h' = h ∨
      ∃ p, rc_id p = id ∧ rc_cmd p = cmd ∧ find_command_simple cmd h' = Some p ∧
        ∀ q, registered h' q ↔ q = p ∨ registered h q)) ∧
  (∀ cmd, registered h cmd →
     cmds_ok (CommandDelX cmd h) ∧
     ∀ p, registered (CommandDelX cmd h) p ↔ registered h p ∧ p ≠ cmd).
Proof.
  intros Hh. split; [|split; [|split]].
  - intros cmd flags Hc. by apply find_exact.
  - intros cmd Hc. unfold CommandExists, find_command_simple.
    destruct (List.find _ _) as [p|] eqn:E.
    + rewrite bool_decide_eq_true_2 by done. apply existsb_exists. exists p.
      by apply find_some in E.
    + rewrite bool_decide_eq_false_2 by (by intros [? ?]). apply not_true_is_false.
      intros (p & Hp & Ht)%existsb_exists. pose proof (find_none _ _ E p Hp). simpl in *. congruence.
  - intros module id cmd params flags h' b e Hc Hid Hadd.
    assert (h' = h ∨ ∃ fl, CommandAddInternal module id cmd params fl h = (h', b, e)) as [->|[fl Hi]];
      [|by auto|].
    { unfold CommandAdd, AliasAdd in Hadd. destruct Hadd as [Ha|Ha]; [|by eauto].
      destruct (has flags CMD_ALIAS); [left; congruence|eauto]. }
    destruct (CommandAddInternal_ok _ _ _ _ _ _ _ _ _ Hh Hc Hid Hi)
      as [(-> & _)|(_ & _ & Hok & p & Hpi & Hpc & _ & Hl)]; [by auto|].
    split; [done|]. right. exists p. split; [done|]. split; [done|]. split.
    + unfold find_command_simple. rewrite Hl, decide_True by done. simpl.
      rewrite strcasecmp_eq by (by rewrite ?Hpc). by rewrite Hpc, bool_decide_eq_true_2.
    + intros q. unfold registered. setoid_rewrite Hl. split.
      * intros [l Hq]. case_decide; [|eauto]. apply elem_of_cons in Hq as [->|Hq]; eauto.
      * intros [->|[l Hq]]; [exists (letter cmd); rewrite decide_True by done; by left|].
        exists l. case_decide; [by right|done].
  - intros cmd Hcmd. by apply CommandDelX_ok.
Qed.

Lemma init_CommandHash_ok : cmds_ok init_CommandHash.
Proof.
  assert (Forall (λ l, Forall (λ p, letter (rc_cmd p) = l ∧ cstr (rc_cmd p) ∧ 0 ≤ rc_parameters p ≤ MAXPARA)
      (cmds init_CommandHash l) ∧ NoDup (map rc_id (cmds init_CommandHash l)))
    (map fst (map_to_list init_CommandHash))) as HF.
  { apply (bool_decide_unpack _). vm_compute. exact I. }
  assert (∀ l, cmds init_CommandHash l = [] ∨ l ∈ map fst (map_to_list init_CommandHash)) as Hd.
  { intros l. unfold cmds. destruct (init_CommandHash !! l) as [x|] eqn:E; [|by left]. right.
    apply list_elem_of_fmap. exists (l, x). split; [done|]. by apply elem_of_map_to_list. }
  rewrite Forall_forall in HF. setoid_rewrite Forall_forall in HF.
  constructor; intros l; (destruct (Hd l) as [->|Hl];
    [first [apply NoDup_nil_2|intros p Hp; by apply elem_of_nil in Hp]|]);
    destruct (HF l Hl) as [Hp Hn]; [|done|..]; intros p Hin; by apply Hp.
Qed.

Lemma command_table_witness :
  find_command (bs "version") CMD_UNREGISTERED init_CommandHash =
    Some (RealCmd 2 (bs "VERSION") 7 30) ∧
  match find_command (bs "info") CMD_UNREGISTERED init_CommandHash with
  | Some p => registered init_CommandHash p ∧ casefold (rc_cmd p) = casefold (bs "info") ∧
      cmd_visible CMD_UNREGISTERED p = true
  | None => ∀ p, registered init_CommandHash p → casefold (rc_cmd p) = casefold (bs "info") →
      cmd_visible CMD_UNREGISTERED p = false
  end.
Proof.
  split; [vm_compute; reflexivity|].
  apply (proj1 (command_table_correct init_CommandHash init_CommandHash_ok)).
  apply (bool_decide_unpack _). vm_compute. exact I.
Defined.
