(* ===== verification/Parse.v ===== *)
(** * Reading lines and dispatching commands (src/parse.c)

    From the receive queue of a client to the command handler: the loop that
    takes lines while the client is not lagged up, the split of a line into
    tags, sender, command and parameters, the checks before a handler runs,
    and fake lag.  Everything a function does besides returning is in the list
    of events it produces, in order; the fake lag of the sending connection is
    state. *)

From stdpp Require Import base tactics list numbers strings gmap.
From Stdlib Require Import ZArith Lia.
From S2P Require Import Prelude Chars Support Dbuf Hash Command MessageTags.

Local Open Scope Z_scope.

Definition MAXPARA_USER : Z := 15.
Definition BUFSIZE : nat := Z.to_nat 512.

(** ** Clients *)

(** The numeric values of [ClientStatus] matter: the code compares them. *)
Definition CLIENT_STATUS_CONTROL : Z := -9.
Definition CLIENT_STATUS_TLS_STARTTLS_HANDSHAKE : Z := -7.
Definition CLIENT_STATUS_HANDSHAKE : Z := -3.
Definition CLIENT_STATUS_ME : Z := -2.
Definition CLIENT_STATUS_UNKNOWN : Z := -1.
Definition CLIENT_STATUS_SERVER : Z := 0.
Definition CLIENT_STATUS_USER : Z := 1.

Record pclient := PClient {
  p_name : list Z;
  p_status : Z;
  p_local : bool;               (* client->local != NULL *)
  p_direction : nat;
  p_nofakelag : bool;
  p_shunned : bool;
  p_virus : bool;
  p_oper : bool;
  p_server : option (bool * option bool)
    (* client->server, if any: IsServerSent, and conf->outgoing.options &
       CONNECT_OUTGOING_INSECURE if there is a conf *)
}.

Definition IsServer (c : pclient) : bool := p_status c =? CLIENT_STATUS_SERVER.
Definition IsUser (c : pclient) : bool := p_status c =? CLIENT_STATUS_USER.
Definition IsMe (c : pclient) : bool := p_status c =? CLIENT_STATUS_ME.
Definition IsControl (c : pclient) : bool := p_status c =? CLIENT_STATUS_CONTROL.
Definition IsHandshake (c : pclient) : bool := p_status c =? CLIENT_STATUS_HANDSHAKE.
Definition IsRegistered (c : pclient) : bool := CLIENT_STATUS_SERVER <=? p_status c.
Definition IsUnknown (c : pclient) : bool :=
  (p_status c =? CLIENT_STATUS_UNKNOWN) || (p_status c =? CLIENT_STATUS_TLS_STARTTLS_HANDSHAKE).

(** ** Fake lag *)

Record lag := Lag { fake_lag : Z; fake_lag_msec : Z }.
#[global] Instance lag_eq_dec : EqDecision lag.
Proof. solve_decision. Defined.

(** The carry both functions share: [fake_lag_msec] is an [int], C division
    truncates. *)
Definition lag_carry (l : lag) (msec : Z) : lag :=
  let m := i32 (fake_lag_msec l + msec) in
  Lag (fake_lag l + Z.quot m 1000) (Z.rem m 1000).

(** [immune] is the result of the check of the permission immune:lag;
    [penalty] and [penalty_bytes] come from the flood settings of the user. *)
Definition parse_addlag (c : pclient) (immune : bool) (penalty penalty_bytes : Z)
    (command_bytes mtags_bytes : Z) (l : lag) : res (lag * Z) :=
  if negb (IsServer c) && negb (p_nofakelag c) && negb immune then
    let! _ := require (negb (penalty_bytes =? 0)) in
    let msec := (1 + Z.quot command_bytes penalty_bytes + Z.quot mtags_bytes penalty_bytes) * penalty in
    let! _ := require ((- 2 ^ 31 <=? msec) && (msec <? 2 ^ 31)) in
    Ok (lag_carry l msec, msec)
  else Ok (l, 0).

Definition add_fake_lag (c : pclient) (msec : Z) (l : lag) : lag :=
  if negb (p_local c) || p_nofakelag c then l else lag_carry l msec.

Definition subtract_fake_lag (c : pclient) (msec : Z) (l : lag) : lag :=
  if negb (p_local c) then l else
  let total := fake_lag_msec l - msec in
  if 0 <=? total then Lag (fake_lag l) (i32 total)
  else
    let secs := Z.quot (- total + 999) 1000 in
    Lag (fake_lag l - secs) (i32 (total + secs * 1000)).

Definition client_lagged_up (c : pclient) (immune : bool) (now : Z) (l : lag) : bool :=
  if p_status c <? CLIENT_STATUS_UNKNOWN then false
  else if IsServer c then false
  else if immune then false
  else if fake_lag l - now <? 10 then false
  else true.

(** ** Parameters *)

Definition not_space (c : Z) : bool := negb (c =? SPACE_CH).
Definition is_space (c : Z) : bool := c =? SPACE_CH.

(** The loop that fills [para]: [i] parameters were stored before [s]. *)
Fixpoint param_loop (fuel : nat) (paramcount i : Z) (s : list Z) : res (list (list Z)) :=
  match fuel with
  | O => NoFuel
  | S f =>
      match drop_while is_space s with
      | [] => Ok []
      | c :: r =>
          if c =? COLON then Ok [r]
          else if paramcount <=? i + 1 then Ok [c :: r]
          else
            let! ps := param_loop f paramcount (i + 1) (drop_while not_space (c :: r)) in
            Ok (take_while not_space (c :: r) :: ps)
      end
  end.
Definition split_params (paramcount : Z) (s : list Z) : res (list (list Z)) :=
  param_loop (S (length s)) paramcount 0 s.

(** [concat_params] of src/misc.c, on the parameters [parv[1]] and up. *)
Fixpoint concat_loop (len : nat) (buf : list Z) (ps : list (list Z)) : list Z :=
  match ps with
  | [] => buf
  | p :: r =>
      let buf := match buf with [] => buf | _ => fst (Strl.strlcat buf [SPACE_CH] len) end in
      if bool_decide (SPACE_CH ∈ p) || (deref p =? COLON) then
        fst (Strl.strlcat (fst (Strl.strlcat buf [COLON] len)) p len)
      else concat_loop len (fst (Strl.strlcat buf p len)) r
  end.
Definition concat_params (len : nat) (ps : list (list Z)) : list Z := concat_loop len [] ps.

(** ** From a line to a handler *)

Inductive event :=
| StatUnpf | StatWrdi | StatUnco | StatNum              (* counters of [ircstats] *)
| CmdBytes (cmd : nat) (n : Z)                          (* cmptr->bytes += n *)
| CmdCount (cmd : nat)                                  (* cmptr->count++ *)
| ResetIdle (c : nat)                                   (* idle_since = TStime() *)
| SendUnknownCommand (to : nat) (cmd : list Z)
| SendControlUnknown (to : nat) (cmd : list Z)
| SendNotRegistered (to : nat)
| SendAlreadyRegistered (to : nat)
| SendNotForUsers (to : nat) (cmd : list Z)
| SendNoPrivileges (to : nat)
| SendInputTooLong (to : nat)
| SendSquit (to : nat) (sender : list Z)
| SendKill (to : nat) (sender : list Z)
| ExitFakePrefix (c : nat)
| BanFlooder (c : nat)
| DoNumeric (numeric : Z) (from : nat) (params : list (list Z))
| RunCommand (cmd : RealCommand) (from : nat) (params : list (list Z)) (lag_added : Z)
| RunOverride (cmd : RealCommand) (from : nat) (params : list (list Z)) (lag_added : Z)
| RunAlias (cmd : RealCommand) (from : nat) (params : list (list Z)) (lag_added : Z)
| AnalyzeText (from : nat) (text : list Z).             (* the ANALYZE_TEXT hooks *)

(** What the functions read of the rest of the server.  The hooks and the
    spamfilter are code of the modules that are loaded. *)
Record env := Env {
  e_clients : gmap nat pclient;
  e_hash : hstate;
  e_cmds : cmdhash;
  e_overridden : nat → bool;                            (* cmptr->overriders != NULL *)
  e_immune : nat → bool;                                (* permission immune:lag *)
  e_penalty : nat → Z * Z;                              (* lag penalty, and per how many bytes *)
  e_pre_command : nat → list Z → bool;                  (* a PRE_COMMAND hook stops the line *)
  e_spam_mtags : nat → list MessageTag → option (list Z) → bool
}.

Definition get_client (e : env) (c : nat) : res pclient := get_obj (e_clients e !! c).

(** [remove_unknown] and [cancel_clients]. *)
Definition remove_unknown (c : nat) (client : pclient) (sender : list Z) : list event :=
  if negb (IsRegistered client) || IsUser client then []
  else if negb (IsServer client) then []
  else if (isdigit (deref sender) && (length sender <=? SIDLEN)%nat) || bool_decide (DOT ∈ sender)
  then [SendSquit c sender] else [SendKill c sender].
Definition cancel_clients (c : nat) (cptr client : pclient) : list event :=
  if IsServer cptr || IsServer client || IsMe client then [] else [ExitFakePrefix c].

(** What a step of [parse2] did: go on with a value, or return.  The fake lag
    and the events are threaded through. *)
Inductive flow (A : Type) := Go (a : A) | Stop.
Arguments Go {_} _.
Arguments Stop {_}.

(** The sender prefix: the source of the line and the text behind it. *)
Definition parse_sender (e : env) (cp : nat) (cptr : pclient) (line : list Z)
  : res (flow (nat * list Z) * list event) :=
  if (deref line =? COLON) || (deref line =? AT) then
    let word := take_while not_space (tail line) in
    let ch := drop_while not_space (tail line) in
    let sender := take HOSTLEN word in
    let rest := drop_while is_space ch in
    if negb (match sender with [] => true | _ => false end) && IsServer cptr then
      let! r := find_client sender None (e_hash e) in
      let! r := match r with
                | Some c => Ok (Some c)
                | None => if bool_decide (AT ∈ sender)
                          then hash_find_nickatserver sender None (e_hash e) else Ok None
                end in
      match r with
      | None => Ok (Stop, StatUnpf :: remove_unknown cp cptr sender)
      | Some from =>
          let! fc := get_client e from in
          if negb (p_direction fc =? cp)%nat then Ok (Stop, StatWrdi :: cancel_clients cp cptr fc)
          else Ok (Go (from, rest), [])
      end
    else Ok (Go (cp, rest), [])
  else Ok (Go (cp, line), []).

(** The flags with which the command is looked up. *)
Definition command_flags (from : pclient) : Z :=
  let add b bit f := if b : bool then Z.lor f bit else f in
  add (IsControl from) CMD_CONTROL
    (add (p_oper from) CMD_OPER
      (add (p_virus from) CMD_VIRUS
        (add (p_shunned from) CMD_SHUN
          (add (IsServer from) CMD_SERVER
            (add (IsUser from) CMD_USER
              (add (negb (IsRegistered from)) CMD_UNREGISTERED 0)))))).

(** The answer to a command that was not found. *)
Definition unknown_command (cp : nat) (cptr : pclient) (f : nat) (from : pclient) (ch : list Z)
  : list event :=
  if IsControl from then [SendControlUnknown f ch]
  else if negb (IsRegistered cptr) && negb (strcasecmp ch (bs "NOTICE") =? 0) then [SendNotRegistered f]
  else if p_shunned cptr then []
  else (if negb (deref ch =? 0) && IsUser from then [SendUnknownCommand f ch] else []) ++ [StatUnco].

(** The three access checks behind the lookup: [None] lets the command pass. *)
Definition access_check (cp : nat) (flags : Z) (cmptr : RealCommand) : option (list event) :=
  if has flags CMD_USER && negb (has (rc_flags cmptr) CMD_USER) && negb (has (rc_flags cmptr) CMD_OPER) then
    Some [if has (rc_flags cmptr) CMD_UNREGISTERED then SendAlreadyRegistered cp
          else SendNotForUsers cp (rc_cmd cmptr)]
  else if has flags CMD_SERVER && negb (has (rc_flags cmptr) CMD_SERVER) then Some []
  else if has (rc_flags cmptr) CMD_OPER && has flags CMD_USER && negb (has flags CMD_OPER) then
    Some [SendNoPrivileges cp]
  else None.

(** The command or numeric: [ch] is the text after the sender.  The result is
    the command (or [None] for a numeric), the number, the number of parameters
    wanted, the text of the parameters if there is a space, and the lag. *)
Record dispatch := Dispatch {
  d_cmd : option RealCommand;
  d_numeric : Z;
  d_count : Z;
  d_args : option (list Z);
  d_lag_added : Z
}.

Definition digit (c : Z) : Z := c - 48.

Definition parse_command (e : env) (cp : nat) (cptr : pclient) (f : nat) (from : pclient)
    (mtags_bytes : Z) (ch : list Z) (l : lag) : res (flow dispatch * lag * list event) :=
  let bytes := Z.of_nat (length ch) in
  let word := take_while not_space ch in
  let rest := match drop_while not_space ch with [] => None | _ :: r => Some r end in
  let len := match rest with Some _ => length word | None => 0%nat end in
  let addlag := parse_addlag cptr (e_immune e cp) (e_penalty e cp).1 (e_penalty e cp).2 bytes mtags_bytes l in
  if (512 <? Z.of_nat len) then
    Ok (Stop, l, [SendUnknownCommand f (take 510 ch); StatUnco])
  else if (len =? 3)%nat && forallb isdigit word then
    let! (l, _) := addlag in
    Ok (Go (Dispatch None (digit (nth 0 word 0) * 100 + digit (nth 1 word 0) * 10 + digit (nth 2 word 0))
              MAXPARA rest 0), l, [StatNum])
  else
    let flags := command_flags from in
    let cmptr := find_command word flags (e_cmds e) in
    let! (l, added) := match cmptr with
                        | Some c => if has (rc_flags c) CMD_NOLAG then Ok (l, 0) else addlag
                        | None => addlag
                        end in
    match cmptr with
    | None => Ok (Stop, l, unknown_command cp cptr f from word)
    | Some c =>
        match access_check cp flags c with
        | Some ev => Ok (Stop, l, ev)
        | None => Ok (Go (Dispatch (Some c) 0 (rc_parameters c) rest added), l, [CmdBytes (rc_id c) bytes])
        end
    end.

(** The end of [parse2]: the parameters, the spamfilter on the tags, and the
    handler of the command or numeric.  [evs] are the events so far. *)
Definition execute (e : env) (cp : nat) (cptr : pclient) (f : nat) (from : pclient)
    (mtags : list MessageTag) (ch : list Z) (d : dispatch) (l : lag) (evs : list event)
  : res (lag * list event) :=
  let paramcount := if negb (IsServer from) && (MAXPARA_USER <? d_count d)
                    then MAXPARA_USER else d_count d in
  let! params := match d_args d with Some s => split_params paramcount s | None => Ok [] end in
  let! _ := require (Z.of_nat (length params) + 1 <? MAXPARA + 2) in
  let bigok := match d_cmd d with Some c => has (rc_flags c) CMD_BIGLINES | None => false end in
  let params := if IsServer cptr && (510 <? Z.of_nat (length ch)) && negb bigok
                then map (take 510) params else params in
  if p_local from && negb (IsServer from) && e_spam_mtags e f mtags (rc_cmd <$> d_cmd d) then Ok (l, evs)
  else match d_cmd d with
  | None => Ok (l, evs ++ [DoNumeric (d_numeric d) f params])
  | Some c =>
      let idle := if IsUser cptr && has (rc_flags c) CMD_RESETIDLE then [ResetIdle cp] else [] in
      let text := if has (rc_flags c) CMD_TEXTANALYSIS && p_local from && IsUser from
                  then match last params with Some p => [AnalyzeText f p] | None => [] end
                  else [] in
      let run := if has (rc_flags c) CMD_ALIAS then RunAlias c f params (d_lag_added d)
                 else if negb (e_overridden e (rc_id c)) then RunCommand c f params (d_lag_added d)
                 else RunOverride c f params (d_lag_added d) in
      Ok (l, evs ++ [CmdCount (rc_id c)] ++ idle ++ text ++ [run])
  end.

(** [parse2]: the fake lag of [cptr] and the events. *)
Definition parse2 (e : env) (cp : nat) (mtags : list MessageTag) (mtags_bytes : Z) (line : list Z)
    (l : lag) : res (lag * list event) :=
  let! cptr := get_client e cp in
  let line := if negb (IsServer cptr) && (510 <? Z.of_nat (length line)) then take 510 line else line in
  let! (o, ev1) := parse_sender e cp cptr line in
  match o with
  | Stop => Ok (l, ev1)
  | Go (f, ch) =>
      let! from := get_client e f in
      if e_pre_command e f ch then Ok (l, ev1)
      else if deref ch =? 0 then
        Ok (if IsServer cptr then l else Lag (fake_lag l + 1) (fake_lag_msec l), ev1)
      else
        let! (o, l, ev2) := parse_command e cp cptr f from mtags_bytes ch l in
        match o with
        | Stop => Ok (l, ev1 ++ ev2)
        | Go d => execute e cp cptr f from mtags ch d l (ev1 ++ ev2)
        end
  end.

(** [parse]: [hook] is the chain of packet hooks, which may change the buffer
    or take it; [flood] says whether this unknown connection has sent too much. *)
Definition parse (e : env) (handlers : list MessageTagHandler) (cp : nat)
    (hook : list Z → option (list Z)) (dead_socket flood : bool) (buffer : list Z) (l : lag)
  : res (lag * list event) :=
  match hook buffer with
  | None => Ok (l, [])
  | Some buffer =>
      let! cptr := get_client e cp in
      if dead_socket then Ok (l, [])
      else if flood && IsUnknown cptr then Ok (l, [BanFlooder cp])
      else
        let ch := drop_while is_space buffer in
        if deref ch =? AT then
          let mc := MClient (IsServer cptr) (p_local cptr) 0 None in
          let! (rest, mtags, toolong) := parse_message_tags handlers mc ch [] in
          let mtags_bytes := Z.of_nat (length ch) - Z.of_nat (length rest) in
          let mtags_bytes := if 0 <? mtags_bytes then mtags_bytes else 0 in
          let! (l, ev) := parse2 e cp mtags mtags_bytes (drop_while is_space rest) l in
          Ok (l, (if toolong then [SendInputTooLong cp] else []) ++ ev)
        else parse2 e cp [] 0 ch l
  end.

(** ** Numerics *)

Inductive nevent :=
| NStartHandshake (c : nat)
| NRejectInsecure (c : nat)
| NSend (to : nat) (numeric : Z) (body : list Z)
| NSendChannel (ch : nat) (numeric : Z) (body : list Z).

(** [strstr(s, sub) != NULL]. *)
Fixpoint strstr (s sub : list Z) : bool :=
  bool_decide (take (length sub) s = sub) ||
  match s with [] => false | _ :: r => strstr r sub end.

(** Where one target of a numeric is sent. *)
Definition numeric_target (e : env) (client : pclient) (numeric : Z) (buffer nick : list Z)
  : res (list nevent) :=
  let! r := find_client nick None (e_hash e) in
  match r with
  | Some a =>
      let! acptr := get_client e a in
      if negb (IsMe acptr) && IsUser acptr then
        if p_local acptr && isdigit (deref nick) then
          match drop_while not_space buffer with
          | [] => Ok []
          | _ :: skip => Ok [NSend a numeric (p_name acptr ++ [SPACE_CH] ++ skip)]
          end
        else Ok [NSend a numeric buffer]
      else if IsServer acptr && negb (p_direction acptr =? p_direction client)%nat
      then Ok [NSend a numeric buffer] else Ok []
  | None =>
      let! r := find_server (Some nick) None (e_hash e) in
      match r with
      | Some a =>
          let! acptr := get_client e a in
          if negb (IsMe acptr) && negb (p_direction acptr =? p_direction client)%nat
          then Ok [NSend a numeric buffer] else Ok []
      | None =>
          let! ch := find_channel nick (e_hash e) in
          Ok (match ch with Some x => [NSendChannel x numeric buffer] | None => [] end)
      end
  end.

Fixpoint numeric_targets (e : env) (client : pclient) (numeric : Z) (buffer : list Z)
    (nicks : list (list Z)) : res (list nevent) :=
  match nicks with
  | [] => Ok []
  | n :: r =>
      let! ev := numeric_target e client numeric buffer n in
      let! evs := numeric_targets e client numeric buffer r in
      Ok (ev ++ evs)
  end.

(** [do_numeric]: [starttls] is the result of [client_starttls], which
    belongs to the TLS layer. *)
Definition do_numeric (e : env) (starttls : nat → Z) (numeric : Z) (c : nat) (params : list (list Z))
  : res (Z * list nevent) :=
  let! client := get_client e c in
  if (numeric <? 0) || (999 <? numeric) then Ok (-1, [])
  else
  let outgoing := match p_server client with
    | Some (sent, conf) =>
        if p_local client && negb (IsServer client) && negb (IsUser client) && IsHandshake client && negb sent
        then Some conf else None
    | None => None
    end in
  let first := nth 0 params [] in
  let outcome := match outgoing with
    | None => None
    | Some conf =>
        if (numeric =? 451) && (2 <=? length params)%nat && strstr first (bs "STARTTLS") then
          Some (0, [match conf with Some true => NStartHandshake c | _ => NRejectInsecure c end])
        else if numeric =? 691 then Some (0, [NRejectInsecure c])
        else if numeric =? 670 then
          Some (if starttls c <? 0 then (starttls c, [NRejectInsecure c]) else (0, []))
        else None
    end in
  match outcome with
  | Some o => Ok o
  | None =>
      if match first with [] => true | _ => false end || negb (IsServer client) then Ok (0, [])
      else
        let numeric := if numeric <? 100 then numeric + 100 else numeric in
        let buffer := concat_params BUFSIZE params in
        let targets := fst (Strl.strlcpy [] first BUFSIZE) in
        let! nicks := Strtoken.strtoken_all [COMMA] targets in
        let! evs := numeric_targets e client numeric buffer nicks in
        Ok (0, evs)
  end.

(** ** The receive queue *)

(** The tests of [parse_client_queued] that hold up all processing. *)
Record gate := Gate {
  g_dns : bool; g_ident : bool;
  g_unix : bool; g_localhost : bool; g_nodelay : bool;
  g_creationtime : Z;
  g_listener : option bool                 (* the listener, and whether it is serversonly *)
}.
Definition held_up (c : pclient) (g : gate) (now boot delay boot_delay : Z) : bool :=
  if g_dns g then true else if g_ident g then true else
  if negb (IsUser c) && negb (IsServer c) && negb (g_unix g) && negb (g_localhost g) then
    ((0 <? delay) && negb (g_nodelay g) && (now - g_creationtime g <? delay)) ||
    ((0 <? boot_delay) && (now - boot <? boot_delay) &&
     match g_listener g with Some serversonly => negb serversonly | None => false end)
  else false.

(** The loop, for any byte queue, over the world [W] that the handlers
    change.  All that handlers do to the receive queue of a client is to empty
    it: STARTTLS does (the rest was not encrypted), and so do
    [close_connection] and [dead_socket]; a handler returns whether it did. *)
Section Queue.
Context {T : Type} `{ByteQueue T} {W : Type}.
Variable dopacket : W → list Z → nat → W * bool.
Variable lagged : W → bool.
Variable dead : W → bool.
Variable tags_changed : W → bool.
Variable run_deferred : W → W * bool.

Definition empty_if (emptied : bool) (q : T) : res T := if emptied then bq_delete q (length (bq_contents q)) else Ok q.
Definition queued_body (s : T * W) : res (step (T * W) (T * W)) :=
  let '(q, w) := s in
  if (0 <? length (bq_contents q))%nat && negb (lagged w) then
    let! (q, dolen, buf) := bq_getmsg q in
    if (dolen =? 0)%nat then Ok (Done (q, w))
    else
      let (w, emptied) := dopacket w buf dolen in
      let! q := empty_if emptied q in
      let (w, emptied) := if negb (dead w) && tags_changed w then run_deferred w else (w, false) in
      let! q := empty_if emptied q in
      if dead w then Ok (Done (q, w)) else Ok (Next (q, w))
  else Ok (Done (q, w)).

Definition parse_client_queued (held : bool) (q : T) (w : W) : res (T * W) :=
  if held then Ok (q, w)
  else loop queued_body (S (length (bq_contents q))) (q, w).

(** Why [process_packet] gives up on a client, and how. *)
Inductive pkill := KBanFlooder | KDeadSocket | KExitClient.

(** [process_packet]: [unknown] and [user] are IsUnknown and IsUser after
    the parsing; the result is the return value and what was done to the
    client. *)
Definition process_packet (held killsafely : bool) (unknown user bot : W → bool)
    (flood_amount recvq : Z) (q : T) (readbuf : list Z) (w : W)
  : res (T * W * Z * option pkill) :=
  let! q := bq_put q readbuf in
  let! (q, w) := parse_client_queued held q w in
  let dbuflen := Z.of_nat (length (bq_contents q)) in
  if dead w then Ok (q, w, 0, None)
  else if unknown w && (flood_amount <? dbuflen) then
    Ok (q, w, 0, Some (if killsafely then KDeadSocket else KBanFlooder))
  else if user w && ((if bot w then recvq * 8 else recvq) <? dbuflen) then
    Ok (q, w, 0, Some (if killsafely then KDeadSocket else KExitClient))
  else Ok (q, w, 1, None).
End Queue.

(** ** Theory: fake lag *)

Definition lag_ok (l : lag) : Prop := 0 ≤ fake_lag_msec l < 1000.
(** The penalty in milliseconds. *)
Definition lag_total (l : lag) : Z := 1000 * fake_lag l + fake_lag_msec l.

Lemma lag_total_inj l l' : lag_ok l → lag_ok l' → lag_total l = lag_total l' → l = l'.
Proof.
  destruct l as [s m], l' as [s' m']. unfold lag_ok, lag_total. simpl. intros. f_equal; lia.
Qed.

Lemma lag_carry_spec l msec :
  lag_ok l → 0 ≤ msec < 2 ^ 31 - 1000 →
  lag_ok (lag_carry l msec) ∧ lag_total (lag_carry l msec) = lag_total l + msec.
Proof.
  unfold lag_ok, lag_total, lag_carry. intros Hl Hm. rewrite i32_small by lia. simpl.
  rewrite Z.quot_div_nonneg, Z.rem_mod_nonneg by lia. dlia.
Qed.

Lemma subtract_spec c msec l :
  lag_ok l → 0 ≤ msec < 2 ^ 31 → p_local c = true →
  lag_ok (subtract_fake_lag c msec l) ∧ lag_total (subtract_fake_lag c msec l) = lag_total l - msec.
Proof.
  unfold lag_ok, lag_total, subtract_fake_lag. intros Hl Hm ->. simpl.
  destruct (Z.leb_spec 0 (fake_lag_msec l - msec)); simpl.
  - rewrite i32_small by lia. lia.
  - rewrite Z.quot_div_nonneg by lia. rewrite i32_small by dlia. dlia.
Qed.

(** Limits of the configuration and of a line. *)
Definition penalty_ok (p : Z * Z) : Prop := 0 ≤ p.1 ≤ 10000 ∧ 0 < p.2.
Definition bytes_ok (n : Z) : Prop := 0 ≤ n ≤ 16384.

Lemma quot_bytes n d : bytes_ok n → 0 < d → 0 ≤ Z.quot n d ≤ 16384.
Proof.
  unfold bytes_ok. intros Hn Hd. rewrite Z.quot_div_nonneg by lia.
  split; [apply Z.div_pos; lia|]. apply Z.div_le_upper_bound; nia.
Qed.

Definition exempt (c : pclient) (immune : bool) : bool := IsServer c || p_nofakelag c || immune.

Lemma parse_addlag_spec c immune p cb mb l :
  lag_ok l → penalty_ok p → bytes_ok cb → bytes_ok mb →
  ∃ l' msec, parse_addlag c immune p.1 p.2 cb mb l = Ok (l', msec) ∧
    lag_ok l' ∧ lag_total l' = lag_total l + msec ∧ 0 ≤ msec < 2 ^ 31 - 1000 ∧
    (if exempt c immune then msec = 0 else p.1 ≤ msec).
Proof.
  intros Hl [Hp Hb] Hc Hm. unfold parse_addlag, exempt.
  destruct (IsServer c), (p_nofakelag c), immune; simpl;
    try (exists l, 0; split; [done|]; split; [done|]; lia).
  pose proof (quot_bytes cb p.2 Hc Hb). pose proof (quot_bytes mb p.2 Hm Hb).
  set (a := Z.quot cb p.2) in *. set (b := Z.quot mb p.2) in *.
  destruct (Z.eqb_spec p.2 0); [lia|]. simpl.
  assert (0 ≤ (1 + a + b) * p.1 ≤ 32769 * 10000) by nia.
  destruct (Z.leb_spec (- 2 ^ 31) ((1 + a + b) * p.1)); [|lia].
  destruct (Z.ltb_spec ((1 + a + b) * p.1) (2 ^ 31)); [|lia]. simpl.
  destruct (lag_carry_spec l ((1 + a + b) * p.1) Hl ltac:(lia)).
  eexists _, _. split; [done|]. split; [done|]. split; [done|]. split; [lia|]. nia.
Qed.

(** The penalties of a run of commands. *)
Fixpoint lag_run (c : pclient) (immune : bool) (p : Z * Z) (cmds : list (Z * Z)) (l : lag) : res lag :=
  match cmds with
  | [] => Ok l
  | (cb, mb) :: r =>
      let! (l, _) := parse_addlag c immune p.1 p.2 cb mb l in lag_run c immune p r l
  end.

Lemma lag_run_spec c immune p cmds l :
  lag_ok l → penalty_ok p → Forall (λ x, bytes_ok x.1 ∧ bytes_ok x.2) cmds →
  exempt c immune = false →
  ∃ l', lag_run c immune p cmds l = Ok l' ∧ lag_ok l' ∧
    lag_total l + Z.of_nat (length cmds) * p.1 ≤ lag_total l'.
Proof.
  intros Hl Hp Hc He. revert l Hl. induction Hc as [|[cb mb] cmds [Hcb Hmb] _ IH]; intros l Hl.
  { exists l. simpl. split; [done|]. split; [done|lia]. }
  destruct (parse_addlag_spec c immune p cb mb l Hl Hp Hcb Hmb) as (l1 & m & Ha & Hl1 & Ht & Hm & Hx).
  rewrite He in Hx. destruct (IH l1 Hl1) as (l2 & Hr & Hl2 & Ht2).
  exists l2. cbn [lag_run]. rewrite Ha. cbn [rbind]. split; [done|]. split; [done|].
  cbn [length]. lia.
Qed.

(** Fake lag adds up exactly and is undone exactly.  Within the limits of
    the configuration no arithmetic overflows or divides by zero; the remainder
    in milliseconds stays below a second; the total grows by the number of
    milliseconds returned, which is 0 for exempt clients and at least the
    penalty for others; and subtracting what was added restores the state. *)
Theorem fake_lag_exact c immune p cb mb l :
  lag_ok l → penalty_ok p → bytes_ok cb → bytes_ok mb → p_local c = true →
  ∃ l' msec, parse_addlag c immune p.1 p.2 cb mb l = Ok (l', msec) ∧
    lag_ok l' ∧ lag_total l' = lag_total l + msec ∧
    (if exempt c immune then msec = 0 else p.1 ≤ msec) ∧
    subtract_fake_lag c msec l' = l ∧
    ∀ extra, 0 ≤ extra < 2 ^ 31 - 1000 → p_nofakelag c = false →
      lag_ok (add_fake_lag c extra l) ∧ lag_total (add_fake_lag c extra l) = lag_total l + extra ∧
      subtract_fake_lag c extra (add_fake_lag c extra l) = l.
Proof.
  intros Hl Hp Hcb Hmb Hloc.
  destruct (parse_addlag_spec c immune p cb mb l Hl Hp Hcb Hmb) as (l' & m & Ha & Hl' & Ht & Hm & Hx).
  exists l', m. split; [done|]. split; [done|]. split; [done|]. split; [done|]. split.
  - destruct (subtract_spec c m l' Hl' ltac:(lia) Hloc). apply lag_total_inj; [done|done|lia].
  - intros extra He Hn. unfold add_fake_lag. rewrite Hloc, Hn. simpl.
    destruct (lag_carry_spec l extra Hl He) as [H1 H2]. split; [done|]. split; [done|].
    destruct (subtract_spec c extra _ H1 ltac:(lia) Hloc). apply lag_total_inj; [done|done|lia].
Qed.

(** Fake lag limits the rate of commands: however a client that is not
    exempt spaces its commands, when it is not yet lagged up at time [now] the
    number of commands it has had processed, times the penalty, is less than
    the time since its lag started counting plus the ten seconds of credit. *)
Theorem fake_lag_rate_limit c immune p cmds l now :
  lag_ok l → penalty_ok p → Forall (λ x, bytes_ok x.1 ∧ bytes_ok x.2) cmds →
  exempt c immune = false → CLIENT_STATUS_UNKNOWN ≤ p_status c →
  ∃ l', lag_run c immune p cmds l = Ok l' ∧
    (client_lagged_up c immune now l' = false →
     Z.of_nat (length cmds) * p.1 < 1000 * (now + 10 - fake_lag l)).
Proof.
  intros Hl Hp Hc He Hst.
  destruct (lag_run_spec c immune p cmds l Hl Hp Hc He) as (l' & Hr & Hl' & Ht).
  exists l'. split; [done|]. unfold client_lagged_up. unfold exempt in He.
  apply orb_false_iff in He as [[Hs _]%orb_false_iff Hi]. rewrite Hs, Hi.
  destruct (Z.ltb_spec (p_status c) CLIENT_STATUS_UNKNOWN); [lia|].
  destruct (Z.ltb_spec (fake_lag l' - now) 10); [|done]. intros _.
  unfold lag_total, lag_ok in *. lia.
Qed.

Definition demo_person : pclient :=
  PClient (bs "alice") CLIENT_STATUS_USER true 1 false false false false None.

Lemma fake_lag_exact_witness :
  ∃ l' msec, parse_addlag demo_person false 750 180 400 0 (Lag 1000 900) = Ok (l', msec) ∧
    lag_ok l' ∧ lag_total l' = lag_total (Lag 1000 900) + msec ∧ 750 ≤ msec ∧
    subtract_fake_lag demo_person msec l' = Lag 1000 900.
Proof.
  destruct (fake_lag_exact demo_person false (750, 180) 400 0 (Lag 1000 900))
    as (l' & m & H1 & H2 & H3 & H4 & H5 & _).
  - split; simpl; lia.
  - split; simpl; lia.
  - split; simpl; lia.
  - split; simpl; lia.
  - reflexivity.
  - exists l', m. split; [exact H1|]. split; [exact H2|]. split; [exact H3|]. split; [exact H4|exact H5].
Defined.

Lemma fake_lag_rate_limit_witness :
  ∃ l', lag_run demo_person false (1000, 90) [(20, 0); (30, 0)] (Lag 1000 0) = Ok l' ∧
    (client_lagged_up demo_person false 1000 l' = false → 2 * 1000 < 1000 * (1000 + 10 - 1000)).
Proof.
  apply (fake_lag_rate_limit demo_person false (1000, 90) [(20, 0); (30, 0)] (Lag 1000 0) 1000).
  - split; simpl; lia.
  - split; simpl; lia.
  - repeat constructor; simpl; lia.
  - reflexivity.
  - unfold CLIENT_STATUS_UNKNOWN. simpl. unfold CLIENT_STATUS_USER. lia.
Defined.

(** ** Theory: parameters *)

(** A parameter that is not the last: one word that does not start with a
    colon. *)
Record middle (p : list Z) : Prop := {
  mid_nonempty : p ≠ [];
  mid_nospace : SPACE_CH ∉ p;
  mid_nocolon : deref p ≠ COLON
}.

Lemma not_space_Forall p : SPACE_CH ∉ p → Forall (λ c, not_space c = true) p.
Proof.
  intros H. apply Forall_forall. intros c Hc. unfold not_space.
  destruct (Z.eqb_spec c SPACE_CH) as [->|]; done.
Qed.

Lemma middle_skip p r : middle p → drop_while is_space (p ++ r) = p ++ r.
Proof.
  intros [Hne Hs _]. destruct p as [|c p]; [done|]. simpl. unfold is_space.
  destruct (Z.eqb_spec c SPACE_CH) as [->|]; [|done]. destruct Hs. by left.
Qed.

(** Every run of the loop gives at least the rest of the line in order, with at
    most [paramcount] parameters (one at least), the first ones single words. *)
Lemma param_loop_spec fuel pc i s :
  (length s < fuel)%nat → 0 ≤ i →
  ∃ ps, param_loop fuel pc i s = Ok ps ∧
    Z.of_nat (length ps) ≤ Z.max 1 (pc - i) ∧
    (∀ k p, ps !! k = Some p → (S k < length ps)%nat → middle p) ∧
    (∀ p, p ∈ ps → (length p ≤ length s)%nat).
Proof.
  revert i s. induction fuel as [|fuel IH]; intros i s Hf Hi; [lia|]. cbn [param_loop].
  pose proof (drop_while_length is_space s) as Hlen.
  destruct (drop_while is_space s) as [|c r] eqn:E.
  { exists []. split; [done|]. split; [simpl; lia|]. split; [done|]. by intros p ?%elem_of_nil. }
  assert (∀ q, ([q] : list (list Z)) = [q] → (length q ≤ length s)%nat →
    Z.of_nat (length [q]) ≤ Z.max 1 (pc - i) ∧
    (∀ k p, [q] !! k = Some p → (S k < length [q])%nat → middle p) ∧
    (∀ p, p ∈ [q] → (length p ≤ length s)%nat)) as Hone.
  { intros q _ Hq. split; [simpl; lia|]. split; [intros k p _ Hk; simpl in Hk; lia|].
    by intros p ->%list_elem_of_singleton. }
  pose proof (drop_while_head _ _ _ _ E) as Hsp. unfold is_space in Hsp. apply Z.eqb_neq in Hsp.
  destruct (Z.eqb_spec c COLON) as [->|Hcol].
  { exists [r]. split; [done|]. apply Hone; [done|]. simpl in Hlen. lia. }
  destruct (Z.leb_spec pc (i + 1)).
  { exists [c :: r]. split; [done|]. by apply Hone. }
  assert (not_space c = true) as Hns by (unfold not_space; bool_cases).
  pose proof (drop_while_length not_space r) as Hlr.
  assert (drop_while not_space (c :: r) = drop_while not_space r) as Hd by (simpl; by rewrite Hns).
  rewrite Hd. destruct (IH (i + 1) (drop_while not_space r)) as (ps & -> & Hn & Hm & Hl);
    [simpl in *; lia|lia|].
  exists (take_while not_space (c :: r) :: ps). cbn [rbind]. split; [done|]. split; [simpl; lia|].
  pose proof (take_while_Forall not_space (c :: r)) as Hw. split.
  - intros [|k] p Hp Hk; [|apply (Hm k); [done|simpl in Hk; lia]]. injection Hp as <-.
    constructor.
    + simpl. by rewrite Hns.
    + intros Hin. rewrite Forall_forall in Hw. by specialize (Hw _ Hin).
    + simpl. rewrite Hns. done.
  - intros p [->|Hp]%elem_of_cons; [|specialize (Hl p Hp); simpl in *; lia].
    pose proof (f_equal length (take_drop_while not_space (c :: r))) as Ht.
    rewrite length_app in Ht. simpl in *. lia.
Qed.

(** Writing parameters and splitting the text again. *)
Lemma param_loop_middle fuel pc i p s :
  middle p → i + 1 < pc →
  param_loop (S fuel) pc i (p ++ SPACE_CH :: s) =
    (let! ps := param_loop fuel pc (i + 1) (SPACE_CH :: s) in Ok (p :: ps)).
Proof.
  intros Hm Hpc. cbn [param_loop]. rewrite middle_skip by done. pose proof Hm as [Hne Hs Hc].
  destruct p as [|c p]; [done|]. unfold deref in Hc. simpl hd in Hc. cbn [app].
  destruct (Z.eqb_spec c COLON); [done|]. destruct (Z.leb_spec pc (i + 1)); [lia|].
  change (c :: p ++ SPACE_CH :: s) with ((c :: p) ++ SPACE_CH :: s).
  apply not_space_Forall in Hs. rewrite drop_while_app, take_while_app by done.
  simpl take_while. simpl drop_while. by rewrite app_nil_r.
Qed.

Lemma param_loop_space fuel pc i s : param_loop fuel pc i (SPACE_CH :: s) = param_loop fuel pc i s.
Proof. destruct fuel; done. Qed.

(** The text of parameters: middles separated by spaces, the last with a colon
    if it needs one. *)
Definition needs_colon (p : list Z) : bool := bool_decide (SPACE_CH ∈ p) || (deref p =? COLON).
Definition last_text (p : list Z) : list Z := if needs_colon p then COLON :: p else p.
Fixpoint params_text (mids : list (list Z)) (p : list Z) : list Z :=
  match mids with
  | [] => last_text p
  | m :: r => m ++ SPACE_CH :: params_text r p
  end.

Lemma param_loop_last fuel pc i p :
  p ≠ [] → i < pc → (1 < fuel)%nat → param_loop fuel pc i (last_text p) = Ok [p].
Proof.
  intros Hp Hi Hf. destruct fuel as [|[|fuel]]; [lia..|].
  unfold last_text. destruct (needs_colon p) eqn:En; [done|].
  unfold needs_colon in En. apply orb_false_iff in En as [Hs%bool_decide_eq_false Hc%Z.eqb_neq].
  assert (middle p) as Hm by done.
  rewrite <-(app_nil_r p) at 1. cbn [param_loop]. rewrite middle_skip by done. rewrite app_nil_r.
  destruct p as [|c p]; [done|]. unfold deref in Hc. simpl in Hc.
  destruct (Z.eqb_spec c COLON); [done|]. destruct (Z.leb_spec pc (i + 1)); [done|].
  apply not_space_Forall in Hs.
  rewrite (drop_while_all _ (c :: p)), (take_while_all _ (c :: p)) by done. done.
Qed.

Lemma param_loop_text mids p pc : ∀ fuel i,
  Forall middle mids → p ≠ [] → i + Z.of_nat (length mids) < pc →
  (length mids + 1 < fuel)%nat →
  param_loop fuel pc i (params_text mids p) = Ok (mids ++ [p]).
Proof.
  induction mids as [|m mids IH]; intros fuel i Hm Hp Hi Hf; simpl in *.
  { apply param_loop_last; [done|lia|lia]. }
  apply Forall_cons in Hm as [Hm Hms]. destruct fuel as [|fuel]; [lia|].
  rewrite param_loop_middle by (done || lia). rewrite param_loop_space.
  rewrite IH by (done || lia). done.
Qed.

Lemma concat_loop_text mids p len : ∀ buf,
  Forall middle mids → buf ≠ [] →
  (length (buf ++ SPACE_CH :: params_text mids p) < len)%nat →
  concat_loop len buf (mids ++ [p]) = buf ++ SPACE_CH :: params_text mids p.
Proof.
  assert (∀ b x : list Z, (length (b ++ x) < len)%nat → fst (Strl.strlcat b x len) = b ++ x) as Hcat.
  { intros b x Hl. rewrite length_app in Hl. rewrite Strl.strlcat_fst by lia.
    apply take_ge. rewrite length_app. lia. }
  induction mids as [|m mids IH]; intros buf Hm Hb Hl; rewrite length_app in Hl; cbn [length] in Hl.
  - cbn [app concat_loop params_text] in *. destruct buf as [|b buf]; [done|].
    rewrite (Hcat (b :: buf)) by (rewrite length_app; cbn [length] in *; lia).
    fold (needs_colon p). unfold last_text in *. destruct (needs_colon p); cbn [length] in Hl.
    + rewrite (Hcat ((b :: buf) ++ _)) by (rewrite ?length_app; cbn [length] in *; lia).
      rewrite Hcat by (rewrite ?length_app; cbn [length] in *; lia). by rewrite <-!app_assoc.
    + rewrite Hcat by (rewrite ?length_app; cbn [length] in *; lia). by rewrite <-!app_assoc.
  - apply Forall_cons in Hm as [[Hne Hs Hc] Hms]. cbn [app concat_loop params_text] in *.
    rewrite length_app in Hl. cbn [length] in Hl. destruct buf as [|b buf]; [done|].
    rewrite (Hcat (b :: buf)) by (rewrite length_app; cbn [length] in *; lia).
    rewrite bool_decide_eq_false_2 by done. destruct (Z.eqb_spec (deref m) COLON); [done|]. simpl orb. cbv iota.
    rewrite Hcat by (rewrite ?length_app; cbn [length] in *; lia).
    rewrite IH; [by rewrite <-!app_assoc|done|by destruct buf|].
    rewrite !length_app. cbn [length] in *. lia.
Qed.

Lemma concat_params_text mids p len :
  Forall middle mids → (length (params_text mids p) < len)%nat →
  concat_params len (mids ++ [p]) = params_text mids p.
Proof.
  intros Hm Hl. unfold concat_params.
  assert (∀ x : list Z, (length x < len)%nat → fst (Strl.strlcat [] x len) = x) as Hcat.
  { intros x Hx. rewrite Strl.strlcat_fst by (simpl; lia). apply take_ge. simpl. lia. }
  destruct mids as [|m mids].
  - cbn [app concat_loop params_text] in *. fold (needs_colon p).
    unfold last_text in *. destruct (needs_colon p); cbn [length] in Hl.
    + rewrite Hcat by (cbn [length]; lia). rewrite Strl.strlcat_fst by (simpl; lia).
      apply take_ge. simpl. lia.
    + by apply Hcat.
  - apply Forall_cons in Hm as [[Hne Hs Hc] Hms]. cbn [app concat_loop params_text] in *.
    rewrite length_app in Hl. cbn [length] in Hl.
    rewrite bool_decide_eq_false_2 by done. destruct (Z.eqb_spec (deref m) COLON); [done|]. simpl orb. cbv iota.
    rewrite Hcat by lia. rewrite concat_loop_text; [done..|]. rewrite length_app. simpl. lia.
Qed.

(** Parameters.  For every line the loop of [parse2] ends and yields at
    most [paramcount] parameters (but one in any case), all but the last of
    them single words; and what [concat_params] writes for a list of
    parameters with a non-empty last one is split into the same parameters,
    when it fits the buffer. *)
Theorem params_correct pc len mids p s :
  (∃ ps, split_params pc s = Ok ps ∧ Z.of_nat (length ps) ≤ Z.max 1 pc ∧
     ∀ k q, ps !! k = Some q → (S k < length ps)%nat → middle q) ∧
  (Forall middle mids → p ≠ [] → Z.of_nat (length mids) < pc →
   (length (params_text mids p) < len)%nat →
   split_params pc (concat_params len (mids ++ [p])) = Ok (mids ++ [p])).
Proof.
  split.
  - destruct (param_loop_spec (S (length s)) pc 0 s) as (ps & H1 & H2 & H3 & _); [lia..|].
    rewrite Z.sub_0_r in H2. eauto.
  - intros Hm Hp Hpc Hl. rewrite concat_params_text by done. unfold split_params.
    apply param_loop_text; [done..|].
    assert (length mids + 1 ≤ length (params_text mids p))%nat; [|lia].
    clear Hpc Hl. induction Hm as [|m mids [Hne _ _] _ IH]; simpl.
    + unfold last_text. destruct (needs_colon p), p; simpl; (done || lia).
    + rewrite length_app. destruct m; [done|]. simpl. lia.
Qed.

Lemma params_correct_witness :
  split_params 15 (concat_params 512 [bs "#chan"; bs "a b"]) = Ok [bs "#chan"; bs "a b"].
Proof.
  apply (proj2 (params_correct 15 512 [bs "#chan"] (bs "a b") [])).
  - apply Forall_singleton. constructor; [discriminate|apply (bool_decide_unpack _); vm_compute; exact I|vm_compute; discriminate].
  - discriminate.
  - simpl. lia.
  - vm_compute. lia.
Defined.

(** An empty last parameter is lost by [concat_params]: the text has no colon,
    and whoever parses it sees one parameter less. *)
Lemma concat_params_drops_empty :
  concat_params 512 [bs "#chan"; []] = bs "#chan " ∧
  split_params 15 (concat_params 512 [bs "#chan"; []]) = Ok [bs "#chan"].
Proof. split; vm_compute; reflexivity. Qed.

(** ** Theory: the receive queue *)

(** Taking complete lines from the front of a byte string. *)
Inductive drained : list Z → list (list Z) → list Z → Prop :=
| drained_nil q : drained q [] q
| drained_cons q q1 n line lines q' :
    spec_getmsg q = (q1, n, line) → n ≠ 0%nat → drained q1 lines q' →
    drained q (line :: lines) q'.

(** No complete line is left. *)
Definition no_line (q : list Z) : Prop := (spec_getmsg q).1.2 = 0%nat.

Lemma spec_getmsg_shrinks q q1 n line :
  spec_getmsg q = (q1, n, line) → n ≠ 0%nat → (length q1 < length q)%nat.
Proof.
  unfold spec_getmsg. pose proof (drop_while_length is_blank q) as H1.
  set (q0 := drop_while is_blank q) in *.
  pose proof (take_drop_while (λ c, negb (is_eol c)) q0) as Hsplit.
  set (ln := take_while (λ c, negb (is_eol c)) q0) in *.
  set (rest := drop_while (λ c, negb (is_eol c)) q0) in *.
  pose proof (drop_while_length is_blank rest) as H2.
  apply (f_equal length) in Hsplit. rewrite length_app in Hsplit.
  destruct rest as [|x r]; intros [= <- <- _] Hn; [done|]. simpl in *. lia.
Qed.

Lemma drained_snoc q lines q1 n line q' :
  drained q lines q1 → spec_getmsg q1 = (q', n, line) → n ≠ 0%nat → drained q (lines ++ [line]) q'.
Proof.
  induction 1 as [q|q q1 m l ls q2 Hg Hm _ IH]; intros H Hn; simpl.
  - by econstructor; [..|constructor].
  - econstructor; eauto.
Qed.

Lemma spec_getmsg_length q q1 n line : spec_getmsg q = (q1, n, line) → n = length line.
Proof.
  unfold spec_getmsg. destruct (drop_while _ (drop_while is_blank q)); intros [= _ <- <-]; [done|].
  rewrite length_take. lia.
Qed.

(** When there is no line only the leading blanks go. *)
Lemma spec_getmsg_none q q1 line :
  spec_getmsg q = (q1, 0%nat, line) → q1 = drop_while is_blank q.
Proof.
  unfold spec_getmsg. destruct (drop_while is_blank q) as [|y q0] eqn:E; [by intros [= <- _]|].
  pose proof (drop_while_head _ _ _ _ E) as Hb. unfold is_blank in Hb.
  assert (negb (is_eol y) = true) as Hy.
  { unfold is_eol. destruct ((y =? CR) || (y =? LF)); [done|done]. }
  cbn [drop_while take_while]. rewrite Hy. cbn [length].
  destruct (drop_while (λ c, negb (is_eol c)) q0); [by intros [= <- _]|].
  by intros [= _ Hm _].
Qed.

Lemma no_line_skip q : no_line q → no_line (drop_while is_blank q).
Proof.
  unfold no_line, spec_getmsg.
  assert (drop_while is_blank (drop_while is_blank q) = drop_while is_blank q) as ->; [|done].
  destruct (drop_while is_blank q) as [|c r] eqn:E; [done|]. simpl.
  by rewrite (drop_while_head _ _ _ _ E).
Qed.

Section QueueTheory.
Context {T : Type} `{ByteQueue T} {W : Type}.
Variable dopacket : W → list Z → nat → W * bool.
Variable lagged : W → bool.
Variable dead : W → bool.
Variable tags_changed : W → bool.
Variable run_deferred : W → W * bool.

(** The effect of one line, and of a sequence of lines: the world, and whether
    the handling of the last one emptied the queue. *)
Definition handle (s : W * bool) (line : list Z) : W * bool :=
  let (w, emptied) := dopacket s.1 line (length line) in
  if negb (dead w) && tags_changed w then let (w, again) := run_deferred w in (w, emptied || again) else (w, emptied).
Definition handle_all (w : W) (lines : list (list Z)) : W * bool := foldl handle (w, false) lines.

(** Each line was taken while the client was not lagged up, and all but the
    last left the client alive and the queue as it was. *)
Definition permitted (w : W) (lines : list (list Z)) : Prop :=
  ∀ k, (k < length lines)%nat →
    lagged (handle_all w (take k lines)).1 = false ∧
    ((0 < k)%nat → dead (handle_all w (take k lines)).1 = false ∧ (handle_all w (take k lines)).2 = false).

Lemma permitted_snoc w lines line :
  permitted w lines → lagged (handle_all w lines).1 = false →
  (lines ≠ [] → dead (handle_all w lines).1 = false ∧ (handle_all w lines).2 = false) → permitted w (lines ++ [line]).
Proof.
  intros Hp Hl Hd k Hk. rewrite length_app in Hk. simpl in Hk.
  destruct (decide (k < length lines)%nat).
  - rewrite take_app_le by lia. by apply Hp.
  - rewrite take_app_le, take_ge by lia. split; [done|]. intros ?. apply Hd. by destruct lines; simpl in *; [lia|].
Qed.

Definition queue_result (q : list Z) (w : W) (r : T * W) : Prop :=
  bq_ok r.1 ∧ ∃ lines rest,
    drained q lines rest ∧ r.2 = (handle_all w lines).1 ∧ permitted w lines ∧
    (if (handle_all w lines).2 then bq_contents r.1 = []
     else bq_contents r.1 = rest ∨ (no_line rest ∧ bq_contents r.1 = drop_while is_blank rest)) ∧
    (dead r.2 = true ∨ lagged r.2 = true ∨ no_line (bq_contents r.1)).

Lemma empty_if_spec b q : bq_ok q → ∃ q', empty_if b q = Ok q' ∧ bq_ok q' ∧ bq_contents q' = if b then [] else bq_contents q.
Proof.
  intros Hq. destruct b; [|by exists q]. destruct (bq_delete_spec q (length (bq_contents q)) Hq ltac:(done)) as (q' & E & Hq' & Ec).
  exists q'. by rewrite drop_all in Ec.
Qed.

(** One line, with what its handling does to the queue. *)
Lemma handle_spec q w b line : bq_ok q →
  ∃ q', (let (w, emptied) := dopacket w line (length line) in
         let! q := empty_if emptied q in
         let (w, emptied) := if negb (dead w) && tags_changed w then run_deferred w else (w, false) in
         let! q := empty_if emptied q in
         if dead w then Ok (Done (q, w)) else Ok (Next (q, w))) =
        (if dead (handle (w, b) line).1 then Ok (Done (q', (handle (w, b) line).1)) else Ok (Next (q', (handle (w, b) line).1))) ∧
    bq_ok q' ∧ bq_contents q' = if (handle (w, b) line).2 then [] else bq_contents q.
Proof.
  intros Hq. unfold handle. cbn [fst]. destruct (dopacket w line (length line)) as [w1 e1].
  destruct (empty_if_spec e1 q Hq) as (q1 & -> & Hq1 & C1). cbn [rbind]. destruct (negb (dead w1) && tags_changed w1).
  - destruct (run_deferred w1) as [w2 e2]. destruct (empty_if_spec e2 q1 Hq1) as (q2 & -> & Hq2 & C2). exists q2. split_and!; [done..|].
    rewrite C2, C1. by destruct e1, e2.
  - exists q1. split_and!; done.
Qed.

Lemma parse_client_queued_spec q w :
  bq_ok q →
  ∃ r, parse_client_queued dopacket lagged dead tags_changed run_deferred false q w = Ok r ∧
    queue_result (bq_contents q) w r.
Proof.
  intros Hq. unfold parse_client_queued.
  apply (loop_total _ (λ s, bq_ok s.1 ∧ ∃ lines rest, drained (bq_contents q) lines rest ∧
      bq_contents s.1 = (if (handle_all w lines).2 then [] else rest) ∧
      s.2 = (handle_all w lines).1 ∧ permitted w lines ∧ (lines ≠ [] → dead s.2 = false))
    (λ s, length (bq_contents s.1))); [|split; [done|]; exists [], (bq_contents q)|simpl; lia].
  2: { split; [constructor|]. split_and!; [done|done| |done]. intros k Hk. simpl in Hk. lia. }
  intros [q1 w1] [Hok (lines & rest & Hdr & Hc & Hw & Hp & Hd)]. simpl in Hok, Hc, Hw, Hd. cbn [queued_body].
  assert (if (handle_all w lines).2 then bq_contents q1 = [] else bq_contents q1 = rest ∨ (no_line rest ∧ bq_contents q1 = drop_while is_blank rest)) as Hnow
    by (destruct (handle_all w lines).2; auto).
  destruct (Nat.ltb_spec 0 (length (bq_contents q1))) as [Hpos|Hz]; simpl andb; cbv iota; cycle 1.
  { eexists. split; [done|]. split; [done|]. exists lines, rest.
    split_and!; [done..|]. right. right. simpl. by destruct (bq_contents q1); [|simpl in *; lia]. }
  destruct (lagged w1) eqn:El; simpl negb; cbv iota.
  { eexists. split; [done|]. split; [done|]. exists lines, rest. split_and!; [done..|]. by right; left. }
  destruct (handle_all w lines).2 eqn:Ee; [by rewrite Hc in Hpos; simpl in Hpos; lia|]. subst rest.
  destruct (bq_getmsg_spec q1 Hok) as (q2 & n & line & Hg & Hok2 & Hs). rewrite Hg. cbn [rbind].
  symmetry in Hs. destruct (Nat.eqb_spec n 0) as [->|Hn].
  { eexists. split; [done|]. split; [done|]. exists lines, (bq_contents q1).
    assert (no_line (bq_contents q1)) as Hnl by (unfold no_line; by rewrite Hs).
    assert (bq_contents q2 = drop_while is_blank (bq_contents q1)) as Hc2
      by (by eapply spec_getmsg_none).
    rewrite Ee. simpl. rewrite Hc2. split_and!; [done..|by right|]. right. right. by apply no_line_skip. }
  pose proof (spec_getmsg_length _ _ _ _ Hs) as ->.
  pose proof (drained_snoc _ _ _ _ _ _ Hdr Hs Hn) as Hdr'.
  destruct (handle_spec q2 w1 false line Hok2) as (q3 & -> & Hok3 & Hc3).
  assert (handle (w1, false) line = handle_all w (lines ++ [line])) as Hh.
  { unfold handle_all. rewrite foldl_app. simpl. unfold handle. by rewrite Hw. }
  assert (permitted w (lines ++ [line])) as Hp'
    by (apply permitted_snoc; [done|by rewrite <-Hw|by rewrite <-Hw; auto]).
  rewrite Hh in *. destruct (dead (handle_all w (lines ++ [line])).1) eqn:Ed.
  - eexists. split; [done|]. split; [done|]. exists (lines ++ [line]), (bq_contents q2). cbn [fst snd].
    split_and!; [done..| |by left]. destruct (handle_all w (lines ++ [line])).2; auto.
  - eexists. split; [done|]. split.
    + split; [done|]. exists (lines ++ [line]), (bq_contents q2). by split_and!.
    + cbn [fst]. rewrite Hc3. pose proof (spec_getmsg_shrinks _ _ _ _ Hs Hn) as Hsh. destruct (handle_all w (lines ++ [line])).2; [done|exact Hsh].
Qed.
End QueueTheory.

(** C2.  Incoming data.  Putting a packet in the queue and processing it always
    ends.  The lines handled are exactly the next complete lines of the queue
    followed by the packet, in order, each handled while the client was not
    lagged up, and after lines that left it alive and did not empty its queue;
    afterwards the client is dead, or lagged up, or no complete line is left.
    The queue is then empty when the handler of the last line emptied it (as
    STARTTLS does, and whatever kills the client), and otherwise the rest stays
    queued.  While processing is held up nothing is handled.  A client that is
    kept (the result is 1) is alive and within its limit of unprocessed data.
    The packet is not empty, and the queue with it is shorter than 2^32 bytes. *)
Theorem process_packet_correct `{ByteQueue T} {W} dopacket lagged dead tags_changed run_deferred
    (held killsafely : bool) (unknown user bot : W → bool) flood_amount recvq (q : T) readbuf (w : W) :
  bq_ok q → readbuf ≠ [] → Z.of_nat (length (bq_contents q) + length readbuf) < 2 ^ 32 →
  ∃ q' w' ret kill,
    process_packet dopacket lagged dead tags_changed run_deferred held killsafely unknown user bot
      flood_amount recvq q readbuf w = Ok (q', w', ret, kill) ∧
    (if held then w' = w ∧ bq_contents q' = bq_contents q ++ readbuf
     else queue_result dopacket lagged dead tags_changed run_deferred
            (bq_contents q ++ readbuf) w (q', w')) ∧
    (ret = 0 ∨ ret = 1 ∧ kill = None ∧ dead w' = false ∧
       (unknown w' = true → Z.of_nat (length (bq_contents q')) ≤ flood_amount) ∧
       (user w' = true →
          Z.of_nat (length (bq_contents q')) ≤ if bot w' then recvq * 8 else recvq)).
Proof.
  intros Hq Hb Hl. unfold process_packet.
  destruct (bq_put_spec q readbuf Hq Hb Hl) as (q1 & -> & Hq1 & Hc). cbn [rbind].
  assert (∃ r, parse_client_queued dopacket lagged dead tags_changed run_deferred held q1 w = Ok r ∧
    if held then r = (q1, w)
    else queue_result dopacket lagged dead tags_changed run_deferred (bq_contents q ++ readbuf) w r)
    as ([q2 w2] & -> & Hr).
  { destruct held; [by eexists|]. rewrite <-Hc. by apply parse_client_queued_spec. }
  cbn [rbind].
  assert (if held then w2 = w ∧ bq_contents q2 = bq_contents q ++ readbuf
     else queue_result dopacket lagged dead tags_changed run_deferred
            (bq_contents q ++ readbuf) w (q2, w2)) as Hres.
  { destruct held; [by injection Hr as -> ->|done]. }
  destruct (dead w2) eqn:Ed; [eexists _, _, _, _; split; [done|]; by auto|].
  destruct (unknown w2) eqn:Eu, (Z.ltb_spec flood_amount (Z.of_nat (length (bq_contents q2)))); simpl;
    try (eexists _, _, _, _; split; [done|]; by auto).
  all: destruct (user w2) eqn:Eus,
    (Z.ltb_spec (if bot w2 then recvq * 8 else recvq) (Z.of_nat (length (bq_contents q2)))); simpl;
    eexists _, _, _, _; (split; [done|]); (split; [done|]); [by left|right..];
    (split; [done|]); (split; [done|]); (split; [done|]); (split; [intros; (done || congruence)|]); intros; (done || congruence).
Qed.

Lemma process_packet_witness :
  ∃ q' w' ret kill,
    process_packet (λ w l _, (w ++ [l], false)) (λ w, (2 <=? length w)%nat) (λ _, false) (λ _, false) (λ w, (w, false))
      false false (λ _, false) (λ _, true) (λ _, false) 1024 8000 dbuf_queue_init
      (bs "NICK a" ++ [CR; LF] ++ bs "USER b" ++ [LF] ++ bs "JOIN #c" ++ [LF]) [] =
      Ok (q', w', ret, kill) ∧ w' = [bs "NICK a"; bs "USER b"] ∧ ret = 1.
Proof.
  destruct (process_packet_correct (λ w l _, (w ++ [l], false)) (λ w, (2 <=? length w)%nat) (λ _, false) (λ _, false) (λ w, (w, false))
      false false (λ _, false) (λ _, true) (λ _, false) 1024 8000 dbuf_queue_init
      (bs "NICK a" ++ [CR; LF] ++ bs "USER b" ++ [LF] ++ bs "JOIN #c" ++ [LF]) ([] : list (list Z)))
    as (q' & w' & ret & kill & He & _).
  - exact (proj1 bq_new_spec).
  - discriminate.
  - vm_compute. reflexivity.
  - exists q', w', ret, kill. split; [exact He|]. vm_compute in He. injection He as _ <- <- _. done.
Defined.

(** ** Theory: dispatch *)

Record env_ok (e : env) (sp : spec) : Prop := {
  env_hash : hinv (e_hash e) sp;
  env_dom : ∀ c o, sp_clients sp !! c = Some o → is_Some (e_clients e !! c);
  env_users : ∀ c o s, sp_clients sp !! c = Some o → c_user o = Some s → cstr s;
  env_cmds : cmds_ok (e_cmds e);
  env_penalty : ∀ c, penalty_ok (e_penalty e c)
}.

(** Who may run a command. *)
Record command_allowed (from : pclient) (c : RealCommand) : Prop := {
  al_control : has (rc_flags c) CMD_CONTROL = IsControl from;
  al_unreg : IsControl from = false → IsRegistered from = false → has (rc_flags c) CMD_UNREGISTERED = true;
  al_shun : IsControl from = false → p_shunned from = true → has (rc_flags c) CMD_SHUN = true;
  al_virus : IsControl from = false → p_virus from = true → has (rc_flags c) CMD_VIRUS = true;
  al_user : IsUser from = true → has (rc_flags c) CMD_USER = true ∨ has (rc_flags c) CMD_OPER = true;
  al_oper : IsUser from = true → has (rc_flags c) CMD_OPER = true → p_oper from = true;
  al_server : IsServer from = true → has (rc_flags c) CMD_SERVER = true
}.

Lemma command_flags_has from :
  has (command_flags from) CMD_CONTROL = IsControl from ∧
  has (command_flags from) CMD_OPER = p_oper from ∧
  has (command_flags from) CMD_VIRUS = p_virus from ∧
  has (command_flags from) CMD_SHUN = p_shunned from ∧
  has (command_flags from) CMD_SERVER = IsServer from ∧
  has (command_flags from) CMD_USER = IsUser from ∧
  has (command_flags from) CMD_UNREGISTERED = negb (IsRegistered from).
Proof.
  unfold command_flags.
  destruct (IsControl from), (p_oper from), (p_virus from), (p_shunned from), (IsServer from),
    (IsUser from), (IsRegistered from); vm_compute; auto 10.
Qed.

Lemma allowed_from_checks cp from c :
  cmd_visible (command_flags from) c = true → access_check cp (command_flags from) c = None →
  command_allowed from c.
Proof.
  destruct (command_flags_has from) as (H1 & H2 & H3 & H4 & H5 & H6 & H7).
  unfold cmd_visible, access_check. rewrite H1, H2, H3, H4, H5, H6, H7.
  intros Hv Ha.
  assert ((IsUser from && negb (has (rc_flags c) CMD_USER) && negb (has (rc_flags c) CMD_OPER)) = false ∧
          (IsServer from && negb (has (rc_flags c) CMD_SERVER)) = false ∧
          (has (rc_flags c) CMD_OPER && IsUser from && negb (p_oper from)) = false) as (A1 & A2 & A3)
    by (repeat case_match; done).
  assert (has (rc_flags c) CMD_CONTROL = IsControl from ∧
    (IsControl from = false →
      (negb (IsRegistered from) && negb (has (rc_flags c) CMD_UNREGISTERED)) = false ∧
      (p_shunned from && negb (has (rc_flags c) CMD_SHUN)) = false ∧
      (p_virus from && negb (has (rc_flags c) CMD_VIRUS)) = false)) as [V1 V2].
  { destruct (IsControl from); [done|]. rewrite !andb_true_iff, !negb_true_iff in Hv. tauto. }
  constructor; [done|..]; try (intros Hc; destruct (V2 Hc) as (B1 & B2 & B3); clear - B1 B2 B3).
  - intros Hr. rewrite Hr in B1. by destruct (has (rc_flags c) CMD_UNREGISTERED).
  - intros Hr. rewrite Hr in B2. by destruct (has (rc_flags c) CMD_SHUN).
  - intros Hr. rewrite Hr in B3. by destruct (has (rc_flags c) CMD_VIRUS).
  - intros Hr. rewrite Hr in A1. destruct (has (rc_flags c) CMD_USER), (has (rc_flags c) CMD_OPER); auto.
  - intros Hr Ho. rewrite Hr, Ho in A3. by destruct (p_oper from).
  - intros Hr. rewrite Hr in A2. by destruct (has (rc_flags c) CMD_SERVER).
Qed.

Definition is_run (ev : event) : bool :=
  match ev with
  | RunCommand _ _ _ _ | RunOverride _ _ _ _ | RunAlias _ _ _ _ | DoNumeric _ _ _ => true
  | _ => false
  end.
Definition quiet (evs : list event) : Prop := Forall (λ ev, is_run ev = false) evs.

Lemma remove_unknown_quiet cp c s : quiet (remove_unknown cp c s).
Proof. unfold remove_unknown. repeat case_match; repeat constructor. Qed.
Lemma cancel_clients_quiet cp c f : quiet (cancel_clients cp c f).
Proof. unfold cancel_clients. repeat case_match; repeat constructor. Qed.
Lemma unknown_command_quiet cp c f from ch : quiet (unknown_command cp c f from ch).
Proof. unfold unknown_command. repeat case_match; repeat constructor. Qed.
Lemma access_check_quiet cp fl c ev : access_check cp fl c = Some ev → quiet ev.
Proof. unfold access_check. repeat case_match; intros [= <-]; repeat constructor. Qed.

Lemma cstr_tail s : cstr s → cstr (tail s).
Proof. destruct s; [done|]. by intros [_ ?]%cstr_cons_inv. Qed.
#[local] Hint Resolve cstr_drop_while cstr_take_while cstr_tail : obby.

(** The sender of a line: the connection itself, or, for a server, a client
    behind it. *)
Definition good_sender (e : env) (cp : nat) (cptr : pclient) (f : nat) : Prop :=
  ∃ from, e_clients e !! f = Some from ∧
    (f = cp ∨ IsServer cptr = true ∧ p_direction from = cp).

Lemma parse_sender_spec e sp cp cptr line :
  env_ok e sp → e_clients e !! cp = Some cptr → cstr line →
  ∃ o ev, parse_sender e cp cptr line = Ok (o, ev) ∧ quiet ev ∧
    match o with
    | Stop => True
    | Go (f, ch) => good_sender e cp cptr f ∧ cstr ch ∧ (length ch ≤ length line)%nat
    end.
Proof.
  intros [Hh Hd Hu Hc Hp] Hcp Hl. unfold parse_sender.
  assert (good_sender e cp cptr cp) as Hself by (exists cptr; auto).
  destruct ((deref line =? COLON) || (deref line =? AT)).
  2: { eexists _, _. split; [done|]. split; [constructor|]. auto. }
  set (sender := take HOSTLEN (take_while not_space (tail line))).
  set (rest := drop_while is_space (drop_while not_space (tail line))).
  assert (cstr sender) as Hs by (unfold sender; auto with obby).
  assert (cstr rest ∧ (length rest ≤ length line)%nat) as [Hr Hrl].
  { split; [unfold rest; auto with obby|]. unfold rest.
    pose proof (drop_while_length is_space (drop_while not_space (tail line))).
    pose proof (drop_while_length not_space (tail line)). destruct line; simpl in *; lia. }
  destruct (negb _ && IsServer cptr) eqn:Esrv.
  2: { eexists _, _. split; [done|]. split; [constructor|]. auto. }
  apply andb_true_iff in Esrv as [_ Esrv].
  pose proof (find_client_live (e_hash e) sp sender None) as Hlive.
  rewrite (find_client_spec _ sp) in * by done. cbn [rbind].
  match goal with |- context [or_def ?a ?b] => set (r := or_def a b) in * end.
  assert (∃ r', match r with
     | Some c => Ok (Some c)
     | None => if bool_decide (AT ∈ sender) then hash_find_nickatserver sender None (e_hash e) else Ok None
     end = Ok r' ∧ ∀ c, r' = Some c → is_Some (e_clients e !! c)) as (r' & -> & Hr').
  { destruct r as [c|].
    - exists (Some c). split; [done|]. intros ? [= <-].
      destruct (Hlive c Hh Hs eq_refl) as (o & _ & Ho). by eapply Hd.
    - case_bool_decide; [|by exists None].
      destruct (hash_find_nickatserver_live (e_hash e) sp sender Hh Hs Hu) as (r' & -> & Hr').
      exists r'. split; [done|]. intros c Hc'. destruct (Hr' c Hc') as [o Ho]. by eapply Hd. }
  cbn [rbind]. destruct r' as [f|].
  2: { eexists _, _. split; [done|]. split; [|done]. constructor; [done|apply remove_unknown_quiet]. }
  destruct (Hr' f eq_refl) as [from Hf]. unfold get_client, get_obj. rewrite Hf. cbn [rbind].
  destruct (Nat.eqb_spec (p_direction from) cp) as [Hdir|]; simpl.
  - eexists _, _. split; [done|]. split; [constructor|]. split; [|done]. exists from. auto.
  - eexists _, _. split; [done|]. split; [|done]. constructor; [done|apply cancel_clients_quiet].
Qed.

Lemma parse_command_spec e sp cp cptr f from mtags_bytes ch l :
  env_ok e sp → lag_ok l → cstr ch → (length ch ≤ Z.to_nat 16384)%nat → bytes_ok mtags_bytes →
  ∃ o l' ev, parse_command e cp cptr f from mtags_bytes ch l = Ok (o, l', ev) ∧ lag_ok l' ∧ quiet ev ∧
    match o with
    | Stop => True
    | Go d =>
        0 ≤ d_count d ≤ MAXPARA ∧
        (∀ s, d_args d = Some s → (length s ≤ length ch)%nat) ∧
        ∀ c, d_cmd d = Some c → registered (e_cmds e) c ∧ command_allowed from c
    end.
Proof.
  intros [Hh Hd Hu Hc Hp] Hl Hch Hlen Hmb. unfold parse_command.
  set (word := take_while not_space ch).
  set (rest := match drop_while not_space ch with [] => None | _ :: r => Some r end).
  assert (∀ s, rest = Some s → (length s ≤ length ch)%nat) as Hrest.
  { unfold rest. intros s. pose proof (drop_while_length not_space ch).
    destruct (drop_while not_space ch); intros [= <-]; simpl in *; lia. }
  assert (cstr word) as Hw by (unfold word; auto with obby).
  destruct (parse_addlag_spec cptr (e_immune e cp) (e_penalty e cp) (Z.of_nat (length ch)) mtags_bytes l
    Hl (Hp cp)) as (l' & m & -> & Hl' & _); [unfold bytes_ok; lia|done|].
  destruct (512 <? _).
  { eexists _, _, _. split; [done|]. split; [done|]. split; [|done]. by repeat constructor. }
  destruct (_ && forallb isdigit word).
  { eexists _, _, _. cbn [rbind]. split; [done|]. split; [done|]. split; [by repeat constructor|].
    unfold MAXPARA. simpl. split; [lia|]. done. }
  pose proof (find_exact (cmd_visible (command_flags from)) word (e_cmds e) Hc Hw) as Hf.
  fold (find_command word (command_flags from) (e_cmds e)) in Hf.
  destruct (find_command word (command_flags from) (e_cmds e)) as [c|].
  - destruct Hf as (Hreg & _ & Hvis).
    assert (∃ l1 m1, (if has (rc_flags c) CMD_NOLAG then Ok (l, 0) else Ok (l', m)) = Ok (l1, m1) ∧ lag_ok l1)
      as (l1 & m1 & -> & Hl1) by (destruct (has _ _); eauto).
    cbn [rbind]. destruct (access_check cp (command_flags from) c) as [ev|] eqn:Ea.
    + eexists _, _, _. split; [done|]. split; [done|]. split; [|done]. by eapply access_check_quiet.
    + eexists _, _, _. split; [done|]. split; [done|]. split; [by repeat constructor|]. simpl.
      destruct Hreg as [x Hx] eqn:Er. split; [by eapply (ok_params _ Hc)|]. split; [done|].
      intros ? [= <-]. split; [by exists x|]. by eapply allowed_from_checks.
  - cbn [rbind]. eexists _, _, _. split; [done|]. split; [done|]. split; [apply unknown_command_quiet|done].
Qed.

(** What must hold when a handler runs. *)
Record run_ok (e : env) (cp : nat) (cptr : pclient) (c : RealCommand) (f : nat)
    (ps : list (list Z)) : Prop := {
  run_registered : registered (e_cmds e) c;
  run_sender : good_sender e cp cptr f;
  run_allowed : ∀ from, e_clients e !! f = Some from → command_allowed from c;
  run_count : ∀ from, e_clients e !! f = Some from →
    Z.of_nat (length ps) ≤ if IsServer from then MAXPARA else MAXPARA_USER;
  run_length : IsServer cptr = false ∨ has (rc_flags c) CMD_BIGLINES = false →
    Forall (λ p, length p ≤ 510)%nat ps
}.

Definition run_of (ev : event) : option (RealCommand * nat * list (list Z)) :=
  match ev with
  | RunCommand c f ps _ | RunOverride c f ps _ | RunAlias c f ps _ => Some (c, f, ps)
  | _ => None
  end.

(** At most the last event runs something. *)
Definition one_run (evs : list event) : Prop :=
  quiet evs ∨ ∃ pre ev, evs = pre ++ [ev] ∧ quiet pre ∧ is_run ev = true.

Lemma quiet_app a b : quiet a → quiet b → quiet (a ++ b).
Proof. intros. by apply Forall_app. Qed.

Lemma quiet_no_run evs c f ps : quiet evs → ∀ ev, ev ∈ evs → run_of ev ≠ Some (c, f, ps).
Proof.
  intros Hq ev Hev. unfold quiet in Hq. rewrite Forall_forall in Hq. specialize (Hq ev Hev).
  by destruct ev.
Qed.

(** The parameters that are handed over. *)
Lemma params_ok (from : pclient) (d : dispatch) (ch : list Z) :
  0 ≤ d_count d ≤ MAXPARA →
  (∀ s, d_args d = Some s → (length s ≤ length ch)%nat) →
  let paramcount := if negb (IsServer from) && (MAXPARA_USER <? d_count d)
                    then MAXPARA_USER else d_count d in
  ∃ ps, match d_args d with Some s => split_params paramcount s | None => Ok [] end = Ok ps ∧
    Z.of_nat (length ps) ≤ (if IsServer from then MAXPARA else MAXPARA_USER) ∧
    Forall (λ p, length p ≤ length ch)%nat ps.
Proof.
  intros Hc Hs pc.
  destruct (d_args d) as [s|] eqn:Ea.
  2: { exists []. split; [done|]. split; [|constructor]. unfold MAXPARA, MAXPARA_USER. destruct (IsServer from); simpl; lia. }
  destruct (param_loop_spec (S (length s)) pc 0 s) as (ps & Hps & Hn & _ & Hp); [lia..|].
  exists ps. split; [exact Hps|]. split.
  - unfold pc in Hn. rewrite Z.sub_0_r in Hn. unfold MAXPARA, MAXPARA_USER in *.
    destruct (IsServer from); simpl in Hn; [lia|]. destruct (Z.ltb_spec 15 (d_count d)); lia.
  - apply Forall_forall. intros p Hin. specialize (Hp p Hin). specialize (Hs s eq_refl). lia.
Qed.

(** What [dispatch_safe] promises of a result. *)
Definition safe_outcome (e : env) (cp : nat) (cptr : pclient) (r : res (lag * list event)) : Prop :=
  ∃ l evs, r = Ok (l, evs) ∧ lag_ok l ∧ one_run evs ∧
    ∀ ev c f ps, ev ∈ evs → run_of ev = Some (c, f, ps) → run_ok e cp cptr c f ps.

Lemma safe_quiet e cp cptr l evs :
  lag_ok l → quiet evs → safe_outcome e cp cptr (Ok (l, evs)).
Proof.
  intros Hl Hq. exists l, evs. split; [done|]. split; [done|]. split; [by left|].
  intros ev c f ps Hev Hr. by destruct (quiet_no_run evs c f ps Hq ev Hev).
Qed.

Lemma safe_run e cp cptr l pre run :
  lag_ok l → quiet pre → is_run run = true →
  (∀ c f ps, run_of run = Some (c, f, ps) → run_ok e cp cptr c f ps) →
  safe_outcome e cp cptr (Ok (l, pre ++ [run])).
Proof.
  intros Hl Hq Hr Hok. exists l, (pre ++ [run]). split; [done|]. split; [done|].
  split; [right; by eexists _, _|]. intros ev c f ps Hev He.
  apply elem_of_app in Hev as [Hev|Hev]; [by destruct (quiet_no_run _ c f ps Hq ev Hev)|].
  apply list_elem_of_singleton in Hev as ->. by apply Hok.
Qed.

(** The lengths of the parameters after the cut. *)
Lemma cut_params (cptr : pclient) (ch : list Z) (big : bool) (ps : list (list Z)) :
  Forall (λ p, length p ≤ length ch)%nat ps →
  (IsServer cptr = false → (length ch ≤ 510)%nat) →
  let ps' := if IsServer cptr && (510 <? Z.of_nat (length ch)) && negb big
             then map (take 510) ps else ps in
  length ps' = length ps ∧
  (IsServer cptr = false ∨ big = false → Forall (λ p, length p ≤ 510)%nat ps').
Proof.
  intros Hp Hcut ps'. unfold ps'. split; [destruct (_ && _); by rewrite ?length_map|].
  intros Hbig. rewrite Forall_forall in Hp.
  destruct (IsServer cptr) eqn:Es; simpl.
  - destruct Hbig as [?| ->]; [done|]. simpl. rewrite andb_true_r.
    destruct (Z.ltb_spec 510 (Z.of_nat (length ch))).
    + apply Forall_map, Forall_forall. intros p Hin. simpl. rewrite length_take. lia.
    + apply Forall_forall. intros p Hin. specialize (Hp p Hin). lia.
  - apply Forall_forall. intros p Hin. specialize (Hp p Hin). specialize (Hcut eq_refl). lia.
Qed.

(** The cut at 510 bytes of what is not from a server. *)
Lemma cut_line (cptr : pclient) (line : list Z) :
  cstr line →
  let line1 := if negb (IsServer cptr) && (510 <? Z.of_nat (length line)) then take 510 line else line in
  cstr line1 ∧ (length line1 ≤ length line)%nat ∧ (IsServer cptr = false → (length line1 ≤ 510)%nat).
Proof.
  intros Hcs line1. unfold line1. destruct (IsServer cptr); simpl; [done|].
  destruct (Z.ltb_spec 510 (Z.of_nat (length line))); rewrite ?length_take.
  - split; [auto with obby|]. split; lia.
  - split; [done|]. split; lia.
Qed.

Lemma execute_safe e cp cptr f from mtags ch d l evs :
  e_clients e !! f = Some from → good_sender e cp cptr f → lag_ok l → (length ch ≤ Z.to_nat 16384)%nat →
  (IsServer cptr = false → (length ch ≤ 510)%nat) → quiet evs →
  0 ≤ d_count d ≤ MAXPARA ∧ (∀ s, d_args d = Some s → (length s ≤ length ch)%nat) ∧
    (∀ c, d_cmd d = Some c → registered (e_cmds e) c ∧ command_allowed from c) →
  safe_outcome e cp cptr (execute e cp cptr f from mtags ch d l evs).
Proof.
  intros Hf Hdir Hl Hlen Hcut Hq (Hcnt & Hargs & Hcmd). unfold execute.
  destruct (params_ok from d ch Hcnt Hargs) as (ps & -> & Hn & Hp). cbn [rbind].
  destruct (Z.ltb_spec (Z.of_nat (length ps) + 1) (MAXPARA + 2)) as [_|Hbad];
    [|exfalso; unfold MAXPARA, MAXPARA_USER in *; destruct (IsServer from); lia].
  cbn [require rbind].
  destruct (cut_params cptr ch (match d_cmd d with Some c => has (rc_flags c) CMD_BIGLINES | None => false end)
    ps Hp Hcut) as [Hlen' Hbig].
  destruct (_ && e_spam_mtags _ _ _ _); [by apply safe_quiet|].
  match goal with |- context [if ?b then map (take 510) ps else ps] =>
    set (ps' := if b then map (take 510) ps else ps) in * end. clearbody ps'.
  destruct (d_cmd d) as [c|] eqn:Ec; [|by apply safe_run].
  destruct (Hcmd c eq_refl) as [Hreg Hall]. rewrite !app_assoc. apply safe_run; [done|..].
  - repeat apply quiet_app; try done; [by repeat constructor|..]; repeat case_match; by repeat constructor.
  - by repeat case_match.
  - intros c' f' ps1 Hr. assert (c' = c ∧ f' = f ∧ ps1 = ps') as (-> & -> & ->)
      by (repeat case_match; by simplify_eq/=).
    constructor; [done|done| | |exact Hbig]; intros from' ?; simplify_eq; [done|by rewrite Hlen'].
Qed.

(** C1.  Dispatch.  On a consistent server state [parse2] handles every line
    without undefined behaviour and keeps the fake lag well-formed.  At most one
    handler runs, last.  When a command handler runs, the command is registered;
    its source is the connection itself or, on a server link only, a client that
    is reached through that link, so that no one can speak for others; the source
    is allowed to use it: commands for the control channel only there, before
    registration only commands for that phase, shunned and virus-tagged clients
    only theirs, users only commands for users or, if operators, for operators,
    servers only server commands; it gets at most 15 parameters from a client and
    30 from a server, each at most 510 bytes unless a server sends a command that
    takes big lines. *)
Theorem dispatch_safe e sp cp cptr mtags mtags_bytes line l :
  env_ok e sp → e_clients e !! cp = Some cptr → cstr line →
  (length line ≤ Z.to_nat 16384)%nat → bytes_ok mtags_bytes → lag_ok l →
  safe_outcome e cp cptr (parse2 e cp mtags mtags_bytes line l).
Proof.
  intros He Hcp Hcs Hlen Hmb Hl. unfold parse2. unfold get_client at 1, get_obj. rewrite Hcp. cbn [rbind].
  destruct (cut_line cptr line Hcs) as (Hc1 & Hl1 & Hcut).
  match goal with |- context [parse_sender e cp cptr ?x] => set (line1 := x) in * end. clearbody line1.
  destruct (parse_sender_spec e sp cp cptr line1 He Hcp Hc1) as (o & ev1 & -> & Hq1 & Ho). cbn [rbind].
  destruct o as [[f ch]|]; [|by apply safe_quiet]. destruct Ho as ((from & Hf & Hdir) & Hch & Hchl).
  unfold get_client, get_obj. rewrite Hf. cbn [rbind].
  destruct (e_pre_command e f ch); [by apply safe_quiet|].
  destruct (deref ch =? 0); [apply safe_quiet; [destruct (IsServer cptr); done|done]|].
  destruct (parse_command_spec e sp cp cptr f from mtags_bytes ch l He Hl Hch ltac:(lia) Hmb)
    as (o & l2 & ev2 & -> & Hl2 & Hq2 & Ho). cbn [rbind].
  destruct o as [d|]; [|apply safe_quiet; [done|by apply quiet_app]].
  apply execute_safe; [done|by exists from|done|lia| |by apply quiet_app|exact Ho].
  intros Hs. specialize (Hcut Hs). lia.
Qed.

Definition demo_link : pclient :=
  PClient (bs "irc.one") CLIENT_STATUS_SERVER true 2 false false false false None.
Definition demo_env (st : hstate) : env :=
  Env (<[2%nat := demo_link]> {[1%nat := PClient (bs "alice") CLIENT_STATUS_USER false 2 false false false false None]})
    st init_CommandHash (λ _, false) (λ _, false) (λ _, (1000, 90)) (λ _ _, false) (λ _ _ _, false).

Lemma demo_env_ok : ∃ st, env_ok (demo_env st) demo_spec.
Proof.
  destruct demo_state_inv as (st & _ & Hi). exists st. constructor; [done|..].
  - intros c o Ho. cbn [sp_clients demo_spec] in Ho.
    apply lookup_insert_Some in Ho as [[<- _]|[_ Ho]]; [by eexists|].
    apply lookup_singleton_Some in Ho as [<- _]. by eexists.
  - intros c o s Ho Hs. cbn [sp_clients demo_spec] in Ho.
    apply lookup_insert_Some in Ho as [[_ <-]|[_ Ho]]; [done|].
    apply lookup_singleton_Some in Ho as [_ <-]. injection Hs as <-.
    apply (bool_decide_unpack _); vm_compute; reflexivity.
  - apply init_CommandHash_ok.
  - intros c. split; simpl; lia.
Qed.

Lemma dispatch_safe_witness :
  ∃ st l' evs, parse2 (demo_env st) 2 [] 0 (bs ":001AAAAAA VERSION :irc.one") (Lag 100 0) = Ok (l', evs) ∧
    lag_ok l' ∧ one_run evs.
Proof.
  destruct demo_env_ok as [st He]. exists st.
  destruct (dispatch_safe (demo_env st) demo_spec 2 demo_link [] 0 (bs ":001AAAAAA VERSION :irc.one")
    (Lag 100 0) He) as (l' & evs & H1 & H2 & H3 & _).
  - reflexivity.
  - apply (bool_decide_unpack _); vm_compute; exact I.
  - apply (bool_decide_unpack _); vm_compute; exact I.
  - split; lia.
  - split; simpl; lia.
  - exists l', evs. split; [exact H1|]. split; [exact H2|exact H3].
Defined.

(** The guard against oversized command names looks at the distance to the
    first space, and takes it to be 0 when there is none: a name of 600
    characters is cut when a parameter follows it and is not when it stands
    alone. *)
Lemma oversized_command_guard st :
  let e := demo_env st in
  let name := replicate (Z.to_nat 600) 65 in
  parse_command e 2 demo_link 2 demo_person 0 (name ++ bs " x") (Lag 0 0) =
    Ok (Stop, Lag 0 0, [SendUnknownCommand 2 (take 510 name); StatUnco]) ∧
  parse_command e 2 demo_link 2 demo_person 0 name (Lag 0 0) =
    Ok (Stop, Lag 0 0, [SendUnknownCommand 2 name; StatUnco]).
Proof. split; vm_compute; reflexivity. Qed.

(** What was queued behind STARTTLS is not handled. *)
Lemma starttls_empties :
  let run := process_packet (λ w l _, (w ++ [l], bool_decide (l = bs "STARTTLS"))) (λ _, false) (λ _, false) (λ _, false) (λ w, (w, false))
    false false (λ _, true) (λ _, false) (λ _, false) 1024 8000 dbuf_queue_init
    (bs "CAP LS" ++ [LF] ++ bs "STARTTLS" ++ [LF] ++ bs "NICK a" ++ [LF]) [] in
  ∃ q, run = Ok (q, [bs "CAP LS"; bs "STARTTLS"], 1, None) ∧ bq_contents q = [].
Proof. eexists. split; vm_compute; reflexivity. Qed.

(** The documentation of [process_packet] says that it may call
    [exit_client] when [killsafely] is 1 and marks the socket dead when it is
    0; the code does the opposite. *)
Lemma killsafely_inverted :
  let flood k := process_packet (λ (w : unit) _ _, (w, false)) (λ _, false) (λ _, false) (λ _, false) (λ w, (w, false))
    true k (λ _, false) (λ _, true) (λ _, false) 10 3 dbuf_queue_init (bs "abcdef") () in
  (∃ q, flood true = Ok (q, (), 0, Some KDeadSocket)) ∧
  (∃ q, flood false = Ok (q, (), 0, Some KExitClient)).
Proof. split; eexists; vm_compute; reflexivity. Qed.
