(* ===== verification/Operclass.v ===== *)
(** * Operator permissions (src/operclass.c, and the operclass block of
    src/conf.c)

    An operclass is a tree of ACLs that is built from the configuration; a
    permission is a path such as kill:global.  The validators that modules may
    register form a tree of path nodes. *)

From stdpp Require Import base tactics list numbers strings gmap.
From Stdlib Require Import ZArith Lia.
From S2P Require Import Prelude Chars Support.

Local Open Scope Z_scope.

Inductive OperClassEntryType := OPERCLASSENTRY_ALLOW | OPERCLASSENTRY_DENY.
Inductive OperPermission := OPER_ALLOW | OPER_DENY.
#[global] Instance OperClassEntryType_eq_dec : EqDecision OperClassEntryType.
Proof. solve_decision. Defined.
#[global] Instance OperPermission_eq_dec : EqDecision OperPermission.
Proof. solve_decision. Defined.

Abbreviation variables := (list (list Z * option (list Z))).

Record OperClassACLEntry := ACLEntry {
  e_variables : variables;
  e_type : OperClassEntryType
}.

Inductive OperClassACL :=
| ACL (name : list Z) (entries : list OperClassACLEntry) (acls : list OperClassACL).
Definition acl_name (a : OperClassACL) : list Z := let '(ACL n _ _) := a in n.
Definition acl_entries (a : OperClassACL) : list OperClassACLEntry := let '(ACL _ e _) := a in e.
Definition acl_acls (a : OperClassACL) : list OperClassACL := let '(ACL _ _ s) := a in s.

Record OperClass := MkOperClass {
  oc_ISA : option (list Z);
  oc_name : list Z;
  oc_acls : list OperClassACL
}.

(** ** From the configuration *)

Inductive ConfigEntry :=
| CfgEntry (name : list Z) (value : option (list Z)) (items : list ConfigEntry).
Definition ce_name (c : ConfigEntry) : list Z := let '(CfgEntry n _ _) := c in n.
Definition ce_value (c : ConfigEntry) : option (list Z) := let '(CfgEntry _ v _) := c in v.
Definition ce_items (c : ConfigEntry) : list ConfigEntry := let '(CfgEntry _ _ i) := c in i.

(** [!strcmp(a, b)]. *)
Definition streq (a b : list Z) : bool := bool_decide (a = b).

(** [AddListItem] puts each new item first. *)
Definition conf_parseACLEntry (ce : ConfigEntry) : OperClassACLEntry :=
  ACLEntry
    (foldl (λ vars cep, (ce_name cep, ce_value cep) :: vars) [] (ce_items ce))
    (if streq (ce_name ce) (bs "allow") then OPERCLASSENTRY_ALLOW else OPERCLASSENTRY_DENY).

Fixpoint conf_parseACL (name : list Z) (ce : ConfigEntry) : OperClassACL :=
  let '(CfgEntry _ _ items) := ce in
  let fix go (items : list ConfigEntry) (entries : list OperClassACLEntry) (acls : list OperClassACL)
      : OperClassACL :=
    match items with
    | [] => ACL name entries acls
    | cep :: r =>
        if streq (ce_name cep) (bs "deny") || streq (ce_name cep) (bs "allow")
        then go r (conf_parseACLEntry cep :: entries) acls
        else go r entries (conf_parseACL (ce_name cep) cep :: acls)
    end in
  go items [] [].

(** [_conf_operclass]; a later parent directive replaces an earlier one. *)
Definition conf_operclass (ce : ConfigEntry) (conf_operclass : list OperClass) : res (list OperClass) :=
  match ce_value ce with
  | None => UB
  | Some name =>
      let oc := foldl (λ oc cep,
          if streq (ce_name cep) (bs "parent") then
            MkOperClass (ce_value cep) (oc_name oc) (oc_acls oc)
          else if streq (ce_name cep) (bs "permissions") then
            MkOperClass (oc_ISA oc) (oc_name oc)
              (foldl (λ acls cepp, conf_parseACL (ce_name cepp) cepp :: acls) (oc_acls oc) (ce_items cep))
          else oc)
        (MkOperClass None name []) (ce_items ce) in
      Ok (oc :: conf_operclass)
  end.

(** [find_operclass] and [find_oper]; a NULL name finds nothing. *)
Definition find_operclass (name : option (list Z)) (classes : list OperClass) : option OperClass :=
  match name with
  | None => None
  | Some n => List.find (λ c, streq n (oc_name c)) classes
  end.
Definition find_oper (name : option (list Z)) (opers : list (list Z * list Z))
  : option (list Z * list Z) :=
  match name with
  | None => None
  | Some n => List.find (λ o, streq n o.1) opers
  end.

(** ** Paths *)

(** The second loop of [OperClass_parsePath]: it walks the list that
    [AddListItem] built back to front and turns every node around; [prev] is
    what the nodes before [l] have become. *)
Fixpoint turn_around (prev l : list (list Z)) : list (list Z) :=
  match l with
  | [] => prev
  | x :: r => turn_around (x :: prev) r
  end.

(** [strtok] with a colon gives the same tokens as [strtoken].  A path without
    any token makes the second loop dereference NULL. *)
Definition OperClass_parsePath (path : list Z) : res (list (list Z)) :=
  let! toks := Strtoken.strtoken_all [COLON] path in
  let pathHead := foldl (λ l t, t :: l) [] toks in
  match pathHead with
  | [] => UB
  | _ => Ok (turn_around [] pathHead)
  end.

(** ** Validators *)

(** Who asks, about whom, where: opaque to this file. *)
Record OperClassCheckParams := CheckParams {
  cp_client : nat; cp_victim : option nat; cp_channel : option nat; cp_extra : option (list Z)
}.
Definition callback : Type := variables → OperClassCheckParams → Z.

(** The identifier of the root node is NULL. *)
Inductive OperClassPathNode :=
| PathNode (identifier : option (list Z)) (children : list OperClassPathNode) (callbacks : list callback).
Definition pn_children (n : OperClassPathNode) := let '(PathNode _ c _) := n in c.
Definition pn_callbacks (n : OperClassPathNode) := let '(PathNode _ _ b) := n in b.

(** A pointer into a sibling list is the rest of that list, NULL its end. *)
Fixpoint OperClass_findPathNodeForIdentifier (identifier : list Z) (head : list OperClassPathNode)
  : res (list OperClassPathNode) :=
  match head with
  | [] => Ok []
  | PathNode None _ _ :: _ => UB  (* strcmp of a NULL pointer *)
  | PathNode (Some i) c b :: r =>
      if streq i identifier then Ok head else OperClass_findPathNodeForIdentifier identifier r
  end.

(** The walk of [OperClassAddValidator] down the tree, creating what is
    missing, and the callback put first at its end. *)
Fixpoint add_callback (fuel : nat) (path : list (list Z)) (cb : callback) (node : OperClassPathNode)
  : res OperClassPathNode :=
  let '(PathNode i children callbacks) := node in
  match fuel, path with
  | O, _ => NoFuel
  | S _, [] => Ok (PathNode i children (cb :: callbacks))
  | S f, p :: rest =>
      let! found := OperClass_findPathNodeForIdentifier p children in
      match found with
      | [] =>
          let! n := add_callback f rest cb (PathNode (Some p) [] []) in
          Ok (PathNode i (n :: children) callbacks)
      | n :: after =>
          let! n' := add_callback f rest cb n in
          Ok (PathNode i (take (length children - length found) children ++ n' :: after) callbacks)
      end
  end.

(** [rootEvalNode] is a list of at most one node. *)
Definition OperClassAddValidator (pathStr : list Z) (cb : callback) (root : list OperClassPathNode)
  : res (list OperClassPathNode) :=
  let! path := OperClass_parsePath pathStr in
  let root := match root with [] => PathNode None [] [] | n :: _ => n end in
  let! n := add_callback (S (length path)) path cb root in
  Ok [n].

(** ** Evaluation *)

Definition OperClass_FindACL (acl : list OperClassACL) (name : list Z) : option OperClassACL :=
  List.find (λ a, streq (acl_name a) name) acl.

(** The loop that goes as deep as possible, and the callbacks at the end. *)
Fixpoint eval_walk (vars : variables) (params : OperClassCheckParams)
    (path : list (list Z)) (node : list OperClassPathNode) : res Z :=
  match path with
  | [] => UB
  | [_] =>
      match node with
      | [] => UB  (* node->callbacks of NULL *)
      | n :: _ => Ok (foldl (λ _ cb, cb vars params) 0 (pn_callbacks n))
      end
  | p :: rest =>
      match node with
      | [] => Ok 0
      | _ =>
          let! found := OperClass_findPathNodeForIdentifier p node in
          match found with
          | [] => Ok 0
          | n :: _ => eval_walk vars params rest (pn_children n)
          end
      end
  end.

Definition OperClass_evaluateACLEntry (root : list OperClassPathNode) (entry : OperClassACLEntry)
    (path : list (list Z)) (params : OperClassCheckParams) : res Z :=
  match e_variables entry with
  | [] => Ok 1
  | vars => eval_walk vars params path root
  end.

(** Descend into the ACLs: the deepest one, and [aclNotFound]. *)
Fixpoint acl_walk (path : list (list Z)) (acl : OperClassACL) : OperClassACL * bool :=
  match path with
  | [] => (acl, false)
  | p :: rest =>
      match acl_acls acl with
      | [] => (acl, false)
      | _ =>
          match OperClass_FindACL (acl_acls acl) p with
          | None => (acl, true)
          | Some tmp => acl_walk rest tmp
          end
      end
  end.

Fixpoint eval_entries (root : list OperClassPathNode) (entries : list OperClassACLEntry)
    (path : list (list Z)) (params : OperClassCheckParams) (allow deny : Z) : res (Z * Z) :=
  match entries with
  | [] => Ok (allow, deny)
  | e :: r =>
      if bool_decide (e_type e = OPERCLASSENTRY_ALLOW) && negb (allow =? 0)
      then eval_entries root r path params allow deny
      else if bool_decide (e_type e = OPERCLASSENTRY_DENY) && negb (deny =? 0)
      then eval_entries root r path params allow deny
      else
        let! result := OperClass_evaluateACLEntry root e path params in
        if decide (e_type e = OPERCLASSENTRY_ALLOW)
        then eval_entries root r path params result deny
        else eval_entries root r path params allow result
  end.

(** The decision at the ACL the walk ended at. *)
Definition acl_decide (root : list OperClassPathNode) (path : list (list Z))
    (params : OperClassCheckParams) (acl : OperClassACL) (aclNotFound : bool) : res OperPermission :=
  if negb (bool_decide (acl_acls acl = [])) && aclNotFound then Ok OPER_DENY
  else match acl_entries acl with
  | [] => Ok OPER_ALLOW
  | entries =>
      let! (allow, deny) := eval_entries root entries path params 0 0 in
      Ok (if negb (allow =? 0) && (deny =? 0) then OPER_ALLOW else OPER_DENY)
  end.

Definition ValidatePermissionsForPathEx (root : list OperClassPathNode) (acl : OperClassACL)
    (path : list (list Z)) (params : OperClassCheckParams) : res OperPermission :=
  match path with
  | [] => UB
  | _ :: rest =>
      let '(acl, aclNotFound) := acl_walk rest acl in acl_decide root path params acl aclNotFound
  end.

(** What [ValidatePermissionsForPath] reads of a client. *)
Record oclient := OClient {
  o_id : nat;
  o_server : bool;             (* IsServer *)
  o_me : bool;                 (* IsMe *)
  o_uline : bool;              (* IsULine *)
  o_oper : bool;               (* IsOper *)
  o_myuser : bool;             (* MyUser *)
  o_operlogin : option (list Z);
  o_moddata : option (list Z)  (* moddata_client_get(client, "operclass") *)
}.

Record opconf := OpConf {
  opers : list (list Z * list Z);       (* oper blocks: name and operclass *)
  classes : list OperClass;
  root_node : list OperClassPathNode
}.

(** One turn of the loop over the class and its parents. *)
Definition perm_body (cf : opconf) (operPath : list (list Z)) (params : OperClassCheckParams)
    (s : OperClass * Z) : res (step (OperClass * Z) OperPermission) :=
  let '(oc, looping) := s in
  match operPath with
  | [] => Ok (Done OPER_DENY)
  | p :: _ =>
      let acl := OperClass_FindACL (oc_acls oc) p in
      if 10 <? looping then Ok (Done OPER_DENY)
      else match acl with
      | Some a =>
          let! perm := ValidatePermissionsForPathEx (root_node cf) a operPath params in
          Ok (Done perm)
      | None =>
          match oc_ISA oc with
          | None => Ok (Done OPER_DENY)
          | Some isa =>
              match find_operclass (Some isa) (classes cf) with
              | Some oc' => Ok (Next (oc', looping + 1))
              | None => Ok (Done OPER_DENY)
              end
          end
      end
  end.

(** The fuel is the limit of the code's own counter, and one more. *)
Definition PERM_FUEL : nat := 13.

Definition ValidatePermissionsForPath (cf : opconf) (path : list Z) (client : option oclient)
    (victim channel : option nat) (extra : option (list Z)) : res OperPermission :=
  match client with
  | None => Ok OPER_DENY
  | Some c =>
      if o_server c || o_me c || o_uline c || (o_oper c && negb (o_myuser c)) then Ok OPER_ALLOW
      else if negb (o_oper c) then Ok OPER_DENY
      else
        let operclass := match find_oper (o_operlogin c) (opers cf) with
                         | None => o_moddata c
                         | Some o => Some o.2
                         end in
        match find_operclass operclass (classes cf) with
        | None => Ok OPER_DENY
        | Some oc =>
            let! operPath := OperClass_parsePath path in
            loop (perm_body cf operPath (CheckParams (o_id c) victim channel extra)) PERM_FUEL (oc, 0)
        end
  end.

(** ** Theory *)

Lemma turn_around_rev prev l : turn_around prev l = rev l ++ prev.
Proof.
  revert prev. induction l as [|x l IH]; intros prev; [done|]. simpl. by rewrite IH, <-app_assoc.
Qed.

Lemma foldl_cons_rev {A} (ts : list A) l : foldl (λ l t, t :: l) l ts = rev ts ++ l.
Proof.
  revert l. induction ts as [|t ts IH]; intros l; [done|]. simpl. by rewrite IH, <-app_assoc.
Qed.

(** The components of a path, in order. *)
Definition path_of (path : list Z) : list (list Z) :=
  base.filter (λ t, Strtoken.nonempty t) (Strtoken.split [COLON] path).

Lemma parsePath_spec path :
  OperClass_parsePath path = match path_of path with [] => UB | p => Ok p end.
Proof.
  unfold OperClass_parsePath. rewrite Strtoken.strtoken_all_split. cbn [rbind]. fold (path_of path).
  rewrite foldl_cons_rev, app_nil_r. destruct (path_of path) as [|p ps] eqn:E; [done|].
  destruct (rev (p :: ps)) as [|x l] eqn:Er.
  - apply (f_equal length) in Er. rewrite length_rev in Er. done.
  - rewrite turn_around_rev, app_nil_r, <-Er, rev_involutive. done.
Qed.

(** ** Entries with variables *)

(** Every tree that [OperClassAddValidator] builds: no node yet, or a root
    without identifier whose callbacks belong to no path. *)
Definition root_ok (root : list OperClassPathNode) : Prop :=
  root = [] ∨ ∃ children, root = [PathNode None children []].

Lemma add_callback_root fuel path cb i children cbs n :
  add_callback fuel path cb (PathNode i children cbs) = Ok n → path ≠ [] →
  ∃ children', n = PathNode i children' cbs.
Proof.
  destruct fuel as [|fuel]; [by destruct path|]. destruct path as [|p rest]; [done|]. intros H _.
  cbn [add_callback] in H. apply rbind_Ok in H as (found & _ & H). destruct found as [|x after].
  - apply rbind_Ok in H as (m & _ & [= <-]). eauto.
  - apply rbind_Ok in H as (m & _ & [= <-]). eauto.
Qed.

Lemma AddValidator_root pathStr cb root root' :
  root_ok root → OperClassAddValidator pathStr cb root = Ok root' → root_ok root'.
Proof.
  intros Hr. unfold OperClassAddValidator. rewrite parsePath_spec.
  destruct (path_of pathStr) as [|p ps] eqn:E; [done|]. cbn [rbind]. intros H.
  apply rbind_Ok in H as (n & Hn & [= <-]). right.
  assert (∃ children, match root with [] => PathNode None [] [] | n :: _ => n end = PathNode None children [])
    as [ch Hch] by (destruct Hr as [->|[c ->]]; eauto).
  rewrite Hch in Hn. apply add_callback_root in Hn as [ch' ->]; [eauto|done].
Qed.

Lemma evaluate_variables root entry path params :
  root_ok root → e_variables entry ≠ [] →
  OperClass_evaluateACLEntry root entry path params =
    match root, path with
    | _, [] => UB
    | [], [_] => UB
    | [], _ => Ok 0
    | _, [_] => Ok 0
    | _, _ => UB
    end.
Proof.
  intros Hr Hv. unfold OperClass_evaluateACLEntry. destruct (e_variables entry) as [|v vs]; [done|].
  destruct Hr as [->|[ch ->]]; destruct path as [|p [|p' rest]]; done.
Qed.

(** An ACL entry with variables can never match: whatever validators
    modules have registered, its evaluation gives 0 or dereferences NULL, and
    without validators it dereferences NULL for every permission whose path has
    a single component.  (The walk starts by comparing the identifier of the
    root node, which is NULL, instead of those of its children.) *)
Theorem acl_variables_never_match validators root entry path params :
  foldl (λ r '(p, cb), let! root := r in OperClassAddValidator p cb root) (Ok []) validators = Ok root →
  e_variables entry ≠ [] →
  (OperClass_evaluateACLEntry root entry path params = Ok 0 ∨
   OperClass_evaluateACLEntry root entry path params = UB) ∧
  (validators = [] → length path = 1%nat → OperClass_evaluateACLEntry root entry path params = UB).
Proof.
  intros Hroot Hv.
  assert (∀ vs r0 r, root_ok r0 →
    foldl (λ r '(p, cb), let! root := r in OperClassAddValidator p cb root) (Ok r0) vs = Ok r → root_ok r) as Hfold.
  { induction vs as [|[p cb] vs IH]; intros r0 r Hr0; simpl; [by intros [= <-]|].
    destruct (OperClassAddValidator p cb r0) as [r1| |] eqn:E; simpl.
    - apply IH. by eapply AddValidator_root.
    - assert (∀ vs, foldl (λ r '(p, cb), let! root := r in OperClassAddValidator p cb root) UB vs = UB) as ->; [|done].
      induction vs0 as [|[??] ? IHv]; [done|]. simpl. done.
    - assert (∀ vs, foldl (λ r '(p, cb), let! root := r in OperClassAddValidator p cb root) NoFuel vs = NoFuel) as ->; [|done].
      induction vs0 as [|[??] ? IHv]; [done|]. simpl. done. }
  assert (root_ok root) as Hr by (eapply Hfold; [|exact Hroot]; by left).
  rewrite evaluate_variables by done. split.
  - repeat case_match; auto.
  - intros -> Hl. simpl in Hroot. injection Hroot as <-. by destruct path as [|? [|? ?]].
Qed.

Lemma acl_variables_witness :
  let entry := ACLEntry [(bs "channel", Some (bs "#x"))] OPERCLASSENTRY_ALLOW in
  let params := CheckParams 1 None None None in
  (OperClass_evaluateACLEntry [] entry [bs "relaymsg"] params = Ok 0 ∨
   OperClass_evaluateACLEntry [] entry [bs "relaymsg"] params = UB) ∧
  OperClass_evaluateACLEntry [] entry [bs "relaymsg"] params = UB.
Proof.
  intros entry params.
  destruct (acl_variables_never_match [] [] entry [bs "relaymsg"] params) as [H1 H2];
    [reflexivity|discriminate|]. split; [exact H1|]. apply H2; reflexivity.
Defined.

(** ** Permissions *)

(** ACLs without variables, all the way down. *)
Inductive plain_acl : OperClassACL → Prop :=
| plain_acl_intro n es subs :
    Forall (λ e, e_variables e = []) es → Forall plain_acl subs → plain_acl (ACL n es subs).

(** The entries of an ACL permit when there are none, or an allow and no deny. *)
Definition has_type (t : OperClassEntryType) (es : list OperClassACLEntry) : bool :=
  existsb (λ e, bool_decide (e_type e = t)) es.
Definition entries_permit (es : list OperClassACLEntry) : Prop :=
  es = [] ∨ (has_type OPERCLASSENTRY_ALLOW es = true ∧ has_type OPERCLASSENTRY_DENY es = false).

(** An ACL permits the rest of a path: the most specific ACL decides; one
    that lists sub-permissions permits none that it does not list. *)
Inductive permits : OperClassACL → list (list Z) → Prop :=
| permits_here a rest :
    acl_acls a = [] ∨ rest = [] → entries_permit (acl_entries a) → permits a rest
| permits_sub a p rest b :
    acl_acls a ≠ [] → OperClass_FindACL (acl_acls a) p = Some b → permits b rest →
    permits a (p :: rest).

Lemma eval_entries_plain root es path params : ∀ allow deny,
  Forall (λ e, e_variables e = []) es →
  ∃ a d, eval_entries root es path params allow deny = Ok (a, d) ∧
    (a =? 0) = (allow =? 0) && negb (has_type OPERCLASSENTRY_ALLOW es) ∧
    (d =? 0) = (deny =? 0) && negb (has_type OPERCLASSENTRY_DENY es).
Proof.
  induction es as [|e es IH]; intros allow deny He; cbn [eval_entries].
  { exists allow, deny. simpl. by rewrite !andb_true_r. }
  apply Forall_cons in He as [Hv He]. unfold has_type in *. cbn [existsb].
  unfold OperClass_evaluateACLEntry. rewrite Hv. cbn [rbind].
  destruct (e_type e) eqn:Et; simpl;
    [destruct (allow =? 0) eqn:Ea; simpl;
      [destruct (IH 1 deny He) as (a & d & -> & H1 & H2)|destruct (IH allow deny He) as (a & d & -> & H1 & H2)]
    |destruct (deny =? 0) eqn:Ea; simpl;
      [destruct (IH allow 1 He) as (a & d & -> & H1 & H2)|destruct (IH allow deny He) as (a & d & -> & H1 & H2)]];
    exists a, d; (split; [done|]); rewrite H1, H2, ?Ea; done.
Qed.

Lemma FindACL_plain acls name b :
  Forall plain_acl acls → OperClass_FindACL acls name = Some b → plain_acl b.
Proof.
  intros H E. apply find_some in E as [E _]. rewrite <-list_elem_of_In in E.
  rewrite Forall_forall in H. auto.
Qed.

(** The deepest ACL decides by its entries. *)
Lemma acl_decide_spec root a path params nf :
  plain_acl a → acl_acls a = [] ∨ nf = false →
  ∃ r, acl_decide root path params a nf = Ok r ∧ (r = OPER_ALLOW ↔ entries_permit (acl_entries a)).
Proof.
  intros Ha Hnf. unfold acl_decide, entries_permit.
  replace (negb (bool_decide (acl_acls a = [])) && nf) with false.
  2: { destruct Hnf as [->| ->]; by rewrite ?andb_false_r. }
  destruct Ha as [n es subs Hes _]. cbn [acl_entries].
  destruct es as [|e es]; [by eexists; split; [done|]; split; auto|].
  destruct (eval_entries_plain root (e :: es) path params 0 0 Hes) as (x & d & -> & Hx & Hd). cbn [rbind].
  eexists. split; [done|]. rewrite Hx, Hd.
  destruct (has_type OPERCLASSENTRY_ALLOW (e :: es)), (has_type OPERCLASSENTRY_DENY (e :: es)); simpl;
    (split; [intros ?; first [by right|done]|intros [?|[??]]; done]).
Qed.

Lemma acl_walk_spec root path params rest a :
  plain_acl a →
  ∃ r, (let '(acl, nf) := acl_walk rest a in acl_decide root path params acl nf) = Ok r ∧
    (r = OPER_ALLOW ↔ permits a rest).
Proof.
  revert a. induction rest as [|q rest IH]; intros a Ha; cbn [acl_walk].
  - destruct (acl_decide_spec root a path params false Ha) as (r & -> & Hr); [by right|].
    exists r. split; [done|]. rewrite Hr. split; [intros He; apply permits_here; auto|by inversion 1].
  - destruct (acl_acls a) as [|s subs] eqn:Es.
    + destruct (acl_decide_spec root a path params false Ha) as (r & -> & Hr); [by left|].
      exists r. split; [done|]. rewrite Hr. split; [intros He; apply permits_here; auto|].
      inversion 1; [done|]. by rewrite Es in *.
    + rewrite <-Es. destruct (OperClass_FindACL (acl_acls a) q) as [b|] eqn:Ef.
      * assert (plain_acl b) as Hb.
        { destruct Ha as [n es ss _ Hss]. by eapply FindACL_plain. }
        destruct (IH b Hb) as (r & -> & Hr). exists r. split; [done|]. rewrite Hr. split.
        -- intros Hp. eapply permits_sub; [by rewrite Es|done|done].
        -- inversion 1 as [? ? [H1|H1]|]; simplify_eq; [by rewrite Es in H1|done].
      * unfold acl_decide. rewrite bool_decide_eq_false_2 by (by rewrite Es). simpl. eexists. split; [done|].
        split; [done|]. inversion 1 as [? ? [H1|H1]|]; simplify_eq. by rewrite Es in H1.
Qed.

(** The class, or one of its first ten ancestors, that has an ACL for the
    first component. *)
Inductive resolves (cf : opconf) (p : list Z) : nat → OperClass → OperClassACL → Prop :=
| resolves_here n oc a :
    OperClass_FindACL (oc_acls oc) p = Some a → resolves cf p n oc a
| resolves_parent n oc isa oc' a :
    OperClass_FindACL (oc_acls oc) p = None → oc_ISA oc = Some isa →
    find_operclass (Some isa) (classes cf) = Some oc' → resolves cf p n oc' a →
    resolves cf p (S n) oc a.

Definition plain_conf (cf : opconf) : Prop :=
  Forall (λ oc, Forall plain_acl (oc_acls oc)) (classes cf).

Lemma find_operclass_plain cf name oc :
  plain_conf cf → find_operclass name (classes cf) = Some oc → Forall plain_acl (oc_acls oc).
Proof.
  intros H E. destruct name as [n|]; [|done]. simpl in E. apply find_some in E as [E _].
  rewrite <-list_elem_of_In in E. unfold plain_conf in H. rewrite Forall_forall in H. auto.
Qed.

Lemma perm_loop_spec cf p rest params : plain_conf cf → ∀ n fuel oc,
  (n < fuel)%nat → (n ≤ 11)%nat → Forall plain_acl (oc_acls oc) →
  ∃ r, loop (perm_body cf (p :: rest) params) fuel (oc, 11 - Z.of_nat n) = Ok r ∧
    (r = OPER_ALLOW ↔ ∃ m a, n = S m ∧ resolves cf p m oc a ∧ permits a rest).
Proof.
  intros Hcf n. induction n as [|n IH]; intros fuel oc Hf Hn Hoc; (destruct fuel as [|fuel]; [lia|]);
    cbn [loop perm_body].
  { simpl. eexists. split; [done|]. split; [done|]. by intros (m & a & ? & _). }
  destruct (Z.ltb_spec 10 (11 - Z.of_nat (S n))); [lia|].
  destruct (OperClass_FindACL (oc_acls oc) p) as [a|] eqn:Ea.
  { assert (plain_acl a) as Ha by (by eapply FindACL_plain).
    destruct (acl_walk_spec (root_node cf) (p :: rest) params rest a Ha) as (r & Hw & Hr).
    unfold ValidatePermissionsForPathEx. rewrite Hw. cbn [rbind]. exists r. split; [done|]. rewrite Hr. split.
    - intros Hp. exists n, a. split; [done|]. split; [by constructor|done].
    - intros (m & b & _ & Hres & Hp). inversion Hres; simplify_eq. done. }
  destruct (oc_ISA oc) as [isa|] eqn:Ei.
  2: { eexists. split; [done|]. split; [done|]. intros (m & b & _ & Hres & _). inversion Hres; simplify_eq. }
  destruct (find_operclass (Some isa) (classes cf)) as [oc'|] eqn:Eo.
  2: { eexists. split; [done|]. split; [done|]. intros (m & b & _ & Hres & _). inversion Hres; simplify_eq. }
  replace (11 - Z.of_nat (S n) + 1) with (11 - Z.of_nat n) by lia.
  destruct (IH fuel oc' ltac:(lia) ltac:(lia)) as (r & -> & Hr); [by eapply find_operclass_plain|].
  exists r. split; [done|]. rewrite Hr. split.
  - intros (m & a & -> & Hres & Hp). exists (S m), a. split; [done|]. split; [|done].
    by eapply resolves_parent.
  - intros (m & a & [= <-] & Hres & Hp). inversion Hres as [|m' ? ? ? ? ? ? ? Hres']; simplify_eq.
    by exists m', a.
Qed.

(** Clients that are trusted without a lookup. *)
Definition trusted (c : oclient) : bool :=
  o_server c || o_me c || o_uline c || (o_oper c && negb (o_myuser c)).
(** The operclass of a local operator. *)
Definition oper_class (cf : opconf) (c : oclient) : option OperClass :=
  find_operclass (match find_oper (o_operlogin c) (opers cf) with
                  | None => o_moddata c | Some o => Some o.2 end) (classes cf).

(** C32.  Permissions.  For operclasses without variables and a path with at
    least one component the check always returns, also when operclasses are
    each other's parents, and grants the permission exactly to: trusted
    clients (servers, U-lines, operators of other servers); and local operators
    for whose class, or the nearest of up to ten ancestors that has an ACL for
    the first component, the most specific ACL along the path permits: it has
    no entries, or an allow and no deny, and does not list sub-permissions
    that exclude the one asked for. *)
Theorem ValidatePermissionsForPath_correct cf path p rest c victim channel extra :
  plain_conf cf → path_of path = p :: rest →
  ∃ r, ValidatePermissionsForPath cf path (Some c) victim channel extra = Ok r ∧
    (r = OPER_ALLOW ↔
       trusted c = true ∨
       o_oper c = true ∧ ∃ oc a, oper_class cf c = Some oc ∧ resolves cf p 10 oc a ∧ permits a rest).
Proof.
  intros Hcf Hpath. unfold ValidatePermissionsForPath. fold (trusted c).
  destruct (trusted c) eqn:Et; [by eexists; split; [done|]; split; auto|].
  destruct (o_oper c) eqn:Eo; simpl negb; cbv iota.
  2: { eexists. split; [done|]. split; [done|]. intros [?|[??]]; done. }
  fold (oper_class cf c). destruct (oper_class cf c) as [oc|] eqn:Ec.
  2: { eexists. split; [done|]. split; [done|]. intros [?|(_ & ? & ? & ? & _)]; done. }
  rewrite parsePath_spec, Hpath. cbn [rbind].
  destruct (perm_loop_spec cf p rest (CheckParams (o_id c) victim channel extra) Hcf 11 PERM_FUEL oc)
    as (r & Hl & Hr); [unfold PERM_FUEL; lia|lia|by eapply find_operclass_plain|].
  exists r. split; [exact Hl|]. rewrite Hr. split.
  - intros (m & a & [= <-] & Hres & Hp). right. split; [done|]. eauto.
  - intros [?|(_ & oc' & a & [= <-] & Hres & Hp)]; [done|]. exists 10%nat, a. auto.
Qed.

Definition demo_block : ConfigEntry :=
  CfgEntry (bs "operclass") (Some (bs "netadmin"))
    [CfgEntry (bs "permissions") None
       [CfgEntry (bs "kill") None [CfgEntry (bs "global") None []]; CfgEntry (bs "immune") None []]].
Definition demo_conf : opconf :=
  OpConf [(bs "alice", bs "netadmin")]
    (match conf_operclass demo_block [] with Ok l => l | _ => [] end) [].
Definition demo_oper : oclient := OClient 1 false false false true true (Some (bs "alice")) None.

Lemma ValidatePermissions_witness :
  ∃ r, ValidatePermissionsForPath demo_conf (bs "immune:lag") (Some demo_oper) None None None = Ok r ∧
    (r = OPER_ALLOW ↔
       trusted demo_oper = true ∨
       o_oper demo_oper = true ∧ ∃ oc a, oper_class demo_conf demo_oper = Some oc ∧
         resolves demo_conf (bs "immune") 10 oc a ∧ permits a [bs "lag"]) ∧
    r = OPER_ALLOW.
Proof.
  destruct (ValidatePermissionsForPath_correct demo_conf (bs "immune:lag") (bs "immune") [bs "lag"]
    demo_oper None None None) as (r & He & Hr).
  - repeat constructor.
  - vm_compute. reflexivity.
  - exists r. split; [exact He|]. split; [exact Hr|]. vm_compute in He. by injection He as <-.
Defined.
