(* ===== verification/Fdlist.v ===== *)
(** * File descriptors (src/fdlist.c, and the epoll backend of src/dispatch.c)

    The table of open descriptors with their callbacks, and the set of
    descriptors that the kernel watches.  [epoll_ctl] belongs to the kernel: it
    is modelled by its documented effect on that set, and whether it succeeds is
    a parameter.  A callback is known by its address. *)

From stdpp Require Import base tactics list numbers strings gmap.
From Stdlib Require Import ZArith Lia.
From S2P Require Import Prelude Support.

Local Open Scope Z_scope.

Definition FD_DESC_SZ : nat := 100.
Definition FD_SELECT_READ : Z := 1.
Definition FD_SELECT_WRITE : Z := 2.
Definition EPOLLIN : Z := 1.
Definition EPOLLOUT : Z := 4.
Definition EPOLLERR : Z := 8.
Definition EPOLLHUP : Z := 16.

Inductive FDCloseMethod := FDCLOSE_SOCKET | FDCLOSE_FILE | FDCLOSE_NONE.
#[global] Instance FDCloseMethod_eq_dec : EqDecision FDCloseMethod.
Proof. solve_decision. Defined.

Record FDEntry := FDE {
  fde_fd : Z;
  fde_desc : list Z;
  fde_read : option nat;
  fde_write : option nat;
  fde_data : nat;
  fde_open : bool;
  fde_method : FDCloseMethod;
  fde_backend : Z
}.

(** [memset(fde, 0, sizeof(FDEntry))]; FDCLOSE_SOCKET is 0. *)
Definition zero_entry : FDEntry := FDE 0 [] None None 0 false FDCLOSE_SOCKET 0.

Inductive epoll_op := EPOLL_CTL_ADD | EPOLL_CTL_MOD | EPOLL_CTL_DEL.

Record fdstate := FDS {
  fd_table : gmap Z FDEntry;     (* entries that were never touched are zero *)
  watched : gmap Z Z             (* the kernel's interest list: events per descriptor *)
}.
Definition entry (st : fdstate) (fd : Z) : FDEntry := default zero_entry (fd_table st !! fd).
Definition set_entry (st : fdstate) (fd : Z) (e : FDEntry) : fdstate :=
  FDS (<[fd := e]> (fd_table st)) (watched st).

Section Fd.
Variable MAXCONNECTIONS : Z.
Variable epoll_ctl_ok : epoll_op → Z → bool.

Definition in_range (fd : Z) : bool := negb ((fd <? 0) || (MAXCONNECTIONS <=? fd)).

(** What the kernel does. *)
Definition epoll_ctl (op : epoll_op) (fd events : Z) (w : gmap Z Z) : gmap Z Z :=
  match op with
  | EPOLL_CTL_ADD | EPOLL_CTL_MOD => <[fd := events]> w
  | EPOLL_CTL_DEL => delete fd w
  end.
(** Closing a descriptor removes it from every interest list. *)
Definition os_close (fd : Z) (w : gmap Z Z) : gmap Z Z := delete fd w.

(** [fd_refresh] of the epoll backend. *)
Definition fd_refresh (fd : Z) (st : fdstate) : fdstate :=
  let fde := entry st fd in
  let pflags := Z.lor (match fde_read fde with Some _ => EPOLLIN | None => 0 end)
                      (match fde_write fde with Some _ => EPOLLOUT | None => 0 end) in
  let op := if (pflags =? 0) && (fde_backend fde =? 0) then None
            else if pflags =? 0 then Some EPOLL_CTL_DEL
            else if (fde_backend fde =? 0) && negb (pflags =? 0) then Some EPOLL_CTL_ADD
            else if negb (fde_backend fde =? pflags) then Some EPOLL_CTL_MOD
            else None in
  match op with
  | None => st
  | Some op =>
      if epoll_ctl_ok op fd then
        FDS (<[fd := FDE (fde_fd fde) (fde_desc fde) (fde_read fde) (fde_write fde) (fde_data fde)
                       (fde_open fde) (fde_method fde) pflags]> (fd_table st))
            (epoll_ctl op fd pflags (watched st))
      else st
  end.

Definition fd_setselect_real (fd flags : Z) (iocb : option nat) (data : nat) (st : fdstate) : fdstate :=
  if negb (in_range fd) then st else
  let fde := entry st fd in
  let rd := negb (Z.land flags FD_SELECT_READ =? 0) && bool_decide (fde_read fde ≠ iocb) in
  let wr := negb (Z.land flags FD_SELECT_WRITE =? 0) && bool_decide (fde_write fde ≠ iocb) in
  let st := set_entry st fd
    (FDE (fde_fd fde) (fde_desc fde) (if rd then iocb else fde_read fde)
         (if wr then iocb else fde_write fde) data (fde_open fde) (fde_method fde) (fde_backend fde)) in
  if rd || wr then fd_refresh fd st else st.

(** The result of the C function is returned first. *)
Definition fd_open (fd : Z) (desc : list Z) (close_method : FDCloseMethod) (st : fdstate) : Z * fdstate :=
  if negb (in_range fd) then (-1, st)
  else (fd, set_entry st fd
              (FDE fd (fst (Strl.strlcpy [] desc FD_DESC_SZ)) None None 0 true close_method 0)).

Definition fd_close (fd : Z) (st : fdstate) : Z * fdstate :=
  if negb (in_range fd) then (0, st) else
  let fde := entry st fd in
  if negb (fde_open fde) then (0, st) else
  let befl := fde_backend fde in
  let st := set_entry st fd (FDE fd [] None None 0 false FDCLOSE_SOCKET 0) in
  let st := if negb (befl =? 0) then fd_refresh fd st else st in
  (1, match fde_method fde with
      | FDCLOSE_SOCKET | FDCLOSE_FILE => FDS (fd_table st) (os_close fd (watched st))
      | FDCLOSE_NONE => st
      end).

Definition fd_unnotify (fd : Z) (st : fdstate) : fdstate :=
  if negb (in_range fd) then st else
  let fde := entry st fd in
  if negb (fde_open fde) then st else
  fd_refresh fd (set_entry st fd
    (FDE (fde_fd fde) (fde_desc fde) None None (fde_data fde) (fde_open fde) (fde_method fde) (fde_backend fde))).

Definition fd_desc (fd : Z) (desc : list Z) (st : fdstate) : fdstate :=
  if negb (in_range fd) then st else
  let fde := entry st fd in
  if negb (fde_open fde) then st else
  set_entry st fd
    (FDE (fde_fd fde) (fst (Strl.strlcpy (fde_desc fde) desc FD_DESC_SZ)) (fde_read fde) (fde_write fde)
         (fde_data fde) (fde_open fde) (fde_method fde) (fde_backend fde)).

(** [socket] and [accept] give a descriptor, or a negative number. *)
Definition fd_socket (fd : Z) (desc : list Z) (st : fdstate) : Z * fdstate :=
  if fd <? 0 then (-1, st) else fd_open fd desc FDCLOSE_SOCKET st.
Definition fd_accept (fd : Z) (st : fdstate) : Z * fdstate :=
  if fd <? 0 then (-1, st) else fd_open fd (bs "Incoming connection") FDCLOSE_SOCKET st.

(** [fd_select] on the events that [epoll_wait] returned, each with the
    descriptor of its entry; [run] calls a callback. *)
Section Select.
Variable run : nat → Z → Z → nat → fdstate → fdstate.

Definition select_one (st : fdstate) (ev : Z * Z) : fdstate :=
  let '(fd0, revents) := ev in
  if revents =? 0 then st else
  let fd := fde_fd (entry st fd0) in
  let evflags := Z.lor
    (if negb (Z.land revents (Z.lor EPOLLIN (Z.lor EPOLLHUP EPOLLERR)) =? 0) then FD_SELECT_READ else 0)
    (if negb (Z.land revents (Z.lor EPOLLOUT (Z.lor EPOLLHUP EPOLLERR)) =? 0) then FD_SELECT_WRITE else 0) in
  let st := if negb (Z.land evflags FD_SELECT_READ =? 0) then
              match fde_read (entry st fd0) with
              | Some cb => run cb fd evflags (fde_data (entry st fd0)) st
              | None => st
              end else st in
  if negb (Z.land evflags FD_SELECT_WRITE =? 0) then
    match fde_write (entry st fd0) with
    | Some cb => run cb fd evflags (fde_data (entry st fd0)) st
    | None => st
    end else st.

Definition fd_select (events : list (Z * Z)) (st : fdstate) : fdstate := foldl select_one st events.
End Select.

(** ** Theory *)

Definition interest (e : FDEntry) : Z :=
  Z.lor (match fde_read e with Some _ => EPOLLIN | None => 0 end)
        (match fde_write e with Some _ => EPOLLOUT | None => 0 end).

(** The kernel watches a descriptor exactly for the events that have a
    callback, and the entry knows it. *)
Record in_sync (st : fdstate) (fd : Z) : Prop := {
  sync_flags : fde_backend (entry st fd) = interest (entry st fd);
  sync_kernel : watched st !! fd = if interest (entry st fd) =? 0 then None else Some (interest (entry st fd))
}.

Lemma entry_set st fd fd' e : entry (set_entry st fd e) fd' = if decide (fd = fd') then e else entry st fd'.
Proof. unfold entry, set_entry. simpl. case_decide; subst; by rewrite ?lookup_insert_eq, ?lookup_insert_ne. Qed.

Lemma fd_refresh_other fd fd' st :
  fd ≠ fd' → entry (fd_refresh fd st) fd' = entry st fd' ∧ watched (fd_refresh fd st) !! fd' = watched st !! fd'.
Proof.
  intros Hne. unfold fd_refresh.
  match goal with |- context [match ?o with None => st | Some _ => _ end] => destruct o as [op|] end; [|done].
  destruct (epoll_ctl_ok op fd); [|done]. unfold entry. simpl. split; [by rewrite lookup_insert_ne|].
  destruct op; simpl; by rewrite ?lookup_insert_ne, ?lookup_delete_ne.
Qed.

Hypothesis ctl_succeeds : ∀ op fd, epoll_ctl_ok op fd = true.

(** [fd_refresh] brings a descriptor back in sync when the entry knows what
    the kernel watches. *)
Lemma fd_refresh_sync fd st :
  watched st !! fd = (if fde_backend (entry st fd) =? 0 then None else Some (fde_backend (entry st fd))) →
  in_sync (fd_refresh fd st) fd ∧
  fde_read (entry (fd_refresh fd st) fd) = fde_read (entry st fd) ∧
  fde_write (entry (fd_refresh fd st) fd) = fde_write (entry st fd) ∧
  fde_open (entry (fd_refresh fd st) fd) = fde_open (entry st fd).
Proof using ctl_succeeds.
  intros Hk. unfold fd_refresh. fold (interest (entry st fd)).
  set (p := interest (entry st fd)). set (b := fde_backend (entry st fd)) in *.
  assert (∀ e w, entry (FDS (<[fd := e]> (fd_table st)) w) fd = e) as He.
  { intros e w. unfold entry. simpl. by rewrite lookup_insert_eq. }
  destruct (Z.eqb_spec p 0) as [Ep|Ep], (Z.eqb_spec b 0) as [Eb|Eb]; simpl; rewrite ?ctl_succeeds.
  - split; [|done]. constructor; fold p; fold b; [lia|]. rewrite Ep. simpl. done.
  - split; [|by rewrite He]. constructor; rewrite He; unfold interest; simpl; fold (interest (entry st fd)); fold p;
      [done|]. rewrite Ep. simpl. by rewrite lookup_delete_eq.
  - split; [|by rewrite He]. constructor; rewrite He; unfold interest; simpl; fold (interest (entry st fd)); fold p;
      [done|]. destruct (Z.eqb_spec p 0); [done|]. by rewrite lookup_insert_eq.
  - destruct (Z.eqb_spec b p) as [Ebp|Ebp]; simpl; rewrite ?ctl_succeeds.
    + split; [|done]. constructor; fold p; fold b; [done|]. rewrite Hk. destruct (Z.eqb_spec p 0); [done|].
      by rewrite Ebp.
    + split; [|by rewrite He]. constructor; rewrite He; unfold interest; simpl; fold (interest (entry st fd)); fold p;
        [done|]. destruct (Z.eqb_spec p 0); [done|]. by rewrite lookup_insert_eq.
Qed.

Inductive fdop :=
| FOpen (fd : Z) (desc : list Z) (m : FDCloseMethod)
| FClose (fd : Z)
| FSelect (fd flags : Z) (cb : option nat) (data : nat)
| FUnnotify (fd : Z)
| FDesc (fd : Z) (desc : list Z).

Definition fd_step (st : fdstate) (op : fdop) : fdstate :=
  match op with
  | FOpen fd desc m => (fd_open fd desc m st).2
  | FClose fd => (fd_close fd st).2
  | FSelect fd flags cb data => fd_setselect_real fd flags cb data st
  | FUnnotify fd => fd_unnotify fd st
  | FDesc fd desc => fd_desc fd desc st
  end.

(** How the rest of the server uses the table: it opens descriptors that the
    system has just given out, sets callbacks on open ones, and stops watching
    a descriptor before it closes one that is not really closed. *)
Definition fd_legal (st : fdstate) (op : fdop) : Prop :=
  match op with
  | FOpen fd _ _ => fde_open (entry st fd) = false
  | FSelect fd _ _ _ => fde_open (entry st fd) = true
  | FClose fd => fde_method (entry st fd) = FDCLOSE_NONE → interest (entry st fd) = 0
  | _ => True
  end.

Record fd_inv (st : fdstate) : Prop := {
  inv_sync : ∀ fd, in_sync st fd;
  inv_closed : ∀ fd, fde_open (entry st fd) = false → interest (entry st fd) = 0
}.

Lemma sync_known st fd :
  in_sync st fd →
  watched st !! fd = (if fde_backend (entry st fd) =? 0 then None else Some (fde_backend (entry st fd))).
Proof. intros [Hf Hk]. by rewrite Hf. Qed.

Lemma sync_ext st st' fd :
  entry st' fd = entry st fd → watched st' !! fd = watched st !! fd → in_sync st fd → in_sync st' fd.
Proof. intros He Hw [Hf Hk]. constructor; by rewrite ?He, ?Hw. Qed.

(** Changing one entry and refreshing it keeps the invariant. *)
Lemma fd_inv_refresh st fd e :
  fd_inv st → fde_open e = fde_open (entry st fd) → fde_backend e = fde_backend (entry st fd) →
  (fde_open e = false → interest e = 0) → fd_inv (fd_refresh fd (set_entry st fd e)).
Proof using ctl_succeeds.
  intros [Hs Hc] Ho Hb Hi.
  assert (entry (set_entry st fd e) fd = e) as He by (rewrite entry_set; by rewrite decide_True).
  destruct (fd_refresh_sync fd (set_entry st fd e)) as (H1 & H2 & H3 & H4).
  { rewrite He, Hb. exact (sync_known st fd (Hs fd)). }
  rewrite He in *. split; intros fd'; (destruct (decide (fd = fd')) as [<-|Hne]; [done || idtac|]).
  - destruct (fd_refresh_other fd fd' (set_entry st fd e) Hne) as [Ha Hw].
    apply (sync_ext st); [by rewrite Ha, entry_set, decide_False|by rewrite Hw|done].
  - intros Hop. rewrite H4 in Hop. specialize (Hi Hop). unfold interest in *. by rewrite H2, H3.
  - destruct (fd_refresh_other fd fd' (set_entry st fd e) Hne) as [Ha Hw].
    rewrite Ha, entry_set, decide_False by done. apply Hc.
Qed.

(** Changing an entry without touching what is watched. *)
Lemma fd_inv_set st fd e :
  fd_inv st → interest e = interest (entry st fd) → fde_backend e = fde_backend (entry st fd) →
  (fde_open e = false → interest e = 0) → fd_inv (set_entry st fd e).
Proof.
  intros [Hs Hc] Hi Hb Ho. split; intros fd'; [|rewrite entry_set; case_decide; subst; auto].
  destruct (Hs fd') as [Hf Hk]. constructor; rewrite entry_set; case_decide; subst; simpl; try done;
    by rewrite ?Hi, ?Hb.
Qed.

Lemma fd_step_inv st op : fd_inv st → fd_legal st op → fd_inv (fd_step st op).
Proof using ctl_succeeds.
  intros Hinv Hlegal. pose proof Hinv as [Hs Hc].
  destruct op as [fd desc m|fd|fd flags cb data|fd|fd desc]; simpl in *.
  - unfold fd_open. destruct (negb (in_range fd)); simpl; [done|]. apply fd_inv_set; [done|..|done].
    + rewrite Hc by done. done.
    + destruct (Hs fd) as [-> _]. rewrite Hc by done. done.
  - unfold fd_close. destruct (negb (in_range fd)); simpl; [done|].
    destruct (fde_open (entry st fd)) eqn:Eo; simpl; [|done].
    set (e := FDE fd [] None None 0 false FDCLOSE_SOCKET 0).
    assert (∀ b : bool, (if b then fd_refresh fd (set_entry st fd e) else set_entry st fd e) = set_entry st fd e) as ->.
    { intros b. destruct b; [|done]. unfold fd_refresh. by rewrite entry_set, decide_True. }
    assert (∀ w, watched st !! fd = None ∨ w = delete fd (watched st) →
      (∀ fd', fd ≠ fd' → w !! fd' = watched st !! fd') →
      (watched st !! fd = None → w !! fd = None) → fd_inv (FDS (fd_table (set_entry st fd e)) w)) as Hclose.
    { intros w Hw1 Hw2 Hw3. split; intros fd'.
      - destruct (decide (fd = fd')) as [<-|Hne].
        + constructor; (replace (entry _ fd) with e by (unfold entry; simpl; by rewrite lookup_insert_eq)); [done|].
          simpl. destruct Hw1 as [Hw1| ->]; [auto|by rewrite lookup_delete_eq].
        + apply (sync_ext st); [unfold entry; simpl; by rewrite lookup_insert_ne|by apply Hw2|done].
      - unfold entry. simpl. destruct (decide (fd = fd')) as [<-|Hne];
          [by rewrite lookup_insert_eq|]. rewrite lookup_insert_ne by done. apply Hc. }
    destruct (fde_method (entry st fd)) eqn:Em.
    1,2: apply Hclose; [by right|intros fd' Hne; by apply lookup_delete_ne|intros _; by apply lookup_delete_eq].
    apply (Hclose (watched st)); [left|done|done].
    destruct (Hs fd) as [_ ->]. by rewrite Hlegal.
  - unfold fd_setselect_real. destruct (negb (in_range fd)); [done|].
    set (rd := negb (Z.land flags FD_SELECT_READ =? 0) && bool_decide (fde_read (entry st fd) ≠ cb)).
    set (wr := negb (Z.land flags FD_SELECT_WRITE =? 0) && bool_decide (fde_write (entry st fd) ≠ cb)).
    destruct (rd || wr) eqn:Erw.
    + apply fd_inv_refresh; [done|done|done|]. simpl. congruence.
    + apply orb_false_iff in Erw as [-> ->]. apply fd_inv_set; [done|done|done|]. simpl. congruence.
  - unfold fd_unnotify. destruct (negb (in_range fd)); [done|].
    destruct (fde_open (entry st fd)) eqn:Eo; simpl; [|done]. by apply fd_inv_refresh.
  - unfold fd_desc. destruct (negb (in_range fd)); [done|].
    destruct (fde_open (entry st fd)) eqn:Eo; simpl; [|done]. by apply fd_inv_set.
Qed.

Inductive fd_reachable : fdstate → Prop :=
| fd_start : fd_reachable (FDS ∅ ∅)
| fd_more st op : fd_reachable st → fd_legal st op → fd_reachable (fd_step st op).

Lemma fd_reachable_inv st : fd_reachable st → fd_inv st.
Proof using ctl_succeeds.
  induction 1 as [|st op _ IH Hl]; [|by apply fd_step_inv].
  split; intros fd; [constructor|]; unfold entry; simpl; by rewrite ?lookup_empty.
Qed.
End Fd.

(** Watching descriptors.  In every state that the server reaches, as
    long as [epoll_ctl] succeeds and a descriptor that is not really closed is
    first unwatched, the kernel watches each descriptor exactly for the events
    that have a callback, nothing for closed ones; closing succeeds exactly for
    open descriptors in range, and a second close fails. *)
Theorem fd_watch_in_sync MAXCONNECTIONS ok st fd :
  (∀ op fd, ok op fd = true) → fd_reachable MAXCONNECTIONS ok st →
  watched st !! fd =
    (if fde_open (entry st fd) && negb (interest (entry st fd) =? 0)
     then Some (interest (entry st fd)) else None) ∧
  ((fd_close MAXCONNECTIONS ok fd st).1 = 1 ↔ 0 ≤ fd < MAXCONNECTIONS ∧ fde_open (entry st fd) = true) ∧
  (fd_close MAXCONNECTIONS ok fd (fd_close MAXCONNECTIONS ok fd st).2).1 = 0.
Proof.
  intros Hok Hr. pose proof (fd_reachable_inv _ _ Hok _ Hr) as [Hs Hc]. split; [|split].
  - destruct (Hs fd) as [_ ->]. destruct (fde_open (entry st fd)) eqn:Eo; simpl.
    + by destruct (interest (entry st fd) =? 0).
    + rewrite Hc by done. done.
  - unfold fd_close, in_range. destruct (Z.ltb_spec fd 0), (Z.leb_spec MAXCONNECTIONS fd); simpl; try lia.
    destruct (fde_open (entry st fd)); simpl; split; (done || lia).
  - unfold fd_close at 1. destruct (negb (in_range MAXCONNECTIONS fd)) eqn:Er; [done|].
    assert (fde_open (entry (fd_close MAXCONNECTIONS ok fd st).2 fd) = false) as ->; [|done].
    unfold fd_close. rewrite Er. destruct (fde_open (entry st fd)) eqn:Eo; simpl; [|done].
    set (st1 := set_entry st fd _).
    assert (fde_open (entry st1 fd) = false) as H1 by (unfold st1; rewrite entry_set; by rewrite decide_True).
    assert (fd_refresh ok fd st1 = st1) as Href
      by (unfold fd_refresh, st1; by rewrite entry_set, decide_True).
    rewrite Href. destruct (negb (fde_backend (entry st fd) =? 0)), (fde_method (entry st fd)); done.
Qed.

Lemma fd_watch_in_sync_witness :
  let ok := λ (_ : epoll_op) (_ : Z), true in
  let st := fd_step 1024 ok (fd_step 1024 ok (FDS ∅ ∅) (FOpen 5 (bs "client") FDCLOSE_SOCKET))
              (FSelect 5 FD_SELECT_READ (Some 7%nat) 3) in
  watched st !! 5 = Some EPOLLIN ∧ (fd_close 1024 ok 5 (fd_close 1024 ok 5 st).2).1 = 0.
Proof.
  intros ok st.
  assert (fd_reachable 1024 ok st) as Hr by (repeat (apply fd_more; [|reflexivity]); apply fd_start).
  destruct (fd_watch_in_sync 1024 ok st 5 ltac:(reflexivity) Hr) as (H1 & _ & H3).
  split; [rewrite H1; reflexivity|exact H3].
Defined.

(** When [fd_close] tells the backend about a descriptor it has already cleared
    the flags that say what is watched, so the backend does nothing: a descriptor
    of which only the entry is dropped (FDCLOSE_NONE) stays watched, for an entry
    that is closed. *)
Lemma fd_close_leaves_watched :
  let ok := λ (_ : epoll_op) (_ : Z), true in
  let st := fd_step 1024 ok (fd_step 1024 ok (FDS ∅ ∅) (FOpen 5 (bs "DNS Resolver Socket") FDCLOSE_NONE))
              (FSelect 5 FD_SELECT_READ (Some 7%nat) 3) in
  let st' := fd_step 1024 ok st (FClose 5) in
  fde_open (entry st' 5) = false ∧ watched st' !! 5 = Some EPOLLIN.
Proof. split; vm_compute; reflexivity. Qed.
