(* ===== verification/Badwords.v ===== *)
(** * Bad words (src/match.c, and [our_strcasestr] of src/misc.c)

    The fast routines for words with an optional asterisk at either end: how a
    word of the configuration is classified, whether a line contains it, and how
    it is replaced.  A pointer into the line is an index. *)

From stdpp Require Import base tactics list numbers strings sets.
From Stdlib Require Import ZArith Lia.
From S2P Require Import Prelude Chars.

Local Open Scope Z_scope.

Record badword := BadWord {
  b_word : list Z;
  b_left : bool;                 (* type & BADW_TYPE_FAST_L *)
  b_right : bool;                (* type & BADW_TYPE_FAST_R *)
  b_replace : option (list Z)
}.
Definition REPLACEWORD : list Z := bs "<censored>".

(** The C library's [strncasecmp]. *)
Fixpoint strncasecmp (a b : list Z) (n : nat) : Z :=
  match n with
  | O => 0
  | S n' =>
      let d := tolower (deref a) - tolower (deref b) in
      if d =? 0 then
        match a, b with
        | _ :: a', _ :: b' => strncasecmp a' b' n'
        | _, _ => 0
        end
      else d
  end.

(** The loop [for (i = 0; i <= hlength - nlength; i++)]: [k] positions are left. *)
Fixpoint strcasestr_loop (k : nat) (haystack needle : list Z) (i : nat) : option nat :=
  match k with
  | O => None
  | S k' =>
      if strncasecmp haystack needle (length needle) =? 0 then Some i
      else strcasestr_loop k' (tail haystack) needle (S i)
  end.

(** The offset of the first occurrence. *)
Definition our_strcasestr (haystack needle : list Z) : option nat :=
  let nlength := length needle in
  let hlength := length haystack in
  if (hlength <? nlength)%nat then None
  else if (hlength <=? 0)%nat then None
  else if (nlength <=? 0)%nat then Some 0%nat
  else strcasestr_loop (S (hlength - nlength)) haystack needle 0.

(** The character at an index of a line; its NUL is at its length. *)
Definition at_ (line : list Z) (i : nat) : Z := nth i line 0.

(** ** Matching *)

Definition match_body (bw : badword) (line : list Z) (p : nat) : res (step nat bool) :=
  let bwlen := length (b_word bw) in
  match our_strcasestr (drop p line) (b_word bw) with
  | None => Ok (Done false)
  | Some off =>
      let p := (p + off)%nat in
      if negb (b_left bw) && (negb (p =? 0)%nat && negb (iswseperator (at_ line (p - 1))))
      then Ok (Next (p + bwlen)%nat)
      else if negb (b_right bw) && negb (iswseperator (at_ line (p + bwlen)))
      then Ok (Next (p + bwlen)%nat)
      else Ok (Done true)
  end.

Definition fast_badword_match (bw : badword) (line : list Z) : res bool :=
  if b_left bw && b_right bw then
    Ok (match our_strcasestr line (b_word bw) with Some _ => true | None => false end)
  else loop (match_body bw line) (length line + 2) 0%nat.

(** ** Replacing *)

(** [for (startw = pold; !iswseperator( *startw ) && startw != line; startw--);] *)
Fixpoint hunt_start (line : list Z) (startw : nat) : nat :=
  match startw with
  | O => O
  | S s => if iswseperator (at_ line startw) then startw else hunt_start line s
  end.
Definition start_of_word (line : list Z) (pold : nat) : nat :=
  if (0 <? pold)%nat then
    let startw := hunt_start line pold in
    if iswseperator (at_ line startw) then S startw else startw
  else pold.
(** [for (endw = pold+searchn; *endw != 0 && !iswseperator( *endw ); endw++);] *)
Definition end_of_word (line : list Z) (from : nat) : nat :=
  (from + length (take_while (λ c, negb (iswseperator c)) (drop from line)))%nat.

(** [pold], [poldx], what was written at [buf], and [cleaned]. *)
Record rstate := RS { r_pold : nat; r_poldx : nat; r_out : list Z; r_cleaned : bool }.

(** Copy what comes before the word, then the replacement; [inr] is a return
    with the buffer full.  [room] is [c_eol - buf]. *)
Definition replace_word (bw : badword) (line : list Z) (room : nat) (s : rstate) (startw endw : nat)
  : res (step rstate (rstate + list Z)) :=
  let replacew := default REPLACEWORD (b_replace bw) in
  let! _ := require (r_poldx s <=? startw)%nat in
  let before := take (startw - r_poldx s) (drop (r_poldx s) line) in
  if negb (r_poldx s =? startw)%nat && (room <=? length (r_out s) + length before)%nat
  then Ok (Done (inr (r_out s ++ take (room - length (r_out s)) before)))
  else
  let out := r_out s ++ before in
  if negb (length replacew =? 0)%nat && (room <=? length out + length replacew)%nat
  then Ok (Done (inr (out ++ take (room - length out) replacew)))
  else Ok (Next (RS endw endw (out ++ replacew) true)).

Definition replace_body (bw : badword) (line : list Z) (room : nat) (s : rstate)
  : res (step rstate (rstate + list Z)) :=
  let searchn := length (b_word bw) in
  match our_strcasestr (drop (r_pold s) line) (b_word bw) with
  | None => Ok (Done (inl s))
  | Some off =>
      let pold := (r_pold s + off)%nat in
      let startw := start_of_word line pold in
      if negb (b_left bw) && negb (pold =? startw)%nat
      then Ok (Next (RS (S pold) (r_poldx s) (r_out s) (r_cleaned s)))
      else
      let endw := end_of_word line (pold + searchn) in
      if negb (b_right bw) && negb (pold + searchn =? endw)%nat
      then Ok (Next (RS (S pold) (r_poldx s) (r_out s) (r_cleaned s)))
      else replace_word bw line room s startw endw
  end.

(** The result and the text left in [buf]; [max] is its size. *)
Definition fast_badword_replace (bw : badword) (line : list Z) (max : nat) : res (Z * list Z) :=
  let room := (max - 1)%nat in
  let! r := loop (replace_body bw line room) (length line + 2) (RS 0 0 [] false) in
  match r with
  | inr out => Ok (1, out)
  | inl s =>
      let last := drop (r_poldx s) line in
      Ok (if r_cleaned s then 1 else 0, r_out s ++ take (room - length (r_out s)) last)
  end.

(** ** Configuration *)

(** The scan of [badword_config_process]: [None] when a regular expression is
    needed, otherwise whether there is an asterisk at the left and at the right;
    [first] is true at the first character. *)
Fixpoint classify (first : bool) (s : list Z) (ast_l ast_r : bool) : option (bool * bool) :=
  match s with
  | [] => Some (ast_l, ast_r)
  | c :: r =>
      if negb (isalnum c) && negb (128 <=? c) then
        if first && (c =? STAR) then classify false r true ast_r
        else if (deref r =? 0) && (c =? STAR) then classify false r ast_l true
        else None
      else classify false r ast_l ast_r
  end.

(** [badword_config_process] for words that need no regular expression. *)
Definition badword_config_process (str : list Z) (replace : option (list Z)) : option badword :=
  match classify true str false false with
  | None => None
  | Some (l, r) => Some (BadWord (filter (λ c, c ≠ STAR) str) l r replace)
  end.

(** ** Theory *)

Definition wordchar (c : Z) : bool := negb (iswseperator c).

(** The word occurs at an index. *)
Definition occurs (word line : list Z) (p : nat) : Prop :=
  (p + length word ≤ length line)%nat ∧ casefold (take (length word) (drop p line)) = casefold word.

Lemma strncasecmp_spec h n :
  cstr h → cstr n → (length n ≤ length h)%nat →
  (strncasecmp h n (length n) =? 0) = bool_decide (casefold (take (length n) h) = casefold n).
Proof.
  intros Hh. revert n. induction Hh as [|x h Hx Hh IH]; intros n Hn Hl; destruct Hn as [|y n Hy Hn];
    simpl in *; [done|lia|done|].
  destruct (Z.eqb_spec (tolower x - tolower y) 0) as [E|E].
  - rewrite IH by (done || lia). apply bool_decide_ext. unfold casefold. split; [|congruence].
    intros ->. f_equal. lia.
  - destruct (Z.eqb_spec (tolower x - tolower y) 0); [done|]. symmetry. apply bool_decide_eq_false_2.
    intros [= ? _]. lia.
Qed.

Lemma strcasestr_loop_spec k : ∀ h n i,
  cstr h → cstr n → (0 < length n)%nat → (k + length n ≤ S (length h))%nat →
  match strcasestr_loop k h n i with
  | Some j => ∃ d, j = (i + d)%nat ∧ (d < k)%nat ∧ occurs n h d ∧ ∀ q, (q < d)%nat → ¬ occurs n h q
  | None => ∀ q, (q < k)%nat → ¬ occurs n h q
  end.
Proof.
  induction k as [|k IH]; intros h n i Hh Hn Hpos Hl; cbn [strcasestr_loop]; [lia|].
  rewrite strncasecmp_spec by (done || lia). case_bool_decide as E.
  - exists 0%nat. split; [lia|]. split; [lia|]. split; [split; [simpl; lia|by rewrite drop_0]|lia].
  - assert (¬ occurs n h 0) as H0 by (intros [_ Ho]; by rewrite drop_0 in Ho).
    destruct h as [|x h]; [simpl in *; lia|].
    assert (∀ q, occurs n (x :: h) (S q) ↔ occurs n h q) as Hs.
    { intros q. unfold occurs. simpl. split; intros [? ?]; split; (done || lia). }
    apply cstr_cons_inv in Hh as [_ Hh]. cbn [tail].
    specialize (IH h n (S i) Hh Hn Hpos ltac:(simpl in *; lia)).
    destruct (strcasestr_loop k h n (S i)) as [j|].
    + destruct IH as (d & -> & Hd & Ho & Hq). exists (S d). split; [lia|]. split; [lia|].
      split; [by apply Hs|]. intros [|q] Hlt; [done|]. rewrite Hs. apply Hq. lia.
    + intros [|q] Hlt; [done|]. rewrite Hs. apply IH. lia.
Qed.

(** [our_strcasestr] finds the first occurrence of a non-empty word. *)
Lemma our_strcasestr_spec word line p :
  cstr word → cstr line → word ≠ [] → (p ≤ length line)%nat →
  match our_strcasestr (drop p line) word with
  | Some off => occurs word line (p + off) ∧ ∀ q, (p ≤ q < p + off)%nat → ¬ occurs word line q
  | None => ∀ q, (p ≤ q)%nat → ¬ occurs word line q
  end.
Proof.
  intros Hw Hl Hne Hp. assert (0 < length word)%nat as Hpos by (destruct word; simpl; [done|lia]).
  assert (∀ d, occurs word (drop p line) d ↔ occurs word line (p + d)) as Hoc.
  { intros d. unfold occurs. rewrite length_drop, drop_drop. split; intros [? ?]; split; (done || lia). }
  unfold our_strcasestr. rewrite length_drop.
  destruct (Nat.ltb_spec (length line - p) (length word)).
  { intros q Hq [Ho _]. lia. }
  destruct (Nat.leb_spec (length line - p) 0); [lia|]. destruct (Nat.leb_spec (length word) 0); [lia|].
  pose proof (strcasestr_loop_spec (S (length line - p - length word)) (drop p line) word 0
    (cstr_drop _ _ Hl) Hw Hpos ltac:(rewrite length_drop; lia)) as H2.
  destruct (strcasestr_loop _ _ _ _) as [j|].
  - destruct H2 as (d & -> & Hd & Ho & Hq). simpl. split; [by apply Hoc|].
    intros q Hlt. replace q with (p + (q - p))%nat by lia. rewrite <-Hoc. apply Hq. lia.
  - intros q Hq Ho. pose proof Ho as [Hlen _]. apply (H2 (q - p)%nat); [lia|].
    rewrite Hoc. by replace (p + (q - p))%nat with q by lia.
Qed.

(** *** Matching *)

(** An occurrence that counts: at the start of a word unless there is an
    asterisk at the left, at the end of one unless there is one at the right. *)
Record bad_at (bw : badword) (line : list Z) (p : nat) : Prop := {
  bad_occurs : occurs (b_word bw) line p;
  bad_left : b_left bw = true ∨ p = 0%nat ∨ iswseperator (at_ line (p - 1)) = true;
  bad_right : b_right bw = true ∨ iswseperator (at_ line (p + length (b_word bw))) = true
}.

(** Words of the configuration: not empty, no separators. *)
Record word_ok (word : list Z) : Prop := {
  word_nonempty : word ≠ [];
  word_cstr : cstr word;
  word_chars : Forall (λ c, wordchar c = true) word
}.

Lemma wordchar_tolower c : byte c → wordchar (tolower c) = wordchar c.
Proof.
  intros Hc. apply eqb_prop. revert c Hc. apply all_bytes_ind. by vm_compute.
Qed.

Lemma wordchar_casefold s : cstr s → Forall (λ c, wordchar c = true) (casefold s) → Forall (λ c, wordchar c = true) s.
Proof.
  induction 1 as [|c s Hc _ IH]; [done|]. simpl. intros [H1 H2]%Forall_cons. constructor; [|auto].
  rewrite wordchar_tolower in H1; [done|]. unfold cchar in Hc. unfold byte. lia.
Qed.
Lemma casefold_wordchar s : cstr s → Forall (λ c, wordchar c = true) s → Forall (λ c, wordchar c = true) (casefold s).
Proof.
  induction 1 as [|c s Hc _ IH]; [done|]. simpl. intros [H1 H2]%Forall_cons. constructor; [|auto].
  rewrite wordchar_tolower; [done|]. unfold cchar in Hc. unfold byte. lia.
Qed.

(** The characters of an occurrence are word characters. *)
Lemma occurs_wordchars word line p i :
  word_ok word → cstr line → occurs word line p → (p ≤ i < p + length word)%nat →
  wordchar (at_ line i) = true.
Proof.
  intros [Hne Hc Hw] Hl [Hlen Ho] Hi.
  assert (Forall (λ c, wordchar c = true) (take (length word) (drop p line))) as Hf.
  { apply wordchar_casefold; [auto with obby|]. rewrite Ho. by apply casefold_wordchar. }
  rewrite Forall_lookup in Hf. unfold at_. destruct (line !! i) as [c|] eqn:E.
  - rewrite (nth_lookup_Some _ _ _ _ E). apply (Hf (i - p)%nat).
    rewrite lookup_take_lt, lookup_drop by lia. by replace (p + (i - p))%nat with i by lia.
  - apply lookup_ge_None in E. lia.
Qed.

Lemma sep_not_word c : iswseperator c = true → wordchar c = true → False.
Proof. unfold wordchar. by intros ->. Qed.

(** Matching bad words.  For a word of the configuration and any line the
    search ends.  What it reports is an occurrence that counts, and unless the
    word has an asterisk at the left only, it finds one whenever there is one. *)
Theorem fast_badword_match_correct bw line :
  word_ok (b_word bw) → cstr line →
  ∃ b, fast_badword_match bw line = Ok b ∧
    (b = true → ∃ p, bad_at bw line p) ∧
    (b_left bw = false ∨ b_right bw = true → (∃ p, bad_at bw line p) → b = true).
Proof.
  intros Hw Hl. pose proof Hw as [Hne Hc _]. unfold fast_badword_match.
  assert (0 < length (b_word bw))%nat as Hpos by (destruct (b_word bw); simpl; [done|lia]).
  destruct (b_left bw && b_right bw) eqn:Eb.
  { apply andb_true_iff in Eb as [El Er]. eexists. split; [done|].
    pose proof (our_strcasestr_spec (b_word bw) line 0 Hc Hl Hne ltac:(lia)) as Hs. rewrite drop_0 in Hs.
    destruct (our_strcasestr line (b_word bw)) as [off|].
    - split; [|done]. intros _. exists off. destruct Hs as [Hs _]. constructor; auto.
    - split; [done|]. intros _ [p [Ho _ _]]. by destruct (Hs p ltac:(lia)). }
  edestruct (loop_total (match_body bw line)
    (λ p, (p ≤ length line)%nat ∧ (b_left bw = false → ∀ q, (q < p)%nat → ¬ bad_at bw line q))
    (λ p, (length line - p)%nat)
    (λ b, (b = true → ∃ p, bad_at bw line p) ∧ (b_left bw = false → (∃ p, bad_at bw line p) → b = true)))
    as (b & Hb & H1 & H2); cycle 3.
  - exists b. split; [exact Hb|]. split; [done|]. intros [Hf|Hr]; [auto|].
    rewrite Hr, andb_true_r in Eb. auto.
  - intros p [Hp Hno]. unfold match_body.
    pose proof (our_strcasestr_spec (b_word bw) line p Hc Hl Hne Hp) as Hs.
    destruct (our_strcasestr (drop p line) (b_word bw)) as [off|].
    2: { eexists. split; [done|]. simpl. split; [done|]. intros Hf [q Hq].
         destruct (decide (q < p)%nat); [by destruct (Hno Hf q)|]. destruct (Hs q ltac:(lia)). apply Hq. }
    destruct Hs as [Ho Hfirst]. pose proof Ho as [Hlen _].
    assert (¬ bad_at bw line (p + off) →
      (p + off + length (b_word bw) ≤ length line)%nat ∧
      (b_left bw = false → ∀ q, (q < p + off + length (b_word bw))%nat → ¬ bad_at bw line q)) as Hnext.
    { intros Hnot. split; [done|]. intros Hf q Hq Hbad.
      destruct (decide (q < p)%nat); [by destruct (Hno Hf q)|].
      destruct (decide (q < p + off)%nat); [destruct (Hfirst q ltac:(lia)); apply Hbad|].
      destruct (decide (q = p + off)%nat) as [->|]; [done|].
      destruct Hbad as [_ [Hx|[Hx|Hx]] _]; [congruence|lia|].
      eapply sep_not_word; [exact Hx|]. eapply occurs_wordchars; [done|done|exact Ho|lia]. }
    destruct (negb (b_left bw) && _) eqn:E1.
    { eexists. split; [done|]. cbn beta. split; [|lia]. apply Hnext. intros [_ Hx _].
      apply andb_true_iff in E1 as [El%negb_true_iff [Ep%negb_true_iff Es%negb_true_iff]%andb_true_iff].
      apply Nat.eqb_neq in Ep. destruct Hx as [?|[?|?]]; congruence. }
    destruct (negb (b_right bw) && _) eqn:E2.
    { eexists. split; [done|]. cbn beta. split; [|lia]. apply Hnext. intros [_ _ Hx].
      apply andb_true_iff in E2 as [Er%negb_true_iff Es%negb_true_iff].
      destruct Hx as [?|?]; congruence. }
    eexists. split; [done|]. simpl. split; [|done]. intros _. exists (p + off)%nat. constructor; [done|..].
    + apply andb_false_iff in E1 as [El%negb_false_iff|E1]; [by left|]. right.
      apply andb_false_iff in E1 as [Ep%negb_false_iff|Es%negb_false_iff]; [|by right].
      left. by apply Nat.eqb_eq.
    + apply andb_false_iff in E2 as [El%negb_false_iff|Es%negb_false_iff]; auto.
  - split; [lia|]. intros _ q Hq. lia.
  - lia.
Qed.

Lemma fast_badword_match_witness :
  ∃ b, fast_badword_match (BadWord (bs "bad") false true None) (bs "not BADly") = Ok b ∧
    (b = true → ∃ p, bad_at (BadWord (bs "bad") false true None) (bs "not BADly") p).
Proof.
  destruct (fast_badword_match_correct (BadWord (bs "bad") false true None) (bs "not BADly"))
    as (b & H1 & H2 & _).
  - constructor; [discriminate| |]; apply (bool_decide_unpack _); vm_compute; exact I.
  - apply (bool_decide_unpack _); vm_compute; exact I.
  - exists b. split; [exact H1|exact H2].
Defined.

(** A word with an asterisk at the left only is searched for in steps of its
    length, which skips an occurrence that overlaps one that does not count. *)
Lemma badword_overlap_missed :
  let bw := BadWord (bs "aba") true false None in
  fast_badword_match bw (bs "ababa") = Ok false ∧ bad_at bw (bs "ababa") 2 ∧
  fast_badword_replace bw (bs "ababa") 100 = Ok (1, bs "<censored>").
Proof.
  split; [vm_compute; reflexivity|]. split; [|vm_compute; reflexivity].
  constructor; [|by left|by right]. split; [vm_compute; lia|reflexivity].
Qed.

(** A lone asterisk is accepted as a word: it is empty, and the search for it
    never ends on a line that starts with a word character. *)
Lemma badword_star_loops n :
  ∃ bw, badword_config_process (bs "*") None = Some bw ∧
    loop (match_body bw (bs "x")) n 0%nat = NoFuel.
Proof.
  eexists. split; [vm_compute; reflexivity|]. induction n as [|n IH]; [done|].
  cbn [loop]. replace (match_body _ _ _) with (Ok (Next (R := bool) 0%nat)) by (vm_compute; reflexivity).
  exact IH.
Qed.

(** *** Replacing: the reference *)

(** The pieces of a line: its maximal runs of word characters, and single
    separators. *)
Fixpoint pieces (s : list Z) : list (list Z) :=
  match s with
  | [] => []
  | c :: r =>
      if wordchar c then
        match pieces r with
        | (d :: t) :: ps => if wordchar d then (c :: d :: t) :: ps else [c] :: (d :: t) :: ps
        | ps => [c] :: ps
        end
      else [c] :: pieces r
  end.

#[global] Instance occurs_dec word line p : Decision (occurs word line p).
Proof. unfold occurs. apply _. Defined.

(** A run is censored when the word occurs in it, at its start unless there is
    an asterisk at the left, at its end unless there is one at the right. *)
Definition hit_at (bw : badword) (run : list Z) (o : nat) : Prop :=
  occurs (b_word bw) run o ∧ (b_left bw = true ∨ o = 0%nat) ∧
  (b_right bw = true ∨ (o + length (b_word bw))%nat = length run).
#[global] Instance hit_at_dec bw run o : Decision (hit_at bw run o).
Proof. unfold hit_at. apply _. Defined.
Definition hit (bw : badword) (run : list Z) : bool :=
  bool_decide (Exists (hit_at bw run) (seq 0 (S (length run)))).

Definition censor_piece (bw : badword) (run : list Z) : list Z :=
  if hit bw run then default REPLACEWORD (b_replace bw) else run.
Definition censor (bw : badword) (line : list Z) : list Z := concat (map (censor_piece bw) (pieces line)).
Definition any_hit (bw : badword) (line : list Z) : bool := existsb (hit bw) (pieces line).

Lemma hit_spec bw run : hit bw run = true ↔ ∃ o, hit_at bw run o.
Proof.
  unfold hit. rewrite bool_decide_eq_true, Exists_exists. split.
  - intros (o & _ & Ho). eauto.
  - intros [o Ho]. exists o. split; [|done]. apply elem_of_seq. destruct Ho as [[Hl _] _]. lia.
Qed.

(** A separator on at least one side of a cut. *)
Definition bnd (u v : list Z) : Prop :=
  ∀ c d, list.last u = Some c → head v = Some d → wordchar c = false ∨ wordchar d = false.

Lemma pieces_concat s : concat (pieces s) = s.
Proof.
  induction s as [|c s IH]; [done|]. simpl. destruct (wordchar c); [|simpl; by rewrite IH].
  destruct (pieces s) as [|[|d t] ps]; simpl in *; [by rewrite <-IH..|].
  destruct (wordchar d); simpl; by rewrite <-IH.
Qed.

(** Every piece is one separator or a run of word characters. *)
Definition piece_ok (t : list Z) : Prop :=
  (∃ c, t = [c] ∧ wordchar c = false) ∨ (t ≠ [] ∧ Forall (λ c, wordchar c = true) t).

Lemma pieces_ok s : Forall piece_ok (pieces s).
Proof.
  induction s as [|c s IH]; [constructor|]. simpl. destruct (wordchar c) eqn:Ec.
  - assert (piece_ok [c]) as Hc by (right; split; [done|]; by constructor).
    destruct (pieces s) as [|[|d t] ps]; [by constructor..|].
    apply Forall_cons in IH as [Hd Hps]. destruct (wordchar d) eqn:Ed; [|by apply Forall_cons; split; [|apply Forall_cons]].
    constructor; [|done]. right. split; [done|]. constructor; [done|].
    destruct Hd as [(x & [= -> ->] & Hx)|[_ Hd]]; [congruence|done].
  - constructor; [left; by eexists|done].
Qed.

Lemma pieces_head c s : ∃ t ps, pieces (c :: s) = (c :: t) :: ps.
Proof.
  simpl. destruct (wordchar c); [|eauto]. destruct (pieces s) as [|[|d t] ps]; [eauto..|].
  destruct (wordchar d); eauto.
Qed.

Lemma pieces_app u v : bnd u v → pieces (u ++ v) = pieces u ++ pieces v.
Proof.
  induction u as [|c u IH]; [done|]. intros Hb.
  destruct u as [|d u].
  - simpl. destruct (wordchar c) eqn:Ec; [|done]. destruct v as [|x v]; [done|].
    destruct (Hb c x eq_refl eq_refl) as [?|Hx]; [congruence|].
    destruct (pieces_head x v) as (t & ps & ->). by rewrite Hx.
  - assert (bnd (d :: u) v) as Hb' by (intros a b Ha; by apply (Hb a b)).
    specialize (IH Hb'). cbn [app pieces] in *. destruct (wordchar c); [|simpl; f_equal; exact IH].
    change (match pieces ((d :: u) ++ v) with
      | (e :: t) :: ps => if wordchar e then (c :: e :: t) :: ps else [c] :: (e :: t) :: ps
      | ps => [c] :: ps end = match pieces (d :: u) with
      | (e :: t) :: ps => if wordchar e then (c :: e :: t) :: ps else [c] :: (e :: t) :: ps
      | ps => [c] :: ps end ++ pieces v).
    change (pieces ((d :: u) ++ v) = pieces (d :: u) ++ pieces v) in IH. rewrite IH.
    destruct (pieces_head d u) as (t & ps & ->). simpl. by destruct (wordchar d).
Qed.

Lemma pieces_run r : r ≠ [] → Forall (λ c, wordchar c = true) r → pieces r = [r].
Proof.
  induction r as [|c r IH]; [done|]. intros _ [Hc Hr]%Forall_cons. simpl. rewrite Hc.
  destruct r as [|d r]; [done|]. rewrite IH by done. apply Forall_cons in Hr as [-> _]. done.
Qed.

Lemma last_cons_ne (c : Z) u : u ≠ [] → list.last (c :: u) = list.last u.
Proof. by destruct u. Qed.

Lemma bnd_cons c u v : u ≠ [] → bnd u v → bnd (c :: u) v.
Proof. intros Hu Hb x y. rewrite last_cons_ne by done. apply Hb. Qed.

(** There is a boundary between any two pieces. *)
Lemma pieces_bnd s : ∀ l1 l2, pieces s = l1 ++ l2 → bnd (concat l1) (concat l2).
Proof.
  induction s as [|c s IH]; intros l1 l2 E.
  { simpl in E. symmetry in E. by apply app_nil in E as [-> ->]. }
  destruct l1 as [|p l1]; [done|].
  assert (∀ l, pieces s = l ++ l2 → (l = [] → wordchar c = false ∨ bnd [c] (concat l2)) →
    bnd (c :: concat l) (concat l2)) as Hcons.
  { intros l El Hl. destruct l as [|t l].
    - destruct (Hl eq_refl) as [Hc|?]; [|done]. intros x y [= <-] _. by left.
    - apply bnd_cons; [|by apply IH]. pose proof (pieces_ok s) as Hok. rewrite El in Hok.
      apply Forall_cons in Hok as [[(x & -> & _)|[Ht _]] _]; [done|]. simpl. by destruct t. }
  simpl in E. destruct (wordchar c) eqn:Ec.
  2: { injection E as <- E. simpl. apply Hcons; auto. }
  destruct (pieces s) as [|[|d t] ps] eqn:Ep.
  - injection E as <- E. symmetry in E. by apply app_nil in E as [-> ->].
  - exfalso. pose proof (pieces_ok s) as Hok. rewrite Ep in Hok.
    apply Forall_cons in Hok as [[(x & ? & _)|[? _]] _]; done.
  - destruct (wordchar d) eqn:Ed; injection E as <- E.
    + assert (bnd (concat ((d :: t) :: l1)) (concat l2)) as Hb by (apply IH; simpl; by rewrite E).
      simpl in *. by apply bnd_cons.
    + simpl. apply Hcons; [done|]. intros ->. right. simpl in E. subst l2. intros x y _ [= <-]. by right.
Qed.

Lemma piece_split s t :
  t ∈ pieces s → ∃ s1 s2, s = s1 ++ t ++ s2 ∧ bnd s1 (t ++ s2) ∧ bnd (s1 ++ t) s2.
Proof.
  intros Ht. apply list_elem_of_split in Ht as (l1 & l2 & E).
  exists (concat l1), (concat l2). split; [|split].
  - by rewrite <-(pieces_concat s), E, concat_app.
  - by apply (pieces_bnd s l1 (t :: l2)).
  - assert (concat (l1 ++ [t]) = concat l1 ++ t) as <- by (rewrite concat_app; simpl; by rewrite app_nil_r).
    apply (pieces_bnd s). by rewrite E, <-app_assoc.
Qed.

(** Cutting at a boundary. *)
Lemma censor_app bw u v : bnd u v → censor bw (u ++ v) = censor bw u ++ censor bw v.
Proof. intros Hb. unfold censor. by rewrite pieces_app, map_app, concat_app. Qed.
Lemma any_hit_app bw u v : bnd u v → any_hit bw (u ++ v) = any_hit bw u || any_hit bw v.
Proof. intros Hb. unfold any_hit. by rewrite pieces_app, existsb_app. Qed.

Lemma censor_id bw s : any_hit bw s = false → censor bw s = s.
Proof.
  unfold any_hit, censor. intros H. rewrite <-(pieces_concat s) at 2. f_equal.
  assert (∀ t, t ∈ pieces s → censor_piece bw t = t) as Ht.
  { intros t Ht. unfold censor_piece. destruct (hit bw t) eqn:E; [|done]. exfalso.
    assert (existsb (hit bw) (pieces s) = true); [|congruence].
    apply existsb_exists. exists t. by rewrite <-list_elem_of_In. }
  induction (pieces s) as [|t ts IH]; [done|]. simpl in *. apply orb_false_iff in H as [_ H].
  rewrite Ht by (by left). f_equal. apply IH; [done|]. intros u Hu. apply Ht. by right.
Qed.

(** *** Replacing: the word around an index *)

Lemma at_app_r x y i : (length x ≤ i)%nat → at_ (x ++ y) i = at_ y (i - length x).
Proof. intros H. unfold at_. by rewrite app_nth2. Qed.
Lemma at_app_l x y i : (i < length x)%nat → at_ (x ++ y) i = at_ x i.
Proof. intros H. unfold at_. by rewrite app_nth1. Qed.
Lemma at_run r i : Forall (λ c, wordchar c = true) r → (i < length r)%nat → wordchar (at_ r i) = true.
Proof.
  intros Hr Hi. destruct (lookup_lt_is_Some_2 r i Hi) as [c Hc]. unfold at_.
  rewrite (nth_lookup_Some _ _ _ _ Hc). by eapply Forall_lookup_1 in Hr.
Qed.
Lemma wordchar_sep c : wordchar c = true → iswseperator c = false.
Proof. unfold wordchar. apply negb_true_iff. Qed.
Lemma at_last x y c : list.last x = Some c → at_ (x ++ y) (length x - 1) = c.
Proof.
  intros Hl. apply last_Some in Hl as [x' ->]. rewrite length_app. simpl.
  unfold at_. rewrite <-app_assoc. simpl. rewrite app_nth2 by lia.
  by replace (length x' + 1 - 1 - length x')%nat with 0%nat by lia.
Qed.

(** Around a position inside a run the two hunts find the ends of the run. *)
Lemma hunt_start_run x run y p :
  Forall (λ c, wordchar c = true) run → bnd x run → (length x ≤ p < length x + length run)%nat →
  start_of_word (x ++ run ++ y) p = length x.
Proof.
  intros Hr Hb Hp. unfold start_of_word.
  assert (∀ i, (length x ≤ i < length x + length run)%nat → iswseperator (at_ (x ++ run ++ y) i) = false) as Hin.
  { intros i Hi. apply wordchar_sep. rewrite at_app_r, at_app_l by lia. apply at_run; [done|lia]. }
  assert (x = [] ∨ (x ≠ [] ∧ iswseperator (at_ (x ++ run ++ y) (length x - 1)) = true)) as Hx.
  { destruct (list.last x) as [c|] eqn:El; [right|left; by apply last_None].
    split; [by intros ->|]. rewrite (at_last _ _ c) by done.
    destruct run as [|d run]; [simpl in *; lia|]. apply Forall_cons in Hr as [Hd _].
    destruct (Hb c d El eq_refl) as [Hc|?]; [|congruence]. unfold wordchar in Hc. by apply negb_false_iff in Hc. }
  assert (∀ i, (length x ≤ i < length x + length run)%nat →
    hunt_start (x ++ run ++ y) i = match x with [] => 0 | _ => length x - 1 end)%nat as Hh.
  { intros i. induction i as [|i IH]; intros Hi; cbn [hunt_start].
    - destruct x; [done|simpl in *; lia].
    - rewrite Hin by done. destruct (decide (length x ≤ i)%nat); [by apply IH; lia|].
      assert (length x = S i) as Elen by lia. destruct Hx as [->|[Hne Hs]]; [simpl in *; lia|].
      rewrite Elen in Hs. simpl in Hs. rewrite Nat.sub_0_r in Hs.
      assert (hunt_start (x ++ run ++ y) i = i) as -> by (destruct i; [done|]; cbn [hunt_start]; by rewrite Hs).
      destruct x; [done|]. lia. }
  destruct (Nat.ltb_spec 0 p); [|destruct x; [simpl in *; lia|simpl in *; lia]].
  rewrite Hh by done. destruct Hx as [->|[Hne Hs]].
  - rewrite Hin by (simpl in *; lia). done.
  - destruct x as [|c x]; [done|]. rewrite Hs. simpl. lia.
Qed.

Lemma end_of_word_run x run y p :
  Forall (λ c, wordchar c = true) run → bnd run y → run ≠ [] → (length x ≤ p ≤ length x + length run)%nat →
  end_of_word (x ++ run ++ y) p = (length x + length run)%nat.
Proof.
  intros Hr Hb Hne Hp. unfold end_of_word.
  rewrite drop_app_ge by lia. rewrite drop_app_le by lia.
  rewrite take_while_app.
  2: { apply Forall_drop. eapply Forall_impl; [exact Hr|]. done. }
  assert (take_while (λ c, negb (iswseperator c)) y = []) as ->.
  { destruct y as [|d y]; [done|]. simpl. destruct (list.last run) as [c|] eqn:El; [|by apply last_None in El].
    pose proof El as El'. apply last_Some in El' as [r' ->]. apply Forall_app in Hr as [_ Hr].
    apply Forall_cons in Hr as [Hc _]. destruct (Hb c d El eq_refl) as [?|Hd]; [congruence|].
    unfold wordchar in Hd. by rewrite Hd. }
  rewrite app_nil_r, length_drop. lia.
Qed.

(** The maximal run around an occurrence. *)
Lemma occurs_run word line p :
  word_ok word → cstr line → occurs word line p →
  ∃ x run y, line = x ++ run ++ y ∧ Forall (λ c, wordchar c = true) run ∧ run ≠ [] ∧
    bnd x run ∧ bnd run y ∧ (length x ≤ p)%nat ∧ (p + length word ≤ length x + length run)%nat.
Proof.
  intros Hw Hl Ho. pose proof Ho as [Hlen _]. pose proof Hw as [Hne _ _].
  set (u := rev (take p line)). set (v := drop p line).
  exists (rev (drop_while wordchar u)), (rev (take_while wordchar u) ++ take_while wordchar v),
    (drop_while wordchar v).
  assert (length word ≤ length (take_while wordchar v))%nat as Hn.
  { rewrite <-(take_drop (length word) v). rewrite take_while_app, length_app, length_take.
    - unfold v. rewrite length_drop. lia.
    - apply Forall_lookup. intros i c Hi. pose proof (lookup_lt_Some _ _ _ Hi) as Hlt. rewrite length_take in Hlt.
      pose proof (occurs_wordchars word line p (p + i) Hw Hl Ho ltac:(lia)) as Hc.
      rewrite lookup_take_lt in Hi by lia. unfold v in Hi. rewrite lookup_drop in Hi. unfold at_ in Hc.
      by rewrite (nth_lookup_Some _ _ _ _ Hi) in Hc. }
  assert (0 < length word)%nat as Hpos by (destruct word; simpl; [done|lia]).
  pose proof (take_drop_while wordchar u) as Hu. pose proof (take_drop_while wordchar v) as Hv.
  assert (length (take_while wordchar u) + length (drop_while wordchar u) = p)%nat as Hp.
  { rewrite <-length_app, Hu. unfold u. rewrite length_rev, length_take. lia. }
  split; [|split; [|split; [|split; [|split; [|split]]]]].
  - rewrite <-app_assoc, Hv. rewrite (app_assoc (rev _)), <-rev_app_distr, Hu. unfold u, v.
    by rewrite rev_involutive, take_drop.
  - apply Forall_app. split; [apply Forall_rev|]; apply take_while_Forall.
  - intros E. apply (f_equal length) in E. rewrite length_app in E. simpl in E. lia.
  - intros c d Hc _. left. destruct (drop_while wordchar u) as [|c' r] eqn:E; [done|]. simpl in Hc.
    rewrite last_snoc in Hc. injection Hc as <-. by eapply drop_while_head.
  - intros c d _ Hd. right. destruct (drop_while wordchar v) as [|d' r] eqn:E; [done|]. injection Hd as <-.
    by eapply drop_while_head.
  - rewrite length_rev. lia.
  - rewrite length_app, !length_rev. lia.
Qed.

Section Replace.
Context (bw : badword) (line : list Z).
Hypothesis Hw : word_ok (b_word bw).
Hypothesis Hl : cstr line.
Local Abbreviation n := (length (b_word bw)).

(** An occurrence that the loop replaces. *)
Definition valid (p : nat) : Prop :=
  occurs (b_word bw) line p ∧ (b_left bw = true ∨ p = start_of_word line p) ∧
  (b_right bw = true ∨ (p + n)%nat = end_of_word line (p + n)).

Lemma occurs_shift A t B o :
  line = A ++ t ++ B → occurs (b_word bw) t o → occurs (b_word bw) line (length A + o).
Proof using.
  intros E [H1 H2]. unfold occurs. rewrite E. split; [rewrite !length_app; lia|].
  rewrite <-drop_drop, drop_app_length, drop_app_le, take_app_le by (rewrite ?length_drop; lia). done.
Qed.

(** A part of the line without valid occurrences is left alone. *)
Lemma no_hits A s B :
  line = A ++ s ++ B → bnd A (s ++ B) → bnd (A ++ s) B →
  (∀ q, (length A ≤ q < length A + length s)%nat → ¬ valid q) → any_hit bw s = false.
Proof using Hw Hl.
  intros Hline HbA HbB Hno. destruct (any_hit bw s) eqn:E; [exfalso|done].
  unfold any_hit in E. apply existsb_exists in E as (t & Ht & Hhit). rewrite <-list_elem_of_In in Ht.
  pose proof (pieces_ok s) as Hok. rewrite Forall_forall in Hok. specialize (Hok t Ht).
  destruct (piece_split s t Ht) as (s1 & s2 & Hs & Hb1 & Hb2).
  apply hit_spec in Hhit as (o & Ho & HL & HR). pose proof Ho as [Hlen _].
  assert (0 < n)%nat as Hpos by (destruct Hw as [? _ _]; destruct (b_word bw); simpl; [done|lia]).
  assert (line = (A ++ s1) ++ t ++ (s2 ++ B)) as Hline' by (rewrite Hline, Hs; by rewrite <-!app_assoc).
  assert (cstr t) as Hct by (rewrite Hline' in Hl; apply Forall_app in Hl as [_ Hl']; by apply Forall_app in Hl' as [? _]).
  destruct Hok as [(c & -> & Hc)|[Hne Hrun]].
  { simpl in Hlen. assert (o = 0%nat) as -> by lia.
    pose proof (occurs_wordchars _ _ _ 0 Hw Hct Ho ltac:(lia)) as Hx. unfold at_ in Hx. simpl in Hx. congruence. }
  assert (bnd (A ++ s1) t) as Hx.
  { intros c d Hc Hd. assert (head (t ++ s2) = Some d ∧ head ((t ++ s2) ++ B) = Some d) as [Hd1 Hd2]
      by (destruct t; done).
    destruct s1 as [|e s1].
    - rewrite app_nil_r in Hc. rewrite Hs in HbA. simpl in HbA. by apply (HbA c d).
    - rewrite last_app_cons in Hc. by apply (Hb1 c d). }
  assert (bnd t (s2 ++ B)) as Hy.
  { intros c d Hc Hd. assert (list.last (s1 ++ t) = Some c ∧ list.last (A ++ s1 ++ t) = Some c) as [Hc1 Hc2]
      by (destruct t; [done|]; split; [|rewrite app_assoc]; by rewrite last_app_cons).
    destruct s2 as [|e s2].
    - rewrite Hs, app_nil_r in HbB. by apply (HbB c d).
    - by apply (Hb2 c d). }
  apply (Hno (length (A ++ s1) + o)%nat).
  { rewrite Hs, !length_app. lia. }
  split; [by eapply occurs_shift|].
  rewrite Hline'. rewrite hunt_start_run, end_of_word_run by (done || lia). split.
  - destruct HL; [by left|right; lia].
  - destruct HR; [by left|right; lia].
Qed.

(** A valid occurrence at [p], with a boundary at [b] before it and nothing
    valid in between: what the line looks like from [b] to the end of the word. *)
Record found (b p : nat) (before run y : list Z) : Prop := {
  f_line : line = take b line ++ before ++ run ++ y;
  f_before : any_hit bw before = false;
  f_bnd0 : bnd (take b line) before;
  f_bnd1 : bnd (take b line ++ before) run;
  f_bnd2 : bnd (take b line ++ before ++ run) y;
  f_run : run ≠ [] ∧ Forall (λ c, wordchar c = true) run;
  f_hit : hit bw run = true;
  f_start : start_of_word line p = (b + length before)%nat;
  f_end : end_of_word line (p + n) = (b + length before + length run)%nat;
  f_after : (p + n ≤ b + length before + length run)%nat
}.

Lemma valid_found b p :
  (b ≤ p)%nat → bnd (take b line) (drop b line) →
  (∀ q, (b ≤ q < p)%nat → ¬ valid q) → valid p → ∃ before run y, found b p before run y.
Proof using Hw Hl.
  intros Hb Hbnd Hno (Ho & HL & HR).
  destruct (occurs_run _ _ _ Hw Hl Ho) as (x & run & y & Hline & Hrun & Hne & Hbx & Hby & Hxp & Hpn).
  assert (0 < n)%nat as Hpos by (destruct Hw as [? _ _]; destruct (b_word bw); simpl; [done|lia]).
  assert (b ≤ length x)%nat as Hbx'.
  { destruct (decide (b ≤ length x)%nat) as [|Hgt]; [done|exfalso].
    assert (∀ i, (length x ≤ i < length x + length run)%nat → ∃ c, line !! i = Some c ∧ wordchar c = true) as Hin.
    { intros i Hi. rewrite Hline, lookup_app_r, lookup_app_l by lia.
      destruct (lookup_lt_is_Some_2 run (i - length x) ltac:(lia)) as [c Hc]. exists c. split; [done|].
      by eapply Forall_lookup_1 in Hrun. }
    destruct (Hin (b - 1)%nat ltac:(lia)) as (c & Hc & Hcw). destruct (Hin b ltac:(lia)) as (d & Hd & Hdw).
    destruct (Hbnd c d) as [?|?]; [| |congruence..].
    - rewrite last_lookup, length_take, lookup_take_lt by lia. pose proof (lookup_lt_Some _ _ _ Hd).
      by replace (Init.Nat.pred (b `min` length line)) with (b - 1)%nat by lia.
    - by rewrite head_lookup, lookup_drop, Nat.add_0_r. }
  assert (take b line ++ drop b x = x) as Hx.
  { rewrite Hline, take_app_le by lia. apply take_drop. }
  assert (start_of_word line p = length x) as Hs by (rewrite Hline; apply hunt_start_run; [done|done|lia]).
  assert (end_of_word line (p + n) = (length x + length run)%nat) as He
    by (rewrite Hline; apply end_of_word_run; [done|done|done|lia]).
  assert (length x = b + length (drop b x))%nat as Hlx by (rewrite length_drop; lia).
  assert (bnd (take b line) (drop b x ++ run ++ y)) as Hb0.
  { replace (drop b x ++ run ++ y) with (drop b line); [done|]. by rewrite Hline, drop_app_le by lia. }
  exists (drop b x), run, y. constructor; try done; try lia.
  - rewrite app_assoc, Hx. done.
  - apply (no_hits (take b line) _ (run ++ y)).
    + by rewrite app_assoc, Hx.
    + done.
    + rewrite Hx. intros c d Hc Hd. apply (Hbx c d Hc). by destruct run.
    + intros q Hq. rewrite length_take in Hq. assert (b ≤ length line)%nat by (rewrite Hline, length_app; lia).
      apply Hno. lia.
  - intros c d Hc Hd. apply (Hb0 c d Hc). by destruct (drop b x).
  - by rewrite Hx.
  - rewrite app_assoc, Hx. intros c d Hc Hd. apply (Hby c d); [|done].
    destruct run as [|e run]; [done|]. by rewrite last_app_cons in Hc.
  - apply hit_spec. exists (p - length x)%nat. split; [|split].
    + destruct Ho as [Ho1 Ho2]. split; [lia|]. rewrite <-Ho2. rewrite Hline.
      rewrite drop_app_ge, drop_app_le, take_app_le by (rewrite ?length_drop; lia). done.
    + destruct HL; [by left|right; lia].
    + destruct HR; [by left|right; lia].
Qed.

(** What the finished loop has produced. *)
Definition replaced (room : nat) (r : rstate + list Z) : Prop :=
  match r with
  | inl s => r_cleaned s = any_hit bw line ∧
      r_out s ++ take (room - length (r_out s)) (drop (r_poldx s) line) = take room (censor bw line)
  | inr out => any_hit bw line = true ∧ out = take room (censor bw line)
  end.

Record rep_inv (room : nat) (s : rstate) : Prop := {
  i_order : (r_poldx s ≤ r_pold s ≤ length line)%nat;
  i_bnd : bnd (take (r_poldx s) line) (drop (r_poldx s) line);
  i_none : ∀ q, (r_poldx s ≤ q < r_pold s)%nat → ¬ valid q;
  i_out : r_out s = censor bw (take (r_poldx s) line);
  i_room : (length (r_out s) ≤ room)%nat;
  i_cleaned : r_cleaned s = any_hit bw (take (r_poldx s) line)
}.

Lemma replace_finish room s :
  rep_inv room s → (∀ q, (r_pold s ≤ q)%nat → ¬ occurs (b_word bw) line q) → replaced room (inl s).
Proof using Hw Hl.
  intros [Hord Hbnd Hnone Hout Hroom Hcl] Hs. simpl.
  assert (any_hit bw (drop (r_poldx s) line) = false) as Hno.
    { apply (no_hits (take (r_poldx s) line) _ []).
      - by rewrite app_nil_r, take_drop.
      - by rewrite app_nil_r.
      - by intros c d _ [=].
      - intros q Hq. rewrite length_take in Hq.
        destruct (decide (q < r_pold s)%nat); [apply Hnone; lia|]. intros [Hv _]. by apply (Hs q ltac:(lia)). }
    split.
    - rewrite Hcl. transitivity (any_hit bw (take (r_poldx s) line ++ drop (r_poldx s) line));
        [by rewrite any_hit_app, Hno, orb_false_r|by rewrite take_drop].
    - replace (censor bw line) with (censor bw (take (r_poldx s) line ++ drop (r_poldx s) line))
        by (by rewrite take_drop).
      rewrite censor_app, <-Hout, (censor_id _ _ Hno) by done. by rewrite take_app, (take_ge (r_out s)) by done.
Qed.

(** The outcome of one turn of the loop. *)
Definition progress (room : nat) (s : rstate) (m : res (step rstate (rstate + list Z))) : Prop :=
  ∃ o, m = Ok o ∧
    match o with
    | Next s' => rep_inv room s' ∧ (length line - r_pold s' < length line - r_pold s)%nat
    | Done r => replaced room r
    end.

Lemma replace_word_step room s p before run y :
  rep_inv room s → (r_pold s ≤ p)%nat → (p + n ≤ length line)%nat → found (r_poldx s) p before run y →
  progress room s (replace_word bw line room s (r_poldx s + length before)
                     (r_poldx s + length before + length run)).
Proof using Hw Hl.
  intros [Hord Hbnd Hnone Hout Hroom Hcl] Hp Hlen [Fl Fb F0 F1 F2 [Fne Frun] Fh Fs Fe Fa].
  assert (0 < n)%nat as Hpos by (destruct Hw as [? _ _]; destruct (b_word bw); simpl; [done|lia]).
  unfold progress, replace_word.
  set (b := r_poldx s) in *. set (repl := default REPLACEWORD (b_replace bw)).
  assert (length (take b line) = b) as Hlb by (rewrite length_take; lia).
  assert (take (b + length before - b) (drop b line) = before) as ->.
  { assert (drop b line = before ++ run ++ y) as -> by (rewrite Fl at 1; by apply drop_app_length').
    replace (b + length before - b)%nat with (length before) by lia. by rewrite take_app_length. }
  destruct (Nat.leb_spec b (b + length before)); [|lia]. cbn [require rbind].
  assert (censor bw (take b line ++ before ++ run) = r_out s ++ before ++ repl) as Hcen.
  { rewrite app_assoc, censor_app, (censor_app _ (take b line)), <-Hout, (censor_id _ before) by done.
    unfold censor at 1. rewrite (pieces_run run) by done. simpl. unfold censor_piece. rewrite Fh.
    by rewrite app_nil_r, <-app_assoc. }
  assert (any_hit bw (take b line ++ before ++ run) = true) as Hany.
  { rewrite app_assoc, any_hit_app by done. unfold any_hit at 2. rewrite (pieces_run run) by done. simpl.
    by rewrite Fh, orb_true_r. }
  assert (line = (take b line ++ before ++ run) ++ y) as Fl' by (rewrite <-!app_assoc; done).
  assert (∃ rest, censor bw line = r_out s ++ before ++ repl ++ rest) as [rest Hrest].
  { exists (censor bw y). rewrite Fl' at 1. rewrite censor_app, Hcen by done. by rewrite <-!app_assoc. }
  assert (any_hit bw line = true) as Hany' by (rewrite Fl', any_hit_app, Hany by done; done).
  destruct (negb (b =? b + length before)%nat && (room <=? length (r_out s) + length before)%nat) eqn:E3.
  { apply andb_true_iff in E3 as [_ E3%Nat.leb_le]. eexists. split; [done|]. simpl. split; [done|].
    rewrite Hrest, take_app, (take_ge (r_out s)) by done. by rewrite take_app_le by lia. }
  assert (length (r_out s ++ before) ≤ room)%nat as Hroom2.
  { rewrite length_app. apply andb_false_iff in E3 as [E3%negb_false_iff|E3%Nat.leb_gt]; [|lia].
    apply Nat.eqb_eq in E3. lia. }
  destruct (negb (length repl =? 0)%nat && (room <=? length (r_out s ++ before) + length repl)%nat) eqn:E4.
  { apply andb_true_iff in E4 as [_ E4%Nat.leb_le]. eexists. split; [done|]. simpl. split; [done|].
    rewrite Hrest, app_assoc, take_app, (take_ge (r_out s ++ before)) by done. by rewrite take_app_le by lia. }
  set (endw := (b + length before + length run)%nat).
  assert (take endw line = take b line ++ before ++ run) as Htake.
  { rewrite Fl' at 1. apply take_app_length'. rewrite !length_app. unfold endw. lia. }
  assert (drop endw line = y) as Hdrop.
  { rewrite Fl' at 1. apply drop_app_length'. rewrite !length_app. unfold endw. lia. }
  assert (endw ≤ length line)%nat as Hend by (rewrite Fl', !length_app; unfold endw; lia).
  eexists. split; [done|]. simpl. split; [|unfold endw; lia]. constructor; simpl.
  - lia.
  - by rewrite Htake, Hdrop.
  - intros q Hq. lia.
  - by rewrite Htake, Hcen, app_assoc.
  - rewrite length_app. apply andb_false_iff in E4 as [E4%negb_false_iff|E4%Nat.leb_gt]; [|lia].
    apply Nat.eqb_eq in E4. lia.
  - by rewrite Htake.
Qed.

Lemma replace_step room s : rep_inv room s → progress room s (replace_body bw line room s).
Proof using Hw Hl.
  intros Hinv. pose proof Hinv as [Hord Hbnd Hnone Hout Hroom Hcl]. pose proof Hw as [Hne Hc _].
  assert (0 < n)%nat as Hpos by (destruct (b_word bw); simpl; [done|lia]).
  unfold replace_body.
  pose proof (our_strcasestr_spec (b_word bw) line (r_pold s) Hc Hl Hne ltac:(lia)) as Hs.
  destruct (our_strcasestr (drop (r_pold s) line) (b_word bw)) as [off|];
    [|eexists; split; [done|]; by apply replace_finish].
  destruct Hs as [Ho Hfirst]. set (p := (r_pold s + off)%nat) in *. pose proof Ho as [Hlen _].
  assert (∀ q, (r_poldx s ≤ q < p)%nat → ¬ valid q) as Hnone'.
  { intros q Hq. destruct (decide (q < r_pold s)%nat); [apply Hnone; lia|]. intros [Hv _].
    by apply (Hfirst q ltac:(lia)). }
  assert (¬ valid p → progress room s (Ok (Next (RS (S p) (r_poldx s) (r_out s) (r_cleaned s))))) as Hskip.
  { intros Hnv. eexists. split; [done|]. simpl. split; [|lia]. constructor; simpl; try done; [lia|].
    intros q Hq. destruct (decide (q = p)) as [->|]; [done|]. apply Hnone'. lia. }
  destruct (negb (b_left bw) && negb (p =? start_of_word line p)%nat) eqn:E1.
  { apply Hskip. intros (_ & Hx & _). apply andb_true_iff in E1 as [El%negb_true_iff Ep%negb_true_iff].
    apply Nat.eqb_neq in Ep. destruct Hx; congruence. }
  destruct (negb (b_right bw) && negb (p + n =? end_of_word line (p + n))%nat) eqn:E2.
  { apply Hskip. intros (_ & _ & Hx). apply andb_true_iff in E2 as [El%negb_true_iff Ep%negb_true_iff].
    apply Nat.eqb_neq in Ep. destruct Hx; congruence. }
  assert (valid p) as Hv.
  { split; [done|]. split.
    - apply andb_false_iff in E1 as [El%negb_false_iff|Ep%negb_false_iff]; [by left|right]. by apply Nat.eqb_eq.
    - apply andb_false_iff in E2 as [El%negb_false_iff|Ep%negb_false_iff]; [by left|right]. by apply Nat.eqb_eq. }
  destruct (valid_found (r_poldx s) p ltac:(lia) Hbnd Hnone' Hv) as (before & run & y & F).
  rewrite (f_start _ _ _ _ _ F), (f_end _ _ _ _ _ F).
  apply (replace_word_step room s p before run y); [done|lia|done|done].
Qed.
End Replace.

(** Replacing bad words.  For a word of the configuration, any line and any
    non-empty buffer, [fast_badword_replace] ends and leaves in the buffer the
    line with every run of word characters that contains the word, at the ends
    that the asterisks leave open, replaced as a whole, cut off at the end of the
    buffer; it returns 1 exactly when some run was replaced. *)
Theorem fast_badword_replace_correct bw line max :
  word_ok (b_word bw) → cstr line → (0 < max)%nat →
  fast_badword_replace bw line max =
    Ok (if any_hit bw line then 1 else 0, take (max - 1) (censor bw line)).
Proof.
  intros Hw Hl Hmax. unfold fast_badword_replace.
  destruct (loop_total (replace_body bw line (max - 1)) (rep_inv bw line (max - 1))
    (λ s, (length line - r_pold s)%nat) (replaced bw line (max - 1)) (replace_step bw line Hw Hl (max - 1))
    (length line + 2) (RS 0 0 [] false)) as (r & -> & Hr).
  - constructor; simpl; try done; [lia|..]; (intros; lia) || lia.
  - simpl. lia.
  - cbn [rbind]. destruct r as [s|out]; simpl in Hr.
    + destruct Hr as [-> ->]. done.
    + destruct Hr as [-> ->]. done.
Qed.

Lemma fast_badword_replace_witness :
  fast_badword_replace (BadWord (bs "bad") false true (Some (bs "X"))) (bs "a BADly, nobad") 9 =
    Ok (1, bs "a X, nob").
Proof.
  rewrite fast_badword_replace_correct; [vm_compute; reflexivity| | |lia].
  - constructor; [discriminate| |]; apply (bool_decide_unpack _); vm_compute; exact I.
  - apply (bool_decide_unpack _); vm_compute; exact I.
Defined.

(** *** Words of the configuration *)

Lemma classify_chars first s l r o :
  cstr s → classify first s l r = Some o → Forall (λ c, c = STAR ∨ wordchar c = true) s.
Proof.
  intros Hs. revert first l r. induction Hs as [|c s Hc _ IH]; intros first l r H; [constructor|].
  cbn [classify] in H. destruct (negb (isalnum c) && negb (128 <=? c)) eqn:E.
  - destruct (first && (c =? STAR)) eqn:E1.
    { apply andb_true_iff in E1 as [_ ->%Z.eqb_eq]. constructor; [by left|eauto]. }
    destruct ((deref s =? 0) && (c =? STAR)) eqn:E2; [|done].
    apply andb_true_iff in E2 as [_ ->%Z.eqb_eq]. constructor; [by left|eauto].
  - constructor; [|eauto]. right. unfold wordchar, iswseperator. rewrite u8_byte by
      (unfold cchar in Hc; unfold byte; lia). by rewrite E.
Qed.

(** Every fast word that the configuration yields satisfies the conditions of
    the theorems above, unless it is empty. *)
Lemma config_word_ok str replace bw :
  cstr str → badword_config_process str replace = Some bw → b_word bw ≠ [] → word_ok (b_word bw).
Proof.
  intros Hs H Hne. unfold badword_config_process in H.
  destruct (classify true str false false) as [[l r]|] eqn:E; [|done]. injection H as <-. simpl in *.
  apply classify_chars in E; [|done]. constructor; [done|..].
  - apply Forall_forall. intros c [_ Hc]%list_elem_of_filter. unfold cstr in Hs. rewrite Forall_forall in Hs. auto.
  - apply Forall_forall. intros c [Hn Hc]%list_elem_of_filter. rewrite Forall_forall in E.
    by destruct (E c Hc).
Qed.
