(* ===== verification/Send.v ===== *)
(** * Sending (src/send.c, deliver_it and dead_socket of src/socket.c)

    A line for a client is cut to size and terminated, appended to the send
    queue of its connection, and written to the socket when the event loop
    says that there is room.  The queue is the block list of Dbuf, the watched
    events are those of Fdlist, and the answers of the operating system are a
    parameter. *)

From stdpp Require Import base tactics list numbers strings gmap.
From Stdlib Require Import ZArith Lia.
From S2P Require Import Prelude Chars Support Utf8 Dbuf Hash Command MessageTags Parse Fdlist.

Local Open Scope Z_scope.

Definition MAXLINELENGTH : nat := Z.to_nat 16384.
Definition MAXTAGSIZE : nat := Z.to_nat 8192.

Definition CLIENT_STATUS_RPC : Z := -10.
Definition CLIENT_STATUS_TLS_CONNECT_HANDSHAKE : Z := -5.
Definition CLIENT_STATUS_TLS_ACCEPT_HANDSHAKE : Z := -4.
Definition IsRPC (c : pclient) : bool := p_status c =? CLIENT_STATUS_RPC.
Definition IsTLSHandshake (c : pclient) : bool :=
  (p_status c =? CLIENT_STATUS_TLS_STARTTLS_HANDSHAKE) ||
  (p_status c =? CLIENT_STATUS_TLS_ACCEPT_HANDSHAKE) ||
  (p_status c =? CLIENT_STATUS_TLS_CONNECT_HANDSHAKE).

(** ** One line *)

(** [sendbufto_one_prepare_line]: [big] is IsServer(to) with
    SupportBIGLINES; [cap] is the size of the buffer the line is in.  The
    result is the buffer afterwards and the length that is returned. *)
Definition sendbufto_one_prepare_line (UTF8ONLY big : bool) (cap : nat) (input : list Z)
  : res (list Z * nat) :=
  let! r := if UTF8ONLY then unrl_utf8_make_valid (Some input) MAXLINELENGTH 0 else Ok MvInput in
  let! (msg, cap) := match r with
                     | MvInput => Ok (input, cap)
                     | MvOutput s => Ok (s, MAXLINELENGTH)
                     | MvNull => UB
                     end in
  let off := if deref msg =? AT then
               match strchr_off (tail msg) SPACE_CH with
               | None => None                                 (* malformed *)
               | Some i => if (MAXTAGSIZE <? S i)%nat then None  (* oversized *) else Some (S (S i))
               end
             else Some 0%nat in
  match off with
  | None => Ok (msg, 0%nat)
  | Some off =>
      let p := drop off msg in
      let len := length p in
      (* p[len++] = '\r'; p[len++] = '\n'; p[len] = '\0' in the buffer [b], [k] bytes before it *)
      let finish k b len :=
        let! (b, len) := if UTF8ONLY then utf8_valid_cutoff b len else Ok (b, len) in
        let! _ := require (k + len + 2 <? cap)%nat in
        Ok (take k msg ++ take len b ++ [CR; LF], (off + (len + 2))%nat) in
      if bool_decide (last p = Some LF) then Ok (msg, (off + len)%nat)
      else if negb big then finish off p (Nat.min len 510)
      else if (MAXLINELENGTH - 3 <? off + len)%nat then finish 0%nat msg (MAXLINELENGTH - 3)%nat
      else finish off p len
  end.

(** ** Connections *)

Record sconn := SConn {
  sc_client : pclient;
  sc_tls : bool;                   (* IsTLS and local->ssl != NULL *)
  sc_closing : bool;               (* IsClosing *)
  sc_fd : Z;
  sc_recvQ : dbuf;
  sc_sendQ : dbuf;
  sc_dead : bool;                  (* IsDeadSocket *)
  sc_error : option (list Z);      (* local->error_str *)
  sc_messages : Z;                 (* traffic.messages_sent *)
  sc_calls : nat;                  (* number of writes tried so far *)
  sc_wire : list Z                 (* what the system has accepted so far *)
}.

Definition set_sendQ (q : dbuf) (c : sconn) : sconn :=
  SConn (sc_client c) (sc_tls c) (sc_closing c) (sc_fd c) (sc_recvQ c) q (sc_dead c) (sc_error c)
    (sc_messages c) (sc_calls c) (sc_wire c).

(** The callbacks of the event loop that this file uses. *)
Definition CB_READ_PACKET : nat := 1.
Definition CB_SEND_QUEUED : nat := 2.

(** What write() or SSL_write() answers. *)
Inductive os_answer :=
| OSWrote (n : nat)
| OSWouldBlock                     (* EWOULDBLOCK, EAGAIN, ENOBUFS; WANT_WRITE of TLS *)
| OSWantRead                       (* WANT_READ of TLS *)
| OSError.

Section Send.
Variable MAXCONNECTIONS : Z.
Variable epoll_ctl_ok : epoll_op → Z → bool.
(** The answer to the nth write, of these bytes. *)
Variable os : nat → list Z → os_answer.

(** The macro [fd_setselect]. *)
Definition fd_setselect (fd flags : Z) (iocb : option nat) (data : nat) (st : fdstate) : fdstate :=
  if fd <? 0 then st else fd_setselect_real MAXCONNECTIONS epoll_ctl_ok fd flags iocb data st.

(** [dead_socket]; cancelling DNS requests is left out.  The last component
    says whether a closed link was logged. *)
Definition dead_socket (notice : list Z) (c : sconn) (t : fdstate) : res (sconn * fdstate * bool) :=
  let! rq := DBufClear (sc_recvQ c) in
  let! sq := DBufClear (sc_sendQ c) in
  let t := if 0 <=? sc_fd c then fd_unnotify MAXCONNECTIONS epoll_ctl_ok (sc_fd c) t else t in
  let c' dead err := SConn (sc_client c) (sc_tls c) (sc_closing c) (sc_fd c) rq sq dead err
                       (sc_messages c) (sc_calls c) (sc_wire c) in
  if sc_dead c then Ok (c' true (sc_error c), t, false)
  else match sc_error c with
  | Some e => Ok (c' true (Some e), t, false)
  | None =>
      let cl := sc_client c in
      let log := negb (IsUser cl) && negb (IsUnknown cl) && negb (IsRPC cl) && negb (IsControl cl) &&
                 negb (sc_closing c) in
      Ok (c' true (Some notice), t, log)
  end.

(** [deliver_it]: the return value, [*want_read], and the connection. *)
Definition deliver_it (data : list Z) (c : sconn) : Z * bool * sconn :=
  let cl := sc_client c in
  if sc_dead c ||
     (negb (IsServer cl) && negb (IsUser cl) && negb (IsHandshake cl) && negb (IsTLSHandshake cl) &&
      negb (IsUnknown cl) && negb (IsControl cl) && negb (IsRPC cl))
  then (-1, false, c)
  else
    let tried n := SConn cl (sc_tls c) (sc_closing c) (sc_fd c) (sc_recvQ c) (sc_sendQ c) (sc_dead c)
                     (sc_error c) (sc_messages c) (S (sc_calls c)) (sc_wire c ++ take n data) in
    match os (sc_calls c) data with
    | OSWrote n => (Z.of_nat n, false, tried n)
    | OSWouldBlock => (0, false, tried 0%nat)
    | OSWantRead => if sc_tls c then (0, true, tried 0%nat) else (-1, false, tried 0%nat)
    | OSError => (-1, false, tried 0%nat)
    end.

(** One round of the loop of [send_queued]; [id] is the client.  The [bool] of
    the result says that a write error ended the function. *)
Definition send_queued_body (id : nat) (s : sconn * fdstate)
  : res (step (sconn * fdstate) (sconn * fdstate * bool)) :=
  let '(c, t) := s in
  if negb (0 <? dlength (sc_sendQ c)) then Ok (Done (c, t, false))
  else match dbuf_list (sc_sendQ c) with
  | [] => UB
  | block :: _ =>
      let '(rlen, want_read, c) := deliver_it block c in
      if rlen <? 0 then
        let! (c, t, _) := dead_socket (bs "Write error") c t in
        Ok (Done (c, t, true))
      else
        let! q := dbuf_delete (sc_sendQ c) (Z.to_nat rlen) in
        let c := set_sendQ q c in
        let fd := sc_fd c in
        if want_read then
          let t := fd_setselect fd FD_SELECT_READ (Some CB_SEND_QUEUED) id t in
          let t := fd_setselect fd FD_SELECT_WRITE None id t in
          Ok (Done (c, t, false))
        else
          let t := fd_setselect fd FD_SELECT_READ (Some CB_READ_PACKET) id t in
          if rlen <? Z.of_nat (length block) then
            Ok (Done (c, fd_setselect fd FD_SELECT_WRITE (Some CB_SEND_QUEUED) id t, false))
          else Ok (Next (c, t))
  end.

Definition send_queued (id : nat) (c : sconn) (t : fdstate) : res (sconn * fdstate * Z) :=
  if sc_dead c then Ok (c, t, -1)
  else
    let! (c, t, error) := loop (send_queued_body id) (S (length (contents (sc_sendQ c)))) (c, t) in
    if error : bool then Ok (c, t, -1)
    else
      let t := if (dlength (sc_sendQ c) =? 0) && (0 <=? sc_fd c)
               then fd_setselect (sc_fd c) FD_SELECT_WRITE None id t else t in
      Ok (c, t, if sc_dead c then -1 else 0).

Definition mark_data_to_send (id : nat) (c : sconn) (t : fdstate) : fdstate :=
  if negb (sc_dead c) && (0 <=? sc_fd c) && (0 <? dlength (sc_sendQ c))
  then fd_setselect (sc_fd c) FD_SELECT_WRITE (Some CB_SEND_QUEUED) id t else t.

Definition send_queued_cb (id : nat) (c : sconn) (t : fdstate) : res (sconn * fdstate) :=
  if sc_dead c then Ok (c, t) else let! (c, t, _) := send_queued id c t in Ok (c, t).

(** [sendbufto_one] for the connection of [to]: [hook] is the chain of packet
    hooks, [sendq] is get_sendq(to), [quick] the length if the line is known to
    be fine. *)
Definition sendbufto_one (UTF8ONLY big : bool) (hook : list Z → option (list Z)) (sendq : Z)
    (id : nat) (cap : nat) (msg : list Z) (quick : nat) (c : sconn) (t : fdstate)
  : res (sconn * fdstate) :=
  if sc_dead c then Ok (c, t)
  else if sc_fd c <? 0 then Ok (c, t)
  else
    let! (msg, len) := if (quick =? 0)%nat then sendbufto_one_prepare_line UTF8ONLY big cap msg
                       else Ok (msg, quick) in
    if (len =? 0)%nat then Ok (c, t)
    else if (MAXLINELENGTH <=? len)%nat then Ok (c, t)
    else if IsMe (sc_client c) then Ok (c, t)
    else
      let! _ := require (len <=? length msg)%nat in
      match hook (take len msg) with
      | None => Ok (c, t)
      | Some msg =>
          if sendq <? dlength (sc_sendQ c) then
            let! (c, t, _) := dead_socket (bs "Max SendQ exceeded") c t in Ok (c, t)
          else
            let! q := dbuf_put (sc_sendQ c) msg in
            let c := SConn (sc_client c) (sc_tls c) (sc_closing c) (sc_fd c) (sc_recvQ c) q (sc_dead c)
                       (sc_error c) (sc_messages c + 1) (sc_calls c) (sc_wire c) in
            if IsControl (sc_client c) then let! (c, t, _) := send_queued id c t in Ok (c, t)
            else Ok (c, mark_data_to_send id c t)
      end.
End Send.

(** ** Theory: one line *)

Lemma utf8_char_ascii ch c : utf8_char ch = true → c ∈ ch → c < 128 → ch = [c].
Proof.
  intros Hch Hc Hlt. apply list_elem_of_lookup_1 in Hc as [i Hi].
  destruct ch as [|a1 [|a2 [|a3 [|a4 [|]]]]]; try done; simpl in Hch; unfold tail_byte, within in *;
    destruct i as [|[|[|[|i]]]]; simplify_eq/=; try done; lia.
Qed.

(** An ASCII character is a boundary. *)
Lemma utf8_split_ascii s a c b :
  utf8 s → s = a ++ c :: b → c < 128 → utf8 (a ++ [c]) ∧ utf8 b.
Proof.
  intros Hs. revert a. induction Hs as [|ch s Hch Hs IH]; intros a E Hc; [by destruct a|].
  destruct (decide (length a < length ch)%nat) as [Hl|Hl].
  - assert (ch = [c]) as ->.
    { apply utf8_char_ascii; [done| |done]. apply list_elem_of_lookup_2 with (length a).
      rewrite <-(lookup_app_l ch s) by lia. rewrite E. by apply list_lookup_middle. }
    destruct a; simpl in Hl; [|lia]. simplify_eq/=. split; [by apply utf8_one|done].
  - apply (f_equal (λ l, (take (length ch) l, drop (length ch) l))) in E.
    rewrite take_app_length, drop_app_length, take_app_le, drop_app_le in E by lia.
    injection E as E1 E2. destruct (IH (drop (length ch) a) E2 Hc) as [H1 H2]. split; [|done].
    rewrite <-(take_drop (length ch) a), <-E1, <-app_assoc. by apply utf8_app.
Qed.

Lemma strchr_off_spec s c i :
  strchr_off s c = Some i → ∃ a b, s = a ++ c :: b ∧ length a = i.
Proof.
  revert i. induction s as [|x s IH]; intros i; simpl; [done|].
  destruct (Z.eqb_spec x c) as [->|_]; [intros [= <-]; by exists [], s|].
  destruct (strchr_off s c) as [j|]; [|done]. intros [= <-].
  destruct (IH j eq_refl) as (a & b & -> & <-). by exists (x :: a), b.
Qed.

(** The line and its tag part after the checks at the start. *)
Lemma prepare_text UTF8ONLY cap input :
  cstr input → (length input + 3 ≤ cap)%nat →
  ∃ r msg cap', (if UTF8ONLY : bool then unrl_utf8_make_valid (Some input) MAXLINELENGTH 0 else Ok MvInput) = Ok r ∧
    match r with MvInput => Ok (input, cap) | MvOutput s => Ok (s, MAXLINELENGTH) | MvNull => UB end
      = Ok (msg, cap') ∧ cstr msg ∧
    (if UTF8ONLY then utf8 msg ∧ ∃ T, repaired input T ∧ msg `prefix_of` T else msg = input) ∧
    (length msg + 3 ≤ cap' ∨ cap' = MAXLINELENGTH)%nat.
Proof.
  intros Hc Hcap. destruct UTF8ONLY.
  - destruct (make_valid_spec input MAXLINELENGTH 0 Hc) as (r & -> & Hr); [unfold MAXLINELENGTH; lia|].
    destruct r as [| |s]; [done|..].
    + exists MvInput, input, cap. destruct Hr as [Hu _]. split_and!; try done; [|lia].
      exists input. split; [|done]. rewrite <-(app_nil_r input). apply repaired_app; [done|constructor].
    + exists (MvOutput s), s, MAXLINELENGTH. destruct Hr as (Hu & _ & _ & T & HT & Hp & _).
      split_and!; try done; [by apply utf8_cstr|by exists T|by right].
  - exists MvInput, input, cap. split_and!; try done. lia.
Qed.

(** The terminated line: cut, followed by CR LF. *)
Lemma cutoff_total (UTF8ONLY : bool) b len :
  (UTF8ONLY = true → utf8 b) → (len ≤ length b)%nat →
  ∃ n, (if UTF8ONLY then utf8_valid_cutoff b len else Ok (b, len)) = Ok (if UTF8ONLY then take n b else b, n) ∧
    (n ≤ len ≤ n + 3)%nat ∧ (UTF8ONLY = true → utf8 (take n b)) ∧ (UTF8ONLY = false → n = len).
Proof.
  intros Hu Hl. destruct UTF8ONLY.
  - destruct (utf8_valid_cutoff_spec b len (Hu eq_refl) Hl) as (n & -> & Hn & ? & ?).
    exists n. split_and!; (done || lia).
  - exists len. split_and!; (done || lia).
Qed.

(** How a line is sent: the tag part as it is; a body that ends in LF as it
    is; another body cut at 510 bytes, unless the link takes big lines, or up to
    three bytes earlier so as not to split a character, and CR LF. *)
Definition line_limit (big : bool) (body : list Z) : nat :=
  if big then length body else Nat.min (length body) 510.
Inductive prepared (UTF8ONLY big : bool) (msg out : list Z) : Prop :=
| Prepared (tags body : list Z) (n : nat) :
    msg = tags ++ body →
    (tags = [] ∨ deref msg = AT ∧ last tags = Some SPACE_CH) →
    (length tags ≤ MAXTAGSIZE + 1)%nat →
    (n ≤ line_limit big body ≤ n + 3)%nat →
    (UTF8ONLY = false → n = line_limit big body) →
    (out = msg ∧ last body = Some LF ∨ out = tags ++ take n body ++ [CR; LF]) →
    prepared UTF8ONLY big msg out.

(** The position of the body. *)
Lemma prepare_offset msg off :
  (if deref msg =? AT then
     match strchr_off (tail msg) SPACE_CH with
     | None => None
     | Some i => if (MAXTAGSIZE <? S i)%nat then None else Some (S (S i))
     end
   else Some 0%nat) = Some off →
  (off ≤ length msg)%nat ∧ (off ≤ MAXTAGSIZE + 1)%nat ∧
  (take off msg = [] ∨ deref msg = AT ∧ last (take off msg) = Some SPACE_CH) ∧
  (utf8 msg → utf8 (take off msg) ∧ utf8 (drop off msg)).
Proof.
  destruct (Z.eqb_spec (deref msg) AT) as [Ha|]; [|intros [= <-]; rewrite drop_0; split_and!; (lia || eauto using utf8_nil)].
  destruct (strchr_off (tail msg) SPACE_CH) as [i|] eqn:Ei; [|done].
  destruct (Nat.ltb_spec MAXTAGSIZE (S i)); [done|]. intros [= <-].
  apply strchr_off_spec in Ei as (a & b & Eb & <-).
  destruct msg as [|x msg]; [done|]. simpl in Eb. subst msg.
  assert (take (S (S (length a))) (x :: a ++ SPACE_CH :: b) = (x :: a) ++ [SPACE_CH] ∧
          drop (S (S (length a))) (x :: a ++ SPACE_CH :: b) = b) as [-> ->].
  { simpl. split; [f_equal|].
    - by rewrite (take_app_ge a), Nat.sub_succ_l, Nat.sub_diag by lia.
    - by rewrite (drop_app_ge a), Nat.sub_succ_l, Nat.sub_diag by lia. }
  split_and!.
  - simpl. rewrite length_app. simpl. lia.
  - lia.
  - right. split; [done|by rewrite last_snoc].
  - intros Hu. by apply (utf8_split_ascii _ (x :: a) SPACE_CH b Hu).
Qed.

(** A line that is too long even for a link that takes big lines: it is cut as
    a whole, and the length of its tag part is counted twice. *)
Definition cut_big (UTF8ONLY big : bool) (msg out : list Z) (n : nat) : Prop :=
  big = true ∧ ∃ tags body k, msg = tags ++ body ∧ (tags = [] ∨ deref msg = AT ∧ last tags = Some SPACE_CH) ∧
    (MAXLINELENGTH - 3 < length msg ∧ k ≤ MAXLINELENGTH - 3 ≤ k + 3)%nat ∧ (UTF8ONLY = false → k = MAXLINELENGTH - 3)%nat ∧
    out = take k msg ++ [CR; LF] ∧ n = (length tags + length out)%nat.

Lemma prepare_spec UTF8ONLY big cap input :
  cstr input → (length input + 3 ≤ cap)%nat →
  ∃ msg out n, sendbufto_one_prepare_line UTF8ONLY big cap input = Ok (out, n) ∧
    (if UTF8ONLY then utf8 msg ∧ ∃ T, repaired input T ∧ msg `prefix_of` T else msg = input) ∧
    (n = 0%nat ∨ (n = length out ∧ prepared UTF8ONLY big msg out ∨ cut_big UTF8ONLY big msg out n) ∧ (UTF8ONLY = true → utf8 out)).
Proof.
  intros Hc Hcap.
  destruct (prepare_text UTF8ONLY cap input Hc Hcap) as (r & msg & cap' & Hr & Hm & Hcm & Hu & Hcap').
  exists msg. unfold sendbufto_one_prepare_line. rewrite Hr. cbn [rbind]. rewrite Hm. cbn [rbind].
  match goal with |- context [match ?o with Some off => _ | None => _ end] => destruct o as [off|] eqn:Eo end;
    [|by exists msg, 0%nat; auto].
  apply prepare_offset in Eo as (Ho & Ht & Htags & Hut).
  assert (UTF8ONLY = true → utf8 (take off msg) ∧ utf8 (drop off msg)) as Hu'.
  { intros ->. apply Hut. by destruct Hu. }
  assert (length (take off msg) = off) as Hlt by (rewrite length_take; lia).
  assert (length (drop off msg) = length msg - off)%nat as Hld by (by rewrite length_drop).
  destruct (bool_decide_reflect (last (drop off msg) = Some LF)) as [Hlf|Hlf].
  { exists msg, (off + length (drop off msg))%nat. split; [done|]. split; [done|]. right.
    split; [|intros ->; by destruct Hu]. left. split; [lia|].
    exists (take off msg) (drop off msg) (line_limit big (drop off msg)); try done; try lia; [|by left].
    by rewrite take_drop. }
  assert (∀ len, len = line_limit big (drop off msg) → (big = true → off + length (drop off msg) ≤ MAXLINELENGTH - 3)%nat →
    ∃ out n, (let! (b, len) := (if UTF8ONLY then utf8_valid_cutoff (drop off msg) len else Ok (drop off msg, len)) in
       let! _ := require (off + len + 2 <? cap')%nat in
       Ok (take off msg ++ take len b ++ [CR; LF], (off + (len + 2))%nat)) = Ok (out, n) ∧
     (if UTF8ONLY then utf8 msg ∧ ∃ T, repaired input T ∧ msg `prefix_of` T else msg = input) ∧
     (n = 0%nat ∨ (n = length out ∧ prepared UTF8ONLY big msg out ∨ cut_big UTF8ONLY big msg out n) ∧ (UTF8ONLY = true → utf8 out))) as Hfin.
  { intros len -> Hb. assert (line_limit big (drop off msg) ≤ length (drop off msg))%nat by (unfold line_limit; destruct big; lia).
    destruct (cutoff_total UTF8ONLY (drop off msg) (line_limit big (drop off msg))) as (n & -> & Hn & Hun & Hne);
      [intros Hx; by apply Hu'|done|]. cbn [rbind].
    assert ((off + n + 2 <? cap')%nat = true) as ->.
    { apply Nat.ltb_lt. destruct Hcap' as [?|Hcc]; [lia|]. destruct big; [specialize (Hb eq_refl); unfold MAXLINELENGTH in *; lia|].
      unfold line_limit, MAXTAGSIZE in *. rewrite Hcc. unfold MAXLINELENGTH. lia. }
    cbn [require rbind].
    replace (take n (if UTF8ONLY then take n (drop off msg) else drop off msg)) with (take n (drop off msg))
      by (destruct UTF8ONLY; [by rewrite take_take, Nat.min_id|done]).
    eexists _, _. split; [done|]. split; [done|]. right. split; [left; split|].
    - rewrite !length_app, Hlt, length_take. simpl. lia.
    - exists (take off msg) (drop off msg) n; try done; try lia; [by rewrite take_drop| by right].
    - intros Hx. destruct (Hu' Hx). apply utf8_concat; [done|]. apply utf8_concat; [by apply Hun|].
      apply (utf8_app [CR]); [done|]. apply (utf8_app [LF]); [done|constructor]. }
  destruct big; simpl negb; cbv iota; [|by apply Hfin].
  destruct (Nat.ltb_spec (MAXLINELENGTH - 3) (off + length (drop off msg))) as [Hlong|]; [|by apply Hfin].
  destruct (cutoff_total UTF8ONLY msg (MAXLINELENGTH - 3)) as (n & -> & Hn & Hun & Hne); [intros ->; by destruct Hu|lia|]. cbn [rbind].
  assert ((0 + n + 2 <? cap')%nat = true) as -> by (apply Nat.ltb_lt; unfold MAXLINELENGTH in *; lia). cbn [require rbind].
  replace (take n (if UTF8ONLY then take n msg else msg)) with (take n msg) by (destruct UTF8ONLY; [by rewrite take_take, Nat.min_id|done]).
  eexists _, _. split; [done|]. split; [done|]. right. split.
  - right. split; [done|]. exists (take off msg), (drop off msg), n. rewrite take_drop, Hlt.
    split_and!; [done|done|lia|lia|lia|done|by rewrite take_0|]. rewrite take_0. simpl. rewrite length_app, length_take. simpl. lia.
  - intros Hx. rewrite take_0, app_nil_l. apply utf8_concat; [by apply Hun|]. apply (utf8_app [CR]); [done|]. apply (utf8_app [LF]); [done|constructor].
Qed.

(** A line for such a link whose tag part has four bytes or more is not sent at all. *)
Lemma repaired_ascii s c t : repaired s (c :: t) → c < 128 → ∃ s', s = c :: s' ∧ repaired s' t.
Proof.
  intros Hr Hc. remember (c :: t) as T eqn:ET. destruct Hr as [|ch s t' Hch Hr|x s t' Hx Hr]; [done| |].
  - assert (ch = [c]) as ->; [|injection ET as ->; by exists s].
    destruct ch as [|x ch]; [by simpl in ET|]. apply utf8_char_ascii; [done|injection ET as <- _; by left|done].
  - exfalso. unfold replacement in ET. injection ET as <- _. lia.
Qed.
Lemma repaired_first s x c t : repaired s (x :: c :: t) → c < 128 → x < 128.
Proof.
  intros Hr Hc. remember (x :: c :: t) as T eqn:ET. destruct Hr as [|ch s t' Hch Hr|y s t' Hy Hr]; [done| |].
  - destruct ch as [|a [|a' ch]]; [done| |].
    + injection ET as -> _. simpl in Hch. unfold within in Hch. lia.
    + injection ET as -> -> _. assert (x :: c :: ch = [c]) as E; [|done]. apply utf8_char_ascii; [done|set_solver|done].
  - exfalso. unfold replacement in ET. injection ET as _ <- _. lia.
Qed.
Definition long_tags (msg : list Z) : Prop := ∀ i, deref msg = AT → strchr_off (tail msg) SPACE_CH = Some i → (2 ≤ i)%nat.
Lemma repaired_long_tags input T msg : repaired input T → msg `prefix_of` T → long_tags input → long_tags msg.
Proof.
  intros Hr [rest ->] Hl i Ha Hi. destruct msg as [|c0 msg]; [done|]. cbn in Ha. subst c0. cbn [tail] in Hi.
  destruct (repaired_ascii _ _ _ Hr) as (s & -> & Hs); [lia|]. destruct (Nat.le_gt_cases 2 i) as [|Hlt]; [done|].
  apply strchr_off_spec in Hi as (a & b & -> & <-). destruct a as [|x [|? ?]]; [| |simpl in Hlt; lia].
  - destruct (repaired_ascii _ _ _ Hs ltac:(lia)) as (s' & -> & _). specialize (Hl 0%nat eq_refl eq_refl). lia.
  - destruct (decide (x = SPACE_CH)) as [->|Hx].
    { destruct (repaired_ascii _ _ _ Hs ltac:(lia)) as (s' & -> & _). specialize (Hl 0%nat eq_refl eq_refl). lia. }
    assert (x < 128) as Hlow by (eapply (repaired_first s x SPACE_CH); [exact Hs|lia]). destruct (repaired_ascii _ _ _ Hs Hlow) as (s' & -> & Hs').
    destruct (repaired_ascii _ _ _ Hs' ltac:(lia)) as (s'' & -> & _). pose proof (Hl 1%nat eq_refl) as H1. cbn [tail strchr_off] in H1.
    destruct (Z.eqb_spec x SPACE_CH) as [|_]; [done|]. specialize (H1 eq_refl). lia.
Qed.

Lemma strchr_off_app a c b : ∃ i, strchr_off (a ++ c :: b) c = Some i ∧ (i ≤ length a)%nat.
Proof.
  induction a as [|x a (i & IH & Hi)]; cbn [app strchr_off].
  - exists 0%nat. by rewrite Z.eqb_refl.
  - destruct (x =? c); [exists 0%nat; split; [done|lia]|]. exists (S i). rewrite IH. simpl. split; [done|lia].
Qed.
Lemma cut_big_length UTF8ONLY big msg out n : cut_big UTF8ONLY big msg out n → long_tags msg → n = length out ∨ (MAXLINELENGTH ≤ n)%nat.
Proof.
  intros (_ & tags & body & k & Em & Ht & (Hlong & Hk1 & Hk2) & _ & -> & ->) Hl. destruct Ht as [->|[Ha Hs]]; [by left|right].
  apply last_Some in Hs as [t Es]. subst tags.
  destruct t as [|x t]; [by subst msg|]. subst msg. cbn in Ha. subst x.
  destruct (strchr_off_app t SPACE_CH body) as (i & Ei & Hi). specialize (Hl i eq_refl). cbn [app tail] in Hl.
  rewrite <-app_assoc in Hl. specialize (Hl Ei). set (msg := ((AT :: t) ++ [SPACE_CH]) ++ body) in *. clearbody msg.
  rewrite !length_app, length_take. cbn [length]. assert (3 ≤ MAXLINELENGTH)%nat as Hm by (apply Nat.leb_le; reflexivity).
  revert Hm Hlong Hk1 Hk2. generalize MAXLINELENGTH. intros m Hm Hlong Hk1 Hk2. lia.
Qed.

(** ** Theory: the queue and the socket *)

Lemma fd_refresh_callbacks ok fd fd' st :
  fde_read (entry (fd_refresh ok fd st) fd') = fde_read (entry st fd') ∧
  fde_write (entry (fd_refresh ok fd st) fd') = fde_write (entry st fd') ∧
  fde_open (entry (fd_refresh ok fd st) fd') = fde_open (entry st fd').
Proof.
  unfold fd_refresh.
  match goal with |- context [match ?o with None => st | Some _ => _ end] => destruct o as [op|] end; [|done].
  destruct (ok op fd); [|done]. unfold entry. simpl.
  destruct (decide (fd = fd')) as [<-|Hne]; [by rewrite lookup_insert_eq|by rewrite lookup_insert_ne].
Qed.

Lemma bool_decide_ne (x y : option nat) : (if bool_decide (x ≠ y) then y else x) = y.
Proof. case_bool_decide as H; [done|]. by destruct (decide (x = y)). Qed.

Section Theory.
Context (MAXCONNECTIONS : Z) (epoll_ctl_ok : epoll_op → Z → bool) (os : nat → list Z → os_answer).
(** The kernel accepts what it is asked to watch. *)
Definition ctl_succeeds : Prop := ∀ op fd, epoll_ctl_ok op fd = true.
Hypothesis os_writes : ∀ k data n, os k data = OSWrote n → (n ≤ length data)%nat.

Abbreviation fd_setselect := (fd_setselect MAXCONNECTIONS epoll_ctl_ok).
Abbreviation dead_socket := (dead_socket MAXCONNECTIONS epoll_ctl_ok).
Abbreviation send_queued_body := (send_queued_body MAXCONNECTIONS epoll_ctl_ok os).
Abbreviation send_queued := (send_queued MAXCONNECTIONS epoll_ctl_ok os).
Abbreviation mark_data_to_send := (mark_data_to_send MAXCONNECTIONS epoll_ctl_ok).
Abbreviation sendbufto_one := (sendbufto_one MAXCONNECTIONS epoll_ctl_ok os).

(** A descriptor that is in the table and open; when the kernel accepts
    everything, it watches what the table says. *)
Definition usable (t : fdstate) (fd : Z) : Prop :=
  (ctl_succeeds → fd_inv t) ∧ 0 ≤ fd < MAXCONNECTIONS ∧ fde_open (entry t fd) = true.

Lemma setselect_spec t fd flags cb data :
  usable t fd →
  usable (fd_setselect fd flags cb data t) fd ∧
  fde_read (entry (fd_setselect fd flags cb data t) fd) =
    (if Z.land flags FD_SELECT_READ =? 0 then fde_read (entry t fd) else cb) ∧
  fde_write (entry (fd_setselect fd flags cb data t) fd) =
    (if Z.land flags FD_SELECT_WRITE =? 0 then fde_write (entry t fd) else cb).
Proof.
  intros (Hi & Hr & Ho). unfold Send.fd_setselect. destruct (Z.ltb_spec fd 0); [lia|].
  assert (ctl_succeeds → fd_inv (fd_setselect_real MAXCONNECTIONS epoll_ctl_ok fd flags cb data t)) as Hinv.
  { intros Hctl. apply (fd_step_inv MAXCONNECTIONS epoll_ctl_ok Hctl t (FSelect fd flags cb data)); auto. }
  unfold usable. revert Hinv. unfold fd_setselect_real, in_range.
  destruct (Z.ltb_spec fd 0), (Z.leb_spec MAXCONNECTIONS fd); try lia. simpl negb. cbv iota.
  set (e := FDE _ _ _ _ _ _ _ _).
  assert (entry (set_entry t fd e) fd = e) as He by (rewrite entry_set; by rewrite decide_True).
  intros Hinv.
  assert (∀ b : bool, let t' := if b then fd_refresh epoll_ctl_ok fd (set_entry t fd e) else set_entry t fd e in
    fde_read (entry t' fd) = fde_read e ∧ fde_write (entry t' fd) = fde_write e ∧
    fde_open (entry t' fd) = fde_open e) as Hcb.
  { intros b. destruct b; simpl; [|by rewrite He].
    destruct (fd_refresh_callbacks epoll_ctl_ok fd fd (set_entry t fd e)) as (-> & -> & ->). by rewrite He. }
  match goal with |- context [if ?b then fd_refresh _ _ _ else _] => destruct (Hcb b) as (-> & -> & ->) end.
  split; [done|]. unfold e. simpl.
  split; [destruct (Z.land flags FD_SELECT_READ =? 0)|destruct (Z.land flags FD_SELECT_WRITE =? 0)]; simpl;
    (done || apply bool_decide_ne).
Qed.

Lemma unnotify_spec t fd :
  usable t fd → let t' := fd_unnotify MAXCONNECTIONS epoll_ctl_ok fd t in
  usable t' fd ∧ fde_read (entry t' fd) = None ∧ fde_write (entry t' fd) = None.
Proof.
  intros (Hi & Hr & Ho) t'. assert (ctl_succeeds → fd_inv t') as Hinv.
  { intros Hctl. apply (fd_step_inv MAXCONNECTIONS epoll_ctl_ok Hctl t (FUnnotify fd)); [auto|done]. }
  unfold usable. revert Hinv. unfold t', fd_unnotify, in_range.
  destruct (Z.ltb_spec fd 0), (Z.leb_spec MAXCONNECTIONS fd); try lia. simpl negb. cbv iota. rewrite Ho. simpl.
  set (e := FDE _ _ _ _ _ _ _ _). intros Hinv.
  destruct (fd_refresh_callbacks epoll_ctl_ok fd fd (set_entry t fd e)) as (-> & -> & ->).
  rewrite entry_set, decide_True by done. unfold e. simpl. done.
Qed.

(** The queues are well-formed, the descriptor is usable, and the client is not
    this server. *)
Record conn_ok (c : sconn) (t : fdstate) : Prop := {
  co_recvQ : dbuf_ok (sc_recvQ c);
  co_sendQ : dbuf_ok (sc_sendQ c);
  co_fd : usable t (sc_fd c);
  co_client : IsMe (sc_client c) = false
}.

(** A dead connection has nothing to send and is not watched. *)
Record is_dead (c : sconn) (t : fdstate) : Prop := {
  de_flag : sc_dead c = true;
  de_queue : contents (sc_sendQ c) = [];
  de_read : fde_read (entry t (sc_fd c)) = None;
  de_write : fde_write (entry t (sc_fd c)) = None
}.

Lemma clear_ok q : dbuf_ok q → ∃ q', DBufClear q = Ok q' ∧ dbuf_ok q' ∧ contents q' = [].
Proof.
  intros Hq. pose proof Hq as (_ & _ & Hl & _). unfold DBufClear.
  destruct (dbuf_delete_ok q (Z.to_nat (dlength q)) Hq) as (q' & H1 & H2 & H3); [lia|].
  exists q'. split_and!; try done. rewrite H3, Hl, Nat2Z.id. apply drop_all.
Qed.

Lemma dead_socket_ok notice c t :
  conn_ok c t → ∃ c' t' b, dead_socket notice c t = Ok (c', t', b) ∧ conn_ok c' t' ∧ is_dead c' t' ∧
    sc_wire c' = sc_wire c ∧ sc_fd c' = sc_fd c.
Proof.
  intros [Hr Hs Hf Hm]. destruct (clear_ok _ Hr) as (rq & Hrq & Hrq1 & _).
  destruct (clear_ok _ Hs) as (sq & Hsq & Hsq1 & Hsq2).
  unfold Send.dead_socket. rewrite Hrq, Hsq. cbn [rbind].
  pose proof Hf as (Hi & Hfd & _). destruct (Z.leb_spec 0 (sc_fd c)); [|lia].
  destruct (unnotify_spec t (sc_fd c) Hf) as (Hus & Hrd & Hwr).
  destruct (sc_dead c); [|destruct (sc_error c)]; eexists _, _, _; (split; [done|]);
    (split; [by split|split; [by split|done]]).
Qed.

(** Data that waits is watched for: either the socket's writability, or, when
    TLS wants to read first, its readability, with the writer as callback.
    Without data the socket is not watched for writing. *)
Definition watches (c : sconn) (t : fdstate) : Prop :=
  if bool_decide (contents (sc_sendQ c) = []) then fde_write (entry t (sc_fd c)) = None
  else fde_write (entry t (sc_fd c)) = Some CB_SEND_QUEUED ∨
       fde_read (entry t (sc_fd c)) = Some CB_SEND_QUEUED.

Lemma dlength_contents q : dbuf_ok q → dlength q = Z.of_nat (length (contents q)).
Proof. by intros (_ & _ & ? & _). Qed.

Lemma deliver_it_spec data c :
  let '(rlen, want, c') := deliver_it os data c in
  sc_dead c = false → sc_dead c' = false ∧ sc_fd c' = sc_fd c ∧ sc_sendQ c' = sc_sendQ c ∧
    sc_recvQ c' = sc_recvQ c ∧ sc_client c' = sc_client c ∧
    (rlen < 0 ∧ sc_wire c' = sc_wire c ∨
     0 ≤ rlen ≤ Z.of_nat (length data) ∧ sc_wire c' = sc_wire c ++ take (Z.to_nat rlen) data).
Proof using os_writes.
  unfold deliver_it. destruct (_ || _); [intros ?; split_and!; (done || (left; done || lia))|].
  destruct (os (sc_calls c) data) as [n| | |] eqn:E; simpl.
  - intros ?. split_and!; try done. right. rewrite Nat2Z.id. apply os_writes in E. split; [lia|done].
  - intros ?. split_and!; try done. right. split; [lia|done].
  - destruct (sc_tls c); simpl; intros ?; split_and!; try done; [right; split; [lia|done]|].
    left. rewrite app_nil_r. split; [lia|done].
  - intros ?. split_and!; try done. left. rewrite app_nil_r. split; [lia|done].
Qed.
(** What stays the same while the queue is written. *)
Definition same_stream (c0 : sconn) (c : sconn) (t : fdstate) : Prop :=
  conn_ok c t ∧ sc_dead c = false ∧ sc_fd c = sc_fd c0 ∧
  sc_wire c ++ contents (sc_sendQ c) = sc_wire c0 ++ contents (sc_sendQ c0).

Definition loop_done (c0 : sconn) (r : sconn * fdstate * bool) : Prop :=
  let '(c, t, error) := r in
  if error : bool
  then conn_ok c t ∧ is_dead c t ∧ sc_fd c = sc_fd c0 ∧
       sc_wire c `prefix_of` sc_wire c0 ++ contents (sc_sendQ c0)
  else same_stream c0 c t ∧
       (contents (sc_sendQ c) = [] ∨ fde_write (entry t (sc_fd c)) = Some CB_SEND_QUEUED ∨
        fde_read (entry t (sc_fd c)) = Some CB_SEND_QUEUED).

Lemma send_queued_body_ok id c0 c t :
  same_stream c0 c t →
  ∃ o, send_queued_body id (c, t) = Ok o ∧
    match o with
    | Next (c', t') => same_stream c0 c' t' ∧
        (length (contents (sc_sendQ c')) < length (contents (sc_sendQ c)))%nat
    | Done r => loop_done c0 r
    end.
Proof using os_writes.
  intros (Hok & Hd & Hfd & Hs). pose proof Hok as [Hr Hq Hf Hm]. unfold Send.send_queued_body.
  pose proof (dlength_contents _ Hq) as Hlen.
  destruct (Z.ltb_spec 0 (dlength (sc_sendQ c))) as [Hpos|Hz]; simpl negb; cbv iota.
  2: { eexists. split; [done|]. split; [done|]. left. destruct (contents (sc_sendQ c)); [done|]. simpl in Hlen. lia. }
  destruct (dbuf_list (sc_sendQ c)) as [|block rest] eqn:El.
  { unfold contents in Hlen. rewrite El in Hlen. simpl in Hlen. lia. }
  assert (contents (sc_sendQ c) = block ++ concat rest) as Hcont by (unfold contents; by rewrite El).
  assert (0 < length block)%nat as Hb.
  { destruct Hq as (Hbl & _). rewrite El in Hbl. apply Forall_cons in Hbl as [Hbl _]. unfold block_ok in Hbl. lia. }
  pose proof (deliver_it_spec block c) as Hdel. destruct (deliver_it os block c) as [[rlen want] c1].
  destruct (Hdel Hd) as (Hd1 & Hf1 & Hq1 & Hr1 & Hm1 & Hcase).
  assert (conn_ok c1 t) as Hok1 by (constructor; by rewrite ?Hf1, ?Hq1, ?Hr1, ?Hm1).
  destruct Hcase as [[Hneg Hw]|[Hn Hw]].
  { destruct (Z.ltb_spec rlen 0); [|lia].
    destruct (dead_socket_ok (bs "Write error") c1 t Hok1) as (c2 & t2 & b & -> & Hok2 & Hdead & Hw2 & Hf2). cbn [rbind].
    eexists. split; [done|]. split_and!; [done|done|congruence|]. rewrite Hw2, Hw, <-Hs. by eexists. }
  destruct (Z.ltb_spec rlen 0); [lia|]. rewrite Hq1.
  destruct (dbuf_delete_ok (sc_sendQ c) (Z.to_nat rlen) Hq) as (q & -> & Hq2 & Hc2);
    [rewrite Hcont, length_app; lia|]. cbn [rbind]. simpl sc_fd.
  assert (sc_wire c1 ++ contents q = sc_wire c0 ++ contents (sc_sendQ c0)) as Hstream.
  { rewrite Hw, Hc2, <-Hs, <-app_assoc. f_equal. rewrite Hcont, drop_app_le by lia.
    by rewrite app_assoc, take_drop. }
  assert (∀ t', usable t' (sc_fd c) → same_stream c0 (set_sendQ q c1) t') as Hnew.
  { intros t' Hu. split_and!; simpl; [constructor; simpl; rewrite ?Hr1, ?Hf1, ?Hm1; done|done|congruence|done]. }
  destruct want.
  - destruct (setselect_spec t (sc_fd c) FD_SELECT_READ (Some CB_SEND_QUEUED) id Hf) as (Hu1 & Hrd1 & _).
    destruct (setselect_spec _ (sc_fd c) FD_SELECT_WRITE None id Hu1) as (Hu2 & Hrd2 & _).
    rewrite Hf1. eexists. split; [done|]. split; [by apply Hnew|]. right; right. simpl.
    rewrite Hf1, Hrd2. exact Hrd1.
  - destruct (setselect_spec t (sc_fd c) FD_SELECT_READ (Some CB_READ_PACKET) id Hf) as (Hu1 & _ & _). rewrite Hf1.
    destruct (Z.ltb_spec rlen (Z.of_nat (length block))).
    + destruct (setselect_spec _ (sc_fd c) FD_SELECT_WRITE (Some CB_SEND_QUEUED) id Hu1) as (Hu2 & _ & Hw2).
      eexists. split; [done|]. split; [by apply Hnew|]. right; left. simpl. rewrite Hf1. exact Hw2.
    + eexists. split; [done|]. split; [by apply Hnew|]. simpl. rewrite Hc2, length_drop, Hcont, length_app. lia.
Qed.

(** [send_queued]: either a write error has killed the connection after some
    of the data was written, or the data is written in order up to a point, and
    the rest is queued and watched for. *)
Lemma send_queued_ok id c t :
  conn_ok c t → sc_dead c = false →
  ∃ c' t' ret, send_queued id c t = Ok (c', t', ret) ∧ conn_ok c' t' ∧ sc_fd c' = sc_fd c ∧
    (is_dead c' t' ∧ sc_wire c' `prefix_of` sc_wire c ++ contents (sc_sendQ c) ∨
     same_stream c c' t' ∧ watches c' t').
Proof using os_writes.
  intros Hok Hd. unfold Send.send_queued. rewrite Hd.
  destruct (loop_total (send_queued_body id) (λ s, same_stream c s.1 s.2)
    (λ s, length (contents (sc_sendQ s.1))) (loop_done c)) with
    (fuel := S (length (contents (sc_sendQ c)))) (s := (c, t)) as ([[c' t'] error] & -> & Hdone).
  - intros [c1 t1] Hs. destruct (send_queued_body_ok id c c1 t1 Hs) as ([[c2 t2]|r] & -> & Ho); eauto.
  - by split_and!.
  - simpl. lia.
  - cbn [rbind]. destruct error.
    { destruct Hdone as (H1 & H2 & H3 & H4). eexists _, _, _. split; [done|]. split_and!; [done|done|by left]. }
    destruct Hdone as [(H1 & H2 & H3 & H4) Hw]. pose proof H1 as [Hr Hq Hf Hm]. rewrite H2.
    rewrite (dlength_contents _ Hq). pose proof Hf as (_ & Hfd & _). destruct (Z.leb_spec 0 (sc_fd c')); [|lia].
    rewrite andb_true_r. destruct (Z.eqb_spec (Z.of_nat (length (contents (sc_sendQ c')))) 0) as [Hz|Hz].
    + destruct (setselect_spec t' (sc_fd c') FD_SELECT_WRITE None id Hf) as (Hu & _ & Hwr).
      eexists _, _, _. split; [done|]. split_and!; [by split|done|]. right.
      split; [by split_and!|]. unfold watches. rewrite bool_decide_eq_true_2; [exact Hwr|].
      destruct (contents (sc_sendQ c')); [done|simpl in Hz; lia].
    + eexists _, _, _. split; [done|]. split_and!; [done|done|]. right. split; [by split_and!|].
      unfold watches. rewrite bool_decide_eq_false_2; [|intros E; by rewrite E in Hz].
      destruct Hw as [Hw|Hw]; [by rewrite Hw in Hz|done].
Qed.

Lemma mark_ok id c t :
  conn_ok c t → sc_dead c = false → contents (sc_sendQ c) ≠ [] →
  conn_ok c (mark_data_to_send id c t) ∧ watches c (mark_data_to_send id c t).
Proof.
  intros [Hr Hq Hf Hm] Hd Hne. unfold Send.mark_data_to_send, watches. rewrite Hd, (dlength_contents _ Hq).
  pose proof Hf as (_ & Hfd & _). destruct (Z.leb_spec 0 (sc_fd c)); [|lia].
  destruct (Z.ltb_spec 0 (Z.of_nat (length (contents (sc_sendQ c)))));
    [|destruct (contents (sc_sendQ c)); simpl in *; (done || lia)].
  simpl. destruct (setselect_spec t (sc_fd c) FD_SELECT_WRITE (Some CB_SEND_QUEUED) id Hf) as (Hu & _ & Hw).
  split; [by split|]. rewrite bool_decide_eq_false_2 by done. left. exact Hw.
Qed.

(** *** Runs *)

Context (UTF8ONLY big : bool) (hook : list Z → option (list Z)) (sendq : Z) (id cap : nat).
Hypothesis hook_ok : ∀ m m', m ≠ [] → (length m < MAXLINELENGTH)%nat → hook m = Some m' →
  m' ≠ [] ∧ Z.of_nat (length m') < 2 ^ 31.
Hypothesis sendq_ok : 0 ≤ sendq < 2 ^ 31.

(** The bytes that a line puts into the stream. *)
Definition queued (msg : list Z) : list Z :=
  match sendbufto_one_prepare_line UTF8ONLY big cap msg with
  | Ok (out, n) =>
      if (n =? 0)%nat || (MAXLINELENGTH <=? n)%nat then [] else default [] (hook (take n out))
  | _ => []
  end.

Lemma prepared_length msg m out n :
  (if UTF8ONLY then utf8 m ∧ ∃ T, repaired msg T ∧ m `prefix_of` T else m = msg) → (big = true → long_tags msg) → (n < MAXLINELENGTH)%nat →
  n = length out ∧ prepared UTF8ONLY big m out ∨ cut_big UTF8ONLY big m out n → n = length out.
Proof.
  intros Hm Hl Hn [[? _]|Hc]; [done|]. destruct (cut_big_length _ _ _ _ _ Hc) as [|]; [|done|lia].
  destruct Hc as [-> _]. destruct UTF8ONLY; [|subst m; auto]. destruct Hm as (_ & T & HT & Hp). eapply repaired_long_tags; eauto.
Qed.

Inductive sop := SLine (msg : list Z) | SWritable.
Definition send_op (s : sconn * fdstate) (o : sop) : res (sconn * fdstate) :=
  let '(c, t) := s in
  match o with
  | SLine msg => sendbufto_one UTF8ONLY big hook sendq id cap msg 0 c t
  | SWritable => send_queued_cb MAXCONNECTIONS epoll_ctl_ok os id c t
  end.
Fixpoint send_run (s : sconn * fdstate) (os : list sop) : res (sconn * fdstate) :=
  match os with
  | [] => Ok s
  | o :: r => let! s := send_op s o in send_run s r
  end.
Definition op_bytes (o : sop) : list Z := match o with SLine msg => queued msg | SWritable => [] end.
Definition op_ok (o : sop) : Prop :=
  match o with SLine msg => cstr msg ∧ (length msg + 3 ≤ cap)%nat ∧ (big = true → long_tags msg) | SWritable => True end.

(** The state after the lines [sent]: alive, with all of them on the wire or
    queued and watched for, or dead, with a prefix on the wire. *)
Definition stream_ok (sent : list Z) (c : sconn) (t : fdstate) : Prop :=
  conn_ok c t ∧
  (is_dead c t ∧ sc_wire c `prefix_of` sent ∨
   sc_dead c = false ∧ sc_wire c ++ contents (sc_sendQ c) = sent ∧ watches c t).

Lemma send_op_ok sent c t o :
  stream_ok sent c t → op_ok o →
  ∃ c' t', send_op (c, t) o = Ok (c', t') ∧ stream_ok (sent ++ op_bytes o) c' t'.
Proof using os_writes hook_ok sendq_ok.
  intros [Hok Hst] Ho.
  assert (sc_dead c = true → stream_ok (sent ++ op_bytes o) c t) as Hdead.
  { intros Hd. destruct Hst as [[Hde Hp]|(? & _)]; [|congruence]. split; [done|]. left. split; [done|].
    by apply prefix_app_r. }
  destruct o as [msg|]; simpl.
  2: { unfold send_queued_cb. destruct (sc_dead c) eqn:Hd; [by eexists _, _; auto|].
       destruct Hst as [[[] _]|(_ & Hw & _)]; [congruence|].
       destruct (send_queued_ok id c t Hok Hd) as (c' & t' & ret & -> & Hok' & _ & Hcase). cbn [rbind].
       eexists _, _. split; [done|]. rewrite app_nil_r. split; [done|].
       destruct Hcase as [[? Hp]|[(_ & ? & _ & Hs) ?]]; [left|right]; rewrite Hw in *; auto. }
  destruct Ho as (Hc & Hcap & Hlong). unfold Send.sendbufto_one. destruct (sc_dead c) eqn:Hd; [by eexists _, _; auto|].
  destruct Hst as [[[] _]|(_ & Hw & Hwa)]; [congruence|].
  pose proof Hok as [Hr Hq Hf Hme]. pose proof Hf as (_ & Hfd & _). destruct (Z.ltb_spec (sc_fd c) 0); [lia|].
  destruct (prepare_spec UTF8ONLY big cap msg Hc Hcap) as (m & out & n & Hp & Hm & Hn).
  simpl (if (0 =? 0)%nat then _ else _). unfold op_bytes, queued. rewrite Hp. cbn [rbind].
  assert (∃ c' t', Ok (c, t) = Ok (c', t') ∧ stream_ok (sent ++ []) c' t') as Hstay.
  { eexists _, _. split; [done|]. rewrite app_nil_r. split; [done|]. right. done. }
  destruct (Nat.eqb_spec n 0) as [->|Hn0]; [done|]. destruct Hn as [?|[Hn _]]; [done|].
  destruct (Nat.leb_spec MAXLINELENGTH n); [done|].
  assert (n = length out) as Hno by (by eapply prepared_length). simpl orb. cbv iota. rewrite Hme.
  rewrite (proj2 (Nat.leb_le n (length out))) by lia. cbn [require rbind].
  destruct (hook (take n out)) as [line|] eqn:Eh; [|done]. simpl default.
  destruct (hook_ok (take n out) line) as [Hne Hll]; [|rewrite length_take; lia|done|].
  { intros E. apply (f_equal length) in E. rewrite length_take in E. simpl in E. lia. }
  destruct (Z.ltb_spec sendq (dlength (sc_sendQ c))) as [Hover|Hunder].
  { destruct (dead_socket_ok (bs "Max SendQ exceeded") c t Hok) as (c2 & t2 & b & -> & Hok2 & Hde & Hw2 & _).
    cbn [rbind]. eexists _, _. split; [done|]. split; [done|]. left. split; [done|].
    rewrite Hw2, <-Hw, <-app_assoc. by eexists. }
  rewrite (dlength_contents _ Hq) in Hunder.
  destruct (dbuf_put_ok (sc_sendQ c) line Hq Hne) as (q & -> & Hq' & Hc'); [lia|]. cbn [rbind].
  set (c1 := SConn _ _ _ _ _ _ _ _ _ _ _).
  assert (conn_ok c1 t) as Hok1 by (by split). assert (sc_dead c1 = false) as Hd1 by done.
  assert (sc_wire c1 ++ contents (sc_sendQ c1) = sent ++ line) as Hs1 by (simpl; by rewrite Hc', app_assoc, Hw).
  destruct (IsControl (sc_client c1)).
  - destruct (send_queued_ok id c1 t Hok1 Hd1) as (c' & t' & ret & -> & Hok' & _ & Hcase). cbn [rbind].
    eexists _, _. split; [done|]. split; [done|].
    destruct Hcase as [[? Hpre]|[(_ & ? & _ & Hs) ?]]; [left|right]; rewrite Hs1 in *; auto.
  - destruct (mark_ok id c1 t Hok1 Hd1) as [Hok2 Hwa2].
    { simpl. rewrite Hc'. intros [_ ?]%app_eq_nil. done. }
    eexists _, _. split; [done|]. split; [done|]. right. done.
Qed.
Lemma send_run_ok sent c t ops :
  stream_ok sent c t → Forall op_ok ops →
  ∃ c' t', send_run (c, t) ops = Ok (c', t') ∧ stream_ok (sent ++ concat (map op_bytes ops)) c' t'.
Proof using os_writes hook_ok sendq_ok.
  intros Hs Ho. revert sent c t Hs. induction Ho as [|o ops Ho _ IH]; intros sent c t Hs.
  - eexists _, _. split; [done|]. simpl. by rewrite app_nil_r.
  - destruct (send_op_ok sent c t o Hs Ho) as (c1 & t1 & H1 & Hs1).
    change (send_run (c, t) (o :: ops)) with (let! st := send_op (c, t) o in send_run st ops).
    rewrite H1. cbn [rbind map concat]. rewrite app_assoc.  by apply IH.
Qed.
End Theory.

(** C26.  Sending.  Lines are sent to a fresh connection, interleaved in any way
    with the event loop's notices that the socket is writable, whatever the
    system answers to each write.  No call goes wrong.  As long as the connection
    is alive, what is on the wire followed by what is queued is exactly the
    prepared lines in the order they were sent: no byte is lost, repeated or
    reordered; and when data is queued the writer is the callback for writing, or
    for reading while TLS wants to read, so that it is not forgotten, and there
    is none for writing when nothing is queued.  A dead connection has put a
    prefix of the lines on the wire, has an empty queue and no callbacks.  When
    the kernel accepts all calls of epoll_ctl, it watches the socket for exactly
    that; a call that fails is logged and not repeated (dispatch.c).  The lines
    have room for CR LF in their buffers, and on a link with big lines tags of at
    least four bytes, if any; the packet hooks give text of less than 2^31 bytes,
    which is not empty; the connection and its descriptor are open. *)
Theorem send_stream_correct MAXCONNECTIONS ctl_ok os UTF8ONLY big hook sendq id cap c t ops :
  (∀ k data n, os k data = OSWrote n → (n ≤ length data)%nat) →
  (∀ m m', m ≠ [] → (length m < MAXLINELENGTH)%nat → hook m = Some m' →
     m' ≠ [] ∧ Z.of_nat (length m') < 2 ^ 31) → 0 ≤ sendq < 2 ^ 31 →
  conn_ok MAXCONNECTIONS ctl_ok c t → sc_dead c = false → sc_wire c = [] → contents (sc_sendQ c) = [] →
  fde_write (entry t (sc_fd c)) = None → Forall (op_ok big cap) ops →
  let sent := concat (map (op_bytes UTF8ONLY big hook cap) ops) in
  ∃ c' t', send_run MAXCONNECTIONS ctl_ok os UTF8ONLY big hook sendq id cap (c, t) ops = Ok (c', t') ∧
    let e := entry t' (sc_fd c') in
    if sc_dead c' then
      sc_wire c' `prefix_of` sent ∧ contents (sc_sendQ c') = [] ∧ fde_read e = None ∧ fde_write e = None ∧
      (ctl_succeeds ctl_ok → watched t' !! sc_fd c' = None)
    else
      sc_wire c' ++ contents (sc_sendQ c') = sent ∧
      (if bool_decide (contents (sc_sendQ c') = []) then fde_write e = None
       else fde_write e = Some CB_SEND_QUEUED ∨ fde_read e = Some CB_SEND_QUEUED) ∧
      (ctl_succeeds ctl_ok →
       let events := default 0 (watched t' !! sc_fd c') in
       if bool_decide (contents (sc_sendQ c') = []) then Z.land events EPOLLOUT = 0
       else Z.land events EPOLLOUT ≠ 0 ∨ Z.land events EPOLLIN ≠ 0 ∧ fde_read e = Some CB_SEND_QUEUED).
Proof.
  intros Hos Hhook Hsq Hok Hd Hw Hq Hwr Hops sent.
  destruct (send_run_ok MAXCONNECTIONS ctl_ok os Hos UTF8ONLY big hook sendq id cap Hhook Hsq [] c t ops)
    as (c' & t' & Hrun & Hok' & Hst); [|done|].
  { split; [done|]. right. rewrite Hw, Hq. split_and!; try done. unfold watches. by rewrite Hq. }
  exists c', t'. split; [done|]. pose proof Hok' as [_ _ (Hinv & _ & _) _]. cbv zeta.
  assert (ctl_succeeds ctl_ok → watched t' !! sc_fd c' =
    if interest (entry t' (sc_fd c')) =? 0 then None else Some (interest (entry t' (sc_fd c')))) as Hk.
  { intros Hctl. destruct (Hinv Hctl) as [Hsync _]. by destruct (Hsync (sc_fd c')). }
  destruct Hst as [[[-> Hdq Hdr Hdw] Hp]|(-> & Hs & Hwa)].
  - split_and!; [done..|]. intros Hctl. rewrite (Hk Hctl). unfold interest. by rewrite Hdr, Hdw.
  - split; [done|]. split; [exact Hwa|]. intros Hctl.
    assert (default 0 (watched t' !! sc_fd c') = interest (entry t' (sc_fd c'))) as ->.
    { rewrite (Hk Hctl). by destruct (Z.eqb_spec (interest (entry t' (sc_fd c'))) 0) as [->|]. }
    unfold interest. revert Hwa. unfold watches. case_bool_decide; [intros ->; by destruct (fde_read _)|].
    intros [-> | ->]; [left; by destruct (fde_read _)|right].
    split; [by destruct (fde_write (entry t' _))|done].
Qed.

Lemma send_stream_correct_witness :
  let ctl := λ (_ : epoll_op) (_ : Z), true in
  (* a system that takes three bytes, would block, then takes everything *)
  let os := λ (k : nat) (data : list Z),
    match k with O => OSWrote (Nat.min 3 (length data)) | 1%nat => OSWouldBlock | _ => OSWrote (length data) end in
  let t := fd_step 1024 ctl (fd_step 1024 ctl (FDS ∅ ∅) (FOpen 5 (bs "client") FDCLOSE_SOCKET))
             (FSelect 5 FD_SELECT_READ (Some CB_READ_PACKET) 3) in
  let cl := PClient (bs "nick") CLIENT_STATUS_USER true 3 false false false false None in
  let c := SConn cl false false 5 dbuf_queue_init dbuf_queue_init false None 0 0 [] in
  let ops := [SLine (bs "PING :a"); SWritable; SLine (bs "PING :b"); SWritable; SWritable] in
  let want := bs "PING :a" ++ [CR; LF] ++ bs "PING :b" ++ [CR; LF] in
  (∃ c' t', send_run 1024 ctl os true false Some 1000 3 100 (c, t) ops = Ok (c', t') ∧
    sc_dead c' = false ∧ sc_wire c' = want) ∧
  concat (map (op_bytes true false Some 100) ops) = want.
Proof.
  intros ctl os t cl c ops want.
  assert (fd_reachable 1024 ctl t) as Hr by (repeat (apply fd_more; [|reflexivity]); apply fd_start).
  destruct (send_stream_correct 1024 ctl os true false Some 1000 3 100 c t ops) as (c' & t' & Hrun & Hs).
  - intros [|[|k]] data n E; cbv beta iota zeta delta [os] in E; try discriminate E; injection E as <-; [apply (Nat.le_min_r 3)|done].
  - intros m m' ? Hl [= <-]. unfold MAXLINELENGTH in Hl. split; [done|lia].
  - lia.
  - split; [by apply dbuf_init_ok|by apply dbuf_init_ok| |done].
    split; [intros _; by apply (fd_reachable_inv 1024 ctl)|]. split; [done|reflexivity].
  - done.
  - done.
  - done.
  - reflexivity.
  - repeat constructor; vm_compute; (done || lia).
  - split; [|vm_compute; reflexivity]. exists c', t'. split; [exact Hrun|].
    vm_compute in Hrun. injection Hrun as <- _. split; reflexivity.
Defined.

(** C38.  Preparing a line.  A line in a buffer with room for CR LF is never
    written past its buffer.  The result is dropped (length 0: tags without an
    end, or too long) or is the line, repaired first in UTF8ONLY mode: its tag
    part as it is, its body as it is when it ends in LF and otherwise cut at 510
    bytes, unless the link takes big lines, and terminated by CR LF; the length
    returned is the length of the text, and in UTF8ONLY mode what is sent is
    valid UTF-8, the cut moving at most three bytes for it.  The one exception is
    a line of more than 16381 bytes on a link that takes big lines: it is cut
    there as a whole, and the length returned is too large by the length of its
    tag part (send.c:284-294), so that with tags of four bytes or more it is
    never sent ([prepare_big_counts_tags_twice]). *)
Theorem prepare_line_correct UTF8ONLY big cap input :
  cstr input → (length input + 3 ≤ cap)%nat →
  ∃ msg out n, sendbufto_one_prepare_line UTF8ONLY big cap input = Ok (out, n) ∧
    (if UTF8ONLY then utf8 msg ∧ ∃ T, repaired input T ∧ msg `prefix_of` T else msg = input) ∧
    (n = 0%nat ∨ (n = length out ∧ prepared UTF8ONLY big msg out ∨ cut_big UTF8ONLY big msg out n) ∧ (UTF8ONLY = true → utf8 out)).
Proof. apply prepare_spec. Qed.

Lemma prepare_line_correct_witness :
  sendbufto_one_prepare_line true false 100 (bs "@t=1 PING") = Ok (bs "@t=1 PING" ++ [CR; LF], 11%nat) ∧
  ∃ out n, sendbufto_one_prepare_line true false 100 (bs "@t=1 PING") = Ok (out, n) ∧ n = length out ∧ utf8 out.
Proof.
  split; [vm_compute; reflexivity|].
  destruct (prepare_line_correct true false 100 (bs "@t=1 PING")) as (msg & out & n & H & _ & Hn);
    [vm_compute; repeat constructor; done|vm_compute; lia|].
  exists out, n. split; [done|]. destruct Hn as [->|[[[-> _]|[? _]] Hu]]; [|by auto|done].
  vm_compute in H. injection H as _ E. discriminate E.
Defined.

(** A line with tags of more than 16381 bytes for a link that takes big lines is
    cut, but the length that is returned counts the tags twice: it is past the
    end of the text and not less than MAXLINELENGTH, so the cut line is not sent
    at all. *)
Lemma prepare_big_counts_tags_twice cap tags body :
  let msg := AT :: tags ++ SPACE_CH :: body in
  cstr msg → Forall (λ c, c ≠ SPACE_CH) tags → (S (length tags) ≤ MAXTAGSIZE)%nat →
  last body ≠ Some LF → (MAXLINELENGTH - 3 < length msg)%nat → (MAXLINELENGTH ≤ cap)%nat →
  sendbufto_one_prepare_line false true cap msg =
    Ok (take (MAXLINELENGTH - 3) msg ++ [CR; LF], (length tags + 2 + (MAXLINELENGTH - 1))%nat).
Proof.
  intros msg Hc Ht Hl Hlf Hlong Hcap. unfold sendbufto_one_prepare_line. cbn [rbind].
  change (deref msg =? AT) with true. cbv iota. change (tail msg) with (tags ++ SPACE_CH :: body).
  assert (strchr_off (tags ++ SPACE_CH :: body) SPACE_CH = Some (length tags)) as ->.
  { clear -Ht. induction Ht as [|x l Hx _ IH]; simpl; [done|]. destruct (Z.eqb_spec x 32); [done|].
    by rewrite IH. }
  destruct (Nat.ltb_spec MAXTAGSIZE (S (length tags))); [lia|].
  assert (drop (S (S (length tags))) msg = body) as ->.
  { unfold msg. simpl. by rewrite drop_app_ge, Nat.sub_succ_l, Nat.sub_diag by lia. }
  rewrite bool_decide_eq_false_2 by done. simpl negb. cbv iota.
  assert (length msg = S (S (length tags)) + length body)%nat as Hlen.
  { unfold msg. simpl. rewrite length_app. simpl. lia. }
  destruct (Nat.ltb_spec (MAXLINELENGTH - 3) (S (S (length tags)) + length body)); [|lia].
  cbn [rbind]. assert (3 ≤ MAXLINELENGTH)%nat as Hm by (unfold MAXLINELENGTH; lia).
  revert Hm Hcap. generalize MAXLINELENGTH. intros m Hm Hcap.
  rewrite (proj2 (Nat.ltb_lt _ _)) by lia. cbn [require rbind].
  replace (S (S (length tags)) + (m - 3 + 2))%nat with (length tags + 2 + (m - 1))%nat by lia. done.
Qed.
