(* ===== verification/Websocket.v ===== *)
(** * Websocket frames (src/modules/websocket_common.c, src/modules/websocket.c)

    What a websocket client sends arrives in chunks of any size; frames are cut
    out of them, unmasked and handed to a callback, or answered if they are
    control frames.  What is sent to such a client is wrapped in frames, one per
    line.  The connection is that of Send. *)

From stdpp Require Import base tactics list numbers strings gmap.
From Stdlib Require Import ZArith Lia.
From S2P Require Import Prelude Chars Support Utf8 Dbuf Hash Command MessageTags Parse Fdlist Send.

Local Open Scope Z_scope.

Definition WSOP_CONTINUATION : Z := 0x00.
Definition WSOP_TEXT : Z := 0x01.
Definition WSOP_BINARY : Z := 0x02.
Definition WSOP_CLOSE : Z := 0x08.
Definition WSOP_PING : Z := 0x09.
Definition WSOP_PONG : Z := 0x0a.

Definition WEBSOCKET_SEND_BUFFER_SIZE : nat := Z.to_nat 16384.

(** ** Frames that are sent *)

(** The header of a frame: first byte and length. *)
Definition ws_header (opcode : Z) (n : nat) : list Z :=
  let len := Z.of_nat n in
  if len <? 126 then [u8 (Z.lor opcode 0x80); u8 len]
  else if len <? 65536 then
    [u8 (Z.lor opcode 0x80); 126; u8 (Z.land (Z.shiftr len 8) 0xFF); u8 (Z.land len 0xFF)]
  else
    [u8 (Z.lor opcode 0x80); 127; 0; 0; 0; 0; u8 (Z.land (Z.shiftr len 24) 0xFF);
     u8 (Z.land (Z.shiftr len 16) 0xFF); u8 (Z.land (Z.shiftr len 8) 0xFF); u8 (Z.land len 0xFF)].

(** [websocket_create_packet_simple], for a pong. *)
Definition websocket_create_packet_simple (opcode : Z) (buf : list Z) : option (list Z) :=
  if 8192 - 8 <? Z.of_nat (length buf) then None
  else if (length buf <? 126)%nat then
    Some ([u8 (Z.lor opcode 0x80); u8 (Z.of_nat (length buf))] ++ buf)
  else
    let len := Z.of_nat (length buf) in
    Some ([u8 (Z.lor opcode 0x80); 126; u8 (Z.land (Z.shiftr len 8) 0xFF); u8 (Z.land len 0xFF)] ++ buf).

Definition is_newline (c : Z) : bool := (c =? LF) || (c =? CR).

(** The two searches of [websocket_create_packet_ex]: for [s2], the end of the
    line, and for the start of the next line.  The byte is read before its
    position is compared with [lastbyte], so that the byte behind the text, a
    NUL, is read too. *)
Fixpoint find_eol (fuel : nat) (buf : list Z) (len s : nat) : res nat :=
  match fuel with
  | O => NoFuel
  | S f =>
      let! c := rd buf s in
      if negb (c =? 0) && (s <? len)%nat then
        if is_newline c then Ok s else find_eol f buf len (S s)
      else Ok s
  end.
Fixpoint skip_eol (fuel : nat) (buf : list Z) (len s : nat) : res nat :=
  match fuel with
  | O => NoFuel
  | S f =>
      let! c := rd buf s in
      if negb (c =? 0) && (s <? len)%nat && is_newline c then skip_eol f buf len (S s) else Ok s
  end.

(** One line: the state is [s] and the contents of [sendbuf]. *)
Definition create_packet_body (opcode : Z) (buf : list Z) (len sendbufsize : nat) (st : nat * list Z)
  : res (step (nat * list Z) (option (list Z))) :=
  let '(s, o) := st in
  let! s2 := find_eol (S (length buf)) buf len s in
  let bytes_to_copy := (s2 - s)%nat in
  let bytes_single_frame :=
    if Z.of_nat bytes_to_copy <? 126 then (2 + bytes_to_copy)%nat
    else if Z.of_nat bytes_to_copy <? 65536 then (4 + bytes_to_copy)%nat
    else (10 + bytes_to_copy)%nat in
  if (sendbufsize <? length o + bytes_single_frame)%nat then Ok (Done None)
  else
    let o := o ++ ws_header opcode bytes_to_copy ++ take bytes_to_copy (drop s buf) in
    let! s := skip_eol (S (length buf)) buf len s2 in
    if (s <? len)%nat then Ok (Next (s, o)) else Ok (Done (Some o)).

(** [None] is the error return, which leaves [*buf] and [*len] alone. *)
Definition websocket_create_packet_ex (opcode : Z) (buf : list Z) (len sendbufsize : nat)
  : res (option (list Z)) :=
  if (len =? 0)%nat then Ok None
  else loop (create_packet_body opcode buf len sendbufsize) (S (S sendbufsize)) (0%nat, []).
Definition websocket_create_packet (opcode : Z) (buf : list Z) (len : nat) : res (option (list Z)) :=
  websocket_create_packet_ex opcode buf len WEBSOCKET_SEND_BUFFER_SIZE.

Inductive ws_type := WEBSOCKET_TYPE_BINARY | WEBSOCKET_TYPE_TEXT.

(** [websocket_packet_out], the hook on outgoing data of a client whose
    handshake is complete.  The return value of [websocket_create_packet] is not
    looked at. *)
Definition websocket_packet_out (ty : ws_type) (msg : list Z) : res (list Z) :=
  match ty with
  | WEBSOCKET_TYPE_BINARY =>
      let! r := websocket_create_packet WSOP_BINARY msg (length msg) in Ok (default msg r)
  | WEBSOCKET_TYPE_TEXT =>
      let! m := unrl_utf8_make_valid (Some msg) (Z.to_nat (8192 + 512 + 1 + 1)%Z) 2 in
      let! safe_msg := match m with MvInput => Ok msg | MvOutput s => Ok s | MvNull => UB end in
      let! r := websocket_create_packet WSOP_TEXT safe_msg (length safe_msg) in Ok (default safe_msg r)
  end.

(** ** Frames that arrive *)

(** [add_lf_if_needed] *)
Definition add_lf_if_needed (buf : list Z) : list Z :=
  match last buf with
  | None => buf
  | Some c => if c =? LF then buf else take (MAXLINELENGTH - 2) buf ++ [LF]
  end.

(** What the handling of frames changes, next to [lefttoparse]: the connection,
    the table of descriptors, fake lag, and when a pong was last seen.  [W] is
    what the callback changes besides. *)
Record ws (W : Type) := WS {
  w_conn : sconn;
  w_fds : fdstate;
  w_lag : lag;
  w_last_msg : Z;
  w_pingsent : bool;
  w_world : W
}.
Arguments WS {_}.
Arguments w_conn {_}.
Arguments w_fds {_}.
Arguments w_lag {_}.
Arguments w_last_msg {_}.
Arguments w_pingsent {_}.
Arguments w_world {_}.

(** Key bytes and payload. *)
Definition unmask (key payload : list Z) : list Z :=
  imap (λ n v, Z.lxor v (nth (n mod 4) key 0)) payload.

Section Websocket.
Context {W : Type}.
Variable MAXCONNECTIONS : Z.
Variable epoll_ctl_ok : epoll_op → Z → bool.
Variable os : nat → list Z → os_answer.
(** get_sendq(client), the client, and TStime(). *)
Variable sendq : Z.
Variable id : nat.
Variable now : Z.
(** The callback for data; [false] if the client is gone. *)
Variable callback : ws W → list Z → res (ws W * bool).

Definition ws_dead (notice : list Z) (s : ws W) : res (ws W) :=
  let! (c, t, _) := dead_socket MAXCONNECTIONS epoll_ctl_ok notice (w_conn s) (w_fds s) in
  Ok (WS c t (w_lag s) (w_last_msg s) (w_pingsent s) (w_world s)).

Definition websocket_send_pong (buf : list Z) (s : ws W) : res (Z * ws W) :=
  match websocket_create_packet_simple WSOP_PONG buf with
  | None => Ok (-1, s)
  | Some b =>
      if sendq <? dlength (sc_sendQ (w_conn s)) then
        let! s := ws_dead (bs "Max SendQ exceeded") s in Ok (-1, s)
      else
        let! q := dbuf_put (sc_sendQ (w_conn s)) b in
        let! (c, t, _) := send_queued MAXCONNECTIONS epoll_ctl_ok os id (set_sendQ q (w_conn s)) (w_fds s) in
        Ok (0, WS c t (w_lag s) (w_last_msg s) (w_pingsent s) (w_world s))
  end.

Definition websocket_handle_packet_ping (buf : list Z) (s : ws W) : res (Z * ws W) :=
  if (500 <? length buf)%nat then
    let! s := ws_dead (bs "WebSocket: oversized PING request") s in Ok (-1, s)
  else
    let! (_, s) := websocket_send_pong buf s in
    Ok (0, WS (w_conn s) (w_fds s) (add_fake_lag (sc_client (w_conn s)) 1000 (w_lag s))
             (w_last_msg s) (w_pingsent s) (w_world s)).

Definition websocket_handle_packet_pong (buf : list Z) (s : ws W) : res (Z * ws W) :=
  if IsRPC (sc_client (w_conn s))
  then Ok (0, WS (w_conn s) (w_fds s) (w_lag s) now false (w_world s))
  else Ok (0, s).

(** The switch on the opcode: 0, or -1 if the client is gone. *)
Definition websocket_dispatch (opcode : Z) (payload : list Z) (s : ws W) : res (Z * ws W) :=
  if (opcode =? WSOP_CONTINUATION) || (opcode =? WSOP_TEXT) || (opcode =? WSOP_BINARY) then
    match payload with
    | [] => Ok (0, s)
    | _ => let! (s, alive) := callback s payload in Ok (if alive : bool then 0 else -1, s)
    end
  else if opcode =? WSOP_CLOSE then let! s := ws_dead (bs "Connection closed") s in Ok (-1, s)
  else if opcode =? WSOP_PING then websocket_handle_packet_ping payload s
  else if opcode =? WSOP_PONG then websocket_handle_packet_pong payload s
  else let! s := ws_dead (bs "WebSocket: Unknown opcode") s in Ok (-1, s).

(** memcpy() of [n] bytes at offset [off]. *)
Definition copy (buf : list Z) (off n : nat) : res (list Z) :=
  let! _ := require (off + n <=? length buf)%nat in Ok (take n (drop off buf)).

(** [websocket_handle_packet]: the size of the frame, 0 for a short read, -1 for
    an error. *)
Definition websocket_handle_packet (readbuf : list Z) (s : ws W) : res (Z * ws W) :=
  let length := Z.of_nat (length readbuf) in
  if length <? 4 then Ok (0, s)
  else
    let! b0 := rd readbuf 0 in
    let! b1 := rd readbuf 1 in
    let opcode := Z.land b0 0x7F in
    let masked := negb (Z.land b1 0x80 =? 0) in
    let len := Z.land b1 0x7F in
    if negb masked && negb (opcode =? WSOP_PONG) then
      let! s := ws_dead (bs "WebSocket packet not masked") s in Ok (-1, s)
    else
    let maskkeylen := if masked then 4 else 0 in
    if len =? 127 then
      let! s := ws_dead (bs "WebSocket packet with insane size") s in Ok (-1, s)
    else if length <? len + 2 + maskkeylen then Ok (0, s)
    else
    let body (p : nat) (len total_packet_size : Z) :=
      let! maskkey := copy readbuf p (Z.to_nat maskkeylen) in
      let! payload := copy readbuf (p + Z.to_nat maskkeylen) (Z.to_nat len) in
      let! _ := require (Z.to_nat len <=? MAXLINELENGTH)%nat in
      let payload := if masked then unmask maskkey payload else payload in
      let! (r, s) := websocket_dispatch opcode payload s in
      Ok (if r <? 0 then -1 else total_packet_size, s) in
    if len =? 126 then
      let! b2 := rd readbuf 2 in
      let! b3 := rd readbuf 3 in
      let len := Z.shiftl b2 8 + b3 in
      if len <? 126 then
        let! s := ws_dead (bs "WebSocket protocol violation (extended payload length too short)") s in
        Ok (-1, s)
      else if length <? len + 4 + maskkeylen then Ok (0, s)
      else body 4%nat len (len + 4 + maskkeylen)
    else body 2%nat len (len + 2 + maskkeylen).

(** The loop over the frames in [readbuf]; the result is what is left to parse,
    the return value and the state. *)
Definition handle_body (st : list Z * ws W) : res (step (list Z * ws W) (list Z * Z * ws W)) :=
  let '(ptr, s) := st in
  let! (n, s) := websocket_handle_packet ptr s in
  if n <? 0 then Ok (Done ([], -1, s))
  else if n =? 0 then Ok (Done (ptr, 0, s))
  else
    let! _ := require (n <=? Z.of_nat (length ptr)) in
    let ptr := drop (Z.to_nat n) ptr in
    match ptr with [] => Ok (Done ([], 0, s)) | _ => Ok (Next (ptr, s)) end.

Definition websocket_handle_websocket (lefttoparse readbuf2 : list Z) (s : ws W)
  : res (list Z * Z * ws W) :=
  if (MAXLINELENGTH - 1 <? length lefttoparse + length readbuf2)%nat then
    let! s := ws_dead (bs "Illegal buffer stacking/Excess flood") s in Ok (lefttoparse, 0, s)
  else
    let readbuf := lefttoparse ++ readbuf2 in
    loop handle_body (S (length readbuf)) (readbuf, s).

(** The chunks of a connection, until the client is gone. *)
Fixpoint ws_run (lefttoparse : list Z) (chunks : list (list Z)) (s : ws W) : res (list Z * Z * ws W) :=
  match chunks with
  | [] => Ok (lefttoparse, 0, s)
  | c :: r =>
      let! (rest, n, s) := websocket_handle_websocket lefttoparse c s in
      if n <? 0 then Ok (rest, n, s) else ws_run rest r s
  end.
End Websocket.

(** [websocket_irc_callback], with [process_packet] for this client. *)
Definition websocket_irc_callback {W} (process_packet : ws W → list Z → res (ws W * bool))
    (s : ws W) (buf : list Z) : res (ws W * bool) :=
  process_packet s (add_lf_if_needed buf).

(** ** Theory: frames that are sent *)

Definition in_line (c : Z) : bool := negb (c =? 0) && negb (is_newline c).

(** The lines of a text: runs of CR and LF separate them, and those at the end
    do not start another one. *)
Fixpoint ws_lines (fuel : nat) (t : list Z) : list (list Z) :=
  match fuel with
  | O => []
  | S f =>
      take_while in_line t ::
      match drop_while is_newline (drop_while in_line t) with
      | [] => []
      | r => ws_lines f r
      end
  end.

Definition ws_frame (opcode : Z) (line : list Z) : list Z := ws_header opcode (length line) ++ line.

Lemma ws_header_length op n :
  length (ws_header op n) =
    (if Z.of_nat n <? 126 then 2%nat else if Z.of_nat n <? 65536 then 4%nat else 10%nat).
Proof. unfold ws_header. by destruct (Z.of_nat n <? 126), (Z.of_nat n <? 65536). Qed.

Lemma find_eol_spec fuel buf len s :
  (s ≤ len ≤ length buf)%nat → (len - s < fuel)%nat →
  find_eol fuel buf len s = Ok (s + length (take_while in_line (drop s (take len buf))))%nat.
Proof.
  revert s. induction fuel as [|fuel IH]; intros s Hs Hf; [lia|]. simpl.
  rewrite (rd_drop buf s) by lia. cbn [rbind].
  destruct (Nat.ltb_spec s len) as [Hlt|Hge].
  - destruct (lookup_lt_is_Some_2 (take len buf) s) as [c Hc]; [rewrite length_take; lia|].
    rewrite (drop_S _ _ _ Hc). rewrite lookup_take_lt in Hc by lia. rewrite (drop_S _ _ _ Hc). simpl.
    unfold in_line at 1. destruct (c =? 0); simpl; [f_equal; lia|].
    destruct (is_newline c); simpl; [f_equal; lia|]. rewrite IH by lia. f_equal. lia.
  - rewrite andb_false_r, drop_ge by (rewrite length_take; lia). simpl. f_equal. lia.
Qed.

Lemma skip_eol_spec fuel buf len s :
  (s ≤ len ≤ length buf)%nat → (len - s < fuel)%nat →
  skip_eol fuel buf len s = Ok (len - length (drop_while is_newline (drop s (take len buf))))%nat.
Proof.
  revert s. induction fuel as [|fuel IH]; intros s Hs Hf; [lia|]. simpl.
  rewrite (rd_drop buf s) by lia. cbn [rbind].
  destruct (Nat.ltb_spec s len) as [Hlt|Hge].
  - destruct (lookup_lt_is_Some_2 (take len buf) s) as [c Hc]; [rewrite length_take; lia|].
    rewrite (drop_S _ _ _ Hc). pose proof Hc as Hc'. rewrite lookup_take_lt in Hc' by lia.
    rewrite (drop_S _ _ _ Hc'). simpl.
    destruct (is_newline c) eqn:En.
    + destruct (Z.eqb_spec c 0) as [->|]; [done|]. simpl. by rewrite IH by lia.
    + rewrite !andb_false_r. simpl. rewrite length_drop, length_take. f_equal. lia.
  - rewrite andb_false_r. simpl. rewrite drop_ge by (rewrite length_take; lia). simpl. f_equal. lia.
Qed.

Lemma create_body_spec op buf len size t o :
  (len ≤ length buf)%nat → t `suffix_of` take len buf →
  create_packet_body op buf len size ((len - length t)%nat, o) = Ok
    (let line := take_while in_line t in
     let t' := drop_while is_newline (drop_while in_line t) in
     if (size <? length o + length (ws_frame op line))%nat then Done None
     else match t' with
          | [] => Done (Some (o ++ ws_frame op line))
          | _ => Next ((len - length t')%nat, o ++ ws_frame op line)
          end).
Proof.
  intros Hl [k Hk]. set (s := (len - length t)%nat).
  assert (length (take len buf) = len) as Hll by (rewrite length_take; lia).
  assert (length k = s) as Hks by (unfold s; rewrite <-Hll, Hk, length_app; lia).
  assert (drop s (take len buf) = t) as Hd by (by rewrite Hk, <-Hks, drop_app_length).
  assert (s + length t = len)%nat as Hst by (rewrite <-Hll, Hk, length_app; lia).
  unfold create_packet_body. rewrite find_eol_spec, Hd by lia. cbn [rbind].
  set (line := take_while in_line t).
  assert (t = line ++ drop_while in_line t) as Ht by (symmetry; apply take_drop_while).
  assert (length line ≤ length t)%nat as Hline by (apply (f_equal length) in Ht; rewrite length_app in Ht; lia).
  rewrite (Nat.add_comm s), Nat.add_sub.
  assert (length (ws_frame op line) =
    if Z.of_nat (length line) <? 126 then (2 + length line)%nat
    else if Z.of_nat (length line) <? 65536 then (4 + length line)%nat else (10 + length line)%nat) as Hfl.
  { unfold ws_frame. rewrite length_app, ws_header_length.
    by destruct (Z.of_nat (length line) <? 126), (Z.of_nat (length line) <? 65536). }
  rewrite <-Hfl. destruct (Nat.ltb_spec size (length o + length (ws_frame op line))); [done|].
  rewrite skip_eol_spec by lia. cbn [rbind].
  assert (drop (length line + s) (take len buf) = drop_while in_line t) as ->.
  { rewrite Nat.add_comm, <-drop_drop, Hd. by rewrite drop_while_drop. }
  assert (take (length line) (drop s buf) = line) as ->.
  { assert (take (length line) t = line) as Htl by (rewrite Ht; apply take_app_length).
    rewrite <-Htl at 2.
    rewrite <-Hd, skipn_firstn_comm, take_take. f_equal. lia. }
  fold (ws_frame op line). set (t' := drop_while is_newline (drop_while in_line t)).
  destruct t' as [|c r] eqn:Et'; simpl length.
  - by rewrite Nat.sub_0_r, Nat.ltb_irrefl.
  - assert (length (c :: r) ≤ length t)%nat as Hle.
    { rewrite <-Et'. unfold t'. etransitivity; apply drop_while_length. }
    simpl length in Hle. rewrite (proj2 (Nat.ltb_lt _ _)) by lia. done.
Qed.

Lemma lines_shrink t :
  0 ∉ t → t ≠ [] → (length (drop_while is_newline (drop_while in_line t)) < length t)%nat.
Proof.
  intros H0 Hne. destruct t as [|c t]; [done|]. simpl. unfold in_line at 1.
  destruct (Z.eqb_spec c 0) as [->|_]; [by destruct H0; left|]. simpl.
  pose proof (drop_while_length in_line t). pose proof (drop_while_length is_newline (drop_while in_line t)).
  pose proof (drop_while_length is_newline t).
  destruct (is_newline c) eqn:En; simpl; [rewrite En|]; lia.
Qed.

Lemma drop_while_suffix {A} (P : A → bool) l : drop_while P l `suffix_of` l.
Proof. exists (take_while P l). by rewrite take_drop_while. Qed.

Lemma lines_rest_suffix t : drop_while is_newline (drop_while in_line t) `suffix_of` t.
Proof. etransitivity; apply drop_while_suffix. Qed.

Lemma create_loop op buf len size n :
  ∀ t o fuel, (len ≤ length buf)%nat → t `suffix_of` take len buf → 0 ∉ t → t ≠ [] →
  (length t ≤ n)%nat → (size + 2 ≤ fuel + length o)%nat → (length o ≤ size)%nat →
  loop (create_packet_body op buf len size) fuel ((len - length t)%nat, o) =
    Ok (let out := o ++ concat (map (ws_frame op) (ws_lines n t)) in
        if (size <? length out)%nat then None else Some out).
Proof.
  induction n as [|n IH]; intros t o fuel Hl Hs H0 Hne Hn Hf Ho; [destruct t; simpl in *; (done || lia)|].
  destruct fuel as [|fuel]; [lia|]. cbn [loop]. rewrite create_body_spec by done. cbn zeta.
  pose proof (lines_shrink t H0 Hne) as Hsh. pose proof (lines_rest_suffix t) as Hss.
  cbn [ws_lines map concat]. set (f := ws_frame op (take_while in_line t)).
  assert (2 ≤ length f)%nat as Hf2.
  { unfold f, ws_frame. rewrite length_app, ws_header_length. repeat case_match; lia. }
  destruct (drop_while is_newline (drop_while in_line t)) as [|c r].
  - cbn [map concat]. rewrite app_nil_r, length_app. by destruct (Nat.ltb_spec size (length o + length f)).
  - rewrite app_assoc. destruct (Nat.ltb_spec size (length o + length f)) as [Hov|Hfit].
    + rewrite (proj2 (Nat.ltb_lt _ _)) by (rewrite !length_app; lia). done.
    + apply IH; try done; [by etransitivity| |lia|rewrite length_app; lia|rewrite length_app; lia].
      intros Hc. apply H0. by eapply elem_of_suffix.
Qed.

Lemma lines_keep_nul t : 0 ∈ t → 0 ∈ drop_while is_newline (drop_while in_line t).
Proof.
  intros H0. rewrite <-(take_drop_while in_line t) in H0.
  apply elem_of_app in H0 as [H0|H0].
  { pose proof (take_while_Forall in_line t) as Hf. rewrite Forall_forall in Hf. by apply Hf in H0. }
  rewrite <-(take_drop_while is_newline (drop_while in_line t)) in H0.
  apply elem_of_app in H0 as [H0|H0]; [|done].
  pose proof (take_while_Forall is_newline (drop_while in_line t)) as Hf. rewrite Forall_forall in Hf.
  by apply Hf in H0.
Qed.

(** A text with a NUL never fits: the search stays at the NUL. *)
Lemma create_nul op buf len size t o fuel :
  (len ≤ length buf)%nat → t `suffix_of` take len buf → 0 ∈ t → (length o ≤ size)%nat →
  (size - length o < fuel)%nat →
  loop (create_packet_body op buf len size) fuel ((len - length t)%nat, o) = Ok None.
Proof.
  intros Hl Hs H0 Ho Hf.
  destruct (loop_total (create_packet_body op buf len size)
    (λ '(s, o), ∃ t, s = (len - length t)%nat ∧ t `suffix_of` take len buf ∧ 0 ∈ t ∧ (length o ≤ size)%nat)
    (λ '(_, o), (size - length o)%nat) (λ r, r = None)) with (fuel := fuel) (s := ((len - length t)%nat, o))
    as (r & -> & ->); [|by exists t|done|done].
  clear -Hl. intros [s o] (t & -> & Hs & H0 & Ho). eexists. split; [by apply create_body_spec|]. cbn zeta.
  pose proof (lines_keep_nul t H0) as H0'. pose proof (lines_rest_suffix t) as Hss.
  set (f := ws_frame op (take_while in_line t)).
  assert (2 ≤ length f)%nat as Hf2.
  { unfold f, ws_frame. rewrite length_app, ws_header_length. repeat case_match; lia. }
  destruct (Nat.ltb_spec size (length o + length f)); [done|].
  destruct (drop_while is_newline (drop_while in_line t)) as [|c r] eqn:E; [by apply elem_of_nil in H0'|].
  rewrite length_app. split; [|lia]. exists (c :: r). split_and!; [done|by etransitivity|done|lia].
Qed.

Lemma create_packet_spec op buf len size :
  (0 < len ≤ length buf)%nat →
  websocket_create_packet_ex op buf len size =
    Ok (let text := take len buf in
        let out := concat (map (ws_frame op) (ws_lines len text)) in
        if bool_decide (0 ∈ text) || (size <? length out)%nat then None else Some out).
Proof.
  intros Hl. unfold websocket_create_packet_ex. destruct (Nat.eqb_spec len 0); [lia|].
  assert (length (take len buf) = len) as Hll by (rewrite length_take; lia).
  replace 0%nat with (len - length (take len buf))%nat by lia. cbv zeta.
  destruct (bool_decide_reflect (0 ∈ take len buf)) as [H0|H0]; simpl orb.
  - apply create_nul; simpl; (done || lia).
  - apply (create_loop op buf len size len (take len buf) []); simpl; try done; try lia.
    intros E. rewrite E in Hll. simpl in Hll. lia.
Qed.

(** The frames of a stream, as RFC 6455 defines them (unmasked, from the server):
    the first byte and the payload. *)
Definition be (l : list Z) : Z := foldl (λ a b, 256 * a + b) 0 l.
Fixpoint ws_decode (fuel : nat) (data : list Z) : option (list (Z * list Z)) :=
  match fuel, data with
  | _, [] => Some []
  | S f, b0 :: b1 :: r =>
      let '(len, r) := if b1 <? 126 then (b1, r)
                       else if b1 =? 126 then (be (take 2 r), drop 2 r)
                       else (be (take 8 r), drop 8 r) in
      if Z.of_nat (length r) <? len then None
      else (λ fs, (b0, take (Z.to_nat len) r) :: fs) <$> ws_decode f (drop (Z.to_nat len) r)
  | _, _ => None
  end.

Lemma be_bytes n :
  0 ≤ n < 2 ^ 32 →
  be [u8 (Z.land (Z.shiftr n 24) 0xFF); u8 (Z.land (Z.shiftr n 16) 0xFF);
      u8 (Z.land (Z.shiftr n 8) 0xFF); u8 (Z.land n 0xFF)] = n.
Proof.
  intros Hn. change 0xFF with (Z.ones 8). rewrite !Z.land_ones, !Z.shiftr_div_pow2 by lia.
  unfold u8. rewrite !Zmod_mod. unfold be. simpl foldl.
  change (2 ^ 8) with 256. change (2 ^ 24) with 16777216. change (2 ^ 16) with 65536.
  change (2 ^ 32) with 4294967296 in Hn. dlia.
Qed.

Lemma ws_frame_decode op line rest fuel :
  Z.of_nat (length line) < 2 ^ 32 →
  ws_decode (S fuel) (ws_frame op line ++ rest) =
    (λ fs, (u8 (Z.lor op 0x80), line) :: fs) <$> ws_decode fuel rest.
Proof.
  intros Hl. unfold ws_frame, ws_header. set (n := Z.of_nat (length line)) in *.
  assert (∀ r, (Z.of_nat (length (line ++ r)) <? n) = false ∧
    take (Z.to_nat n) (line ++ r) = line ∧ drop (Z.to_nat n) (line ++ r) = r) as Hr.
  { intros r. unfold n. rewrite Nat2Z.id, take_app_length, drop_app_length, length_app.
    split; [apply Z.ltb_ge; lia|done]. }
  destruct (Z.ltb_spec n 126) as [H1|H1]; [|destruct (Z.ltb_spec n 65536) as [H2|H2]].
  - simpl app. cbn [ws_decode]. assert (u8 n = n) as -> by (apply Z.mod_small; lia).
    rewrite (proj2 (Z.ltb_lt n 126)) by done. by destruct (Hr rest) as (-> & -> & ->).
  - simpl app. cbn [ws_decode take drop]. change (126 <? 126) with false. change (126 =? 126) with true. cbv iota.
    rewrite drop_0, take_0. replace (be [_; _]) with n; [by destruct (Hr rest) as (-> & -> & ->)|].
    rewrite <-(be_bytes n) at 1 by lia. unfold be. simpl foldl.
    replace (Z.shiftr n 24) with 0; [replace (Z.shiftr n 16) with 0; [done|]|];
      rewrite Z.shiftr_div_pow2, Z.div_small by lia; done.
  - simpl app. cbn [ws_decode take drop]. change (127 <? 126) with false. change (127 =? 126) with false. cbv iota.
    rewrite drop_0, take_0. replace (be [0; 0; 0; 0; _; _; _; _]) with n; [by destruct (Hr rest) as (-> & -> & ->)|].
    rewrite <-(be_bytes n) at 1 by lia. done.
Qed.

Lemma ws_frames_decode op lines fuel :
  Forall (λ l, Z.of_nat (length l) < 2 ^ 32) lines → (length lines ≤ fuel)%nat →
  ws_decode fuel (concat (map (ws_frame op) lines)) = Some (map (pair (u8 (Z.lor op 0x80))) lines).
Proof.
  intros Hl. revert fuel. induction Hl as [|l lines Hl _ IH]; intros fuel Hf; simpl; [by destruct fuel|].
  destruct fuel as [|fuel]; simpl in Hf; [lia|]. rewrite ws_frame_decode, IH by (done || lia). done.
Qed.

Lemma ws_lines_short n t : Forall (λ l, (length l ≤ length t)%nat) (ws_lines n t) ∧ (length (ws_lines n t) ≤ n)%nat.
Proof.
  revert t. induction n as [|n IH]; intros t; simpl; [split; [constructor|lia]|].
  assert (∀ l, length (take_while in_line l) ≤ length l)%nat as Htw.
  { intros l. pose proof (f_equal length (take_drop_while in_line l)) as E. rewrite length_app in E. lia. }
  pose proof (suffix_length _ _ (lines_rest_suffix t)) as Hs.
  destruct (drop_while is_newline (drop_while in_line t)) as [|c r].
  - split; [repeat constructor; apply Htw|simpl; lia].
  - destruct (IH (c :: r)) as [Hf Hn]. split; [|simpl; lia]. constructor; [apply Htw|].
    eapply Forall_impl; [exact Hf|]. simpl. intros l ?. simpl in *. lia.
Qed.

(** ** Theory: frames that arrive *)

(** A masked frame of a client; [f_first] is its first byte. *)
Record cframe := CFrame { f_first : Z; f_key : list Z; f_payload : list Z }.
Definition f_op (f : cframe) : Z := Z.land (f_first f) 0x7F.

Definition cframe_header (f : cframe) : list Z :=
  let n := Z.of_nat (length (f_payload f)) in
  if n <? 126 then [f_first f; Z.lor 0x80 n]
  else [f_first f; Z.lor 0x80 126; n / 256; n mod 256].
(** The masking of RFC 6455: the octets of the key are used in turn. *)
Fixpoint ws_mask (key payload : list Z) : list Z :=
  match payload, key with
  | v :: r, k :: rest => Z.lxor v k :: ws_mask (rest ++ [k]) r
  | _, _ => payload
  end.
(** The frame on the wire. *)
Definition cframe_bytes (f : cframe) : list Z :=
  cframe_header f ++ f_key f ++ ws_mask (f_key f) (f_payload f).

Record cframe_ok (f : cframe) : Prop := {
  cf_key : length (f_key f) = 4%nat;
  cf_size : (length (cframe_bytes f) < MAXLINELENGTH)%nat
}.

Lemma length_unmask key p : length (unmask key p) = length p.
Proof. unfold unmask. by rewrite length_imap. Qed.

Lemma unmask_unmask key p : unmask key (unmask key p) = p.
Proof.
  apply list_eq. intros i. unfold unmask. rewrite !list_lookup_imap.
  destruct (p !! i) as [c|]; [|done]. simpl. by rewrite Z.lxor_assoc, Z.lxor_nilpotent, Z.lxor_0_r.
Qed.

Lemma ws_mask_unmask key p : length key = 4%nat → ws_mask key p = unmask key p.
Proof.
  revert key. induction p as [|v p IH]; intros key Hk; [done|].
  destruct key as [|a [|b [|c [|d [|]]]]]; try done. cbn [ws_mask app]. rewrite IH by done.
  unfold unmask. cbn [imap]. f_equal. apply imap_ext. intros n x _. cbn [compose]. f_equal.
  replace (S n mod 4)%nat with (S (n mod 4) mod 4)%nat by (rewrite <-(Nat.add_1_l (n mod 4)), Nat.Div0.add_mod_idemp_r; done).
  pose proof (Nat.mod_upper_bound n 4 ltac:(done)).
  destruct (n mod 4)%nat as [|[|[|[|]]]]; try reflexivity. lia.
Qed.

Lemma length_ws_mask key p : length (ws_mask key p) = length p.
Proof. revert key. induction p as [|v p IH]; intros [|k key]; simpl; try done. by rewrite IH. Qed.

Lemma masked_len n :
  0 ≤ n < 128 → Z.land (Z.lor 0x80 n) 0x80 = 0x80 ∧ Z.land (Z.lor 0x80 n) 0x7F = n.
Proof.
  intros Hn. assert (Z.land n 0x80 = 0) as H1.
  { apply Z.bits_inj'. intros i Hi. rewrite Z.land_spec, Z.bits_0. change 0x80 with (2 ^ 7).
    rewrite Z.pow2_bits_eqb by lia. destruct (Z.eqb_spec 7 i) as [<-|]; [|apply andb_false_r].
    rewrite Z.bits_above_log2; [done|lia|]. destruct (decide (n = 0)) as [->|]; [done|].
    apply Z.log2_lt_pow2; lia. }
  rewrite !Z.land_lor_distr_l. rewrite H1. split; [done|].
  change (Z.land 128 127) with 0. simpl. change 127 with (Z.ones 7). rewrite Z.land_ones by lia.
  apply Z.mod_small. lia.
Qed.

Section Arrive.
Context {W : Type} (MAXCONNECTIONS : Z) (epoll_ctl_ok : epoll_op → Z → bool)
  (os : nat → list Z → os_answer) (sendq : Z) (id : nat) (now : Z)
  (callback : ws W → list Z → res (ws W * bool)).

Abbreviation dispatch := (websocket_dispatch MAXCONNECTIONS epoll_ctl_ok os sendq id now callback).
Abbreviation handle_packet := (websocket_handle_packet MAXCONNECTIONS epoll_ctl_ok os sendq id now callback).
Abbreviation handle_body := (handle_body MAXCONNECTIONS epoll_ctl_ok os sendq id now callback).
Abbreviation handle := (websocket_handle_websocket MAXCONNECTIONS epoll_ctl_ok os sendq id now callback).
Abbreviation ws_run := (ws_run MAXCONNECTIONS epoll_ctl_ok os sendq id now callback).

(** What the frames of a client mean: each is dispatched with its opcode and its
    payload, until the client is gone. *)
Fixpoint frames_meaning (fs : list cframe) (s : ws W) : res (Z * ws W) :=
  match fs with
  | [] => Ok (0, s)
  | f :: r =>
      let! (n, s) := dispatch (f_op f) (f_payload f) s in
      if n <? 0 then Ok (-1, s) else frames_meaning r s
  end.

Lemma frames_meaning_app fs1 fs2 s :
  frames_meaning (fs1 ++ fs2) s =
    let! (n, s) := frames_meaning fs1 s in if n <? 0 then Ok (n, s) else frames_meaning fs2 s.
Proof.
  revert s. induction fs1 as [|f fs1 IH]; intros s; [done|]. simpl.
  destruct (dispatch (f_op f) (f_payload f) s) as [[n s1]| |]; cbn [rbind]; [|done|done].
  destruct (Z.ltb_spec n 0); [done|]. apply IH.
Qed.

Lemma cframe_length f :
  length (cframe_bytes f) = (length (cframe_header f) + length (f_key f) + length (f_payload f))%nat.
Proof. unfold cframe_bytes. rewrite !length_app, length_ws_mask. lia. Qed.

(** The frame at the start of the data, once its header is there. *)
Definition take_frame (op : Z) (d : list Z) (p : nat) (n : Z) (s : ws W) : res (Z * ws W) :=
  let! key := copy d p 4 in
  let! payload := copy d (p + 4) (Z.to_nat n) in
  let! _ := require (Z.to_nat n <=? MAXLINELENGTH)%nat in
  let! (r, s) := dispatch op (unmask key payload) s in
  Ok (if r <? 0 then -1 else n + Z.of_nat p + 4, s).

Lemma packet_header f t s :
  let d := cframe_header f ++ t in
  let n := Z.of_nat (length (f_payload f)) in
  n < 65536 → (4 ≤ length d)%nat →
  handle_packet d s =
    if Z.of_nat (length d) <? Z.of_nat (length (cframe_header f)) + 4 + n then Ok (0, s)
    else take_frame (f_op f) d (length (cframe_header f)) n s.
Proof.
  intros d n Hn Hd. unfold websocket_handle_packet.
  destruct (Z.ltb_spec (Z.of_nat (length d)) 4); [lia|]. unfold take_frame, f_op.
  revert Hd. unfold d, cframe_header. fold n. destruct (Z.ltb_spec n 126) as [Hs|Hl]; intros Hd.
  - destruct (masked_len n ltac:(lia)) as [Hm1 Hm2]. simpl app.
    rewrite (rd_lookup _ 0 (f_first f)), (rd_lookup _ 1 (Z.lor 128 n)) by done. cbn [rbind].
    rewrite Hm1, Hm2. simpl negb. cbv iota. destruct (Z.eqb_spec n 127); [lia|]. destruct (Z.eqb_spec n 126); [lia|].
    change (Z.of_nat (length [f_first f; Z.lor 128 n])) with 2.
    replace (2 + 4 + n) with (n + 2 + 4) by lia. done.
  - destruct (masked_len 126 ltac:(lia)) as [Hm1 Hm2]. simpl app.
    rewrite (rd_lookup _ 0 (f_first f)), (rd_lookup _ 1 (Z.lor 128 126)),
      (rd_lookup _ 2 (n / 256)), (rd_lookup _ 3 (n mod 256)) by done. cbn [rbind].
    rewrite Hm1, Hm2. simpl negb. cbv iota. change (126 =? 127) with false. cbv iota.
    change (126 =? 126) with true. cbv iota. rewrite Z.shiftl_mul_pow2 by lia.
    replace (n / 256 * 2 ^ 8 + n mod 256) with n by (change (2 ^ 8) with 256; dlia).
    change (Z.of_nat (length [_; _; _; _])) with 4.
    rewrite (proj2 (Z.ltb_ge n 126)) by lia.
    set (l := Z.of_nat (length _)). destruct (Z.ltb_spec l (126 + 2 + 4)), (Z.ltb_spec l (4 + 4 + n)); try lia; [done|..];
      destruct (Z.ltb_spec l (n + 4 + 4)); (lia || done).
Qed.
Lemma cframe_ok_size f :
  cframe_ok f → Z.of_nat (length (f_payload f)) < 16384 ∧
  (6 ≤ length (cframe_bytes f))%nat ∧ (2 ≤ length (cframe_header f) ≤ 4)%nat ∧
  length (cframe_bytes f) = (length (cframe_header f) + 4 + length (f_payload f))%nat.
Proof.
  intros [Hk Hs]. rewrite cframe_length, Hk in *. unfold MAXLINELENGTH in Hs.
  assert (2 ≤ length (cframe_header f) ≤ 4)%nat by (unfold cframe_header; case_match; simpl; lia). lia.
Qed.

Lemma copy_middle a b c p n : length a = p → length b = n → copy (a ++ b ++ c) p n = Ok b.
Proof.
  intros <- <-. unfold copy. rewrite (proj2 (Nat.leb_le _ _)) by (rewrite !length_app; lia). cbn [require rbind].
  by rewrite drop_app_length, take_app_length.
Qed.

Lemma packet_frame f rest s :
  cframe_ok f →
  handle_packet (cframe_bytes f ++ rest) s =
    let! (n, s) := dispatch (f_op f) (f_payload f) s in
    Ok (if n <? 0 then -1 else Z.of_nat (length (cframe_bytes f)), s).
Proof.
  intros Hf. destruct (cframe_ok_size f Hf) as (Hn & H6 & Hh & Hlen). pose proof Hf as [Hk _].
  unfold cframe_bytes at 1. rewrite ws_mask_unmask by done. rewrite <-!app_assoc, packet_header; cycle 1.
  { lia. }
  { rewrite !length_app, length_unmask. lia. }
  rewrite (proj2 (Z.ltb_ge _ _)) by (rewrite !length_app, length_unmask; lia).
  unfold take_frame. rewrite (copy_middle (cframe_header f) (f_key f)) by done. cbn [rbind].
  rewrite (app_assoc (cframe_header f)), (copy_middle _ (unmask (f_key f) (f_payload f)));
    [|by rewrite length_app, Hk|by rewrite length_unmask, Nat2Z.id]. cbn [rbind].
  rewrite (proj2 (Nat.leb_le _ _)) by (unfold MAXLINELENGTH; lia). cbn [require rbind].
  rewrite unmask_unmask, Hlen.
  replace (Z.of_nat (length (f_payload f)) + Z.of_nat (length (cframe_header f)) + 4)
    with (Z.of_nat (length (cframe_header f) + 4 + length (f_payload f))) by lia. done.
Qed.

(** A part of a frame is a short read. *)
Lemma packet_partial f p q s :
  cframe_ok f → p ++ q = cframe_bytes f → q ≠ [] → handle_packet p s = Ok (0, s).
Proof.
  intros Hf Hpq Hq. destruct (cframe_ok_size f Hf) as (Hn & H6 & Hh & Hlen).
  assert (length p < length (cframe_bytes f))%nat as Hp.
  { rewrite <-Hpq, length_app. destruct q; [done|simpl; lia]. }
  destruct (decide (length p < 4)%nat).
  { unfold websocket_handle_packet. by rewrite (proj2 (Z.ltb_lt _ _)) by lia. }
  assert (p = cframe_header f ++ drop (length (cframe_header f)) p) as Ep.
  { rewrite <-(take_drop (length (cframe_header f)) p) at 1. f_equal.
    apply (f_equal (take (length (cframe_header f)))) in Hpq. unfold cframe_bytes in Hpq.
    by rewrite take_app_le, take_app_length in Hpq by lia. }
  rewrite Ep. rewrite packet_header by (rewrite <-?Ep; lia). rewrite <-Ep.
  by rewrite (proj2 (Z.ltb_lt _ _)) by lia.
Qed.

Abbreviation wire fs := (concat (map cframe_bytes fs)).

(** Less than one frame of what follows. *)
Definition incomplete (rest : list Z) (fs : list cframe) : Prop :=
  match fs with [] => rest = [] | f :: _ => (length rest < length (cframe_bytes f))%nat end.

(** The start of a stream of frames is some frames and an incomplete one. *)
Lemma cut_exists fs p q :
  p ++ q = wire fs →
  ∃ fs1 rest fs2, fs = fs1 ++ fs2 ∧ p = wire fs1 ++ rest ∧ rest ++ q = wire fs2 ∧ incomplete rest fs2.
Proof.
  revert p. induction fs as [|f fs IH]; intros p Hp; simpl in Hp.
  - apply app_eq_nil in Hp as [-> ->]. by exists [], [], [].
  - destruct (decide (length p < length (cframe_bytes f))%nat) as [Hlt|Hge].
    + by exists [], p, (f :: fs).
    + apply (f_equal (λ l, (take (length (cframe_bytes f)) l, drop (length (cframe_bytes f)) l))) in Hp.
      rewrite take_app_length, drop_app_length, take_app_le, drop_app_le in Hp by lia. injection Hp as H1 H2.
      destruct (IH _ H2) as (fs1 & rest & fs2 & -> & Hd & Hr & Hi). exists (f :: fs1), rest, fs2.
      split_and!; try done. simpl. rewrite <-app_assoc, <-Hd.
      rewrite <-(take_drop (length (cframe_bytes f)) p) at 1. by rewrite H1.
Qed.

Lemma loop_frames fs1 rest fs2 q fuel s :
  rest ++ q = wire fs2 → incomplete rest fs2 → Forall cframe_ok fs1 → Forall cframe_ok fs2 →
  (length (wire fs1 ++ rest) < fuel)%nat →
  loop handle_body fuel (wire fs1 ++ rest, s) =
    let! (n, s) := frames_meaning fs1 s in Ok (if n <? 0 then [] else rest, n, s).
Proof.
  intros Hq Hi Hf1 Hf2. revert fuel s. induction Hf1 as [|f fs1 Hf Hf1 IH]; intros fuel s Hfuel;
    (destruct fuel as [|fuel]; [lia|]); simpl wire; cbn [loop frames_meaning].
  - assert (handle_packet rest s = Ok (0, s)) as Hp.
    { destruct fs2 as [|f fs2]; simpl in Hi; [by subst|]. inversion Hf2; subst.
      simpl in Hq. apply (f_equal (take (length (cframe_bytes f)))) in Hq.
      rewrite take_app_length, take_app_ge in Hq by lia.
      eapply packet_partial; [done|exact Hq|]. intros E. apply (f_equal length) in Hq.
      rewrite E, app_nil_r in Hq. lia. }
    simpl app. unfold Websocket.handle_body. rewrite Hp. done.
  - unfold Websocket.handle_body at 1. simpl wire in Hfuel. rewrite <-app_assoc in *. rewrite packet_frame by done.
    destruct (cframe_ok_size f Hf) as (_ & H6 & _). rewrite length_app in Hfuel.
    destruct (dispatch (f_op f) (f_payload f) s) as [[n s1]| |]; cbn [rbind]; [|done|done].
    destruct (Z.ltb_spec n 0); [done|].
    set (k := Z.of_nat (length (cframe_bytes f))). destruct (Z.ltb_spec k 0); [lia|].
    destruct (Z.eqb_spec k 0); [lia|].
    rewrite (proj2 (Z.leb_le _ _)) by (rewrite length_app; lia). cbn [require rbind].
    unfold k. rewrite Nat2Z.id, drop_app_length.
    destruct (wire fs1 ++ rest) as [|c r] eqn:E.
    + apply app_eq_nil in E as [E ->]. destruct fs1 as [|f' fs1]; [done|].
      exfalso. inversion Hf1 as [|?? Hf' _]; subst. destruct (cframe_ok_size f' Hf') as (_ & H6' & _).
      simpl in E. apply app_eq_nil in E as [E _]. rewrite E in H6'. simpl in H6'. lia.
    + apply IH. lia.
Qed.

(** Every chunking of the frames means the same. *)
Lemma ws_run_frames chunks rest fs C F s :
  Forall cframe_ok fs → Forall (λ f, (length (cframe_bytes f) ≤ F)%nat) fs →
  Forall (λ c, (length c ≤ C)%nat) chunks → (F + C ≤ MAXLINELENGTH)%nat →
  rest ++ concat chunks = wire fs → incomplete rest fs →
  ws_run rest chunks s = let! (n, s) := frames_meaning fs s in Ok ([], n, s).
Proof.
  intros Hf HF HC Hsz. revert rest fs s Hf HF. induction HC as [|c chunks Hc HC IH]; intros rest fs s Hf HF Hw Hi.
  - simpl in Hw. rewrite app_nil_r in Hw. subst rest. destruct fs as [|f fs]; [done|].
    simpl in Hi. rewrite length_app in Hi. lia.
  - simpl in Hw. rewrite app_assoc in Hw.
    destruct (cut_exists fs (rest ++ c) (concat chunks) Hw) as (fs1 & rest' & fs2 & -> & Hp & Hr & Hi').
    apply Forall_app in Hf as [Hf1 Hf2]. apply Forall_app in HF as [HF1 HF2].
    cbn [Websocket.ws_run]. unfold websocket_handle_websocket.
    assert (length rest + length c ≤ MAXLINELENGTH - 1)%nat as Hfit.
    { destruct (fs1 ++ fs2) as [|f fs] eqn:E; simpl in Hi.
      - subst rest. simpl in Hw. apply app_eq_nil in Hw as [-> _]. apply Nat.le_0_l.
      - assert (length (cframe_bytes f) ≤ F)%nat; [|lia].
        assert (Forall (λ f, (length (cframe_bytes f) ≤ F)%nat) (f :: fs)) as HF by (rewrite <-E; by apply Forall_app).
        by inversion HF. }
    rewrite (proj2 (Nat.ltb_ge _ _)) by lia. rewrite Hp.
    rewrite (loop_frames fs1 rest' fs2 (concat chunks)) by (done || lia).
    rewrite frames_meaning_app. destruct (frames_meaning fs1 s) as [[n s1]| |]; cbn [rbind]; [|done|done].
    destruct (Z.ltb_spec n 0) as [Hn|Hn]; [done|]. by apply IH.
Qed.
End Arrive.

(** *** Any bytes are handled safely *)

Section Safe.
Context {W : Type} (MAXCONNECTIONS : Z) (epoll_ctl_ok : epoll_op → Z → bool)
  (os : nat → list Z → os_answer) (sendq : Z) (id : nat) (now : Z)
  (callback : ws W → list Z → res (ws W * bool)).
Hypothesis os_writes : ∀ k data n, os k data = OSWrote n → (n ≤ length data)%nat.
Hypothesis sendq_ok : 0 ≤ sendq < 2 ^ 31.

Definition ws_ok (s : ws W) : Prop := conn_ok MAXCONNECTIONS epoll_ctl_ok (w_conn s) (w_fds s).
Hypothesis callback_ok : ∀ s payload,
  ws_ok s → payload ≠ [] → (length payload < MAXLINELENGTH)%nat →
  ∃ s' alive, callback s payload = Ok (s', alive) ∧ ws_ok s'.

Abbreviation ws_dead := (ws_dead MAXCONNECTIONS epoll_ctl_ok).
Abbreviation dispatch := (websocket_dispatch MAXCONNECTIONS epoll_ctl_ok os sendq id now callback).
Abbreviation handle_packet := (websocket_handle_packet MAXCONNECTIONS epoll_ctl_ok os sendq id now callback).
Abbreviation handle := (websocket_handle_websocket MAXCONNECTIONS epoll_ctl_ok os sendq id now callback).

(** A result that is an error or within the data, in a well-formed state. *)
Definition good (limit : Z) (r : res (Z * ws W)) : Prop :=
  ∃ n s', r = Ok (n, s') ∧ ws_ok s' ∧ (n = -1 ∨ 0 ≤ n ≤ limit).

Lemma good_dead limit notice s :
  ws_ok s → good limit (let! s := ws_dead notice s in Ok (-1, s)).
Proof.
  intros Hs. unfold Websocket.ws_dead.
  destruct (dead_socket_ok MAXCONNECTIONS epoll_ctl_ok notice _ _ Hs) as (c & t & b & -> & Hc & _).
  cbn [rbind]. eexists _, _. split; [done|]. by auto.
Qed.

Lemma good_pong buf s :
  ws_ok s → good 0 (websocket_send_pong MAXCONNECTIONS epoll_ctl_ok os sendq id buf s).
Proof using os_writes sendq_ok.
  intros Hs. unfold websocket_send_pong.
  destruct (websocket_create_packet_simple WSOP_PONG buf) as [b|] eqn:Eb; [|eexists _, _; by auto].
  assert (b ≠ [] ∧ Z.of_nat (length b) < 2 ^ 31) as [Hb Hbl].
  { revert Eb. unfold websocket_create_packet_simple. destruct (Z.ltb_spec (8192 - 8) (Z.of_nat (length buf))); [done|].
    destruct (length buf <? 126)%nat; intros [= <-]; simpl; (split; [done|]); simpl in *; lia. }
  destruct (Z.ltb_spec sendq (dlength (sc_sendQ (w_conn s)))) as [|Hq]; [by apply good_dead|].
  pose proof Hs as [Hr Hsq Hf Hm]. rewrite (dlength_contents _ Hsq) in Hq.
  destruct (dbuf_put_ok _ b Hsq Hb) as (q & -> & Hq' & Hc'); [lia|]. cbn [rbind].
  set (c1 := set_sendQ q (w_conn s)).
  assert (conn_ok MAXCONNECTIONS epoll_ctl_ok c1 (w_fds s)) as H1 by (by split).
  destruct (sc_dead c1) eqn:Ed.
  - unfold send_queued. rewrite Ed. cbn [rbind]. eexists _, _. split; [done|]. split; [done|]. right. lia.
  - destruct (send_queued_ok MAXCONNECTIONS epoll_ctl_ok os os_writes id c1 _ H1 Ed)
      as (c' & t' & ret & -> & Hok' & _). cbn [rbind]. eexists _, _. split; [done|]. split; [done|]. right. lia.
Qed.

Lemma good_dispatch op payload s :
  ws_ok s → (length payload < MAXLINELENGTH)%nat → good 0 (dispatch op payload s).
Proof using os_writes sendq_ok callback_ok.
  intros Hs Hl. unfold websocket_dispatch.
  destruct (_ || _ || _).
  { destruct payload as [|x p] eqn:E; [eexists _, _; split; [done|]; split; [done|]; right; lia|]. rewrite <-E in *.
    destruct (callback_ok s payload Hs) as (s' & alive & -> & Hs'); [by subst|done|]. cbn [rbind].
    eexists _, _. split; [done|]. split; [done|]. destruct alive; [right; lia|by left]. }
  destruct (op =? WSOP_CLOSE); [by apply good_dead|].
  destruct (op =? WSOP_PING).
  { unfold websocket_handle_packet_ping. destruct (500 <? length payload)%nat; [by apply good_dead|].
    destruct (good_pong payload s Hs) as (n & s' & -> & Hs' & _). cbn [rbind].
    eexists _, _. split; [done|]. split; [done|]. right. lia. }
  destruct (op =? WSOP_PONG); [|by apply good_dead]. unfold websocket_handle_packet_pong.
  destruct (IsRPC _); (eexists _, _; split; [done|]; split; [done|]; right; lia).
Qed.

Lemma copy_total d p n : (p + n ≤ length d)%nat → ∃ l, copy d p n = Ok l ∧ length l = n.
Proof.
  intros Hn. unfold copy. rewrite (proj2 (Nat.leb_le _ _)) by done. cbn [require rbind]. eexists. split; [done|].
  rewrite length_take, length_drop. lia.
Qed.

Lemma good_packet d s :
  ws_ok s → Forall byte d → (length d < MAXLINELENGTH)%nat → good (Z.of_nat (length d)) (handle_packet d s).
Proof using os_writes sendq_ok callback_ok.
  intros Hs Hb Hl. unfold websocket_handle_packet.
  assert (good (Z.of_nat (length d)) (Ok (0, s))) as H0 by (eexists _, _; split; [done|]; split; [done|]; right; lia).
  destruct (Z.ltb_spec (Z.of_nat (length d)) 4) as [|H4]; [done|].
  assert (∀ i, (i < 4)%nat → ∃ c, rd d i = Ok c ∧ byte c) as Hrd.
  { intros i Hi. destruct (lookup_lt_is_Some_2 d i) as [c Hc]; [lia|]. exists c.
    split; [by apply rd_lookup|by eapply Forall_lookup_1 in Hc]. }
  destruct (Hrd 0%nat) as (b0 & -> & _); [lia|]. destruct (Hrd 1%nat) as (b1 & -> & Hb1); [lia|]. cbn [rbind].
  assert (0 ≤ Z.land b1 127 < 128) as Hlen.
  { change 127 with (Z.ones 7). rewrite Z.land_ones by lia. apply Z.mod_pos_bound. lia. }
  set (masked := negb (Z.land b1 128 =? 0)).
  destruct (negb masked && negb (Z.land b0 127 =? WSOP_PONG)); [by apply good_dead|].
  destruct (Z.land b1 127 =? 127); [by apply good_dead|].
  set (mk := if masked then 4 else 0). assert (mk = 0 ∨ mk = 4) as Hmk by (unfold mk; destruct masked; auto).
  destruct (Z.ltb_spec (Z.of_nat (length d)) (Z.land b1 127 + 2 + mk)); [done|].
  assert (∀ p len, 0 ≤ len → Z.of_nat p + len + mk ≤ Z.of_nat (length d) → good (Z.of_nat (length d))
    (let! maskkey := copy d p (Z.to_nat mk) in
     let! payload := copy d (p + Z.to_nat mk) (Z.to_nat len) in
     let! _ := require (Z.to_nat len <=? MAXLINELENGTH)%nat in
     let! (r, s) := dispatch (Z.land b0 127) (if masked then unmask maskkey payload else payload) s in
     Ok (if r <? 0 then -1 else len + Z.of_nat p + mk, s))) as Hbody.
  { intros p len H5 H6. destruct (copy_total d p (Z.to_nat mk)) as (key & -> & _); [lia|]. cbn [rbind].
    destruct (copy_total d (p + Z.to_nat mk) (Z.to_nat len)) as (pl & -> & Hpl); [lia|]. cbn [rbind].
    rewrite (proj2 (Nat.leb_le _ _)) by lia. cbn [require rbind].
    destruct (good_dispatch (Z.land b0 127) (if masked then unmask key pl else pl) s Hs) as (n & s' & -> & Hs' & Hn).
    { destruct masked; rewrite ?length_unmask; lia. }
    cbn [rbind]. eexists _, _. split; [done|]. split; [done|]. destruct (Z.ltb_spec n 0); [by left|right; lia]. }
  destruct (Z.land b1 127 =? 126); [|by apply (Hbody 2%nat); lia].
  destruct (Hrd 2%nat) as (b2 & -> & Hb2); [lia|]. destruct (Hrd 3%nat) as (b3 & -> & Hb3); [lia|]. cbn [rbind].
  destruct (Z.ltb_spec (Z.shiftl b2 8 + b3) 126); [by apply good_dead|].
  destruct (Z.ltb_spec (Z.of_nat (length d)) (Z.shiftl b2 8 + b3 + 4 + mk)); [done|].
  by apply (Hbody 4%nat); lia.
Qed.

Lemma handle_safe rest chunk s :
  ws_ok s → Forall byte rest → Forall byte chunk → (length rest < MAXLINELENGTH)%nat →
  ∃ rest' n s', handle rest chunk s = Ok (rest', n, s') ∧ ws_ok s' ∧ Forall byte rest' ∧
    (length rest' < MAXLINELENGTH)%nat.
Proof using os_writes sendq_ok callback_ok.
  intros Hs Hr Hc Hl. unfold websocket_handle_websocket.
  destruct (Nat.ltb_spec (MAXLINELENGTH - 1) (length rest + length chunk)) as [|Hfit].
  { destruct (good_dead 0 (bs "Illegal buffer stacking/Excess flood") s Hs) as (n & s' & He & Hs' & _).
    destruct (ws_dead (bs "Illegal buffer stacking/Excess flood") s) as [s1| |]; [|done|done].
    cbn [rbind] in *. injection He as <- <-. by eexists _, _, _. }
  destruct (loop_total (handle_body MAXCONNECTIONS epoll_ctl_ok os sendq id now callback)
    (λ '(d, s), ws_ok s ∧ Forall byte d ∧ (length d < MAXLINELENGTH)%nat) (λ '(d, _), length d)
    (λ '(d, _, s), ws_ok s ∧ Forall byte d ∧ (length d < MAXLINELENGTH)%nat))
    with (fuel := S (length (rest ++ chunk))) (s := (rest ++ chunk, s)) as ([[d n] s'] & -> & Hok).
  - clear -os_writes sendq_ok callback_ok. intros [d s] (Hs & Hb & Hl).
    unfold handle_body. destruct (good_packet d s Hs Hb Hl) as (n & s' & -> & Hs' & Hn). cbn [rbind].
    assert (0 < MAXLINELENGTH)%nat by lia.
    destruct (Z.ltb_spec n 0); [by eexists|]. destruct (Z.eqb_spec n 0); [by eexists|].
    rewrite (proj2 (Z.leb_le _ _)) by lia. cbn [require rbind].
    destruct (drop (Z.to_nat n) d) as [|c r] eqn:E; [by eexists|]. eexists. split; [done|].
    assert (length (c :: r) = length d - Z.to_nat n)%nat by (rewrite <-E; apply length_drop).
    split; [|lia]. split; [done|]. split; [|lia]. rewrite <-E. by apply Forall_drop.
  - split; [done|]. split; [by apply Forall_app|]. rewrite length_app. lia.
  - lia.
  - by eexists _, _, _.
Qed.

Lemma ws_run_safe chunks rest s :
  ws_ok s → Forall byte rest → Forall (Forall byte) chunks → (length rest < MAXLINELENGTH)%nat →
  ∃ rest' n s', ws_run MAXCONNECTIONS epoll_ctl_ok os sendq id now callback rest chunks s = Ok (rest', n, s') ∧
    ws_ok s' ∧ (length rest' < MAXLINELENGTH)%nat.
Proof using os_writes sendq_ok callback_ok.
  intros Hs Hr Hc Hl. revert rest s Hs Hr Hl. induction Hc as [|c chunks Hc _ IH]; intros rest s Hs Hr Hl.
  - by eexists _, _, _.
  - cbn [ws_run]. destruct (handle_safe rest c s Hs Hr Hc Hl) as (rest' & n & s' & -> & Hs' & Hr' & Hl').
    cbn [rbind]. destruct (n <? 0); [by eexists _, _, _|by apply IH].
Qed.
End Safe.

(** C30.  Websocket input.  A client's frames, of at most [F] bytes each, arrive
    in chunks of at most [C] bytes, cut anywhere, where [F + C] is at most the
    size of the buffer.  The result is that of handling the frames one by one,
    each with its opcode and its unmasked payload, until one of them ends the
    connection; nothing is left over. *)
Theorem websocket_reassembly {W} MAXCONNECTIONS ctl_ok os sendq id now
    (callback : ws W → list Z → res (ws W * bool)) chunks fs C F s :
  Forall cframe_ok fs → Forall (λ f, (length (cframe_bytes f) ≤ F)%nat) fs →
  Forall (λ c, (length c ≤ C)%nat) chunks → (F + C ≤ MAXLINELENGTH)%nat →
  concat chunks = concat (map cframe_bytes fs) →
  ws_run MAXCONNECTIONS ctl_ok os sendq id now callback [] chunks s =
    let! (n, s) := frames_meaning MAXCONNECTIONS ctl_ok os sendq id now callback fs s in Ok ([], n, s).
Proof.
  intros Hf HF HC Hsz Hw. eapply ws_run_frames; try done.
  destruct fs as [|f fs]; [done|]. inversion Hf as [|?? Hf' _]; subst.
  destruct (cframe_ok_size f Hf') as (_ & H6 & _). simpl. lia.
Qed.

(** Two text frames in three chunks, for a callback that collects payloads. *)
Lemma websocket_reassembly_witness :
  let cb := λ (s : ws (list (list Z))) p,
    Ok (WS (w_conn s) (w_fds s) (w_lag s) (w_last_msg s) (w_pingsent s) (w_world s ++ [p]), true) in
  let cl := PClient (bs "nick") CLIENT_STATUS_USER true 3 false false false false None in
  let c := SConn cl false false 5 dbuf_queue_init dbuf_queue_init false None 0 0 [] in
  let s := WS c (FDS ∅ ∅) (Lag 0 0) 0 false [] in
  let fs := [CFrame 0x81 [1; 2; 3; 4] (bs "NICK a"); CFrame 0x81 [9; 8; 7; 6] (bs "PING b")] in
  let data := concat (map cframe_bytes fs) in
  let run := ws_run 1024 (λ _ _, true) (λ _ _, OSError) 1000 3 0 cb [] [take 3 data; take 14 (drop 3 data); drop 17 data] s in
  run = (let! (n, s) := frames_meaning 1024 (λ _ _, true) (λ _ _, OSError) 1000 3 0 cb fs s in Ok ([], n, s)) ∧
  ∃ s', run = Ok ([], 0, s') ∧ w_world s' = [bs "NICK a"; bs "PING b"].
Proof.
  intros cb cl c s fs data run. split.
  - apply (websocket_reassembly 1024 (λ _ _, true) (λ _ _, OSError) 1000 3 0 cb
      [take 3 data; take 14 (drop 3 data); drop 17 data] fs 20 20 s).
    + repeat apply Forall_cons_2; [| |apply Forall_nil_2];
        (split; [reflexivity|apply Nat.ltb_lt; vm_compute; reflexivity]).
    + repeat apply Forall_cons_2; [| |apply Forall_nil_2]; apply Nat.leb_le; vm_compute; reflexivity.
    + repeat apply Forall_cons_2; [| | |apply Forall_nil_2]; apply Nat.leb_le; vm_compute; reflexivity.
    + apply Nat.leb_le. vm_compute. reflexivity.
    + vm_compute. reflexivity.
  - eexists. split; [vm_compute; reflexivity|reflexivity].
Defined.

(** C39.  Websocket input is safe for any bytes: whatever chunks arrive, of any
    size, every call returns, no access is outside a buffer, the connection and
    the table of descriptors stay well-formed, and what is kept for the next
    chunk is less than the size of the buffer, provided the callback, which gets
    the text of each message, returns and keeps the connection well-formed.  This
    is whatever the system answers to writes and to epoll_ctl.  At the start the
    queues are well-formed and the descriptor is open, and a limit for the send
    queue is below 2^31. *)
Theorem websocket_input_safe {W} MAXCONNECTIONS ctl_ok os sendq id now
    (callback : ws W → list Z → res (ws W * bool)) chunks s :
  (∀ k data n, os k data = OSWrote n → (n ≤ length data)%nat) →
  0 ≤ sendq < 2 ^ 31 →
  (∀ s payload, ws_ok MAXCONNECTIONS ctl_ok s → payload ≠ [] → (length payload < MAXLINELENGTH)%nat →
     ∃ s' alive, callback s payload = Ok (s', alive) ∧ ws_ok MAXCONNECTIONS ctl_ok s') →
  ws_ok MAXCONNECTIONS ctl_ok s → Forall (Forall byte) chunks →
  ∃ rest n s', ws_run MAXCONNECTIONS ctl_ok os sendq id now callback [] chunks s = Ok (rest, n, s') ∧
    ws_ok MAXCONNECTIONS ctl_ok s' ∧ (length rest < MAXLINELENGTH)%nat.
Proof.
  intros H1 H2 H3 Hs Hc. apply ws_run_safe; try done. apply Nat.ltb_lt. reflexivity.
Qed.

Lemma websocket_input_safe_witness :
  let ctl := λ (op : epoll_op) (_ : Z), match op with EPOLL_CTL_ADD => true | _ => false end in
  let t := fd_step 1024 ctl (FDS ∅ ∅) (FOpen 5 (bs "client") FDCLOSE_SOCKET) in
  let cl := PClient (bs "nick") CLIENT_STATUS_USER true 3 false false false false None in
  let c := SConn cl false false 5 dbuf_queue_init dbuf_queue_init false None 0 0 [] in
  let s := WS c t (Lag 0 0) 0 false () in
  let cb := λ (s : ws unit) (_ : list Z), Ok (s, true) in
  ∃ rest n s', ws_run 1024 ctl (λ _ d, OSWrote (length d)) 1000 3 0 cb [] [bs "GET / HTTP"] s = Ok (rest, n, s') ∧
    ws_ok 1024 ctl s' ∧ (length rest < MAXLINELENGTH)%nat.
Proof.
  intros ctl t cl c s cb.
  apply (websocket_input_safe 1024 ctl (λ _ d, OSWrote (length d)) 1000 3 0 cb [bs "GET / HTTP"] s).
  - intros k data n [= <-]. done.
  - done.
  - intros s1 p Hs1 _ _. by exists s1, true.
  - split; [by apply dbuf_init_ok|by apply dbuf_init_ok| |done].
    split; [intros Hctl; discriminate (Hctl EPOLL_CTL_DEL 0)|]. split; [done|reflexivity].
  - repeat constructor; done.
Defined.

(** Websocket output.  A text is refused if it has a NUL or if its frames
    are more than the buffer holds; otherwise the result is one final frame per
    line, and a client that decodes it as RFC 6455 says reads back exactly the
    lines, in order, with the opcode. *)
Theorem websocket_frames_roundtrip op buf len size :
  (0 < len ≤ length buf)%nat → Z.of_nat len < 2 ^ 31 →
  let text := take len buf in
  let lines := ws_lines len text in
  ∃ r, websocket_create_packet_ex op buf len size = Ok r ∧
    match r with
    | Some out => (0 ∉ text) ∧ (length out ≤ size)%nat ∧
        ws_decode (length lines) out = Some (map (pair (u8 (Z.lor op 0x80))) lines)
    | None => 0 ∈ text ∨ (size < length (concat (map (ws_frame op) lines)))%nat
    end.
Proof.
  intros Hl H31 text lines. eexists. split; [by apply create_packet_spec|]. cbv zeta. fold text lines.
  destruct (bool_decide_reflect (0 ∈ text)); simpl orb; [by left|].
  destruct (Nat.ltb_spec size (length (concat (map (ws_frame op) lines)))); [by right|].
  split; [done|]. split; [done|]. apply ws_frames_decode; [|done].
  destruct (ws_lines_short len text) as [Hs _]. eapply Forall_impl; [exact Hs|].
  intros l Hll. simpl in Hll. unfold text in Hll. rewrite length_take in Hll. lia.
Qed.

Lemma websocket_frames_roundtrip_witness :
  let text := bs "PING a" ++ [CR; LF] ++ bs "PING b" ++ [CR; LF] in
  ws_lines (length text) text = [bs "PING a"; bs "PING b"] ∧
  websocket_create_packet_ex WSOP_TEXT text (length text) 100 =
    Ok (Some ([0x81; 6] ++ bs "PING a" ++ [0x81; 6] ++ bs "PING b")) ∧
  ∃ r, websocket_create_packet_ex WSOP_TEXT text (length text) 100 = Ok r.
Proof.
  intros text. split; [vm_compute; reflexivity|]. split; [vm_compute; reflexivity|].
  destruct (websocket_frames_roundtrip WSOP_TEXT text (length text) 100) as (r & Hr & _);
    [vm_compute; lia|vm_compute; reflexivity|]. by exists r.
Defined.

(** When the frames do not fit, the result of [websocket_create_packet] is not
    looked at and the text is sent as it is, without a frame. *)
Lemma packet_out_unframed msg :
  msg ≠ [] → (WEBSOCKET_SEND_BUFFER_SIZE < length msg)%nat → 0 ∉ msg → Forall (λ c, in_line c = true) msg →
  websocket_packet_out WEBSOCKET_TYPE_BINARY msg = Ok msg.
Proof.
  intros Hne Hl H0 Hi. unfold websocket_packet_out, websocket_create_packet.
  destruct msg as [|c m] eqn:E; [done|]. rewrite <-E in *.
  rewrite create_packet_spec by (subst; simpl; lia). rewrite firstn_all. cbv zeta.
  rewrite bool_decide_eq_false_2 by done. simpl orb.
  assert (ws_lines (length msg) msg = [msg]) as ->.
  { assert (length msg = S (length m)) as -> by (by rewrite E). cbn [ws_lines].
    by rewrite (take_while_all in_line), (drop_while_all in_line). }
  rewrite (proj2 (Nat.ltb_lt _ _)); [done|]. simpl. rewrite app_nil_r. unfold ws_frame. rewrite length_app. lia.
Qed.
