(* ===== verification/MemberModes.v ===== *)
(** * Modes of channel members (src/api-channelmode.c, src/misc.c)

    The registered channel modes, the string of modes that a member has (kept in
    the order of rank), the prefixes shown for them, and the tests of access. *)

From stdpp Require Import base tactics list numbers strings gmap sorting.
From Stdlib Require Import ZArith Lia.
From S2P Require Import Prelude Chars Support.

Local Open Scope Z_scope.

Definition MEMBERMODESLEN : nat := 8.
Definition INT_MAX : Z := 2 ^ 31 - 1.

Inductive CmodeType := CMODE_NORMAL | CMODE_MEMBER.
#[global] Instance CmodeType_eq_dec : EqDecision CmodeType.
Proof. solve_decision. Defined.

Record Cmode := MkCmode {
  cm_letter : Z;
  cm_type : CmodeType;
  cm_prefix : Z;
  cm_sjoin_prefix : Z;
  cm_rank : Z
}.

Definition is_member_mode (cm : Cmode) : bool := bool_decide (cm_type cm = CMODE_MEMBER).

(** strchr(s, c) != NULL: a search for NUL finds the end of the string. *)
Definition strchr (s : list Z) (c : Z) : bool := bool_decide (c = 0 ∨ c ∈ s).

Definition check_channel_access_string (current_modes modes : list Z) : bool :=
  existsb (strchr modes) current_modes.
Definition check_channel_access_letter (current_modes : list Z) (letter : Z) : bool :=
  strchr current_modes letter.

(** Remove the first occurrence. *)
Fixpoint delletterfromstring (s : list Z) (letter : Z) : list Z :=
  match s with
  | [] => []
  | c :: r => if c =? letter then r else c :: delletterfromstring r letter
  end.

Section Modes.
(** The list of registered modes. *)
Variable channelmodes : list Cmode.

(** The loops over the list that return the first entry with a property. *)
Definition find_cm (P : Cmode → bool) : option Cmode := find P channelmodes.

Definition find_channel_mode_handler (letter : Z) : option Cmode :=
  find_cm (λ cm, cm_letter cm =? letter).

Definition valid_channel_access_mode_letter (letter : Z) : bool :=
  match find_channel_mode_handler letter with Some cm => is_member_mode cm | None => false end.

(** The place in the string: before the first mode of lower rank. *)
Fixpoint insert_by_rank (str : list Z) (letter my_rank : Z) : list Z :=
  match str with
  | [] => [letter]
  | c :: r =>
      match find_channel_mode_handler c with
      | None => c :: insert_by_rank r letter my_rank
      | Some cm => if cm_rank cm <? my_rank then letter :: c :: r else c :: insert_by_rank r letter my_rank
      end
  end.

Definition addlettertomstring (str : list Z) (letter : Z) : list Z :=
  match find_channel_mode_handler letter with
  | None => str
  | Some cm =>
      if negb (is_member_mode cm) then str
      else if (MEMBERMODESLEN - 1 <=? length str)%nat then str
      else insert_by_rank str letter (cm_rank cm)
  end.

Definition sjoin_prefix_to_mode (s : Z) : Z :=
  if s =? 0 then 0
  else if s =? 38 then 98          (* & -> b *)
  else if s =? 34 then 101         (* double quote -> e *)
  else if s =? QUOTE then 73       (* ' -> I *)
  else match find_cm (λ cm, (cm_sjoin_prefix cm =? s) && is_member_mode cm) with
       | Some cm => cm_letter cm | None => 0 end.

Definition mode_to_sjoin_prefix (s : Z) : Z :=
  if s =? 0 then 0
  else if s =? 98 then 38
  else if s =? 101 then 34
  else if s =? 73 then QUOTE
  else match find_cm (λ cm, (cm_letter cm =? s) && is_member_mode cm) with
       | Some cm => cm_sjoin_prefix cm | None => 0 end.

(** Both translations of a string of modes. *)
Definition translate (f : Z → Z) (modes : list Z) : list Z :=
  foldl (λ buf m, if f m =? 0 then buf else Strl.strlcat_letter buf (f m) MEMBERMODESLEN) [] modes.

Definition modes_to_sjoin_prefix (modes : list Z) : list Z := translate mode_to_sjoin_prefix modes.

Definition mode_to_prefix (s : Z) : Z :=
  if s =? 0 then 0
  else match find_cm (λ cm, (cm_letter cm =? s) && is_member_mode cm) with
       | Some cm => cm_prefix cm | None => 0 end.
Definition modes_to_prefix (modes : list Z) : list Z := translate mode_to_prefix modes.
Definition prefix_to_mode (s : Z) : Z :=
  if s =? 0 then 0
  else match find_cm (λ cm, (cm_prefix cm =? s) && is_member_mode cm) with
       | Some cm => cm_letter cm | None => 0 end.

Definition rank_to_mode (rank : Z) : Z :=
  match find_cm (λ cm, is_member_mode cm && (cm_rank cm =? rank)) with Some cm => cm_letter cm | None => 0 end.
Definition mode_to_rank (mode : Z) : Z :=
  match find_cm (λ cm, is_member_mode cm && (cm_letter cm =? mode)) with Some cm => cm_rank cm | None => 0 end.
Definition prefix_to_rank (prefix : Z) : Z :=
  match find_cm (λ cm, is_member_mode cm && (cm_prefix cm =? prefix)) with Some cm => cm_rank cm | None => 0 end.
Definition rank_to_prefix (rank : Z) : Z :=
  match find_cm (λ cm, is_member_mode cm && (cm_rank cm =? rank)) with Some cm => cm_prefix cm | None => 0 end.

(** The lowest rank of the letters, INT_MAX if there are none. *)
Definition winning_rank (rank_of : Z → Z) (s : list Z) : Z :=
  foldl (λ w c, if rank_of c <? w then rank_of c else w) INT_MAX s.
Definition lowest_ranking_prefix (prefix : list Z) : Z :=
  let w := winning_rank prefix_to_rank prefix in if w =? INT_MAX then 0 else rank_to_prefix w.
Definition lowest_ranking_mode (mode : list Z) : Z :=
  let w := winning_rank mode_to_rank mode in if w =? INT_MAX then 0 else rank_to_mode w.

Definition channel_member_modes_generate_equal_or_greater (modes : list Z) (buflen : nat) : list Z :=
  let rank := lowest_ranking_mode modes in
  if rank =? 0 then []
  else foldl (λ buf cm, if is_member_mode cm && (rank <=? cm_rank cm)
                        then Strl.strlcat_letter buf (cm_letter cm) buflen else buf) [] channelmodes.
End Modes.

(** ** The modes of a member are in the order of rank *)

Section Order.
Variable channelmodes : list Cmode.
Abbreviation handler := (find_channel_mode_handler channelmodes).
Abbreviation add := (addlettertomstring channelmodes).
Abbreviation insert_by_rank := (insert_by_rank channelmodes).

Definition rank_of (c : Z) : Z := match handler c with Some cm => cm_rank cm | None => 0 end.
(** A mode that a member can have. *)
Definition member_letter (c : Z) : Prop := ∃ cm, handler c = Some cm ∧ is_member_mode cm = true.

(** A string of member modes: known ones, highest rank first, in its buffer. *)
Record modes_ok (str : list Z) : Prop := {
  mo_known : Forall member_letter str;
  mo_sorted : StronglySorted (λ a b, rank_of b ≤ rank_of a) str;
  mo_size : (length str < MEMBERMODESLEN)%nat
}.

Lemma insert_perm str c r : insert_by_rank str c r ≡ₚ c :: str.
Proof.
  induction str as [|d str IH]; simpl; [done|].
  destruct (handler d) as [cm|]; [destruct (cm_rank cm <? r); [done|]|]; rewrite IH; constructor.
Qed.

Lemma insert_sorted str c :
  Forall member_letter str → StronglySorted (λ a b, rank_of b ≤ rank_of a) str →
  StronglySorted (λ a b, rank_of b ≤ rank_of a) (insert_by_rank str c (rank_of c)).
Proof.
  intros Hk Hs. induction Hs as [|d str Hs IH Hd]; simpl; [repeat constructor|].
  apply Forall_cons in Hk as [(cm & Hcm & _) Hk]. rewrite Hcm.
  assert (rank_of d = cm_rank cm) as Er by (unfold rank_of; by rewrite Hcm).
  destruct (Z.ltb_spec (cm_rank cm) (rank_of c)) as [Hlt|Hge].
  - constructor; [by constructor|]. constructor; [lia|].
    eapply Forall_impl; [exact Hd|]. simpl. intros e He. lia.
  - constructor; [by apply IH|]. rewrite insert_perm. constructor; [lia|done].
Qed.

Lemma del_insert str c r : c ∉ str → delletterfromstring (insert_by_rank str c r) c = str.
Proof.
  induction str as [|d str IH]; simpl; intros Hc; [by rewrite Z.eqb_refl|].
  apply not_elem_of_cons in Hc as [Hcd Hc].
  destruct (handler d) as [cm|]; [destruct (cm_rank cm <? r)|]; simpl; rewrite ?Z.eqb_refl; try done;
    (destruct (Z.eqb_spec d c); [congruence|]); by rewrite IH.
Qed.

Lemma del_sublist str c : delletterfromstring str c `sublist_of` str.
Proof.
  induction str as [|d str IH]; simpl; [done|]. destruct (d =? c); [by constructor|by constructor].
Qed.

Lemma add_ok str c : modes_ok str → modes_ok (add str c).
Proof.
  intros [Hk Hs Hl]. unfold addlettertomstring. destruct (handler c) as [cm|] eqn:Ec; [|done].
  destruct (is_member_mode cm) eqn:Em; [|done]. simpl negb. cbv iota.
  destruct (Nat.leb_spec (MEMBERMODESLEN - 1) (length str)); [done|].
  assert (rank_of c = cm_rank cm) as <- by (unfold rank_of; by rewrite Ec).
  split; [rewrite insert_perm; constructor; [by exists cm|done]|by apply insert_sorted|].
  rewrite insert_perm. simpl. lia.
Qed.

Lemma del_ok str c : modes_ok str → modes_ok (delletterfromstring str c).
Proof.
  intros [Hk Hs Hl]. pose proof (del_sublist str c) as Hsub. split.
  - by eapply sublist_Forall.
  - by eapply sorted_sublist.
  - apply sublist_length in Hsub. lia.
Qed.
End Order.

(** C36.  The modes of a member.  The string stays in its buffer, with known
    member modes only and the highest rank first, whatever is added and removed.
    A mode that is added is there, with what was there before, unless it is not a
    mode of members or the buffer is full; removing it again restores the
    string. *)
Theorem member_modes_ordered channelmodes str c :
  modes_ok channelmodes str →
  modes_ok channelmodes (addlettertomstring channelmodes str c) ∧
  modes_ok channelmodes (delletterfromstring str c) ∧
  (valid_channel_access_mode_letter channelmodes c = true → (length str < MEMBERMODESLEN - 1)%nat →
     addlettertomstring channelmodes str c ≡ₚ c :: str ∧
     (c ∉ str → delletterfromstring (addlettertomstring channelmodes str c) c = str)) ∧
  (valid_channel_access_mode_letter channelmodes c = false → addlettertomstring channelmodes str c = str).
Proof.
  intros Hok. split; [by apply add_ok|]. split; [by apply del_ok|].
  unfold valid_channel_access_mode_letter, addlettertomstring.
  destruct (find_channel_mode_handler channelmodes c) as [cm|]; [|by split].
  destruct (is_member_mode cm); [|by split]. split; [|done]. intros _ Hl. simpl negb. cbv iota.
  destruct (Nat.leb_spec (MEMBERMODESLEN - 1) (length str)); [lia|].
  split; [apply insert_perm|apply del_insert].
Qed.

(** The modes of the modules that come with the server. *)
Definition default_modes : list Cmode :=
  [MkCmode 113 CMODE_MEMBER 126 42 4000;      (* +q ~ * *)
   MkCmode 97 CMODE_MEMBER 38 126 3000;       (* +a & ~ *)
   MkCmode 111 CMODE_MEMBER 64 64 2000;       (* +o @ @ *)
   MkCmode 104 CMODE_MEMBER 37 37 1000;       (* +h % % *)
   MkCmode 118 CMODE_MEMBER 43 43 (-1)].      (* +v + + *)

Lemma member_modes_ordered_witness :
  addlettertomstring default_modes (bs "ov") 104 = bs "ohv" ∧
  modes_ok default_modes (addlettertomstring default_modes (bs "ov") 104).
Proof.
  split; [reflexivity|].
  destruct (member_modes_ordered default_modes (bs "ov") 104) as [H _]; [|exact H].
  split; [|repeat constructor; vm_compute; discriminate|vm_compute; lia].
  repeat constructor; (eexists; split; [reflexivity|reflexivity]).
Defined.

(** ** Prefixes *)

Lemma find_unique {A} (P : A → bool) l x : x ∈ l → P x = true → (∀ y, y ∈ l → P y = true → y = x) → find P l = Some x.
Proof.
  intros Hx HP Hu. destruct (find P l) as [y|] eqn:E.
  - apply find_some in E as [Hy HPy]. f_equal. apply Hu; [by apply list_elem_of_In|done].
  - pose proof (find_none P l E x) as Hn. rewrite Hn in HP; [done|by apply list_elem_of_In].
Qed.

(** Member modes are told apart by letter, prefix, prefix between servers and
    rank, and do not clash with the list modes. *)
Record distinct (channelmodes : list Cmode) : Prop := {
  di_keys : ∀ a b, a ∈ channelmodes → b ∈ channelmodes →
    is_member_mode a = true → is_member_mode b = true →
    cm_letter a = cm_letter b ∨ cm_prefix a = cm_prefix b ∨ cm_sjoin_prefix a = cm_sjoin_prefix b ∨
      cm_rank a = cm_rank b → a = b;
  di_other : ∀ a, a ∈ channelmodes → is_member_mode a = true →
    (cm_letter a ∉ [0; 98; 101; 73]) ∧ cm_prefix a ≠ 0 ∧ (cm_sjoin_prefix a ∉ [0; 38; 34; QUOTE]) ∧
    cm_rank a < INT_MAX
}.

Section Prefixes.
Variable channelmodes : list Cmode.
Hypothesis dist : distinct channelmodes.

(** Looking up a member mode by any of its keys finds it. *)
Lemma find_member (key : Cmode → Z) a :
  (∀ x y, x ∈ channelmodes → y ∈ channelmodes → is_member_mode x = true → is_member_mode y = true →
     key x = key y → x = y) →
  a ∈ channelmodes → is_member_mode a = true →
  find_cm channelmodes (λ cm, (key cm =? key a) && is_member_mode cm) = Some a ∧
  find_cm channelmodes (λ cm, is_member_mode cm && (key cm =? key a)) = Some a.
Proof.
  intros Hk Ha Hm. split; (apply find_unique; [done|by rewrite Z.eqb_refl, Hm|]);
    intros y Hy [H1 H2]%andb_prop; apply Hk; try done; by apply Z.eqb_eq.
Qed.

Lemma member_keys a :
  a ∈ channelmodes → is_member_mode a = true →
  mode_to_prefix channelmodes (cm_letter a) = cm_prefix a ∧
  prefix_to_mode channelmodes (cm_prefix a) = cm_letter a ∧
  mode_to_sjoin_prefix channelmodes (cm_letter a) = cm_sjoin_prefix a ∧
  sjoin_prefix_to_mode channelmodes (cm_sjoin_prefix a) = cm_letter a ∧
  mode_to_rank channelmodes (cm_letter a) = cm_rank a ∧
  rank_to_mode channelmodes (cm_rank a) = cm_letter a ∧
  prefix_to_rank channelmodes (cm_prefix a) = cm_rank a ∧
  rank_to_prefix channelmodes (cm_rank a) = cm_prefix a.
Proof using dist.
  intros Ha Hm. destruct dist as [Hk Ho]. destruct (Ho a Ha Hm) as (Hl & Hp & Hs & _).
  rewrite !not_elem_of_cons in Hl, Hs. destruct Hl as (L0 & L1 & L2 & L3 & _), Hs as (S0 & S1 & S2 & S3 & _).
  destruct (find_member cm_letter a) as [F1 F2]; [intros; apply Hk; auto|done|done|].
  destruct (find_member cm_prefix a) as [F3 F4]; [intros; apply Hk; auto|done|done|].
  destruct (find_member cm_sjoin_prefix a) as [F5 F6]; [intros; apply Hk; auto|done|done|].
  destruct (find_member cm_rank a) as [F7 F8]; [intros; apply Hk; auto|done|done|].
  unfold mode_to_prefix, prefix_to_mode, mode_to_sjoin_prefix, sjoin_prefix_to_mode, mode_to_rank, rank_to_mode,
    prefix_to_rank, rank_to_prefix.
  rewrite F1, F2, F3, F4, F5, F8.
  split_and!; repeat match goal with |- context [?x =? ?y] => destruct (Z.eqb_spec x y); [congruence|] end; done.
Qed.

(** A string whose letters have nonzero images fits the buffer. *)
Lemma translate_map f modes :
  Forall (λ c, f c ≠ 0) modes → (length modes < MEMBERMODESLEN)%nat → translate f modes = map f modes.
Proof.
  intros Hf Hl. unfold translate.
  assert (∀ buf, (length buf + length modes < MEMBERMODESLEN)%nat →
    foldl (λ buf m, if f m =? 0 then buf else Strl.strlcat_letter buf (f m) MEMBERMODESLEN) buf modes
      = buf ++ map f modes) as H; [|by rewrite H].
  clear Hl. induction Hf as [|c modes Hc _ IH]; intros buf Hb; simpl; [by rewrite app_nil_r|].
  simpl in Hb. destruct (Z.eqb_spec (f c) 0); [done|]. unfold Strl.strlcat_letter.
  destruct (Nat.eqb_spec MEMBERMODESLEN 0), (Nat.leb_spec (MEMBERMODESLEN - 1) (length buf));
    simpl; try (unfold MEMBERMODESLEN in *; lia).
  rewrite IH; [by rewrite <-app_assoc|]. rewrite length_app. simpl. lia.
Qed.
End Prefixes.

(** Prefixes.  With distinct member modes, the prefixes shown for the modes
    of a member, and those used between servers, determine the modes; the rank of
    a mode determines it, too. *)
Theorem member_prefix_roundtrip channelmodes modes :
  distinct channelmodes → (length modes < MEMBERMODESLEN)%nat →
  Forall (λ c, ∃ cm, cm ∈ channelmodes ∧ is_member_mode cm = true ∧ cm_letter cm = c) modes →
  map (prefix_to_mode channelmodes) (modes_to_prefix channelmodes modes) = modes ∧
  map (sjoin_prefix_to_mode channelmodes) (modes_to_sjoin_prefix channelmodes modes) = modes ∧
  map (rank_to_mode channelmodes) (map (mode_to_rank channelmodes) modes) = modes.
Proof.
  intros Hd Hl Hm. unfold modes_to_prefix, modes_to_sjoin_prefix.
  assert (Forall (λ c, mode_to_prefix channelmodes c ≠ 0 ∧ mode_to_sjoin_prefix channelmodes c ≠ 0 ∧
    prefix_to_mode channelmodes (mode_to_prefix channelmodes c) = c ∧
    sjoin_prefix_to_mode channelmodes (mode_to_sjoin_prefix channelmodes c) = c ∧
    rank_to_mode channelmodes (mode_to_rank channelmodes c) = c) modes) as H.
  { eapply Forall_impl; [exact Hm|]. simpl. intros c (cm & Hin & Hmm & <-).
    destruct (member_keys channelmodes Hd cm Hin Hmm) as (-> & -> & -> & -> & -> & -> & _).
    destruct (di_other _ Hd cm Hin Hmm) as (_ & Hp & Hs & _). rewrite not_elem_of_cons in Hs. destruct Hs. by split_and!. }
  rewrite !translate_map; try done; try (eapply Forall_impl; [exact H|]; simpl; intros; tauto).
  rewrite !map_map. clear Hm Hl. induction H as [|c modes Hc _ IH]; simpl; [done|].
  destruct Hc as (_ & _ & -> & -> & ->), IH as (-> & -> & ->). done.
Qed.

#[global] Instance Cmode_eq_dec : EqDecision Cmode.
Proof. solve_decision. Defined.

Lemma default_distinct : distinct default_modes.
Proof.
  split.
  - assert (Forall (λ a, Forall (λ b, cm_letter a = cm_letter b ∨ cm_prefix a = cm_prefix b ∨
      cm_sjoin_prefix a = cm_sjoin_prefix b ∨ cm_rank a = cm_rank b → a = b) default_modes) default_modes) as H
      by (refine (bool_decide_unpack _ _); vm_compute; reflexivity).
    intros a b Ha Hb _ _. rewrite Forall_forall in H. specialize (H a Ha). rewrite Forall_forall in H. by apply H.
  - assert (Forall (λ a, (cm_letter a ∉ [0; 98; 101; 73]) ∧ cm_prefix a ≠ 0 ∧
      (cm_sjoin_prefix a ∉ [0; 38; 34; QUOTE]) ∧ cm_rank a < INT_MAX) default_modes) as H
      by (refine (bool_decide_unpack _ _); vm_compute; reflexivity).
    intros a Ha _. rewrite Forall_forall in H. by apply H.
Qed.

Lemma member_prefix_roundtrip_witness :
  modes_to_prefix default_modes (bs "ov") = bs "@+" ∧
  map (prefix_to_mode default_modes) (modes_to_prefix default_modes (bs "ov")) = bs "ov".
Proof.
  split; [reflexivity|].
  destruct (member_prefix_roundtrip default_modes (bs "ov")) as [H _];
    [exact default_distinct|vm_compute; lia| |exact H].
  apply Forall_cons_2; [|apply Forall_cons_2; [|apply Forall_nil_2]].
  - exists (MkCmode 111 CMODE_MEMBER 64 64 2000). split; [do 2 right; left|split; reflexivity].
  - exists (MkCmode 118 CMODE_MEMBER 43 43 (-1)). split; [do 4 right; left|split; reflexivity].
Defined.

(** "Equal or greater" modes.  The comment says that "o" gives "oaq" with
    the modules that come with the server, and [sendto_channel] relies on it to
    choose who gets a message for, say, the operators of a channel.  But the rank
    it compares with is the code of the letter: "o" and even "q" give every mode
    but voice, so that halfops receive what is sent to @#channel or ~#channel,
    and "v" does not give "v", so that voiced members do not receive what is
    sent to +#channel. *)
Theorem equal_or_greater_compares_letters :
  channel_member_modes_generate_equal_or_greater default_modes (bs "o") 64 = bs "qaoh" ∧
  channel_member_modes_generate_equal_or_greater default_modes (bs "q") 64 = bs "qaoh" ∧
  channel_member_modes_generate_equal_or_greater default_modes (bs "v") 64 = bs "qaoh" ∧
  lowest_ranking_mode default_modes (bs "vo") = 118 ∧
  mode_to_rank default_modes 104 < mode_to_rank default_modes 111.
Proof. split_and!; vm_compute; reflexivity. Qed.
