(* ===== verification/Channel.v ===== *)
(** * Channels and their members (src/channel.c)

    A channel has a list of Member objects, a user a list of Membership objects;
    the two kinds point at each other, and a Member of a local client has a
    LocalMember in a third list.  The objects live at addresses; an intrusive
    list is the list of the addresses in it (Dlist is about the links).  The
    channels are found by name through the hash table of Hash. *)

From stdpp Require Import base tactics list numbers strings gmap.
From Stdlib Require Import ZArith Lia.
From S2P Require Import Prelude Chars Support Utf8 Hash MemberModes.

Local Open Scope Z_scope.

Definition CHANNELLEN : nat := 32.

Record member := Member {
  m_client : option nat;
  m_modes : list Z;
  m_related : option nat;
  m_local : option nat
}.
Record membership := Membership {
  mb_channel : option nat;
  mb_modes : list Z;
  mb_related : option nat
}.
Record ban := Ban { b_str : list Z; b_who : list Z; b_when : Z }.
Record chan := Chan {
  ch_name : list Z;
  ch_users : Z;
  ch_members : list nat;
  ch_local : list nat;
  ch_banlist : list ban;
  ch_exlist : list ban;
  ch_invexlist : list ban;
  ch_creationtime : Z
}.
(** client->user, and whether the client is local. *)
Record user := User { u_channel : list nat; u_joined : Z; u_myconnect : bool }.

Record cstate := CS {
  s_members : gmap nat member;
  s_memberships : gmap nat membership;
  s_lmembers : gmap nat nat;             (* LocalMember: its ptr *)
  freemember : list nat;
  freemembership : list nat;
  s_heap : nat;                          (* addresses from here on are unused *)
  s_chans : gmap nat chan;
  channels : list nat;                   (* the global list *)
  s_users : gmap nat user;
  s_hash : hstate;
  irccounts_channels : Z
}.

(** Updates of one component. *)
Definition set_members v s := CS v (s_memberships s) (s_lmembers s) (freemember s) (freemembership s)
  (s_heap s) (s_chans s) (channels s) (s_users s) (s_hash s) (irccounts_channels s).
Definition set_memberships v s := CS (s_members s) v (s_lmembers s) (freemember s) (freemembership s)
  (s_heap s) (s_chans s) (channels s) (s_users s) (s_hash s) (irccounts_channels s).
Definition set_lmembers v s := CS (s_members s) (s_memberships s) v (freemember s) (freemembership s)
  (s_heap s) (s_chans s) (channels s) (s_users s) (s_hash s) (irccounts_channels s).
Definition set_chans v s := CS (s_members s) (s_memberships s) (s_lmembers s) (freemember s) (freemembership s)
  (s_heap s) v (channels s) (s_users s) (s_hash s) (irccounts_channels s).
Definition set_users v s := CS (s_members s) (s_memberships s) (s_lmembers s) (freemember s) (freemembership s)
  (s_heap s) (s_chans s) (channels s) v (s_hash s) (irccounts_channels s).

Definition get {A} (m : gmap nat A) (p : option nat) : res A :=
  match p with
  | None => UB
  | Some a => match m !! a with Some x => Ok x | None => UB end
  end.

(** DelListItem on an item that is in the list. *)
Definition del_item (x : nat) (l : list nat) : res (list nat) :=
  let! _ := require (bool_decide (x ∈ l)) in Ok (unlink x l).

(** ** Finding members *)

Fixpoint find_member_link (s : cstate) (lp : list nat) (ptr : option nat) : res (option nat) :=
  match ptr, lp with
  | None, _ => Ok None
  | _, [] => Ok None
  | Some c, m :: r =>
      let! o := get (s_members s) (Some m) in
      if bool_decide (m_client o = Some c) then Ok (Some m) else find_member_link s r ptr
  end.

Fixpoint find_membership_link (s : cstate) (lp : list nat) (ptr : option nat) : res (option nat) :=
  match ptr, lp with
  | None, _ => Ok None
  | _, [] => Ok None
  | Some c, m :: r =>
      let! o := get (s_memberships s) (Some m) in
      if bool_decide (mb_channel o = Some c) then Ok (Some m) else find_membership_link s r ptr
  end.

(** The macro [IsMember]. *)
Definition IsMember (s : cstate) (client : option nat) (chan : nat) : res bool :=
  match client with
  | None => Ok false
  | Some c =>
      match s_users s !! c with
      | None => Ok false
      | Some u => let! r := find_membership_link s (u_channel u) (Some chan) in Ok (bool_decide (r ≠ None))
      end
  end.

Section Channel.
(** Objects per allocation: 4072/sizeof(Member) and 4072/sizeof(Membership). *)
Variable per_block : nat.
Variable per_block_mb : nat.
Variable channelmodes : list Cmode.

(** ** Objects with a free list *)

Definition make_member (s : cstate) : res (nat * cstate) :=
  let '(free, heap) := match freemember s with
                       | [] => (rev (seq (s_heap s) per_block), (s_heap s + per_block)%nat)
                       | f => (f, s_heap s)
                       end in
  match free with
  | [] => UB
  | lp :: free =>
      Ok (lp, CS (<[lp := Member None [] None None]> (s_members s)) (s_memberships s) (s_lmembers s) free
               (freemembership s) heap (s_chans s) (channels s) (s_users s) (s_hash s) (irccounts_channels s))
  end.
Definition free_member (lp : nat) (s : cstate) : cstate :=
  CS (delete lp (s_members s)) (s_memberships s) (s_lmembers s) (lp :: freemember s) (freemembership s)
    (s_heap s) (s_chans s) (channels s) (s_users s) (s_hash s) (irccounts_channels s).

Definition make_membership (s : cstate) : res (nat * cstate) :=
  let '(free, heap) := match freemembership s with
                       | [] => (rev (seq (s_heap s) per_block_mb), (s_heap s + per_block_mb)%nat)
                       | f => (f, s_heap s)
                       end in
  match free with
  | [] => UB
  | m :: free =>
      Ok (m, CS (s_members s) (<[m := Membership None [] None]> (s_memberships s)) (s_lmembers s)
               (freemember s) free heap (s_chans s) (channels s) (s_users s) (s_hash s) (irccounts_channels s))
  end.
Definition free_membership (m : nat) (s : cstate) : cstate :=
  CS (s_members s) (delete m (s_memberships s)) (s_lmembers s) (freemember s) (m :: freemembership s)
    (s_heap s) (s_chans s) (channels s) (s_users s) (s_hash s) (irccounts_channels s).

(** safe_alloc() of a LocalMember. *)
Definition alloc_local (m : nat) (s : cstate) : nat * cstate :=
  (s_heap s, CS (s_members s) (s_memberships s) (<[s_heap s := m]> (s_lmembers s)) (freemember s)
               (freemembership s) (S (s_heap s)) (s_chans s) (channels s) (s_users s) (s_hash s)
               (irccounts_channels s)).

(** [add_member_mode_fast] and [del_member_mode_fast] of api-channelmode.c. *)
Definition change_modes (f : list Z → Z → list Z) (m mb : nat) (letter : Z) (s : cstate) : res cstate :=
  let! o := get (s_members s) (Some m) in
  let s := set_members (<[m := Member (m_client o) (f (m_modes o) letter) (m_related o) (m_local o)]>
                         (s_members s)) s in
  let! b := get (s_memberships s) (Some mb) in
  Ok (set_memberships (<[mb := Membership (mb_channel b) (f (mb_modes b) letter) (mb_related b)]>
                         (s_memberships s)) s).
Definition add_member_mode_fast := change_modes (addlettertomstring channelmodes).
Definition del_member_mode_fast := change_modes delletterfromstring.

Definition find_mbs (s : cstate) (client channel : nat) : res (option (nat * nat)) :=
  let! u := get (s_users s) (Some client) in
  let! r := find_membership_link s (u_channel u) (Some channel) in
  match r with
  | None => Ok None
  | Some mbs => let! o := get (s_memberships s) (Some mbs) in
                match mb_related o with None => UB | Some mb => Ok (Some (mb, mbs)) end
  end.
Definition add_member_mode (client channel : nat) (letter : Z) (s : cstate) : res cstate :=
  let! r := find_mbs s client channel in
  match r with None => Ok s | Some (mb, mbs) => add_member_mode_fast mb mbs letter s end.
Definition del_member_mode (client channel : nat) (letter : Z) (s : cstate) : res cstate :=
  let! r := find_mbs s client channel in
  match r with None => Ok s | Some (mb, mbs) => del_member_mode_fast mb mbs letter s end.

Definition check_channel_access (s : cstate) (client channel : nat) (modes : list Z) : res bool :=
  match s_users s !! client with
  | None => Ok false
  | Some u =>
      let! mb := find_membership_link s (u_channel u) (Some channel) in
      match mb with
      | None => Ok false
      | Some mb => let! o := get (s_memberships s) (Some mb) in
                   Ok (existsb (strchr modes) (mb_modes o))
      end
  end.

(** ** Joining and leaving *)

Definition with_members (c : chan) (users : Z) (members locals : list nat) : chan :=
  Chan (ch_name c) users members locals (ch_banlist c) (ch_exlist c) (ch_invexlist c) (ch_creationtime c).

Fixpoint add_modes (m mb : nat) (modes : list Z) (s : cstate) : res cstate :=
  match modes with
  | [] => Ok s
  | p :: r => let! s := add_member_mode_fast m mb p s in add_modes m mb r s
  end.

(** The entry in [channel->local_members]. *)
Definition add_local_member (channel m : nat) (s : cstate) : res (option nat * cstate) :=
  let '(lm, s) := alloc_local m s in
  let! c := get (s_chans s) (Some channel) in
  Ok (Some lm, set_chans (<[channel := with_members c (ch_users c) (ch_members c) (lm :: ch_local c)]>
                            (s_chans s)) s).

(** [add_user_to_channel]; what the hook does is not part of the state. *)
Definition add_user_to_channel (channel client : nat) (modes : list Z) (s : cstate) : res cstate :=
  match s_users s !! client with
  | None => Ok s
  | Some u =>
      let! (m, s) := make_member s in
      let s := set_members (<[m := Member (Some client) [] None None]> (s_members s)) s in
      let! c := get (s_chans s) (Some channel) in
      let s := set_chans (<[channel := with_members c (ch_users c + 1) (m :: ch_members c) (ch_local c)]>
                            (s_chans s)) s in
      let! (lm, s) := if u_myconnect u then add_local_member channel m s else Ok (None, s) in
      let! (mb, s) := make_membership s in
      let s := set_memberships (<[mb := Membership (Some channel) [] (Some m)]> (s_memberships s)) s in
      let s := set_users (<[client := User (mb :: u_channel u) (u_joined u + 1) (u_myconnect u)]> (s_users s)) s in
      let s := set_members (<[m := Member (Some client) [] (Some mb) lm]> (s_members s)) s in
      add_modes m mb modes s
  end.

(** [sub1_from_channel]: [should_destroy] is what the hook leaves there. *)
Definition sub1_from_channel (should_destroy : nat → bool) (channel : nat) (s : cstate) : res (cstate * Z) :=
  let! c := get (s_chans s) (Some channel) in
  let users := ch_users c - 1 in
  if 0 <? users then
    Ok (set_chans (<[channel := with_members c users (ch_members c) (ch_local c)]> (s_chans s)) s, 0)
  else
    let s := set_chans (<[channel := with_members c 0 (ch_members c) (ch_local c)]> (s_chans s)) s in
    if negb (should_destroy channel) then Ok (s, 0)
    else
      let h := del_from_channel_hash_table (ch_name c) channel (s_hash s) in
      let h := set_objects (clients h) (delete channel (Hash.channels h)) h in
      Ok (CS (s_members s) (s_memberships s) (s_lmembers s) (freemember s) (freemembership s) (s_heap s)
            (delete channel (s_chans s)) (unlink channel (channels s)) (s_users s) h
            (irccounts_channels s - 1), 1).

Definition remove_user_from_channel_withmb (should_destroy : nat → bool) (client channel mb : nat) (s : cstate)
  : res (cstate * Z) :=
  let! b := get (s_memberships s) (Some mb) in
  let! m := match mb_related b with None => UB | Some m => Ok m end in
  let! o := get (s_members s) (Some m) in
  let! s := match m_local o with
            | None => Ok s
            | Some lm =>
                let! c := get (s_chans s) (Some channel) in
                let! l := del_item lm (ch_local c) in
                let s := set_chans (<[channel := with_members c (ch_users c) (ch_members c) l]> (s_chans s)) s in
                Ok (set_lmembers (delete lm (s_lmembers s)) s)
            end in
  let! c := get (s_chans s) (Some channel) in
  let! l := del_item m (ch_members c) in
  let s := set_chans (<[channel := with_members c (ch_users c) l (ch_local c)]> (s_chans s)) s in
  let s := free_member m s in
  let! u := get (s_users s) (Some client) in
  let! l := del_item mb (u_channel u) in
  let s := free_membership mb s in
  let s := set_users (<[client := User l (u_joined u - 1) (u_myconnect u)]> (s_users s)) s in
  sub1_from_channel should_destroy channel s.

Definition remove_user_from_channel (should_destroy : nat → bool) (client channel : nat) (s : cstate)
  : res (cstate * Z) :=
  let! u := get (s_users s) (Some client) in
  let! r := find_membership_link s (u_channel u) (Some channel) in
  match r with
  | None => Ok (s, 0)
  | Some mb => remove_user_from_channel_withmb should_destroy client channel mb s
  end.

(** ** Creating channels *)

Definition bad_name_char (c : Z) : bool := (c <? 33) || (c =? COMMA) || (c =? COLON).

(** [make_channel]: [None] for an empty name. *)
Definition make_channel (now : Z) (name : list Z) (s : cstate) : res (option nat * cstate) :=
  match name with
  | [] => Ok (None, s)
  | _ =>
      let namebuf := (Strl.strlcpy [] name (CHANNELLEN + 1)).1 in
      let namebuf := take_while (λ c, negb (bad_name_char c)) namebuf in
      let! r := find_channel namebuf (s_hash s) in
      match r with
      | Some channel => Ok (Some channel, s)
      | None =>
          let channel := s_heap s in
          let h := set_objects (clients (s_hash s)) (<[channel := namebuf]> (Hash.channels (s_hash s))) (s_hash s) in
          let! h := add_to_channel_hash_table namebuf channel h in
          Ok (Some channel,
              CS (s_members s) (s_memberships s) (s_lmembers s) (freemember s) (freemembership s) (S (s_heap s))
                (<[channel := Chan namebuf 0 [] [] [] [] [] now]> (s_chans s)) (channel :: channels s)
                (s_users s) h (irccounts_channels s + 1))
      end
  end.
End Channel.

(** ** Theory: who is in which channel *)

(** The objects that make a client a member of a channel. *)
Record link := Link { l_m : nat; l_mb : nat; l_lm : option nat; l_modes : list Z }.
Abbreviation links := (gmap (nat * nat) link).

(** The lists of the channels and of the users are two views of one relation
    between channels and clients. *)
Record view (s : cstate) (G : links) : Prop := {
  v_member : ∀ ch cl L, G !! (ch, cl) = Some L →
    s_members s !! l_m L = Some (Member (Some cl) (l_modes L) (Some (l_mb L)) (l_lm L));
  v_membership : ∀ ch cl L, G !! (ch, cl) = Some L →
    s_memberships s !! l_mb L = Some (Membership (Some ch) (l_modes L) (Some (l_m L)));
  v_lmember : ∀ ch cl L x, G !! (ch, cl) = Some L → l_lm L = Some x → s_lmembers s !! x = Some (l_m L);
  v_dom : ∀ ch cl L, G !! (ch, cl) = Some L →
    is_Some (s_chans s !! ch) ∧ ∃ u, s_users s !! cl = Some u ∧ (l_lm L ≠ None ↔ u_myconnect u = true);
  v_chan : ∀ ch c, s_chans s !! ch = Some c →
    NoDup (ch_members c) ∧ NoDup (ch_local c) ∧ ch_users c = Z.of_nat (length (ch_members c)) ∧
    (∀ x, x ∈ ch_members c ↔ ∃ cl L, G !! (ch, cl) = Some L ∧ l_m L = x) ∧
    (∀ x, x ∈ ch_local c ↔ ∃ cl L, G !! (ch, cl) = Some L ∧ l_lm L = Some x);
  v_user : ∀ cl u, s_users s !! cl = Some u →
    NoDup (u_channel u) ∧ u_joined u = Z.of_nat (length (u_channel u)) ∧
    (∀ x, x ∈ u_channel u ↔ ∃ ch L, G !! (ch, cl) = Some L ∧ l_mb L = x)
}.

(** Free objects are not in use, and unused addresses are unused. *)
Record alloc_ok (s : cstate) : Prop := {
  a_free : NoDup (freemember s) ∧ ∀ x, x ∈ freemember s → (x < s_heap s)%nat ∧ s_members s !! x = None;
  a_free_mb : NoDup (freemembership s) ∧
    ∀ x, x ∈ freemembership s → (x < s_heap s)%nat ∧ s_memberships s !! x = None;
  a_members : ∀ x o, s_members s !! x = Some o → (x < s_heap s)%nat;
  a_memberships : ∀ x o, s_memberships s !! x = Some o → (x < s_heap s)%nat;
  a_lmembers : ∀ x o, s_lmembers s !! x = Some o → (x < s_heap s)%nat;
  a_chans : ∀ x o, s_chans s !! x = Some o → (x < s_heap s)%nat
}.

Section Theory.
Context (per_block per_block_mb : nat) (channelmodes : list Cmode).
Hypothesis some_per_block : (0 < per_block)%nat ∧ (0 < per_block_mb)%nat.

Abbreviation make_member := (make_member per_block).
Abbreviation make_membership := (make_membership per_block_mb).
Abbreviation add_modes := (add_modes channelmodes).

(** The objects of different memberships are different. *)
Lemma view_inj s G ch cl ch' cl' L L' :
  view s G → G !! (ch, cl) = Some L → G !! (ch', cl') = Some L' →
  l_m L = l_m L' ∨ l_mb L = l_mb L' ∨ (l_lm L ≠ None ∧ l_lm L = l_lm L') → (ch, cl) = (ch', cl').
Proof.
  intros Hv HL HL'.
  pose proof (v_member _ _ Hv _ _ _ HL) as Hm. pose proof (v_member _ _ Hv _ _ _ HL') as Hm'.
  pose proof (v_membership _ _ Hv _ _ _ HL) as Hb. pose proof (v_membership _ _ Hv _ _ _ HL') as Hb'.
  assert (l_m L = l_m L' → (ch, cl) = (ch', cl')) as Hkey.
  { intros E. rewrite E, Hm' in Hm. injection Hm as -> _ Eb _. rewrite <-Eb in Hb. rewrite Hb in Hb'. by injection Hb' as ->. }
  intros [E|[E|[Hne E]]]; [by apply Hkey| |].
  - rewrite E, Hb' in Hb. injection Hb as -> _ Em. by apply Hkey.
  - destruct (l_lm L) as [x|] eqn:Ex; [|done]. symmetry in E.
    pose proof (v_lmember _ _ Hv _ _ _ _ HL Ex) as Hx. pose proof (v_lmember _ _ Hv _ _ _ _ HL' E) as Hx'.
    rewrite Hx in Hx'. injection Hx' as Em. by apply Hkey.
Qed.

(** *** The free lists *)

Lemma fresh_block h n :
  (0 < n)%nat → ∃ x f, rev (seq h n) = x :: f ∧ NoDup (x :: f) ∧ ∀ y, y ∈ x :: f → (h ≤ y < h + n)%nat.
Proof.
  intros Hn. assert (NoDup (rev (seq h n))) as Hd by (rewrite <-Permutation_rev; apply NoDup_seq).
  assert (∀ y, y ∈ rev (seq h n) → (h ≤ y < h + n)%nat) as Hy.
  { intros y. rewrite <-Permutation_rev, elem_of_seq. lia. }
  destruct (rev (seq h n)) as [|x f] eqn:E; [|by exists x, f].
  apply (f_equal length) in E. rewrite length_rev, length_seq in E. simpl in E. lia.
Qed.

(** Changing objects that exist. *)
Lemma alloc_members s m o : alloc_ok s → is_Some (s_members s !! m) → alloc_ok (set_members (<[m := o]> (s_members s)) s).
Proof.
  intros [[Hd Hf] H2 Hm H4 H5 H6] [o' Ho]. split; simpl; try done.
  - split; [done|]. intros x Hx. destruct (Hf x Hx). rewrite lookup_insert_ne; [done|congruence].
  - intros x p. rewrite lookup_insert_Some. intros [[<- _]|[_ ?]]; eauto.
Qed.
Lemma alloc_memberships s m o :
  alloc_ok s → is_Some (s_memberships s !! m) → alloc_ok (set_memberships (<[m := o]> (s_memberships s)) s).
Proof.
  intros [H1 [Hd Hf] H3 Hm H5 H6] [o' Ho]. split; simpl; try done.
  - split; [done|]. intros x Hx. destruct (Hf x Hx). rewrite lookup_insert_ne; [done|congruence].
  - intros x p. rewrite lookup_insert_Some. intros [[<- _]|[_ ?]]; eauto.
Qed.
Lemma alloc_set_chans s m o : alloc_ok s → is_Some (s_chans s !! m) → alloc_ok (set_chans (<[m := o]> (s_chans s)) s).
Proof.
  intros [H1 H2 H3 H4 H5 H6] [o' Ho]. split; simpl; try done. intros x p. rewrite lookup_insert_Some. intros [[<- _]|[_ ?]]; eauto.
Qed.
Lemma alloc_set_users s v : alloc_ok s → alloc_ok (set_users v s).
Proof. by intros [H1 H2 H3 H4 H5 H6]. Qed.
Lemma alloc_local_ok s m : alloc_ok s → s_lmembers s !! s_heap s = None ∧ alloc_ok (alloc_local m s).2.
Proof.
  intros [[? H1] [? H2] H3 H4 H5 H6]. split.
  { destruct (s_lmembers s !! s_heap s) as [o|] eqn:E; [|done]. apply H5 in E. lia. }
  split; simpl; try (split; [done|]); intros x; try (intros o Ho; specialize (H3 x)); intros.
  all: try (edestruct H1; [done|]; split; [lia|done]); try (edestruct H2; [done|]; split; [lia|done]).
  - apply H3 in Ho. lia.
  - apply H4 in Ho. lia.
  - apply lookup_insert_Some in Ho as [[<- _]|[_ Ho]]; [lia|]. apply H5 in Ho. lia.
  - apply H6 in Ho. lia.
Qed.

(** A fresh object, from the free list or from a new block. *)
Lemma take_fresh {A} (objs : gmap nat A) (free : list nat) (heap n : nat) :
  (0 < n)%nat → (∀ x o, objs !! x = Some o → (x < heap)%nat) →
  NoDup free → (∀ x, x ∈ free → (x < heap)%nat ∧ objs !! x = None) →
  ∃ m free' heap', (match free with [] => (rev (seq heap n), (heap + n)%nat) | x :: l => (x :: l, heap) end) = (m :: free', heap') ∧
    objs !! m = None ∧ (heap ≤ heap')%nat ∧ (m < heap')%nat ∧ NoDup (m :: free') ∧
    ∀ x, x ∈ free' → (x < heap')%nat ∧ objs !! x = None.
Proof.
  intros Hn Hm Hd Hf. destruct free as [|m f].
  - destruct (fresh_block heap n Hn) as (x & f & -> & Hnd & Hx). eexists _, _, _. split; [done|].
    assert (∀ y, y ∈ x :: f → objs !! y = None) as Hno.
    { intros y Hy. destruct (objs !! y) as [o|] eqn:Eo; [|done]. apply Hm in Eo. apply Hx in Hy. lia. }
    split_and!; [apply Hno; by left|lia|apply Hx; by left|done|]. intros y Hy.
    split; [apply Hx; by right|apply Hno; by right].
  - eexists _, _, _. split; [done|]. destruct (Hf m) as [? ?]; [by left|].
    split_and!; [done|lia|done|done|]. intros x Hx. apply Hf. by right.
Qed.

Lemma make_member_ok s :
  alloc_ok s → ∃ m free heap,
    let s' := CS (<[m := Member None [] None None]> (s_members s)) (s_memberships s) (s_lmembers s) free
      (freemembership s) heap (s_chans s) (channels s) (s_users s) (s_hash s) (irccounts_channels s) in
    make_member s = Ok (m, s') ∧ s_members s !! m = None ∧ alloc_ok s'.
Proof using some_per_block.
  intros [[Hd Hf] [Hd2 Hf2] Hm Hb Hl Hc].
  destruct (take_fresh (s_members s) (freemember s) (s_heap s) per_block) as (m & f & h & E & H1 & H2 & H3 & H4 & H5);
    [lia|done..|].
  exists m, f, h. intros s'. unfold Channel.make_member. rewrite E. split; [done|]. split; [done|].
  apply NoDup_cons in H4 as [Hnin Hnd]. split; simpl.
  - split; [done|]. intros x Hx. destruct (H5 x Hx). split; [done|]. rewrite lookup_insert_ne; [done|]. by intros ->.
  - split; [done|]. intros x Hx. destruct (Hf2 x Hx). split; [lia|done].
  - intros x o. rewrite lookup_insert_Some. intros [[<- _]|[_ Ho]]; [lia|]. apply Hm in Ho. lia.
  - intros x o Ho. apply Hb in Ho. lia.
  - intros x o Ho. apply Hl in Ho. lia.
  - intros x o Ho. apply Hc in Ho. lia.
Qed.

Lemma make_membership_ok s :
  alloc_ok s → ∃ m free heap,
    let s' := CS (s_members s) (<[m := Membership None [] None]> (s_memberships s)) (s_lmembers s)
      (freemember s) free heap (s_chans s) (channels s) (s_users s) (s_hash s) (irccounts_channels s) in
    make_membership s = Ok (m, s') ∧ s_memberships s !! m = None ∧ alloc_ok s'.
Proof using some_per_block.
  intros [[Hd Hf] [Hd2 Hf2] Hm Hb Hl Hc].
  destruct (take_fresh (s_memberships s) (freemembership s) (s_heap s) per_block_mb)
    as (m & f & h & E & H1 & H2 & H3 & H4 & H5); [lia|done..|].
  exists m, f, h. intros s'. unfold Channel.make_membership. rewrite E. split; [done|]. split; [done|].
  apply NoDup_cons in H4 as [Hnin Hnd]. split; simpl.
  - split; [done|]. intros x Hx. destruct (Hf x Hx). split; [lia|done].
  - split; [done|]. intros x Hx. destruct (H5 x Hx). split; [done|]. rewrite lookup_insert_ne; [done|]. by intros ->.
  - intros x o Ho. apply Hm in Ho. lia.
  - intros x o. rewrite lookup_insert_Some. intros [[<- _]|[_ Ho]]; [lia|]. apply Hb in Ho. lia.
  - intros x o Ho. apply Hl in Ho. lia.
  - intros x o Ho. apply Hc in Ho. lia.
Qed.

(** *** Joining *)

Definition opt_cons (x : option nat) (l : list nat) : list nat := match x with Some y => y :: l | None => l end.
Lemma elem_of_opt_cons x y l : y ∈ opt_cons x l ↔ x = Some y ∨ y ∈ l.
Proof. destruct x as [z|]; simpl; [rewrite elem_of_cons|]; intuition congruence. Qed.

(** The state before the modes are set. *)
Record joined (s : cstate) (channel client m mb : nat) (lm : option nat) (u : user) (c : chan) (s' : cstate) : Prop := {
  j_m : s_members s !! m = None;
  j_mb : s_memberships s !! mb = None;
  j_lm : ∀ x, lm = Some x → s_lmembers s !! x = None;
  j_local : lm ≠ None ↔ u_myconnect u = true;
  j_members : s_members s' = <[m := Member (Some client) [] (Some mb) lm]> (s_members s);
  j_memberships : s_memberships s' = <[mb := Membership (Some channel) [] (Some m)]> (s_memberships s);
  j_lmembers : s_lmembers s' = match lm with Some x => <[x := m]> (s_lmembers s) | None => s_lmembers s end;
  j_chans : s_chans s' = <[channel := with_members c (ch_users c + 1) (m :: ch_members c) (opt_cons lm (ch_local c))]> (s_chans s);
  j_users : s_users s' = <[client := User (mb :: u_channel u) (u_joined u + 1) (u_myconnect u)]> (s_users s);
  j_rest : channels s' = channels s ∧ s_hash s' = s_hash s ∧ irccounts_channels s' = irccounts_channels s
}.

Lemma add_local_ok s channel m u c :
  alloc_ok s → s_chans s !! channel = Some c →
  ∃ lm s', (if u_myconnect u then add_local_member channel m s else Ok (None, s)) = Ok (lm, s') ∧ alloc_ok s' ∧
    (∀ x, lm = Some x → s_lmembers s !! x = None) ∧ (lm ≠ None ↔ u_myconnect u = true) ∧
    s_members s' = s_members s ∧ s_memberships s' = s_memberships s ∧
    s_lmembers s' = match lm with Some x => <[x := m]> (s_lmembers s) | None => s_lmembers s end ∧
    s_chans s' = <[channel := with_members c (ch_users c) (ch_members c) (opt_cons lm (ch_local c))]> (s_chans s) ∧
    s_users s' = s_users s ∧ channels s' = channels s ∧ s_hash s' = s_hash s ∧
    irccounts_channels s' = irccounts_channels s.
Proof.
  intros Ha Hc. destruct (u_myconnect u).
  - destruct (alloc_local_ok s m Ha) as [Hf Ha']. unfold add_local_member, alloc_local in *. cbn [snd] in Ha'.
    cbn [get s_chans]. rewrite Hc. cbn [rbind]. eexists _, _. split; [done|].
    split_and!; simpl; try done; [|by intros x [= <-]]. refine (alloc_set_chans _ _ _ Ha' _). by exists c.
  - eexists _, _. split; [done|]. split_and!; simpl; try done. rewrite insert_id; [done|]. by destruct c.
Qed.

Lemma join_state s channel client u c modes :
  alloc_ok s → s_users s !! client = Some u → s_chans s !! channel = Some c →
  ∃ m mb lm s', joined s channel client m mb lm u c s' ∧ alloc_ok s' ∧
    add_user_to_channel per_block per_block_mb channelmodes channel client modes s = add_modes m mb modes s'.
Proof using some_per_block.
  intros Ha Hu Hc. unfold add_user_to_channel. rewrite Hu.
  destruct (make_member_ok s Ha) as (m & f & h & -> & Hm & Ha1). cbn [rbind].
  match type of Ha1 with alloc_ok ?x => set (s1 := x) in * end.
  set (s2 := set_members (<[m := Member (Some client) [] None None]> (s_members s1)) s1).
  assert (alloc_ok s2) as Ha2 by (apply alloc_members; [done|]; simpl; rewrite lookup_insert_eq; eauto).
  assert (s_chans s2 = s_chans s) as -> by done. cbn [get]. rewrite Hc. cbn [rbind].
  set (c1 := with_members c (ch_users c + 1) (m :: ch_members c) (ch_local c)).
  set (s3 := set_chans (<[channel := c1]> (s_chans s)) s2).
  assert (alloc_ok s3) as Ha3 by (apply (alloc_set_chans s2); [done|]; by exists c).
  destruct (add_local_ok s3 channel m u c1 Ha3)
    as (lm & s4 & -> & Ha4 & Hlm & Hloc & E1 & E2 & E3 & E4 & E5 & E6 & E7 & E8); [apply lookup_insert_eq|].
  cbn [rbind]. destruct (make_membership_ok s4 Ha4) as (mb & f2 & h2 & -> & Hmb & Ha5). cbn [rbind].
  match type of Ha5 with alloc_ok ?x => set (s5 := x) in * end.
  set (s6 := set_memberships (<[mb := Membership (Some channel) [] (Some m)]> (s_memberships s5)) s5).
  assert (alloc_ok s6) as Ha6 by (apply alloc_memberships; [done|]; simpl; rewrite lookup_insert_eq; eauto).
  set (s7 := set_users (<[client := User (mb :: u_channel u) (u_joined u + 1) (u_myconnect u)]> (s_users s6)) s6).
  assert (alloc_ok s7) as Ha7 by (by apply alloc_set_users).
  set (s8 := set_members (<[m := Member (Some client) [] (Some mb) lm]> (s_members s7)) s7).
  assert (alloc_ok s8) as Ha8.
  { apply alloc_members; [done|]. simpl. rewrite E1. simpl. rewrite lookup_insert_eq. eauto. }
  exists m, mb, lm, s8. split; [|by split].
  split; simpl; rewrite ?E1, ?E2, ?E3, ?E4, ?E5, ?E6, ?E7, ?E8; simpl; rewrite ?insert_insert_eq; try done.
  by rewrite E2 in Hmb.
Qed.

(** Membership in an inserted and in a deleted relation. *)
Lemma link_insert_chan (G : links) ch cl L ch' (P : link → Prop) :
  G !! (ch, cl) = None →
  (∃ cl' L', <[(ch, cl) := L]> G !! (ch', cl') = Some L' ∧ P L') ↔
  (ch' = ch ∧ P L) ∨ ∃ cl' L', G !! (ch', cl') = Some L' ∧ P L'.
Proof.
  intros Hn. split.
  - intros (cl' & L' & HL & HP). apply lookup_insert_Some in HL as [[[= <- <-] <-]|[_ HL]]; [by left|right; eauto].
  - intros [[-> HP]|(cl' & L' & HL & HP)]; [exists cl, L; by rewrite lookup_insert_eq|].
    exists cl', L'. rewrite lookup_insert_ne; [done|congruence].
Qed.
Lemma link_insert_user (G : links) ch cl L cl' (P : link → Prop) :
  G !! (ch, cl) = None →
  (∃ ch' L', <[(ch, cl) := L]> G !! (ch', cl') = Some L' ∧ P L') ↔
  (cl' = cl ∧ P L) ∨ ∃ ch' L', G !! (ch', cl') = Some L' ∧ P L'.
Proof.
  intros Hn. split.
  - intros (ch' & L' & HL & HP). apply lookup_insert_Some in HL as [[[= <- <-] <-]|[_ HL]]; [by left|right; eauto].
  - intros [[-> HP]|(ch' & L' & HL & HP)]; [exists ch, L; by rewrite lookup_insert_eq|].
    exists ch', L'. rewrite lookup_insert_ne; [done|congruence].
Qed.

Lemma view_join s G channel client m mb lm u c s' :
  view s G → joined s channel client m mb lm u c s' → s_users s !! client = Some u →
  s_chans s !! channel = Some c → G !! (channel, client) = None →
  view s' (<[(channel, client) := Link m mb lm []]> G).
Proof.
  intros Hv [Jm Jb Jl Jloc Em Eb El Ec Eu _] Hu Hc Hn. split.
  - intros ch cl L [[[= <- <-] <-]|[Hk HL]]%lookup_insert_Some; simpl; rewrite Em; [by rewrite lookup_insert_eq|].
    pose proof (v_member _ _ Hv _ _ _ HL) as H. rewrite lookup_insert_ne; [done|congruence].
  - intros ch cl L [[[= <- <-] <-]|[Hk HL]]%lookup_insert_Some; simpl; rewrite Eb; [by rewrite lookup_insert_eq|].
    pose proof (v_membership _ _ Hv _ _ _ HL) as H. rewrite lookup_insert_ne; [done|congruence].
  - intros ch cl L x [[[= <- <-] <-]|[Hk HL]]%lookup_insert_Some; simpl; intros Hx; rewrite El.
    + subst lm. by rewrite lookup_insert_eq.
    + pose proof (v_lmember _ _ Hv _ _ _ _ HL Hx) as H. destruct lm as [y|]; [|done].
      rewrite lookup_insert_ne; [done|]. intros ->. by rewrite (Jl x eq_refl) in H.
  - intros ch cl L HL. rewrite Ec, Eu. apply lookup_insert_Some in HL as [[[= <- <-] <-]|[Hk HL]].
    + rewrite !lookup_insert_eq. split; [by eexists|]. by eexists.
    + destruct (v_dom _ _ Hv _ _ _ HL) as [[c' Hc'] (u' & Hu' & Hl)]. split.
      * destruct (decide (channel = ch)) as [->|]; [rewrite lookup_insert_eq; by eexists|rewrite lookup_insert_ne by done; by eexists].
      * destruct (decide (client = cl)) as [->|]; [|by rewrite lookup_insert_ne by done; eexists].
        rewrite lookup_insert_eq. eexists. split; [done|]. simpl. congruence.
  - intros ch c'. rewrite Ec. destruct (v_chan _ _ Hv channel c Hc) as (N1 & N2 & Hus & M1 & M2).
    intros [[<- <-]|[Hk Hc']]%lookup_insert_Some; simpl.
    + split_and!; [constructor; [|done]| |lia|..].
      * rewrite M1. intros (cl & L & HL & <-). by rewrite (v_member _ _ Hv _ _ _ HL) in Jm.
      * destruct lm as [y|]; [|done]. constructor; [|done]. rewrite M2. intros (cl & L & HL & Hy).
        pose proof (v_lmember _ _ Hv _ _ _ _ HL Hy) as H. by rewrite (Jl y eq_refl) in H.
      * intros x. rewrite elem_of_cons, M1, link_insert_chan by done. simpl; intuition congruence.
      * intros x. rewrite elem_of_opt_cons, M2, link_insert_chan by done. simpl; intuition congruence.
    + destruct (v_chan _ _ Hv ch c' Hc') as (N1' & N2' & Hus' & M1' & M2'). split_and!; try done;
        intros x; rewrite link_insert_chan by done; [rewrite M1'|rewrite M2']; simpl; intuition congruence.
  - intros cl u'. rewrite Eu. destruct (v_user _ _ Hv client u Hu) as (N1 & Hj & M1).
    intros [[<- <-]|[Hk Hu']]%lookup_insert_Some; simpl.
    + split_and!; [constructor; [|done]|lia|].
      * rewrite M1. intros (ch & L & HL & <-). by rewrite (v_membership _ _ Hv _ _ _ HL) in Jb.
      * intros x. rewrite elem_of_cons, M1, link_insert_user by done. simpl; intuition congruence.
    + destruct (v_user _ _ Hv cl u' Hu') as (N1' & Hj' & M1'). split_and!; try done.
      intros x. rewrite link_insert_user, M1' by done. simpl; intuition congruence.
Qed.

(** *** Finding *)

Lemma find_membership_spec s G cl u ch :
  view s G → s_users s !! cl = Some u →
  find_membership_link s (u_channel u) (Some ch) = Ok (l_mb <$> G !! (ch, cl)).
Proof.
  intros Hv Hu. destruct (v_user _ _ Hv cl u Hu) as (_ & _ & Hin).
  assert (∀ l, (∀ x, x ∈ l → ∃ ch' L, G !! (ch', cl) = Some L ∧ l_mb L = x) →
    (∀ L, G !! (ch, cl) = Some L → l_mb L ∈ l) →
    find_membership_link s l (Some ch) = Ok (l_mb <$> G !! (ch, cl))) as H.
  { induction l as [|x l IH]; intros H1 H2; simpl.
    - destruct (G !! (ch, cl)) as [L|]; [|done]. by specialize (H2 L eq_refl); apply elem_of_nil in H2.
    - destruct (H1 x ltac:(by left)) as (ch' & L & HL & <-). rewrite (v_membership _ _ Hv _ _ _ HL). cbn [rbind].
      case_bool_decide as E; simpl in E; [injection E as ->; by rewrite HL|].
      apply IH; [intros; apply H1; by right|]. intros L' HL'. specialize (H2 L' HL').
      apply elem_of_cons in H2 as [E'|?]; [|done]. exfalso.
      pose proof (view_inj _ _ _ _ _ _ _ _ Hv HL HL' ltac:(auto)) as [= ->]. by apply E. }
  apply H; [apply Hin|]. intros L HL. apply Hin. eauto.
Qed.

Lemma find_member_spec s G ch c cl :
  view s G → s_chans s !! ch = Some c →
  find_member_link s (ch_members c) (Some cl) = Ok (l_m <$> G !! (ch, cl)).
Proof.
  intros Hv Hc. destruct (v_chan _ _ Hv ch c Hc) as (_ & _ & _ & Hin & _).
  assert (∀ l, (∀ x, x ∈ l → ∃ cl' L, G !! (ch, cl') = Some L ∧ l_m L = x) →
    (∀ L, G !! (ch, cl) = Some L → l_m L ∈ l) →
    find_member_link s l (Some cl) = Ok (l_m <$> G !! (ch, cl))) as H.
  { induction l as [|x l IH]; intros H1 H2; simpl.
    - destruct (G !! (ch, cl)) as [L|]; [|done]. by specialize (H2 L eq_refl); apply elem_of_nil in H2.
    - destruct (H1 x ltac:(by left)) as (cl' & L & HL & <-). rewrite (v_member _ _ Hv _ _ _ HL). cbn [rbind].
      case_bool_decide as E; simpl in E; [injection E as ->; by rewrite HL|].
      apply IH; [intros; apply H1; by right|]. intros L' HL'. specialize (H2 L' HL').
      apply elem_of_cons in H2 as [E'|?]; [|done]. exfalso.
      pose proof (view_inj _ _ _ _ _ _ _ _ Hv HL HL' ltac:(auto)) as [= ->]. by apply E. }
  apply H; [apply Hin|]. intros L HL. apply Hin. eauto.
Qed.

(** *** Modes *)

Definition with_modes (L : link) (modes : list Z) : link := Link (l_m L) (l_mb L) (l_lm L) modes.

(** Replacing a link by one with the same objects. *)
Lemma link_same (G : links) k L modes k' (P : link → Prop) :
  G !! k = Some L → (∀ L', P (with_modes L' modes) ↔ P L') →
  (∃ L', <[k := with_modes L modes]> G !! k' = Some L' ∧ P L') ↔ ∃ L', G !! k' = Some L' ∧ P L'.
Proof.
  intros HL HP. destruct (decide (k = k')) as [<-|Hne].
  - rewrite lookup_insert_eq, HL. split; intros (L' & [= <-] & H); eexists; (split; [done|]); by apply HP.
  - by rewrite lookup_insert_ne.
Qed.

Lemma change_modes_ok f s G ch cl L letter :
  view s G → alloc_ok s → G !! (ch, cl) = Some L →
  ∃ s', change_modes f (l_m L) (l_mb L) letter s = Ok s' ∧ alloc_ok s' ∧
    view s' (<[(ch, cl) := with_modes L (f (l_modes L) letter)]> G) ∧
    s_chans s' = s_chans s ∧ s_users s' = s_users s ∧ channels s' = channels s ∧ s_hash s' = s_hash s ∧
    irccounts_channels s' = irccounts_channels s.
Proof.
  intros Hv Ha HL. pose proof (v_member _ _ Hv _ _ _ HL) as Hm. pose proof (v_membership _ _ Hv _ _ _ HL) as Hb.
  unfold change_modes. cbn [get]. rewrite Hm. cbn [rbind get set_members s_memberships]. rewrite Hb. cbn [rbind].
  eexists. split; [done|]. split.
  { apply (alloc_memberships (set_members _ s)); [|simpl; by eexists]. apply alloc_members; [done|]. by eexists. }
  split; [|done]. split; simpl.
  - intros ch' cl' L' [[[= <- <-] <-]|[Hk HL']]%lookup_insert_Some; [by rewrite lookup_insert_eq|].
    rewrite lookup_insert_ne; [by apply (v_member _ _ Hv _ _ _ HL')|]. intros E. apply Hk.
    apply (view_inj _ _ _ _ _ _ _ _ Hv HL HL'). auto.
  - intros ch' cl' L' [[[= <- <-] <-]|[Hk HL']]%lookup_insert_Some; [by rewrite lookup_insert_eq|].
    rewrite lookup_insert_ne; [by apply (v_membership _ _ Hv _ _ _ HL')|]. intros E. apply Hk.
    apply (view_inj _ _ _ _ _ _ _ _ Hv HL HL'). auto.
  - intros ch' cl' L' x [[[= <- <-] <-]|[Hk HL']]%lookup_insert_Some; [|by apply (v_lmember _ _ Hv _ _ _ _ HL')].
    apply (v_lmember _ _ Hv _ _ _ _ HL).
  - intros ch' cl' L' [[[= <- <-] <-]|[Hk HL']]%lookup_insert_Some; [|by apply (v_dom _ _ Hv _ _ _ HL')].
    apply (v_dom _ _ Hv _ _ _ HL).
  - intros ch' c Hc. destruct (v_chan _ _ Hv ch' c Hc) as (N1 & N2 & Hus & M1 & M2). split_and!; try done; intros x;
      [rewrite M1|rewrite M2]; f_equiv; intros cl'; symmetry;
      [apply (link_same _ _ _ _ _ (λ L', l_m L' = x))|apply (link_same _ _ _ _ _ (λ L', l_lm L' = Some x))]; done.
  - intros cl' u Hu. destruct (v_user _ _ Hv cl' u Hu) as (N1 & Hj & M1). split_and!; try done. intros x.
    rewrite M1. f_equiv. intros ch'. symmetry. by apply (link_same _ _ _ _ _ (λ L', l_mb L' = x)).
Qed.

Lemma add_modes_ok modes s G ch cl L :
  view s G → alloc_ok s → G !! (ch, cl) = Some L →
  ∃ s', add_modes (l_m L) (l_mb L) modes s = Ok s' ∧ alloc_ok s' ∧
    view s' (<[(ch, cl) := with_modes L (foldl (addlettertomstring channelmodes) (l_modes L) modes)]> G) ∧
    s_chans s' = s_chans s ∧ s_users s' = s_users s ∧ channels s' = channels s ∧ s_hash s' = s_hash s ∧
    irccounts_channels s' = irccounts_channels s.
Proof.
  revert s G L. induction modes as [|p modes IH]; intros s G L Hv Ha HL; simpl.
  - exists s. split; [done|]. split; [done|]. rewrite insert_id; [by split_and!|]. rewrite HL. by destruct L.
  - unfold add_member_mode_fast.
    destruct (change_modes_ok (addlettertomstring channelmodes) s G ch cl L p Hv Ha HL)
      as (s1 & -> & Ha1 & Hv1 & E1 & E2 & E3 & E4 & E5). cbn [rbind].
    destruct (IH _ _ _ Hv1 Ha1 ltac:(apply lookup_insert_eq)) as (s' & Hs & Ha' & Hv' & F1 & F2 & F3 & F4 & F5).
    simpl in Hs. rewrite Hs. rewrite insert_insert_eq in Hv'. exists s'. split_and!; try done; congruence.
Qed.

(** *** Leaving *)

Lemma del_item_ok x l : x ∈ l → del_item x l = Ok (unlink x l).
Proof. intros Hx. unfold del_item. by rewrite bool_decide_eq_true_2. Qed.

Lemma unlink_length x l : x ∈ l → length l = S (length (unlink x l)).
Proof.
  induction l as [|y l IH]; [by intros ?%elem_of_nil|]. simpl. destruct (Nat.eqb_spec y x) as [->|Hne]; [done|].
  intros [->|Hx]%elem_of_cons; [done|]. simpl. by rewrite <-IH.
Qed.

(** The state of the lists after the objects of a member are gone, before the
    count of the channel is lowered. *)
Record left (s : cstate) (channel client : nat) (L : link) (u : user) (c : chan) (s' : cstate) : Prop := {
  d_members : s_members s' = delete (l_m L) (s_members s);
  d_memberships : s_memberships s' = delete (l_mb L) (s_memberships s);
  d_lmembers : s_lmembers s' = match l_lm L with Some x => delete x (s_lmembers s) | None => s_lmembers s end;
  d_chans : s_chans s' = <[channel := with_members c (ch_users c) (unlink (l_m L) (ch_members c))
     (match l_lm L with Some x => unlink x (ch_local c) | None => ch_local c end)]> (s_chans s);
  d_users : s_users s' = <[client := User (unlink (l_mb L) (u_channel u)) (u_joined u - 1) (u_myconnect u)]> (s_users s);
  d_free : freemember s' = l_m L :: freemember s ∧ freemembership s' = l_mb L :: freemembership s ∧ s_heap s' = s_heap s;
  d_rest : channels s' = channels s ∧ s_hash s' = s_hash s ∧ irccounts_channels s' = irccounts_channels s
}.

Lemma leave_state destroy s G channel client L u c :
  view s G → G !! (channel, client) = Some L → s_users s !! client = Some u → s_chans s !! channel = Some c →
  ∃ s', left s channel client L u c s' ∧
    remove_user_from_channel_withmb destroy client channel (l_mb L) s = sub1_from_channel destroy channel s'.
Proof.
  intros Hv HL Hu Hc. pose proof (v_member _ _ Hv _ _ _ HL) as Hm. pose proof (v_membership _ _ Hv _ _ _ HL) as Hb.
  destruct (v_chan _ _ Hv channel c Hc) as (_ & _ & _ & M1 & M2). destruct (v_user _ _ Hv client u Hu) as (_ & _ & M3).
  unfold remove_user_from_channel_withmb. cbn [get]. rewrite Hb. cbn [rbind mb_related get]. rewrite Hm.
  cbn [rbind m_local].
  destruct (l_lm L) as [x|] eqn:Ex; [rewrite Hc; cbn [rbind]; rewrite del_item_ok by (apply M2; eauto)|];
    cbn [rbind s_chans set_chans set_lmembers]; rewrite ?lookup_insert_eq, ?Hc; cbn [rbind];
    cbn [ch_members ch_local ch_users with_members]; rewrite del_item_ok by (apply M1; eauto); cbn [rbind];
    cbn [s_users set_chans set_lmembers free_member]; rewrite Hu; cbn [rbind];
    rewrite del_item_ok by (apply M3; eauto); cbn [rbind];
    (eexists; split; [|done]); split; simpl; rewrite ?Ex, ?insert_insert_eq; done.
Qed.

Lemma alloc_left s G channel client L u c s' :
  view s G → alloc_ok s → G !! (channel, client) = Some L → is_Some (s_chans s !! channel) →
  left s channel client L u c s' → alloc_ok s'.
Proof.
  intros Hv [[Hd1 Hf1] [Hd2 Hf2] H3 H4 H5 H6] HL [c0 Hc0] [Em Eb El Ec Eu (F1 & F2 & F3) _].
  pose proof (v_member _ _ Hv _ _ _ HL) as Hm. pose proof (v_membership _ _ Hv _ _ _ HL) as Hb.
  split; rewrite ?F1, ?F2, ?F3, ?Em, ?Eb, ?El, ?Ec.
  - split; [constructor; [|done]; intros Hx; apply Hf1 in Hx as [_ Hx]; congruence|].
    intros x [->|Hx]%elem_of_cons; [split; [by eapply H3|apply lookup_delete_eq]|].
    destruct (Hf1 x Hx). split; [done|]. apply lookup_delete_None. auto.
  - split; [constructor; [|done]; intros Hx; apply Hf2 in Hx as [_ Hx]; congruence|].
    intros x [->|Hx]%elem_of_cons; [split; [by eapply H4|apply lookup_delete_eq]|].
    destruct (Hf2 x Hx). split; [done|]. apply lookup_delete_None. auto.
  - intros x o [_ Ho]%lookup_delete_Some. eauto.
  - intros x o [_ Ho]%lookup_delete_Some. eauto.
  - intros x o Ho. destruct (l_lm L); [apply lookup_delete_Some in Ho as [_ Ho]|]; eauto.
  - intros x o [[<- _]|[_ Ho]]%lookup_insert_Some; eauto.
Qed.

(** The count lowered, too. *)
Definition lowered (channel : nat) (s : cstate) : cstate :=
  match s_chans s !! channel with
  | Some c => set_chans (<[channel := with_members c (ch_users c - 1) (ch_members c) (ch_local c)]> (s_chans s)) s
  | None => s
  end.

Lemma link_delete_chan (s : cstate) (G : links) ch cl L ch' (P : link → Prop) :
  view s G → G !! (ch, cl) = Some L → (∀ L', P L' → P L → l_m L = l_m L' ∨ l_mb L = l_mb L' ∨ (l_lm L ≠ None ∧ l_lm L = l_lm L')) →
  (∃ cl' L', delete (ch, cl) G !! (ch', cl') = Some L' ∧ P L') ↔
  (∃ cl' L', G !! (ch', cl') = Some L' ∧ P L') ∧ ~ (ch' = ch ∧ P L).
Proof.
  intros Hv HL HP. split.
  - intros (cl' & L' & [Hk HL']%lookup_delete_Some & H). split; [eauto|]. intros [-> HPL]. apply Hk.
    apply (view_inj _ _ _ _ _ _ _ _ Hv HL HL'). by apply HP.
  - intros [(cl' & L' & HL' & H) Hn]. exists cl', L'. split; [|done]. apply lookup_delete_Some. split; [|done].
    intros [= -> ->]. apply Hn. split; [done|]. by simplify_eq.
Qed.
Lemma link_delete_user (s : cstate) (G : links) ch cl L cl' (P : link → Prop) :
  view s G → G !! (ch, cl) = Some L → (∀ L', P L' → P L → l_mb L = l_mb L') →
  (∃ ch' L', delete (ch, cl) G !! (ch', cl') = Some L' ∧ P L') ↔
  (∃ ch' L', G !! (ch', cl') = Some L' ∧ P L') ∧ ~ (cl' = cl ∧ P L).
Proof.
  intros Hv HL HP. split.
  - intros (ch' & L' & [Hk HL']%lookup_delete_Some & H). split; [eauto|]. intros [-> HPL]. apply Hk.
    apply (view_inj _ _ _ _ _ _ _ _ Hv HL HL'). auto.
  - intros [(ch' & L' & HL' & H) Hn]. exists ch', L'. split; [|done]. apply lookup_delete_Some. split; [|done].
    intros [= -> ->]. apply Hn. split; [done|]. by simplify_eq.
Qed.

(** The objects of the other memberships stay. *)
Lemma view_left_objects s G channel client L u c s' ch cl L' :
  view s G → G !! (channel, client) = Some L → left s channel client L u c s' →
  delete (channel, client) G !! (ch, cl) = Some L' →
  s_members s' !! l_m L' = Some (Member (Some cl) (l_modes L') (Some (l_mb L')) (l_lm L')) ∧
  s_memberships s' !! l_mb L' = Some (Membership (Some ch) (l_modes L') (Some (l_m L'))) ∧
  ∀ x, l_lm L' = Some x → s_lmembers s' !! x = Some (l_m L').
Proof.
  intros Hv HL [Em Eb El _ _ _ _] [Hk HL']%lookup_delete_Some.
  assert (∀ P : Prop, P → (P → l_m L = l_m L' ∨ l_mb L = l_mb L' ∨ (l_lm L ≠ None ∧ l_lm L = l_lm L')) → False) as Hne.
  { intros P HP H. apply Hk. exact (view_inj _ _ _ _ _ _ _ _ Hv HL HL' (H HP)). }
  rewrite Em, Eb, El. split_and!.
  - rewrite lookup_delete_ne; [by apply (v_member _ _ Hv _ _ _ HL')|]. intros E. apply (Hne _ E). auto.
  - rewrite lookup_delete_ne; [by apply (v_membership _ _ Hv _ _ _ HL')|]. intros E. apply (Hne _ E). auto.
  - intros x Hx. pose proof (v_lmember _ _ Hv _ _ _ _ HL' Hx) as H. destruct (l_lm L) as [y|] eqn:Ey; [|done].
    rewrite lookup_delete_ne; [done|]. intros ->. apply (Hne True I). intros _. rewrite Hx. auto.
Qed.

Lemma view_leave_chan s G channel client L c :
  view s G → G !! (channel, client) = Some L → s_chans s !! channel = Some c →
  ∀ ch c', <[channel := with_members c (ch_users c - 1) (unlink (l_m L) (ch_members c))
      (match l_lm L with Some x => unlink x (ch_local c) | None => ch_local c end)]> (s_chans s) !! ch = Some c' →
    NoDup (ch_members c') ∧ NoDup (ch_local c') ∧ ch_users c' = Z.of_nat (length (ch_members c')) ∧
    (∀ x, x ∈ ch_members c' ↔ ∃ cl L', delete (channel, client) G !! (ch, cl) = Some L' ∧ l_m L' = x) ∧
    (∀ x, x ∈ ch_local c' ↔ ∃ cl L', delete (channel, client) G !! (ch, cl) = Some L' ∧ l_lm L' = Some x).
Proof.
  intros Hv HL Hc. destruct (v_chan _ _ Hv channel c Hc) as (N1 & N2 & Hus & M1 & M2).
  intros ch c' [[<- <-]|[Hk Hc']]%lookup_insert_Some; simpl.
  - destruct (unlink_spec (l_m L) _ N1) as [N1' U1].
    assert (l_m L ∈ ch_members c) as Hin by (apply M1; eauto). apply unlink_length in Hin.
    split_and!; [done| |lia|..].
    + destruct (l_lm L); [by apply unlink_spec|done].
    + intros x. rewrite U1, M1, (link_delete_chan s G channel client L) by (try done; intros; left; congruence).
      intuition congruence.
    + intros x. rewrite (link_delete_chan s G channel client L) by (try done; intros L' E1 E2; right; right; rewrite E1, E2; auto).
      rewrite <-M2. destruct (l_lm L) as [y|]; [rewrite (proj2 (unlink_spec y _ N2))|]; intuition congruence.
  - destruct (v_chan _ _ Hv ch c' Hc') as (N1' & N2' & Hus' & M1' & M2'). split_and!; try done; intros x.
    + rewrite (link_delete_chan s G channel client L) by (try done; intros; left; congruence).
      rewrite <-M1'. intuition congruence.
    + rewrite (link_delete_chan s G channel client L) by (try done; intros L' E1 E2; right; right; rewrite E1, E2; auto).
      rewrite <-M2'. intuition congruence.
Qed.

Lemma view_leave s G channel client L u c s' :
  view s G → G !! (channel, client) = Some L → s_users s !! client = Some u → s_chans s !! channel = Some c →
  left s channel client L u c s' → view (lowered channel s') (delete (channel, client) G).
Proof.
  intros Hv HL Hu Hc Hl. pose proof (λ ch cl L', view_left_objects s G channel client L u c s' ch cl L' Hv HL Hl) as Hobj.
  destruct Hl as [_ _ _ Ec Eu _ _]. unfold lowered. rewrite Ec, lookup_insert_eq.
  split; simpl; rewrite ?Eu, ?insert_insert_eq.
  - intros ch cl L' HL'. apply (Hobj ch cl L' HL').
  - intros ch cl L' HL'. apply (Hobj ch cl L' HL').
  - intros ch cl L' x HL'. apply (Hobj ch cl L' HL').
  - intros ch cl L' [Hk HL']%lookup_delete_Some. destruct (v_dom _ _ Hv _ _ _ HL') as [Hc' (u' & Hu' & Hloc)]. split.
    + destruct (decide (channel = ch)) as [->|]; [rewrite lookup_insert_eq; by eexists|by rewrite lookup_insert_ne].
    + destruct (decide (client = cl)) as [->|]; [|by rewrite lookup_insert_ne by done; eexists].
      rewrite lookup_insert_eq. eexists. split; [done|]. simpl. congruence.
  - exact (view_leave_chan s G channel client L c Hv HL Hc).
  - destruct (v_user _ _ Hv client u Hu) as (N1 & Hj & M1).
    intros cl u' [[<- <-]|[Hk Hu']]%lookup_insert_Some; simpl.
    + destruct (unlink_spec (l_mb L) _ N1) as [N1' U1].
      assert (l_mb L ∈ u_channel u) as Hin by (apply M1; eauto). apply unlink_length in Hin.
      split_and!; [done|lia|]. intros x. rewrite U1, M1, (link_delete_user s G channel client L) by (try done; congruence).
      intuition congruence.
    + destruct (v_user _ _ Hv cl u' Hu') as (N1' & Hj' & M1'). split_and!; try done. intros x.
      rewrite (link_delete_user s G channel client L) by (try done; congruence). rewrite <-M1'. intuition congruence.
Qed.

(** *** Names *)

(** The hash table holds exactly the channels, under their names; so does the
    global list, and the counter counts them. *)
Record names_ok (s : cstate) (sp : Hash.spec) : Prop := {
  n_hash : hinv (s_hash s) sp;
  n_objects : sp_channels sp = ch_name <$> s_chans s;
  n_table : ∀ n ch, sp_chans sp !! n = Some ch ↔ ∃ c, s_chans s !! ch = Some c ∧ casefold (ch_name c) = n;
  n_cstr : ∀ ch c, s_chans s !! ch = Some c → cstr (ch_name c);
  n_list : NoDup (channels s) ∧ ∀ ch, ch ∈ channels s ↔ is_Some (s_chans s !! ch);
  n_count : irccounts_channels s = Z.of_nat (length (channels s))
}.

(** Nothing that has to do with names is changed. *)
Lemma names_same s s' sp :
  names_ok s sp → ch_name <$> s_chans s' = ch_name <$> s_chans s → channels s' = channels s →
  s_hash s' = s_hash s → irccounts_channels s' = irccounts_channels s → names_ok s' sp.
Proof.
  intros [H1 H2 H3 H4 [H5 H6] H7] En El Eh Ec.
  assert (∀ ch n, (∃ c, s_chans s' !! ch = Some c ∧ ch_name c = n) ↔ ∃ c, s_chans s !! ch = Some c ∧ ch_name c = n) as Hn.
  { intros ch n. pose proof (f_equal (.!! ch) En) as E. rewrite !lookup_fmap in E.
    destruct (s_chans s' !! ch), (s_chans s !! ch); simplify_eq/=; split; intros (? & ? & ?); simplify_eq/=; eauto. }
  split; rewrite ?Eh, ?El, ?Ec; try done.
  - congruence.
  - intros n ch. rewrite H3. split; intros (c & Hc & <-).
    + destruct (proj2 (Hn ch (ch_name c))) as (c' & Hc' & <-); eauto.
    + destruct (proj1 (Hn ch (ch_name c))) as (c' & Hc' & <-); eauto.
  - intros ch c Hc. destruct (proj1 (Hn ch (ch_name c))) as (c' & Hc' & <-); eauto.
  - split; [done|]. intros ch. rewrite H6. split; intros [c Hc].
    + destruct (proj2 (Hn ch (ch_name c))) as (c' & Hc' & _); eauto.
    + destruct (proj1 (Hn ch (ch_name c))) as (c' & Hc' & _); eauto.
Qed.

Lemma names_with_members (m : gmap nat chan) ch c n a b :
  m !! ch = Some c → ch_name <$> <[ch := with_members c n a b]> m = ch_name <$> m.
Proof. intros Hc. rewrite fmap_insert. apply insert_id. by rewrite lookup_fmap, Hc. Qed.

(** All that holds between calls. *)
Record chan_ok (s : cstate) (G : links) (sp : Hash.spec) : Prop := {
  k_view : view s G;
  k_alloc : alloc_ok s;
  k_names : names_ok s sp
}.

Lemma view_lookup s G ch cl L :
  view s G → G !! (ch, cl) = Some L → ∃ c u, s_chans s !! ch = Some c ∧ s_users s !! cl = Some u.
Proof. intros Hv HL. destruct (v_dom _ _ Hv _ _ _ HL) as [[c Hc] (u & Hu & _)]. eauto. Qed.

Lemma join_ok s G sp channel client modes :
  chan_ok s G sp → is_Some (s_chans s !! channel) → is_Some (s_users s !! client) → G !! (channel, client) = None →
  ∃ s' L, add_user_to_channel per_block per_block_mb channelmodes channel client modes s = Ok s' ∧
    chan_ok s' (<[(channel, client) := L]> G) sp ∧ l_modes L = foldl (addlettertomstring channelmodes) [] modes ∧
    dom (s_chans s') = dom (s_chans s) ∧ dom (s_users s') = dom (s_users s).
Proof using some_per_block.
  intros [Hv Ha Hn] [c Hc] [u Hu] HG.
  destruct (join_state s channel client u c modes Ha Hu Hc) as (m & mb & lm & s1 & J & Ha1 & ->).
  pose proof (view_join _ _ _ _ _ _ _ _ _ _ Hv J Hu Hc HG) as Hv1.
  destruct (add_modes_ok modes s1 _ channel client _ Hv1 Ha1 ltac:(apply lookup_insert_eq))
    as (s' & Hs & Ha' & Hv' & E1 & E2 & E3 & E4 & E5).
  simpl in Hs. rewrite Hs. rewrite insert_insert_eq in Hv'. eexists _, _. split; [done|].
  pose proof (j_rest _ _ _ _ _ _ _ _ _ J) as (R1 & R2 & R3).
  pose proof (j_chans _ _ _ _ _ _ _ _ _ J) as Ec. pose proof (j_users _ _ _ _ _ _ _ _ _ J) as Eu.
  split; [split; [exact Hv'|done|]|split; [done|]].
  - apply (names_same s); [done|rewrite E1, Ec; by apply names_with_members|congruence..].
  - rewrite E1, E2, Ec, Eu, !dom_insert_lookup_L by eauto. done.
Qed.

(** An empty channel is taken out. *)
Definition destroyed (channel : nat) (name : list Z) (s : cstate) : cstate :=
  let h := del_from_channel_hash_table name channel (s_hash s) in
  let h := set_objects (clients h) (delete channel (Hash.channels h)) h in
  CS (s_members s) (s_memberships s) (s_lmembers s) (freemember s) (freemembership s) (s_heap s)
    (delete channel (s_chans s)) (unlink channel (channels s)) (s_users s) h (irccounts_channels s - 1).

Lemma names_destroyed s sp ch c :
  names_ok s sp → s_chans s !! ch = Some c → ∃ sp', names_ok (destroyed ch (ch_name c) s) sp'.
Proof.
  intros [H1 H2 H3 H4 [H5 H6] H7] Hc. destruct sp as [cls chs ns ids chans]. simpl in *.
  assert (chs !! ch = Some (ch_name c)) as Hch by (by rewrite H2, lookup_fmap, Hc).
  assert (chans !! casefold (ch_name c) = Some ch) as Hk by (apply H3; eauto).
  destruct (hash_op_refines _ _ (HDelChan ch) (Spec cls chs ns ids (delete (casefold (ch_name c)) chans)) None H1)
    as (h' & Eh & Hh').
  { simpl. rewrite Hch. simpl. unfold drop_key. by rewrite decide_True. }
  pose proof (hinv_channels _ _ H1) as Echs. simpl in Eh, Echs. rewrite Echs, Hch in Eh. simpl in Eh. injection Eh as <-.
  set (h' := del_from_channel_hash_table (ch_name c) ch (s_hash s)) in *.
  assert (∀ n x, delete (casefold (ch_name c)) chans !! n = Some x ↔
    ∃ c', delete ch (s_chans s) !! x = Some c' ∧ casefold (ch_name c') = n) as Htab.
  { intros n x. rewrite lookup_delete_Some, H3. split.
    - intros [Hne (c' & Hc' & <-)]. exists c'. rewrite lookup_delete_Some. split_and!; try done. intros <-. congruence.
    - intros (c' & [Hne Hc']%lookup_delete_Some & <-). split; [|eauto]. intros E. apply Hne.
      assert (chans !! casefold (ch_name c') = Some x) as E' by (apply H3; eauto). rewrite <-E, Hk in E'. congruence. }
  eexists. unfold destroyed. fold h'. split; simpl.
  - apply (hop_objects h' _ (clients h') (delete ch (Hash.channels h')) Hh').
    + intros k x. by rewrite (hinv_clients _ _ Hh').
    + intros k x. by rewrite (hinv_clients _ _ Hh').
    + simpl. intros k x Hx. rewrite (hinv_channels _ _ Hh'). simpl. apply lookup_delete_ne. intros <-.
      apply Htab in Hx as (c' & Hc' & _). by rewrite lookup_delete_eq in Hc'.
  - rewrite (hinv_channels _ _ Hh'). simpl. by rewrite H2, fmap_delete.
  - simpl. exact Htab.
  - intros x c' [_ Hc']%lookup_delete_Some. eauto.
  - destruct (unlink_spec ch _ H5) as [U1 U2]. split; [done|]. intros x. rewrite U2, H6. split.
    + intros [[c' Hx] Hne]. exists c'. by rewrite lookup_delete_ne by done.
    + intros [c' [Hne Hx]%lookup_delete_Some]. split; [by eexists|congruence].
  - assert (ch ∈ channels s) as Hin by (apply H6; by eexists). apply unlink_length in Hin. lia.
Qed.

Lemma view_destroyed s G ch c :
  view s G → s_chans s !! ch = Some c → ch_members c = [] → view (destroyed ch (ch_name c) s) G.
Proof.
  intros Hv Hc He.
  assert (∀ cl, G !! (ch, cl) = None) as Hno.
  { intros cl. destruct (G !! (ch, cl)) as [L|] eqn:E; [|done]. exfalso.
    destruct (v_chan _ _ Hv ch c Hc) as (_ & _ & _ & M & _). assert (l_m L ∈ ch_members c) as Hin by (apply M; eauto).
    rewrite He in Hin. by apply elem_of_nil in Hin. }
  destruct Hv as [H1 H2 H3 H4 H5 H6]. split; simpl; try done.
  - intros x cl L HL. destruct (H4 _ _ _ HL) as [[c' Hc'] Hu]. split; [|done]. exists c'.
    rewrite lookup_delete_ne; [done|]. intros <-. by rewrite Hno in HL.
  - intros x c' [_ Hc']%lookup_delete_Some. by apply H5.
Qed.

Lemma alloc_destroyed s ch n : alloc_ok s → alloc_ok (destroyed ch n s).
Proof.
  intros [H1 H2 H3 H4 H5 H6]. split; simpl; try done. intros x o [_ Ho]%lookup_delete_Some. eauto.
Qed.

(** The channel goes with its last member, unless a hook keeps it. *)
Lemma sub1_spec destroy ch s c :
  s_chans s !! ch = Some c → ch_users c = Z.of_nat (S (length (ch_members c))) →
  sub1_from_channel destroy ch s =
    Ok (if bool_decide (ch_members c = []) && destroy ch then (destroyed ch (ch_name c) (lowered ch s), 1)
        else (lowered ch s, 0)).
Proof.
  intros Hc Hu. unfold sub1_from_channel, lowered. cbn [get]. rewrite Hc. cbn [rbind].
  destruct (ch_members c) as [|x l] eqn:El; simpl in Hu.
  - rewrite (proj2 (Z.ltb_ge _ _)) by lia. rewrite bool_decide_eq_true_2 by done. simpl.
    replace (ch_users c - 1) with 0 by lia. destruct (destroy ch); simpl; done.
  - rewrite (proj2 (Z.ltb_lt _ _)) by lia. by rewrite bool_decide_eq_false_2.
Qed.

Lemma remove_ok destroy s G sp channel client :
  chan_ok s G sp → is_Some (s_users s !! client) →
  ∃ s' ret sp', remove_user_from_channel destroy client channel s = Ok (s', ret) ∧
    chan_ok s' (delete (channel, client) G) sp' ∧ dom (s_users s') = dom (s_users s) ∧
    (ret = 0 ∧ dom (s_chans s') = dom (s_chans s) ∨
     ret = 1 ∧ destroy channel = true ∧ dom (s_chans s') = dom (s_chans s) ∖ {[ channel ]} ∧
     ∀ cl, delete (channel, client) G !! (channel, cl) = None).
Proof.
  intros [Hv Ha Hn] [u Hu]. unfold remove_user_from_channel. cbn [get]. rewrite Hu. cbn [rbind].
  rewrite (find_membership_spec s G client u channel Hv Hu). cbn [rbind].
  destruct (G !! (channel, client)) as [L|] eqn:HL; simpl.
  2: { exists s, 0, sp. rewrite delete_id by done. split; [done|]. split; [by split|]. auto. }
  destruct (view_lookup _ _ _ _ _ Hv HL) as (c & _ & Hc & _).
  destruct (leave_state destroy s G channel client L u c Hv HL Hu Hc) as (s1 & Hl & ->).
  pose proof (view_leave _ _ _ _ _ _ _ _ Hv HL Hu Hc Hl) as Hv1.
  pose proof (alloc_left _ _ _ _ _ _ _ _ Hv Ha HL ltac:(eauto) Hl) as Ha1.
  pose proof (d_chans _ _ _ _ _ _ _ Hl) as Ec. pose proof (d_users _ _ _ _ _ _ _ Hl) as Eu.
  destruct (d_rest _ _ _ _ _ _ _ Hl) as (R1 & R2 & R3). clear Hl.
  assert (lowered channel s1 = set_chans (<[channel := _]> (s_chans s1)) s1) as Elow
    by (unfold lowered; by rewrite Ec, lookup_insert_eq).
  set (c1 := with_members c _ _ _) in Ec, Elow.
  assert (alloc_ok (lowered channel s1)) as Ha2.
  { rewrite Elow. apply alloc_set_chans; [done|]. rewrite Ec, lookup_insert_eq. eauto. }
  assert (names_ok (lowered channel s1) sp) as Hn2.
  { apply (names_same s); [done|rewrite Elow; simpl|by rewrite Elow..].
    rewrite Ec, insert_insert_eq. unfold c1. by apply (names_with_members (s_chans s) channel c). }
  destruct (v_chan _ _ Hv channel c Hc) as (_ & _ & Hus & M1 & _).
  assert (l_m L ∈ ch_members c) as Hin by (apply M1; eauto). apply unlink_length in Hin.
  rewrite (sub1_spec destroy channel s1 c1); [|by rewrite Ec, lookup_insert_eq|simpl; lia].
  assert (dom (s_users (lowered channel s1)) = dom (s_users s)) as Edu.
  { rewrite Elow. simpl. rewrite Eu, dom_insert_lookup_L; eauto. }
  assert (dom (s_chans (lowered channel s1)) = dom (s_chans s)) as Edc.
  { rewrite Elow. simpl. rewrite Ec, insert_insert_eq, dom_insert_lookup_L; eauto. }
  destruct (bool_decide_reflect (ch_members c1 = [])) as [He|He]; simpl andb; [destruct (destroy channel) eqn:Ed|].
  2,3: exists (lowered channel s1), 0, sp; split_and!; auto; by split.
  assert (s_chans (lowered channel s1) !! channel = Some (with_members c1 (ch_users c1 - 1) (ch_members c1) (ch_local c1))) as Hc1.
  { unfold lowered. rewrite Ec, lookup_insert_eq. simpl. by rewrite lookup_insert_eq. }
  destruct (names_destroyed _ _ _ _ Hn2 Hc1) as [sp' Hn3]. pose proof (view_destroyed _ _ _ _ Hv1 Hc1 He) as Hv2.
  exists (destroyed channel (ch_name c1) (lowered channel s1)), 1, sp'. split; [done|].
  split; [split; [done|by apply alloc_destroyed|done]|]. split; [done|]. right. split_and!; try done.
  - simpl. by rewrite dom_delete_L, Edc.
  - intros cl. destruct (delete (channel, client) G !! (channel, cl)) as [L'|] eqn:E; [|done]. exfalso.
    destruct (v_dom _ _ Hv2 _ _ _ E) as [[c' Hc'] _]. simpl in Hc'. by rewrite lookup_delete_eq in Hc'.
Qed.

(** *** Creating *)

(** The name that a channel gets. *)
Definition clean_name (name : list Z) : list Z := take_while (λ c, negb (bad_name_char c)) (take CHANNELLEN name).

Lemma clean_name_cstr name : cstr name → cstr (clean_name name).
Proof.
  intros H. apply cstr_take with (i := CHANNELLEN) in H. unfold clean_name.
  rewrite <-(take_drop_while (λ c, negb (bad_name_char c)) (take CHANNELLEN name)) in H.
  by apply Forall_app in H as [H _].
Qed.

(** The state with a new channel. *)
Definition created (now : Z) (nm : list Z) (h : hstate) (s : cstate) : cstate :=
  CS (s_members s) (s_memberships s) (s_lmembers s) (freemember s) (freemembership s) (S (s_heap s))
    (<[s_heap s := Chan nm 0 [] [] [] [] [] now]> (s_chans s)) (s_heap s :: channels s)
    (s_users s) h (irccounts_channels s + 1).

Lemma names_created now nm s sp :
  names_ok s sp → cstr nm → s_chans s !! s_heap s = None → sp_chans sp !! casefold nm = None →
  ∃ h sp', (let h := set_objects (clients (s_hash s)) (<[s_heap s := nm]> (Hash.channels (s_hash s))) (s_hash s) in
     add_to_channel_hash_table nm (s_heap s) h) = Ok h ∧ names_ok (created now nm h s) sp'.
Proof.
  intros [H1 H2 H3 H4 [H5 H6] H7] Hnm Hfresh Hno. set (ch := s_heap s) in *. destruct sp as [cls chs ns ids chans].
  simpl in *. assert (chs !! ch = None) as Hfr by (by rewrite H2, lookup_fmap, Hfresh).
  destruct (hash_op_refines _ _ (HNewChannel ch nm) (Spec cls (<[ch := nm]> chs) ns ids chans) None H1) as (h2 & E2 & Hh2).
  { simpl. by rewrite decide_True. }
  simpl in E2. injection E2 as <-.
  destruct (hash_op_refines _ _ (HAddChan ch) (Spec cls (<[ch := nm]> chs) ns ids (<[casefold nm := ch]> chans)) None Hh2)
    as (h3 & E3 & Hh3).
  { simpl. rewrite lookup_insert_eq. simpl. by rewrite decide_True. }
  simpl in E3. rewrite lookup_insert_eq in E3. simpl in E3.
  destruct (add_to_channel_hash_table nm ch _) as [h4| |]; try done. simpl in E3. injection E3 as ->.
  eexists _, _. split; [done|]. split; [exact Hh3|..]; simpl; fold ch.
  - by rewrite H2, fmap_insert.
  - intros n x. rewrite lookup_insert_Some, H3. split.
    + intros [[<- <-]|[Hne (c & Hc & E)]]; [eexists; rewrite lookup_insert_eq; eauto|].
      exists c. rewrite lookup_insert_ne; [done|]. intros <-. congruence.
    + intros (c & [[<- <-]|[Hne Hc]]%lookup_insert_Some & <-); [by left|right]. split; [|eauto].
      intros E. assert (chans !! casefold nm = Some x) by (apply H3; eauto). congruence.
  - intros x c [[<- <-]|[_ Hc]]%lookup_insert_Some; eauto.
  - split; [constructor; [|done]; rewrite H6, Hfresh; by intros [? ?]|]. intros x. rewrite elem_of_cons, H6.
    destruct (decide (x = ch)) as [->|]; [rewrite lookup_insert_eq; split; eauto|rewrite lookup_insert_ne by done].
    split; [by intros [?|?]|auto].
  - lia.
Qed.

Lemma view_created now nm h s G : view s G → s_chans s !! s_heap s = None → view (created now nm h s) G.
Proof.
  intros [H1 H2 H3 H4 H5 H6] Hf. split; simpl; try done.
  - intros x cl L HL. destruct (H4 _ _ _ HL) as [[c Hc] Hu]. split; [|done].
    destruct (decide (s_heap s = x)) as [<-|]; [rewrite lookup_insert_eq|rewrite lookup_insert_ne by done]; eauto.
  - intros x c [[<- <-]|[_ Hc]]%lookup_insert_Some; [|by apply H5]. simpl.
    split_and!; try done; try constructor; intros Hx; try (by apply elem_of_nil in Hx);
      destruct Hx as (cl & L & HL & _); destruct (H4 _ _ _ HL) as [[c Hc] _]; congruence.
Qed.

Lemma alloc_created now nm h s : alloc_ok s → alloc_ok (created now nm h s).
Proof.
  intros [[? H1] [? H2] H3 H4 H5 H6]. split; simpl.
  - split; [done|]. intros x Hx. destruct (H1 x Hx). split; [lia|done].
  - split; [done|]. intros x Hx. destruct (H2 x Hx). split; [lia|done].
  - intros x o Ho. apply H3 in Ho. lia.
  - intros x o Ho. apply H4 in Ho. lia.
  - intros x o Ho. apply H5 in Ho. lia.
  - intros x o [[<- _]|[_ Ho]]%lookup_insert_Some; [lia|]. apply H6 in Ho. lia.
Qed.

Lemma make_channel_ok now name s G sp :
  chan_ok s G sp → cstr name → name ≠ [] →
  ∃ ch s' sp', make_channel now name s = Ok (Some ch, s') ∧ chan_ok s' G sp' ∧ s_users s' = s_users s ∧
    (s' = s ∧ (∃ c, s_chans s !! ch = Some c ∧ casefold (ch_name c) = casefold (clean_name name)) ∨
     s_chans s !! ch = None ∧ (∀ x c, s_chans s !! x = Some c → casefold (ch_name c) ≠ casefold (clean_name name)) ∧
     s_chans s' = <[ch := Chan (clean_name name) 0 [] [] [] [] [] now]> (s_chans s)).
Proof.
  intros Hk Hcs Hne. pose proof Hk as [Hv Ha Hn]. pose proof Hn as [H1 H2 H3 _ _ _].
  unfold make_channel. destruct name as [|x name'] eqn:En; [done|]. rewrite <-En in *. clear En x name'.
  rewrite Strl.strlcpy_fst by (unfold CHANNELLEN; lia). change (CHANNELLEN + 1 - 1)%nat with CHANNELLEN.
  fold (clean_name name). set (nm := clean_name name). pose proof (clean_name_cstr name Hcs) as Hnm. fold nm in Hnm.
  destruct (hash_op_refines _ _ (HFindChannel nm) sp (Some (sp_chans sp !! casefold nm)) H1)
    as (h1 & Ef & _); [destruct sp; simpl; by rewrite decide_True|].
  simpl in Ef. destruct (find_channel nm (s_hash s)) as [r| |]; try done. simpl in Ef. injection Ef as _ ->. cbn [rbind].
  destruct (sp_chans sp !! casefold nm) as [ch|] eqn:Ech.
  { exists ch, s, sp. split; [done|]. split; [done|]. split; [done|]. left. split; [done|].
    apply H3 in Ech as (c & Hc & E). eauto. }
  assert (s_chans s !! s_heap s = None) as Hfresh.
  { destruct (s_chans s !! s_heap s) as [c|] eqn:E; [|done]. apply (a_chans _ Ha) in E. lia. }
  destruct (names_created now nm s sp Hn Hnm Hfresh Ech) as (h & sp' & Eh & Hn'). simpl in Eh. rewrite Eh. cbn [rbind].
  exists (s_heap s), (created now nm h s), sp'. split; [done|].
  split; [split; [by apply view_created|by apply alloc_created|done]|]. split; [done|]. right.
  split; [done|]. split; [|done]. intros x c Hx E. assert (sp_chans sp !! casefold nm = Some x) by (apply H3; eauto). congruence.
Qed.

(** *** Runs *)

Definition initial (random : list Z) : cstate :=
  CS ∅ ∅ ∅ [] [] 0 ∅ [] ∅ (init_hash random empty_state) 0.

Lemma initial_ok random : chan_ok (initial random) ∅ spec0.
Proof.
  split.
  - split; simpl; intros; by rewrite ?lookup_empty in *.
  - split; simpl; try (split; [constructor|by intros x ?%elem_of_nil]); intros x o; by rewrite lookup_empty.
  - split; simpl; [apply hinv_init|by rewrite fmap_empty|..|done].
    + intros n ch. rewrite lookup_empty. split; [done|]. intros (c & Hc & _). by rewrite lookup_empty in Hc.
    + intros ch c. by rewrite lookup_empty.
    + split; [constructor|]. intros ch. rewrite elem_of_nil, lookup_empty. split; [done|by intros [? ?]].
Qed.

(** The states that the calls lead to, with the relation they should represent:
    for each channel and client, the modes of the member.  A user is added to a
    channel that exists and that it is not in. *)
Inductive reach : cstate → gmap (nat * nat) (list Z) → Prop :=
| reach_start random : reach (initial random) ∅
| reach_user s M cl b : reach s M → s_users s !! cl = None → reach (set_users (<[cl := User [] 0 b]> (s_users s)) s) M
| reach_make s M now name r s' :
    reach s M → cstr name → make_channel now name s = Ok (r, s') → reach s' M
| reach_join s M ch cl modes s' :
    reach s M → is_Some (s_chans s !! ch) → is_Some (s_users s !! cl) → M !! (ch, cl) = None →
    add_user_to_channel per_block per_block_mb channelmodes ch cl modes s = Ok s' →
    reach s' (<[(ch, cl) := foldl (addlettertomstring channelmodes) [] modes]> M)
| reach_part s M destroy ch cl s' ret :
    reach s M → is_Some (s_users s !! cl) → remove_user_from_channel destroy cl ch s = Ok (s', ret) →
    reach s' (delete (ch, cl) M)
| reach_add s M ch cl letter s' :
    reach s M → is_Some (s_users s !! cl) → add_member_mode channelmodes cl ch letter s = Ok s' →
    reach s' (alter (λ m, addlettertomstring channelmodes m letter) (ch, cl) M)
| reach_del s M ch cl letter s' :
    reach s M → is_Some (s_users s !! cl) → del_member_mode cl ch letter s = Ok s' →
    reach s' (alter (λ m, delletterfromstring m letter) (ch, cl) M).

Lemma view_new_user s G cl b :
  view s G → s_users s !! cl = None → view (set_users (<[cl := User [] 0 b]> (s_users s)) s) G.
Proof.
  intros [H1 H2 H3 H4 H5 H6] Hn. split; simpl; try done.
  - intros x y L HL. destruct (H4 _ _ _ HL) as [Hc (u & Hu & Hl)]. split; [done|]. exists u.
    rewrite lookup_insert_ne; [done|]. intros ->. congruence.
  - intros x u [[<- <-]|[_ Hu]]%lookup_insert_Some; [|by apply H6]. simpl. split_and!; [constructor|done|].
    intros y. rewrite elem_of_nil. split; [done|]. intros (ch & L & HL & _).
    destruct (H4 _ _ _ HL) as [_ (u & Hu & _)]. congruence.
Qed.

(** The two operations on modes. *)
Lemma member_mode_ok f s G sp cl ch letter :
  chan_ok s G sp → is_Some (s_users s !! cl) →
  ∃ s' G', (let! r := find_mbs s cl ch in
            match r with None => Ok s | Some (mb, mbs) => change_modes f mb mbs letter s end) = Ok s' ∧
    chan_ok s' G' sp ∧ l_modes <$> G' = alter (λ m, f m letter) (ch, cl) (l_modes <$> G).
Proof.
  intros Hk [u Hu]. pose proof Hk as [Hv Ha Hn]. unfold find_mbs. cbn [get]. rewrite Hu. cbn [rbind].
  rewrite (find_membership_spec s G cl u ch Hv Hu). cbn [rbind].
  destruct (G !! (ch, cl)) as [L|] eqn:HL; simpl.
  - rewrite (v_membership _ _ Hv _ _ _ HL). cbn [rbind mb_related].
    destruct (change_modes_ok f s G ch cl L letter Hv Ha HL) as (s' & -> & Ha' & Hv' & E1 & E2 & E3 & E4 & E5).
    eexists _, _. split; [done|]. split.
    + split; [exact Hv'|done|]. by apply (names_same s); rewrite ?E1.
    + apply map_eq. intros k. rewrite fmap_insert. destruct (decide (k = (ch, cl))) as [->|].
      * by rewrite lookup_insert_eq, lookup_alter_eq, lookup_fmap, HL.
      * by rewrite lookup_insert_ne, lookup_alter_ne by done.
  - exists s, G. split; [done|]. split; [done|]. symmetry. apply map_eq. intros k.
    destruct (decide (k = (ch, cl))) as [->|]; [by rewrite lookup_alter_eq, lookup_fmap, HL|by rewrite lookup_alter_ne].
Qed.

Lemma reach_ok s M : reach s M → ∃ G sp, chan_ok s G sp ∧ M = l_modes <$> G.
Proof using some_per_block.
  induction 1 as [random|s M cl b _ (G & sp & Hk & ->) Hn|s M now name r s' _ (G & sp & Hk & ->) Hcs Hm
    |s M ch cl modes s' _ (G & sp & Hk & ->) Hc Hu Hno Hj|s M destroy ch cl s' ret _ (G & sp & Hk & ->) Hu Hp
    |s M ch cl letter s' _ (G & sp & Hk & ->) Hu Hm|s M ch cl letter s' _ (G & sp & Hk & ->) Hu Hm].
  - exists ∅, spec0. split; [apply initial_ok|]. by rewrite fmap_empty.
  - exists G, sp. split; [|done]. destruct Hk as [Hv Ha Hn']. split; [by apply view_new_user|by apply alloc_set_users|].
    by apply (names_same s).
  - destruct (decide (name = [])) as [->|Hne].
    { simpl in Hm. injection Hm as <- <-. eauto. }
    destruct (make_channel_ok now name s G sp Hk Hcs Hne) as (x & s1 & sp' & E & Hk' & _).
    rewrite E in Hm. injection Hm as <- <-. eauto.
  - rewrite lookup_fmap, fmap_None in Hno.
    destruct (join_ok s G sp ch cl modes Hk Hc Hu Hno) as (s1 & L & E & Hk' & Hl & _).
    rewrite E in Hj. injection Hj as <-. eexists _, sp. split; [exact Hk'|]. by rewrite fmap_insert, Hl.
  - destruct (remove_ok destroy s G sp ch cl Hk Hu) as (s1 & r & sp' & E & Hk' & _).
    rewrite E in Hp. injection Hp as <- <-. eexists _, sp'. split; [exact Hk'|]. by rewrite fmap_delete.
  - destruct (member_mode_ok (addlettertomstring channelmodes) s G sp cl ch letter Hk Hu) as (s1 & G' & E & Hk' & EG).
    unfold add_member_mode, add_member_mode_fast in Hm. rewrite E in Hm. injection Hm as <-. eexists _, sp. eauto.
  - destruct (member_mode_ok delletterfromstring s G sp cl ch letter Hk Hu) as (s1 & G' & E & Hk' & EG).
    unfold del_member_mode, del_member_mode_fast in Hm. rewrite E in Hm. injection Hm as <-. eexists _, sp. eauto.
Qed.

(** The counters count the relation. *)
Lemma count_links (G : links) (Q : nat * nat * list Z → Prop) `{∀ kv, Decision (Q kv)} (obj : link → nat) (l : list nat) :
  NoDup l → (∀ x, x ∈ l ↔ ∃ k L, G !! k = Some L ∧ Q (k, l_modes L) ∧ obj L = x) →
  (∀ k k' L L', G !! k = Some L → G !! k' = Some L' → obj L = obj L' → k = k') →
  length l = size (filter Q (l_modes <$> G)).
Proof.
  intros Hd Hin Hinj. rewrite map_filter_fmap, map_size_fmap.
  match goal with |- _ = size ?f => set (F := f) end. rewrite <-length_map_to_list.
  rewrite <-(length_fmap (λ kv, obj kv.2) (map_to_list F)). apply Permutation_length, NoDup_Permutation; [done| |].
  - apply NoDup_fmap_2_strong; [|apply NoDup_map_to_list].
    intros [k L] [k' L'] H1%elem_of_map_to_list H2%elem_of_map_to_list E. simpl in E.
    apply map_lookup_filter_Some in H1 as [H1 _], H2 as [H2 _].
    assert (k = k') as <- by eauto. congruence.
  - intros x. rewrite Hin, list_elem_of_fmap. split.
    + intros (k & L & HL & HP & <-). exists (k, L). split; [done|]. apply elem_of_map_to_list, map_lookup_filter_Some. done.
    + intros ([k L] & -> & [HL HP]%elem_of_map_to_list%map_lookup_filter_Some). eauto.
Qed.

(** What the lists and counters say of a channel and of a user. *)
Lemma view_counts s G ch c :
  view s G → s_chans s !! ch = Some c →
  NoDup (ch_members c) ∧ ch_users c = Z.of_nat (size (filter (λ kv, kv.1.1 = ch) (l_modes <$> G))) ∧
  ∀ cl, find_member_link s (ch_members c) (Some cl) = Ok (l_m <$> G !! (ch, cl)).
Proof.
  intros Hv Hc. destruct (v_chan _ _ Hv ch c Hc) as (N1 & _ & Hus & M1 & _). split; [done|].
  split; [|intros cl; by apply find_member_spec]. rewrite Hus. f_equal.
  apply count_links with (obj := l_m); [done| |].
  - intros x. rewrite M1. split; [intros (cl & L & HL & E); by exists (ch, cl), L|].
    intros ([ch' cl] & L & HL & E & E'). simpl in E. subst ch'. eauto.
  - intros [a b] [a' b'] L L' HL HL' E. by apply (view_inj _ _ _ _ _ _ _ _ Hv HL HL'); left.
Qed.

Lemma view_user_counts s G cl u :
  view s G → s_users s !! cl = Some u →
  NoDup (u_channel u) ∧ u_joined u = Z.of_nat (size (filter (λ kv, kv.1.2 = cl) (l_modes <$> G))) ∧
  ∀ ch, find_membership_link s (u_channel u) (Some ch) = Ok (l_mb <$> G !! (ch, cl)).
Proof.
  intros Hv Hu. destruct (v_user _ _ Hv cl u Hu) as (N1 & Hj & M1). split; [done|].
  split; [|intros ch; by apply find_membership_spec]. rewrite Hj. f_equal.
  apply count_links with (obj := l_mb); [done| |].
  - intros x. rewrite M1. split; [intros (ch & L & HL & E); by exists (ch, cl), L|].
    intros ([ch cl'] & L & HL & E & E'). simpl in E. subst cl'. eauto.
  - intros [a b] [a' b'] L L' HL HL' E. by apply (view_inj _ _ _ _ _ _ _ _ Hv HL HL'); auto.
Qed.

Lemma access_spec s G ch cl modes :
  view s G → is_Some (s_users s !! cl) →
  check_channel_access s cl ch modes =
    Ok match l_modes <$> G !! (ch, cl) with Some m => check_channel_access_string m modes | None => false end ∧
  IsMember s (Some cl) ch = Ok (bool_decide (is_Some (G !! (ch, cl)))).
Proof.
  intros Hv [u Hu]. unfold check_channel_access, IsMember. rewrite Hu, (find_membership_spec s G cl u ch Hv Hu). cbn [rbind].
  destruct (G !! (ch, cl)) as [L|] eqn:HL; simpl; [|done].
  rewrite (v_membership _ _ Hv _ _ _ HL). cbn [rbind]. split; [done|]. done.
Qed.
End Theory.

(** C3.  Membership.  In every state that joining, leaving, changing modes and
    creating channels and users lead to, the lists of the channels and the lists
    of the users represent one relation [M] between channels and clients.  The
    number of users of a channel and the number of channels of a user are the
    sizes of that relation there; nobody is in a list twice; looking in either
    list, and the test of access, agree with the relation; and every such call is
    defined and returns: no free or freed object is ever reached. *)
Theorem membership_consistent per_block per_block_mb channelmodes s M :
  (0 < per_block)%nat ∧ (0 < per_block_mb)%nat → reach per_block per_block_mb channelmodes s M →
  (∀ ch c, s_chans s !! ch = Some c →
     NoDup (ch_members c) ∧ ch_users c = Z.of_nat (size (filter (λ kv, kv.1.1 = ch) M)) ∧
     ∀ cl, ∃ r, find_member_link s (ch_members c) (Some cl) = Ok r ∧ (is_Some r ↔ is_Some (M !! (ch, cl)))) ∧
  (∀ cl u, s_users s !! cl = Some u →
     NoDup (u_channel u) ∧ u_joined u = Z.of_nat (size (filter (λ kv, kv.1.2 = cl) M)) ∧
     ∀ ch, IsMember s (Some cl) ch = Ok (bool_decide (is_Some (M !! (ch, cl)))) ∧
       (∀ modes, check_channel_access s cl ch modes =
          Ok match M !! (ch, cl) with Some m => check_channel_access_string m modes | None => false end) ∧
       (is_Some (s_chans s !! ch) → M !! (ch, cl) = None → ∀ modes, ∃ s',
          add_user_to_channel per_block per_block_mb channelmodes ch cl modes s = Ok s') ∧
       (∀ destroy, ∃ r, remove_user_from_channel destroy cl ch s = Ok r) ∧
       ∀ letter, (∃ s', add_member_mode channelmodes cl ch letter s = Ok s') ∧
                 ∃ s', del_member_mode cl ch letter s = Ok s').
Proof.
  intros Hp Hr. destruct (reach_ok _ _ _ Hp s M Hr) as (G & sp & Hk & ->). pose proof Hk as [Hv _ _]. split.
  - intros ch c Hc. destruct (view_counts s G ch c Hv Hc) as (H1 & H2 & H3). split; [done|]. split; [done|].
    intros cl. eexists. split; [apply H3|]. rewrite lookup_fmap. by rewrite !fmap_is_Some.
  - intros cl u Hu. destruct (view_user_counts s G cl u Hv Hu) as (H1 & H2 & _). split; [done|]. split; [done|].
    intros ch. assert (is_Some (s_users s !! cl)) as Hi by eauto. split_and!.
    + destruct (access_spec s G ch cl [] Hv Hi) as [_ ->]. rewrite lookup_fmap. f_equal. apply bool_decide_ext.
      by rewrite fmap_is_Some.
    + intros modes. rewrite lookup_fmap. by destruct (access_spec s G ch cl modes Hv Hi) as [-> _].
    + intros Hc Hno modes. rewrite lookup_fmap, fmap_None in Hno.
      destruct (join_ok _ _ channelmodes Hp s G sp ch cl modes Hk Hc Hi Hno) as (s' & _ & -> & _). eauto.
    + intros destroy. destruct (remove_ok _ _ Hp destroy s G sp ch cl Hk Hi) as (s' & r & _ & -> & _). eauto.
    + intros letter. split.
      * destruct (member_mode_ok (addlettertomstring channelmodes) s G sp cl ch letter Hk Hi) as (s' & G' & E & _). eauto.
      * destruct (member_mode_ok delletterfromstring s G sp cl ch letter Hk Hi) as (s' & G' & E & _). eauto.
Qed.

(** A user joins a new channel as operator. *)
Definition demo_chan : res cstate :=
  let s := set_users (<[7%nat := User [] 0 true]> ∅) (initial (repeat 1 48)) in
  let! (r, s) := make_channel 5 (bs "#test") s in
  match r with None => UB | Some ch => add_user_to_channel 8 9 default_modes ch 7 (bs "ov") s end.

Lemma membership_consistent_witness :
  ∃ s c, demo_chan = Ok s ∧ s_chans s !! 0%nat = Some c ∧ ch_users c = 1 ∧
    check_channel_access s 7 0 (bs "o") = Ok true.
Proof.
  assert (∃ s1, make_channel 5 (bs "#test") (set_users (<[7%nat := User [] 0 true]> ∅) (initial (repeat 1 48))) = Ok (Some 0%nat, s1) ∧
    s_chans s1 !! 0%nat = Some (Chan (bs "#test") 0 [] [] [] [] [] 5) ∧ s_users s1 !! 7%nat = Some (User [] 0 true))
    as (s1 & E1 & Hc & Hu).
  { eexists. split; [vm_compute; reflexivity|split; reflexivity]. }
  assert (reach 8 9 default_modes s1 ∅) as R1.
  { refine (reach_make _ _ _ _ _ _ _ _ _ _ _ E1); [|by apply (bool_decide_unpack _)].
    apply (reach_user _ _ _ (initial (repeat 1 48))); [apply reach_start|reflexivity]. }
  destruct (membership_consistent 8 9 default_modes s1 ∅ ltac:(lia) R1) as [_ H1].
  destruct (H1 7%nat _ Hu) as (_ & _ & H2). destruct (H2 0%nat) as (_ & _ & H3 & _).
  destruct (H3 ltac:(by eexists) ltac:(apply lookup_empty) (bs "ov")) as [s E2].
  assert (reach 8 9 default_modes s (<[(0, 7)%nat := bs "ov"]> ∅)) as R2.
  { refine (reach_join _ _ _ s1 ∅ 0 7 (bs "ov") s R1 _ _ _ E2); [by eexists|by eexists|apply lookup_empty]. }
  assert (demo_chan = Ok s) as Ed by (unfold demo_chan; rewrite E1; exact E2).
  exists s. revert Ed. vm_compute in E1. injection E1 as <-. vm_compute in E2. injection E2 as <-.
  intros Ed. eexists. split; [exact Ed|]. split; [reflexivity|]. split; [reflexivity|]. vm_compute. reflexivity.
Defined.
