(* ===== verification/Bans.v ===== *)
(** * Lists of bans and the masks in them (src/channel.c, src/misc.c)

    The lists of bans, exceptions and invite exceptions of a channel; the
    conversion of what a user types to a mask nick!user@host; and the test of
    channel names. *)

From stdpp Require Import base tactics list numbers strings gmap.
From Stdlib Require Import ZArith Lia.
From S2P Require Import Prelude Chars Support Utf8 Hash MemberModes Channel.

Local Open Scope Z_scope.

Definition USERLEN : nat := 10.
Definition MAXBANLEN : nat := 200.

(** ** The lists *)

Definition identical_ban (one two : list Z) : res bool := let! d := mycmp one two in Ok (negb d).

Fixpoint ban_exists (lst : list ban) (str : list Z) : res bool :=
  match lst with
  | [] => Ok false
  | b :: r => let! d := mycmp (b_str b) str in if negb d then Ok true else ban_exists r str
  end.

(** strncmp(s, "~time:", 6) *)
Definition is_time_ban (s : list Z) : bool := bool_decide (take 6 s = bs "~time:").

Fixpoint ban_exists_ignore_time (lst : list ban) (str : list Z) : res bool :=
  match lst with
  | [] => Ok false
  | b :: r =>
      let! hit :=
        if is_time_ban (b_str b) then
          match strchr_off (drop 6 (b_str b)) COLON with
          | Some i => let! d := mycmp (drop (S i) (drop 6 (b_str b))) str in Ok (negb d)
          | None => Ok false
          end
        else let! d := mycmp (b_str b) str in Ok (negb d) in
      if hit : bool then Ok true else ban_exists_ignore_time r str
  end.

(** The search of [add_listmode_ex]: the position of an identical ban, and
    whether the limit was reached on the way. *)
Fixpoint find_ban (counts : bool) (MAXBANS cnt : Z) (do_not_add : bool) (lst : list ban) (banid : list Z)
  : res (option nat * bool) :=
  match lst with
  | [] => Ok (None, do_not_add)
  | b :: r =>
      let cnt := if counts then cnt + 1 else cnt in
      let do_not_add := do_not_add || (counts && (MAXBANS <=? cnt)) in
      let! same := identical_ban (b_str b) banid in
      if same : bool then Ok (Some 0%nat, do_not_add)
      else let! (i, d) := find_ban counts MAXBANS cnt do_not_add r banid in Ok (S <$> i, d)
  end.

(** [add_listmode_ex]: [myuser] and [me] say who sets the ban.  The result is
    the return value, the list, and how often ERR_BANLISTFULL was sent. *)
Definition add_listmode_ex (MAXBANS : Z) (myuser me : bool) (lst : list ban) (banid setby : list Z) (seton : Z)
  : res (Z * list ban * nat) :=
  let empty_full := bool_decide (lst = []) && (MAXBANS <? 1) in
  let sent := if empty_full && myuser then 1%nat else 0%nat in
  let! (found, do_not_add) := find_ban (myuser || me) MAXBANS 0 empty_full lst banid in
  let entry := Ban (default [] (Strl.strldup (Some banid) (MAXBANLEN + 1)))
                   (default [] (Strl.strldup (Some setby) (NICKLEN + USERLEN + HOSTLEN + 4))) seton in
  match found with
  | None =>
      if do_not_add then Ok (-1, lst, (sent + (if myuser then 1 else 0))%nat)
      else Ok (1, entry :: lst, sent)
  | Some i =>
      match lst !! i with
      | None => UB
      | Some b =>
          if (0 <? b_when b) && (b_when b <=? seton) then Ok (-1, lst, sent)
          else Ok (0, <[i := entry]> lst, sent)
      end
  end.

Fixpoint del_listmode (lst : list ban) (banid : list Z) : res (Z * list ban) :=
  match lst with
  | [] => Ok (-1, [])
  | b :: r =>
      let! same := identical_ban banid (b_str b) in
      if same : bool then Ok (0, r) else let! (n, r) := del_listmode r banid in Ok (n, b :: r)
  end.

(** [add_listmode]: [nuh] is the nick!user@host of a user, if bans are
    marked with it. *)
Definition add_listmode (MAXBANS : Z) (myuser me isuser setter_nuh : bool) (name nuh : list Z)
    (lst : list ban) (banid : list Z) (now : Z) : res (Z * list ban * nat) :=
  add_listmode_ex MAXBANS myuser me lst banid (if isuser && setter_nuh then nuh else name) now.

(** ** Masks *)

(** [check_string]: up to the white space, or so it says. *)
Definition check_string (s : option (list Z)) : list Z :=
  match s with
  | None | Some [] => [STAR]
  | Some str =>
      let n := length (take_while (λ c, negb (isspace c)) str) in
      let str := if (n <? length str)%nat then (Strl.strlncpy [] (drop n str) 512 n).1 else str in
      match str with [] => [STAR] | _ => str end
  end.

Definition make_nick_user_host_r (namebuflen : nat) (nick name host : option (list Z)) : list Z :=
  let namebuf := (Strl.strlncpy [] (check_string nick) namebuflen (NICKLEN + 1)).1 in
  let namebuf := (Strl.strlcat namebuf [BANG] namebuflen).1 in
  let namebuf := (Strl.strlncat namebuf (check_string name) namebuflen (USERLEN + 1)).1 in
  let namebuf := (Strl.strlcat namebuf [AT] namebuflen).1 in
  (Strl.strlncat namebuf (check_string host) namebuflen (HOSTLEN + 1)).1.
Definition make_nick_user_host (nick name host : option (list Z)) : list Z :=
  make_nick_user_host_r (NICKLEN + USERLEN + HOSTLEN + 24) nick name host.

(** strchr() and strrchr() with the character overwritten by a NUL: the parts
    before and after it. *)
Definition split_first (c : Z) (s : list Z) : option (list Z * list Z) :=
  match strchr_off s c with None => None | Some i => Some (take i s, drop (S i) s) end.
Definition split_last (c : Z) (s : list Z) : option (list Z * list Z) :=
  match split_first c (reverse s) with None => None | Some (a, b) => Some (reverse b, reverse a) end.

Definition trim_str (str : option (list Z)) (len : nat) : option (list Z) :=
  match str with
  | None => None
  | Some s => if (len <? length s)%nat then Some (STAR :: drop (S (length s - len)) s) else Some s
  end.

Definition pretty_mask (mask_in : list Z) : list Z :=
  let mask := (Strl.strlcpy [] mask_in 512).1 in
  let '(cp, user) := match split_first BANG mask with Some (a, b) => (a, Some b) | None => (mask, None) end in
  match split_last AT (default cp user) with
  | Some (a, host) =>
      match user with
      | None => make_nick_user_host None (Some a) (Some host)
      | Some _ => make_nick_user_host (Some cp) (Some a) (Some host)
      end
  | None =>
      if bool_decide (user = None) && strchr cp DOT then make_nick_user_host None None (Some cp)
      else make_nick_user_host (Some cp) user None
  end.

Definition convert_regular_ban (mask : list Z) (buflen : nat) : option (list Z) :=
  match mask with
  | [] => None
  | _ =>
      if (deref mask =? 126) && negb (strchr mask AT) then None
      else
        let '(nick, user) := match split_first BANG mask with Some (a, b) => (a, Some b) | None => (mask, None) end in
        Some match split_last AT (default nick user) with
        | Some (a, host) =>
            match user with
            | None => make_nick_user_host_r buflen None (trim_str (Some a) USERLEN) (trim_str (Some host) HOSTLEN)
            | Some _ => make_nick_user_host_r buflen (trim_str (Some nick) NICKLEN) (trim_str (Some a) USERLEN)
                          (trim_str (Some host) HOSTLEN)
            end
        | None =>
            if bool_decide (user = None) && (strchr nick DOT || strchr nick COLON)
            then make_nick_user_host_r buflen None None (trim_str (Some nick) HOSTLEN)
            else make_nick_user_host_r buflen (trim_str (Some nick) NICKLEN) (trim_str user USERLEN) None
        end
  end.

(** ** Names *)

Inductive allowed_channelchars := ALLOWED_CHANNELCHARS_ANY | ALLOWED_CHANNELCHARS_ASCII | ALLOWED_CHANNELCHARS_UTF8.

(** [chantypes] is the value of CHANTYPES, if there is one. *)
Definition valid_channelname (chantypes : option (list Z)) (allowed : allowed_channelchars) (cname : list Z) : bool :=
  if negb (strchr (default [HASH] chantypes) (deref cname)) then false
  else if (CHANNELLEN <? length cname)%nat then false
  else match allowed with
  | ALLOWED_CHANNELCHARS_ANY => forallb (λ c, negb (bad_name_char c)) cname
  | ALLOWED_CHANNELCHARS_ASCII => forallb (λ c, negb (bad_name_char c || (127 <? c))) cname
  | ALLOWED_CHANNELCHARS_UTF8 =>
      forallb (λ c, negb (bad_name_char c)) cname &&
      match unrl_utf8_validate cname with Ok (v, _) => v | _ => false end
  end.

(** ** Theory: the lists *)

Definition ban_id (b : ban) : list Z := casefold (b_str b).
Definition id_ok (banid : list Z) : Prop := cstr banid ∧ banid ≠ [] ∧ (length banid ≤ MAXBANLEN)%nat.

(** Well-formed lists: masks of limited size, no two of them identical. *)
Record bans_ok (lst : list ban) : Prop := {
  bo_ids : Forall (λ b, id_ok (b_str b)) lst;
  bo_unique : NoDup (ban_id <$> lst)
}.

Lemma identical_spec a b : id_ok a → id_ok b → identical_ban a b = Ok (bool_decide (casefold a = casefold b)).
Proof.
  intros (Ha & Hna & _) (Hb & _). unfold identical_ban. rewrite mycmp_spec by auto. cbn [rbind].
  f_equal. repeat case_bool_decide; done.
Qed.

(** The position of a mask. *)
Definition pos_of (k : list Z) (lst : list ban) : option nat := fst <$> list_find (λ b, ban_id b = k) lst.

Lemma pos_of_cons k b r :
  pos_of k (b :: r) = if decide (ban_id b = k) then Some 0%nat else S <$> pos_of k r.
Proof.
  unfold pos_of. simpl. case_decide; [done|]. by destruct (list_find _ r) as [[i x]|].
Qed.

Lemma pos_of_Some k lst i : pos_of k lst = Some i → ∃ b, lst !! i = Some b ∧ ban_id b = k.
Proof.
  unfold pos_of. intros ([j b] & H & ->)%fmap_Some. apply list_find_Some in H as (Hi & Hb & _). eauto.
Qed.
Lemma pos_of_None k lst : pos_of k lst = None ↔ k ∉ ban_id <$> lst.
Proof.
  unfold pos_of. rewrite fmap_None, list_find_None, Forall_forall, list_elem_of_fmap. split.
  - intros H (b & -> & Hb). by apply (H b).
  - intros H b Hb E. apply H. eauto.
Qed.

Lemma find_ban_spec counts MAXBANS cnt d lst banid :
  Forall (λ b, id_ok (b_str b)) lst → id_ok banid →
  ∃ d', find_ban counts MAXBANS cnt d lst banid = Ok (pos_of (casefold banid) lst, d') ∧
    (pos_of (casefold banid) lst = None →
       d' = d || (counts && match lst with [] => false | _ => true end && (MAXBANS <=? cnt + Z.of_nat (length lst)))).
Proof.
  intros Hl Hb. revert cnt d. induction Hl as [|b lst Hx Hl IH]; intros cnt d; simpl.
  - exists d. split; [done|]. intros _. by rewrite !andb_false_r, orb_false_r.
  - rewrite (identical_spec _ _ Hx Hb). cbn [rbind]. rewrite pos_of_cons. fold (ban_id b).
    destruct (decide (ban_id b = casefold banid)) as [E|E].
    + rewrite bool_decide_eq_true_2 by done. eexists. split; [done|]. done.
    + rewrite bool_decide_eq_false_2 by done.
      destruct (IH (if counts then cnt + 1 else cnt) (d || counts && (MAXBANS <=? (if counts then cnt + 1 else cnt))))
        as (d' & -> & Hd'). cbn [rbind]. exists d'. split; [done|].
      intros Hn. destruct (pos_of (casefold banid) lst); [done|]. rewrite Hd' by done.
      destruct counts; [|by rewrite orb_false_r].
      destruct lst as [|b' lst]; simpl length.
      * simpl. by rewrite orb_false_r.
      * simpl andb. destruct d; [done|]. simpl orb.
        destruct (Z.leb_spec MAXBANS (cnt + 1)), (Z.leb_spec MAXBANS (cnt + 1 + Z.of_nat (S (length lst)))),
          (Z.leb_spec MAXBANS (cnt + Z.of_nat (S (S (length lst))))); simpl; (done || lia).
Qed.

(** The list is full for a new mask. *)
Definition list_full (MAXBANS : Z) (counts : bool) (lst : list ban) : bool :=
  if decide (lst = []) then MAXBANS <? 1 else counts && (MAXBANS <=? Z.of_nat (length lst)).

Definition new_ban (banid setby : list Z) (seton : Z) : ban :=
  Ban banid (take (NICKLEN + USERLEN + HOSTLEN + 3) setby) seton.

Lemma strldup_take s n : (0 < n)%nat → default [] (Strl.strldup (Some s) n) = take (n - 1) s.
Proof.
  intros Hn. unfold Strl.strldup. destruct (Nat.eqb_spec n 0); [lia|]. simpl.
  destruct (Nat.ltb_spec (n - 1) (length s)); [done|]. by rewrite !take_ge by lia.
Qed.

Lemma add_listmode_spec MAXBANS myuser me lst banid setby seton :
  bans_ok lst → id_ok banid →
  ∃ n, add_listmode_ex MAXBANS myuser me lst banid setby seton = Ok
    (match pos_of (casefold banid) lst with
     | None => if list_full MAXBANS (myuser || me) lst then (-1, lst) else (1, new_ban banid setby seton :: lst)
     | Some i => match lst !! i with
                 | Some b => if (0 <? b_when b) && (b_when b <=? seton) then (-1, lst)
                             else (0, <[i := new_ban banid setby seton]> lst)
                 | None => (-1, lst)
                 end
     end, n).
Proof.
  intros [Hi _] Hb. pose proof Hb as (_ & _ & Hlen). unfold add_listmode_ex.
  destruct (find_ban_spec (myuser || me) MAXBANS 0 (bool_decide (lst = []) && (MAXBANS <? 1)) lst banid Hi Hb)
    as (d & -> & Hd). cbn [rbind].
  rewrite !strldup_take by (unfold MAXBANLEN, NICKLEN; lia).
  replace (MAXBANLEN + 1 - 1)%nat with MAXBANLEN by lia. rewrite (take_ge banid) by done.
  replace (NICKLEN + USERLEN + HOSTLEN + 4 - 1)%nat with (NICKLEN + USERLEN + HOSTLEN + 3)%nat by lia.
  fold (new_ban banid setby seton). destruct (pos_of (casefold banid) lst) as [i|] eqn:Ep.
  - destruct (pos_of_Some _ _ _ Ep) as (b & Hbi & _). rewrite Hbi.
    destruct ((0 <? b_when b) && (b_when b <=? seton)); by eexists.
  - assert (d = list_full MAXBANS (myuser || me) lst) as ->.
    { rewrite Hd by done. unfold list_full. destruct (decide (lst = [])) as [->|Hne].
      - simpl. by rewrite andb_false_r, orb_false_r.
      - rewrite bool_decide_eq_false_2 by done. destruct lst; [done|]. simpl. by rewrite andb_true_r. }
    destruct (list_full MAXBANS (myuser || me) lst); by eexists.
Qed.

Lemma del_listmode_spec lst banid :
  Forall (λ b, id_ok (b_str b)) lst → id_ok banid →
  del_listmode lst banid = Ok match pos_of (casefold banid) lst with
                              | None => (-1, lst) | Some i => (0, delete i lst) end.
Proof.
  intros Hl Hb. induction Hl as [|b lst Hx Hl IH]; [done|]. simpl. rewrite (identical_spec _ _ Hb Hx). cbn [rbind].
  rewrite pos_of_cons, IH. unfold ban_id. destruct (decide (casefold (b_str b) = casefold banid)) as [E|E].
  - by rewrite bool_decide_eq_true_2.
  - rewrite bool_decide_eq_false_2 by done. cbn [rbind]. by destruct (pos_of (casefold banid) lst).
Qed.

Lemma ban_exists_spec lst banid :
  Forall (λ b, id_ok (b_str b)) lst → id_ok banid →
  ban_exists lst banid = Ok (bool_decide (casefold banid ∈ ban_id <$> lst)).
Proof.
  intros Hl Hb. induction Hl as [|b lst Hx Hl IH]; [by rewrite bool_decide_eq_false_2 by apply not_elem_of_nil|].
  cbn [ban_exists fmap list_fmap].
  destruct Hx as (Hc & Hne & _), (Hb) as (Hcb & _). rewrite mycmp_spec by auto. cbn [rbind].
  destruct (decide (ban_id b = casefold banid)) as [E|E].
  - rewrite (bool_decide_eq_false_2 (casefold (b_str b) ≠ _)) by (unfold ban_id in E; tauto). simpl.
    by rewrite bool_decide_eq_true_2 by (rewrite E; left).
  - rewrite (bool_decide_eq_true_2 (casefold (b_str b) ≠ _)) by done. simpl. rewrite IH. f_equal.
    apply bool_decide_ext. rewrite elem_of_cons. intuition congruence.
Qed.

Lemma ids_after_insert (lst : list ban) i b e :
  lst !! i = Some b → ban_id e = ban_id b → ban_id <$> <[i := e]> lst = ban_id <$> lst.
Proof.
  intros Hb He. rewrite list_fmap_insert. apply list_insert_id. by rewrite list_lookup_fmap, Hb, He.
Qed.

Lemma add_listmode_keeps MAXBANS myuser me lst banid setby seton ret lst' n :
  bans_ok lst → id_ok banid →
  add_listmode_ex MAXBANS myuser me lst banid setby seton = Ok (ret, lst', n) →
  bans_ok lst' ∧
  (ret = -1 → lst' = lst) ∧
  (ret ≠ -1 → new_ban banid setby seton ∈ lst' ∧
     (∀ b, b ∈ lst' → b = new_ban banid setby seton ∨ b ∈ lst) ∧
     (∀ b, b ∈ lst → ban_id b ≠ casefold banid → b ∈ lst')) ∧
  (ret = 1 ↔ length lst' = S (length lst)) ∧ (ret ≠ 1 → length lst' = length lst) ∧
  ((myuser || me) = true → Z.of_nat (length lst) ≤ Z.max 0 MAXBANS → Z.of_nat (length lst') ≤ Z.max 0 MAXBANS).
Proof.
  intros Hok Hb H. destruct (add_listmode_spec MAXBANS myuser me lst banid setby seton Hok Hb) as (n' & E).
  rewrite E in H. clear E. pose proof Hok as [Hi Hu]. set (e := new_ban banid setby seton) in *.
  assert (ban_id e = casefold banid) as He by done.
  destruct (pos_of (casefold banid) lst) as [i|] eqn:Ep.
  - destruct (pos_of_Some _ _ _ Ep) as (b & Hbi & Hbk). rewrite Hbi in H.
    destruct ((0 <? b_when b) && (b_when b <=? seton)); injection H as <- <- <-; [split_and!; (done || lia)|].
    pose proof (lookup_lt_Some _ _ _ Hbi) as Hlt.
    assert (length (<[i := e]> lst) = length lst) as Hl by apply length_insert. rewrite Hl.
    split_and!; try (done || lia).
    + split; [by apply Forall_insert|]. rewrite (ids_after_insert lst i b); [done|done|congruence].
    + intros _. split_and!.
      * by apply list_elem_of_insert.
      * intros x (j & Hx)%list_elem_of_lookup_1. apply list_lookup_insert_Some in Hx as [(_ & <- & _)|[_ Hx]]; [by left|].
        right. by eapply list_elem_of_lookup_2.
      * intros x (j & Hx)%list_elem_of_lookup_1 Hne. apply list_elem_of_lookup_2 with j.
        rewrite list_lookup_insert_ne; [done|]. intros <-. congruence.
  - apply pos_of_None in Ep. unfold list_full in H. rewrite <-He in Ep.
    destruct (if decide (lst = []) then _ else _) eqn:Ef; injection H as <- <- <-; [split_and!; (done || lia)|].
    split_and!; try (done || lia).
    + split; [by constructor|]. simpl. by constructor.
    + intros _. split; [by left|]. split; [intros b; by rewrite elem_of_cons|]. intros b Hbl _. by right.
    + intros Hc Hmax. rewrite Hc in Ef. simpl length.
      destruct (decide (lst = [])) as [->|]; simpl in Ef; [apply Z.ltb_ge in Ef; simpl; lia|].
      apply Z.leb_gt in Ef. lia.
Qed.

(** What adding a mask means: the outcome is the return value with the list. *)
Definition ban_added (MAXBANS : Z) (counts : bool) (lst : list ban) (banid setby : list Z) (seton : Z) : Z * list ban :=
  match filter (λ b, ban_id b = casefold banid) lst with
  | [] => if list_full MAXBANS counts lst then (-1, lst) else (1, new_ban banid setby seton :: lst)
  | b :: _ =>
      if (0 <? b_when b) && (b_when b <=? seton) then (-1, lst)
      else (0, map (λ b', if decide (ban_id b' = casefold banid) then new_ban banid setby seton else b') lst)
  end.

Lemma pos_of_filter k lst :
  NoDup (ban_id <$> lst) →
  match pos_of k lst with
  | None => filter (λ b, ban_id b = k) lst = []
  | Some i => ∃ b, lst !! i = Some b ∧ filter (λ b, ban_id b = k) lst = [b] ∧
      ∀ e, <[i := e]> lst = map (λ b', if decide (ban_id b' = k) then e else b') lst
  end.
Proof.
  induction lst as [|b lst IH]; [done|]. intros [Hb Hn]%NoDup_cons. rewrite pos_of_cons, filter_cons.
  destruct (decide (ban_id b = k)) as [E|E].
  - exists b. split; [done|].
    assert (Forall (λ b', ban_id b' ≠ k) lst) as Hne.
    { apply Forall_forall. intros b' Hin E'. apply Hb. rewrite E, <-E'. by apply list_elem_of_fmap_2. }
    split.
    + f_equal. clear -Hne. induction Hne as [|b' l Hx _ IHl]; [done|]. by rewrite filter_cons_False.
    + intros e. simpl. rewrite decide_True by done. f_equal. clear -Hne.
      induction Hne as [|b' l Hx _ IHl]; [done|]. simpl. by rewrite decide_False, <-IHl.
  - specialize (IH Hn). destruct (pos_of k lst) as [i|]; simpl; [|done].
    destruct IH as (b' & H1 & H2 & H3). exists b'. split_and!; [done..|]. intros e. by rewrite H3, decide_False.
Qed.

Lemma del_filter k lst :
  NoDup (ban_id <$> lst) →
  ∃ ret, Ok match pos_of k lst with None => (-1, lst) | Some i => (0, delete i lst) end =
         Ok (ret, filter (λ b, ban_id b ≠ k) lst) ∧ (ret = 0 ↔ k ∈ ban_id <$> lst).
Proof.
  assert (∀ l : list ban, k ∉ ban_id <$> l → filter (λ b, ban_id b ≠ k) l = l) as Hall.
  { induction l as [|b l IH]; [done|]. rewrite fmap_cons, not_elem_of_cons. intros [H1 H2].
    rewrite filter_cons_True by congruence. by rewrite IH. }
  intros Hn. destruct (pos_of k lst) as [i|] eqn:Ep.
  - exists 0. assert (filter (λ b, ban_id b ≠ k) lst = delete i lst) as ->.
    { revert i Ep Hn. induction lst as [|b l IH]; [done|]. intros i. rewrite pos_of_cons. intros Ep [Hb Hn]%NoDup_cons.
      destruct (decide (ban_id b = k)) as [E|E].
      - injection Ep as <-. rewrite filter_cons_False by tauto. simpl. apply Hall. by rewrite <-E.
      - apply fmap_Some in Ep as (j & Ej & ->). rewrite filter_cons_True by done. simpl. by rewrite (IH j). }
    destruct (pos_of_Some _ _ _ Ep) as (b & Hb & <-). split; [done|]. split; [|done]. intros _. apply list_elem_of_fmap_2.
    by eapply list_elem_of_lookup_2.
  - apply pos_of_None in Ep. exists (-1). rewrite Hall by done. split; [done|]. split; [done|]. by intros.
Qed.

(** C35.  Lists of bans.  Adding a mask to a list without two identical masks does exactly this: a mask that is
    new is put at the head, unless the list is full; of one that is there already the entry is replaced, at its
    place, if it has no time or a later time than the new one, and otherwise nothing changes; no other entry is
    touched, and the list stays without two identical masks.  Local users and the server itself never make a
    list longer than the limit.  Removing a mask removes its entry, so that removing one that was just added as
    new restores the list, and looking for a mask agrees with the list. *)
Theorem banlist_correct MAXBANS myuser me lst banid setby seton :
  bans_ok lst → id_ok banid →
  let outcome := ban_added MAXBANS (myuser || me) lst banid setby seton in
  let lst' := outcome.2 in
  (∃ n, add_listmode_ex MAXBANS myuser me lst banid setby seton = Ok (outcome, n)) ∧
  bans_ok lst' ∧
  ((myuser || me) = true → Z.of_nat (length lst) ≤ Z.max 0 MAXBANS → Z.of_nat (length lst') ≤ Z.max 0 MAXBANS) ∧
  (outcome.1 = 1 → del_listmode lst' banid = Ok (0, lst)) ∧
  (∃ ret, del_listmode lst banid = Ok (ret, filter (λ b, ban_id b ≠ casefold banid) lst) ∧
     (ret = 0 ↔ casefold banid ∈ ban_id <$> lst)) ∧
  ban_exists lst' banid = Ok (bool_decide (casefold banid ∈ ban_id <$> lst')).
Proof.
  intros Hok Hb outcome lst'. destruct (add_listmode_spec MAXBANS myuser me lst banid setby seton Hok Hb) as (n & E).
  assert (add_listmode_ex MAXBANS myuser me lst banid setby seton = Ok (outcome, n)) as E'.
  { rewrite E. f_equal. f_equal. unfold outcome, ban_added. pose proof (pos_of_filter (casefold banid) lst (bo_unique _ Hok)) as Hp.
    destruct (pos_of _ _) as [i|]; [destruct Hp as (b & -> & -> & Hm)|by rewrite Hp]. by rewrite Hm. }
  clear E. assert (outcome = (outcome.1, lst')) as Eo by by destruct outcome. rewrite Eo in E'.
  destruct (add_listmode_keeps _ _ _ _ _ _ _ _ _ _ Hok Hb E') as (H1 & _ & _ & _ & _ & H6).
  split_and!; [rewrite Eo; eauto|done..| | |apply ban_exists_spec; [apply H1|done]].
  - intros Hone. rewrite del_listmode_spec by (done || apply H1). unfold lst', outcome, ban_added in Hone |- *.
    destruct (filter _ lst) as [|b l]; [|by destruct (_ && _)]. destruct (list_full _ _ lst); [done|].
    simpl. by rewrite pos_of_cons, decide_True.
  - rewrite del_listmode_spec by (done || apply Hok). apply del_filter, Hok.
Qed.

Lemma banlist_correct_witness :
  let l := [Ban (bs "a!*@*") (bs "op") 10] in
  bans_ok l ∧ ∃ lst' n, add_listmode_ex 60 true false l (bs "*!*@host") (bs "op") 20 = Ok (1, lst', n) ∧
    del_listmode lst' (bs "*!*@host") = Ok (0, l).
Proof.
  intros l.
  assert (bans_ok l) as Hl.
  { split; [|apply (bool_decide_unpack _); vm_compute; reflexivity].
    apply Forall_cons_2; [|apply Forall_nil_2].
    split_and!; [apply (bool_decide_unpack _); vm_compute; reflexivity|done|apply Nat.leb_le; reflexivity]. }
  assert (id_ok (bs "*!*@host")) as Hb.
  { split_and!; [apply (bool_decide_unpack _); vm_compute; reflexivity|done|apply Nat.leb_le; reflexivity]. }
  split; [done|].
  destruct (banlist_correct 60 true false l (bs "*!*@host") (bs "op") 20 Hl Hb) as ([n E] & _ & _ & Hd & _).
  eexists _, n. split; [exact E|by apply Hd].
Defined.

(** ** Theory: masks *)

Lemma split_first_Some c s a b : split_first c s = Some (a, b) → s = a ++ c :: b ∧ c ∉ a.
Proof.
  revert a b. induction s as [|x s IH]; intros a b; unfold split_first; simpl; [done|].
  destruct (Z.eqb_spec x c) as [->|Hne]; [intros [= <- <-]; split; [by rewrite drop_0|apply not_elem_of_nil]|].
  unfold split_first in IH. destruct (strchr_off s c) as [i|]; simpl; [|done]. intros [= <- <-].
  destruct (IH _ _ eq_refl) as [E Hn]. split; [by rewrite E at 1|]. rewrite not_elem_of_cons. auto.
Qed.
Lemma split_first_None c s : split_first c s = None → c ∉ s.
Proof.
  induction s as [|x s IH]; unfold split_first; simpl; [intros; apply not_elem_of_nil|].
  destruct (Z.eqb_spec x c); [done|]. unfold split_first in IH. destruct (strchr_off s c); [done|].
  intros _. rewrite not_elem_of_cons. auto.
Qed.
Lemma split_first_at c a b : c ∉ a → split_first c (a ++ c :: b) = Some (a, b).
Proof.
  intros Ha. unfold split_first.
  assert (strchr_off (a ++ c :: b) c = Some (length a)) as ->.
  { induction a as [|x a IH]; simpl; [by rewrite Z.eqb_refl|]. apply not_elem_of_cons in Ha as [H1 H2].
    destruct (Z.eqb_spec x c); [congruence|]. by rewrite IH. }
  f_equal. f_equal; [by rewrite take_app_length|]. rewrite <-Nat.add_1_r, <-drop_drop, drop_app_length. done.
Qed.
Lemma split_last_Some c s a b : split_last c s = Some (a, b) → s = a ++ c :: b ∧ c ∉ b.
Proof.
  unfold split_last. destruct (split_first c (reverse s)) as [[x y]|] eqn:E; [|done]. intros [= <- <-].
  apply split_first_Some in E as [E Hn]. split; [|by rewrite elem_of_reverse].
  rewrite <-(reverse_involutive s), E, reverse_app, reverse_cons, <-app_assoc. done.
Qed.
Lemma split_last_None c s : split_last c s = None → c ∉ s.
Proof.
  unfold split_last. destruct (split_first c (reverse s)) as [[x y]|] eqn:E; [done|]. intros _.
  apply split_first_None in E. by rewrite elem_of_reverse in E.
Qed.
Lemma split_last_at c a b : c ∉ b → split_last c (a ++ c :: b) = Some (a, b).
Proof.
  intros Hb. unfold split_last. rewrite reverse_app, reverse_cons, <-app_assoc. simpl.
  rewrite split_first_at by (by rewrite elem_of_reverse). by rewrite !reverse_involutive.
Qed.

(** Text without white space. *)
Abbreviation no_space := (Forall (λ c, negb (isspace c) = true)).

(** A part of a mask, "*" if it is missing. *)
Definition part (s : option (list Z)) : list Z := match s with Some (c :: r) => c :: r | _ => [STAR] end.

Lemma check_string_part s : no_space (default [] s) → check_string s = part s.
Proof.
  intros H. destruct s as [[|c r]|]; [done| |done]. simpl in H. unfold check_string.
  rewrite take_while_all by done. by rewrite Nat.ltb_irrefl.
Qed.

Lemma make_nuh_spec buflen n u h :
  no_space (default [] n) → no_space (default [] u) → no_space (default [] h) →
  (length (part n) ≤ NICKLEN)%nat → (length (part u) ≤ USERLEN)%nat → (length (part h) ≤ HOSTLEN)%nat →
  (NICKLEN + USERLEN + HOSTLEN + 3 ≤ buflen)%nat →
  make_nick_user_host_r buflen n u h = part n ++ BANG :: part u ++ AT :: part h.
Proof.
  intros Hn Hu Hh Ln Lu Lh Hb. unfold make_nick_user_host_r. rewrite !check_string_part by done.
  assert ((Strl.strlncpy [] (part n) buflen (NICKLEN + 1)).1 = part n) as ->.
  { unfold Strl.strlncpy, Strl.strnlen. destruct (Nat.leb_spec buflen 0); [lia|]. cbn [fst].
    destruct (Nat.leb_spec buflen (Nat.min (length (part n)) (NICKLEN + 1))); [lia|]. apply take_ge. lia. }
  assert (∀ a b m, (length a + length b < buflen)%nat → (length b ≤ m)%nat →
    (Strl.strlcat a b buflen).1 = a ++ b ∧ (Strl.strlncat a b buflen m).1 = a ++ b) as Hcat.
  { intros a b m Hab Hm. rewrite Strl.strlcat_fst, Strl.strlncat_fst by lia. rewrite (take_ge b) by lia.
    rewrite !take_ge by (rewrite length_app; lia). done. }
  destruct (Hcat (part n) [BANG] 1%nat) as [-> _]; [simpl; lia|done|].
  destruct (Hcat (part n ++ [BANG]) (part u) (USERLEN + 1)%nat) as [_ ->]; [rewrite length_app; simpl; lia|lia|].
  destruct (Hcat ((part n ++ [BANG]) ++ part u) [AT] 1%nat) as [-> _]; [rewrite !length_app; simpl; lia|done|].
  destruct (Hcat (((part n ++ [BANG]) ++ part u) ++ [AT]) (part h) (HOSTLEN + 1)%nat) as [_ ->];
    [rewrite !length_app; simpl; lia|lia|]. by rewrite <-!app_assoc.
Qed.

(** Trimming keeps the last characters. *)
Lemma trim_spec s len :
  (0 < len)%nat → no_space (default [] s) →
  (length (part (trim_str s len)) ≤ len)%nat ∧ no_space (default [] (trim_str s len)) ∧
  ((length (default [] s) ≤ len)%nat → trim_str s len = s) ∧
  ∀ c, c ≠ STAR → c ∉ default [] s → c ∉ part (trim_str s len).
Proof.
  intros Hl Hs. destruct s as [s|]; simpl; [|split_and!; try done; intros c Hc _ ?%list_elem_of_singleton; congruence].
  destruct (Nat.ltb_spec len (length s)) as [Hlt|Hge]; simpl.
  - split_and!.
    + rewrite length_drop. lia.
    + constructor; [reflexivity|by apply Forall_drop].
    + lia.
    + intros c Hc Hn. apply not_elem_of_cons. split; [done|]. intros Hx. apply Hn.
      by eapply elem_of_suffix; [|apply suffix_drop].
  - split_and!; try done; destruct s as [|x s]; simpl in *; try lia; try done.
    intros c Hc _ ?%list_elem_of_singleton. congruence.
Qed.

(** A mask in three parts, each of limited size. *)
Inductive full_mask (m : list Z) : Prop :=
| FullMask (n u h : list Z) :
    m = n ++ BANG :: u ++ AT :: h → BANG ∉ n → AT ∉ h →
    n ≠ [] → u ≠ [] → h ≠ [] → no_space n → no_space u → no_space h →
    (length n ≤ NICKLEN)%nat → (length u ≤ USERLEN)%nat → (length h ≤ HOSTLEN)%nat → full_mask m.

Lemma part_facts s : part s ≠ [] ∧ (no_space (default [] s) → no_space (part s)).
Proof. destruct s as [[|c r]|]; split; try done; intros; by repeat constructor. Qed.

Lemma make_full_mask buflen n u h :
  no_space (default [] n) → no_space (default [] u) → no_space (default [] h) →
  BANG ∉ default [] n → AT ∉ default [] h → (NICKLEN + USERLEN + HOSTLEN + 3 ≤ buflen)%nat →
  full_mask (make_nick_user_host_r buflen (trim_str n NICKLEN) (trim_str u USERLEN) (trim_str h HOSTLEN)).
Proof.
  intros Hn Hu Hh Bn Ah Hb.
  destruct (trim_spec n NICKLEN) as (L1 & S1 & _ & N1); [unfold NICKLEN; lia|done|].
  destruct (trim_spec u USERLEN) as (L2 & S2 & _ & _); [unfold USERLEN; lia|done|].
  destruct (trim_spec h HOSTLEN) as (L3 & S3 & _ & N3); [unfold HOSTLEN; lia|done|].
  rewrite make_nuh_spec by done.
  eapply FullMask; [reflexivity|by apply N1|by apply N3|by apply part_facts..|done|done|done].
Qed.

Lemma full_mask_fixed buflen m :
  full_mask m → (NICKLEN + USERLEN + HOSTLEN + 3 ≤ buflen)%nat → convert_regular_ban m buflen = Some m.
Proof.
  intros [n u h E Bn Ah Hn Hu Hh Sn Su Sh Ln Lu Lh] Hb. unfold convert_regular_ban.
  destruct m as [|c0 m0] eqn:Em; [by destruct n|]. rewrite <-Em in *. clear Em c0 m0.
  assert (strchr m AT = true) as ->.
  { apply bool_decide_eq_true_2. right. rewrite E, elem_of_app, elem_of_cons, elem_of_app, elem_of_cons. auto. }
  rewrite andb_false_r, E, split_first_at by done. simpl default. rewrite split_last_at by done.
  assert (∀ s len, (length s ≤ len)%nat → trim_str (Some s) len = Some s) as Ht.
  { intros s len Hs. unfold trim_str. by rewrite (proj2 (Nat.ltb_ge _ _)). }
  rewrite !Ht by done.
  assert (∀ s, s ≠ [] → part (Some s) = s) as Hp by (by intros [|? ?]).
  rewrite make_nuh_spec; simpl default; rewrite ?Hp by done; done.
Qed.

Lemma no_space_parts (m a b : list Z) c : no_space m → m = a ++ c :: b → no_space a ∧ no_space b.
Proof. intros H ->. apply Forall_app in H as [Ha Hb]. by apply Forall_cons in Hb as [_ Hb]. Qed.

Lemma convert_full_mask buflen m r :
  no_space m → (NICKLEN + USERLEN + HOSTLEN + 3 ≤ buflen)%nat →
  convert_regular_ban m buflen = Some r → full_mask r.
Proof.
  intros Hs Hb. unfold convert_regular_ban. destruct m as [|c0 m0] eqn:Em; [done|]. rewrite <-Em in *. clear Em c0 m0.
  destruct (_ && _); [done|]. destruct (split_first BANG m) as [[a b]|] eqn:E1.
  - apply split_first_Some in E1 as [-> Hn]. apply no_space_parts with (a := a) (b := b) (c := BANG) in Hs as [Ha Hsb]; [|done].
    simpl default. destruct (split_last AT b) as [[u h]|] eqn:E2.
    + apply split_last_Some in E2 as [-> Hh]. apply no_space_parts with (a := u) (b := h) (c := AT) in Hsb as [Hu Hsh]; [|done].
      intros [= <-]. by apply (make_full_mask buflen (Some a) (Some u) (Some h)).
    + rewrite bool_decide_eq_false_2 by done. simpl andb. intros [= <-].
      apply (make_full_mask buflen (Some a) (Some b) None); try done; apply not_elem_of_nil.
  - apply split_first_None in E1. simpl default. destruct (split_last AT m) as [[u h]|] eqn:E2.
    + apply split_last_Some in E2 as [-> Hh]. apply no_space_parts with (a := u) (b := h) (c := AT) in Hs as [Hu Hsh]; [|done].
      intros [= <-]. apply (make_full_mask buflen None (Some u) (Some h)); try done. apply not_elem_of_nil.
    + destruct (bool_decide (None = None) && _); intros [= <-].
      * apply (make_full_mask buflen None None (Some m)); try done; [apply not_elem_of_nil|]. by apply split_last_None.
      * apply (make_full_mask buflen (Some m) None None); try done. apply not_elem_of_nil.
Qed.

(** Masks of bans.  What a user gives as a mask, without white space, is
    rejected or becomes a mask nick!user@host in its buffer: three parts that are
    not empty, each within its limit, split at the first ! and the last @.  A mask
    in that form is left as it is, so that converting again changes nothing. *)
Theorem convert_regular_ban_idempotent buflen m r :
  no_space m → (NICKLEN + USERLEN + HOSTLEN + 3 ≤ buflen)%nat → convert_regular_ban m buflen = Some r →
  full_mask r ∧ (length r < buflen)%nat ∧ convert_regular_ban r buflen = Some r.
Proof.
  intros Hs Hb Hc. pose proof (convert_full_mask buflen m r Hs Hb Hc) as Hf. split; [done|].
  split; [|by apply full_mask_fixed]. destruct Hf as [n u h -> _ _ _ _ _ _ _ _ Ln Lu Lh].
  rewrite length_app. simpl. rewrite length_app. simpl. lia.
Qed.

Lemma convert_regular_ban_witness :
  convert_regular_ban (bs "joe@host.net") 106 = Some (bs "*!joe@host.net") ∧
  convert_regular_ban (bs "*!joe@host.net") 106 = Some (bs "*!joe@host.net") ∧ full_mask (bs "*!joe@host.net").
Proof.
  split; [vm_compute; reflexivity|].
  destruct (convert_regular_ban_idempotent 106 (bs "joe@host.net") (bs "*!joe@host.net")) as (H1 & _ & H2);
    [repeat constructor|vm_compute; lia|vm_compute; reflexivity|]. split; [exact H2|exact H1].
Defined.

(** The comments say that a name that is too long is cut and gets a star at its
    end; it is its start that is replaced. *)
Lemma trim_str_keeps_tail : trim_str (Some (bs "toolong")) 6 = Some (bs "*olong").
Proof. reflexivity. Qed.

(** [check_string] is meant to return the text before the first white space, but
    copies from the white space on. *)
Lemma check_string_copies_rest :
  check_string (Some (bs "ab cd")) = bs " c" ∧ check_string (Some (bs "nick x")) = bs " x".
Proof. split; reflexivity. Qed.

(** ** Theory: names *)

(** Channel names.  A name that is accepted starts with a channel prefix or
    is empty, is not too long, has no control character, space, comma or colon,
    and is valid UTF-8 where that is asked for; creating a channel then uses the
    name as it is.  That the empty name passes is because searching the
    prefixes for its first character, a NUL, finds the end of the string. *)
Theorem valid_channelname_spec chantypes allowed cname :
  cstr cname →
  (valid_channelname chantypes allowed cname = true ↔
   (cname = [] ∨ deref cname ∈ default [HASH] chantypes) ∧ (length cname ≤ CHANNELLEN)%nat ∧
   Forall (λ c, 33 ≤ c ∧ c ≠ COMMA ∧ c ≠ COLON) cname ∧
   match allowed with
   | ALLOWED_CHANNELCHARS_ANY => True
   | ALLOWED_CHANNELCHARS_ASCII => Forall (λ c, c ≤ 127) cname
   | ALLOWED_CHANNELCHARS_UTF8 => utf8 cname
   end) ∧
  (valid_channelname chantypes allowed cname = true → clean_name cname = cname).
Proof.
  intros Hc. unfold valid_channelname.
  assert (strchr (default [HASH] chantypes) (deref cname) = true ↔
    cname = [] ∨ deref cname ∈ default [HASH] chantypes) as Hst.
  { unfold strchr. rewrite bool_decide_eq_true. destruct cname as [|c r]; simpl; [tauto|].
    apply cstr_cons_inv in Hc as [Hc _]. unfold cchar, deref in *. simpl. split; [intros [?|?]; [lia|auto]|].
    intros [?|?]; [done|auto]. }
  assert (forallb (λ c, negb (bad_name_char c)) cname = true ↔ Forall (λ c, 33 ≤ c ∧ c ≠ COMMA ∧ c ≠ COLON) cname) as Hbad.
  { rewrite forallb_forall, Forall_forall. setoid_rewrite <-list_elem_of_In. unfold bad_name_char.
    split; intros H c Hx; specialize (H c Hx); bool_cases; lia. }
  assert (forallb (λ c, negb (bad_name_char c || (127 <? c))) cname = true ↔
    Forall (λ c, 33 ≤ c ∧ c ≠ COMMA ∧ c ≠ COLON) cname ∧ Forall (λ c, c ≤ 127) cname) as Hasc.
  { rewrite <-Forall_and, forallb_forall, Forall_forall. setoid_rewrite <-list_elem_of_In. unfold bad_name_char.
    split; intros H c Hx; specialize (H c Hx); bool_cases; lia. }
  destruct (validate_spec cname Hc) as (v & q & -> & Hv & _).
  split.
  - destruct (strchr (default [HASH] chantypes) (deref cname)); simpl; [|intuition congruence].
    destruct (Nat.ltb_spec CHANNELLEN (length cname)); [split; [done|intros (_ & ? & _); lia]|].
    destruct allowed; rewrite ?andb_true_iff, ?Hbad, ?Hasc, ?Hv; intuition.
  - destruct (strchr _ _); simpl; [|done]. destruct (Nat.ltb_spec CHANNELLEN (length cname)); [done|]. intros Ha.
    unfold clean_name. rewrite take_ge by done. apply take_while_all, Forall_forall. intros c Hx.
    destruct allowed; rewrite ?andb_true_iff, ?Hbad, ?Hasc in Ha; rewrite !Forall_forall in Ha;
      (assert (33 ≤ c ∧ c ≠ COMMA ∧ c ≠ COLON) as Hok by (first [by apply Ha|by apply (proj1 Ha)])).
    all: unfold bad_name_char; destruct (Z.ltb_spec c 33), (Z.eqb_spec c COMMA), (Z.eqb_spec c COLON); simpl; (done || lia).
Qed.

Lemma valid_channelname_witness :
  valid_channelname (Some (bs "#")) ALLOWED_CHANNELCHARS_UTF8 (bs "#chat") = true ∧ clean_name (bs "#chat") = bs "#chat" ∧
  valid_channelname (Some (bs "#")) ALLOWED_CHANNELCHARS_UTF8 [] = true.
Proof.
  split; [vm_compute; reflexivity|].
  destruct (valid_channelname_spec (Some (bs "#")) ALLOWED_CHANNELCHARS_UTF8 (bs "#chat")) as [_ H].
  { apply (bool_decide_unpack _). vm_compute. reflexivity. }
  split; [apply H; vm_compute; reflexivity|vm_compute; reflexivity].
Defined.
