(* ===== verification/NameLists.v ===== *)
(** * Lists and tables of names (src/list.c)

    Lists of names, lists of names with values that are kept in the order of
    their priority, and the tables of flags of the configuration, in which a
    name is found by bisection.  The links of the lists are the subject of Dlist;
    here a list is the list of its entries. *)

From stdpp Require Import base tactics list numbers strings pretty sorting.
From Stdlib Require Import ZArith Lia.
From S2P Require Import Prelude Chars Support Match.

Local Open Scope Z_scope.

(** ** Lists of names *)

Definition add_name_list (l : list (list Z)) (name : list Z) : list (list Z) := name :: l.
Definition append_name_list (l : list (list Z)) (name : list Z) : list (list Z) := l ++ [name].

(** [duplicate_name_list]: each copy is linked behind the tail. *)
Definition duplicate_name_list (e : list (list Z)) : list (list Z) :=
  foldl (λ ret n, ret ++ [n]) [] e.

Fixpoint find_name_list (l : list (list Z)) (name : list Z) : option (list Z) :=
  match l with
  | [] => None
  | e :: r => if strcasecmp e name =? 0 then Some e else find_name_list r name
  end.

(** The entry that [find_name_list] finds is unlinked. *)
Fixpoint del_name_list (l : list (list Z)) (name : list Z) : list (list Z) :=
  match l with
  | [] => []
  | e :: r => if strcasecmp e name =? 0 then r else e :: del_name_list r name
  end.

Fixpoint find_name_list_match (l : list (list Z)) (name : list Z) : res (option (list Z)) :=
  match l with
  | [] => Ok None
  | e :: r => let! m := match_simple e name in if m : bool then Ok (Some e) else find_name_list_match r name
  end.

Definition find_name_list_integer (l : list (list Z)) (v : Z) : option (list Z) :=
  find_name_list l (bs (pretty v)).

(** ** Names with values *)

Record NameValuePrioList := NVP { nv_priority : Z; nv_name : list Z; nv_value : option (list Z) }.

(** [add_ListItemPrio] on the entries of the list. *)
Definition insert_prio (e : NameValuePrioList) (l : list NameValuePrioList) : list NameValuePrioList :=
  take_while (λ y, nv_priority y <? nv_priority e) l ++ e ::
  drop_while (λ y, nv_priority y <? nv_priority e) l.

(** An empty value is kept as NULL. *)
Definition add_nvplist (l : list NameValuePrioList) (priority : Z) (name : list Z) (value : option (list Z))
  : list NameValuePrioList :=
  insert_prio (NVP priority name (match value with Some [] => None | _ => value end)) l.

Fixpoint find_nvplist (l : list NameValuePrioList) (name : list Z) : option NameValuePrioList :=
  match l with
  | [] => None
  | e :: r => if strcasecmp (nv_name e) name =? 0 then Some e else find_nvplist r name
  end.

Definition get_nvplist (l : list NameValuePrioList) (name : list Z) : option (list Z) :=
  match find_nvplist l name with Some e => nv_value e | None => None end.

(** [del_nvplist_entry] unlinks the entry at a position. *)
Definition del_nvplist_entry (i : nat) (l : list NameValuePrioList) : list NameValuePrioList :=
  take i l ++ drop (S i) l.

Definition duplicate_nvplist_append (e l : list NameValuePrioList) : list NameValuePrioList :=
  foldl (λ n x, add_nvplist n (nv_priority x) (nv_name x) (nv_value x)) l e.
Definition duplicate_nvplist (e : list NameValuePrioList) : list NameValuePrioList :=
  duplicate_nvplist_append e [].

(** ** Tables *)

(** struct NameValue *)
Abbreviation NameValue := (Z * list Z)%type.

Definition nv_body (table : list NameValue) (cmd : list Z) (st : Z * Z) : res (step (Z * Z) Z) :=
  let '(start, stop) := st in
  if negb (start <=? stop) then Ok (Done 0)
  else
    let mid := Z.quot (i32 (start + stop)) 2 in
    match table !! Z.to_nat mid with
    | None => UB
    | Some (value, name) =>
        let! c := smycmp cmd name in
        if c <? 0 then Ok (Next (start, mid - 1))
        else if bool_decide (cmd = name) then Ok (Done value)
        else Ok (Next (mid + 1, stop))
    end.

Definition do_nv_find_by_name (table : list NameValue) (cmd : list Z) (numelements : nat) : res Z :=
  loop (nv_body table cmd) (S numelements) (0, Z.of_nat numelements - 1).

Fixpoint do_nv_find_by_value (table : list NameValue) (value : Z) : option (list Z) :=
  match table with
  | [] => None
  | (v, n) :: r => if v =? value then Some n else do_nv_find_by_value r value
  end.

(** The tables of src/conf.c. *)
Definition ListenerFlags : list NameValue :=
  [(0x02, bs "clientsonly"); (0x40, bs "defer-accept"); (0x04, bs "serversonly"); (0x10, bs "ssl");
   (0x01, bs "standard"); (0x10, bs "tls")].
Definition LinkOutgoingFlags : list NameValue :=
  [(0x02, bs "autoconnect"); (0x08, bs "insecure"); (0x01, bs "quarantine"); (0x01, bs "ssl"); (0x01, bs "tls")].
Definition LinkFlags : list NameValue :=
  [(0x02, bs "no-certificate-verification"); (0x01, bs "quarantine")].
Definition TLSFlags : list NameValue :=
  [(0x01, bs "fail-if-no-clientcert"); (0x04, bs "no-client-certificate"); (0x02, bs "no-starttls")].

(** ** Theory: tables *)

Definition key (s : list Z) : list Z := map toupper s.

Lemma key_pos s : cstr s → Forall (λ x, 0 < x) (key s).
Proof.
  induction 1 as [|c s Hc _ IH]; simpl; constructor; [|done].
  unfold cchar in Hc. rewrite toupper_ascii by (unfold byte; lia). unfold ascii_upper. bool_cases.
Qed.

Lemma smycmp_key a b : cstr a → cstr b → smycmp a b = Ok (cmpz (key a) (key b)).
Proof.
  intros Ha. revert b. induction Ha as [|x a Hx Ha IH]; intros b Hb.
  - destruct Hb as [|y b Hy Hb]; [done|]. cbn [smycmp deref hd key map cmpz]. change (toupper 0) with 0.
    pose proof (key_pos [y] ltac:(by constructor)) as Hp. inversion Hp. bool_cases.
  - pose proof (key_pos [x] ltac:(by constructor)) as Hp. inversion Hp as [|? ? Hx' _]; subst.
    destruct Hb as [|y b Hy Hb]; cbn [smycmp deref hd key map cmpz].
    + change (toupper 0) with 0. bool_cases. by rewrite Z.sub_0_r.
    + rewrite IH by done. unfold key. bool_cases; (done || lia).
Qed.

Record table_ok (table : list NameValue) : Prop := {
  tb_cstr : Forall (λ v, cstr v.2) table;
  tb_sorted : ∀ i j u v, (i < j)%nat → table !! i = Some u → table !! j = Some v → cmpz (key u.2) (key v.2) < 0;
  tb_size : Z.of_nat (length table) < 2 ^ 30
}.

Lemma nv_step table cmd i u :
  table_ok table → cstr cmd → table !! i = Some u →
  ∃ c, smycmp cmd u.2 = Ok c ∧
    (c < 0 → ∀ k v, table !! k = Some (v, cmd) → (k < i)%nat) ∧
    (0 ≤ c → ∀ k v, table !! k = Some (v, cmd) → (i ≤ k)%nat).
Proof.
  intros [Hc Hs _] Hcmd Hi. pose proof (proj1 (Forall_lookup _ _) Hc i u Hi) as Hu.
  eexists. split; [by apply smycmp_key|]. split; intros H k v Hk; apply Nat.nle_gt || apply Nat.le_ngt; intros Hlt.
  - destruct (decide (k = i)) as [->|]; [rewrite Hi in Hk; simplify_eq; simpl in H; rewrite cmpz_refl in H; lia|].
    pose proof (Hs i k u (v, cmd) ltac:(lia) Hi Hk) as Hc'. simpl in Hc'. rewrite cmpz_anti in Hc'. lia.
  - pose proof (Hs k i (v, cmd) u Hlt Hk Hi) as Hc'. simpl in Hc'. lia.
Qed.

(** The invariant of the bisection: an entry with the name is in the range. *)
Definition in_range (table : list NameValue) (cmd : list Z) (st : Z * Z) : Prop :=
  0 ≤ st.1 ∧ st.2 < Z.of_nat (length table) ∧ st.1 ≤ st.2 + 1 ∧
  ∀ k v, table !! k = Some (v, cmd) → st.1 ≤ Z.of_nat k ≤ st.2.

Lemma nv_find_spec table cmd :
  table_ok table → cstr cmd →
  ∃ r, do_nv_find_by_name table cmd (length table) = Ok r ∧
    ((∃ k, table !! k = Some (r, cmd)) ∨ r = 0 ∧ ∀ k v, table !! k ≠ Some (v, cmd)).
Proof.
  intros Ht Hcmd. unfold do_nv_find_by_name.
  apply (loop_total _ (in_range table cmd) (λ st, Z.to_nat (st.2 - st.1 + 1))); [|split_and!; simpl; try lia|simpl; lia].
  2:{ intros k v Hk. apply lookup_lt_Some in Hk. lia. }
  intros [start stop] (H0 & Hn & Hle & Hin). simpl in *. unfold nv_body.
  destruct (Z.leb_spec start stop); simpl negb; cbv iota.
  2:{ eexists. split; [done|]. right. split; [done|]. intros k v Hk. specialize (Hin k v Hk). lia. }
  pose proof (tb_size _ Ht). rewrite i32_small by lia. set (mid := Z.quot (start + stop) 2).
  assert (start ≤ mid ≤ stop) as Hmid by (unfold mid; rewrite Z.quot_div_nonneg by lia; dlia).
  destruct (lookup_lt_is_Some_2 table (Z.to_nat mid)) as [[value name] Hm]; [lia|]. rewrite Hm.
  destruct (nv_step table cmd _ _ Ht Hcmd Hm) as (c & Hc & Hlt & Hge). simpl in Hc. rewrite Hc. cbn [rbind].
  destruct (Z.ltb_spec c 0).
  - eexists. split; [done|]. split; [|simpl; lia]. split_and!; simpl; try lia.
    intros k v Hk. specialize (Hin k v Hk). specialize (Hlt ltac:(done) k v Hk). lia.
  - destruct (bool_decide_reflect (cmd = name)) as [->|Hne]; [eexists; split; [done|]; left; eauto|].
    eexists. split; [done|]. split; [|simpl; lia]. split_and!; simpl; try lia.
    intros k v Hk. specialize (Hin k v Hk). specialize (Hge ltac:(done) k v Hk).
    assert (k ≠ Z.to_nat mid) by (intros ->; rewrite Hm in Hk; by simplify_eq). lia.
Qed.

(** Alphabetical order, for the tables at hand. *)
Definition table_okb (table : list NameValue) : bool :=
  forallb (λ v, forallb (λ c, (0 <? c) && (c <? 256)) v.2) table &&
  forallb (λ i, forallb (λ j, negb (i <? j)%nat ||
     match table !! i, table !! j with
     | Some u, Some v => cmpz (key u.2) (key v.2) <? 0
     | _, _ => true
     end) (seq 0 (length table))) (seq 0 (length table)) &&
  (Z.of_nat (length table) <? 2 ^ 30).

Lemma table_okb_ok table : table_okb table = true → table_ok table.
Proof.
  unfold table_okb. rewrite !andb_true_iff, !forallb_forall. intros [[H1 H2] H3]. split.
  - apply Forall_forall. intros v Hv. apply list_elem_of_In, H1 in Hv. rewrite forallb_forall in Hv.
    apply Forall_forall. intros c Hc. apply list_elem_of_In, Hv in Hc. unfold cchar. bool_cases.
  - intros i j u v Hij Hi Hj. pose proof (lookup_lt_Some _ _ _ Hi). pose proof (lookup_lt_Some _ _ _ Hj).
    specialize (H2 i ltac:(apply in_seq; lia)). rewrite forallb_forall in H2.
    specialize (H2 j ltac:(apply in_seq; lia)). rewrite Hi, Hj in H2. bool_cases; lia.
  - by apply Z.ltb_lt.
Qed.

(** The tables of the configuration are in alphabetical order. *)
Lemma conf_tables_ok : Forall table_ok [ListenerFlags; LinkOutgoingFlags; LinkFlags; TLSFlags].
Proof. repeat (apply Forall_cons_2; [apply table_okb_ok; vm_compute; reflexivity|]). apply Forall_nil_2. Qed.

(** ** Theory: names with values *)

Definition prio_le (x y : NameValuePrioList) : Prop := nv_priority x ≤ nv_priority y.

Record nvplist_ok (l : list NameValuePrioList) : Prop := {
  np_sorted : StronglySorted prio_le l;
  np_entries : Forall (λ e, cstr (nv_name e) ∧ nv_value e ≠ Some []) l
}.

Lemma insert_prio_perm e l : insert_prio e l ≡ₚ e :: l.
Proof. unfold insert_prio. rewrite <-(take_drop_while (λ y, nv_priority y <? nv_priority e) l) at 3. by rewrite Permutation_middle. Qed.

Lemma insert_prio_sorted e l : StronglySorted prio_le l → StronglySorted prio_le (insert_prio e l).
Proof.
  unfold insert_prio. induction 1 as [|x l Hs IH Hx]; simpl; [repeat constructor|].
  destruct (Z.ltb_spec (nv_priority x) (nv_priority e)); simpl.
  - constructor; [done|]. change (Forall (prio_le x) (insert_prio e l)). rewrite insert_prio_perm.
    constructor; [unfold prio_le; lia|done].
  - constructor; [by constructor|]. constructor; [done|].
    eapply Forall_impl; [exact Hx|]. unfold prio_le. simpl. lia.
Qed.

Lemma insert_prio_filter p e l :
  filter (λ x, nv_priority x = p) (insert_prio e l) =
    if decide (nv_priority e = p) then e :: filter (λ x, nv_priority x = p) l else filter (λ x, nv_priority x = p) l.
Proof.
  unfold insert_prio. set (P := λ y, nv_priority y <? nv_priority e).
  replace (filter (λ x, nv_priority x = p) l) with
    (filter (λ x, nv_priority x = p) (take_while P l ++ drop_while P l)) by (by rewrite take_drop_while).
  rewrite !filter_app, filter_cons.
  destruct (decide (nv_priority e = p)) as [<-|]; [|done].
  assert (filter (λ x, nv_priority x = nv_priority e) (take_while P l) = []) as ->; [|done].
  pose proof (take_while_Forall P l) as H. induction H as [|x r Hx _ IH]; [done|].
  rewrite filter_cons_False; [done|]. unfold P in Hx. apply Z.ltb_lt in Hx. lia.
Qed.

(** A list that is ordered by priority is determined by its entries of each
    priority. *)
Lemma sorted_filter_eq l m :
  StronglySorted prio_le l → StronglySorted prio_le m →
  (∀ p, filter (λ x, nv_priority x = p) l = filter (λ x, nv_priority x = p) m) → l = m.
Proof.
  intros Hl. revert m. induction Hl as [|x l Hl IH Hx]; intros m Hm H.
  - destruct m as [|y m]; [done|]. specialize (H (nv_priority y)). rewrite filter_cons_True in H by done. done.
  - destruct Hm as [|y m Hm Hy]; [specialize (H (nv_priority x)); by rewrite filter_cons_True in H|].
    assert (nv_priority x = nv_priority y) as E.
    { assert (x ∈ filter (λ z, nv_priority z = nv_priority x) (y :: m)) as Hin.
      { rewrite <-H, filter_cons_True by done. left. }
      assert (y ∈ filter (λ z, nv_priority z = nv_priority y) (x :: l)) as Hin'.
      { rewrite H, filter_cons_True by done. left. }
      apply list_elem_of_filter in Hin as [_ Hin], Hin' as [_ Hin'].
      rewrite Forall_forall in Hx, Hy. apply elem_of_cons in Hin as [->|Hin]; [done|].
      apply elem_of_cons in Hin' as [->|Hin']; [done|].
      specialize (Hx _ Hin'). specialize (Hy _ Hin). unfold prio_le in *. lia. }
    pose proof (H (nv_priority x)) as Hp. rewrite !filter_cons_True in Hp by done.
    injection Hp as -> _. f_equal. apply IH; [done|]. intros p. specialize (H p).
    rewrite !filter_cons in H. by destruct (decide (nv_priority y = p)); simplify_eq.
Qed.

Lemma add_nvplist_ok l p name value :
  nvplist_ok l → cstr name → nvplist_ok (add_nvplist l p name value).
Proof.
  intros [Hs He] Hn. split; [by apply insert_prio_sorted|]. unfold add_nvplist. rewrite insert_prio_perm.
  constructor; [|done]. simpl. split; [done|]. by destruct value as [[|]|].
Qed.

Lemma add_nvplist_entry l e :
  nv_value e ≠ Some [] → add_nvplist l (nv_priority e) (nv_name e) (nv_value e) = insert_prio e l.
Proof. destruct e as [p n [[|]|]]; done. Qed.

Lemma find_nvplist_app l m n :
  find_nvplist (l ++ m) n = match find_nvplist l n with Some e => Some e | None => find_nvplist m n end.
Proof. induction l as [|e l IH]; simpl; [done|]. by destruct (_ =? 0). Qed.

(** What duplicating does: the entries of each priority are reversed. *)
Lemma duplicate_filter e l p :
  Forall (λ e, nv_value e ≠ Some []) e →
  filter (λ x, nv_priority x = p) (duplicate_nvplist_append e l) =
    reverse (filter (λ x, nv_priority x = p) e) ++ filter (λ x, nv_priority x = p) l.
Proof.
  intros He. revert l. induction He as [|x e Hx _ IH]; intros l; [done|].
  change (duplicate_nvplist_append (x :: e) l) with
    (duplicate_nvplist_append e (add_nvplist l (nv_priority x) (nv_name x) (nv_value x))).
  rewrite IH, add_nvplist_entry, insert_prio_filter, filter_cons by done.
  destruct (decide (nv_priority x = p)); [|done]. by rewrite reverse_cons, <-app_assoc.
Qed.

Lemma duplicate_ok e l : nvplist_ok e → nvplist_ok l → nvplist_ok (duplicate_nvplist_append e l).
Proof.
  intros [_ He]. revert l. induction He as [|x e [Hx _] _ IH]; intros l Hl; [done|].
  simpl. apply IH. by apply add_nvplist_ok.
Qed.

(** Lists of names with values.  Adding an entry keeps the list in the order
    of priority and changes nothing else; a name is found, in any case, with the
    new entry in front of all older ones of the same or a higher priority value;
    other names are found as before.  Duplicating a list reverses the entries of
    each priority, so that duplicating twice gives the list back. *)
Theorem nvplist_correct l p name value n :
  nvplist_ok l → cstr name → cstr n →
  let e := NVP p name (match value with Some [] => None | _ => value end) in
  nvplist_ok (add_nvplist l p name value) ∧ add_nvplist l p name value ≡ₚ e :: l ∧
  find_nvplist (add_nvplist l p name value) n =
    (if decide (casefold name = casefold n)
     then match find_nvplist (take_while (λ y, nv_priority y <? p) l) n with Some e' => Some e' | None => Some e end
     else find_nvplist l n) ∧
  (∀ q, filter (λ x, nv_priority x = q) (duplicate_nvplist l) = reverse (filter (λ x, nv_priority x = q) l)) ∧
  duplicate_nvplist (duplicate_nvplist l) = l.
Proof.
  intros Hl Hname Hn e. split; [by apply add_nvplist_ok|]. split; [apply insert_prio_perm|].
  assert (Forall (λ e, nv_value e ≠ Some []) l) as Hv by (eapply Forall_impl; [apply Hl|]; by intros ? [_ ?]).
  split; [|split].
  - unfold add_nvplist, insert_prio. fold e. rewrite find_nvplist_app. simpl nv_priority.
    set (P := λ y, nv_priority y <? p).
    replace (find_nvplist l n) with (find_nvplist (take_while P l ++ drop_while P l) n) by (by rewrite take_drop_while).
    rewrite find_nvplist_app.
    simpl find_nvplist. rewrite strcasecmp_eq by done.
    destruct (decide (casefold name = casefold n)); [by rewrite bool_decide_eq_true_2|by rewrite bool_decide_eq_false_2].
  - intros q. unfold duplicate_nvplist. rewrite duplicate_filter by done. by rewrite app_nil_r.
  - assert (nvplist_ok []) as H0 by (split; constructor).
    pose proof (duplicate_ok l [] Hl H0) as Hd. fold (duplicate_nvplist l) in Hd.
    apply sorted_filter_eq; [by apply (duplicate_ok _ _ Hd H0)|apply Hl|]. intros q.
    unfold duplicate_nvplist at 1. rewrite duplicate_filter by (eapply Forall_impl; [apply Hd|]; by intros ? [_ ?]).
    unfold duplicate_nvplist. rewrite duplicate_filter by done. by rewrite !app_nil_r, reverse_involutive.
Qed.

(** A variable that is defined twice has its newest value; in a copy of the list
    it has its oldest. *)
Lemma nvplist_correct_witness :
  let l := add_nvplist [] 0 (bs "A") (Some (bs "1")) in
  let l2 := add_nvplist l 0 (bs "A") (Some (bs "2")) in
  get_nvplist l2 (bs "a") = Some (bs "2") ∧ get_nvplist (duplicate_nvplist l2) (bs "a") = Some (bs "1") ∧
  duplicate_nvplist (duplicate_nvplist l) = l ∧ nvplist_ok l2.
Proof.
  intros l l2. split; [vm_compute; reflexivity|]. split; [vm_compute; reflexivity|].
  assert (nvplist_ok l) as Hl.
  { split; [repeat constructor|]. constructor; [|constructor]. split; [|done]. repeat constructor; done. }
  destruct (nvplist_correct l 0 (bs "A") (Some (bs "2")) (bs "a") Hl) as (H1 & _ & _ & _ & H2);
    [repeat constructor; done|repeat constructor; done|]. split; [exact H2|exact H1].
Defined.

(** Tables of flags.  The tables of the configuration are in alphabetical
    order, and for any table that is, the bisection ends, stays inside the table
    and gives the value of the entry with exactly the name, or 0 if there is
    none. *)
Theorem nv_find_by_name_correct cmd table :
  cstr cmd → table_ok table ∨ table ∈ [ListenerFlags; LinkOutgoingFlags; LinkFlags; TLSFlags] →
  ∃ r, do_nv_find_by_name table cmd (length table) = Ok r ∧
    ((r, cmd) ∈ table ∨ r = 0 ∧ cmd ∉ table.*2).
Proof.
  intros Hc Ht. assert (table_ok table) as Hok by (destruct Ht as [|Ht]; [done|]; revert table Ht; apply Forall_forall, conf_tables_ok).
  destruct (nv_find_spec table cmd Hok Hc) as (r & Hr & [[k Hk]|[-> Hno]]); exists r || exists 0; (split; [done|]).
  - left. by eapply list_elem_of_lookup_2.
  - right. split; [done|]. intros Hin. apply list_elem_of_fmap in Hin as ([v n] & -> & Hin).
    apply list_elem_of_lookup_1 in Hin as [k Hk]. by apply (Hno k v).
Qed.

Lemma nv_find_by_name_witness :
  do_nv_find_by_name ListenerFlags (bs "tls") 6 = Ok 0x10 ∧
  ∃ r, do_nv_find_by_name ListenerFlags (bs "TLS") 6 = Ok r ∧ ((r, bs "TLS") ∈ ListenerFlags ∨ r = 0 ∧ bs "TLS" ∉ ListenerFlags.*2).
Proof.
  split; [vm_compute; reflexivity|]. apply (nv_find_by_name_correct (bs "TLS") ListenerFlags).
  - repeat constructor; done.
  - right. left.
Defined.
