(* ===== verification/ConfPre.v ===== *)
(** * The preprocessor of the configuration (src/conf_preprocessor.c)

    Lines of a configuration file that start with an at sign: @define, @if,
    @else, @endif, @error and @warning; the conditions of @if and how they are
    resolved, in three phases, against defines, modules, files and the
    environment; and the variables in names and values.  What the operating
    system says (the environment, which files exist) and the table of modules are
    fields of [env]. *)

From stdpp Require Import base tactics list numbers strings sorting.
From Stdlib Require Import ZArith Lia.
From S2P Require Import Prelude Chars Support Match NameLists.

Local Open Scope Z_scope.

Abbreviation DQUOTE := 34 (only parsing).
Abbreviation DOLLAR := 36 (only parsing).

Inductive ConfigIfCondition :=
| IF_DEFINED | IF_VALUE | IF_MODULE_LOADED | IF_MODULE_EXISTS | IF_MINIMUM_VERSION
| IF_FILE_EXISTS | IF_ENVIRONMENT | IF_MODULE_VERSION.
Inductive CompareOp := COMPARE_EQ | COMPARE_NE | COMPARE_GT | COMPARE_GE | COMPARE_LT | COMPARE_LE.
#[global] Instance ConfigIfCondition_eq_dec : EqDecision ConfigIfCondition.
Proof. solve_decision. Defined.
#[global] Instance CompareOp_eq_dec : EqDecision CompareOp.
Proof. solve_decision. Defined.

Record ConditionalConfig := CC {
  cc_priority : Z;
  cc_condition : ConfigIfCondition;
  cc_negative : bool;
  cc_compare_op : CompareOp;
  cc_had_else : bool;
  cc_name : list Z;
  cc_opt : option (list Z)
}.

Inductive PreprocessorItem :=
| PREPROCESSOR_ERROR | PREPROCESSOR_DEFINE | PREPROCESSOR_IF | PREPROCESSOR_ENDIF | PREPROCESSOR_ELSE
| PREPROCESSOR_USER_ERROR | PREPROCESSOR_USER_WARNING.
Inductive PreprocessorPhase :=
| PREPROCESSOR_PHASE_INITIAL | PREPROCESSOR_PHASE_SECONDARY | PREPROCESSOR_PHASE_MODULE.

Record Module := MkModule { mod_relpath : list Z; mod_flags : Z; mod_version : option (list Z) }.

(** What the code asks about its surroundings. *)
Record env := Env {
  getenv : list Z → option (list Z);
  file_exists : list Z → bool;
  Modules : list Module;
  config_status : Z;
  conf_blacklist_module : list (list Z);
  VERSIONONLY : list Z;
  MODULESDIR : list Z;
  CONFDIR : list Z
}.

Definition MODFLAG_LOADED : Z := 1.
Definition MODFLAG_DELAYED : Z := 8.
Definition CONFIG_STATUS_POSTTEST : Z := 2.
Definition CONFIG_STATUS_LOAD : Z := 6.

(** ** Text *)

(** strncmp(s, word, strlen(word)) == 0 *)
Definition starts_with (word s : list Z) : bool := bool_decide (take (length word) s = word).

Definition skip_whitespace (p : list Z) : list Z := drop_while (λ c, (c =? SPACE_CH) || (c =? TAB)) p.

(** What is read and where the pointer stops. *)
Definition read_until (p stopchars : list Z) : list Z * list Z :=
  let P := λ c, negb (bool_decide (c ∈ stopchars)) in (take_while P p, drop_while P p).

(** strstr(s, word) != NULL *)
Fixpoint strstr (s word : list Z) : bool :=
  starts_with word s || match s with [] => false | _ :: r => strstr r word end.

Definition ValidVarCharacter (x : Z) : bool := isupper x || isdigit x || (x =? UNDERSCORE) || (x =? 0).

(** ** Modules and paths (src/modules.c, src/conf.c) *)

(** The module is one that counts for the new configuration. *)
Definition skip_module (e : env) (m : Module) : bool :=
  negb (Z.land (mod_flags m) MODFLAG_DELAYED =? 0) ||
  ((config_status e <? CONFIG_STATUS_LOAD) && (CONFIG_STATUS_POSTTEST <=? config_status e) &&
   (mod_flags m =? MODFLAG_LOADED)).

Definition find_testing_module (e : env) (name : list Z) : option Module :=
  find (λ m, negb (skip_module e m) && (strcasecmp (mod_relpath m) name =? 0)) (Modules e).

Definition is_module_loaded (e : env) (name : list Z) : bool :=
  existsb (λ m, negb (skip_module e m) && (strcasecmp (mod_relpath m) name =? 0)) (Modules e).

Definition Module_TransformPath (e : env) (path_ : list Z) : list Z :=
  let path :=
    if negb (deref path_ =? SLASH) && negb (deref path_ =? BSLASH) &&
       negb (negb (deref path_ =? 0) && (deref (drop 1 path_) =? COLON))
    then take 1023 (MODULESDIR e ++ [SLASH] ++ path_)
    else take 1023 path_ in
  if negb (strstr path (bs ".so")) then fst (Strl.strlcat path (bs ".so") 1024) else path.

Definition is_blacklisted_module (e : env) (name : list Z) : res bool :=
  let path := Module_TransformPath e name in
  (fix go (l : list (list Z)) : res bool :=
     match l with
     | [] => Ok false
     | m :: r =>
         let! a := match_simple m name in
         let! b := if a : bool then Ok true else match_simple m path in
         if b : bool then Ok true else go r
     end) (conf_blacklist_module e).

Definition convert_to_absolute_path (path reldir : list Z) : list Z :=
  if bool_decide (path = []) then path
  else if strstr path (bs "://") then path
  else if (deref path =? SLASH) || (deref path =? BSLASH) then path
  else if starts_with reldir path then path
  else reldir ++ [SLASH] ++ path.

(** ** Conditions *)

Definition if_functions : list (list Z * ConfigIfCondition * bool) :=
  [(bs "module-loaded", IF_MODULE_LOADED, false); (bs "module-exists", IF_MODULE_EXISTS, false);
   (bs "minimum-version", IF_MINIMUM_VERSION, false); (bs "file-exists", IF_FILE_EXISTS, false);
   (bs "module-version", IF_MODULE_VERSION, true); (bs "environment", IF_ENVIRONMENT, true);
   (bs "defined", IF_DEFINED, false)].

(** The first function whose name the text starts with. *)
Definition find_if_function (p : list Z) : option (list Z * ConfigIfCondition * bool) :=
  find (λ f, starts_with f.1.1 p) if_functions.

Definition compare_op_of (p : list Z) : option (CompareOp * nat) :=
  if starts_with (bs "==") p then Some (COMPARE_EQ, 2%nat)
  else if starts_with (bs "!=") p then Some (COMPARE_NE, 2%nat)
  else if starts_with (bs ">=") p then Some (COMPARE_GE, 2%nat)
  else if starts_with (bs "<=") p then Some (COMPARE_LE, 2%nat)
  else if deref p =? MORE then Some (COMPARE_GT, 1%nat)
  else if deref p =? LESS then Some (COMPARE_LT, 1%nat)
  else None.

Definition parse_compare_op_and_value (p : list Z) : option (CompareOp * list Z) :=
  let p := skip_whitespace p in
  match compare_op_of p with
  | None => None
  | Some (op, op_len) =>
      let p := skip_whitespace (drop op_len p) in
      if deref p =? DQUOTE then
        match read_until (drop 1 p) [DQUOTE] with
        | (_, []) => None
        | (v, _) => Some (op, v)
        end
      else Some (op, fst (read_until p [SPACE_CH; TAB]))
  end.

(** The argument of a function, and the text from its terminator on. *)
Definition function_argument (p : list Z) : option (list Z * list Z) :=
  let p := skip_whitespace p in
  if negb (deref p =? LPAREN) then None
  else
    let p := skip_whitespace (drop 1 p) in
    let p := if deref p =? DQUOTE then drop 1 p else p in
    match read_until p [RPAREN; DQUOTE] with
    | (_, []) => None
    | r => Some r
    end.

Definition parse_if_function (p : list Z) (condition : ConfigIfCondition) (negative returns_value : bool)
  : option ConditionalConfig :=
  match function_argument p with
  | None => None
  | Some (name, p) =>
      if negb returns_value then Some (CC 0 condition negative COMPARE_EQ false name None)
      else
        let p := drop 1 p in
        let p := if deref p =? RPAREN then drop 1 p else p in
        let p := skip_whitespace p in
        if deref p =? 0 then Some (CC 0 condition negative COMPARE_EQ false name None)
        else if negative then None
        else match parse_compare_op_and_value p with
             | None => None
             | Some (op, value) => Some (CC 0 condition negative op false name (Some value))
             end
  end.

(** [evaluate_preprocessor_if]: the condition, or [None] for
    PREPROCESSOR_ERROR. *)
Definition evaluate_preprocessor_if (statement : list Z) : option ConditionalConfig :=
  let p := skip_whitespace statement in
  let p := if deref p =? AT then drop 1 p else p in
  let '(negative, p) := if deref p =? BANG then (true, skip_whitespace (drop 1 p)) else (false, p) in
  match find_if_function p with
  | Some (kw, condition, rv) => parse_if_function (drop (length kw) p) condition negative rv
  | None =>
      if negb (deref p =? DOLLAR) then None
      else if negative then None
      else match read_until (drop 1 p) [SPACE_CH; TAB; EQUAL; BANG; LESS; MORE] with
           | (_, []) => None
           | (name, p) =>
               match parse_compare_op_and_value p with
               | None => None
               | Some (op, value) => Some (CC 0 IF_VALUE false op false name (Some value))
               end
           end
  end.

(** ** Defines *)

Abbreviation defines := (list NameValuePrioList).

Definition resolve_define_function (e : env) (p : list Z) : option (list Z) :=
  match find_if_function p with
  | None => None
  | Some (kw, condition, false) => None
  | Some (kw, condition, true) =>
      match function_argument (drop (length kw) p) with
      | None => None
      | Some (arg, _) =>
          match condition with
          | IF_ENVIRONMENT => getenv e arg
          | IF_MODULE_VERSION => match find_testing_module e arg with Some m => mod_version m | None => None end
          | _ => None
          end
      end
  end.

(** [evaluate_preprocessor_define]: the new defines, or [None] for
    PREPROCESSOR_ERROR. *)
Definition evaluate_preprocessor_define (e : env) (config_defines : defines) (statement : list Z) : option defines :=
  match read_until (skip_whitespace statement) [SPACE_CH; TAB] with
  | (_, []) => None
  | (name, p) =>
      let p := skip_whitespace p in
      let value := if deref p =? DQUOTE then
                     match read_until (drop 1 p) [DQUOTE] with
                     | (_, []) => None
                     | (v, _) => Some v
                     end
                   else resolve_define_function e p in
      match value with
      | None => None
      | Some value =>
          if negb (deref name =? DOLLAR) then None
          else if negb (forallb ValidVarCharacter (drop 1 name)) then None
          else if (512 <? length value)%nat then None
          else Some (add_nvplist config_defines 0 (drop 1 name) (Some value))
      end
  end.

(** [parse_preprocessor_item]: [line] is the text from [start] to [end]. *)
Definition parse_preprocessor_item (e : env) (config_defines : defines) (line : list Z)
  : PreprocessorItem * option ConditionalConfig * defines :=
  let max := if (512 <? length line + 1)%nat then 512%nat else (length line + 1)%nat in
  let buf := fst (Strl.strlcpy [] line max) in
  if starts_with (bs "@define") buf then
    match evaluate_preprocessor_define e config_defines (drop 7 buf) with
    | None => (PREPROCESSOR_ERROR, None, config_defines)
    | Some d => (PREPROCESSOR_DEFINE, None, d)
    end
  else if starts_with (bs "@if ") buf then
    match evaluate_preprocessor_if (drop 4 buf) with
    | None => (PREPROCESSOR_ERROR, None, config_defines)
    | Some cc => (PREPROCESSOR_IF, Some cc, config_defines)
    end
  else if starts_with (bs "@else") buf then (PREPROCESSOR_ELSE, None, config_defines)
  else if starts_with (bs "@endif") buf then (PREPROCESSOR_ENDIF, None, config_defines)
  else if starts_with (bs "@error ") buf then (PREPROCESSOR_USER_ERROR, None, config_defines)
  else if starts_with (bs "@warning ") buf then (PREPROCESSOR_USER_WARNING, None, config_defines)
  else (PREPROCESSOR_ERROR, None, config_defines).

Definition find_config_define (config_defines : defines) (name : list Z) : option NameValuePrioList :=
  find_nvplist config_defines name.
Definition get_config_define (config_defines : defines) (name : list Z) : option (list Z) :=
  match find_nvplist config_defines name with Some e => nv_value e | None => None end.

(** [init_config_defines]: [build] gives the constants of the build that are not
    fields of [env], by name. *)
Definition init_config_defines (e : env) (build : list Z → list Z) : defines :=
  let add l name value := add_nvplist l 0 name (Some value) in
  let const l name := add l name (build name) in
  let l := add [] (bs "UNREALIRCD_VERSION") (VERSIONONLY e) in
  let l := const l (bs "UNREALIRCD_VERSION_GENERATION") in
  let l := const l (bs "UNREALIRCD_VERSION_MAJOR") in
  let l := const l (bs "UNREALIRCD_VERSION_MINOR") in
  let l := const l (bs "UNREALIRCD_VERSION_SUFFIX") in
  let l := const l (bs "GEOIP_ENGINE") in
  let l := add l (bs "CONFDIR") (CONFDIR e) in
  let l := const l (bs "DATADIR") in
  let l := const l (bs "LOGDIR") in
  let l := const l (bs "TMPDIR") in
  let l := const l (bs "DOCDIR") in
  let l := add l (bs "MODULESDIR") (MODULESDIR e) in
  const l (bs "MAXCONNECTIONS").

(** ** The list of conditions *)

Definition preprocessor_cc_free_level (cc_list : list ConditionalConfig) (level : Z) : list ConditionalConfig :=
  filter (λ cc, cc_priority cc < level) cc_list.

(** Every copy is put at the head of the new list. *)
Definition preprocessor_cc_duplicate_list (r : list ConditionalConfig) : list ConditionalConfig :=
  foldl (λ out cc, cc :: out) [] r.

Definition compare_result (op : CompareOp) (cmp : Z) : bool :=
  match op with
  | COMPARE_EQ => cmp =? 0
  | COMPARE_NE => negb (cmp =? 0)
  | COMPARE_GT => 0 <? cmp
  | COMPARE_GE => 0 <=? cmp
  | COMPARE_LT => cmp <? 0
  | COMPARE_LE => cmp <=? 0
  end.

(** strnatcasecmp of a value that may be NULL, and the operator. *)
Definition compare_value (value : option (list Z)) (cc : ConditionalConfig) : res bool :=
  match value, cc_opt cc with
  | Some v, Some opt => let! cmp := Natcmp.strnatcasecmp v opt in Ok (compare_result (cc_compare_op cc) cmp)
  | _, _ => UB
  end.

(** One condition, before [negative]. *)
Definition resolve_one (e : env) (config_defines : defines) (phase : PreprocessorPhase) (cc : ConditionalConfig)
  : res bool :=
  let name := cc_name cc in
  match cc_condition cc with
  | IF_MODULE_LOADED =>
      match phase with
      | PREPROCESSOR_PHASE_INITIAL => Ok true
      | PREPROCESSOR_PHASE_SECONDARY => let! b := is_blacklisted_module e name in Ok (negb b)
      | PREPROCESSOR_PHASE_MODULE => Ok (is_module_loaded e name)
      end
  | IF_MODULE_VERSION =>
      match phase with
      | PREPROCESSOR_PHASE_INITIAL | PREPROCESSOR_PHASE_SECONDARY => Ok true
      | PREPROCESSOR_PHASE_MODULE =>
          match find_testing_module e name with
          | Some (MkModule _ _ (Some v)) =>
              match cc_opt cc with Some _ => compare_value (Some v) cc | None => Ok true end
          | _ => Ok false
          end
      end
  | IF_MODULE_EXISTS => Ok (file_exists e (Module_TransformPath e name))
  | IF_MINIMUM_VERSION => let! cmp := Natcmp.strnatcasecmp (VERSIONONLY e) name in Ok (0 <=? cmp)
  | IF_FILE_EXISTS => Ok (file_exists e (convert_to_absolute_path name (CONFDIR e)))
  | IF_DEFINED => Ok (bool_decide (is_Some (find_config_define config_defines name)))
  | IF_ENVIRONMENT =>
      match getenv e name with
      | None => Ok false
      | Some v => match cc_opt cc with Some _ => compare_value (Some v) cc | None => Ok true end
      end
  | IF_VALUE =>
      match find_config_define config_defines name with
      | None => Ok false
      | Some d => compare_value (nv_value d) cc
      end
  end.

Fixpoint preprocessor_resolve_if (e : env) (config_defines : defines) (phase : PreprocessorPhase)
    (ccs : list ConditionalConfig) : res bool :=
  match ccs with
  | [] => Ok true
  | cc :: r =>
      let! result := resolve_one e config_defines phase cc in
      let result := if cc_negative cc then negb result else result in
      if negb result then Ok false else preprocessor_resolve_if e config_defines phase r
  end.

(** ** Entries of the configuration *)

Inductive ConfigEntry := CE {
  ce_name : list Z;
  ce_value : option (list Z);
  ce_items : list ConfigEntry;
  ce_line_number : Z;
  ce_position_start : nat;
  ce_position_end : nat;
  ce_section_linenumber : Z;
  ce_conditional_config : list ConditionalConfig;
  ce_escaped : bool
}.

Definition set_items (items : list ConfigEntry) (ce : ConfigEntry) : ConfigEntry :=
  CE (ce_name ce) (ce_value ce) items (ce_line_number ce) (ce_position_start ce) (ce_position_end ce)
     (ce_section_linenumber ce) (ce_conditional_config ce) (ce_escaped ce).

(** Remove the entries whose conditions do not hold, at all levels. *)
Fixpoint resolve_entry (e : env) (config_defines : defines) (phase : PreprocessorPhase) (ce : ConfigEntry)
  : res (list ConfigEntry) :=
  let! keep := preprocessor_resolve_if e config_defines phase (ce_conditional_config ce) in
  if negb keep then Ok []
  else
    let! items := (fix go (l : list ConfigEntry) : res (list ConfigEntry) :=
       match l with
       | [] => Ok []
       | c :: r => let! a := resolve_entry e config_defines phase c in let! b := go r in Ok (a ++ b)
       end) (ce_items ce) in
    Ok [set_items items ce].

Fixpoint preprocessor_resolve_conditionals_ce (e : env) (config_defines : defines) (phase : PreprocessorPhase)
    (ce_list : list ConfigEntry) : res (list ConfigEntry) :=
  match ce_list with
  | [] => Ok []
  | ce :: r =>
      let! a := resolve_entry e config_defines phase ce in
      let! b := preprocessor_resolve_conditionals_ce e config_defines phase r in
      Ok (a ++ b)
  end.

(** ** Variables in names and values *)

Definition REPLACE_BUF : nat := Z.to_nat 4096.

(** One round of the loop of [preprocessor_replace_defines]: [i] is the rest of
    the input, [o] what is in the buffer, [n] the room the code counts. *)
Definition replace_body (config_defines : defines) (st : list Z * list Z * Z)
  : res (step (list Z * list Z * Z) (list Z)) :=
  let '(i, o, n) := st in
  match i with
  | [] => Ok (Done o)
  | c :: r =>
      if negb (c =? DOLLAR) then
        let! _ := require (length o <? REPLACE_BUF)%nat in
        let o := o ++ [c] in
        let n := n - 1 in
        if n =? 0 then Ok (Done o) else Ok (Next (r, o, n))
      else
        let varend := drop_while (λ c, negb (c =? 0) && ValidVarCharacter c) r in
        let limit := (length r - length varend + 2)%nat in
        let limit := if (512 <? limit)%nat then 512%nat else limit in
        let varname := fst (Strl.strlcpy [] i limit) in
        let '(value, i) :=
          if deref r =? DOLLAR then (varname, drop 1 r)
          else (default varname (get_config_define config_defines (drop 1 varname)), varend) in
        let limit := Z.of_nat (length value) + 1 in
        let limit := if n <? limit then n else limit in
        let! _ := require (Z.of_nat (length o) + limit <=? Z.of_nat REPLACE_BUF) in
        let o := o ++ fst (Strl.strlcpy [] value (Z.to_nat limit)) in
        let n := n - limit in
        if n =? 0 then Ok (Done o)
        else if bool_decide (varend = []) then Ok (Done o)
        else Ok (Next (i, o, n))
  end.

Definition preprocessor_replace_defines (config_defines : defines) (item : list Z) : res (list Z) :=
  if negb (bool_decide (DOLLAR ∈ item)) then Ok item
  else
    let! o := loop (replace_body config_defines) (S (length item)) (item, [], Z.of_nat REPLACE_BUF - 2) in
    let! _ := require (length o <? REPLACE_BUF)%nat in
    Ok o.

(** ** Theory: variables *)

Abbreviation var_char := (λ c : Z, negb (c =? 0) && ValidVarCharacter c).

(** The value of a variable, or its name if it has none; of a name, 510
    characters count. *)
Definition var_value (d : defines) (v : list Z) : list Z :=
  default (DOLLAR :: take 510 v) (get_config_define d (take 510 v)).

(** What a text means: two dollar signs are one, a name behind a dollar sign is a
    variable. *)
Inductive expands (d : defines) : list Z → list Z → Prop :=
| expands_nil : expands d [] []
| expands_char c r t : c ≠ DOLLAR → expands d r t → expands d (c :: r) (c :: t)
| expands_dollar r t : expands d r t → expands d (DOLLAR :: DOLLAR :: r) (DOLLAR :: t)
| expands_var v r t :
    Forall (λ c, var_char c = true) v → var_char (deref r) = false → (v = [] → deref r ≠ DOLLAR) →
    expands d r t → expands d (DOLLAR :: v ++ r) (var_value d v ++ t).

Lemma var_char_dollar : var_char DOLLAR = false.
Proof. reflexivity. Qed.

Lemma drop_while_deref (P : Z → bool) (s : list Z) :
  P 0 = false → P (deref (drop_while P s)) = false.
Proof.
  intros H0. destruct (drop_while P s) as [|c r] eqn:E; [done|]. simpl. by eapply drop_while_head.
Qed.

Lemma strlcpy_take src size : (0 < size)%nat → fst (Strl.strlcpy [] src size) = take (size - 1) src.
Proof.
  intros H. unfold Strl.strlcpy. destruct (Nat.leb_spec size 0); [lia|]. simpl.
  destruct (Nat.leb_spec size (length src)); simpl; [done|]. rewrite !take_ge by lia. done.
Qed.

(** The name that is looked up. *)
Lemma varname_take r :
  let varend := drop_while var_char r in
  let limit := (length r - length varend + 2)%nat in
  let limit := if (512 <? limit)%nat then 512%nat else limit in
  fst (Strl.strlcpy [] (DOLLAR :: r) limit) = DOLLAR :: take 510 (take_while var_char r).
Proof.
  intros varend limit lim. pose proof (take_drop_while var_char r) as E. fold varend in E.
  assert (length r = (length (take_while var_char r) + length varend)%nat) as El by (rewrite <-E at 1; apply length_app).
  rewrite strlcpy_take by (unfold lim, limit; destruct (_ <? _)%nat; lia).
  assert (lim - 1 = S (Nat.min 510 (length (take_while var_char r))))%nat as ->.
  { unfold lim, limit. destruct (Nat.ltb_spec 512 (length r - length varend + 2)); lia. }
  rewrite firstn_cons. f_equal. rewrite <-take_take. f_equal. rewrite <-E at 2. apply take_app_length.
Qed.

Definition dollars (s : list Z) : nat := length (filter (λ c, c = DOLLAR) s).

(** One variable is copied: all of it, or what there is room for. *)
Lemma copy_value (value : list Z) (n : Z) :
  1 ≤ n →
  let limit := if n <? Z.of_nat (length value) + 1 then n else Z.of_nat (length value) + 1 in
  1 ≤ limit ≤ n ∧ fst (Strl.strlcpy [] value (Z.to_nat limit)) `prefix_of` value ∧
  Z.of_nat (length (fst (Strl.strlcpy [] value (Z.to_nat limit)))) ≤ limit - 1 ∧
  (n - limit ≠ 0 → limit = Z.of_nat (length value) + 1 ∧ fst (Strl.strlcpy [] value (Z.to_nat limit)) = value) ∧
  (Z.of_nat (length value) < n → fst (Strl.strlcpy [] value (Z.to_nat limit)) = value).
Proof.
  intros Hn limit. assert (1 ≤ limit ≤ n) as Hl by (unfold limit; destruct (Z.ltb_spec n (Z.of_nat (length value) + 1)); lia).
  split; [done|]. rewrite strlcpy_take by lia. split; [apply prefix_take|]. split; [rewrite length_take; lia|].
  split; intros H; unfold limit in *; destruct (Z.ltb_spec n (Z.of_nat (length value) + 1)); try lia.
  - split; [done|]. apply take_ge. lia.
  - apply take_ge. lia.
Qed.

Lemma dollars_drop_while (P : Z → bool) r : (dollars (drop_while P r) ≤ dollars r)%nat.
Proof.
  rewrite <-(take_drop_while P r) at 2. unfold dollars. rewrite filter_app, length_app. lia.
Qed.

(** What is read behind a dollar sign: the text it stands for, and the rest. *)
Lemma read_variable d r :
  cstr r →
  let v := take_while var_char r in
  let q := drop_while var_char r in
  ∃ value i', (if deref r =? DOLLAR then (DOLLAR :: take 510 v, drop 1 r)
      else (default (DOLLAR :: take 510 v) (get_config_define d (drop 1 (DOLLAR :: take 510 v))), q)) = (value, i') ∧
    cstr i' ∧ (length i' ≤ length r)%nat ∧ (dollars i' ≤ dollars r)%nat ∧ (q = [] → i' = []) ∧
    ∀ t, expands d i' t → expands d (DOLLAR :: r) (value ++ t).
Proof.
  intros Hr v q. assert (r = v ++ q) as Er by (symmetry; apply take_drop_while).
  destruct (Z.eqb_spec (deref r) DOLLAR) as [E|E]; eexists _, _; (split; [done|]).
  - destruct r as [|x r]; [done|]. simpl in E. subst x. apply cstr_cons_inv in Hr as [_ Hr].
    change (drop 1 (DOLLAR :: r)) with r.
    split_and!; [done|simpl; lia|unfold dollars; rewrite filter_cons_True by done; simpl; lia|done|].
    intros t Ht. subst v. simpl. by constructor.
  - split_and!; [by apply (Forall_app cchar v q); rewrite <-Er|apply drop_while_length|apply dollars_drop_while|done|].
    intros t Ht. rewrite Er at 1. constructor; [apply take_while_Forall|by apply (drop_while_deref var_char)| |done].
    intros Hv. by rewrite Er, Hv in E.
Qed.

Lemma replace_loop d fuel i o n :
  cstr i → (length i < fuel)%nat → 1 ≤ n → Z.of_nat (length o) + n ≤ 4094 →
  ∃ t t', loop (replace_body d) fuel (i, o, n) = Ok (o ++ t') ∧ expands d i t ∧ t' `prefix_of` t ∧
    (length (o ++ t') < REPLACE_BUF)%nat ∧ (Z.of_nat (length t + dollars i) < n → t' = t).
Proof.
  revert i o n. induction fuel as [|fuel IH]; intros i o n Hc Hf Hn Ho; [lia|]. cbn [loop].
  destruct i as [|c r].
  { exists [], []. cbn. rewrite app_nil_r. split_and!; try done; [constructor|unfold REPLACE_BUF; lia]. }
  apply cstr_cons_inv in Hc as [Hcc Hr]. cbn [replace_body]. destruct (Z.eqb_spec c DOLLAR) as [->|Hd]; simpl negb; cbv iota.
  2:{ rewrite (proj2 (Nat.ltb_lt _ _)) by (unfold REPLACE_BUF; lia). cbn [require rbind].
      destruct (Z.eqb_spec (n - 1) 0).
      - destruct (IH r o 1 Hr) as (t & _ & _ & Ht & _); [simpl in Hf; lia|lia|lia|].
        exists (c :: t), [c]. split; [done|]. split; [by constructor|]. split; [apply prefix_cons, prefix_nil|].
        rewrite length_app. simpl. split; [unfold REPLACE_BUF; lia|]. lia.
      - destruct (IH r (o ++ [c]) (n - 1) Hr) as (t & t' & E & Ht & Hp & Hl & Hall);
          [simpl in Hf; lia|lia|rewrite length_app; simpl; lia|].
        exists (c :: t), (c :: t'). rewrite <-app_assoc in E, Hl. split; [exact E|]. split; [by constructor|].
        split; [by apply prefix_cons|]. split; [done|]. unfold dollars. rewrite filter_cons_False by done. simpl length.
        fold (dollars r). intros. f_equal. apply Hall. lia. }
  rewrite varname_take. set (v := take_while var_char r). set (q := drop_while var_char r).
  destruct (read_variable d r Hr) as (value & i' & Ev & Hi' & Hl' & Hd' & Hq & Hex). fold v q in Ev, Hq. rewrite Ev. clear Ev.
  destruct (copy_value value n Hn) as (Hlim & Hpre & Hcl & Hfull & Hfit). cbv zeta.
  set (limit := if n <? Z.of_nat (length value) + 1 then n else Z.of_nat (length value) + 1) in *.
  set (copied := fst (Strl.strlcpy [] value (Z.to_nat limit))) in *.
  rewrite (proj2 (Z.leb_le _ _)) by (unfold REPLACE_BUF; lia). cbn [require rbind].
  assert (dollars (DOLLAR :: r) = S (dollars r)) as Hdr by (unfold dollars; by rewrite filter_cons_True).
  destruct (Z.eqb_spec (n - limit) 0) as [En|En].
  - destruct (IH i' o 1 Hi') as (t & _ & _ & Ht & _); [simpl in Hf; lia|lia|lia|].
    exists (value ++ t), copied. split; [done|]. split; [by apply Hex|]. split; [by apply prefix_app_r|].
    rewrite !length_app, Hdr. split; [unfold REPLACE_BUF; lia|]. intros Hlt. exfalso.
    unfold limit in En. destruct (Z.ltb_spec n (Z.of_nat (length value) + 1)); lia.
  - destruct (Hfull En) as [El Ecp]. rewrite Ecp in *. destruct (bool_decide_reflect (q = [])) as [Eq|Eq].
    + exists (value ++ []), value. split; [done|]. rewrite (Hq Eq) in Hex. split; [apply Hex; constructor|].
      rewrite app_nil_r, length_app. split; [done|]. split; [unfold REPLACE_BUF; lia|done].
    + destruct (IH i' (o ++ value) (n - limit) Hi') as (t & t' & E & Ht & Hp & Hl & Hall);
        [simpl in Hf; lia|lia|rewrite length_app; lia|]. exists (value ++ t), (value ++ t').
      rewrite <-app_assoc in E, Hl. split; [exact E|]. split; [by apply Hex|]. split; [by apply prefix_app|]. split; [done|].
      rewrite length_app, Hdr. intros. f_equal. apply Hall. lia.
Qed.

Lemma expands_plain d s : DOLLAR ∉ s → expands d s s.
Proof.
  induction s as [|c s IH]; intros H; [constructor|]. apply not_elem_of_cons in H as [Hc H].
  constructor; [done|by apply IH].
Qed.

Lemma split_unique (P : Z → bool) v r v' r' :
  P 0 = false → Forall (λ c, P c = true) v → Forall (λ c, P c = true) v' →
  P (deref r) = false → P (deref r') = false → v ++ r = v' ++ r' → v = v' ∧ r = r'.
Proof.
  intros H0 Hv. revert v'. induction Hv as [|x v Hx Hv IH]; intros v' Hv' Hr Hr' E.
  - destruct Hv' as [|y v' Hy]; [done|]. simpl in E. subst r. simpl in Hr. congruence.
  - destruct Hv' as [|y v' Hy Hv']; simpl in E; [subst r'; simpl in Hr'; congruence|].
    injection E as -> E. destruct (IH v' Hv' Hr Hr' E) as [-> ->]. done.
Qed.

(** The meaning of a text is unique. *)
Lemma expands_fun d s t t' : expands d s t → expands d s t' → t = t'.
Proof.
  intros H. revert t'. induction H as [|c r t Hc H IH|r t H IH|v r t Hv Hr Hne H IH]; intros t' H'.
  - by inversion H'.
  - inversion H'; simplify_eq. f_equal. by apply IH.
  - inversion H' as [| |? ? H2|v r' t2 Hv Hr Hne H2 E]; simplify_eq; [f_equal; by apply IH|].
    destruct Hv as [|x v Hx Hv]; [simpl in E; subst r'; by specialize (Hne eq_refl)|].
    simpl in E. injection E as -> _. done.
  - inversion H' as [|? ? ? Hd|r2 t2 H2 E|v2 r2 t2 Hv2 Hr2 Hne2 H2 E]; simplify_eq.
    + destruct Hv as [|x v Hx Hv]; simpl in E; [subst r; by specialize (Hne eq_refl)|].
      injection E as <- _. done.
    + destruct (split_unique var_char v2 r2 v r) as [-> ->]; try done. f_equal. by apply IH.
Qed.

(** ** Theory: conditions *)

Definition value_of (e : env) (d : defines) (phase : PreprocessorPhase) (cc : ConditionalConfig) : bool :=
  match resolve_one e d phase cc with
  | Ok b => if cc_negative cc then negb b else b
  | _ => false
  end.

(** Every condition of the entry, and of the entries in it, can be decided. *)
Fixpoint decided (e : env) (d : defines) (phase : PreprocessorPhase) (ce : ConfigEntry) : Prop :=
  Forall (λ cc, ∃ b, resolve_one e d phase cc = Ok b) (ce_conditional_config ce) ∧
  (fix go (l : list ConfigEntry) : Prop := match l with [] => True | c :: r => decided e d phase c ∧ go r end) (ce_items ce).

(** The entries whose conditions hold, at all levels. *)
Fixpoint prune (keep : list ConditionalConfig → bool) (ce : ConfigEntry) : list ConfigEntry :=
  if keep (ce_conditional_config ce) then [set_items (flat_map (prune keep) (ce_items ce)) ce] else [].

Section EntryInd.
Variable P : ConfigEntry → Prop.
Hypothesis step : ∀ ce, Forall P (ce_items ce) → P ce.
Fixpoint ConfigEntry_ind2 (ce : ConfigEntry) : P ce :=
  step ce ((fix go (l : list ConfigEntry) : Forall P l :=
    match l with
    | [] => Forall_nil_2 _
    | c :: r => Forall_cons_2 _ _ _ (ConfigEntry_ind2 c) (go r)
    end) (ce_items ce)).
End EntryInd.

Lemma resolve_if_values e d phase ccs :
  Forall (λ cc, ∃ b, resolve_one e d phase cc = Ok b) ccs →
  preprocessor_resolve_if e d phase ccs = Ok (forallb (value_of e d phase) ccs).
Proof.
  induction 1 as [|cc ccs [b Hb] _ IH]; simpl; [done|]. rewrite Hb. cbn [rbind].
  assert (value_of e d phase cc = if cc_negative cc then negb b else b) as -> by (unfold value_of; by rewrite Hb).
  destruct (if cc_negative cc then negb b else b); simpl; [apply IH|done].
Qed.

Lemma decided_items e d phase l :
  (fix go (l : list ConfigEntry) : Prop := match l with [] => True | c :: r => decided e d phase c ∧ go r end) l ↔
  Forall (decided e d phase) l.
Proof.
  induction l as [|c l IH]; [split; [constructor|done]|]. rewrite IH.
  split; [by intros [? ?]; constructor|by inversion 1].
Qed.

Lemma resolve_list_prune e d phase l :
  Forall (λ ce, decided e d phase ce →
    resolve_entry e d phase ce = Ok (prune (forallb (value_of e d phase)) ce)) l →
  Forall (decided e d phase) l →
  preprocessor_resolve_conditionals_ce e d phase l = Ok (flat_map (prune (forallb (value_of e d phase))) l).
Proof.
  induction 1 as [|c l Hc _ IH]; intros Hd; simpl; [done|]. inversion Hd; subst.
  rewrite Hc by done. cbn [rbind]. rewrite IH by done. done.
Qed.

Lemma resolve_entry_unfold e d phase ce :
  resolve_entry e d phase ce =
    let! keep := preprocessor_resolve_if e d phase (ce_conditional_config ce) in
    if negb keep then Ok []
    else let! items := preprocessor_resolve_conditionals_ce e d phase (ce_items ce) in Ok [set_items items ce].
Proof.
  destruct ce as [n v items ln p1 p2 sl ccs esc]. cbn [resolve_entry ce_conditional_config ce_items].
  destruct (preprocessor_resolve_if e d phase ccs) as [[]| |]; try done. cbn [rbind negb].
  f_equal. induction items as [|c items IH]; [done|]. cbn [preprocessor_resolve_conditionals_ce]. by rewrite IH.
Qed.

Lemma resolve_entry_prune e d phase ce :
  decided e d phase ce → resolve_entry e d phase ce = Ok (prune (forallb (value_of e d phase)) ce).
Proof.
  induction ce as [ce IH] using ConfigEntry_ind2. destruct ce as [n v items ln p1 p2 sl ccs esc].
  intros [Hc Hi]. apply decided_items in Hi. rewrite resolve_entry_unfold.
  cbn [prune ce_conditional_config ce_items] in *. rewrite resolve_if_values by done. cbn [rbind]. destruct (forallb (value_of e d phase) ccs); simpl negb; cbv iota; [|done].
  by rewrite (resolve_list_prune e d phase items IH Hi).
Qed.

Lemma prune_prune keep ce : flat_map (prune keep) (prune keep ce) = prune keep ce.
Proof.
  induction ce as [ce IH] using ConfigEntry_ind2. destruct ce as [n v items ln p1 p2 sl ccs esc].
  cbn [prune ce_conditional_config ce_items] in *. destruct (keep ccs) eqn:Ek; [|done]. unfold set_items. simpl.
  rewrite Ek. unfold set_items. simpl. do 2 f_equal.
  induction IH as [|c r Hc _ IHr]; simpl; [done|]. by rewrite flat_map_app, Hc, IHr.
Qed.

Lemma decided_prune e d phase keep ce :
  decided e d phase ce → Forall (decided e d phase) (prune keep ce).
Proof.
  induction ce as [ce IH] using ConfigEntry_ind2. destruct ce as [n v items ln p1 p2 sl ccs esc].
  intros [Hc Hi]. apply decided_items in Hi. cbn [prune ce_conditional_config ce_items] in *.
  destruct (keep ccs); [|constructor]. constructor; [|constructor]. split; [done|]. apply decided_items. simpl.
  clear Hc. induction IH as [|c r Hcc _ IHr]; simpl; [constructor|]. inversion Hi; subst.
  apply Forall_app. split; [by apply Hcc|by apply IHr].
Qed.

Lemma resolve_prune e d phase l :
  Forall (decided e d phase) l →
  preprocessor_resolve_conditionals_ce e d phase l = Ok (flat_map (prune (forallb (value_of e d phase))) l).
Proof. intros H. apply resolve_list_prune; [|done]. apply Forall_true. intros. by apply resolve_entry_prune. Qed.

(** Conditional entries.  If every condition can be decided, resolving keeps,
    at every level and in order, exactly the entries all of whose conditions hold;
    doing it again in the same phase changes nothing. *)
Theorem resolve_conditionals_correct e d phase l :
  Forall (decided e d phase) l →
  let kept := flat_map (prune (forallb (value_of e d phase))) l in
  preprocessor_resolve_conditionals_ce e d phase l = Ok kept ∧
  preprocessor_resolve_conditionals_ce e d phase kept = Ok kept.
Proof.
  intros Hl kept. split; [by apply resolve_prune|]. rewrite resolve_prune.
  - f_equal. unfold kept. clear. induction l as [|c l IH]; simpl; [done|]. by rewrite flat_map_app, prune_prune, IH.
  - unfold kept. induction Hl as [|c l Hc _ IH]; simpl; [constructor|].
    apply Forall_app. split; [by apply decided_prune|done].
Qed.

(** Negated conditions on modules.  In the first phase it is not known which
    modules will be loaded, and the condition counts as true, before it is
    negated: an entry under @if !module-loaded(...), or in the @else of
    @if module-loaded(...), is removed then, whatever modules are loaded later. *)
Theorem negated_module_condition_dropped e d ce cc :
  decided e d PREPROCESSOR_PHASE_INITIAL ce → cc ∈ ce_conditional_config ce →
  cc_condition cc = IF_MODULE_LOADED ∨ cc_condition cc = IF_MODULE_VERSION → cc_negative cc = true →
  resolve_entry e d PREPROCESSOR_PHASE_INITIAL ce = Ok [].
Proof.
  intros Hd Hin Hcond Hneg. rewrite resolve_entry_prune by done. f_equal. destruct ce as [n v items ln p1 p2 sl ccs esc].
  cbn [prune ce_conditional_config] in *.
  assert (value_of e d PREPROCESSOR_PHASE_INITIAL cc = false) as Hv.
  { unfold value_of, resolve_one. by destruct Hcond as [-> | ->]; rewrite Hneg. }
  assert (forallb (value_of e d PREPROCESSOR_PHASE_INITIAL) ccs = false) as ->; [|done].
  apply not_true_is_false. rewrite forallb_forall. intros H. apply list_elem_of_In, H in Hin. congruence.
Qed.

(** ** Theory: the text of a condition *)

Definition op_text (op : CompareOp) : list Z :=
  match op with
  | COMPARE_EQ => bs "==" | COMPARE_NE => bs "!=" | COMPARE_GT => bs ">"
  | COMPARE_GE => bs ">=" | COMPARE_LT => bs "<" | COMPARE_LE => bs "<="
  end.
Definition keyword (c : ConfigIfCondition) : list Z :=
  match c with
  | IF_DEFINED => bs "defined" | IF_VALUE => [] | IF_MODULE_LOADED => bs "module-loaded"
  | IF_MODULE_EXISTS => bs "module-exists" | IF_MINIMUM_VERSION => bs "minimum-version"
  | IF_FILE_EXISTS => bs "file-exists" | IF_ENVIRONMENT => bs "environment" | IF_MODULE_VERSION => bs "module-version"
  end.
Definition comparison_text (op : CompareOp) (v : list Z) : list Z :=
  [SPACE_CH] ++ op_text op ++ [SPACE_CH; DQUOTE] ++ v ++ [DQUOTE].
Definition print_cond (cc : ConditionalConfig) : list Z :=
  if bool_decide (cc_condition cc = IF_VALUE) then
    DOLLAR :: cc_name cc ++ comparison_text (cc_compare_op cc) (default [] (cc_opt cc))
  else
    (if cc_negative cc then [BANG] else []) ++ keyword (cc_condition cc) ++ [LPAREN; DQUOTE] ++ cc_name cc ++
    [DQUOTE; RPAREN] ++ match cc_opt cc with None => [] | Some v => comparison_text (cc_compare_op cc) v end.

Record cond_ok (cc : ConditionalConfig) : Prop := {
  co_fresh : cc_priority cc = 0 ∧ cc_had_else cc = false;
  co_name : Forall (λ c, c ∉ if bool_decide (cc_condition cc = IF_VALUE)
                              then [SPACE_CH; TAB; EQUAL; BANG; LESS; MORE] else [RPAREN; DQUOTE]) (cc_name cc);
  co_opt : match cc_opt cc with
           | None => cc_condition cc ≠ IF_VALUE ∧ cc_compare_op cc = COMPARE_EQ
           | Some v => (DQUOTE ∉ v) ∧ cc_negative cc = false ∧
               (cc_condition cc = IF_VALUE ∨ cc_condition cc = IF_ENVIRONMENT ∨ cc_condition cc = IF_MODULE_VERSION)
           end
}.

Lemma read_until_app v c r stop :
  Forall (λ x, x ∉ stop) v → c ∈ stop → read_until (v ++ c :: r) stop = (v, c :: r).
Proof.
  intros Hv Hc. unfold read_until.
  assert (Forall (λ x, negb (bool_decide (x ∈ stop)) = true) v) as H.
  { eapply Forall_impl; [exact Hv|]. intros x Hx. by rewrite bool_decide_eq_false_2. }
  rewrite take_while_app, drop_while_app by done. simpl. rewrite bool_decide_eq_true_2 by done. simpl. by rewrite app_nil_r.
Qed.

Lemma compare_text op v r :
  DQUOTE ∉ v → parse_compare_op_and_value (comparison_text op v ++ r) = Some (op, v).
Proof.
  intros Hv. unfold comparison_text. rewrite <-!app_assoc.
  assert (read_until (v ++ DQUOTE :: r) [DQUOTE] = (v, DQUOTE :: r)) as E.
  { apply read_until_app; [|left]. apply Forall_forall. intros x Hx. rewrite list_elem_of_singleton. by intros ->. }
  unfold parse_compare_op_and_value.
  assert (skip_whitespace ([SPACE_CH] ++ op_text op ++ [SPACE_CH; DQUOTE] ++ v ++ [DQUOTE] ++ r) =
          op_text op ++ [SPACE_CH; DQUOTE] ++ v ++ [DQUOTE] ++ r) as -> by (by destruct op).
  assert (compare_op_of (op_text op ++ [SPACE_CH; DQUOTE] ++ v ++ [DQUOTE] ++ r) = Some (op, length (op_text op))) as ->
    by (by destruct op).
  rewrite drop_app_length.
  change (skip_whitespace ([SPACE_CH; DQUOTE] ++ v ++ [DQUOTE] ++ r)) with (DQUOTE :: v ++ DQUOTE :: r).
  change (drop 1 (DQUOTE :: v ++ DQUOTE :: r)) with (v ++ DQUOTE :: r). rewrite E. done.
Qed.

Lemma function_text name r :
  Forall (λ x, x ∉ [RPAREN; DQUOTE]) name →
  function_argument ([LPAREN; DQUOTE] ++ name ++ [DQUOTE; RPAREN] ++ r) = Some (name, DQUOTE :: RPAREN :: r).
Proof.
  intros H. unfold function_argument.
  change (skip_whitespace ([LPAREN; DQUOTE] ++ name ++ [DQUOTE; RPAREN] ++ r))
    with (LPAREN :: DQUOTE :: name ++ DQUOTE :: RPAREN :: r).
  change (skip_whitespace (drop 1 (LPAREN :: DQUOTE :: name ++ DQUOTE :: RPAREN :: r)))
    with (DQUOTE :: name ++ DQUOTE :: RPAREN :: r).
  change (drop 1 (DQUOTE :: name ++ DQUOTE :: RPAREN :: r)) with (name ++ DQUOTE :: RPAREN :: r).
  change (deref (DQUOTE :: name ++ DQUOTE :: RPAREN :: r) =? DQUOTE) with true. cbv iota.
  rewrite read_until_app; [done|done|right; left].
Qed.

(** What follows the name of a function. *)
Lemma if_function_text cond neg rv name opt op :
  Forall (λ x, x ∉ [RPAREN; DQUOTE]) name →
  match opt with
  | None => op = COMPARE_EQ
  | Some v => (DQUOTE ∉ v) ∧ neg = false ∧ rv = true
  end →
  parse_if_function ([LPAREN; DQUOTE] ++ name ++ [DQUOTE; RPAREN] ++
      match opt with None => [] | Some v => comparison_text op v end) cond neg rv =
    Some (CC 0 cond neg op false name opt).
Proof.
  intros Hn Ho. unfold parse_if_function. rewrite function_text by done. destruct rv; simpl negb; cbv iota.
  - change (drop 1 (DQUOTE :: RPAREN :: ?x)) with (RPAREN :: x). cbv zeta.
    change (deref (RPAREN :: ?x) =? RPAREN) with true. cbv iota. destruct opt as [v|].
    + destruct Ho as (Hv & -> & _). change (drop 1 (RPAREN :: ?x)) with x.
      assert (skip_whitespace (comparison_text op v) = op_text op ++ [SPACE_CH; DQUOTE] ++ v ++ [DQUOTE]) as E by (by destruct op).
      assert ((deref (skip_whitespace (comparison_text op v)) =? 0) = false) as -> by (rewrite E; by destruct op).
      assert (parse_compare_op_and_value (skip_whitespace (comparison_text op v)) = Some (op, v)) as ->; [|done].
      rewrite <-(compare_text op v []) by done. rewrite app_nil_r. unfold parse_compare_op_and_value.
      by rewrite E; destruct op.
    + subst op. done.
  - destruct opt as [v|]; [by destruct Ho as (_ & _ & ?)|]. by subst.
Qed.

Lemma evaluate_if_value op name v :
  Forall (λ c, c ∉ [SPACE_CH; TAB; EQUAL; BANG; LESS; MORE]) name → DQUOTE ∉ v →
  evaluate_preprocessor_if (DOLLAR :: name ++ comparison_text op v) = Some (CC 0 IF_VALUE false op false name (Some v)).
Proof.
  intros Hn Hv. unfold evaluate_preprocessor_if.
  change (skip_whitespace (DOLLAR :: ?x)) with (DOLLAR :: x). cbv zeta.
  change (deref (DOLLAR :: ?x) =? AT) with false. cbv iota. change (deref (DOLLAR :: ?x) =? BANG) with false. cbv iota.
  change (find_if_function (DOLLAR :: ?x)) with (@None (list Z * ConfigIfCondition * bool)). cbv iota.
  change (drop 1 (DOLLAR :: ?x)) with x. change (deref (DOLLAR :: ?x) =? DOLLAR) with true. simpl negb. cbv iota.
  change (comparison_text op v) with (SPACE_CH :: op_text op ++ [SPACE_CH; DQUOTE] ++ v ++ [DQUOTE]) at 1.
  rewrite read_until_app; [|done|left].
  change (SPACE_CH :: op_text op ++ [SPACE_CH; DQUOTE] ++ v ++ [DQUOTE]) with (comparison_text op v).
  rewrite <-(app_nil_r (comparison_text op v)), compare_text by done. done.
Qed.

Definition returns_value (c : ConfigIfCondition) : bool :=
  match c with IF_ENVIRONMENT | IF_MODULE_VERSION => true | _ => false end.

Lemma evaluate_if_function cond (neg : bool) tail :
  cond ≠ IF_VALUE →
  evaluate_preprocessor_if ((if neg then [BANG] else []) ++ keyword cond ++ tail) =
    parse_if_function tail cond neg (returns_value cond).
Proof. intros H. destruct neg, cond; try done; reflexivity. Qed.

Lemma evaluate_if_print cc : cond_ok cc → evaluate_preprocessor_if (print_cond cc) = Some cc.
Proof.
  destruct cc as [p cond neg op el name opt]. intros [[Hp Hel] Hn Ho]. simpl in *. subst p el. unfold print_cond. simpl.
  destruct (bool_decide_reflect (cond = IF_VALUE)) as [->|Hc].
  - destruct opt as [v|]; [|by destruct Ho]. destruct Ho as (Hv & -> & _). by apply evaluate_if_value.
  - rewrite evaluate_if_function by done. apply if_function_text; [done|]. destruct opt; [|by destruct Ho].
    destruct Ho as (? & ? & [?|Hcond]); [done|]. split_and!; try done. by destruct Hcond as [-> | ->].
Qed.

(** Conditions.  The text of a condition is read as that condition: variables
    compared with a value, and functions of an argument, negated or compared. *)
Theorem condition_roundtrip cc : cond_ok cc → evaluate_preprocessor_if (print_cond cc) = Some cc.
Proof. apply evaluate_if_print. Qed.

Lemma condition_roundtrip_witness :
  evaluate_preprocessor_if (bs "!module-loaded(third/x)") =
    Some (CC 0 IF_MODULE_LOADED true COMPARE_EQ false (bs "third/x") None) ∧
  let cc := CC 0 IF_VALUE false COMPARE_GE false (bs "FOO") (Some (bs "6.2")) in
  evaluate_preprocessor_if (print_cond cc) = Some cc.
Proof.
  split; [vm_compute; reflexivity|]. intros cc. apply (condition_roundtrip cc). split; [done| |].
  - repeat apply Forall_cons_2; [..|apply Forall_nil_2]; by apply (bool_decide_unpack _).
  - split; [by apply (bool_decide_unpack _)|]. by auto.
Defined.

(** What is documented as defined($XYZ) asks for a define whose name starts with a
    dollar sign; names are stored without it, and the condition never holds. *)
Lemma defined_with_dollar_fails e :
  let d := match evaluate_preprocessor_define e [] (bs " $FOO " ++ [DQUOTE] ++ bs "1" ++ [DQUOTE]) with Some d => d | None => [] end in
  d = [NVP 0 (bs "FOO") (Some (bs "1"))] ∧
  (let! r := match evaluate_preprocessor_if (bs "defined($FOO)") with
             | Some cc => resolve_one e d PREPROCESSOR_PHASE_INITIAL cc | None => UB end in Ok r) = Ok false ∧
  (let! r := match evaluate_preprocessor_if (bs "defined(FOO)") with
             | Some cc => resolve_one e d PREPROCESSOR_PHASE_INITIAL cc | None => UB end in Ok r) = Ok true.
Proof. split_and!; vm_compute; reflexivity. Qed.

(** An empty value is stored as NULL: comparing the variable is a NULL
    dereference, and a use of it is not replaced.  UNREALIRCD_VERSION_SUFFIX is
    such a variable in a release. *)
Lemma empty_define_is_null e :
  let d := add_nvplist [] 0 (bs "FOO") (Some []) in
  resolve_one e d PREPROCESSOR_PHASE_INITIAL (CC 1 IF_VALUE false COMPARE_EQ false (bs "FOO") (Some [])) = UB ∧
  preprocessor_replace_defines d (bs "a$FOO") = Ok (bs "a$FOO").
Proof. split; vm_compute; reflexivity. Qed.

(** Variables in names and values.  Replacing ends, stays inside its buffer and
    gives the meaning of the text, where two dollar signs are one and a variable
    that is not defined stands for itself, cut only where the buffer ends; a text
    without a dollar sign is never changed. *)
Theorem replace_defines_correct d item :
  cstr item →
  ∃ o T, preprocessor_replace_defines d item = Ok o ∧ expands d item T ∧ (∀ T', expands d item T' → T' = T) ∧
    o `prefix_of` T ∧ (Z.of_nat (length T + dollars item) < 4094 ∨ DOLLAR ∉ item → o = T).
Proof.
  intros Hc. unfold preprocessor_replace_defines. destruct (bool_decide_reflect (DOLLAR ∈ item)) as [Hin|Hin]; simpl negb; cbv iota.
  - destruct (replace_loop d (S (length item)) item [] (Z.of_nat REPLACE_BUF - 2) Hc) as (t & t' & E & Ht & Hp & Hl & Hall);
      [lia|unfold REPLACE_BUF; lia|unfold REPLACE_BUF; simpl length; lia|].
    rewrite E. cbn [rbind app] in *. rewrite (proj2 (Nat.ltb_lt _ _)) by done. cbn [require rbind].
    exists t', t. split_and!; try done; [intros; by eapply expands_fun|].
    intros [H|H]; [|done]. apply Hall. unfold REPLACE_BUF. lia.
  - exists item, item. pose proof (expands_plain d item Hin). split_and!; try done. intros. by eapply expands_fun.
Qed.

Lemma replace_defines_witness :
  let d := [NVP 0 (bs "HOST") (Some (bs "irc.example.net"))] in
  preprocessor_replace_defines d (bs "x@$HOST/$$1$NONE") = Ok (bs "x@irc.example.net/$1$NONE") ∧
  ∃ T, expands d (bs "x@$HOST/$$1$NONE") T ∧ bs "x@irc.example.net/$1$NONE" `prefix_of` T.
Proof.
  intros d. split; [vm_compute; reflexivity|].
  destruct (replace_defines_correct d (bs "x@$HOST/$$1$NONE")) as (o & T & E & HT & _ & Hp & _);
    [repeat constructor; done|]. exists T. vm_compute in E. injection E as <-. split; [exact HT|exact Hp].
Defined.

(** ** Theory: conditions can be decided *)

Record env_ok (e : env) : Prop := {
  eo_getenv : ∀ n v, getenv e n = Some v → cstr v ∧ v ≠ [];
  eo_version : cstr (VERSIONONLY e);
  eo_modules : Forall (λ m, ∀ v, mod_version m = Some v → cstr v ∧ v ≠ []) (Modules e);
  eo_blacklist : Forall cstr (conf_blacklist_module e) ∧ cstr (MODULESDIR e)
}.
(** Only the variables [N] may have no value: an empty one is kept as NULL. *)
Definition defines_ok (N : list (list Z)) (d : defines) : Prop :=
  Forall (λ x, match nv_value x with Some v => cstr v | None => nv_name x ∈ N end) d.
(** The condition does not compare one of them. *)
Definition tests_none (N : list (list Z)) (cc : ConditionalConfig) : Prop :=
  cc_condition cc = IF_VALUE → Forall (λ n, strcasecmp n (cc_name cc) ≠ 0) N.
Record cc_good (N : list (list Z)) (cc : ConditionalConfig) : Prop := {
  cg_name : cstr (cc_name cc);
  cg_opt : ∀ v, cc_opt cc = Some v → cstr v;
  cg_value : cc_condition cc = IF_VALUE → is_Some (cc_opt cc);
  cg_tests : tests_none N cc
}.
(** The text has no "" and the names [N] nowhere in it. *)
Definition no_empty_quotes (l : list Z) : Prop := ∀ a b, l ≠ a ++ DQUOTE :: DQUOTE :: b.
Definition mentions_none (N : list (list Z)) (l : list Z) : Prop := Forall (λ n, ∀ a m b, l = a ++ m ++ b → strcasecmp n m ≠ 0) N.
Definition line_safe (N : list (list Z)) (l : list Z) : Prop := no_empty_quotes l ∧ mentions_none N l.

Lemma mentions_app N a b : mentions_none N (a ++ b) → mentions_none N a ∧ mentions_none N b.
Proof.
  unfold mentions_none. rewrite !Forall_forall. intros HN. split; intros n Hn x m y ->.
  - apply (HN n Hn x m (y ++ b)). by rewrite <-!app_assoc.
  - apply (HN n Hn (a ++ x) m y). by rewrite <-!app_assoc.
Qed.
Lemma mentions_drop N n l : mentions_none N l → mentions_none N (drop n l).
Proof. intros H. rewrite <-(take_drop n l) in H. by apply mentions_app in H as [_ ?]. Qed.
Lemma mentions_drop_while N P l : mentions_none N l → mentions_none N (drop_while P l).
Proof. intros H. rewrite drop_while_drop. by apply mentions_drop. Qed.
Lemma mentions_take_while N P l : mentions_none N l → mentions_none N (take_while P l).
Proof. intros H. rewrite <-(take_drop_while P l) in H. by apply mentions_app in H as [? _]. Qed.
Lemma mentions_self N l : mentions_none N l → Forall (λ n, strcasecmp n l ≠ 0) N.
Proof. intros H. eapply Forall_impl; [exact H|]. intros n Hn. apply (Hn [] l []). by rewrite app_nil_r. Qed.
#[export] Hint Resolve mentions_drop mentions_drop_while mentions_take_while mentions_self : obby.
Lemma line_safe_app N a b : line_safe N (a ++ b) → line_safe N a ∧ line_safe N b.
Proof.
  intros [H [HN1 HN2]%mentions_app]. unfold line_safe. split_and!; [|done| |done].
  - intros x y ->. apply (H x (y ++ b)). by rewrite <-app_assoc.
  - intros x y ->. apply (H (a ++ x) y). by rewrite <-app_assoc.
Qed.
Lemma line_safe_drop N n l : line_safe N l → line_safe N (drop n l).
Proof. intros H. rewrite <-(take_drop n l) in H. by apply line_safe_app in H as [_ ?]. Qed.
Lemma line_safe_take N n l : line_safe N l → line_safe N (take n l).
Proof. intros H. rewrite <-(take_drop n l) in H. by apply line_safe_app in H as [? _]. Qed.
Lemma line_safe_drop_while N P l : line_safe N l → line_safe N (drop_while P l).
Proof. intros H. rewrite drop_while_drop. by apply line_safe_drop. Qed.
Lemma line_safe_take_while N P l : line_safe N l → line_safe N (take_while P l).
Proof. intros H. rewrite <-(take_drop_while P l) in H. by apply line_safe_app in H as [? _]. Qed.
#[export] Hint Resolve line_safe_drop line_safe_take line_safe_drop_while line_safe_take_while : obby.

Lemma strnatcasecmp_total a b : cstr a → cstr b → ∃ r, Natcmp.strnatcasecmp a b = Ok r.
Proof. intros Ha Hb. destruct (Natcmp.natcmp_loop_opp true (S (length a)) (S (length b)) a b) as (r & H & _); eauto. Qed.

Lemma compare_value_total N v cc : cstr v → cc_good N cc → is_Some (cc_opt cc) → ∃ b, compare_value (Some v) cc = Ok b.
Proof.
  intros Hv [_ Ho _ _] [o Eo]. unfold compare_value. rewrite Eo.
  destruct (strnatcasecmp_total v o Hv (Ho o Eo)) as [r ->]. eauto.
Qed.

Lemma find_testing_module_In e n m : find_testing_module e n = Some m → m ∈ Modules e.
Proof. intros H. apply find_some in H as [H _]. by apply list_elem_of_In. Qed.

Lemma find_nvplist_In d n x : find_nvplist d n = Some x → x ∈ d.
Proof.
  induction d as [|y d IH]; simpl; [done|]. destruct (_ =? 0); [intros [= <-]; left|]. intros H. right. by apply IH.
Qed.

Lemma find_nvplist_name d n x : find_nvplist d n = Some x → strcasecmp (nv_name x) n = 0.
Proof. induction d as [|y d IH]; simpl; [done|]. destruct (Z.eqb_spec (strcasecmp (nv_name y) n) 0); [by intros [= <-]|done]. Qed.

Lemma transform_path_cstr e name : env_ok e → cstr name → cstr (Module_TransformPath e name).
Proof.
  intros [_ _ _ [_ Hd]] Hn. unfold Module_TransformPath. set (path := if _ && _ && _ then _ else _).
  assert (cstr path) as Hpath by (unfold path; destruct (_ && _ && _); repeat first [apply cstr_take|apply cstr_app|done|by repeat constructor]).
  assert (∀ n, cstr (path ++ take n (bs ".so"))) as Hso by (intros n; apply cstr_app; [done|apply cstr_take; by apply (bool_decide_unpack _)]).
  clearbody path. destruct (negb (strstr path _)); [|exact Hpath]. unfold Strl.strlcat.
  destruct (_ <=? _)%nat; [done|]. destruct (0 <? _)%nat; [apply Hso|done].
Qed.

Lemma is_blacklisted_total e name : env_ok e → cstr name → ∃ b, is_blacklisted_module e name = Ok b.
Proof.
  intros He Hn. pose proof (transform_path_cstr e name He Hn) as Hp. pose proof (proj1 (eo_blacklist _ He)) as Hl. unfold is_blacklisted_module.
  induction Hl as [|m l Hm _ IH]; [by eexists|]. rewrite match_simple_glob by done. cbn [rbind].
  destruct (glob (simple_toks m) name); cbn [rbind]; [by eexists|]. rewrite match_simple_glob by done. cbn [rbind].
  destruct (glob _ _); [by eexists|exact IH].
Qed.

Lemma resolve_one_total N e d phase cc :
  env_ok e → defines_ok N d → cc_good N cc → ∃ b, resolve_one e d phase cc = Ok b.
Proof.
  intros He Hd Hcc. pose proof He as [Hg Hv Hm _]. unfold resolve_one. destruct (cc_condition cc) eqn:Ec; try by destruct phase; eauto.
  - destruct (find_config_define d (cc_name cc)) as [x|] eqn:Ef; [|eauto].
    pose proof (find_nvplist_name _ _ _ Ef) as En. apply find_nvplist_In in Ef. unfold defines_ok in Hd. rewrite Forall_forall in Hd.
    specialize (Hd x Ef). simpl in Hd. destruct (nv_value x) as [v|].
    + apply (compare_value_total N); [done..|]. by apply (cg_value _ _ Hcc).
    + pose proof (cg_tests _ _ Hcc Ec) as Ht. rewrite Forall_forall in Ht. by destruct (Ht _ Hd).
  - destruct phase; eauto. destruct (is_blacklisted_total e (cc_name cc) He (cg_name _ _ Hcc)) as [b ->]. cbn [rbind]. eauto.
  - destruct (strnatcasecmp_total (VERSIONONLY e) (cc_name cc)) as [r ->]; [done|apply Hcc|]. eauto.
  - destruct (getenv e (cc_name cc)) as [v|] eqn:Eg; [|eauto]. destruct (cc_opt cc) as [o|] eqn:Eo; [|eauto].
    apply (compare_value_total N); [by eapply Hg|done|]. by rewrite Eo.
  - destruct phase; eauto. destruct (find_testing_module e (cc_name cc)) as [[n f [v|]]|] eqn:Ef; eauto.
    destruct (cc_opt cc) as [o|] eqn:Eo; [|eauto]. apply find_testing_module_In in Ef.
    rewrite Forall_forall in Hm. apply (compare_value_total N); [by apply (Hm _ Ef)|done|by rewrite Eo].
Qed.

Lemma resolve_if_total N e d phase ccs :
  env_ok e → defines_ok N d → Forall (cc_good N) ccs → ∃ b, preprocessor_resolve_if e d phase ccs = Ok b.
Proof.
  intros He Hd Hc. eexists. apply resolve_if_values. eapply Forall_impl; [exact Hc|]. intros. by apply (resolve_one_total N).
Qed.

(** ** Theory: directives *)

Lemma cstr_skip s : cstr s → cstr (skip_whitespace s).
Proof. apply cstr_drop_while. Qed.
Lemma cstr_read_until s stop v r : read_until s stop = (v, r) → cstr s → cstr v ∧ cstr r.
Proof. intros [= <- <-] H. split; [by apply cstr_take_while|by apply cstr_drop_while]. Qed.
#[export] Hint Resolve cstr_drop cstr_take cstr_drop_while cstr_take_while cstr_skip : obby.

Lemma parse_compare_cstr p op v : cstr p → parse_compare_op_and_value p = Some (op, v) → cstr v.
Proof.
  intros Hp. unfold parse_compare_op_and_value. destruct (compare_op_of (skip_whitespace p)) as [[op' n]|]; [|done].
  set (q := skip_whitespace (drop n (skip_whitespace p))). assert (cstr q) as Hq by (unfold q; eauto with obby).
  destruct (deref q =? DQUOTE).
  - destruct (read_until (drop 1 q) [DQUOTE]) as [w [|c r]] eqn:E; [done|]. intros [= _ <-].
    apply cstr_read_until in E as [? _]; eauto with obby.
  - intros [= _ <-]. unfold read_until. simpl. eauto with obby.
Qed.

Lemma function_argument_cstr p v r : cstr p → function_argument p = Some (v, r) → cstr v ∧ cstr r.
Proof.
  intros Hp. unfold function_argument. destruct (negb _); [done|].
  set (q := skip_whitespace (drop 1 (skip_whitespace p))). assert (cstr q) as Hq by (unfold q; eauto with obby).
  set (q' := if deref q =? DQUOTE then drop 1 q else q). assert (cstr q') as Hq' by (unfold q'; destruct (_ =? _); eauto with obby).
  destruct (read_until q' [RPAREN; DQUOTE]) as [w [|c t]] eqn:E; [done|]. intros [= <- <-]. by eapply cstr_read_until.
Qed.

Lemma parse_if_function_good N p cond neg rv cc :
  cstr p → cond ≠ IF_VALUE → parse_if_function p cond neg rv = Some cc → cc_good N cc.
Proof.
  intros Hp Hc. unfold parse_if_function. destruct (function_argument p) as [[n q]|] eqn:E; [|done].
  apply function_argument_cstr in E as [Hn Hq]; [|done].
  assert (∀ x y z w v, tests_none N (CC x cond y z w n v)) as Ht by (intros ? ? ? ? ? E'; by destruct Hc).
  destruct (negb rv); [intros [= <-]; split; first [done|apply Ht]|].
  set (q1 := if deref (drop 1 q) =? RPAREN then drop 1 (drop 1 q) else drop 1 q).
  assert (cstr q1) as Hq1 by (unfold q1; destruct (_ =? _); eauto with obby).
  destruct (deref (skip_whitespace q1) =? 0); [intros [= <-]; split; first [done|apply Ht]|]. destruct neg; [done|].
  destruct (parse_compare_op_and_value (skip_whitespace q1)) as [[op v]|] eqn:Ec; [|done]. intros [= <-].
  apply parse_compare_cstr in Ec; [|by eauto with obby]. split; [done| |done|apply Ht]. by intros ? [= <-].
Qed.

Lemma evaluate_if_good N s cc : cstr s → mentions_none N s → evaluate_preprocessor_if s = Some cc → cc_good N cc.
Proof.
  intros Hs Hm. unfold evaluate_preprocessor_if.
  set (p := if deref (skip_whitespace s) =? AT then drop 1 (skip_whitespace s) else skip_whitespace s).
  assert (cstr p ∧ mentions_none N p) as [Hp Hmp] by (unfold p, skip_whitespace; destruct (_ =? _); split; eauto with obby).
  clearbody p. assert (∃ (neg : bool) q, (if deref p =? BANG then (true, skip_whitespace (drop 1 p)) else (false, p)) = (neg, q) ∧ cstr q ∧ mentions_none N q)
    as (neg & q & -> & Hq & Hmq) by (unfold skip_whitespace; destruct (deref p =? BANG); eexists _, _; (split; [reflexivity|]); split; eauto with obby).
  destruct (find_if_function q) as [[[kw cond] rv]|] eqn:Ef.
  { apply parse_if_function_good; [by eauto with obby|].
    apply find_some in Ef as [Hin _]. simpl in Hin. intros ->. repeat (destruct Hin as [?|Hin]; [done|]). done. }
  destruct (negb (deref q =? DOLLAR)); [done|]. destruct neg; [done|].
  destruct (read_until (drop 1 q) _) as [n [|c r]] eqn:E; [done|].
  assert (mentions_none N n) as Hmn by (injection E as <- _; eauto with obby).
  apply cstr_read_until in E as [Hn Hr]; [|by eauto with obby].
  destruct (parse_compare_op_and_value (c :: r)) as [[op v]|] eqn:Ec; [|done]. intros [= <-].
  apply parse_compare_cstr in Ec; [|done]. split; [done| |done|]; [by intros ? [= <-]|]. intros _. by apply mentions_self.
Qed.

(** The variables at the start: in a release the suffix of the version is empty. *)
Lemma init_defines_ok e build :
  env_ok e → cstr (CONFDIR e) → (∀ n, cstr (build n)) → VERSIONONLY e ≠ [] → CONFDIR e ≠ [] → MODULESDIR e ≠ [] →
  (∀ n, n ≠ bs "UNREALIRCD_VERSION_SUFFIX" → build n ≠ []) →
  defines_ok [bs "UNREALIRCD_VERSION_SUFFIX"] (init_config_defines e build).
Proof.
  intros [_ Hv _ [_ Hm]] Hc Hb Nv Nc Nm Nb. unfold init_config_defines, add_nvplist, defines_ok.
  rewrite !insert_prio_perm.
  assert (∀ n, n ≠ bs "UNREALIRCD_VERSION_SUFFIX" → match match build n with [] => None | _ => Some (build n) end with Some v => cstr v | None => n ∈ [bs "UNREALIRCD_VERSION_SUFFIX"] end) as H.
  { intros n Hn. specialize (Nb n Hn). pose proof (Hb n). by destruct (build n). }
  repeat (apply Forall_cons; split); [..|apply Forall_nil_2]; cbn [nv_value nv_name].
  all: try (by apply H; apply (bool_decide_unpack _)). all: try by destruct (VERSIONONLY e). all: try by destruct (CONFDIR e). all: try by destruct (MODULESDIR e).
  pose proof (Hb (bs "UNREALIRCD_VERSION_SUFFIX")). destruct (build (bs "UNREALIRCD_VERSION_SUFFIX")); [by left|done].
Qed.

Lemma resolve_define_ok e p v : env_ok e → resolve_define_function e p = Some v → cstr v ∧ v ≠ [].
Proof.
  intros [Hg _ Hm]. unfold resolve_define_function. destruct (find_if_function p) as [[[kw cond] []]|]; try done.
  destruct (function_argument _) as [[arg r]|]; [|done]. destruct cond; try done; [apply Hg|].
  destruct (find_testing_module e arg) as [m|] eqn:E; [|done]. apply find_testing_module_In in E.
  rewrite Forall_forall in Hm. by apply Hm.
Qed.

Lemma evaluate_define_ok N e d s d' :
  env_ok e → defines_ok N d → cstr s → line_safe N s → evaluate_preprocessor_define e d s = Some d' → defines_ok N d'.
Proof.
  intros He Hd Hs Hq. unfold evaluate_preprocessor_define.
  destruct (read_until (skip_whitespace s) [SPACE_CH; TAB]) as [name [|c r]] eqn:E; [done|].
  assert (line_safe N (c :: r)) as Hnq by (injection E as _ <-; unfold skip_whitespace; eauto with obby).
  apply cstr_read_until in E as [Hn Hr]; [|by eauto with obby].
  set (p := skip_whitespace (c :: r)). assert (cstr p ∧ line_safe N p) as [Hp Hpq] by (unfold p, skip_whitespace; eauto with obby).
  clearbody p. set (value := if deref p =? DQUOTE then _ else _).
  assert (∀ v, value = Some v → cstr v ∧ v ≠ []) as Hv.
  { intros v. unfold value. destruct (Z.eqb_spec (deref p) DQUOTE) as [Ep|Ep]; [|by apply resolve_define_ok].
    destruct (read_until (drop 1 p) [DQUOTE]) as [w [|x t]] eqn:Er; [done|]. intros [= <-].
    pose proof Er as [Hw _]%cstr_read_until; [|by eauto with obby]. split; [done|]. intros ->.
    destruct p as [|y p]; [done|]. simpl in Ep. subst y. change (drop 1 (DQUOTE :: p)) with p in Er.
    destruct p as [|y p]; [done|]. unfold read_until in Er. cbn [take_while drop_while] in Er.
    destruct (bool_decide_reflect (y ∈ [DQUOTE])) as [Hy|Hy]; [|done]. apply list_elem_of_singleton in Hy as ->.
    by apply (proj1 Hpq [] p). }
  clearbody value. destruct value as [v|]; [|done]. destruct (Hv v eq_refl) as [Hcv Hne].
  destruct (negb _); [done|]. destruct (negb _); [done|]. destruct (512 <? length v)%nat; [done|]. intros [= <-].
  unfold add_nvplist, defines_ok. rewrite insert_prio_perm. constructor; [|done]. simpl. by destruct v.
Qed.

(** What a directive leaves behind. *)
Lemma directive_good N e d line n cc d' :
  env_ok e → defines_ok N d → cstr line → line_safe N line →
  parse_preprocessor_item e d line = (n, cc, d') →
  defines_ok N d' ∧ (n = PREPROCESSOR_IF → ∃ c, cc = Some c ∧ cc_good N c).
Proof.
  intros He Hd Hl Hq. unfold parse_preprocessor_item.
  set (max := if (512 <? length line + 1)%nat then 512%nat else (length line + 1)%nat).
  assert (fst (Strl.strlcpy [] line max) = take (max - 1) line) as ->
    by (apply strlcpy_take; unfold max; destruct (_ <? _)%nat; lia).
  set (buf := take (max - 1) line). assert (cstr buf ∧ line_safe N buf) as [Hb Hbq] by (unfold buf; eauto with obby).
  destruct (starts_with (bs "@define") buf).
  { destruct (evaluate_preprocessor_define e d (drop 7 buf)) as [d2|] eqn:E; intros [= <- <- <-]; (split; [|done]); [|done].
    eapply evaluate_define_ok; [..|exact E]; eauto with obby. }
  destruct (starts_with (bs "@if ") buf).
  { destruct (evaluate_preprocessor_if (drop 4 buf)) as [c|] eqn:E; intros [= <- <- <-]; (split; [done|]); [|done].
    intros _. exists c. split; [done|]. eapply evaluate_if_good; [| |exact E]; [eauto with obby|]. apply mentions_drop, Hbq. }
  repeat (destruct (starts_with _ buf); [by intros [= <- <- <-]|]). by intros [= <- <- <-].
Qed.

(** ** Examples *)

(** A server without modules, files or environment. *)
Definition sample_env : env :=
  Env (λ _, None) (λ _, false) [] 0 [] (bs "6.2.6") (bs "/usr/modules") (bs "/etc").
Definition sample_entry (name : list Z) (ccs : list ConditionalConfig) (items : list ConfigEntry) : ConfigEntry :=
  CE name None items 1 0 0 0 ccs false.

Lemma resolve_conditionals_witness :
  let d := [NVP 0 (bs "FOO") (Some (bs "2"))] in
  let cc neg := CC 1 IF_VALUE neg COMPARE_GE false (bs "FOO") (Some (bs "10")) in
  let a := sample_entry (bs "a") [] [sample_entry (bs "b") [cc true] []; sample_entry (bs "c") [cc false] []] in
  let kept := [sample_entry (bs "a") [] [sample_entry (bs "b") [cc true] []]] in
  preprocessor_resolve_conditionals_ce sample_env d PREPROCESSOR_PHASE_INITIAL [a; sample_entry (bs "c") [cc false] []] = Ok kept ∧
  preprocessor_resolve_conditionals_ce sample_env d PREPROCESSOR_PHASE_INITIAL kept = Ok kept.
Proof.
  intros d cc a kept.
  apply (resolve_conditionals_correct sample_env d PREPROCESSOR_PHASE_INITIAL [a; sample_entry (bs "c") [cc false] []]).
  assert (∀ neg, ∃ b, resolve_one sample_env d PREPROCESSOR_PHASE_INITIAL (cc neg) = Ok b) as H
    by (intros neg; exists false; vm_compute; reflexivity).
  repeat constructor; apply H.
Defined.

(** @if !module-loaded("x") with no module loaded. *)
Lemma negated_module_condition_witness :
  let cc := CC 1 IF_MODULE_LOADED true COMPARE_EQ false (bs "x") None in
  resolve_entry sample_env [] PREPROCESSOR_PHASE_MODULE (sample_entry (bs "a") [cc] []) = Ok [sample_entry (bs "a") [cc] []] ∧
  resolve_entry sample_env [] PREPROCESSOR_PHASE_INITIAL (sample_entry (bs "a") [cc] []) = Ok [].
Proof.
  intros cc. split; [vm_compute; reflexivity|].
  apply (negated_module_condition_dropped sample_env [] (sample_entry (bs "a") [cc] []) cc).
  - split; [|done]. constructor; [|constructor]. exists true. reflexivity.
  - left.
  - by left.
  - done.
Defined.
