(* ===== verification/ConfParse.v ===== *)
(** * The parser of the configuration (src/conf.c)

    [config_parse_with_offset] turns the text of a configuration file into a tree
    of entries.  A pointer into the text is the rest of the text from there.
    [lastce], the place where the next entry is linked, is always the end of the
    list of the section that is open: the model keeps that list, and below it the
    sections around it, each with the entries that precede it. *)

From stdpp Require Import base tactics list numbers strings sorting.
From Stdlib Require Import ZArith Lia.
From S2P Require Import Prelude Chars Support Match NameLists ConfPre.

Local Open Scope Z_scope.

Abbreviation LBRACE := 123 (only parsing).
Abbreviation RBRACE := 125 (only parsing).

(** ** Quotes *)

Fixpoint unreal_del_quotes (i : list Z) : list Z :=
  match i with
  | [] => []
  | c :: r =>
      if c =? BSLASH then
        match r with
        | d :: r' => if (d =? BSLASH) || (d =? DQUOTE) then d :: unreal_del_quotes r' else c :: unreal_del_quotes r
        | [] => [c]
        end
      else c :: unreal_del_quotes r
  end.

(** [len] is the room that is left, without the NUL. *)
Fixpoint add_quotes (i : list Z) (len : nat) : list Z :=
  match i with
  | [] => []
  | c :: r =>
      if (c =? DQUOTE) || (c =? BSLASH) then
        if (len <? 2)%nat then [] else BSLASH :: c :: add_quotes r (len - 2)
      else if (len =? 0)%nat then [] else c :: add_quotes r (len - 1)
  end.

(** [unreal_add_quotes_r]: the return value and what is written. *)
Definition unreal_add_quotes_r (i : list Z) (len : nat) : Z * option (list Z) :=
  if (len =? 0)%nat then (0, None)
  else if (len - 1 =? 0)%nat then (0, Some [])
  else (1, Some (add_quotes i (len - 1))).
Definition unreal_add_quotes (str : list Z) : list Z := default [] (snd (unreal_add_quotes_r str 2048)).

(** ** The state of the parser *)

Record pstate := PS {
  ps_rest : list Z;
  ps_line : Z;
  ps_errors : nat;
  ps_curce : option ConfigEntry;
  ps_stack : list (ConfigEntry * list ConfigEntry);
  ps_items : list ConfigEntry;
  ps_level : Z;
  ps_ccs : list ConditionalConfig;
  ps_defines : list NameValuePrioList
}.

Definition at_ (rest : list Z) (s : pstate) : pstate :=
  PS rest (ps_line s) (ps_errors s) (ps_curce s) (ps_stack s) (ps_items s) (ps_level s) (ps_ccs s) (ps_defines s).
Definition error (s : pstate) : pstate :=
  PS (ps_rest s) (ps_line s) (S (ps_errors s)) (ps_curce s) (ps_stack s) (ps_items s) (ps_level s) (ps_ccs s) (ps_defines s).
Definition set_line (line : Z) (s : pstate) : pstate :=
  PS (ps_rest s) line (ps_errors s) (ps_curce s) (ps_stack s) (ps_items s) (ps_level s) (ps_ccs s) (ps_defines s).
Definition set_curce (ce : option ConfigEntry) (s : pstate) : pstate :=
  PS (ps_rest s) (ps_line s) (ps_errors s) ce (ps_stack s) (ps_items s) (ps_level s) (ps_ccs s) (ps_defines s).
Definition set_lists (stack : list (ConfigEntry * list ConfigEntry)) (items : list ConfigEntry) (s : pstate) : pstate :=
  PS (ps_rest s) (ps_line s) (ps_errors s) (ps_curce s) stack items (ps_level s) (ps_ccs s) (ps_defines s).
Definition set_conds (level : Z) (ccs : list ConditionalConfig) (s : pstate) : pstate :=
  PS (ps_rest s) (ps_line s) (ps_errors s) (ps_curce s) (ps_stack s) (ps_items s) level ccs (ps_defines s).
Definition set_defines (d : list NameValuePrioList) (s : pstate) : pstate :=
  PS (ps_rest s) (ps_line s) (ps_errors s) (ps_curce s) (ps_stack s) (ps_items s) (ps_level s) (ps_ccs s) d.

Definition set_value (v : list Z) (ce : ConfigEntry) : ConfigEntry :=
  CE (ce_name ce) (Some v) (ce_items ce) (ce_line_number ce) (ce_position_start ce) (ce_position_end ce)
     (ce_section_linenumber ce) (ce_conditional_config ce) (ce_escaped ce).
Definition set_end (pos : nat) (ce : ConfigEntry) : ConfigEntry :=
  CE (ce_name ce) (ce_value ce) (ce_items ce) (ce_line_number ce) (ce_position_start ce) pos
     (ce_section_linenumber ce) (ce_conditional_config ce) (ce_escaped ce).
Definition set_section_line (line : Z) (ce : ConfigEntry) : ConfigEntry :=
  CE (ce_name ce) (ce_value ce) (ce_items ce) (ce_line_number ce) (ce_position_start ce) (ce_position_end ce)
     line (ce_conditional_config ce) (ce_escaped ce).
Definition set_escaped (ce : ConfigEntry) : ConfigEntry :=
  CE (ce_name ce) (ce_value ce) (ce_items ce) (ce_line_number ce) (ce_position_start ce) (ce_position_end ce)
     (ce_section_linenumber ce) (ce_conditional_config ce) true.

(** ** Scanning *)

Definition not_lf (c : Z) : bool := negb (c =? LF).

(** The rest behind a comment, and the line there. *)
Fixpoint scan_comment (l : list Z) (line : Z) : option (list Z * Z) :=
  match l with
  | [] => None
  | c :: r =>
      if c =? LF then scan_comment r (line + 1)
      else if (c =? STAR) && (deref r =? SLASH) then Some (drop 1 r, line)
      else scan_comment r line
  end.

(** Where the quoted text ends: at its quote, a line feed or the end.  A
    backslash hides the next character if that is a backslash or a quote; strchr
    also finds the NUL. *)
Fixpoint scan_quote (escaped : bool) (l : list Z) : res (list Z) :=
  match l with
  | [] => Ok []
  | c :: r =>
      if c =? BSLASH then
        match r with
        | [] => UB
        | d :: r' => if (d =? BSLASH) || (d =? DQUOTE) || (d =? QUOTE) then scan_quote escaped r' else scan_quote escaped r
        end
      else if c =? LF then Ok l
      else if escaped && (c =? QUOTE) then Ok l
      else if negb escaped && (c =? DQUOTE) then Ok l
      else scan_quote escaped r
  end.

Definition in_word (c : Z) : bool := negb ((c =? SPACE_CH) || (c =? TAB) || (c =? LF) || (c =? SEMI)).

Section Parser.
Variable e : env.
(** strlen(confdata), for positions. *)
Variable total : nat.

Definition pos (rest : list Z) : nat := (total - length rest)%nat.

(** Link the current entry. *)
Definition link (ce : ConfigEntry) (s : pstate) : pstate :=
  set_curce None (set_lists (ps_stack s) (ps_items s ++ [set_end (pos (ps_rest s)) ce]) s).

(** A name or a value has been read; [unquote] for quoted text. *)
Definition got_text (unquote : list Z → list Z) (start text : list Z) (s : pstate) : res pstate :=
  match ps_curce s with
  | Some ce =>
      match ce_value ce with
      | Some _ => Ok (error s)
      | None =>
          let! v := preprocessor_replace_defines (ps_defines s) text in
          Ok (set_curce (Some (set_value (unquote v) ce)) s)
      end
  | None =>
      let! n := preprocessor_replace_defines (ps_defines s) text in
      Ok (set_curce (Some (CE (unquote n) None [] (ps_line s) (pos start) 0 0
            (preprocessor_cc_duplicate_list (ps_ccs s)) false)) s)
  end.

(** The entries of the file, or NULL if there was an error. *)
Definition finish (s : pstate) : option (list ConfigEntry) :=
  let s := match ps_curce s, ps_stack s with
           | None, [] => s
           | _, _ => error s
           end in
  if (ps_errors s =? 0)%nat then Some (ps_items s) else None.

Abbreviation result := (option (list ConfigEntry) * list NameValuePrioList)%type.
Definition bail_out (s : pstate) : res (step pstate result) := Ok (Done (None, ps_defines s)).
Definition stop (s : pstate) : res (step pstate result) := Ok (Done (finish s, ps_defines s)).

(** The two quotes; [r] is the text behind the quote. *)
Definition quoted (r : list Z) (s : pstate) : res (step pstate result) :=
  let s := match ps_curce s, ps_stack s with
           | Some ce, _ :: _ => if negb (ce_line_number ce =? ps_line s) then link ce (error s) else s
           | _, _ => s
           end in
  let escaped := match ps_curce s with Some ce => ce_escaped ce | None => false end in
  let! q := scan_quote escaped r in
  if (deref q =? 0) || (deref q =? LF) then bail_out s
  else
    let! s := got_text unreal_del_quotes r (take (length r - length q) r) s in
    Ok (Next (at_ (drop 1 q) s)).

(** The default case, where the word starts at the current position. *)
Definition word (s : pstate) : res (step pstate result) :=
  let l := ps_rest s in
  if (deref l =? STAR) && (deref (drop 1 l) =? SLASH) then Ok (Next (at_ (drop 2 l) s))
  else
    let q := drop_while in_word l in
    if bool_decide (q = []) then bail_out s
    else
      let! s := got_text id l (take_while in_word l) s in
      Ok (Next (at_ (if (deref q =? SEMI) || (deref q =? LF) then q else drop 1 q) s)).

(** Flip the condition of the current level: [None] if there was an @else. *)
Fixpoint flip_else (level : Z) (ccs : list ConditionalConfig) : option (list ConditionalConfig) :=
  match ccs with
  | [] => Some []
  | cc :: r =>
      if cc_priority cc =? level then
        if cc_had_else cc then None
        else Some (CC (cc_priority cc) (cc_condition cc) (negb (cc_negative cc)) (cc_compare_op cc) true
                      (cc_name cc) (cc_opt cc) :: r)
      else match flip_else level r with Some r => Some (cc :: r) | None => None end
  end.

Definition set_priority (p : Z) (cc : ConditionalConfig) : ConditionalConfig :=
  CC p (cc_condition cc) (cc_negative cc) (cc_compare_op cc) (cc_had_else cc) (cc_name cc) (cc_opt cc).

(** A line that starts with an at sign. *)
Definition directive (s : pstate) : res (step pstate result) :=
  let start := ps_rest s in
  let q := drop_while not_lf start in
  let next s := Ok (Next (at_ (drop 1 q) s)) in
  let! skip := match ps_ccs s with
               | [] => Ok false
               | _ => let! b := preprocessor_resolve_if e (ps_defines s) PREPROCESSOR_PHASE_INITIAL (ps_ccs s) in Ok (negb b)
               end in
  if skip && negb (starts_with (bs "@if ") start) && negb (starts_with (bs "@else") start)
     && negb (starts_with (bs "@endif") start)
  then next (set_line (ps_line s + 1) s)
  else
    let '(n, cc, d) := parse_preprocessor_item e (ps_defines s) (take_while not_lf start) in
    let s := set_defines d (set_line (ps_line s + 1) s) in
    match n with
    | PREPROCESSOR_IF =>
        match cc with
        | None => UB
        | Some cc => let level := ps_level s + 1 in next (set_conds level (set_priority level cc :: ps_ccs s) s)
        end
    | PREPROCESSOR_ELSE =>
        if ps_level s =? 0 then next (error s)
        else match flip_else (ps_level s) (ps_ccs s) with
             | None => stop (error s)
             | Some ccs => next (set_conds (ps_level s) ccs s)
             end
    | PREPROCESSOR_ENDIF =>
        let s := if ps_level s =? 0 then error s else s in
        next (set_conds (ps_level s - 1) (preprocessor_cc_free_level (ps_ccs s) (ps_level s)) s)
    | PREPROCESSOR_ERROR => stop (error s)
    | PREPROCESSOR_USER_ERROR => next (error s)
    | PREPROCESSOR_DEFINE | PREPROCESSOR_USER_WARNING => next s
    end.

(** One round of the loop. *)
Definition parse_body (s : pstate) : res (step pstate result) :=
  match ps_rest s with
  | [] => stop s
  | c :: r =>
      let next s := Ok (Next (at_ r s)) in
      if c =? SEMI then
        match ps_curce s with
        | None => next s
        | Some ce => next (link ce s)
        end
      else if c =? LBRACE then
        match ps_curce s with
        | None => next (error s)
        | Some ce =>
            if negb (bool_decide (length (ce_items ce) = 0%nat)) then next (error s)
            else next (set_curce None (set_lists ((set_section_line (ps_line s) ce, ps_items s) :: ps_stack s) [] s))
        end
      else if c =? RBRACE then
        match ps_curce s, ps_stack s with
        | Some _, _ => bail_out s
        | None, [] => next (error s)
        | None, (sec, outer) :: stack =>
            let ce := set_end (pos (ps_rest s)) (set_items (ps_items s) sec) in
            let s := set_lists stack outer s in
            next (if negb (deref r =? SEMI) then link ce s else set_curce (Some ce) s)
        end
      else if c =? HASH then Ok (Next (at_ (drop_while not_lf r) s))
      else if c =? SLASH then
        if deref r =? SLASH then Ok (Next (at_ (drop_while not_lf (drop 1 r)) s))
        else if deref r =? STAR then
          match scan_comment (drop 1 r) (ps_line s) with
          | None => bail_out s
          | Some (r, line) => Ok (Next (at_ r (set_line line s)))
          end
        else word s
      else if c =? QUOTE then quoted r (match ps_curce s with Some ce => set_curce (Some (set_escaped ce)) s | None => s end)
      else if c =? DQUOTE then quoted r s
      else if c =? LF then next (set_line (ps_line s + 1) s)
      else if (c =? TAB) || (c =? SPACE_CH) || (c =? EQUAL) || (c =? CR) then next s
      else if c =? AT then directive s
      else word s
  end.
End Parser.

Definition config_parse_with_offset (e : env) (d : list NameValuePrioList) (confdata : list Z) (line_offset : Z)
  : res (option (list ConfigEntry) * list NameValuePrioList) :=
  let text := map (λ c, if c =? CR then SPACE_CH else c) confdata in
  loop (parse_body e (length text)) (S (length text)) (PS text (1 + line_offset) 0 None [] [] 0 [] d).

Definition config_parse (e : env) (d : list NameValuePrioList) (confdata : list Z) :=
  config_parse_with_offset e d confdata 0.

Definition config_find_entry (ce : list ConfigEntry) (name : list Z) : option ConfigEntry :=
  find (λ c, bool_decide (ce_name c = name)) ce.

(** ** Theory: safety *)

(** No backslash at the end, and no empty value in a line of the preprocessor. *)
Definition no_last_bslash (l : list Z) : Prop := last l ≠ Some BSLASH.
Definition directives_ok (N : list (list Z)) (l : list Z) : Prop := ∀ a b, l = a ++ AT :: b → line_safe N (take_while not_lf (AT :: b)).

Record text_safe (N : list (list Z)) (l : list Z) : Prop := {
  ts_cstr : cstr l;
  ts_bslash : no_last_bslash l;
  ts_directives : directives_ok N l
}.

Lemma text_safe_drop N n l : text_safe N l → text_safe N (drop n l).
Proof.
  intros [H1 H2 H3]. split; [by apply cstr_drop| |].
  - unfold no_last_bslash in *. rewrite <-(take_drop n l), last_app in H2. by destruct (last (drop n l)).
  - intros a b E. apply (H3 (take n l ++ a) b). by rewrite <-app_assoc, <-E, take_drop.
Qed.
Lemma text_safe_drop_while N P l : text_safe N l → text_safe N (drop_while P l).
Proof. intros H. rewrite drop_while_drop. by apply text_safe_drop. Qed.
Lemma text_safe_tail N c l : text_safe N (c :: l) → text_safe N l.
Proof. apply (text_safe_drop N 1). Qed.
#[local] Hint Resolve text_safe_drop text_safe_drop_while text_safe_tail : obby.

Lemma scan_quote_total N esc l :
  text_safe N l → ∃ k, scan_quote esc l = Ok (drop k l).
Proof.
  assert (∀ n l, (length l < n)%nat → text_safe N l → ∃ k, scan_quote esc l = Ok (drop k l)) as H; [|by apply (H (S (length l))); auto].
  clear l. induction n as [|n IH]; intros l Hn Hs; [lia|]. destruct l as [|c l]; [by exists 0%nat|]. simpl in Hn.
  cbn [scan_quote]. destruct (Z.eqb_spec c BSLASH) as [->|].
  - destruct l as [|d r]; [by destruct Hs as [_ Hb _]; exfalso; apply Hb|]. simpl in Hn.
    destruct ((d =? BSLASH) || (d =? DQUOTE) || (d =? QUOTE)).
    + destruct (IH r) as [k Hk]; [lia|eauto with obby|]. by exists (S (S k)).
    + destruct (IH (d :: r)) as [k Hk]; [simpl; lia|eauto with obby|]. by exists (S k).
  - destruct (c =? LF); [by exists 0%nat|]. destruct (esc && (c =? QUOTE)); [by exists 0%nat|].
    destruct (negb esc && (c =? DQUOTE)); [by exists 0%nat|].
    destruct (IH l) as [k Hk]; [lia|eauto with obby|]. by exists (S k).
Qed.

Lemma scan_comment_suffix l line r line' : scan_comment l line = Some (r, line') → ∃ k, r = drop k l.
Proof.
  revert line. induction l as [|c l IH]; intros line; simpl; [done|].
  destruct (c =? LF); [intros H; apply IH in H as [k ->]; by exists (S k)|].
  destruct ((c =? STAR) && (deref l =? SLASH)); [intros [= <- _]; by exists 2%nat|].
  intros H. apply IH in H as [k ->]. by exists (S k).
Qed.

Section Progress.
Context (N : list (list Z)).

Record pstate_ok (s : pstate) : Prop := {
  po_text : text_safe N (ps_rest s);
  po_defines : defines_ok N (ps_defines s);
  po_ccs : Forall (cc_good N) (ps_ccs s)
}.

(** What a round of the loop gives: it goes on with a shorter text, or stops. *)
Definition progress (s : pstate) (o : res (step pstate (option (list ConfigEntry) * list NameValuePrioList))) : Prop :=
  ∃ r, o = Ok r ∧ match r with
                  | Next s' => pstate_ok s' ∧ (length (ps_rest s') < length (ps_rest s))%nat
                  | Done (_, d) => defines_ok N d
                  end.

(** The parts of the state that [pstate_ok] is about, except the text. *)
Definition same_conds (s s' : pstate) : Prop := ps_defines s' = ps_defines s ∧ ps_ccs s' = ps_ccs s.

Lemma progress_next s s' k :
  pstate_ok s → same_conds s s' → (0 < k)%nat → ps_rest s ≠ [] → progress s (Ok (Next (at_ (drop k (ps_rest s)) s'))).
Proof.
  intros [H1 H2 H3] [Hd Hc] Hk Hne. eexists. split; [done|]. split.
  - split; simpl; [by eauto with obby|by rewrite Hd|by rewrite Hc].
  - simpl. rewrite length_drop. destruct (ps_rest s); [done|]. simpl. lia.
Qed.

Lemma progress_stop s s' : pstate_ok s → same_conds s s' → progress s (stop s') ∧ progress s (bail_out s').
Proof. intros [_ H2 _] [Hd _]. split; eexists; (split; [done|]); by rewrite Hd. Qed.

End Progress.

Lemma replace_total d item : cstr item → ∃ o, preprocessor_replace_defines d item = Ok o.
Proof.
  intros Hc. unfold preprocessor_replace_defines. destruct (negb _); [eauto|].
  destruct (replace_loop d (S (length item)) item [] (Z.of_nat REPLACE_BUF - 2) Hc) as (t & t' & -> & _ & _ & Hl & _);
    [lia|unfold REPLACE_BUF; lia|unfold REPLACE_BUF; simpl length; lia|].
  cbn [rbind app] in *. rewrite (proj2 (Nat.ltb_lt _ _)) by done. simpl. eauto.
Qed.

Section Safe.
Context (N : list (list Z)) (e : env) (total : nat).
Hypothesis e_ok : env_ok e.

Lemma got_text_total u start text s :
  cstr text → ∃ s', got_text total u start text s = Ok s' ∧ same_conds s s'.
Proof.
  intros Ht. unfold got_text. destruct (replace_total (ps_defines s) text Ht) as [o ->]. cbn [rbind].
  destruct (ps_curce s) as [ce|]; [destruct (ce_value ce)|]; eexists; (split; [reflexivity|]); done.
Qed.

Lemma quoted_progress c r s s0 :
  pstate_ok N s → ps_rest s = c :: r → same_conds s s0 → progress N s (quoted total r s0).
Proof.
  intros Hs Er Hc. unfold quoted.
  set (s1 := match ps_curce s0, ps_stack s0 with
             | Some ce, _ :: _ => if negb (ce_line_number ce =? ps_line s0) then link total ce (error s0) else s0
             | _, _ => s0 end).
  assert (same_conds s s1) as Hc1.
  { unfold s1. destruct (ps_curce s0), (ps_stack s0); try done. by destruct (negb _). }
  clearbody s1. pose proof (po_text _ _ Hs) as Ht. rewrite Er in Ht. apply text_safe_tail in Ht.
  destruct (scan_quote_total N (match ps_curce s1 with Some ce => ce_escaped ce | None => false end) r Ht) as [k ->].
  cbn [rbind]. destruct (_ || _); [by apply progress_stop|].
  destruct (got_text_total unreal_del_quotes r (take (length r - length (drop k r)) r) s1) as (s2 & -> & Hc2).
  { apply cstr_take, Ht. }
  cbn [rbind]. replace (drop 1 (drop k r)) with (drop (S (k + 1)) (ps_rest s)) by (by rewrite Er, drop_drop).
  apply progress_next; [done| |lia|by rewrite Er]. destruct Hc1, Hc2. split; congruence.
Qed.

Lemma word_progress c r s :
  pstate_ok N s → ps_rest s = c :: r → in_word c = true → progress N s (word total s).
Proof.
  intros Hs Er Hw. unfold word. destruct ((deref (ps_rest s) =? STAR) && _); [by apply progress_next; [done|..|lia|by rewrite Er]|].
  destruct (bool_decide_reflect (drop_while in_word (ps_rest s) = [])) as [E|E]; [by apply progress_stop|].
  destruct (got_text_total id (ps_rest s) (take_while in_word (ps_rest s)) s) as (s1 & -> & Hc).
  { apply cstr_take_while, Hs. }
  cbn [rbind]. set (b := (_ =? SEMI) || _). rewrite drop_while_drop.
  assert (1 ≤ length (take_while in_word (ps_rest s)))%nat as Hl by (rewrite Er; simpl; rewrite Hw; simpl; lia).
  destruct b; [|rewrite drop_drop]; apply progress_next; try done; try lia; by rewrite Er.
Qed.

Lemma set_priority_good p cc : cc_good N cc → cc_good N (set_priority p cc).
Proof. by intros [? ? ? ?]; split. Qed.

Lemma flip_else_good level ccs ccs' : Forall (cc_good N) ccs → flip_else level ccs = Some ccs' → Forall (cc_good N) ccs'.
Proof.
  intros H. revert ccs'. induction H as [|cc ccs [? ? ? ?] Hccs IH]; intros ccs'; simpl; [by intros [= <-]|].
  destruct (cc_priority cc =? level).
  - destruct (cc_had_else cc); [done|]. intros [= <-]. by constructor.
  - destruct (flip_else level ccs) as [r|]; [|done]. intros [= <-]. constructor; [done|by apply IH].
Qed.

Lemma free_level_good level ccs : Forall (cc_good N) ccs → Forall (cc_good N) (preprocessor_cc_free_level ccs level).
Proof. rewrite !Forall_forall. intros H x Hx. apply list_elem_of_filter in Hx as [_ Hx]. by apply H. Qed.

Lemma directive_line_ok s r : pstate_ok N s → ps_rest s = AT :: r →
  cstr (take_while not_lf (ps_rest s)) ∧ line_safe N (take_while not_lf (ps_rest s)).
Proof. intros [[H1 _ H3] _ _] Er. split; [by apply cstr_take_while|]. rewrite Er in *. by apply (H3 []). Qed.

Lemma directive_progress s r :
  pstate_ok N s → ps_rest s = AT :: r → progress N s (directive e s).
Proof.
  intros Hs Er. unfold directive.
  assert (∀ s', defines_ok N (ps_defines s') → Forall (cc_good N) (ps_ccs s') →
    progress N s (Ok (Next (at_ (drop 1 (drop_while not_lf (ps_rest s))) s')))) as Hnext.
  { intros s' Hd Hc. eexists. split; [done|]. split; [split; simpl; [|done..]|].
    - apply text_safe_drop, text_safe_drop_while, Hs.
    - simpl. rewrite drop_while_drop, drop_drop, length_drop. rewrite Er. simpl. lia. }
  assert (∀ s', defines_ok N (ps_defines s') → progress N s (stop s')) as Hstop by (intros s' Hd; eexists; by split).
  pose proof Hs as [_ Hd Hc].
  assert (∃ b, match ps_ccs s with [] => Ok false
    | _ => let! b := preprocessor_resolve_if e (ps_defines s) PREPROCESSOR_PHASE_INITIAL (ps_ccs s) in Ok (negb b) end = Ok b) as [skip ->].
  { destruct (ps_ccs s) as [|cc ccs]; [eauto|].
    destruct (resolve_if_total N e (ps_defines s) PREPROCESSOR_PHASE_INITIAL (cc :: ccs)) as [b ->]; eauto. }
  cbn [rbind]. destruct (skip && _ && _ && _); [by apply Hnext|].
  destruct (directive_line_ok s r Hs Er) as [Hl Hq].
  destruct (parse_preprocessor_item e (ps_defines s) (take_while not_lf (ps_rest s))) as [[n cc] d] eqn:Ep.
  destruct (directive_good N _ _ _ _ _ _ e_ok Hd Hl Hq Ep) as [Hd' Hif]. cbv zeta. destruct n.
  - by apply Hstop.
  - by apply Hnext.
  - destruct (Hif eq_refl) as (c & -> & Hg). apply Hnext; [done|]. constructor; [by apply set_priority_good|done].
  - apply Hnext; [by destruct (ps_level _ =? 0)|]. simpl. destruct (ps_level s =? 0); by apply free_level_good.
  - destruct (ps_level _ =? 0); [by apply Hnext|]. simpl.
    destruct (flip_else (ps_level s) (ps_ccs s)) as [ccs|] eqn:Ef; [|by apply Hstop].
    apply Hnext; [done|]. by eapply flip_else_good.
  - by apply Hnext.
  - by apply Hnext.
Qed.

Lemma parse_body_progress s : pstate_ok N s → progress N s (parse_body e total s).
Proof.
  intros Hs. unfold parse_body. destruct (ps_rest s) as [|c r] eqn:Er; [by apply progress_stop|].
  assert (∀ s' k, same_conds s s' → progress N s (Ok (Next (at_ (drop k r) s')))) as Hn.
  { intros s' k Hc. replace (drop k r) with (drop (S k) (ps_rest s)) by (by rewrite Er).
    apply progress_next; [done|done|lia|by rewrite Er]. }
  assert (∀ s', same_conds s s' → progress N s (Ok (Next (at_ r s')))) as H0 by (intros s'; apply (Hn s' 0%nat)).
  assert (∀ P k s', same_conds s s' → progress N s (Ok (Next (at_ (drop_while P (drop k r)) s')))) as Hw.
  { intros P k s' Hc. rewrite drop_while_drop, drop_drop. by apply Hn. }
  destruct (c =? SEMI) eqn:Esemi; [destruct (ps_curce s); by apply H0|].
  destruct (c =? LBRACE); [destruct (ps_curce s); [destruct (negb _)|]; by apply H0|].
  destruct (c =? RBRACE).
  { destruct (ps_curce s); [by apply progress_stop|]. destruct (ps_stack s) as [|[sec outer] stack]; [by apply H0|].
    destruct (negb _); by apply H0. }
  destruct (c =? HASH); [by apply (Hw not_lf 0%nat)|].
  assert (in_word c = true → progress N s (word total s)) as Hword by (by apply (word_progress c r)).
  destruct (Z.eqb_spec c SLASH) as [->|].
  { destruct (deref r =? SLASH); [by apply Hw|]. destruct (deref r =? STAR); [|by apply Hword].
    destruct (scan_comment (drop 1 r) (ps_line s)) as [[q line]|] eqn:Ec; [|by apply progress_stop].
    apply scan_comment_suffix in Ec as [k ->]. rewrite drop_drop. by apply Hn. }
  destruct (c =? QUOTE); [apply (quoted_progress c r); [done..|by destruct (ps_curce s)]|].
  destruct (c =? DQUOTE); [by apply (quoted_progress c r)|].
  destruct (c =? LF) eqn:Elf; [by apply H0|].
  destruct (c =? TAB) eqn:Etab; [by apply H0|]. destruct (c =? SPACE_CH) eqn:Esp; [by apply H0|].
  destruct (c =? EQUAL); [by apply H0|]. destruct (c =? CR); [by apply H0|]. simpl orb. cbv iota.
  destruct (Z.eqb_spec c AT) as [->|]; [by apply (directive_progress s r)|].
  apply Hword. unfold in_word. by rewrite Esp, Etab, Elf, Esemi.
Qed.
End Safe.

(** Blanks instead of CR do not make the name of a variable. *)
Lemma casecmp_no_space n m : cstr n → cstr m → SPACE_CH ∉ n → strcasecmp n m = 0 → SPACE_CH ∉ m.
Proof.
  intros Hn Hm Hs E Hin. apply Z.eqb_eq in E. rewrite strcasecmp_eq in E by done. apply bool_decide_eq_true in E.
  assert (tolower SPACE_CH ∈ casefold m) as H by (by apply (list_elem_of_fmap_2 tolower)). rewrite <-E in H.
  apply list_elem_of_fmap in H as (x & Ex & Hx). unfold cstr in Hn. rewrite Forall_forall in Hn. pose proof (Hn x Hx) as Hc. unfold cchar in Hc.
  rewrite !tolower_ascii in Ex by (first [by apply cchar_byte, Hn | done]). change (ascii_lower SPACE_CH) with SPACE_CH in Ex.
  unfold ascii_lower in Ex. destruct ((65 <=? x) && (x <=? 90)) eqn:Eu; [|by subst x].
  apply andb_true_iff in Eu as [?%Z.leb_le ?%Z.leb_le]. lia.
Qed.

Lemma take_while_blank t :
  let f := λ c, if c =? CR then SPACE_CH else c in take_while not_lf (f <$> t) = f <$> take_while not_lf t.
Proof.
  induction t as [|y t IH]; [done|]. cbn [fmap list_fmap take_while]. destruct (Z.eqb_spec y CR) as [->|].
  - change (not_lf SPACE_CH) with true. change (not_lf CR) with true. cbn. f_equal. exact IH.
  - destruct (not_lf y); [|done]. cbn [fmap list_fmap]. rewrite (proj2 (Z.eqb_neq y CR)) by done. f_equal. exact IH.
Qed.

Lemma map_cr_safe N l :
  Forall (λ n, cstr n ∧ SPACE_CH ∉ n) N → text_safe N l → text_safe N (map (λ c, if c =? CR then SPACE_CH else c) l).
Proof.
  intros HN [H1 H2 H3]. set (f := λ c, if c =? CR then SPACE_CH else c).
  assert (∀ x, f x = BSLASH ∨ f x = AT ∨ f x = DQUOTE ∨ f x = LF → f x = x) as Hf.
  { intros x. unfold f. destruct (x =? CR); [|done]. by intros [?|[?|[?|?]]]. }
  split.
  - eapply Forall_fmap, Forall_impl; [exact H1|]. intros x Hx. unfold compose, f. by destruct (x =? CR).
  - unfold no_last_bslash in *. rewrite fmap_last. destruct (last l) as [x|]; simpl; [|done].
    intros [= E]. apply H2. f_equal. rewrite <-E. symmetry. apply Hf. by left.
  - intros a b E. apply fmap_app_inv in E as (a' & b' & -> & Eb & ->).
    destruct b' as [|x b']; [done|]. injection Eb as Ex Eb.
    assert (x = AT) as -> by (rewrite <-(Hf x); [done|rewrite <-Ex; auto]).
    destruct (H3 a' b' eq_refl) as [Hq Hm].
    assert (take_while not_lf (AT :: b) = f <$> take_while not_lf (AT :: b')) as ->.
    { rewrite Eb. exact (take_while_blank (AT :: b')). }
    assert (cstr (take_while not_lf (AT :: b'))) as Hc by (apply cstr_take_while; unfold cstr in H1 |- *; rewrite Forall_app in H1; apply H1).
    generalize dependent (take_while not_lf (AT :: b')). intros t Hq Hm Hc. split.
    + intros u v E. apply fmap_app_inv in E as (u' & v' & -> & Ev & ->).
      destruct v' as [|y [|z v']]; try done. injection Ev as Ey Ez ->.
      assert (y = DQUOTE) as -> by (rewrite <-(Hf y); [done|rewrite <-Ey; auto]).
      assert (z = DQUOTE) as -> by (rewrite <-(Hf z); [done|rewrite <-Ez; auto]). by apply (Hq u' v').
    + unfold mentions_none in *. rewrite !Forall_forall in *. intros n Hn u m v E Ecmp. destruct (HN n Hn) as [Hcn Hsn].
      apply fmap_app_inv in E as (u' & w & -> & Ew & ->). symmetry in Ew. apply fmap_app_inv in Ew as (m' & v' & -> & -> & ->).
      assert (cstr m') as Hcm by (unfold cstr in Hc |- *; rewrite !Forall_app in Hc; apply Hc).
      assert (f <$> m' = m') as Em; [|rewrite Em in Ecmp; by apply (Hm n Hn u' m' v')].
      assert (SPACE_CH ∉ f <$> m') as Hs.
      { apply (casecmp_no_space n); [done| |done|done]. eapply Forall_fmap, Forall_impl; [exact Hcm|]. intros x Hx. unfold compose, f. by destruct (x =? CR). }
      clear -Hs. induction m' as [|x m IH]; [done|]. cbn [fmap list_fmap] in *. apply not_elem_of_cons in Hs as [Hx Hs]. rewrite (IH Hs).
      f_equal. unfold f in *. by destruct (x =? CR).
Qed.

(** C37.  Reading a configuration file is safe: for every text that does not end in
    a backslash and has no empty value in a line of the preprocessor, the parser
    ends, reads nothing outside the text, decides every condition it meets, and
    answers with entries or with an error; the defines stay well-formed.  Variables
    [N] may be defined without a value, as UNREALIRCD_VERSION_SUFFIX is at the start
    in a release ([init_defines_ok]), if their names are nowhere in the lines of the
    preprocessor: comparing them would be a fault ([empty_define_is_null]).  No
    variable of the environment and no version of a module is empty. *)
Theorem config_parse_total N e d confdata offset :
  env_ok e → Forall (λ n, cstr n ∧ SPACE_CH ∉ n) N → defines_ok N d → text_safe N confdata →
  ∃ r d', config_parse_with_offset e d confdata offset = Ok (r, d') ∧ defines_ok N d'.
Proof.
  intros He HN Hd Ht. unfold config_parse_with_offset. set (text := map _ confdata).
  destruct (loop_total (parse_body e (length text)) (pstate_ok N) (λ s, length (ps_rest s)) (λ r, defines_ok N r.2))
    with (fuel := S (length text)) (s := PS text (1 + offset) 0 None [] [] 0 [] d) as ([r d'] & E & H).
  - intros s Hs. destruct (parse_body_progress N e (length text) He s Hs) as (o & -> & Ho). exists o. split; [done|].
    by destruct o as [s'|[x y]].
  - split; [by apply map_cr_safe|done|constructor].
  - simpl. lia.
  - by exists r, d'.
Qed.

(** ** Theory: what is written is read *)

(** A configuration as it is meant: entries with a value and a section, and
    alternatives under a condition. *)
Inductive doc :=
| DEntry (name : list Z) (value : option (list Z)) (items : option (list doc))
| DIf (cc : ConditionalConfig) (yes no : list doc).

Definition quote_text (s : list Z) : list Z := [DQUOTE] ++ add_quotes s (2 * length s) ++ [DQUOTE].

Fixpoint print_doc (d : doc) : list Z :=
  match d with
  | DEntry name value items =>
      quote_text name ++
      match value with None => [] | Some v => SPACE_CH :: quote_text v end ++
      match items with None => [] | Some l => [SPACE_CH; LBRACE; LF] ++ flat_map print_doc l ++ [RBRACE] end ++
      [SEMI; LF]
  | DIf cc yes no =>
      bs "@if " ++ print_cond cc ++ [LF] ++ flat_map print_doc yes ++
      bs "@else" ++ [LF] ++ flat_map print_doc no ++ bs "@endif" ++ [LF]
  end.

Definition else_of (cc : ConditionalConfig) : ConditionalConfig :=
  CC (cc_priority cc) (cc_condition cc) (negb (cc_negative cc)) (cc_compare_op cc) true (cc_name cc) (cc_opt cc).

(** The entries it stands for, each with the conditions around it, the outermost
    first; lines and positions are left out. *)
Fixpoint doc_entries (level : Z) (ccs : list ConditionalConfig) (d : doc) : list ConfigEntry :=
  match d with
  | DEntry name value items =>
      [CE name value (match items with None => [] | Some l => flat_map (doc_entries level ccs) l end)
          0 0 0 0 (reverse ccs) false]
  | DIf cc yes no =>
      let cc := set_priority (level + 1) cc in
      flat_map (doc_entries (level + 1) (cc :: ccs)) yes ++ flat_map (doc_entries (level + 1) (else_of cc :: ccs)) no
  end.

Fixpoint erase (ce : ConfigEntry) : ConfigEntry :=
  CE (ce_name ce) (ce_value ce) (map erase (ce_items ce)) 0 0 0 0 (ce_conditional_config ce) (ce_escaped ce).

Definition text_ok (s : list Z) : Prop := Forall (λ c, cchar c ∧ c ≠ LF ∧ c ≠ CR ∧ c ≠ DOLLAR) s.

Fixpoint doc_ok (N : list (list Z)) (d : doc) : Prop :=
  match d with
  | DEntry name value items =>
      text_ok name ∧ match value with None => True | Some v => text_ok v end ∧
      match items with
      | None => True
      | Some l => (fix go (l : list doc) : Prop := match l with [] => True | x :: r => doc_ok N x ∧ go r end) l
      end
  | DIf cc yes no =>
      cond_ok cc ∧ tests_none N cc ∧ Forall (λ c, cchar c ∧ c ≠ LF ∧ c ≠ CR) (print_cond cc) ∧ (length (print_cond cc) ≤ 507)%nat ∧
      (fix go (l : list doc) : Prop := match l with [] => True | x :: r => doc_ok N x ∧ go r end) yes ∧
      (fix go (l : list doc) : Prop := match l with [] => True | x :: r => doc_ok N x ∧ go r end) no
  end.

Section DocInd.
Variable P : doc → Prop.
Hypothesis step_entry : ∀ name value items, Forall P (default [] items) → P (DEntry name value items).
Hypothesis step_if : ∀ cc yes no, Forall P yes → Forall P no → P (DIf cc yes no).
Fixpoint doc_ind2 (d : doc) : P d :=
  let go := fix go (l : list doc) : Forall P l :=
    match l with [] => Forall_nil_2 _ | x :: r => Forall_cons_2 _ _ _ (doc_ind2 x) (go r) end in
  match d with
  | DEntry name value items => step_entry name value items
      (match items return Forall P (default [] items) with None => Forall_nil_2 _ | Some l => go l end)
  | DIf cc yes no => step_if cc yes no (go yes) (go no)
  end.
End DocInd.

Lemma docs_ok_Forall N l :
  (fix go (l : list doc) : Prop := match l with [] => True | x :: r => doc_ok N x ∧ go r end) l ↔ Forall (doc_ok N) l.
Proof.
  induction l as [|d l IH]; [split; [constructor|done]|]. rewrite IH.
  split; [by intros [? ?]; constructor|by inversion 1].
Qed.

(** *** Quotes *)

Lemma del_add_quotes s len : (2 * length s ≤ len)%nat → unreal_del_quotes (add_quotes s len) = s.
Proof.
  revert len. induction s as [|c s IH]; intros len Hl; [done|]. simpl in Hl. cbn [add_quotes].
  destruct (Z.eqb_spec c DQUOTE) as [->|]; simpl orb; cbv iota.
  { destruct (Nat.ltb_spec len 2); [lia|]. cbn. by rewrite IH by lia. }
  destruct (Z.eqb_spec c BSLASH) as [->|Hb]; simpl orb; cbv iota.
  { destruct (Nat.ltb_spec len 2); [lia|]. cbn. by rewrite IH by lia. }
  destruct (Nat.eqb_spec len 0); [lia|]. cbn [unreal_del_quotes]. rewrite (proj2 (Z.eqb_neq _ _)) by done.
  by rewrite IH by lia.
Qed.

Lemma scan_add_quotes s len r :
  LF ∉ s → (2 * length s ≤ len)%nat → scan_quote false (add_quotes s len ++ DQUOTE :: r) = Ok (DQUOTE :: r).
Proof.
  revert len. induction s as [|c s IH]; intros len Hs Hl; [done|]. simpl in Hl. apply not_elem_of_cons in Hs as [Hc Hs].
  cbn [add_quotes].
  destruct (Z.eqb_spec c DQUOTE) as [->|]; simpl orb; cbv iota.
  { destruct (Nat.ltb_spec len 2); [lia|]. apply IH; [done|lia]. }
  destruct (Z.eqb_spec c BSLASH) as [->|Hb]; simpl orb; cbv iota.
  { destruct (Nat.ltb_spec len 2); [lia|]. apply IH; [done|lia]. }
  destruct (Nat.eqb_spec len 0); [lia|]. cbn [app scan_quote].
  rewrite (proj2 (Z.eqb_neq c BSLASH)), (proj2 (Z.eqb_neq c LF)), (proj2 (Z.eqb_neq c DQUOTE)) by congruence.
  simpl. apply IH; [done|lia].
Qed.

Lemma add_quotes_chars (P : Z → Prop) s len : P BSLASH → Forall P s → Forall P (add_quotes s len).
Proof.
  intros Hb H. revert len. induction H as [|c s Hc _ IH]; intros len; simpl; [constructor|].
  destruct ((c =? DQUOTE) || (c =? BSLASH)).
  - destruct (len <? 2)%nat; [constructor|]. constructor; [done|]. by constructor.
  - destruct (len =? 0)%nat; [constructor|]. by constructor.
Qed.

Lemma replace_plain d s : DOLLAR ∉ s → preprocessor_replace_defines d s = Ok s.
Proof. intros H. unfold preprocessor_replace_defines. by rewrite bool_decide_eq_false_2. Qed.

Lemma duplicate_list_reverse ccs : preprocessor_cc_duplicate_list ccs = reverse ccs.
Proof.
  unfold preprocessor_cc_duplicate_list.
  assert (∀ out, foldl (λ out cc, cc :: out) out ccs = reverse ccs ++ out) as H; [|by rewrite H, app_nil_r].
  induction ccs as [|cc ccs IH]; intros out; [done|]. simpl. by rewrite IH, reverse_cons, <-app_assoc.
Qed.

(** *** Rounds of the loop *)

Section Run.
Context (N : list (list Z)) (e : env) (total : nat).
Hypothesis e_ok : env_ok e.
Abbreviation body := (parse_body e total).

(** Some rounds, no more than the characters they take. *)
Definition runs (s s' : pstate) : Prop :=
  ∃ k, (k + length (ps_rest s') ≤ length (ps_rest s))%nat ∧ ∀ fuel, loop body (k + fuel) s = loop body fuel s'.

Lemma runs_refl s : runs s s.
Proof. by exists 0%nat. Qed.
Lemma runs_trans s1 s2 s3 : runs s1 s2 → runs s2 s3 → runs s1 s3.
Proof.
  intros (k & Hk & H) (k' & Hk' & H'). exists (k + k')%nat. split; [lia|].
  intros fuel. by rewrite <-Nat.add_assoc, H, H'.
Qed.
Lemma runs_step s s' : body s = Ok (Next s') → (length (ps_rest s') < length (ps_rest s))%nat → runs s s'.
Proof. intros Hb Hl. exists 1%nat. split; [lia|]. intros fuel. simpl. by rewrite Hb. Qed.


Lemma quoted_text s r t :
  LF ∉ t → ps_rest s = quote_text t ++ r →
  (∀ ce x y, ps_curce s = Some ce → ps_stack s = x :: y → ce_line_number ce = ps_line s) →
  (∀ ce, ps_curce s = Some ce → ce_escaped ce = false) →
  body s = let! s' := got_text total unreal_del_quotes (drop 1 (ps_rest s)) (add_quotes t (2 * length t)) s in Ok (Next (at_ r s')).
Proof.
  intros Ht Er Hline Hesc. unfold parse_body. rewrite Er. unfold quote_text. rewrite <-!app_assoc. cbn [app].
  change (DQUOTE =? SEMI) with false. change (DQUOTE =? LBRACE) with false. change (DQUOTE =? RBRACE) with false.
  change (DQUOTE =? HASH) with false. change (DQUOTE =? SLASH) with false. change (DQUOTE =? QUOTE) with false.
  change (DQUOTE =? DQUOTE) with true. cbv iota. unfold quoted.
  assert (match ps_curce s, ps_stack s with
    | Some ce, _ :: _ => if negb (ce_line_number ce =? ps_line s) then link total ce (error s) else s
    | _, _ => s end = s) as ->.
  { destruct (ps_curce s) as [ce|] eqn:Ec, (ps_stack s) as [|x y] eqn:Es; try done.
    rewrite (Hline ce x y), Z.eqb_refl by done. done. }
  assert (match ps_curce s with Some ce => ce_escaped ce | None => false end = false) as ->
    by (destruct (ps_curce s); auto).
  rewrite scan_add_quotes by (done || lia). cbn [rbind]. change (deref (DQUOTE :: r) =? 0) with false.
  change (deref (DQUOTE :: r) =? LF) with false. simpl orb. cbv iota.
  assert (take (length (add_quotes t (2 * length t) ++ DQUOTE :: r) - length (DQUOTE :: r)) (add_quotes t (2 * length t) ++ DQUOTE :: r)
    = add_quotes t (2 * length t)) as ->.
  { rewrite length_app. replace (_ - _)%nat with (length (add_quotes t (2 * length t))) by lia. apply take_app_length. }
  done.
Qed.

Lemma text_ok_chars t : text_ok t → (LF ∉ t) ∧ DOLLAR ∉ add_quotes t (2 * length t).
Proof.
  intros H. split.
  - intros Hin. unfold text_ok in H. rewrite Forall_forall in H. by destruct (H _ Hin) as (_ & ? & _).
  - assert (Forall (λ c, c ≠ DOLLAR) (add_quotes t (2 * length t))) as H'.
    { apply add_quotes_chars; [done|]. eapply Forall_impl; [exact H|]. by intros c (_ & _ & _ & ?). }
    intros Hin. rewrite Forall_forall in H'. by apply (H' DOLLAR).
Qed.

Lemma run_name t s r :
  text_ok t → ps_curce s = None →
  ∃ p, runs (at_ (quote_text t ++ r) s)
    (at_ r (set_curce (Some (CE t None [] (ps_line s) p 0 0 (reverse (ps_ccs s)) false)) s)).
Proof.
  intros Ht Hc. destruct (text_ok_chars t Ht) as [Hlf Hd]. eexists. apply runs_step.
  - rewrite (quoted_text _ r t); [|done|done|simpl; by rewrite Hc|simpl; by rewrite Hc].
    unfold got_text. simpl ps_curce. rewrite Hc. simpl ps_defines. rewrite replace_plain by done. cbn [rbind].
    rewrite del_add_quotes by lia. rewrite duplicate_list_reverse. reflexivity.
  - simpl. rewrite length_app. simpl. lia.
Qed.

Lemma run_value t s r ce :
  text_ok t → ps_curce s = Some ce → ce_value ce = None → ce_escaped ce = false → ce_line_number ce = ps_line s →
  runs (at_ (quote_text t ++ r) s) (at_ r (set_curce (Some (set_value t ce)) s)).
Proof.
  intros Ht Hc Hv He Hl. destruct (text_ok_chars t Ht) as [Hlf Hd]. apply runs_step.
  - rewrite (quoted_text _ r t); [|done|done|simpl; rewrite Hc; by intros ? ? ? [= <-]|simpl; rewrite Hc; by intros ? [= <-]].
    unfold got_text. simpl ps_curce. rewrite Hc. rewrite Hv. simpl ps_defines. rewrite replace_plain by done. cbn [rbind].
    rewrite del_add_quotes by lia. reflexivity.
  - simpl. rewrite length_app. simpl. lia.
Qed.

(** One character. *)
Lemma run_space s r : runs (at_ (SPACE_CH :: r) s) (at_ r s).
Proof. apply runs_step; [reflexivity|simpl; lia]. Qed.
Lemma run_lf s r : runs (at_ (LF :: r) s) (at_ r (set_line (ps_line s + 1) s)).
Proof. apply runs_step; [reflexivity|simpl; lia]. Qed.
Lemma run_semi s r ce :
  ps_curce s = Some ce →
  ∃ p, runs (at_ (SEMI :: r) s) (at_ r (set_curce None (set_lists (ps_stack s) (ps_items s ++ [set_end p ce]) s))).
Proof. intros Hc. eexists. apply runs_step; [|simpl; lia]. cbn. by rewrite Hc. Qed.
Lemma run_lbrace s r ce :
  ps_curce s = Some ce → ce_items ce = [] →
  runs (at_ (LBRACE :: r) s)
    (at_ r (set_curce None (set_lists ((set_section_line (ps_line s) ce, ps_items s) :: ps_stack s) [] s))).
Proof. intros Hc Hi. apply runs_step; [|simpl; lia]. cbn. rewrite Hc, Hi. reflexivity. Qed.
Lemma run_rbrace s r sec outer stack :
  ps_curce s = None → ps_stack s = (sec, outer) :: stack →
  ∃ p, runs (at_ (RBRACE :: SEMI :: r) s)
    (at_ (SEMI :: r) (set_curce (Some (set_end p (set_items (ps_items s) sec))) (set_lists stack outer s))).
Proof. intros Hc Hst. eexists. apply runs_step; [|simpl; lia]. cbn. rewrite Hc, Hst. reflexivity. Qed.

(** *** Directives *)

Lemma cond_good cc : cond_ok cc → tests_none N cc → cstr (print_cond cc) → cc_good N cc.
Proof.
  intros Hc Hn Ht. destruct (evaluate_if_good [] (print_cond cc) cc Ht (Forall_nil_2 _) (evaluate_if_print cc Hc)) as [H1 H2 H3 _]. by split.
Qed.

Definition conds_ok (s : pstate) : Prop :=
  defines_ok N (ps_defines s) ∧ Forall (cc_good N) (ps_ccs s) ∧ 0 ≤ ps_level s ∧
  Forall (λ cc, cc_priority cc ≤ ps_level s) (ps_ccs s).

Lemma directive_line line s r n cc :
  conds_ok s → Forall (λ c, not_lf c = true) line →
  (starts_with (bs "@if ") (line ++ LF :: r) || starts_with (bs "@else") (line ++ LF :: r)
    || starts_with (bs "@endif") (line ++ LF :: r)) = true → deref line = AT →
  parse_preprocessor_item e (ps_defines s) line = (n, cc, ps_defines s) →
  body (at_ (line ++ LF :: r) s) =
    let s := at_ (line ++ LF :: r) (set_line (ps_line s + 1) s) in
    match n with
    | PREPROCESSOR_IF =>
        match cc with
        | None => UB
        | Some cc => Ok (Next (at_ r (set_conds (ps_level s + 1) (set_priority (ps_level s + 1) cc :: ps_ccs s) s)))
        end
    | PREPROCESSOR_ELSE =>
        if ps_level s =? 0 then Ok (Next (at_ r (error s)))
        else match flip_else (ps_level s) (ps_ccs s) with
             | None => stop (error s)
             | Some ccs => Ok (Next (at_ r (set_conds (ps_level s) ccs s)))
             end
    | PREPROCESSOR_ENDIF =>
        let s := if ps_level s =? 0 then error s else s in
        Ok (Next (at_ r (set_conds (ps_level s - 1) (preprocessor_cc_free_level (ps_ccs s) (ps_level s)) s)))
    | PREPROCESSOR_ERROR => stop (error s)
    | PREPROCESSOR_USER_ERROR => Ok (Next (at_ r (error s)))
    | PREPROCESSOR_DEFINE | PREPROCESSOR_USER_WARNING => Ok (Next (at_ r s))
    end.
Proof.
  intros (Hd & Hg & _ & _) Hl Hst Hat Hp. destruct line as [|c line]; [done|]. simpl in Hat. subst c.
  change (body (at_ ((AT :: line) ++ LF :: r) s)) with (directive e (at_ ((AT :: line) ++ LF :: r) s)).
  unfold directive. simpl ps_ccs. simpl ps_defines. simpl ps_rest.
  assert (∃ b, match ps_ccs s with [] => Ok false
    | _ => let! b := preprocessor_resolve_if e (ps_defines s) PREPROCESSOR_PHASE_INITIAL (ps_ccs s) in Ok (negb b) end = Ok b) as [skip ->].
  { destruct (ps_ccs s) as [|x ccs]; [eauto|].
    destruct (resolve_if_total N e (ps_defines s) PREPROCESSOR_PHASE_INITIAL (x :: ccs)) as [b ->]; eauto. }
  cbn [rbind]. change (AT :: line ++ LF :: r) with ((AT :: line) ++ LF :: r).
  assert (skip && negb (starts_with (bs "@if ") ((AT :: line) ++ LF :: r)) && negb (starts_with (bs "@else") ((AT :: line) ++ LF :: r))
    && negb (starts_with (bs "@endif") ((AT :: line) ++ LF :: r)) = false) as ->.
  { revert Hst. destruct skip; [|done]. destruct (starts_with (bs "@if ") _), (starts_with (bs "@else") _), (starts_with (bs "@endif") _); done. }
  assert (take_while not_lf ((AT :: line) ++ LF :: r) = AT :: line) as ->.
  { rewrite take_while_app by done. simpl. by rewrite app_nil_r. }
  assert (drop_while not_lf ((AT :: line) ++ LF :: r) = LF :: r) as -> by (by rewrite drop_while_app).
  change (drop 1 (LF :: r)) with r. rewrite Hp. destruct s. reflexivity.
Qed.

Lemma item_if d cc : cond_ok cc → (length (print_cond cc) ≤ 507)%nat →
  parse_preprocessor_item e d (bs "@if " ++ print_cond cc) = (PREPROCESSOR_IF, Some cc, d).
Proof.
  intros Hc Hl. unfold parse_preprocessor_item.
  assert (length (bs "@if " ++ print_cond cc) = (4 + length (print_cond cc))%nat) as El by (by rewrite length_app).
  destruct (Nat.ltb_spec 512 (length (bs "@if " ++ print_cond cc) + 1)); [lia|].
  rewrite strlcpy_take by lia. rewrite take_ge by lia.
  change (starts_with (bs "@define") (bs "@if " ++ print_cond cc)) with false.
  change (starts_with (bs "@if ") (bs "@if " ++ print_cond cc)) with true. cbv iota.
  change (drop 4 (bs "@if " ++ print_cond cc)) with (print_cond cc). by rewrite evaluate_if_print.
Qed.

Lemma run_if cc s r :
  conds_ok s → cond_ok cc → tests_none N cc → Forall (λ c, cchar c ∧ c ≠ LF ∧ c ≠ CR) (print_cond cc) → (length (print_cond cc) ≤ 507)%nat →
  let s' := set_conds (ps_level s + 1) (set_priority (ps_level s + 1) cc :: ps_ccs s) (set_line (ps_line s + 1) s) in
  runs (at_ (bs "@if " ++ print_cond cc ++ LF :: r) s) (at_ r s') ∧ conds_ok s'.
Proof.
  intros Hs Hc Hn Ht Hl s'. split.
  - apply runs_step; [|simpl; rewrite length_app; simpl; lia]. rewrite (app_assoc (bs "@if ")).
    rewrite (directive_line _ s r PREPROCESSOR_IF (Some cc)); [reflexivity|done| |reflexivity|reflexivity|by apply item_if].
    apply Forall_app. split; [repeat constructor|]. eapply Forall_impl; [exact Ht|]. intros c (_ & Hlf & _).
    unfold not_lf. by rewrite (proj2 (Z.eqb_neq _ _)).
  - destruct Hs as (Hd & Hg & Hlv & Hp). split_and!; [done| |simpl; lia|].
    + constructor; [|done]. apply set_priority_good. apply cond_good; [done|done|].
      eapply Forall_impl; [exact Ht|]. by intros c [? _].
    + constructor; [simpl; lia|]. eapply Forall_impl; [exact Hp|]. simpl. lia.
Qed.

Lemma run_else cc ccs s r :
  conds_ok s → ps_ccs s = cc :: ccs → cc_priority cc = ps_level s → cc_had_else cc = false → ps_level s ≠ 0 →
  let s' := set_conds (ps_level s) (else_of cc :: ccs) (set_line (ps_line s + 1) s) in
  runs (at_ (bs "@else" ++ LF :: r) s) (at_ r s') ∧ conds_ok s'.
Proof.
  intros Hs Hc Hp He Hl s'. split.
  - apply runs_step; [|simpl; lia].
    rewrite (directive_line _ s r PREPROCESSOR_ELSE None); [|done|repeat constructor|reflexivity|reflexivity|reflexivity].
    cbv zeta. simpl ps_level. simpl ps_ccs. rewrite (proj2 (Z.eqb_neq _ _)) by done. rewrite Hc. cbn [flip_else].
    rewrite Hp, Z.eqb_refl, He. unfold s', else_of. by rewrite Hp.
  - destruct Hs as (Hd & Hg & Hlv & Hpr). rewrite Hc in *. inversion Hg as [|? ? [? ? ? ?] ?]; subst.
    inversion Hpr; subst. split_and!; try done; by constructor.
Qed.

Lemma run_endif cc ccs s r :
  conds_ok s → ps_ccs s = cc :: ccs → cc_priority cc = ps_level s → 0 < ps_level s →
  Forall (λ c, cc_priority c ≤ ps_level s - 1) ccs →
  runs (at_ (bs "@endif" ++ LF :: r) s) (at_ r (set_conds (ps_level s - 1) ccs (set_line (ps_line s + 1) s))).
Proof.
  intros Hs Hc Hp Hl Hccs. apply runs_step; [|simpl; lia].
  rewrite (directive_line _ s r PREPROCESSOR_ENDIF None); [|done|repeat constructor|reflexivity|reflexivity|reflexivity].
  cbv zeta. simpl ps_level. rewrite (proj2 (Z.eqb_neq _ _)) by lia. simpl ps_level. simpl ps_ccs. rewrite Hc.
  assert (preprocessor_cc_free_level (cc :: ccs) (ps_level s) = ccs) as ->; [|done].
  unfold preprocessor_cc_free_level. rewrite filter_cons_False by lia. apply filter_all.
  eapply Forall_impl; [exact Hccs|]. simpl. lia.
Qed.

(** *** Entries *)

Lemma run_head name value s r :
  text_ok name → match value with None => True | Some v => text_ok v end → ps_curce s = None →
  ∃ p, runs (at_ (quote_text name ++ match value with None => [] | Some v => SPACE_CH :: quote_text v end ++ r) s)
    (at_ r (set_curce (Some (CE name value [] (ps_line s) p 0 0 (reverse (ps_ccs s)) false)) s)).
Proof.
  intros Hn Hv Hc. set (t := match value with None => [] | Some v => _ end).
  destruct (run_name name s (t ++ r) Hn Hc) as [p Hp]. exists p. eapply runs_trans; [exact Hp|].
  destruct value as [v|]; [|apply runs_refl]. unfold t. cbn [app]. eapply runs_trans; [apply run_space|].
  exact (run_value v (set_curce (Some (CE name None [] (ps_line s) p 0 0 (reverse (ps_ccs s)) false)) s) r _ Hv eq_refl eq_refl eq_refl eq_refl).
Qed.

Definition doc_runs (d : doc) : Prop :=
  ∀ s r, ps_curce s = None → conds_ok s →
  ∃ line l, runs (at_ (print_doc d ++ r) s) (at_ r (set_line line (set_lists (ps_stack s) (ps_items s ++ l) s))) ∧
    map erase l = doc_entries (ps_level s) (ps_ccs s) d.

Lemma run_docs l s r :
  Forall doc_runs l → ps_curce s = None → conds_ok s →
  ∃ line m, runs (at_ (flat_map print_doc l ++ r) s) (at_ r (set_line line (set_lists (ps_stack s) (ps_items s ++ m) s))) ∧
    map erase m = flat_map (doc_entries (ps_level s) (ps_ccs s)) l.
Proof.
  intros Hl. revert s. induction Hl as [|d l Hd _ IH]; intros s Hc Hs.
  - exists (ps_line s), []. split; [|done]. simpl. rewrite app_nil_r. destruct s. apply runs_refl.
  - destruct (Hd s (flat_map print_doc l ++ r) Hc Hs) as (line & m1 & H1 & E1).
    destruct (IH (set_line line (set_lists (ps_stack s) (ps_items s ++ m1) s)) Hc Hs) as (line2 & m2 & H2 & E2).
    exists line2, (m1 ++ m2). cbn [flat_map]. rewrite <-app_assoc. split.
    + eapply runs_trans; [exact H1|]. rewrite app_assoc. exact H2.
    + rewrite map_app, E1. f_equal. exact E2.
Qed.

Lemma run_entry name value items :
  text_ok name → match value with None => True | Some v => text_ok v end → Forall doc_runs (default [] items) →
  doc_runs (DEntry name value items).
Proof.
  intros Hn Hv Hi s r Hc Hs. cbn [print_doc]. rewrite <-!app_assoc.
  set (sect := match items with None => [] | Some l => _ end).
  destruct (run_head name value s (sect ++ [SEMI; LF] ++ r) Hn Hv Hc) as [p Hp].
  set (ce := CE name value [] (ps_line s) p 0 0 (reverse (ps_ccs s)) false) in Hp.
  assert (∃ line ce', runs (at_ (sect ++ [SEMI; LF] ++ r) (set_curce (Some ce) s))
      (at_ (SEMI :: LF :: r) (set_line line (set_curce (Some ce') s))) ∧
      ∀ q, [erase (set_end q ce')] = doc_entries (ps_level s) (ps_ccs s) (DEntry name value items)) as (line & ce' & Hsec & Ece).
  { unfold sect. destruct items as [l|].
    2:{ exists (ps_line s), ce. split; [destruct s; apply runs_refl|]. done. }
    rewrite <-!app_assoc. cbn [app].
    set (s1 := set_line (ps_line s + 1) (set_curce None (set_lists ((set_section_line (ps_line s) ce, ps_items s) :: ps_stack s) [] s))).
    destruct (run_docs l s1 (RBRACE :: SEMI :: LF :: r) Hi eq_refl Hs) as (line & m & Hm & Em).
    destruct (run_rbrace (set_line line (set_lists (ps_stack s1) (ps_items s1 ++ m) s1)) (LF :: r)
      (set_section_line (ps_line s) ce) (ps_items s) (ps_stack s) eq_refl eq_refl) as [q Hq].
    exists line, (set_end q (set_items m (set_section_line (ps_line s) ce))). split.
    - eapply runs_trans; [apply run_space|]. eapply runs_trans; [by apply (run_lbrace _ _ ce)|].
      eapply runs_trans; [apply run_lf|]. eapply runs_trans; [exact Hm|exact Hq].
    - intros q'. simpl. by rewrite Em. }
  destruct (run_semi (set_line line (set_curce (Some ce') s)) (LF :: r) ce' eq_refl) as [q Hq].
  exists (line + 1), [set_end q ce']. split; [|apply Ece].
  eapply runs_trans; [exact Hp|]. eapply runs_trans; [exact Hsec|]. eapply runs_trans; [exact Hq|].
  destruct s. simpl in Hc. subst. match goal with |- runs (at_ _ ?x) _ => exact (run_lf x r) end.
Qed.

Lemma run_alternative cc yes no :
  cond_ok cc → tests_none N cc → Forall (λ c, cchar c ∧ c ≠ LF ∧ c ≠ CR) (print_cond cc) → (length (print_cond cc) ≤ 507)%nat →
  Forall doc_runs yes → Forall doc_runs no → doc_runs (DIf cc yes no).
Proof.
  intros Hcc Htn Ht Hl Hy Hn s r Hc Hs. cbn [print_doc]. rewrite <-!app_assoc.
  pose proof (co_fresh _ Hcc) as [_ Hne]. pose proof Hs as (_ & _ & Hlv & Hpr).
  set (rest1 := flat_map print_doc yes ++ _).
  destruct (run_if cc s rest1 Hs Hcc Htn Ht Hl) as [R1 Hs1]. set (s1 := set_conds _ _ _) in R1, Hs1.
  destruct (run_docs yes s1 (bs "@else" ++ [LF] ++ flat_map print_doc no ++ bs "@endif" ++ [LF] ++ r) Hy Hc Hs1)
    as (line1 & m1 & R2 & E1).
  set (s2 := set_line line1 (set_lists (ps_stack s1) (ps_items s1 ++ m1) s1)) in R2.
  destruct (run_else (set_priority (ps_level s + 1) cc) (ps_ccs s) s2 (flat_map print_doc no ++ bs "@endif" ++ [LF] ++ r))
    as [R3 Hs3]; [exact Hs1|reflexivity|reflexivity|exact Hne|simpl; lia|].
  set (s3 := set_conds _ _ _) in R3, Hs3.
  destruct (run_docs no s3 (bs "@endif" ++ [LF] ++ r) Hn Hc Hs3) as (line2 & m2 & R4 & E2).
  set (s4 := set_line line2 (set_lists (ps_stack s3) (ps_items s3 ++ m2) s3)) in R4.
  assert (ps_level s4 - 1 = ps_level s) as El by (simpl; lia).
  assert (runs (at_ (bs "@endif" ++ LF :: r) s4) (at_ r (set_conds (ps_level s4 - 1) (ps_ccs s) (set_line (ps_line s4 + 1) s4)))) as R5.
  { eapply run_endif; [exact Hs3|reflexivity|reflexivity|simpl; lia|]. by rewrite El. }
  rewrite El in R5. clear El.
  exists (ps_line s4 + 1), (m1 ++ m2). split.
  - eapply runs_trans; [exact R1|]. eapply runs_trans; [exact R2|]. eapply runs_trans; [exact R3|].
    eapply runs_trans; [exact R4|]. rewrite (app_assoc (ps_items s)). destruct s. exact R5.
  - rewrite map_app. cbn [doc_entries]. f_equal; [exact E1|exact E2].
Qed.

Lemma doc_ok_runs d : doc_ok N d → doc_runs d.
Proof.
  assert (∀ l, Forall (λ d, doc_ok N d → doc_runs d) l → Forall (doc_ok N) l → Forall doc_runs l) as Hall.
  { intros l Hl. induction Hl as [|x l Hx _ IH]; intros Hok; [constructor|]. inversion Hok; subst. constructor; auto. }
  induction d as [name value items IH|cc yes no IHy IHn] using doc_ind2; cbn [doc_ok].
  - intros (Hn & Hv & Hi). apply run_entry; [done..|]. apply Hall; [done|].
    destruct items as [l|]; [by apply docs_ok_Forall in Hi|constructor].
  - intros (Hcc & Htn & Ht & Hl & Hy & Hn). apply docs_ok_Forall in Hy, Hn. apply run_alternative; auto.
Qed.
End Run.

Lemma loop_enough {S R} (b : S → res (step S R)) k fuel s s' r :
  (∀ f, loop b (k + f) s = loop b f s') → b s' = Ok (Done r) → (k < fuel)%nat → loop b fuel s = Ok r.
Proof. intros H Hb Hf. apply (loop_mono _ (k + 1)); [|lia]. rewrite H. simpl. by rewrite Hb. Qed.

Lemma print_doc_no_cr N d : doc_ok N d → CR ∉ print_doc d.
Proof.
  assert (∀ l, Forall (λ d, doc_ok N d → CR ∉ print_doc d) l → Forall (doc_ok N) l → CR ∉ flat_map print_doc l) as Hall.
  { intros l Hl. induction Hl as [|x l Hx _ IH]; intros Hok; [apply not_elem_of_nil|]. inversion Hok; subst.
    simpl. rewrite not_elem_of_app. auto. }
  assert (∀ t, text_ok t → CR ∉ quote_text t) as Hq.
  { intros t Ht. unfold quote_text. rewrite !not_elem_of_app, !list_elem_of_singleton.
    assert (Forall (λ c, c ≠ CR) (add_quotes t (2 * length t))) as H.
    { apply add_quotes_chars; [done|]. eapply Forall_impl; [exact Ht|]. by intros c (_ & _ & ? & _). }
    split_and!; try done. intros Hin. rewrite Forall_forall in H. by apply (H CR). }
  induction d as [name value items IH|cc yes no IHy IHn] using doc_ind2; cbn [doc_ok print_doc].
  - intros (Hn & Hv & Hi). rewrite !not_elem_of_app. split_and!; [by apply Hq| | |by apply (bool_decide_unpack _)].
    + destruct value as [v|]; [|apply not_elem_of_nil]. apply not_elem_of_cons. split; [done|by apply Hq].
    + destruct items as [l|]; [|apply not_elem_of_nil]. rewrite !not_elem_of_app.
      split_and!; [by apply (bool_decide_unpack _)|apply Hall; [done|by apply docs_ok_Forall in Hi]|by apply (bool_decide_unpack _)].
  - intros (Hcc & Htn & Ht & Hl & Hy & Hn). apply docs_ok_Forall in Hy, Hn. rewrite !not_elem_of_app.
    split_and!; try (by apply (bool_decide_unpack _)); try by apply Hall.
    intros Hin. rewrite Forall_forall in Ht. by destruct (Ht _ Hin) as (_ & _ & ?).
Qed.

Lemma parse_docs N e d docs :
  env_ok e → defines_ok N d → Forall (doc_ok N) docs →
  ∃ items, config_parse e d (flat_map print_doc docs) = Ok (Some items, d) ∧
    map erase items = flat_map (doc_entries 0 []) docs.
Proof.
  intros He Hd Hdocs. unfold config_parse, config_parse_with_offset.
  assert (map (λ c, if c =? CR then SPACE_CH else c) (flat_map print_doc docs) = flat_map print_doc docs) as ->.
  { assert (CR ∉ flat_map print_doc docs) as H.
    { induction Hdocs as [|x l Hx _ IH]; [apply not_elem_of_nil|]. simpl. rewrite not_elem_of_app.
      split; [by apply (print_doc_no_cr N)|done]. }
    clear -H. induction (flat_map print_doc docs) as [|c t IH]; [done|]. apply not_elem_of_cons in H as [Hc H]. simpl.
    rewrite IH by done. destruct (Z.eqb_spec c CR); congruence. }
  set (text := flat_map print_doc docs). set (s := PS text (1 + 0) 0 None [] [] 0 [] d).
  destruct (run_docs N e (length text) docs s []) as (line & m & (k & Hk & Hrun) & Em).
  { eapply Forall_impl; [exact Hdocs|]. intros. by apply (doc_ok_runs N). }
  { done. }
  { split_and!; [done|constructor|done|constructor]. }
  exists m. split; [|exact Em]. rewrite app_nil_r in Hrun. simpl in Hk. rewrite app_nil_r in Hk.
  eapply loop_enough; [exact Hrun|reflexivity|]. unfold text in *. lia.
Qed.

(** ** Theory: the meaning of conditional entries *)

(** An entry without lines, positions and conditions. *)
Fixpoint plain (ce : ConfigEntry) : ConfigEntry :=
  CE (ce_name ce) (ce_value ce) (map plain (ce_items ce)) 0 0 0 0 [] (ce_escaped ce).

(** The entries of the alternatives that are chosen. *)
Fixpoint choose (holds : ConditionalConfig → bool) (d : doc) : list ConfigEntry :=
  match d with
  | DEntry name value items =>
      [CE name value (match items with None => [] | Some l => flat_map (choose holds) l end) 0 0 0 0 [] false]
  | DIf cc yes no => flat_map (choose holds) (if holds cc then yes else no)
  end.

Lemma map_flat_map {A B C} (f : B → C) (g : A → list B) l : map f (flat_map g l) = flat_map (λ x, map f (g x)) l.
Proof. induction l as [|x l IH]; simpl; [done|]. by rewrite map_app, IH. Qed.
Lemma flat_map_eq {A B} (f g : A → list B) l : Forall (λ x, f x = g x) l → flat_map f l = flat_map g l.
Proof. induction 1 as [|x l Hx _ IH]; simpl; [done|]. by rewrite Hx, IH. Qed.
Lemma flat_map_flat_map {A B C} (f : B → list C) (g : A → list B) l :
  flat_map f (flat_map g l) = flat_map (λ x, flat_map f (g x)) l.
Proof. induction l as [|x l IH]; simpl; [done|]. by rewrite flat_map_app, IH. Qed.

Lemma plain_prune_erase keep ce : map plain (prune keep (erase ce)) = map plain (prune keep ce).
Proof.
  induction ce as [ce IH] using ConfigEntry_ind2. destruct ce as [n v items ln p1 p2 sl ccs esc].
  cbn [erase prune ce_conditional_config ce_items ce_name ce_value ce_escaped] in *. destruct (keep ccs); [|done]. simpl. do 2 f_equal.
  induction IH as [|c r Hc _ IHr]; simpl; [done|]. by rewrite !map_app, Hc, IHr.
Qed.

Lemma decided_erase e d phase ce : decided e d phase (erase ce) → decided e d phase ce.
Proof.
  induction ce as [ce IH] using ConfigEntry_ind2. destruct ce as [n v items ln p1 p2 sl ccs esc].
  intros [Hc Hi]. split; [done|]. apply decided_items in Hi. apply decided_items. simpl in *.
  induction IH as [|c r Hcc _ IHr]; simpl in *; [constructor|]. inversion Hi; subst. constructor; auto.
Qed.

Section Meaning.
Context (N : list (list Z)) (e : env) (d : list NameValuePrioList) (phase : PreprocessorPhase).
Hypothesis e_ok : env_ok e.
Hypothesis d_ok : defines_ok N d.
Abbreviation holds := (value_of e d phase).
Abbreviation keep := (forallb holds).

Lemma forallb_reverse {A} (f : A → bool) l : forallb f (reverse l) = forallb f l.
Proof.
  induction l as [|x l IH]; [done|]. rewrite reverse_cons, forallb_app, IH. simpl. rewrite andb_true_r. apply andb_comm.
Qed.

Lemma doc_entries_none level ccs x : keep ccs = false → flat_map (prune keep) (doc_entries level ccs x) = [].
Proof.
  assert (∀ l level ccs, Forall (λ x, ∀ level ccs, keep ccs = false → flat_map (prune keep) (doc_entries level ccs x) = []) l →
    keep ccs = false → flat_map (prune keep) (flat_map (doc_entries level ccs) l) = []) as Hall.
  { intros l lv cs Hl Hk. rewrite flat_map_flat_map. induction Hl as [|y l Hy _ IH]; simpl; [done|]. by rewrite Hy, IH. }
  revert level ccs. induction x as [name value items IH|cc yes no IHy IHn] using doc_ind2; intros level ccs Hk.
  - cbn [doc_entries flat_map prune ce_conditional_config]. by rewrite forallb_reverse, Hk.
  - cbn [doc_entries]. rewrite flat_map_app, !Hall; try done; simpl; by rewrite Hk, andb_false_r.
Qed.

Lemma cond_decided cc : cond_ok cc → tests_none N cc → cstr (print_cond cc) → cc_good N cc ∧ ∃ b, resolve_one e d phase cc = Ok b.
Proof.
  intros Hc Hn Ht. assert (cc_good N cc) as Hg by by apply cond_good.
  split; [done|]. by apply (resolve_one_total N).
Qed.

Lemma holds_priority p cc : holds (set_priority p cc) = holds cc.
Proof. by destruct cc. Qed.
Lemma holds_else cc : (∃ b, resolve_one e d phase cc = Ok b) → holds (else_of cc) = negb (holds cc).
Proof.
  intros [b Hb]. unfold value_of.
  assert (resolve_one e d phase (else_of cc) = resolve_one e d phase cc) as -> by (by destruct cc).
  rewrite Hb. destruct cc as [? ? [] ? ? ? ?]; simpl; by rewrite ?negb_involutive.
Qed.

Lemma cond_text_cstr cc : Forall (λ c, cchar c ∧ c ≠ LF ∧ c ≠ CR) (print_cond cc) → cstr (print_cond cc).
Proof. intros H. eapply Forall_impl; [exact H|]. by intros c [? _]. Qed.

(** The conditions around an entry choose it. *)
Lemma doc_entries_choose x level ccs :
  doc_ok N x → keep ccs = true →
  map plain (flat_map (prune keep) (doc_entries level ccs x)) = choose holds x.
Proof.
  assert (∀ l level ccs, Forall (λ x, ∀ level ccs, doc_ok N x → keep ccs = true →
      map plain (flat_map (prune keep) (doc_entries level ccs x)) = choose holds x) l → Forall (doc_ok N) l →
    keep ccs = true → map plain (flat_map (prune keep) (flat_map (doc_entries level ccs) l)) = flat_map (choose holds) l) as Hall.
  { intros l lv cs Hl Hok Hk. rewrite flat_map_flat_map, map_flat_map. apply flat_map_eq.
    rewrite Forall_forall in Hl, Hok |- *. intros y Hy. by apply Hl; [|apply Hok|]. }
  revert level ccs. induction x as [name value items IH|cc yes no IHy IHn] using doc_ind2; intros level ccs; cbn [doc_ok].
  - intros (_ & _ & Hi) Hk. cbn [doc_entries flat_map prune ce_conditional_config ce_items].
    rewrite forallb_reverse, Hk. simpl. do 2 f_equal. destruct items as [l|]; [|done]. apply docs_ok_Forall in Hi. by apply Hall.
  - intros (Hcc & Htn & Ht & _ & Hy & Hn) Hk. apply docs_ok_Forall in Hy, Hn.
    destruct (cond_decided cc Hcc Htn (cond_text_cstr cc Ht)) as [_ Hdec].
    cbn [doc_entries choose]. rewrite flat_map_app, map_app.
    assert (∀ l b, keep (b :: ccs) = false → flat_map (prune keep) (flat_map (doc_entries (level + 1) (b :: ccs)) l) = []) as Hnone.
    { intros l b Hb. rewrite flat_map_flat_map. induction l as [|y l IHl]; simpl; [done|].
      by rewrite doc_entries_none, IHl. }
    assert (∃ b, resolve_one e d phase (set_priority (level + 1) cc) = Ok b) as Hdec' by (by destruct cc).
    destruct (holds cc) eqn:Eh.
    + rewrite Hall, Hnone; try done; simpl; rewrite ?holds_else, ?holds_priority, ?Eh, ?Hk by done; [apply app_nil_r|done..].
    + rewrite Hnone, Hall; try done; simpl; rewrite ?holds_else, ?holds_priority, ?Eh, ?Hk by done; done.
Qed.

Lemma doc_entries_decided x level ccs :
  doc_ok N x → Forall (λ cc, ∃ b, resolve_one e d phase cc = Ok b) ccs → Forall (decided e d phase) (doc_entries level ccs x).
Proof.
  revert level ccs. induction x as [name value items IH|cc yes no IHy IHn] using doc_ind2; intros level ccs; cbn [doc_ok].
  - intros (_ & _ & Hi) Hc. cbn [doc_entries]. constructor; [|constructor]. split.
    { simpl. rewrite Forall_forall in *. intros c Hin. by apply Hc, elem_of_reverse. }
    apply decided_items. simpl. destruct items as [l|]; [|constructor]. apply docs_ok_Forall in Hi. simpl in IH.
    induction IH as [|y l Hy _ IHl]; simpl; [constructor|]. inversion Hi; subst. apply Forall_app. auto.
  - intros (Hcc & Htn & Ht & _ & Hy & Hn) Hc. apply docs_ok_Forall in Hy, Hn.
    destruct (cond_decided cc Hcc Htn (cond_text_cstr cc Ht)) as [_ Hdec]. cbn [doc_entries].
    assert (∀ l b, Forall (λ x, ∀ level ccs, doc_ok N x → Forall (λ cc, ∃ b, resolve_one e d phase cc = Ok b) ccs →
      Forall (decided e d phase) (doc_entries level ccs x)) l → Forall (doc_ok N) l → (∃ v, resolve_one e d phase b = Ok v) →
      Forall (decided e d phase) (flat_map (doc_entries (level + 1) (b :: ccs)) l)) as Hall.
    { intros l b Hl Hok Hb. induction Hl as [|y l Hyl _ IHl]; simpl; [constructor|]. inversion Hok; subst.
      apply Forall_app. split; [apply Hyl; [done|by constructor]|auto]. }
    apply Forall_app. split; apply Hall; try done; by destruct cc.
Qed.
End Meaning.

(** The meaning of conditions, apart from the code that resolves them: the operators
    compare the order of strnatcasecmp with zero, a variable and a module are the
    first of their name, and a condition on a module counts as true in the phases
    in which it is not known yet. *)
Definition first_of {A} (P : A → Prop) (l : list A) (x : A) : Prop :=
  ∃ a b, l = a ++ x :: b ∧ Forall (λ y, ¬ P y) a ∧ P x.
Definition compared (op : CompareOp) (v o : list Z) : Prop :=
  ∃ c, Natcmp.strnatcasecmp v o = Ok c ∧
    match op with
    | COMPARE_EQ => c = 0 | COMPARE_NE => c ≠ 0 | COMPARE_GT => 0 < c
    | COMPARE_GE => 0 ≤ c | COMPARE_LT => c < 0 | COMPARE_LE => c ≤ 0
    end.
Definition compares (cc : ConditionalConfig) (v : list Z) : Prop :=
  match cc_opt cc with Some o => compared (cc_compare_op cc) v o | None => True end.
Definition module_named (e : env) (name : list Z) (m : Module) : Prop :=
  skip_module e m = false ∧ strcasecmp (mod_relpath m) name = 0.
Definition means (e : env) (d : defines) (phase : PreprocessorPhase) (cc : ConditionalConfig) : Prop :=
  let name := cc_name cc in
  match cc_condition cc, phase with
  | IF_DEFINED, _ => ∃ x, x ∈ d ∧ strcasecmp (nv_name x) name = 0
  | IF_VALUE, _ => ∃ x v, first_of (λ y, strcasecmp (nv_name y) name = 0) d x ∧ nv_value x = Some v ∧ compares cc v
  | IF_ENVIRONMENT, _ => ∃ v, getenv e name = Some v ∧ compares cc v
  | IF_FILE_EXISTS, _ => file_exists e (convert_to_absolute_path name (CONFDIR e)) = true
  | IF_MINIMUM_VERSION, _ => compared COMPARE_GE (VERSIONONLY e) name
  | IF_MODULE_EXISTS, _ => file_exists e (Module_TransformPath e name) = true
  | IF_MODULE_LOADED, PREPROCESSOR_PHASE_MODULE => ∃ m, m ∈ Modules e ∧ module_named e name m
  | IF_MODULE_LOADED, PREPROCESSOR_PHASE_SECONDARY =>
      ∀ mask, mask ∈ conf_blacklist_module e →
        glob (simple_toks mask) name = false ∧ glob (simple_toks mask) (Module_TransformPath e name) = false
  | IF_MODULE_VERSION, PREPROCESSOR_PHASE_MODULE =>
      ∃ m v, first_of (module_named e name) (Modules e) m ∧ mod_version m = Some v ∧ compares cc v
  | IF_MODULE_LOADED, _ | IF_MODULE_VERSION, _ => True
  end.
Definition condition_holds (e : env) (d : defines) (phase : PreprocessorPhase) (cc : ConditionalConfig) : Prop :=
  if cc_negative cc then ¬ means e d phase cc else means e d phase cc.

Lemma first_of_cons {A} (P : A → Prop) y l x : first_of P (y :: l) x ↔ P y ∧ x = y ∨ ¬ P y ∧ first_of P l x.
Proof.
  split.
  - intros ([|z a] & b & E & Ha & Hx); simplify_eq/=; [by left|]. apply Forall_cons in Ha as [Hz Ha]. right. split; [done|]. by exists a, b.
  - intros [[Hy ->]|[Hy (a & b & -> & Ha & Hx)]]; [by exists [], l; repeat constructor|]. exists (y :: a), b. by split_and!; [|constructor|].
Qed.

Lemma first_of_find {A} (f : A → bool) (P : A → Prop) l x :
  (∀ y, f y = true ↔ P y) → find f l = Some x ↔ first_of P l x.
Proof.
  intros Hf. induction l as [|y l IH]; [split; [done|by intros ([|] & ? & ? & _)]|].
  rewrite first_of_cons, <-IH, <-Hf. simpl. destruct (f y); naive_solver.
Qed.

Lemma compare_result_iff v o op c : Natcmp.strnatcasecmp v o = Ok c → compare_result op c = true ↔ compared op v o.
Proof.
  intros E. unfold compared. rewrite E. trans (match op with
    | COMPARE_EQ => c = 0 | COMPARE_NE => c ≠ 0 | COMPARE_GT => 0 < c | COMPARE_GE => 0 ≤ c | COMPARE_LT => c < 0 | COMPARE_LE => c ≤ 0 end).
  - destruct op; simpl; rewrite ?negb_true_iff; lia.
  - split; [by exists c|]. by intros (c' & [= <-] & H).
Qed.

Lemma compare_value_iff N cc v :
  cstr v → cc_good N cc → is_Some (cc_opt cc) → ∃ b, compare_value (Some v) cc = Ok b ∧ (b = true ↔ compares cc v).
Proof.
  intros Hv Hc [o Eo]. unfold compare_value, compares. rewrite Eo.
  destruct (strnatcasecmp_total v o Hv (cg_opt _ _ Hc o Eo)) as [c Ec]. rewrite Ec. cbn [rbind].
  eexists. split; [done|]. by apply compare_result_iff.
Qed.

Lemma compare_optional_iff N cc v :
  cstr v → cc_good N cc →
  ∃ b, match cc_opt cc with Some _ => compare_value (Some v) cc | None => Ok true end = Ok b ∧ (b = true ↔ compares cc v).
Proof.
  intros Hv Hc. pose proof (compare_value_iff N cc v Hv Hc) as H. unfold compares in *.
  destruct (cc_opt cc) as [o|]; [by apply H|]. by exists true.
Qed.

Lemma find_nvplist_find d name : find_nvplist d name = find (λ x, strcasecmp (nv_name x) name =? 0) d.
Proof. induction d as [|x d IH]; simpl; [done|]. by destruct (_ =? 0). Qed.

Lemma first_of_none {A} (f : A → bool) (P : A → Prop) l x :
  (∀ y, f y = true ↔ P y) → find f l = None → ¬ first_of P l x.
Proof. intros Hf E H. apply (first_of_find f) in H; [|done]. congruence. Qed.
Lemma first_of_eq {A} (f : A → bool) (P : A → Prop) l x y :
  (∀ z, f z = true ↔ P z) → find f l = Some x → first_of P l y → y = x.
Proof. intros Hf E H. apply (first_of_find f) in H; [|done]. congruence. Qed.

Lemma blacklisted_iff e name : env_ok e → cstr name →
  ∃ b, is_blacklisted_module e name = Ok b ∧
    (b = false ↔ ∀ mask, mask ∈ conf_blacklist_module e →
       glob (simple_toks mask) name = false ∧ glob (simple_toks mask) (Module_TransformPath e name) = false).
Proof.
  intros He Hn. pose proof (transform_path_cstr e name He Hn) as Hp. unfold is_blacklisted_module.
  induction (proj1 (eo_blacklist _ He)) as [|m l Hm _ (b & IH & Hb)]; [exists false; split; [done|]; split; [by intros _ ? ?%elem_of_nil|done]|].
  rewrite match_simple_glob by done. cbn [rbind].
  destruct (glob (simple_toks m) name) eqn:E1; cbn [rbind].
  { exists true. split; [done|]. split; [done|]. intros H. destruct (H m); [left|congruence]. }
  rewrite match_simple_glob by done. cbn [rbind]. destruct (glob _ (Module_TransformPath e name)) eqn:E2.
  { exists true. split; [done|]. split; [done|]. intros H. destruct (H m); [left|congruence]. }
  exists b. split; [exact IH|]. rewrite Hb. setoid_rewrite elem_of_cons. naive_solver.
Qed.

(** The code resolves a condition to its meaning. *)
Lemma resolve_one_means N e d phase cc :
  env_ok e → defines_ok N d → cc_good N cc →
  ∃ b, resolve_one e d phase cc = Ok b ∧ (b = true ↔ means e d phase cc).
Proof.
  intros He Hd Hc. pose proof He as [Hg Hv Hm _]. unfold resolve_one, means.
  assert (∀ y, (negb (skip_module e y) && (strcasecmp (mod_relpath y) (cc_name cc) =? 0)) = true ↔ module_named e (cc_name cc) y) as Hmod.
  { intros y. unfold module_named. rewrite andb_true_iff, negb_true_iff, Z.eqb_eq. done. }
  assert (∀ y, (strcasecmp (nv_name y) (cc_name cc) =? 0) = true ↔ strcasecmp (nv_name y) (cc_name cc) = 0) as Hname by (intros; apply Z.eqb_eq).
  destruct (cc_condition cc) eqn:Ec.
  - exists (bool_decide (is_Some (find_config_define d (cc_name cc)))). split; [done|]. rewrite bool_decide_eq_true.
    unfold find_config_define. rewrite find_nvplist_find. split.
    + intros [x Hx]. apply find_some in Hx as [Hin Hx]. exists x. by rewrite list_elem_of_In, <-Z.eqb_eq.
    + intros (x & Hin & Hx). destruct (find _ d) eqn:Ef; [done|]. apply list_elem_of_In in Hin.
      apply (find_none _ _ Ef) in Hin. by apply Z.eqb_neq in Hin.
  - unfold find_config_define. destruct (find_nvplist d (cc_name cc)) as [x|] eqn:Ef; rewrite find_nvplist_find in Ef.
    + pose proof Ef as Hx. apply (first_of_find _ _ _ _ Hname) in Hx as Hf. apply find_some in Hx as [Hin Hx]. apply list_elem_of_In in Hin.
      unfold defines_ok in Hd. rewrite Forall_forall in Hd. specialize (Hd x Hin). simpl in Hd.
      destruct (nv_value x) as [v|] eqn:Ev.
      * destruct (compare_value_iff N cc v Hd Hc) as (b & -> & Hb); [by apply (cg_value _ _ Hc)|]. exists b. split; [done|]. rewrite Hb. split.
        -- intros H. by exists x, v.
        -- intros (y & w & Hy & Ew & H). apply (first_of_eq _ _ _ _ _ Hname Ef) in Hy as ->. congruence.
      * pose proof (cg_tests _ _ Hc Ec) as Ht. rewrite Forall_forall in Ht. apply Z.eqb_eq in Hx. by destruct (Ht _ Hd).
    + exists false. split; [done|]. split; [done|]. intros (y & w & Hy & _). by apply (first_of_none _ _ _ _ Hname Ef) in Hy.
  - destruct phase; [by exists true| |].
    + destruct (blacklisted_iff e (cc_name cc) He (cg_name _ _ Hc)) as (b & -> & Hb). cbn [rbind]. exists (negb b).
      split; [done|]. by rewrite negb_true_iff.
    + eexists. split; [done|]. unfold is_module_loaded. rewrite existsb_exists. setoid_rewrite Hmod. by setoid_rewrite list_elem_of_In.
  - by eexists.
  - destruct (strnatcasecmp_total (VERSIONONLY e) (cc_name cc)) as [c E]; [done|apply Hc|]. rewrite E. cbn [rbind].
    exists (0 <=? c). split; [done|]. by apply (compare_result_iff _ _ COMPARE_GE).
  - by eexists.
  - destruct (getenv e (cc_name cc)) as [v|] eqn:Eg.
    + destruct (compare_optional_iff N cc v) as (b & -> & Hb); [by eapply Hg|done|]. exists b. split; [done|]. rewrite Hb. naive_solver.
    + exists false. split; [done|]. naive_solver.
  - destruct phase; [by exists true..|]. unfold find_testing_module.
    destruct (find _ (Modules e)) as [m|] eqn:Ef; [|exists false; split; [done|]; split; [done|]; intros (m & v & H & _); by apply (first_of_none _ _ _ _ Hmod Ef) in H].
    pose proof Ef as Hx. apply (first_of_find _ _ _ _ Hmod) in Hx as Hf. apply find_some in Hx as [Hin _]. apply list_elem_of_In in Hin.
    rewrite Forall_forall in Hm. specialize (Hm m Hin). destruct m as [n f [v|]]; cbn [mod_version] in *; cbv iota beta.
    + destruct (compare_optional_iff N cc v) as (b & -> & Hb); [by apply Hm|done|]. exists b. split; [done|]. rewrite Hb. split; [by eexists _, _|].
      intros (y & w & Hy & Ew & H). apply (first_of_eq _ _ _ _ _ Hmod Ef) in Hy as ->. simpl in Ew. congruence.
    + exists false. split; [done|]. split; [done|]. intros (y & w & Hy & Ew & H). by apply (first_of_eq _ _ _ _ _ Hmod Ef) in Hy as ->.
Qed.

Lemma value_of_holds N e d phase cc :
  env_ok e → defines_ok N d → cc_good N cc → value_of e d phase cc = true ↔ condition_holds e d phase cc.
Proof.
  intros He Hd Hc. unfold value_of, condition_holds. destruct (resolve_one_means N e d phase cc He Hd Hc) as (b & -> & Hb).
  destruct (cc_negative cc); rewrite <-Hb; by destruct b.
Qed.

(** C29.  Conditional configuration.  A configuration with sections to any depth and
    alternatives under conditions is written down; what the parser reads from that
    text is exactly its entries, each with the conditions around it; and when they
    are resolved in any phase, exactly the alternatives whose conditions hold in that
    phase are left, with the names and values that were written.  What a condition
    means is said by [condition_holds]: its test, or the opposite of the test if it is
    negated, where in a phase in which modules are not known yet a test of a module
    counts as true, so that its negation does not hold there
    ([negated_module_condition_dropped]).  Names and values are without NUL, line ends
    and $, conditions at most 507 bytes long and without NUL and line ends; variables,
    the environment and the versions of modules have values, except for variables [N]
    that no condition compares. *)
Theorem config_roundtrip N e d docs phase :
  env_ok e → defines_ok N d → Forall (doc_ok N) docs →
  ∃ items kept holds, config_parse e d (flat_map print_doc docs) = Ok (Some items, d) ∧
    map erase items = flat_map (doc_entries 0 []) docs ∧
    preprocessor_resolve_conditionals_ce e d phase items = Ok kept ∧
    map plain kept = flat_map (choose holds) docs ∧
    ∀ cc, cond_ok cc → tests_none N cc → cstr (print_cond cc) → holds cc = true ↔ condition_holds e d phase cc.
Proof.
  intros He Hd Hok. destruct (parse_docs N e d docs He Hd Hok) as (items & Hparse & Ei).
  exists items, (flat_map (prune (forallb (value_of e d phase))) items), (value_of e d phase). split; [done|]. split; [done|].
  split; [|split; [|intros cc Hc Hn Ht; apply (value_of_holds N); [done..|by apply cond_good]]].
  - apply resolve_prune. apply Forall_forall. intros ce Hin. apply decided_erase.
    assert (Forall (decided e d phase) (map erase items)) as Hall.
    { rewrite Ei. clear Ei Hparse Hin. induction Hok as [|x l Hx _ IH]; simpl; [constructor|].
      apply Forall_app. split; [apply (doc_entries_decided N); [done..|constructor]|done]. }
    rewrite Forall_forall in Hall. apply Hall. by apply (list_elem_of_fmap_2 erase).
  - rewrite map_flat_map. trans (flat_map (λ x, map plain (prune (forallb (value_of e d phase)) x)) (map erase items)).
    { clear. induction items as [|ce l IH]; simpl; [done|]. by rewrite plain_prune_erase, IH. }
    rewrite Ei, flat_map_flat_map. apply flat_map_eq. eapply Forall_impl; [exact Hok|]. intros x Hx. simpl.
    rewrite <-map_flat_map. by apply (doc_entries_choose N).
Qed.


Lemma sample_env_ok : env_ok sample_env.
Proof. split; [done|by apply (bool_decide_unpack _)|constructor|split; [constructor|by apply (bool_decide_unpack _)]]. Qed.

Definition sample_cond : ConditionalConfig := CC 0 IF_VALUE false COMPARE_GE false (bs "V") (Some (bs "6")).
Definition sample_doc : list doc :=
  [DEntry (bs "set") None (Some [DEntry (bs "name") (Some (bs "a \ b")) None]);
   DIf sample_cond [DEntry (bs "new") None None] [DEntry (bs "old") None None]].

Lemma sample_cond_ok : cond_ok sample_cond.
Proof. split; [done|by apply (bool_decide_unpack _)|]. split; [by apply (bool_decide_unpack _)|]. by auto. Qed.
Lemma sample_cond_tests : tests_none [bs "SUFFIX"] sample_cond.
Proof. intros _. by apply (bool_decide_unpack _). Qed.
Lemma sample_cond_text : Forall (λ c, cchar c ∧ c ≠ LF ∧ c ≠ CR) (print_cond sample_cond).
Proof. repeat constructor; done. Qed.

Lemma config_roundtrip_witness :
  let d := [NVP 0 (bs "V") (Some (bs "5")); NVP 0 (bs "SUFFIX") None] in
  ∃ items kept, config_parse sample_env d (flat_map print_doc sample_doc) = Ok (Some items, d) ∧
    preprocessor_resolve_conditionals_ce sample_env d PREPROCESSOR_PHASE_INITIAL items = Ok kept ∧
    map plain kept = [CE (bs "set") None [CE (bs "name") (Some (bs "a \ b")) [] 0 0 0 0 [] false] 0 0 0 0 [] false;
                      CE (bs "old") None [] 0 0 0 0 [] false].
Proof.
  intros d. destruct (config_roundtrip [bs "SUFFIX"] sample_env d sample_doc PREPROCESSOR_PHASE_INITIAL)
    as (items & kept & holds & H1 & _ & H2 & H3 & Hh).
  - apply sample_env_ok.
  - constructor; [|constructor; [|constructor]]; [by apply (bool_decide_unpack _)|by left].
  - apply Forall_cons_2; [|apply Forall_cons_2; [|apply Forall_nil_2]].
    + split; [repeat constructor; done|]. split; [done|]. split; [|done]. split; [repeat constructor; done|].
      split; [repeat constructor; done|done].
    + split.
      { exact sample_cond_ok. }
      split; [exact sample_cond_tests|]. split; [exact sample_cond_text|]. split; [apply Nat.leb_le; reflexivity|].
      split; (split; [|done]); (split; [repeat constructor; done|done]).
  - exists items, kept. split; [exact H1|]. split; [exact H2|]. rewrite H3. unfold sample_doc. cbn [flat_map choose app].
    assert (holds sample_cond = false) as ->; [|vm_compute; reflexivity].
    apply not_true_is_false. intros H%(Hh _ sample_cond_ok sample_cond_tests (cond_text_cstr _ sample_cond_text)).
    destruct H as (x & v & Hx & Ev & c & Ec & Hc). apply first_of_cons in Hx as [[_ ->]|[Hx _]]; [|by destruct Hx].
    injection Ev as <-. vm_compute in Ec. injection Ec as <-. by apply Hc.
Defined.

Lemma no_quotes l : DQUOTE ∉ l → no_empty_quotes l.
Proof. intros H a b ->. apply H. apply elem_of_app. right. left. Qed.
Lemma mentions_short N l : cstr l → Forall (λ n, cstr n ∧ (length l < length n)%nat) N → mentions_none N l.
Proof.
  intros Hl HN. eapply Forall_impl; [exact HN|]. intros n [Hn Hlen] a m b -> E. apply Z.eqb_eq in E.
  unfold cstr in Hl. rewrite !Forall_app in Hl. rewrite strcasecmp_eq in E by (done || apply Hl).
  apply bool_decide_eq_true, (f_equal length) in E. unfold casefold in E. rewrite !length_map, !length_app in *. lia.
Qed.
Lemma directives_one N pre line :
  AT ∉ pre → AT ∉ line → line_safe N (take_while not_lf (AT :: line)) → directives_ok N (pre ++ AT :: line).
Proof.
  intros Hp Hl H a b E. revert a E. induction pre as [|c pre IH]; intros a E.
  - destruct a as [|x a]; simplify_eq/=; [done|]. destruct Hl. apply elem_of_app. right. left.
  - apply not_elem_of_cons in Hp as [Hc Hp]. destruct a as [|x a]; simplify_eq/=. by apply (IH Hp a).
Qed.

(** The defines of a release, whose version has no suffix. *)
Definition sample_defines : defines :=
  init_config_defines sample_env (λ n, if bool_decide (n = bs "UNREALIRCD_VERSION_SUFFIX") then [] else bs "1").

Lemma config_parse_total_witness :
  ∃ r d', config_parse sample_env sample_defines (bs "set { x y; } @if defined(X)") = Ok (r, d') ∧
    defines_ok [bs "UNREALIRCD_VERSION_SUFFIX"] d'.
Proof.
  apply (config_parse_total [bs "UNREALIRCD_VERSION_SUFFIX"] sample_env sample_defines (bs "set { x y; } @if defined(X)") 0).
  - apply sample_env_ok.
  - apply Forall_singleton. split; [by apply (bool_decide_unpack _)|by apply (bool_decide_unpack _)].
  - apply init_defines_ok; [apply sample_env_ok|by apply (bool_decide_unpack _)| |done..|].
    + intros n. destruct (bool_decide _); by apply (bool_decide_unpack _).
    + intros n Hn. by rewrite bool_decide_eq_false_2.
  - split; [by apply (bool_decide_unpack _)|done|].
    apply (directives_one _ (bs "set { x y; } ") (bs "if defined(X)")); [by apply (bool_decide_unpack _)..|]. split.
    + apply no_quotes. by apply (bool_decide_unpack _).
    + apply mentions_short; [by apply (bool_decide_unpack _)|]. apply Forall_singleton.
      split; [by apply (bool_decide_unpack _)|apply Nat.ltb_lt; reflexivity].
Defined.

(** A backslash at the end of the file, inside quotes: the search of the quote goes
    on behind the NUL. *)
Lemma backslash_at_end e d : config_parse e d (bs "x " ++ [DQUOTE; BSLASH]) = UB.
Proof. vm_compute. reflexivity. Qed.

(** A name in single quotes does not end at the closing quote, and in a value the
    backslash in front of a single quote is kept. *)
Lemma single_quotes e d :
  (∃ d', config_parse e d (bs "'ab' c;") = Ok (None, d')) ∧
  ∃ ce d', config_parse e d (bs "a 'it\'s';") = Ok (Some [ce], d') ∧ ce_value ce = Some (bs "it\'s").
Proof. split; [eexists; vm_compute; reflexivity|]. eexists _, _. split; [vm_compute; reflexivity|]. reflexivity. Qed.

(** An @if that is not closed is accepted. *)
Lemma unclosed_if e d :
  ∃ ce d', config_parse e d (bs "@if defined(X)" ++ [LF] ++ bs "a b;") = Ok (Some [ce], d').
Proof. eexists _, _. vm_compute. reflexivity. Qed.
