(* ===== verification/Event.v ===== *)
(** * Events (src/api-event.c, minimum_msec_since_last_run of src/misc.c)

    The list of functions that run at intervals.  A function that runs may add,
    change and delete events, also the one that is running: a deleted event is
    only marked, and is unlinked at the end of the round.  Events live at
    addresses; the list [events] is the list of them, new ones in front. *)

From stdpp Require Import base tactics list numbers strings gmap.
From Stdlib Require Import ZArith Lia.
From S2P Require Import Prelude Chars Support.

Local Open Scope Z_scope.

Record timeval := TV { tv_sec : Z; tv_usec : Z }.

Record event := Event {
  ev_name : option (list Z);
  ev_every_msec : Z;
  ev_count : Z;
  ev_event : nat;
  ev_last_run : timeval;
  ev_deleted : bool;
  ev_owner : option nat
}.

Inductive moderr := MODERR_NOERROR | MODERR_INVALID.
(** The event objects of a module, and its errorcode. *)
Record module := MkModule { mo_objects : list nat; mo_errorcode : moderr }.

Record estate := ES {
  e_heap : gmap nat event;
  events : list nat;
  e_modules : gmap nat module;
  timeofday_tv : timeval;
  (** The functions that were called, with their events. *)
  e_log : list nat
}.

Definition set_event (id : nat) (ev : event) (s : estate) : estate :=
  ES (<[id := ev]> (e_heap s)) (events s) (e_modules s) (timeofday_tv s) (e_log s).
Definition set_module (m : nat) (mo : module) (s : estate) : estate :=
  ES (e_heap s) (events s) (<[m := mo]> (e_modules s)) (timeofday_tv s) (e_log s).
Definition get_event (id : nat) (s : estate) : res event :=
  match e_heap s !! id with Some ev => Ok ev | None => UB end.
Definition get_module (m : nat) (s : estate) : res module :=
  match e_modules s !! m with Some mo => Ok mo | None => UB end.

(** Whether at least [minimum] milliseconds passed; the time is then reset. *)
Definition minimum_msec_since_last_run (now tv_old : timeval) (minimum : Z) : bool * timeval :=
  if tv_sec tv_old =? 0 then (false, now)
  else
    let v := (tv_sec now - tv_sec tv_old) * 1000 + Z.quot (tv_usec now - tv_usec tv_old) 1000 in
    if minimum <=? v then (true, now) else (false, tv_old).

Section Events.
(** The address of a new event: [alloc] gives one that is not in use. *)
Variable alloc : gset nat → nat.

Definition EventAdd (m : option nat) (name : option (list Z)) (fn : option nat) (every_msec count : Z) (s : estate)
  : res (option nat * estate) :=
  match name, fn with
  | Some n, Some f =>
      if (every_msec <? 0) || (count <? 0) then
        match m with
        | None => Ok (None, s)
        | Some m => let! mo := get_module m s in Ok (None, set_module m (MkModule (mo_objects mo) MODERR_INVALID) s)
        end
      else
        let id := alloc (dom (e_heap s)) in
        let s := ES (<[id := Event (Some n) every_msec count f (timeofday_tv s) false m]> (e_heap s)) (id :: events s)
                    (e_modules s) (timeofday_tv s) (e_log s) in
        match m with
        | None => Ok (Some id, s)
        | Some m => let! mo := get_module m s in Ok (Some id, set_module m (MkModule (id :: mo_objects mo) MODERR_NOERROR) s)
        end
  | _, _ =>
      match m with
      | None => Ok (None, s)
      | Some m => let! mo := get_module m s in Ok (None, set_module m (MkModule (mo_objects mo) MODERR_INVALID) s)
      end
  end.

(** Unlink the first object for the event, if there is one. *)
Fixpoint del_object (id : nat) (l : list nat) : list nat :=
  match l with
  | [] => []
  | x :: r => if (x =? id)%nat then r else x :: del_object id r
  end.

Definition EventDel (id : nat) (s : estate) : res estate :=
  let! ev := get_event id s in
  let name := match ev_name ev with Some n => Some (take 127 (bs "deleted:" ++ n)) | None => None end in
  let ev := Event name (ev_every_msec ev) (ev_count ev) (ev_event ev) (ev_last_run ev) true (ev_owner ev) in
  match ev_owner ev with
  | None => Ok (set_event id ev s)
  | Some m =>
      let! mo := get_module m s in
      let s := set_module m (MkModule (del_object id (mo_objects mo)) (mo_errorcode mo)) s in
      Ok (set_event id (Event name (ev_every_msec ev) (ev_count ev) (ev_event ev) (ev_last_run ev) true None) s)
  end.

(** [EventDelReal]: abort() for an event that is not marked, or has an owner. *)
Definition EventDelReal (id : nat) (s : estate) : res estate :=
  let! ev := get_event id s in
  if negb (ev_deleted ev) then UB
  else match ev_owner ev with
       | Some _ => UB
       | None => Ok (ES (delete id (e_heap s)) (del_object id (events s)) (e_modules s) (timeofday_tv s) (e_log s))
       end.

(** The rest of the list is the one read before an event is removed. *)
Fixpoint cleanup (l : list nat) (s : estate) : res estate :=
  match l with
  | [] => Ok s
  | id :: r =>
      let! ev := get_event id s in
      let! s := if ev_deleted ev then EventDelReal id s else Ok s in
      cleanup r s
  end.
Definition CleanupEvents (s : estate) : res estate := cleanup (events s) s.

Fixpoint event_find (l : list nat) (name : list Z) (s : estate) : res (option nat) :=
  match l with
  | [] => Ok None
  | id :: r =>
      let! ev := get_event id s in
      match ev_name ev with
      | None => UB
      | Some n => if bool_decide (n = name) then Ok (Some id) else event_find r name s
      end
  end.
Definition EventFind (name : list Z) (s : estate) : res (option nat) := event_find (events s) name s.

(** struct EventInfo: a field that is [None] has its flag off. *)
Record EventInfo := EInfo {
  mod_every : option Z; mod_howmany : option Z; mod_name : option (option (list Z)); mod_event : option nat
}.

Definition EventMod (id : option nat) (mods : option EventInfo) (s : estate) : res (Z * estate) :=
  let set_error ev err s := match ev_owner ev with
                            | None => Ok s
                            | Some m => let! mo := get_module m s in Ok (set_module m (MkModule (mo_objects mo) err) s)
                            end in
  match id, mods with
  | None, _ => Ok (-1, s)
  | Some id, None => let! ev := get_event id s in let! s := set_error ev MODERR_INVALID s in Ok (-1, s)
  | Some id, Some mods =>
      let! ev := get_event id s in
      let ev := Event (default (ev_name ev) (mod_name mods)) (default (ev_every_msec ev) (mod_every mods))
                  (default (ev_count ev) (mod_howmany mods)) (default (ev_event ev) (mod_event mods))
                  (ev_last_run ev) (ev_deleted ev) (ev_owner ev) in
      let! s := set_error ev MODERR_NOERROR (set_event id ev s) in
      Ok (0, s)
  end.

(** ** A round *)

(** What a function that runs may do with events. *)
Inductive eop :=
| OpAdd (m : option nat) (name : option (list Z)) (fn : option nat) (every_msec count : Z)
| OpDel (id : nat)
| OpMod (id : nat) (mods : EventInfo).

Definition run_op (o : eop) (s : estate) : res estate :=
  match o with
  | OpAdd m name fn every count => let! (_, s) := EventAdd m name fn every count s in Ok s
  | OpDel id => EventDel id s
  | OpMod id mods => let! (_, s) := EventMod (Some id) (Some mods) s in Ok s
  end.
Fixpoint run_ops (ops : list eop) (s : estate) : res estate :=
  match ops with [] => Ok s | o :: r => let! s := run_op o s in run_ops r s end.

(** The functions: what one does may depend on the state. *)
Variable handler : nat → estate → list eop.

Definition call (id : nat) (f : nat) (s : estate) : res estate :=
  run_ops (handler f s) (ES (e_heap s) (events s) (e_modules s) (timeofday_tv s) (e_log s ++ [id])).

Definition set_last_run (tv : timeval) (ev : event) : event :=
  Event (ev_name ev) (ev_every_msec ev) (ev_count ev) (ev_event ev) tv (ev_deleted ev) (ev_owner ev).
Definition set_count (n : Z) (ev : event) : event :=
  Event (ev_name ev) (ev_every_msec ev) n (ev_event ev) (ev_last_run ev) (ev_deleted ev) (ev_owner ev).

(** The body of the loop of [DoEvents]. *)
Definition do_event (id : nat) (s : estate) : res estate :=
  let! ev := get_event id s in
  if ev_deleted ev then Ok s
  else if ev_count ev =? -1 then EventDel id s
  else
    let '(due, ev) := if ev_every_msec ev =? 0 then (true, ev)
                      else let '(due, tv) := minimum_msec_since_last_run (timeofday_tv s) (ev_last_run ev) (ev_every_msec ev) in
                           (due, set_last_run tv ev) in
    let s := set_event id ev s in
    if negb due then Ok s
    else
      let! s := call id (ev_event ev) s in
      let! ev := get_event id s in
      if 0 <? ev_count ev then
        let s := set_event id (set_count (ev_count ev - 1) ev) s in
        if ev_count ev - 1 =? 0 then EventDel id s else Ok s
      else Ok s.

(** e->next *)
Fixpoint next_of (id : nat) (l : list nat) : option nat :=
  match l with
  | [] => None
  | x :: r => if (x =? id)%nat then head r else next_of id r
  end.

Definition do_body (st : option nat * estate) : res (step (option nat * estate) estate) :=
  match st with
  | (None, s) => Ok (Done s)
  | (Some id, s) => let! s := do_event id s in Ok (Next (next_of id (events s), s))
  end.

Definition DoEvents (s : estate) : res estate :=
  let! s := loop do_body (S (length (events s))) (head (events s), s) in
  CleanupEvents s.
End Events.

(** ** Theory *)

(** The list and the heap agree, and the modules list exactly the events that
    they own; an event that is marked has no owner. *)
Record estate_ok (s : estate) : Prop := {
  eo_nodup : NoDup (events s);
  eo_heap : ∀ id, id ∈ events s ↔ is_Some (e_heap s !! id);
  eo_deleted : ∀ id ev, e_heap s !! id = Some ev → ev_deleted ev = true → ev_owner ev = None;
  eo_objects : ∀ m mo, e_modules s !! m = Some mo →
    NoDup (mo_objects mo) ∧ ∀ id, id ∈ mo_objects mo → ∃ ev, e_heap s !! id = Some ev ∧ ev_owner ev = Some m;
  eo_owner : ∀ id ev m, e_heap s !! id = Some ev → ev_owner ev = Some m →
    ∃ mo, e_modules s !! m = Some mo ∧ id ∈ mo_objects mo
}.

Definition op_valid (s : estate) (o : eop) : Prop :=
  match o with
  | OpAdd (Some m) _ _ _ _ => is_Some (e_modules s !! m)
  | OpAdd None _ _ _ _ => True
  | OpDel id | OpMod id _ => id ∈ events s
  end.
Definition op_event (o : eop) : option nat :=
  match o with OpAdd _ _ _ _ _ => None | OpDel id | OpMod id _ => Some id end.

(** What the operations leave as it is: the old events stay in the list, behind the
    new ones, and those that are not mentioned stay the same. *)
Record extends (s s' : estate) : Prop := {
  ex_events : ∃ new, events s' = new ++ events s;
  ex_modules : ∀ m, is_Some (e_modules s !! m) ↔ is_Some (e_modules s' !! m);
  ex_time : timeofday_tv s' = timeofday_tv s
}.

Lemma extends_refl s : extends s s.
Proof. split; [by exists []|done|done]. Qed.
Lemma extends_trans s1 s2 s3 : extends s1 s2 → extends s2 s3 → extends s1 s3.
Proof.
  intros [[n1 E1] M1 T1] [[n2 E2] M2 T2]. split; [exists (n2 ++ n1); by rewrite E2, E1, app_assoc| |by rewrite T2].
  intros m. by rewrite M1.
Qed.
Lemma extends_elem s s' id : extends s s' → id ∈ events s → id ∈ events s'.
Proof. intros [[n E] _ _] H. rewrite E. apply elem_of_app. by right. Qed.
Lemma op_valid_extends s s' o : extends s s' → op_valid s o → op_valid s' o.
Proof. intros Hx. destruct o as [[m|]|id|id]; simpl; [apply Hx|done|by apply extends_elem..]. Qed.

Lemma del_object_elem id x l : NoDup l → x ∈ del_object id l ↔ x ∈ l ∧ x ≠ id.
Proof.
  induction 1 as [|y l Hy Hl IH]; simpl; [set_solver|]. destruct (Nat.eqb_spec y id) as [->|]; [set_solver|].
  rewrite !elem_of_cons, IH. set_solver.
Qed.
Lemma del_object_nodup id l : NoDup l → NoDup (del_object id l).
Proof.
  induction 1 as [|y l Hy Hl IH]; simpl; [constructor|]. destruct (Nat.eqb_spec y id); [done|].
  constructor; [|done]. rewrite del_object_elem by done. tauto.
Qed.

Lemma get_event_ok s id : estate_ok s → id ∈ events s → ∃ ev, e_heap s !! id = Some ev ∧ get_event id s = Ok ev.
Proof.
  intros Hs Hin. apply (eo_heap _ Hs) in Hin as [ev Hev]. exists ev. split; [done|]. unfold get_event. by rewrite Hev.
Qed.

(** An event keeps its owner, or loses its mark with it. *)
Lemma update_event_ok s id ev ev' :
  estate_ok s → e_heap s !! id = Some ev → ev_owner ev' = ev_owner ev → ev_deleted ev' = ev_deleted ev →
  estate_ok (set_event id ev' s).
Proof.
  intros [H1 H2 H3 H4 H5] Hid Ho Hd. split; simpl.
  - done.
  - intros x. rewrite H2. destruct (decide (x = id)) as [->|]; [rewrite lookup_insert_eq, Hid; by rewrite !is_Some_alt|by rewrite lookup_insert_ne].
  - intros x evx. destruct (decide (x = id)) as [->|]; [rewrite lookup_insert_eq; intros [= <-]|rewrite lookup_insert_ne by done; eauto].
    rewrite Hd, Ho. by apply (H3 id).
  - intros m mo Hm. destruct (H4 m mo Hm) as [Hn Hin]. split; [done|]. intros x Hx. destruct (Hin x Hx) as (evx & Hex & Hox).
    destruct (decide (x = id)) as [->|]; [|exists evx; by rewrite lookup_insert_ne].
    exists ev'. rewrite lookup_insert_eq. split; [done|]. congruence.
  - intros x evx m. destruct (decide (x = id)) as [->|]; [rewrite lookup_insert_eq; intros [= <-]|rewrite lookup_insert_ne by done; by apply H5].
    rewrite Ho. by apply H5.
Qed.

Lemma set_error_ok s m mo err :
  estate_ok s → e_modules s !! m = Some mo → estate_ok (set_module m (MkModule (mo_objects mo) err) s) ∧
  extends s (set_module m (MkModule (mo_objects mo) err) s).
Proof.
  intros [H1 H2 H3 H4 H5] Hm. split.
  - split; simpl; try done.
    + intros x mox. destruct (decide (x = m)) as [->|]; [rewrite lookup_insert_eq; intros [= <-]; apply (H4 m mo Hm)|].
      rewrite lookup_insert_ne by done. apply H4.
    + intros id ev x Hev Ho. destruct (H5 id ev x Hev Ho) as (mox & Hmx & Hin). destruct (decide (x = m)) as [->|].
      * exists (MkModule (mo_objects mo) err). rewrite lookup_insert_eq. split; [done|]. simpl. congruence.
      * exists mox. by rewrite lookup_insert_ne.
  - split; simpl; [by exists []| |done]. intros x. destruct (decide (x = m)) as [->|].
    + by rewrite lookup_insert_eq, Hm, !is_Some_alt.
    + by rewrite lookup_insert_ne.
Qed.

Section Theory.
Context (alloc : gset nat → nat) (handler : nat → estate → list eop).
Hypothesis alloc_fresh : ∀ X, alloc X ∉ X.
Hypothesis handler_valid : ∀ f s, estate_ok s → Forall (op_valid s) (handler f s).

Lemma alloc_new s : estate_ok s → e_heap s !! alloc (dom (e_heap s)) = None ∧ alloc (dom (e_heap s)) ∉ events s.
Proof.
  intros Hs. pose proof (alloc_fresh (dom (e_heap s))) as H. rewrite not_elem_of_dom in H. split; [done|].
  rewrite (eo_heap _ Hs), H. by intros [? ?].
Qed.

(** A new event, with its object in the module. *)
Lemma link_event_ok s id ev :
  estate_ok s → e_heap s !! id = None → id ∉ events s → ev_owner ev = None →
  estate_ok (ES (<[id := ev]> (e_heap s)) (id :: events s) (e_modules s) (timeofday_tv s) (e_log s)).
Proof.
  intros [H1 H2 H3 H4 H5] Hid Hin Ho. split; simpl.
  - by constructor.
  - intros x. rewrite elem_of_cons, H2. destruct (decide (x = id)) as [->|].
    + rewrite lookup_insert_eq, is_Some_alt. split; [done|by left].
    + rewrite lookup_insert_ne by done. split; [by intros [?|?]|by right].
  - intros x evx. destruct (decide (x = id)) as [->|]; [rewrite lookup_insert_eq; by intros [= <-]|rewrite lookup_insert_ne by done; apply H3].
  - intros m mo Hm. destruct (H4 m mo Hm) as [Hn Hobj]. split; [done|]. intros x Hx. destruct (Hobj x Hx) as (evx & Hex & Hox).
    exists evx. rewrite lookup_insert_ne; [done|]. intros <-. congruence.
  - intros x evx m. destruct (decide (x = id)) as [->|]; [rewrite lookup_insert_eq; intros [= <-]; congruence|].
    rewrite lookup_insert_ne by done. apply H5.
Qed.

Lemma link_owned_ok s id ev m mo err :
  estate_ok s → e_heap s !! id = None → id ∉ events s → ev_owner ev = Some m → ev_deleted ev = false →
  e_modules s !! m = Some mo →
  estate_ok (ES (<[id := ev]> (e_heap s)) (id :: events s) (<[m := MkModule (id :: mo_objects mo) err]> (e_modules s))
               (timeofday_tv s) (e_log s)).
Proof.
  intros [H1 H2 H3 H4 H5] Hid Hin Ho Hd Hm. split; simpl.
  - by constructor.
  - intros x. rewrite elem_of_cons, H2. destruct (decide (x = id)) as [->|].
    + rewrite lookup_insert_eq, is_Some_alt. split; [done|by left].
    + rewrite lookup_insert_ne by done. split; [by intros [?|?]|by right].
  - intros x evx. destruct (decide (x = id)) as [->|]; [rewrite lookup_insert_eq; intros [= <-]; congruence|rewrite lookup_insert_ne by done; apply H3].
  - assert (∀ x y mo', e_modules s !! y = Some mo' → x ∈ mo_objects mo' →
      ∃ evx, (<[id := ev]> (e_heap s)) !! x = Some evx ∧ ev_owner evx = Some y) as Hobj.
    { intros x y mo' Hy Hx. destruct (H4 y mo' Hy) as [_ Ho']. destruct (Ho' x Hx) as (evx & Hex & Hox).
      exists evx. rewrite lookup_insert_ne; [done|]. intros <-. congruence. }
    intros y moy. destruct (decide (y = m)) as [->|]; [rewrite lookup_insert_eq; intros [= <-]|].
    + simpl. split.
      * constructor; [|by apply (H4 m mo)]. intros Hx. destruct (H4 m mo Hm) as [_ Ho'].
        destruct (Ho' id Hx) as (evx & Hex & _). congruence.
      * intros x Hx. apply elem_of_cons in Hx as [->|Hx]; [exists ev; by rewrite lookup_insert_eq|by apply (Hobj x m mo)].
    + rewrite lookup_insert_ne by done. intros Hy. split; [by apply (H4 y)|]. intros x. by apply Hobj.
  - intros x evx y. destruct (decide (x = id)) as [->|].
    + rewrite lookup_insert_eq. intros [= <-] Hy. assert (y = m) as -> by congruence. eexists. rewrite lookup_insert_eq.
      split; [done|]. left.
    + rewrite lookup_insert_ne by done. intros Hex Hy. destruct (H5 x evx y Hex Hy) as (mox & Hmx & Hinx).
      destruct (decide (y = m)) as [->|]; [|exists mox; by rewrite lookup_insert_ne].
      eexists. rewrite lookup_insert_eq. split; [done|]. simpl. right. congruence.
Qed.

(** What a list of operations does: the state stays well-formed, and only the
    events that are mentioned change. *)
Definition op_result (ops : list eop) (s : estate) (o : res estate) : Prop :=
  ∃ s', o = Ok s' ∧ estate_ok s' ∧ extends s s' ∧ e_log s' = e_log s ∧
    ∀ id, id ∈ events s → Some id ∉ op_event <$> ops → e_heap s' !! id = e_heap s !! id.

Lemma module_error s m err ops :
  estate_ok s → is_Some (e_modules s !! m) →
  op_result ops s (let! mo := get_module m s in Ok (set_module m (MkModule (mo_objects mo) err) s)).
Proof.
  intros Hs [mo Hm]. unfold get_module. rewrite Hm. cbn [rbind]. eexists. split; [done|].
  destruct (set_error_ok s m mo err Hs Hm) as [H1 H2]. split; [done|]. split; [done|]. done.
Qed.

Lemma extends_new s id ev mods :
  (∀ m, is_Some (e_modules s !! m) ↔ is_Some (mods !! m)) →
  extends s (ES (<[id := ev]> (e_heap s)) (id :: events s) mods (timeofday_tv s) (e_log s)).
Proof. intros H. split; [by exists [id]|done|done]. Qed.

Lemma EventAdd_ok s m name fn every count ops :
  estate_ok s → op_valid s (OpAdd m name fn every count) →
  op_result ops s (let! (_, s) := EventAdd alloc m name fn every count s in Ok s).
Proof.
  intros Hs Hv. assert (∀ err, op_result ops s (let! (_, s) := match m with None => Ok (@None nat, s)
      | Some m => let! mo := get_module m s in Ok (None, set_module m (MkModule (mo_objects mo) err) s) end in Ok s)) as Herr.
  { intros err. destruct m as [m|]; [|by exists s; split_and!; try done; apply extends_refl].
    pose proof (module_error s m err ops Hs Hv) as H. unfold get_module in *. by destruct (e_modules s !! m). }
  destruct (alloc_new s Hs) as [Hn Hni]. unfold EventAdd. set (id := alloc (dom (e_heap s))) in *.
  destruct name as [n|], fn as [f|]; try apply Herr. destruct (_ || _); [apply Herr|]. cbv zeta.
  assert (∀ ev x, x ∈ events s → (<[id := ev]> (e_heap s)) !! x = e_heap s !! x) as Hframe.
  { intros ev x Hx. rewrite lookup_insert_ne; [done|]. by intros <-. }
  destruct m as [m|].
  - destruct Hv as [mo Hm]. unfold get_module. unfold set_module. cbn [e_modules]. rewrite Hm.
    cbn [rbind e_heap events e_modules timeofday_tv e_log]. eexists. split; [done|]. split; [by apply link_owned_ok|]. split; [|split; [done|intros x Hx _; by apply Hframe]]. apply extends_new.
    intros y. destruct (decide (y = m)) as [->|]; [by rewrite lookup_insert_eq, Hm, !is_Some_alt|by rewrite lookup_insert_ne].
  - cbn [rbind]. eexists. split; [done|]. split; [by apply link_event_ok|].
    split; [by apply extends_new|]. split; [done|]. intros x Hx _. by apply Hframe.
Qed.

(** An event is marked, and loses its owner. *)
Lemma mark_event_ok s id ev ev' mods :
  estate_ok s → e_heap s !! id = Some ev → ev_owner ev' = None →
  match ev_owner ev with
  | None => mods = e_modules s
  | Some m => ∃ mo, e_modules s !! m = Some mo ∧
      mods = <[m := MkModule (del_object id (mo_objects mo)) (mo_errorcode mo)]> (e_modules s)
  end →
  let s' := ES (<[id := ev']> (e_heap s)) (events s) mods (timeofday_tv s) (e_log s) in
  estate_ok s' ∧ extends s s'.
Proof.
  intros [H1 H2 H3 H4 H5] Hid Ho Hm s'.
  assert (∀ m mo', mods !! m = Some mo' → ∃ mo, e_modules s !! m = Some mo ∧ NoDup (mo_objects mo') ∧
    ∀ x, x ∈ mo_objects mo' ↔ x ∈ mo_objects mo ∧ (x ≠ id ∨ ev_owner ev ≠ Some m)) as Hmods.
  { intros m mo' Hm'. destruct (ev_owner ev) as [n|] eqn:Eo.
    - destruct Hm as (mo & Hn & ->). destruct (decide (m = n)) as [->|].
      + rewrite lookup_insert_eq in Hm'. injection Hm' as <-. exists mo. destruct (H4 n mo Hn) as [Hnd _].
        split; [done|]. split; [by apply del_object_nodup|]. intros x. simpl. rewrite del_object_elem by done. naive_solver.
      + rewrite lookup_insert_ne in Hm' by done. exists mo'. split; [done|]. split; [by apply (H4 m)|]. naive_solver.
    - subst mods. exists mo'. split; [done|]. split; [by apply (H4 m)|]. naive_solver. }
  assert (∀ m, is_Some (e_modules s !! m) ↔ is_Some (mods !! m)) as Hdom.
  { intros m. destruct (ev_owner ev) as [n|]; [|by subst]. destruct Hm as (mo & Hn & ->).
    destruct (decide (m = n)) as [->|]; [by rewrite lookup_insert_eq, Hn, !is_Some_alt|by rewrite lookup_insert_ne]. }
  split; [|split; [by exists []|exact Hdom|done]]. split; simpl.
  - done.
  - intros x. rewrite H2. destruct (decide (x = id)) as [->|]; [by rewrite lookup_insert_eq, Hid, !is_Some_alt|by rewrite lookup_insert_ne].
  - intros x evx. destruct (decide (x = id)) as [->|]; [rewrite lookup_insert_eq; by intros [= <-]|rewrite lookup_insert_ne by done; apply H3].
  - intros m mo' Hm'. destruct (Hmods m mo' Hm') as (mo & Hmo & Hnd & Hel). split; [done|]. intros x Hx.
    apply Hel in Hx as [Hx Hne]. destruct (H4 m mo Hmo) as [_ Hobj]. destruct (Hobj x Hx) as (evx & Hex & Hox).
    exists evx. rewrite lookup_insert_ne; [done|]. intros <-. rewrite Hid in Hex. naive_solver.
  - intros x evx m. destruct (decide (x = id)) as [->|]; [rewrite lookup_insert_eq; intros [= <-]; congruence|].
    rewrite lookup_insert_ne by done. intros Hex Hox. destruct (H5 x evx m Hex Hox) as (mo & Hmo & Hin).
    destruct (proj1 (Hdom m) (mk_is_Some _ _ Hmo)) as [mo' Hmo']. exists mo'. split; [done|].
    destruct (Hmods m mo' Hmo') as (mo2 & Hmo2 & _ & Hel). apply Hel. split; [congruence|by left].
Qed.

Lemma EventDel_ok s id :
  estate_ok s → id ∈ events s →
  ∃ s', EventDel id s = Ok s' ∧ estate_ok s' ∧ extends s s' ∧ e_log s' = e_log s ∧ events s' = events s ∧
    (∃ ev', e_heap s' !! id = Some ev' ∧ ev_deleted ev' = true) ∧ ∀ x, x ≠ id → e_heap s' !! x = e_heap s !! x.
Proof.
  intros Hs Hin. destruct (get_event_ok s id Hs Hin) as (ev & Hev & Hget). unfold EventDel. rewrite Hget. cbn [rbind]. cbv zeta.
  set (name := match ev_name ev with Some n => _ | None => None end). simpl ev_owner. simpl ev_every_msec.
  set (ev' := Event name _ _ _ _ true None).
  destruct (ev_owner ev) as [m|] eqn:Eo.
  - destruct (eo_owner _ Hs id ev m Hev Eo) as (mo & Hm & _). unfold get_module. rewrite Hm. cbn [rbind].
    destruct (mark_event_ok s id ev ev' (<[m := MkModule (del_object id (mo_objects mo)) (mo_errorcode mo)]> (e_modules s)))
      as [H1 H2]; [done..|rewrite Eo; eauto|].
    eexists. split; [reflexivity|]. split; [exact H1|]. split; [exact H2|]. simpl. split_and!; try done.
    + exists ev'. by rewrite lookup_insert_eq.
    + intros x Hx. by rewrite lookup_insert_ne.
  - destruct (mark_event_ok s id ev ev' (e_modules s)) as [H1 H2]; [done..|by rewrite Eo|].
    eexists. split; [reflexivity|]. split; [exact H1|]. split; [exact H2|]. simpl. split_and!; try done.
    + exists ev'. by rewrite lookup_insert_eq.
    + intros x Hx. by rewrite lookup_insert_ne.
Qed.

Lemma EventMod_ok s id mods :
  estate_ok s → id ∈ events s → op_result [OpMod id mods] s (let! (_, s) := EventMod (Some id) (Some mods) s in Ok s).
Proof.
  intros Hs Hin. destruct (get_event_ok s id Hs Hin) as (ev & Hev & Hget). unfold EventMod. rewrite Hget. cbn [rbind]. cbv zeta.
  set (ev' := Event _ _ _ _ _ _ _). assert (estate_ok (set_event id ev' s)) as Hs' by (by apply (update_event_ok s id ev)).
  assert (∀ x, Some x ∉ op_event <$> [OpMod id mods] → (<[id := ev']> (e_heap s)) !! x = e_heap s !! x) as Hframe.
  { intros x Hx. rewrite lookup_insert_ne; [done|]. intros <-. apply Hx. left. }
  assert (extends s (set_event id ev' s)) as Hx by (split; [by exists []|done|done]).
  simpl ev_owner. destruct (ev_owner ev) as [m|] eqn:Eo; cbn [rbind]; [|eexists; split_and!; try done; by eauto].
  destruct (eo_owner _ Hs id ev m Hev Eo) as (mo & Hm & _). unfold get_module. simpl e_modules. rewrite Hm. cbn [rbind].
  destruct (set_error_ok (set_event id ev' s) m mo MODERR_NOERROR Hs' Hm) as [H1 H2].
  eexists. split; [done|]. split; [done|]. split; [by eapply extends_trans|]. split; [done|]. intros x _. apply Hframe.
Qed.

Lemma run_op_ok o s : estate_ok s → op_valid s o → op_result [o] s (run_op alloc o s).
Proof.
  intros Hs Hv. destruct o as [m name fn every count|id|id mods]; simpl.
  - by apply EventAdd_ok.
  - destruct (EventDel_ok s id Hs Hv) as (s' & -> & H1 & H2 & H3 & _ & _ & H4). exists s'. split_and!; try done.
    intros x _ Hx. apply H4. intros ->. apply Hx. left.
  - by apply EventMod_ok.
Qed.

Lemma run_ops_ok ops s : estate_ok s → Forall (op_valid s) ops → op_result ops s (run_ops alloc ops s).
Proof.
  intros Hs Hv. assert (∀ s0, extends s s0 → estate_ok s0 → op_result ops s0 (run_ops alloc ops s0)) as H; [|by apply H; [apply extends_refl|]].
  induction Hv as [|o ops Ho _ IH]; intros s0 Hx H0; [exists s0; split_and!; try done; apply extends_refl|]. cbn [run_ops].
  destruct (run_op_ok o s0 H0 (op_valid_extends _ _ _ Hx Ho)) as (s1 & -> & H1 & X1 & L1 & F1). cbn [rbind].
  destruct (IH s1 (extends_trans _ _ _ Hx X1) H1) as (s2 & -> & H2 & X2 & L2 & F2). exists s2.
  split; [done|]. split; [done|]. split; [by eapply extends_trans|]. split; [by rewrite L2|].
  intros id Hin Hid. rewrite fmap_cons, not_elem_of_cons in Hid. destruct Hid as [Hne Hid].
  rewrite F2 by (by eapply extends_elem || done). apply F1; [done|]. set_solver.
Qed.

(** No function deletes or changes the event. *)
Definition untouched (id : nat) : Prop := ∀ f s, Some id ∉ op_event <$> handler f s.

Definition active (ev : event) : Prop := ev_deleted ev = false ∧ ev_count ev ≠ -1.
#[local] Instance active_dec ev : Decision (active ev).
Proof. unfold active. apply _. Defined.
Definition is_due (now : timeval) (ev : event) : bool :=
  (ev_every_msec ev =? 0) || fst (minimum_msec_since_last_run now (ev_last_run ev) (ev_every_msec ev)).
Definition checked (now : timeval) (ev : event) : event :=
  if ev_every_msec ev =? 0 then ev
  else set_last_run (snd (minimum_msec_since_last_run now (ev_last_run ev) (ev_every_msec ev))) ev.
(** What its turn does to an active event: [None] if that was its last time. *)
Definition turn (now : timeval) (ev : event) : option event :=
  let ev' := checked now ev in
  if is_due now ev && (0 <? ev_count ev) then
    if ev_count ev - 1 =? 0 then None else Some (set_count (ev_count ev - 1) ev')
  else Some ev'.

(** The event after its turn. *)
Definition turned (s' : estate) (id : nat) (t : option event) : Prop :=
  match t with
  | Some ev' => e_heap s' !! id = Some ev'
  | None => ∃ ev', e_heap s' !! id = Some ev' ∧ ev_deleted ev' = true
  end.

Lemma checked_same now ev :
  ev_owner (checked now ev) = ev_owner ev ∧ ev_deleted (checked now ev) = ev_deleted ev ∧
  ev_count (checked now ev) = ev_count ev ∧ ev_event (checked now ev) = ev_event ev.
Proof. unfold checked. by destruct (_ =? 0). Qed.

Lemma do_event_unfold s id ev :
  e_heap s !! id = Some ev → active ev →
  do_event alloc handler id s =
    let s := set_event id (checked (timeofday_tv s) ev) s in
    if is_due (timeofday_tv s) ev then
      let! s := call alloc handler id (ev_event ev) s in
      let! ev := get_event id s in
      if 0 <? ev_count ev then
        let s := set_event id (set_count (ev_count ev - 1) ev) s in
        if ev_count ev - 1 =? 0 then EventDel id s else Ok s
      else Ok s
    else Ok s.
Proof.
  intros Hev [Hd Hc]. unfold do_event, get_event at 1. rewrite Hev. cbn [rbind]. rewrite Hd, (proj2 (Z.eqb_neq _ _)) by done.
  unfold is_due, checked. simpl timeofday_tv. destruct (ev_every_msec ev =? 0); simpl orb; [done|].
  by destruct (minimum_msec_since_last_run _ _ _) as [[] tv].
Qed.

(** Running the function of an event that is due. *)
Lemma call_ok s id f :
  estate_ok s → id ∈ events s →
  ∃ s', call alloc handler id f s = Ok s' ∧ estate_ok s' ∧ extends s s' ∧ e_log s' = e_log s ++ [id] ∧
    ∀ x, x ∈ events s → untouched x → e_heap s' !! x = e_heap s !! x.
Proof.
  intros Hs Hin. unfold call. set (s1 := ES _ _ _ _ (e_log s ++ [id])).
  assert (estate_ok s1) as H1 by (by destruct Hs; split).
  destruct (run_ops_ok (handler f s) s1 H1) as (s' & E & H2 & X2 & L2 & F2).
  { eapply Forall_impl; [by apply (handler_valid f s)|]. by intros [[]| |]. }
  exists s'. split; [exact E|]. split; [done|]. split; [by destruct X2; split|]. split; [done|].
  intros x Hx Hu. apply F2; [done|apply Hu].
Qed.

Definition turn_result (s : estate) (id : nat) (s' : estate) (ran : list nat) : Prop :=
  estate_ok s' ∧ extends s s' ∧ e_log s' = e_log s ++ ran ∧ ran `sublist_of` [id] ∧
  (∀ x, x ≠ id → x ∈ events s → untouched x → e_heap s' !! x = e_heap s !! x) ∧
  ∀ ev, e_heap s !! id = Some ev →
    (id ∈ ran ↔ active ev ∧ is_due (timeofday_tv s) ev = true) ∧
    (active ev → untouched id → turned s' id (turn (timeofday_tv s) ev)).

Lemma count_down_ok s id ev :
  estate_ok s → id ∈ events s → e_heap s !! id = Some ev →
  ∃ s', (if 0 <? ev_count ev then
        let s := set_event id (set_count (ev_count ev - 1) ev) s in
        if ev_count ev - 1 =? 0 then EventDel id s else Ok s
      else Ok s) = Ok s' ∧ estate_ok s' ∧ extends s s' ∧ e_log s' = e_log s ∧
    (∀ x, x ≠ id → e_heap s' !! x = e_heap s !! x) ∧
    turned s' id (if 0 <? ev_count ev then if ev_count ev - 1 =? 0 then None else Some (set_count (ev_count ev - 1) ev) else Some ev).
Proof.
  intros Hs Hin Hev. destruct (0 <? ev_count ev); [|exists s; split_and!; try done; apply extends_refl]. cbv zeta.
  set (ev' := set_count (ev_count ev - 1) ev).
  assert (estate_ok (set_event id ev' s)) as Hs' by (by apply (update_event_ok s id ev)).
  assert (extends s (set_event id ev' s)) as Hx by (split; [by exists []|done|done]).
  destruct (ev_count ev - 1 =? 0).
  - destruct (EventDel_ok (set_event id ev' s) id Hs' Hin) as (s' & -> & H1 & X1 & L1 & _ & D1 & F1). exists s'.
    split_and!; try done; [by eapply extends_trans|]. intros x Hne. rewrite F1 by done. simpl. by rewrite lookup_insert_ne.
  - eexists. split; [done|]. split_and!; try done; [|simpl; by rewrite lookup_insert_eq].
    intros x Hne. simpl. by rewrite lookup_insert_ne.
Qed.

Lemma do_event_inactive s id ev :
  estate_ok s → id ∈ events s → e_heap s !! id = Some ev → ¬ active ev →
  ∃ s', do_event alloc handler id s = Ok s' ∧ turn_result s id s' [].
Proof.
  intros Hs Hin Hev Ha. unfold do_event, get_event at 1. rewrite Hev. cbn [rbind].
  assert (∀ s', estate_ok s' → extends s s' → e_log s' = e_log s → (∀ x, x ≠ id → e_heap s' !! x = e_heap s !! x) →
    turn_result s id s' []) as H.
  { intros s' H1 X1 L1 F1. split_and!; try done; [by rewrite app_nil_r|apply sublist_nil_l|by intros; apply F1|].
    intros ev' E. assert (ev' = ev) as -> by congruence. split; [|done]. split; [by intros ?%not_elem_of_nil|by intros [? _]]. }
  destruct (ev_deleted ev) eqn:Ed; [exists s; split; [done|]; apply H; try done; apply extends_refl|].
  assert (ev_count ev = -1) as Hc by (destruct (decide (ev_count ev = -1)); [done|by exfalso; apply Ha]).
  rewrite Hc. simpl. destruct (EventDel_ok s id Hs Hin) as (s' & -> & H1 & X1 & L1 & _ & _ & F1). exists s'. by split; [|apply H].
Qed.

Lemma do_event_ok s id :
  estate_ok s → id ∈ events s → ∃ s' ran, do_event alloc handler id s = Ok s' ∧ turn_result s id s' ran.
Proof.
  intros Hs Hin. destruct (get_event_ok s id Hs Hin) as (ev & Hev & _).
  destruct (decide (active ev)) as [Ha|Ha].
  2:{ destruct (do_event_inactive s id ev Hs Hin Hev Ha) as (s' & E & H). by exists s', []. }
  rewrite (do_event_unfold s id ev) by done. cbv zeta. destruct (checked_same (timeofday_tv s) ev) as (Eo & Ed & Ec & Ef).
  set (now := timeofday_tv s) in *. set (s1 := set_event id (checked now ev) s).
  assert (estate_ok s1) as Hs1 by (by apply (update_event_ok s id ev)).
  assert (extends s s1) as X01 by (split; [by exists []|done|done]).
  assert (∀ x, x ≠ id → e_heap s1 !! x = e_heap s !! x) as F01 by (intros; simpl; by rewrite lookup_insert_ne).
  assert (e_heap s1 !! id = Some (checked now ev)) as Hid1 by (simpl; by rewrite lookup_insert_eq).
  change (timeofday_tv s1) with now. destruct (is_due now ev) eqn:Edue.
  - destruct (call_ok s1 id (ev_event ev) Hs1 Hin) as (s2 & -> & H2 & X12 & L12 & F12). cbn [rbind].
    pose proof (extends_elem _ _ id X12 Hin) as Hin2.
    destruct (get_event_ok s2 id H2 Hin2) as (ev2 & Hev2 & ->). cbn [rbind].
    destruct (count_down_ok s2 id ev2 H2 Hin2 Hev2) as (s3 & E3 & H3 & X23 & L23 & F23 & T3).
    cbv zeta in E3. rewrite E3. exists s3, [id].
    split; [done|]. split_and!; try done; [eapply extends_trans; [|done]; by eapply extends_trans|by rewrite L23, L12| |].
    + intros x Hne Hx Hu. rewrite F23, F12, F01; done.
    + intros ev' E. assert (ev' = ev) as -> by congruence. fold now. split; [split; [done|intros _; left]|].
      intros _ Hu. assert (ev2 = checked now ev) as -> by (rewrite F12, Hid1 in Hev2 by done; congruence).
      rewrite Ec in T3. unfold turn. rewrite Edue. exact T3.
  - exists s1, []. split; [done|]. split_and!; try done; [by rewrite app_nil_r|apply sublist_nil_l|by intros; apply F01|].
    intros ev' E. assert (ev' = ev) as -> by congruence. fold now. rewrite Edue.
    split; [split; [by intros ?%not_elem_of_nil|by intros [_ ?]]|]. intros _ _. unfold turn. by rewrite Edue.
Qed.

(** *** A round *)

Fixpoint round (l : list nat) (s : estate) : res estate :=
  match l with [] => Ok s | id :: r => let! s := do_event alloc handler id s in round r s end.

Lemma next_of_app a id r : NoDup (a ++ id :: r) → next_of id (a ++ id :: r) = head r.
Proof.
  induction a as [|x a IH]; simpl; [by rewrite Nat.eqb_refl|]. intros H. apply NoDup_cons in H as [Hx H].
  destruct (Nat.eqb_spec x id) as [->|]; [|by apply IH]. exfalso. apply Hx, elem_of_app. right. left.
Qed.

Lemma loop_round l : ∀ s a fuel, estate_ok s → events s = a ++ l → (length l < fuel)%nat →
  loop (do_body alloc handler) fuel (head l, s) = round l s.
Proof.
  induction l as [|id l IH]; intros s a [|fuel] Hs He Hf; try (simpl in Hf; lia); [done|].
  cbn [loop head do_body round].
  assert (id ∈ events s) as Hin by (rewrite He; apply elem_of_app; right; left).
  destruct (do_event_ok s id Hs Hin) as (s' & ran & -> & H1 & [[new En] _ _] & _). cbn [rbind].
  pose proof (eo_nodup _ H1) as Hnd. rewrite En, He, app_assoc in Hnd |- *. rewrite next_of_app by done.
  apply (IH s' ((new ++ a) ++ [id])); [done| |simpl in Hf; lia]. by rewrite En, He, <-!app_assoc.
Qed.

Definition round_result (l : list nat) (s s' : estate) (ran : list nat) : Prop :=
  estate_ok s' ∧ extends s s' ∧ e_log s' = e_log s ++ ran ∧ ran `sublist_of` l ∧
  (∀ x, x ∈ events s → x ∉ l → untouched x → e_heap s' !! x = e_heap s !! x) ∧
  ∀ x ev, x ∈ l → untouched x → e_heap s !! x = Some ev → active ev →
    (x ∈ ran ↔ is_due (timeofday_tv s) ev = true) ∧ turned s' x (turn (timeofday_tv s) ev).

Lemma turned_same s s' x t : e_heap s' !! x = e_heap s !! x → turned s x t → turned s' x t.
Proof. unfold turned. by intros ->. Qed.

Lemma round_ok l : ∀ s, estate_ok s → NoDup l → (∀ x, x ∈ l → x ∈ events s) →
  ∃ s' ran, round l s = Ok s' ∧ round_result l s s' ran.
Proof.
  induction l as [|id l IH]; intros s Hs Hnd Hl.
  { exists s, []. split; [done|]. split_and!; try done; [apply extends_refl|by rewrite app_nil_r|].
    by intros x ev ?%not_elem_of_nil. }
  cbn [round]. apply NoDup_cons in Hnd as [Hid Hnd]. assert (id ∈ events s) as Hin by (apply Hl; left).
  destruct (do_event_ok s id Hs Hin) as (s1 & ran1 & -> & H1 & X1 & L1 & S1 & F1 & T1). cbn [rbind].
  destruct (IH s1 H1 Hnd) as (s2 & ran2 & -> & H2 & X2 & L2 & S2 & F2 & T2).
  { intros x Hx. eapply extends_elem; [done|]. apply Hl. by right. }
  assert (id ∉ ran2) as Hran2 by (intros Hx; apply Hid; by eapply elem_of_sublist).
  exists s2, (ran1 ++ ran2). split; [done|]. split_and!; [done|by eapply extends_trans|by rewrite L2, L1, app_assoc| | |].
  - by apply (sublist_app _ [id]).
  - intros x Hx Hxl Hu. apply not_elem_of_cons in Hxl as [Hne Hxl].
    rewrite F2 by (done || by eapply extends_elem). by apply F1.
  - intros x ev Hx Hu Hev Ha. rewrite elem_of_app. destruct (decide (x = id)) as [->|Hne].
    + destruct (T1 ev Hev) as [Hr Ht]. split; [rewrite Hr; naive_solver|].
      eapply turned_same; [apply F2; [by eapply extends_elem|done|done]|by apply Ht].
    + apply elem_of_cons in Hx as [?|Hx]; [done|].
      assert (e_heap s1 !! x = Some ev) as Hev1 by (rewrite F1; [done|done|apply Hl; by right|done]).
      destruct (T2 x ev Hx Hu Hev1 Ha) as [Hr Ht]. rewrite (ex_time _ _ X1) in Hr, Ht. split; [|done].
      rewrite <-Hr. split; [intros [Hx1|?]; [|done]|by right]. exfalso. apply Hne.
      apply (elem_of_sublist _ _ _ Hx1) in S1. by apply list_elem_of_singleton in S1.
Qed.

(** *** Cleaning up *)

Lemma EventDelReal_ok s id ev :
  estate_ok s → e_heap s !! id = Some ev → ev_deleted ev = true →
  ∃ s', EventDelReal id s = Ok s' ∧ estate_ok s' ∧ e_log s' = e_log s ∧ e_heap s' = delete id (e_heap s).
Proof.
  intros Hs Hev Hd. unfold EventDelReal, get_event. rewrite Hev. cbn [rbind]. rewrite Hd. simpl negb. cbv iota.
  pose proof Hs as [H1 H2 H3 H4 H5]. rewrite (H3 id ev Hev Hd). eexists. split; [done|]. split; [|done]. split; simpl.
  - by apply del_object_nodup.
  - intros x. rewrite del_object_elem, H2 by done. destruct (decide (x = id)) as [->|].
    + rewrite lookup_delete_eq. split; [by intros [_ ?]|by intros [? ?]].
    + rewrite lookup_delete_ne by done. naive_solver.
  - intros x evx. rewrite lookup_delete_Some. intros [_ Hx]. by apply (H3 x).
  - intros m mo Hm. destruct (H4 m mo Hm) as [Hn Hobj]. split; [done|]. intros x Hx.
    destruct (Hobj x Hx) as (evx & Hex & Hox). exists evx. split; [|done]. rewrite lookup_delete_ne; [done|].
    intros <-. rewrite Hev in Hex. injection Hex as <-. by rewrite (H3 id ev Hev Hd) in Hox.
  - intros x evx m. rewrite lookup_delete_Some. intros [_ Hx]. by apply H5.
Qed.

Lemma cleanup_ok l : ∀ s, estate_ok s → NoDup l → (∀ x, x ∈ l → x ∈ events s) →
  ∃ s', cleanup l s = Ok s' ∧ estate_ok s' ∧ e_log s' = e_log s ∧
    ∀ x ev, e_heap s' !! x = Some ev ↔ e_heap s !! x = Some ev ∧ (x ∈ l → ev_deleted ev = false).
Proof.
  induction l as [|id l IH]; intros s Hs Hnd Hl.
  { exists s. split_and!; try done. intros x ev. split; [|by intros [? _]]. intros H. split; [done|]. by intros ?%not_elem_of_nil. }
  cbn [cleanup]. apply NoDup_cons in Hnd as [Hid Hnd]. assert (id ∈ events s) as Hin by (apply Hl; left).
  destruct (get_event_ok s id Hs Hin) as (ev & Hev & ->). cbn [rbind]. destruct (ev_deleted ev) eqn:Ed.
  - destruct (EventDelReal_ok s id ev Hs Hev Ed) as (s1 & -> & H1 & L1 & E1). cbn [rbind].
    destruct (IH s1 H1 Hnd) as (s2 & -> & H2 & L2 & E2).
    { intros x Hx. apply (eo_heap _ H1). rewrite E1, lookup_delete_ne; [|by intros ->].
      apply (eo_heap _ Hs), Hl. by right. }
    exists s2. split_and!; try done; [by rewrite L2|]. intros x evx. rewrite E2, E1, lookup_delete_Some, elem_of_cons.
    split; [intros [[Hne Hx] Hd]; split; [done|]; by intros [->|?]; auto|]. intros [Hx Hd].
    split; [split; [|done]|by intros; apply Hd; right]. intros <-. rewrite Hev in Hx. injection Hx as <-.
    rewrite (Hd (or_introl eq_refl)) in Ed. done.
  - cbn [rbind]. destruct (IH s Hs Hnd) as (s2 & -> & H2 & L2 & E2); [intros x Hx; apply Hl; by right|].
    exists s2. split_and!; try done. intros x evx. rewrite E2, elem_of_cons.
    split; [|intros [Hx Hd]; split; [done|by intros; apply Hd; right]]. intros [Hx Hd]. split; [done|].
    intros [->|?]; [|by apply Hd]. rewrite Hev in Hx. by injection Hx as <-.
Qed.
End Theory.

(** C33.  A round of the events.  The functions that run may add, change and delete
    events.  The round ends and stays well-formed, no event that is gone is
    reached, and afterwards none is left that is marked.  Every event runs at most
    once, in the order of the list; a new one waits for the next round.  An event
    that no function deletes or changes runs exactly if it is due, and its counter
    and time are then those its own settings say; after its last time it is gone. *)
Theorem do_events_correct alloc handler s :
  (∀ X, alloc X ∉ X) → (∀ f s, estate_ok s → Forall (op_valid s) (handler f s)) → estate_ok s →
  ∃ s' ran, DoEvents alloc handler s = Ok s' ∧ estate_ok s' ∧
    (∀ id ev, e_heap s' !! id = Some ev → ev_deleted ev = false) ∧
    e_log s' = e_log s ++ ran ∧ ran `sublist_of` events s ∧
    ∀ id ev, untouched handler id → e_heap s !! id = Some ev → active ev →
      (id ∈ ran ↔ is_due (timeofday_tv s) ev = true) ∧ e_heap s' !! id = turn (timeofday_tv s) ev.
Proof.
  intros Ha Hh Hs. unfold DoEvents.
  rewrite (loop_round alloc handler Ha Hh (events s) s []) by (done || lia).
  destruct (round_ok alloc handler Ha Hh (events s) s Hs (eo_nodup _ Hs)) as (s1 & ran & -> & H1 & X1 & L1 & S1 & _ & T1); [done|].
  cbn [rbind]. unfold CleanupEvents.
  destruct (cleanup_ok (events s1) s1 H1 (eo_nodup _ H1)) as (s2 & -> & H2 & L2 & E2); [done|].
  exists s2, ran. split; [done|]. split; [done|]. split; [|split; [by rewrite L2|split; [done|]]].
  - intros id ev Hev. apply E2 in Hev as [Hev Hd]. apply Hd, (eo_heap _ H1). eauto.
  - intros id ev Hu Hev Hact. destruct (T1 id ev) as [Hr Ht]; [apply (eo_heap _ Hs); eauto|done..|]. split; [done|].
    assert (∀ ev', turn (timeofday_tv s) ev = Some ev' → ev_deleted ev' = false) as Hdel.
    { intros ev'. destruct (checked_same (timeofday_tv s) ev) as (_ & Ed & _). destruct Hact as [Hd _].
      unfold turn. destruct (is_due _ _ && _); [destruct (_ =? 0); [done|]|]; intros [= <-]; simpl; congruence. }
    destruct (turn (timeofday_tv s) ev) as [ev'|]; simpl in Ht.
    + apply E2. split; [done|]. intros _. by apply Hdel.
    + destruct Ht as (ev' & Hev' & Hd'). apply eq_None_not_Some. intros [evx Hx]. apply E2 in Hx as [Hx Hdx].
      rewrite Hev' in Hx. injection Hx as <-. rewrite Hdx in Hd'; [done|]. apply (eo_heap _ H1). eauto.
Qed.

(** One event is due for the last time and adds another one. *)
Lemma do_events_witness :
  let handler := λ (f : nat) (s : estate), if (f =? 1)%nat then [OpAdd None (Some (bs "new")) (Some 2%nat) 1000 0] else [] in
  let s := ES {[5%nat := Event (Some (bs "old")) 200 1 1 (TV 10 0) false None]} [5%nat] ∅ (TV 10 200000) [] in
  ∃ s' ran, DoEvents fresh handler s = Ok s' ∧ e_log s' = ran ∧ 5%nat ∈ ran ∧ e_heap s' !! 5%nat = None ∧ length (events s') = 1%nat.
Proof.
  intros handler s.
  destruct (do_events_correct fresh handler s) as (s' & ran & H1 & _ & _ & H2 & _ & H3).
  - apply is_fresh.
  - intros f st _. unfold handler. destruct (f =? 1)%nat; repeat constructor.
  - split; simpl.
    + apply NoDup_singleton.
    + intros id. rewrite list_elem_of_singleton. destruct (decide (id = 5%nat)) as [->|]; [by rewrite lookup_singleton_eq, is_Some_alt|].
      rewrite lookup_singleton_ne by done. split; [done|by intros [? ?]].
    + intros id ev Hev. apply lookup_singleton_Some in Hev as [<- <-]. done.
    + intros m mo Hm. by rewrite lookup_empty in Hm.
    + intros id ev m Hev. apply lookup_singleton_Some in Hev as [<- <-]. done.
  - exists s', ran. split; [exact H1|]. split; [exact H2|].
    destruct (H3 5%nat (Event (Some (bs "old")) 200 1 1 (TV 10 0) false None)) as [Hr Ht].
    + intros f st. unfold handler. destruct (f =? 1)%nat; simpl; by apply (bool_decide_unpack _).
    + reflexivity.
    + split; done.
    + split; [by apply Hr|]. split; [rewrite Ht; reflexivity|].
      vm_compute in H1. injection H1 as <-. reflexivity.
Defined.

(** The clock of the events.  For times with microseconds below a second, a
    function runs whenever its interval has passed, and never more than a
    millisecond before that; the time of the last run is set exactly then. *)
Theorem minimum_msec_correct now old minimum :
  0 ≤ tv_usec now < 1000000 → 0 ≤ tv_usec old < 1000000 → tv_sec old ≠ 0 →
  let elapsed := (tv_sec now - tv_sec old) * 1000000 + (tv_usec now - tv_usec old) in
  let r := minimum_msec_since_last_run now old minimum in
  (1000 * minimum ≤ elapsed → fst r = true) ∧ (fst r = true → 1000 * (minimum - 1) < elapsed) ∧
  snd r = if fst r then now else old.
Proof.
  intros Hn Ho Hs elapsed r. unfold r, minimum_msec_since_last_run. rewrite (proj2 (Z.eqb_neq _ _)) by done. cbv zeta.
  pose proof (Z.quot_rem (tv_usec now - tv_usec old) 1000 ltac:(lia)) as Eq.
  set (q := Z.quot (tv_usec now - tv_usec old) 1000) in *. set (m := Z.rem (tv_usec now - tv_usec old) 1000) in *.
  assert (-1000 < m < 1000) as Hm by (pose proof (Z.rem_bound_abs (tv_usec now - tv_usec old) 1000 ltac:(lia)); unfold m; lia).
  assert (0 ≤ tv_usec now - tv_usec old → 0 ≤ m) as Hm1 by (intros; apply Z.rem_nonneg; lia).
  assert (tv_usec now - tv_usec old ≤ 0 → m ≤ 0) as Hm2 by (intros; apply Z.rem_nonpos; lia).
  clearbody q m. unfold elapsed. destruct (Z.leb_spec minimum ((tv_sec now - tv_sec old) * 1000 + q)); simpl; split_and!; try done; lia.
Qed.

Lemma minimum_msec_witness :
  fst (minimum_msec_since_last_run (TV 11 0) (TV 10 999) 1000) = true ∧
  fst (minimum_msec_since_last_run (TV 11 0) (TV 10 0) 1000) = true.
Proof.
  split; [reflexivity|]. apply (minimum_msec_correct (TV 11 0) (TV 10 0) 1000); simpl; lia.
Defined.
