(* ===== verification/Times.v ===== *)
(** * Times and sizes as text (src/misc.c, src/json.c, src/conf.c)

    Timestamps in the form of the server-time tag (timestamp_iso8601_now,
    server_time_to_unix_time), and times and sizes in the configuration
    (config_checkval, pretty_time_val_r).  Of the C library: [strcmp], [gmtime],
    [timegm], the conversions [%d] of [sscanf] and [%0wd] of [snprintf].

    A timestamp that was printed is read back to its second, and timestamps are
    ordered as text the way they are ordered in time, which the history relies
    on.  A printed duration is read back by the configuration. *)

From stdpp Require Import base tactics list numbers strings.
From Stdlib Require Import ZArith Lia.
From S2P Require Import Prelude Chars Support.

Local Open Scope Z_scope.

(** ** The C library *)

(** [strcmp]: the difference of the first bytes that differ. *)
Definition strcmp (a b : list Z) : Z := cmpz a b.

(** The [w] last digits of a number. *)
Fixpoint digits_n (w : nat) (n : Z) : list Z :=
  match w with O => [] | S w => digits_n w (n / 10) ++ [48 + n mod 10] end.
Fixpoint ndigits (fuel : nat) (n : Z) : nat :=
  match fuel with O => 1 | S f => if n <? 10 then 1 else S (ndigits f (n / 10)) end.
(** [%0wd], and [%ld] for width 0; 20 digits are enough for 64 bits. *)
Definition printf_d (w : nat) (n : Z) : list Z :=
  if n <? 0 then DASH :: digits_n (Nat.max (w - 1) (ndigits 20 (- n))) (- n)
  else digits_n (Nat.max w (ndigits 20 n)) n.

(** The conversion [%d] of [sscanf]: the number and the rest of the input. *)
Definition is_digit (c : Z) : bool := (48 <=? c) && (c <=? 57).
Definition scan_d (s : list Z) : option (Z * list Z) :=
  let s := drop_while c_space s in
  let negative := deref s =? DASH in
  let s := if negative || (deref s =? 43) then tail s else s in
  let ds := take_while is_digit s in
  if bool_decide (ds = []) then None
  else Some (i32 (clamp64 (if negative then - digits_val 0 ds else digits_val 0 ds)), drop_while is_digit s).

Inductive conversion := ConvD | ConvChar (c : Z).

(** The values of the conversions up to the first that fails. *)
Fixpoint sscanf (s : list Z) (format : list conversion) : list Z :=
  match format with
  | [] => []
  | ConvD :: f => match scan_d s with Some (v, s) => v :: sscanf s f | None => [] end
  | ConvChar c :: f => if deref s =? c then sscanf (tail s) f else []
  end.

(** Days since 1970-01-01 of a date of the Gregorian calendar. *)
Definition year_start (y : Z) : Z := 365 * y + y / 4 - y / 100 + y / 400.
Definition days_from_civil (year month day : Z) : Z :=
  let y := if month <=? 2 then year - 1 else year in
  let mp := (month + 9) mod 12 in
  year_start y + (153 * mp + 2) / 5 + (day - 1) - 719468.

(** The year (from March), the day in it and the date of a day. *)
Definition march_year (days : Z) : Z * Z :=
  let z := days + 719468 in
  let n400 := z / 146097 in let r := z mod 146097 in
  let n100 := Z.min (r / 36524) 3 in let r := r - 36524 * n100 in
  let n4 := r / 1461 in let r := r mod 1461 in
  let n1 := Z.min (r / 365) 3 in
  (400 * n400 + 100 * n100 + 4 * n4 + n1, r - 365 * n1).
Definition civil_from_days (days : Z) : Z * Z * Z :=
  let '(y, doy) := march_year days in
  let mp := (5 * doy + 2) / 153 in
  let month := if mp <? 10 then mp + 3 else mp - 9 in
  (if month <=? 2 then y + 1 else y, month, doy - (153 * mp + 2) / 5 + 1).

Record tm := Tm { tm_year : Z; tm_mon : Z; tm_mday : Z; tm_hour : Z; tm_min : Z; tm_sec : Z }.

Definition is_int (z : Z) : bool := (- 2 ^ 31 <=? z) && (z <? 2 ^ 31).

(** NULL if the year does not fit an [int]. *)
Definition gmtime (t : Z) : option tm :=
  let '(y, m, d) := civil_from_days (t / 86400) in
  let r := t mod 86400 in
  if is_int (y - 1900) then Some (Tm (y - 1900) (m - 1) d (r / 3600) (r / 60 mod 60) (r mod 60)) else None.

(** Fields out of their range are carried over; -1 if the year does not fit. *)
Definition timegm (x : tm) : Z :=
  let year := tm_year x + 1900 + tm_mon x / 12 in
  let t := (days_from_civil year (tm_mon x mod 12 + 1) 1 + (tm_mday x - 1)) * 86400
           + tm_hour x * 3600 + tm_min x * 60 + tm_sec x in
  let first := days_from_civil (1900 - 2 ^ 31) 1 1 * 86400 in
  let last := days_from_civil (1900 + 2 ^ 31) 1 1 * 86400 in
  if (first <=? t) && (t <? last) then t else -1.

(** ** Timestamps *)

Definition CH_T : Z := 84.
Definition CH_Z : Z := 90.

(** The text that both functions below print. *)
Definition iso8601_text (x : tm) (msec : Z) : list Z :=
  printf_d 4 (tm_year x + 1900) ++ [DASH] ++ printf_d 2 (tm_mon x + 1) ++ [DASH] ++ printf_d 2 (tm_mday x) ++ [CH_T]
  ++ printf_d 2 (tm_hour x) ++ [COLON] ++ printf_d 2 (tm_min x) ++ [COLON] ++ printf_d 2 (tm_sec x) ++ [DOT]
  ++ printf_d 3 msec ++ [CH_Z].

(** [gettimeofday] is the argument; 63 characters fit the buffer. *)
Definition timestamp_iso8601_now (tv_sec tv_usec : Z) : res (list Z) :=
  match gmtime tv_sec with
  | None => UB
  | Some x => Ok (take 63 (iso8601_text x (Z.quot tv_usec 1000)))
  end.

Definition timestamp_iso8601 (v : Z) : option (list Z) :=
  if v =? 0 then None
  else match gmtime v with
       | None => None
       | Some x => Some (take 63 (iso8601_text x 0))
       end.

Definition my_timegm (x : tm) : Z := timegm x.

Definition server_time_format : list conversion :=
  [ConvD; ConvChar DASH; ConvD; ConvChar DASH; ConvD; ConvChar CH_T; ConvD; ConvChar COLON; ConvD; ConvChar COLON;
   ConvD; ConvChar DOT; ConvD; ConvChar CH_Z].

Definition server_time_to_unix_time (tbuf : option (list Z)) : res Z :=
  match tbuf with
  | None => Ok 0
  | Some tbuf =>
      if (length tbuf <? 20)%nat then Ok 0
      else match sscanf tbuf server_time_format with
           | [year; mon; mday; hour; min; sec; dontcare] =>
               let! _ := require (is_int (year - 1900) && is_int (mon - 1)) in
               Ok (my_timegm (Tm (year - 1900) (mon - 1) mday hour min sec))
           | _ => Ok 0
           end
  end.

(** ** Times and sizes in the configuration *)

Inductive cfg_type := CFG_TIME | CFG_SIZE | CFG_YESNO.

Definition size_factor (c : Z) : Z :=
  let c := tolower c in
  if c =? 107 then 1024 else if c =? 109 then 1048576 else if c =? 103 then 1073741824 else 1.
Definition time_factor (c : Z) : Z :=
  let c := tolower c in
  if c =? 119 then 604800 else if c =? 100 then 86400 else if c =? 104 then 3600 else if c =? 109 then 60 else 1.

(** [*p] and [*p = 0] in the copy of the value with its NUL. *)
Definition get (buf : list Z) (p : Z) : res Z :=
  if p <? 0 then UB else match buf !! Z.to_nat p with Some c => Ok c | None => UB end.
Definition put0 (buf : list Z) (p : Z) : list Z := <[Z.to_nat p := 0]> buf.

(** The C string at [p]. *)
Definition str_at (buf : list Z) (p : Z) : list Z := take_while (λ c, negb (c =? 0)) (drop (Z.to_nat p) buf).

(** [while (sz-- > value && *sz) ...]; the last part of the value is scanned
    without the second condition. *)
Definition back_body (stop_at_nul : bool) (st : list Z * Z) : res (step (list Z * Z) (list Z * Z)) :=
  let '(buf, sz) := st in
  let in_value := 0 <? sz in
  let sz := sz - 1 in
  if negb in_value then Ok (Done (buf, sz))
  else
    let! c := get buf sz in
    if stop_at_nul && (c =? 0) then Ok (Done (buf, sz))
    else
      let buf := if isspace c then put0 buf sz else buf in
      if isspace c || negb (isdigit c) then Ok (Done (buf, sz)) else Ok (Next (buf, sz)).
Definition scan_back (stop_at_nul : bool) (buf : list Z) (sz : Z) : res (list Z * Z) :=
  loop (back_body stop_at_nul) (Z.to_nat sz + 1) (buf, sz).

(** [ret += atoi(sz+1)*mfactor]: the product is an [int]. *)
Definition add_value (ret : Z) (buf : list Z) (sz mfactor : Z) : res Z :=
  let product := atoi (str_at buf (sz + 1)) * mfactor in
  let! _ := require (is_int product) in
  Ok (ret + product).

Definition unit_body (factor : Z → Z) (st : list Z * Z * Z) : res (step (list Z * Z * Z) (list Z * Z * Z)) :=
  let '(buf, text, ret) := st in
  let! c := get buf text in
  if c =? 0 then Ok (Done (buf, text, ret))
  else if isalpha c then
    let mfactor := factor c in
    let sz := text in
    let text := text + Z.of_nat (length (take_while isalpha (drop (Z.to_nat text) buf))) in
    let buf := put0 buf sz in
    let! (buf, sz) := scan_back true buf sz in
    let! ret := add_value ret buf sz mfactor in
    let! c := get buf text in
    if c =? 0 then Ok (Done (buf, text + 1, ret))
    else Ok (Next (buf, text + 1, ret))
  else Ok (Next (buf, text + 1, ret)).

Definition checkval_units (factor : Z → Z) (value : list Z) : res Z :=
  let! (buf, text, ret) := loop (unit_body factor) (length value + 1) (value ++ [0], 0, 0) in
  let sz := text - 1 in
  let! (buf, sz) := scan_back false buf sz in
  add_value ret buf sz 1.

(** [text+1] is read only behind a character. *)
Fixpoint checkval_yesno (text : list Z) : Z :=
  match text with
  | [] => 0
  | c :: r =>
      if negb (isalnum c) then checkval_yesno r
      else if (tolower c =? 121) || ((tolower c =? 111) && (tolower (deref r) =? 110)) || (c =? 49) || (tolower c =? 116)
           then 1
           else checkval_yesno r
  end.

Definition config_checkval (orig : option (list Z)) (flags : cfg_type) : res Z :=
  match orig with
  | None | Some [] => Ok 0
  | Some value =>
      match flags with
      | CFG_YESNO => Ok (checkval_yesno value)
      | CFG_SIZE => checkval_units size_factor value
      | CFG_TIME => checkval_units time_factor value
      end
  end.

(** [snprintf] appends to what is in the buffer. *)
Definition append_unit (buflen : nat) (buf : list Z) (v letter : Z) : list Z :=
  if v =? 0 then buf else buf ++ take (buflen - length buf - 1) (printf_d 0 v ++ [letter]).
Definition pretty_time_val_r (buflen : nat) (timeval : Z) : list Z :=
  if timeval =? 0 then [48]
  else
    let buf := append_unit buflen [] (Z.quot timeval 86400) 100 in
    let buf := append_unit buflen buf (Z.rem (Z.quot timeval 3600) 24) 104 in
    let buf := append_unit buflen buf (Z.rem (Z.quot timeval 60) 60) 109 in
    append_unit buflen buf (Z.rem timeval 60) 115.
Definition pretty_time_val (timeval : Z) : list Z := pretty_time_val_r 512 timeval.

(** ** Digits *)

Lemma digits_n_length w n : length (digits_n w n) = w.
Proof. revert n. induction w as [|w IH]; intros n; [done|]. simpl. rewrite length_app, IH. simpl. lia. Qed.

Lemma digits_n_digits w n : Natcmp.digits (digits_n w n).
Proof.
  revert n. induction w as [|w IH]; intros n; simpl; [constructor|].
  apply Forall_app. split; [apply IH|]. constructor; [|constructor].
  pose proof (Z.mod_pos_bound n 10). lia.
Qed.

Lemma ndigits_le fuel w n : (0 < w)%nat → 0 ≤ n < 10 ^ Z.of_nat w → (ndigits fuel n ≤ w)%nat.
Proof.
  revert w n. induction fuel as [|fuel IH]; intros w n Hw Hn; simpl; [lia|].
  destruct (Z.ltb_spec n 10); [lia|]. destruct w as [|[|w]]; [lia|simpl in Hn; lia|].
  apply le_n_S, IH; [lia|]. rewrite Nat2Z.inj_succ, Z.pow_succ_r in Hn by lia. split; [apply Z.div_pos; lia|].
  apply Z.div_lt_upper_bound; lia.
Qed.

Lemma printf_fixed w n : (0 < w)%nat → 0 ≤ n < 10 ^ Z.of_nat w → printf_d w n = digits_n w n.
Proof.
  intros Hw Hn. unfold printf_d. destruct (Z.ltb_spec n 0); [lia|].
  pose proof (ndigits_le 20 w n Hw Hn). f_equal. lia.
Qed.

Lemma ndigits_enough fuel n : 0 ≤ n < 10 ^ Z.of_nat fuel → n < 10 ^ Z.of_nat (ndigits fuel n).
Proof.
  revert n. induction fuel as [|fuel IH]; intros n Hn; simpl ndigits; [simpl in *; lia|].
  destruct (Z.ltb_spec n 10); [simpl; lia|].
  rewrite Nat2Z.inj_succ, Z.pow_succ_r in Hn |- * by lia.
  pose proof (IH (n / 10) ltac:(split; [apply Z.div_pos; lia|apply Z.div_lt_upper_bound; lia])).
  pose proof (Z.div_mod n 10). pose proof (Z.mod_pos_bound n 10). lia.
Qed.

Lemma digits_val_app acc ds r :
  Natcmp.digits ds → digits_val acc (ds ++ r) = digits_val (digits_val acc ds) r.
Proof.
  intros H. revert acc. induction H as [|c ds Hc _ IH]; intros acc; [done|].
  cbn [app digits_val]. replace ((48 <=? c) && (c <=? 57)) with true by (symmetry; apply andb_true_iff; split; apply Z.leb_le; lia).
  apply IH.
Qed.

Lemma digits_val_n acc w n :
  0 ≤ n < 10 ^ Z.of_nat w → digits_val acc (digits_n w n) = acc * 10 ^ Z.of_nat w + n.
Proof.
  revert n. induction w as [|w IH]; intros n Hn; [simpl in *; lia|].
  rewrite Nat2Z.inj_succ, Z.pow_succ_r in Hn |- * by lia. cbn [digits_n].
  rewrite digits_val_app by apply digits_n_digits.
  rewrite IH by (split; [apply Z.div_pos; lia|apply Z.div_lt_upper_bound; lia]).
  pose proof (Z.div_mod n 10). pose proof (Z.mod_pos_bound n 10). cbn [digits_val].
  replace ((48 <=? 48 + n mod 10) && (48 + n mod 10 <=? 57)) with true
    by (symmetry; apply andb_true_iff; split; apply Z.leb_le; lia). lia.
Qed.

(** Numbers of one width compare as text the way they compare as numbers. *)
Lemma cmpz_app_eq p a b : cmpz (p ++ a) (p ++ b) = cmpz a b.
Proof. induction p as [|x p IH]; [done|]. simpl. by rewrite Z.eqb_refl. Qed.
Lemma cmpz_app_lt p q a b : length p = length q → cmpz p q < 0 → cmpz (p ++ a) (q ++ b) < 0.
Proof.
  revert q. induction p as [|x p IH]; intros [|y q] Hl Hc; simpl in *; try lia.
  destruct (x =? y); [|lia]. apply IH; lia.
Qed.
Lemma digits_n_lt w a b : 0 ≤ a → a < b → b < 10 ^ Z.of_nat w → cmpz (digits_n w a) (digits_n w b) < 0.
Proof.
  revert a b. induction w as [|w IH]; intros a b Ha Hab Hb; [simpl in *; lia|].
  rewrite Nat2Z.inj_succ, Z.pow_succ_r in Hb by lia. cbn [digits_n].
  pose proof (Z.div_le_mono a b 10 ltac:(lia) ltac:(lia)) as Hle.
  pose proof (Z.div_pos a 10 Ha ltac:(lia)).
  pose proof (Z.div_lt_upper_bound b 10 (10 ^ Z.of_nat w) ltac:(lia) ltac:(lia)).
  destruct (decide (a / 10 = b / 10)) as [E|E].
  - rewrite E, cmpz_app_eq. pose proof (Z.div_mod a 10). pose proof (Z.div_mod b 10). simpl.
    destruct (Z.eqb_spec (48 + a mod 10) (48 + b mod 10)); lia.
  - apply cmpz_app_lt; [by rewrite !digits_n_length|]. apply IH; lia.
Qed.

(** ** Dates *)

Lemma march_year_correct days :
  let '(y, doy) := march_year days in
  days + 719468 = year_start y + doy ∧ 0 ≤ doy ≤ 365 ∧ days + 719468 < year_start (y + 1).
Proof.
  unfold march_year, year_start. cbv zeta. set (z := days + 719468). clearbody z.
  Z.to_euclidean_division_equations. lia.
Qed.

Lemma civil_correct days :
  let '(y, m, d) := civil_from_days days in
  days_from_civil y m d = days ∧ 1 ≤ m ≤ 12 ∧ 1 ≤ d ≤ 31.
Proof.
  unfold civil_from_days, days_from_civil. pose proof (march_year_correct days) as H.
  destruct (march_year days) as [y doy]. destruct H as (Hd & Hr & _).
  assert (0 ≤ (5 * doy + 2) / 153 ≤ 11) as Hm by (Z.to_euclidean_division_equations; lia).
  set (mp := (5 * doy + 2) / 153) in *. assert (1 ≤ doy - (153 * mp + 2) / 5 + 1 ≤ 31) as Hdd
    by (unfold mp; Z.to_euclidean_division_equations; lia).
  destruct (Z.ltb_spec mp 10).
  - replace (mp + 3 <=? 2) with false by (symmetry; apply Z.leb_gt; lia).
    replace ((mp + 3 + 9) mod 12) with mp by (Z.to_euclidean_division_equations; lia). lia.
  - replace (mp - 9 <=? 2) with true by (symmetry; apply Z.leb_le; lia).
    replace (y + 1 - 1) with y by lia.
    replace ((mp - 9 + 9) mod 12) with mp by (Z.to_euclidean_division_equations; lia). lia.
Qed.

Definition date_key (x : Z * Z * Z) : Z := (12 * x.1.1 + x.1.2) * 32 + x.2.

Lemma year_start_mono a b : a ≤ b → year_start a ≤ year_start b.
Proof. unfold year_start. Z.to_euclidean_division_equations. lia. Qed.

(** Months and days in the order of the days of a year that starts in March. *)
Lemma civil_key days :
  let '(y, doy) := march_year days in
  date_key (civil_from_days days) =
    (12 * y + (5 * doy + 2) / 153 + 3) * 32 + (doy - (153 * ((5 * doy + 2) / 153) + 2) / 5 + 1).
Proof.
  unfold civil_from_days, date_key. pose proof (march_year_correct days) as H.
  destruct (march_year days) as [y doy]. destruct H as (_ & Hr & _).
  assert (0 ≤ (5 * doy + 2) / 153 ≤ 11) as Hm by (Z.to_euclidean_division_equations; lia).
  set (mp := (5 * doy + 2) / 153) in *. simpl. destruct (Z.ltb_spec mp 10).
  - destruct (Z.leb_spec (mp + 3) 2); lia.
  - destruct (Z.leb_spec (mp - 9) 2); lia.
Qed.

Lemma civil_mono a b : a < b → date_key (civil_from_days a) < date_key (civil_from_days b).
Proof.
  intros Hab. pose proof (civil_key a) as Ka. pose proof (civil_key b) as Kb.
  pose proof (march_year_correct a) as Ha. pose proof (march_year_correct b) as Hb.
  destruct (march_year a) as [ya da], (march_year b) as [yb db]. rewrite Ka, Kb. clear Ka Kb.
  destruct Ha as (Ea & Ra & La), Hb as (Eb & Rb & Lb).
  assert (ya ≤ yb) as Hy.
  { destruct (decide (ya ≤ yb)); [done|]. pose proof (year_start_mono (yb + 1) ya ltac:(lia)). lia. }
  destruct (decide (ya = yb)) as [->|Hne].
  - assert (da < db) as Hd by lia. clear - Hd Ra Rb. Z.to_euclidean_division_equations. lia.
  - clear - Hy Hne Ra Rb. Z.to_euclidean_division_equations. lia.
Qed.

Definition MAX_TIME : Z := 253402300800.

Lemma civil_year t : 0 ≤ t < MAX_TIME → 1970 ≤ (civil_from_days (t / 86400)).1.1 ≤ 9999.
Proof.
  intros Ht. unfold MAX_TIME in Ht. set (d := t / 86400).
  assert (0 ≤ d < 2932897) as Hd by (unfold d; Z.to_euclidean_division_equations; lia). clearbody d.
  pose proof (civil_correct d) as Hc. pose proof (civil_correct 0) as H0. pose proof (civil_correct 2932896) as H1.
  assert (date_key (civil_from_days 0) ≤ date_key (civil_from_days d)) as Hl.
  { destruct (decide (d = 0)) as [->|]; [done|]. apply Z.lt_le_incl, civil_mono. lia. }
  assert (date_key (civil_from_days d) ≤ date_key (civil_from_days 2932896)) as Hu.
  { destruct (decide (d = 2932896)) as [->|]; [done|]. apply Z.lt_le_incl, civil_mono. lia. }
  change (date_key (civil_from_days 0)) with 756513 in Hl.
  change (date_key (civil_from_days 2932896)) with 3840031 in Hu.
  destruct (civil_from_days d) as [[y m] dd]. unfold date_key in *. simpl in *. lia.
Qed.

(** ** Timestamps *)

Lemma gmtime_some t : 0 ≤ t < MAX_TIME →
  let '(y, m, d) := civil_from_days (t / 86400) in let r := t mod 86400 in
  gmtime t = Some (Tm (y - 1900) (m - 1) d (r / 3600) (r / 60 mod 60) (r mod 60)).
Proof.
  intros Ht. unfold gmtime. pose proof (civil_year t Ht) as Hy.
  destruct (civil_from_days (t / 86400)) as [[y m] d]. simpl in Hy.
  replace (is_int (y - 1900)) with true; [done|]. symmetry. unfold is_int. apply andb_true_iff.
  split; [apply Z.leb_le|apply Z.ltb_lt]; lia.
Qed.

Lemma day_time t : let r := t mod 86400 in
  t = t / 86400 * 86400 + r / 3600 * 3600 + r / 60 mod 60 * 60 + r mod 60 ∧
  0 ≤ r / 3600 < 24 ∧ 0 ≤ r / 60 mod 60 < 60 ∧ 0 ≤ r mod 60 < 60.
Proof. cbv zeta. Z.to_euclidean_division_equations. lia. Qed.

Lemma timegm_gmtime t x : 0 ≤ t < MAX_TIME → gmtime t = Some x → timegm x = t.
Proof.
  intros Ht. pose proof (gmtime_some t Ht) as Hg. pose proof (civil_correct (t / 86400)) as Hc.
  destruct (civil_from_days (t / 86400)) as [[y m] d]. destruct Hc as (Hd & Hm & _). rewrite Hg. intros [= <-].
  unfold timegm. simpl tm_year. simpl tm_mon. simpl tm_mday. simpl tm_hour. simpl tm_min. simpl tm_sec.
  rewrite (Z.div_small (m - 1) 12), (Z.mod_small (m - 1) 12) by lia.
  replace (y - 1900 + 1900 + 0) with y by lia. replace (m - 1 + 1) with m by lia.
  pose proof (day_time t) as Hr. cbv zeta in Hr.
  assert (days_from_civil y m 1 + (d - 1) = t / 86400) as -> by (rewrite <-Hd; unfold days_from_civil; lia).
  match goal with |- (if (?a <=? ?v) && _ then _ else _) = _ => assert (v = t) as -> by lia end.
  unfold MAX_TIME in Ht.
  match goal with |- (if (?a <=? t) && (t <? ?b) then _ else _) = _ =>
    assert (a ≤ 0) by (apply Z.leb_le; vm_compute; reflexivity);
    assert (253402300800 ≤ b) by (apply Z.leb_le; vm_compute; reflexivity);
    replace (a <=? t) with true by (symmetry; apply Z.leb_le; lia);
    replace (t <? b) with true by (symmetry; apply Z.ltb_lt; lia) end. done.
Qed.

(** The text of a second and a millisecond. *)
Definition stamp (sec msec : Z) : list Z :=
  let '(y, m, d) := civil_from_days (sec / 86400) in let r := sec mod 86400 in
  digits_n 4 y ++ [DASH] ++ digits_n 2 m ++ [DASH] ++ digits_n 2 d ++ [CH_T] ++ digits_n 2 (r / 3600) ++ [COLON]
  ++ digits_n 2 (r / 60 mod 60) ++ [COLON] ++ digits_n 2 (r mod 60) ++ [DOT] ++ digits_n 3 msec ++ [CH_Z].

Definition stamp_ok (sec msec : Z) : Prop := 0 ≤ sec < MAX_TIME ∧ 0 ≤ msec < 1000.

Lemma stamp_length sec msec : length (stamp sec msec) = 24%nat.
Proof.
  unfold stamp. destruct (civil_from_days (sec / 86400)) as [[y m] d]. cbv zeta.
  rewrite !length_app, !digits_n_length. done.
Qed.

Lemma iso8601_stamp sec msec x :
  stamp_ok sec msec → gmtime sec = Some x → iso8601_text x msec = stamp sec msec.
Proof.
  intros [Ht Hm]. pose proof (gmtime_some sec Ht) as Hg. pose proof (civil_correct (sec / 86400)) as Hc.
  pose proof (civil_year sec Ht) as Hy. pose proof (day_time sec) as Hr. unfold stamp.
  destruct (civil_from_days (sec / 86400)) as [[y m] d]. rewrite Hg. intros [= <-]. unfold iso8601_text. simpl in *.
  replace (y - 1900 + 1900) with y by lia. replace (m - 1 + 1) with m by lia.
  rewrite !printf_fixed by (simpl; lia). done.
Qed.

Lemma timestamp_now sec usec :
  0 ≤ sec < MAX_TIME → 0 ≤ usec < 1000000 → timestamp_iso8601_now sec usec = Ok (stamp sec (usec / 1000)).
Proof.
  intros Hs Hu. assert (stamp_ok sec (usec / 1000)) as Hok.
  { split; [done|]. split; [apply Z.div_pos; lia|apply Z.div_lt_upper_bound; lia]. }
  pose proof (gmtime_some sec Hs) as Hg. unfold timestamp_iso8601_now.
  destruct (gmtime sec) as [x|] eqn:E; [|by destruct (civil_from_days (sec / 86400)) as [[??]?]].
  rewrite Z.quot_div_nonneg by lia. rewrite (iso8601_stamp sec (usec / 1000)) by done.
  rewrite take_ge; [done|]. rewrite stamp_length. lia.
Qed.

Lemma is_digit_digits ds : Natcmp.digits ds → Forall (λ c, is_digit c = true) ds.
Proof.
  intros H. eapply Forall_impl; [exact H|]. intros c Hc. simpl in Hc. unfold is_digit. apply andb_true_iff. split; apply Z.leb_le; lia.
Qed.

Lemma scan_d_digits w n r :
  (0 < w ≤ 9)%nat → 0 ≤ n < 10 ^ Z.of_nat w → is_digit (deref r) = false → scan_d (digits_n w n ++ r) = Some (n, r).
Proof.
  intros Hw Hn Hr. pose proof (digits_n_digits w n) as Hd. pose proof (digits_val_n 0 w n Hn) as Hv.
  pose proof (digits_n_length w n) as Hl. set (ds := digits_n w n) in *. clearbody ds.
  pose proof (is_digit_digits ds Hd) as Hid.
  destruct Hd as [|c ds Hc Hd]; [simpl in Hl; lia|]. unfold scan_d.
  assert (c_space c = false) as Hsp by (unfold c_space; bool_cases).
  assert (drop_while c_space ((c :: ds) ++ r) = (c :: ds) ++ r) as -> by (simpl; by rewrite Hsp).
  assert (deref ((c :: ds) ++ r) = c) as -> by done.
  replace (c =? DASH) with false by (symmetry; apply Z.eqb_neq; lia).
  replace (c =? 43) with false by (symmetry; apply Z.eqb_neq; lia). cbn [orb].
  assert (take_while is_digit r = [] ∧ drop_while is_digit r = r) as [Htr Hdr].
  { destruct r as [|x r]; [done|]. simpl in *. by rewrite Hr. }
  rewrite take_while_app, drop_while_app by done. rewrite Htr, Hdr, app_nil_r.
  rewrite bool_decide_eq_false_2 by done. do 2 f_equal. rewrite Hv.
  assert (10 ^ Z.of_nat w ≤ 10 ^ 9) by (apply Z.pow_le_mono_r; lia).
  replace (0 * 10 ^ Z.of_nat w + n) with n by lia. unfold clamp64. rewrite Z.min_r, Z.max_r by lia.
  apply i32_small. lia.
Qed.

Lemma sscanf_field w n r f :
  (0 < w ≤ 9)%nat → 0 ≤ n < 10 ^ Z.of_nat w → is_digit (deref r) = false →
  sscanf (digits_n w n ++ r) (ConvD :: f) = n :: sscanf r f.
Proof. intros. cbn [sscanf]. by rewrite scan_d_digits. Qed.
Lemma sscanf_char c r f : sscanf ([c] ++ r) (ConvChar c :: f) = sscanf r f.
Proof. cbn [sscanf app deref hd tail]. by rewrite Z.eqb_refl. Qed.

Lemma unix_time_stamp sec msec : stamp_ok sec msec → server_time_to_unix_time (Some (stamp sec msec)) = Ok sec.
Proof.
  intros [Ht Hm]. unfold server_time_to_unix_time. rewrite stamp_length. cbn [Nat.ltb Nat.leb].
  pose proof (gmtime_some sec Ht) as Hg. pose proof (civil_correct (sec / 86400)) as Hc.
  pose proof (civil_year sec Ht) as Hy. pose proof (day_time sec) as Hr. unfold stamp.
  destruct (civil_from_days (sec / 86400)) as [[y m] d]. cbv zeta in *. simpl in Hy.
  unfold server_time_format.
  rewrite (sscanf_field 4), sscanf_char, (sscanf_field 2), sscanf_char, (sscanf_field 2), sscanf_char,
    (sscanf_field 2), sscanf_char, (sscanf_field 2), sscanf_char, (sscanf_field 2), sscanf_char, (sscanf_field 3)
    by (first [done | lia | simpl; lia]).
  cbn [sscanf deref hd tail]. rewrite Z.eqb_refl. cbn [sscanf].
  replace (is_int (y - 1900) && is_int (m - 1)) with true
    by (symmetry; unfold is_int; rewrite !andb_true_iff, !Z.leb_le, !Z.ltb_lt; lia).
  simpl. f_equal. by apply timegm_gmtime.
Qed.

(** Fields of one width, the first that differs decides. *)
Lemma field_lt w a b s t :
  0 ≤ a < 10 ^ Z.of_nat w → 0 ≤ b < 10 ^ Z.of_nat w → a < b ∨ (a = b ∧ cmpz s t < 0) →
  cmpz (digits_n w a ++ s) (digits_n w b ++ t) < 0.
Proof.
  intros Ha Hb [H|[-> H]].
  - apply cmpz_app_lt; [by rewrite !digits_n_length|]. apply digits_n_lt; lia.
  - by rewrite cmpz_app_eq.
Qed.
Lemma sep_lt c s t : cmpz s t < 0 → cmpz ([c] ++ s) ([c] ++ t) < 0.
Proof. by rewrite cmpz_app_eq. Qed.

Lemma time_fields a b : a < b →
  a / 86400 < b / 86400 ∨ (a / 86400 = b / 86400 ∧
    let r := a mod 86400 in let r' := b mod 86400 in
    (r / 3600 < r' / 3600 ∨ (r / 3600 = r' / 3600 ∧
      (r / 60 mod 60 < r' / 60 mod 60 ∨ (r / 60 mod 60 = r' / 60 mod 60 ∧ r mod 60 < r' mod 60))))).
Proof. intros H. cbv zeta. Z.to_euclidean_division_equations. lia. Qed.

Lemma stamp_lt sec msec sec' msec' :
  stamp_ok sec msec → stamp_ok sec' msec' → sec < sec' ∨ (sec = sec' ∧ msec < msec') →
  strcmp (stamp sec msec) (stamp sec' msec') < 0.
Proof.
  intros [Hs Hm] [Hs' Hm'] H. unfold strcmp.
  pose proof (civil_correct (sec / 86400)) as Hc. pose proof (civil_correct (sec' / 86400)) as Hc'.
  pose proof (civil_year sec Hs) as Hy. pose proof (civil_year sec' Hs') as Hy'.
  pose proof (day_time sec) as Hd. pose proof (day_time sec') as Hd'. cbv zeta in Hd, Hd'.
  assert (sec / 86400 < sec' / 86400 →
          date_key (civil_from_days (sec / 86400)) < date_key (civil_from_days (sec' / 86400))) as Hk by apply civil_mono.
  unfold stamp. destruct H as [H|[-> H]].
  - pose proof (time_fields sec sec' H) as Hf. cbv zeta in Hf.
    destruct (decide (sec / 86400 = sec' / 86400)) as [E|E].
    + rewrite E in *. destruct (civil_from_days (sec' / 86400)) as [[y m] d]. cbv zeta.
      do 6 rewrite cmpz_app_eq.
      apply field_lt; [simpl; lia..|]. destruct Hf as [?|[_ [?|[-> Hf]]]]; [lia|by left|right; split; [done|]].
      apply sep_lt, field_lt; [simpl; lia..|]. destruct Hf as [?|[-> Hf]]; [by left|right; split; [done|]].
      apply sep_lt, field_lt; [simpl; lia..|]. by left.
    + specialize (Hk ltac:(lia)). destruct (civil_from_days (sec / 86400)) as [[y m] d],
        (civil_from_days (sec' / 86400)) as [[y' m'] d']. unfold date_key in Hk. simpl in Hk, Hy, Hy'. cbv zeta.
      apply field_lt; [simpl; lia..|]. destruct (decide (y = y')) as [->|]; [right; split; [done|]|left; lia].
      apply sep_lt, field_lt; [simpl; lia..|]. destruct (decide (m = m')) as [->|]; [right; split; [done|]|left; lia].
      apply sep_lt, field_lt; [simpl; lia..|]. left. lia.
  - destruct (civil_from_days (sec' / 86400)) as [[y m] d]. cbv zeta. do 12 rewrite cmpz_app_eq.
    apply field_lt; [simpl; lia..|]. by left.
Qed.

Lemma stamp_lt_iff sec msec sec' msec' :
  stamp_ok sec msec → stamp_ok sec' msec' →
  strcmp (stamp sec msec) (stamp sec' msec') < 0 ↔ sec < sec' ∨ (sec = sec' ∧ msec < msec').
Proof.
  intros H H'. split; [|by apply stamp_lt]. intros Hc.
  destruct (decide (sec = sec' ∧ msec = msec')) as [[-> ->]|Hne].
  { unfold strcmp in Hc. rewrite cmpz_refl in Hc. lia. }
  destruct (decide (sec < sec' ∨ (sec = sec' ∧ msec < msec'))) as [|Hn]; [done|].
  pose proof (stamp_lt sec' msec' sec msec H' H ltac:(lia)) as Hb. unfold strcmp in *. rewrite cmpz_anti in Hb. lia.
Qed.

(** Timestamps.  The text of the current time is read back to its second, and
    two texts compare as the times they were made from, to the millisecond. *)
Theorem server_time_correct sec usec sec' usec' :
  0 ≤ sec < MAX_TIME → 0 ≤ usec < 1000000 → 0 ≤ sec' < MAX_TIME → 0 ≤ usec' < 1000000 →
  ∃ a b, timestamp_iso8601_now sec usec = Ok a ∧ timestamp_iso8601_now sec' usec' = Ok b ∧
    length a = 24%nat ∧ server_time_to_unix_time (Some a) = Ok sec ∧
    (strcmp a b < 0 ↔ sec < sec' ∨ (sec = sec' ∧ usec / 1000 < usec' / 1000)) ∧
    (strcmp a b = 0 ↔ sec = sec' ∧ usec / 1000 = usec' / 1000).
Proof.
  intros Hs Hu Hs' Hu'.
  assert (∀ u, 0 ≤ u < 1000000 → 0 ≤ u / 1000 < 1000) as Hms by (intros u ?; Z.to_euclidean_division_equations; lia).
  assert (stamp_ok sec (usec / 1000)) as H by (split; auto). assert (stamp_ok sec' (usec' / 1000)) as H' by (split; auto).
  exists (stamp sec (usec / 1000)), (stamp sec' (usec' / 1000)). rewrite !timestamp_now, stamp_length by done.
  split_and!; try done; [by apply unix_time_stamp|by apply stamp_lt_iff|].
  pose proof (stamp_lt_iff _ _ _ _ H H') as H1. pose proof (stamp_lt_iff _ _ _ _ H' H) as H2.
  split; [|intros [-> ->]; apply cmpz_refl]. intros E. unfold strcmp in *. rewrite cmpz_anti in H2. lia.
Qed.

Lemma server_time_witness :
  timestamp_iso8601_now 1700000000 123456 = Ok (bs "2023-11-14T22:13:20.123Z") ∧
  ∃ a b, timestamp_iso8601_now 1700000000 123456 = Ok a ∧ timestamp_iso8601_now 1709164800 0 = Ok b ∧
    length a = 24%nat ∧ server_time_to_unix_time (Some a) = Ok 1700000000 ∧
    (strcmp a b < 0 ↔ 1700000000 < 1709164800 ∨ (1700000000 = 1709164800 ∧ 123456 / 1000 < 0 / 1000)) ∧
    (strcmp a b = 0 ↔ 1700000000 = 1709164800 ∧ 123456 / 1000 = 0 / 1000).
Proof. split; [vm_compute; reflexivity|]. apply (server_time_correct 1700000000 123456 1709164800 0); unfold MAX_TIME; lia. Defined.

(** ** Times and sizes of the configuration *)

Lemma get_app pre c rest : get (pre ++ c :: rest) (Z.of_nat (length pre)) = Ok c.
Proof.
  unfold get. replace (Z.of_nat (length pre) <? 0) with false by (symmetry; apply Z.ltb_ge; lia).
  by rewrite Nat2Z.id, list_lookup_middle.
Qed.
Lemma put0_app pre c rest : put0 (pre ++ c :: rest) (Z.of_nat (length pre)) = pre ++ 0 :: rest.
Proof. unfold put0. rewrite Nat2Z.id, insert_app_r_alt, Nat.sub_diag by lia. done. Qed.

Lemma digit_facts c : 48 ≤ c ≤ 57 →
  isdigit c = true ∧ isspace c = false ∧ isalpha c = false ∧ (c =? 0) = false.
Proof.
  intros H. split_and!; [by apply Natcmp.isdigit_range|by apply Natcmp.isspace_digit| |apply Z.eqb_neq; lia].
  apply negb_true_iff. by apply (Natcmp.digit_check (λ c, negb (isalpha c))).
Qed.

(** A place where scanning back over digits stops. *)
Definition stops (pre : list Z) : Prop := pre = [] ∨ ∃ p, pre = p ++ [0].

Lemma scan_back_digits pre ds rest fuel :
  Natcmp.digits ds → stops pre → (length ds < fuel)%nat →
  loop (back_body true) fuel (pre ++ ds ++ rest, Z.of_nat (length pre + length ds)) =
  Ok (pre ++ ds ++ rest, Z.of_nat (length pre) - 1).
Proof.
  revert rest fuel. induction ds as [|x ds IH] using rev_ind; intros rest fuel Hd Hp Hf;
    (destruct fuel as [|fuel]; [lia|]); cbn [loop]; unfold back_body at 1.
  - simpl length. rewrite Nat.add_0_r. simpl app. destruct Hp as [->|[p ->]]; [done|].
    rewrite length_app. simpl length. replace (0 <? Z.of_nat (length p + 1)) with true by (symmetry; apply Z.ltb_lt; lia).
    replace (Z.of_nat (length p + 1) - 1) with (Z.of_nat (length p)) by lia. rewrite <-app_assoc. simpl app.
    cbn [negb]. rewrite get_app. done.
  - apply Forall_app in Hd as [Hd Hx]. apply Forall_cons in Hx as [Hx _]. rewrite length_app in *. simpl length in *.
    replace (0 <? Z.of_nat (length pre + (length ds + 1))) with true by (symmetry; apply Z.ltb_lt; lia). cbn [negb].
    replace (Z.of_nat (length pre + (length ds + 1)) - 1) with (Z.of_nat (length (pre ++ ds)))
      by (rewrite length_app; lia).
    replace (pre ++ (ds ++ [x]) ++ rest) with ((pre ++ ds) ++ x :: rest) by (by rewrite <-!app_assoc).
    rewrite get_app. simpl rbind. destruct (digit_facts x Hx) as (-> & -> & _ & ->). cbn [negb orb andb].
    rewrite length_app, <-app_assoc. apply IH; [done..|lia].
Qed.

Lemma atoi_digits w n : (0 < w)%nat → 0 ≤ n < 10 ^ Z.of_nat w → n < 2 ^ 31 → atoi (digits_n w n) = n.
Proof.
  intros Hw Hn Hi. pose proof (digits_n_digits w n) as Hd. pose proof (digits_val_n 0 w n Hn) as Hv.
  pose proof (digits_n_length w n) as Hl. set (ds := digits_n w n) in *. clearbody ds. unfold atoi.
  destruct Hd as [|c ds Hc Hd]; [simpl in Hl; lia|].
  assert (c_space c = false) as Hsp by (unfold c_space; bool_cases).
  assert (drop_while c_space (c :: ds) = c :: ds) as -> by (simpl; by rewrite Hsp).
  replace (c =? DASH) with false by (symmetry; apply Z.eqb_neq; lia).
  replace (c =? 43) with false by (symmetry; apply Z.eqb_neq; lia).
  rewrite Hv. replace (0 * 10 ^ Z.of_nat w + n) with n by lia. unfold clamp64. rewrite Z.min_r, Z.max_r by lia.
  apply i32_small. lia.
Qed.

Section Units.
Context (factor : Z → Z).

(** A number with its unit, as [pretty_time_val] writes it. *)
Definition unit_ok (u : Z * Z) : Prop :=
  0 ≤ u.1 < 2 ^ 31 ∧ isalpha u.2 = true ∧ is_int (u.1 * factor u.2) = true.
Definition unit_text (u : Z * Z) : list Z := printf_d 0 u.1 ++ [u.2].
Definition unit_sum (us : list (Z * Z)) : Z := foldr (λ u acc, u.1 * factor u.2 + acc) 0 us.

Lemma unit_number v : 0 ≤ v < 2 ^ 31 →
  ∃ w, printf_d 0 v = digits_n w v ∧ (0 < w)%nat ∧ 0 ≤ v < 10 ^ Z.of_nat w.
Proof.
  intros Hv. exists (ndigits 20 v). unfold printf_d. destruct (Z.ltb_spec v 0); [lia|].
  pose proof (ndigits_enough 20 v ltac:(simpl; lia)). split_and!; [done| |lia..].
  change (ndigits 20 v) with (if v <? 10 then 1%nat else S (ndigits 19 (v / 10))). destruct (v <? 10); lia.
Qed.

Lemma skip_digits pre ds rest ret fuel :
  Natcmp.digits ds → (length ds ≤ fuel)%nat →
  loop (unit_body factor) fuel (pre ++ ds ++ rest, Z.of_nat (length pre), ret) =
  loop (unit_body factor) (fuel - length ds) (pre ++ ds ++ rest, Z.of_nat (length pre + length ds), ret).
Proof.
  intros Hd. revert pre fuel. induction Hd as [|c ds Hc Hd IH]; intros pre fuel Hf.
  - simpl. by rewrite Nat.sub_0_r, Nat.add_0_r.
  - destruct fuel as [|fuel]; simpl in Hf; [lia|]. cbn [loop]. unfold unit_body at 1. cbn [app].
    rewrite get_app. simpl rbind. destruct (digit_facts c Hc) as (_ & _ & -> & ->).
    specialize (IH (pre ++ [c]) fuel ltac:(lia)). rewrite length_app, <-app_assoc in IH. cbn [length app] in IH.
    replace (Z.of_nat (length pre) + 1) with (Z.of_nat (length pre + 1)) by lia. rewrite IH. f_equal.
    do 2 f_equal. simpl. lia.
Qed.

Lemma str_at_digits pre ds rest : Natcmp.digits ds → str_at (pre ++ ds ++ 0 :: rest) (Z.of_nat (length pre)) = ds.
Proof.
  intros Hd. unfold str_at. rewrite Nat2Z.id, drop_app_length.
  rewrite take_while_app; [by rewrite app_nil_r|].
  eapply Forall_impl; [exact Hd|]. intros c Hc. simpl in Hc. by rewrite (proj2 (Z.eqb_neq c 0) ltac:(lia)).
Qed.

(** The letter of a unit. *)
Lemma letter_step pre v L ds c rest ret :
  stops pre → unit_ok (v, L) → Natcmp.digits ds → atoi ds = v → isalpha c = false →
  unit_body factor (pre ++ ds ++ L :: c :: rest, Z.of_nat (length pre + length ds), ret) =
  (if c =? 0 then Ok (Done (pre ++ ds ++ 0 :: c :: rest, Z.of_nat (length pre + length ds) + 2, ret + v * factor L))
   else Ok (Next (pre ++ ds ++ 0 :: c :: rest, Z.of_nat (length pre + length ds) + 2, ret + v * factor L))).
Proof.
  intros Hp (Hv & HL & Hi) Hd Ha Hc. simpl in HL, Hi. unfold unit_body.
  rewrite (app_assoc pre ds (L :: c :: rest)), <-length_app, get_app. simpl rbind.
  assert ((L =? 0) = false) as -> by (apply Z.eqb_neq; intros ->; done). rewrite HL.
  rewrite Nat2Z.id, drop_app_length. cbn [take_while]. rewrite HL, Hc. simpl length. rewrite put0_app, <-app_assoc.
  unfold scan_back. rewrite length_app. rewrite scan_back_digits by (try done; lia).
  simpl rbind. unfold add_value. replace (Z.of_nat (length pre) - 1 + 1) with (Z.of_nat (length pre)) by lia.
  rewrite str_at_digits, Ha by done. rewrite Hi. simpl rbind.
  replace (pre ++ ds ++ 0 :: c :: rest) with ((pre ++ ds ++ [0]) ++ c :: rest) by (by rewrite <-!app_assoc).
  replace (Z.of_nat (length pre + length ds) + Z.of_nat 1) with (Z.of_nat (length (pre ++ ds ++ [0])))
    by (rewrite !length_app; simpl; lia).
  rewrite get_app. simpl rbind. rewrite !length_app. simpl length.
  by replace (Z.of_nat (length pre + (length ds + 1)) + 1) with (Z.of_nat (length pre + length ds) + 2) by lia.
Qed.

Lemma unit_first u : unit_ok u → ∃ c r, unit_text u = c :: r ∧ 48 ≤ c ≤ 57.
Proof.
  intros (Hv & _). destruct (unit_number u.1 Hv) as (w & E & Hw & _). unfold unit_text. rewrite E.
  pose proof (digits_n_digits w u.1) as Hd. pose proof (digits_n_length w u.1) as Hl.
  destruct Hd as [|c r Hc _]; [simpl in Hl; lia|]. by exists c, (r ++ [u.2]).
Qed.

(** The loop over the units, from a place before or behind the first digit. *)
Lemma units_loop us pre k ret fuel :
  Forall unit_ok us → us ≠ [] → stops pre → (k ≤ 1)%nat → (length (flat_map unit_text us) < fuel)%nat →
  ∃ p, loop (unit_body factor) fuel (pre ++ flat_map unit_text us ++ [0], Z.of_nat (length pre + k), ret) =
       Ok (p ++ [0; 0], Z.of_nat (length p) + 2, ret + unit_sum us).
Proof.
  intros Hus. revert pre k ret fuel. induction Hus as [|[v L] us Hu Hus IH]; intros pre k ret fuel Hne Hp Hk Hf; [done|].
  pose proof Hu as (Hv & HL & Hi). destruct (unit_number v Hv) as (w & E & Hw & Hv2).
  pose proof (digits_n_digits w v) as Hd. pose proof (digits_n_length w v) as Hl.
  pose proof (atoi_digits w v Hw Hv2 ltac:(simpl in Hv; lia)) as Ha.
  assert (unit_text (v, L) = digits_n w v ++ [L]) as Eu by (unfold unit_text; simpl; by rewrite E).
  cbn [flat_map] in Hf |- *. rewrite Eu in Hf |- *. clear E Eu.
  rewrite !length_app in Hf. simpl length in Hf.
  set (ds := digits_n w v) in *. clearbody ds.
  assert (∃ c rest, flat_map unit_text us ++ [0] = c :: rest ∧ isalpha c = false ∧
            (if c =? 0 then us = [] ∧ c = 0 ∧ rest = [] else us ≠ [])) as (c & rest & Ec & Hc & Hcase).
  { destruct Hus as [|u us Hu2 Hus]; [by exists 0, []|]. destruct (unit_first u Hu2) as (c & r & E2 & Hc).
    destruct (digit_facts c Hc) as (_ & _ & Hal & H0). exists c, ((r ++ flat_map unit_text us) ++ [0]). simpl.
    by rewrite E2, H0. }
  replace ((((ds ++ [L]) ++ flat_map unit_text us) ++ [0])) with (ds ++ L :: c :: rest)
    by (rewrite <-Ec, <-!app_assoc; done).
  assert (loop (unit_body factor) fuel (pre ++ ds ++ L :: c :: rest, Z.of_nat (length pre + k), ret) =
    loop (unit_body factor) (fuel - (length ds - k)) (pre ++ ds ++ L :: c :: rest, Z.of_nat (length pre + length ds), ret)) as ->.
  { pose proof (skip_digits (pre ++ take k ds) (drop k ds) (L :: c :: rest) ret fuel ltac:(by apply Forall_drop)
      ltac:(rewrite length_drop; lia)) as H. rewrite <-app_assoc, (app_assoc (take k ds)), take_drop in H.
    rewrite !length_app, length_take, length_drop in H. rewrite (Nat.min_l k) in H by lia. rewrite H.
    do 3 f_equal. lia. }
  destruct (fuel - (length ds - k))%nat as [|fuel'] eqn:Ef; [lia|]. cbn [loop].
  rewrite (letter_step pre v L ds c rest ret Hp Hu Hd Ha Hc).
  destruct (c =? 0) eqn:E0.
  - destruct Hcase as (-> & -> & ->). exists (pre ++ ds). unfold unit_sum. simpl. rewrite length_app, <-app_assoc.
    replace (v * factor L + 0) with (v * factor L) by lia. done.
  - destruct (IH (pre ++ ds ++ [0]) 1%nat (ret + v * factor L) fuel' Hcase) as (p & Hp2); [right; exists (pre ++ ds); by rewrite app_assoc|lia|lia|].
    exists p. rewrite Ec, !length_app, <-!app_assoc in Hp2. cbn [app length] in Hp2.
    replace (Z.of_nat (length pre + length ds) + 2) with (Z.of_nat (length pre + (length ds + 1) + 1)) by lia.
    rewrite Hp2. unfold unit_sum. simpl. do 2 f_equal. lia.
Qed.

Lemma checkval_units_correct us :
  Forall unit_ok us → us ≠ [] → checkval_units factor (flat_map unit_text us) = Ok (unit_sum us).
Proof.
  intros Hus Hne. unfold checkval_units.
  destruct (units_loop us [] 0 0 (length (flat_map unit_text us) + 1) Hus Hne) as (p & E); [by left|lia..|].
  cbn [app length Nat.add] in E. change (Z.of_nat 0) with 0 in E. rewrite E. simpl rbind. unfold scan_back. replace (Z.of_nat (length p) + 2 - 1) with (Z.of_nat (length (p ++ [0])))
    by (rewrite length_app; simpl; lia).
  rewrite Nat.add_1_r. cbn [loop]. unfold back_body at 1.
  replace (0 <? Z.of_nat (length (p ++ [0]))) with true by (symmetry; apply Z.ltb_lt; rewrite length_app; simpl; lia).
  replace (Z.of_nat (length (p ++ [0])) - 1) with (Z.of_nat (length p)) by (rewrite length_app; simpl; lia).
  cbn [negb]. change (p ++ [0; 0]) with (p ++ 0 :: [0]). rewrite get_app. simpl rbind. unfold add_value.
  replace (p ++ [0; 0]) with ((p ++ [0]) ++ [] ++ [0]) by (by rewrite <-app_assoc).
  replace (Z.of_nat (length p) + 1) with (Z.of_nat (length (p ++ [0]))) by (rewrite length_app; simpl; lia).
  rewrite str_at_digits by constructor. simpl. by rewrite Z.add_0_r.
Qed.
End Units.

(** The units that are not zero. *)
Definition nonzero (us : list (Z * Z)) : list (Z * Z) := filter (λ u, u.1 ≠ 0) us.

Lemma unit_sum_nonzero factor us : unit_sum factor (nonzero us) = unit_sum factor us.
Proof.
  induction us as [|[v L] us IH]; [done|]. unfold nonzero in *. rewrite filter_cons. case_decide as H; simpl in *.
  - by rewrite IH.
  - assert (v = 0) as -> by lia. rewrite IH. lia.
Qed.

Lemma ndigits_bound fuel n : (ndigits fuel n ≤ S fuel)%nat.
Proof. revert n. induction fuel as [|fuel IH]; intros n; simpl; [lia|]. destruct (n <? 10); [lia|]. specialize (IH (n / 10)). lia. Qed.

Lemma append_units buflen buf v letter :
  0 ≤ v → (length buf + 23 < buflen)%nat →
  append_unit buflen buf v letter = buf ++ flat_map unit_text (nonzero [(v, letter)]) ∧
  (length (append_unit buflen buf v letter) ≤ length buf + 22)%nat.
Proof.
  intros Hv Hl. assert (length (printf_d 0 v ++ [letter]) ≤ 22)%nat as Hp.
  { unfold printf_d. destruct (Z.ltb_spec v 0); [lia|]. rewrite length_app, digits_n_length.
    pose proof (ndigits_bound 20 v). cbn [length]. lia. }
  unfold append_unit, nonzero. rewrite filter_cons. case_decide as H; cbn [fst] in H.
  - rewrite (proj2 (Z.eqb_neq v 0) H), take_ge by lia. rewrite filter_nil. cbn [flat_map]. rewrite app_nil_r.
    split; [done|]. rewrite length_app. lia.
  - assert (v = 0) as -> by lia. rewrite Z.eqb_refl, filter_nil. cbn [flat_map]. rewrite app_nil_r. split; [done|lia].
Qed.

Definition time_units (t : Z) : list (Z * Z) :=
  [(t / 86400, 100); (t / 3600 mod 24, 104); (t / 60 mod 60, 109); (t mod 60, 115)].

Lemma pretty_time_text t : 0 < t → pretty_time_val t = flat_map unit_text (nonzero (time_units t)).
Proof.
  intros Ht. unfold pretty_time_val, pretty_time_val_r. rewrite (proj2 (Z.eqb_neq t 0) ltac:(lia)).
  assert (∀ a, 0 < a → 0 ≤ t / a) as Hd by (intros; apply Z.div_pos; lia).
  rewrite !Z.quot_div_nonneg, !Z.rem_mod_nonneg by (try apply Hd; lia).
  assert (∀ a b, 0 < b → 0 ≤ a mod b) as Hm by (intros a b Hb; by apply Z.mod_pos_bound).
  destruct (append_units 512 [] (t / 86400) 100) as [-> H1]; [by apply Hd|simpl; lia|].
  set (b1 := [] ++ _) in *. assert (length b1 ≤ 22)%nat by (simpl in H1; lia).
  destruct (append_units 512 b1 (t / 3600 mod 24) 104) as [-> H2]; [by apply Hm|lia|].
  set (b2 := b1 ++ _) in *. destruct (append_units 512 b2 (t / 60 mod 60) 109) as [-> H3]; [by apply Hm|lia|].
  set (b3 := b2 ++ _) in *. destruct (append_units 512 b3 (t mod 60) 115) as [-> H4]; [by apply Hm|lia|].
  unfold b3, b2, b1, time_units, nonzero. cbn [app].
  by rewrite <-!flat_map_app, <-!filter_app.
Qed.

Lemma time_units_sum t : 0 ≤ t → unit_sum time_factor (time_units t) = t.
Proof.
  intros Ht. unfold unit_sum, time_units. cbn [foldr fst snd].
  change (time_factor 100) with 86400. change (time_factor 104) with 3600.
  change (time_factor 109) with 60. change (time_factor 115) with 1. Z.to_euclidean_division_equations. lia.
Qed.

Lemma time_units_ok t : 0 < t < 2 ^ 31 → Forall (unit_ok time_factor) (time_units t).
Proof.
  intros Ht. assert (∀ v L, isalpha L = true → 0 ≤ v * time_factor L ≤ t → 0 ≤ v ≤ t → unit_ok time_factor (v, L)) as H.
  { intros v L HL Hi Hv. split_and!; simpl; [lia..|done|]. unfold is_int. apply andb_true_iff. rewrite Z.leb_le, Z.ltb_lt. lia. }
  repeat constructor; apply H; try done;
    try (change (time_factor 100) with 86400); try (change (time_factor 104) with 3600);
    try (change (time_factor 109) with 60); try (change (time_factor 115) with 1);
    clear H; Z.to_euclidean_division_equations; lia.
Qed.

(** Times of the configuration.  A number of units, each with its letter, is
    read as the sum of the units, for times and for sizes, if every product fits an
    [int]; so the text that is shown for a duration is read back as the duration. *)
Theorem config_times_correct :
  (∀ factor us, Forall (unit_ok factor) us → us ≠ [] →
     checkval_units factor (flat_map unit_text us) = Ok (unit_sum factor us)) ∧
  (∀ t, 0 ≤ t < 2 ^ 31 → config_checkval (Some (pretty_time_val t)) CFG_TIME = Ok t).
Proof.
  split; [apply checkval_units_correct|]. intros t Ht.
  destruct (decide (t = 0)) as [->|]; [done|]. rewrite pretty_time_text by lia.
  assert (Forall (unit_ok time_factor) (nonzero (time_units t))) as Hok.
  { apply Forall_forall. intros u [_ Hin]%list_elem_of_filter.
    pose proof (time_units_ok t ltac:(lia)) as Hok. rewrite Forall_forall in Hok. auto. }
  pose proof (unit_sum_nonzero time_factor (time_units t)) as Hs. rewrite time_units_sum in Hs by lia.
  set (us := nonzero (time_units t)) in *. clearbody us.
  destruct Hok as [|u us Hu Hok]; [unfold unit_sum in Hs; simpl in Hs; lia|].
  pose proof (checkval_units_correct time_factor (u :: us) ltac:(by constructor) ltac:(done)) as E. rewrite Hs in E.
  destruct (unit_first time_factor u Hu) as (c & r & Eu & _). cbn [flat_map] in E |- *. by rewrite Eu in E |- *.
Qed.

Lemma config_times_witness :
  pretty_time_val 93784 = bs "1d2h3m4s" ∧ config_checkval (Some (pretty_time_val 93784)) CFG_TIME = Ok 93784 ∧
  checkval_units size_factor (flat_map unit_text [(2, 77); (3, 75)]) = Ok (2 * 1048576 + 3 * 1024).
Proof.
  split; [vm_compute; reflexivity|]. split.
  - apply (proj2 config_times_correct). lia.
  - apply (proj1 config_times_correct size_factor [(2, 77); (3, 75)]); [repeat constructor; (done || simpl; lia)|done].
Defined.

(** The products are computed with [int]: two gigabytes, or 68 years, overflow. *)
Lemma checkval_overflow :
  config_checkval (Some (bs "2g")) CFG_SIZE = UB ∧ config_checkval (Some (bs "25000d")) CFG_TIME = UB.
Proof. split; vm_compute; reflexivity. Qed.

(** A number with a space in front of its unit counts as nothing. *)
Lemma checkval_space : config_checkval (Some (bs "5 d")) CFG_TIME = Ok 0.
Proof. vm_compute. reflexivity. Qed.
