(* ===== verification/Unrealdb.v ===== *)
(** * Database files (src/unrealdb.c)

    Records of integers and strings in a file that may be encrypted: opening with
    its headers, buffered writing in blocks of 4096 bytes, reading, closing, and
    the cache of keys.  A file is the list of its bytes, with the place up to which
    it was read and how many bytes the disk has room for.

    libsodium's secretstream and argon2 are the class [Crypto], and what their
    documentation promises is [CryptoLaws]: argon2 gives a key when its costs, the
    password and the salt are within its limits, and [chance] says whether it gets
    the memory for it.  Records that were written are read
    back, from plain and from encrypted files; reading any bytes is safe. *)

From stdpp Require Import base tactics list numbers strings gmap.
From Stdlib Require Import ZArith Lia.
From S2P Require Import Prelude Chars Times.

Local Open Scope Z_scope.

Definition UNREALDB_CRYPT_FILE_CHUNK_SIZE : nat := Z.to_nat 4096.
Definition UNREALDB_SALT_LEN : nat := 16.
(** Of libsodium: the key, the header, and what a message grows by. *)
Definition KEYBYTES : nat := 32.
Definition HEADERBYTES : nat := 24.
Definition ABYTES : nat := 17.
Definition IN_SIZE : nat := Z.to_nat 4113.

(** The state of a stream is shared by both ends; the flag of [push] is the final
    tag.  [init_push] also takes the random bytes it uses. *)
Class Crypto := {
  cstate : Type;
  init_push : list Z → list Z → cstate * list Z;
  push : cstate → list Z → bool → option (cstate * list Z);
  init_pull : list Z → list Z → option cstate;
  pull : cstate → list Z → option (list Z * cstate);
  argon2id_hash_raw : Z → Z → Z → list Z → list Z → Z → option (list Z)
}.

Class CryptoLaws (C : Crypto) := {
  push_ok : ∀ st m f, (length m ≤ UNREALDB_CRYPT_FILE_CHUNK_SIZE)%nat →
    ∃ st' c, push st m f = Some (st', c) ∧ length c = (length m + ABYTES)%nat ∧ pull st c = Some (m, st');
  init_ok : ∀ key rnd st h, length key = KEYBYTES → init_push key rnd = (st, h) →
    length h = HEADERBYTES ∧ init_pull h key = Some st;
  pull_length : ∀ st c m st', pull st c = Some (m, st') → length c = (length m + ABYTES)%nat;
  argon2_length : ∀ t m p pw salt n key, argon2id_hash_raw t m p pw salt n = Some key → length key = Z.to_nat n;
  argon2_ok : ∀ t m p pw salt,
    1 ≤ t < 2 ^ 32 → 1 ≤ p < 2 ^ 24 → 8 * p ≤ m ≤ 2 ^ 21 → Z.of_nat (length pw) < 2 ^ 32 →
    (8 ≤ length salt ≤ 1024)%nat → is_Some (argon2id_hash_raw t m p pw salt (Z.of_nat KEYBYTES))
}.

(** ** Files *)

Record FILE := File { f_data : list Z; f_pos : nat; f_eof : bool; f_room : nat }.

Definition fwrite (b : list Z) (f : FILE) : FILE * nat :=
  let n := Nat.min (length b) (f_room f) in
  (File (f_data f ++ take n b) (f_pos f) (f_eof f) (f_room f - n), n).
Definition fread (n : nat) (f : FILE) : FILE * list Z :=
  let r := take n (drop (f_pos f) (f_data f)) in
  (File (f_data f) (f_pos f + length r) (f_eof f || (length r <? n)%nat) (f_room f), r).
(** A line, with its end, of fewer than [size] bytes. *)
Definition fgets (size : nat) (f : FILE) : FILE * option (list Z) :=
  let s := drop (f_pos f) (f_data f) in
  let line := take_while (λ c, negb (c =? LF)) s in
  let r := take (size - 1) (if (length line <? length s)%nat then line ++ [LF] else line) in
  let eof := (length r <? size - 1)%nat && (length r =? length s)%nat && negb (bool_decide (last r = Some LF)) in
  (File (f_data f) (f_pos f + length r) (f_eof f || eof) (f_room f), if bool_decide (r = []) then None else Some r).
Definition fseek (pos : nat) (f : FILE) : FILE := File (f_data f) pos false (f_room f).
Definition feof (f : FILE) : bool := f_eof f.

(** ** The state *)

Inductive UnrealDBMode := UNREALDB_MODE_READ | UNREALDB_MODE_WRITE.
Inductive UnrealDBError :=
| UNREALDB_ERROR_SUCCESS | UNREALDB_ERROR_FILENOTFOUND | UNREALDB_ERROR_CRYPTED | UNREALDB_ERROR_NOTCRYPTED
| UNREALDB_ERROR_HEADER | UNREALDB_ERROR_SECRET | UNREALDB_ERROR_PASSWORD | UNREALDB_ERROR_IO | UNREALDB_ERROR_API
| UNREALDB_ERROR_INTERNAL.
#[global] Instance UnrealDBError_eq_dec : EqDecision UnrealDBError.
Proof. solve_decision. Defined.
#[global] Instance UnrealDBMode_eq_dec : EqDecision UnrealDBMode.
Proof. solve_decision. Defined.

Definition UNREALDB_KDF_ARGON2ID : Z := 1.
Definition UNREALDB_CIPHER_XCHACHA20 : Z := 1.

Record UnrealDBConfig := Config {
  kdf : Z; t_cost : Z; m_cost : Z; p_cost : Z; saltlen : Z; salt : list Z; cipher : Z; keylen : Z; key : list Z
}.
#[global] Instance UnrealDBConfig_eq_dec : EqDecision UnrealDBConfig.
Proof. solve_decision. Defined.

Record SecretCache := Cached { sc_config : UnrealDBConfig; cache_hit : Z }.
Record Secret := MkSecret { s_name : list Z; s_password : list Z; s_cache : list SecretCache }.

Section Db.
Context `{C : Crypto}.

Record UnrealDB := DB {
  fd : FILE;
  mode : UnrealDBMode;
  crypted : bool;
  creationtime : Z;
  st : option cstate;
  buf : list Z;
  error_code : UnrealDBError;
  config : option UnrealDBConfig
}.

Definition set_fd f c := DB f (mode c) (crypted c) (creationtime c) (st c) (buf c) (error_code c) (config c).
Definition set_time t c := DB (fd c) (mode c) (crypted c) t (st c) (buf c) (error_code c) (config c).
Definition set_st s c := DB (fd c) (mode c) (crypted c) (creationtime c) (Some s) (buf c) (error_code c) (config c).
Definition set_buf b c := DB (fd c) (mode c) (crypted c) (creationtime c) (st c) b (error_code c) (config c).
Definition set_config g c := DB (fd c) (mode c) (crypted c) (creationtime c) (st c) (buf c) (error_code c) (Some g).
Definition unrealdb_set_error e c :=
  DB (fd c) (mode c) (crypted c) (creationtime c) (st c) (buf c) e (config c).

(** ** Writing *)

Definition CHUNK : nat := UNREALDB_CRYPT_FILE_CHUNK_SIZE.

Definition write_body (s : UnrealDB * list Z) : res (step (UnrealDB * list Z) (UnrealDB * bool)) :=
  let '(c, b) := s in
  if (length (buf c) + length b <? CHUNK)%nat then Ok (Done (set_buf (buf c ++ b) c, true))
  else
    let av_bytes := (CHUNK - length (buf c))%nat in
    let full := buf c ++ take av_bytes b in
    let b := drop av_bytes b in
    match st c with
    | None => UB
    | Some s =>
        match push s full false with
        | None => Ok (Done (unrealdb_set_error UNREALDB_ERROR_INTERNAL c, false))
        | Some (s, out) =>
            let '(f, n) := fwrite out (fd c) in
            let c := set_fd f (set_st s c) in
            if negb (n =? length out)%nat then Ok (Done (unrealdb_set_error UNREALDB_ERROR_IO c, false))
            else
              let c := set_buf [] c in
              if (0 <? length b)%nat then Ok (Next (c, b)) else Ok (Done (c, true))
        end
    end.

Definition unrealdb_write (c : UnrealDB) (wbuf : list Z) : res (UnrealDB * bool) :=
  if negb (bool_decide (error_code c = UNREALDB_ERROR_SUCCESS)) then Ok (c, false)
  else if negb (bool_decide (mode c = UNREALDB_MODE_WRITE)) then Ok (unrealdb_set_error UNREALDB_ERROR_API c, false)
  else if negb (crypted c) then
    let '(f, n) := fwrite wbuf (fd c) in
    let c := set_fd f c in
    if negb (n =? length wbuf)%nat then Ok (unrealdb_set_error UNREALDB_ERROR_IO c, false) else Ok (c, true)
  else loop write_body (length wbuf + 1) (c, wbuf).

(** The bytes of an integer, the low one first. *)
Fixpoint le_bytes (n : nat) (v : Z) : list Z :=
  match n with O => [] | S n => v mod 256 :: le_bytes n (v / 256) end.
Fixpoint le_value (b : list Z) : Z := match b with [] => 0 | c :: r => c + 256 * le_value r end.

Definition unrealdb_write_int64 (c : UnrealDB) (t : Z) : res (UnrealDB * bool) := unrealdb_write c (le_bytes 8 t).
Definition unrealdb_write_int32 (c : UnrealDB) (t : Z) : res (UnrealDB * bool) := unrealdb_write c (le_bytes 4 t).
Definition unrealdb_write_int16 (c : UnrealDB) (t : Z) : res (UnrealDB * bool) := unrealdb_write c (le_bytes 2 t).
Definition unrealdb_write_char (c : UnrealDB) (t : Z) : res (UnrealDB * bool) := unrealdb_write c [t].

Definition unrealdb_write_str (c : UnrealDB) (x : option (list Z)) : res (UnrealDB * bool) :=
  match x with
  | Some x =>
      if 65535 <=? Z.of_nat (length x) then Ok (unrealdb_set_error UNREALDB_ERROR_API c, false)
      else
        let! (c, ok) := unrealdb_write_int16 c (Z.of_nat (length x)) in
        if negb ok then Ok (c, false)
        else if (0 <? length x)%nat then unrealdb_write c x else Ok (c, true)
  | None => unrealdb_write_int16 c 65535
  end.

(** ** Reading *)

Definition read_body (s : UnrealDB * nat * list Z)
  : res (step (UnrealDB * nat * list Z) (UnrealDB * option (list Z))) :=
  let '(c, len, out) := s in
  let '(f, inp) := fread IN_SIZE (fd c) in
  let c := set_fd f c in
  if bool_decide (inp = []) then Ok (Done (unrealdb_set_error UNREALDB_ERROR_IO c, None))
  else match st c with
       | None => UB
       | Some s =>
           match pull s inp with
           | None => Ok (Done (unrealdb_set_error UNREALDB_ERROR_IO c, None))
           | Some (m, s) =>
               let c := set_st s c in
               if (CHUNK <? length m)%nat then UB
               else if (length m <? len)%nat then
                 if feof f then Ok (Done (unrealdb_set_error UNREALDB_ERROR_IO c, None))
                 else Ok (Next (c, (len - length m)%nat, out ++ m))
               else Ok (Done (set_buf (drop len m) c, Some (out ++ take len m)))
           end
       end.

Definition unrealdb_read (c : UnrealDB) (len : nat) : res (UnrealDB * option (list Z)) :=
  if negb (bool_decide (error_code c = UNREALDB_ERROR_SUCCESS)) then Ok (c, None)
  else if negb (bool_decide (mode c = UNREALDB_MODE_READ)) then Ok (unrealdb_set_error UNREALDB_ERROR_API c, None)
  else if negb (crypted c) then
    let '(f, r) := fread len (fd c) in
    let c := set_fd f c in
    if (length r <? len)%nat then Ok (unrealdb_set_error UNREALDB_ERROR_IO c, None) else Ok (c, Some r)
  else
    let av_bytes := Nat.min (length (buf c)) len in
    let out := take av_bytes (buf c) in
    let c' := set_buf (drop av_bytes (buf c)) c in
    if (0 <? length (buf c))%nat && (len - av_bytes =? 0)%nat then Ok (c', Some out)
    else
      let! _ := require (bool_decide (buf c' = [])) in
      loop read_body (length (f_data (fd c)) + 1) (c', (len - av_bytes)%nat, out).

Definition read_int (n : nat) (c : UnrealDB) : res (UnrealDB * option Z) :=
  let! (c, r) := unrealdb_read c n in Ok (c, le_value <$> r).
Definition unrealdb_read_int64 : UnrealDB → res (UnrealDB * option Z) := read_int 8.
Definition unrealdb_read_int32 : UnrealDB → res (UnrealDB * option Z) := read_int 4.
Definition unrealdb_read_int16 : UnrealDB → res (UnrealDB * option Z) := read_int 2.
Definition unrealdb_read_char : UnrealDB → res (UnrealDB * option Z) := read_int 1.

(** NULL is a string of its own. *)
Definition unrealdb_read_str (c : UnrealDB) : res (UnrealDB * option (option (list Z))) :=
  let! (c, len) := unrealdb_read_int16 c in
  match len with
  | None => Ok (c, None)
  | Some len =>
      if len =? 65535 then Ok (c, Some None)
      else if len =? 0 then Ok (c, Some (Some []))
      else if 10000 <? len then Ok (c, None)
      else
        let! (c, r) := unrealdb_read c (Z.to_nat len) in
        match r with
        | None => Ok (c, None)
        | Some r => Ok (c, Some (Some (take_while (λ c, negb (c =? 0)) r)))
        end
  end.

(** ** Keys *)

(** [1 << m_cost] is an [int]; [no_memory]: argon2 does not get its memory. *)
Definition unrealdb_kdf (no_memory : bool) (g : UnrealDBConfig) (password : list Z) : res (UnrealDBConfig + UnrealDBError) :=
  if negb (kdf g =? UNREALDB_KDF_ARGON2ID) then Ok (inr UNREALDB_ERROR_INTERNAL)
  else
    let! _ := require (m_cost g <? 31) in
    match (if no_memory then None
           else argon2id_hash_raw (t_cost g) (Z.shiftl 1 (m_cost g)) (p_cost g) password (salt g) (keylen g)) with
    | None => Ok (inr UNREALDB_ERROR_INTERNAL)
    | Some k => Ok (inl (Config (kdf g) (t_cost g) (m_cost g) (p_cost g) (saltlen g) (salt g) (cipher g) (keylen g) k))
    end.

Definition unrealdb_config_identical (one two : UnrealDBConfig) : bool :=
  (kdf one =? kdf two) && (t_cost one =? t_cost two) && (m_cost one =? m_cost two) && (p_cost one =? p_cost two) &&
  (saltlen one =? saltlen two) && bool_decide (salt one = salt two) && (cipher one =? cipher two) &&
  (keylen one =? keylen two).

(** The entry, and the cache with the time of the hit. *)
Fixpoint find_secret_cache (now : Z) (cfg : UnrealDBConfig) (l : list SecretCache)
  : option UnrealDBConfig * list SecretCache :=
  match l with
  | [] => (None, [])
  | c :: r =>
      if unrealdb_config_identical (sc_config c) cfg then (Some (sc_config c), Cached (sc_config c) now :: r)
      else let '(o, r) := find_secret_cache now cfg r in (o, c :: r)
  end.

Definition unrealdb_add_to_secret_cache (now : Z) (cfg : UnrealDBConfig) (l : list SecretCache) : list SecretCache :=
  match find_secret_cache now cfg l with
  | (Some _, l) => l
  | (None, l) => Cached cfg now :: l
  end.

Definition UNREALDB_EXPIRE_SECRET_CACHE_AFTER : Z := 86400.
Definition unrealdb_expire_secret_cache (now : Z) (secrets : list Secret) : list Secret :=
  map (λ s, MkSecret (s_name s) (s_password s)
              (filter (λ c, negb (cache_hit c <? now - UNREALDB_EXPIRE_SECRET_CACHE_AFTER)) (s_cache s))) secrets.

(** The strength of a password: [islower] first, then [isupper], then [isdigit]. *)
Definition check_password_strength (pass : list Z) (min_length : Z) (strict : bool) : bool :=
  if Z.of_nat (length pass) <? min_length then false
  else
    let has_lowercase := existsb islower pass in
    let has_uppercase := existsb (λ c, negb (islower c) && isupper c) pass in
    let has_digit := existsb (λ c, negb (islower c) && negb (isupper c) && isdigit c) pass in
    if strict then has_lowercase && has_uppercase && has_digit else true.
Definition valid_secret_password (pass : list Z) : bool := check_password_strength pass 10 true.

(** ** Opening and closing *)

Record world := World { files : gmap (list Z) (list Z); secrets : list Secret; TStime : Z; disk : nat }.

(** What a call of the library draws at random, whether [fopen] is refused, and whether
    the memory for argon2 is missing. *)
Record chance := Chance { random_salt : list Z; random_header : list Z; denied : bool; no_memory : bool }.

Definition set_files fs w := World fs (secrets w) (TStime w) (disk w).
Definition set_cache (i : nat) (l : list SecretCache) (w : world) : world :=
  World (files w) (alter (λ s, MkSecret (s_name s) (s_password s) l) i (secrets w)) (TStime w) (disk w).

Fixpoint find_secret (i : nat) (l : list Secret) (name : list Z) : option (nat * Secret) :=
  match l with
  | [] => None
  | s :: r => if strcasecmp (s_name s) name =? 0 then Some (i, s) else find_secret (S i) r name
  end.

(** Closing a file that was written leaves its bytes on the disk. *)
Definition fclose (filename : list Z) (c : UnrealDB) (w : world) : world :=
  match mode c with
  | UNREALDB_MODE_WRITE => set_files (<[filename := f_data (fd c)]> (files w)) w
  | UNREALDB_MODE_READ => w
  end.

(** [unrealdb_open_fail]. *)
Definition open_fail (filename : list Z) (c : UnrealDB) (e : UnrealDBError) (w : world)
  : res (world * (UnrealDB + UnrealDBError)) := Ok (fclose filename c w, inr e).

Definition pad32 (s : list Z) : list Z := s ++ replicate (32 - length s) 0.
Definition HEADER_PLAIN : list Z := bs "UnrealIRCd-DB-v1".
Definition HEADER_ANY : list Z := bs "UnrealIRCd-DB".
Definition HEADER_CRYPTED : list Z := bs "UnrealIRCd-DB-Crypted".
Definition HEADER_CRYPTED_V1 : list Z := bs "UnrealIRCd-DB-Crypted-v1".
Definition VALIDATE : list Z := bs "UnrealIRCd-DB-Crypted-Now".

Definition c_string (b : list Z) : list Z := take_while (λ c, negb (c =? 0)) b.
Definition str_starts_with_case_sensitive (haystack needle : list Z) : bool :=
  bool_decide (take (length needle) haystack = needle).

Definition open_plain_read (filename : list Z) (c : UnrealDB) (w : world) : res (world * (UnrealDB + UnrealDBError)) :=
  match fgets 32 (fd c) with
  | (f, None) => Ok (w, inl (set_fd f c))
  | (f, Some b) =>
      let b := c_string b in
      if str_starts_with_case_sensitive b HEADER_CRYPTED then open_fail filename c UNREALDB_ERROR_CRYPTED w
      else if bool_decide (b = HEADER_PLAIN) then
        let! (c, t) := unrealdb_read_int64 (set_fd (fseek 32 f) c) in
        match t with
        | None => open_fail filename c UNREALDB_ERROR_HEADER w
        | Some t => Ok (w, inl (set_time t c))
        end
      else if str_starts_with_case_sensitive b HEADER_ANY then open_fail filename c UNREALDB_ERROR_HEADER w
      else Ok (w, inl (set_fd (fseek 0 f) c))
  end.

Definition open_plain_write (filename : list Z) (c : UnrealDB) (w : world) : res (world * (UnrealDB + UnrealDBError)) :=
  let '(f, n) := fwrite (pad32 HEADER_PLAIN) (fd c) in
  let c := set_fd f c in
  if negb (n =? 32)%nat then open_fail filename c UNREALDB_ERROR_IO w
  else
    let! (c, ok) := unrealdb_write_int64 c (TStime w) in
    if ok then Ok (w, inl c) else open_fail filename c UNREALDB_ERROR_IO w.

Definition config_bytes (g : UnrealDBConfig) : list Z :=
  le_bytes 2 (kdf g) ++ le_bytes 2 (t_cost g) ++ le_bytes 2 (m_cost g) ++ le_bytes 2 (p_cost g) ++
  le_bytes 2 (saltlen g) ++ salt g ++ le_bytes 2 (cipher g) ++ le_bytes 2 (keylen g).

Definition new_config (random : list Z) : UnrealDBConfig :=
  Config UNREALDB_KDF_ARGON2ID 4 15 2 (Z.of_nat UNREALDB_SALT_LEN) random UNREALDB_CIPHER_XCHACHA20
         (Z.of_nat KEYBYTES) (replicate KEYBYTES 0).

(** The writes of the header, one after the other, stop at the first that fails. *)
Definition open_crypt_write (filename : list Z) (r : chance) (i : nat) (secr : Secret) (c : UnrealDB) (w : world)
  : res (world * (UnrealDB + UnrealDBError)) :=
  let '(f, n) := fwrite (pad32 HEADER_CRYPTED_V1) (fd c) in
  let c := set_fd f c in
  if negb (n =? 32)%nat then open_fail filename c UNREALDB_ERROR_IO w
  else
    let '(g, cached) := match s_cache secr with
                        | e :: _ => (sc_config e, true)
                        | [] => (new_config (random_salt r), false)
                        end in
    let! _ := require (negb (kdf g =? 0)) in
    let '(f, n) := fwrite (config_bytes g) (fd c) in
    let c := set_fd f c in
    if negb (n =? length (config_bytes g))%nat then open_fail filename c UNREALDB_ERROR_IO w
    else
      let! g := (if cached then Ok (inl g) else unrealdb_kdf (no_memory r) g (s_password secr)) in
      match g with
      | inr e => open_fail filename c e w
      | inl g =>
          let! _ := require (KEYBYTES <=? length (key g))%nat in
          let '(s, header) := init_push (take KEYBYTES (key g)) (random_header r) in
          let c := set_st s (set_config g c) in
          let '(f, n) := fwrite header (fd c) in
          let c := set_fd f c in
          if negb (n =? length header)%nat then open_fail filename c UNREALDB_ERROR_IO w
          else
            let! (c, ok) := unrealdb_write_str c (Some VALIDATE) in
            if negb ok then open_fail filename c (error_code c) w
            else
              let! (c, ok) := unrealdb_write_int64 c (TStime w) in
              if negb ok then open_fail filename c (error_code c) w
              else Ok (if cached then w
                       else set_cache i (unrealdb_add_to_secret_cache (TStime w) g (s_cache secr)) w, inl c)
      end.

(** The fields of the header up to the length of the salt, the salt, the rest. *)
Definition fread_int16s (k : nat) (f : FILE) : FILE * option (list Z) :=
  let '(f, b) := fread (2 * k) f in
  (f, if (length b <? 2 * k)%nat then None else Some (map (λ j, le_value (take 2 (drop (2 * j) b))) (seq 0 k))).

(** Reads the configuration of the file, without its key. *)
Definition read_config (f : FILE) : FILE * (UnrealDBConfig + UnrealDBError) :=
  match fread_int16s 5 f with
  | (f, Some [kdf; t_cost; m_cost; p_cost; saltlen]) =>
      if negb (kdf =? UNREALDB_KDF_ARGON2ID) then (f, inr UNREALDB_ERROR_HEADER)
      else if 1024 <? saltlen then (f, inr UNREALDB_ERROR_HEADER)
      else
        let '(f, salt) := fread (Z.to_nat saltlen) f in
        if negb (length salt =? Z.to_nat saltlen)%nat then (f, inr UNREALDB_ERROR_HEADER)
        else match fread_int16s 2 f with
             | (f, Some [cipher; keylen]) =>
                 if negb (cipher =? UNREALDB_CIPHER_XCHACHA20) then (f, inr UNREALDB_ERROR_HEADER)
                 else if 1024 <? keylen then (f, inr UNREALDB_ERROR_HEADER)
                 else (f, inl (Config kdf t_cost m_cost p_cost saltlen salt cipher keylen
                                      (replicate (Z.to_nat keylen) 0)))
             | (f, _) => (f, inr UNREALDB_ERROR_HEADER)
             end
  | (f, _) => (f, inr UNREALDB_ERROR_HEADER)
  end.

(** [crypto_secretstream_..._init_pull] reads a key of its own length. *)
Definition open_crypt_read (filename : list Z) (r : chance) (i : nat) (secr : Secret) (c : UnrealDB) (w : world)
  : res (world * (UnrealDB + UnrealDBError)) :=
  let '(f, b) := fread 32 (fd c) in
  let c := set_fd f c in
  if negb (length b =? 32)%nat then open_fail filename c UNREALDB_ERROR_NOTCRYPTED w
  else if negb (str_starts_with_case_sensitive b HEADER_CRYPTED_V1) then
    open_fail filename c UNREALDB_ERROR_NOTCRYPTED w
  else
    let '(f, g) := read_config (fd c) in
    let c := set_fd f c in
    match g with
    | inr e => open_fail filename c e w
    | inl g =>
        let '(cached, l) := find_secret_cache (TStime w) g (s_cache secr) in
        let w := set_cache i l w in
        let! g := match cached with
                  | Some g' => Ok (inl (Config (kdf g) (t_cost g) (m_cost g) (p_cost g) (saltlen g) (salt g) (cipher g)
                                               (keylen g) (take (Z.to_nat (keylen g)) (key g'))))
                  | None => unrealdb_kdf (no_memory r) g (s_password secr)
                  end in
        match g with
        | inr e => open_fail filename c e w
        | inl g =>
            let c := set_config g c in
            let '(f, header) := fread HEADERBYTES (fd c) in
            let c := set_fd f c in
            if negb (length header =? HEADERBYTES)%nat then open_fail filename c UNREALDB_ERROR_HEADER w
            else
              let! _ := require (KEYBYTES <=? length (key g))%nat in
              match init_pull header (take KEYBYTES (key g)) with
              | None => open_fail filename c UNREALDB_ERROR_PASSWORD w
              | Some s =>
                  let! (c, validate) := unrealdb_read_str (set_st s c) in
                  match validate with
                  | None => open_fail filename c UNREALDB_ERROR_PASSWORD w
                  | Some None => UB
                  | Some (Some v) =>
                      if negb (strcmp v VALIDATE =? 0) then open_fail filename c UNREALDB_ERROR_PASSWORD w
                      else
                        let! (c, t) := unrealdb_read_int64 c in
                        match t with
                        | None => open_fail filename c UNREALDB_ERROR_HEADER w
                        | Some t => Ok (set_cache i (unrealdb_add_to_secret_cache (TStime w) g l) w, inl (set_time t c))
                        end
                  end
              end
        end
    end.

(** [fopen] for writing empties the file. *)
Definition unrealdb_open (filename : list Z) (m : UnrealDBMode) (secret_block : option (list Z)) (r : chance) (w : world)
  : res (world * (UnrealDB + UnrealDBError)) :=
  let secr := match secret_block with
              | None => inl None
              | Some name =>
                  match find_secret 0 (secrets w) name with
                  | None => inr UNREALDB_ERROR_SECRET
                  | Some (i, s) => if valid_secret_password (s_password s) then inl (Some (i, s)) else inr UNREALDB_ERROR_SECRET
                  end
              end in
  match secr with
  | inr e => Ok (w, inr e)
  | inl secr =>
      let data := match m with UNREALDB_MODE_WRITE => Some [] | UNREALDB_MODE_READ => files w !! filename end in
      match data with
      | None => Ok (w, inr UNREALDB_ERROR_FILENOTFOUND)
      | Some data =>
          if denied r then Ok (w, inr UNREALDB_ERROR_IO)
          else
            let f := File data 0 false (disk w) in
            let c := DB f m (bool_decide (is_Some secr)) 0 None [] UNREALDB_ERROR_SUCCESS None in
            match secr, m with
            | None, UNREALDB_MODE_READ => open_plain_read filename c w
            | None, UNREALDB_MODE_WRITE => open_plain_write filename c w
            | Some (i, s), UNREALDB_MODE_READ => open_crypt_read filename r i s c w
            | Some (i, s), UNREALDB_MODE_WRITE => open_crypt_write filename r i s c w
            end
      end
  end.

(** [close_ok]: whether [fclose] succeeds.  The result of [push] is not looked at. *)
Definition unrealdb_close (filename : list Z) (close_ok : bool) (c : UnrealDB) (w : world) : res (world * bool) :=
  match crypted c, mode c with
  | true, UNREALDB_MODE_WRITE =>
      match st c with
      | None => UB
      | Some s =>
          match push s (buf c) true with
          | None => UB
          | Some (s, out) =>
              let '(f, n) := fwrite out (fd c) in
              let c := set_fd f c in
              Ok (fclose filename c w, (n =? length out)%nat && close_ok)
          end
      end
  | _, _ => Ok (fclose filename c w, close_ok)
  end.
End Db.

(** ** Streams

    What is written is a stream of bytes: in a plain file behind its header, in an
    encrypted one in sealed blocks. *)

Section Streams.
Context `{L : CryptoLaws}.

Inductive sealed : cstate → list (list Z) → cstate → list Z → Prop :=
| sealed_nil s : sealed s [] s []
| sealed_cons s m f s1 c ms s2 d :
    (length m ≤ CHUNK)%nat → push s m f = Some (s1, c) → sealed s1 ms s2 d → sealed s (m :: ms) s2 (c ++ d).

Lemma sealed_snoc s ms s1 d m f s2 c :
  sealed s ms s1 d → (length m ≤ CHUNK)%nat → push s1 m f = Some (s2, c) → sealed s (ms ++ [m]) s2 (d ++ c).
Proof.
  intros H Hm Hp. induction H as [s|s m' f' s1 c' ms s3 d Hl Hp' _ IH].
  - change ([] ++ c) with c. rewrite <-(app_nil_r c). eapply sealed_cons; [done..|constructor].
  - rewrite <-app_assoc. simpl. eapply sealed_cons; [done..|]. by apply IH.
Qed.

Lemma push_inv s m f s1 c :
  (length m ≤ CHUNK)%nat → push s m f = Some (s1, c) → length c = (length m + ABYTES)%nat ∧ pull s c = Some (m, s1).
Proof. intros Hm Hp. destruct (push_ok s m f Hm) as (s' & c' & E & H1 & H2). rewrite Hp in E. by simplify_eq. Qed.

Lemma IN_SIZE_val : IN_SIZE = (CHUNK + ABYTES)%nat.
Proof. by vm_compute. Qed.
Lemma CHUNK_pos : (ABYTES < CHUNK)%nat.
Proof. apply Nat.ltb_lt. vm_compute. reflexivity. Qed.

(** All blocks but the last are full. *)
Fixpoint blocks (ms : list (list Z)) : Prop :=
  match ms with
  | [] => False
  | [m] => (length m < CHUNK)%nat
  | m :: r => length m = CHUNK ∧ blocks r
  end.

Lemma blocks_snoc ms m : Forall (λ x, length x = CHUNK) ms → (length m < CHUNK)%nat → blocks (ms ++ [m]).
Proof.
  intros H Hm. induction H as [|x ms Hx _ IH]; [done|].
  destruct ms as [|y ms]; (split; [exact Hx|exact IH]).
Qed.

(** A database that has [P] to be written behind [hdr], in a file of at most [R] bytes. *)
Record writes (hdr : list Z) (s0 : option cstate) (R : nat) (c : UnrealDB) (P : list Z) : Prop := Writes {
  w_mode : mode c = UNREALDB_MODE_WRITE;
  w_error : error_code c = UNREALDB_ERROR_SUCCESS;
  w_room : (length (f_data (fd c)) + f_room (fd c) = R)%nat;
  w_used : (length (f_data (fd c)) + 2 * length (buf c) ≤ length hdr + 2 * length P)%nat;
  w_data : match s0 with
           | None => crypted c = false ∧ f_data (fd c) = hdr ++ P
           | Some s0 => crypted c = true ∧ (length (buf c) < CHUNK)%nat ∧
               ∃ ms s d, Forall (λ x, length x = CHUNK) ms ∧ sealed s0 ms s d ∧ st c = Some s ∧
                 f_data (fd c) = hdr ++ d ∧ P = concat ms ++ buf c
           end
}.

Lemma fwrite_all b f f' n :
  fwrite b f = (f', n) → (length b ≤ f_room f)%nat →
  n = length b ∧ f_data f' = f_data f ++ b ∧ (f_room f' = f_room f - length b)%nat.
Proof.
  unfold fwrite. intros [= <- <-] H. rewrite Nat.min_l by done. simpl. by rewrite take_ge by done.
Qed.

(** One round of the loop that fills and flushes the buffer. *)
Lemma write_flush hdr s0 R c P b :
  writes hdr (Some s0) R c P → (length hdr + 2 * (length P + length b) ≤ R)%nat →
  (CHUNK ≤ length (buf c) + length b)%nat →
  let av := (CHUNK - length (buf c))%nat in
  ∃ c', writes hdr (Some s0) R c' (P ++ take av b) ∧ buf c' = [] ∧
    write_body (c, b) = Ok (if (0 <? length (drop av b))%nat then Next (c', drop av b) else Done (c', true)).
Proof.
  intros [Hm He Hr Hu (Hc & Hb & ms & s & d & Hms & Hs & Hst & Hd & HP)] HR Hl av. unfold write_body.
  rewrite (proj2 (Nat.ltb_ge _ _) Hl). rewrite Hst. fold av. pose proof CHUNK_pos as Hpos.
  assert (length (buf c ++ take av b) = CHUNK) as Hfull.
  { rewrite length_app, length_take. unfold av. lia. }
  destruct (push_ok s (buf c ++ take av b) false) as (s' & out & Ep & Hlo & _); [by rewrite Hfull|]. rewrite Ep.
  destruct (fwrite out (fd c)) as [f n] eqn:Ef.
  destruct (fwrite_all _ _ _ _ Ef) as (-> & Hfd & Hfr).
  { rewrite Hlo, Hfull. unfold av in *. lia. }
  rewrite Nat.eqb_refl. cbn [negb].
  exists (set_buf [] (set_fd f (set_st s' c))). split; [|split; [done|by destruct (0 <? length (drop av b))%nat]].
  constructor; simpl; try done.
  - rewrite Hfd, length_app, Hfr, Hlo, Hfull. unfold av in *. lia.
  - rewrite Hfd, length_app, Hlo, Hfull, length_app, length_take. unfold av in *. lia.
  - split; [done|]. split; [lia|]. exists (ms ++ [buf c ++ take av b]), s', (d ++ out). split_and!; try done.
    + apply Forall_app. split; [done|]. by constructor.
    + eapply sealed_snoc; [done| |done]. unfold CHUNK in *. lia.
    + by rewrite Hfd, Hd, app_assoc.
    + by rewrite HP, concat_app, app_nil_r, <-app_assoc; simpl; rewrite app_nil_r.
Qed.

Lemma write_loop hdr s0 R fuel c P b :
  writes hdr (Some s0) R c P → (length hdr + 2 * (length P + length b) ≤ R)%nat → (length b < fuel)%nat →
  ∃ c', loop write_body fuel (c, b) = Ok (c', true) ∧ writes hdr (Some s0) R c' (P ++ b).
Proof.
  revert c P b. induction fuel as [|fuel IH]; intros c P b Hw HR Hf; [lia|]. cbn [loop].
  destruct (decide (length (buf c) + length b < CHUNK)%nat) as [Hlt|Hge].
  - unfold write_body. rewrite (proj2 (Nat.ltb_lt _ _) Hlt). eexists. split; [done|].
    destruct Hw as [Hm He Hr Hu (Hc & Hb & ms & s & d & Hms & Hs & Hst & Hd & HP)].
    constructor; simpl; try done; [rewrite !length_app; lia|]. split; [done|]. split; [by rewrite length_app|].
    exists ms, s, d. by rewrite HP, <-app_assoc.
  - destruct (write_flush hdr s0 R c P b Hw HR ltac:(lia)) as (c' & Hw' & Hb' & ->).
    set (av := (CHUNK - length (buf c))%nat) in *.
    assert (0 < av)%nat by (destruct Hw as [_ _ _ _ (_ & Hb & _)]; unfold av; lia).
    assert (length (take av b) + length (drop av b) = length b)%nat as Hsum by (rewrite <-length_app, take_drop; done).
    destruct (Nat.ltb_spec 0 (length (drop av b))) as [Hd|Hd].
    + rewrite length_drop in Hd. destruct (IH c' (P ++ take av b) (drop av b) Hw') as (c2 & E & Hw2).
      * rewrite length_app. lia.
      * rewrite length_drop. lia.
      * exists c2. split; [done|]. by rewrite <-app_assoc, take_drop in Hw2.
    + exists c'. split; [done|]. rewrite take_ge in Hw'; [done|]. rewrite length_drop in Hd. lia.
Qed.

Lemma write_ok hdr s0 R c P b :
  writes hdr s0 R c P → (length hdr + 2 * (length P + length b) ≤ R)%nat →
  ∃ c', unrealdb_write c b = Ok (c', true) ∧ writes hdr s0 R c' (P ++ b).
Proof.
  intros Hw HR. unfold unrealdb_write. rewrite bool_decide_eq_true_2 by apply Hw.
  rewrite bool_decide_eq_true_2 by apply Hw. cbn [negb]. destruct s0 as [s0|].
  - destruct (w_data _ _ _ _ _ Hw) as (-> & _). cbn [negb]. apply write_loop; [done..|lia].
  - destruct Hw as [Hm He Hr Hu (Hc & Hd)]. rewrite Hc. cbn [negb].
    destruct (fwrite b (fd c)) as [f n] eqn:Ef. destruct (fwrite_all _ _ _ _ Ef) as (-> & Hfd & Hfr).
    { rewrite Hd, length_app in *. lia. }
    rewrite Nat.eqb_refl. cbn [negb]. eexists. split; [done|]. constructor; simpl; try done.
    + rewrite Hfd, length_app, Hfr. rewrite Hd, length_app in *. lia.
    + rewrite Hfd, !length_app. lia.
    + split; [done|]. by rewrite Hfd, Hd, app_assoc.
Qed.

(** A database from which [P] can still be read. *)
Record reads (c : UnrealDB) (P : list Z) : Prop := Reads {
  r_mode : mode c = UNREALDB_MODE_READ;
  r_error : error_code c = UNREALDB_ERROR_SUCCESS;
  r_data : if crypted c then
             ∃ ms s s' d, st c = Some s ∧ sealed s ms s' d ∧ drop (f_pos (fd c)) (f_data (fd c)) = d ∧
               (ms = [] ∨ (blocks ms ∧ f_eof (fd c) = false)) ∧ P = buf c ++ concat ms
           else drop (f_pos (fd c)) (f_data (fd c)) = P
}.

Lemma fread_app n f a b :
  drop (f_pos f) (f_data f) = a ++ b → length a = n ∨ ((length a < n)%nat ∧ b = []) →
  ∃ f', fread n f = (f', a) ∧ f_data f' = f_data f ∧ drop (f_pos f') (f_data f') = b ∧
        f_eof f' = f_eof f || (length a <? n)%nat.
Proof.
  intros Hd Ha. unfold fread. rewrite Hd.
  assert (take n (a ++ b) = a) as ->.
  { destruct Ha as [<-|[Hl ->]]; [apply take_app_length|]. rewrite app_nil_r. apply take_ge. lia. }
  eexists. split_and!; [done..| |done]. simpl. by rewrite <-drop_drop, Hd, drop_app_length.
Qed.

Lemma read_loop fuel c len out Q :
  reads c Q → crypted c = true → buf c = [] → (0 < len ≤ length Q)%nat →
  (length (drop (f_pos (fd c)) (f_data (fd c))) < fuel)%nat →
  ∃ c', loop read_body fuel (c, len, out) = Ok (c', Some (out ++ take len Q)) ∧ reads c' (drop len Q).
Proof.
  revert c len out Q. induction fuel as [|fuel IH]; intros c len out Q [Hm He Hd] Hc Hb Hlen Hf; [lia|].
  rewrite Hc in Hd. destruct Hd as (ms & s & s' & d & Hst & Hs & Hdd & Hbl & ->). rewrite Hb in *. simpl app in *.
  destruct Hs as [s|s m f s1 ct ms s2 d Hml Hp Hs]; [simpl in Hlen; lia|].
  destruct (push_inv s m f s1 ct Hml Hp) as [Hct Hpull].
  destruct Hbl as [|[Hbl Heof]]; [done|].
  assert (length ct = IN_SIZE ∧ blocks ms ∧ length m = CHUNK ∨ (length ct < IN_SIZE)%nat ∧ d = [] ∧ ms = [])%nat as Hcase.
  { rewrite IN_SIZE_val. destruct Hs as [|]; [right|left].
    - simpl in Hbl. split_and!; [lia|done..].
    - destruct Hbl as [Hl Hbl]. split_and!; [lia|done..]. }
  destruct (fread_app IN_SIZE (fd c) ct d Hdd) as (f' & Hfr & Hfd & Hfdrop & Hfe);
    [destruct Hcase as [(? & _)|(? & ? & _)]; auto|].
  cbn [loop]. unfold read_body at 1. rewrite Hfr.
  rewrite bool_decide_eq_false_2 by (intros ->; simpl in Hct; unfold ABYTES in Hct; lia).
  change (st (set_fd f' c)) with (st c). rewrite Hst, Hpull.
  rewrite (proj2 (Nat.ltb_ge CHUNK (length m))) by done.
  destruct (Nat.ltb_spec (length m) len) as [Hlt|Hge].
  - destruct Hcase as [(Hl & Hbl' & Hmc)|(_ & _ & ->)]; [|simpl in Hlen; rewrite app_nil_r in Hlen; lia].
    unfold feof. rewrite Hfe, Heof, Hl, Nat.ltb_irrefl. cbn [orb].
    simpl concat in Hlen |- *. rewrite length_app in Hlen.
    destruct (IH (set_st s1 (set_fd f' c)) (len - length m)%nat (out ++ m) (concat ms)) as (c' & E & Hr'); simpl; try done.
    + constructor; simpl; try done. rewrite Hc. exists ms, s1, s2, d. rewrite Hb. split_and!; try done.
      right. split; [done|]. by rewrite Hfe, Heof, Hl, Nat.ltb_irrefl.
    + lia.
    + rewrite Hfdrop. rewrite Hdd, length_app in Hf. unfold ABYTES in Hct. lia.
    + exists c'. rewrite E, take_app_ge, drop_app_ge, <-app_assoc by lia. done.
  - simpl concat. eexists. rewrite take_app_le, drop_app_le by done. split; [done|].
    constructor; simpl; try done. rewrite Hc. exists ms, s1, s2, d. split_and!; try done.
    destruct Hcase as [(Hl & Hbl' & _)|(_ & _ & ->)]; [right|by left]. split; [done|].
    by rewrite Hfe, Heof, Hl, Nat.ltb_irrefl.
Qed.

Lemma read_ok c P len :
  reads c P → (0 < len ≤ length P)%nat →
  ∃ c', unrealdb_read c len = Ok (c', Some (take len P)) ∧ reads c' (drop len P).
Proof.
  intros [Hm He Hd] Hlen. unfold unrealdb_read. rewrite !bool_decide_eq_true_2 by done. cbn [negb].
  destruct (crypted c) eqn:Hc; cbn [negb].
  - destruct Hd as (ms & s & s' & d & Hst & Hs & Hdd & Hbl & ->).
    set (av := Nat.min (length (buf c)) len). set (c1 := set_buf (drop av (buf c)) c).
    assert (reads c1 (drop av (buf c) ++ concat ms)) as Hr1.
    { constructor; simpl; try done. rewrite Hc. by exists ms, s, s', d. }
    rewrite length_app in Hlen.
    destruct (decide (len ≤ length (buf c))%nat) as [Hle|Hgt].
    + assert (av = len) as E by (unfold av; lia). rewrite E in *.
      replace ((0 <? length (buf c))%nat && (len - len =? 0)%nat) with true
        by (symmetry; apply andb_true_iff; split; [apply Nat.ltb_lt|apply Nat.eqb_eq]; lia).
      exists c1. rewrite take_app_le, drop_app_le by done. done.
    + assert (av = length (buf c)) as E by (unfold av; lia). rewrite E in *.
      replace ((0 <? length (buf c))%nat && (len - length (buf c) =? 0)%nat) with false
        by (symmetry; apply andb_false_iff; right; apply Nat.eqb_neq; lia).
      assert (buf c1 = []) as Hb1 by (unfold c1; simpl; rewrite E; apply drop_all). rewrite bool_decide_eq_true_2 by done.
      rewrite drop_all in Hr1. cbn [require rbind app] in Hr1 |- *. rewrite take_app_ge, drop_app_ge, firstn_all by lia.
      apply read_loop; try done; [lia|]. simpl. rewrite length_drop. lia.
  - destruct (fread_app len (fd c) (take len P) (drop len P)) as (f' & -> & _ & Hd' & _).
    { by rewrite take_drop. }
    { left. rewrite length_take. lia. }
    rewrite length_take, Nat.min_l, Nat.ltb_irrefl by lia. eexists. split; [done|].
    constructor; simpl; try done. by rewrite Hc.
Qed.

(** ** Records *)

Lemma le_bytes_length n v : length (le_bytes n v) = n.
Proof. revert v. induction n as [|n IH]; intros v; simpl; [done|]. by rewrite IH. Qed.
Lemma le_value_bytes n v : 0 ≤ v < 256 ^ Z.of_nat n → le_value (le_bytes n v) = v.
Proof.
  revert v. induction n as [|n IH]; intros v Hv; [simpl in *; lia|].
  rewrite Nat2Z.inj_succ, Z.pow_succ_r in Hv by lia. simpl.
  rewrite IH by (split; [apply Z.div_pos; lia|apply Z.div_lt_upper_bound; lia]).
  pose proof (Z.div_mod v 256). lia.
Qed.

Inductive record := R64 (z : Z) | R32 (z : Z) | R16 (z : Z) | R8 (z : Z) | RStr (s : option (list Z)).

Definition record_bytes (r : record) : list Z :=
  match r with
  | R64 z => le_bytes 8 z | R32 z => le_bytes 4 z | R16 z => le_bytes 2 z | R8 z => [z]
  | RStr None => le_bytes 2 65535
  | RStr (Some s) => le_bytes 2 (Z.of_nat (length s)) ++ s
  end.

(** Strings that can be read again are shorter than those that can be written. *)
Definition record_ok (r : record) : Prop :=
  match r with
  | R64 z => 0 ≤ z < 2 ^ 64 | R32 z => 0 ≤ z < 2 ^ 32 | R16 z => 0 ≤ z < 2 ^ 16 | R8 z => 0 ≤ z < 256
  | RStr None => True
  | RStr (Some s) => cstr s ∧ Z.of_nat (length s) ≤ 10000
  end.

Definition write_record (c : UnrealDB) (r : record) : res (UnrealDB * bool) :=
  match r with
  | R64 z => unrealdb_write_int64 c z | R32 z => unrealdb_write_int32 c z | R16 z => unrealdb_write_int16 c z
  | R8 z => unrealdb_write_char c z | RStr s => unrealdb_write_str c s
  end.

(** Reads a record of the kind of another one. *)
Definition read_record (like : record) (c : UnrealDB) : res (UnrealDB * option record) :=
  match like with
  | R64 _ => let! (c, o) := unrealdb_read_int64 c in Ok (c, R64 <$> o)
  | R32 _ => let! (c, o) := unrealdb_read_int32 c in Ok (c, R32 <$> o)
  | R16 _ => let! (c, o) := unrealdb_read_int16 c in Ok (c, R16 <$> o)
  | R8 _ => let! (c, o) := unrealdb_read_char c in Ok (c, R8 <$> o)
  | RStr _ => let! (c, o) := unrealdb_read_str c in Ok (c, RStr <$> o)
  end.

Lemma write_record_ok hdr s0 R c P r :
  writes hdr s0 R c P → record_ok r → (length hdr + 2 * (length P + length (record_bytes r)) ≤ R)%nat →
  ∃ c', write_record c r = Ok (c', true) ∧ writes hdr s0 R c' (P ++ record_bytes r).
Proof.
  intros Hw Hr HR. destruct r as [z|z|z|z|[x|]]; try (by apply write_ok).
  destruct Hr as [_ Hl]. cbn [record_bytes write_record] in *. unfold unrealdb_write_str.
  rewrite length_app in HR. rewrite (proj2 (Z.leb_gt _ _)) by lia.
  destruct (write_ok hdr s0 R c P (le_bytes 2 (Z.of_nat (length x))) Hw ltac:(lia)) as (c' & E & Hw').
  unfold unrealdb_write_int16. rewrite E. cbn [rbind negb]. rewrite app_assoc. destruct (Nat.ltb_spec 0 (length x)).
  - apply write_ok; [done|]. rewrite length_app. lia.
  - destruct x; [|simpl in *; lia]. exists c'. by rewrite app_nil_r.
Qed.

Lemma read_bytes_ok c b P : reads c (b ++ P) → b ≠ [] → ∃ c', unrealdb_read c (length b) = Ok (c', Some b) ∧ reads c' P.
Proof.
  intros Hr Hb. destruct (read_ok c (b ++ P) (length b) Hr) as (c' & E & Hr').
  - rewrite length_app. destruct b; [done|]. simpl. lia.
  - exists c'. rewrite take_app_length in E. rewrite drop_app_length in Hr'. done.
Qed.

Lemma read_int_ok n c z P :
  (0 < n)%nat → 0 ≤ z < 256 ^ Z.of_nat n → reads c (le_bytes n z ++ P) →
  ∃ c', read_int n c = Ok (c', Some z) ∧ reads c' P.
Proof.
  intros Hn Hz Hr. destruct (read_bytes_ok c (le_bytes n z) P Hr) as (c' & E & Hr'); [by destruct n; [lia|]|].
  rewrite le_bytes_length in E. exists c'. unfold read_int. rewrite E. simpl. by rewrite le_value_bytes.
Qed.

Lemma read_record_ok c r P :
  reads c (record_bytes r ++ P) → record_ok r → ∃ c', read_record r c = Ok (c', Some r) ∧ reads c' P.
Proof.
  intros Hr Hok. destruct r as [z|z|z|z|[x|]]; cbn [record_bytes record_ok read_record] in Hr, Hok |- *;
    try (match goal with |- context [unrealdb_read_int64] => destruct (read_int_ok 8 c z P ltac:(lia) ltac:(simpl; lia) Hr) as (c' & E & Hr')
         | |- context [unrealdb_read_int32] => destruct (read_int_ok 4 c z P ltac:(lia) ltac:(simpl; lia) Hr) as (c' & E & Hr')
         | |- context [unrealdb_read_int16 c] => destruct (read_int_ok 2 c z P ltac:(lia) ltac:(simpl; lia) Hr) as (c' & E & Hr') end;
         exists c'; unfold unrealdb_read_int64, unrealdb_read_int32, unrealdb_read_int16; rewrite E; done).
  - destruct (read_int_ok 1 c z P ltac:(lia) ltac:(simpl; lia)) as (c' & E & Hr').
    { cbn [le_bytes]. by rewrite Z.mod_small by lia. }
    exists c'. unfold unrealdb_read_char. by rewrite E.
  - destruct Hok as [Hx Hl]. rewrite <-app_assoc in Hr. unfold unrealdb_read_str.
    destruct (read_int_ok 2 c (Z.of_nat (length x)) (x ++ P) ltac:(lia) ltac:(simpl; lia) Hr) as (c' & E & Hr').
    unfold unrealdb_read_int16. rewrite E. cbn [rbind].
    rewrite (proj2 (Z.eqb_neq _ 65535)) by lia. destruct (Z.eqb_spec (Z.of_nat (length x)) 0).
    + destruct x; [|simpl in *; lia]. by exists c'.
    + rewrite (proj2 (Z.ltb_ge 10000 _)) by lia. rewrite Nat2Z.id.
      destruct (read_bytes_ok c' x P Hr') as (c2 & E2 & Hr2); [by intros ->|]. exists c2. rewrite E2. cbn [rbind].
      rewrite take_while_all; [done|]. eapply Forall_impl; [exact Hx|]. intros y Hy. unfold cchar in Hy. simpl in Hy.
      by rewrite (proj2 (Z.eqb_neq y 0) ltac:(lia)).
  - destruct (read_int_ok 2 c 65535 P ltac:(lia) ltac:(simpl; lia) Hr) as (c' & E & Hr').
    exists c'. unfold unrealdb_read_str, unrealdb_read_int16. by rewrite E.
Qed.

Lemma read_str_ok c x P :
  reads c (record_bytes (RStr x) ++ P) → record_ok (RStr x) → ∃ c', unrealdb_read_str c = Ok (c', Some x) ∧ reads c' P.
Proof.
  intros Hr Hok. destruct (read_record_ok c (RStr x) P Hr Hok) as (c' & E & Hr'). cbn [read_record] in E.
  destruct (unrealdb_read_str c) as [[c1 [v|]]| |]; [|done..]. injection E as -> ->. by exists c'.
Qed.
Lemma read_int64_ok c z P :
  reads c (record_bytes (R64 z) ++ P) → 0 ≤ z < 2 ^ 64 → ∃ c', unrealdb_read_int64 c = Ok (c', Some z) ∧ reads c' P.
Proof. intros Hr Hz. apply read_int_ok; [lia|simpl; lia|done]. Qed.
Lemma read_int32_ok c z P :
  reads c (record_bytes (R32 z) ++ P) → 0 ≤ z < 2 ^ 32 → ∃ c', unrealdb_read_int32 c = Ok (c', Some z) ∧ reads c' P.
Proof. intros Hr Hz. apply read_int_ok; [lia|simpl; lia|done]. Qed.

Fixpoint write_all (c : UnrealDB) (rs : list record) : res (UnrealDB * bool) :=
  match rs with
  | [] => Ok (c, true)
  | r :: rs => let! (c, ok) := write_record c r in if ok then write_all c rs else Ok (c, false)
  end.
Fixpoint read_all (like : list record) (c : UnrealDB) : res (UnrealDB * option (list record)) :=
  match like with
  | [] => Ok (c, Some [])
  | r :: rs =>
      let! (c, o) := read_record r c in
      match o with
      | None => Ok (c, None)
      | Some x => let! (c, o) := read_all rs c in Ok (c, cons x <$> o)
      end
  end.

Definition stream (rs : list record) : list Z := flat_map record_bytes rs.

Lemma write_all_ok rs hdr s0 R c P :
  writes hdr s0 R c P → Forall record_ok rs → (length hdr + 2 * (length P + length (stream rs)) ≤ R)%nat →
  ∃ c', write_all c rs = Ok (c', true) ∧ writes hdr s0 R c' (P ++ stream rs).
Proof.
  intros Hw Hrs. revert c P Hw. induction Hrs as [|r rs Hr Hrs IH]; intros c P Hw HR; simpl in *.
  - exists c. by rewrite app_nil_r.
  - rewrite length_app in HR. destruct (write_record_ok hdr s0 R c P r Hw Hr ltac:(lia)) as (c' & -> & Hw').
    simpl. destruct (IH c' _ Hw') as (c2 & E & Hw2); [rewrite length_app; lia|]. exists c2. by rewrite app_assoc.
Qed.

Lemma read_all_ok rs c P :
  reads c (stream rs ++ P) → Forall record_ok rs → ∃ c', read_all rs c = Ok (c', Some rs) ∧ reads c' P.
Proof.
  intros Hr Hrs. revert c Hr. induction Hrs as [|r rs Hok Hrs IH]; intros c Hr; simpl in *; [by exists c|].
  rewrite <-app_assoc in Hr. destruct (read_record_ok c r _ Hr Hok) as (c' & -> & Hr'). simpl.
  destruct (IH c' Hr') as (c2 & -> & Hr2). by exists c2.
Qed.

(** ** Keys and their cache *)

Definition is_u16 (z : Z) : Prop := 0 ≤ z < 2 ^ 16.

(** A configuration whose key comes from the password. *)
Record config_ok (password : list Z) (g : UnrealDBConfig) : Prop := ConfigOk {
  g_kdf : kdf g = UNREALDB_KDF_ARGON2ID;
  g_costs : is_u16 (t_cost g) ∧ 0 ≤ m_cost g < 31 ∧ is_u16 (p_cost g);
  g_salt : saltlen g = Z.of_nat (length (salt g)) ∧ saltlen g ≤ 1024;
  g_cipher : cipher g = UNREALDB_CIPHER_XCHACHA20;
  g_keylen : keylen g = Z.of_nat KEYBYTES;
  g_key : argon2id_hash_raw (t_cost g) (Z.shiftl 1 (m_cost g)) (p_cost g) password (salt g) (keylen g) = Some (key g)
}.
Definition secret_ok (s : Secret) : Prop :=
  Forall (λ c, config_ok (s_password s) (sc_config c)) (s_cache s) ∧ Z.of_nat (length (s_password s)) < 2 ^ 32.
(** The system opens the file and has the memory for a key. *)
Definition granted (r : chance) : Prop := denied r = false ∧ no_memory r = false.

Lemma config_key_length pw g : config_ok pw g → length (key g) = KEYBYTES.
Proof. intros [_ _ _ _ Hl Hk]. apply argon2_length in Hk. by rewrite Hk, Hl, Nat2Z.id. Qed.

Lemma kdf_ok g pw k :
  kdf g = UNREALDB_KDF_ARGON2ID → m_cost g < 31 →
  argon2id_hash_raw (t_cost g) (Z.shiftl 1 (m_cost g)) (p_cost g) pw (salt g) (keylen g) = Some k →
  unrealdb_kdf false g pw = Ok (inl (Config (kdf g) (t_cost g) (m_cost g) (p_cost g) (saltlen g) (salt g) (cipher g) (keylen g) k)).
Proof.
  intros Hk Hm E. unfold unrealdb_kdf. rewrite Hk, Z.eqb_refl. cbn [negb].
  rewrite (proj2 (Z.ltb_lt _ _) Hm). cbn [require rbind]. by rewrite E.
Qed.

Lemma identical_same_key pw g g' :
  config_ok pw g → config_ok pw g' → unrealdb_config_identical g g' = true → key g = key g'.
Proof.
  intros H H' Hi. unfold unrealdb_config_identical in Hi. rewrite !andb_true_iff, !Z.eqb_eq, bool_decide_eq_true in Hi.
  destruct Hi as [[[[[[[_ Ht] Hm] Hp] _] Hs] _] Hl]. pose proof (g_key _ _ H) as K. pose proof (g_key _ _ H') as K'.
  rewrite Ht, Hm, Hp, Hs, Hl in K. rewrite K in K'. by simplify_eq.
Qed.

Lemma find_cache_ok pw now g l o l' :
  find_secret_cache now g l = (o, l') → Forall (λ c, config_ok pw (sc_config c)) l →
  Forall (λ c, config_ok pw (sc_config c)) l' ∧
  match o with Some g' => config_ok pw g' ∧ unrealdb_config_identical g' g = true | None => True end.
Proof.
  revert o l'. induction l as [|c l IH]; intros o l' E Hl; simpl in E; [by simplify_eq|].
  apply Forall_cons in Hl as [Hc Hl]. destruct (unrealdb_config_identical (sc_config c) g) eqn:Ei.
  - simplify_eq. split; [by constructor|done].
  - destruct (find_secret_cache now g l) as [o1 l1] eqn:E1. simplify_eq. destruct (IH o l1 eq_refl Hl) as [? ?].
    split; [by constructor|done].
Qed.

Lemma add_cache_ok pw now g l :
  config_ok pw g → Forall (λ c, config_ok pw (sc_config c)) l →
  Forall (λ c, config_ok pw (sc_config c)) (unrealdb_add_to_secret_cache now g l).
Proof.
  intros Hg Hl. unfold unrealdb_add_to_secret_cache. destruct (find_secret_cache now g l) as [o l'] eqn:E.
  destruct (find_cache_ok pw now g l o l' E Hl) as [Hl' _]. destruct o; [done|by constructor].
Qed.

Lemma le_two v : 0 ≤ v < 2 ^ 16 → v mod 256 + 256 * ((v / 256) mod 256 + 256 * 0) = v.
Proof. intros Hv. Z.to_euclidean_division_equations. lia. Qed.

(** The header of a file gives back its configuration, without the key. *)
Lemma read_config_ok pw g f rest :
  config_ok pw g → drop (f_pos f) (f_data f) = config_bytes g ++ rest →
  ∃ f', read_config f = (f', inl (Config (kdf g) (t_cost g) (m_cost g) (p_cost g) (saltlen g) (salt g) (cipher g)
                                         (keylen g) (replicate KEYBYTES 0))) ∧
    f_data f' = f_data f ∧ drop (f_pos f') (f_data f') = rest ∧ f_eof f' = f_eof f.
Proof.
  intros [Hk (Ht & Hm & Hp) (Hs & Hsl) Hc Hl _] Hd. unfold read_config, fread_int16s, config_bytes in *.
  unfold is_u16, UNREALDB_KDF_ARGON2ID, UNREALDB_CIPHER_XCHACHA20 in *.
  rewrite !app_assoc, <-(app_assoc _ (salt g)), <-!app_assoc in Hd.
  edestruct (fread_app (2 * 5) f (le_bytes 2 (kdf g) ++ le_bytes 2 (t_cost g) ++ le_bytes 2 (m_cost g) ++ le_bytes 2 (p_cost g)
    ++ le_bytes 2 (saltlen g))) as (f1 & E1 & D1 & R1 & X1); [rewrite Hd, <-!app_assoc; done|by left|].
  rewrite E1. cbn -[fread Z.modulo Z.div Z.add Z.mul]. rewrite !le_two by lia. rewrite Hk. cbn [Z.eqb Pos.eqb negb].
  rewrite (proj2 (Z.ltb_ge 1024 _)) by lia.
  destruct (fread_app (Z.to_nat (saltlen g)) f1 _ _ R1) as (f2 & E2 & D2 & R2 & X2); [left; lia|].
  rewrite E2. rewrite (proj2 (Nat.eqb_eq _ _)) by lia. cbn [negb].
  edestruct (fread_app (2 * 2) f2 (le_bytes 2 (cipher g) ++ le_bytes 2 (keylen g))) as (f3 & E3 & D3 & R3 & X3);
    [rewrite R2, <-!app_assoc; done|by left|].
  change (2 * 2)%nat with 4%nat in E3. rewrite E3. cbn -[Z.modulo Z.div Z.add Z.mul].
  rewrite !le_two by (rewrite ?Hc, ?Hl; unfold KEYBYTES; lia). rewrite Hc, Hl. simpl.
  exists f3. split_and!; [done|congruence|done|]. rewrite X3, X2, X1.
  rewrite (proj2 (Nat.ltb_ge (length (salt g)) _)) by lia. simpl. by rewrite !orb_false_r.
Qed.

(** ** Opening and closing *)

Definition secrets_ok (w : world) : Prop := Forall secret_ok (secrets w).

Lemma set_cache_ok i s l w :
  secrets_ok w → secrets w !! i = Some s → Forall (λ c, config_ok (s_password s) (sc_config c)) l →
  secrets_ok (set_cache i l w).
Proof.
  intros Hw Hi Hl. unfold secrets_ok, set_cache. simpl. apply Forall_lookup. intros j t Hj.
  destruct (decide (i = j)) as [<-|Hne].
  - rewrite list_lookup_alter_eq, Hi in Hj. simplify_eq/=. split; [done|]. unfold secrets_ok in Hw.
    rewrite Forall_lookup in Hw. by apply (Hw i s).
  - rewrite list_lookup_alter_ne in Hj by done. unfold secrets_ok in Hw. rewrite Forall_lookup in Hw. by apply (Hw j).
Qed.

(** The secret of a block, if it may be used. *)
Definition usable_secret (w : world) (name : list Z) (i : nat) (s : Secret) : Prop :=
  find_secret 0 (secrets w) name = Some (i, s) ∧ valid_secret_password (s_password s) = true.

Lemma find_secret_lookup l name j i s : find_secret j l name = Some (i, s) → ∃ k, i = (j + k)%nat ∧ l !! k = Some s.
Proof.
  revert j. induction l as [|t l IH]; intros j E; simpl in E; [done|].
  destruct (strcasecmp (s_name t) name =? 0); [simplify_eq; exists 0%nat; split; [lia|done]|].
  destruct (IH _ E) as (k & -> & Hk). exists (S k). split; [lia|done].
Qed.
Lemma usable_lookup w name i s : usable_secret w name i s → secrets w !! i = Some s.
Proof. intros [E _]. by destruct (find_secret_lookup _ _ _ _ _ E) as (k & -> & Hk). Qed.

Definition start_records (t : Z) : list record := [RStr (Some VALIDATE); R64 t].
Lemma start_ok t : 0 ≤ t < 2 ^ 64 → Forall record_ok (start_records t).
Proof.
  intros Ht. repeat constructor; simpl; try done; lia.
Qed.

Lemma config_bytes_length g : length (config_bytes g) = (14 + length (salt g))%nat.
Proof. unfold config_bytes. rewrite !length_app, !le_bytes_length. lia. Qed.

(** The configuration a file is written with, and its key. *)
Lemma choose_config r secr :
  secret_ok secr → length (random_salt r) = UNREALDB_SALT_LEN → no_memory r = false →
  let '(g, cached) := match s_cache secr with
                      | e :: _ => (sc_config e, true)
                      | [] => (new_config (random_salt r), false)
                      end in
  ∃ g', (if cached then Ok (inl g) else unrealdb_kdf (no_memory r) g (s_password secr)) = Ok (inl g') ∧
    config_ok (s_password secr) g' ∧ config_bytes g' = config_bytes g ∧ kdf g = 1.
Proof.
  intros [Hs Hp] Hr ->. destruct (s_cache secr) as [|e l].
  - destruct (argon2_ok 4 (Z.shiftl 1 15) 2 (s_password secr) (random_salt r)) as [k Hk];
      [done|done|done|done|rewrite Hr; unfold UNREALDB_SALT_LEN; lia|].
    eexists. split; [by apply (kdf_ok (new_config (random_salt r)) (s_password secr) k)|].
    split_and!; [|done..]. constructor; simpl; try done. rewrite Hr. done.
  - apply Forall_cons in Hs as [He _]. exists (sc_config e). split_and!; try done. apply He.
Qed.

Lemma validate_length : length (record_bytes (RStr (Some VALIDATE))) = 27%nat.
Proof. by vm_compute. Qed.

Definition crypt_header (g : UnrealDBConfig) (h : list Z) : list Z := (pad32 HEADER_CRYPTED_V1 ++ config_bytes g) ++ h.

Lemma open_crypt_write_ok filename r i secr w R :
  secrets_ok w → secrets w !! i = Some secr → length (random_salt r) = UNREALDB_SALT_LEN → no_memory r = false →
  0 ≤ TStime w < 2 ^ 64 → (1200 ≤ R)%nat →
  ∃ w' c g h s0,
    open_crypt_write filename r i secr
      (DB (File [] 0 false R) UNREALDB_MODE_WRITE true 0 None [] UNREALDB_ERROR_SUCCESS None) w = Ok (w', inl c) ∧
    config_ok (s_password secr) g ∧ init_push (key g) (random_header r) = (s0, h) ∧
    (length (crypt_header g h) ≤ 1100)%nat ∧
    writes (crypt_header g h) (Some s0) R c (stream (start_records (TStime w))) ∧ files w' = files w ∧ secrets_ok w'.
Proof.
  intros Hw Hi Hr Hmem Ht HR. assert (secret_ok secr) as Hs by (unfold secrets_ok in Hw; rewrite Forall_lookup in Hw; by eapply Hw).
  unfold open_crypt_write. cbn [fd].
  destruct (fwrite (pad32 HEADER_CRYPTED_V1) _) as [f1 n1] eqn:E1.
  apply fwrite_all in E1 as (-> & D1 & M1); [|change (length (pad32 HEADER_CRYPTED_V1)) with 32%nat; cbn [f_room]; lia].
  assert (length (pad32 HEADER_CRYPTED_V1) = 32%nat) as Hp by (by vm_compute). rewrite Hp in *. rewrite Nat.eqb_refl. cbn [negb].
  pose proof (choose_config r secr Hs Hr Hmem) as Hc.
  destruct (match s_cache secr with [] => _ | _ => _ end) as [g0 cached].
  destruct Hc as (g & Eg & Hg & Hb & Hk). rewrite Hk. cbn [require rbind Z.eqb negb].
  pose proof (config_bytes_length g) as Hbl. pose proof (g_salt _ _ Hg) as [Hsl Hsl2].
  destruct (fwrite (config_bytes g0) _) as [f2 n2] eqn:E2. rewrite <-Hb in *. cbn [f_room f_data] in D1, M1.
  apply fwrite_all in E2 as (-> & D2 & M2); [|cbn [fd set_fd]; lia]. rewrite Nat.eqb_refl. cbn [negb]. rewrite Eg. cbn [rbind].
  pose proof (config_key_length _ _ Hg) as Hkl. rewrite Hkl, Nat.leb_refl. cbn [require rbind].
  rewrite take_ge by lia. destruct (init_push (key g) (random_header r)) as [s0 h] eqn:Ei.
  destruct (init_ok _ _ _ _ Hkl Ei) as [Hh _].
  destruct (fwrite h _) as [f3 n3] eqn:E3. cbn [fd set_fd] in D2, M2.
  apply fwrite_all in E3 as (-> & D3 & M3); [|cbn [fd set_fd set_st set_config]; unfold HEADERBYTES in *; lia].
  rewrite Nat.eqb_refl. cbn [negb]. cbn [fd set_fd set_st set_config] in D3, M3.
  assert (length (crypt_header g h) ≤ 1100)%nat as Hhl
    by (unfold crypt_header; rewrite !length_app, Hp, Hbl; unfold HEADERBYTES in *; lia).
  match goal with |- context [unrealdb_write_str ?c _] => set (c0 := c) end.
  assert (writes (crypt_header g h) (Some s0) R c0 []) as H0.
  { constructor; unfold c0; cbn [fd buf mode error_code crypted st set_fd set_st set_config length]; try done.
    - rewrite D3, D2, D1, !length_app, M3, M2, M1, Hp, Hbl. cbn [length]. unfold HEADERBYTES in *. lia.
    - rewrite D3, D2, D1. unfold crypt_header. rewrite app_nil_l. lia.
    - split; [done|]. split; [apply Nat.lt_0_succ|]. exists [], s0, []. rewrite D3, D2, D1, app_nil_r.
      split_and!; try done. constructor. }
  pose proof (start_ok (TStime w) Ht) as Hst. apply Forall_cons in Hst as [Hv Hst]. apply Forall_cons in Hst as [H64 _].
  destruct (write_record_ok _ _ _ _ _ _ H0 Hv) as (c1 & E4 & H1); [rewrite validate_length; cbn [length]; lia|].
  cbn [write_record] in E4. rewrite E4. cbn [rbind negb].
  destruct (write_record_ok _ _ _ _ _ _ H1 H64) as (c2 & E5 & H2).
  { rewrite length_app, validate_length. cbn [record_bytes length]. rewrite le_bytes_length. lia. }
  cbn [write_record] in E5. rewrite E5. cbn [rbind negb].
  eexists _, c2, g, h, s0. split; [done|]. split_and!; try done; destruct cached; try done.
  apply (set_cache_ok i secr); [done..|]. apply add_cache_ok; [done|]. apply Hs.
Qed.

(** The key of a file that is opened for reading: from the cache, or computed. *)
Lemma key_again pw g g0 now l o l' :
  config_ok pw g → Forall (λ c, config_ok pw (sc_config c)) l →
  g0 = Config (kdf g) (t_cost g) (m_cost g) (p_cost g) (saltlen g) (salt g) (cipher g) (keylen g) (replicate KEYBYTES 0) →
  find_secret_cache now g0 l = (o, l') →
  match o with
  | Some g' => Ok (inl (Config (kdf g0) (t_cost g0) (m_cost g0) (p_cost g0) (saltlen g0) (salt g0) (cipher g0)
                               (keylen g0) (take (Z.to_nat (keylen g0)) (key g'))))
  | None => unrealdb_kdf false g0 pw
  end = Ok (inl g).
Proof.
  intros Hg Hl -> E. destruct (find_cache_ok pw now _ l o l' E Hl) as [_ Ho]. destruct o as [g'|].
  - destruct Ho as [Hg' Hi]. assert (key g' = key g) as Hk by (by apply (identical_same_key pw)).
    simpl. rewrite Hk, (g_keylen _ _ Hg), Nat2Z.id, take_ge by (by rewrite (config_key_length _ _ Hg)).
    rewrite <-(g_keylen _ _ Hg). by destruct g.
  - pose proof (g_costs _ _ Hg) as (_ & Hm & _). erewrite kdf_ok; [|apply Hg|simpl; lia|exact (g_key _ _ Hg)]. by destruct g.
Qed.

Lemma open_crypt_read_ok filename r i secr w R g h s0 ms s' d t P :
  secrets_ok w → secrets w !! i = Some secr → no_memory r = false → config_ok (s_password secr) g → length h = HEADERBYTES →
  init_pull h (key g) = Some s0 → sealed s0 ms s' d → blocks ms → 0 ≤ t < 2 ^ 64 →
  concat ms = stream (start_records t) ++ P →
  ∃ w' c, open_crypt_read filename r i secr
      (DB (File (crypt_header g h ++ d) 0 false R) UNREALDB_MODE_READ true 0 None [] UNREALDB_ERROR_SUCCESS None) w
      = Ok (w', inl c) ∧ creationtime c = t ∧ reads c P ∧ files w' = files w ∧ secrets_ok w'.
Proof.
  intros Hw Hi Hmem Hg Hh Hpull Hs Hbl Ht HP.
  assert (secret_ok secr) as [Hsec Hpw] by (unfold secrets_ok in Hw; rewrite Forall_lookup in Hw; by eapply Hw).
  unfold open_crypt_read, crypt_header. cbn [fd].
  edestruct (fread_app 32 (File (((pad32 HEADER_CRYPTED_V1 ++ config_bytes g) ++ h) ++ d) 0 false R)
    (pad32 HEADER_CRYPTED_V1)) as (f1 & E1 & D1 & R1 & X1);
    [cbn [f_pos f_data]; rewrite drop_0, <-!app_assoc; reflexivity|left; by vm_compute|].
  rewrite E1. cbn [fd set_fd f_eof] in *. change (length (pad32 HEADER_CRYPTED_V1)) with 32%nat in *.
  cbn [Nat.eqb negb Nat.ltb Nat.leb orb] in *.
  assert (str_starts_with_case_sensitive (pad32 HEADER_CRYPTED_V1) HEADER_CRYPTED_V1 = true) as -> by (by vm_compute).
  cbn [negb].
  destruct (read_config_ok (s_password secr) g f1 (h ++ d) Hg R1) as (f2 & -> & D2 & R2 & X2). cbn [fd set_fd].
  rewrite Hmem. set (g0 := Config _ _ _ _ _ _ _ _ _). destruct (find_secret_cache (TStime w) g0 (s_cache secr)) as [o l] eqn:Ec.
  pose proof (key_again _ g g0 (TStime w) _ o l Hg Hsec eq_refl Ec) as ->. cbn [rbind fd set_fd set_config].
  destruct (find_cache_ok (s_password secr) _ _ _ _ _ Ec Hsec) as [Hl _].
  destruct (fread_app HEADERBYTES f2 h d R2 ltac:(by left)) as (f3 & -> & D3 & R3 & X3).
  rewrite Hh, Nat.eqb_refl. cbn [negb]. rewrite (config_key_length _ _ Hg), Nat.leb_refl. cbn [require rbind].
  rewrite take_ge by (by rewrite (config_key_length _ _ Hg)). rewrite Hpull.
  match goal with |- context [unrealdb_read_str ?c] => set (c0 := c) end.
  assert (reads c0 (stream (start_records t) ++ P)) as H0.
  { constructor; try done. cbn [c0 crypted set_st set_fd set_config]. exists ms, s0, s', d. split_and!; try done.
    right. split; [done|]. unfold c0. cbn [fd set_st set_fd set_config]. by rewrite X3, X2, X1, Hh, Nat.ltb_irrefl. }
  pose proof (start_ok t Ht) as Hst. apply Forall_cons in Hst as [Hv Hst]. apply Forall_cons in Hst as [H64 _].
  unfold stream, start_records in H0. cbn [flat_map] in H0. rewrite <-!app_assoc in H0.
  destruct (read_str_ok _ _ _ H0 Hv) as (c1 & -> & H1). cbn [rbind].
  change (strcmp VALIDATE VALIDATE =? 0) with true. cbn [negb].
  destruct (read_int64_ok _ _ _ H1 H64) as (c2 & -> & H2). cbn [rbind].
  eexists _, _. split; [reflexivity|]. split_and!; try done.
  - destruct H2 as [? ? ?]. by constructor.
  - apply (set_cache_ok i (MkSecret (s_name secr) (s_password secr) l)).
    + by apply (set_cache_ok i secr).
    + simpl. by rewrite list_lookup_alter_eq, Hi.
    + by apply add_cache_ok.
Qed.

(** The password a block stands for; none for a plain file. *)
Definition can_open (w : world) (block : option (list Z)) (pw : option (list Z)) : Prop :=
  match block with
  | None => pw = None
  | Some name => ∃ i s, usable_secret w name i s ∧ pw = Some (s_password s)
  end.

(** What a stream starts with. *)
Definition preamble (pw : option (list Z)) (t : Z) : list Z :=
  match pw with None => record_bytes (R64 t) | Some _ => stream (start_records t) end.

(** The bytes [data] of a file of the time [t] that holds the stream [P]. *)
Definition saved (pw : option (list Z)) (data : list Z) (t : Z) (P : list Z) : Prop :=
  match pw with
  | None => data = pad32 HEADER_PLAIN ++ preamble pw t ++ P
  | Some p => ∃ g h s0 ms s' d, config_ok p g ∧ length h = HEADERBYTES ∧ init_pull h (key g) = Some s0 ∧
      sealed s0 ms s' d ∧ blocks ms ∧ concat ms = preamble pw t ++ P ∧ data = crypt_header g h ++ d
  end.

(** A database that is being written. *)
Definition writing (pw : option (list Z)) (t : Z) (R : nat) (c : UnrealDB) (P : list Z) : Prop :=
  match pw with
  | None => writes (pad32 HEADER_PLAIN) None R c (preamble pw t ++ P)
  | Some p => ∃ g h s0, config_ok p g ∧ length h = HEADERBYTES ∧ init_pull h (key g) = Some s0 ∧
      (length (crypt_header g h) ≤ 1100)%nat ∧ writes (crypt_header g h) (Some s0) R c (preamble pw t ++ P)
  end.

Lemma preamble_length pw t : (length (preamble pw t) ≤ 35)%nat.
Proof. destruct pw; simpl; lia. Qed.

Lemma writing_writes pw t R c P : writing pw t R c P →
  ∃ hdr s0, (length hdr ≤ 1100)%nat ∧ writes hdr s0 R c (preamble pw t ++ P) ∧
    ∀ c' P', writes hdr s0 R c' (preamble pw t ++ P') → writing pw t R c' P'.
Proof.
  destruct pw as [p|]; simpl.
  - intros (g & h & s0 & Hg & Hh & Hp & Hl & Hw). exists (crypt_header g h), (Some s0). split_and!; [done..|].
    intros c' P' H'. by exists g, h, s0.
  - intros Hw. exists (pad32 HEADER_PLAIN), None. split_and!; [apply Nat.leb_le; by vm_compute|done..].
Qed.

Lemma writing_record pw t R c P r :
  writing pw t R c P → record_ok r → (1200 + 2 * (length P + length (record_bytes r)) ≤ R)%nat →
  ∃ c', write_record c r = Ok (c', true) ∧ writing pw t R c' (P ++ record_bytes r).
Proof.
  intros Hw Hr HR. destruct (writing_writes _ _ _ _ _ Hw) as (hdr & s0 & Hl & Hw' & Hback).
  pose proof (preamble_length pw t). destruct (write_record_ok _ _ _ _ _ _ Hw' Hr) as (c' & E & H').
  - rewrite length_app. lia.
  - exists c'. split; [done|]. apply Hback. by rewrite app_assoc.
Qed.

Lemma writing_all pw t R c P rs :
  writing pw t R c P → Forall record_ok rs → (1200 + 2 * (length P + length (stream rs)) ≤ R)%nat →
  ∃ c', write_all c rs = Ok (c', true) ∧ writing pw t R c' (P ++ stream rs).
Proof.
  intros Hw Hr HR. destruct (writing_writes _ _ _ _ _ Hw) as (hdr & s0 & Hl & Hw' & Hback).
  pose proof (preamble_length pw t). destruct (write_all_ok _ _ _ _ _ _ Hw' Hr) as (c' & E & H').
  - rewrite length_app. lia.
  - exists c'. split; [done|]. apply Hback. by rewrite app_assoc.
Qed.

Lemma close_ok pw t R c P filename w :
  writing pw t R c P → (1200 + 2 * length P ≤ R)%nat →
  ∃ data, unrealdb_close filename true c w = Ok (set_files (<[filename := data]> (files w)) w, true) ∧ saved pw data t P.
Proof.
  intros Hw HR. pose proof (preamble_length pw t) as Hpl. unfold unrealdb_close. destruct pw as [p|].
  - destruct Hw as (g & h & s0 & Hg & Hh & Hp & Hl & [Hm He Hr Hu (Hc & Hb & ms & s & d & Hms & Hs & Hst & Hd & HP)]).
    assert (length (buf c) ≤ CHUNK)%nat as Hb' by (unfold CHUNK in *; lia).
    rewrite Hc, Hm, Hst. destruct (push_ok s (buf c) true Hb') as (s' & out & Ep & Hlo & _). rewrite Ep.
    destruct (fwrite out (fd c)) as [f n] eqn:Ef. rewrite length_app in Hu.
    apply fwrite_all in Ef as (-> & Hfd & _); [|unfold ABYTES in Hlo; lia]. rewrite Nat.eqb_refl. unfold fclose.
    cbn [mode set_fd fd andb]. rewrite Hm. eexists. split; [done|].
    exists g, h, s0, (ms ++ [buf c]), s', (d ++ out). split_and!; try done.
    + by eapply sealed_snoc.
    + by apply blocks_snoc.
    + rewrite concat_app, HP. cbn [concat]. by rewrite app_nil_r.
    + by rewrite Hfd, Hd, app_assoc.
  - destruct Hw as [Hm He Hr Hu (Hc & Hd)]. rewrite Hc. unfold fclose. rewrite Hm, Hd. eexists. split; done.
Qed.

Lemma plain_header R rest :
  ∃ f b, fgets 32 (File (pad32 HEADER_PLAIN ++ rest) 0 false R) = (f, Some b) ∧ c_string b = HEADER_PLAIN ∧
    f_data f = pad32 HEADER_PLAIN ++ rest.
Proof.
  unfold fgets. cbn [f_pos f_data f_eof f_room]. rewrite drop_0.
  assert (take_while (λ c, negb (c =? LF)) (pad32 HEADER_PLAIN ++ rest) =
          pad32 HEADER_PLAIN ++ take_while (λ c, negb (c =? LF)) rest) as ->
    by (apply take_while_app; repeat constructor).
  set (tl := take_while _ rest).
  assert (∀ x, take (32 - 1) (pad32 HEADER_PLAIN ++ x) = take 31 (pad32 HEADER_PLAIN)) as Ht
    by (intros x; apply take_app_le; apply Nat.leb_le; by vm_compute).
  assert (take (32 - 1) (if (length (pad32 HEADER_PLAIN ++ tl) <? length (pad32 HEADER_PLAIN ++ rest))%nat
            then (pad32 HEADER_PLAIN ++ tl) ++ [LF] else pad32 HEADER_PLAIN ++ tl) = take 31 (pad32 HEADER_PLAIN)) as Er.
  { destruct (_ <? _)%nat; [rewrite <-app_assoc|]; apply Ht. }
  rewrite Er. rewrite (bool_decide_eq_false_2 (take 31 (pad32 HEADER_PLAIN) = [])) by done.
  eexists _, _. split; [reflexivity|]. split; [by vm_compute|done].
Qed.

Lemma open_write_ok filename block pw r w :
  secrets_ok w → can_open w block pw → granted r → length (random_salt r) = UNREALDB_SALT_LEN →
  0 ≤ TStime w < 2 ^ 64 → (1200 ≤ disk w)%nat →
  ∃ w' c, unrealdb_open filename UNREALDB_MODE_WRITE block r w = Ok (w', inl c) ∧ writing pw (TStime w) (disk w) c [] ∧
    files w' = files w ∧ secrets_ok w'.
Proof.
  intros Hw Hc [Hd Hmem] Hr Ht HR. unfold unrealdb_open. destruct block as [name|].
  - destruct Hc as (i & s & [Hf Hv] & ->). rewrite Hf, Hv, Hd. rewrite bool_decide_eq_true_2 by done.
    destruct (open_crypt_write_ok filename r i s w (disk w) Hw) as (w' & c & g & h & s0 & E & Hg & Hi & Hl & Hws & Hfi & Hs');
      [by eapply usable_lookup|done..|].
    exists w', c. split_and!; try done. destruct (init_ok _ _ _ _ (config_key_length _ _ Hg) Hi) as [Hh Hp].
    exists g, h, s0. split_and!; try done.
  - simpl in Hc. subst pw. rewrite Hd. rewrite bool_decide_eq_false_2 by (by intros []).
    unfold open_plain_write. cbn [fd]. destruct (fwrite (pad32 HEADER_PLAIN) _) as [f n] eqn:Ef.
    assert (length (pad32 HEADER_PLAIN) = 32%nat) as Hp by (by vm_compute).
    apply fwrite_all in Ef as (-> & Hfd & Hfr); [|rewrite Hp; cbn [f_room]; lia]. rewrite Hp in *. cbn [Nat.eqb negb].
    cbn [f_data f_room] in Hfd, Hfr.
    match goal with |- context [unrealdb_write_int64 ?c _] => set (c0 := c) end.
    assert (writes (pad32 HEADER_PLAIN) None (disk w) c0 []) as H0.
    { constructor; unfold c0; cbn [fd buf mode error_code crypted set_fd length]; try done.
      - rewrite Hfd, Hfr, app_nil_l, Hp. lia.
      - rewrite Hfd, app_nil_l, Hp. lia. }
    destruct (write_record_ok _ _ _ _ _ (R64 (TStime w)) H0 Ht) as (c1 & E & H1).
    { rewrite Hp. cbn [record_bytes length]. rewrite le_bytes_length. lia. }
    cbn [write_record] in E. rewrite E. cbn [rbind]. exists w, c1. split_and!; try done.
Qed.

Lemma open_read_ok filename block pw r w data t P :
  secrets_ok w → can_open w block pw → granted r → files w !! filename = Some data → 0 ≤ t < 2 ^ 64 →
  saved pw data t P →
  ∃ w' c, unrealdb_open filename UNREALDB_MODE_READ block r w = Ok (w', inl c) ∧ creationtime c = t ∧ reads c P ∧
    files w' = files w ∧ secrets_ok w'.
Proof.
  intros Hw Hc [Hd Hmem] Hf Ht Hs. unfold unrealdb_open. rewrite Hf, Hd. destruct block as [name|].
  - destruct Hc as (i & s & Hu & ->). pose proof (usable_lookup _ _ _ _ Hu) as Hi. destruct Hu as [-> ->].
    rewrite bool_decide_eq_true_2 by done. destruct Hs as (g & h & s0 & ms & s' & d & Hg & Hh & Hp & Hse & Hbl & HP & ->).
    by apply (open_crypt_read_ok filename r i s w (disk w) g h s0 ms s' d).
  - simpl in Hc. subst pw. rewrite bool_decide_eq_false_2 by (by intros []). unfold saved in Hs. subst data.
    unfold open_plain_read. cbn [fd].
    destruct (plain_header (disk w) (preamble None t ++ P)) as (f & b & E & Hb & Hfd). rewrite E, Hb.
    change (str_starts_with_case_sensitive HEADER_PLAIN HEADER_CRYPTED) with false. cbv iota.
    rewrite bool_decide_eq_true_2 by done.
    match goal with |- context [unrealdb_read_int64 ?c] => set (c0 := c) end.
    assert (reads c0 (record_bytes (R64 t) ++ P)) as H0.
    { constructor; try done. unfold c0. cbn [crypted set_fd fd fseek f_pos f_data]. rewrite Hfd. by rewrite drop_app_ge. }
    destruct (read_int64_ok _ _ _ H0 Ht) as (c1 & -> & H1). cbn [rbind].
    eexists _, _. split; [done|]. split_and!; try done. destruct H1 as [? ? ?]. by constructor.
Qed.

(** ** Writing that may fail

    Whatever the disk, the system and the memory for argon2 do, opening a file for
    writing, writing records and closing it end with a result. *)

Record writable (c : UnrealDB) : Prop := Writable {
  wr_mode : mode c = UNREALDB_MODE_WRITE;
  wr_state : crypted c = true → (length (buf c) < CHUNK)%nat ∧ is_Some (st c)
}.

Lemma write_body_safe c b :
  writable c → crypted c = true →
  ∃ o, write_body (c, b) = Ok o ∧
    match o with
    | Next (c', b') => writable c' ∧ crypted c' = true ∧ (length b' < length b)%nat
    | Done (c', _) => writable c'
    end.
Proof.
  intros [Hm Hs] Hc. destruct (Hs Hc) as [Hb [s Hst]]. unfold write_body. rewrite Hst.
  destruct (Nat.ltb_spec (length (buf c) + length b) CHUNK) as [Hlt|Hge].
  { eexists. split; [done|]. constructor; [done|]. intros _. cbn [set_buf buf st]. by rewrite length_app, Hst. }
  set (av := (CHUNK - length (buf c))%nat).
  destruct (push_ok s (buf c ++ take av b) false) as (s' & out & -> & _ & _); [rewrite length_app, length_take; unfold av; unfold CHUNK in *; lia|].
  destruct (fwrite out (fd c)) as [f n]. destruct (negb _).
  { eexists. split; [done|]. constructor; [done|]. intros _. split; [exact Hb|done]. }
  destruct (Nat.ltb_spec 0 (length (drop av b))); eexists; (split; [done|]).
  - assert (writable (set_buf [] (set_fd f (set_st s' c)))) as Hw.
    { constructor; [done|]. intros _. cbn [set_buf set_fd set_st buf st length]. split; [lia|done]. }
    split_and!; [done|done|]. rewrite length_drop. unfold av. lia.
  - constructor; [done|]. intros _. cbn [set_buf set_fd set_st buf st length]. split; [lia|done].
Qed.

Lemma write_safe c b : writable c → ∃ c' ok, unrealdb_write c b = Ok (c', ok) ∧ writable c'.
Proof.
  intros Hw. unfold unrealdb_write. destruct (negb (bool_decide (error_code c = _))); [by eexists _, _|].
  rewrite bool_decide_eq_true_2 by apply Hw. cbn [negb]. destruct (crypted c) eqn:Hc; cbn [negb].
  - destruct (loop_total write_body (λ s, writable s.1 ∧ crypted s.1 = true) (λ s, length s.2) (λ r, writable r.1))
      with (fuel := (length b + 1)%nat) (s := (c, b)) as ([c' ok] & E & H); [|done|simpl; lia|by exists c', ok].
    intros [c1 b1] [H1 H2]. destruct (write_body_safe c1 b1 H1 H2) as (o & -> & Ho). exists o. split; [done|].
    destruct o as [[c2 b2]|[c2 ok]]; [by destruct Ho as (? & ? & ?)|done].
  - assert (∀ f, writable (set_fd f c)) as Hf by (intros f; destruct Hw as [Hm Hs]; by constructor).
    destruct (fwrite b (fd c)) as [f n]. destruct (negb _); [|by eexists _, _].
    eexists _, _. split; [done|]. destruct (Hf f) as [Hm Hs]. by constructor.
Qed.

Lemma write_record_safe c r : writable c → ∃ c' ok, write_record c r = Ok (c', ok) ∧ writable c'.
Proof.
  intros Hw. destruct r as [z|z|z|z|[x|]]; cbn [write_record]; try (by apply write_safe).
  unfold unrealdb_write_str. destruct (65535 <=? _); [eexists _, _; split; [done|]; destruct Hw; by constructor|].
  destruct (write_safe c (le_bytes 2 (Z.of_nat (length x))) Hw) as (c1 & ok & E & H1). unfold unrealdb_write_int16. rewrite E.
  cbn [rbind]. destruct ok; cbn [negb]; [|by eexists _, _]. destruct (0 <? length x)%nat; [by apply write_safe|by eexists _, _].
Qed.

Lemma write_all_safe rs c : writable c → ∃ c' ok, write_all c rs = Ok (c', ok) ∧ writable c'.
Proof.
  revert c. induction rs as [|r rs IH]; intros c Hw; cbn [write_all]; [by eexists _, _|].
  destruct (write_record_safe c r Hw) as (c1 & ok & -> & H1). cbn [rbind]. destruct ok; [by apply IH|by eexists _, _].
Qed.

Lemma fclose_secrets filename c w : secrets (fclose filename c w) = secrets w.
Proof. unfold fclose. by destruct (mode c). Qed.

Lemma close_safe filename close_ok c w :
  writable c → ∃ w' ok, unrealdb_close filename close_ok c w = Ok (w', ok) ∧ secrets w' = secrets w.
Proof.
  intros [Hm Hs]. unfold unrealdb_close. rewrite Hm. destruct (crypted c).
  - destruct (Hs eq_refl) as [Hb [s ->]]. destruct (push_ok s (buf c) true) as (s' & out & -> & _); [unfold CHUNK in *; lia|].
    destruct (fwrite out (fd c)) as [f n]. eexists _, _. split; [done|]. apply fclose_secrets.
  - eexists _, _. split; [done|]. apply fclose_secrets.
Qed.

Lemma open_fail_safe filename c e w : secrets_ok w →
  ∃ w' o, open_fail filename c e w = Ok (w', o) ∧ secrets_ok w' ∧ match o with inl c => writable c | inr _ => True end.
Proof. intros Hw. eexists _, _. split; [done|]. split; [|done]. unfold secrets_ok. by rewrite fclose_secrets. Qed.

Lemma open_crypt_write_safe filename r i secr f w :
  secrets_ok w → secrets w !! i = Some secr → length (random_salt r) = UNREALDB_SALT_LEN →
  ∃ w' o, open_crypt_write filename r i secr (DB f UNREALDB_MODE_WRITE true 0 None [] UNREALDB_ERROR_SUCCESS None) w = Ok (w', o) ∧
    secrets_ok w' ∧ match o with inl c => writable c | inr _ => True end.
Proof.
  intros Hw Hi Hr. assert (secret_ok secr) as Hs by (unfold secrets_ok in Hw; rewrite Forall_lookup in Hw; by eapply Hw).
  unfold open_crypt_write. destruct (fwrite _ _) as [f1 n1]. destruct (negb _); [by apply open_fail_safe|].
  pose proof (choose_config (Chance (random_salt r) (random_header r) (denied r) false) secr Hs Hr eq_refl) as Hc.
  cbn [random_salt no_memory] in Hc. destruct (match s_cache secr with [] => _ | _ => _ end) as [g0 cached].
  destruct Hc as (g & Eg & Hg & Hb & Hk). rewrite Hk. cbn [require rbind Z.eqb negb].
  destruct (fwrite (config_bytes g0) _) as [f2 n2]. destruct (negb _); [by apply open_fail_safe|].
  assert ((if cached then Ok (inl g0) else unrealdb_kdf (no_memory r) g0 (s_password secr)) = Ok (inl g) ∨
          ∃ e, (if cached then Ok (inl g0) else unrealdb_kdf (no_memory r) g0 (s_password secr)) = Ok (inr e)) as [-> | [e ->]].
  { destruct cached; [by left|]. destruct (no_memory r); [right|by left]. unfold unrealdb_kdf in *. rewrite Hk in *.
    cbn [Z.eqb negb UNREALDB_KDF_ARGON2ID] in *. change (1 =? 1) with true in *. cbn [negb] in *.
    destruct (require (m_cost g0 <? 31)); [by eexists|done..]. }
  2: { cbn [rbind]. by apply open_fail_safe. }
  cbn [rbind]. rewrite (config_key_length _ _ Hg), Nat.leb_refl. cbn [require rbind].
  destruct (init_push _ _) as [s0 h]. destruct (fwrite h _) as [f3 n3]. destruct (negb _); [by apply open_fail_safe|].
  match goal with |- context [unrealdb_write_str ?c _] => set (c0 := c) end.
  assert (writable c0) as H0 by (constructor; [done|]; intros _; split; [apply Nat.lt_0_succ|done]).
  destruct (write_record_safe c0 (RStr (Some VALIDATE)) H0) as (c1 & ok1 & E1 & H1). cbn [write_record] in E1. rewrite E1. cbn [rbind].
  destruct ok1; cbn [negb]; [|by apply open_fail_safe].
  destruct (write_record_safe c1 (R64 (TStime w)) H1) as (c2 & ok2 & E2 & H2). cbn [write_record] in E2. rewrite E2. cbn [rbind].
  destruct ok2; cbn [negb]; [|by apply open_fail_safe]. eexists _, _. split; [done|]. split; [|done].
  destruct cached; [done|]. apply (set_cache_ok i secr); [done..|]. apply add_cache_ok; [done|]. apply Hs.
Qed.

Lemma open_write_safe filename block r w :
  secrets_ok w → length (random_salt r) = UNREALDB_SALT_LEN →
  ∃ w' o, unrealdb_open filename UNREALDB_MODE_WRITE block r w = Ok (w', o) ∧ secrets_ok w' ∧
    match o with inl c => writable c | inr _ => True end.
Proof.
  intros Hw Hr. unfold unrealdb_open. destruct block as [name|].
  - destruct (find_secret 0 (secrets w) name) as [[i secr]|] eqn:Ef; [|by eexists _, _].
    destruct (valid_secret_password _); [|by eexists _, _]. destruct (denied r); [by eexists _, _|].
    rewrite bool_decide_eq_true_2 by done. destruct (find_secret_lookup _ _ _ _ _ Ef) as (k & -> & Hk). by apply open_crypt_write_safe.
  - destruct (denied r); [by eexists _, _|]. rewrite bool_decide_eq_false_2 by (by intros []). unfold open_plain_write. cbn [fd].
    destruct (fwrite _ _) as [f n]. destruct (negb _); [by apply open_fail_safe|].
    match goal with |- context [unrealdb_write_int64 ?c _] => set (c0 := c) end.
    destruct (write_record_safe c0 (R64 (TStime w))) as (c1 & ok & E & H1); [by constructor|]. cbn [write_record] in E. rewrite E.
    cbn [rbind]. destruct ok; [by eexists _, _|by apply open_fail_safe].
Qed.

(** C22.  Database files.  Records written to a new file, plain or encrypted, are read
    back after closing and opening the file again, with the time it was made, also by a
    program that has lost its cache of keys; the cache only ever holds keys of the
    password.  Records are integers of their widths and strings of at most 10000 bytes
    without NUL, or NULL: longer strings are written, but not read
    ([long_string_unreadable]).  The system opens the file both times, argon2 gets its
    memory, and the disk has room. *)
Theorem unrealdb_roundtrip filename block pw r r' w rs :
  secrets_ok w → can_open w block pw → granted r → granted r' →
  length (random_salt r) = UNREALDB_SALT_LEN → 0 ≤ TStime w < 2 ^ 64 → Forall record_ok rs →
  (1200 + 2 * length (stream rs) ≤ disk w)%nat →
  ∃ w1 c c1 w2, unrealdb_open filename UNREALDB_MODE_WRITE block r w = Ok (w1, inl c) ∧
    write_all c rs = Ok (c1, true) ∧ unrealdb_close filename true c1 w1 = Ok (w2, true) ∧ secrets_ok w2 ∧
    ∀ v, secrets_ok v → can_open v block pw → files v !! filename = files w2 !! filename →
      ∃ v' d d1, unrealdb_open filename UNREALDB_MODE_READ block r' v = Ok (v', inl d) ∧ creationtime d = TStime w ∧
        read_all rs d = Ok (d1, Some rs) ∧ secrets_ok v' ∧ files v' = files v.
Proof.
  intros Hw Hc Hd Hd' Hr Ht Hrs HR.
  destruct (open_write_ok filename block pw r w Hw Hc Hd Hr Ht ltac:(lia)) as (w1 & c & E1 & Hwr & Hf1 & Hs1).
  destruct (writing_all _ _ _ _ _ rs Hwr Hrs ltac:(simpl; lia)) as (c1 & E2 & Hwr1). simpl in Hwr1.
  destruct (close_ok _ _ _ _ _ filename w1 Hwr1 HR) as (data & E3 & Hsv).
  exists w1, c, c1, (set_files (<[filename := data]> (files w1)) w1). split_and!; try done.
  intros v Hv Hcv Hfv. cbn [files set_files] in Hfv. rewrite lookup_insert_eq in Hfv.
  destruct (open_read_ok filename block pw r' v data (TStime w) (stream rs) Hv Hcv Hd' Hfv Ht Hsv)
    as (v' & d & E4 & Ht4 & Hrd & Hf4 & Hs4).
  rewrite <-(app_nil_r (stream rs)) in Hrd. destruct (read_all_ok rs d [] Hrd Hrs) as (d1 & E5 & _).
  by exists v', d, d1.
Qed.

(** ** Any bytes *)

Definition db_ok (c : UnrealDB) : Prop := crypted c = true → is_Some (st c).

Lemma read_loop_safe fuel c len out :
  is_Some (st c) → (length (drop (f_pos (fd c)) (f_data (fd c))) < fuel)%nat →
  ∃ c' o, loop read_body fuel (c, len, out) = Ok (c', o) ∧ is_Some (st c') ∧
    (∀ b, o = Some b → length b = (length out + len)%nat) ∧ (o = None → error_code c' = UNREALDB_ERROR_IO).
Proof.
  intros Hc Hf.
  destruct (loop_total read_body
    (λ s, is_Some (st s.1.1) ∧ (length s.2 + s.1.2 = length out + len)%nat)
    (λ s, length (drop (f_pos (fd s.1.1)) (f_data (fd s.1.1))))
    (λ r, is_Some (st r.1) ∧ (∀ b, r.2 = Some b → length b = (length out + len)%nat) ∧
          (r.2 = None → error_code r.1 = UNREALDB_ERROR_IO))) with (fuel := fuel) (s := (c, len, out))
    as ([c' o] & E & HQ); [|done|done|by exists c', o].
  clear c Hc Hf fuel. intros [[c n] acc] [[s Hs] Hl]. simpl in Hs, Hl. unfold read_body, fread.
  set (inp := take IN_SIZE (drop (f_pos (fd c)) (f_data (fd c)))).
  case_bool_decide as Hi; [eexists; split; [done|]; simpl; by rewrite Hs|].
  change (st (set_fd _ c)) with (st c). rewrite Hs.
  destruct (pull s inp) as [[m s']|] eqn:Ep; [|eexists; split; [done|]; simpl; by rewrite Hs].
  apply pull_length in Ep as Hlen. assert (length inp ≤ IN_SIZE)%nat as Hin by (unfold inp; rewrite length_take; lia).
  rewrite IN_SIZE_val in Hin. rewrite (proj2 (Nat.ltb_ge CHUNK (length m))) by lia.
  destruct (Nat.ltb_spec (length m) n) as [Hlt|Hge].
  - destruct (feof _); (eexists; split; [done|]); simpl; [by split_and!|].
    rewrite length_app. split; [split; [done|lia]|].
    assert (0 < length inp)%nat by (destruct inp; [done|simpl; lia]).
    rewrite !length_drop. unfold inp in *. rewrite length_take, length_drop in *. lia.
  - eexists. split; [done|]. simpl. split_and!; [done| |done]. intros b [= <-]. rewrite length_app, length_take. lia.
Qed.

Lemma read_safe c len : db_ok c →
  ∃ c' o, unrealdb_read c len = Ok (c', o) ∧ db_ok c' ∧ (∀ b, o = Some b → length b = len) ∧
    (o = None → error_code c' ≠ UNREALDB_ERROR_SUCCESS).
Proof.
  intros Hc. unfold unrealdb_read. case_bool_decide as He; cbn [negb]; [|by exists c, None].
  case_bool_decide as Hm; cbn [negb]; [|eexists _, None; split_and!; [done..| |done]; done].
  destruct (crypted c) eqn:Hcr; cbn [negb].
  - set (av := Nat.min (length (buf c)) len). destruct ((0 <? length (buf c))%nat && (len - av =? 0)%nat) eqn:Ea.
    + apply andb_true_iff in Ea as [_ Ea%Nat.eqb_eq]. eexists _, _. split; [done|]. split_and!; [done| |done].
      intros b [= <-]. rewrite length_take. unfold av in *. lia.
    + assert (drop av (buf c) = []) as Hb.
      { apply andb_false_iff in Ea. rewrite Nat.ltb_ge, Nat.eqb_neq in Ea. apply length_zero_iff_nil.
        rewrite length_drop. unfold av in *. lia. }
      cbn [buf set_buf]. rewrite bool_decide_eq_true_2 by done. cbn [require rbind].
      destruct (read_loop_safe (length (f_data (fd c)) + 1) (set_buf (drop av (buf c)) c) (len - av) (take av (buf c)))
        as (c' & o & E & Hs & Hlo & Hno); [by apply Hc|simpl; rewrite length_drop; lia|].
      exists c', o. split_and!; [done|by intros _| |intros Ho; by rewrite (Hno Ho)]. intros b Hb'. rewrite (Hlo b Hb'), length_take. unfold av. lia.
  - unfold fread. destruct (Nat.ltb_spec (length (take len (drop (f_pos (fd c)) (f_data (fd c))))) len) as [Hl|Hl];
      (eexists _, _; split; [done|]).
    + split_and!; [by intros H; simpl in H; congruence|done|done].
    + split_and!; [by intros H; simpl in H; congruence| |done]. intros b [= <-]. rewrite length_take in *. lia.
Qed.

Lemma read_record_safe r c : db_ok c → ∃ c' o, read_record r c = Ok (c', o) ∧ db_ok c'.
Proof.
  intros Hc. assert (∀ n, ∃ c' o, read_int n c = Ok (c', o) ∧ db_ok c') as Hi.
  { intros n. unfold read_int. destruct (read_safe c n Hc) as (c' & o & -> & Hc' & _). by eexists _, _. }
  destruct r as [z|z|z|z|x]; cbn [read_record];
    [destruct (Hi 8%nat) as (c' & o & E & Hc')|destruct (Hi 4%nat) as (c' & o & E & Hc')
    |destruct (Hi 2%nat) as (c' & o & E & Hc')|destruct (Hi 1%nat) as (c' & o & E & Hc')|];
    unfold unrealdb_read_int64, unrealdb_read_int32, unrealdb_read_int16, unrealdb_read_char; try (rewrite E; by eexists _, _).
  destruct (Hi 2%nat) as (c' & o & E & Hc'). unfold unrealdb_read_str, unrealdb_read_int16. rewrite E. cbn [rbind].
  destruct o as [n|]; [|by eexists _, _]. destruct (n =? 65535); [by eexists _, _|].
  destruct (n =? 0); [by eexists _, _|]. destruct (10000 <? n); [by eexists _, _|].
  destruct (read_safe c' (Z.to_nat n) Hc') as (c2 & o & -> & Hc2 & _). cbn [rbind]. destruct o; by eexists _, _.
Qed.

Lemma read_all_safe rs c : db_ok c → ∃ c' o, read_all rs c = Ok (c', o) ∧ db_ok c'.
Proof.
  revert c. induction rs as [|r rs IH]; intros c Hc; simpl; [by eexists _, _|].
  destruct (read_record_safe r c Hc) as (c' & o & -> & Hc'). cbn [rbind]. destruct o; [|by eexists _, _].
  destruct (IH c' Hc') as (c2 & o & -> & Hc2). by eexists _, _.
Qed.

(** A stream that is shorter than what is asked for. *)
Lemma read_loop_short fuel c len out Q :
  reads c Q → crypted c = true → buf c = [] → (length Q < len)%nat →
  (length (drop (f_pos (fd c)) (f_data (fd c))) < fuel)%nat →
  ∃ c', loop read_body fuel (c, len, out) = Ok (c', None) ∧ error_code c' = UNREALDB_ERROR_IO.
Proof.
  revert c len out Q. induction fuel as [|fuel IH]; intros c len out Q [Hm He Hd] Hc Hb Hlen Hf; [lia|].
  rewrite Hc in Hd. destruct Hd as (ms & s & s' & d & Hst & Hs & Hdd & Hbl & ->). rewrite Hb in *. simpl app in *.
  cbn [loop]. destruct Hs as [s|s m f s1 ct ms s2 d Hml Hp Hs].
  { unfold read_body, fread. rewrite Hdd. simpl. by eexists. }
  destruct (push_inv s m f s1 ct Hml Hp) as [Hct Hpull]. destruct Hbl as [|[Hbl Heof]]; [done|].
  assert (length ct = IN_SIZE ∧ blocks ms ∨ (length ct < IN_SIZE)%nat ∧ d = [] ∧ ms = [])%nat as Hcase.
  { rewrite IN_SIZE_val. destruct Hs as [|]; [right|left].
    - simpl in Hbl. split_and!; [lia|done..].
    - destruct Hbl as [Hl Hbl]. split_and!; [lia|done..]. }
  destruct (fread_app IN_SIZE (fd c) ct d Hdd) as (f' & Hfr & Hfd & Hfdrop & Hfe);
    [destruct Hcase as [(? & _)|(? & ? & _)]; auto|].
  unfold read_body at 1. rewrite Hfr.
  rewrite bool_decide_eq_false_2 by (intros ->; simpl in Hct; unfold ABYTES in Hct; lia).
  change (st (set_fd f' c)) with (st c). rewrite Hst, Hpull. rewrite (proj2 (Nat.ltb_ge CHUNK (length m))) by done.
  simpl concat in Hlen. rewrite length_app in Hlen. rewrite (proj2 (Nat.ltb_lt (length m) len)) by lia.
  unfold feof. rewrite Hfe, Heof. cbn [orb]. destruct Hcase as [(Hl & Hbl')|(Hl & _ & ->)].
  - rewrite Hl, Nat.ltb_irrefl.
    apply (IH (set_st s1 (set_fd f' c)) (len - length m)%nat (out ++ m) (concat ms)); try done; [|lia|].
    + constructor; try done. cbn [crypted set_st set_fd]. rewrite Hc. exists ms, s1, s2, d. cbn [buf set_st set_fd].
      rewrite Hb. split_and!; try done. right. split; [done|]. cbn [fd set_st set_fd]. by rewrite Hfe, Heof, Hl, Nat.ltb_irrefl.
    + cbn [fd set_st set_fd]. rewrite Hfdrop. rewrite Hdd, length_app in Hf. unfold ABYTES in Hct. lia.
  - rewrite (proj2 (Nat.ltb_lt _ _) Hl). by eexists.
Qed.

Lemma read_short c P len :
  reads c P → (length P < len)%nat → ∃ c', unrealdb_read c len = Ok (c', None) ∧ error_code c' = UNREALDB_ERROR_IO.
Proof.
  intros Hr Hlen. pose proof Hr as [Hm He Hd]. unfold unrealdb_read. rewrite !bool_decide_eq_true_2 by done. cbn [negb].
  destruct (crypted c) eqn:Hc; cbn [negb].
  - destruct Hd as (ms & s & s' & d & Hst & Hs & Hdd & Hbl & ->). rewrite length_app in Hlen.
    rewrite Nat.min_l by lia. replace (len - length (buf c) =? 0)%nat with false by (symmetry; apply Nat.eqb_neq; lia).
    rewrite andb_false_r. cbn [buf set_buf]. rewrite drop_all. rewrite bool_decide_eq_true_2 by done. cbn [require rbind].
    eapply (read_loop_short _ _ _ _ (concat ms)); try done; [|lia|cbn [fd set_buf]; rewrite length_drop; lia].
    constructor; try done. cbn [crypted set_buf]. rewrite Hc. by exists ms, s, s', d.
  - unfold fread. rewrite Hd, take_ge by lia. rewrite (proj2 (Nat.ltb_lt _ _) Hlen). by eexists.
Qed.

(** C34.  Damaged files.  Whatever the bytes of a file are, reading records from it
    never leaves a buffer; a stream that ends too early is an error; and after an
    error every further read or write fails and does not touch the file. *)
Theorem unrealdb_errors :
  (∀ rs c, db_ok c → ∃ c' o, read_all rs c = Ok (c', o) ∧ db_ok c') ∧
  (∀ c P len, reads c P → (length P < len)%nat →
     ∃ c', unrealdb_read c len = Ok (c', None) ∧ error_code c' = UNREALDB_ERROR_IO) ∧
  (∀ c r, error_code c ≠ UNREALDB_ERROR_SUCCESS →
     read_record r c = Ok (c, None) ∧
     ∃ c', write_record c r = Ok (c', false) ∧ error_code c' ≠ UNREALDB_ERROR_SUCCESS ∧ fd c' = fd c).
Proof.
  split; [apply read_all_safe|]. split; [apply read_short|]. intros c r He.
  assert (∀ n, unrealdb_read c n = Ok (c, None)) as Hr.
  { intros n. unfold unrealdb_read. by rewrite bool_decide_eq_false_2. }
  assert (∀ b, unrealdb_write c b = Ok (c, false)) as Hw.
  { intros b. unfold unrealdb_write. by rewrite bool_decide_eq_false_2. }
  split.
  - destruct r; cbn [read_record]; unfold unrealdb_read_str, unrealdb_read_int64, unrealdb_read_int32,
      unrealdb_read_int16, unrealdb_read_char, read_int; by rewrite Hr.
  - destruct r as [z|z|z|z|[x|]]; cbn [write_record]; unfold unrealdb_write_str, unrealdb_write_int64,
      unrealdb_write_int32, unrealdb_write_int16, unrealdb_write_char;
      try (exists c; by rewrite Hw).
    destruct (65535 <=? Z.of_nat (length x)); [by eexists|]. exists c. by rewrite Hw.
Qed.

(** A string of more than 10000 bytes is written without an error and cannot be
    read; the reader is then in the middle of the string, without an error. *)
Lemma long_string_unreadable c x P :
  10000 < Z.of_nat (length x) < 65535 → reads c (record_bytes (RStr (Some x)) ++ P) →
  ∃ c', unrealdb_read_str c = Ok (c', None) ∧ error_code c' = UNREALDB_ERROR_SUCCESS ∧ reads c' (x ++ P).
Proof.
  intros Hx Hr. cbn [record_bytes] in Hr. rewrite <-app_assoc in Hr.
  destruct (read_int_ok 2 c (Z.of_nat (length x)) (x ++ P) ltac:(lia) ltac:(simpl; lia) Hr) as (c' & E & Hr').
  exists c'. unfold unrealdb_read_str, unrealdb_read_int16. rewrite E. cbn [rbind].
  rewrite (proj2 (Z.eqb_neq _ 65535)), (proj2 (Z.eqb_neq _ 0)), (proj2 (Z.ltb_lt 10000 _)) by lia.
  split_and!; [done|apply Hr'|done].
Qed.
End Streams.

(** ** Examples

    A stream "cipher" that appends a counter to every message. *)

Definition toy_mac (n : nat) : list Z := replicate ABYTES (Z.of_nat n mod 256).
#[local] Instance toy : Crypto := {
  cstate := nat;
  init_push _ _ := (0%nat, replicate HEADERBYTES 1);
  push n m _ := Some (S n, m ++ toy_mac n);
  init_pull _ _ := Some 0%nat;
  pull n c := if (length c <? ABYTES)%nat then None
              else if bool_decide (drop (length c - ABYTES) c = toy_mac n)
                   then Some (take (length c - ABYTES) c, S n) else None;
  argon2id_hash_raw _ _ _ _ _ len := Some (replicate (Z.to_nat len) 7)
}.
#[local] Instance toy_laws : CryptoLaws toy.
Proof.
  constructor.
  - intros n m f _. exists (S n), (m ++ toy_mac n). cbn [push pull toy]. rewrite length_app.
    assert (length (toy_mac n) = ABYTES) as Hl by (unfold toy_mac; by rewrite length_replicate). rewrite Hl.
    split_and!; [done..|]. rewrite (proj2 (Nat.ltb_ge _ _)) by lia. rewrite Nat.add_sub, drop_app_length, take_app_length.
    by rewrite bool_decide_eq_true_2.
  - intros key rnd s h _ [= <- <-]. done.
  - intros n c m n'. cbn [pull toy]. destruct (Nat.ltb_spec (length c) ABYTES); [done|]. case_bool_decide; [|done].
    intros [= <- <-]. rewrite length_take. lia.
  - intros t m p pw salt n k [= <-]. by rewrite length_replicate.
  - intros. by eexists.
Qed.

Definition demo_secret : Secret := MkSecret (bs "db") (bs "Passw0rd-for-db") [].
Definition demo_world : world := World ∅ [demo_secret] 1700000000 (Z.to_nat 1400).
Definition demo_chance : chance := Chance (replicate 16 5) [] false false.
Definition demo_records : list record := [R64 5; RStr (Some (bs "hello")); RStr None; R32 7].

Lemma unrealdb_roundtrip_witness :
  secrets_ok demo_world ∧ can_open demo_world (Some (bs "DB")) (Some (bs "Passw0rd-for-db")) ∧
  ∃ w1 c c1 w2, unrealdb_open (bs "x.db") UNREALDB_MODE_WRITE (Some (bs "DB")) demo_chance demo_world = Ok (w1, inl c) ∧
    write_all c demo_records = Ok (c1, true) ∧ unrealdb_close (bs "x.db") true c1 w1 = Ok (w2, true) ∧ secrets_ok w2 ∧
    ∀ v, secrets_ok v → can_open v (Some (bs "DB")) (Some (bs "Passw0rd-for-db")) →
      files v !! bs "x.db" = files w2 !! bs "x.db" →
      ∃ v' d d1, unrealdb_open (bs "x.db") UNREALDB_MODE_READ (Some (bs "DB")) demo_chance v = Ok (v', inl d) ∧
        creationtime d = 1700000000 ∧ read_all demo_records d = Ok (d1, Some demo_records) ∧ secrets_ok v' ∧ files v' = files v.
Proof.
  assert (secrets_ok demo_world) as H1 by (repeat constructor).
  assert (can_open demo_world (Some (bs "DB")) (Some (bs "Passw0rd-for-db"))) as H2
    by (exists 0%nat, demo_secret; repeat split).
  split; [exact H1|]. split; [exact H2|].
  apply (unrealdb_roundtrip (bs "x.db") (Some (bs "DB")) _ demo_chance demo_chance demo_world demo_records H1 H2);
    [by split|by split|reflexivity|simpl; lia| |apply Nat.leb_le; vm_compute; reflexivity].
  repeat constructor; simpl; lia.
Defined.

Lemma unrealdb_errors_witness :
  ∃ c', unrealdb_read (DB (File [1; 2; 3] 0 false 0) UNREALDB_MODE_READ false 0 None [] UNREALDB_ERROR_SUCCESS None) 4
        = Ok (c', None) ∧ error_code c' = UNREALDB_ERROR_IO.
Proof.
  apply (proj1 (proj2 unrealdb_errors) _ [1; 2; 3] 4%nat); [constructor; reflexivity|simpl; lia].
Defined.

(** A file whose header promises a key that is too short, or a memory cost that
    does not fit: the key is read behind its end, or the shift overflows. *)
Definition bad_header (m_cost keylen : Z) : list Z :=
  pad32 HEADER_CRYPTED_V1 ++ config_bytes (Config 1 4 m_cost 2 0 [] 1 keylen []) ++ replicate HEADERBYTES 1.
Definition bad_open (m_cost keylen : Z) : res (world * (UnrealDB + UnrealDBError)) :=
  unrealdb_open (bs "x.db") UNREALDB_MODE_READ (Some (bs "db")) demo_chance
    (set_files {[ bs "x.db" := bad_header m_cost keylen ]} demo_world).
Lemma damaged_header_unsafe : bad_open 15 16 = UB ∧ bad_open 40 32 = UB.
Proof.
  assert (∀ {A} (r : res A), match r with UB => true | _ => false end = true → r = UB) as H by (intros A []; done).
  split; apply H; vm_compute; reflexivity.
Qed.
