(* ===== verification/HistoryLog.v ===== *)
(** * The log of one channel (src/modules/history_backend_mem.c)

    A history object: the lines of a channel in the order of their times, with a
    limit on their number and age.  Adding lines and multiline batches, expiry, the
    six kinds of requests and deletion.  The doubly linked list of lines is the
    list from the head to the tail, and a pointer into it is a position.

    The lines stay in order, the counters are exact, the limits hold; each kind of
    request returns the lines its name says, and paging reaches every line. *)

From stdpp Require Import base tactics list numbers strings sorting.
From Stdlib Require Import ZArith Lia.
From S2P Require Import Prelude Chars Support MessageTags Times.

Local Open Scope Z_scope.

(** ** Lines *)

(** A further line of a multiline batch. *)
Record BatchLine := Batch { b_line : list Z; b_concat : Z; b_mtags : list MessageTag }.

Record HistoryLogLine := Line {
  l_batch : list BatchLine;
  l_num_lines : Z;
  l_num_bytes : Z;
  l_concat : Z;
  l_t : Z;
  l_msgid : list Z;
  l_time : option (list Z);
  l_mtags : list MessageTag;
  l_line : list Z
}.

Record HistoryLogObject := Object {
  h_lines : list HistoryLogLine;
  h_num_lines : Z;
  h_oldest_t : Z;
  h_max_lines : Z;
  h_max_time : Z;
  h_dirty : bool;
  h_name : list Z
}.

(** The clock, with [TStime], and a random message id. *)
Record moment := Moment { tv_sec : Z; tv_usec : Z; TStime : Z; random_msgid : list Z }.

Fixpoint find_mtag (mtags : list MessageTag) (token : list Z) : option MessageTag :=
  match mtags with
  | [] => None
  | m :: r => if strcmp (t_name m) token =? 0 then Some m else find_mtag r token
  end.

(** [strcmp] with a pointer that may be NULL. *)
Definition strcmp_ptr (a : option (list Z)) (b : list Z) : res Z :=
  match a with Some a => Ok (strcmp a b) | None => UB end.

(** The tags of a line, its time in seconds and as text, and its id. *)
Definition hbm_duplicate_mtags (now : moment) (m : list MessageTag)
  : res (list MessageTag * Z * option (list Z) * list Z) :=
  let! (mtags, time) :=
    match find_mtag m (bs "time") with
    | Some n => Ok (m, t_value n)
    | None =>
        let! buf := timestamp_iso8601_now (tv_sec now) (tv_usec now) in
        Ok (MTag (bs "time") (Some buf) :: m, Some buf)
    end in
  let! t := server_time_to_unix_time time in
  let '(mtags, msgid) :=
    match find_mtag mtags (bs "msgid") with
    | Some (MTag _ (Some v)) => (mtags, v)
    | _ => (MTag (bs "msgid") (Some (random_msgid now)) :: mtags, random_msgid now)
    end in
  Ok (mtags, t, time, msgid).

(** ** Adding *)

Definition set_lines ls n h := Object ls n (h_oldest_t h) (h_max_lines h) (h_max_time h) (h_dirty h) (h_name h).
Definition set_oldest o h := Object (h_lines h) (h_num_lines h) o (h_max_lines h) (h_max_time h) (h_dirty h) (h_name h).
Definition set_limits ml mt h := Object (h_lines h) (h_num_lines h) (h_oldest_t h) ml mt (h_dirty h) (h_name h).
Definition set_dirty d h := Object (h_lines h) (h_num_lines h) (h_oldest_t h) (h_max_lines h) (h_max_time h) d (h_name h).

(** [after] is the number of lines up to the one that [n] is put behind. *)
Definition hbm_history_add_line_after_position (lines : list HistoryLogLine) (after : nat) (n : HistoryLogLine)
  : list HistoryLogLine := take after lines ++ n :: drop after lines.

(** The walk from the tail: the lines that are left when it stops, or [None] if
    the line exists already. *)
Fixpoint walk_back (l : HistoryLogLine) (back : list HistoryLogLine) : res (option nat) :=
  match back with
  | [] => Ok (Some 0%nat)
  | e :: r =>
      if l_t e <? l_t l then Ok (Some (length back))
      else if strcmp (l_msgid e) (l_msgid l) =? 0 then Ok None
      else if l_t e =? l_t l then
        match l_time l with
        | None => UB
        | Some time =>
            let! c := strcmp_ptr (l_time e) time in
            if c <=? 0 then Ok (Some (length back)) else walk_back l r
        end
      else walk_back l r
  end.
Definition hbm_history_add_line_in_time (lines : list HistoryLogLine) (l : HistoryLogLine)
  : res (option (list HistoryLogLine * nat)) :=
  let! p := walk_back l (rev lines) in
  Ok (match p with
      | Some k => Some (hbm_history_add_line_after_position lines k l, k)
      | None => None
      end).

(** The position of the new line, or [None] for a duplicate. *)
Definition hbm_history_add_line (now : moment) (h : HistoryLogObject) (mtags : list MessageTag) (line : list Z)
  : res (HistoryLogObject * option nat) :=
  let! (mtags, t, time, msgid) := hbm_duplicate_mtags now mtags in
  let l := Line [] 1 (Z.of_nat (length line)) 0 t msgid time mtags line in
  let! placed :=
    match last (h_lines h) with
    | Some tail =>
        if l_t tail <? t then Ok (Some (h_lines h ++ [l], length (h_lines h)))
        else hbm_history_add_line_in_time (h_lines h) l
    | None => Ok (Some ([l], 0%nat))
    end in
  match placed with
  | None => Ok (h, None)
  | Some (lines, k) =>
      let h := set_dirty true (set_lines lines (h_num_lines h + 1) h) in
      Ok (if (t <? h_oldest_t h) || (h_oldest_t h =? 0) then set_oldest t h else h, Some k)
  end.

(** Deleting the line at a position. *)
Definition hbm_history_del_line (h : HistoryLogObject) (k : nat) : HistoryLogObject :=
  match h_lines h !! k with
  | None => h
  | Some l => set_dirty true (set_lines (delete k (h_lines h)) (h_num_lines h - l_num_lines l) h)
  end.

(** [while (full(h->num_lines) && h->head) hbm_history_del_line(h, h->head)]; there
    are not more rounds than lines. *)
Fixpoint evict (full : Z → bool) (fuel : nat) (h : HistoryLogObject) : HistoryLogObject :=
  match fuel with
  | O => h
  | S fuel =>
      if full (h_num_lines h) && negb (bool_decide (h_lines h = [])) then evict full fuel (hbm_history_del_line h 0) else h
  end.

(** Without a limit there is one for this call and later ones. *)
Definition default_limit (h : HistoryLogObject) : HistoryLogObject :=
  if h_max_lines h =? 0 then set_limits 50 86400 h else h.

Definition hbm_history_add_to (now : moment) (h : HistoryLogObject) (mtags : list MessageTag) (line : list Z)
  : res HistoryLogObject :=
  let h := default_limit h in
  let h := evict (λ n, h_max_lines h <=? n) (length (h_lines h)) h in
  let! (h, _) := hbm_history_add_line now h mtags line in
  Ok h.

Record MLine := ML { ml_text : option (list Z); ml_concat : Z }.

(** [":%s %s %s :%s"] in a buffer of 512 bytes. *)
Definition batch_text (source cmd target : list Z) (m : MLine) : list Z :=
  take 511 ([COLON] ++ source ++ [SPACE_CH] ++ cmd ++ [SPACE_CH] ++ target ++ [SPACE_CH; COLON] ++ default [] (ml_text m)).

Definition hbm_history_add_multiline_to (now : moment) (h : HistoryLogObject) (mtags : list MessageTag)
    (source cmd target : list Z) (lines : list MLine) : res HistoryLogObject :=
  let h := default_limit h in
  match lines with
  | [] => Ok h
  | first :: rest =>
      let incoming_count := Z.of_nat (length lines) in
      let h := evict (λ n, h_max_lines h <? n + incoming_count) (length (h_lines h)) h in
      let! (h, k) := hbm_history_add_line now h mtags (batch_text source cmd target first) in
      match k with
      | None => Ok h
      | Some k =>
          let texts := map (batch_text source cmd target) rest in
          let continuation := zip_with (λ t m, Batch t (ml_concat m) []) texts rest in
          let bytes := foldr (λ t n, Z.of_nat (length t) + n) 0 texts in
          let attach l := Line continuation incoming_count (l_num_bytes l + bytes) (l_concat l) (l_t l) (l_msgid l)
                               (l_time l) (l_mtags l) (l_line l) in
          Ok (set_dirty true (set_lines (alter attach k (h_lines h)) (h_num_lines h + Z.of_nat (length rest)) h))
      end
  end.

(** ** Expiry *)

Definition older (o t : Z) : Z := if (o =? 0) || (t <? o) then t else o.

(** The loop over the lines for the time: what is kept, the count, the oldest. *)
Fixpoint expire_time (redline : Z) (lines : list HistoryLogLine) (n o : Z) : list HistoryLogLine * Z * Z :=
  match lines with
  | [] => ([], n, o)
  | l :: r =>
      if l_t l <? redline then expire_time redline r (n - l_num_lines l) o
      else let '(ls, n, o) := expire_time redline r n (older o (l_t l)) in (l :: ls, n, o)
  end.
(** The same for the number of lines; the last line is never deleted. *)
Fixpoint expire_lines (max_lines : Z) (lines : list HistoryLogLine) (n o : Z) : list HistoryLogLine * Z * Z :=
  match lines with
  | [] => ([], n, o)
  | l :: r =>
      if max_lines <? n then
        match r with
        | [] => ([l], n, o)
        | _ => expire_lines max_lines r (n - l_num_lines l) o
        end
      else let '(ls, n, o) := expire_lines max_lines r n (older o (l_t l)) in (l :: ls, n, o)
  end.

Definition replace_lines (x : list HistoryLogLine * Z * Z) (h : HistoryLogObject) : HistoryLogObject :=
  let '(ls, n, o) := x in
  let h' := set_oldest o (set_lines ls n h) in
  if (length ls =? length (h_lines h))%nat then h' else set_dirty true h'.

Definition hbm_history_cleanup (TStime : Z) (h : HistoryLogObject) : HistoryLogObject :=
  let redline := TStime - h_max_time h in
  let h := if h_oldest_t h <? redline then replace_lines (expire_time redline (h_lines h) (h_num_lines h) 0) h else h in
  if h_max_lines h <? h_num_lines h then replace_lines (expire_lines (h_max_lines h) (h_lines h) (h_num_lines h) 0) h
  else h.

(** ** Requests *)

Inductive HistoryFilterCommand := HFC_SIMPLE | HFC_BEFORE | HFC_AFTER | HFC_LATEST | HFC_AROUND | HFC_BETWEEN.
Record HistoryFilter := Filter {
  f_cmd : HistoryFilterCommand;
  last_lines : Z;
  last_seconds : Z;
  timestamp_a : option (list Z);
  msgid_a : option (list Z);
  timestamp_b : option (list Z);
  msgid_b : option (list Z);
  account : option (list Z);
  limit : Z
}.

Record HistoryResult := Result {
  r_object : list Z;
  r_log : list HistoryLogLine;
  r_num_lines : Z;
  r_num_bytes : Z;
  r_reached_end : Z
}.

Definition duplicate_log_line (now : moment) (l : HistoryLogLine) : res HistoryLogLine :=
  let! (mtags, t, time, msgid) := hbm_duplicate_mtags now (l_mtags l) in
  Ok (Line (l_batch l) (l_num_lines l) (l_num_bytes l) (l_concat l) t msgid time mtags (l_line l)).

Definition hbm_result_append_line (r : HistoryResult) (n : HistoryLogLine) : HistoryResult :=
  Result (r_object r) (r_log r ++ [n]) (r_num_lines r + l_num_lines n) (r_num_bytes r + l_num_bytes n) (r_reached_end r).
Definition hbm_result_prepend_line (r : HistoryResult) (n : HistoryLogLine) : HistoryResult :=
  Result (r_object r) (n :: r_log r) (r_num_lines r + l_num_lines n) (r_num_bytes r + l_num_bytes n) (r_reached_end r).
Definition set_reached_end (e : Z) (r : HistoryResult) : HistoryResult :=
  Result (r_object r) (r_log r) (r_num_lines r) (r_num_bytes r) e.

(** A condition of a filter on the time of a line, and one on its id. *)
Definition time_is (test : Z → bool) (ts : option (list Z)) (l : HistoryLogLine) : res bool :=
  match ts with
  | None => Ok false
  | Some ts => let! c := strcmp_ptr (l_time l) ts in Ok (test c)
  end.
Definition msgid_is (id : option (list Z)) (l : HistoryLogLine) : bool :=
  match id with None => false | Some id => strcmp (l_msgid l) id =? 0 end.

(** The loop that [hbm_return_after] and [hbm_return_before] share: [starts] and
    [stops] test the time, [add] puts a line into the result. *)
Fixpoint collect (now : moment) (f : HistoryFilter) (starts stops : Z → bool)
    (add : HistoryResult → HistoryLogLine → HistoryResult) (lines : list HistoryLogLine) (started : bool) (written : Z)
    (r : HistoryResult) : res (HistoryResult * Z) :=
  match lines with
  | [] => Ok (set_reached_end 1 r, written)
  | l :: rest =>
      let! here := if started then Ok true else time_is starts (timestamp_a f) l in
      if negb here && msgid_is (msgid_a f) l then collect now f starts stops add rest true written r
      else if here then
        let! stop := time_is stops (timestamp_b f) l in
        if stop || msgid_is (msgid_b f) l then Ok (set_reached_end 1 r, written)
        else if limit f <=? written then Ok (set_reached_end 0 r, written)
        else
          let! n := duplicate_log_line now l in
          collect now f starts stops add rest true (written + 1) (add r n)
      else collect now f starts stops add rest false written r
  end.

Definition hbm_return_after (now : moment) (r : HistoryResult) (h : HistoryLogObject) (f : HistoryFilter)
  : res (HistoryResult * Z) :=
  collect now f (λ c, 0 <? c) (λ c, 0 <=? c) hbm_result_append_line (h_lines h) false 0 r.
Definition hbm_return_before (now : moment) (r : HistoryResult) (h : HistoryLogObject) (f : HistoryFilter)
  : res (HistoryResult * Z) :=
  collect now f (λ c, c <? 0) (λ c, c <? 0) hbm_result_prepend_line (rev (h_lines h)) false 0 r.

Fixpoint latest_loop (now : moment) (f : HistoryFilter) (back : list HistoryLogLine) (written : Z) (r : HistoryResult)
  : res (HistoryResult * Z) :=
  match back with
  | [] => Ok (set_reached_end 1 r, written)
  | l :: rest =>
      let! stop := time_is (λ c, c <=? 0) (timestamp_a f) l in
      if stop || msgid_is (msgid_a f) l then Ok (set_reached_end 1 r, written)
      else if limit f <=? written then Ok (set_reached_end 0 r, written)
      else
        let! n := duplicate_log_line now l in
        latest_loop now f rest (written + 1) (hbm_result_prepend_line r n)
  end.
Definition hbm_return_latest (now : moment) (r : HistoryResult) (h : HistoryLogObject) (f : HistoryFilter)
  : res (HistoryResult * Z) := latest_loop now f (rev (h_lines h)) 0 r.

(** The lines that are young enough, all but the first [lines_to_skip]. *)
Fixpoint simple_loop (now : moment) (redline lines_to_skip : Z) (lines : list HistoryLogLine) (cnt written : Z)
    (r : HistoryResult) : res (HistoryResult * Z) :=
  match lines with
  | [] => Ok (r, written)
  | l :: rest =>
      if redline <=? l_t l then
        let cnt := cnt + 1 in
        if lines_to_skip <? cnt then
          let! n := duplicate_log_line now l in
          simple_loop now redline lines_to_skip rest cnt (written + 1) (hbm_result_append_line r n)
        else simple_loop now redline lines_to_skip rest cnt written r
      else simple_loop now redline lines_to_skip rest cnt written r
  end.
Definition hbm_return_simple (now : moment) (r : HistoryResult) (h : HistoryLogObject) (f : HistoryFilter)
  : res (HistoryResult * Z) :=
  let redline := if negb (last_seconds f =? 0) && (last_seconds f <? h_max_time h) then TStime now - last_seconds f
                 else TStime now - h_max_time h in
  let lines_sendable := Z.of_nat (length (filter (λ l, redline ≤ l_t l) (h_lines h))) in
  let lines_to_skip := if last_lines f <? lines_sendable then lines_sendable - last_lines f else 0 in
  simple_loop now redline lines_to_skip (h_lines h) 0 0 r.

(** The first loop of [hbm_return_around], from the tail: [k] is the number of
    lines in front of the current one, [started] the position of the mid-point. *)
Fixpoint around_back (now : moment) (f : HistoryFilter) (total : nat) (back : list HistoryLogLine)
    (started : option nat) (written : Z) (r : HistoryResult) : res (HistoryResult * option nat * Z) :=
  match back with
  | [] => Ok (r, started, written)
  | l :: rest =>
      let k := length rest in
      let! starts := match started with Some _ => Ok false | None => time_is (λ c, c <? 0) (timestamp_a f) l end in
      let next := if (S k <? total)%nat then Some (S k) else None in
      let is_mid := negb (bool_decide (is_Some started)) && negb starts && msgid_is (msgid_a f) l in
      if is_mid then around_back now f total rest (Some k) written r
      else
        let started := if starts then next else started in
        match started with
        | None => around_back now f total rest None written r
        | Some mid =>
            let! stop := time_is (λ c, c <? 0) (timestamp_b f) l in
            if stop || msgid_is (msgid_b f) l then Ok (r, started, written)
            else
              let! n := duplicate_log_line now l in
              let r := hbm_result_prepend_line r n in
              let written := written + 1 in
              let enough := if (S mid <? total)%nat then Z.quot (limit f) 2 else limit f - 1 in
              if enough <=? written then Ok (r, started, written) else around_back now f total rest started written r
        end
  end.

(** The second loop. *)
Fixpoint around_forward (now : moment) (f : HistoryFilter) (lines : list HistoryLogLine) (written : Z) (r : HistoryResult)
  : res (HistoryResult * Z) :=
  match lines with
  | [] => Ok (r, written)
  | l :: rest =>
      let! n := duplicate_log_line now l in
      let r := hbm_result_append_line r n in
      let written := written + 1 in
      if limit f <=? written then Ok (r, written) else around_forward now f rest written r
  end.

Definition hbm_return_around (now : moment) (r : HistoryResult) (h : HistoryLogObject) (f : HistoryFilter)
  : res (HistoryResult * Z) :=
  let! (r, started, written) := around_back now f (length (h_lines h)) (rev (h_lines h)) None 0 r in
  let! started :=
    match started, timestamp_a f, last (h_lines h) with
    | None, Some ts, Some tail =>
        if written =? 0 then
          let! requested_ts := server_time_to_unix_time (Some ts) in
          let! oldest_we_have_ts := server_time_to_unix_time (l_time tail) in
          Ok (if oldest_we_have_ts - requested_ts <? 3600 then Some 0%nat else None)
        else Ok started
    | _, _, _ => Ok started
    end in
  match started with
  | None => Ok (r, written)
  | Some k => around_forward now f (drop k (h_lines h)) written r
  end.

(** 0: backwards, 1: forwards, -1: one of the points is not there. *)
Fixpoint direction_loop (f : HistoryFilter) (lines : list HistoryLogLine) (found_a found_b : bool) : res Z :=
  match lines with
  | [] => Ok (-1)
  | l :: rest =>
      let! is_a := (if found_a then Ok false
                    else let! x := time_is (λ c, 0 <=? c) (timestamp_a f) l in Ok (x || msgid_is (msgid_a f) l)) in
      let! out := (if is_a then
                     if found_b then Ok (Some 0)
                     else match timestamp_b f with
                          | Some ts => let! c := strcmp_ptr (l_time l) ts in Ok (Some (if c <=? 0 then 1 else 0))
                          | None => Ok None
                          end
                   else Ok None) in
      match out with
      | Some d => Ok d
      | None =>
          let found_a := found_a || is_a in
          let! is_b := (if found_b then Ok false
                        else let! x := time_is (λ c, 0 <=? c) (timestamp_b f) l in Ok (x || msgid_is (msgid_b f) l)) in
          let! out := (if is_b then
                         if found_a then Ok (Some 1)
                         else match timestamp_a f, l_time l with
                              | Some ts, Some time => Ok (Some (if strcmp ts time <=? 0 then 1 else 0))
                              | Some _, None => UB
                              | None, _ => Ok None
                              end
                       else Ok None) in
          match out with
          | Some d => Ok d
          | None => direction_loop f rest found_a (found_b || is_b)
          end
      end
  end.
Definition hbm_return_between_figure_out_direction (h : HistoryLogObject) (f : HistoryFilter) : res Z :=
  match timestamp_a f, timestamp_b f with
  | Some a, Some b => Ok (if strcmp a b <=? 0 then 1 else 0)
  | _, _ => direction_loop f (h_lines h) false false
  end.

Definition hbm_return_between (now : moment) (r : HistoryResult) (h : HistoryLogObject) (f : HistoryFilter)
  : res (HistoryResult * Z) :=
  let! direction := hbm_return_between_figure_out_direction h f in
  if direction =? 1 then hbm_return_after now r h f
  else if direction =? 0 then
    hbm_return_after now r h
      (Filter HFC_BEFORE 0 0 (timestamp_b f) (msgid_b f) (timestamp_a f) (msgid_a f) None (limit f))
  else Ok (set_reached_end 1 r, 0).

(** The request on an object that was found: the log is cleaned first. *)
Definition hbm_history_request_from (now : moment) (object : list Z) (h : HistoryLogObject) (f : HistoryFilter)
  : res (HistoryLogObject * HistoryResult) :=
  let h := if h_oldest_t h <? TStime now - h_max_time h then hbm_history_cleanup (TStime now) h else h in
  let r := Result object [] 0 0 0 in
  let! (r, _) := match f_cmd f with
                 | HFC_BEFORE => hbm_return_before now r h f
                 | HFC_AFTER => hbm_return_after now r h f
                 | HFC_LATEST => hbm_return_latest now r h f
                 | HFC_AROUND => hbm_return_around now r h f
                 | HFC_BETWEEN => hbm_return_between now r h f
                 | HFC_SIMPLE => hbm_return_simple now r h f
                 end in
  Ok (h, r).

(** ** Deleting *)

(** The lines that are kept, and the numbers of deleted and rejected lines. *)
Fixpoint delete_loop (f : HistoryFilter) (lines : list HistoryLogLine) (started : bool) (n deleted rejected : Z)
  : res (list HistoryLogLine * Z * Z * Z) :=
  match lines with
  | [] => Ok ([], n, deleted, rejected)
  | l :: rest =>
      let! started := (if started then Ok true
                       else let! x := time_is (λ c, 0 <? c) (timestamp_a f) l in Ok (x || msgid_is (msgid_a f) l)) in
      let keep started n deleted rejected :=
        let! (ls, n, deleted, rejected) := delete_loop f rest started n deleted rejected in
        Ok (l :: ls, n, deleted, rejected) in
      if started then
        let! stop := time_is (λ c, 0 <=? c) (timestamp_b f) l in
        if stop || msgid_is (msgid_b f) l then Ok (lines, n, deleted, rejected)
        else
          let! mine := match account f with
                       | None => Ok true
                       | Some a => match find_mtag (l_mtags l) (bs "account") with
                                   | None => Ok false
                                   | Some m => let! c := strcmp_ptr (t_value m) a in Ok (c =? 0)
                                   end
                       end in
          if negb mine then keep true n deleted (rejected + 1)
          else
            let deleted := deleted + 1 in
            let n := n - l_num_lines l in
            if limit f <=? deleted then Ok (rest, n, deleted, rejected)
            else delete_loop f rest true n deleted rejected
      else if limit f <=? deleted then Ok (lines, n, deleted, rejected)
      else keep false n deleted rejected
  end.

Definition hbm_history_delete_from (h : HistoryLogObject) (f : HistoryFilter) : res (HistoryLogObject * Z * Z) :=
  let! (ls, n, deleted, rejected) := delete_loop f (h_lines h) false (h_num_lines h) 0 0 in
  let h := set_lines ls n h in
  Ok (if 0 <? deleted then set_dirty true h else h, deleted, rejected).

(** ** The order of lines *)

Definition text_le (a b : list Z) : Prop := strcmp a b ≤ 0.
Definition line_time (l : HistoryLogLine) : list Z := default [] (l_time l).
Definition line_le (a b : HistoryLogLine) : Prop :=
  l_t a < l_t b ∨ (l_t a = l_t b ∧ text_le (line_time a) (line_time b)).

Lemma cstr_pos s : cstr s → Forall (λ x, 0 < x) s.
Proof. intros H. eapply Forall_impl; [exact H|]. intros x Hx. unfold cchar in Hx. simpl. lia. Qed.

Lemma strcmp_zero a b : cstr a → cstr b → (strcmp a b =? 0) = bool_decide (a = b).
Proof.
  intros Ha Hb. unfold strcmp. destruct (Z.eqb_spec (cmpz a b) 0) as [E|E]; symmetry.
  - apply bool_decide_eq_true_2, cmpz_zero; try done; by apply cstr_pos.
  - apply bool_decide_eq_false_2. intros ->. by rewrite cmpz_refl in E.
Qed.

Lemma text_le_trans a b c : cstr a → cstr b → cstr c → text_le a b → text_le b c → text_le a c.
Proof.
  unfold text_le, strcmp. intros Ha%cstr_pos Hb%cstr_pos Hc%cstr_pos H1 H2.
  destruct (decide (cmpz a b = 0)) as [E|E]; [apply cmpz_zero in E as ->; done|].
  destruct (decide (cmpz b c = 0)) as [E2|E2]; [apply cmpz_zero in E2 as <-; done|].
  pose proof (cmpz_trans a b c Ha Hb Hc). lia.
Qed.
Lemma text_le_total a b : strcmp a b ≤ 0 ∨ strcmp b a ≤ 0.
Proof. unfold strcmp. rewrite (cmpz_anti b a). lia. Qed.

(** ** Well-formed lines and logs *)

Fixpoint total_lines (ls : list HistoryLogLine) : Z :=
  match ls with [] => 0 | l :: r => l_num_lines l + total_lines r end.
Definition batch_bytes (bl : list BatchLine) : Z := foldr (λ b n, Z.of_nat (length (b_line b)) + n) 0 bl.

Record line_ok (l : HistoryLogLine) : Prop := LineOk {
  lo_time : ∃ tag, find_mtag (l_mtags l) (bs "time") = Some tag ∧ t_value tag = l_time l;
  lo_text : ∃ s, l_time l = Some s ∧ cstr s;
  lo_t : server_time_to_unix_time (l_time l) = Ok (l_t l) ∧ 0 < l_t l;
  lo_msgid : ∃ tag, find_mtag (l_mtags l) (bs "msgid") = Some tag ∧ t_value tag = Some (l_msgid l);
  lo_id : cstr (l_msgid l);
  lo_lines : l_num_lines l = 1 + Z.of_nat (length (l_batch l));
  lo_bytes : l_num_bytes l = Z.of_nat (length (l_line l)) + batch_bytes (l_batch l)
}.

(** The lines are in order and counted, and the oldest time is a lower bound. *)
Record core_ok (h : HistoryLogObject) : Prop := CoreOk {
  g_lines : Forall line_ok (h_lines h);
  g_sorted : StronglySorted line_le (h_lines h);
  g_count : h_num_lines h = total_lines (h_lines h);
  g_oldest : Forall (λ l, h_oldest_t h ≤ l_t l) (h_lines h)
}.
(** No oldest time is kept for an empty log, and for a single entry that is larger
    than the limit; only such an entry may exceed the limit. *)
Record log_ok (h : HistoryLogObject) : Prop := LogOk {
  g_core : core_ok h;
  g_zero : h_oldest_t h = 0 → h_lines h = [] ∨ (∃ l, h_lines h = [l]) ∧ h_max_lines h < h_num_lines h;
  g_limit : h_num_lines h ≤ h_max_lines h ∨ (length (h_lines h) ≤ 1)%nat
}.

Lemma line_time_eq l s : l_time l = Some s → line_time l = s.
Proof. unfold line_time. by intros ->. Qed.

Lemma line_le_trans a b c : line_ok a → line_ok b → line_ok c → line_le a b → line_le b c → line_le a c.
Proof.
  intros [_ (sa & Ea & Ha) _ _ _ _ _] [_ (sb & Eb & Hb) _ _ _ _ _] [_ (sc & Ec & Hc) _ _ _ _ _].
  unfold line_le. rewrite (line_time_eq _ _ Ea), (line_time_eq _ _ Eb), (line_time_eq _ _ Ec).
  intros [|[E1 H1]] [|[E2 H2]]; [left; lia..|]. right. split; [lia|]. by apply (text_le_trans sa sb sc).
Qed.

Lemma total_lines_app a b : total_lines (a ++ b) = total_lines a + total_lines b.
Proof. induction a as [|l a IH]; simpl; [done|]. rewrite IH. lia. Qed.

Lemma total_lines_pos ls : Forall line_ok ls → Z.of_nat (length ls) ≤ total_lines ls.
Proof. induction 1 as [|l ls [] _ IH]; simpl; lia. Qed.

(** ** Tags *)

(** Tags that give a line a time and an id: those of the message, or new ones. *)
Record tags_ok (now : moment) (m : list MessageTag) : Prop := TagsOk {
  to_time : match find_mtag m (bs "time") with
            | Some tag => ∃ s t, t_value tag = Some s ∧ cstr s ∧ server_time_to_unix_time (Some s) = Ok t ∧ 0 < t
            | None => 0 < tv_sec now < MAX_TIME ∧ 0 ≤ tv_usec now < 1000000
            end;
  to_msgid : ∀ tag v, find_mtag m (bs "msgid") = Some tag → t_value tag = Some v → cstr v;
  to_random : cstr (random_msgid now)
}.

Lemma stamp_cstr sec msec : cstr (stamp sec msec).
Proof.
  unfold stamp. destruct (civil_from_days (sec / 86400)) as [[y m] d]. cbv zeta.
  assert (∀ w n, cstr (digits_n w n)) as H.
  { intros w n. eapply Forall_impl; [apply digits_n_digits|]. intros c Hc. simpl in Hc. unfold cchar. lia. }
  repeat (apply cstr_app; [first [apply H|by repeat constructor]|]). by repeat constructor.
Qed.

Lemma line_duplicate_ok now m : tags_ok now m →
  ∃ m' t s id, hbm_duplicate_mtags now m = Ok (m', t, Some s, id) ∧ cstr s ∧ cstr id ∧
    server_time_to_unix_time (Some s) = Ok t ∧ 0 < t ∧
    (∃ tag, find_mtag m' (bs "time") = Some tag ∧ t_value tag = Some s) ∧
    (∃ tag, find_mtag m' (bs "msgid") = Some tag ∧ t_value tag = Some id).
Proof.
  intros [Ht Hm Hr]. unfold hbm_duplicate_mtags.
  assert (∃ m1 s t, match find_mtag m (bs "time") with
      | Some n => Ok (m, t_value n)
      | None => let! buf := timestamp_iso8601_now (tv_sec now) (tv_usec now) in
                Ok (MTag (bs "time") (Some buf) :: m, Some buf)
      end = Ok (m1, Some s) ∧ cstr s ∧ server_time_to_unix_time (Some s) = Ok t ∧ 0 < t ∧
      (∃ tag, find_mtag m1 (bs "time") = Some tag ∧ t_value tag = Some s) ∧
      find_mtag m1 (bs "msgid") = find_mtag m (bs "msgid")) as (m1 & s & t & -> & Hs & Hst & Hpos & Htag & Hid).
  { destruct (find_mtag m (bs "time")) as [tag|] eqn:E.
    - destruct Ht as (s & t & Hv & Hs & Hst & Hpos). exists m, s, t. rewrite Hv. split_and!; try done. by exists tag.
    - destruct Ht as [Hsec Hus]. rewrite timestamp_now by lia. eexists _, _, (tv_sec now). split; [done|].
      split_and!; [apply stamp_cstr| |lia|by eexists|done].
      apply unix_time_stamp. split; [lia|]. split; [apply Z.div_pos; lia|apply Z.div_lt_upper_bound; lia]. }
  cbn [rbind]. rewrite Hst. cbn [rbind]. rewrite Hid. destruct (find_mtag m (bs "msgid")) as [[n [v|]]|] eqn:E.
  - eexists _, _, _, _. split; [done|]. split_and!; try done; [by eapply Hm|]. exists (MTag n (Some v)). by rewrite Hid.
  - eexists _, _, _, _. split; [done|]. split_and!; try done. by eexists (MTag _ _).
  - eexists _, _, _, _. split; [done|]. split_and!; try done. by eexists (MTag _ _).
Qed.

(** A well-formed line is copied as it is. *)
Lemma duplicate_log_line_id now l : line_ok l → duplicate_log_line now l = Ok l.
Proof.
  intros [(tag & Ft & Vt) (s & Es & _) [Ht _] (tag' & Fm & Vm) _ _ _].
  unfold duplicate_log_line, hbm_duplicate_mtags. rewrite Ft. cbn [rbind]. rewrite Vt, Ht. cbn [rbind]. rewrite Fm.
  destruct tag' as [n v]. simpl in Vm. subst v. by destruct l.
Qed.

(** ** Adding a line *)

Lemma elem_of_rev {A} (x : A) l : x ∈ rev l ↔ x ∈ l.
Proof. by rewrite !list_elem_of_In, <-in_rev. Qed.

Definition same_id (a b : HistoryLogLine) : Prop := l_msgid a = l_msgid b.

(** Strictly later. *)
Definition line_lt (a b : HistoryLogLine) : Prop := line_le a b ∧ ¬ line_le b a.

Lemma walk_back_ok l back :
  line_ok l → Forall line_ok back → StronglySorted line_le (rev back) →
  ∃ o, walk_back l back = Ok o ∧
    match o with
    | None => ∃ e, e ∈ back ∧ same_id e l
    | Some k => (k ≤ length back)%nat ∧ (∀ e, e ∈ take k (rev back) → line_le e l) ∧ (∀ e, e ∈ drop k (rev back) → line_lt l e)
    end.
Proof.
  intros Hl. pose proof Hl as [_ (s & Es & Hs) _ _ Hid _ _]. induction back as [|e back IH]; intros Hb Hsort.
  { eexists. split; [done|]. simpl. split_and!; [lia|by intros e ?%not_elem_of_nil..]. }
  apply Forall_cons in Hb as [He Hb]. pose proof He as [_ (se & Ese & Hse) _ _ Hide _ _]. simpl in Hsort.
  apply StronglySorted_app in Hsort as (Hle & Hsort & _).
  assert (line_le e l → ∃ o, Ok (Some (length (e :: back))) = Ok o ∧
    match o with
    | None => ∃ e', e' ∈ e :: back ∧ same_id e' l
    | Some k => (k ≤ length (e :: back))%nat ∧ (∀ e', e' ∈ take k (rev (e :: back)) → line_le e' l) ∧
                (∀ e', e' ∈ drop k (rev (e :: back)) → line_lt l e')
    end) as Hstop.
  { intros H. eexists. split; [done|]. split; [lia|]. rewrite <-length_rev, firstn_all, drop_all. simpl.
    split; [|by intros ? ?%not_elem_of_nil]. intros e' [He'|He'%list_elem_of_singleton]%elem_of_app; [|by subst].
    apply (line_le_trans e' e l); try done; [|apply Hle; [done|by left]].
    rewrite Forall_forall in Hb. apply Hb. by rewrite elem_of_rev in He'. }
  assert (line_lt l e → (∃ o, walk_back l back = Ok o ∧
    match o with
    | None => ∃ e', e' ∈ back ∧ same_id e' l
    | Some k => (k ≤ length back)%nat ∧ (∀ e', e' ∈ take k (rev back) → line_le e' l) ∧ (∀ e', e' ∈ drop k (rev back) → line_lt l e')
    end) → ∃ o, walk_back l back = Ok o ∧
    match o with
    | None => ∃ e', e' ∈ e :: back ∧ same_id e' l
    | Some k => (k ≤ length (e :: back))%nat ∧ (∀ e', e' ∈ take k (rev (e :: back)) → line_le e' l) ∧
                (∀ e', e' ∈ drop k (rev (e :: back)) → line_lt l e')
    end) as Hpass.
  { intros H ([k|] & -> & Ho); (eexists; split; [done|]).
    - destruct Ho as (Hk & Hpre & Hpost). simpl. rewrite take_app_le, drop_app_le by (by rewrite length_rev).
      split_and!; [lia|done|]. intros e' [|He'%list_elem_of_singleton]%elem_of_app; [by apply Hpost|by subst].
    - destruct Ho as (e' & He' & Hs'). exists e'. split; [by right|done]. }
  simpl. destruct (Z.ltb_spec (l_t e) (l_t l)) as [Hlt|Hge]; [apply Hstop; by left|].
  rewrite strcmp_zero by done. case_bool_decide as Hd; [eexists; split; [done|]; exists e; split; [by left|done]|].
  destruct (Z.eqb_spec (l_t e) (l_t l)) as [Heq|Hne].
  - rewrite Es, Ese. cbn [strcmp_ptr rbind]. destruct (Z.leb_spec (strcmp se s) 0) as [Hc|Hc].
    + apply Hstop. right. split; [done|]. by rewrite (line_time_eq _ _ Es), (line_time_eq _ _ Ese).
    + apply Hpass; [|by apply IH]. unfold line_lt, line_le, text_le. rewrite (line_time_eq _ _ Es), (line_time_eq _ _ Ese). split; [|lia].
      right. split; [done|]. destruct (text_le_total s se); [done|lia].
  - apply Hpass; [split; [left; lia|intros [|[? _]]; lia]|by apply IH].
Qed.

Definition same_limits (h h' : HistoryLogObject) : Prop :=
  h_max_lines h' = h_max_lines h ∧ h_max_time h' = h_max_time h ∧ h_name h' = h_name h.
Lemma same_limits_trans a b c : same_limits a b → same_limits b c → same_limits a c.
Proof. intros (? & ? & ?) (? & ? & ?). split_and!; congruence. Qed.

(** The new line at its place. *)
Record added (h h' : HistoryLogObject) (line : list Z) (k : nat) (l : HistoryLogLine) : Prop := Added {
  a_line : line_ok l ∧ l_line l = line ∧ l_batch l = [];
  a_place : (k ≤ length (h_lines h))%nat ∧ h_lines h' = take k (h_lines h) ++ l :: drop k (h_lines h);
  a_behind : ∀ e, e ∈ drop k (h_lines h) → line_lt l e;
  a_count : h_num_lines h' = h_num_lines h + 1;
  a_core : core_ok h';
  a_same : same_limits h h';
  a_oldest : h_oldest_t h' ≠ 0
}.

Lemma add_place h l :
  line_ok l → Forall line_ok (h_lines h) → StronglySorted line_le (h_lines h) →
  ∃ o, match last (h_lines h) with
       | Some tail => if l_t tail <? l_t l then Ok (Some (h_lines h ++ [l], length (h_lines h)))
                      else hbm_history_add_line_in_time (h_lines h) l
       | None => Ok (Some ([l], 0%nat))
       end = Ok o ∧
    match o with
    | None => ∃ e, e ∈ h_lines h ∧ same_id e l
    | Some (ls, k) => (k ≤ length (h_lines h))%nat ∧ ls = take k (h_lines h) ++ l :: drop k (h_lines h) ∧
        StronglySorted line_le ls ∧ (∀ e, e ∈ drop k (h_lines h) → line_lt l e)
    end.
Proof.
  intros Hl Hls Hs. set (ls := h_lines h) in *. clearbody ls.
  assert (∀ k, (∀ e, e ∈ take k ls → line_le e l) → (∀ e, e ∈ drop k ls → line_le l e) →
               StronglySorted line_le (take k ls ++ l :: drop k ls)) as Hins.
  { intros k Hpre Hpost. rewrite <-(take_drop k ls) in Hs. apply StronglySorted_app in Hs as (H1 & H2 & H3).
    apply StronglySorted_app_2; [|done|].
    - intros x y Hx [->|Hy]%elem_of_cons; [by apply Hpre|by apply H1].
    - apply StronglySorted_cons. split; [|done]. apply Forall_forall. apply Hpost. }
  destruct (last ls) as [tl|] eqn:Elast.
  - destruct (Z.ltb_spec (l_t tl) (l_t l)) as [Hlt|Hge].
    + eexists. split; [done|]. split_and!; [done|by rewrite firstn_all, drop_all| |by rewrite drop_all; intros ? ?%not_elem_of_nil].
      specialize (Hins (length ls)). rewrite firstn_all, drop_all in Hins. apply Hins; [|by intros ? ?%not_elem_of_nil].
      intros e He. left. apply last_Some in Elast as [pre ->]. apply StronglySorted_app in Hs as (H1 & _ & _).
      apply elem_of_app in He as [He|He%list_elem_of_singleton]; [|by subst].
      destruct (H1 e tl He ltac:(by left)) as [|[? _]]; lia.
    + unfold hbm_history_add_line_in_time.
      destruct (walk_back_ok l (rev ls) Hl) as (o & -> & Ho); [by apply Forall_rev|by rewrite rev_involutive|].
      rewrite rev_involutive, length_rev in Ho. cbn [rbind]. destruct o as [k|]; (eexists; split; [done|]).
      * destruct Ho as (Hk & Hpre & Hpost). split_and!; [done..| |done]. apply Hins; [done|]. intros x Hx. by apply Hpost.
      * destruct Ho as (e & He & Hid). exists e. by rewrite elem_of_rev in He.
  - apply last_None in Elast as ->. eexists. split; [done|]. split_and!; [simpl; lia|done|by repeat constructor|by intros ? ?%not_elem_of_nil].
Qed.

Lemma add_line_ok now h mtags line :
  core_ok h → (h_oldest_t h = 0 → h_lines h = []) → tags_ok now mtags →
  ∃ h' o, hbm_history_add_line now h mtags line = Ok (h', o) ∧
    match o with
    | None => h' = h ∧ ∃ e m t s id, e ∈ h_lines h ∧ l_msgid e = id ∧ hbm_duplicate_mtags now mtags = Ok (m, t, s, id)
    | Some k => ∃ l, added h h' line k l ∧ ∃ m t s id, hbm_duplicate_mtags now mtags = Ok (m, t, s, id) ∧
        l = Line [] 1 (Z.of_nat (length line)) 0 t id s m line
    end.
Proof.
  intros [Hls Hs Hc Ho] Hz Ht. unfold hbm_history_add_line.
  destruct (line_duplicate_ok now mtags Ht) as (m & t & s & id & E & Hts & Hid & Hst & Hpos & Htag & Hmid). rewrite E. cbn [rbind].
  set (l := Line [] 1 (Z.of_nat (length line)) 0 t id (Some s) m line).
  assert (line_ok l) as Hl by (constructor; simpl; try done; [by exists s|lia]).
  destruct (add_place h l Hl Hls Hs) as (o & Ep & Hp). change (l_t l) with t in Ep. rewrite Ep. cbn [rbind].
  destruct o as [[ls k]|]; [|eexists _, None; split; [done|]; destruct Hp as (e & He & Hsid); split; [done|];
    by exists e, m, t, (Some s), id].
  destruct Hp as (Hk & -> & Hsort & Hbehind). eexists _, (Some k). split; [done|]. exists l. split; [|by exists m, t, (Some s), id].
  match goal with |- added _ ?x _ _ _ => set (h' := x) end.
  assert (h_lines h' = take k (h_lines h) ++ l :: drop k (h_lines h) ∧ h_num_lines h' = h_num_lines h + 1 ∧
          h_max_lines h' = h_max_lines h ∧ h_max_time h' = h_max_time h ∧ h_name h' = h_name h ∧
          h_oldest_t h' = (if (t <? h_oldest_t h) || (h_oldest_t h =? 0) then t else h_oldest_t h))
    as (E1 & E2 & E3 & E4 & E5 & E6) by (unfold h'; simpl; by destruct (_ || _)).
  clearbody h'. constructor; try done.
  - constructor.
    + rewrite E1. apply Forall_app. split; [by apply Forall_take|]. constructor; [done|by apply Forall_drop].
    + by rewrite E1.
    + rewrite E1, E2, Hc, total_lines_app. simpl. rewrite <-(take_drop k (h_lines h)) at 1. rewrite total_lines_app. lia.
    + rewrite E1, E6. assert (Forall (λ x, (if (t <? h_oldest_t h) || (h_oldest_t h =? 0) then t else h_oldest_t h) ≤ l_t x) (h_lines h)) as Hall.
      { destruct (Z.ltb_spec t (h_oldest_t h)); simpl.
        - eapply Forall_impl; [exact Ho|]. simpl. lia.
        - destruct (Z.eqb_spec (h_oldest_t h) 0) as [Hz0|]; [rewrite Hz by done; constructor|done]. }
      apply Forall_app. split; [by apply Forall_take|]. constructor; [|by apply Forall_drop]. simpl.
      destruct (Z.ltb_spec t (h_oldest_t h)); simpl; [lia|]. destruct (h_oldest_t h =? 0); lia.
  - rewrite E6. destruct (Z.ltb_spec t (h_oldest_t h)); simpl; [lia|]. destruct (Z.eqb_spec (h_oldest_t h) 0); lia.
Qed.

(** ** Making room *)

Lemma del_head h l r : h_lines h = l :: r →
  hbm_history_del_line h 0 = set_dirty true (set_lines r (h_num_lines h - l_num_lines l) h).
Proof. intros E. unfold hbm_history_del_line. by rewrite E. Qed.

Lemma core_drop_head h l r n : core_ok h → h_lines h = l :: r → n = h_num_lines h - l_num_lines l →
  core_ok (set_dirty true (set_lines r n h)).
Proof.
  intros [Hl Hs Hc Ho] E ->. rewrite E in *. apply Forall_cons in Hl as [_ Hl]. apply Forall_cons in Ho as [_ Ho].
  apply StronglySorted_cons in Hs as [_ Hs]. constructor; simpl; try done. simpl in Hc. lia.
Qed.

(** Lines are only dropped from the old end, until there is room. *)
Lemma evict_ok full fuel h :
  core_ok h → (length (h_lines h) ≤ fuel)%nat →
  let h' := evict full fuel h in
  core_ok h' ∧ (∃ j, h_lines h' = drop j (h_lines h)) ∧ (full (h_num_lines h') = false ∨ h_lines h' = []) ∧
  h_oldest_t h' = h_oldest_t h ∧ h_max_lines h' = h_max_lines h ∧ h_max_time h' = h_max_time h ∧ h_name h' = h_name h ∧
  (full (h_num_lines h) = false → h' = h).
Proof.
  revert h. induction fuel as [|fuel IH]; intros h Hc Hf.
  { simpl. split_and!; try done; [by exists 0%nat|]. right. by apply length_zero_iff_nil; lia. }
  cbn [evict]. destruct (full (h_num_lines h)) eqn:Ef; simpl.
  2: { split_and!; try done; [by exists 0%nat|by left]. }
  case_bool_decide as Hn; simpl; [split_and!; try done; [by exists 0%nat|by right]|].
  destruct (h_lines h) as [|l r] eqn:E; [done|]. rewrite (del_head h l r E).
  pose proof (core_drop_head h l r _ Hc E eq_refl) as Hc'.
  destruct (IH _ Hc') as (H1 & (j & H2) & H3 & H4 & H5 & H6 & H7 & _); [simpl in *; lia|].
  split_and!; try done. by exists (S j).
Qed.

Lemma default_limit_ok h : log_ok h → h_max_lines h ≠ 0 ∨ h_lines h = [] →
  log_ok (default_limit h) ∧ h_lines (default_limit h) = h_lines h ∧ h_max_lines (default_limit h) ≠ 0 ∧
  h_name (default_limit h) = h_name h.
Proof.
  intros Hh Hm. unfold default_limit. destruct (Z.eqb_spec (h_max_lines h) 0) as [E|E]; [|done].
  destruct Hm as [|Hm]; [done|]. split_and!; try done. destruct Hh as [Hc Hz Hl]. constructor; simpl; [|by left|right; by rewrite Hm; simpl; lia].
  destruct Hc as [H1 H2 H3 H4]. by constructor.
Qed.

(** Room for [n] lines, as both ways of adding make it. *)
Lemma make_room h n full :
  log_ok h → 1 ≤ n → (∀ x, full x = (h_max_lines h <? x + n)) →
  let h' := evict full (length (h_lines h)) h in
  core_ok h' ∧ (∃ j, h_lines h' = drop j (h_lines h)) ∧ (h_num_lines h' + n ≤ h_max_lines h' ∨ h_lines h' = []) ∧
  (h_oldest_t h' = 0 → h_lines h' = []) ∧ same_limits h h'.
Proof.
  intros [Hc Hz Hl] Hn Hfull h'. destruct (evict_ok full (length (h_lines h)) h Hc ltac:(lia)) as (H1 & (j & H2) & H3 & H4 & H5 & H6 & H7 & H8).
  fold h' in H1, H2, H3, H4, H5, H6, H7. split_and!; [done|by exists j| | |done].
  - destruct H3 as [H3|]; [left|by right]. rewrite Hfull in H3. apply Z.ltb_ge in H3. lia.
  - intros E. rewrite H4 in E. destruct (Hz E) as [E2|[(l & E2) Hover]]; [by rewrite H2, E2, drop_nil|].
    destruct H3 as [H3|]; [|done]. rewrite H2, E2. destruct j as [|j]; [|simpl; by rewrite drop_nil].
    rewrite Hfull in H3. apply Z.ltb_ge in H3. rewrite drop_0 in H2.
    destruct H1 as [_ _ Hc1 _]. destruct Hc as [_ _ Hc2 _]. rewrite Hc1, H2, <-Hc2 in H3. lia.
Qed.

(** What adding does to the lines. *)
Inductive add_result (now : moment) (h : HistoryLogObject) (mtags : list MessageTag) (line : list Z) (batch : list BatchLine)
    (h' : HistoryLogObject) : Prop :=
| add_duplicate j e m t s id :
    hbm_duplicate_mtags now mtags = Ok (m, t, s, id) → h_lines h' = drop j (h_lines h) → e ∈ h_lines h' → l_msgid e = id →
    add_result now h mtags line batch h'
| add_new j k l m t s id :
    hbm_duplicate_mtags now mtags = Ok (m, t, s, id) → l_mtags l = m → l_t l = t → l_time l = s → l_msgid l = id →
    l_line l = line → l_batch l = batch → h_lines h' = take k (drop j (h_lines h)) ++ l :: drop k (drop j (h_lines h)) →
    (∀ e, e ∈ drop k (drop j (h_lines h)) → line_lt l e) →
    add_result now h mtags line batch h'.

Lemma added_limit h h' line k l n :
  added h h' line k l → 1 ≤ n → h_num_lines h + n ≤ h_max_lines h ∨ h_lines h = [] →
  h_num_lines h' + (n - 1) ≤ h_max_lines h' ∨ (length (h_lines h') ≤ 1)%nat.
Proof.
  intros [_ [Hk Hls] _ Hc _ [Hm _] _] Hn [H|H]; [left; lia|]. right. rewrite Hls, H. by destruct k.
Qed.

Lemma history_add_ok now h mtags line :
  log_ok h → h_max_lines h ≠ 0 ∨ h_lines h = [] → tags_ok now mtags →
  ∃ h', hbm_history_add_to now h mtags line = Ok h' ∧ log_ok h' ∧ add_result now h mtags line [] h' ∧
    same_limits (default_limit h) h'.
Proof.
  intros Hh Hm Ht. unfold hbm_history_add_to. destruct (default_limit_ok h Hh Hm) as (Hd & El & _ & En).
  set (h0 := default_limit h) in *. clearbody h0.
  destruct (make_room h0 1 (λ n, h_max_lines h0 <=? n) Hd ltac:(lia)) as (H1 & (j & H2) & H3 & H4 & H5).
  { intros x. destruct (Z.leb_spec (h_max_lines h0) x), (Z.ltb_spec (h_max_lines h0) (x + 1)); (done || lia). }
  set (h1 := evict _ _ h0) in *. clearbody h1. rewrite El in H2.
  destruct (add_line_ok now h1 mtags line H1 H4 Ht) as (h' & o & E & Ho). rewrite E. cbn [rbind]. exists h'. split; [done|].
  destruct o as [k|].
  - destruct Ho as (l & Ha & m & t & s & id & Ed & El'). pose proof (added_limit _ _ _ _ _ 1 Ha ltac:(lia) H3) as Hlim.
    destruct Ha as [_ [Hk Hls] Hbehind _ Hcore Hsame Hold]. split_and!; [| |by eapply same_limits_trans].
    2: { apply (add_new _ _ _ _ _ _ j k l m t s id); try (by subst l); [by rewrite Hls, H2|by rewrite <-H2]. }
    constructor; [done|by intros ?|]. by rewrite Z.add_0_r in Hlim.
  - destruct Ho as (-> & e & m & t & s & id & He & Hid & Ed). split_and!; [|by apply (add_duplicate _ _ _ _ _ _ j e m t s id)|done].
    constructor; [done|by left; apply H4|]. destruct H3 as [|H3]; [left; lia|]. right. by rewrite H3; simpl; lia.
Qed.

(** A line that is replaced by one of the same time keeps its place. *)
Lemma sorted_replace a l l' b :
  l_t l = l_t l' → l_time l = l_time l' → StronglySorted line_le (a ++ l :: b) → StronglySorted line_le (a ++ l' :: b).
Proof.
  intros Et Es. rewrite !StronglySorted_app, !StronglySorted_cons. intros (H1 & H2 & H3 & H4).
  assert (∀ x, line_le x l → line_le x l') as Ha by (unfold line_le, line_time; by rewrite Et, Es).
  assert (∀ x, line_le l x → line_le l' x) as Hb by (unfold line_le, line_time; by rewrite Et, Es).
  split_and!; try done.
  - intros x y Hx [->|Hy]%elem_of_cons; [apply Ha, H1; [done|by left]|apply H1; [done|by right]].
  - eapply Forall_impl; [exact H3|]. apply Hb.
Qed.

Lemma alter_middle {A} (f : A → A) k (ls : list A) l :
  (k ≤ length ls)%nat → alter f k (take k ls ++ l :: drop k ls) = take k ls ++ f l :: drop k ls.
Proof.
  intros Hk. assert (length (take k ls) = k) as Hl by (rewrite length_take; lia).
  rewrite <-Hl at 1. by rewrite alter_app_r_alt, Nat.sub_diag by lia.
Qed.

(** A batch is attached to the line that was added for it. *)
Definition attach (cont : list BatchLine) (l : HistoryLogLine) : HistoryLogLine :=
  Line cont (1 + Z.of_nat (length cont)) (l_num_bytes l + batch_bytes cont) (l_concat l) (l_t l) (l_msgid l) (l_time l)
    (l_mtags l) (l_line l).

Lemma attach_core h h2 line k l cont :
  added h h2 line k l →
  let h3 := set_dirty true (set_lines (alter (attach cont) k (h_lines h2)) (h_num_lines h2 + Z.of_nat (length cont)) h2) in
  core_ok h3 ∧ h_lines h3 = take k (h_lines h) ++ attach cont l :: drop k (h_lines h).
Proof.
  intros [(Hlo & _ & Hb) [Hk Hls] _ Hcount [C1 C2 C3 C4] _ Hold] h3.
  assert (h_lines h3 = take k (h_lines h) ++ attach cont l :: drop k (h_lines h)) as E3.
  { unfold h3. cbn [h_lines set_dirty set_lines]. rewrite Hls. by rewrite alter_middle. }
  split; [|done]. destruct Hlo as [L1 L2 L3 L4 L5 L6 L7]. rewrite Hb in L6, L7. simpl in L6, L7.
  assert (line_ok (attach cont l)) as Hl' by (constructor; simpl; try done; lia).
  rewrite Hls in C1, C2, C3, C4. apply Forall_app in C1 as [C1 C1']. apply Forall_cons in C1' as [_ C1'].
  apply Forall_app in C4 as [C4 C4']. apply Forall_cons in C4' as [C4h C4']. constructor; rewrite ?E3.
  - apply Forall_app. split; [done|]. by constructor.
  - by apply (sorted_replace _ l).
  - unfold h3. cbn [h_num_lines set_dirty set_lines]. rewrite C3, !total_lines_app. simpl. lia.
  - apply Forall_app. split; [done|]. by constructor.
Qed.

Lemma continuation_lines source cmd target rest :
  let cont := map (λ m, Batch (batch_text source cmd target m) (ml_concat m) []) rest in
  zip_with (λ t m, Batch t (ml_concat m) []) (map (batch_text source cmd target) rest) rest = cont ∧
  foldr (λ t n, Z.of_nat (length t) + n) 0 (map (batch_text source cmd target) rest) = batch_bytes cont ∧
  length cont = length rest.
Proof.
  cbv zeta. unfold batch_bytes. rewrite length_map.
  induction rest as [|m rest (IH1 & IH2 & _)]; simpl; [done|]. by rewrite IH1, IH2.
Qed.

Lemma history_add_multiline_ok now h mtags source cmd target first rest :
  log_ok h → h_max_lines h ≠ 0 ∨ h_lines h = [] → tags_ok now mtags →
  ∃ h', hbm_history_add_multiline_to now h mtags source cmd target (first :: rest) = Ok h' ∧ log_ok h' ∧
    add_result now h mtags (batch_text source cmd target first)
      (map (λ m, Batch (batch_text source cmd target m) (ml_concat m) []) rest) h' ∧ same_limits (default_limit h) h'.
Proof.
  intros Hh Hm Ht. unfold hbm_history_add_multiline_to. destruct (default_limit_ok h Hh Hm) as (Hd & El & _ & En).
  set (h0 := default_limit h) in *. clearbody h0. set (n := Z.of_nat (length (first :: rest))).
  destruct (make_room h0 n (λ x, h_max_lines h0 <? x + n) Hd ltac:(unfold n; simpl; lia) ltac:(done))
    as (H1 & (j & H2) & H3 & H4 & H5).
  set (h1 := evict _ _ h0) in *. clearbody h1. rewrite El in H2.
  destruct (add_line_ok now h1 mtags (batch_text source cmd target first) H1 H4 Ht) as (h2 & o & E & Ho). rewrite E. cbn [rbind].
  destruct (continuation_lines source cmd target rest) as (-> & -> & Hcl).
  set (cont := map (λ m, Batch (batch_text source cmd target m) (ml_concat m) []) rest) in *.
  assert (n = 1 + Z.of_nat (length cont)) as Hn by (unfold n; simpl; lia).
  destruct o as [k|].
  2: { destruct Ho as (-> & e & m & t & s & id & He & Hid & Ed). eexists. split; [done|].
    split_and!; [|by apply (add_duplicate _ _ _ _ _ _ j e m t s id)|done].
    constructor; [done|by left; apply H4|]. destruct H3 as [|H3]; [left; lia|]. right. by rewrite H3; simpl; lia. }
  destruct Ho as (l & Ha & m & t & s & id & Ed & El'). eexists. split; [done|].
  pose proof (added_limit _ _ _ _ _ n Ha ltac:(lia) H3) as Hlim. rewrite Hn, <-Hcl.
  change (λ l0, Line cont _ _ _ _ _ _ _ _) with (attach cont).
  destruct (attach_core h1 h2 _ k l cont Ha) as [Hcore E3]. cbv zeta in Hcore, E3.
  destruct Ha as [_ [Hk Hls] Hbehind Hcount _ Hsame Hold].
  set (h3 := set_dirty true _) in *. split_and!.
  - constructor; [done|by intros ?|]. destruct Hlim as [Hlim|Hlim]; [left|right].
    + unfold h3. cbn [h_num_lines h_max_lines set_dirty set_lines]. lia.
    + rewrite E3. rewrite Hls in Hlim. by rewrite length_app in *.
  - apply (add_new _ _ _ _ _ _ j k (attach cont l) m t s id); try (by subst l); [by rewrite E3, H2|by rewrite <-H2].
  - by apply (same_limits_trans _ _ _ H5 Hsame).
Qed.

(** ** Expiry *)

Definition oldest_of (o : Z) (ls : list HistoryLogLine) : Z := foldl older o (map l_t ls).

Lemma oldest_of_bound o ls :
  Forall line_ok ls → 0 ≤ o →
  (oldest_of o ls = 0 → o = 0 ∧ ls = []) ∧ (o ≠ 0 → oldest_of o ls ≤ o) ∧ 0 ≤ oldest_of o ls ∧
  Forall (λ l, oldest_of o ls ≤ l_t l) ls.
Proof.
  intros H. revert o. unfold oldest_of. induction H as [|l ls Hl _ IH]; intros o Ho; simpl; [by split_and!|].
  destruct Hl as [_ _ [_ Hpos] _ _ _ _].
  assert (0 < older o (l_t l) ∧ older o (l_t l) ≤ l_t l ∧ (o ≠ 0 → older o (l_t l) ≤ o)) as (H0 & H1 & H2).
  { unfold older. destruct (Z.eqb_spec o 0), (Z.ltb_spec (l_t l) o); simpl; lia. }
  destruct (IH (older o (l_t l)) ltac:(lia)) as (I1 & I2 & I3 & I4). split_and!; [intros E; apply I1 in E; lia|lia|done|].
  constructor; [lia|done].
Qed.

Lemma expire_time_spec redline lines n o :
  let kept := filter (λ l, redline ≤ l_t l) lines in
  expire_time redline lines n o = (kept, n - total_lines lines + total_lines kept, oldest_of o kept).
Proof.
  revert n o. induction lines as [|l lines IH]; intros n o; cbn [expire_time].
  - rewrite filter_nil. simpl. do 2 f_equal. lia.
  - rewrite filter_cons. destruct (Z.ltb_spec (l_t l) redline); case_decide; try lia; rewrite IH; simpl; do 2 f_equal; lia.
Qed.

Lemma expire_lines_none max lines n o : n ≤ max → expire_lines max lines n o = (lines, n, oldest_of o lines).
Proof.
  intros Hn. revert o. induction lines as [|l lines IH]; intros o; [done|]. cbn [expire_lines].
  by rewrite (proj2 (Z.ltb_ge _ _) Hn), IH.
Qed.

(** [j] lines go, as few as possible; the last stays. *)
Lemma expire_lines_spec max lines n o :
  ∃ j, let kept := drop j lines in let n' := n - total_lines (take j lines) in
    expire_lines max lines n o = (kept, n', if max <? n' then o else oldest_of o kept) ∧
    (max < n' → (length kept ≤ 1)%nat) ∧ ((0 < j)%nat → max < n - total_lines (take (j - 1) lines)) ∧
    (lines ≠ [] → kept ≠ []).
Proof.
  revert n o. induction lines as [|l lines IH]; intros n o.
  { exists 0%nat. simpl. rewrite Z.sub_0_r. unfold oldest_of. simpl. destruct (max <? n); split_and!; try done; lia. }
  destruct (decide (n ≤ max)) as [Hle|Hgt].
  { exists 0%nat. rewrite expire_lines_none by done. simpl. rewrite Z.sub_0_r, (proj2 (Z.ltb_ge _ _) Hle).
    split_and!; try done; lia. }
  cbn [expire_lines]. rewrite (proj2 (Z.ltb_lt max n)) by lia. destruct lines as [|l2 lines].
  - exists 0%nat. simpl. rewrite Z.sub_0_r. rewrite (proj2 (Z.ltb_lt max n)) by lia. split_and!; try done; lia.
  - destruct (IH (n - l_num_lines l) o) as (j & E & H1 & H2 & H3). exists (S j). cbv zeta in E. rewrite E. cbv zeta.
    cbn [drop take total_lines]. replace (n - (l_num_lines l + total_lines (take j (l2 :: lines))))
      with (n - l_num_lines l - total_lines (take j (l2 :: lines))) by lia. split_and!; [done|done| |intros _; by apply H3].
    intros _. destruct j as [|j]; [simpl; lia|]. replace (S (S j) - 1)%nat with (S (S j - 1)) by lia. cbn [take total_lines].
    specialize (H2 ltac:(lia)). lia.
Qed.

Lemma core_replace h ls n o :
  core_ok h → ls `sublist_of` h_lines h → n = total_lines ls → Forall (λ l, o ≤ l_t l) ls →
  core_ok (replace_lines (ls, n, o) h).
Proof.
  intros [H1 H2 _ _] Hls Hn Ho.
  assert (core_ok (set_oldest o (set_lines ls n h))) as Hc.
  { constructor; simpl; [by eapply sublist_Forall|by eapply sorted_sublist|done..]. }
  unfold replace_lines. destruct (_ =? _)%nat; [done|]. destruct Hc. by constructor.
Qed.
Lemma replace_fields ls n o h :
  h_lines (replace_lines (ls, n, o) h) = ls ∧ h_num_lines (replace_lines (ls, n, o) h) = n ∧
  h_oldest_t (replace_lines (ls, n, o) h) = o ∧ h_max_lines (replace_lines (ls, n, o) h) = h_max_lines h ∧
  h_max_time (replace_lines (ls, n, o) h) = h_max_time h ∧ h_name (replace_lines (ls, n, o) h) = h_name h.
Proof. unfold replace_lines. by destruct (_ =? _)%nat. Qed.

(** The two parts of a clean-up. *)
Lemma expire_time_ok h redline :
  core_ok h → 0 < redline →
  let h' := if h_oldest_t h <? redline then replace_lines (expire_time redline (h_lines h) (h_num_lines h) 0) h else h in
  core_ok h' ∧ h_lines h' = filter (λ l, redline ≤ l_t l) (h_lines h) ∧ (h_oldest_t h' = 0 → h_lines h' = []) ∧
  h_max_lines h' = h_max_lines h ∧ h_max_time h' = h_max_time h ∧ h_name h' = h_name h.
Proof.
  intros Hc Hr. pose proof Hc as [H1 H2 H3 H4]. destruct (Z.ltb_spec (h_oldest_t h) redline) as [Hlt|Hge]; cbv zeta.
  - rewrite expire_time_spec. set (kept := filter _ _).
    assert (Forall line_ok kept) as Hk by (eapply sublist_Forall; [apply sublist_filter|done]).
    destruct (oldest_of_bound 0 kept Hk ltac:(lia)) as (B1 & _ & _ & B4).
    destruct (replace_fields kept (h_num_lines h - total_lines (h_lines h) + total_lines kept) (oldest_of 0 kept) h)
      as (-> & _ & -> & -> & -> & ->). split_and!; try done; [|by intros [_ ?]%B1].
    apply core_replace; [done|apply sublist_filter|lia|done].
  - split_and!; try done; [|lia]. rewrite filter_all; [done|]. eapply Forall_impl; [exact H4|]. simpl. lia.
Qed.

Lemma expire_lines_ok h :
  core_ok h → (h_oldest_t h = 0 → h_lines h = []) →
  let h' := if h_max_lines h <? h_num_lines h
            then replace_lines (expire_lines (h_max_lines h) (h_lines h) (h_num_lines h) 0) h else h in
  log_ok h' ∧ h_max_lines h' = h_max_lines h ∧ h_max_time h' = h_max_time h ∧ h_name h' = h_name h ∧
  ∃ j, h_lines h' = drop j (h_lines h) ∧ ((0 < j)%nat → h_max_lines h < total_lines (drop (j - 1) (h_lines h))) ∧
    (h_lines h ≠ [] → h_lines h' ≠ []).
Proof.
  intros Hc Hz. pose proof Hc as [H1 H2 H3 H4]. destruct (Z.ltb_spec (h_max_lines h) (h_num_lines h)) as [Hlt|Hge]; cbv zeta.
  2: { split_and!; try done; [|by exists 0%nat; rewrite drop_0; split_and!; [done|lia|]].
       constructor; [done|by left; apply Hz|by left]. }
  destruct (expire_lines_spec (h_max_lines h) (h_lines h) (h_num_lines h) 0) as (j & E & Hone & Hmin & Hlast). cbv zeta in E. rewrite E.
  set (n' := h_num_lines h - total_lines (take j (h_lines h))) in *. set (kept := drop j (h_lines h)) in *.
  assert (∀ i, h_num_lines h - total_lines (take i (h_lines h)) = total_lines (drop i (h_lines h))) as Htot.
  { intros i. rewrite H3. rewrite <-(take_drop i (h_lines h)) at 1. rewrite total_lines_app. lia. }
  assert (Forall line_ok kept) as Hk by (by apply Forall_drop).
  destruct (oldest_of_bound 0 kept Hk ltac:(lia)) as (B1 & _ & B3 & B4).
  set (o' := if h_max_lines h <? n' then 0 else oldest_of 0 kept).
  assert (Forall (λ l, o' ≤ l_t l) kept) as Ho'.
  { unfold o'. destruct (_ <? _); [|done]. eapply Forall_impl; [exact Hk|]. intros x [_ _ [_ Hx] _ _ _ _]. simpl. lia. }
  destruct (replace_fields kept n' o' h) as (E1 & E2 & E3 & E4 & E5 & E6). split_and!; try done.
  - constructor; [apply core_replace; [done|apply sublist_drop|apply Htot|done]| |].
    + rewrite E1, E2, E3, E4. unfold o'. destruct (Z.ltb_spec (h_max_lines h) n') as [Hov|_]; [|by intros [_ ->]%B1; left].
      intros _. specialize (Hone Hov). destruct kept as [|x [|]]; simpl in Hone; [by left|right; split; [by eexists|done]|lia].
    + rewrite E1, E2, E4. destruct (decide (n' ≤ h_max_lines h)); [by left|right; apply Hone; lia].
  - exists j. rewrite E1. split_and!; [done|intros Hj; rewrite <-Htot; by apply Hmin|done].
Qed.

(** Only what is too old, or too much, goes; and of the latter as little as possible. *)
Lemma log_cleanup_ok now h :
  core_ok h → h_max_time h < now →
  let h' := hbm_history_cleanup now h in
  let young := filter (λ l, now - h_max_time h ≤ l_t l) (h_lines h) in
  log_ok h' ∧ h_max_lines h' = h_max_lines h ∧ h_max_time h' = h_max_time h ∧ h_name h' = h_name h ∧
  ∃ j, h_lines h' = drop j young ∧ ((0 < j)%nat → h_max_lines h < total_lines (drop (j - 1) young)) ∧
    (young ≠ [] → h_lines h' ≠ []).
Proof.
  intros Hc Hn. unfold hbm_history_cleanup.
  destruct (expire_time_ok h (now - h_max_time h) Hc ltac:(lia)) as (C1 & L1 & Z1 & M1 & T1 & N1). cbv zeta.
  set (h1 := if h_oldest_t h <? now - h_max_time h then _ else h) in *. clearbody h1.
  destruct (expire_lines_ok h1 C1 Z1) as (C2 & M2 & T2 & N2 & j & L2 & J2 & K2).
  split_and!; [done|congruence..|]. exists j. by rewrite <-L1, <-M1.
Qed.

(** ** Conditions of a filter *)

Definition time_test (test : Z → bool) (ts : option (list Z)) (l : HistoryLogLine) : bool :=
  match ts with None => false | Some ts => test (strcmp (line_time l) ts) end.

Lemma time_is_ok test ts l : line_ok l → time_is test ts l = Ok (time_test test ts l).
Proof. intros [_ (s & Es & _) _ _ _ _ _]. destruct ts; [|done]. unfold time_is, time_test, line_time. by rewrite Es. Qed.

(** ** Pages

    The lines from where a request starts (behind a line that is named by its id)
    to where it stops. *)
Section Pages.
Context (now : moment) (f : HistoryFilter) (starts stops : Z → bool) (add : HistoryResult → HistoryLogLine → HistoryResult).

Definition stop_here (l : HistoryLogLine) : bool := time_test stops (timestamp_b f) l || msgid_is (msgid_b f) l.
Definition from_start (lines : list HistoryLogLine) : list HistoryLogLine :=
  match drop_while (λ l, negb (time_test starts (timestamp_a f) l || msgid_is (msgid_a f) l)) lines with
  | [] => []
  | l :: r => if time_test starts (timestamp_a f) l then l :: r else r
  end.
Definition page (lines : list HistoryLogLine) : list HistoryLogLine := take_while (λ l, negb (stop_here l)) (from_start lines).

(** The first [n] lines of a page; whether there are more. *)
Definition cut (n : nat) (p : list HistoryLogLine) : list HistoryLogLine := take n p.
Definition end_flag (n : nat) (p : list HistoryLogLine) : Z := if (length p <=? n)%nat then 1 else 0.

Lemma collect_started lines written r :
  Forall line_ok lines → 0 ≤ written ≤ Z.max 0 (limit f) →
  let p := take_while (λ l, negb (stop_here l)) lines in let n := Z.to_nat (limit f - written) in
  collect now f starts stops add lines true written r =
  Ok (set_reached_end (end_flag n p) (foldl add r (cut n p)), written + Z.of_nat (length (cut n p))).
Proof.
  intros H. revert written r. induction H as [|l lines Hl _ IH]; intros written r Hw; cbn [collect].
  - unfold cut. cbn [take_while]. rewrite take_nil. simpl. by rewrite Z.add_0_r.
  - cbn [rbind negb andb]. rewrite time_is_ok by done. cbn [rbind take_while]. fold (stop_here l).
    destruct (stop_here l) eqn:Es; cbn [negb].
    + unfold cut. rewrite take_nil. simpl. by rewrite Z.add_0_r.
    + destruct (Z.leb_spec (limit f) written) as [Hge|Hlt].
      * replace (Z.to_nat (limit f - written)) with 0%nat by lia. simpl. by rewrite Z.add_0_r.
      * rewrite duplicate_log_line_id by done. cbn [rbind]. rewrite IH by lia.
        replace (Z.to_nat (limit f - written)) with (S (Z.to_nat (limit f - (written + 1)))) by lia.
        unfold cut, end_flag. cbn [take length foldl Nat.leb]. do 2 f_equal. lia.
Qed.

Lemma collect_page lines r :
  Forall line_ok lines →
  let n := Z.to_nat (limit f) in
  collect now f starts stops add lines false 0 r =
  Ok (set_reached_end (end_flag n (page lines)) (foldl add r (cut n (page lines))), Z.of_nat (length (cut n (page lines)))).
Proof.
  intros H. unfold page, from_start. induction H as [|l lines Hl Hls IH]; [unfold cut; simpl; by rewrite take_nil|].
  cbn [collect drop_while]. rewrite time_is_ok by done. cbn [rbind].
  destruct (time_test starts (timestamp_a f) l) eqn:Et; cbn [negb andb orb].
  - pose proof (collect_started (l :: lines) 0 r ltac:(by constructor) ltac:(lia)) as E. cbn [collect rbind negb andb] in E.
    rewrite Z.sub_0_r in E. rewrite E. rewrite Et. by rewrite Z.add_0_l.
  - destruct (msgid_is (msgid_a f) l) eqn:Em; cbn [negb].
    + rewrite collect_started by (done || lia). rewrite Z.sub_0_r, Et. by rewrite Z.add_0_l.
    + apply IH.
Qed.
End Pages.

(** ** Results *)

Fixpoint total_bytes (ls : list HistoryLogLine) : Z :=
  match ls with [] => 0 | l :: r => l_num_bytes l + total_bytes r end.
Definition result_of (object : list Z) (ls : list HistoryLogLine) (e : Z) : HistoryResult :=
  Result object ls (total_lines ls) (total_bytes ls) e.

Lemma total_bytes_app a b : total_bytes (a ++ b) = total_bytes a + total_bytes b.
Proof. induction a as [|l a IH]; simpl; [done|]. rewrite IH. lia. Qed.

Lemma append_lines object e ls ls0 :
  foldl hbm_result_append_line (result_of object ls0 e) ls = result_of object (ls0 ++ ls) e.
Proof.
  revert ls0. induction ls as [|l ls IH]; intros ls0; cbn [foldl]; [by rewrite app_nil_r|].
  assert (hbm_result_append_line (result_of object ls0 e) l = result_of object (ls0 ++ [l]) e) as ->.
  { unfold result_of, hbm_result_append_line. simpl. rewrite total_lines_app, total_bytes_app. simpl. f_equal; lia. }
  by rewrite IH, <-app_assoc.
Qed.
Lemma prepend_lines object e ls ls0 :
  foldl hbm_result_prepend_line (result_of object ls0 e) ls = result_of object (rev ls ++ ls0) e.
Proof.
  revert ls0. induction ls as [|l ls IH]; intros ls0; cbn [foldl]; [done|].
  assert (hbm_result_prepend_line (result_of object ls0 e) l = result_of object (l :: ls0) e) as ->.
  { unfold result_of, hbm_result_prepend_line. simpl. f_equal; lia. }
  rewrite IH. simpl. by rewrite <-app_assoc.
Qed.
Lemma reached_end_of object ls e e' : set_reached_end e' (result_of object ls e) = result_of object ls e'.
Proof. done. Qed.

(** The last [n] lines. *)
Definition lastn {A} (n : nat) (l : list A) : list A := drop (length l - n) l.
Lemma rev_take {A} n (l : list A) : rev (take n (rev l)) = lastn n l.
Proof. unfold lastn. by rewrite firstn_rev, rev_involutive. Qed.

(** ** Each kind of request *)

Lemma return_after_page now object h f :
  Forall line_ok (h_lines h) →
  let p := page f (λ c, 0 <? c) (λ c, 0 <=? c) (h_lines h) in let n := Z.to_nat (limit f) in
  ∃ w, hbm_return_after now (result_of object [] 0) h f = Ok (result_of object (take n p) (end_flag n p), w).
Proof.
  intros H p n. unfold hbm_return_after. rewrite collect_page by done. fold p n. rewrite append_lines, reached_end_of.
  by eexists.
Qed.
Lemma return_before_page now object h f :
  Forall line_ok (h_lines h) →
  let p := page f (λ c, c <? 0) (λ c, c <? 0) (rev (h_lines h)) in let n := Z.to_nat (limit f) in
  ∃ w, hbm_return_before now (result_of object [] 0) h f = Ok (result_of object (rev (take n p)) (end_flag n p), w).
Proof.
  intros H p n. unfold hbm_return_before. rewrite collect_page by (by apply Forall_rev). fold p n.
  rewrite prepend_lines, app_nil_r, reached_end_of. by eexists.
Qed.

(** [hbm_return_latest] starts at the tail. *)
Lemma latest_collect now f back written r :
  Forall line_ok back →
  latest_loop now f back written r =
  collect now (Filter (f_cmd f) 0 0 None None (timestamp_a f) (msgid_a f) None (limit f)) (λ _, false) (λ c, c <=? 0)
    hbm_result_prepend_line back true written r.
Proof.
  intros H. revert written r. induction H as [|l back Hl _ IH]; intros written r; [done|]. cbn [latest_loop collect].
  cbn [rbind negb andb timestamp_b msgid_b limit]. rewrite time_is_ok by done. cbn [rbind].
  destruct (_ || _); [done|]. destruct (_ <=? _); [done|]. rewrite duplicate_log_line_id by done. cbn [rbind]. apply IH.
Qed.
Lemma return_latest_page now object h f :
  Forall line_ok (h_lines h) →
  let p := take_while (λ l, negb (time_test (λ c, c <=? 0) (timestamp_a f) l || msgid_is (msgid_a f) l)) (rev (h_lines h)) in
  let n := Z.to_nat (limit f) in
  ∃ w, hbm_return_latest now (result_of object [] 0) h f = Ok (result_of object (rev (take n p)) (end_flag n p), w).
Proof.
  intros H p n. unfold hbm_return_latest. apply Forall_rev in H. rewrite latest_collect by done.
  rewrite collect_started by (done || simpl; lia). cbn [limit]. rewrite Z.sub_0_r. fold n.
  match goal with |- context [end_flag n ?q] => change q with p end.
  unfold cut. rewrite prepend_lines, app_nil_r, reached_end_of. by eexists.
Qed.

Lemma simple_loop_spec now redline skip lines cnt written object ls0 :
  Forall line_ok lines → 0 ≤ cnt →
  ∃ w, simple_loop now redline skip lines cnt written (result_of object ls0 0) =
    Ok (result_of object (ls0 ++ drop (Z.to_nat (skip - cnt)) (filter (λ l, redline ≤ l_t l) lines)) 0, w).
Proof.
  intros H. revert cnt written ls0. induction H as [|l lines Hl _ IH]; intros cnt written ls0 Hc; cbn [simple_loop].
  - rewrite filter_nil, drop_nil, app_nil_r. by eexists.
  - rewrite filter_cons. destruct (Z.leb_spec redline (l_t l)) as [Hr|Hr]; case_decide; try lia; [|by apply IH].
    destruct (Z.ltb_spec skip (cnt + 1)) as [Hs|Hs].
    + rewrite duplicate_log_line_id by done. cbn [rbind].
      change (hbm_result_append_line (result_of object ls0 0) l) with (foldl hbm_result_append_line (result_of object ls0 0) [l]).
      rewrite append_lines. destruct (IH (cnt + 1) (written + 1) (ls0 ++ [l]) ltac:(lia)) as (w & ->). exists w.
      replace (Z.to_nat (skip - cnt)) with 0%nat by lia. replace (Z.to_nat (skip - (cnt + 1))) with 0%nat by lia.
      by rewrite !drop_0, <-app_assoc.
    + destruct (IH (cnt + 1) written ls0 ltac:(lia)) as (w & ->). exists w.
      by replace (Z.to_nat (skip - cnt)) with (S (Z.to_nat (skip - (cnt + 1)))) by lia.
Qed.
Lemma return_simple_lines now object h f :
  Forall line_ok (h_lines h) → 0 ≤ last_lines f →
  let redline := if negb (last_seconds f =? 0) && (last_seconds f <? h_max_time h) then TStime now - last_seconds f
                 else TStime now - h_max_time h in
  ∃ w, hbm_return_simple now (result_of object [] 0) h f =
    Ok (result_of object (lastn (Z.to_nat (last_lines f)) (filter (λ l, redline ≤ l_t l) (h_lines h))) 0, w).
Proof.
  intros H Hl redline. unfold hbm_return_simple. fold redline.
  set (young := filter (λ l, redline ≤ l_t l) (h_lines h)).
  set (skip := if last_lines f <? Z.of_nat (length young) then _ else 0).
  destruct (simple_loop_spec now redline skip (h_lines h) 0 0 object [] H ltac:(lia)) as (w & ->). exists w.
  do 3 f_equal. unfold lastn. fold young. simpl. f_equal. unfold skip. destruct (Z.ltb_spec (last_lines f) (Z.of_nat (length young))); lia.
Qed.
