(* ===== verification/HistoryRequests.v ===== *)
(** * Reading a log (src/modules/history_backend_mem.c)

    What the requests of [HistoryLog] return, in terms of the times of the lines:
    the lines behind, before, between and around two points, page by page. *)

From stdpp Require Import base tactics list numbers strings sets sorting.
From Stdlib Require Import ZArith Lia.
From S2P Require Import Prelude Chars Support MessageTags Times HistoryLog.

Local Open Scope Z_scope.

(** ** Cutting a sorted list with a monotone condition *)

Section Cut.
Context {A : Type} (R : A → A → Prop) (P : A → bool).

Lemma drop_while_filter l :
  StronglySorted R l → (∀ a b, a ∈ l → b ∈ l → R a b → P a = true → P b = true) →
  drop_while (λ x, negb (P x)) l = filter (λ x, P x = true) l.
Proof.
  induction 1 as [|x l Hs IH Hx]; intros HP; [done|]. cbn [drop_while]. rewrite filter_cons.
  destruct (P x) eqn:E; cbn [negb]; case_decide; try done.
  - f_equal. symmetry. apply filter_all. rewrite Forall_forall. intros y Hy. rewrite Forall_forall in Hx.
    apply (HP x y); [left|by right|by apply Hx|done].
  - apply IH. intros a b Ha Hb. apply HP; by right.
Qed.
Lemma take_while_filter l :
  StronglySorted R l → (∀ a b, a ∈ l → b ∈ l → R a b → P b = true → P a = true) →
  take_while P l = filter (λ x, P x = true) l.
Proof.
  induction 1 as [|x l Hs IH Hx]; intros HP; [done|]. cbn [take_while]. rewrite filter_cons.
  destruct (P x) eqn:E; case_decide; try done.
  - f_equal. apply IH. intros a b Ha Hb. apply HP; by right.
  - symmetry. destruct (filter _ l) as [|y r] eqn:Ef; [done|]. exfalso. rewrite Forall_forall in Hx.
    assert (y ∈ filter (λ z, P z = true) l) as Hy by (rewrite Ef; left). apply list_elem_of_filter in Hy as [Py Hy].
    by rewrite (HP x y ltac:(left) ltac:(by right) (Hx y Hy) Py) in E.
Qed.
End Cut.

Lemma sorted_rev {A} (R : A → A → Prop) l : StronglySorted R l → StronglySorted (flip R) (rev l).
Proof.
  induction 1 as [|x l Hs IH Hx]; simpl; [constructor|]. apply StronglySorted_app. split_and!; [|done|by repeat constructor].
  intros a b Ha ->%list_elem_of_singleton. rewrite elem_of_rev in Ha. rewrite Forall_forall in Hx. by apply Hx.
Qed.

Lemma filter_rev {A} (P : A → Prop) `{!∀ x, Decision (P x)} l : filter P (rev l) = rev (filter P l).
Proof.
  induction l as [|x l IH]; [done|]. simpl. rewrite filter_app, IH, !filter_cons, filter_nil.
  case_decide; simpl; by rewrite ?app_nil_r.
Qed.

(** ** The order of times *)

(** Times as the server makes them: to the millisecond, up to the year 9999. *)
Definition canonical (l : HistoryLogLine) : Prop := ∃ sec msec, stamp_ok sec msec ∧ l_time l = Some (stamp sec msec).
Definition time_le (a b : HistoryLogLine) : Prop := text_le (line_time a) (line_time b).

Lemma line_le_time a b : line_ok a → line_ok b → canonical a → canonical b → line_le a b → time_le a b.
Proof.
  intros [_ _ [Ta _] _ _ _ _] [_ _ [Tb _] _ _ _ _] (sa & ma & Oa & Ea) (sb & mb & Ob & Eb) [Hlt|[_ H]]; [|done].
  rewrite Ea, (unix_time_stamp _ _ Oa) in Ta. rewrite Eb, (unix_time_stamp _ _ Ob) in Tb. injection Ta as Ta. injection Tb as Tb.
  unfold time_le, text_le. rewrite (line_time_eq _ _ Ea), (line_time_eq _ _ Eb).
  pose proof (stamp_lt sa ma sb mb Oa Ob ltac:(lia)). lia.
Qed.

Lemma time_sorted ls :
  Forall line_ok ls → Forall canonical ls → StronglySorted line_le ls → StronglySorted time_le ls.
Proof.
  intros Hok Hc. induction 1 as [|x l Hs IH Hx]; [constructor|].
  apply Forall_cons in Hok as [Hx1 Hok]. apply Forall_cons in Hc as [Hx2 Hc]. constructor; [by apply IH|].
  rewrite Forall_forall in *. intros y Hy. apply line_le_time; auto.
Qed.

Lemma line_time_cstr l : line_ok l → cstr (line_time l).
Proof. intros [_ (s & Es & Hs) _ _ _ _ _]. by rewrite (line_time_eq _ _ Es). Qed.

(** Conditions on the time: behind, not before, before and not behind a point. *)
Definition later (ts : list Z) (l : HistoryLogLine) : bool := 0 <? strcmp (line_time l) ts.
Definition sooner (ts : list Z) (l : HistoryLogLine) : bool := strcmp (line_time l) ts <? 0.

Lemma later_mono ts a b : cstr ts → line_ok a → line_ok b → time_le a b → later ts a = true → later ts b = true.
Proof.
  unfold later, time_le. intros Ht Ha%line_time_cstr Hb%line_time_cstr Hle H. apply Z.ltb_lt in H. apply Z.ltb_lt.
  destruct (Z.lt_ge_cases 0 (strcmp (line_time b) ts)) as [|Hge]; [done|].
  pose proof (text_le_trans _ _ _ Ha Hb Ht Hle Hge) as H'. unfold text_le in H'. lia.
Qed.
Lemma sooner_mono ts a b : cstr ts → line_ok a → line_ok b → time_le a b → sooner ts b = true → sooner ts a = true.
Proof.
  unfold sooner, time_le. intros Ht Ha%line_time_cstr Hb%line_time_cstr Hle H. apply Z.ltb_lt in H. apply Z.ltb_lt.
  destruct (Z.lt_ge_cases (strcmp (line_time a) ts) 0) as [|Hge]; [done|]. unfold strcmp in *.
  assert (text_le ts (line_time a)) as H1 by (unfold text_le, strcmp; rewrite cmpz_anti; lia).
  pose proof (text_le_trans _ _ _ Ht Ha Hb H1 Hle) as H'. unfold text_le, strcmp in H'. rewrite cmpz_anti in H'. lia.
Qed.

(** ** What a request sees *)

Lemma total_lines_sublist a b : Forall line_ok b → a `sublist_of` b → total_lines a ≤ total_lines b.
Proof.
  intros Hb H. induction H as [|x a b _ IH|x a b _ IH]; [done|..]; apply Forall_cons in Hb as [[_ _ _ _ _ Hn _] Hb];
    specialize (IH Hb); simpl; lia.
Qed.

(** The clean-up before a request drops what is too old, and nothing else. *)
Lemma request_cleans now h :
  log_ok h → h_max_time h < now →
  let h' := if h_oldest_t h <? now - h_max_time h then hbm_history_cleanup now h else h in
  log_ok h' ∧ h_lines h' = filter (λ l, now - h_max_time h ≤ l_t l) (h_lines h) ∧
  h_max_time h' = h_max_time h ∧ h_max_lines h' = h_max_lines h ∧ h_name h' = h_name h.
Proof.
  intros Hok Hn. pose proof Hok as [Hc _ Hlim]. set (young := filter _ _). cbv zeta.
  destruct (Z.ltb_spec (h_oldest_t h) (now - h_max_time h)) as [Hlt|Hge].
  2: { split_and!; try done. symmetry. apply filter_all. destruct Hc as [_ _ _ Ho].
       eapply Forall_impl; [exact Ho|]. simpl. lia. }
  destruct (log_cleanup_ok now h Hc Hn) as (C & M & T & N & j & L & J & K). fold young in L, J, K. split_and!; try done.
  rewrite L. assert (young `sublist_of` h_lines h) as Hy by apply sublist_filter.
  destruct (decide (young = [])) as [->|Hne]; [by rewrite drop_nil|]. destruct j as [|j]; [done|]. exfalso.
  assert (length (drop (S j) young) ≠ 0%nat) as Hlen by (rewrite <-L; by intros ?%nil_length_inv%(K Hne)).
  rewrite length_drop in Hlen. pose proof (sublist_length _ _ Hy). destruct Hlim as [Hlim|Hone]; [|lia].
  specialize (J ltac:(lia)). destruct Hc as [Hl _ Hcount _].
  pose proof (total_lines_sublist (drop (S j - 1) young) (h_lines h) Hl) as Ht.
  ospecialize (Ht _); [by etrans; [apply sublist_drop|]|]. lia.
Qed.

(** The filter of a request with two points in time. *)
Definition by_time (cmd : HistoryFilterCommand) (a b : option (list Z)) (n : Z) : HistoryFilter :=
  Filter cmd 0 0 a None b None None n.

(** Only the condition matters to a cut. *)
Lemma drop_while_ext {A} (P Q : A → bool) l : (∀ x, P x = Q x) → drop_while P l = drop_while Q l.
Proof. intros H. induction l as [|x l IH]; simpl; [done|]. by rewrite H, IH. Qed.
Lemma take_while_ext {A} (P Q : A → bool) l : (∀ x, P x = Q x) → take_while P l = take_while Q l.
Proof. intros H. induction l as [|x l IH]; simpl; [done|]. by rewrite H, IH. Qed.

(** A start that is a time only: the lines that are not in front of it. *)
Lemma from_time starts cmd a b n ls :
  from_start (by_time cmd (Some a) b n) starts ls = drop_while (λ l, negb (starts (strcmp (line_time l) a))) ls.
Proof.
  unfold from_start. cbn [timestamp_a msgid_a by_time time_test msgid_is].
  rewrite (drop_while_ext _ (λ l, negb (starts (strcmp (line_time l) a)))) by (intros l; by rewrite orb_false_r).
  destruct (drop_while _ ls) as [|x r] eqn:E; [done|]. apply drop_while_head, negb_false_iff in E. by rewrite E.
Qed.

Section Points.
Context (ls : list HistoryLogLine) (Hok : Forall line_ok ls) (Hs : StronglySorted time_le ls).

Lemma later_cut ts :
  cstr ts → drop_while (λ l, negb (later ts l)) ls = filter (λ l, later ts l = true) ls ∧
  take_while (later ts) (rev ls) = rev (filter (λ l, later ts l = true) ls).
Proof.
  intros Ht. rewrite Forall_forall in Hok. split.
  - apply (drop_while_filter time_le); [done|]. intros x y Hx Hy. apply later_mono; auto.
  - rewrite <-filter_rev. apply (take_while_filter (flip time_le)); [by apply sorted_rev|].
    intros x y; rewrite !elem_of_rev; intros Hx Hy Hxy. by apply later_mono; auto.
Qed.
Lemma sooner_cut ts :
  cstr ts → take_while (sooner ts) ls = filter (λ l, sooner ts l = true) ls ∧
  drop_while (λ l, negb (sooner ts l)) (rev ls) = rev (filter (λ l, sooner ts l = true) ls).
Proof.
  intros Ht. rewrite Forall_forall in Hok. split.
  - apply (take_while_filter time_le); [done|]. intros x y Hx Hy Hxy. apply sooner_mono; auto.
  - rewrite <-filter_rev. apply (drop_while_filter (flip time_le)); [by apply sorted_rev|].
    intros x y; rewrite !elem_of_rev; intros Hx Hy Hxy. by apply sooner_mono; auto.
Qed.
End Points.

(** Without an end, a page is everything from its start. *)
Lemma page_to_end f starts stops ls : timestamp_b f = None → msgid_b f = None → page f starts stops ls = from_start f starts ls.
Proof.
  intros H1 H2. unfold page. apply take_while_all. rewrite Forall_forall. intros l _. unfold stop_here. by rewrite H1, H2.
Qed.

Lemma page_after cmd ls a n :
  Forall line_ok ls → StronglySorted time_le ls → cstr a →
  page (by_time cmd (Some a) None n) (λ c, 0 <? c) (λ c, 0 <=? c) ls = filter (λ l, later a l = true) ls.
Proof. intros. rewrite page_to_end, from_time by done. by apply later_cut. Qed.

Lemma page_before cmd ls a n :
  Forall line_ok ls → StronglySorted time_le ls → cstr a →
  page (by_time cmd (Some a) None n) (λ c, c <? 0) (λ c, c <? 0) (rev ls) = rev (filter (λ l, sooner a l = true) ls).
Proof. intros. rewrite page_to_end, from_time by done. by apply sooner_cut. Qed.

Lemma page_between cmd ls a b n :
  Forall line_ok ls → StronglySorted time_le ls → cstr a → cstr b →
  page (by_time cmd (Some a) (Some b) n) (λ c, 0 <? c) (λ c, 0 <=? c) ls =
  filter (λ l, sooner b l = true) (filter (λ l, later a l = true) ls).
Proof.
  intros Hok Hs Ha Hb. unfold page. rewrite from_time.
  destruct (later_cut ls Hok Hs a Ha) as [E _]. unfold later in E at 1. rewrite E.
  rewrite (take_while_ext _ (sooner b)).
  - apply sooner_cut; [|by eapply sorted_sublist; [apply sublist_filter|]|done].
    by eapply sublist_Forall; [apply sublist_filter|].
  - intros l. unfold stop_here, sooner. cbn [timestamp_b msgid_b by_time time_test msgid_is]. rewrite orb_false_r. lia.
Qed.

Lemma latest_from ls a :
  Forall line_ok ls → StronglySorted time_le ls → cstr a →
  take_while (λ l, negb (time_test (λ c, c <=? 0) (Some a) l || msgid_is None l)) (rev ls) =
  rev (filter (λ l, later a l = true) ls).
Proof.
  intros Hok Hs Ha. rewrite (take_while_ext _ (later a)); [by apply later_cut|].
  intros l. unfold later. cbn [time_test msgid_is]. rewrite orb_false_r. lia.
Qed.

(** ** A log with three lines *)

Definition SAMPLE_TIME : Z := 1700000000.
Definition sample_line (id : string) (sec : Z) : HistoryLogLine :=
  Line [] 1 (Z.of_nat (length (bs id))) 0 sec (bs id) (Some (stamp sec 0))
    [MTag (bs "time") (Some (stamp sec 0)); MTag (bs "msgid") (Some (bs id)); MTag (bs "account") (Some (bs "bob"))] (bs id).
Definition sample_log : HistoryLogObject :=
  Object [sample_line "A" SAMPLE_TIME; sample_line "B" (SAMPLE_TIME + 1); sample_line "C" (SAMPLE_TIME + 2)]
    3 SAMPLE_TIME 5 86400 false (bs "#c").
Definition sample_now : moment := Moment (SAMPLE_TIME + 10) 0 (SAMPLE_TIME + 10) (bs "rnd").

Lemma sample_line_ok id sec : cstr (bs id) → 0 < sec < MAX_TIME → line_ok (sample_line id sec).
Proof.
  intros Hid Hsec. constructor; try done.
  - by eexists.
  - eexists. split; [done|]. apply stamp_cstr.
  - split; [|cbn [l_t sample_line]; lia]. apply unix_time_stamp. split; cbn [l_t sample_line]; lia.
  - by eexists (MTag _ _).
  - cbn [l_num_bytes l_line l_batch sample_line batch_bytes foldr]. lia.
Qed.
Lemma sample_canonical id sec : 0 ≤ sec < MAX_TIME → canonical (sample_line id sec).
Proof. intros H. exists sec, 0. split; [split; lia|done]. Qed.
Lemma sample_log_ok : log_ok sample_log.
Proof.
  constructor; [constructor|..]; cbn [sample_log h_lines h_num_lines h_oldest_t h_max_lines].
  - rewrite !Forall_cons. split_and!; [..|constructor]; apply sample_line_ok; try by repeat constructor.
  - repeat constructor; left; cbn [l_t sample_line]; lia.
  - done.
  - repeat constructor; cbn [l_t sample_line]; lia.
  - done.
  - left. lia.
Qed.

(** ** Requests by time *)

Definition latest_filter (a : option (list Z)) (n : Z) : HistoryFilter := by_time HFC_LATEST a None n.
Definition simple_filter (n secs : Z) : HistoryFilter := Filter HFC_SIMPLE n secs None None None None None 0.

(** What the answers are cut from: at most [n] lines of [p], and whether these are all. *)
Definition oldest_of_page (object : list Z) (n : Z) (p : list HistoryLogLine) : HistoryResult :=
  result_of object (take (Z.to_nat n) p) (end_flag (Z.to_nat n) p).
Definition newest_of_page (object : list Z) (n : Z) (p : list HistoryLogLine) : HistoryResult :=
  result_of object (lastn (Z.to_nat n) p) (end_flag (Z.to_nat n) p).

Lemma end_flag_rev n (p : list HistoryLogLine) : end_flag n (rev p) = end_flag n p.
Proof. unfold end_flag. by rewrite length_rev. Qed.

Lemma between_direction h a b n :
  hbm_return_between_figure_out_direction h (by_time HFC_BETWEEN (Some a) (Some b) n) = Ok (if strcmp a b <=? 0 then 1 else 0).
Proof. done. Qed.

(** C20.  Requests by time.  A request first drops what is too old, and only that;
    the log stays well-formed.  Behind a time it returns the oldest lines that are
    later; before a time, the newest that are sooner; the latest lines are the newest
    ones that are later than a time; between two times, whichever comes first, it
    returns the oldest lines that are strictly between; a simple request returns the
    newest lines of the last seconds.  No answer has more lines than asked for, all
    are in the order of the log, and the end flag says whether there are no more. *)
Theorem history_requests_correct now object h a b n secs :
  log_ok h → Forall canonical (h_lines h) → h_max_time h < TStime now → cstr a → cstr b → 0 ≤ n →
  let young := filter (λ l, TStime now - h_max_time h ≤ l_t l) (h_lines h) in
  let past lo := filter (λ l, later lo l = true) young in
  let before hi := filter (λ l, sooner hi l = true) young in
  let between lo hi := filter (λ l, sooner hi l = true) (past lo) in
  let age := if negb (secs =? 0) && (secs <? h_max_time h) then secs else h_max_time h in
  ∃ h', log_ok h' ∧ h_lines h' = young ∧
    let request := hbm_history_request_from now object h in
    request (by_time HFC_AFTER (Some a) None n) = Ok (h', oldest_of_page object n (past a)) ∧
    request (by_time HFC_BEFORE (Some a) None n) = Ok (h', newest_of_page object n (before a)) ∧
    request (latest_filter (Some a) n) = Ok (h', newest_of_page object n (past a)) ∧
    request (latest_filter None n) = Ok (h', newest_of_page object n young) ∧
    request (by_time HFC_BETWEEN (Some a) (Some b) n) =
      Ok (h', oldest_of_page object n (if strcmp a b <=? 0 then between a b else between b a)) ∧
    request (simple_filter n secs) =
      Ok (h', result_of object (lastn (Z.to_nat n) (filter (λ l, TStime now - age ≤ l_t l) young)) 0).
Proof.
  intros Hlog Hcan Hnow Ha Hb Hn young past before between age.
  destruct (request_cleans (TStime now) h Hlog Hnow) as (Hlog' & Hl & Ht & _). unfold hbm_history_request_from. cbv zeta.
  set (h' := if h_oldest_t h <? _ then _ else h) in *. clearbody h'. fold young in Hl.
  pose proof Hlog' as [[Hok Hsort _ _] _ _].
  assert (StronglySorted time_le young) as Hts.
  { rewrite <-Hl. apply time_sorted; try done. rewrite Hl. by eapply sublist_Forall; [apply sublist_filter|]. }
  rewrite Hl in Hok. exists h'. change (Result object [] 0 0 0) with (result_of object [] 0).
  assert (Forall line_ok (h_lines h')) as Hok' by (by rewrite Hl). split_and!; [done..| | | | | |]; cbn [f_cmd by_time latest_filter simple_filter].
  - destruct (return_after_page now object h' (by_time HFC_AFTER (Some a) None n) Hok') as (w & ->).
    rewrite Hl, page_after by done. done.
  - destruct (return_before_page now object h' (by_time HFC_BEFORE (Some a) None n) Hok') as (w & ->).
    rewrite Hl, page_before by done. cbn [rbind limit by_time]. by rewrite rev_take, end_flag_rev.
  - destruct (return_latest_page now object h' (latest_filter (Some a) n) Hok') as (w & ->).
    cbn [timestamp_a msgid_a by_time latest_filter limit rbind]. rewrite Hl, latest_from by done. by rewrite rev_take, end_flag_rev.
  - destruct (return_latest_page now object h' (latest_filter None n) Hok') as (w & ->).
    cbn [timestamp_a msgid_a by_time latest_filter limit rbind]. rewrite take_while_all by (by apply Forall_forall).
    by rewrite rev_take, end_flag_rev, Hl.
  - unfold hbm_return_between. rewrite between_direction. cbn [rbind]. destruct (strcmp a b <=? 0); cbn [Z.eqb].
    + destruct (return_after_page now object h' (by_time HFC_BETWEEN (Some a) (Some b) n) Hok') as (w & ->).
      rewrite Hl, page_between by done. done.
    + destruct (return_after_page now object h' (by_time HFC_BEFORE (Some b) (Some a) n) Hok') as (w & E).
      change (Filter _ _ _ _ _ _ _ _ _) with (by_time HFC_BEFORE (Some b) (Some a) n). rewrite E.
      rewrite Hl, page_between by done. done.
  - destruct (return_simple_lines now object h' (simple_filter n secs) Hok' Hn) as (w & E). rewrite E. cbn [rbind].
    do 3 f_equal. cbn [last_seconds last_lines simple_filter]. rewrite Ht, Hl. fold young. do 2 f_equal. unfold age.
    by destruct (negb (secs =? 0) && (secs <? h_max_time h)).
Qed.

Lemma history_requests_witness :
  ∃ h', hbm_history_request_from sample_now (bs "#c") sample_log (by_time HFC_AFTER (Some (stamp SAMPLE_TIME 0)) None 1) =
    Ok (h', oldest_of_page (bs "#c") 1 [sample_line "B" (SAMPLE_TIME + 1); sample_line "C" (SAMPLE_TIME + 2)]).
Proof.
  assert (stamp_ok SAMPLE_TIME 0) as Hs by (split; unfold SAMPLE_TIME, MAX_TIME; lia).
  destruct (history_requests_correct sample_now (bs "#c") sample_log (stamp SAMPLE_TIME 0) (stamp SAMPLE_TIME 0) 1 0)
    as (h' & _ & _ & H & _).
  - apply sample_log_ok.
  - repeat constructor; apply sample_canonical; unfold SAMPLE_TIME, MAX_TIME; lia.
  - vm_compute. reflexivity.
  - apply stamp_cstr.
  - apply stamp_cstr.
  - lia.
  - exists h'. rewrite H. do 2 f_equal; vm_compute; reflexivity.
Defined.

(** ** Requests by message id *)

Definition by_id (cmd : HistoryFilterCommand) (a b : option (list Z)) (n : Z) : HistoryFilter :=
  Filter cmd 0 0 None a None b None n.
Definition id_of (l : HistoryLogLine) : option (list Z) := Some (l_msgid l).

Lemma msgid_is_dec id l : cstr id → line_ok l → msgid_is (Some id) l = bool_decide (l_msgid l = id).
Proof. intros Hid [_ _ _ _ Hl _ _]. unfold msgid_is. by apply strcmp_zero. Qed.
Lemma msgid_is_self l : line_ok l → msgid_is (id_of l) l = true.
Proof. intros H. unfold id_of. rewrite msgid_is_dec by (done || by destruct H). by apply bool_decide_eq_true. Qed.

(** The lines in front of one whose id is unique have other ids. *)
Lemma ids_differ m ls : line_ok m → Forall line_ok ls → l_msgid m ∉ map l_msgid ls → Forall (λ l, msgid_is (id_of m) l = false) ls.
Proof.
  intros Hm Hls Hn. rewrite Forall_forall in *. intros l Hl. unfold id_of. rewrite msgid_is_dec by (auto; by destruct Hm).
  apply bool_decide_eq_false. intros E. apply Hn. rewrite <-E. by apply (list_elem_of_fmap_2 l_msgid).
Qed.

Lemma from_id starts cmd b n pre m post :
  line_ok m → Forall line_ok pre → l_msgid m ∉ map l_msgid pre →
  from_start (by_id cmd (id_of m) b n) starts (pre ++ m :: post) = post.
Proof.
  intros Hm Hp Hn. unfold from_start. cbn [timestamp_a msgid_a by_id time_test orb].
  rewrite drop_while_app.
  - cbn [drop_while]. by rewrite msgid_is_self.
  - eapply Forall_impl; [by apply ids_differ|]. intros l E. cbn beta. by rewrite E.
Qed.

Lemma to_id f stops mid m post :
  timestamp_b f = None → msgid_b f = id_of m → line_ok m → Forall line_ok mid → l_msgid m ∉ map l_msgid mid →
  take_while (λ l, negb (stop_here f stops l)) (mid ++ m :: post) = mid.
Proof.
  intros Ht Hb Hm Hmid Hn. unfold stop_here. rewrite Ht, Hb. cbn [time_test orb]. rewrite take_while_app.
  - cbn [take_while]. rewrite msgid_is_self by done. apply app_nil_r.
  - eapply Forall_impl; [by apply ids_differ|]. intros l E. cbn beta. by rewrite E.
Qed.

(** Which of two messages comes first. *)
Lemma direction_skip f ls rest found_a found_b :
  timestamp_a f = None → timestamp_b f = None →
  Forall (λ l, (found_a = true ∨ msgid_is (msgid_a f) l = false) ∧ (found_b = true ∨ msgid_is (msgid_b f) l = false)) ls →
  direction_loop f (ls ++ rest) found_a found_b = direction_loop f rest found_a found_b.
Proof.
  intros Ha Hb. induction 1 as [|l ls [H1 H2] _ IH]; [done|]. cbn [app direction_loop]. rewrite Ha, Hb. cbn [time_is].
  destruct found_a, found_b; cbn [rbind orb]; destruct H1 as [|H1]; try done; destruct H2 as [|H2]; try done;
    rewrite ?H1, ?H2; cbn [rbind orb]; exact IH.
Qed.

(** Two messages of a log, with what is around them. *)
Section Two.
Context (pre mid post : list HistoryLogLine) (x y : HistoryLogLine).
Let ls := pre ++ x :: mid ++ y :: post.
Context (Hok : Forall line_ok ls) (Hid : NoDup (map l_msgid ls)).

Lemma two_ok : Forall line_ok pre ∧ line_ok x ∧ Forall line_ok mid ∧ line_ok y.
Proof.
  subst ls. apply Forall_app in Hok as [H1 H2]. apply Forall_cons in H2 as [H2 H3]. apply Forall_app in H3 as [H3 H4].
  by apply Forall_cons in H4 as [H4 _].
Qed.
Lemma two_ids :
  (l_msgid x ∉ map l_msgid pre) ∧ (l_msgid x ∉ map l_msgid mid) ∧ (l_msgid y ∉ map l_msgid pre) ∧ (l_msgid y ∉ map l_msgid mid) ∧
  l_msgid y ≠ l_msgid x.
Proof.
  subst ls. rewrite map_app in Hid. cbn [map] in Hid. rewrite map_app in Hid. cbn [map] in Hid.
  apply NoDup_app in Hid as (_ & Hpre & Hid). apply NoDup_cons in Hid as [Hx Hid]. apply NoDup_app in Hid as (_ & Hmid & _).
  clear Hok. set_solver.
Qed.

Lemma direction_two cmd n :
  direction_loop (by_id cmd (id_of x) (id_of y) n) ls false false = Ok 1 ∧
  direction_loop (by_id cmd (id_of y) (id_of x) n) ls false false = Ok 0.
Proof.
  destruct two_ok as (O1 & O2 & O3 & O4). destruct two_ids as (I1 & I2 & I3 & I4 & I5).
  pose proof (ids_differ x pre O2 O1 I1) as D1. pose proof (ids_differ y pre O4 O1 I3) as D2.
  pose proof (ids_differ y mid O4 O3 I4) as D3.
  assert (msgid_is (id_of y) x = false) as D4.
  { unfold id_of. rewrite msgid_is_dec by (done || by destruct O4). apply bool_decide_eq_false. congruence. }
  assert (Forall (λ l, msgid_is (id_of x) l = false ∧ msgid_is (id_of y) l = false) pre) as D by (by apply Forall_and).
  subst ls. split; rewrite direction_skip by (done || (eapply Forall_impl; [exact D|]; cbn; tauto));
    cbn [direction_loop timestamp_a timestamp_b msgid_a msgid_b by_id time_is rbind orb];
    rewrite ?D4, ?msgid_is_self by done; cbn [rbind orb];
    (rewrite direction_skip by (done || (eapply Forall_impl; [exact D3|]; cbn; tauto)));
    cbn [direction_loop timestamp_a timestamp_b msgid_a msgid_b by_id time_is rbind orb];
    rewrite ?msgid_is_self by done; done.
Qed.

Lemma page_two cmd n : page (by_id cmd (id_of x) (id_of y) n) (λ c, 0 <? c) (λ c, 0 <=? c) ls = mid.
Proof.
  destruct two_ok as (O1 & O2 & O3 & O4). destruct two_ids as (I1 & I2 & I3 & I4 & I5).
  unfold page, ls. rewrite from_id by done. by apply to_id.
Qed.
End Two.

(** ** Around a message *)

(** The number of lines in front of the mid-point. *)
Definition around_before (n : Z) (is_last : bool) : nat := Z.to_nat (Z.max 1 (if is_last then n - 1 else Z.quot n 2)).
(** The answer: lines in front, the mid-point and as many as are left behind it. *)
Definition around_lines (n : Z) (pre : list HistoryLogLine) (m : HistoryLogLine) (post : list HistoryLogLine)
  : list HistoryLogLine :=
  let front := lastn (around_before n (bool_decide (post = []))) pre in
  front ++ take (Z.to_nat (Z.max 1 (n - Z.of_nat (length front)))) (m :: post).

Lemma around_back_found now cmd a n total mid back written r :
  Forall line_ok back →
  let enough := if (S mid <? total)%nat then Z.quot n 2 else n - 1 in
  let front := take (Z.to_nat (Z.max 1 (enough - written))) back in
  around_back now (by_id cmd a None n) total back (Some mid) written r =
  Ok (foldl hbm_result_prepend_line r front, Some mid, written + Z.of_nat (length front)).
Proof.
  intros H enough. revert written r. induction H as [|l back Hl _ IH]; intros written r; cbn [around_back].
  { rewrite take_nil. simpl. by rewrite Z.add_0_r. }
  cbn [rbind]. rewrite bool_decide_eq_true_2 by by eexists. cbn [negb andb].
  cbn [timestamp_b msgid_b by_id time_is msgid_is rbind orb]. rewrite duplicate_log_line_id by done. cbn [rbind limit].
  change (limit (by_id cmd a None n)) with n. fold enough. destruct (Z.leb_spec enough (written + 1)) as [He|He].
  - replace (Z.to_nat (Z.max 1 (enough - written))) with 1%nat by lia. done.
  - rewrite IH.
    replace (Z.to_nat (Z.max 1 (enough - written))) with (S (Z.to_nat (Z.max 1 (enough - (written + 1))))) by lia.
    cbn [take foldl length]. do 2 f_equal. lia.
Qed.

Lemma around_back_search now cmd m n total skip rest written r :
  line_ok m → Forall line_ok skip → l_msgid m ∉ map l_msgid skip →
  around_back now (by_id cmd (id_of m) None n) total (skip ++ m :: rest) None written r =
  around_back now (by_id cmd (id_of m) None n) total rest (Some (length rest)) written r.
Proof.
  intros Hm Hs Hn. pose proof (ids_differ m skip Hm Hs Hn) as D. clear Hs Hn.
  induction D as [|l skip D _ IH]; cbn [app around_back timestamp_a msgid_a by_id time_is rbind].
  - rewrite bool_decide_eq_false_2 by (by intros [? ?]). rewrite msgid_is_self by done. done.
  - rewrite bool_decide_eq_false_2 by (by intros [? ?]). rewrite D. cbn [negb andb]. exact IH.
Qed.

Lemma around_forward_all now f lines written r :
  Forall line_ok lines →
  ∃ w, around_forward now f lines written r =
    Ok (foldl hbm_result_append_line r (take (Z.to_nat (Z.max 1 (limit f - written))) lines), w).
Proof.
  intros H. revert written r. induction H as [|l lines Hl _ IH]; intros written r; cbn [around_forward].
  { rewrite take_nil. by eexists. }
  rewrite duplicate_log_line_id by done. cbn [rbind]. destruct (Z.leb_spec (limit f) (written + 1)) as [He|He].
  - replace (Z.to_nat (Z.max 1 (limit f - written))) with 1%nat by lia. by eexists.
  - destruct (IH (written + 1) (hbm_result_append_line r l)) as (w & ->). exists w.
    by replace (Z.to_nat (Z.max 1 (limit f - written))) with (S (Z.to_nat (Z.max 1 (limit f - (written + 1))))) by lia.
Qed.

Lemma return_around_id now object h cmd n pre m post :
  h_lines h = pre ++ m :: post → Forall line_ok (h_lines h) → NoDup (map l_msgid (h_lines h)) →
  ∃ w, hbm_return_around now (result_of object [] 0) h (by_id cmd (id_of m) None n) =
    Ok (result_of object (around_lines n pre m post) 0, w).
Proof.
  intros E Hok Hid. rewrite E in Hok, Hid. apply Forall_app in Hok as [Hpre Hok]. apply Forall_cons in Hok as [Hm Hpost].
  rewrite map_app in Hid. cbn [map] in Hid. apply NoDup_app in Hid as (_ & _ & Hid). apply NoDup_cons in Hid as [Hn _].
  unfold hbm_return_around. rewrite E, rev_app_distr. cbn [rev]. rewrite <-app_assoc. cbn [app].
  rewrite around_back_search; [|done|by apply Forall_rev|].
  2: { by rewrite map_rev, elem_of_rev. }
  rewrite around_back_found by (by apply Forall_rev). cbn [rbind]. rewrite prepend_lines, app_nil_r, rev_take, !Z.sub_0_r.
  rewrite length_rev, drop_app_length.
  set (f := by_id cmd (id_of m) None n). set (front := lastn _ pre).
  set (taken := length _). assert (taken = length front) as ->.
  { unfold taken, front. by rewrite <-rev_take, length_rev. }
  destruct (around_forward_all now f (m :: post) (0 + Z.of_nat (length front)) (result_of object front 0) ltac:(by constructor))
    as (w & ->). exists w. rewrite append_lines, Z.add_0_l. do 3 f_equal. unfold around_lines.
  assert (lastn (around_before n (bool_decide (post = []))) pre = front) as ->; [|done].
  unfold front, around_before. do 3 f_equal. rewrite length_app. cbn [length].
  destruct post as [|p post]; case_bool_decide; try done; cbn [length];
    match goal with |- context [(?a <? ?b)%nat] => destruct (Nat.ltb_spec a b) end; lia || done.
Qed.

(** With room for two lines or more, the mid-point is there, within the limit. *)
Lemma around_lines_bound n pre m post :
  2 ≤ n → m ∈ around_lines n pre m post ∧ Z.of_nat (length (around_lines n pre m post)) ≤ n.
Proof.
  intros Hn. unfold around_lines. set (front := lastn _ pre).
  assert (Z.of_nat (length front) ≤ n - 1) as Hf.
  { unfold front, lastn, around_before. rewrite length_drop. pose proof (Z.quot_lt n 2).
    assert (Z.quot n 2 * 2 ≤ n) by (rewrite Z.mul_comm; apply Z.mul_quot_le; lia).
    case_bool_decide; lia. }
  split.
  - apply elem_of_app. right. destruct (Z.to_nat _) eqn:E; [lia|]. simpl. left.
  - rewrite length_app, length_take. lia.
Qed.

(** ** The requests by id *)

Section One.
Context (pre post : list HistoryLogLine) (m : HistoryLogLine).
Let ls := pre ++ m :: post.
Context (Hok : Forall line_ok ls) (Hid : NoDup (map l_msgid ls)).

Lemma one_ok : Forall line_ok pre ∧ line_ok m ∧ Forall line_ok post ∧ (l_msgid m ∉ map l_msgid pre) ∧ (l_msgid m ∉ map l_msgid post).
Proof.
  subst ls. apply Forall_app in Hok as [H1 H2]. apply Forall_cons in H2 as [H2 H3]. rewrite map_app in Hid. cbn [map] in Hid.
  apply NoDup_app in Hid as (_ & Hd & Hm). apply NoDup_cons in Hm as [Hm _]. split_and!; try done. intros H%Hd. apply H. left.
Qed.
Lemma page_after_id cmd n : page (by_id cmd (id_of m) None n) (λ c, 0 <? c) (λ c, 0 <=? c) ls = post.
Proof. destruct one_ok as (O1 & O2 & O3 & O4 & O5). rewrite page_to_end by done. by apply from_id. Qed.
Lemma page_before_id cmd n : page (by_id cmd (id_of m) None n) (λ c, c <? 0) (λ c, c <? 0) (rev ls) = rev pre.
Proof.
  destruct one_ok as (O1 & O2 & O3 & O4 & O5). rewrite page_to_end by done. unfold ls. rewrite rev_app_distr. cbn [rev].
  rewrite <-app_assoc. apply from_id; [done|by apply Forall_rev|by rewrite map_rev, elem_of_rev].
Qed.
Lemma latest_from_id :
  take_while (λ l, negb (time_test (λ c, c <=? 0) None l || msgid_is (id_of m) l)) (rev ls) = rev post.
Proof.
  destruct one_ok as (O1 & O2 & O3 & O4 & O5). unfold ls. rewrite rev_app_distr. cbn [rev]. rewrite <-app_assoc.
  apply (to_id (by_id HFC_LATEST None (id_of m) 0) (λ c, c <=? 0)); try done; [by apply Forall_rev|by rewrite map_rev, elem_of_rev].
Qed.
End One.

(** Requests by message id.  When ids are unique, the answers are what is
    behind and in front of the message, the latest lines back to it, the lines
    between two messages in either order, and around a message the lines in front of
    it, itself and the lines behind it, with the message among them and within the
    limit if that is two or more. *)
Theorem history_by_id_correct now object h pre x mid y post n :
  log_ok h → NoDup (map l_msgid (h_lines h)) → h_max_time h < TStime now →
  filter (λ l, TStime now - h_max_time h ≤ l_t l) (h_lines h) = pre ++ x :: mid ++ y :: post →
  ∃ h', log_ok h' ∧ h_lines h' = pre ++ x :: mid ++ y :: post ∧
    let request := hbm_history_request_from now object h in
    request (by_id HFC_AFTER (id_of x) None n) = Ok (h', oldest_of_page object n (mid ++ y :: post)) ∧
    request (by_id HFC_BEFORE (id_of x) None n) = Ok (h', newest_of_page object n pre) ∧
    request (by_id HFC_LATEST (id_of x) None n) = Ok (h', newest_of_page object n (mid ++ y :: post)) ∧
    request (by_id HFC_BETWEEN (id_of x) (id_of y) n) = Ok (h', oldest_of_page object n mid) ∧
    request (by_id HFC_BETWEEN (id_of y) (id_of x) n) = Ok (h', oldest_of_page object n mid) ∧
    request (by_id HFC_AROUND (id_of x) None n) = Ok (h', result_of object (around_lines n pre x (mid ++ y :: post)) 0) ∧
    (2 ≤ n → x ∈ around_lines n pre x (mid ++ y :: post) ∧ Z.of_nat (length (around_lines n pre x (mid ++ y :: post))) ≤ n).
Proof.
  intros Hlog Hid Hnow Hy.
  destruct (request_cleans (TStime now) h Hlog Hnow) as (Hlog' & Hl & Ht & _). unfold hbm_history_request_from. cbv zeta.
  set (h' := if h_oldest_t h <? _ then _ else h) in *. clearbody h'.
  assert (NoDup (map l_msgid (h_lines h'))) as Hid'.
  { rewrite Hl. eapply sublist_NoDup; [done|]. apply (fmap_sublist l_msgid), sublist_filter. }
  rewrite Hy in Hl. pose proof Hlog' as [[Hok _ _ _] _ _]. exists h'.
  change (Result object [] 0 0 0) with (result_of object [] 0). split_and!; [done..| | | | | | |apply around_lines_bound]; cbn [f_cmd by_id].
  - destruct (return_after_page now object h' (by_id HFC_AFTER (id_of x) None n) Hok) as (w & ->).
    rewrite Hl in *. by rewrite page_after_id.
  - destruct (return_before_page now object h' (by_id HFC_BEFORE (id_of x) None n) Hok) as (w & ->).
    rewrite Hl in *. rewrite page_before_id by done. cbn [rbind limit by_id]. by rewrite rev_take, end_flag_rev.
  - destruct (return_latest_page now object h' (by_id HFC_LATEST (id_of x) None n) Hok) as (w & ->).
    rewrite Hl in *. cbn [timestamp_a msgid_a by_id limit rbind]. rewrite latest_from_id by done. by rewrite rev_take, end_flag_rev.
  - unfold hbm_return_between, hbm_return_between_figure_out_direction. cbn [timestamp_a by_id].
    destruct (return_after_page now object h' (by_id HFC_BETWEEN (id_of x) (id_of y) n) Hok) as (w & ->).
    rewrite Hl in *. destruct (direction_two pre mid post x y Hok Hid' HFC_BETWEEN n) as [-> _]. cbn [rbind Z.eqb Pos.eqb].
    by rewrite page_two.
  - unfold hbm_return_between, hbm_return_between_figure_out_direction. cbn [timestamp_a timestamp_b msgid_a msgid_b limit by_id].
    destruct (return_after_page now object h' (by_id HFC_BEFORE (id_of x) (id_of y) n) Hok) as (w & E).
    unfold by_id in E at 1. rewrite E. clear E.
    rewrite Hl in *. destruct (direction_two pre mid post x y Hok Hid' HFC_BETWEEN n) as [_ ->]. cbn [rbind Z.eqb].
    by rewrite page_two.
  - destruct (return_around_id now object h' HFC_AROUND n pre x (mid ++ y :: post) Hl Hok Hid') as (w & ->). done.
Qed.

Lemma history_by_id_witness :
  ∃ h', hbm_history_request_from sample_now (bs "#c") sample_log (by_id HFC_AROUND (Some (bs "A")) None 2) =
    Ok (h', result_of (bs "#c") [sample_line "A" SAMPLE_TIME; sample_line "B" (SAMPLE_TIME + 1)] 0).
Proof.
  destruct (history_by_id_correct sample_now (bs "#c") sample_log [] (sample_line "A" SAMPLE_TIME)
    [sample_line "B" (SAMPLE_TIME + 1)] (sample_line "C" (SAMPLE_TIME + 2)) [] 2) as (h' & _ & _ & H).
  - apply sample_log_ok.
  - apply (bool_decide_unpack _). vm_compute. reflexivity.
  - vm_compute. reflexivity.
  - vm_compute. reflexivity.
  - destruct H as (_ & _ & _ & _ & _ & H & _). exists h'. exact H.
Defined.

(** ** Every request returns *)

(** The time that [hbm_return_around] calculates with is one. *)
Definition filter_ok (f : HistoryFilter) : Prop :=
  f_cmd f = HFC_AROUND → ∀ ts, timestamp_a f = Some ts → ∃ t, server_time_to_unix_time (Some ts) = Ok t.

Section Total.
Context (now : moment) (f : HistoryFilter).

Lemma around_back_total total back started written r :
  Forall line_ok back → ∃ x, around_back now f total back started written r = Ok x.
Proof.
  intros H. revert started written r. induction H as [|l back Hl _ IH]; intros started written r; [by eexists|].
  cbn [around_back].
  assert (∃ b, match started with Some _ => Ok false | None => time_is (λ c, c <? 0) (timestamp_a f) l end = Ok b) as (b & ->).
  { destruct started; [by eexists|]. rewrite time_is_ok by done. by eexists. }
  cbn [rbind]. destruct (_ && msgid_is _ _); [apply IH|]. destruct (if b then _ else started) as [mid|]; [|apply IH].
  rewrite time_is_ok by done. cbn [rbind]. destruct (_ || _); [by eexists|]. rewrite duplicate_log_line_id by done. cbn [rbind].
  destruct (_ <=? _); [by eexists|apply IH].
Qed.

Lemma around_total object h :
  filter_ok f → f_cmd f = HFC_AROUND → Forall line_ok (h_lines h) →
  ∃ x, hbm_return_around now (result_of object [] 0) h f = Ok x.
Proof.
  intros Hf Hc Hok. unfold hbm_return_around.
  destruct (around_back_total (length (h_lines h)) (rev (h_lines h)) None 0 (result_of object [] 0) ltac:(by apply Forall_rev))
    as ([[r started] written] & ->). cbn [rbind].
  match goal with |- ∃ x, rbind ?m _ = Ok x => assert (∃ s, m = Ok s) as (s & ->) end.
  { destruct started; [by eexists|]. destruct (timestamp_a f) as [ts|] eqn:Et; [|by eexists].
    destruct (last (h_lines h)) as [tail|] eqn:El; [|by eexists]. destruct (written =? 0); [|by eexists].
    destruct (Hf Hc ts Et) as (t & ->). cbn [rbind]. apply last_Some_elem_of in El. rewrite Forall_forall in Hok.
    destruct (Hok tail El) as [_ _ [-> _] _ _ _ _]. by eexists. }
  cbn [rbind]. destruct s as [k|]; [|by eexists].
  destruct (around_forward_all now f (drop k (h_lines h)) written r ltac:(by apply Forall_drop)) as (w & ->). by eexists.
Qed.

Lemma direction_total ls a b : Forall line_ok ls → ∃ d, direction_loop f ls a b = Ok d.
Proof.
  intros H. revert a b. induction H as [|l ls Hl _ IH]; intros a b; [by eexists|]. cbn [direction_loop].
  pose proof Hl as [_ (s & Es & _) _ _ _ _ _]. rewrite !time_is_ok by done. rewrite Es. cbn [strcmp_ptr rbind].
  repeat match goal with
  | |- ∃ d, rbind ?m _ = Ok d =>
      assert (∃ x, m = Ok x) as (? & ->); [repeat case_match; by eexists|cbn [rbind]; case_match; [by eexists|]]
  | |- ∃ d, rbind ?m _ = Ok d => assert (∃ x, m = Ok x) as (? & ->); [repeat case_match; by eexists|cbn [rbind]]
  end. apply IH.
Qed.

Lemma request_total object h :
  log_ok h → h_max_time h < TStime now → filter_ok f →
  ∃ h' r, hbm_history_request_from now object h f = Ok (h', r) ∧
    h' = (if h_oldest_t h <? TStime now - h_max_time h then hbm_history_cleanup (TStime now) h else h).
Proof.
  intros Hlog Hnow Hf. destruct (request_cleans (TStime now) h Hlog Hnow) as ([[Hok _ _ _] _ _] & _).
  unfold hbm_history_request_from. cbv zeta. set (h' := if h_oldest_t h <? _ then _ else h) in *. clearbody h'. exists h'.
  change (Result object [] 0 0 0) with (result_of object [] 0).
  match goal with |- ∃ r, rbind ?m _ = _ ∧ _ => assert (∃ x, m = Ok x) as ([r w] & ->); [|by exists r] end.
  destruct (f_cmd f) eqn:Ec.
  - unfold hbm_return_simple. edestruct simple_loop_spec as (w & ->); [done|lia|by eexists].
  - destruct (return_before_page now object h' f Hok) as (w & ->). by eexists.
  - destruct (return_after_page now object h' f Hok) as (w & ->). by eexists.
  - destruct (return_latest_page now object h' f Hok) as (w & ->). by eexists.
  - by apply around_total.
  - unfold hbm_return_between. assert (∃ d, hbm_return_between_figure_out_direction h' f = Ok d) as (d & ->).
    { unfold hbm_return_between_figure_out_direction. destruct (timestamp_a f), (timestamp_b f); (by eexists) || by apply direction_total. }
    cbn [rbind]. destruct (d =? 1); [|destruct (d =? 0); [|by eexists]].
    + destruct (return_after_page now object h' f Hok) as (w & ->). by eexists.
    + match goal with |- ∃ x, hbm_return_after _ _ _ ?g = _ => destruct (return_after_page now object h' g Hok) as (w & ->) end.
      by eexists.
Qed.
End Total.

(** ** Paging *)

Lemma take_last_S {A} k (l : list A) : (0 < k)%nat → (k ≤ length l)%nat → ∃ front x, take k l = front ++ [x].
Proof.
  intros Hk Hl. destruct (take k l) as [|a r] eqn:E using rev_ind; [|by eexists _, _].
  apply (f_equal length) in E. rewrite length_take in E. simpl in E. lia.
Qed.

(** A client that reads on, page by page, behind the last message it has. *)
Fixpoint read_on (fuel : nat) (now : moment) (object : list Z) (h : HistoryLogObject) (n : Z) (id : list Z)
  : res (list HistoryLogLine) :=
  match fuel with
  | O => NoFuel
  | S fuel =>
      let! (h, r) := hbm_history_request_from now object h (by_id HFC_AFTER (Some id) None n) in
      if r_reached_end r =? 1 then Ok (r_log r)
      else match last (r_log r) with
           | None => UB
           | Some l => let! rest := read_on fuel now object h n (l_msgid l) in Ok (r_log r ++ rest)
           end
  end.

Lemma request_after_id now object h pre m post n :
  log_ok h → NoDup (map l_msgid (h_lines h)) → h_max_time h < TStime now →
  filter (λ l, TStime now - h_max_time h ≤ l_t l) (h_lines h) = pre ++ m :: post →
  ∃ h', log_ok h' ∧ h_lines h' = pre ++ m :: post ∧ h_max_time h' = h_max_time h ∧
    hbm_history_request_from now object h (by_id HFC_AFTER (id_of m) None n) = Ok (h', oldest_of_page object n post).
Proof.
  intros Hlog Hid Hnow Hy.
  destruct (request_cleans (TStime now) h Hlog Hnow) as (Hlog' & Hl & Ht & _). unfold hbm_history_request_from. cbv zeta.
  set (h' := if h_oldest_t h <? _ then _ else h) in *. clearbody h'.
  assert (NoDup (map l_msgid (h_lines h'))) as Hid'.
  { rewrite Hl. eapply sublist_NoDup; [done|]. apply (fmap_sublist l_msgid), sublist_filter. }
  rewrite Hy in Hl. pose proof Hlog' as [[Hok _ _ _] _ _]. exists h'. split_and!; try done. cbn [f_cmd by_id].
  change (Result object [] 0 0 0) with (result_of object [] 0).
  destruct (return_after_page now object h' (by_id HFC_AFTER (id_of m) None n) Hok) as (w & ->).
  rewrite Hl in *. by rewrite page_after_id.
Qed.

(** C21.  Paging.  A client that asks for [n] lines behind the last message it has
    seen, until the end flag is set, gets every line of the log behind its starting
    point, once and in order, after at most one request per line and one more. *)
Theorem history_paging_complete now object h pre m post n fuel :
  log_ok h → NoDup (map l_msgid (h_lines h)) → h_max_time h < TStime now →
  filter (λ l, TStime now - h_max_time h ≤ l_t l) (h_lines h) = pre ++ m :: post → 1 ≤ n → (length post < fuel)%nat →
  read_on fuel now object h n (l_msgid m) = Ok post.
Proof.
  intros Hlog Hid Hnow Hy Hn. revert h pre m post Hlog Hid Hnow Hy.
  induction fuel as [|fuel IH]; intros h pre m post Hlog Hid Hnow Hy Hf; [lia|]. cbn [read_on].
  destruct (request_after_id now object h pre m post n Hlog Hid Hnow Hy) as (h' & Hlog' & Hl & Ht & E). unfold id_of in E.
  rewrite E. cbn [rbind oldest_of_page result_of r_reached_end r_log]. unfold end_flag. set (k := Z.to_nat n).
  destruct (Nat.leb_spec (length post) k) as [Hle|Hgt]; [by rewrite take_ge|]. cbn [Z.eqb].
  destruct (take_last_S k post) as (front & l & Efront); [lia..|]. rewrite Efront, last_snoc.
  assert (NoDup (map l_msgid (h_lines h'))) as Hid'.
  { rewrite Hl, <-Hy. eapply sublist_NoDup; [done|]. apply (fmap_sublist l_msgid), sublist_filter. }
  rewrite (IH h' (pre ++ m :: front) l (drop k post)); [|done..|by rewrite Ht| |rewrite length_drop; lia].
  - cbn [rbind]. by rewrite <-Efront, take_drop.
  - rewrite filter_all; [|].
    + rewrite Hl, <-(take_drop k post) at 1. rewrite Efront. by rewrite <-!app_assoc.
    + rewrite Ht, Hl, <-Hy. rewrite Forall_forall. by intros z [? _]%list_elem_of_filter.
Qed.

Lemma history_paging_witness :
  read_on 3 sample_now (bs "#c") sample_log 1 (bs "A") =
  Ok [sample_line "B" (SAMPLE_TIME + 1); sample_line "C" (SAMPLE_TIME + 2)].
Proof.
  apply (history_paging_complete sample_now (bs "#c") sample_log [] (sample_line "A" SAMPLE_TIME)).
  - apply sample_log_ok.
  - apply (bool_decide_unpack _). vm_compute. reflexivity.
  - vm_compute. reflexivity.
  - vm_compute. reflexivity.
  - lia.
  - simpl. lia.
Defined.

(** ** Answers that are not as asked for *)

Definition answer_ids (x : res (HistoryLogObject * HistoryResult)) : option (list (list Z) * Z) :=
  match x with Ok (_, r) => Some (map l_msgid (r_log r), r_reached_end r) | _ => None end.

(** With a limit of one line there are two lines around a message. *)
Lemma around_limit_one :
  answer_ids (hbm_history_request_from sample_now (bs "#c") sample_log (by_id HFC_AROUND (Some (bs "B")) None 1)) =
  Some ([bs "A"; bs "B"], 0).
Proof. vm_compute. reflexivity. Qed.

(** A point just before the oldest line: the lines behind it are returned only if
    the newest line is less than an hour away from it. *)
Definition long_log (gap : Z) : HistoryLogObject :=
  Object [sample_line "A" SAMPLE_TIME; sample_line "B" (SAMPLE_TIME + gap)] 2 SAMPLE_TIME 5 86400 false (bs "#c").
Lemma around_before_oldest :
  let at_ := Some (stamp (SAMPLE_TIME - 1) 0) in
  let now gap := Moment (SAMPLE_TIME + gap) 0 (SAMPLE_TIME + gap) (bs "rnd") in
  let ask gap := answer_ids (hbm_history_request_from (now gap) (bs "#c") (long_log gap) (by_time HFC_AROUND at_ None 10)) in
  ask 600 = Some ([bs "A"; bs "B"], 0) ∧ ask 7200 = Some ([], 0).
Proof. vm_compute. done. Qed.
