(* ===== verification/HistoryDelete.v ===== *)
(** * Deleting from a log (src/modules/history_backend_mem.c)

    Which lines [hbm_history_delete] of [HistoryLog] removes: the first ones, up to
    the limit, of those between the two points that belong to the account. *)

From stdpp Require Import base tactics list numbers strings sorting.
From Stdlib Require Import ZArith Lia.
From S2P Require Import Prelude Chars Support MessageTags Times HistoryLog HistoryRequests.

Local Open Scope Z_scope.

(** ** Which lines may go *)

Definition starts_here (f : HistoryFilter) (l : HistoryLogLine) : bool :=
  time_test (λ c, 0 <? c) (timestamp_a f) l || msgid_is (msgid_a f) l.
Definition ends_here (f : HistoryFilter) (l : HistoryLogLine) : bool :=
  time_test (λ c, 0 <=? c) (timestamp_b f) l || msgid_is (msgid_b f) l.

(** The account of a message that has one. *)
Definition account_of (l : HistoryLogLine) : option (list Z) :=
  match find_mtag (l_mtags l) (bs "account") with Some m => t_value m | None => None end.
Definition mine (f : HistoryFilter) (l : HistoryLogLine) : bool :=
  match account f with
  | None => true
  | Some a => match account_of l with Some b => strcmp b a =? 0 | None => false end
  end.
(** An account tag has a value. *)
Definition account_ok (l : HistoryLogLine) : Prop :=
  ∀ m, find_mtag (l_mtags l) (bs "account") = Some m → is_Some (t_value m).

(** Without the first [n] elements that satisfy [P]. *)
Fixpoint drop_first {A} (n : nat) (P : A → bool) (l : list A) : list A :=
  match n, l with
  | O, _ => l
  | _, [] => []
  | S k, x :: r => if P x then drop_first k P r else x :: drop_first n P r
  end.

Lemma drop_first_nil {A} n (P : A → bool) : drop_first n P [] = [].
Proof. by destruct n. Qed.
Lemma drop_first_0 {A} (P : A → bool) l : drop_first 0 P l = l.
Proof. by destruct l. Qed.
Lemma drop_first_sublist {A} n (P : A → bool) l : drop_first n P l `sublist_of` l.
Proof.
  revert n. induction l as [|x l IH]; intros [|n]; simpl; try done. destruct (P x); [by apply sublist_cons|by apply sublist_skip].
Qed.
(** What does not satisfy the condition stays, in its order. *)
Lemma drop_first_others {A} n (P : A → bool) l :
  filter (λ x, P x = false) (drop_first n P l) = filter (λ x, P x = false) l.
Proof.
  revert n. induction l as [|x l IH]; intros [|n]; try done. cbn [drop_first]. rewrite (filter_cons _ x l).
  destruct (P x) eqn:E; case_decide; try done. rewrite filter_cons_True by done. by rewrite IH.
Qed.
Lemma drop_first_count {A} n (P : A → bool) l :
  (length l = length (drop_first n P l) + Nat.min n (length (filter (λ x, P x = true) l)))%nat.
Proof.
  revert n. induction l as [|x l IH]; intros [|n]; cbn [drop_first length]; try (simpl; lia); try done.
  rewrite filter_cons. destruct (P x) eqn:E; case_decide; try done; cbn [length]; specialize (IH n) as IH1.
  - lia.
  - specialize (IH (S n)). lia.
Qed.
Lemma drop_first_all {A} n (P : A → bool) l : Forall (λ x, P x = true) l → drop_first n P l = drop n l.
Proof. intros H. revert n. induction H as [|x l Hx _ IH]; intros [|n]; simpl; try done. rewrite Hx. apply IH. Qed.

(** ** The loop *)

Lemma mine_ok f l : account_ok l →
  match account f with
  | None => Ok true
  | Some a => match find_mtag (l_mtags l) (bs "account") with
              | None => Ok false
              | Some m => let! c := strcmp_ptr (t_value m) a in Ok (c =? 0)
              end
  end = Ok (mine f l).
Proof.
  intros H. unfold mine, account_of. destruct (account f) as [a|]; [|done].
  destruct (find_mtag _ _) as [m|] eqn:E; [|done]. destruct (H m E) as [v ->]. done.
Qed.

Lemma outcome_eq (ls ls' : list HistoryLogLine) (n n' d d' r : Z) :
  ls = ls' → n = n' → d = d' → Ok (ls, n, d, r) = Ok (ls', n', d', r).
Proof. by intros -> -> ->. Qed.

Section Loop.
Context (f : HistoryFilter) (Hlim : 1 ≤ limit f).

Lemma delete_started ls n deleted rejected :
  Forall line_ok ls → Forall account_ok ls → 0 ≤ deleted < limit f →
  let w := take_while (λ l, negb (ends_here f l)) ls in
  let k := drop_first (Z.to_nat (limit f - deleted)) (mine f) w in
  ∃ rejected', rejected ≤ rejected' ≤ rejected + Z.of_nat (length (filter (λ l, mine f l = false) w)) ∧
    delete_loop f ls true n deleted rejected =
    Ok (k ++ drop (length w) ls, n - (total_lines w - total_lines k), deleted + Z.of_nat (length w - length k), rejected').
Proof.
  intros Hok. revert n deleted rejected. induction Hok as [|l ls Hl Hls IH]; intros n deleted rejected Hacc Hd.
  { exists rejected. cbn [take_while]. rewrite drop_first_nil. split; [simpl; lia|]. apply outcome_eq; simpl; done || lia. }
  apply Forall_cons in Hacc as [Ha Hacc]. cbn [delete_loop take_while rbind]. rewrite time_is_ok by done. cbn [rbind].
  fold (ends_here f l). destruct (ends_here f l) eqn:Es; cbn [negb].
  { exists rejected. rewrite drop_first_nil. split; [simpl; lia|]. apply outcome_eq; simpl; done || lia. }
  rewrite mine_ok by done. cbn [rbind]. set (w := take_while _ ls) in *.
  assert (Z.to_nat (limit f - deleted) = S (Z.to_nat (limit f - (deleted + 1)))) as E by lia.
  cbn [length drop total_lines filter]. rewrite filter_cons. rewrite E. cbn [drop_first].
  destruct (mine f l) eqn:Em; cbn [negb].
  - rewrite decide_False by done.
    pose proof (drop_first_sublist (Z.to_nat (limit f - (deleted + 1))) (mine f) w) as Hsub%sublist_length.
    destruct (Z.leb_spec (limit f) (deleted + 1)).
    + exists rejected. replace (Z.to_nat (limit f - (deleted + 1))) with 0%nat in * by lia. rewrite drop_first_0.
      split; [lia|]. unfold w. rewrite <-drop_while_drop, take_drop_while. apply outcome_eq; done || lia.
    + destruct (IH (n - l_num_lines l) (deleted + 1) rejected Hacc ltac:(lia)) as (r & Hr & ->). exists r. split; [lia|].
      apply outcome_eq; done || lia.
  - rewrite decide_True by done. destruct (IH n deleted (rejected + 1) Hacc Hd) as (r & Hr & ->). exists r.
    cbn [rbind length app total_lines]. rewrite E in *. split; [lia|]. apply outcome_eq; done || lia.
Qed.

Lemma delete_search ls n :
  Forall line_ok ls → Forall account_ok ls →
  let rest := drop_while (λ l, negb (starts_here f l)) ls in
  let pre := take_while (λ l, negb (starts_here f l)) ls in
  delete_loop f ls false n 0 0 =
  let! (k, n, d, r) := delete_loop f rest true n 0 0 in Ok (pre ++ k, n, d, r).
Proof.
  intros Hok. induction Hok as [|l ls Hl Hls IH]; intros Hacc; [done|]. apply Forall_cons in Hacc as [Ha Hacc].
  cbn [drop_while take_while]. destruct (starts_here f l) eqn:Es; cbn [negb].
  - cbn [delete_loop rbind]. rewrite time_is_ok by done. cbn [rbind]. fold (starts_here f l). rewrite Es. simpl app.
    match goal with |- ?x = _ => by destruct x as [[[[? ?] ?] ?]| |] end.
  - cbn [delete_loop rbind]. rewrite time_is_ok by done. cbn [rbind]. fold (starts_here f l). rewrite Es.
    rewrite (proj2 (Z.leb_gt _ _)) by lia. rewrite IH by done.
    by destruct (delete_loop _ _ true _ _ _) as [[[[? ?] ?] ?]| |].
Qed.
End Loop.

(** Lines may be missing from a well-formed log. *)
Lemma log_sublist h ls : log_ok h → ls `sublist_of` h_lines h → log_ok (set_lines ls (total_lines ls) h).
Proof.
  intros [[Hok Hs Hc Ho] Hz Hl] Hsub. pose proof (total_lines_sublist _ _ Hok Hsub) as Hle. pose proof (sublist_length _ _ Hsub).
  constructor; [constructor|..]; cbn [h_lines h_num_lines h_oldest_t h_max_lines set_lines]; try done.
  - by eapply sublist_Forall.
  - by eapply sorted_sublist.
  - by eapply sublist_Forall.
  - intros Hzero. destruct (Hz Hzero) as [E|[[l E] Hm]]; rewrite E in *.
    + left. by apply sublist_nil_r in Hsub.
    + apply sublist_cons_r in Hsub as [Hsub%sublist_nil_r|(k & -> & Hsub%sublist_nil_r)]; [by left|subst k].
      right. split; [by eexists|]. lia.
  - destruct Hl; [left; lia|right; lia].
Qed.

Lemma delete_from_spec h f :
  log_ok h → Forall account_ok (h_lines h) → 1 ≤ limit f →
  let pre := take_while (λ l, negb (starts_here f l)) (h_lines h) in
  let rest := drop_while (λ l, negb (starts_here f l)) (h_lines h) in
  let w := take_while (λ l, negb (ends_here f l)) rest in
  let post := drop_while (λ l, negb (ends_here f l)) rest in
  let n := Z.to_nat (limit f) in
  ∃ h' deleted rejected, hbm_history_delete_from h f = Ok (h', deleted, rejected) ∧ log_ok h' ∧
    h_lines h = pre ++ w ++ post ∧ h_lines h' = pre ++ drop_first n (mine f) w ++ post ∧
    deleted = Z.of_nat (Nat.min n (length (filter (λ l, mine f l = true) w))) ∧
    h_num_lines h' = total_lines (h_lines h') ∧ (account f = None → rejected = 0) ∧
    0 ≤ rejected ≤ Z.of_nat (length (filter (λ l, mine f l = false) w)) ∧
    h_dirty h' = h_dirty h || (0 <? deleted).
Proof.
  intros Hlog Hacc Hlim pre rest w post n. pose proof Hlog as [[Hok Hs Hc Ho] Hz Hl].
  assert (h_lines h = pre ++ w ++ post) as E by (unfold w, post, rest, pre; by rewrite !take_drop_while).
  assert (Forall line_ok rest ∧ Forall account_ok rest) as [Hok' Hacc'].
  { unfold rest. rewrite drop_while_drop. split; by apply Forall_drop. }
  unfold hbm_history_delete_from. rewrite delete_search by done. fold rest pre.
  destruct (delete_started f rest (h_num_lines h) 0 0 Hok' Hacc' ltac:(lia)) as (r & Hr & ->). fold w in Hr |- *.
  rewrite Z.sub_0_r, Z.add_0_l. fold n. set (k := drop_first n (mine f) w). cbn [rbind].
  assert (drop (length w) rest = post) as -> by (unfold post, w; by rewrite drop_while_drop).
  pose proof (drop_first_sublist n (mine f) w) as Hsub. pose proof (drop_first_count n (mine f) w) as Hcount. fold k in Hsub, Hcount.
  assert (pre ++ k ++ post `sublist_of` h_lines h) as Hsub'.
  { rewrite E. apply sublist_app; [done|]. by apply sublist_app. }
  assert (h_num_lines h - (total_lines w - total_lines k) = total_lines (pre ++ k ++ post)) as ->.
  { rewrite Hc, E, !total_lines_app. lia. }
  pose proof (log_sublist h _ Hlog Hsub') as Hlog'. set (h' := set_lines _ _ h) in *.
  eexists _, _, r. split; [done|].
  assert (Z.of_nat (length w - length k) = Z.of_nat (Nat.min n (length (filter (λ l, mine f l = true) w)))) as Ed by lia.
  rewrite <-Ed. split_and!; try done; try lia.
  - destruct (0 <? _); [|done]. destruct Hlog' as [[] ? ?]. by constructor; [constructor|..].
  - by destruct (0 <? _).
  - by destruct (0 <? _).
  - intros Ea. assert (filter (λ l, mine f l = false) w = []) as Ef; [|by rewrite Ef in Hr; simpl in Hr; lia].
    clearbody w. clear -Ea. induction w as [|x w IH]; [done|]. rewrite filter_cons_False; [done|]. unfold mine. by rewrite Ea.
  - destruct (0 <? _); simpl; [by rewrite orb_true_r|by rewrite orb_false_r].
Qed.

(** Deleting.  From a well-formed log, with a limit, a request deletes the first
    lines of the account, up to the limit, among those from its first point to its
    second: everything else stays, in its order, and the log stays well-formed with
    exact counters.  The number of deleted lines is returned; without an account all
    lines are meant, and the lines of other accounts are counted as rejected. *)
Theorem history_delete_correct h f :
  log_ok h → Forall account_ok (h_lines h) → 1 ≤ limit f →
  let pre := take_while (λ l, negb (starts_here f l)) (h_lines h) in
  let rest := drop_while (λ l, negb (starts_here f l)) (h_lines h) in
  let w := take_while (λ l, negb (ends_here f l)) rest in
  let post := drop_while (λ l, negb (ends_here f l)) rest in
  let n := Z.to_nat (limit f) in
  ∃ h' deleted rejected, hbm_history_delete_from h f = Ok (h', deleted, rejected) ∧ log_ok h' ∧
    h_lines h = pre ++ w ++ post ∧ h_lines h' = pre ++ drop_first n (mine f) w ++ post ∧
    deleted = Z.of_nat (Nat.min n (length (filter (λ l, mine f l = true) w))) ∧
    h_num_lines h' = total_lines (h_lines h') ∧ (account f = None → rejected = 0) ∧
    0 ≤ rejected ≤ Z.of_nat (length (filter (λ l, mine f l = false) w)) ∧
    h_dirty h' = h_dirty h || (0 <? deleted).
Proof. apply delete_from_spec. Qed.

Definition delete_by_id (id : string) (who : option (list Z)) (n : Z) : HistoryFilter :=
  Filter HFC_AROUND 0 0 None (Some (bs id)) None None who n.

Lemma history_delete_witness :
  ∃ h' r, hbm_history_delete_from sample_log (delete_by_id "B" (Some (bs "bob")) 1) = Ok (h', 1, r) ∧
    h_lines h' = [sample_line "A" SAMPLE_TIME; sample_line "C" (SAMPLE_TIME + 2)].
Proof.
  destruct (history_delete_correct sample_log (delete_by_id "B" (Some (bs "bob")) 1)) as (h' & d & r & H & _ & _ & Hl & Hd & _).
  - apply sample_log_ok.
  - repeat constructor; intros m [= <-]; by eexists.
  - done.
  - exists h', r. split; [rewrite H, Hd; vm_compute; reflexivity|]. rewrite Hl. vm_compute. reflexivity.
Defined.

(** ** Deleting a message of someone else *)

Definition of_account (a : option (list Z)) (l : HistoryLogLine) : HistoryLogLine :=
  Line (l_batch l) (l_num_lines l) (l_num_bytes l) (l_concat l) (l_t l) (l_msgid l) (l_time l)
    (MTag (bs "account") a :: l_mtags l) (l_line l).
Definition mixed_log (a : option (list Z)) : HistoryLogObject :=
  Object [of_account a (sample_line "A" SAMPLE_TIME); sample_line "B" (SAMPLE_TIME + 1)] 2 SAMPLE_TIME 5 86400 false (bs "#c").

(** Bob asks to delete a message of Eve: his own next message is deleted. *)
Lemma delete_goes_on :
  ∃ h, hbm_history_delete_from (mixed_log (Some (bs "eve"))) (delete_by_id "A" (Some (bs "bob")) 1) = Ok (h, 1, 1) ∧
    map l_msgid (h_lines h) = [bs "A"].
Proof. eexists. split; vm_compute; reflexivity. Qed.

(** An account tag without a value is compared as if it had one. *)
Lemma delete_without_value : hbm_history_delete_from (mixed_log None) (delete_by_id "A" (Some (bs "bob")) 1) = UB.
Proof. vm_compute. reflexivity. Qed.
