(* ===== verification/HistoryFile.v ===== *)
(** * Logs on disk (src/modules/history_backend_mem.c)

    The file of a log, in the format of [Unrealdb]: its name, writing it, reading it
    into a log, and the master file that ties the files of a server together.  The
    digest SHA-256 of OpenSSL is a parameter.

    A log that is written is read back as it was, from a plain and from an encrypted
    file. *)

From stdpp Require Import base tactics list numbers strings gmap sorting.
From Stdlib Require Import ZArith Lia.
From S2P Require Import Prelude Chars Support MessageTags Times Unrealdb HistoryLog.

Local Open Scope Z_scope.

Definition HISTORYDB_MAGIC_FILE_START : Z := 4278124286.
Definition HISTORYDB_MAGIC_FILE_END : Z := 4025479151.
Definition HISTORYDB_MAGIC_ENTRY_START : Z := 4294967295.
Definition HISTORYDB_MAGIC_ENTRY_END : Z := 4008636142.
Definition OBJECTLEN : nat := 32.

Record cfgstruct := Cfg { persist : bool; directory : list Z; db_secret : option (list Z) }.
Record hashes := Hashes { hbm_prehash : list Z; hbm_posthash : list Z }.

(** ** Names *)

Definition hexchar (n : Z) : Z := if n <? 10 then 48 + n else 87 + n.
Definition binarytohex (data : list Z) : list Z :=
  flat_map (λ c, [hexchar (Z.land (Z.shiftr c 4) 15); hexchar (Z.land c 15)]) data.

Definition snprintf (size : nat) (s : list Z) : list Z := take (size - 1) s.
Definition hbm_masterdb_filename (dir : list Z) : list Z := snprintf 512 (dir ++ bs "/master.db").

(** The text from the last dot on. *)
Definition strrchr_dot (s : list Z) : option (list Z) :=
  if existsb (λ c, c =? 46) s then Some (46 :: rev (take_while (λ c, negb (c =? 46)) (rev s))) else None.
Definition filename_has_suffix (fname suffix : list Z) : bool :=
  match strrchr_dot (Strl.strlcpy [] fname 256).1 with
  | None => false
  | Some p => strcmp p suffix =? 0
  end.

Section File.
Context `{C : Crypto} (sha256_binary : list Z → list Z).

Definition sha256hash (src : list Z) : list Z := binarytohex (sha256_binary src).

Definition hbm_history_filename (cfg : cfgstruct) (hs : hashes) (h : HistoryLogObject) : list Z :=
  let oname := Strl.strtolower_safe [] (h_name h) (OBJECTLEN + 1) in
  let hashdata := snprintf 512 (hbm_prehash hs ++ [SPACE_CH] ++ oname ++ [SPACE_CH] ++ hbm_posthash hs) in
  snprintf 512 (directory cfg ++ bs "/" ++ sha256hash hashdata ++ bs ".db").

(** [unlink] and [rename]. *)
Definition unlink_file (fname : list Z) (w : world) : world := set_files (delete fname (files w)) w.
Definition rename_file (from to : list Z) (w : world) : world :=
  match files w !! from with
  | None => w
  | Some data => set_files (<[to := data]> (delete from (files w))) w
  end.

Definition hbm_delete_db (cfg : cfgstruct) (hs : hashes) (h : HistoryLogObject) (w : world) : world :=
  if negb (persist cfg) then w else unlink_file (hbm_history_filename cfg hs h) w.

(** ** Writing *)

(** The records of a line, and of a log. *)
Definition tag_records (m : MessageTag) : list record := [RStr (Some (t_name m)); RStr (t_value m)].
Definition batch_records (b : BatchLine) : list record := [R32 (b_concat b); RStr (Some (b_line b))].
Definition line_records (l : HistoryLogLine) : list record :=
  [R32 HISTORYDB_MAGIC_ENTRY_START; R64 (l_t l)] ++ flat_map tag_records (l_mtags l) ++
  [RStr None; RStr None; RStr (Some (l_line l)); R32 (l_concat l); R32 (Z.of_nat (length (l_batch l)))] ++
  flat_map batch_records (l_batch l) ++ [R32 HISTORYDB_MAGIC_ENTRY_END].
Definition log_records (hs : hashes) (h : HistoryLogObject) : list record :=
  [R32 HISTORYDB_MAGIC_FILE_START; R32 5001; RStr (Some (hbm_prehash hs)); RStr (Some (hbm_posthash hs));
   RStr (Some (h_name h)); R64 (h_max_lines h); R64 (h_max_time h)] ++
  flat_map line_records (h_lines h) ++ [R32 HISTORYDB_MAGIC_FILE_END].

(** [close_ok] and [rename_ok]: whether [fclose] and [rename] succeed. *)
Record luck := Luck { l_chance : chance; close_ok : bool; rename_ok : bool }.

(** [permanent]: the channel exists and has the mode P. *)
Definition hbm_write_db (cfg : cfgstruct) (hs : hashes) (permanent : bool) (r : luck) (h : HistoryLogObject) (w : world)
  : res (HistoryLogObject * world * bool) :=
  let! _ := require (bool_decide (is_Some (db_secret cfg))) in
  if negb permanent then Ok (h, w, true)
  else
    let realfname := hbm_history_filename cfg hs h in
    let tmpfname := snprintf 512 (realfname ++ bs ".tmp") in
    let! (w, db) := unrealdb_open tmpfname UNREALDB_MODE_WRITE (db_secret cfg) (l_chance r) w in
    match db with
    | inr _ => Ok (h, w, false)
    | inl c =>
        let! (c, ok) := write_all c (log_records hs h) in
        let! (w, closed) := unrealdb_close tmpfname (close_ok r) c w in
        if negb ok || negb closed then Ok (h, w, false)
        else if negb (rename_ok r) then Ok (h, w, false)
        else Ok (set_dirty false h, rename_file tmpfname realfname w, true)
    end.

(** ** Reading *)

(** [R_SAFE]: without a value, the reading fails. *)
Definition r_safe {A B} (m : res (UnrealDB * option A)) (failed : B) (k : UnrealDB → A → res B) : res B :=
  let! (c, x) := m in
  match x with None => Ok failed | Some x => k c x end.

(** The tags of a line, up to a pair of NULLs.  A tag with a value and no name has
    no place in a list of tags. *)
Definition tags_body (s : UnrealDB * list MessageTag)
  : res (step (UnrealDB * list MessageTag) (option (UnrealDB * list MessageTag))) :=
  let '(c, mtags) := s in
  r_safe (unrealdb_read_str c) (Done None) (λ c name,
  r_safe (unrealdb_read_str c) (Done None) (λ c value,
    match name, value with
    | None, None => Ok (Done (Some (c, mtags)))
    | None, Some _ => UB
    | Some name, _ => Ok (Next (c, mtags ++ [MTag name value]))
    end)).

Definition set_batch (count concat : Z) (l : HistoryLogLine) : HistoryLogLine :=
  Line (l_batch l) (i32 (1 + count)) (l_num_bytes l) (i32 concat) (l_t l) (l_msgid l) (l_time l) (l_mtags l) (l_line l).
Definition attach_line (concat : Z) (text : list Z) (l : HistoryLogLine) : HistoryLogLine :=
  Line (l_batch l ++ [Batch text (i32 concat) []]) (l_num_lines l) (l_num_bytes l + Z.of_nat (length text)) (l_concat l)
    (l_t l) (l_msgid l) (l_time l) (l_mtags l) (l_line l).

(** The continuation lines of the line at the position [k]; all are read. *)
Definition batch_body (k : option nat) (count : Z) (s : UnrealDB * HistoryLogObject * Z)
  : res (step (UnrealDB * HistoryLogObject * Z) (HistoryLogObject * option UnrealDB)) :=
  let '(c, h, i) := s in
  if count <=? i then Ok (Done (h, Some c))
  else
    r_safe (unrealdb_read_int32 c) (Done (h, None)) (λ c cl_concat,
    r_safe (unrealdb_read_str c) (Done (h, None)) (λ c cl_line,
      match k with
      | None => Ok (Next (c, h, i + 1))
      | Some k =>
          match cl_line with
          | None => UB
          | Some text =>
              Ok (Next (c, set_lines (alter (attach_line cl_concat text) k (h_lines h)) (h_num_lines h + 1) h, i + 1))
          end
      end)).

(** One round of the loop over the entries. *)
Definition entry_body (now : moment) (version : Z) (fuel : nat) (s : UnrealDB * HistoryLogObject)
  : res (step (UnrealDB * HistoryLogObject) (HistoryLogObject * bool)) :=
  let '(c, h) := s in
  r_safe (unrealdb_read_int32 c) (Done (h, false)) (λ c magic,
  if magic =? HISTORYDB_MAGIC_FILE_END then Ok (Done (h, true))
  else if negb (magic =? HISTORYDB_MAGIC_ENTRY_START) then Ok (Done (h, false))
  else
    r_safe (unrealdb_read_int64 c) (Done (h, false)) (λ c line_ts,
    let! tags := loop tags_body fuel (c, []) in
    match tags with
    | None => Ok (Done (h, false))
    | Some (c, mtags) =>
        r_safe (unrealdb_read_str c) (Done (h, false)) (λ c line,
        let h := evict (λ n, h_max_lines h <=? n) (length (h_lines h)) h in
        let finish c h :=
          r_safe (unrealdb_read_int32 c) (Done (h, false)) (λ c magic,
          if negb (magic =? HISTORYDB_MAGIC_ENTRY_END) then Ok (Done (h, false)) else Ok (Next (c, h))) in
        if 5001 <=? version then
          r_safe (unrealdb_read_int32 c) (Done (h, false)) (λ c concat_flag,
          r_safe (unrealdb_read_int32 c) (Done (h, false)) (λ c continuation_count,
          match line with
          | None => UB
          | Some line =>
              let! (h, k) := hbm_history_add_line now h mtags line in
              let h := match k with
                       | None => h
                       | Some k => set_lines (alter (set_batch continuation_count concat_flag) k (h_lines h)) (h_num_lines h) h
                       end in
              let! (h, c) := loop (batch_body k continuation_count) fuel (c, h, 0) in
              match c with None => Ok (Done (h, false)) | Some c => finish c h end
          end))
        else
          match line with
          | None => UB
          | Some line => let! (h, _) := hbm_history_add_line now h mtags line in finish c h
          end)
    end)).

(** What a file is about: nothing if it cannot be used, else the name of the object
    and where to go on, with the version. *)
Definition read_header (hs : hashes) (c : UnrealDB) : res (option (UnrealDB * Z * list Z)) :=
  r_safe (unrealdb_read_int32 c) None (λ c magic,
  if negb (magic =? HISTORYDB_MAGIC_FILE_START) then Ok None
  else
    r_safe (unrealdb_read_int32 c) None (λ c version,
    if version <? 4999 then Ok None
    else if 5001 <? version then Ok None
    else
      r_safe (unrealdb_read_str c) None (λ c prehash,
      r_safe (unrealdb_read_str c) None (λ c posthash,
      match prehash, posthash with
      | Some pre, Some post =>
          if negb (strcmp pre (hbm_prehash hs) =? 0) || negb (strcmp post (hbm_posthash hs) =? 0) then Ok None
          else
            r_safe (unrealdb_read_str c) None (λ c object,
            r_safe (unrealdb_read_int64 c) None (λ c max_lines,
            r_safe (unrealdb_read_int64 c) None (λ c max_time,
            match object with
            | None => UB
            | Some object => Ok (Some (c, version, object))
            end)))
      | _, _ => Ok None
      end)))).

(** The entries, into the log [h]; the flag says that the file was good. *)
Definition read_entries (now : moment) (version : Z) (c : UnrealDB) (h : HistoryLogObject) : res (HistoryLogObject * bool) :=
  let fuel := S (length (f_data (fd c)) + length (buf c)) in
  let! (h, ok) := loop (entry_body now version fuel) fuel (c, h) in
  Ok (if ok : bool then set_dirty false h else h, ok).

(** ** The master file *)

Definition hbm_write_masterdb (masterdb : list Z) (secret : option (list Z)) (hs : hashes) (r : luck) (w : world)
  : res (world * bool) :=
  let! _ := require (bool_decide (is_Some secret)) in
  let! (w, db) := unrealdb_open masterdb UNREALDB_MODE_WRITE secret (l_chance r) w in
  match db with
  | inr _ => Ok (w, false)
  | inl c =>
      let! (c, ok) := write_all c [R32 5000; RStr (Some (hbm_prehash hs)); RStr (Some (hbm_posthash hs))] in
      if negb ok then Ok (w, false)
      else let! (w, _) := unrealdb_close masterdb (close_ok r) c w in Ok (w, true)
  end.

(** The hashes of the master file; it is made if it does not exist. *)
Definition hbm_read_masterdb (masterdb : list Z) (secret : option (list Z)) (hs : hashes) (r : luck) (w : world)
  : res (world * hashes * bool) :=
  let! (w, db) := unrealdb_open masterdb UNREALDB_MODE_READ secret (l_chance r) w in
  match db with
  | inr UNREALDB_ERROR_FILENOTFOUND =>
      let! (w, ok) := hbm_write_masterdb masterdb secret hs r w in Ok (w, hs, ok)
  | inr _ => Ok (w, hs, false)
  | inl c =>
      r_safe (unrealdb_read_int32 c) (w, hs, false) (λ c mdb_version,
      r_safe (unrealdb_read_str c) (w, hs, false) (λ c prehash,
      r_safe (unrealdb_read_str c) (w, hs, false) (λ c posthash,
      match prehash, posthash with
      | Some pre, Some post => Ok (w, Hashes pre post, true)
      | _, _ => Ok (w, hs, false)
      end)))
  end.
End File.

(** ** Reading what was written *)

(** A line that can be read again. *)
Definition batch_stored (b : BatchLine) : Prop :=
  b_mtags b = [] ∧ 0 ≤ b_concat b < 2 ^ 31 ∧ record_ok (RStr (Some (b_line b))).
Definition tag_stored (m : MessageTag) : Prop := record_ok (RStr (Some (t_name m))) ∧ record_ok (RStr (t_value m)).
Record stored_ok (l : HistoryLogLine) : Prop := StoredOk {
  so_t : l_t l < 2 ^ 63;
  so_tags : Forall tag_stored (l_mtags l);
  so_line : record_ok (RStr (Some (l_line l)));
  so_concat : 0 ≤ l_concat l < 2 ^ 31;
  so_batch : Forall batch_stored (l_batch l);
  so_count : l_num_lines l < 2 ^ 31
}.

Section Reading.
Context `{L : CryptoLaws} (now : moment).

Lemma sealed_length s ms s' d : sealed s ms s' d → (length (concat ms) ≤ length d)%nat.
Proof.
  induction 1 as [s|s m f s1 c ms s2 d Hm Hp _ IH]; [done|]. destruct (push_inv s m f s1 c Hm Hp) as [Hl _].
  simpl. rewrite !length_app. unfold ABYTES in Hl. lia.
Qed.
Lemma reads_length c P : reads c P → (length P ≤ length (f_data (fd c)) + length (buf c))%nat.
Proof.
  intros [_ _ Hd]. destruct (crypted c).
  - destruct Hd as (ms & s & s' & d & _ & Hs%sealed_length & Hdd & _ & ->). rewrite length_app.
    apply (f_equal length) in Hdd. rewrite length_drop in Hdd. lia.
  - rewrite <-Hd, length_drop. lia.
Qed.

Lemma stream_app a b : stream (a ++ b) = stream a ++ stream b.
Proof. unfold stream. by rewrite flat_map_app. Qed.
Lemma stream_length rs : (length rs ≤ length (stream rs))%nat.
Proof.
  induction rs as [|r rs IH]; [done|]. unfold stream in *. simpl. rewrite length_app.
  assert (1 ≤ length (record_bytes r))%nat by (destruct r as [| | | |[]]; simpl; rewrite ?length_app; simpl; lia). lia.
Qed.

Lemma flat_map_length_ge {A B} (f : A → list B) l : (∀ x, 1 ≤ length (f x))%nat → (length l ≤ length (flat_map f l))%nat.
Proof. intros H. induction l as [|x l IH]; simpl; [lia|]. rewrite length_app. specialize (H x). lia. Qed.

(** One record, under [r_safe]. *)
Lemma safe_str c x P : reads c (record_bytes (RStr x) ++ P) → record_ok (RStr x) →
  ∃ c', reads c' P ∧ ∀ B (failed : B) k, r_safe (unrealdb_read_str c) failed k = k c' x.
Proof.
  intros Hr Hx. destruct (read_str_ok c x P Hr Hx) as (c' & E & Hr'). exists c'. split; [done|].
  intros. unfold r_safe. by rewrite E.
Qed.
Lemma safe_int32 c z P : reads c (record_bytes (R32 z) ++ P) → 0 ≤ z < 2 ^ 32 →
  ∃ c', reads c' P ∧ ∀ B (failed : B) k, r_safe (unrealdb_read_int32 c) failed k = k c' z.
Proof.
  intros Hr Hz. destruct (read_int32_ok c z P Hr Hz) as (c' & E & Hr'). exists c'. split; [done|].
  intros. unfold r_safe. by rewrite E.
Qed.
Lemma safe_int64 c z P : reads c (record_bytes (R64 z) ++ P) → 0 ≤ z < 2 ^ 64 →
  ∃ c', reads c' P ∧ ∀ B (failed : B) k, r_safe (unrealdb_read_int64 c) failed k = k c' z.
Proof.
  intros Hr Hz. destruct (read_int64_ok c z P Hr Hz) as (c' & E & Hr'). exists c'. split; [done|].
  intros. unfold r_safe. by rewrite E.
Qed.

Lemma tags_loop tags c acc P fuel :
  reads c (stream (flat_map tag_records tags) ++ record_bytes (RStr None) ++ record_bytes (RStr None) ++ P) →
  Forall tag_stored tags → (length tags < fuel)%nat →
  ∃ c', loop tags_body fuel (c, acc) = Ok (Some (c', acc ++ tags)) ∧ reads c' P.
Proof.
  intros Hr Ht. revert c acc fuel Hr. induction Ht as [|[n v] tags [Hn Hv] _ IH]; intros c acc fuel Hr Hf;
    (destruct fuel as [|fuel]; [simpl in Hf; lia|]); cbn [loop tags_body].
  - destruct (safe_str c None _ Hr I) as (c1 & H1 & ->). destruct (safe_str c1 None _ H1 I) as (c2 & H2 & ->).
    exists c2. by rewrite app_nil_r.
  - cbn [flat_map tag_records app t_name t_value stream] in Hr. rewrite <-!app_assoc in Hr. fold (stream (flat_map tag_records tags)) in Hr.
    destruct (safe_str c (Some n) _ Hr Hn) as (c1 & H1 & ->). destruct (safe_str c1 v _ H1 Hv) as (c2 & H2 & ->).
    simpl in Hf. destruct (IH c2 (acc ++ [MTag n v]) fuel H2 ltac:(lia)) as (c3 & E3 & H3). exists c3.
    rewrite <-app_assoc in E3. by split; [destruct v|].
Qed.

(** The continuation lines, attached to a line. *)
Definition attach_all (bl : list BatchLine) (l : HistoryLogLine) : HistoryLogLine :=
  Line (l_batch l ++ bl) (l_num_lines l) (l_num_bytes l + batch_bytes bl) (l_concat l) (l_t l) (l_msgid l) (l_time l)
    (l_mtags l) (l_line l).

Lemma attach_all_cons b bl l : batch_stored b →
  attach_all bl (attach_line (b_concat b) (b_line b) l) = attach_all (b :: bl) l.
Proof.
  destruct b as [t k m]. intros (Hm & Hk & _). simpl in Hm, Hk. subst m. unfold attach_all, attach_line.
  cbn [l_batch l_num_lines l_num_bytes l_concat l_t l_msgid l_time l_mtags l_line b_concat b_line batch_bytes foldr].
  rewrite i32_small by lia. rewrite <-app_assoc, <-Z.add_assoc. done.
Qed.

Lemma batch_loop bl c h k i P fuel :
  reads c (stream (flat_map batch_records bl) ++ P) → Forall batch_stored bl → (length bl < fuel)%nat →
  ∃ c', loop (batch_body (Some k) (i + Z.of_nat (length bl))) fuel (c, h, i) =
    Ok (set_lines (alter (attach_all bl) k (h_lines h)) (h_num_lines h + Z.of_nat (length bl)) h, Some c') ∧ reads c' P.
Proof.
  intros Hr Hb. revert c h i fuel Hr. induction Hb as [|b bl Hb _ IH]; intros c h i fuel Hr Hf;
    (destruct fuel as [|fuel]; [simpl in Hf; lia|]); cbn [loop batch_body].
  - rewrite (proj2 (Z.leb_le _ _)) by (simpl; lia). exists c. split; [|done]. do 3 f_equal.
    rewrite Z.add_0_r, list_alter_id; [by destruct h|]. intros l. unfold attach_all. rewrite app_nil_r. simpl. rewrite Z.add_0_r. by destruct l.
  - cbn [length]. rewrite (proj2 (Z.leb_gt _ _)) by lia. cbn [flat_map batch_records app stream] in Hr. rewrite <-!app_assoc in Hr.
    fold (stream (flat_map batch_records bl)) in Hr. pose proof Hb as (Hm & Hk & Ht).
    destruct (safe_int32 c _ _ Hr ltac:(lia)) as (c1 & H1 & ->). destruct (safe_str c1 _ _ H1 Ht) as (c2 & H2 & ->).
    simpl in Hf. replace (i + Z.of_nat (S (length bl))) with (i + 1 + Z.of_nat (length bl)) by lia.
    destruct (IH c2 (set_lines (alter (attach_line (b_concat b) (b_line b)) k (h_lines h)) (h_num_lines h + 1) h) (i + 1) fuel H2 ltac:(lia))
      as (c3 & E3 & H3). exists c3. split; [|done]. rewrite E3. cbn [h_lines h_num_lines set_lines]. rewrite list_alter_alter_eq.
    rewrite (list_alter_ext _ (attach_all (b :: bl)) (h_lines h) (h_lines h)); [|by intros x _; apply attach_all_cons|done].
    by replace (h_num_lines h + 1 + Z.of_nat (length bl)) with (h_num_lines h + Z.of_nat (S (length bl))) by lia.
Qed.

(** A line at the end of a log. *)
Definition load (h : HistoryLogObject) (l : HistoryLogLine) : HistoryLogObject :=
  let h' := set_dirty true (set_lines (h_lines h ++ [l]) (h_num_lines h + l_num_lines l) h) in
  if (l_t l <? h_oldest_t h) || (h_oldest_t h =? 0) then set_oldest (l_t l) h' else h'.
(** A line as it is added, without what belongs to a batch. *)
Definition bare (l : HistoryLogLine) : HistoryLogLine :=
  Line [] 1 (Z.of_nat (length (l_line l))) 0 (l_t l) (l_msgid l) (l_time l) (l_mtags l) (l_line l).
(** A line that goes to the end of a log. *)
Definition goes_last (h : HistoryLogObject) (l : HistoryLogLine) : Prop :=
  Forall (λ e, line_ok e ∧ line_le e l ∧ l_msgid e ≠ l_msgid l) (h_lines h).

Lemma duplicate_mtags_id l : line_ok l → hbm_duplicate_mtags now (l_mtags l) = Ok (l_mtags l, l_t l, l_time l, l_msgid l).
Proof.
  intros H. pose proof (duplicate_log_line_id now l H) as E. unfold duplicate_log_line in E.
  destruct (hbm_duplicate_mtags now (l_mtags l)) as [[[[m t] s] id]| |]; [|done..]. cbn [rbind] in E. destruct l. by simplify_eq/=.
Qed.

Lemma walk_back_last ls l tail :
  line_ok l → line_ok tail → line_le tail l → l_msgid tail ≠ l_msgid l → l_t l ≤ l_t tail →
  walk_back l (tail :: ls) = Ok (Some (S (length ls))).
Proof.
  intros [_ (s & Es & Hs) _ _ Hid _ _] [_ (s' & Es' & Hs') _ _ Hid' _ _] [|[Et Hle]] Hne Hge; [lia|]. cbn [walk_back].
  rewrite (proj2 (Z.ltb_ge _ _)) by lia. rewrite strcmp_zero by done. rewrite bool_decide_eq_false_2 by done.
  rewrite (proj2 (Z.eqb_eq _ _)) by done. rewrite Es, Es'. cbn [strcmp_ptr rbind].
  rewrite (line_time_eq _ _ Es), (line_time_eq _ _ Es') in Hle. unfold text_le in Hle. by rewrite (proj2 (Z.leb_le _ _)) by done.
Qed.

Lemma add_line_last h l : line_ok l → goes_last h l →
  hbm_history_add_line now h (l_mtags l) (l_line l) = Ok (load h (bare l), Some (length (h_lines h))).
Proof.
  intros Hl Hg. unfold hbm_history_add_line. rewrite duplicate_mtags_id by done. cbn [rbind]. fold (bare l).
  assert (line_ok (bare l)) as Hb by (destruct Hl; constructor; simpl; try done; lia).
  assert (match last (h_lines h) with
          | Some tail => if l_t tail <? l_t l then Ok (Some (h_lines h ++ [bare l], length (h_lines h)))
                         else hbm_history_add_line_in_time (h_lines h) (bare l)
          | None => Ok (Some ([bare l], 0%nat))
          end = Ok (Some (h_lines h ++ [bare l], length (h_lines h)))) as ->.
  { destruct (h_lines h) as [|tail ls _] eqn:E using rev_ind; [done|]. rewrite last_snoc.
    destruct (Z.ltb_spec (l_t tail) (l_t l)) as [|Hge]; [done|]. unfold goes_last in Hg. rewrite E in Hg.
    apply Forall_app in Hg as [_ Hg]. apply Forall_cons in Hg as [(Ht & Hle & Hne) _].
    unfold hbm_history_add_line_in_time. rewrite rev_unit, walk_back_last by (done || simpl; lia). cbn [rbind].
    rewrite length_rev. unfold hbm_history_add_line_after_position.
    replace (S (length ls)) with (length (ls ++ [tail])) by (rewrite length_app; simpl; lia).
    by rewrite firstn_all, drop_all. }
  cbn [rbind]. unfold load. cbn [h_oldest_t set_dirty set_lines bare l_t l_num_lines].
  by destruct (_ || _).
Qed.

(** What a batch is attached to becomes the line that was written. *)
Lemma attach_bare l : line_ok l → stored_ok l →
  attach_all (l_batch l) (set_batch (Z.of_nat (length (l_batch l))) (l_concat l) (bare l)) = l.
Proof.
  intros [_ _ _ _ _ Hn Hb] [_ _ _ Hc _ Hcount]. unfold attach_all, set_batch, bare.
  cbn [l_batch l_num_lines l_num_bytes l_concat l_t l_msgid l_time l_mtags l_line]. rewrite !i32_small by lia.
  rewrite app_nil_l, <-Hb, <-Hn. by destruct l.
Qed.

Lemma load_attach h l : line_ok l → stored_ok l →
  let h1 := load h (bare l) in let k := length (h_lines h) in
  let h2 := set_lines (alter (set_batch (Z.of_nat (length (l_batch l))) (l_concat l)) k (h_lines h1)) (h_num_lines h1) h1 in
  set_lines (alter (attach_all (l_batch l)) k (h_lines h2)) (h_num_lines h2 + Z.of_nat (length (l_batch l))) h2 = load h l.
Proof.
  intros Hl Hs. cbv zeta.
  assert (∀ g, alter g (length (h_lines h)) (h_lines h ++ [bare l]) = h_lines h ++ [g (bare l)]) as Ha.
  { intros g. by rewrite alter_app_r_alt, Nat.sub_diag by lia. }
  assert (h_lines (load h (bare l)) = h_lines h ++ [bare l]) as E1 by (unfold load; by destruct (_ || _)).
  rewrite E1, Ha. cbn [h_lines set_lines].
  rewrite alter_app_r_alt, Nat.sub_diag by lia. cbn [alter list_alter]. rewrite attach_bare by done.
  destruct Hl as [_ _ _ _ _ Hn _].
  unfold load. cbn [bare l_t l_num_lines].
  destruct (_ || _); unfold set_lines, set_oldest, set_dirty; cbn; f_equal; lia.
Qed.

Lemma entry_ok c h l P fuel :
  reads c (stream (line_records l) ++ P) → line_ok l → stored_ok l → goes_last h l →
  h_num_lines h < h_max_lines h ∨ h_lines h = [] → (length (stream (line_records l)) < fuel)%nat →
  ∃ c', entry_body now 5001 fuel (c, h) = Ok (Next (c', load h l)) ∧ reads c' P.
Proof.
  intros Hr Hl Hs Hg Hroom Hf. pose proof Hs as [S1 S2 S3 S4 S5 S6]. pose proof Hl as [_ _ [_ Hpos] _ _ Hn _].
  pose proof (stream_length (line_records l)) as Hlen.
  assert (length (l_mtags l) < fuel ∧ length (l_batch l) < fuel)%nat as [F1 F2].
  { unfold line_records in Hlen at 1. rewrite !length_app in Hlen. cbn [length] in Hlen.
    pose proof (flat_map_length_ge tag_records (l_mtags l) ltac:(intros; simpl; lia)).
    pose proof (flat_map_length_ge batch_records (l_batch l) ltac:(intros; simpl; lia)). lia. }
  unfold line_records in Hr. rewrite !stream_app in Hr. cbn [stream flat_map app] in Hr. rewrite app_nil_r, <-!app_assoc in Hr.
  fold (stream (flat_map tag_records (l_mtags l))) (stream (flat_map batch_records (l_batch l))) in Hr.
  unfold entry_body. destruct (safe_int32 _ _ _ Hr ltac:(done)) as (c1 & H1 & ->). cbn beta.
  change (HISTORYDB_MAGIC_ENTRY_START =? HISTORYDB_MAGIC_FILE_END) with false. rewrite Z.eqb_refl. cbn [negb].
  destruct (safe_int64 _ _ _ H1 ltac:(lia)) as (c2 & H2 & ->). cbn beta.
  destruct (tags_loop _ _ [] _ fuel H2 S2 F1) as (c3 & -> & H3). cbn [rbind app].
  destruct (safe_str _ _ _ H3 S3) as (c4 & H4 & ->). cbn beta.
  assert (evict (λ n, h_max_lines h <=? n) (length (h_lines h)) h = h) as ->.
  { destruct Hroom as [Hroom| ->]; [|done]. destruct (length (h_lines h)); [done|]. cbn [evict].
    by rewrite (proj2 (Z.leb_gt _ _)). }
  change (5001 <=? 5001) with true. cbn match.
  destruct (safe_int32 _ _ _ H4 ltac:(lia)) as (c5 & H5 & ->). cbn beta.
  destruct (safe_int32 _ _ _ H5 ltac:(lia)) as (c6 & H6 & ->). cbn beta.
  rewrite add_line_last by done. cbn [rbind].
  destruct (batch_loop (l_batch l) c6 (set_lines (alter (set_batch (Z.of_nat (length (l_batch l))) (l_concat l))
    (length (h_lines h)) (h_lines (load h (bare l)))) (h_num_lines (load h (bare l))) (load h (bare l)))
    (length (h_lines h)) 0 _ fuel H6 S5 F2) as (c7 & E7 & H7). rewrite Z.add_0_l in E7. rewrite E7. cbn [rbind].
  rewrite load_attach by done. destruct (safe_int32 _ _ _ H7 ltac:(done)) as (c8 & H8 & ->). cbn beta. rewrite Z.eqb_refl.
  by exists c8.
Qed.

Lemma load_fields h l :
  h_lines (load h l) = h_lines h ++ [l] ∧ h_num_lines (load h l) = h_num_lines h + l_num_lines l ∧
  h_max_lines (load h l) = h_max_lines h ∧ h_max_time (load h l) = h_max_time h ∧ h_name (load h l) = h_name h.
Proof. unfold load. by destruct (_ || _). Qed.

(** Lines that go to the end of a log one after the other, within its limit. *)
Record loadable (h : HistoryLogObject) (ls : list HistoryLogLine) : Prop := Loadable {
  la_ok : Forall line_ok (h_lines h ++ ls);
  la_stored : Forall stored_ok ls;
  la_sorted : StronglySorted line_le (h_lines h ++ ls);
  la_ids : NoDup (map l_msgid (h_lines h ++ ls));
  la_room : h_num_lines h + total_lines ls ≤ h_max_lines h ∨ (h_lines h = [] ∧ (length ls ≤ 1)%nat) ∨ ls = []
}.

Lemma loadable_step h l ls : loadable h (l :: ls) →
  line_ok l ∧ stored_ok l ∧ goes_last h l ∧ (h_num_lines h < h_max_lines h ∨ h_lines h = []) ∧ loadable (load h l) ls.
Proof.
  intros [H1 H2 H3 H4 H5]. destruct (load_fields h l) as (E1 & E2 & E3 & _).
  pose proof H1 as H1'. apply Forall_app in H1' as [Hh Hl]. apply Forall_cons in Hl as [Hl Hls].
  apply Forall_cons in H2 as [Hs Hss]. pose proof H3 as H3'. apply StronglySorted_app in H3' as (Hle & _ & _).
  pose proof Hl as [_ _ _ _ _ Hn _]. pose proof (total_lines_pos ls Hls) as Hp. cbn [total_lines length] in H5.
  split_and!; try done.
  - unfold goes_last. rewrite Forall_forall in Hh |- *. intros e He. split_and!; [by apply Hh|apply Hle; [done|left]|].
    rewrite map_app in H4. apply NoDup_app in H4 as (_ & Hd & _). intros E. apply (Hd (l_msgid e)); [|rewrite E; left].
    by apply (list_elem_of_fmap_2 l_msgid).
  - destruct H5 as [|[[? _]|?]]; [left; lia|by right|done].
  - constructor; rewrite ?E1, ?E2, ?E3, <-?app_assoc; try done. destruct H5 as [|[[_ Hlen]|?]]; [left; lia| |done].
    right. right. destruct ls; [done|simpl in Hlen; lia].
Qed.

Lemma entries_loop ls c h P fuel n :
  reads c (stream (flat_map line_records ls) ++ record_bytes (R32 HISTORYDB_MAGIC_FILE_END) ++ P) → loadable h ls →
  (length (stream (flat_map line_records ls)) < fuel)%nat → (length ls < n)%nat →
  loop (entry_body now 5001 fuel) n (c, h) = Ok (foldl load h ls, true).
Proof.
  revert c h n. induction ls as [|l ls IH]; intros c h n Hr Hl Hf Hn; (destruct n as [|n]; [simpl in Hn; lia|]); cbn [loop].
  - unfold entry_body. destruct (safe_int32 _ _ _ Hr ltac:(done)) as (c1 & H1 & ->). cbn beta. by rewrite Z.eqb_refl.
  - apply loadable_step in Hl as (Hok & Hs & Hg & Hroom & Hl). cbn [flat_map] in Hr, Hf.
    rewrite stream_app, <-app_assoc in Hr. rewrite stream_app, length_app in Hf. cbn [length] in Hn.
    destruct (entry_ok c h l _ fuel Hr Hok Hs Hg Hroom ltac:(lia)) as (c1 & -> & H1). cbn [foldl]. apply (IH c1); [done..|lia|lia].
Qed.

(** The log that is loaded. *)
Definition first_time (ls : list HistoryLogLine) : Z := match ls with [] => 0 | l :: _ => l_t l end.

Lemma load_rest ls h : 0 < h_oldest_t h → Forall (λ l, h_oldest_t h ≤ l_t l) ls →
  foldl load h ls =
  Object (h_lines h ++ ls) (h_num_lines h + total_lines ls) (h_oldest_t h) (h_max_lines h) (h_max_time h)
    (match ls with [] => h_dirty h | _ => true end) (h_name h).
Proof.
  revert h. induction ls as [|l ls IH]; intros h Ho Hls; cbn [foldl].
  { rewrite app_nil_r, Z.add_0_r. by destruct h. }
  apply Forall_cons in Hls as [Hl Hls].
  assert (load h l = set_dirty true (set_lines (h_lines h ++ [l]) (h_num_lines h + l_num_lines l) h)) as ->.
  { unfold load. rewrite (proj2 (Z.ltb_ge _ _)), (proj2 (Z.eqb_neq _ _)) by lia. done. }
  rewrite IH by done. cbn. rewrite <-app_assoc, <-Z.add_assoc. by destruct ls.
Qed.

Lemma load_all ls name ml mt d :
  Forall line_ok ls → StronglySorted line_le ls →
  foldl load (Object [] 0 0 ml mt d name) ls =
  Object ls (total_lines ls) (first_time ls) ml mt (match ls with [] => d | _ => true end) name.
Proof.
  intros Hok Hs. destruct ls as [|l ls]; [done|]. cbn [foldl].
  assert (load (Object [] 0 0 ml mt d name) l = Object [l] (l_num_lines l) (l_t l) ml mt true name) as ->.
  { unfold load. cbn [h_oldest_t]. rewrite orb_true_r. done. }
  apply Forall_cons in Hok as [[_ _ [_ Hp] _ _ _ _] _]. inversion Hs as [|? ? _ Hle]; subst. rewrite load_rest; [by destruct ls|done|].
  eapply Forall_impl; [exact Hle|]. intros e [|[? _]]; cbn; lia.
Qed.

(** ** A log and its file *)

(** The name and the hashes of a server can be stored. *)
Definition text_ok (s : list Z) : Prop := cstr s ∧ Z.of_nat (length s) ≤ 10000.
Record storable (hs : hashes) (h : HistoryLogObject) : Prop := Storable {
  sb_log : log_ok h;
  sb_lines : Forall stored_ok (h_lines h);
  sb_ids : NoDup (map l_msgid (h_lines h));
  sb_hashes : text_ok (hbm_prehash hs) ∧ text_ok (hbm_posthash hs);
  sb_name : text_ok (h_name h);
  sb_limits : 0 ≤ h_max_lines h < 2 ^ 31 ∧ 0 ≤ h_max_time h < 2 ^ 63
}.

Lemma line_records_ok l : line_ok l → stored_ok l → Forall record_ok (line_records l).
Proof.
  intros [_ _ [_ Hpos] _ _ Hn _] [S1 S2 S3 S4 S5 S6]. unfold line_records.
  assert (Forall record_ok (flat_map tag_records (l_mtags l))) as Ht.
  { apply Forall_flat_map. eapply Forall_impl; [exact S2|]. intros m [H1 H2]. by apply Forall_cons; split; [|apply Forall_singleton]. }
  assert (Forall record_ok (flat_map batch_records (l_batch l))) as Hb.
  { apply Forall_flat_map. eapply Forall_impl; [exact S5|]. intros b (_ & H1 & H2).
    apply Forall_cons. split; [cbn [record_ok]; lia|by apply Forall_singleton]. }
  rewrite !Forall_app, !Forall_cons. split_and!; try done; cbn [record_ok]; try lia; by apply Forall_nil.
Qed.

Lemma log_records_ok hs h : storable hs h → Forall record_ok (log_records hs h).
Proof.
  intros [[[Hok _ _ _] _ _] Hs _ [H1 H2] Hn [Hl Ht]]. unfold log_records. rewrite !Forall_app, !Forall_cons.
  split_and!; try done; cbn [record_ok]; try lia.
  apply Forall_flat_map. rewrite Forall_forall in *. intros l Hin. apply line_records_ok; auto.
Qed.

Lemma read_header_ok hs h c P : storable hs h → reads c (stream (log_records hs h) ++ P) →
  ∃ c', read_header hs c = Ok (Some (c', 5001, h_name h)) ∧
    reads c' (stream (flat_map line_records (h_lines h)) ++ record_bytes (R32 HISTORYDB_MAGIC_FILE_END) ++ P).
Proof.
  intros [_ _ _ [H1 H2] Hn [Hl Ht]] Hr. unfold log_records in Hr. rewrite !stream_app in Hr. cbn [stream flat_map app] in Hr.
  rewrite app_nil_r, <-!app_assoc in Hr. fold (stream (flat_map line_records (h_lines h))) in Hr. unfold read_header.
  destruct (safe_int32 _ _ _ Hr ltac:(done)) as (c1 & R1 & ->). cbn beta. rewrite Z.eqb_refl. cbn [negb].
  destruct (safe_int32 _ _ _ R1 ltac:(done)) as (c2 & R2 & ->). cbn beta.
  change (5001 <? 4999) with false. change (5001 <? 5001) with false. cbn match.
  destruct (safe_str _ (Some _) _ R2 H1) as (c3 & R3 & ->). destruct (safe_str _ (Some _) _ R3 H2) as (c4 & R4 & ->). cbn beta.
  assert (∀ s, strcmp s s = 0) as Hz by apply cmpz_refl. rewrite !Hz. cbn [Z.eqb negb orb].
  destruct (safe_str _ (Some _) _ R4 Hn) as (c5 & R5 & ->). destruct (safe_int64 _ _ _ R5 ltac:(lia)) as (c6 & R6 & ->).
  destruct (safe_int64 _ _ _ R6 ltac:(lia)) as (c7 & R7 & ->). by exists c7.
Qed.

Lemma read_entries_ok hs h c P ml mt d :
  storable hs h → h_max_lines h ≤ ml →
  reads c (stream (flat_map line_records (h_lines h)) ++ record_bytes (R32 HISTORYDB_MAGIC_FILE_END) ++ P) →
  read_entries now 5001 c (Object [] 0 0 ml mt d (h_name h)) =
  Ok (Object (h_lines h) (h_num_lines h) (first_time (h_lines h)) ml mt false (h_name h), true).
Proof.
  intros [[[Hok Hs Hc _] _ Hlim] Hst Hid _ _ _] Hml Hr. unfold read_entries. pose proof (reads_length c _ Hr) as Hlen.
  rewrite !length_app in Hlen. cbn [record_bytes le_bytes length] in Hlen.
  pose proof (flat_map_length_ge line_records (h_lines h) ltac:(intros; simpl; lia)) as Hfl.
  pose proof (stream_length (flat_map line_records (h_lines h))) as Hsl.
  erewrite entries_loop; [| exact Hr | |lia|lia].
  - cbn [rbind]. rewrite load_all by done. by rewrite <-Hc.
  - constructor; cbn [h_lines h_num_lines h_max_lines app]; try done.
    destruct Hlim as [Hlim|Hone]; [left; rewrite <-Hc; lia|by right; left].
Qed.
End Reading.

Section RoundTrip.
Context `{L : CryptoLaws} (sha256_binary : list Z → list Z).

(** Everything that is not up to the server goes well. *)
Definition lucky (r : luck) : Prop :=
  granted (l_chance r) ∧ length (random_salt (l_chance r)) = UNREALDB_SALT_LEN ∧ close_ok r = true ∧ rename_ok r = true.

Lemma write_db_ok cfg hs r h w block pw :
  storable hs h → db_secret cfg = Some block → secrets_ok w → can_open w (Some block) pw → lucky r →
  0 ≤ Unrealdb.TStime w < 2 ^ 64 → (1200 + 2 * length (stream (log_records hs h)) ≤ disk w)%nat →
  ∃ w' data, hbm_write_db sha256_binary cfg hs true r h w = Ok (set_dirty false h, w', true) ∧ secrets_ok w' ∧
    files w' !! hbm_history_filename sha256_binary cfg hs h = Some data ∧
    saved pw data (Unrealdb.TStime w) (stream (log_records hs h)).
Proof.
  intros Hst Hb Hw Hco (L1 & L2 & L3 & L4) Ht Hd. unfold hbm_write_db. rewrite Hb.
  rewrite bool_decide_eq_true_2 by by eexists. cbn [require rbind negb].
  set (real := hbm_history_filename _ _ _ _). set (tmp := snprintf 512 _).
  destruct (open_write_ok tmp (Some block) pw (l_chance r) w Hw Hco L1 L2 Ht ltac:(lia)) as (w1 & c & -> & Hwr & Hf & Hs1).
  cbn [rbind]. destruct (writing_all pw (Unrealdb.TStime w) (disk w) c [] (log_records hs h) Hwr) as (c1 & E1 & Hwr1);
    [by apply log_records_ok|cbn [length]; lia|].
  rewrite E1. cbn [rbind]. rewrite L3. destruct (Unrealdb.close_ok pw _ _ c1 _ tmp w1 Hwr1 ltac:(done)) as (data & -> & Hsv).
  cbn [rbind negb orb]. rewrite L4. cbn [negb]. eexists _, data. split; [done|]. split_and!; [| |done].
  - unfold rename_file. by destruct (files _ !! tmp).
  - unfold rename_file. cbn [files set_files]. rewrite lookup_insert_eq. cbn [files set_files]. by rewrite lookup_insert_eq.
Qed.

(** Saving a log ends with a result whatever goes wrong, and changes at most its mark. *)
Lemma write_db_safe cfg hs permanent r h w :
  is_Some (db_secret cfg) → secrets_ok w → length (random_salt (l_chance r)) = UNREALDB_SALT_LEN →
  ∃ h' w' ok, hbm_write_db sha256_binary cfg hs permanent r h w = Ok (h', w', ok) ∧ secrets_ok w' ∧
    (h' = h ∨ h' = set_dirty false h).
Proof.
  intros Hs Hw Hr. unfold hbm_write_db. rewrite bool_decide_eq_true_2 by done. cbn [require rbind].
  destruct permanent; cbn [negb]; [|eexists _, _, _; split; [done|]; auto].
  destruct (open_write_safe (snprintf 512 (hbm_history_filename sha256_binary cfg hs h ++ bs ".tmp")) (db_secret cfg) (l_chance r) w Hw Hr)
    as (w1 & o & -> & Hw1 & Ho). cbn [rbind]. destruct o as [c|e]; [|eexists _, _, _; split; [done|]; auto].
  destruct (write_all_safe (log_records hs h) c Ho) as (c1 & ok & -> & Hc1). cbn [rbind].
  destruct (close_safe (snprintf 512 (hbm_history_filename sha256_binary cfg hs h ++ bs ".tmp")) (close_ok r) c1 w1 Hc1) as (w2 & closed & -> & Hw2). cbn [rbind].
  assert (secrets_ok w2) as Hs2 by (unfold secrets_ok; by rewrite Hw2).
  destruct (negb ok || negb closed); [eexists _, _, _; split; [done|]; auto|].
  destruct (negb (rename_ok r)); eexists _, _, _; (split; [done|]); auto. split; [|by right].
  unfold rename_file. by destruct (files w2 !! _).
Qed.
End RoundTrip.

(** ** A damaged file *)

#[local] Existing Instance toy.

(** The file ends inside a batch: the line counts for all its lines already, and when
    it is deleted later the number of lines is negative. *)
Definition torn_records : list record :=
  [R32 HISTORYDB_MAGIC_ENTRY_START; R64 1700000000; RStr (Some (bs "time")); RStr (Some (bs "2023-11-14T22:13:20.000Z"));
   RStr None; RStr None; RStr (Some (bs "x")); R32 0; R32 5].
Definition torn_file : UnrealDB :=
  DB (File (stream torn_records) 0 false 0) UNREALDB_MODE_READ false 0 None [] UNREALDB_ERROR_SUCCESS None.
Lemma torn_batch_counts :
  ∃ h l, read_entries (Moment 0 0 0 (bs "id")) 5001 torn_file (Object [] 0 0 10 86400 false (bs "#c")) = Ok (h, false) ∧
    h_lines h = [l] ∧ l_num_lines l = 6 ∧ h_num_lines h = 1 ∧ h_num_lines (hbm_history_del_line h 0) = -5.
Proof. eexists _, _. split; [vm_compute; reflexivity|]. vm_compute. done. Qed.
