(* ===== verification/History.v ===== *)
(** * The history of all channels (src/modules/history_backend_mem.c)

    The hash table of logs: finding and adding objects, and each operation of the
    backend on the object it is asked for; the timer that cleans and saves, saving at
    the end, and reading all files at the start.

    The table is a map from names, whatever their case, to logs, and every log stays
    well-formed; the timer reaches every log; a log survives a restart. *)

From stdpp Require Import base tactics list numbers strings gmap sets sorting.
From Stdlib Require Import ZArith Lia.
From S2P Require Import Prelude Chars Support MessageTags Times Hash Unrealdb HistoryLog HistoryRequests HistoryDelete HistoryFile.

Local Open Scope Z_scope.

Definition HISTORY_BACKEND_MEM_HASH_TABLE_SIZE : Z := 1019.
Definition HISTORY_SPREAD : Z := 60.
Definition HISTORY_CLEAN_PER_LOOP : Z := HISTORY_BACKEND_MEM_HASH_TABLE_SIZE / HISTORY_SPREAD.

Record hist := Hist {
  history_hash_table : gmap Z (list HistoryLogObject);
  siphashkey_history_backend_mem : list Z;
  cfg : cfgstruct;
  hs : hashes
}.
Definition set_table t st := Hist t (siphashkey_history_backend_mem st) (cfg st) (hs st).

(** ** Objects *)

Definition hbm_hash (st : hist) (object : list Z) : Z :=
  siphash_nocase object (siphashkey_history_backend_mem st) mod HISTORY_BACKEND_MEM_HASH_TABLE_SIZE.
Definition chain (st : hist) (hashv : Z) : list HistoryLogObject := default [] (history_hash_table st !! hashv).
Definition set_chain (hashv : Z) (l : list HistoryLogObject) (st : hist) : hist :=
  set_table (<[hashv := l]> (history_hash_table st)) st.

Fixpoint find_from (i : nat) (object : list Z) (l : list HistoryLogObject) : option (nat * HistoryLogObject) :=
  match l with
  | [] => None
  | h :: r => if strcasecmp object (h_name h) =? 0 then Some (i, h) else find_from (S i) object r
  end.
(** An object, and where it is in the chain of its name. *)
Definition hbm_find_object (st : hist) (object : list Z) : option (nat * HistoryLogObject) :=
  find_from 0 object (chain st (hbm_hash st object)).

Definition new_object (object : list Z) : HistoryLogObject :=
  Object [] 0 0 0 0 false (Strl.strlcpy [] object (OBJECTLEN + 1)).1.
Definition hbm_find_or_add_object (st : hist) (object : list Z) : hist * nat * HistoryLogObject :=
  let hashv := hbm_hash st object in
  match find_from 0 object (chain st hashv) with
  | Some (i, h) => (st, i, h)
  | None => let h := new_object object in (set_chain hashv (h :: chain st hashv) st, 0%nat, h)
  end.

(** The object at a place is changed. *)
Definition put_object (st : hist) (object : list Z) (i : nat) (h : HistoryLogObject) : hist :=
  let hashv := hbm_hash st object in set_chain hashv (<[i := h]> (chain st hashv)) st.

(** [DelListItem] with the chain of the name of the object: if it is not the chain
    that the object is the first of, that one still starts with the freed object. *)
Definition unlink_object (st : hist) (object : list Z) (i : nat) (h : HistoryLogObject) : res hist :=
  let hashv := hbm_hash st object in
  let! _ := require ((hbm_hash st (h_name h) =? hashv) || negb (i =? 0)%nat) in
  Ok (set_chain hashv (delete i (chain st hashv)) st).

(** ** Operations on a log *)

Definition hbm_history_add (now : moment) (st : hist) (object : list Z) (mtags : list MessageTag) (line : list Z) : res hist :=
  let '(st, i, h) := hbm_find_or_add_object st object in
  let! h := hbm_history_add_to now h mtags line in
  Ok (put_object st object i h).

Definition hbm_history_add_multiline (now : moment) (st : hist) (object : list Z) (mtags : list MessageTag)
    (source cmd target : list Z) (lines : list MLine) : res hist :=
  let '(st, i, h) := hbm_find_or_add_object st object in
  let! h := hbm_history_add_multiline_to now h mtags source cmd target lines in
  Ok (put_object st object i h).

Definition hbm_history_request (now : moment) (st : hist) (object : list Z) (f : HistoryFilter)
  : res (hist * option HistoryResult) :=
  match hbm_find_object st object with
  | None => Ok (st, None)
  | Some (i, h) =>
      let! (h, r) := hbm_history_request_from now object h f in
      Ok (put_object st object i h, Some r)
  end.

(** The numbers of deleted and of rejected lines. *)
Definition hbm_history_delete (st : hist) (object : list Z) (f : HistoryFilter) : res (hist * Z * Z) :=
  match hbm_find_object st object with
  | None => Ok (st, 0, 0)
  | Some (i, h) =>
      let! (h, deleted, rejected) := hbm_history_delete_from h f in
      Ok (put_object st object i h, deleted, rejected)
  end.

Definition hbm_history_set_limit (now : Z) (st : hist) (object : list Z) (max_lines max_time : Z) : hist :=
  let '(st, i, h) := hbm_find_or_add_object st object in
  put_object st object i (hbm_history_cleanup now (set_limits max_lines max_time h)).

Section Disk.
Context `{C : Crypto} (sha256_binary : list Z → list Z).

Definition hbm_delete_object_hlo (st : hist) (object : list Z) (i : nat) (h : HistoryLogObject) (w : world) : res (hist * world) :=
  let w := if persist (cfg st) then hbm_delete_db sha256_binary (cfg st) (hs st) h w else w in
  let! st := unlink_object st object i h in
  Ok (st, w).

Definition hbm_history_destroy (st : hist) (object : list Z) (w : world) : res (hist * world * bool) :=
  match hbm_find_object st object with
  | None => Ok (st, w, false)
  | Some (i, h) => let! (st, w) := hbm_delete_object_hlo st object i h w in Ok (st, w, true)
  end.

(** The hook for a channel mode that is unset. *)
Definition hbm_modechar_del (st : hist) (channel : list Z) (modechar : Z) (w : world) : hist * world :=
  if negb (persist (cfg st)) then (st, w)
  else if modechar =? 80 then
    match hbm_find_object st channel with
    | None => (st, w)
    | Some (i, h) => (put_object st channel i (set_dirty true h), hbm_delete_db sha256_binary (cfg st) (hs st) h w)
    end
  else (st, w).

(** ** Cleaning and saving *)

(** What depends on an object: whether its channel is permanent, and the luck with
    its file. *)
Context (permanent : list Z → bool) (fate : list Z → luck).

Definition clean_object (now : Z) (st : hist) (h : HistoryLogObject) (w : world) : res (HistoryLogObject * world) :=
  let h := hbm_history_cleanup now h in
  if persist (cfg st) && h_dirty h then
    let! (h, w, _) := hbm_write_db sha256_binary (cfg st) (hs st) (permanent (h_name h)) (fate (h_name h)) h w in Ok (h, w)
  else Ok (h, w).
Fixpoint clean_chain (now : Z) (st : hist) (l : list HistoryLogObject) (w : world) : res (list HistoryLogObject * world) :=
  match l with
  | [] => Ok ([], w)
  | h :: r =>
      let! (h, w) := clean_object now st h w in
      let! (r, w) := clean_chain now st r w in
      Ok (h :: r, w)
  end.
Definition clean_slot (now : Z) (hashnum : Z) (st : hist) (w : world) : res (hist * world) :=
  let! (l, w) := clean_chain now st (chain st hashnum) w in
  Ok (set_chain hashnum l st, w).

(** The [do] loop; [loopcnt] is counted down. *)
Fixpoint clean_slots (now : Z) (loopcnt : nat) (hashnum : Z) (st : hist) (w : world) : res (hist * world * Z) :=
  let! (st, w) := clean_slot now hashnum st w in
  let hashnum := if HISTORY_BACKEND_MEM_HASH_TABLE_SIZE <=? hashnum + 1 then 0 else hashnum + 1 in
  match loopcnt with
  | O => Ok (st, w, hashnum)
  | S n => clean_slots now n hashnum st w
  end.
Definition history_mem_clean (now hashnum : Z) (st : hist) (w : world) : res (hist * world * Z) :=
  clean_slots now (Z.to_nat HISTORY_CLEAN_PER_LOOP) hashnum st w.

Fixpoint flush_from (now : Z) (n : nat) (hashnum : Z) (st : hist) (w : world) : res (hist * world) :=
  match n with
  | O => Ok (st, w)
  | S n => let! (st, w) := clean_slot now hashnum st w in flush_from now n (hashnum + 1) st w
  end.
Definition hbm_flush (now : Z) (st : hist) (w : world) : res (hist * world) :=
  if negb (persist (cfg st)) then Ok (st, w)
  else flush_from now (Z.to_nat HISTORY_BACKEND_MEM_HASH_TABLE_SIZE) 0 st w.

(** Destroying every object of a chain, from the names they have. *)
Fixpoint destroy_all (names : list (list Z)) (st : hist) (w : world) : res (hist * world) :=
  match names with
  | [] => Ok (st, w)
  | n :: r => let! (st, w, _) := hbm_history_destroy st n w in destroy_all r st w
  end.
Fixpoint free_from (n : nat) (hashnum : Z) (st : hist) (w : world) : res (hist * world) :=
  match n with
  | O => Ok (st, w)
  | S n => let! (st, w) := destroy_all (map h_name (chain st hashnum)) st w in free_from n (hashnum + 1) st w
  end.
Definition hbm_free_all_history (st : hist) (w : world) : res (hist * world) :=
  free_from (Z.to_nat HISTORY_BACKEND_MEM_HASH_TABLE_SIZE) 0 st w.

(** ** Reading *)

Definition hbm_read_db (now : moment) (st : hist) (fname : list Z) (r : chance) (w : world) : res (hist * world * bool) :=
  let! (w, db) := unrealdb_open fname UNREALDB_MODE_READ (db_secret (cfg st)) r w in
  match db with
  | inr _ => Ok (st, w, false)
  | inl c =>
      let! header := read_header (hs st) c in
      match header with
      | None => Ok (st, w, false)
      | Some (c, version, object) =>
          match hbm_find_object st object with
          | None => Ok (st, unlink_file fname w, true)
          | Some (i, h) =>
              let! (h, ok) := read_entries now version c h in
              Ok (put_object st object i h, w, ok)
          end
      end
  end.

(** All files of the directory, in the order of [readdir]; a bad one is moved away. *)
Fixpoint hbm_read_dbs (now : moment) (st : hist) (names : list (list Z * chance)) (w : world) : res (hist * world) :=
  match names with
  | [] => Ok (st, w)
  | (fname, r) :: rest =>
      let dir := directory (cfg st) in
      let path := snprintf 512 (dir ++ bs "/" ++ fname) in
      if filename_has_suffix fname (bs ".db") && negb (strcmp fname (bs "master.db") =? 0) then
        let! (st, w, ok) := hbm_read_db now st path r w in
        let bad := snprintf 512 (dir ++ bs "/bad/" ++ fname) in
        hbm_read_dbs now st rest (if ok : bool then w else rename_file path bad (unlink_file bad w))
      else hbm_read_dbs now st rest w
  end.
End Disk.

(** ** The table is a map *)

Record repr (st : hist) (M : gmap (list Z) HistoryLogObject) : Prop := Repr {
  rp_in : ∀ hv h, h ∈ chain st hv → hv = hbm_hash st (h_name h) ∧ M !! casefold (h_name h) = Some h;
  rp_once : ∀ hv, NoDup (map (casefold ∘ h_name) (chain st hv));
  rp_map : ∀ k h, M !! k = Some h → casefold (h_name h) = k ∧ cstr (h_name h) ∧ h ∈ chain st (hbm_hash st (h_name h))
}.

Lemma hbm_hash_ci st s t : casefold s = casefold t → hbm_hash st s = hbm_hash st t.
Proof. intros H. unfold hbm_hash. by rewrite (siphash_casefold s t). Qed.

Lemma chain_set st hv hv' l : chain (set_chain hv l st) hv' = if decide (hv = hv') then l else chain st hv'.
Proof.
  unfold chain, set_chain. cbn. destruct (decide (hv = hv')) as [->|]; [by rewrite lookup_insert_eq|by rewrite lookup_insert_ne].
Qed.

Lemma find_from_spec i object l :
  cstr object → (∀ h, h ∈ l → cstr (h_name h)) →
  match find_from i object l with
  | Some (j, h) => ∃ k, j = (i + k)%nat ∧ l !! k = Some h ∧ casefold (h_name h) = casefold object
  | None => ∀ h, h ∈ l → casefold (h_name h) ≠ casefold object
  end.
Proof.
  intros Ho. revert i. induction l as [|h l IH]; intros i Hl; cbn [find_from]; [by intros h ?%not_elem_of_nil|].
  rewrite strcasecmp_eq by (done || apply Hl; left). case_bool_decide as E.
  - exists 0%nat. by rewrite Nat.add_0_r.
  - specialize (IH (S i) ltac:(intros; apply Hl; by right)). destruct (find_from (S i) object l) as [[j h']|].
    + destruct IH as (k & -> & Hk & Hn). exists (S k). split; [lia|done].
    + intros h' [->|Hin]%elem_of_cons; [congruence|by apply IH].
Qed.

Section Repr.
Context (st : hist) (M : gmap (list Z) HistoryLogObject) (HR : repr st M).

Lemma find_object_repr object : cstr object →
  match hbm_find_object st object with
  | Some (i, h) => M !! casefold object = Some h ∧ chain st (hbm_hash st object) !! i = Some h ∧ casefold (h_name h) = casefold object
  | None => M !! casefold object = None
  end.
Proof.
  intros Ho. unfold hbm_find_object. pose proof (find_from_spec 0 object (chain st (hbm_hash st object)) Ho) as H.
  ospecialize (H _).
  { intros h Hh. destruct (rp_in _ _ HR _ _ Hh) as [_ HM]. by destruct (rp_map _ _ HR _ _ HM) as (_ & ? & _). }
  destruct (find_from _ _ _) as [[i h]|].
  - destruct H as (k & -> & Hk & Hn). simpl. rewrite <-Hn. split_and!; try done.
    by destruct (rp_in _ _ HR _ h (list_elem_of_lookup_2 _ _ _ Hk)) as [_ ?].
  - destruct (M !! casefold object) as [h|] eqn:E; [|done]. exfalso. destruct (rp_map _ _ HR _ _ E) as (Hn & _ & Hin).
    apply (H h); [|done]. by rewrite (hbm_hash_ci st object (h_name h)).
Qed.

(** An object is changed, and keeps its name. *)
Lemma put_object_repr object i h h' :
  chain st (hbm_hash st object) !! i = Some h → h_name h' = h_name h →
  repr (put_object st object i h') (<[casefold (h_name h) := h']> M).
Proof.
  intros Hi Hn. set (hv := hbm_hash st object) in *.
  pose proof (list_elem_of_lookup_2 _ _ _ Hi) as Hin. destruct (rp_in _ _ HR _ _ Hin) as [Ehv HM].
  destruct (rp_map _ _ HR _ _ HM) as (_ & Hc & _). pose proof (lookup_lt_Some _ _ _ Hi) as Hlt.
  assert (∀ x, hbm_hash (put_object st object i h') x = hbm_hash st x) as Hh by done.
  assert (∀ hv', chain (put_object st object i h') hv' = if decide (hv = hv') then <[i := h']> (chain st hv) else chain st hv') as Hch
    by (intros; apply chain_set).
  assert (map (casefold ∘ h_name) (<[i := h']> (chain st hv)) = map (casefold ∘ h_name) (chain st hv)) as Hmap.
  { change (map ?f ?l) with (f <$> l). rewrite list_fmap_insert. apply list_insert_id. rewrite list_lookup_fmap, Hi. simpl. by rewrite Hn. }
  constructor.
  - intros hv' x. rewrite Hch, Hh. case_decide as E; [subst hv'|].
    + intros Hx. apply list_elem_of_lookup in Hx as (j & Hj). destruct (decide (i = j)) as [<-|Hne].
      * rewrite list_lookup_insert_eq in Hj by done. injection Hj as <-. rewrite Hn. by rewrite lookup_insert_eq.
      * rewrite list_lookup_insert_ne in Hj by done. destruct (rp_in _ _ HR _ _ (list_elem_of_lookup_2 _ _ _ Hj)) as [? ?].
        split; [done|]. rewrite lookup_insert_ne; [done|]. intros Ek. apply Hne.
        eapply (NoDup_lookup _ i j (casefold (h_name h)) (rp_once _ _ HR hv)); change (map ?f ?l) with (f <$> l);
          rewrite list_lookup_fmap; [by rewrite Hi|rewrite Hj; simpl; by rewrite Ek].
    + intros Hx. destruct (rp_in _ _ HR _ _ Hx) as [Ex HMx]. split; [done|]. rewrite lookup_insert_ne; [done|].
      intros Ek. apply E. rewrite Ehv, Ex. by apply hbm_hash_ci.
  - intros hv'. rewrite Hch. case_decide; [rewrite Hmap|]; apply (rp_once _ _ HR).
  - intros k x. rewrite Hh, Hch. destruct (decide (k = casefold (h_name h))) as [->|Hk].
    + rewrite lookup_insert_eq. intros [= <-]. rewrite Hn. split_and!; [done..|]. rewrite <-Ehv, decide_True by done.
      apply list_elem_of_lookup_2 with i. by apply list_lookup_insert_eq.
    + rewrite lookup_insert_ne by done. intros Hx. destruct (rp_map _ _ HR _ _ Hx) as (E1 & E2 & E3). split_and!; [done..|].
      case_decide as E; [|done]. rewrite <-E in E3. apply list_elem_of_lookup in E3 as (j & Hj). apply list_elem_of_lookup_2 with j.
      rewrite list_lookup_insert_ne; [done|]. intros <-. rewrite Hi in Hj. injection Hj as ->. done.
Qed.

(** A name that fits is not cut off. *)
Definition name_ok (object : list Z) : Prop := cstr object ∧ (length object ≤ OBJECTLEN)%nat.
Lemma new_object_name object : name_ok object → h_name (new_object object) = object.
Proof.
  intros [_ Hl]. unfold new_object. cbn [h_name]. rewrite Strl.strlcpy_fst by (unfold OBJECTLEN; lia). apply take_ge. lia.
Qed.

Lemma add_object_repr object :
  name_ok object → M !! casefold object = None →
  let hv := hbm_hash st object in
  repr (set_chain hv (new_object object :: chain st hv) st) (<[casefold object := new_object object]> M).
Proof.
  intros Hn HM hv. pose proof (new_object_name _ Hn) as En. destruct Hn as [Hc _].
  set (h := new_object object) in *. clearbody h. set (st' := set_chain _ _ st).
  assert (∀ x, hbm_hash st' x = hbm_hash st x) as Hh by done.
  assert (∀ hv', chain st' hv' = if decide (hv = hv') then h :: chain st hv else chain st hv') as Hch by (intros; apply chain_set).
  assert (∀ x hv', x ∈ chain st hv' → casefold (h_name x) ≠ casefold object) as Hnew.
  { intros x hv' [_ Hx]%(rp_in _ _ HR) E. rewrite E, HM in Hx. done. }
  constructor.
  - intros hv' x. rewrite Hch, Hh. case_decide as E; [subst hv'; intros [->|Hx]%elem_of_cons; [by rewrite En, lookup_insert_eq|]|intros Hx].
    all: rewrite lookup_insert_ne by (apply not_eq_sym; by eapply Hnew); by apply (rp_in _ _ HR).
  - intros hv'. rewrite Hch. case_decide; [|apply (rp_once _ _ HR)]. cbn [map]. apply NoDup_cons. split; [|apply (rp_once _ _ HR)].
    change (map ?f ?l) with (f <$> l). intros (x & E & Hx)%list_elem_of_fmap. cbn in E. rewrite En in E. by eapply Hnew.
  - intros k x. rewrite Hh, Hch. destruct (decide (k = casefold object)) as [->|Hk].
    + rewrite lookup_insert_eq. intros [= <-]. rewrite En. split_and!; [done..|]. rewrite decide_True by done. left.
    + rewrite lookup_insert_ne by done. intros Hx. destruct (rp_map _ _ HR _ _ Hx) as (E1 & E2 & E3). split_and!; [done..|].
      case_decide as E; [|done]. right. by rewrite E.
Qed.

Lemma unlink_object_repr object i h :
  chain st (hbm_hash st object) !! i = Some h → casefold (h_name h) = casefold object →
  ∃ st', unlink_object st object i h = Ok st' ∧ cfg st' = cfg st ∧ repr st' (delete (casefold object) M).
Proof.
  intros Hi Hn. set (hv := hbm_hash st object) in *. unfold unlink_object. rewrite (hbm_hash_ci st _ _ Hn). fold hv.
  rewrite Z.eqb_refl. cbn [orb require rbind]. eexists. split; [done|]. split; [done|].
  set (st' := set_chain _ _ st).
  assert (∀ x, hbm_hash st' x = hbm_hash st x) as Hh by done.
  assert (∀ hv', chain st' hv' = if decide (hv = hv') then delete i (chain st hv) else chain st hv') as Hch by (intros; apply chain_set).
  assert (chain st hv ≡ₚ h :: delete i (chain st hv)) as Hp by (by apply delete_Permutation).
  pose proof (rp_once _ _ HR hv) as Hnd.
  assert (NoDup (map (casefold ∘ h_name) (h :: delete i (chain st hv)))) as Hnd'.
  { change (map ?f ?l) with (f <$> l) in *. by rewrite <-Hp. }
  cbn [map] in Hnd'. apply NoDup_cons in Hnd' as [Hout Hnd'].
  assert (∀ x, x ∈ delete i (chain st hv) → x ∈ chain st hv ∧ casefold (h_name x) ≠ casefold object) as Hrest.
  { intros x Hx. split; [rewrite Hp; by right|]. intros E. apply Hout. change (map ?f ?l) with (f <$> l).
    apply list_elem_of_fmap. exists x. split; [cbn; congruence|done]. }
  constructor.
  - intros hv' x. rewrite Hch, Hh. case_decide as E; [subst hv'|].
    + intros Hx. destruct (Hrest x Hx) as [Hin Hne]. rewrite lookup_delete_ne by done. by apply (rp_in _ _ HR).
    + intros Hx. destruct (rp_in _ _ HR _ _ Hx) as [Ex HMx]. split; [done|]. rewrite lookup_delete_ne; [done|].
      intros Ek. apply E. rewrite Ex. unfold hv. by apply hbm_hash_ci.
  - intros hv'. rewrite Hch. case_decide; [done|apply (rp_once _ _ HR)].
  - intros k x [Hk Hx]%lookup_delete_Some. rewrite Hh, Hch. destruct (rp_map _ _ HR _ _ Hx) as (E1 & E2 & E3). split_and!; [done..|].
    case_decide as E; [|done]. rewrite <-E, Hp in E3. apply elem_of_cons in E3 as [->|]; [|done]. congruence.
Qed.
End Repr.

(** ** Well-formed objects *)

(** All times of the clock are behind [epoch], and no log keeps lines for longer. *)
Section Objects.
Context (epoch : Z) (Hepoch : 86400 < epoch).

Record obj_ok (h : HistoryLogObject) : Prop := ObjOk {
  oo_log : log_ok h;
  oo_limit : 1 ≤ h_max_lines h ∨ (h_max_lines h = 0 ∧ h_lines h = []);
  oo_time : h_max_time h < epoch;
  oo_accounts : Forall account_ok (h_lines h)
}.
Definition account_tag_ok (m : list MessageTag) : Prop := ∀ t, find_mtag m (bs "account") = Some t → is_Some (t_value t).

Lemma new_object_ok object : obj_ok (new_object object).
Proof. constructor; cbn; [|by right|lia|constructor]. constructor; cbn; [constructor; cbn; by constructor|by left|by left]. Qed.

Lemma duplicate_account now m m' t s id :
  hbm_duplicate_mtags now m = Ok (m', t, s, id) → find_mtag m' (bs "account") = find_mtag m (bs "account").
Proof.
  unfold hbm_duplicate_mtags. intros E.
  assert (∃ m1 s1, match find_mtag m (bs "time") with
      | Some n => Ok (m, t_value n)
      | None => let! buf := timestamp_iso8601_now (tv_sec now) (tv_usec now) in Ok (MTag (bs "time") (Some buf) :: m, Some buf)
      end = Ok (m1, s1) ∧ find_mtag m1 (bs "account") = find_mtag m (bs "account")) as (m1 & s1 & E1 & Hm).
  { destruct (find_mtag m (bs "time")) as [n|]; [by eexists _, _|]. destruct (timestamp_iso8601_now _ _); [by eexists _, _|done..]. }
  rewrite E1 in E. cbn [rbind] in E. destruct (server_time_to_unix_time s1); [|done..]. cbn [rbind] in E. rewrite <-Hm.
  destruct (find_mtag m1 (bs "msgid")) as [[n [v|]]|]; injection E as <- _ _ _; done.
Qed.

Lemma add_accounts now h mtags line batch h' :
  add_result now h mtags line batch h' → account_tag_ok mtags → Forall account_ok (h_lines h) → Forall account_ok (h_lines h').
Proof.
  intros [j e m t s id _ -> _ _|j k l m t s id E Em _ _ _ _ _ ->] Ht Hh; [by apply Forall_drop|].
  apply Forall_app. split; [by apply Forall_take, Forall_drop|]. constructor; [|by apply Forall_drop, Forall_drop].
  intros x Hx. rewrite Em, (duplicate_account _ _ _ _ _ _ E) in Hx. by apply Ht.
Qed.

Lemma default_limit_obj h : obj_ok h → 1 ≤ h_max_lines (default_limit h) ∧ h_max_time (default_limit h) < epoch ∧
  h_name (default_limit h) = h_name h ∧ (h_max_lines h ≠ 0 ∨ h_lines h = []).
Proof.
  intros [_ Hl Ht _]. unfold default_limit. destruct (Z.eqb_spec (h_max_lines h) 0) as [E|E]; cbn; split_and!; try done; try lia.
  destruct Hl as [|[_ ?]]; [lia|by right].
Qed.

Lemma add_obj now h mtags line : obj_ok h → tags_ok now mtags → account_tag_ok mtags →
  ∃ h', hbm_history_add_to now h mtags line = Ok h' ∧ obj_ok h' ∧ h_name h' = h_name h.
Proof.
  intros Ho Ht Ha. destruct (default_limit_obj h Ho) as (D1 & D2 & D3 & D4).
  destruct (history_add_ok now h mtags line (oo_log _ Ho) D4 Ht) as (h' & E & Hlog & Hr & (S1 & S2 & S3)).
  exists h'. split; [done|]. split; [|congruence]. constructor; [done|left; lia|lia|].
  eapply add_accounts; [done..|apply Ho].
Qed.

Lemma add_multiline_obj now h mtags source cmd target lines : obj_ok h → tags_ok now mtags → account_tag_ok mtags →
  ∃ h', hbm_history_add_multiline_to now h mtags source cmd target lines = Ok h' ∧ obj_ok h' ∧ h_name h' = h_name h.
Proof.
  intros Ho Ht Ha. destruct (default_limit_obj h Ho) as (D1 & D2 & D3 & D4).
  destruct (default_limit_ok h (oo_log _ Ho) D4) as (L1 & L2 & _ & _). destruct lines as [|first rest].
  { eexists. split; [done|]. split; [|done]. constructor; [done|by left|done|]. rewrite L2. apply Ho. }
  destruct (history_add_multiline_ok now h mtags source cmd target first rest (oo_log _ Ho) D4 Ht)
    as (h' & E & Hlog & Hr & (S1 & S2 & S3)).
  exists h'. split; [done|]. split; [|congruence]. constructor; [done|left; lia|lia|].
  eapply add_accounts; [done..|apply Ho].
Qed.

(** A log with some of its lines, and the same or other limits. *)
Lemma sub_obj h h' : obj_ok h → log_ok h' → h_lines h' `sublist_of` h_lines h → h_max_lines h' = h_max_lines h →
  h_max_time h' = h_max_time h → obj_ok h'.
Proof.
  intros [Hl Hm Ht Ha] Hl' Hsub E1 E2. constructor; [done| |lia|by eapply sublist_Forall].
  destruct Hm as [|[? E]]; [left; lia|right]. rewrite E in Hsub. apply sublist_nil_r in Hsub. split; [lia|done].
Qed.

Lemma clean_obj now h : obj_ok h → epoch ≤ now →
  obj_ok (hbm_history_cleanup now h) ∧ h_name (hbm_history_cleanup now h) = h_name h.
Proof.
  intros Ho Hn. pose proof Ho as [[Hc _ _] _ Ht _]. destruct (log_cleanup_ok now h Hc ltac:(lia)) as (C & M & T & N & j & Hl & _).
  split; [|done]. apply (sub_obj h); try done. rewrite Hl. etrans; [apply sublist_drop|apply sublist_filter].
Qed.

Lemma set_limit_obj now h ml mt : obj_ok h → epoch ≤ now → 1 ≤ ml → mt < epoch →
  let h' := hbm_history_cleanup now (set_limits ml mt h) in obj_ok h' ∧ h_name h' = h_name h.
Proof.
  intros Ho Hn Hml Hmt. pose proof Ho as [[Hc _ _] _ _ Ha].
  assert (core_ok (set_limits ml mt h)) as Hc' by (destruct Hc; by constructor).
  destruct (log_cleanup_ok now (set_limits ml mt h) Hc' ltac:(simpl; lia)) as (C & M & T & N & j & Hl & _). cbv zeta.
  cbn [set_limits h_max_lines h_max_time h_name h_lines] in *. split; [|done].
  constructor; [done|left; lia|lia|]. rewrite Hl. apply Forall_drop. by eapply sublist_Forall; [apply sublist_filter|].
Qed.

Lemma request_obj now object h f : obj_ok h → epoch ≤ HistoryLog.TStime now → filter_ok f →
  ∃ h' r, hbm_history_request_from now object h f = Ok (h', r) ∧ obj_ok h' ∧ h_name h' = h_name h.
Proof.
  intros Ho Hn Hf. pose proof Ho as [Hlog _ Ht _].
  destruct (request_total now f object h Hlog ltac:(lia) Hf) as (h' & r & E & ->).
  destruct (request_cleans (HistoryLog.TStime now) h Hlog ltac:(lia)) as (R1 & R2 & R3 & R4 & R5).
  eexists _, r. split; [done|]. split; [|done]. apply (sub_obj h); try done. rewrite R2. apply sublist_filter.
Qed.

Lemma delete_obj h f : obj_ok h → 1 ≤ limit f →
  ∃ h' d r, hbm_history_delete_from h f = Ok (h', d, r) ∧ obj_ok h' ∧ h_name h' = h_name h.
Proof.
  intros Ho Hf. pose proof Ho as [Hlog _ Ht Ha].
  destruct (delete_from_spec h f Hlog Ha Hf) as (h' & d & r & E & Hlog' & E1 & E2 & _). exists h', d, r. split; [done|].
  assert (same_limits h h') as (S1 & S2 & S3).
  { unfold hbm_history_delete_from in E. destruct (delete_loop f (h_lines h) false (h_num_lines h) 0 0) as [[[[ls n] d'] r']| |]; [|done..].
    cbn [rbind] in E. injection E as <- _ _. by destruct (0 <? d'). }
  split; [|done]. apply (sub_obj h); try done. rewrite E1, E2. apply sublist_app; [done|]. apply sublist_app; [|done].
  apply drop_first_sublist.
Qed.
End Objects.

(** ** The timer on the map *)

Lemma cleanup_name now h : h_name (hbm_history_cleanup now h) = h_name h.
Proof.
  assert (∀ x h, h_name (replace_lines x h) = h_name h) as Hr by (intros [[ls n] o] h'; apply replace_fields).
  unfold hbm_history_cleanup. cbv zeta. set (h1 := if h_oldest_t h <? _ then _ else h).
  assert (h_name h1 = h_name h) as <- by (unfold h1; destruct (_ <? _); [apply Hr|done]).
  clearbody h1. destruct (_ <? _); [apply Hr|done].
Qed.

Section Timer.
Context `{C : Crypto} (sha256_binary : list Z → list Z) (permanent : list Z → bool) (fate : list Z → luck).

(** The logs of a slot are cleaned. *)
Definition clean_if (now : Z) (st : hist) (hv : Z) (h : HistoryLogObject) : HistoryLogObject :=
  if hbm_hash st (h_name h) =? hv then hbm_history_cleanup now h else h.
Fixpoint clean_map (now : Z) (st : hist) (loopcnt : nat) (hashnum : Z) (M : gmap (list Z) HistoryLogObject)
  : gmap (list Z) HistoryLogObject * Z :=
  let M := clean_if now st hashnum <$> M in
  let hashnum := if HISTORY_BACKEND_MEM_HASH_TABLE_SIZE <=? hashnum + 1 then 0 else hashnum + 1 in
  match loopcnt with O => (M, hashnum) | S n => clean_map now st n hashnum M end.

Lemma clean_if_name now st hv h : h_name (clean_if now st hv h) = h_name h.
Proof. unfold clean_if. destruct (_ =? _); [apply cleanup_name|done]. Qed.

Lemma clean_chain_plain now st l w :
  persist (cfg st) = false → clean_chain sha256_binary permanent fate now st l w = Ok (map (hbm_history_cleanup now) l, w).
Proof.
  intros Hp. induction l as [|h l IH]; [done|]. cbn [clean_chain map]. unfold clean_object. rewrite Hp. cbn [andb rbind].
  rewrite IH. done.
Qed.

Lemma clean_slot_repr now hv st w M : repr st M → persist (cfg st) = false →
  ∃ st', clean_slot sha256_binary permanent fate now hv st w = Ok (st', w) ∧ cfg st' = cfg st ∧
    siphashkey_history_backend_mem st' = siphashkey_history_backend_mem st ∧ repr st' (clean_if now st hv <$> M).
Proof.
  intros HR Hp. unfold clean_slot. rewrite clean_chain_plain by done. cbn [rbind]. eexists. split; [done|]. split_and!; [done..|].
  set (st' := set_chain _ _ st). assert (∀ x, hbm_hash st' x = hbm_hash st x) as Hh by done.
  assert (∀ hv', chain st' hv' = clean_if now st hv <$> chain st hv') as Hch.
  { intros hv'. unfold st'. rewrite chain_set. case_decide as E.
    - subst hv'. apply list_fmap_ext. intros i x Hx. unfold clean_if.
      by rewrite <-(proj1 (rp_in _ _ HR _ _ (list_elem_of_lookup_2 _ _ _ Hx))), Z.eqb_refl.
    - rewrite <-(list_fmap_id (chain st hv')) at 1. apply list_fmap_ext. intros i x Hx. unfold clean_if.
      rewrite <-(proj1 (rp_in _ _ HR _ _ (list_elem_of_lookup_2 _ _ _ Hx))). by rewrite (proj2 (Z.eqb_neq _ _)). }
  constructor.
  - intros hv' x. rewrite Hch, Hh. intros (y & -> & Hy)%list_elem_of_fmap. rewrite clean_if_name, (lookup_fmap (M:=gmap (list Z))).
    destruct (rp_in _ _ HR _ _ Hy) as [? ->]. done.
  - intros hv'. rewrite Hch. change (map ?f ?l) with (f <$> l). rewrite <-list_fmap_compose.
    erewrite list_fmap_ext; [apply (rp_once _ _ HR hv')|]. intros i x _. cbn. by rewrite clean_if_name.
  - intros k x. rewrite lookup_fmap, Hh, Hch. intros (y & Hy & ->)%fmap_Some. rewrite clean_if_name.
    destruct (rp_map _ _ HR _ _ Hy) as (? & ? & ?). split_and!; [done..|]. by apply list_elem_of_fmap_2.
Qed.

Lemma clean_map_key now s s' n hv M :
  siphashkey_history_backend_mem s' = siphashkey_history_backend_mem s → clean_map now s' n hv M = clean_map now s n hv M.
Proof.
  intros E. revert hv M. induction n as [|n IH]; intros hv M; cbn [clean_map];
    (assert (clean_if now s' hv <$> M = clean_if now s hv <$> M) as -> by
      (apply map_fmap_ext; intros ? h _; unfold clean_if, hbm_hash; by rewrite E)); done || apply IH.
Qed.

Lemma clean_slots_repr now n hv st w M : repr st M → persist (cfg st) = false →
  ∃ st', clean_slots sha256_binary permanent fate now n hv st w = Ok (st', w, (clean_map now st n hv M).2) ∧ cfg st' = cfg st ∧
    siphashkey_history_backend_mem st' = siphashkey_history_backend_mem st ∧ repr st' (clean_map now st n hv M).1.
Proof.
  revert hv st M. induction n as [|n IH]; intros hv st M HR Hp; cbn [clean_slots clean_map];
    destruct (clean_slot_repr now hv st w M HR Hp) as (st1 & -> & Ec & Ek & HR1); cbn [rbind].
  - by exists st1.
  - rewrite <-Ec in Hp. destruct (IH (if HISTORY_BACKEND_MEM_HASH_TABLE_SIZE <=? hv + 1 then 0 else hv + 1) st1 _ HR1 Hp)
      as (st2 & E2 & Ec2 & Ek2 & HR2). rewrite (clean_map_key now _ _ _ _ _ Ek) in E2, HR2. exists st2. split_and!; [done|congruence..|done].
Qed.
End Timer.

(** ** Operations and their specification *)

(** The slots that the timer visits from a slot on. *)
Definition next_slot (hv : Z) : Z := if HISTORY_BACKEND_MEM_HASH_TABLE_SIZE <=? hv + 1 then 0 else hv + 1.
Fixpoint slots (n : nat) (hv : Z) : list Z := match n with O => [] | S n => hv :: slots n (next_slot hv) end.
Fixpoint slot_after (n : nat) (hv : Z) : Z := match n with O => hv | S n => slot_after n (next_slot hv) end.

(** The timer and the end of the server also have the channels that are permanent, the luck
    with the files and the room on the disk at that time. *)
Inductive hist_op :=
| OpAdd (now : moment) (object : list Z) (mtags : list MessageTag) (line : list Z)
| OpMultiline (now : moment) (object : list Z) (mtags : list MessageTag) (source cmd target : list Z) (lines : list MLine)
| OpRequest (now : moment) (object : list Z) (f : HistoryFilter)
| OpDelete (object : list Z) (f : HistoryFilter)
| OpDestroy (object : list Z)
| OpSetLimit (now : Z) (object : list Z) (max_lines max_time : Z)
| OpModeDel (channel : list Z) (modechar : Z)
| OpClean (now : Z) (permanent : list Z → bool) (fate : list Z → luck) (room : nat)
| OpFlush (now : Z) (permanent : list Z → bool) (fate : list Z → luck) (room : nat).

Inductive hist_out := OutNone | OutResult (r : option HistoryResult) | OutCounts (deleted rejected : Z) | OutFound (b : bool).

Definition at_time (now : Z) (room : nat) (w : world) : world := World (files w) (secrets w) now room.

Section Refinement.
Context `{L : CryptoLaws} (sha256_binary : list Z → list Z).
Context (epoch : Z) (Hepoch : 86400 < epoch).

(** The backend: the table, the static counter of the timer, and the disk. *)
Definition hist_step (s : hist * Z * world) (op : hist_op) : res (hist * Z * world * hist_out) :=
  let '(st, hashnum, w) := s in
  match op with
  | OpAdd now object mtags line =>
      let! st := hbm_history_add now st object mtags line in Ok (st, hashnum, w, OutNone)
  | OpMultiline now object mtags source cmd target lines =>
      let! st := hbm_history_add_multiline now st object mtags source cmd target lines in Ok (st, hashnum, w, OutNone)
  | OpRequest now object f => let! (st, r) := hbm_history_request now st object f in Ok (st, hashnum, w, OutResult r)
  | OpDelete object f => let! (st, d, r) := hbm_history_delete st object f in Ok (st, hashnum, w, OutCounts d r)
  | OpDestroy object =>
      let! (st, w, b) := hbm_history_destroy sha256_binary st object w in Ok (st, hashnum, w, OutFound b)
  | OpSetLimit now object ml mt => Ok (hbm_history_set_limit now st object ml mt, hashnum, w, OutNone)
  | OpModeDel channel modechar =>
      let '(st, w) := hbm_modechar_del sha256_binary st channel modechar w in Ok (st, hashnum, w, OutNone)
  | OpClean now permanent fate room =>
      let! (st, w, hashnum) := history_mem_clean sha256_binary permanent fate now hashnum st (at_time now room w) in
      Ok (st, hashnum, w, OutNone)
  | OpFlush now permanent fate room =>
      let! (st, w) := hbm_flush sha256_binary permanent fate now st (at_time now room w) in Ok (st, hashnum, w, OutNone)
  end.

(** The specification: a map from folded names to logs, with the disk.  The logs that the timer
    has to look at come in some order; each is cleaned, and saved if that is needed. *)
Definition spec_state : Type := gmap (list Z) HistoryLogObject * Z * world.

Fixpoint visit_all (now : Z) (permanent : list Z → bool) (fate : list Z → luck) (st : hist) (order : list (list Z))
    (M : gmap (list Z) HistoryLogObject) (w : world) : res (gmap (list Z) HistoryLogObject * world) :=
  match order with
  | [] => Ok (M, w)
  | k :: r =>
      match M !! k with
      | None => visit_all now permanent fate st r M w
      | Some h =>
          let! (h, w) := clean_object sha256_binary permanent fate now st h w in
          visit_all now permanent fate st r (<[k := h]> M) w
      end
  end.

Definition due_in (st : hist) (ss : list Z) (M : gmap (list Z) HistoryLogObject) : list (list Z) :=
  flat_map (λ hv, filter (λ k, hbm_hash st k = hv) (@base.elements (list Z) (gset (list Z)) _ (dom M))) ss.
Definition due (st : hist) (s : spec_state) (op : hist_op) : list (list Z) :=
  let '(M, hashnum, _) := s in
  match op with
  | OpClean _ _ _ _ => due_in st (slots (S (Z.to_nat HISTORY_CLEAN_PER_LOOP)) hashnum) M
  | OpFlush _ _ _ _ => due_in st (seqZ 0 HISTORY_BACKEND_MEM_HASH_TABLE_SIZE) M
  | _ => []
  end.

Definition spec_step (st : hist) (order : list (list Z)) (s : spec_state) (op : hist_op) : res (spec_state * hist_out) :=
  let '(M, hashnum, w) := s in
  let find object := M !! casefold object in
  let get object := default (new_object object) (find object) in
  let put object h := <[casefold object := h]> M in
  let without_file h := if persist (cfg st) then hbm_delete_db sha256_binary (cfg st) (hs st) h w else w in
  match op with
  | OpAdd now object mtags line =>
      let! h := hbm_history_add_to now (get object) mtags line in Ok (put object h, hashnum, w, OutNone)
  | OpMultiline now object mtags source cmd target lines =>
      let! h := hbm_history_add_multiline_to now (get object) mtags source cmd target lines in
      Ok (put object h, hashnum, w, OutNone)
  | OpRequest now object f =>
      match find object with
      | None => Ok (M, hashnum, w, OutResult None)
      | Some h => let! (h, r) := hbm_history_request_from now object h f in Ok (put object h, hashnum, w, OutResult (Some r))
      end
  | OpDelete object f =>
      match find object with
      | None => Ok (M, hashnum, w, OutCounts 0 0)
      | Some h => let! (h, d, r) := hbm_history_delete_from h f in Ok (put object h, hashnum, w, OutCounts d r)
      end
  | OpDestroy object =>
      match find object with
      | None => Ok (M, hashnum, w, OutFound false)
      | Some h => Ok (delete (casefold object) M, hashnum, without_file h, OutFound true)
      end
  | OpSetLimit now object ml mt =>
      Ok (put object (hbm_history_cleanup now (set_limits ml mt (get object))), hashnum, w, OutNone)
  | OpModeDel channel modechar =>
      match find channel with
      | Some h => if persist (cfg st) && (modechar =? 80) then Ok (put channel (set_dirty true h), hashnum, without_file h, OutNone)
                  else Ok (s, OutNone)
      | None => Ok (s, OutNone)
      end
  | OpClean now permanent fate room =>
      let! (M, w) := visit_all now permanent fate st order M (at_time now room w) in
      Ok (M, slot_after (S (Z.to_nat HISTORY_CLEAN_PER_LOOP)) hashnum, w, OutNone)
  | OpFlush now permanent fate room =>
      if negb (persist (cfg st)) then Ok (M, hashnum, at_time now room w, OutNone)
      else let! (M, w) := visit_all now permanent fate st order M (at_time now room w) in Ok (M, hashnum, w, OutNone)
  end.

Inductive spec_run (st : hist) : spec_state → list hist_op → spec_state → list hist_out → Prop :=
| spec_done s : spec_run st s [] s []
| spec_more s op ops order s1 out s2 outs :
    order ≡ₚ due st s op → spec_step st order s op = Ok (s1, out) → spec_run st s1 ops s2 outs →
    spec_run st s (op :: ops) s2 (out :: outs).

Fixpoint hist_run (s : hist * Z * world) (ops : list hist_op) : res (hist * Z * world * list hist_out) :=
  match ops with
  | [] => Ok (s, [])
  | op :: r => let! (s, out) := hist_step s op in let! (s, outs) := hist_run s r in Ok (s, out :: outs)
  end.

(** What the callers of the backend and the system guarantee; a salt is drawn in full. *)
Definition salted (fate : list Z → luck) : Prop := ∀ name, length (random_salt (l_chance (fate name))) = UNREALDB_SALT_LEN.
Definition op_ok (op : hist_op) : Prop :=
  match op with
  | OpAdd now object mtags _ | OpMultiline now object mtags _ _ _ _ => name_ok object ∧ tags_ok now mtags ∧ account_tag_ok mtags
  | OpRequest now object f => cstr object ∧ epoch ≤ HistoryLog.TStime now ∧ filter_ok f
  | OpDelete object f => cstr object ∧ 1 ≤ limit f
  | OpDestroy object | OpModeDel object _ => cstr object
  | OpSetLimit now object ml mt => name_ok object ∧ epoch ≤ now ∧ 1 ≤ ml ∧ mt < epoch
  | OpClean now _ fate _ | OpFlush now _ fate _ => epoch ≤ now ∧ salted fate
  end.

(** The table and the map; with persistence there is a secret, and the cache of keys is right. *)
Record related (st : hist) (M : gmap (list Z) HistoryLogObject) (w : world) : Prop := Related {
  re_repr : repr st M;
  re_secret : persist (cfg st) = true → is_Some (db_secret (cfg st));
  re_world : secrets_ok w;
  re_ok : map_Forall (λ _ h, obj_ok epoch h) M
}.
(** What no operation changes. *)
Definition same_setup (st st' : hist) : Prop :=
  siphashkey_history_backend_mem st' = siphashkey_history_backend_mem st ∧ cfg st' = cfg st ∧ hs st' = hs st.

(** The object that an operation works on, found or made. *)
Lemma find_or_add_related st M w object : related st M w → name_ok object →
  ∃ st1 i h, hbm_find_or_add_object st object = (st1, i, h) ∧ h = default (new_object object) (M !! casefold object) ∧
    obj_ok epoch h ∧
    ∀ h', h_name h' = h_name h → obj_ok epoch h' → related (put_object st1 object i h') (<[casefold object := h']> M) w ∧
      same_setup st (put_object st1 object i h').
Proof.
  intros [HR Hp Hw Hok] Hn. pose proof (find_object_repr st M HR object (proj1 Hn)) as Hf. unfold hbm_find_object in Hf.
  unfold hbm_find_or_add_object. destruct (find_from 0 object (chain st (hbm_hash st object))) as [[i h]|].
  - destruct Hf as (HM & Hi & Ec). exists st, i, h. rewrite HM. split_and!; [done..|by apply (Hok _ _ HM)|].
    intros h' En Ho. split; [|done]. rewrite <-Ec. constructor; [by apply put_object_repr|done..|]. by apply map_Forall_insert_2.
  - eexists _, _, _. split; [done|]. rewrite Hf. cbn [default]. split_and!; [done|by apply new_object_ok|].
    intros h' En Ho. split; [|done]. pose proof (add_object_repr st M HR object Hn Hf) as HR'. cbv zeta in HR'.
    set (hv := hbm_hash st object) in *. set (st1 := set_chain hv _ st) in *.
    pose proof (new_object_name object Hn) as Enew.
    assert (chain st1 (hbm_hash st1 object) !! 0%nat = Some (new_object object)) as Hi.
    { change (hbm_hash st1 object) with hv. unfold st1. rewrite chain_set, decide_True by done. done. }
    pose proof (put_object_repr st1 _ HR' object 0 _ h' Hi En) as HR2. rewrite Enew, insert_insert_eq in HR2.
    constructor; [done..|]. by apply map_Forall_insert_2.
Qed.
Lemma find_related st M w object : related st M w → cstr object →
  match hbm_find_object st object with
  | None => M !! casefold object = None
  | Some (i, h) => M !! casefold object = Some h ∧ obj_ok epoch h ∧
      (∀ h', h_name h' = h_name h → obj_ok epoch h' →
         related (put_object st object i h') (<[casefold object := h']> M) w ∧ same_setup st (put_object st object i h')) ∧
      ∃ st', unlink_object st object i h = Ok st' ∧ related st' (delete (casefold object) M) w ∧ same_setup st st'
  end.
Proof.
  intros [HR Hp Hw Hok] Hn. pose proof (find_object_repr st M HR object Hn) as Hf.
  destruct (hbm_find_object st object) as [[i h]|]; [|done]. destruct Hf as (HM & Hi & Ec). split_and!; [done|by apply (Hok _ _ HM)| |].
  - intros h' En Ho. split; [|done]. rewrite <-Ec. constructor; [by apply put_object_repr|done..|]. by apply map_Forall_insert_2.
  - destruct (unlink_object_repr st M HR object i h Hi Ec) as (st' & E & Ecfg & HR'). exists st'. split_and!; [done| |].
    + constructor; [done|by rewrite Ecfg|done|]. by apply map_Forall_delete.
    + unfold unlink_object in E. destruct (require _); [|done..]. cbn [rbind] in E. by injection E as <-.
Qed.

(** Steps of the table and of the map, with the same output. *)
Definition steps_to (st0 st : hist) (M : gmap (list Z) HistoryLogObject) (n : Z) (w : world) (op : hist_op) : Prop :=
  ∃ st' M' n' w' out order, hist_step (st, n, w) op = Ok (st', n', w', out) ∧ order ≡ₚ due st0 (M, n, w) op ∧
    spec_step st0 order (M, n, w) op = Ok (M', n', w', out) ∧ related st' M' w' ∧ same_setup st st'.

Ltac steps := eexists _, _, _, _, _, []; split; [done|]; split; [done|].

Lemma step_write st0 st M n w op : related st M w → op_ok op →
  match op with OpAdd _ _ _ _ | OpMultiline _ _ _ _ _ _ _ | OpSetLimit _ _ _ _ => True | _ => False end → steps_to st0 st M n w op.
Proof.
  intros HR Ho. destruct op as [now ob mt line|now ob mt src cmd tg ls| | | |now ob ml mtm| | |]; intros HT; try done; clear HT; unfold steps_to;
    cbn [hist_step spec_step]; unfold hbm_history_add, hbm_history_add_multiline, hbm_history_set_limit.
  - destruct Ho as (Hn & Ht & Ha). destruct (find_or_add_related st M w ob HR Hn) as (st1 & i & h & -> & <- & Hh & Hput).
    destruct (add_obj epoch Hepoch now h mt line Hh Ht Ha) as (h' & -> & Hh' & En). cbn [rbind].
    destruct (Hput h' En Hh') as [HR' Ek]. by steps.
  - destruct Ho as (Hn & Ht & Ha). destruct (find_or_add_related st M w ob HR Hn) as (st1 & i & h & -> & <- & Hh & Hput).
    destruct (add_multiline_obj epoch Hepoch now h mt src cmd tg ls Hh Ht Ha) as (h' & -> & Hh' & En). cbn [rbind].
    destruct (Hput h' En Hh') as [HR' Ek]. by steps.
  - destruct Ho as (Hn & Hnow & Hml & Hmt). destruct (find_or_add_related st M w ob HR Hn) as (st1 & i & h & -> & <- & Hh & Hput).
    destruct (set_limit_obj epoch now h ml mtm Hh Hnow Hml Hmt) as [Hh' En].
    destruct (Hput _ En Hh') as [HR' Ek]. by steps.
Qed.

Lemma related_world st M w w' : related st M w → secrets w' = secrets w → related st M w'.
Proof. intros [H1 H2 H3 H4] E. constructor; try done. unfold secrets_ok. by rewrite E. Qed.
Lemma delete_db_secrets g hs0 h w : secrets (hbm_delete_db sha256_binary g hs0 h w) = secrets w.
Proof. unfold hbm_delete_db. by destruct (persist g). Qed.

Lemma step_find st0 st M n w op : related st M w → same_setup st0 st → op_ok op →
  match op with OpRequest _ _ _ | OpDelete _ _ | OpDestroy _ | OpModeDel _ _ => True | _ => False end → steps_to st0 st M n w op.
Proof.
  intros HR (_ & Ec & Eh) Ho. destruct op as [| |now ob f|ob f|ob| |ob m| |]; intros HT; try done; clear HT; unfold steps_to; cbn [hist_step spec_step];
    unfold hbm_history_request, hbm_history_delete, hbm_history_destroy, hbm_modechar_del; rewrite <-?Ec, <-?Eh.
  - destruct Ho as (Hn & Hnow & Hf). pose proof (find_related st M w ob HR Hn) as H.
    destruct (hbm_find_object st ob) as [[i h]|]; [destruct H as (-> & Hh & Hput & _)|rewrite H; by steps].
    destruct (request_obj epoch now ob h f Hh Hnow Hf) as (h' & r & -> & Hh' & En). cbn [rbind].
    pose proof (Hput h' En Hh') as [? ?]. by steps.
  - destruct Ho as (Hn & Hf). pose proof (find_related st M w ob HR Hn) as H.
    destruct (hbm_find_object st ob) as [[i h]|]; [destruct H as (-> & Hh & Hput & _)|rewrite H; by steps].
    destruct (delete_obj epoch h f Hh Hf) as (h' & d & r & -> & Hh' & En). cbn [rbind].
    pose proof (Hput h' En Hh') as [? ?]. by steps.
  - pose proof (find_related st M w ob HR Ho) as H. destruct (hbm_find_object st ob) as [[i h]|]; [|rewrite H; by steps].
    destruct H as (-> & Hh & _ & st' & E & HR' & Ek). unfold hbm_delete_object_hlo. rewrite E. cbn [rbind]. steps. split; [done|]. split; [|done].
    apply (related_world _ _ w); [done|]. destruct (persist _); [apply delete_db_secrets|done].
  - pose proof (find_related st M w ob HR Ho) as H.
    destruct (persist (cfg st)); cbn [negb andb]; [|destruct (M !! casefold ob); by steps].
    destruct (m =? 80); [|destruct (M !! casefold ob); by steps].
    destruct (hbm_find_object st ob) as [[i h]|]; [|rewrite H; by steps].
    destruct H as (-> & Hh & Hput & _). destruct (Hput (set_dirty true h) eq_refl) as [HR' Ek].
    { destruct Hh as [[[] ? ?] ? ? ?]. constructor; [|done..]. constructor; [by constructor|done|done]. }
    steps. split; [done|]. split; [|done]. apply (related_world _ _ w); [done|apply delete_db_secrets].
Qed.

(** *** The timer *)

Section Visit.
Context (now : Z) (Hnow : epoch ≤ now) (permanent : list Z → bool) (fate : list Z → luck) (Hfate : salted fate) (st0 : hist).

Lemma clean_object_ok h w : obj_ok epoch h → secrets_ok w → (persist (cfg st0) = true → is_Some (db_secret (cfg st0))) →
  ∃ h' w', clean_object sha256_binary permanent fate now st0 h w = Ok (h', w') ∧ secrets_ok w' ∧ obj_ok epoch h' ∧ h_name h' = h_name h.
Proof.
  intros Ho Hw Hs. unfold clean_object. destruct (clean_obj epoch now h Ho Hnow) as [Ho' En]. set (h1 := hbm_history_cleanup now h) in *.
  destruct (persist (cfg st0)) eqn:Hp; cbn [andb]; [|by exists h1, w]. destruct (h_dirty h1); [|by exists h1, w].
  destruct (write_db_safe sha256_binary (cfg st0) (hs st0) (permanent (h_name h1)) (fate (h_name h1)) h1 w (Hs eq_refl) Hw (Hfate _))
    as (h2 & w2 & ok & -> & Hw2 & Hh2). cbn [rbind]. exists h2, w2. split_and!; [done..| |by destruct Hh2 as [-> | ->]].
  destruct Hh2 as [-> | ->]; [done|]. destruct Ho' as [[[] ? ?] ? ? ?]. constructor; [|done..]. constructor; [by constructor|done|done].
Qed.

(** A chain, of which the first objects have been visited already. *)
Lemma clean_chain_visit hv l pre st M w :
  same_setup st0 st → related st M w → chain st hv = pre ++ l →
  ∃ l' w' M', clean_chain sha256_binary permanent fate now st0 l w = Ok (l', w') ∧
    visit_all now permanent fate st0 (map (casefold ∘ h_name) l) M w = Ok (M', w') ∧
    related (set_chain hv (pre ++ l') st) M' w' ∧ dom (D := gset (list Z)) M' = dom (D := gset (list Z)) M.
Proof.
  revert pre st M w. induction l as [|h l IH]; intros pre st M w Es HR Hch; cbn [clean_chain visit_all map].
  - exists [], w, M. split_and!; [done..| |done]. rewrite <-Hch. destruct HR as [[H1 H2 H3] ? ? ?]. constructor; [|done..].
    assert (∀ hv', chain (set_chain hv (chain st hv) st) hv' = chain st hv') as E.
    { intros hv'. rewrite chain_set. by case_decide as E'; [rewrite E'|]. }
    constructor; [intros hv'; rewrite E; apply H1|intros hv'; rewrite E; apply H2|intros k x Hk; rewrite E; by apply H3].
  - pose proof HR as [HRR Hs Hw Hok].
    assert (chain st hv !! length pre = Some h) as Hi by (rewrite Hch; by apply list_lookup_middle).
    destruct (rp_in _ _ HRR _ _ (list_elem_of_lookup_2 _ _ _ Hi)) as [Ehv HM]. cbn [compose]. rewrite HM.
    destruct (clean_object_ok h w) as (h' & w1 & -> & Hw1 & Ho' & En); [by apply (Hok _ _ HM)|done|by destruct Es as (_ & <- & _)|].
    cbn [rbind]. rewrite Ehv in Hi.
    set (st1 := put_object st (h_name h) (length pre) h').
    assert (related st1 (<[casefold (h_name h) := h']> M) w1) as HR1.
    { constructor; [by apply put_object_repr|done|done|]. by apply map_Forall_insert_2. }
    assert (chain st1 hv = (pre ++ [h']) ++ l) as Hch1.
    { unfold st1, put_object. rewrite <-Ehv, chain_set, decide_True, Hch by done. rewrite insert_app_r_alt by lia.
      rewrite Nat.sub_diag. simpl. by rewrite <-app_assoc. }
    destruct (IH (pre ++ [h']) st1 _ w1 Es HR1 Hch1) as (l' & w' & M' & -> & -> & HR' & Hd). cbn [rbind].
    exists (h' :: l'), w', M'. split_and!; [done..| |].
    + unfold st1, put_object in HR'. rewrite <-Ehv in HR'. unfold set_chain, set_table in *. cbn in *.
      by rewrite insert_insert_eq, <-app_assoc in HR'.
    + rewrite Hd, dom_insert_L. apply (elem_of_dom_2 (D:=gset _)) in HM. set_solver.
Qed.

Lemma tolower_twice c : tolower (tolower c) = tolower c.
Proof.
  assert (∀ x, tolower x = tolower (u8 x)) as Hu by (intros x; unfold tolower, tab, u8; by rewrite Z.mod_mod).
  rewrite (Hu c). assert (byte (u8 c)) as Hb by (unfold byte, u8; by apply Z.mod_pos_bound).
  apply Z.eqb_eq. by apply (all_bytes_ind (λ c, tolower (tolower c) =? tolower c)); [vm_compute|].
Qed.
Lemma casefold_idem s : casefold (casefold s) = casefold s.
Proof. unfold casefold. rewrite map_map. apply map_ext, tolower_twice. Qed.
Lemma hash_folded st k : hbm_hash st (casefold k) = hbm_hash st k.
Proof. apply hbm_hash_ci, casefold_idem. Qed.

Lemma chain_names st M hv : repr st M → map (casefold ∘ h_name) (chain st hv) ≡ₚ due_in st [hv] M.
Proof.
  intros HR. unfold due_in. cbn [flat_map]. rewrite app_nil_r. apply NoDup_Permutation; [apply (rp_once _ _ HR)|apply NoDup_filter, NoDup_elements|].
  intros k. change (map ?f ?l) with (f <$> l). rewrite list_elem_of_fmap, list_elem_of_filter, elem_of_elements, elem_of_dom. split.
  - intros (h & -> & Hh). destruct (rp_in _ _ HR _ _ Hh) as [-> HM]. cbn. by rewrite hash_folded, HM.
  - intros [Ek [h Hh]]. destruct (rp_map _ _ HR _ _ Hh) as (<- & _ & Hin). exists h. rewrite hash_folded in Ek. by subst hv.
Qed.

Lemma visit_all_app o1 o2 M w :
  visit_all now permanent fate st0 (o1 ++ o2) M w =
  let! (M, w) := visit_all now permanent fate st0 o1 M w in visit_all now permanent fate st0 o2 M w.
Proof.
  revert M w. induction o1 as [|k o1 IH]; intros M w; [done|]. cbn [app visit_all]. destruct (M !! k) as [h|]; [|apply IH].
  destruct (clean_object _ _ _ _ _ _ _) as [[h' w']| |]; [apply IH|done..].
Qed.

Lemma same_due st ss M : same_setup st0 st → due_in st ss M = due_in st0 ss M.
Proof.
  intros (Ek & _ & _). unfold due_in. apply flat_map_ext. intros hv. apply list_filter_iff. intros k. unfold hbm_hash. by rewrite Ek.
Qed.
Lemma clean_chain_setup st l w : same_setup st0 st →
  clean_chain sha256_binary permanent fate now st l w = clean_chain sha256_binary permanent fate now st0 l w.
Proof.
  intros (_ & Ec & Eh). revert w. induction l as [|h l IH]; intros w; [done|]. cbn [clean_chain]. unfold clean_object. rewrite Ec, Eh.
  destruct (persist _ && _); cbn [rbind]; [|by rewrite IH]. destruct (hbm_write_db _ _ _ _ _ _ _) as [[[h' w'] ok]| |]; [|done..].
  cbn [rbind]. by rewrite IH.
Qed.

Lemma clean_slot_visit hv st M w : same_setup st0 st → related st M w →
  ∃ st' w' M' order, clean_slot sha256_binary permanent fate now hv st w = Ok (st', w') ∧ order ≡ₚ due_in st0 [hv] M ∧
    visit_all now permanent fate st0 order M w = Ok (M', w') ∧ related st' M' w' ∧ dom (D := gset (list Z)) M' = dom (D := gset (list Z)) M ∧ same_setup st0 st'.
Proof.
  intros Es HR. destruct (clean_chain_visit hv (chain st hv) [] st M w Es HR eq_refl) as (l' & w' & M' & E & V & HR' & Hd).
  unfold clean_slot. rewrite (clean_chain_setup st) by done. rewrite E. cbn [rbind]. eexists _, _, M', _. split_and!; [done| |exact V|exact HR'|done|done].
  rewrite (chain_names st M hv (re_repr _ _ _ HR)). by rewrite (same_due st).
Qed.

Lemma due_app ss1 ss2 M M' : dom (D := gset (list Z)) M' = dom (D := gset (list Z)) M → due_in st0 (ss1 ++ ss2) M = due_in st0 ss1 M ++ due_in st0 ss2 M'.
Proof. intros E. unfold due_in. by rewrite flat_map_app, E. Qed.

Lemma clean_slots_visit n hv st M w : same_setup st0 st → related st M w →
  ∃ st' w' M' order, clean_slots sha256_binary permanent fate now n hv st w = Ok (st', w', slot_after (S n) hv) ∧
    order ≡ₚ due_in st0 (slots (S n) hv) M ∧
    visit_all now permanent fate st0 order M w = Ok (M', w') ∧ related st' M' w' ∧ same_setup st0 st'.
Proof.
  revert hv st M w. induction n as [|n IH]; intros hv st M w Es HR;
    destruct (clean_slot_visit hv st M w Es HR) as (st1 & w1 & M1 & o1 & E1 & P1 & V1 & HR1 & Hd & Es1); cbn [clean_slots]; rewrite E1; cbn [rbind].
  - by exists st1, w1, M1, o1.
  - destruct (IH (next_slot hv) st1 M1 w1 Es1 HR1) as (st2 & w2 & M2 & o2 & E2 & P2 & V2 & HR2 & Es2).
    exists st2, w2, M2, (o1 ++ o2). split_and!; [exact E2| | |done..].
    + change (slots (S (S n)) hv) with ([hv] ++ slots (S n) (next_slot hv)). rewrite (due_app _ _ M M1) by done. by rewrite P1, P2.
    + by rewrite visit_all_app, V1.
Qed.

Lemma flush_visit n hv st M w : same_setup st0 st → related st M w →
  ∃ st' w' M' order, flush_from sha256_binary permanent fate now n hv st w = Ok (st', w') ∧
    order ≡ₚ due_in st0 (seqZ hv (Z.of_nat n)) M ∧
    visit_all now permanent fate st0 order M w = Ok (M', w') ∧ related st' M' w' ∧ same_setup st0 st'.
Proof.
  revert hv st M w. induction n as [|n IH]; intros hv st M w Es HR; cbn [flush_from]; [by exists st, w, M, []|].
  destruct (clean_slot_visit hv st M w Es HR) as (st1 & w1 & M1 & o1 & E1 & P1 & V1 & HR1 & Hd & Es1). rewrite E1. cbn [rbind].
  destruct (IH (hv + 1) st1 M1 w1 Es1 HR1) as (st2 & w2 & M2 & o2 & E2 & P2 & V2 & HR2 & Es2).
  exists st2, w2, M2, (o1 ++ o2). split_and!; [exact E2| | |done..].
  - rewrite seqZ_cons by lia. replace (Z.pred (Z.of_nat (S n))) with (Z.of_nat n) by lia. change (Z.succ hv) with (hv + 1).
    change (hv :: ?l) with ([hv] ++ l). rewrite (due_app _ _ M M1) by done. by rewrite P1, P2.
  - by rewrite visit_all_app, V1.
Qed.
End Visit.

Lemma step_timer st0 st M n w op : related st M w → same_setup st0 st → op_ok op →
  match op with OpClean _ _ _ _ | OpFlush _ _ _ _ => True | _ => False end → steps_to st0 st M n w op.
Proof.
  intros HR Es Ho. assert (∀ now room, related st M (at_time now room w)) as Hat by (intros; by apply (related_world _ _ w)).
  assert (∀ st', same_setup st0 st' → same_setup st st') as Htr by (unfold same_setup in *; intros st' (? & ? & ?); split_and!; destruct Es as (? & ? & ?); congruence).
  destruct op as [| | | | | | |now pm ft room|now pm ft room]; intros HT; try done; clear HT; unfold steps_to; cbn [hist_step spec_step due]; destruct Ho as [Hnow Hft].
  - destruct (clean_slots_visit now Hnow pm ft Hft st0 (Z.to_nat HISTORY_CLEAN_PER_LOOP) n st M _ Es (Hat now room))
      as (st' & w' & M' & order & E & P & V & HR' & Es'). unfold history_mem_clean. rewrite E. cbn [rbind].
    eexists _, M', _, w', _, order. rewrite V. split_and!; [done..|exact HR'|by apply Htr].
  - unfold hbm_flush. destruct Es as (E1 & E2 & E3). rewrite E2. destruct (persist (cfg st0)); cbn [negb].
    + destruct (flush_visit now Hnow pm ft Hft st0 (Z.to_nat HISTORY_BACKEND_MEM_HASH_TABLE_SIZE) 0 st M _ ltac:(done) (Hat now room))
        as (st' & w' & M' & order & E & P & V & HR' & Es'). rewrite E. cbn [rbind].
      eexists _, M', _, w', _, order. rewrite V. split_and!; [done|exact P|done|exact HR'|by apply Htr].
    + eexists _, M, _, _, _, (due_in st0 _ M). split_and!; [done..|by apply Hat|done].
Qed.

(** C4.  The backend refines a map.  From an empty table, and for every sequence of
    operations whose callers keep to their side, the backend never fails, and each
    operation has the effect and the result that it has on a map from names (in any
    case) to logs, and on the files: with persistence too, whatever the disk, the system
    and the memory for keys do.  Destroying a log, or making its channel no longer
    permanent, removes its file; the timer and the end of the server clean each log of
    the slots they have to visit, and save it if it was changed, in some order.  And
    every log is well-formed: in the order of the times, counted exactly, and within its
    limit unless a single batch exceeds it. *)
Theorem history_refines_map key g hs0 w ops :
  Forall op_ok ops → (persist g = true → is_Some (db_secret g)) → secrets_ok w →
  let st0 := Hist ∅ key g hs0 in
  ∃ st' M' n' w' outs, hist_run (st0, 0, w) ops = Ok (st', n', w', outs) ∧ spec_run st0 (∅, 0, w) ops (M', n', w') outs ∧
    repr st' M' ∧ map_Forall (λ _ h, obj_ok epoch h) M' ∧ secrets_ok w'.
Proof.
  intros Hops Hs Hw st0.
  assert (∀ st M n w, related st M w → same_setup st0 st →
    ∃ st' M' n' w' outs, hist_run (st, n, w) ops = Ok (st', n', w', outs) ∧ spec_run st0 (M, n, w) ops (M', n', w') outs ∧ related st' M' w') as Hall.
  { clear w Hw. induction Hops as [|op ops Hop _ IH]; intros st M n w HR Hk; [exists st, M, n, w, []; split_and!; [done|constructor|done]|].
    cbn [hist_run].
    assert (steps_to st0 st M n w op) as (st1 & M1 & n1 & w1 & out & order & -> & P & V & HR1 & Es1).
    { destruct op; solve [by apply step_write|by apply step_find|by apply step_timer]. }
    cbn [rbind]. destruct (IH st1 M1 n1 w1 HR1) as (st2 & M2 & n2 & w2 & outs & -> & V2 & HR2).
    { unfold same_setup in *. destruct Hk as (? & ? & ?), Es1 as (? & ? & ?). split_and!; congruence. }
    exists st2, M2, n2, w2, (out :: outs). split_and!; [done| |done]. by eapply spec_more. }
  destruct (Hall st0 ∅ 0 w) as (st' & M' & n' & w' & outs & E1 & E2 & [HR _ Hw' Hok]); [|done|by exists st', M', n', w', outs].
  constructor; [|done|done|apply map_Forall_empty].
  constructor; [by intros hv h ?%not_elem_of_nil|intros hv; constructor|by intros k h ?%lookup_empty_Some].
Qed.
End Refinement.

(** ** A restart *)

Section Restart.
Context `{L : CryptoLaws} (sha256_binary : list Z → list Z).

(** C5.  A log survives a restart.  A log of a permanent channel, whose lines have message
    ids of their own and texts of at most 10000 bytes, is written with a password; a server
    that has the master file, the password and the channel (with a log that is still empty,
    and a limit that is not lower) reads it back completely: the same lines with all their
    tags, batches and times in the same order, and the same counter; it needs no saving.
    The temporary file has become the file of the log, whatever its name was.  The system
    does its part: both files can be opened, closed and renamed, argon2 gets its memory,
    and the disk has room. *)
Theorem history_survives_restart g hs0 r h w block pw :
  storable hs0 h → db_secret g = Some block → secrets_ok w → can_open w (Some block) pw → lucky r →
  0 ≤ Unrealdb.TStime w < 2 ^ 64 → (1200 + 2 * length (stream (log_records hs0 h)) ≤ disk w)%nat →
  let fname := hbm_history_filename sha256_binary g hs0 h in
  ∃ w', hbm_write_db sha256_binary g hs0 true r h w = Ok (set_dirty false h, w', true) ∧ secrets_ok w' ∧
    ∀ now st v r' i ml mt d,
      cfg st = g → hs st = hs0 → secrets_ok v → can_open v (Some block) pw → granted r' →
      files v !! fname = files w' !! fname → h_max_lines h ≤ ml →
      hbm_find_object st (h_name h) = Some (i, Object [] 0 0 ml mt d (h_name h)) →
      ∃ v', hbm_read_db now st fname r' v =
        Ok (put_object st (h_name h) i (Object (h_lines h) (h_num_lines h) (first_time (h_lines h)) ml mt false (h_name h)), v', true).
Proof.
  intros Hst Hb Hw Hco Hr Ht Hd fname.
  destruct (write_db_ok sha256_binary g hs0 r h w block pw Hst Hb Hw Hco Hr Ht Hd) as (w' & data & E & Hs & Hf & Hsv).
  fold fname in Hf. exists w'. split_and!; [done..|].
  intros now st v r' i ml mt d Eg Eh Hv Hcv Hden Hfile Hml Hfind. rewrite Hf in Hfile.
  destruct (open_read_ok fname (Some block) pw r' v data _ _ Hv Hcv Hden Hfile Ht Hsv) as (v' & c & Eo & _ & Hrd & _).
  unfold hbm_read_db. rewrite Eg, Hb, Eo, Eh. cbn [rbind].
  destruct (read_header_ok hs0 h c [] Hst) as (c' & -> & Hrd'); [by rewrite app_nil_r|]. cbn [rbind]. rewrite Hfind.
  rewrite (read_entries_ok now hs0 h c' [] ml mt d Hst Hml Hrd'). cbn [rbind]. by exists v'.
Qed.
End Restart.

(** ** The timer *)

Section TimerReach.
Context `{C : Crypto} (sha256_binary : list Z → list Z) (permanent : list Z → bool) (fate : list Z → luck) (w : world).

(** A number of calls of the timer, at the same time. *)
Fixpoint timer_runs (calls : nat) (now hashnum : Z) (st : hist) : res (hist * Z) :=
  match calls with
  | O => Ok (st, hashnum)
  | S n =>
      let! (st, _, hashnum) := history_mem_clean sha256_binary permanent fate now hashnum st w in
      timer_runs n now hashnum st
  end.

(** No line is too old. *)
Definition young (now : Z) (h : HistoryLogObject) : Prop := Forall (λ l, now - h_max_time h ≤ l_t l) (h_lines h).

Lemma young_clean now h : core_ok h → h_max_time h < now → young now (hbm_history_cleanup now h).
Proof.
  intros Hc Hn. destruct (log_cleanup_ok now h Hc Hn) as (_ & _ & T & _ & j & Hl & _). unfold young. rewrite Hl, T.
  apply Forall_drop. rewrite Forall_forall. by intros l [? _]%list_elem_of_filter.
Qed.
Lemma clean_if_young epoch now st hv h : obj_ok epoch h → epoch ≤ now →
  obj_ok epoch (clean_if now st hv h) ∧ (young now h ∨ hbm_hash st (h_name h) = hv → young now (clean_if now st hv h)).
Proof.
  intros Ho Hn. pose proof Ho as [[Hc _ _] _ Ht _]. unfold clean_if.
  destruct (Z.eqb_spec (hbm_hash st (h_name h)) hv); [|split; [done|tauto]].
  split; [by apply clean_obj|]. intros _. apply young_clean; [done|lia].
Qed.


Lemma next_slot_mod hv : 0 ≤ hv < 1019 → next_slot hv = (hv + 1) mod 1019.
Proof.
  intros H. unfold next_slot, HISTORY_BACKEND_MEM_HASH_TABLE_SIZE. destruct (Z.leb_spec 1019 (hv + 1)).
  - by replace hv with 1018 by lia.
  - by rewrite Z.mod_small by lia.
Qed.
Lemma slots_in n hv i : 0 ≤ hv < 1019 → (i < n)%nat → (hv + Z.of_nat i) mod 1019 ∈ slots n hv.
Proof.
  revert hv i. induction n as [|n IH]; intros hv i H Hi; [lia|]. cbn [slots]. destruct i as [|i].
  - rewrite Z.add_0_r, Z.mod_small by lia. left.
  - right. pose proof (next_slot_mod hv H) as E. pose proof (Z.mod_pos_bound (hv + 1) 1019 ltac:(lia)).
    replace ((hv + Z.of_nat (S i)) mod 1019) with ((next_slot hv + Z.of_nat i) mod 1019); [apply IH; lia|].
    rewrite E, Z.add_mod_idemp_l by lia. f_equal. lia.
Qed.
Lemma slots_all n hv t : 0 ≤ hv < 1019 → 0 ≤ t < 1019 → (1019 ≤ n)%nat → t ∈ slots n hv.
Proof.
  intros Hhv Ht Hn. assert (t = (hv + Z.of_nat (Z.to_nat ((t - hv) mod 1019))) mod 1019) as ->.
  - pose proof (Z.mod_pos_bound (t - hv) 1019 ltac:(lia)). rewrite Z2Nat.id by lia. rewrite Z.add_mod_idemp_r by lia.
    replace (hv + (t - hv)) with t by lia. by rewrite Z.mod_small.
  - apply slots_in; [done|]. pose proof (Z.mod_pos_bound (t - hv) 1019 ltac:(lia)). lia.
Qed.
Lemma slots_app n m hv : slots (n + m) hv = slots n hv ++ slots m (slot_after n hv).
Proof. revert hv. induction n as [|n IH]; intros hv; [done|]. cbn [slots Nat.add slot_after app]. by rewrite IH. Qed.

Lemma slot_after_add n m hv : slot_after (n + m) hv = slot_after m (slot_after n hv).
Proof. revert hv. induction n as [|n IH]; intros hv; [done|]. apply IH. Qed.

(** What happens to a log when slots are cleaned one after the other. *)
Definition clean_seq (now : Z) (st : hist) (ss : list Z) (h : HistoryLogObject) : HistoryLogObject :=
  foldl (λ h hv, clean_if now st hv h) h ss.

Lemma clean_seq_key now s s' ss h :
  siphashkey_history_backend_mem s' = siphashkey_history_backend_mem s → clean_seq now s' ss h = clean_seq now s ss h.
Proof.
  intros E. revert h. induction ss as [|hv ss IH]; intros h; [done|]. cbn [clean_seq foldl].
  assert (clean_if now s' hv h = clean_if now s hv h) as -> by (unfold clean_if, hbm_hash; by rewrite E). apply IH.
Qed.

Lemma clean_map_seq now st n hv M :
  clean_map now st n hv M = (clean_seq now st (slots (S n) hv) <$> M, slot_after (S n) hv).
Proof.
  revert hv M. induction n as [|n IH]; intros hv M; cbn [clean_map]; [done|].
  fold (next_slot hv). rewrite IH, <-map_fmap_compose. done.
Qed.

Lemma clean_seq_young epoch now st ss h : obj_ok epoch h → epoch ≤ now →
  h_name (clean_seq now st ss h) = h_name h ∧ obj_ok epoch (clean_seq now st ss h) ∧
  (young now h ∨ hbm_hash st (h_name h) ∈ ss → young now (clean_seq now st ss h)).
Proof.
  intros Ho Hn. revert h Ho. induction ss as [|hv ss IH]; intros h Ho.
  { split_and!; [done..|]. intros [?|?%not_elem_of_nil]; done. }
  cbn [clean_seq foldl]. destruct (clean_if_young epoch now st hv h Ho Hn) as [Ho' Hy].
  destruct (IH _ Ho') as (E1 & E2 & E3). rewrite clean_if_name in E1, E3. split_and!; [done..|].
  intros H. apply E3. destruct H as [H|[H|H]%elem_of_cons]; [left; apply Hy; by left|left; apply Hy; by right|by right].
Qed.

Lemma timer_runs_seq calls now hv st M : repr st M → persist (cfg st) = false →
  let n := (calls * S (Z.to_nat HISTORY_CLEAN_PER_LOOP))%nat in
  ∃ st', timer_runs calls now hv st = Ok (st', slot_after n hv) ∧ repr st' (clean_seq now st (slots n hv) <$> M).
Proof.
  revert hv st M. induction calls as [|calls IH]; intros hv st M HR Hp; cbv zeta.
  { exists st. split; [done|]. cbn [slots Nat.mul]. replace (clean_seq now st [] <$> M) with M; [done|].
    rewrite <-(map_fmap_id M) at 1. by apply map_fmap_ext. }
  set (k := Z.to_nat HISTORY_CLEAN_PER_LOOP) in *. cbn [timer_runs]. unfold history_mem_clean. fold k.
  destruct (clean_slots_repr sha256_binary permanent fate now k hv st w M HR Hp) as (st1 & -> & Ec & Ek & HR1).
  rewrite clean_map_seq in *. cbn [rbind fst snd] in *. rewrite <-Ec in Hp.
  destruct (IH (slot_after (S k) hv) st1 _ HR1 Hp) as (st2 & E2 & HR2). exists st2.
  replace (S calls * S k)%nat with (S k + calls * S k)%nat by lia. rewrite slots_app, slot_after_add. split; [done|].
  replace (clean_seq now st (slots (S k) hv ++ slots (calls * S k) (slot_after (S k) hv)) <$> M)
    with (clean_seq now st1 (slots (calls * S k) (slot_after (S k) hv)) <$> (clean_seq now st (slots (S k) hv) <$> M)); [done|].
  rewrite <-map_fmap_compose. apply map_fmap_ext. intros ? h _. cbn [compose]. rewrite (clean_seq_key now st st1) by done.
  unfold clean_seq. by rewrite foldl_app.
Qed.

(** The timer reaches every log.  Sixty calls of the timer, one every five seconds in
    all, visit every slot of the table: no log has a line that is too old after them,
    whatever slot they start at, and every log is still there and well-formed. *)
Theorem history_timer_reaches_all epoch now hv st M :
  repr st M → persist (cfg st) = false → map_Forall (λ _ h, obj_ok epoch h) M → epoch ≤ now →
  0 ≤ hv < HISTORY_BACKEND_MEM_HASH_TABLE_SIZE →
  ∃ st' hv' M', timer_runs (Z.to_nat HISTORY_SPREAD) now hv st = Ok (st', hv') ∧ repr st' M' ∧ dom (D := gset (list Z)) M' = dom (D := gset (list Z)) M ∧
    map_Forall (λ _ h, obj_ok epoch h ∧ young now h) M'.
Proof.
  intros HR Hp Hok Hn Hhv. destruct (timer_runs_seq (Z.to_nat HISTORY_SPREAD) now hv st M HR Hp) as (st' & E & HR').
  eexists _, _, _. split; [done|]. split; [done|]. split; [by rewrite dom_fmap_L|].
  intros k x. rewrite lookup_fmap. intros (h & Hh & ->)%fmap_Some.
  set (ss := slots _ hv). destruct (clean_seq_young epoch now st ss h (Hok k h Hh) Hn) as (_ & H1 & H2). split; [done|].
  apply H2. right. apply slots_all; [done| |apply Nat.leb_le; by vm_compute].
  apply Z.mod_pos_bound. done.
Qed.
End TimerReach.

(** ** Examples *)

#[local] Existing Instance toy.
#[local] Existing Instance toy_laws.

Definition no_sha (_ : list Z) : list Z := [].
Definition good_luck (_ : list Z) : luck := Luck demo_chance true true.
Definition plain_cfg : cfgstruct := Cfg false (bs "history") None.
Definition saving_cfg : cfgstruct := Cfg true (bs "history") (Some (bs "db")).
Definition demo_hashes : hashes := Hashes (bs "one") (bs "two").
Definition demo_epoch : Z := 1600000000.
Definition demo_ops : list hist_op :=
  [OpSetLimit SAMPLE_TIME (bs "#c") 5 86400; OpAdd sample_now (bs "#C") [] (bs "hello");
   OpMultiline sample_now (bs "#c") [] (bs "bob") (bs "PRIVMSG") (bs "#c") [ML (Some (bs "x")) 0; ML None 1];
   OpRequest sample_now (bs "#c") (latest_filter None 10); OpDelete (bs "#c") (delete_by_id "x" None 1);
   OpFlush SAMPLE_TIME (λ _, true) good_luck 4000; OpModeDel (bs "#c") 80; OpClean SAMPLE_TIME (λ _, false) good_luck 0; OpDestroy (bs "#c")].

Lemma history_refines_map_witness :
  Forall (op_ok demo_epoch) demo_ops ∧
  ∃ st' M' n' w' outs, hist_run no_sha (Hist ∅ [] saving_cfg demo_hashes, 0, demo_world) demo_ops = Ok (st', n', w', outs) ∧
    spec_run no_sha (Hist ∅ [] saving_cfg demo_hashes) (∅, 0, demo_world) demo_ops (M', n', w') outs ∧ repr st' M'.
Proof.
  assert (Forall (op_ok demo_epoch) demo_ops) as H.
  { assert (tags_ok sample_now []) as Ht by (constructor; cbn; [unfold SAMPLE_TIME, MAX_TIME; lia|done|by repeat constructor]).
    assert (∀ s, (length (bs s) ≤ OBJECTLEN)%nat → cstr (bs s) → name_ok (bs s)) as Hn by done.
    unfold demo_ops. rewrite !Forall_cons. split_and!; cbn [op_ok]; try split_and!; try done; by repeat constructor. }
  split; [exact H|].
  destruct (history_refines_map no_sha demo_epoch eq_refl [] saving_cfg demo_hashes demo_world demo_ops H)
    as (st' & M' & n' & w' & outs & E & E2 & HR & _); [by eexists|by repeat constructor|].
  exists st', M', n', w', outs. split; [exact E|]. split; [exact E2|exact HR].
Defined.

Definition saved_log : HistoryLogObject :=
  Object (h_lines sample_log) 3 SAMPLE_TIME 5 86400 true (bs "#c").
Definition big_disk : world := World ∅ [demo_secret] SAMPLE_TIME (Z.to_nat 4000).
Definition empty_log : HistoryLogObject := Object [] 0 0 5 86400 false (bs "#c").
Definition restarted : hist :=
  let st := Hist ∅ [] saving_cfg demo_hashes in set_chain (hbm_hash st (bs "#c")) [empty_log] st.

Lemma sample_stored id sec : cstr (bs id) → Z.of_nat (length (bs id)) ≤ 10000 → sec < 2 ^ 63 → stored_ok (sample_line id sec).
Proof.
  intros Hid Hlen Hs. assert (record_ok (RStr (Some (stamp sec 0)))) as Ht.
  { split; [apply stamp_cstr|]. rewrite stamp_length. lia. }
  constructor; cbn [sample_line l_t l_mtags l_line l_concat l_batch l_num_lines]; try done; try lia.
  repeat (apply Forall_cons; split; [split; cbn [t_name t_value]; try done; by split; [repeat constructor|]|]). by apply Forall_nil.
Qed.

Lemma saved_log_storable : storable demo_hashes saved_log.
Proof.
  constructor.
  - destruct sample_log_ok as [[] ? ?]. constructor; [by constructor|done|done].
  - unfold saved_log, sample_log. cbn [h_lines]. rewrite !Forall_cons. split_and!; [..|by apply Forall_nil];
      apply sample_stored; try done; by repeat constructor.
  - apply (bool_decide_unpack _). vm_compute. reflexivity.
  - split; split; try done; by repeat constructor.
  - split; [by repeat constructor|done].
  - done.
Qed.

Lemma history_survives_restart_witness :
  ∃ w', hbm_write_db no_sha saving_cfg demo_hashes true (good_luck []) saved_log big_disk = Ok (set_dirty false saved_log, w', true) ∧
    ∃ v' h, hbm_read_db sample_now restarted (hbm_history_filename no_sha saving_cfg demo_hashes saved_log) demo_chance
      (World (files w') [demo_secret] SAMPLE_TIME 0) = Ok (put_object restarted (bs "#c") 0 h, v', true) ∧ h_lines h = h_lines sample_log.
Proof.
  set (pw := Some (bs "Passw0rd-for-db")).
  assert (∀ fs d, can_open (World fs [demo_secret] SAMPLE_TIME d) (Some (bs "db")) pw) as H2 by (intros; exists 0%nat, demo_secret; repeat split).
  assert (∀ fs d, secrets_ok (World fs [demo_secret] SAMPLE_TIME d)) as H3 by (intros; repeat constructor).
  destruct (history_survives_restart no_sha saving_cfg demo_hashes (good_luck []) saved_log big_disk (bs "db") pw saved_log_storable
    eq_refl (H3 _ _) (H2 _ _)) as (w' & E & _ & H).
  - repeat split.
  - split; done.
  - apply Nat.leb_le. vm_compute. reflexivity.
  - exists w'. split; [exact E|].
    destruct (H sample_now restarted (World (files w') [demo_secret] SAMPLE_TIME 0) demo_chance 0%nat 5 86400 false) as (v' & Ev);
      [reflexivity..|apply H3|apply H2|by split|reflexivity|done|vm_compute; reflexivity|].
    eexists v', _. split; [exact Ev|reflexivity].
Defined.

(** A table with that log. *)
Definition sample_table : hist :=
  let st := Hist ∅ [] plain_cfg demo_hashes in set_chain (hbm_hash st (bs "#c")) [sample_log] st.

Lemma sample_repr : repr sample_table {[bs "#c" := sample_log]}.
Proof.
  unfold sample_table. cbv zeta. set (st0 := Hist ∅ [] plain_cfg demo_hashes). set (st := set_chain _ _ st0).
  assert (∀ hv, chain st hv = if decide (hbm_hash st0 (bs "#c") = hv) then [sample_log] else []) as Hc.
  { intros hv. unfold st. rewrite chain_set. case_decide; [done|]. reflexivity. }
  constructor.
  - intros hv h. rewrite Hc. case_decide as E; [|by intros ?%not_elem_of_nil]. intros ->%list_elem_of_singleton. subst hv. split; [reflexivity|].
    apply lookup_singleton_eq.
  - intros hv. rewrite Hc. case_decide; [apply NoDup_singleton|constructor].
  - intros k h [<- <-]%lookup_singleton_Some. split_and!; [reflexivity|by repeat constructor|]. rewrite Hc.
    rewrite decide_True by reflexivity. left.
Qed.

Lemma history_timer_witness :
  ∃ st' hv' M', timer_runs no_sha (λ _, false) good_luck demo_world (Z.to_nat HISTORY_SPREAD) (SAMPLE_TIME + 86401) 5 sample_table =
      Ok (st', hv') ∧
    repr st' M' ∧ map_Forall (λ _ h, obj_ok demo_epoch h ∧ young (SAMPLE_TIME + 86401) h) M'.
Proof.
  destruct (history_timer_reaches_all no_sha (λ _, false) good_luck demo_world demo_epoch (SAMPLE_TIME + 86401) 5 sample_table
    {[bs "#c" := sample_log]} sample_repr)
    as (st' & hv' & M' & E & HR' & _ & H).
  - reflexivity.
  - apply map_Forall_singleton. constructor; [apply sample_log_ok|by left|done|].
    repeat constructor; intros m [= <-]; by eexists.
  - done.
  - done.
  - exists st', hv', M'. split; [exact E|]. split; [exact HR'|exact H].
Defined.

(** ** Limits of the backend *)

Definition tagged (id : string) : list MessageTag :=
  [MTag (bs "time") (Some (stamp SAMPLE_TIME 0)); MTag (bs "msgid") (Some (bs id))].
Definition add_ids (ids : list string) (max_lines : Z) : res (list (list Z)) :=
  let fix go ids h := match ids with
                      | [] => Ok h
                      | id :: r => let! h := hbm_history_add_to sample_now h (tagged id) (bs id) in go r h
                      end in
  let! h := go ids (Object [] 0 0 max_lines 86400 false (bs "#c")) in Ok (map l_msgid (h_lines h)).

(** A message that arrives again is recognised only while no other message of the
    same time came after it. *)
Lemma duplicate_not_recognised :
  add_ids ["A"; "A"]%string 5 = Ok [bs "A"] ∧ add_ids ["A"; "B"; "A"]%string 5 = Ok [bs "A"; bs "B"; bs "A"].
Proof. vm_compute. done. Qed.
(** In a full log, the oldest line goes even if the new one is a duplicate. *)
Lemma duplicate_evicts : add_ids ["A"; "B"; "B"]%string 2 = Ok [bs "B"].
Proof. vm_compute. done. Qed.
