(* ===== verification/HistoryApi.v ===== *)
(** * The history API (src/api-history-backend.c)

    Modules register backends that keep history; the rest of the server adds to,
    asks and deletes from all of them through this file, which also sends a result
    to a client.  A handler is a pointer to a function of a module: calling it when
    the code of that module is gone is [UB].

    In every state that loading, registering, rehashing and unloading lead to, the
    calls reach the live backends, all of them and no other.  A result that was
    sent is put together again by the client to the lines it holds. *)

From stdpp Require Import base tactics list numbers strings gmap.
From Stdlib Require Import ZArith Lia.
From S2P Require Import Prelude Chars Support MessageTags Command Times HistoryLog HistoryRequests.

Local Open Scope Z_scope.

(** ** Backends *)

Section Backends.
(** What the backends keep. *)
Context {W : Type}.

Definition add_fn := list Z → list MessageTag → list Z → W → res W.
Definition add_multiline_fn := list Z → list MessageTag → list Z → list Z → list Z → list MLine → W → res W.
Definition request_fn := list Z → HistoryFilter → W → res (W * option HistoryResult).
Definition delete_fn := list Z → HistoryFilter → W → res (W * Z * Z).
Definition destroy_fn := list Z → W → res W.
Definition set_limit_fn := list Z → Z → Z → W → res W.

(** A pointer to a function in the code of a module. *)
Record fptr (A : Type) := Fptr { code : nat; func : A }.
#[global] Arguments Fptr {A} _ _.
#[global] Arguments code {A} _.
#[global] Arguments func {A} _.

Record hooks := Hooks {
  p_add : option (fptr add_fn);
  p_add_multiline : option (fptr add_multiline_fn);
  p_request : option (fptr request_fn);
  p_delete : option (fptr delete_fn);
  p_destroy : option (fptr destroy_fn);
  p_set_limit : option (fptr set_limit_fn)
}.

Record HistoryBackend := Backend {
  hb_id : nat;                 (* its address *)
  hb_name : list Z;
  hb_hooks : hooks;
  hb_owner : option nat;
  hb_unloaded : bool
}.
Record HistoryBackendInfo := BackendInfo { mreq_name : list Z; mreq_hooks : hooks }.

(** The list of backends, the backend objects and the error code of each module,
    and the modules whose code is loaded. *)
Record backends := Backends {
  historybackends : list HistoryBackend;
  module_objects : gmap nat (list nat);
  errorcode : gmap nat moderr;
  mapped : gset nat;
  next_address : nat
}.

Definition set_backends l g := Backends l (module_objects g) (errorcode g) (mapped g) (next_address g).
Definition set_objects m l g :=
  Backends (historybackends g) (<[m := l]> (module_objects g)) (errorcode g) (mapped g) (next_address g).
Definition set_errorcode m e g :=
  Backends (historybackends g) (module_objects g) (<[m := e]> (errorcode g)) (mapped g) (next_address g).
Definition objects_of (m : nat) (g : backends) : list nat := default [] (module_objects g !! m).

Definition HistoryBackendFind (name : list Z) (g : backends) : option HistoryBackend :=
  find (λ m, strcasecmp name (hb_name m) =? 0) (historybackends g).

Definition update_backend (id : nat) (f : HistoryBackend → HistoryBackend) (l : list HistoryBackend) : list HistoryBackend :=
  map (λ m, if (hb_id m =? id)%nat then f m else m) l.

Definition has_hooks (h : hooks) : bool :=
  bool_decide (is_Some (p_add h)) && bool_decide (is_Some (p_request h)) && bool_decide (is_Some (p_delete h)) &&
  bool_decide (is_Some (p_destroy h)) && bool_decide (is_Some (p_set_limit h)).

Definition HistoryBackendAdd (module : nat) (mreq : HistoryBackendInfo) (g : backends) : backends * option nat :=
  let finish id l next :=
    (set_errorcode module MODERR_NOERROR
       (set_objects module (id :: objects_of module g)
          (Backends l (module_objects g) (errorcode g) (mapped g) next)), Some id) in
  let fill m := Backend (hb_id m) (hb_name m) (mreq_hooks mreq) (Some module) false in
  if negb (has_hooks (mreq_hooks mreq)) then (set_errorcode module MODERR_INVALID g, None)
  else
    match HistoryBackendFind (mreq_name mreq) g with
    | Some m =>
        if hb_unloaded m then finish (hb_id m) (update_backend (hb_id m) fill (historybackends g)) (next_address g)
        else (set_errorcode module MODERR_EXISTS g, None)
    | None =>
        let m := Backend (next_address g) (mreq_name mreq) (mreq_hooks mreq) (Some module) false in
        finish (next_address g) (m :: historybackends g) (S (next_address g))
    end.

Definition unload_history_backend_commit (id : nat) (g : backends) : backends :=
  set_backends (filter (λ m, hb_id m ≠ id) (historybackends g)) g.

(** The objects of the owner are changed before the backend is. *)
Definition HistoryBackendDel (rehashing : bool) (m : HistoryBackend) (g : backends) : backends :=
  let g := match hb_owner m with
           | Some o => set_objects o (del_object (hb_id m) (objects_of o g)) g
           | None => g
           end in
  let clear x := Backend (hb_id x) (hb_name x) (hb_hooks x) None (rehashing || hb_unloaded x) in
  let g := set_backends (update_backend (hb_id m) clear (historybackends g)) g in
  if rehashing then g else unload_history_backend_commit (hb_id m) g.

Definition unload_all_unused_history_backends (g : backends) : backends :=
  foldl (λ g m, if hb_unloaded m then unload_history_backend_commit (hb_id m) g else g) g (historybackends g).

(** *** Loading and unloading a module, as far as its backends are concerned *)

Definition load_module (m : nat) (g : backends) : backends :=
  Backends (historybackends g) (<[m := []]> (module_objects g)) (errorcode g) ({[m]} ∪ mapped g) (next_address g).

Definition get_backend (id : nat) (g : backends) : res HistoryBackend :=
  match find (λ m, (hb_id m =? id)%nat) (historybackends g) with Some m => Ok m | None => UB end.

(** The objects are freed one by one, then the code is gone. *)
Fixpoint free_objects (rehashing : bool) (ids : list nat) (g : backends) : res backends :=
  match ids with
  | [] => Ok g
  | id :: r => let! m := get_backend id g in free_objects rehashing r (HistoryBackendDel rehashing m g)
  end.
Definition unload_module (rehashing : bool) (m : nat) (g : backends) : res backends :=
  let! g := free_objects rehashing (objects_of m g) g in
  Ok (Backends (historybackends g) (delete m (module_objects g)) (errorcode g) (mapped g ∖ {[m]}) (next_address g)).

(** ** Calling the backends *)

Definition call {A} (g : backends) (p : option (fptr A)) : res A :=
  match p with
  | None => UB
  | Some p => if bool_decide (code p ∈ mapped g) then Ok (func p) else UB
  end.

(** The loop over the backends that are not unloaded. *)
Fixpoint each (f : HistoryBackend → W → res W) (l : list HistoryBackend) (w : W) : res W :=
  match l with
  | [] => Ok w
  | hb :: r => let! w := if hb_unloaded hb then Ok w else f hb w in each f r w
  end.

Definition history_add (object : list Z) (mtags : list MessageTag) (line : list Z) (g : backends) (w : W) : res W :=
  each (λ hb w, let! f := call g (p_add (hb_hooks hb)) in f object mtags line w) (historybackends g) w.

Definition history_add_multiline (object : list Z) (mtags : list MessageTag) (source cmd target : list Z) (lines : list MLine)
    (g : backends) (w : W) : res W :=
  each (λ hb w, match p_add_multiline (hb_hooks hb) with
                | None => Ok w
                | p => let! f := call g p in f object mtags source cmd target lines w
                end) (historybackends g) w.

Fixpoint request_loop (object : list Z) (f : HistoryFilter) (g : backends) (l : list HistoryBackend) (w : W)
  : res (W * option HistoryResult) :=
  match l with
  | [] => Ok (w, None)
  | hb :: r =>
      if hb_unloaded hb then request_loop object f g r w
      else
        let! fn := call g (p_request (hb_hooks hb)) in
        let! (w, x) := fn object f w in
        match x with Some x => Ok (w, Some x) | None => request_loop object f g r w end
  end.
Definition history_request (object : list Z) (f : HistoryFilter) (g : backends) (w : W) : res (W * option HistoryResult) :=
  request_loop object f g (historybackends g) w.

Fixpoint delete_loop_api (object : list Z) (f : HistoryFilter) (g : backends) (l : list HistoryBackend)
    (max_deleted max_rejected : Z) (w : W) : res (W * Z * Z) :=
  match l with
  | [] => Ok (w, max_deleted, max_rejected)
  | hb :: r =>
      if hb_unloaded hb then delete_loop_api object f g r max_deleted max_rejected w
      else
        let! fn := call g (p_delete (hb_hooks hb)) in
        let! (w, deleted, rejected) := fn object f w in
        delete_loop_api object f g r (if max_deleted <? deleted then deleted else max_deleted)
          (if max_rejected <? rejected then rejected else max_rejected) w
  end.
Definition history_delete (object : list Z) (f : HistoryFilter) (g : backends) (w : W) : res (W * Z * Z) :=
  delete_loop_api object f g (historybackends g) 0 0 w.

Definition history_destroy (object : list Z) (g : backends) (w : W) : res W :=
  each (λ hb w, let! f := call g (p_destroy (hb_hooks hb)) in f object w) (historybackends g) w.

Definition history_set_limit (object : list Z) (max_lines max_t : Z) (g : backends) (w : W) : res W :=
  each (λ hb w, let! f := call g (p_set_limit (hb_hooks hb)) in f object max_lines max_t w) (historybackends g) w.
End Backends.
#[global] Arguments hooks W : clear implicits.
#[global] Arguments HistoryBackend W : clear implicits.
#[global] Arguments backends W : clear implicits.
#[global] Arguments HistoryBackendInfo W : clear implicits.

(** ** The live backends *)

Section Services.
Context {W : Type}.

(** What a backend does, without the pointers. *)
Record service := Service {
  s_add : @add_fn W;
  s_add_multiline : option (@add_multiline_fn W);
  s_request : @request_fn W;
  s_delete : @delete_fn W;
  s_destroy : @destroy_fn W;
  s_set_limit : @set_limit_fn W
}.

Definition service_of (h : hooks W) : option service :=
  match p_add h, p_request h, p_delete h, p_destroy h, p_set_limit h with
  | Some a, Some r, Some d, Some y, Some l =>
      Some (Service (func a) (func <$> p_add_multiline h) (func r) (func d) (func y) (func l))
  | _, _, _, _, _ => None
  end.
Definition live_service (hb : HistoryBackend W) : option service :=
  if hb_unloaded hb then None else service_of (hb_hooks hb).
Definition services (g : backends W) : list service := omap live_service (historybackends g).

Fixpoint each_service (f : service → W → res W) (ss : list service) (w : W) : res W :=
  match ss with [] => Ok w | s :: r => let! w := f s w in each_service f r w end.
Fixpoint first_answer (object : list Z) (f : HistoryFilter) (ss : list service) (w : W) : res (W * option HistoryResult) :=
  match ss with
  | [] => Ok (w, None)
  | s :: r =>
      let! (w, x) := s_request s object f w in
      match x with Some x => Ok (w, Some x) | None => first_answer object f r w end
  end.
Fixpoint delete_everywhere (object : list Z) (f : HistoryFilter) (ss : list service) (deleted rejected : Z) (w : W)
  : res (W * Z * Z) :=
  match ss with
  | [] => Ok (w, deleted, rejected)
  | s :: r =>
      let! (w, d, j) := s_delete s object f w in
      delete_everywhere object f r (Z.max deleted d) (Z.max rejected j) w
  end.

(** A pointer into the code of a module. *)
Definition in_code {A} (m : nat) (p : option (fptr A)) : Prop := ∀ f, p = Some f → code f = m.
Record own_code (m : nat) (h : hooks W) : Prop := OwnCode {
  oc_add : in_code m (p_add h);
  oc_multiline : in_code m (p_add_multiline h);
  oc_request : in_code m (p_request h);
  oc_delete : in_code m (p_delete h);
  oc_destroy : in_code m (p_destroy h);
  oc_set_limit : in_code m (p_set_limit h)
}.

(** A backend has an owner, whose code is loaded and holds its functions, exactly
    as long as it is not unloaded. *)
Record owned (g : backends W) (hb : HistoryBackend W) (m : nat) : Prop := Owned {
  ow_owner : hb_owner hb = Some m;
  ow_mapped : m ∈ mapped g;
  ow_hooks : has_hooks (hb_hooks hb) = true;
  ow_code : own_code m (hb_hooks hb);
  ow_object : hb_id hb ∈ objects_of m g
}.
Record backends_ok (g : backends W) : Prop := BackendsOk {
  bo_ids : NoDup (map hb_id (historybackends g));
  bo_fresh : Forall (λ hb, hb_id hb < next_address g)%nat (historybackends g);
  bo_names : NoDup (map (λ hb, casefold (hb_name hb)) (historybackends g));
  bo_cstr : Forall (λ hb, cstr (hb_name hb)) (historybackends g);
  bo_live : ∀ hb, hb ∈ historybackends g → hb_unloaded hb = false → ∃ m, owned g hb m;
  bo_dead : ∀ hb, hb ∈ historybackends g → hb_unloaded hb = true → hb_owner hb = None;
  bo_objects : ∀ m id, id ∈ objects_of m g → ∃ hb, hb ∈ historybackends g ∧ hb_id hb = id ∧ hb_owner hb = Some m;
  bo_once : ∀ m, NoDup (objects_of m g)
}.

(** *** Lookups *)

Lemma same_id_same (l : list (HistoryBackend W)) a b :
  NoDup (map hb_id l) → a ∈ l → b ∈ l → hb_id a = hb_id b → a = b.
Proof.
  intros Hn. induction l as [|x l IH]; [by intros ?%elem_of_nil|]. simpl in Hn. apply NoDup_cons in Hn as [Hx Hn].
  rewrite !elem_of_cons. intros [->|Ha] [->|Hb] He; [done| | |by apply IH].
  - exfalso. apply Hx. rewrite He. by apply (list_elem_of_fmap_2 hb_id).
  - exfalso. apply Hx. rewrite <-He. by apply (list_elem_of_fmap_2 hb_id).
Qed.

Lemma get_backend_ok g hb : backends_ok g → hb ∈ historybackends g → get_backend (hb_id hb) g = Ok hb.
Proof.
  intros [Hi _ _ _ _ _ _ _] Hin. unfold get_backend.
  destruct (find _ _) as [x|] eqn:E.
  - apply find_some in E as [Hx He%Nat.eqb_eq]. f_equal. apply (same_id_same (historybackends g)); try done.
    by apply list_elem_of_In.
  - exfalso. assert (hb_id hb =? hb_id hb = false)%nat as H.
    { apply (find_none _ _ E). by apply list_elem_of_In. }
    by rewrite Nat.eqb_refl in H.
Qed.

Lemma elem_update id f (l : list (HistoryBackend W)) x :
  x ∈ update_backend id f l ↔ ∃ y, y ∈ l ∧ x = if (hb_id y =? id)%nat then f y else y.
Proof. unfold update_backend. rewrite (list_elem_of_fmap _ l x). naive_solver. Qed.

Lemma map_update {A} (p : HistoryBackend W → A) id f l : (∀ x, p (f x) = p x) → map p (update_backend id f l) = map p l.
Proof.
  intros Hf. unfold update_backend. rewrite map_map. apply map_ext. intros x. by destruct (_ =? _)%nat.
Qed.

Lemma find_backend_spec n g : backends_ok g → cstr n →
  match HistoryBackendFind n g with
  | Some m => m ∈ historybackends g ∧ casefold (hb_name m) = casefold n
  | None => casefold n ∉ map (λ hb, casefold (hb_name hb)) (historybackends g)
  end.
Proof.
  intros [_ _ _ Hc _ _ _ _] Hn. unfold HistoryBackendFind.
  destruct (find _ _) as [x|] eqn:E.
  - apply find_some in E as [Hx%list_elem_of_In He]. split; [done|]. rewrite Forall_forall in Hc.
    rewrite strcasecmp_eq in He by auto. by apply bool_decide_eq_true in He.
  - intros (x & He & Hx)%list_elem_of_fmap. pose proof (find_none _ _ E x ltac:(by apply list_elem_of_In)) as H. simpl in H.
    rewrite Forall_forall in Hc. rewrite strcasecmp_eq in H by auto. by rewrite bool_decide_true in H.
Qed.

(** *** Calls *)

Lemma call_in {A} g m (p : option (fptr A)) f :
  m ∈ mapped (W:=W) g → in_code m p → p = Some f → call g p = Ok (func f).
Proof. intros Hm Hc ->. simpl. rewrite bool_decide_true; [done|]. by rewrite (Hc f eq_refl). Qed.

Lemma live_has_service g hb : backends_ok g → hb ∈ historybackends g → hb_unloaded hb = false →
  ∃ s, live_service hb = Some s ∧
    call g (p_add (hb_hooks hb)) = Ok (s_add s) ∧
    match p_add_multiline (hb_hooks hb) with
    | None => s_add_multiline s = None
    | Some p => ∃ f, s_add_multiline s = Some f ∧ call g (Some p) = Ok f
    end ∧
    call g (p_request (hb_hooks hb)) = Ok (s_request s) ∧ call g (p_delete (hb_hooks hb)) = Ok (s_delete s) ∧
    call g (p_destroy (hb_hooks hb)) = Ok (s_destroy s) ∧ call g (p_set_limit (hb_hooks hb)) = Ok (s_set_limit s).
Proof.
  intros Hg Hin Hu. destruct (bo_live g Hg hb Hin Hu) as (m & [_ Hm Hh [C1 C2 C3 C4 C5 C6] _]).
  unfold live_service. rewrite Hu. unfold service_of, has_hooks in *.
  destruct (p_add _) as [a|]; [|done]. destruct (p_request _) as [r|]; [|done]. destruct (p_delete _) as [d|]; [|done].
  destruct (p_destroy _) as [y|]; [|done]. destruct (p_set_limit _) as [l|]; [|done].
  eexists. split; [done|]. cbn [s_add s_add_multiline s_request s_delete s_destroy s_set_limit].
  split_and!; try by apply (call_in g m).
  destruct (p_add_multiline _) as [p|]; [|done]. exists (func p). split; [done|]. by eapply (call_in g m (Some p)).
Qed.

(** A loop over a part of the list, when every call on a live backend is the call
    of its service. *)
Lemma each_services f fs g l w :
  (∀ hb s, hb ∈ l → hb_unloaded hb = false → live_service hb = Some s → ∀ w, f hb w = fs s w) →
  backends_ok g → (∀ hb, hb ∈ l → hb ∈ historybackends g) →
  each f l w = each_service fs (omap live_service l) w.
Proof.
  intros Hf Hg. revert w. induction l as [|hb l IH]; intros w Hl; [done|]. cbn [each omap list_omap].
  assert (∀ w, each f l w = each_service fs (omap live_service l) w) as E.
  { intros w'. apply IH; [intros; apply Hf; [by right|done..]|intros; apply Hl; by right]. }
  destruct (hb_unloaded hb) eqn:Hu.
  - unfold live_service at 1. rewrite Hu. cbn [rbind]. apply E.
  - destruct (live_has_service g hb Hg ltac:(apply Hl; by left) Hu) as (s & Es & _). rewrite Es. cbn [each_service].
    rewrite (Hf hb s) by (done || by left). destruct (fs s w); [apply E|done|done].
Qed.

Lemma request_services object f g l w :
  backends_ok g → (∀ hb, hb ∈ l → hb ∈ historybackends g) →
  request_loop object f g l w = first_answer object f (omap live_service l) w.
Proof.
  intros Hg. revert w. induction l as [|hb l IH]; intros w Hl; [done|]. cbn [request_loop omap list_omap].
  assert (∀ w, request_loop object f g l w = first_answer object f (omap live_service l) w) as E.
  { intros w'. apply IH. intros; apply Hl; by right. }
  destruct (hb_unloaded hb) eqn:Hu.
  - unfold live_service at 1. rewrite Hu. apply E.
  - destruct (live_has_service g hb Hg ltac:(apply Hl; by left) Hu) as (s & Es & _ & _ & -> & _). rewrite Es.
    cbn [rbind first_answer]. destruct (s_request s object f w) as [[w' [x|]]| |]; try done. cbn [rbind]. apply E.
Qed.

Lemma delete_services object f g l a b w :
  backends_ok g → (∀ hb, hb ∈ l → hb ∈ historybackends g) →
  delete_loop_api object f g l a b w = delete_everywhere object f (omap live_service l) a b w.
Proof.
  intros Hg. revert a b w. induction l as [|hb l IH]; intros a b w Hl; [done|]. cbn [delete_loop_api omap list_omap].
  assert (∀ a b w, delete_loop_api object f g l a b w = delete_everywhere object f (omap live_service l) a b w) as E.
  { intros a' b' w'. apply IH. intros; apply Hl; by right. }
  destruct (hb_unloaded hb) eqn:Hu.
  - unfold live_service at 1. rewrite Hu. apply E.
  - destruct (live_has_service g hb Hg ltac:(apply Hl; by left) Hu) as (s & Es & _ & _ & _ & -> & _). rewrite Es.
    cbn [rbind delete_everywhere]. destruct (s_delete s object f w) as [[[w' d] j]| |]; try done. cbn [rbind].
    assert (∀ x y, (if x <? y then y else x) = Z.max x y) as Hmax.
    { intros x y. destruct (Z.ltb_spec x y); lia. }
    rewrite !Hmax. apply E.
Qed.

(** *** What keeps the registry in order *)

Lemma objects_insert m l g o : objects_of (W:=W) o (set_objects m l g) = if decide (m = o) then l else objects_of o g.
Proof.
  unfold objects_of. cbn [set_objects module_objects]. case_decide as E; [subst; by rewrite lookup_insert_eq|by rewrite lookup_insert_ne].
Qed.

Lemma set_errorcode_ok m e g : backends_ok g → backends_ok (set_errorcode m e g).
Proof.
  intros [H1 H2 H3 H4 H5 H6 H7 H8]. constructor; try done. intros hb Hi Hu.
  destruct (H5 hb Hi Hu) as (o & [A B C D E]). by exists o.
Qed.

Lemma load_ok m g : backends_ok g → m ∉ mapped g → backends_ok (load_module m g).
Proof.
  intros [H1 H2 H3 H4 H5 H6 H7 H8] Hm.
  assert (∀ o, objects_of o (load_module m g) = if decide (m = o) then [] else objects_of o g) as Ho.
  { intros o. unfold objects_of. cbn [load_module module_objects].
    case_decide as E; [subst; by rewrite lookup_insert_eq|by rewrite lookup_insert_ne]. }
  constructor; try done.
  - intros hb Hi Hu. destruct (H5 hb Hi Hu) as (o & [A B C D E]). exists o. constructor; try done.
    + cbn [load_module mapped]. set_solver.
    + rewrite Ho, decide_False; [done|]. by intros ->.
  - intros o id. rewrite Ho. case_decide; [by intros ?%elem_of_nil|apply H7].
  - intros o. rewrite Ho. case_decide; [constructor|apply H8].
Qed.

Lemma keep_backends_ok (P : HistoryBackend W → Prop) `{!∀ x, Decision (P x)} g :
  backends_ok g → (∀ hb, hb ∈ historybackends g → ¬ P hb → hb_owner hb = None) →
  backends_ok (set_backends (filter P (historybackends g)) g).
Proof.
  intros [H1 H2 H3 H4 H5 H6 H7 H8] Hp. pose proof (sublist_filter P (historybackends g)) as Hs.
  assert (∀ hb, hb ∈ filter P (historybackends g) → hb ∈ historybackends g) as Hin.
  { intros hb [_ ?]%list_elem_of_filter. done. }
  constructor; cbn [set_backends historybackends next_address]; try done.
  - eapply sublist_NoDup; [exact H1|]. by apply (fmap_sublist hb_id).
  - by apply (sublist_Forall _ (historybackends g)).
  - eapply sublist_NoDup; [exact H3|]. by apply (fmap_sublist (λ m, casefold (hb_name m))).
  - by apply (sublist_Forall _ (historybackends g)).
  - intros hb Hi Hu. destruct (H5 hb (Hin hb Hi) Hu) as (o & [A B C D E]). by exists o.
  - intros hb Hi. apply H6. auto.
  - intros m id Hid. destruct (H7 m id Hid) as (hb & Hi & He & Ho). exists hb. split_and!; try done.
    apply list_elem_of_filter. split; [|done]. destruct (decide (P hb)) as [|Hn]; [done|]. by rewrite (Hp hb Hi Hn) in Ho.
Qed.

Lemma commit_ok id g : backends_ok g → (∀ hb, hb ∈ historybackends g → hb_id hb = id → hb_owner hb = None) →
  backends_ok (unload_history_backend_commit id g).
Proof.
  intros Hg Ho. apply (keep_backends_ok (λ m, hb_id m ≠ id)); [done|]. intros hb Hi Hn. apply (Ho hb Hi).
  by destruct (decide (hb_id hb = id)).
Qed.

Lemma del_object_elem_of id x l : NoDup l → x ∈ del_object id l ↔ x ∈ l ∧ x ≠ id.
Proof.
  intros Hn. induction Hn as [|y l Hy Hn IH]; simpl; [set_solver|]. destruct (Nat.eqb_spec y id) as [->|Hne].
  - rewrite elem_of_cons. split; [|naive_solver]. intros Hx. split; [by right|]. by intros ->.
  - rewrite !elem_of_cons, IH. naive_solver.
Qed.
Lemma del_object_NoDup id l : NoDup l → NoDup (del_object id l).
Proof.
  intros Hn. induction Hn as [|y l Hy Hn IH]; simpl; [constructor|]. destruct (Nat.eqb_spec y id); [done|].
  constructor; [|done]. rewrite del_object_elem_of by done. naive_solver.
Qed.

Lemma del_objects m g o id : backends_ok g →
  id ∈ objects_of o (HistoryBackendDel true m g) ↔ id ∈ objects_of o g ∧ (hb_owner m = Some o → id ≠ hb_id m).
Proof.
  intros [_ _ _ _ _ _ _ H8]. unfold HistoryBackendDel. destruct (hb_owner m) as [n|]; [|naive_solver].
  change (id ∈ objects_of o (set_objects n (del_object (hb_id m) (objects_of n g)) g) ↔
    id ∈ objects_of o g ∧ (Some n = Some o → id ≠ hb_id m)). rewrite objects_insert.
  case_decide as E; [subst|naive_solver]. rewrite del_object_elem_of by apply H8. naive_solver.
Qed.

Lemma del_rehash_ok m g : backends_ok g → m ∈ historybackends g → backends_ok (HistoryBackendDel true m g).
Proof.
  intros Hg Hm. pose proof Hg as [H1 H2 H3 H4 H5 H6 H7 H8].
  pose proof (λ o id, del_objects m g o id Hg) as Ho.
  assert (∀ x, x ∈ historybackends (HistoryBackendDel true m g) ↔
    (x ∈ historybackends g ∧ hb_id x ≠ hb_id m) ∨ x = Backend (hb_id m) (hb_name m) (hb_hooks m) None true) as Hx.
  { intros x. unfold HistoryBackendDel. cbn [set_backends historybackends]. rewrite elem_update.
    replace (historybackends (match hb_owner m with Some o => _ | None => g end)) with (historybackends g) by by destruct (hb_owner m).
    split.
    - intros (y & Hy & ->). destruct (Nat.eqb_spec (hb_id y) (hb_id m)) as [E|E]; [|by left].
      right. by rewrite (same_id_same _ _ _ H1 Hy Hm E).
    - intros [[Hi Hn]| ->]; [exists x; by destruct (Nat.eqb_spec (hb_id x) (hb_id m))|].
      exists m. by rewrite Nat.eqb_refl. }
  assert (∀ {A} (p : HistoryBackend W → A), (∀ x, p (Backend (hb_id x) (hb_name x) (hb_hooks x) None true) = p x) →
    map p (historybackends (HistoryBackendDel true m g)) = map p (historybackends g)) as Hmap.
  { intros A p Hp. unfold HistoryBackendDel. cbn [set_backends historybackends]. rewrite map_update by done.
    by destruct (hb_owner m). }
  assert (next_address (HistoryBackendDel true m g) = next_address g ∧ mapped (HistoryBackendDel true m g) = mapped g) as [Hnx Hmp].
  { unfold HistoryBackendDel. by destruct (hb_owner m). }
  constructor.
  - by rewrite Hmap.
  - rewrite Hnx. apply Forall_forall. rewrite Forall_forall in H2. intros x [[Hi _]| ->]%Hx; [auto|]. by apply (H2 m).
  - by rewrite Hmap.
  - apply Forall_forall. rewrite Forall_forall in H4. intros x [[Hi _]| ->]%Hx; [auto|]. by apply (H4 m).
  - intros x [[Hi Hn]| ->]%Hx Hu; [|done]. destruct (H5 x Hi Hu) as (o & [A B C D E]). exists o. constructor; try done.
    + by rewrite Hmp.
    + apply Ho. by split.
  - intros x [[Hi Hn]| ->]%Hx Hu; [auto|done].
  - intros o id [Hid Hn]%Ho. destruct (H7 o id Hid) as (x & Hi & <- & Hw). exists x. split_and!; try done. apply Hx. left.
    split; [done|]. intros E. rewrite (same_id_same _ _ _ H1 Hi Hm E) in Hw. by apply (Hn Hw).
  - intros o. unfold HistoryBackendDel. destruct (hb_owner m) as [n|]; [|apply H8].
    change (NoDup (objects_of o (set_objects n (del_object (hb_id m) (objects_of n g)) g))). rewrite objects_insert.
    case_decide; [by apply del_object_NoDup|apply H8].
Qed.

Lemma del_is_commit m g : HistoryBackendDel false m g = unload_history_backend_commit (W:=W) (hb_id m) (HistoryBackendDel true m g).
Proof.
  assert (∀ l, filter (λ x : HistoryBackend W, hb_id x ≠ hb_id m)
      (update_backend (hb_id m) (λ x, Backend (hb_id x) (hb_name x) (hb_hooks x) None (false || hb_unloaded x)) l) =
    filter (λ x, hb_id x ≠ hb_id m)
      (update_backend (hb_id m) (λ x, Backend (hb_id x) (hb_name x) (hb_hooks x) None (true || hb_unloaded x)) l)) as H.
  { intros l. unfold update_backend. induction l as [|x l IH]; [done|]. cbn [map]. rewrite !filter_cons.
    destruct (Nat.eqb_spec (hb_id x) (hb_id m)) as [E|E]; cbn [hb_id].
    - by rewrite !decide_False by naive_solver.
    - rewrite !decide_True by done. by rewrite IH. }
  unfold HistoryBackendDel, unload_history_backend_commit. cbn [set_backends historybackends]. rewrite H. by destruct (hb_owner m).
Qed.

Lemma del_removed r m g x : backends_ok g → m ∈ historybackends g →
  x ∈ historybackends (HistoryBackendDel r m g) → hb_id x = hb_id m → hb_owner x = None.
Proof.
  intros Hg Hm. destruct r; [|rewrite del_is_commit; cbn [unload_history_backend_commit set_backends historybackends];
    by intros [? ?]%list_elem_of_filter].
  unfold HistoryBackendDel. cbn [set_backends historybackends]. rewrite elem_update. intros (y & _ & ->) He.
  destruct (Nat.eqb_spec (hb_id y) (hb_id m)); [done|]. done.
Qed.

Lemma backend_del_ok r m g : backends_ok g → m ∈ historybackends g → backends_ok (HistoryBackendDel r m g).
Proof.
  intros Hg Hm. destruct r; [by apply del_rehash_ok|]. rewrite del_is_commit. apply commit_ok; [by apply del_rehash_ok|].
  intros hb Hi He. by apply (del_removed true m g hb).
Qed.

(** A module takes over a backend that is unloaded. *)
Definition adopt (m : nat) (h : hooks W) (x : HistoryBackend W) (g : backends W) : backends W :=
  set_objects m (hb_id x :: objects_of m g)
    (set_backends (update_backend (hb_id x) (λ y, Backend (hb_id y) (hb_name y) h (Some m) false) (historybackends g)) g).

Lemma adopt_ok m h x g :
  backends_ok g → x ∈ historybackends g → hb_unloaded x = true → m ∈ mapped g → has_hooks h = true → own_code m h →
  backends_ok (adopt m h x g).
Proof.
  intros Hg Hxg Hux Hm Hh Hc. pose proof Hg as [H1 H2 H3 H4 H5 H6 H7 H8].
  assert (∀ o, objects_of o (adopt m h x g) = if decide (m = o) then hb_id x :: objects_of o g else objects_of o g) as Ho.
  { intros o. unfold adopt. rewrite objects_insert. by case_decide as E; [rewrite <-E|]. }
  assert (hb_id x ∉ objects_of m g) as Hnew.
  { intros (y & Hy & He & Hw)%H7. rewrite (same_id_same _ _ _ H1 Hy Hxg He) in Hw. by rewrite (H6 x Hxg Hux) in Hw. }
  assert (∀ y, y ∈ historybackends (adopt m h x g) ↔
    (y ∈ historybackends g ∧ hb_id y ≠ hb_id x) ∨ y = Backend (hb_id x) (hb_name x) h (Some m) false) as Hy.
  { intros y. unfold adopt. cbn [set_objects set_backends historybackends]. rewrite elem_update. split.
    - intros (z & Hz & ->). destruct (Nat.eqb_spec (hb_id z) (hb_id x)) as [E|E]; [|by left].
      right. by rewrite (same_id_same _ _ _ H1 Hz Hxg E).
    - intros [[Hi Hn]| ->]; [exists y; by destruct (Nat.eqb_spec (hb_id y) (hb_id x))|].
      exists x. by rewrite Nat.eqb_refl. }
  constructor.
  - unfold adopt. cbn [set_objects set_backends historybackends]. by rewrite map_update.
  - apply Forall_forall. rewrite Forall_forall in H2. intros y [[Hi _]| ->]%Hy; [by apply H2|]. by apply (H2 x).
  - unfold adopt. cbn [set_objects set_backends historybackends]. by rewrite map_update.
  - apply Forall_forall. rewrite Forall_forall in H4. intros y [[Hi _]| ->]%Hy; [auto|]. by apply (H4 x).
  - intros y [[Hi Hn]| ->]%Hy Hu.
    + destruct (H5 y Hi Hu) as (o & [A B C D E]). exists o. constructor; try done. rewrite Ho. case_decide; [by right|done].
    + exists m. constructor; try done. rewrite Ho, decide_True by done. by left.
  - intros y [[Hi Hn]| ->]%Hy Hu; [auto|done].
  - intros o id. rewrite Ho. intros Hid.
    assert (id ∈ objects_of o g ∨ (o = m ∧ id = hb_id x)) as [Hid'|[-> ->]].
    { case_decide as E; [subst; apply elem_of_cons in Hid as [->|Hid]; auto|by left]. }
    + destruct (H7 o id Hid') as (y & Hi & <- & Hw). exists y. split_and!; try done. apply Hy. left. split; [done|].
      intros E. rewrite (same_id_same _ _ _ H1 Hi Hxg E) in Hw. by rewrite (H6 x Hxg Hux) in Hw.
    + eexists. split; [by apply Hy; right|done].
  - intros o. rewrite Ho. case_decide as E; [subst; by constructor|apply H8].
Qed.

Lemma add_dead_ok name h g :
  backends_ok g → cstr name → casefold name ∉ map (λ hb, casefold (hb_name hb)) (historybackends g) →
  backends_ok (Backends (Backend (next_address g) name h None true :: historybackends g)
    (module_objects g) (errorcode g) (mapped g) (S (next_address g))).
Proof.
  intros [H1 H2 H3 H4 H5 H6 H7 H8] Hc Hn. constructor; cbn [historybackends map hb_id hb_name next_address].
  - constructor; [|done]. intros (y & He & Hy)%list_elem_of_fmap. rewrite Forall_forall in H2. specialize (H2 y Hy). lia.
  - constructor; [simpl; lia|]. eapply Forall_impl; [exact H2|]. simpl. lia.
  - by constructor.
  - by constructor.
  - intros y [->|Hi]%elem_of_cons Hu; [done|]. destruct (H5 y Hi Hu) as (o & [A B C D E]). by exists o.
  - intros y [->|Hi]%elem_of_cons Hu; [done|auto].
  - intros o id Hid. destruct (H7 o id Hid) as (y & Hi & ?). exists y. split; [by right|done].
  - done.
Qed.

Lemma backend_add_ok m mreq g :
  backends_ok g → m ∈ mapped g → own_code m (mreq_hooks mreq) → cstr (mreq_name mreq) →
  backends_ok (HistoryBackendAdd m mreq g).1.
Proof.
  intros Hg Hm Hc Hn. unfold HistoryBackendAdd. destruct (has_hooks _) eqn:Eh; cbn [negb]; [|by apply set_errorcode_ok].
  pose proof (find_backend_spec (mreq_name mreq) g Hg Hn) as Hf. destruct (HistoryBackendFind _ _) as [x|].
  - destruct Hf as [Hx _]. destruct (hb_unloaded x) eqn:Eu; [|by apply set_errorcode_ok]. cbn [fst].
    apply set_errorcode_ok. by apply (adopt_ok m (mreq_hooks mreq) x g).
  - cbn [fst]. apply set_errorcode_ok. pose proof (add_dead_ok (mreq_name mreq) (mreq_hooks mreq) g Hg Hn Hf) as Hd.
    set (x := Backend (next_address g) (mreq_name mreq) (mreq_hooks mreq) None true) in *.
    pose proof (adopt_ok m (mreq_hooks mreq) x _ Hd ltac:(by left) eq_refl Hm Eh Hc) as H.
    unfold adopt in H. cbn [set_backends historybackends update_backend map hb_id x] in H. rewrite Nat.eqb_refl in H.
    assert (map (λ y : HistoryBackend W, if (hb_id y =? next_address g)%nat then Backend (hb_id y) (hb_name y) (mreq_hooks mreq) (Some m) false else y)
      (historybackends g) = historybackends g) as E.
    { destruct Hg as [_ H2 _ _ _ _ _ _]. rewrite Forall_forall in H2. rewrite <-(map_id (historybackends g)) at 2.
      apply map_ext_in. intros y Hy%list_elem_of_In. specialize (H2 y Hy). destruct (Nat.eqb_spec (hb_id y) (next_address g)); [lia|done]. }
    rewrite E in H. exact H.
Qed.

Lemma unload_unused_filter g : backends_ok g →
  unload_all_unused_history_backends g = set_backends (filter (λ x, hb_unloaded x = false) (historybackends g)) g.
Proof.
  intros [H1 _ _ _ _ _ _ _].
  assert (∀ (l2 : list (HistoryBackend W)) g0, foldl (λ (g : backends W) m, if hb_unloaded m then unload_history_backend_commit (hb_id m) g else g) g0 l2 =
    set_backends (filter (λ x : HistoryBackend W, existsb (λ m : HistoryBackend W, hb_unloaded m && (hb_id m =? hb_id x)%nat) l2 = false) (historybackends g0)) g0) as H.
  { induction l2 as [|m l2 IH]; intros g0; cbn [foldl existsb].
    - rewrite filter_all; [by destruct g0|]. by apply Forall_forall.
    - rewrite IH. destruct (hb_unloaded m); cbn [andb orb]; [|done].
      unfold unload_history_backend_commit. cbn [set_backends historybackends]. unfold set_backends. cbn. f_equal.
      rewrite list_filter_filter. apply list_filter_iff. intros x. destruct (Nat.eqb_spec (hb_id m) (hb_id x)); simpl; naive_solver. }
  unfold unload_all_unused_history_backends. rewrite H. f_equal. apply filter_iff_on. intros x Hx.
  destruct (existsb _ _) eqn:E.
  - apply existsb_exists in E as (m & Hm%list_elem_of_In & [Hu He%Nat.eqb_eq]%andb_prop).
    rewrite <-(same_id_same _ _ _ H1 Hm Hx He), Hu. naive_solver.
  - split; [intros _|done]. destruct (hb_unloaded x) eqn:Eu; [|done]. exfalso.
    rewrite <-not_true_iff_false in E. apply E, existsb_exists. exists x. split; [by apply list_elem_of_In|].
    by rewrite Eu, Nat.eqb_refl.
Qed.

Lemma unload_unused_ok g : backends_ok g → backends_ok (unload_all_unused_history_backends g).
Proof.
  intros Hg. rewrite unload_unused_filter by done. apply keep_backends_ok; [done|]. intros hb Hi Hu. apply (bo_dead g Hg hb Hi).
  by destruct (hb_unloaded hb).
Qed.

Lemma free_objects_ok r m ids g :
  backends_ok g → NoDup ids → (∀ id, id ∈ ids → id ∈ objects_of m g) →
  ∃ g', free_objects r ids g = Ok g' ∧ backends_ok g' ∧ mapped g' = mapped g ∧
    (∀ id, id ∈ objects_of m g' → id ∈ objects_of m g ∧ id ∉ ids) ∧ (∀ o, o ≠ m → objects_of o g' = objects_of o g).
Proof.
  intros Hg Hn. revert g Hg. induction Hn as [|id ids Hid Hn IH]; intros g Hg Hsub.
  { exists g. split_and!; try done. intros id Hi. split; [done|set_solver]. }
  destruct (bo_objects g Hg m id ltac:(apply Hsub; by left)) as (hb & Hi & <- & Hw). cbn [free_objects].
  rewrite (get_backend_ok g hb Hg Hi). cbn [rbind].
  assert (∀ o, objects_of o (HistoryBackendDel r hb g) = objects_of o (HistoryBackendDel true hb g)) as Er.
  { intros o. destruct r; [done|]. by rewrite del_is_commit. }
  destruct (IH (HistoryBackendDel r hb g)) as (g' & -> & Hok & Hmp & Hob & Hother).
  { by apply backend_del_ok. }
  { intros i Hx. rewrite Er. apply del_objects; [done|]. split; [apply Hsub; by right|]. intros _ ->. done. }
  exists g'. split_and!; try done.
  - rewrite Hmp. unfold HistoryBackendDel. rewrite Hw. by destruct r.
  - intros i [Hx Hni]%Hob. rewrite Er in Hx. apply del_objects in Hx as [Hx Hne]; [|done]. split; [done|]. set_solver.
  - intros o Ho. rewrite Hother by done. rewrite Er. unfold HistoryBackendDel. rewrite Hw.
    change (objects_of o (set_objects m (del_object (hb_id hb) (objects_of m g)) g) = objects_of o g).
    rewrite objects_insert. by rewrite decide_False.
Qed.

Lemma unload_ok r m g : backends_ok g → ∃ g', unload_module r m g = Ok g' ∧ backends_ok g'.
Proof.
  intros Hg. unfold unload_module.
  destruct (free_objects_ok r m (objects_of m g) g Hg ltac:(apply Hg) ltac:(done)) as (g1 & -> & Hg1 & Hmp & Hob & _).
  cbn [rbind]. eexists. split; [done|]. destruct Hg1 as [H1 H2 H3 H4 H5 H6 H7 H8].
  assert (∀ id, id ∉ objects_of m g1) as Hnone. { intros id [? ?]%Hob. done. }
  set (g' := Backends _ _ _ _ _).
  assert (∀ o, objects_of o g' = if decide (m = o) then [] else objects_of o g1) as Ho.
  { intros o. unfold objects_of. cbn [g' module_objects]. case_decide as E; [subst; by rewrite lookup_delete_eq|by rewrite lookup_delete_ne]. }
  constructor; try done.
  - intros hb Hi Hu. destruct (H5 hb Hi Hu) as (o & [A B C D E]). assert (m ≠ o) as Hne. { intros <-. by apply (Hnone (hb_id hb)). }
    exists o. constructor; try done; [cbn [g' mapped]; set_solver|]. by rewrite Ho, decide_False.
  - intros o id. rewrite Ho. case_decide; [by intros ?%elem_of_nil|apply H7].
  - intros o. rewrite Ho. case_decide; [constructor|apply H8].
Qed.

(** ** All states *)

Inductive breach : backends W → Prop :=
| breach_init : breach (Backends [] ∅ ∅ ∅ 0)
| breach_load m g : breach g → m ∉ mapped g → breach (load_module m g)
| breach_add m mreq g : breach g → m ∈ mapped g → own_code m (mreq_hooks mreq) → cstr (mreq_name mreq) →
    breach (HistoryBackendAdd m mreq g).1
| breach_del rehashing hb g : breach g → hb ∈ historybackends g → breach (HistoryBackendDel rehashing hb g)
| breach_unload rehashing m g g' : breach g → unload_module rehashing m g = Ok g' → breach g'
| breach_commit g : breach g → breach (unload_all_unused_history_backends g).

Lemma breach_ok g : breach g → backends_ok g.
Proof.
  induction 1 as [|m g _ IH Hm|m mreq g _ IH Hm Hc Hn|r hb g _ IH Hi|r m g g' _ IH E|g _ IH].
  - constructor; cbn; try constructor; try by intros ? ?%elem_of_nil.
    intros m id. unfold objects_of. cbn. rewrite lookup_empty. by intros ?%elem_of_nil.
  - by apply load_ok.
  - by apply backend_add_ok.
  - by apply backend_del_ok.
  - destruct (unload_ok r m g IH) as (x & Ex & Hx). congruence.
  - by apply unload_unused_ok.
Qed.

Lemma services_filter g : services (set_backends (filter (λ x : HistoryBackend W, hb_unloaded x = false) (historybackends g)) g) = services g.
Proof.
  unfold services. cbn [set_backends historybackends]. induction (historybackends g) as [|x l IH]; [done|].
  rewrite filter_cons. case_decide as E; cbn [omap list_omap].
  - by rewrite IH.
  - rewrite IH. unfold live_service at 2. by destruct (hb_unloaded x).
Qed.
Lemma services_length g : backends_ok g → length (filter (λ x : HistoryBackend W, hb_unloaded x = false) (historybackends g)) = length (services g).
Proof.
  intros Hg. unfold services. assert (∀ hb, hb ∈ historybackends g → hb ∈ historybackends g) as Hl by done. revert Hl.
  generalize (historybackends g) at 1 3 4 as l. induction l as [|x l IH]; intros Hl; [done|].
  rewrite filter_cons. cbn [omap list_omap]. assert (∀ hb, hb ∈ l → hb ∈ historybackends g) as Hl' by (intros; apply Hl; by right).
  case_decide as E.
  - destruct (live_has_service g x Hg ltac:(apply Hl; by left) E) as (s & -> & _). cbn [length]. by rewrite IH.
  - unfold live_service at 1. by destruct (hb_unloaded x); [apply IH|].
Qed.

Lemma add_services g object mtags line w : backends_ok g →
  history_add object mtags line g w = each_service (λ s, s_add s object mtags line) (services g) w.
Proof.
  intros Hg. apply (each_services _ _ g); [|done..]. intros hb s Hi Hu Hs.
  destruct (live_has_service g hb Hg Hi Hu) as (s' & Es & -> & _). rewrite Hs in Es. by injection Es as <-.
Qed.

(** C9.  Calls reach the live backends.  Whatever modules were loaded, registered, rehashed
    and unloaded before, no call through the API uses a function whose module is gone:
    adding, limiting and destroying run the function of every live backend in order, a
    request is answered by the first that has an answer, deletion reports the largest
    counts, a module can always be unloaded, and the final step of a rehash keeps exactly
    the live backends. *)
Theorem history_api_refines_services g : breach g →
  (∀ object mtags line w, history_add object mtags line g w = each_service (λ s, s_add s object mtags line) (services g) w) ∧
  (∀ object mtags source cmd target lines w, history_add_multiline object mtags source cmd target lines g w =
     each_service (λ s w, match s_add_multiline s with
                          | Some f => f object mtags source cmd target lines w
                          | None => Ok w
                          end) (services g) w) ∧
  (∀ object f w, history_request object f g w = first_answer object f (services g) w) ∧
  (∀ object f w, history_delete object f g w = delete_everywhere object f (services g) 0 0 w) ∧
  (∀ object w, history_destroy object g w = each_service (λ s, s_destroy s object) (services g) w) ∧
  (∀ object n t w, history_set_limit object n t g w = each_service (λ s, s_set_limit s object n t) (services g) w) ∧
  (∀ rehashing m, ∃ g', unload_module rehashing m g = Ok g' ∧ m ∉ mapped g' ∧ objects_of m g' = []) ∧
  services (unload_all_unused_history_backends g) = services g ∧
  length (historybackends (unload_all_unused_history_backends g)) = length (services g).
Proof.
  intros Hr. pose proof (breach_ok g Hr) as Hg.
  assert (∀ f fs w, (∀ hb s, hb ∈ historybackends g → hb_unloaded hb = false → live_service hb = Some s → ∀ w, f hb w = fs s w) →
    each f (historybackends g) w = each_service fs (services g) w) as He.
  { intros f fs w Hf. by apply (each_services f fs g). }
  split_and!.
  - intros. by apply add_services.
  - intros. apply He. intros hb s Hi Hu Hs w'. destruct (live_has_service g hb Hg Hi Hu) as (s' & Es & _ & Hm & _).
    rewrite Hs in Es. injection Es as <-. destruct (p_add_multiline _) as [p|]; [|by rewrite Hm].
    destruct Hm as (f & -> & ->). done.
  - intros. by apply request_services.
  - intros. by apply delete_services.
  - intros. apply He. intros hb s Hi Hu Hs. destruct (live_has_service g hb Hg Hi Hu) as (s' & Es & _ & _ & _ & _ & -> & _).
    rewrite Hs in Es. by injection Es as <-.
  - intros. apply He. intros hb s Hi Hu Hs. destruct (live_has_service g hb Hg Hi Hu) as (s' & Es & _ & _ & _ & _ & _ & ->).
    rewrite Hs in Es. by injection Es as <-.
  - intros r m. unfold unload_module.
    destruct (free_objects_ok r m (objects_of m g) g Hg ltac:(apply Hg) ltac:(done)) as (g1 & -> & _). cbn [rbind].
    eexists. split_and!; [done|cbn; set_solver|]. unfold objects_of. cbn. by rewrite lookup_delete_eq.
  - by rewrite unload_unused_filter, services_filter.
  - rewrite unload_unused_filter by done. by apply services_length.
Qed.
End Services.
#[global] Arguments service W : clear implicits.

(** ** Sending a result *)

(** What [sendto_one] is called with. *)
Inductive sent := Sent (mtags : list MessageTag) (text : list Z).

Definition MTAG_HANDLER_FLAGS_FIRST_ONLY : Z := 2.
Definition BATCHLEN : nat := 22.

Section Sending.
(** [me.name], the capabilities, the handlers of tags, and the random ids of
    batches, with the number of those that were used. *)
Variable me_name : list Z.
Variable clicaps : list (list Z * Z).
Variable mtaghandlers : list MessageTagHandler.
Variable batch_id : nat → list Z.

Definition ClientCapabilityFindReal (token : list Z) : option (list Z * Z) :=
  find (λ c, strcasecmp token c.1 =? 0) clicaps.
Definition ClientCapabilityBit (token : list Z) : Z :=
  match ClientCapabilityFindReal token with Some c => c.2 | None => 0 end.
Definition HasCapability (caps : Z) (token : string) : bool := negb (Z.land caps (ClientCapabilityBit (bs token)) =? 0).

Definition can_receive_history (caps : Z) : bool := HasCapability caps "server-time".

(** The copies keep name and value. *)
Definition first_only (m : MessageTag) : bool :=
  match MessageTagHandlerFind (t_name m) mtaghandlers with
  | Some h => negb (Z.land (h_flags h) MTAG_HANDLER_FLAGS_FIRST_ONLY =? 0)
  | None => false
  end.
Definition duplicate_mtags_for_subsequent_lines (mtags : list MessageTag) : list MessageTag :=
  filter (λ m, first_only m = false) mtags.

Definition batch_tag (id : list Z) : MessageTag := MTag (bs "batch") (Some id).
Definition CONCAT_TAG : MessageTag := MTag (bs "draft/multiline-concat") None.
Definition END_TAG : MessageTag := MTag (bs "draft/chathistory-end") None.

Definition batch_open (id what object : list Z) : list Z :=
  bs ":" ++ me_name ++ bs " BATCH +" ++ id ++ bs " " ++ what ++ bs " " ++ object.
Definition batch_close (id : list Z) : list Z := bs ":" ++ me_name ++ bs " BATCH -" ++ id.

(** The tag is put in front for the call and taken away again. *)
Definition history_send_result_line (mtags : list MessageTag) (line batchid : list Z) : list sent :=
  match batchid with [] => [Sent mtags line] | _ => [Sent (batch_tag batchid :: mtags) line] end.

(** The lines of a batch, its head among them: text and whether it continues the
    line before. *)
Definition batch_lines (head : HistoryLogLine) : list (list Z * Z) :=
  (l_line head, l_concat head) :: map (λ b, (b_line b, b_concat b)) (l_batch head).

Definition history_send_result_multiline (head : HistoryLogLine) (outer_batch object : list Z) (n : nat) : list sent * nat :=
  let inner_batch := batch_id n in
  ([Sent (batch_tag outer_batch :: l_mtags head) (batch_open inner_batch (bs "draft/multiline") object)] ++
   map (λ l, let line_mtags := batch_tag inner_batch :: duplicate_mtags_for_subsequent_lines (l_mtags head) in
             Sent (if l.2 =? 0 then line_mtags else CONCAT_TAG :: line_mtags) l.1) (batch_lines head) ++
   [Sent [batch_tag outer_batch] (batch_close inner_batch)], S n).

Definition history_send_result_multiline_fallback (head : HistoryLogLine) (outer_batch : list Z) : list sent :=
  history_send_result_line (l_mtags head) (l_line head) outer_batch ++
  let rest_mtags := duplicate_mtags_for_subsequent_lines (l_mtags head) in
  flat_map (λ b, history_send_result_line rest_mtags (b_line b) outer_batch) (l_batch head).

Fixpoint send_lines (has_multiline : bool) (batch object : list Z) (ls : list HistoryLogLine) (n : nat) : list sent * nat :=
  match ls with
  | [] => ([], n)
  | l :: r =>
      let '(out, n) := match l_batch l with
                       | [] => (history_send_result_line (l_mtags l) (l_line l) batch, n)
                       | _ => if has_multiline then history_send_result_multiline l batch object n
                              else (history_send_result_multiline_fallback l batch, n)
                       end in
      let '(rest, n) := send_lines has_multiline batch object r n in
      (out ++ rest, n)
  end.

Definition history_send_result (caps : Z) (r : HistoryResult) (end_of_pagination : Z) (n : nat) : list sent * nat :=
  if negb (can_receive_history caps) then ([], n)
  else
    let '(batch, first, n) :=
      if HasCapability caps "batch" then
        (batch_id n, [Sent (if end_of_pagination =? 0 then [] else [END_TAG])
                           (batch_open (batch_id n) (bs "chathistory") (r_object r))], S n)
      else ([], [], n) in
    let has_multiline := HasCapability caps "draft/multiline" && HasCapability caps "batch" in
    let '(lines, n) := send_lines has_multiline batch (r_object r) (r_log r) n in
    (first ++ lines ++ match batch with [] => [] | _ => [Sent [] (batch_close batch)] end, n).

(** ** What a client makes of it *)

(** A message: its tags and its lines. *)
Definition message : Type := list MessageTag * list (list Z * bool).

Definition of_batch (ms : list MessageTag) : option (list Z) := find_mtag ms (bs "batch") ≫= t_value.
Definition is_tag (name : string) (m : MessageTag) : Prop := t_name m = bs name.
#[local] Instance is_tag_dec name m : Decision (is_tag name m).
Proof. unfold is_tag. apply _. Defined.
Definition without (name : string) (ms : list MessageTag) : list MessageTag := filter (λ m, ¬ is_tag name m) ms.
Definition is_concat (ms : list MessageTag) : bool := bool_decide (Exists (is_tag "draft/multiline-concat") ms).

(** What is left of a text behind a prefix. *)
Fixpoint behind (p s : list Z) : option (list Z) :=
  match p, s with
  | [], _ => Some s
  | a :: p, b :: s => if a =? b then behind p s else None
  | _, [] => None
  end.
Definition opens (text : list Z) : option (list Z) :=
  take_while (λ c, negb (c =? SPACE_CH)) <$> behind (bs ":" ++ me_name ++ bs " BATCH +") text.

(** Inside the batch [outer]: the batch of lines that is open, if any, and the
    messages so far. *)
Record reader := Reader { r_open : option (list Z * message); r_got : list message }.
Definition read_line (outer : list Z) (x : reader) (e : sent) : option reader :=
  let '(Sent ms text) := e in
  match r_open x with
  | None =>
      if bool_decide (of_batch ms = Some outer) then
        match opens text with
        | Some id => Some (Reader (Some (id, (without "batch" ms, []))) (r_got x))
        | None => Some (Reader None (r_got x ++ [(without "batch" ms, [(text, false)])]))
        end
      else None
  | Some (id, (hm, ls)) =>
      if bool_decide (text = batch_close id) then Some (Reader None (r_got x ++ [(hm, ls)]))
      else if bool_decide (of_batch ms = Some id) then Some (Reader (Some (id, (hm, ls ++ [(text, is_concat ms)]))) (r_got x))
      else None
  end.
Fixpoint read_lines (outer : list Z) (x : reader) (es : list sent) : option reader :=
  match es with [] => Some x | e :: r => match read_line outer x e with Some x => read_lines outer x r | None => None end end.

(** A whole answer: the target of the batch, whether it is the end, and the
    messages. *)
Definition read_answer (es : list sent) : option (list Z * bool * list message) :=
  match es with
  | Sent ms text :: r =>
      match opens text with
      | None => None
      | Some id =>
          match behind (batch_open id (bs "chathistory") []) text, last r with
          | Some object, Some (Sent [] t) =>
              if bool_decide (t = batch_close id) then
                match read_lines id (Reader None []) (removelast r) with
                | Some (Reader None got) => Some (object, bool_decide (ms = [END_TAG]), got)
                | _ => None
                end
              else None
          | _, _ => None
          end
      end
  | [] => None
  end.

(** The messages a line of the history stands for: itself, a message of several
    lines, or a message per line. *)
Definition messages (has_multiline : bool) (l : HistoryLogLine) : list message :=
  match l_batch l with
  | [] => [(l_mtags l, [(l_line l, false)])]
  | _ => if has_multiline then [(l_mtags l, map (λ x, (x.1, negb (x.2 =? 0))) (batch_lines l))]
         else (l_mtags l, [(l_line l, false)]) ::
              map (λ b, (duplicate_mtags_for_subsequent_lines (l_mtags l), [(b_line b, false)])) (l_batch l)
  end.

(** The tags that are added are not there yet, and no text is a BATCH command of
    this server. *)
Definition plain_text (text : list Z) : Prop := behind (bs ":" ++ me_name ++ bs " BATCH ") text = None.
Record sendable (l : HistoryLogLine) : Prop := Sendable {
  sd_batch : Forall (λ m, ¬ is_tag "batch" m) (l_mtags l);
  sd_concat : Forall (λ m, ¬ is_tag "draft/multiline-concat" m) (l_mtags l);
  sd_texts : Forall (λ x, plain_text x.1) (batch_lines l)
}.
Hypothesis ids_ok : ∀ n, batch_id n ≠ [] ∧ SPACE_CH ∉ batch_id n.

Lemma behind_app p s : behind p (p ++ s) = Some s.
Proof. induction p as [|a p IH]; [done|]. simpl. by rewrite Z.eqb_refl. Qed.
Lemma behind_shorter p q s : behind p s = None → behind (p ++ q) s = None.
Proof.
  revert s. induction p as [|a p IH]; intros s; [done|]. destruct s as [|b s]; [done|]. simpl. destruct (a =? b); [apply IH|done].
Qed.

Lemma word_of id s : SPACE_CH ∉ id → take_while (λ c, negb (c =? SPACE_CH)) (id ++ SPACE_CH :: s) = id.
Proof.
  intros Hs. induction id as [|c id IH]; [done|]. apply not_elem_of_cons in Hs as [Hc Hs]. simpl.
  destruct (Z.eqb_spec c SPACE_CH); [by subst|]. simpl. by rewrite IH.
Qed.
Lemma open_parts id what object :
  batch_open id what object = (bs ":" ++ me_name ++ bs " BATCH +") ++ id ++ bs " " ++ what ++ bs " " ++ object.
Proof. unfold batch_open. by rewrite <-!app_assoc. Qed.
Lemma close_parts id : batch_close id = (bs ":" ++ me_name ++ bs " BATCH ") ++ 45 :: id.
Proof. unfold batch_close. by rewrite <-!app_assoc. Qed.
Lemma opens_open n what object : opens (batch_open (batch_id n) what object) = Some (batch_id n).
Proof.
  rewrite open_parts. unfold opens. rewrite behind_app. simpl. f_equal.
  apply word_of, ids_ok.
Qed.
Lemma plain_no_command t id : plain_text t → opens t = None ∧ t ≠ batch_close id.
Proof.
  intros Hp. unfold plain_text in Hp. split.
  - unfold opens. change (bs " BATCH +") with (bs " BATCH " ++ [43]). rewrite (app_assoc me_name), (app_assoc (bs ":")), behind_shorter; done.
  - intros ->. by rewrite close_parts, behind_app in Hp.
Qed.

Lemma without_batch id ms : Forall (λ m, ¬ is_tag "batch" m) ms → without "batch" (batch_tag id :: ms) = ms.
Proof. intros H. unfold without. rewrite filter_cons, decide_False by (intros Hn; by apply Hn). by apply filter_all. Qed.

Lemma read_lines_app outer x es1 es2 :
  read_lines outer x (es1 ++ es2) = match read_lines outer x es1 with Some x => read_lines outer x es2 | None => None end.
Proof. revert x. induction es1 as [|e es1 IH]; intros x; [done|]. simpl. by destruct (read_line _ _ _). Qed.

(** Lines that are sent one by one. *)
Lemma read_single outer got ms text :
  outer ≠ [] → Forall (λ m, ¬ is_tag "batch" m) ms → plain_text text →
  read_lines outer (Reader None got) (history_send_result_line ms text outer) = Some (Reader None (got ++ [(ms, [(text, false)])])).
Proof.
  intros Ho Hm Hp. unfold history_send_result_line. destruct outer as [|c outer]; [done|]. cbn [read_lines read_line r_open r_got].
  rewrite bool_decide_true by done. rewrite (proj1 (plain_no_command text [] Hp)). by rewrite without_batch.
Qed.

Lemma subsequent_tags (P : MessageTag → Prop) ms : Forall P ms → Forall P (duplicate_mtags_for_subsequent_lines ms).
Proof. apply sublist_Forall, sublist_filter. Qed.

Lemma read_each outer got ms bl :
  outer ≠ [] → Forall (λ m, ¬ is_tag "batch" m) ms → Forall (λ b, plain_text (b_line b)) bl →
  read_lines outer (Reader None got) (flat_map (λ b, history_send_result_line ms (b_line b) outer) bl) =
  Some (Reader None (got ++ map (λ b, (ms, [(b_line b, false)])) bl)).
Proof.
  intros Ho Hm Hb. revert got. induction Hb as [|b bl Hp _ IH]; intros got; cbn [flat_map map]; [by rewrite app_nil_r|].
  rewrite read_lines_app, read_single by done. rewrite IH. by rewrite <-app_assoc.
Qed.

Lemma concat_flag (c : Z) inner ms : Forall (λ m, ¬ is_tag "draft/multiline-concat" m) ms →
  let tags := if c =? 0 then batch_tag inner :: ms else CONCAT_TAG :: batch_tag inner :: ms in
  of_batch tags = Some inner ∧ is_concat tags = negb (c =? 0).
Proof.
  intros Hm. assert (¬ Exists (is_tag "draft/multiline-concat") (batch_tag inner :: ms)) as Hn.
  { rewrite Exists_cons. intros [?|He]; [done|]. apply Exists_exists in He as (m & Hi & ?). rewrite Forall_forall in Hm. by apply (Hm m). }
  destruct (c =? 0); cbv zeta; (split; [done|]); unfold is_concat; [by apply bool_decide_false|].
  apply bool_decide_true. by left.
Qed.

(** The lines of a batch while it is open. *)
Lemma read_batch outer got inner hm ms ls xs :
  Forall (λ m, ¬ is_tag "draft/multiline-concat" m) ms → Forall (λ x : list Z * Z, plain_text x.1) xs →
  read_lines outer (Reader (Some (inner, (hm, ls))) got)
    (map (λ l : list Z * Z, Sent (if l.2 =? 0 then batch_tag inner :: ms else CONCAT_TAG :: batch_tag inner :: ms) l.1) xs) =
  Some (Reader (Some (inner, (hm, ls ++ map (λ x, (x.1, negb (x.2 =? 0))) xs))) got).
Proof.
  intros Hm Hx. revert ls. induction Hx as [|x xs Hp _ IH]; intros ls; cbn [map]; [by rewrite app_nil_r|].
  destruct (concat_flag x.2 inner ms Hm) as [E1 E2]. cbn [read_lines read_line r_open r_got].
  rewrite bool_decide_false by apply (plain_no_command _ _ Hp). rewrite E1, bool_decide_true by done. rewrite E2, IH.
  by rewrite <-app_assoc.
Qed.

Lemma read_message outer got (hm : bool) l object n :
  outer ≠ [] → sendable l →
  let '(out, _) := match l_batch l with
                   | [] => (history_send_result_line (l_mtags l) (l_line l) outer, n)
                   | _ => if hm then history_send_result_multiline l outer object n
                          else (history_send_result_multiline_fallback l outer, n)
                   end in
  read_lines outer (Reader None got) out = Some (Reader None (got ++ messages hm l)).
Proof.
  intros Ho [Hb Hc Ht]. pose proof Ht as [Ht1 Ht2]%Forall_cons. unfold messages.
  destruct (l_batch l) as [|b bl] eqn:El; [by apply read_single|]. destruct hm.
  - unfold history_send_result_multiline. cbn [app read_lines read_line r_open r_got]. rewrite bool_decide_true by done.
    rewrite opens_open, without_batch by done. rewrite read_lines_app.
    rewrite (read_batch outer got (batch_id n) (l_mtags l) _ []); [|by apply subsequent_tags|done].
    cbn [app read_lines read_line r_open r_got]. by rewrite bool_decide_true.
  - unfold history_send_result_multiline_fallback. rewrite El, read_lines_app, read_single by done.
    rewrite read_each; [by rewrite <-app_assoc|done|by apply subsequent_tags|].
    by rewrite Forall_map in Ht2.
Qed.

Lemma read_sent outer got hm ls object n :
  outer ≠ [] → Forall sendable ls →
  read_lines outer (Reader None got) (send_lines hm outer object ls n).1 = Some (Reader None (got ++ flat_map (messages hm) ls)).
Proof.
  intros Ho Hs. revert got n. induction Hs as [|l ls Hl _ IH]; intros got n; cbn [send_lines flat_map]; [by rewrite app_nil_r|].
  pose proof (read_message outer got hm l object n Ho Hl) as H.
  destruct (match l_batch l with [] => _ | _ => _ end) as [out n']. specialize (IH (got ++ messages hm l) n').
  destruct (send_lines hm outer object ls n') as [rest n'']. cbn [fst] in *. rewrite read_lines_app, H, IH. by rewrite <-app_assoc.
Qed.

(** Without batches. *)
Lemma send_plain object ls n :
  (send_lines false [] object ls n).1 =
  flat_map (λ l, map (λ m : message, Sent m.1 (default [] (fst <$> head m.2))) (messages false l)) ls.
Proof.
  induction ls as [|l ls IH]; [done|]. cbn [send_lines flat_map]. rewrite <-IH. unfold messages.
  destruct (l_batch l) as [|b bl] eqn:El; destruct (send_lines false [] object ls n); [done|].
  unfold history_send_result_multiline_fallback. rewrite El. cbn [fst]. cbn [history_send_result_line map app head fmap option_fmap option_map default].
  f_equal. f_equal. f_equal. rewrite map_map. simpl. f_equal.
Qed.

(** With batches. *)
Lemma send_batch caps r e n :
  Forall sendable (r_log r) → can_receive_history caps = true → HasCapability caps "batch" = true →
  read_answer (history_send_result caps r e n).1 =
  Some (r_object r, negb (e =? 0), flat_map (messages (HasCapability caps "draft/multiline")) (r_log r)).
Proof.
  intros Hs Hr Hb. unfold history_send_result. rewrite Hr, Hb, andb_true_r. cbn [negb]. set (hm := HasCapability caps "draft/multiline").
  destruct (ids_ok n) as [Hn _]. pose proof (read_sent (batch_id n) [] hm (r_log r) (r_object r) (S n) Hn Hs) as H.
  destruct (send_lines hm (batch_id n) (r_object r) (r_log r) (S n)) as [lines n']. cbn [fst app] in *.
  unfold read_answer. rewrite opens_open.
  assert (behind (batch_open (batch_id n) (bs "chathistory") []) (batch_open (batch_id n) (bs "chathistory") (r_object r)) = Some (r_object r)) as ->.
  { replace (batch_open (batch_id n) (bs "chathistory") (r_object r))
      with (batch_open (batch_id n) (bs "chathistory") [] ++ r_object r); [apply behind_app|].
    unfold batch_open. by rewrite <-!app_assoc. }
  destruct (batch_id n) as [|c id] eqn:Ei; [done|]. rewrite last_snoc, removelast_last, bool_decide_true by done.
  rewrite H. cbn [app]. by destruct (e =? 0).
Qed.

(** C10.  A client gets what was found.  The answer to a request is a batch that names its target
    and says whether there is more; taken apart by the rules of batches it holds exactly
    the lines of the result, in order and with their tags, a multiline message as one
    message with its lines and their concatenation marks if the client knows those and as
    one message per line otherwise.  Clients without batches get the lines as they are,
    and clients that would not see the time of a line get nothing. *)
Theorem history_send_correct caps r e n :
  Forall sendable (r_log r) →
  let hm := HasCapability caps "draft/multiline" && HasCapability caps "batch" in
  let out := (history_send_result caps r e n).1 in
  if negb (can_receive_history caps) then out = []
  else if HasCapability caps "batch" then
    read_answer out = Some (r_object r, negb (e =? 0), flat_map (messages hm) (r_log r))
  else out = flat_map (λ l, map (λ m : message, Sent m.1 (default [] (fst <$> head m.2))) (messages false l)) (r_log r).
Proof.
  intros Hs. cbv zeta. destruct (can_receive_history caps) eqn:Hr; cbn [negb]; [|unfold history_send_result; by rewrite Hr].
  destruct (HasCapability caps "batch") eqn:Hb; [rewrite andb_true_r; by apply send_batch|].
  unfold history_send_result. rewrite Hr, Hb, andb_false_r. cbn [negb]. pose proof (send_plain (r_object r) (r_log r) n) as H.
  destruct (send_lines false [] (r_object r) (r_log r) n) as [lines n']. cbn [fst app] in *. by rewrite app_nil_r.
Qed.
End Sending.

(** ** Two modules, one of them unloaded in a rehash *)

(** A backend that counts its calls. *)
Definition tally (m : nat) : hooks nat :=
  Hooks (Some (Fptr m (λ _ _ _ w, Ok (w + m)%nat))) None (Some (Fptr m (λ _ _ w, Ok (w, None))))
    (Some (Fptr m (λ _ _ w, Ok (w, Z.of_nat m, 0)))) (Some (Fptr m (λ _ w, Ok (w + m)%nat)))
    (Some (Fptr m (λ _ _ _ w, Ok (w + m)%nat))).
Definition register (m : nat) (name : string) (g : backends nat) : backends nat :=
  (HistoryBackendAdd m (BackendInfo (bs name) (tally m)) (load_module m g)).1.

Lemma register_breach m name g : breach g → m ∉ mapped g → cstr (bs name) → breach (register m name g).
Proof.
  intros Hg Hm Hn. apply breach_add; [by apply breach_load|cbn; set_solver| |done].
  constructor; intros f; by intros [= <-].
Qed.

Lemma history_api_refines_services_witness :
  ∃ g, unload_module true 5 (register 7 "two" (register 5 "one" (Backends [] ∅ ∅ ∅ 0))) = Ok g ∧
    length (historybackends g) = 2%nat ∧ history_add (bs "#c") [] (bs "x") g 0%nat = Ok 7%nat.
Proof.
  assert (breach (register 7 "two" (register 5 "one" (Backends [] ∅ ∅ ∅ 0)))) as Hr.
  { apply register_breach; [apply register_breach; [apply breach_init|set_solver|by apply (bool_decide_unpack _)]|
      |by apply (bool_decide_unpack _)]. apply (bool_decide_unpack _). vm_compute. reflexivity. }
  destruct (unload_ok true 5 _ (breach_ok _ Hr)) as (g & E & _). exists g. split; [exact E|].
  pose proof (breach_unload _ _ _ _ Hr E) as Hg. destruct (history_api_refines_services g Hg) as [H _]. rewrite H.
  vm_compute in E. injection E as <-. split; vm_compute; reflexivity.
Defined.

Definition two_lines : HistoryLogLine :=
  Line [Batch (bs ":bob PRIVMSG #c :more") 1 []] 2 41 0 5 (bs "A") (Some (bs "t")) [MTag (bs "msgid") (Some (bs "A"))]
    (bs ":bob PRIVMSG #c :some").

Lemma history_send_correct_witness :
  read_answer (bs "irc.test") (history_send_result (bs "irc.test") [(bs "server-time", 2); (bs "batch", 4); (bs "draft/multiline", 8)] []
      (λ n, repeat 97 (S n)) 14 (Result (bs "#c") [two_lines] 2 41 1) 1 0).1 =
  Some (bs "#c", true, [([MTag (bs "msgid") (Some (bs "A"))], [(bs ":bob PRIVMSG #c :some", false); (bs ":bob PRIVMSG #c :more", true)])]).
Proof.
  refine (history_send_correct (bs "irc.test") [(bs "server-time", 2); (bs "batch", 4); (bs "draft/multiline", 8)] [] (λ n, repeat 97 (S n))
    _ 14 (Result (bs "#c") [two_lines] 2 41 1) 1 0 _).
  - intros n. split; [done|]. by intros ?%list_elem_of_In%repeat_spec.
  - repeat constructor; cbn; try (intros ?; discriminate); by vm_compute.
Defined.
