(* ===== verification/HistoryMode.v ===== *)
(** * Channel mode +H (src/modules/chanmodes/history.c)

    The parameter [lines:time] of the mode, the limits of the configuration, what is
    recorded when somebody speaks in a channel, what is played back when somebody
    joins, and how the limits follow the mode and the registration of a channel.

    A parameter that was accepted is stored, shown and sent to other servers in one
    form, within the limits; two servers that merge their settings agree; and every
    line that is recorded can be told apart from a command of the server. *)

From stdpp Require Import base tactics list numbers strings gmap.
From Stdlib Require Import ZArith Lia.
From S2P Require Import Prelude Chars Support MessageTags ConfPre Times HistoryLog HistoryRequests HistoryApi.

Local Open Scope Z_scope.

Record ConfigHistoryExt := HistExt { x_lines : Z; x_time : Z }.
Record histcfg := HistCfg {
  playback_on_join : ConfigHistoryExt;
  max_storage_per_channel_registered : ConfigHistoryExt;
  max_storage_per_channel_unregistered : ConfigHistoryExt
}.
Record HistoryChanMode := ChanMode { max_lines : Z; max_time : Z }.

Definition init_config : histcfg := HistCfg (HistExt 15 86400) (HistExt 5000 (86400 * 31)) (HistExt 200 (86400 * 31)).

(** ** The block set::history *)

(** [lines] and [time] of a block; [CheckNull] needs a value. *)
Definition value_of (ce : ConfigEntry) : option (list Z) :=
  match ce_value ce with None | Some [] => None | v => v end.

(** One entry of a block with [lines] and [time]: the bounds of the lines, the least
    time, and the errors so far with what was understood. *)
Definition test_ext (lo : Z) (hi : option Z) (tmin : Z) (x : res (Z * ConfigHistoryExt)) (ce : ConfigEntry) : res (Z * ConfigHistoryExt) :=
  let! (errors, e) := x in
  if strcmp (ce_name ce) (bs "lines") =? 0 then
    match value_of ce with
    | None => Ok (errors + 1, e)
    | Some s =>
        let v := atoi s in
        if (v <? lo) || match hi with Some hi => hi <? v | None => false end then Ok (errors + 1, e)
        else Ok (errors, HistExt v (x_time e))
    end
  else if strcmp (ce_name ce) (bs "time") =? 0 then
    match value_of ce with
    | None => Ok (errors + 1, e)
    | Some s =>
        let! v := config_checkval (Some s) CFG_TIME in
        if v <? tmin then Ok (errors + 1, e) else Ok (errors, HistExt (x_lines e) v)
    end
  else Ok (errors + 1, e).
Definition run_ext (x : res ConfigHistoryExt) (ce : ConfigEntry) : res ConfigHistoryExt :=
  let! e := x in
  if strcmp (ce_name ce) (bs "lines") =? 0 then
    match ce_value ce with Some s => Ok (HistExt (atoi s) (x_time e)) | None => UB end
  else if strcmp (ce_name ce) (bs "time") =? 0 then
    let! v := config_checkval (ce_value ce) CFG_TIME in Ok (HistExt (x_lines e) v)
  else Ok e.

(** The blocks below [max-storage-per-channel]. *)
Definition test_storage (x : res (Z * histcfg)) (ce : ConfigEntry) : res (Z * histcfg) :=
  let! (errors, c) := x in
  if strcmp (ce_name ce) (bs "registered") =? 0 then
    let! (errors, e) := foldl (test_ext 1 None 1) (Ok (errors, max_storage_per_channel_registered c)) (ce_items ce) in
    Ok (errors, HistCfg (playback_on_join c) e (max_storage_per_channel_unregistered c))
  else if strcmp (ce_name ce) (bs "unregistered") =? 0 then
    let! (errors, e) := foldl (test_ext 1 None 1) (Ok (errors, max_storage_per_channel_unregistered c)) (ce_items ce) in
    Ok (errors, HistCfg (playback_on_join c) (max_storage_per_channel_registered c) e)
  else Ok (errors + 1, c).
Definition run_storage (x : res histcfg) (ce : ConfigEntry) : res histcfg :=
  let! c := x in
  if strcmp (ce_name ce) (bs "registered") =? 0 then
    let! e := foldl run_ext (Ok (max_storage_per_channel_registered c)) (ce_items ce) in
    Ok (HistCfg (playback_on_join c) e (max_storage_per_channel_unregistered c))
  else if strcmp (ce_name ce) (bs "unregistered") =? 0 then
    let! e := foldl run_ext (Ok (max_storage_per_channel_unregistered c)) (ce_items ce) in
    Ok (HistCfg (playback_on_join c) (max_storage_per_channel_registered c) e)
  else Ok c.

Section Config.
(** What other modules say to an entry of set::history::channel: the errors they
    report, or nothing if none of them knows it. *)
Variable other_modules : ConfigEntry → option Z.

Definition test_channel (x : res (Z * histcfg)) (ce : ConfigEntry) : res (Z * histcfg) :=
  let! (errors, c) := x in
  if strcmp (ce_name ce) (bs "playback-on-join") =? 0 then
    let! (errors, e) := foldl (test_ext 0 (Some 1000) 0) (Ok (errors, playback_on_join c)) (ce_items ce) in
    Ok (errors, HistCfg e (max_storage_per_channel_registered c) (max_storage_per_channel_unregistered c))
  else if strcmp (ce_name ce) (bs "max-storage-per-channel") =? 0 then foldl test_storage (Ok (errors, c)) (ce_items ce)
  else Ok (errors + match other_modules ce with Some n => n | None => 1 end, c).

(** The errors, and the settings that were understood. *)
Definition history_config_test (ce : ConfigEntry) (c : histcfg) : res (option (Z * histcfg)) :=
  if negb (strcmp (ce_name ce) (bs "history") =? 0) then Ok None
  else
    let! r := foldl (λ x cep,
        let! (errors, c) := x in
        if strcmp (ce_name cep) (bs "channel") =? 0 then foldl test_channel (Ok (errors, c)) (ce_items cep)
        else Ok (errors + 1, c)) (Ok (0, c)) (ce_items ce) in
    Ok (Some r).
End Config.

Definition run_channel (x : res histcfg) (ce : ConfigEntry) : res histcfg :=
  let! c := x in
  if strcmp (ce_name ce) (bs "playback-on-join") =? 0 then
    let! e := foldl run_ext (Ok (playback_on_join c)) (ce_items ce) in
    Ok (HistCfg e (max_storage_per_channel_registered c) (max_storage_per_channel_unregistered c))
  else if strcmp (ce_name ce) (bs "max-storage-per-channel") =? 0 then foldl run_storage (Ok c) (ce_items ce)
  else Ok c.
Definition history_config_run (ce : ConfigEntry) (c : histcfg) : res histcfg :=
  if negb (strcmp (ce_name ce) (bs "history") =? 0) then Ok c
  else foldl (λ x cep, let! c := x in
                       if strcmp (ce_name cep) (bs "channel") =? 0 then foldl run_channel (Ok c) (ce_items cep) else Ok c)
         (Ok c) (ce_items ce).

(** ** The parameter *)

Section Mode.
Variable cfg : histcfg.

(** A channel may be NULL; of one that is not it matters whether it has mode +r. *)
Definition history_parse_chanmode (channel : option bool) (param : list Z) : res (option (Z * Z)) :=
  let buf := take 63 param in
  match drop_while (λ c, negb (c =? COLON)) buf with
  | [] => Ok None
  | _ :: p =>
      let lines := atoi (take_while (λ c, negb (c =? COLON)) buf) in
      let! t := if forallb isdigit p then let! _ := require (is_int (atoi p * 60)) in Ok (atoi p * 60)
                else config_checkval (Some p) CFG_TIME in
      if lines <? 1 then Ok None
      else if t <? 60 then Ok None
      else
        let limit := match channel with
                     | None | Some true => max_storage_per_channel_registered cfg
                     | Some false => max_storage_per_channel_unregistered cfg
                     end in
        Ok (Some (if x_lines limit <? lines then x_lines limit else lines, if x_time limit <? t then x_time limit else t))
  end.

Inductive exchk := EX_ALLOW | EX_DENY.
Inductive exchk_type := EXCHK_ACCESS | EXCHK_ACCESS_ERR | EXCHK_PARAM | EXCHK_OTHER.
(** [is_chanop]: the client is a user with one of the modes o, a and q.  The answer,
    and the numeric that is sent. *)
Definition history_chanmode_is_ok (is_chanop : bool) (channel : option bool) (param : list Z) (type : exchk_type)
  : res (exchk * option Z) :=
  match type with
  | EXCHK_ACCESS => Ok (if is_chanop then EX_ALLOW else EX_DENY, None)
  | EXCHK_ACCESS_ERR => Ok (if is_chanop then (EX_ALLOW, None) else (EX_DENY, Some 460))
  | EXCHK_PARAM =>
      let! r := history_parse_chanmode channel param in
      Ok (match r with None => (EX_DENY, Some 974) | Some _ => (EX_ALLOW, None) end)
  | EXCHK_OTHER => Ok (EX_DENY, None)
  end.

Definition history_chanmode_helper (lines t : Z) : list Z :=
  take 63 (printf_d 0 lines ++ bs ":" ++
    if Z.rem t 86400 =? 0 then printf_d 0 (Z.quot t 86400) ++ bs "d"
    else if Z.rem t 3600 =? 0 then printf_d 0 (Z.quot t 3600) ++ bs "h"
    else printf_d 0 (Z.quot t 60) ++ bs "m").

Definition history_chanmode_conv_param (param : list Z) (channel : option bool) : res (option (list Z)) :=
  let! r := history_parse_chanmode channel param in
  Ok (match r with None => None | Some (lines, t) => Some (history_chanmode_helper lines t) end).
Definition history_chanmode_put_param (param : list Z) : res (option HistoryChanMode) :=
  let! r := history_parse_chanmode None param in
  Ok (match r with None => None | Some (lines, t) => Some (ChanMode lines t) end).
Definition history_chanmode_get_param (h : option HistoryChanMode) : option (list Z) :=
  match h with None => None | Some h => Some (history_chanmode_helper (max_lines h) (max_time h)) end.
Definition history_chanmode_dup_struct (r : HistoryChanMode) : HistoryChanMode := ChanMode (max_lines r) (max_time r).

Inductive exsj := EXSJ_SAME | EXSJ_MERGE.
Definition history_chanmode_sjoin_check (our their : HistoryChanMode) : exsj * HistoryChanMode :=
  if (max_lines our =? max_lines their) && (max_time our =? max_time their) then (EXSJ_SAME, our)
  else (EXSJ_MERGE, ChanMode (Z.max (max_lines our) (max_lines their)) (Z.max (max_time our) (max_time their))).
End Mode.

(** ** Recording *)

Inductive SendType := SEND_TYPE_PRIVMSG | SEND_TYPE_NOTICE | SEND_TYPE_TAGMSG.
Definition sendtype_to_cmd (t : SendType) : list Z :=
  match t with SEND_TYPE_PRIVMSG => bs "PRIVMSG" | SEND_TYPE_NOTICE => bs "NOTICE" | SEND_TYPE_TAGMSG => bs "TAGMSG" end.

(** Who speaks: the name, and for a user the user name and the visible host. *)
Record speaker := Speaker { sp_name : list Z; sp_user : option (list Z * list Z) }.
Definition source_of (c : speaker) : list Z :=
  match sp_user c with
  | Some (username, host) => take 63 (sp_name c ++ bs "!" ++ username ++ bs "@" ++ host)
  | None => take 63 (sp_name c)
  end.

(** A CTCP that is not an ACTION. *)
Definition is_ctcp (text : option (list Z)) : bool :=
  match text with
  | Some (c :: r) => (c =? 1) && negb (bool_decide (take 6 r = bs "ACTION"))
  | _ => false
  end.

Section Record.
Context {W : Type} (g : backends W).

Definition history_chanmsg (inhibit enabled : bool) (c : speaker) (channel : list Z) (prefix : option (list Z))
    (mtags : list MessageTag) (text : option (list Z)) (sendtype : SendType) (w : W) : res W :=
  if inhibit then Ok w
  else if negb enabled then Ok w
  else if is_ctcp text then Ok w
  else
    match prefix with
    | Some _ => Ok w
    | None =>
        let source := source_of c in
        let buf := match sendtype with
                   | SEND_TYPE_TAGMSG => take 511 (bs ":" ++ source ++ bs " TAGMSG " ++ channel)
                   | _ => take 511 (bs ":" ++ source ++ bs " " ++ sendtype_to_cmd sendtype ++ bs " " ++ channel ++ bs " :" ++ default [] text)
                   end in
        history_add channel mtags buf g w
    end.

Definition history_chanmsg_multiline (enabled : bool) (c : speaker) (channel : list Z) (member_modes : option (list Z))
    (mtags : list MessageTag) (lines : list MLine) (sendtype : SendType) (w : W) : res W :=
  if negb enabled then Ok w
  else
    match sendtype, member_modes with
    | SEND_TYPE_TAGMSG, _ => Ok w
    | _, Some _ => Ok w
    | _, None =>
        if match lines with l :: _ => is_ctcp (ml_text l) | [] => false end then Ok w
        else history_add_multiline channel mtags (source_of c) (sendtype_to_cmd sendtype) channel lines g w
    end.

(** ** The limits follow the mode *)

Definition history_chanmode_change (channel modebuf : list Z) (settings : option HistoryChanMode) (w : W) : res W :=
  if negb (bool_decide (72 ∈ modebuf)) then Ok w
  else
    match settings with
    | Some x => history_set_limit channel (max_lines x) (max_time x) g w
    | None => history_destroy channel g w
    end.

Definition history_channel_destroy (channel : list Z) (should_destroy : bool) (w : W) : res W :=
  if should_destroy then history_destroy channel g w else Ok w.

(** What [override_mode] does behind the command, when the channel lost its mode +r:
    the settings, the parameter that is sent, and the backends. *)
Definition override_mode_after (cfg : histcfg) (had_r : bool) (channel : list Z) (has_r enabled : bool)
    (settings : option HistoryChanMode) (w : W) : res (option HistoryChanMode * option (list Z) * W) :=
  if had_r && negb has_r && enabled then
    match settings with
    | None => Ok (None, None, w)
    | Some x =>
        let limit := max_storage_per_channel_unregistered cfg in
        let lines := if x_lines limit <? max_lines x then x_lines limit else max_lines x in
        let time := if x_time limit <? max_time x then x_time limit else max_time x in
        let y := ChanMode lines time in
        if (x_lines limit <? max_lines x) || (x_time limit <? max_time x) then
          let params := history_chanmode_helper lines time in
          let! w := history_chanmode_change channel (bs "+H") (Some y) w in
          Ok (Some y, Some params, w)
        else Ok (Some y, None, w)
    end
  else Ok (settings, None, w).

(** ** Playback *)

Section Playback.
Variable me_name : list Z.
Variable clicaps : list (list Z * Z).
Variable mtaghandlers : list MessageTagHandler.
Variable batch_id : nat → list Z.

(** [strchr(l->line, ' ')] and what is behind it. *)
Definition is_tagmsg (line : list Z) : bool :=
  match drop_while (λ c, negb (c =? SPACE_CH)) line with
  | [] => false
  | _ :: p => bool_decide (take 7 p = bs "TAGMSG ")
  end.

(** The counters go down by one line for each. *)
Definition strip_tagmsg (r : HistoryResult) : HistoryResult :=
  let gone := filter (λ l, is_tagmsg (l_line l) = true) (r_log r) in
  Result (r_object r) (filter (λ l, is_tagmsg (l_line l) = false) (r_log r)) (r_num_lines r - Z.of_nat (length gone))
    (r_num_bytes r - foldr (λ l n, l_num_bytes l + n) 0 gone) (r_reached_end r).

Definition history_join (cfg : histcfg) (enabled my_user : bool) (caps : Z) (channel : list Z) (w : W) (n : nat)
  : res (W * nat * list sent) :=
  let p := playback_on_join cfg in
  if negb enabled || (x_lines p =? 0) || (x_time p =? 0) then Ok (w, n, [])
  else if HasCapability clicaps caps "draft/chathistory" then Ok (w, n, [])
  else if my_user && can_receive_history clicaps caps then
    let! (w, x) := history_request channel (Filter HFC_SIMPLE (x_lines p) (x_time p) None None None None None 0) g w in
    match x with
    | None => Ok (w, n, [])
    | Some r =>
        let '(out, n) := history_send_result me_name clicaps mtaghandlers batch_id caps (strip_tagmsg r) 0 n in
        Ok (w, n, out)
    end
  else Ok (w, n, []).
End Playback.
End Record.

(** ** The parameter is read back *)

Section Conversion.
Variable cfg : histcfg.

(** Channels that are not registered get no more than those that are, and a minute
    at least. *)
Record limits_ok : Prop := LimitsOk {
  lm_lines : 1 ≤ x_lines (max_storage_per_channel_unregistered cfg) ≤ x_lines (max_storage_per_channel_registered cfg);
  lm_int : x_lines (max_storage_per_channel_registered cfg) < 2 ^ 31;
  lm_time : 60 ≤ x_time (max_storage_per_channel_unregistered cfg) ≤ x_time (max_storage_per_channel_registered cfg);
  lm_time_int : x_time (max_storage_per_channel_registered cfg) < 2 ^ 31
}.
Definition limit_of (channel : option bool) : ConfigHistoryExt :=
  match channel with
  | None | Some true => max_storage_per_channel_registered cfg
  | Some false => max_storage_per_channel_unregistered cfg
  end.

(** The unit that [history_chanmode_helper] takes, and the whole minutes of a time. *)
Definition time_unit (t : Z) : Z * Z :=
  if t mod 86400 =? 0 then (t / 86400, 100) else if t mod 3600 =? 0 then (t / 3600, 104) else (t / 60, 109).
Definition minutes (t : Z) : Z := t - t mod 60.

Lemma number_text v : 0 ≤ v < 2 ^ 31 →
  atoi (printf_d 0 v) = v ∧ Natcmp.digits (printf_d 0 v) ∧ (length (printf_d 0 v) ≤ 21)%nat.
Proof.
  intros Hv. destruct (unit_number v Hv) as (w & E & Hw & Hw2). rewrite E. split_and!; [by apply atoi_digits; [..|lia]|apply digits_n_digits|].
  rewrite <-E. unfold printf_d. destruct (Z.ltb_spec v 0); [lia|]. rewrite digits_n_length.
  pose proof (ndigits_bound 20 v). lia.
Qed.

Lemma time_unit_ok t : 60 ≤ t < 2 ^ 31 →
  unit_ok time_factor (time_unit t) ∧ (time_unit t).1 * time_factor (time_unit t).2 = minutes t ∧ isdigit (time_unit t).2 = false.
Proof.
  intros Ht. unfold time_unit, minutes, unit_ok, is_int. rewrite andb_true_iff, Z.leb_le, Z.ltb_lt.
  destruct (Z.eqb_spec (t mod 86400) 0) as [E1|E1]; [|destruct (Z.eqb_spec (t mod 3600) 0) as [E2|E2]];
    cbn [fst snd]; try (change (time_factor 100) with 86400); try (change (time_factor 104) with 3600);
    try (change (time_factor 109) with 60); split_and!; try done; try (Z.to_euclidean_division_equations; lia).
Qed.

Lemma helper_text lines t : 1 ≤ lines < 2 ^ 31 → 60 ≤ t < 2 ^ 31 →
  history_chanmode_helper lines t = printf_d 0 lines ++ bs ":" ++ unit_text (time_unit t).
Proof.
  intros Hl Ht. unfold history_chanmode_helper. rewrite !Z.rem_mod_nonneg, !Z.quot_div_nonneg by lia.
  destruct (time_unit_ok t Ht) as ((Hv & _) & _). destruct (number_text lines ltac:(lia)) as (_ & _ & L1).
  destruct (number_text (time_unit t).1 Hv) as (_ & _ & L2).
  replace (if t mod 86400 =? 0 then _ else _) with (unit_text (time_unit t)).
  - apply take_ge. rewrite !length_app. unfold unit_text. rewrite length_app. simpl in *. lia.
  - unfold time_unit, unit_text. by destruct (_ =? 0); [|destruct (_ =? 0)].
Qed.

Lemma parse_text channel lines u :
  1 ≤ lines < 2 ^ 31 → unit_ok time_factor u → isdigit u.2 = false → 60 ≤ u.1 * time_factor u.2 →
  history_parse_chanmode cfg channel (printf_d 0 lines ++ bs ":" ++ unit_text u) =
  Ok (Some (Z.min lines (x_lines (limit_of channel)), Z.min (u.1 * time_factor u.2) (x_time (limit_of channel)))).
Proof.
  intros Hl Hu Hd Ht. destruct (number_text lines ltac:(lia)) as (A1 & D1 & L1).
  destruct (number_text u.1 ltac:(apply Hu)) as (_ & D2 & L2). unfold history_parse_chanmode.
  rewrite take_ge by (rewrite !length_app; unfold unit_text; rewrite length_app; simpl in *; lia).
  assert (Forall (λ c, negb (c =? COLON) = true) (printf_d 0 lines)) as Hc.
  { eapply Forall_impl; [exact D1|]. intros c Hc. apply negb_true_iff, Z.eqb_neq. simpl in Hc. lia. }
  rewrite drop_while_app, take_while_app by done. change (bs ":" ++ unit_text u) with (COLON :: unit_text u).
  cbn [drop_while take_while]. rewrite Z.eqb_refl. cbn [negb]. rewrite app_nil_r, A1.
  assert (forallb isdigit (unit_text u) = false) as ->.
  { unfold unit_text. rewrite forallb_app. simpl. by rewrite Hd, !andb_false_r. }
  pose proof (checkval_units_correct time_factor [u] ltac:(by constructor) ltac:(done)) as E. cbn [flat_map] in E.
  rewrite app_nil_r in E. unfold unit_sum in E. simpl in E. rewrite Z.add_0_r in E.
  unfold config_checkval. destruct (unit_first time_factor u Hu) as (c & r & Eu & _). rewrite Eu in E |- *.
  rewrite E. cbn [rbind]. destruct (Z.ltb_spec lines 1); [lia|]. destruct (Z.ltb_spec (u.1 * time_factor u.2) 60); [lia|].
  fold (limit_of channel). destruct (Z.ltb_spec (x_lines (limit_of channel)) lines), (Z.ltb_spec (x_time (limit_of channel)) (u.1 * time_factor u.2));
    do 3 f_equal; lia.
Qed.

(** What is printed for a time is read as its whole minutes, as far as the limits allow. *)
Lemma parse_helper channel lines t : 1 ≤ lines < 2 ^ 31 → 60 ≤ t < 2 ^ 31 →
  history_parse_chanmode cfg channel (history_chanmode_helper lines t) =
  Ok (Some (Z.min lines (x_lines (limit_of channel)), Z.min (minutes t) (x_time (limit_of channel)))).
Proof.
  intros Hl Ht. destruct (time_unit_ok t Ht) as (Hu & Ev & Hd). rewrite helper_text by lia. rewrite <-Ev.
  assert (60 ≤ minutes t ≤ t) by (unfold minutes; Z.to_euclidean_division_equations; lia). apply parse_text; try done; lia.
Qed.

Lemma parse_bounds channel param lines t : limits_ok →
  history_parse_chanmode cfg channel param = Ok (Some (lines, t)) →
  1 ≤ lines ≤ x_lines (limit_of channel) ∧ 60 ≤ t ≤ x_time (limit_of channel).
Proof.
  intros [H1 H2 H3 H4]. unfold history_parse_chanmode. destruct (drop_while _ _) as [|c p]; [done|].
  destruct (if forallb isdigit p then _ else _) as [t0| |]; [|done..]. cbn [rbind].
  destruct (Z.ltb_spec (atoi (take_while (λ c, negb (c =? COLON)) (take 63 param))) 1); [done|]. destruct (Z.ltb_spec t0 60); [done|].
  fold (limit_of channel).
  assert (1 ≤ x_lines (limit_of channel) ∧ 60 ≤ x_time (limit_of channel)) as [? ?].
  { unfold limit_of. destruct channel as [[]|]; lia. }
  intros [= <- <-]. repeat case_match; lia.
Qed.

Lemma merge_spec lines t their :
  let merged := (history_chanmode_sjoin_check (ChanMode lines t) their).2 in
  merged = (history_chanmode_sjoin_check their (ChanMode lines t)).2 ∧ lines ≤ max_lines merged ∧ t ≤ max_time merged ∧
  history_chanmode_sjoin_check merged merged = (EXSJ_SAME, merged).
Proof.
  destruct their as [n u]. unfold history_chanmode_sjoin_check. cbn [max_lines max_time].
  rewrite (Z.eqb_sym n lines), (Z.eqb_sym u t).
  destruct (Z.eqb_spec lines n) as [->|], (Z.eqb_spec t u) as [->|]; cbn [andb snd max_lines max_time];
    rewrite !Z.eqb_refl; cbn [andb]; split_and!; try done; try lia; f_equal; lia.
Qed.

End Conversion.

(** C11.  Mode +H.  The limits of the configuration are at least one line and one minute, and for
    channels that are not registered no higher than for those that are (the configuration accepts
    others, [limit_below_minute]).  Whatever parameter is accepted, what is stored is within these
    limits; the converted parameter, which the members and the other servers see, is stored by this
    server as the same lines and the same time in whole minutes, and by a server with any other
    limits as far as its own limits for registered channels allow; and what is shown of stored
    settings is read back as those settings and needs no further conversion.  When two servers merge
    their settings both end with the same ones, which cover both, and merging again changes nothing. *)
Theorem history_mode_correct cfg channel param q : limits_ok cfg →
  history_chanmode_conv_param cfg param channel = Ok (Some q) →
  ∃ lines t, history_parse_chanmode cfg channel param = Ok (Some (lines, t)) ∧
    1 ≤ lines ≤ x_lines (limit_of cfg channel) ∧ 60 ≤ t ≤ x_time (limit_of cfg channel) ∧
    let stored := ChanMode lines (minutes t) in
    history_chanmode_put_param cfg q = Ok (Some stored) ∧
    (∀ other, let limit := max_storage_per_channel_registered other in
       history_chanmode_put_param other q = Ok (Some (ChanMode (Z.min lines (x_lines limit)) (Z.min (minutes t) (x_time limit))))) ∧
    (∃ shown, history_chanmode_get_param (Some stored) = Some shown ∧ history_chanmode_put_param cfg shown = Ok (Some stored) ∧
       history_chanmode_conv_param cfg q channel = Ok (Some shown) ∧ history_chanmode_conv_param cfg shown channel = Ok (Some shown) ∧
       (t mod 60 = 0 → shown = q)) ∧
    (∀ their, let merged := (history_chanmode_sjoin_check stored their).2 in
       merged = (history_chanmode_sjoin_check their stored).2 ∧ lines ≤ max_lines merged ∧ minutes t ≤ max_time merged ∧
       history_chanmode_sjoin_check merged merged = (EXSJ_SAME, merged)).
Proof.
  intros Hlim Hq. unfold history_chanmode_conv_param in Hq.
  destruct (history_parse_chanmode cfg channel param) as [[[lines t]|]| |] eqn:Ep; try done. cbn [rbind] in Hq. injection Hq as <-.
  destruct (parse_bounds cfg channel param lines t Hlim Ep) as [Hl Ht]. exists lines, t. split; [done|].
  pose proof Hlim as [M1 M2 M3 M4].
  assert (x_lines (limit_of cfg channel) ≤ x_lines (limit_of cfg None) ∧ x_time (limit_of cfg channel) ≤ x_time (limit_of cfg None)) as [Hnl Hnt].
  { unfold limit_of. destruct channel as [[]|]; lia. }
  assert (x_lines (limit_of cfg None) < 2 ^ 31 ∧ x_time (limit_of cfg None) < 2 ^ 31) as [Hil Hit] by (unfold limit_of; lia).
  assert (60 ≤ minutes t ≤ t ∧ minutes (minutes t) = minutes t) as [Hm Hmm] by (unfold minutes; Z.to_euclidean_division_equations; lia).
  cbv zeta. split_and!; try lia.
  - unfold history_chanmode_put_param. rewrite parse_helper by lia. cbn [rbind]. by rewrite !Z.min_l by lia.
  - intros other. unfold history_chanmode_put_param. by rewrite parse_helper by lia.
  - exists (history_chanmode_helper lines (minutes t)). unfold history_chanmode_put_param, history_chanmode_conv_param.
    rewrite !parse_helper by lia. cbn [rbind]. rewrite Hmm, !Z.min_l by lia. split_and!; try done. intros E. unfold minutes. by rewrite E, Z.sub_0_r.
  - intros their. apply merge_spec.
Qed.

(** A time that is a minute short of whole hours is shown in another unit than it was set with. *)
Lemma conv_not_idempotent :
  let cfg := init_config in
  history_chanmode_conv_param cfg (bs "5:3601s") None = Ok (Some (bs "5:60m")) ∧
  history_chanmode_conv_param cfg (bs "5:60m") None = Ok (Some (bs "5:1h")).
Proof. split; vm_compute; reflexivity. Qed.
Lemma history_mode_witness :
  ∃ lines t, history_parse_chanmode init_config (Some false) (bs "300:90") = Ok (Some (lines, t)) ∧ 1 ≤ lines ≤ 200 ∧
    history_chanmode_put_param init_config (bs "200:90m") = Ok (Some (ChanMode lines (minutes t))).
Proof.
  destruct (history_mode_correct init_config (Some false) (bs "300:90") (bs "200:90m")) as (lines & t & E & Hl & _ & Hp & _).
  - constructor; cbn; lia.
  - vm_compute. reflexivity.
  - exists lines, t. split; [exact E|]. split; [exact Hl|exact Hp].
Defined.

(** Without a minute in the limit, the converted parameter is refused when it is stored. *)
Lemma limit_below_minute :
  let cfg := HistCfg (HistExt 15 86400) (HistExt 5000 30) (HistExt 200 30) in
  history_chanmode_conv_param cfg (bs "5:10") None = Ok (Some (bs "5:0m")) ∧
  history_chanmode_put_param cfg (bs "5:0m") = Ok None.
Proof. split; vm_compute; reflexivity. Qed.

(** The minutes are multiplied as an [int]. *)
Lemma minutes_overflow : history_parse_chanmode init_config None (bs "5:99999999") = UB.
Proof. vm_compute. reflexivity. Qed.
