(* ===== verification/Chathistory.v ===== *)
(** * The commands CHATHISTORY and HISTORY (src/modules/chathistory.c, src/modules/history.c)

    What a client may ask of the history of its channels: the parameters become a
    filter, the filter a request to the backends, and the result is sent if it fits
    the send queue.  Who is a member is decided by [Channel], which channel is meant
    by [Hash], and the answer comes from [HistoryApi].

    Without membership, existing channel or mode +H nothing is asked of the
    backends; with them, the client reads the lines of the log that it asked for. *)

From stdpp Require Import base tactics list numbers strings gmap sorting.
From Stdlib Require Import ZArith Lia.
From S2P Require Import Prelude Chars Support MessageTags Times Hash MemberModes Channel Parse.
From S2P Require Import Unrealdb HistoryLog HistoryRequests HistoryFile History HistoryApi.

Local Open Scope Z_scope.

Definition CHATHISTORY_LIMIT : Z := 50.
Definition HISTORY_LINES_DEFAULT : Z := 100.
Definition HISTORY_LINES_MAX : Z := 100.
Definition EQUALS : Z := 61.
Definition HASH_SIGN : Z := 35.

(** [has_channel_mode]: the registered modes are letters with their bits. *)
Definition has_channel_mode (cmodes : list (Z * Z)) (mode letter : Z) : bool :=
  existsb (λ cm, (cm.1 =? letter) && negb (Z.land mode cm.2 =? 0)) cmodes.

(** [strchr(request, '=')] splits the copy; what is behind it is stored. *)
Definition chathistory_token (str token : list Z) : option (list Z) :=
  let request := take (BUFSIZE - 1) str in
  match drop_while (λ c, negb (c =? EQUALS)) request with
  | [] => None
  | _ :: rest => if strcmp (take_while (λ c, negb (c =? EQUALS)) request) token =? 0 then Some rest else None
  end.

(** A point in the history: a time or the id of a message. *)
Definition parse_point (str : list Z) : option (option (list Z) * option (list Z)) :=
  match chathistory_token str (bs "timestamp") with
  | Some t => Some (Some t, None)
  | None => match chathistory_token str (bs "msgid") with Some m => Some (None, Some m) | None => None end
  end.

(** ** The targets of a client *)

Definition ChatHistoryTarget : Type := list Z * list Z.

(** In front of the first that is not newer. *)
Fixpoint add_chathistory_target_list (new : ChatHistoryTarget) (l : list ChatHistoryTarget) : list ChatHistoryTarget :=
  match l with
  | [] => [new]
  | x :: r => if 0 <=? strcmp new.1 x.1 then new :: l else x :: add_chathistory_target_list new r
  end.
Definition add_chathistory_target (l : list ChatHistoryTarget) (r : HistoryResult) : list ChatHistoryTarget :=
  match r_log r with
  | [] => l
  | line :: _ =>
      match find_mtag (l_mtags line) (bs "time") with
      | Some (MTag _ (Some datetime)) => add_chathistory_target_list (datetime, r_object r) l
      | _ => l
      end
  end.

(** What a command sends. *)
Inductive answer := ASent (s : sent) | ANotice (text : list Z) | ANumeric (numeric : Z) (args : list (list Z)).

Section Commands.
Context {W : Type}.
(** The backends, the channels with their modes, the canonical client of an account
    if the persistence module is loaded, and what [Sending] depends on. *)
Variable g : backends W.
Variable s : Channel.cstate.
Variable cmodes : list (Z * Z).
Variable mode_of : nat → Z.
Variable account_canonical : option (nat → option nat).
Variable me_name : list Z.
Variable clicaps : list (list Z * Z).
Variable mtaghandlers : list MessageTagHandler.
Variable batch_id : nat → list Z.

(** The client: its address, status, capabilities and send queue. *)
Record requester := Requester { q_id : nat; q_client : pclient; q_caps : Z; q_sendq : Z }.
Definition MyUser (c : requester) : bool := p_local (q_client c) && IsUser (q_client c).

Abbreviation has_cap := (HasCapability clicaps).

(** What a command leaves: the backends, the batch ids used, fake lag, and what was
    sent. *)
Definition outcome : Type := W * nat * lag * list answer.

Definition raw (text : list Z) : answer := ASent (Sent [] text).
Definition fail_line (code : string) (args : list (list Z)) (text : string) : answer :=
  raw (bs ":" ++ me_name ++ bs " FAIL CHATHISTORY " ++ bs code ++ flat_map (λ a, bs " " ++ a) args ++ bs " :" ++ bs text).

(** *** CHATHISTORY TARGETS *)

Definition mb_name (mb : nat) : res (list Z) :=
  let! o := Channel.get (s_memberships s) (Some mb) in
  let! ch := Channel.get (s_chans s) (mb_channel o) in
  Ok (ch_name ch).

Fixpoint targets_loop (f : HistoryFilter) (mbs : list nat) (w : W) (targets : list ChatHistoryTarget)
  : res (W * list ChatHistoryTarget) :=
  match mbs with
  | [] => Ok (w, targets)
  | mb :: r =>
      let! name := mb_name mb in
      let! (w, x) := history_request name f g w in
      targets_loop f r w (match x with Some x => add_chathistory_target targets x | None => targets end)
  end.

Definition chathistory_targets_send_line (batch : list Z) (t : ChatHistoryTarget) : sent :=
  Sent (match batch with [] => [] | _ => [batch_tag batch] end)
    (bs ":" ++ me_name ++ bs " CHATHISTORY TARGETS " ++ t.2 ++ bs " " ++ t.1).

(** The times are swapped if needed; each channel is asked for one line. *)
Definition targets_filter (a b : list Z) : HistoryFilter :=
  let '(a, b) := if strcmp a b <? 0 then (b, a) else (a, b) in
  Filter HFC_BEFORE 0 0 (Some a) None (Some b) None None 1.

Definition chathistory_targets (c : requester) (a b : list Z) (limit : Z) (w : W) (n : nat) (l : lag) : res outcome :=
  let! u := Channel.get (s_users s) (Some (q_id c)) in
  let! (w, targets) := targets_loop (targets_filter a b) (u_channel u) w [] in
  let '(batch, first, n) :=
    if has_cap (q_caps c) "batch" then
      (batch_id n,
       [Sent (if Z.of_nat (length targets) <=? limit then [END_TAG] else [])
             (bs ":" ++ me_name ++ bs " BATCH +" ++ batch_id n ++ bs " draft/chathistory-targets")], S n)
    else ([], [], n) in
  let lines := map (chathistory_targets_send_line batch) (take (Z.to_nat limit) targets) in
  let closing := match batch with [] => [] | _ => [Sent [] (batch_close me_name batch)] end in
  Ok (w, n, l, map ASent (first ++ lines ++ closing)).

(** *** The other requests *)

Definition send_empty_batch (c : requester) (target : list Z) (n : nat) : list answer * nat :=
  if has_cap (q_caps c) "batch" then
    ([raw (batch_open me_name (batch_id n) (bs "chathistory") target); raw (batch_close me_name (batch_id n))], S n)
  else ([], n).

Definition chathistory_account_is_member (client chan : nat) : res bool :=
  let! m := IsMember s (Some client) chan in
  if m then Ok true
  else
    match account_canonical with
    | None => Ok false
    | Some moddata =>
        match moddata client with
        | None => Ok false
        | Some canon => if bool_decide (canon = client) then Ok false else IsMember s (Some canon) chan
        end
    end.

(** The filter of a subcommand, or the failure that is sent; [parv5] may be NULL. *)
Definition parse_subcommand (sub parv3 parv4 : list Z) (parv5 : option (list Z)) : answer + HistoryFilter :=
  let invalid p := fail_line "INVALID_PARAMS" [sub; p] "Invalid parameter, must be timestamp=xxx or msgid=xxx" in
  let one cmd :=
    match parse_point parv3 with
    | Some (t, m) => inr (Filter cmd 0 0 t m None None None (atoi parv4))
    | None => inl (invalid parv3)
    end in
  if strcasecmp sub (bs "BEFORE") =? 0 then one HFC_BEFORE
  else if strcasecmp sub (bs "AFTER") =? 0 then one HFC_AFTER
  else if strcasecmp sub (bs "LATEST") =? 0 then
    match parse_point parv3 with
    | Some (t, m) => inr (Filter HFC_LATEST 0 0 t m None None None (atoi parv4))
    | None =>
        if strcmp parv3 (bs "*") =? 0 then inr (Filter HFC_LATEST 0 0 None None None None None (atoi parv4))
        else inl (fail_line "INVALID_PARAMS" [sub; parv3] "Invalid parameter, must be timestamp=xxx or msgid=xxx or *")
    end
  else if strcasecmp sub (bs "AROUND") =? 0 then one HFC_AROUND
  else if strcasecmp sub (bs "BETWEEN") =? 0 then
    match parv5 with
    | None | Some [] => inl (raw (bs ":" ++ sub ++ bs " FAIL CHATHISTORY INVALID_PARAMS " ++ me_name ++ bs " :Insufficient parameters"))
    | Some p5 =>
        match parse_point parv3, parse_point parv4 with
        | None, _ => inl (invalid parv3)
        | _, None => inl (invalid parv4)
        | Some (ta, ma), Some (tb, mb) => inr (Filter HFC_BETWEEN 0 0 ta ma tb mb None (atoi p5))
        end
    end
  else inl (fail_line "INVALID_PARAMS" [sub] "Invalid subcommand").

Definition set_limit (n : Z) (f : HistoryFilter) : HistoryFilter :=
  Filter (f_cmd f) (last_lines f) (last_seconds f) (timestamp_a f) (msgid_a f) (timestamp_b f) (msgid_b f) (account f) n.

(** [%d]. *)
Definition print_int (n : Z) : list Z := printf_d 0 n.

(** The request itself, and the result if it fits: [num_bytes * 1.5 > sendq]. *)
Definition answer_request (c : requester) (sub name : list Z) (f : HistoryFilter) (w : W) (n : nat) (l : lag) : res outcome :=
  if limit f <=? 0 then
    Ok (w, n, l, [fail_line "INVALID_PARAMS" [sub; print_int (limit f)] "Specified limit is =<0"])
  else
    let f := if CHATHISTORY_LIMIT <? limit f then set_limit CHATHISTORY_LIMIT f else f in
    let! (w, x) := history_request name f g w in
    match x with
    | None => Ok (w, n, l, [])
    | Some r =>
        if 2 * q_sendq c <? 3 * r_num_bytes r then
          Ok (w, n, l, [fail_line "MESSAGE_ERROR" [sub; name] "History too large to deliver"])
        else
          let fakelag_ms := Z.quot (r_num_bytes r) 64 in
          let l := add_fake_lag (q_client c) (if 5000 <? fakelag_ms then 5000 else fakelag_ms) l in
          let '(out, n) := history_send_result me_name clicaps mtaghandlers batch_id (q_caps c) r (r_reached_end r) n in
          Ok (w, n, l, map ASent out)
    end.

Definition refuse_server_time : list answer :=
  [ANotice (bs "Your IRC client does not support the 'server-time' capability");
   ANotice (bs "https://ircv3.net/specs/extensions/server-time"); ANotice (bs "History request refused.")].

(** The parameters are [parv[1]] and so on. *)
Definition cmd_chathistory (c : requester) (parv : list (list Z)) (w : W) (n : nat) (l : lag) : res outcome :=
  if negb (MyUser c) then Ok (w, n, l, [])
  else
    match parv with
    | sub :: parv2 :: parv3 :: (_ :: _) as parv4 :: rest =>
        if negb (has_cap (q_caps c) "server-time") then Ok (w, n, l, refuse_server_time)
        else if strcasecmp sub (bs "TARGETS") =? 0 then
          match chathistory_token parv2 (bs "timestamp") with
          | None => Ok (w, n, l, [fail_line "INVALID_PARAMS" [sub; parv3] "Invalid parameter, must be timestamp=xxx"])
          | Some a =>
              match chathistory_token parv3 (bs "timestamp") with
              | None => Ok (w, n, l, [fail_line "INVALID_PARAMS" [sub; parv4] "Invalid parameter, must be timestamp=xxx"])
              | Some b => chathistory_targets c a b (atoi parv4) w n l
              end
          end
        else if negb (deref parv2 =? HASH_SIGN) then
          let '(out, n) := send_empty_batch c parv2 n in Ok (w, n, l, out)
        else
          let! channel := find_channel parv2 (s_hash s) in
          match channel with
          | None => Ok (w, n, l, [fail_line "INVALID_TARGET" [sub; parv2] "Messages could not be retrieved, not an existing channel"])
          | Some ch =>
              let! m := chathistory_account_is_member (q_id c) ch in
              if negb m then
                Ok (w, n, l, [fail_line "INVALID_TARGET" [sub; parv2] "Messages could not be retrieved, you are not a member"])
              else
                let! o := Channel.get (s_chans s) (Some ch) in
                if negb (has_channel_mode cmodes (mode_of ch) 72) then
                  let '(out, n) := send_empty_batch c (ch_name o) n in Ok (w, n, l, out)
                else
                  match parse_subcommand sub parv3 parv4 (head rest) with
                  | inl e => Ok (w, n, l, [e])
                  | inr f => answer_request c sub (ch_name o) f w n l
                  end
          end
    | _ => Ok (w, n, l, [fail_line "INVALID_PARAMS" [] "Insufficient parameters"])
    end.

(** ** HISTORY *)

Definition history_usage : list answer :=
  [ANotice (bs " Use: /HISTORY #channel [lines-to-display]"); ANotice (bs "  Ex: /HISTORY #lobby");
   ANotice (bs "  Ex: /HISTORY #lobby 50");
   ANotice (bs "The lines-to-display value must be 1-100, the default is 100");
   ANotice (bs "Naturally, the line count and time limits in channel mode +H are obeyed")].

Definition cmd_history (c : requester) (parv : list (list Z)) (w : W) (n : nat) (l : lag) : res outcome :=
  if negb (MyUser c) then Ok (w, n, l, [])
  else
    match parv with
    | (_ :: _) as name :: rest =>
        let! channel := find_channel name (s_hash s) in
        match channel with
        | None => Ok (w, n, l, [ANumeric 403 [name]])
        | Some ch =>
            let! m := IsMember s (Some (q_id c)) ch in
            let! o := Channel.get (s_chans s) (Some ch) in
            if negb m then Ok (w, n, l, [ANumeric 442 [ch_name o]])
            else if negb (has_channel_mode cmodes (mode_of ch) 72) then
              Ok (w, n, l, [ANotice (bs "Channel " ++ ch_name o ++ bs " does not have channel mode +H set")])
            else
              let lines := match rest with [] => HISTORY_LINES_DEFAULT | x :: _ => atoi x end in
              if lines <? 1 then Ok (w, n, l, history_usage)
              else
                let lines := if HISTORY_LINES_MAX <? lines then HISTORY_LINES_MAX else lines in
                if negb (has_cap (q_caps c) "server-time") then Ok (w, n, l, refuse_server_time)
                else
                  let! (w, x) := history_request (ch_name o) (Filter HFC_SIMPLE lines 0 None None None None None 0) g w in
                  match x with
                  | None => Ok (w, n, l, [])
                  | Some r =>
                      let '(out, n) := history_send_result me_name clicaps mtaghandlers batch_id (q_caps c) r 0 n in
                      Ok (w, n, l, map ASent out)
                  end
        end
    | _ => Ok (w, n, l, history_usage)
    end.
End Commands.

(** ** Who may read *)

Section Access.
Context {W : Type} (s : Channel.cstate) (M : gmap (nat * nat) (list Z)) (cmodes : list (Z * Z)) (mode_of : nat → Z)
  (account_canonical : option (nat → option nat)) (me_name : list Z) (clicaps : list (list Z * Z))
  (mtaghandlers : list MessageTagHandler) (batch_id : nat → list Z).
Context (per_block per_block_mb : nat) (channelmodes : list Cmode).
Hypothesis some_per_block : (0 < per_block)%nat ∧ (0 < per_block_mb)%nat.
Hypothesis reached : reach per_block per_block_mb channelmodes s M.

Abbreviation chathistory g := (cmd_chathistory (W:=W) g s cmodes mode_of account_canonical me_name clicaps mtaghandlers batch_id).
Abbreviation history g := (cmd_history (W:=W) g s cmodes mode_of me_name clicaps mtaghandlers batch_id).

(** A member, or a session of an account whose client is one. *)
Definition may_read (client ch : nat) : Prop :=
  is_Some (M !! (ch, client)) ∨
  ∃ moddata canon, account_canonical = Some moddata ∧ moddata client = Some canon ∧ is_Some (M !! (ch, canon)).
Definition readable (client : nat) (name : list Z) : Prop :=
  ∃ ch o, s_chans s !! ch = Some o ∧ ch_name o = name ∧ may_read client ch.

Lemma member_spec cl ch : IsMember s (Some cl) ch = Ok (bool_decide (is_Some (M !! (ch, cl)))).
Proof using some_per_block reached.
  destruct (reach_ok _ _ _ some_per_block s M reached) as (G & sp & [Hv _ _] & ->). rewrite lookup_fmap.
  destruct (s_users s !! cl) as [u|] eqn:Hu.
  - destruct (access_spec s G ch cl [] Hv ltac:(by eexists)) as [_ ->]. f_equal. apply bool_decide_ext. by rewrite fmap_is_Some.
  - unfold IsMember. rewrite Hu. rewrite bool_decide_false; [done|]. rewrite fmap_is_Some. intros [L HL].
    destruct (v_dom _ _ Hv _ _ _ HL) as [_ (u & Hu' & _)]. congruence.
Qed.

Lemma find_spec name : cstr name → ∃ r, find_channel name (s_hash s) = Ok r ∧
  match r with
  | Some ch => ∃ o, s_chans s !! ch = Some o ∧ casefold (ch_name o) = casefold name
  | None => ∀ ch o, s_chans s !! ch = Some o → casefold (ch_name o) ≠ casefold name
  end.
Proof using some_per_block reached.
  intros Hn. destruct (reach_ok _ _ _ some_per_block s M reached) as (G & sp & [_ _ Hm] & _).
  pose proof Hm as [Hh _ Ht _ _ _]. destruct Hh as [_ Hc _ _ _ HC]. exists (sp_chans sp !! casefold name). split.
  - unfold find_channel. rewrite Hc. by rewrite (find_in_repr_all _ _ _ (hash_channel_ci (s_hash s)) _ _ _ HC Hn).
  - destruct (sp_chans sp !! casefold name) as [ch|] eqn:E; [by apply Ht|].
    intros ch o Ho Hf. assert (sp_chans sp !! casefold name = Some ch) as H; [|congruence]. apply Ht. eauto.
Qed.

Lemma account_spec client ch :
  ∃ b, chathistory_account_is_member s account_canonical client ch = Ok b ∧ (b = true ↔ may_read client ch).
Proof using some_per_block reached.
  unfold chathistory_account_is_member, may_read. rewrite member_spec. cbn [rbind].
  case_bool_decide as Hm; [exists true; split; [done|]; split; [by left|done]|].
  assert (∀ b, (b = true → is_Some (M !! (ch, client)) ∨
      ∃ moddata canon, account_canonical = Some moddata ∧ moddata client = Some canon ∧ is_Some (M !! (ch, canon))) →
    ((∃ moddata canon, account_canonical = Some moddata ∧ moddata client = Some canon ∧ is_Some (M !! (ch, canon))) → b = true) →
    ∃ b', Ok b = Ok b' ∧ (b' = true ↔ is_Some (M !! (ch, client)) ∨
      ∃ moddata canon, account_canonical = Some moddata ∧ moddata client = Some canon ∧ is_Some (M !! (ch, canon)))) as Hb.
  { intros b H1 H2. exists b. split; [done|]. split; [done|]. by intros [?|?]; [|apply H2]. }
  destruct account_canonical as [moddata|]; [|apply Hb; [done|]; by intros (? & ? & ? & _)].
  destruct (moddata client) as [canon|] eqn:Ec; [|apply Hb; [done|]; intros (? & ? & ? & ? & _); by simplify_eq].
  case_bool_decide as He; [apply Hb; [done|]; intros (? & ? & ? & ? & ?); by simplify_eq|].
  rewrite member_spec. apply Hb; rewrite bool_decide_eq_true; [intros; right; by eexists _, _|].
  intros (? & ? & ? & ? & ?). by simplify_eq.
Qed.

(** The channels that TARGETS asks for are the client's own. *)
Lemma mb_readable client u mb name :
  s_users s !! client = Some u → mb ∈ u_channel u → mb_name s mb = Ok name → readable client name.
Proof using some_per_block reached.
  destruct (reach_ok _ _ _ some_per_block s M reached) as (G & sp & [Hv _ _] & EM). intros Hu Hmb.
  destruct (v_user _ _ Hv _ _ Hu) as (_ & _ & Hx). apply Hx in Hmb as (ch & L & HL & <-).
  unfold mb_name. cbn [Channel.get]. rewrite (v_membership _ _ Hv _ _ _ HL). cbn [rbind mb_channel Channel.get].
  destruct (v_dom _ _ Hv _ _ _ HL) as [[o Ho] _]. rewrite Ho. cbn [rbind]. intros [= <-]. exists ch, o.
  split_and!; try done. left. by rewrite EM, lookup_fmap, HL.
Qed.

Section Same.
(** Two registries with the same answers for what the client may read. *)
Context (c : requester) (g1 g2 : backends W).
Hypothesis same : ∀ name f w, readable (q_id c) name → history_request name f g1 w = history_request name f g2 w.

Lemma targets_same f u mbs w ts :
  s_users s !! q_id c = Some u → (∀ mb, mb ∈ mbs → mb ∈ u_channel u) →
  targets_loop g1 s f mbs w ts = targets_loop g2 s f mbs w ts.
Proof using some_per_block reached same.
  intros Hu. revert w ts. induction mbs as [|mb mbs IH]; intros w ts Hm; [done|]. cbn [targets_loop].
  destruct (mb_name s mb) as [name| |] eqn:En; try done. cbn [rbind].
  rewrite (same name) by (eapply mb_readable; [done|apply Hm; by left|done]).
  destruct (history_request name f g2 w) as [[w' x]| |]; try done. cbn [rbind]. apply IH. intros; apply Hm; by right.
Qed.

Lemma answer_same sub name f w n l :
  readable (q_id c) name →
  answer_request g1 me_name clicaps mtaghandlers batch_id c sub name f w n l =
  answer_request g2 me_name clicaps mtaghandlers batch_id c sub name f w n l.
Proof using same. intros Hr. unfold answer_request. by rewrite same. Qed.

Lemma chathistory_same parv w n l : chathistory g1 c parv w n l = chathistory g2 c parv w n l.
Proof using some_per_block reached same.
  unfold cmd_chathistory. destruct (negb _); [done|]. destruct parv as [|sub [|p2 [|p3 [|[|x p4] rest]]]]; try done.
  destruct (negb _); [done|]. destruct (strcasecmp sub (bs "TARGETS") =? 0).
  { destruct (chathistory_token p2 _) as [a|]; [|done]. destruct (chathistory_token p3 _) as [b|]; [|done].
    unfold chathistory_targets. cbn [Channel.get]. destruct (s_users s !! q_id c) as [u|] eqn:Hu; [|done]. cbn [rbind].
    by rewrite (targets_same _ u). }
  destruct (negb _); [done|]. destruct (find_channel p2 (s_hash s)) as [[ch|]| |]; try done. cbn [rbind].
  destruct (account_spec (q_id c) ch) as (b & -> & Hb). cbn [rbind]. destruct b; cbn [negb]; [|done].
  cbn [Channel.get]. destruct (s_chans s !! ch) as [o|] eqn:Ho; [|done]. cbn [rbind]. destruct (negb _); [done|].
  destruct (parse_subcommand me_name sub p3 (x :: p4) (head rest)) as [e|f]; [done|].
  apply answer_same. exists ch, o. split_and!; try done. by apply Hb.
Qed.

Lemma history_same parv w n l : history g1 c parv w n l = history g2 c parv w n l.
Proof using some_per_block reached same.
  unfold cmd_history. destruct (negb _); [done|]. destruct parv as [|[|x name] rest]; try done.
  destruct (find_channel _ (s_hash s)) as [[ch|]| |]; try done. cbn [rbind]. rewrite member_spec. cbn [rbind Channel.get].
  destruct (s_chans s !! ch) as [o|] eqn:Ho; [|done]. cbn [rbind]. case_bool_decide as Hm; cbn [negb]; [|done].
  destruct (negb _); [done|]. destruct (_ <? 1); [done|]. destruct (negb _); [done|].
  rewrite same; [done|]. exists ch, o. split_and!; try done. by left.
Qed.
End Same.

(** A request for anything else is refused without a look at the history. *)
Lemma refused c sub p2 p3 p4 rest n l :
  MyUser c = true → cstr p2 → (strcasecmp sub (bs "TARGETS") =? 0) = false →
  (∀ ch o, s_chans s !! ch = Some o → casefold (ch_name o) = casefold p2 → may_read (q_id c) ch →
     has_channel_mode cmodes (mode_of ch) 72 = false) →
  ∃ n' out, ∀ g w, chathistory g c (sub :: p2 :: p3 :: p4 :: rest) w n l = Ok (w, n', l, out).
Proof using some_per_block reached.
  intros Hu Hc Ht Hno. unfold cmd_chathistory. rewrite Hu, Ht. cbn [negb]. destruct p4 as [|x p4]; [by eexists _, _|].
  destruct (negb (HasCapability _ _ _)); [by eexists _, _|]. destruct (negb (deref p2 =? HASH_SIGN)).
  { destruct (send_empty_batch me_name clicaps batch_id c p2 n) as [out n']. by eexists _, _. }
  destruct (find_spec p2 Hc) as (r & -> & Hr). cbn [rbind]. destruct r as [ch|]; [|by eexists _, _].
  destruct Hr as (o & Ho & En). destruct (account_spec (q_id c) ch) as (b & -> & Hb). cbn [rbind].
  destruct b; cbn [negb]; [|by eexists _, _]. cbn [Channel.get]. rewrite Ho. cbn [rbind].
  rewrite (Hno ch o Ho En) by by apply Hb. cbn [negb].
  destruct (send_empty_batch me_name clicaps batch_id c (ch_name o) n) as [out n']. by eexists _, _.
Qed.

Lemma history_refused c name rest n l :
  MyUser c = true → cstr name →
  (∀ ch o, s_chans s !! ch = Some o → casefold (ch_name o) = casefold name → is_Some (M !! (ch, q_id c)) →
     has_channel_mode cmodes (mode_of ch) 72 = false) →
  ∃ out, ∀ g w, history g c (name :: rest) w n l = Ok (w, n, l, out).
Proof using some_per_block reached.
  intros Hu Hc Hno. unfold cmd_history. rewrite Hu. cbn [negb]. destruct name as [|x name]; [by eexists|].
  destruct (find_spec (x :: name) Hc) as (r & -> & Hr). cbn [rbind]. destruct r as [ch|]; [|by eexists].
  destruct Hr as (o & Ho & En). rewrite member_spec. cbn [rbind Channel.get]. rewrite Ho. cbn [rbind].
  case_bool_decide as Hm; cbn [negb]; [|by eexists]. rewrite (Hno ch o Ho En Hm). by eexists.
Qed.

(** C7.  History is for members.  What CHATHISTORY and HISTORY answer, whatever their parameters,
    depends on the backends only through requests for channels that the client, or the
    client its account stands for, is a member of: two registries that agree there lead to
    the same outcome.  A CHATHISTORY request other than TARGETS for anything that is not such a
    channel with mode +H, and a HISTORY request for anything that is not a channel with mode +H
    that the client itself is a member of, is refused with an answer that does not depend on any
    history, and the backends are not touched. *)
Theorem chathistory_private c :
  (∀ g1 g2 parv w n l,
     (∀ name f w, readable (q_id c) name → history_request name f g1 w = history_request name f g2 w) →
     chathistory g1 c parv w n l = chathistory g2 c parv w n l ∧ history g1 c parv w n l = history g2 c parv w n l) ∧
  (∀ sub p2 p3 p4 rest n l,
     MyUser c = true → cstr p2 → (strcasecmp sub (bs "TARGETS") =? 0) = false →
     (∀ ch o, s_chans s !! ch = Some o → casefold (ch_name o) = casefold p2 → may_read (q_id c) ch →
        has_channel_mode cmodes (mode_of ch) 72 = false) →
     ∃ n' out, ∀ g w, chathistory g c (sub :: p2 :: p3 :: p4 :: rest) w n l = Ok (w, n', l, out)) ∧
  (∀ name rest n l,
     MyUser c = true → cstr name →
     (∀ ch o, s_chans s !! ch = Some o → casefold (ch_name o) = casefold name → is_Some (M !! (ch, q_id c)) →
        has_channel_mode cmodes (mode_of ch) 72 = false) →
     ∃ out, ∀ g w, history g c (name :: rest) w n l = Ok (w, n, l, out)).
Proof using some_per_block reached.
  split; [|split; [apply refused|apply history_refused]]. intros g1 g2 parv w n l H. split; [by apply chathistory_same|by apply history_same].
Qed.
End Access.

(** ** The backend in memory *)

Section Memory.
Context `{C : Crypto} (sha256_binary : list Z → list Z).

(** Its functions, with the table and the disk as what they keep. *)
Definition mem_hooks (m : nat) (now : moment) : hooks (hist * world) :=
  Hooks (Some (Fptr m (λ o t x '(st, w), let! st := hbm_history_add now st o t x in Ok (st, w))))
    (Some (Fptr m (λ o t src cmd tgt ls '(st, w), let! st := hbm_history_add_multiline now st o t src cmd tgt ls in Ok (st, w))))
    (Some (Fptr m (λ o f '(st, w), let! (st, r) := hbm_history_request now st o f in Ok ((st, w), r))))
    (Some (Fptr m (λ o f '(st, w), let! (st, d, j) := hbm_history_delete st o f in Ok ((st, w), d, j))))
    (Some (Fptr m (λ o '(st, w), let! (st, w, _) := hbm_history_destroy sha256_binary st o w in Ok (st, w))))
    (Some (Fptr m (λ o n t '(st, w), Ok (hbm_history_set_limit (TStime now) st o n t, w)))).
Definition mem_backend (m : nat) (now : moment) : HistoryBackendInfo (hist * world) := BackendInfo (bs "mem") (mem_hooks m now).

Lemma mem_request g m now st w M name h h' f r :
  breach g → service_of (mem_hooks m now) = head (services g) → repr st M → cstr name → M !! casefold name = Some h →
  hbm_history_request_from now name h f = Ok (h', r) → h_name h' = h_name h →
  ∃ st', history_request name f g (st, w) = Ok ((st', w), Some r) ∧ repr st' (<[casefold name := h']> M).
Proof.
  intros Hg Hs HR Hn Hh E Hname. unfold history_request. rewrite request_services by (by apply breach_ok || done).
  fold (services g). destruct (services g) as [|s0 ss]; [done|]. injection Hs as <-. cbn [first_answer s_request func].
  unfold hbm_history_request. pose proof (find_object_repr st M HR name Hn) as Hf.
  destruct (hbm_find_object st name) as [[i h0]|]; [|congruence]. destruct Hf as (E0 & Hi & Ec).
  assert (h0 = h) as -> by congruence. rewrite E. cbn [rbind]. eexists. split; [done|]. rewrite <-Ec. by apply put_object_repr.
Qed.
End Memory.

(** ** What a member reads *)

Lemma token_at tok v t : EQUALS ∉ tok → (length tok + length v < BUFSIZE - 1)%nat →
  chathistory_token (tok ++ EQUALS :: v) t = if strcmp tok t =? 0 then Some v else None.
Proof.
  intros Ht Hl. unfold chathistory_token. rewrite take_ge by (rewrite length_app; cbn [length]; lia).
  assert (Forall (λ c, negb (c =? EQUALS) = true) tok) as Hf.
  { rewrite Forall_forall. intros c Hc. apply negb_true_iff, Z.eqb_neq. by intros ->. }
  rewrite drop_while_app, take_while_app by done. cbn [drop_while take_while]. rewrite Z.eqb_refl. cbn [negb].
  by rewrite app_nil_r.
Qed.

Lemma request_point now object h pre m post n :
  log_ok h → NoDup (map l_msgid (h_lines h)) → h_max_time h < TStime now →
  filter (λ l, TStime now - h_max_time h ≤ l_t l) (h_lines h) = pre ++ m :: post →
  ∃ h', log_ok h' ∧ h_lines h' = pre ++ m :: post ∧ h_name h' = h_name h ∧
    let request := hbm_history_request_from now object h in
    request (by_id HFC_AFTER (id_of m) None n) = Ok (h', oldest_of_page object n post) ∧
    request (by_id HFC_BEFORE (id_of m) None n) = Ok (h', newest_of_page object n pre) ∧
    request (latest_filter None n) = Ok (h', newest_of_page object n (pre ++ m :: post)).
Proof.
  intros Hlog Hid Hnow Hy.
  destruct (request_cleans (TStime now) h Hlog Hnow) as (Hlog' & Hl & Ht & _). unfold hbm_history_request_from. cbv zeta.
  assert (h_name (if h_oldest_t h <? TStime now - h_max_time h then hbm_history_cleanup (TStime now) h else h) = h_name h) as Hn.
  { destruct (_ <? _); [apply cleanup_name|done]. }
  set (h' := if h_oldest_t h <? _ then _ else h) in *. clearbody h'.
  assert (NoDup (map l_msgid (h_lines h'))) as Hid'.
  { rewrite Hl. eapply sublist_NoDup; [done|]. apply (fmap_sublist l_msgid), sublist_filter. }
  rewrite Hy in Hl. pose proof Hlog' as [[Hok _ _ _] _ _]. exists h'.
  change (Result object [] 0 0 0) with (result_of object [] 0). split_and!; try done; cbn [f_cmd by_id by_time latest_filter].
  - destruct (return_after_page now object h' (by_id HFC_AFTER (id_of m) None n) Hok) as (w & ->).
    rewrite Hl in *. by rewrite page_after_id.
  - destruct (return_before_page now object h' (by_id HFC_BEFORE (id_of m) None n) Hok) as (w & ->).
    rewrite Hl in *. rewrite page_before_id by done. cbn [rbind limit by_id]. by rewrite rev_take, end_flag_rev.
  - destruct (return_latest_page now object h' (latest_filter None n) Hok) as (w & ->).
    cbn [timestamp_a msgid_a by_time latest_filter limit rbind]. rewrite take_while_all by (by apply Forall_forall).
    by rewrite rev_take, end_flag_rev, Hl.
Qed.

Section Answers.
Context `{C : Crypto} (sha256_binary : list Z → list Z).
Context (s : Channel.cstate) (M : gmap (nat * nat) (list Z)) (cmodes : list (Z * Z)) (mode_of : nat → Z)
  (account_canonical : option (nat → option nat)) (me_name : list Z) (clicaps : list (list Z * Z))
  (mtaghandlers : list MessageTagHandler) (batch_id : nat → list Z).
Context (per_block per_block_mb : nat) (channelmodes : list Cmode).
Context (g : backends (hist * world)) (module : nat) (now : moment) (st : hist) (w : world)
  (logs : gmap (list Z) HistoryLogObject).
Context (c : requester) (ch : nat) (o : chan) (target : list Z).
Context (h : HistoryLogObject) (pre post : list HistoryLogLine) (m : HistoryLogLine).

(** The channels are as calls lead to, the first backend is the one in memory, and
    its table holds the log of the channel. *)
Record scene : Prop := Scene {
  sc_blocks : (0 < per_block)%nat ∧ (0 < per_block_mb)%nat;
  sc_reach : reach per_block per_block_mb channelmodes s M;
  sc_breach : breach g;
  sc_first : service_of (mem_hooks sha256_binary module now) = head (services g);
  sc_repr : repr st logs;
  sc_ids : ∀ n, batch_id n ≠ [] ∧ SPACE_CH ∉ batch_id n
}.
(** A local user with the two capabilities names a channel with mode +H that it may
    read. *)
Record reader_of : Prop := ReaderOf {
  rd_user : MyUser c = true;
  rd_time : HasCapability clicaps (q_caps c) "server-time" = true;
  rd_batch : HasCapability clicaps (q_caps c) "batch" = true;
  rd_chan : s_chans s !! ch = Some o ∧ casefold (ch_name o) = casefold target;
  rd_target : cstr target ∧ deref target = HASH_SIGN;
  rd_may : may_read M account_canonical (q_id c) ch;
  rd_mode : has_channel_mode cmodes (mode_of ch) 72 = true
}.
(** The log of that channel, with message [m] in what is not too old. *)
Record log_of : Prop := LogOf {
  lg_found : logs !! casefold (ch_name o) = Some h ∧ cstr (ch_name o);
  lg_ok : log_ok h;
  lg_ids : NoDup (map l_msgid (h_lines h));
  lg_time : h_max_time h < TStime now;
  lg_young : filter (λ l, TStime now - h_max_time h ≤ l_t l) (h_lines h) = pre ++ m :: post;
  lg_send : Forall (sendable me_name) (pre ++ m :: post);
  lg_short : (length (l_msgid m) < 500)%nat
}.

Abbreviation chathistory := (cmd_chathistory g s cmodes mode_of account_canonical me_name clicaps mtaghandlers batch_id c).

(** The client reads the lines [ls] of the channel, or is told that they are too much. *)
Definition reads (x : res outcome) (n : nat) (ls : list HistoryLogLine) (e : Z) (l : lag) (sub : list Z) : Prop :=
  ∃ st' h' n' l' out, x = Ok ((st', w), n', l', out) ∧
    h_lines h' = pre ++ m :: post ∧ log_ok h' ∧ repr st' (<[casefold (ch_name o) := h']> logs) ∧
    if 2 * q_sendq c <? 3 * total_bytes ls then
      out = [fail_line me_name "MESSAGE_ERROR" [sub; ch_name o] "History too large to deliver"] ∧ l' = l
    else ∃ es, out = map ASent es ∧
      read_answer me_name es = Some (ch_name o, negb (e =? 0),
        flat_map (messages mtaghandlers (HasCapability clicaps (q_caps c) "draft/multiline")) ls).

Context (Hscene : scene) (Hreader : reader_of) (Hlog : log_of).

(** A subcommand that is understood comes to the request. *)
Lemma comes_to_request sub p3 num f n l :
  (strcasecmp (bs sub) (bs "TARGETS") =? 0) = false → num ≠ [] → parse_subcommand me_name (bs sub) p3 num None = inr f →
  chathistory [bs sub; target; p3; num] (st, w) n l =
  answer_request g me_name clicaps mtaghandlers batch_id c (bs sub) (ch_name o) f (st, w) n l.
Proof using Hscene Hreader.
  destruct Hscene as [Hb Hr _ _ _ _]. destruct Hreader as [Hu Ht _ [Ho En] [Hc Hd] Hm Hmode]. intros Hs Hne Hp.
  unfold cmd_chathistory. rewrite Hu, Ht, Hs, Hd. cbn [negb]. rewrite Z.eqb_refl. cbn [negb]. destruct num as [|x num]; [done|].
  destruct (find_spec s M per_block per_block_mb channelmodes Hb Hr target Hc) as (r & -> & Hf). cbn [rbind].
  assert (r = Some ch) as ->.
  { destruct (reach_ok _ _ _ Hb s M Hr) as (G & sp & [_ _ [_ _ Htab _ _ _]] & _).
    destruct r as [ch'|]; [|by destruct (Hf ch o Ho)]. destruct Hf as (o' & Ho' & En').
    f_equal. pose proof (proj2 (Htab (casefold target) ch) ltac:(eauto)) as H1.
    pose proof (proj2 (Htab (casefold target) ch') ltac:(eauto)) as H2. congruence. }
  destruct (account_spec s M account_canonical per_block per_block_mb channelmodes Hb Hr (q_id c) ch) as (b & -> & Hbm).
  cbn [rbind]. rewrite (proj2 Hbm Hm). cbn [negb Channel.get]. rewrite Ho. cbn [rbind]. rewrite Hmode. cbn [negb head].
  by rewrite Hp.
Qed.

(** The request is answered with a page, its limit lowered if need be. *)
Lemma answer_page sub f ls e h' n l :
  0 < limit f →
  hbm_history_request_from now (ch_name o) h (set_limit (Z.min (limit f) CHATHISTORY_LIMIT) f) = Ok (h', result_of (ch_name o) ls e) →
  h_name h' = h_name h → h_lines h' = pre ++ m :: post → log_ok h' → Forall (sendable me_name) ls →
  reads (answer_request g me_name clicaps mtaghandlers batch_id c sub (ch_name o) f (st, w) n l) n ls e l sub.
Proof using Hscene Hreader Hlog.
  destruct Hscene as [_ _ Hg Hfirst HR Hids]. destruct Hreader as [_ Ht Hbt _ _ _ _]. destruct Hlog as [[Hh Hcn] _ _ _ _ _ _].
  intros Hpos E Hn Hl Hok Hs. unfold answer_request, reads. destruct (Z.leb_spec (limit f) 0); [lia|].
  replace (if CHATHISTORY_LIMIT <? limit f then set_limit CHATHISTORY_LIMIT f else f)
    with (set_limit (Z.min (limit f) CHATHISTORY_LIMIT) f).
  2: { destruct (Z.ltb_spec CHATHISTORY_LIMIT (limit f)); [by rewrite Z.min_r by lia|]. rewrite Z.min_l by lia. by destruct f. }
  destruct (mem_request sha256_binary g module now st w logs (ch_name o) h h' _ _ Hg Hfirst HR Hcn Hh E Hn) as (st' & -> & HR').
  cbn [rbind result_of r_num_bytes r_reached_end]. exists st', h'.
  pose proof (send_batch me_name clicaps mtaghandlers batch_id Hids (q_caps c) (result_of (ch_name o) ls e) e n Hs Ht Hbt) as Hread.
  destruct (_ <? _); [eexists _, _, _; by split_and!|]. unfold result_of in Hread |- *.
  destruct (history_send_result _ _ _ _ _ _ _ _) as [es n'] eqn:Es. cbn [fst] in Hread. eexists _, _, _. split; [done|].
  split_and!; try done. by exists es.
Qed.

Lemma latest_reads num lim n l :
  num ≠ [] → atoi num = lim → 0 < lim →
  let k := Z.to_nat (Z.min lim CHATHISTORY_LIMIT) in let all := pre ++ m :: post in
  reads (chathistory [bs "LATEST"; target; bs "*"; num] (st, w) n l) n (lastn k all) (end_flag k all) l (bs "LATEST").
Proof using Hscene Hreader Hlog.
  intros Hne Ha Hpos k all. pose proof Hlog as [_ Hok Hids Htime Hy Hsend Hshort].
  destruct (request_point now (ch_name o) h pre m post (Z.min lim CHATHISTORY_LIMIT) Hok Hids Htime Hy)
    as (h' & Hok' & Hl & Hn & _ & _ & R3).
  rewrite (comes_to_request "LATEST" (bs "*") num (latest_filter None lim)); [|done..|].
  - apply (answer_page _ _ _ _ h'); try done. by apply Forall_drop.
  - unfold parse_subcommand. cbn. by rewrite Ha.
Qed.

(** C8.  A member reads the log.  In every state of the channels and of the registry that calls
    lead to, a client that may read a channel and asks for up to [lim] messages after or
    before a message, or for the latest ones, reads from the answer exactly those lines of
    the log, at most 50, in the order of the log and with their tags and batches, and the
    flag that says whether there are more; the one exception is an answer that would fill
    two thirds of its send queue, which is refused.  The log loses only what is too old. *)
Theorem chathistory_answers num lim n l :
  num ≠ [] → atoi num = lim → 0 < lim →
  let k := Z.to_nat (Z.min lim CHATHISTORY_LIMIT) in
  let id := bs "msgid=" ++ l_msgid m in
  let all := pre ++ m :: post in
  reads (chathistory [bs "AFTER"; target; id; num] (st, w) n l) n (take k post) (end_flag k post) l (bs "AFTER") ∧
  reads (chathistory [bs "BEFORE"; target; id; num] (st, w) n l) n (lastn k pre) (end_flag k pre) l (bs "BEFORE") ∧
  reads (chathistory [bs "LATEST"; target; bs "*"; num] (st, w) n l) n (lastn k all) (end_flag k all) l (bs "LATEST").
Proof using Hscene Hreader Hlog.
  intros Hne Ha Hpos k id all. pose proof Hlog as [_ Hok Hids Htime Hy Hsend Hshort].
  destruct (request_point now (ch_name o) h pre m post (Z.min lim CHATHISTORY_LIMIT) Hok Hids Htime Hy)
    as (h' & Hok' & Hl & Hn & R1 & R2 & R3). unfold oldest_of_page, newest_of_page in R1, R2, R3. fold k in R1, R2, R3.
  pose proof Hsend as [Hs1 [_ Hs2]%Forall_cons]%Forall_app.
  assert (parse_point id = Some (None, Some (l_msgid m))) as Hp.
  { unfold parse_point, id. change (bs "msgid=" ++ l_msgid m) with (bs "msgid" ++ EQUALS :: l_msgid m).
    assert (EQUALS ∉ bs "msgid") as He by by apply (bool_decide_unpack _).
    assert (length (bs "msgid") + length (l_msgid m) < BUFSIZE - 1)%nat as Hlen by (unfold BUFSIZE; cbn [length bs]; lia).
    by rewrite !token_at. }
  split_and!.
  - rewrite (comes_to_request "AFTER" id num (by_id HFC_AFTER (id_of m) None lim)); [|done..|].
    + apply (answer_page _ _ _ _ h'); try done. by apply Forall_take.
    + unfold parse_subcommand. by rewrite Hp, Ha.
  - rewrite (comes_to_request "BEFORE" id num (by_id HFC_BEFORE (id_of m) None lim)); [|done..|].
    + apply (answer_page _ _ _ _ h'); try done. by apply Forall_drop.
    + unfold parse_subcommand. by rewrite Hp, Ha.
  - by apply latest_reads.
Qed.
End Answers.

(** ** TARGETS lists the newest first *)

Definition newer (a b : ChatHistoryTarget) : Prop := text_le b.1 a.1.
Definition target_time (r : HistoryResult) : option ChatHistoryTarget :=
  match r_log r with
  | [] => None
  | line :: _ => (λ t, (t, r_object r)) <$> (find_mtag (l_mtags line) (bs "time") ≫= t_value)
  end.

Lemma add_target_eq l r :
  add_chathistory_target l r = match target_time r with Some t => add_chathistory_target_list t l | None => l end.
Proof.
  unfold add_chathistory_target, target_time. destruct (r_log r) as [|line ls]; [done|].
  by destruct (find_mtag (l_mtags line) (bs "time")) as [[n [v|]]|].
Qed.

Lemma insert_target new l : Forall (λ t, cstr t.1) (new :: l) → StronglySorted newer l →
  add_chathistory_target_list new l ≡ₚ new :: l ∧ StronglySorted newer (add_chathistory_target_list new l).
Proof.
  intros [Hn Hc]%Forall_cons Hs. induction Hs as [|x l Hs IH Hx]; [by repeat constructor|].
  apply Forall_cons in Hc as [Hcx Hc]. destruct (IH Hc) as [Hp Hs']. cbn [add_chathistory_target_list].
  destruct (Z.leb_spec 0 (strcmp new.1 x.1)) as [Hle|Hgt].
  - split; [done|]. assert (newer new x) as Hnx.
    { unfold newer, text_le, strcmp in *. rewrite cmpz_anti. lia. }
    constructor; [by constructor|]. constructor; [done|]. rewrite Forall_forall in *. intros y Hy.
    eapply (text_le_trans _ x.1); auto. by apply Hx.
  - split; [rewrite Hp; by constructor|]. constructor; [done|]. rewrite Hp. constructor; [|done].
    unfold newer, text_le, strcmp in *. lia.
Qed.

(** The answers of the backends to the requests, one after the other. *)
Inductive asked {W} (g : backends W) (f : HistoryFilter) : list (list Z) → W → W → list (option HistoryResult) → Prop :=
| asked_nil w : asked g f [] w w []
| asked_cons name names w w1 w2 x xs :
    history_request name f g w = Ok (w1, x) → asked g f names w1 w2 xs → asked g f (name :: names) w w2 (x :: xs).

(** TARGETS: one entry per channel with a line in the range, the newest first. *)
Lemma targets_newest_first {W} (g : backends W) s f mbs names w w' xs :
  mapM (λ mb, match mb_name s mb with Ok n => Some n | _ => None end) mbs = Some names → asked g f names w w' xs →
  Forall (λ t, cstr t.1) (omap (λ x, x ≫= target_time) xs) →
  ∃ ts, targets_loop g s f mbs w [] = Ok (w', ts) ∧ StronglySorted newer ts ∧ ts ≡ₚ omap (λ x, x ≫= target_time) xs.
Proof.
  intros Hm Ha Hc.
  assert (∀ ts0, StronglySorted newer ts0 → Forall (λ t, cstr t.1) ts0 →
    ∃ ts, targets_loop g s f mbs w ts0 = Ok (w', ts) ∧ StronglySorted newer ts ∧ ts ≡ₚ ts0 ++ omap (λ x, x ≫= target_time) xs) as H.
  2: { by apply (H []); constructor. }
  apply mapM_Some_1 in Hm. revert mbs Hm Hc. induction Ha as [w|name names w w1 w2 x xs E Ha IH]; intros mbs Hm Hc ts0 Hs0 Hc0.
  { apply Forall2_nil_inv_r in Hm as ->. exists ts0. by rewrite app_nil_r. }
  apply Forall2_cons_inv_r in Hm as (mb & mbs' & Hmb & Hm & ->). cbn [targets_loop].
  destruct (mb_name s mb) as [n| |]; try done. injection Hmb as ->. cbn [rbind]. rewrite E. cbn [rbind].
  cbn [omap list_omap] in Hc |- *. destruct (x ≫= target_time) as [t|] eqn:Et.
  - destruct x as [r|]; [|done]. cbn in Et. apply Forall_cons in Hc as [Ht Hc]. rewrite add_target_eq, Et.
    destruct (insert_target t ts0 ltac:(by constructor) Hs0) as [Hp Hs]. destruct (IH mbs' Hm Hc _ Hs) as (ts & -> & Hts & Hperm).
    { rewrite Hp. by constructor. }
    exists ts. split_and!; try done. rewrite Hperm, Hp. simpl. by rewrite Permutation_middle.
  - replace (match x with Some x => add_chathistory_target ts0 x | None => ts0 end) with ts0.
    + by apply IH.
    + destruct x as [r|]; [|done]. cbn in Et. by rewrite add_target_eq, Et.
Qed.

(** ** A server with one channel *)

(** Client 7 makes and joins #c; client 8 does not. *)
Definition demo_users : Channel.cstate := set_users (<[7%nat := User [] 0 true]> ∅) (initial (repeat 1 48)).
Definition demo_made : Channel.cstate := match make_channel 5 (bs "#c") demo_users with Ok (_, s) => s | _ => demo_users end.
Definition demo_joined : Channel.cstate :=
  match add_user_to_channel 8 9 default_modes 0 7 (bs "o") demo_made with Ok s => s | _ => demo_made end.
Abbreviation demo_relation := (<[(0, 7)%nat := bs "o"]> ∅ : gmap (nat * nat) (list Z)).

Lemma demo_joined_reach : reach 8 9 default_modes demo_joined demo_relation.
Proof.
  assert (reach 8 9 default_modes demo_users ∅) as H0.
  { apply (reach_user _ _ _ (initial (repeat 1 48))); [apply reach_start|reflexivity]. }
  assert (make_channel 5 (bs "#c") demo_users = Ok (Some 0%nat, demo_made)) as E1 by (vm_compute; reflexivity).
  assert (reach 8 9 default_modes demo_made ∅) as H1.
  { refine (reach_make _ _ _ _ _ _ _ _ _ H0 _ E1). by apply (bool_decide_unpack _). }
  assert (add_user_to_channel 8 9 default_modes 0 7 (bs "o") demo_made = Ok demo_joined) as E2 by (vm_compute; reflexivity).
  refine (reach_join _ _ _ demo_made ∅ 0 7 (bs "o") demo_joined H1 _ _ _ E2).
  - vm_compute. eauto.
  - vm_compute. eauto.
  - apply lookup_empty.
Qed.

Definition demo_caps : list (list Z * Z) := [(bs "server-time", 2); (bs "batch", 4); (bs "draft/multiline", 8)].
Definition demo_modes : list (Z * Z) := [(72, 1)].
Definition demo_ids (n : nat) : list Z := repeat 97 (S n).
Definition demo_requester (id : nat) : requester := Requester id demo_person 14 3000.

#[local] Existing Instance toy.
Definition mem_registry : backends (hist * world) :=
  (HistoryBackendAdd 1 (mem_backend no_sha 1 sample_now) (load_module 1 (Backends [] ∅ ∅ ∅ 0))).1.

Lemma mem_registry_breach : breach mem_registry.
Proof.
  apply breach_add; [apply breach_load; [apply breach_init|set_solver]|set_solver| |].
  - constructor; by intros f [= <-].
  - by apply (bool_decide_unpack _).
Qed.

Lemma chathistory_private_witness :
  ∃ n' out, ∀ g w, cmd_chathistory (W:=hist * world) g demo_joined demo_modes (λ _, 1) None (bs "irc.test") demo_caps [] demo_ids
    (demo_requester 8) [bs "LATEST"; bs "#C"; bs "*"; bs "10"] w 0 (Lag 0 0) = Ok (w, n', Lag 0 0, out).
Proof.
  destruct (chathistory_private (W:=hist * world) demo_joined demo_relation demo_modes (λ _, 1) None (bs "irc.test") demo_caps [] demo_ids
    8 9 default_modes ltac:(lia) demo_joined_reach (demo_requester 8)) as (_ & H & _).
  apply (H (bs "LATEST") (bs "#C") (bs "*") (bs "10") [] 0%nat (Lag 0 0) eq_refl); [by apply (bool_decide_unpack _)|reflexivity|].
  intros ch o Ho _ [Hm|(? & ? & ? & _)]; [|done]. exfalso. destruct Hm as [x Hx]. cbn [q_id demo_requester] in Hx.
  apply lookup_insert_Some in Hx as [[[=] _]|[_ Hx]]. by rewrite lookup_empty in Hx.
Defined.

Lemma chathistory_answers_witness :
  reads (bs "irc.test") demo_caps [] demo_world {[bs "#c" := sample_log]} (demo_requester 7)
    (Chan (bs "#c") 1 [8%nat] [9%nat] [] [] [] 5) [] [sample_line "B" (SAMPLE_TIME + 1); sample_line "C" (SAMPLE_TIME + 2)]
    (sample_line "A" SAMPLE_TIME)
    (cmd_chathistory mem_registry demo_joined demo_modes (λ _, 1) None (bs "irc.test") demo_caps [] demo_ids (demo_requester 7)
       [bs "AFTER"; bs "#C"; bs "msgid=A"; bs "1"] (sample_table, demo_world) 0 (Lag 0 0)) 0
    [sample_line "B" (SAMPLE_TIME + 1)] 0 (Lag 0 0) (bs "AFTER").
Proof.
  refine (proj1 (chathistory_answers no_sha demo_joined demo_relation demo_modes (λ _, 1) None (bs "irc.test") demo_caps [] demo_ids
    8 9 default_modes mem_registry 1 sample_now sample_table demo_world {[bs "#c" := sample_log]} (demo_requester 7) 0 _ (bs "#C")
    sample_log [] [sample_line "B" (SAMPLE_TIME + 1); sample_line "C" (SAMPLE_TIME + 2)] (sample_line "A" SAMPLE_TIME)
    _ _ _ (bs "1") 1 0 (Lag 0 0) _ _ _)); [..|done|reflexivity|lia].
  - constructor; [lia|apply demo_joined_reach|apply mem_registry_breach|reflexivity|apply sample_repr|].
    intros n. split; [done|]. by intros ?%list_elem_of_In%repeat_spec.
  - constructor; try reflexivity.
    + split; vm_compute; reflexivity.
    + split; [by apply (bool_decide_unpack _)|reflexivity].
    + left. by eexists.
  - constructor.
    + split; [apply lookup_singleton_eq|by apply (bool_decide_unpack _)].
    + apply sample_log_ok.
    + apply (bool_decide_unpack _). vm_compute. reflexivity.
    + vm_compute. reflexivity.
    + vm_compute. reflexivity.
    + repeat constructor; cbn; try (intros ?; discriminate); by vm_compute.
    + cbn. lia.
Defined.
