(* ===== verification/Conversation.v ===== *)
(** * From the speaker to the reader

    The parts of the channel history put together: somebody speaks in a channel
    with mode +H ([HistoryMode]), the backends record it ([HistoryApi], [History]),
    and a member who asks for the latest message later ([Chathistory]) reads it. *)

From stdpp Require Import base tactics list numbers strings gmap sorting.
From Stdlib Require Import ZArith Lia.
From S2P Require Import Prelude Chars Support MessageTags Times Hash MemberModes Channel Parse.
From S2P Require Import Unrealdb HistoryLog HistoryRequests HistoryFile History HistoryApi HistoryMode Chathistory.

Local Open Scope Z_scope.

(** ** What is recorded is not a command *)

Lemma behind_some p s r : behind p s = Some r → s = p ++ r.
Proof.
  revert s. induction p as [|a p IH]; intros s; simpl; [by intros [= ->]|]. destruct s as [|b s]; [done|].
  destruct (Z.eqb_spec a b) as [->|]; [|done]. intros H%IH. by subst.
Qed.

(** Two texts that begin with a word each. *)
Lemma first_word a b x y : SPACE_CH ∉ a → SPACE_CH ∉ b → a ++ SPACE_CH :: x = b ++ SPACE_CH :: y → x = y.
Proof.
  intros Ha Hb E. assert (take_while (λ c, negb (c =? SPACE_CH)) (a ++ SPACE_CH :: x) = a) as E1 by by apply word_of.
  rewrite E, word_of in E1 by done. subst b. apply (inj (app a)) in E. congruence.
Qed.

Definition spoken (c : speaker) (channel : list Z) (sendtype : SendType) (text : list Z) : list Z :=
  take 511 (bs ":" ++ source_of c ++ bs " " ++ sendtype_to_cmd sendtype ++ bs " " ++ channel ++ bs " :" ++ text).

Lemma spoken_plain me_name c channel sendtype text :
  SPACE_CH ∉ source_of c → SPACE_CH ∉ me_name → plain_text me_name (spoken c channel sendtype text).
Proof.
  intros Hs Hm. unfold plain_text. destruct (behind _ _) as [r|] eqn:E; [|done]. exfalso. apply behind_some in E.
  assert (length (source_of c) ≤ 63)%nat as Hl.
  { unfold source_of. destruct (sp_user c) as [[u h]|]; rewrite length_take; lia. }
  set (cmd := sendtype_to_cmd sendtype ++ bs " "). set (rest := channel ++ bs " :" ++ text).
  assert (spoken c channel sendtype text = bs ":" ++ source_of c ++ SPACE_CH :: cmd ++ take (511 - (1 + length (source_of c) + 1 + length cmd)) rest) as E2.
  { assert (spoken c channel sendtype text = take 511 ((bs ":" ++ source_of c ++ SPACE_CH :: cmd) ++ rest)) as ->.
    { unfold spoken, cmd, rest. f_equal. rewrite <-!app_assoc. cbn [app]. by rewrite <-app_assoc. }
    assert (length (bs ":" ++ source_of c ++ SPACE_CH :: cmd) = 1 + length (source_of c) + 1 + length cmd)%nat as Hlen.
    { rewrite !length_app. cbn [length bs]. lia. }
    rewrite take_app_ge, Hlen.
    - rewrite <-!app_assoc. done.
    - rewrite Hlen. unfold cmd. rewrite length_app. destruct sendtype; simpl; lia. }
  rewrite E2 in E. rewrite <-!app_assoc in E. injection E as E. change (bs " BATCH " ++ r) with (SPACE_CH :: bs "BATCH " ++ r) in E.
  apply first_word in E; [|done..]. unfold cmd in E. by destruct sendtype.
Qed.

(** ** What is recorded is the newest line *)

(** Tags with a time and an id. *)
Record stamped (mtags : list MessageTag) (t : Z) (ts id : list Z) : Prop := Stamped {
  st_time : ∃ n, find_mtag mtags (bs "time") = Some (MTag n (Some ts)) ∧ cstr ts ∧ server_time_to_unix_time (Some ts) = Ok t;
  st_pos : 0 < t;
  st_id : ∃ n, find_mtag mtags (bs "msgid") = Some (MTag n (Some id));
  st_cstr : cstr id
}.

Lemma stamped_duplicate now mtags t ts id : stamped mtags t ts id → hbm_duplicate_mtags now mtags = Ok (mtags, t, Some ts, id).
Proof.
  intros [(n & Ft & _ & Ht) _ (n' & Fm) _]. unfold hbm_duplicate_mtags. rewrite Ft. cbn [rbind t_value]. rewrite Ht.
  cbn [rbind]. by rewrite Fm.
Qed.
Lemma stamped_tags now mtags t ts id : stamped mtags t ts id → cstr (random_msgid now) → tags_ok now mtags.
Proof.
  intros [(n & Ft & Hc & Ht) Hpos (n' & Fm) Hid] Hr. constructor; [rewrite Ft; by exists ts, t| |done].
  intros tag v. rewrite Fm. intros [= <-] [= <-]. done.
Qed.

(** A line whose time is not behind [t], written [ts]. *)
Definition not_later (t : Z) (ts : list Z) (l : HistoryLogLine) : Prop :=
  l_t l < t ∨ (l_t l = t ∧ strcmp (line_time l) ts ≤ 0).

Lemma add_newest now h mtags line t ts id :
  log_ok h → 1 ≤ h_max_lines h → stamped mtags t ts id → cstr (random_msgid now) →
  id ∉ map l_msgid (h_lines h) → Forall (not_later t ts) (h_lines h) →
  ∃ h' j l, hbm_history_add_to now h mtags line = Ok h' ∧ log_ok h' ∧ h_lines h' = drop j (h_lines h) ++ [l] ∧
    l_mtags l = mtags ∧ l_line l = line ∧ l_batch l = [] ∧ l_msgid l = id ∧ l_t l = t ∧
    h_max_time h' = h_max_time h ∧ h_name h' = h_name h.
Proof.
  intros Hlog Hm Hst Hr Hid Hold. pose proof (stamped_duplicate now mtags t ts id Hst) as Ed.
  destruct (history_add_ok now h mtags line Hlog ltac:(left; lia) ltac:(by eapply stamped_tags)) as (h' & E & Hlog' & Hres & Hsame).
  assert (default_limit h = h) as Hd.
  { unfold default_limit. destruct (Z.eqb_spec (h_max_lines h) 0); [lia|done]. }
  rewrite Hd in Hsame. destruct Hsame as (_ & Ht & Hn). exists h'.
  destruct Hres as [j e m t' s' id' Ed' Hl He Hid'|j k l m t' s' id' Ed' E1 E2 E3 E4 E5 E6 Hl Hbehind]; rewrite Ed in Ed'; simplify_eq.
  - exfalso. apply Hid. rewrite Hl in He. apply (list_elem_of_fmap_2 l_msgid). by eapply elem_of_sublist; [exact He|apply sublist_drop].
  - exists j, l. assert (drop k (drop j (h_lines h)) = []) as Hnil.
    { destruct (drop k (drop j (h_lines h))) as [|x r] eqn:Ex; [done|]. exfalso.
      destruct (Hbehind x ltac:(by left)) as [_ Hnot]. apply Hnot.
      assert (x ∈ h_lines h) as Hx.
      { assert (x ∈ drop k (drop j (h_lines h))) by (rewrite Ex; by left). eapply elem_of_sublist; [|apply (sublist_drop _ j)].
        by eapply elem_of_sublist; [|apply (sublist_drop _ k)]. }
      rewrite Forall_forall in Hold. unfold line_le, text_le. rewrite (line_time_eq l ts) by congruence. by apply Hold. }
    split_and!; try done. rewrite Hl, Hnil. apply (f_equal length) in Hnil. rewrite length_drop in Hnil. simpl in Hnil.
    by rewrite take_ge by lia.
Qed.

(** ** Speaking and reading *)

Section Spoken.
Context `{C : Crypto} (sha256_binary : list Z → list Z).
Context (s : Channel.cstate) (M : gmap (nat * nat) (list Z)) (cmodes : list (Z * Z)) (mode_of : nat → Z)
  (account_canonical : option (nat → option nat)) (me_name : list Z) (clicaps : list (list Z * Z))
  (mtaghandlers : list MessageTagHandler) (batch_id : nat → list Z).
Context (per_block per_block_mb : nat) (channelmodes : list Cmode).
(** The registry and the time when the message is said, and when it is read. *)
Context (g1 g2 : backends (hist * world)) (m1 m2 : nat) (now1 now2 : moment) (st : hist) (w : world)
  (logs : gmap (list Z) HistoryLogObject).
Context (c : requester) (ch : nat) (o : chan) (target : list Z) (h : HistoryLogObject).
(** Who says what. *)
Context (p : speaker) (sendtype : SendType) (text : list Z) (mtags : list MessageTag) (t : Z) (ts id : list Z).

Lemma mem_add name line h' :
  breach g1 → service_of (mem_hooks sha256_binary m1 now1) :: [] = Some <$> services g1 → repr st logs → cstr name →
  logs !! casefold name = Some h → hbm_history_add_to now1 h mtags line = Ok h' → h_name h' = h_name h →
  ∃ st', history_add name mtags line g1 (st, w) = Ok (st', w) ∧ repr st' (<[casefold name := h']> logs).
Proof.
  intros Hg Hs HR Hn Hh E Hname. rewrite add_services by by apply breach_ok.
  destruct (services g1) as [|s0 [|]]; try done. injection Hs as <-. cbn [each_service s_add func].
  unfold hbm_history_add, hbm_find_or_add_object. pose proof (find_object_repr st logs HR name Hn) as Hf.
  unfold hbm_find_object in Hf. destruct (find_from _ _ _) as [[i h0]|]; [|congruence]. destruct Hf as (E0 & Hi & Ec).
  assert (h0 = h) as -> by congruence. cbv zeta. rewrite E. cbn [rbind]. eexists. split; [done|]. rewrite <-Ec. by apply put_object_repr.
Qed.

(** What the message must be: not a CTCP, from a name without spaces, with a time
    that is not before any of the log and an id of its own. *)
Record message_ok : Prop := MessageOk {
  ms_type : sendtype ≠ SEND_TYPE_TAGMSG;
  ms_ctcp : is_ctcp (Some text) = false;
  ms_source : (SPACE_CH ∉ source_of p) ∧ (SPACE_CH ∉ me_name);
  ms_stamp : stamped mtags t ts id ∧ (length id < 500)%nat ∧ cstr (random_msgid now1);
  ms_tags : Forall (λ x, ¬ is_tag "batch" x) mtags ∧ Forall (λ x, ¬ is_tag "draft/multiline-concat" x) mtags;
  ms_new : (id ∉ map l_msgid (h_lines h)) ∧ Forall (not_later t ts) (h_lines h);
  ms_age : TStime now2 - h_max_time h ≤ t ∧ h_max_time h < TStime now2
}.
Record log_before : Prop := LogBefore {
  lb_found : logs !! casefold (ch_name o) = Some h ∧ cstr (ch_name o);
  lb_ok : log_ok h ∧ 1 ≤ h_max_lines h;
  lb_ids : NoDup (map l_msgid (h_lines h));
  lb_send : Forall (sendable me_name) (h_lines h)
}.
Record server_ok : Prop := ServerOk {
  sv_blocks : (0 < per_block)%nat ∧ (0 < per_block_mb)%nat;
  sv_reach : reach per_block per_block_mb channelmodes s M;
  sv_breach : breach g1 ∧ breach g2;
  sv_first : service_of (mem_hooks sha256_binary m1 now1) :: [] = Some <$> services g1 ∧
             service_of (mem_hooks sha256_binary m2 now2) = head (services g2);
  sv_repr : repr st logs;
  sv_ids : ∀ n, batch_id n ≠ [] ∧ (SPACE_CH ∉ batch_id n)
}.

(** The log with the message, as the reader will see it. *)
Lemma log_after h1 j x :
  log_before → message_ok → log_ok h1 → h_lines h1 = drop j (h_lines h) ++ [x] → l_mtags x = mtags →
  l_line x = spoken p (ch_name o) sendtype text → l_batch x = [] → l_msgid x = id → l_t x = t → h_max_time h1 = h_max_time h →
  log_of me_name now2 (<[casefold (ch_name o) := h1]> logs) o h1
    (filter (λ y, TStime now2 - h_max_time h1 ≤ l_t y) (drop j (h_lines h))) [] x.
Proof.
  intros [[Hh Hcn] _ Hnd Hsend] [_ _ [Hsp1 Hsp2] (_ & Hlen & _) [Ht1 Ht2] [Hnew _] [Hage Hmax]] Hlog1 Hl1 X1 X2 X3 X4 X5 X6.
  assert (drop j (h_lines h) `sublist_of` h_lines h) as Hsub by apply sublist_drop.
  constructor; [by rewrite lookup_insert_eq|done| |lia| | |congruence].
  - rewrite Hl1, map_app. apply NoDup_app. split_and!.
    + eapply sublist_NoDup; [exact Hnd|]. by apply (fmap_sublist l_msgid).
    + intros i Hi ->%list_elem_of_singleton. rewrite X4 in Hi. apply Hnew. eapply elem_of_sublist; [exact Hi|]. by apply (fmap_sublist l_msgid).
    + apply NoDup_singleton.
  - rewrite Hl1, filter_app. f_equal. rewrite filter_cons, decide_True; [done|]. rewrite X6, X5. lia.
  - apply Forall_app. split.
    + apply (sublist_Forall _ (h_lines h)); [|done]. transitivity (drop j (h_lines h)); [apply sublist_filter|done].
    + constructor; [|constructor]. constructor; rewrite ?X1; [done..|]. unfold batch_lines. rewrite X3.
      constructor; [|constructor]. cbn [fst]. rewrite X2. by apply spoken_plain.
Qed.

(** C6.  What is said can be read.  A user (whose name has no space) says something, not a CTCP or a
    message of tags only, in a channel with mode +H and a limit of at least one line; the message
    carries an id that no line of the log has, a time that is not before any of them, and no tag of
    a batch.  A local member with the capabilities for times and batches that later asks for the
    latest message, while that is not too old, reads exactly this message: its tags, and the line
    with the source, the command, the channel and the text, cut to 511 bytes.  When its send queue
    has no room for it the member is told so instead.  The backend in memory is the only one when
    the message is said, and the first when it is read; the lines that the log has are such that
    they can be sent, with ids of their own. *)
Theorem said_is_read n l :
  server_ok → reader_of s M cmodes mode_of account_canonical clicaps c ch o target → log_before → message_ok →
  let line := spoken p (ch_name o) sendtype text in
  ∃ st1, history_chanmsg g1 false true p (ch_name o) None mtags (Some text) sendtype (st, w) = Ok (st1, w) ∧
  ∃ st' n' l' out, cmd_chathistory g2 s cmodes mode_of account_canonical me_name clicaps mtaghandlers batch_id c
      [bs "LATEST"; target; bs "*"; bs "1"] (st1, w) n l = Ok ((st', w), n', l', out) ∧
    if 2 * q_sendq c <? 3 * Z.of_nat (length line) then
      out = [fail_line me_name "MESSAGE_ERROR" [bs "LATEST"; ch_name o] "History too large to deliver"]
    else ∃ es e, out = map ASent es ∧ read_answer me_name es = Some (ch_name o, e, [(mtags, [(line, false)])]).
Proof.
  intros [Hb Hr [Hg1 Hg2] [Hf1 Hf2] HR Hids] Hread [[Hh Hcn] [Hlog Hml] Hnd Hsend]
    [Hty Hct [Hsp1 Hsp2] (Hst & Hlen & Hrnd) [Ht1 Ht2] [Hnew Hold] [Hage Hmax]] line.
  destruct (add_newest now1 h mtags line t ts id Hlog Hml Hst Hrnd Hnew Hold)
    as (h1 & j & x & E & Hlog1 & Hl1 & X1 & X2 & X3 & X4 & X5 & X6 & X7).
  destruct (mem_add (ch_name o) line h1 Hg1 Hf1 HR Hcn Hh E X7) as (st1 & Ea & HR1).
  exists st1. split.
  { unfold history_chanmsg. rewrite Hct. cbn [negb]. destruct sendtype; [exact Ea|exact Ea|done]. }
  pose proof (Scene sha256_binary s M batch_id per_block per_block_mb channelmodes g2 m2 now2 st1 _ Hb Hr Hg2 Hf2 HR1 Hids) as Hsc.
  pose proof (log_after h1 j x ltac:(by constructor) ltac:(by constructor) Hlog1 Hl1 X1 X2 X3 X4 X5 X6) as Hlg.
  set (pre := filter _ _) in Hlg.
  destruct (latest_reads sha256_binary s M cmodes mode_of account_canonical me_name clicaps mtaghandlers batch_id per_block per_block_mb
    channelmodes g2 m2 now2 st1 w _ c ch o target h1 pre [] x Hsc Hread Hlg (bs "1") 1 n l ltac:(done) eq_refl ltac:(lia))
    as (st' & h' & n' & l' & out & Eo & _ & _ & _ & Hout).
  assert (lastn 1 (pre ++ [x]) = [x]) as Elast.
  { unfold lastn. rewrite length_app, Nat.add_sub, drop_app_length. done. }
  change (Z.to_nat (Z.min 1 CHATHISTORY_LIMIT)) with 1%nat in Hout. rewrite Elast in Hout.
  assert (total_bytes [x] = Z.of_nat (length line)) as Etot.
  { destruct Hlog1 as [[Hok _ _ _] _ _]. rewrite Hl1 in Hok. apply Forall_app in Hok as [_ [Hok _]%Forall_cons].
    destruct Hok as [_ _ _ _ _ _ Hbytes]. cbn [total_bytes]. rewrite Hbytes, X2, X3. cbn [batch_bytes foldr]. unfold line. lia. }
  rewrite Etot in Hout. exists st', n', l', out. split; [exact Eo|]. destruct (_ <? _); [by destruct Hout|].
  destruct Hout as (es & -> & Hes). eexists es, _. split; [done|]. rewrite Hes. cbn [flat_map]. unfold messages. rewrite X3, X1, X2. done.
Qed.
End Spoken.

(** ** An example *)

#[local] Existing Instance toy.

Definition bob : speaker := Speaker (bs "bob") (Some (bs "b", bs "host")).
Definition demo_mtags : list MessageTag :=
  [MTag (bs "time") (Some (stamp (SAMPLE_TIME + 5) 0)); MTag (bs "msgid") (Some (bs "D"))].

Lemma said_is_read_witness :
  ∃ st1, history_chanmsg mem_registry false true bob (bs "#c") None demo_mtags (Some (bs "hello all")) SEND_TYPE_PRIVMSG
      (sample_table, demo_world) = Ok (st1, demo_world) ∧
  ∃ st' n' l' out, cmd_chathistory mem_registry demo_joined demo_modes (λ _, 1) None (bs "irc.test") demo_caps [] demo_ids
      (demo_requester 7) [bs "LATEST"; bs "#C"; bs "*"; bs "1"] (st1, demo_world) 0 (Lag 0 0) = Ok ((st', demo_world), n', l', out) ∧
    ∃ es e, out = map ASent es ∧
      read_answer (bs "irc.test") es = Some (bs "#c", e, [(demo_mtags, [(bs ":bob!b@host PRIVMSG #c :hello all", false)])]).
Proof.
  refine (said_is_read no_sha demo_joined demo_relation demo_modes (λ _, 1) None (bs "irc.test") demo_caps [] demo_ids 8 9 default_modes
    mem_registry mem_registry 1 1 sample_now sample_now sample_table demo_world {[bs "#c" := sample_log]} (demo_requester 7) 0
    (Chan (bs "#c") 1 [8%nat] [9%nat] [] [] [] 5) (bs "#C") sample_log bob SEND_TYPE_PRIVMSG (bs "hello all") demo_mtags (SAMPLE_TIME + 5) (stamp (SAMPLE_TIME + 5) 0) (bs "D")
    0 (Lag 0 0) _ _ _ _).
  - constructor; [lia|apply demo_joined_reach|split; apply mem_registry_breach|split; reflexivity|apply sample_repr|].
    intros n. split; [done|]. by intros ?%list_elem_of_In%repeat_spec.
  - constructor; try reflexivity.
    + split; vm_compute; reflexivity.
    + split; [by apply (bool_decide_unpack _)|reflexivity].
    + left. by eexists.
  - constructor.
    + split; [apply lookup_singleton_eq|by apply (bool_decide_unpack _)].
    + split; [apply sample_log_ok|cbn; lia].
    + apply (bool_decide_unpack _). vm_compute. reflexivity.
    + repeat constructor; done.
  - assert (unix : server_time_to_unix_time (Some (stamp (SAMPLE_TIME + 5) 0)) = Ok (SAMPLE_TIME + 5)).
    { apply unix_time_stamp. split; unfold SAMPLE_TIME, MAX_TIME; lia. }
    constructor; [done|reflexivity| | | | |split; cbn; unfold SAMPLE_TIME; lia].
    + split; by apply (bool_decide_unpack _).
    + split_and!; [constructor|cbn; lia|by apply (bool_decide_unpack _)].
      * eexists _. split; [done|]. split; [apply stamp_cstr|exact unix].
      * unfold SAMPLE_TIME. lia.
      * by eexists.
      * by apply (bool_decide_unpack _).
    + split; repeat constructor; done.
    + split; [by apply (bool_decide_unpack _)|]. repeat (apply Forall_cons; split; [left; cbn; lia|]). by apply Forall_nil.
Defined.
