(* ===== verification/UserMatch.v ===== *)
(** * Masks of users (src/modules/tkl.c)

    Matching a client against a mask nick!user\@host, user\@host or host.  The
    host is a name with wildcards, an address, or a network in the notation of
    CIDR, and is compared with what a client is known by: the visible, the
    cloaked and the real host and the address.  Bans, security groups and most
    blocks of the configuration come down to this function. *)

From stdpp Require Import base tactics list numbers strings sets.
From Stdlib Require Import ZArith Lia.
From S2P Require Import Prelude Chars Support Utf8 Match Hash MemberModes Channel Bans Times.

Local Open Scope Z_scope.

Abbreviation SLASH := 47 (only parsing).
Abbreviation TILDE := 126 (only parsing).
Abbreviation PERCENT := 37 (only parsing).

(** ** Clients *)

(** [us_channels]: the name of each channel and the member modes there. *)
Record user := MkUser {
  us_username : list Z;
  us_realhost : list Z;
  us_virthost : list Z;
  us_cloakedhost : list Z;
  us_account : list Z;
  us_channels : list (list Z * list Z)
}.

(** What a connection of this server has; [lc_port] is the port of its
    listener. *)
Record localclient := LocalClient { lc_sockhost : list Z; lc_creationtime : Z; lc_port : option Z }.

(** [uc_moddata] is moddata_client_get(), NULL being [None]; [uc_port] the
    port another server told about a remote client. *)
Record uclient := UClient {
  uc_id : nat;
  uc_name : list Z;
  uc_ident : list Z;
  uc_info : list Z;
  uc_ip : option (list Z);
  uc_user : option user;
  uc_local : option localclient;
  uc_isuser : bool;
  uc_hidden : bool;
  uc_secure_connect : bool;
  uc_tls : bool;
  uc_oper : bool;
  uc_moddata : list Z → option (list Z);
  uc_port : option Z
}.

Definition MyConnect (c : uclient) : bool := bool_decide (is_Some (uc_local c)).
Definition MyUser (c : uclient) : bool := MyConnect c && uc_isuser c.
Definition GetHost (c : uclient) (u : user) : list Z := if uc_hidden c then us_virthost u else us_realhost u.
Definition IsLoggedIn (c : uclient) : bool :=
  match uc_user c with
  | None => false
  | Some u => negb (deref (us_account u) =? STAR) && negb (isdigit (deref (us_account u)))
  end.

(** ** Extended bans by their form *)

(** The loop stops at the first colon; other characters never end it. *)
Definition is_extended_ban (str : list Z) : bool :=
  match str with
  | c :: r => (c =? TILDE) && bool_decide (COLON ∈ r)
  | [] => false
  end.
Definition is_extended_server_ban (str : list Z) : bool :=
  is_extended_ban (match str with c :: r => if c =? PERCENT then r else str | [] => str end).

(** ** Networks *)

(** memcmp() on the whole bytes, then the bits of the next one. *)
Definition comp_with_mask (addr dest : list Z) (mask : Z) : res bool :=
  let n := Z.to_nat (mask / 8) in
  if (length addr <? n)%nat || (length dest <? n)%nat then UB
  else if bool_decide (take n addr = take n dest) then
    let m := Z.shiftl 0xffff (8 - mask mod 8) in
    if mask mod 8 =? 0 then Ok true
    else
      match addr !! n, dest !! n with
      | Some a, Some d => Ok (Z.land a m =? Z.land d m)
      | _, _ => UB
      end
  else Ok false.

Definition MATCH_CHECK_IP : Z := 0x0001.
Definition MATCH_CHECK_REAL_HOST : Z := 0x0002.
Definition MATCH_CHECK_CLOAKED_HOST : Z := 0x0004.
Definition MATCH_CHECK_VISIBLE_HOST : Z := 0x0008.
Definition MATCH_CHECK_EXTENDED : Z := 0x0010.
Definition MATCH_CHECK_ALL : Z := 0x001f.
Definition MATCH_CHECK_REAL : Z := 0x0013.
Definition MATCH_MASK_IS_UHOST : Z := 0x1000.
Definition MATCH_MASK_IS_HOST : Z := 0x2000.

Definition option_set (options flag : Z) : bool := negb (Z.land options flag =? 0).

Section Match.
(** inet_pton(AF_INET) and inet_pton(AF_INET6) of the system, and what
    [_match_user_extended_server_ban] of the modules answers. *)
Context (inet_pton4 inet_pton6 : list Z → option (list Z)).
Context (match_extended : list Z → uclient → res bool).

(** match_simple() on a host that may be NULL. *)
Definition match_opt (mask : list Z) (host : option (list Z)) : res bool :=
  match host with None => Ok false | Some h => match_simple mask h end.

(** What remains of the host mask and the length behind the slash; [None] is
    an invalid length. *)
Definition split_cidr (hmask : list Z) : option (list Z * option Z) :=
  match split_first SLASH hmask with
  | None => Some (hmask, None)
  | Some (h, p) => let cidr := atoi p in if cidr <=? 0 then None else Some (h, Some cidr)
  end.

Definition wild (s : list Z) : bool := strchr s QMARK || strchr s STAR.

(** The check on the address: [Some r] returns, [None] goes on. *)
Definition match_ip (hmask : list Z) (cidr : option Z) (c : uclient) : res (option bool) :=
  if wild hmask then
    let! m := match_opt hmask (uc_ip c) in Ok (if m : bool then Some true else None)
  else if strchr hmask COLON then
    match uc_ip c with
    | None => Ok (Some false)
    | Some ip =>
        if negb (strchr ip COLON) then Ok (Some false)
        else
          match inet_pton6 ip, inet_pton6 hmask with
          | Some clientip, Some maskip =>
              match cidr with
              | None => let! r := comp_with_mask clientip maskip 128 in Ok (Some r)
              | Some n => if 128 <? n then Ok (Some false) else let! r := comp_with_mask clientip maskip n in Ok (Some r)
              end
          | _, _ => Ok (Some false)
          end
    end
  else
    match uc_ip c ≫= inet_pton4 with
    | None => Ok None
    | Some clientip =>
        match inet_pton4 hmask with
        | None => Ok None
        | Some maskip =>
            match cidr with
            | None => let! r := comp_with_mask clientip maskip 32 in Ok (if r : bool then Some true else None)
            | Some n => if 32 <? n then Ok (Some false) else let! r := comp_with_mask clientip maskip n in Ok (Some r)
            end
        end
    end.

Definition visible_host (c : uclient) : option (list Z) :=
  match uc_user c with
  | Some u => Some (GetHost c u)
  | None => if MyUser c then lc_sockhost <$> uc_local c else None
  end.
Definition real_host (c : uclient) : option (list Z) :=
  match uc_user c with Some u => Some (us_realhost u) | None => lc_sockhost <$> uc_local c end.

(** Everything behind the checks of nick and user name. *)
Definition match_host (options : Z) (hmask : list Z) (c : uclient) : res bool :=
  let real hmask :=
    if option_set options MATCH_CHECK_REAL_HOST then match_opt hmask (real_host c) else Ok false in
  let! m := if option_set options MATCH_CHECK_VISIBLE_HOST then match_opt hmask (visible_host c) else Ok false in
  if m : bool then Ok true
  else
    let! m := if option_set options MATCH_CHECK_CLOAKED_HOST then match_opt hmask (us_cloakedhost <$> uc_user c) else Ok false in
    if m : bool then Ok true
    else if option_set options MATCH_CHECK_IP then
      match split_cidr hmask with
      | None => Ok false
      | Some (hmask, cidr) =>
          let! r := match_ip hmask cidr c in
          match r with Some b => Ok b | None => real hmask end
      end
    else real hmask.

Definition client_username (c : uclient) : list Z :=
  match uc_user c with
  | Some u => match us_username u with [] => uc_ident c | name => name end
  | None => uc_ident c
  end.

Definition MASKLEN : nat := NICKLEN + USERLEN + HOSTLEN + 8.

(** The user name and the host: [nick] is what is in front of an exclamation
    mark, [rest] what is behind it, or everything. *)
Definition match_user_host (options : Z) (nick : option (list Z)) (rest : list Z) (c : uclient) : res bool :=
  if option_set options MATCH_MASK_IS_HOST then match_host options (default rest nick) c
  else
    match split_first AT rest with
    | Some (umask, hmask) =>
        match hmask, default umask nick with
        | [], _ | _, [] => Ok false
        | _, _ =>
            let! m := match_simple umask (client_username c) in
            if m : bool then match_host options hmask c else Ok false
        end
    | None => match nick with Some _ => Ok false | None => match_host options rest c end
    end.

Definition match_user (rmask : list Z) (c : uclient) (options : Z) : res bool :=
  let mask := (Strl.strlcpy [] rmask MASKLEN).1 in
  if option_set options MATCH_CHECK_EXTENDED && is_extended_server_ban mask && bool_decide (is_Some (uc_user c)) then
    match_extended rmask c
  else
    match (if option_set options MATCH_MASK_IS_UHOST then None else split_first BANG mask) with
    | Some (nmask, umask) =>
        match nmask with
        | [] => Ok false
        | _ =>
            let! m := match_simple nmask (uc_name c) in
            if m : bool then match_user_host options (Some nmask) umask c else Ok false
        end
    | None => match_user_host options None mask c
    end.

(** [_unreal_match_iplist] *)
Definition iplist_entry (ip clientip : list Z) (client_ipv6 : bool) (mask : list Z) (cidr : option Z) : res bool :=
  if strchr mask STAR || strchr mask QMARK then match_simple mask ip
  else if strchr mask COLON then
    if negb client_ipv6 then Ok false
    else
      match inet_pton6 mask with
      | None => Ok false
      | Some maskip =>
          match cidr with
          | None => comp_with_mask clientip maskip 128
          | Some n => if 128 <? n then Ok false else comp_with_mask clientip maskip n
          end
      end
  else if client_ipv6 then Ok false
  else
    match inet_pton4 mask with
    | None => Ok false
    | Some maskip =>
        match cidr with
        | None => comp_with_mask clientip maskip 32
        | Some n => if 32 <? n then Ok false else comp_with_mask clientip maskip n
        end
    end.

Fixpoint iplist_loop (ip clientip : list Z) (client_ipv6 : bool) (l : list (list Z)) : res bool :=
  match l with
  | [] => Ok false
  | name :: r =>
      match split_cidr (Strl.strlcpy [] name 512).1 with
      | None => Ok false
      | Some (mask, cidr) =>
          let! m := iplist_entry ip clientip client_ipv6 mask cidr in
          if m : bool then Ok true else iplist_loop ip clientip client_ipv6 r
      end
  end.

Definition unreal_match_iplist (c : uclient) (l : list (list Z)) : res bool :=
  match uc_ip c with
  | None => Ok false
  | Some ip =>
      let v6 := strchr ip COLON in
      match (if v6 then inet_pton6 ip else inet_pton4 ip) with
      | None => Ok false
      | Some clientip => iplist_loop ip clientip v6 l
      end
  end.
End Match.

(** ** Networks: the first bits *)

(** Two addresses agree in their first [n] bits. *)
Definition same_net (n : nat) (a b : list Z) : Prop := ∀ i, (i < n)%nat → addr_bit a i = addr_bit b i.
#[global] Instance same_net_dec n a b : Decision (same_net n a b).
Proof.
  refine (cast_if (decide (Forall (λ i, addr_bit a i = addr_bit b i) (seq 0 n)))); unfold same_net; rewrite Forall_forall in *.
  - abstract (intros i Hi; match goal with H : _ |- _ => apply H end; apply elem_of_seq; lia).
  - abstract (intros H; match goal with N : ¬ _ |- _ => apply N end; intros i Hi%elem_of_seq; apply H; lia).
Defined.

Definition bytes (l : list Z) : Prop := Forall (λ x, 0 ≤ x < 256) l.
Definition byte_bit (x : Z) (j : nat) : bool := Z.testbit x (7 - Z.of_nat j).

Lemma addr_bit_byte a n x j : a !! n = Some x → (j < 8)%nat → addr_bit a (8 * n + j) = byte_bit x j.
Proof.
  intros Hx Hj. unfold addr_bit, byte_bit.
  replace ((8 * n + j) / 8)%nat with n by (apply (Nat.div_unique _ 8 _ j); lia).
  replace ((8 * n + j) mod 8)%nat with j by (apply (Nat.mod_unique _ 8 n); lia).
  by rewrite (list_lookup_total_correct _ _ _ Hx).
Qed.

Lemma byte_testbit_high x i : 0 ≤ x < 256 → 8 ≤ i → Z.testbit x i = false.
Proof.
  intros Hx Hi. destruct (decide (x = 0)) as [->|]; [apply Z.bits_0|]. apply Z.bits_above_log2; [lia|].
  assert (Z.log2 x < 8); [|lia]. apply Z.log2_lt_pow2; lia.
Qed.

Lemma byte_ext x y : 0 ≤ x < 256 → 0 ≤ y < 256 → (∀ j, (j < 8)%nat → byte_bit x j = byte_bit y j) → x = y.
Proof.
  intros Hx Hy H. apply Z.bits_inj'. intros i Hi. destruct (decide (i < 8)).
  - specialize (H (Z.to_nat (7 - i)) ltac:(lia)). unfold byte_bit in H.
    by replace (7 - Z.of_nat (Z.to_nat (7 - i))) with i in H by lia.
  - by rewrite !byte_testbit_high by lia.
Qed.

Lemma net_mask_bit k i : 0 < k < 8 → 0 ≤ i < 8 → Z.testbit (Z.shiftl 0xffff (8 - k)) i = (8 - k <=? i).
Proof.
  intros Hk Hi. rewrite Z.shiftl_spec by lia. change 0xffff with (Z.ones 16).
  destruct (Z.leb_spec (8 - k) i); [apply Z.ones_spec_low; lia|by apply Z.testbit_neg_r; lia].
Qed.

(** The bits of the byte in which the prefix ends. *)
Lemma partial_byte k x y : (0 < k < 8)%nat → 0 ≤ x < 256 → 0 ≤ y < 256 →
  let m := Z.shiftl 0xffff (8 - Z.of_nat k) in
  Z.land x m = Z.land y m ↔ ∀ j, (j < k)%nat → byte_bit x j = byte_bit y j.
Proof.
  intros Hk Hx Hy m. split.
  - intros E j Hj. unfold byte_bit. pose proof (f_equal (λ z, Z.testbit z (7 - Z.of_nat j)) E) as Hb. cbv beta in Hb.
    rewrite !Z.land_spec in Hb. unfold m in Hb. rewrite net_mask_bit in Hb by lia.
    replace (8 - Z.of_nat k <=? 7 - Z.of_nat j) with true in Hb by lia. by rewrite !andb_true_r in Hb.
  - intros H. apply Z.bits_inj'. intros i Hi. rewrite !Z.land_spec. destruct (decide (i < 8)).
    + unfold m. rewrite net_mask_bit by lia. destruct (Z.leb_spec (8 - Z.of_nat k) i); [|by rewrite !andb_false_r].
      specialize (H (Z.to_nat (7 - i)) ltac:(lia)). unfold byte_bit in H.
      replace (7 - Z.of_nat (Z.to_nat (7 - i))) with i in H by lia. by rewrite H.
    + by rewrite (byte_testbit_high x), (byte_testbit_high y) by lia.
Qed.

Lemma same_net_bytes n a b : bytes a → bytes b → (n ≤ length a)%nat → length a = length b →
  take n a = take n b ↔ same_net (8 * n) a b.
Proof.
  intros Ha Hb Hn Hl. split.
  - intros E i Hi. unfold addr_bit. rewrite !list_lookup_total_alt. f_equal. f_equal.
    assert (i / 8 < n)%nat as Hd by (apply Nat.Div0.div_lt_upper_bound; lia).
    rewrite <-(lookup_take_lt a n (i / 8)), <-(lookup_take_lt b n (i / 8)) by done. by rewrite E.
  - intros H. apply list_eq. intros k. destruct (decide (k < n)%nat) as [Hk|]; [|by rewrite !lookup_take_ge by lia].
    rewrite !lookup_take_lt by done.
    destruct (lookup_lt_is_Some_2 a k ltac:(lia)) as [x Hx], (lookup_lt_is_Some_2 b k ltac:(lia)) as [y Hy].
    rewrite Hx, Hy. f_equal. apply byte_ext.
    + by apply (Forall_lookup_1 _ _ _ _ Ha Hx).
    + by apply (Forall_lookup_1 _ _ _ _ Hb Hy).
    + intros j Hj. rewrite <-(addr_bit_byte a k x j), <-(addr_bit_byte b k y j) by done. apply H. lia.
Qed.

(** [comp_with_mask] compares the first bits, and reads nothing behind them. *)
Lemma comp_with_mask_spec (n : nat) a b :
  bytes a → bytes b → length a = length b → (n ≤ 8 * length a)%nat →
  comp_with_mask a b (Z.of_nat n) = Ok (bool_decide (same_net n a b)).
Proof.
  intros Ha Hb Hl Hn. set (q := (n / 8)%nat). set (r := (n mod 8)%nat).
  assert (n = 8 * q + r ∧ r < 8)%nat as [En Hr].
  { split; [apply Nat.div_mod_eq|apply Nat.mod_upper_bound; lia]. }
  unfold comp_with_mask.
  replace (Z.of_nat n / 8) with (Z.of_nat q) by by unfold q; rewrite Nat2Z.inj_div.
  replace (Z.of_nat n mod 8) with (Z.of_nat r) by by unfold r; rewrite Nat2Z.inj_mod.
  rewrite Nat2Z.id.
  assert ((length a <? q)%nat || (length b <? q)%nat = false) as ->.
  { rewrite orb_false_iff, !Nat.ltb_ge. lia. }
  pose proof (same_net_bytes q a b Ha Hb ltac:(lia) Hl) as Hq. case_bool_decide as E.
  - destruct (Z.eqb_spec (Z.of_nat r) 0) as [Er|Er].
    + rewrite bool_decide_true; [done|]. replace n with (8 * q)%nat by lia. by apply Hq.
    + destruct (lookup_lt_is_Some_2 a q ltac:(lia)) as [x Hx], (lookup_lt_is_Some_2 b q ltac:(lia)) as [y Hy].
      rewrite Hx, Hy. f_equal. apply Bool.eq_iff_eq_true. rewrite Z.eqb_eq, bool_decide_eq_true.
      rewrite (partial_byte r x y) by first [lia|exact (Forall_lookup_1 _ _ _ _ Ha Hx)|exact (Forall_lookup_1 _ _ _ _ Hb Hy)]. split.
      * intros H i Hi. destruct (decide (i < 8 * q)%nat) as [Hi'|]; [by apply Hq|].
        replace i with (8 * q + (i - 8 * q))%nat by lia. rewrite (addr_bit_byte a q x), (addr_bit_byte b q y) by (done || lia). apply H. lia.
      * intros H j Hj. rewrite <-(addr_bit_byte a q x j), <-(addr_bit_byte b q y j) by (done || lia). apply H. lia.
  - rewrite bool_decide_false; [done|]. intros H. apply E, Hq. intros i Hi. apply H. lia.
Qed.

(** ** What a mask means *)

Inductive hostmask :=
| HWild (m : list Z)
| HName (m : list Z)
| HAddr (text addr : list Z) (len : option nat).

Inductive usermask :=
| MNickUserHost (nick user : list Z) (h : hostmask)
| MUserHost (user : list Z) (h : hostmask)
| MHost (h : hostmask).

Definition host_text (h : hostmask) : list Z :=
  match h with
  | HWild m | HName m => m
  | HAddr text _ None => text
  | HAddr text _ (Some n) => text ++ [SLASH] ++ printf_d 0 (Z.of_nat n)
  end.
Definition mask_text (m : usermask) : list Z :=
  match m with
  | MNickUserHost nick user h => nick ++ [BANG] ++ user ++ [AT] ++ host_text h
  | MUserHost user h => user ++ [AT] ++ host_text h
  | MHost h => host_text h
  end.

(** What the code relies on: addresses are 4 or 16 bytes, and only their
    characters are in them. *)
Class AddressLaws (inet_pton4 inet_pton6 : list Z → option (list Z)) : Prop := {
  pton4_bytes : ∀ s a, inet_pton4 s = Some a → bytes a ∧ length a = 4%nat;
  pton6_bytes : ∀ s a, inet_pton6 s = Some a → bytes a ∧ length a = 16%nat;
  pton4_text : ∀ s a, inet_pton4 s = Some a → cstr s ∧ s ≠ [] ∧ wild s = false ∧ COLON ∉ s ∧ SLASH ∉ s;
  pton6_text : ∀ s a, inet_pton6 s = Some a → cstr s ∧ s ≠ [] ∧ wild s = false ∧ COLON ∈ s ∧ SLASH ∉ s
}.

Lemma strchr_spec s c : c ≠ 0 → strchr s c = bool_decide (c ∈ s).
Proof. intros Hc. unfold strchr. apply bool_decide_ext. naive_solver. Qed.
Lemma cidr_text (n : nat) : (n ≤ 128)%nat →
  cstr (printf_d 0 (Z.of_nat n)) ∧ printf_d 0 (Z.of_nat n) ≠ [] ∧ atoi (printf_d 0 (Z.of_nat n)) = Z.of_nat n.
Proof.
  intros Hn. destruct (unit_number (Z.of_nat n) ltac:(lia)) as (w & -> & Hw & Hb). split_and!.
  - eapply Forall_impl; [apply digits_n_digits|]. unfold cchar, byte. cbv beta. lia.
  - intros E%(f_equal length). rewrite digits_n_length in E. cbn in E. lia.
  - apply atoi_digits; lia.
Qed.
Lemma split_first_notin ch s : ch ∉ s → split_first ch s = None.
Proof. intros H. destruct (split_first ch s) as [[a b]|] eqn:E; [|done]. apply split_first_Some in E as [-> _]. set_solver. Qed.
Lemma strlcpy_fits s n : (length s < n)%nat → (Strl.strlcpy [] s n).1 = s.
Proof. intros H. rewrite Strl.strlcpy_fst by lia. apply take_ge. lia. Qed.

Section Meaning.
Context (inet_pton4 inet_pton6 : list Z → option (list Z)) {L : AddressLaws inet_pton4 inet_pton6}.

(** The address that a text is. *)
Definition address (s : list Z) : option (list Z) := if strchr s COLON then inet_pton6 s else inet_pton4 s.

Definition host_ok (h : hostmask) : Prop :=
  match h with
  | HWild m => cstr m ∧ m ≠ [] ∧ wild m = true ∧ SLASH ∉ m
  | HName m => cstr m ∧ m ≠ [] ∧ wild m = false ∧ COLON ∉ m ∧ SLASH ∉ m ∧ inet_pton4 m = None
  | HAddr text a None => address text = Some a
  | HAddr text a (Some n) => address text = Some a ∧ (0 < n ≤ 8 * length a)%nat
  end.
Definition mask_ok (m : usermask) : Prop :=
  (length (mask_text m) < MASKLEN)%nat ∧
  match m with
  | MNickUserHost nick user h => cstr nick ∧ cstr user ∧ nick ≠ [] ∧ BANG ∉ nick ∧ AT ∉ user ∧ host_ok h
  | MUserHost user h => cstr user ∧ user ≠ [] ∧ AT ∉ user ∧ BANG ∉ user ++ host_text h ∧ host_ok h
  | MHost h => BANG ∉ host_text h ∧ AT ∉ host_text h ∧ host_ok h
  end.

(** A real host that reads as an IPv4 address is the address of the client. *)
Record client_ok (c : uclient) : Prop := ClientOk {
  co_name : cstr (uc_name c);
  co_username : cstr (client_username c);
  co_hosts : ∀ h, visible_host c = Some h ∨ us_cloakedhost <$> uc_user c = Some h ∨ real_host c = Some h → cstr h;
  co_ip : ∀ ip, uc_ip c = Some ip → cstr ip ∧ is_Some (address ip);
  co_real : ∀ h t a, real_host c = Some h → inet_pton4 t = Some a → glob (simple_toks t) h = true → (uc_ip c ≫= address) = Some a
}.

Definition names (m : list Z) (o : option (list Z)) : bool :=
  match o with Some h => glob (simple_toks m) h | None => false end.

Definition net_len (a : list Z) (len : option nat) : nat := match len with Some n => n | None => (8 * length a)%nat end.

(** The client is in the network of [a]; without a length it has that address. *)
Definition in_net (a : list Z) (len : option nat) (c : uclient) : Prop :=
  match uc_ip c ≫= address with
  | Some b => length b = length a ∧ same_net (net_len a len) b a
  | None => False
  end.
#[local] Instance in_net_dec a len c : Decision (in_net a len c).
Proof. unfold in_net. destruct (_ ≫= _); apply _. Defined.

Definition host_tail (options : Z) (h : hostmask) (c : uclient) : bool :=
  let on flag b := option_set options flag && b in
  match h with
  | HWild m => on MATCH_CHECK_IP (names m (uc_ip c)) || on MATCH_CHECK_REAL_HOST (names m (real_host c))
  | HName m => on MATCH_CHECK_REAL_HOST (names m (real_host c))
  | HAddr text a len =>
      if option_set options MATCH_CHECK_IP then bool_decide (in_net a len c)
      else on MATCH_CHECK_REAL_HOST (names (host_text h) (real_host c))
  end.
Definition host_meaning (options : Z) (h : hostmask) (c : uclient) : bool :=
  (option_set options MATCH_CHECK_VISIBLE_HOST && names (host_text h) (visible_host c)) ||
  (option_set options MATCH_CHECK_CLOAKED_HOST && names (host_text h) (us_cloakedhost <$> uc_user c)) ||
  host_tail options h c.
Definition mask_meaning (options : Z) (m : usermask) (c : uclient) : bool :=
  match m with
  | MNickUserHost nick user h =>
      glob (simple_toks nick) (uc_name c) && glob (simple_toks user) (client_username c) && host_meaning options h c
  | MUserHost user h => glob (simple_toks user) (client_username c) && host_meaning options h c
  | MHost h => host_meaning options h c
  end.

Lemma match_opt_names m o : cstr m → (∀ h, o = Some h → cstr h) → match_opt m o = Ok (names m o).
Proof. intros Hm Ho. destruct o as [h|]; [|done]. apply match_simple_glob; auto. Qed.


Lemma address_facts text a : address text = Some a →
  cstr text ∧ text ≠ [] ∧ wild text = false ∧ SLASH ∉ text ∧ bytes a ∧
  (COLON ∈ text ∧ inet_pton6 text = Some a ∧ length a = 16%nat ∨ COLON ∉ text ∧ inet_pton4 text = Some a ∧ length a = 4%nat).
Proof.
  unfold address. rewrite strchr_spec by done. case_bool_decide; intros E.
  - destruct (pton6_text _ _ E) as (? & ? & ? & ? & ?), (pton6_bytes _ _ E). naive_solver.
  - destruct (pton4_text _ _ E) as (? & ? & ? & ? & ?), (pton4_bytes _ _ E). naive_solver.
Qed.


Lemma host_text_ok h : host_ok h → cstr (host_text h) ∧ host_text h ≠ [].
Proof.
  destruct h as [m|m|text a [n|]]; cbn [host_ok host_text]; [naive_solver..| |].
  - intros [(Hc & Hne & _ & _ & _ & Ha)%address_facts Hn]. destruct (cidr_text n) as (Hd & _); [lia|].
    split; [|by destruct text]. apply Forall_app. split; [done|]. by constructor.
  - intros (Hc & Hne & _)%address_facts. done.
Qed.


Lemma split_cidr_host h : host_ok h →
  split_cidr (host_text h) = Some match h with
                             | HWild m | HName m => (m, None)
                             | HAddr text _ len => (text, Z.of_nat <$> len)
                             end.
Proof.
  unfold split_cidr. destruct h as [m|m|text a [n|]]; cbn [host_ok host_text].
  - intros (_ & _ & _ & Hs). by rewrite split_first_notin.
  - intros (_ & _ & _ & _ & Hs & _). by rewrite split_first_notin.
  - intros [(_ & _ & _ & Hs & _ & Ha)%address_facts Hn]. cbn [app]. rewrite split_first_at by done.
    destruct (cidr_text n) as (_ & _ & ->); [lia|]. destruct (Z.leb_spec (Z.of_nat n) 0); [lia|done].
  - intros (_ & _ & _ & Hs & _)%address_facts. by rewrite split_first_notin.
Qed.

(** The comparison of two addresses of one kind. *)
Lemma comp_net a b len : bytes a → bytes b → length b = length a → (net_len a len ≤ 8 * length a)%nat →
  comp_with_mask b a (Z.of_nat (net_len a len)) = Ok (bool_decide (same_net (net_len a len) b a)).
Proof. intros Ha Hb Hl Hn. apply comp_with_mask_spec; try done. lia. Qed.

Lemma in_net_none a len c : uc_ip c = None → bool_decide (in_net a len c) = false.
Proof. intros E. apply bool_decide_false. unfold in_net. rewrite E. cbn. tauto. Qed.
Lemma in_net_other a len c b : (uc_ip c ≫= address) = Some b → length b ≠ length a → bool_decide (in_net a len c) = false.
Proof. intros E Hl. apply bool_decide_false. unfold in_net. rewrite E. tauto. Qed.
Lemma in_net_same a len c b : (uc_ip c ≫= address) = Some b → length b = length a →
  bool_decide (in_net a len c) = bool_decide (same_net (net_len a len) b a).
Proof. intros E Hl. apply bool_decide_ext. unfold in_net. rewrite E. tauto. Qed.

Context (match_extended : list Z → uclient → res bool).
Abbreviation match_ip := (match_ip inet_pton4 inet_pton6).
Abbreviation match_host := (match_host inet_pton4 inet_pton6).
Abbreviation match_user := (match_user inet_pton4 inet_pton6 match_extended).

(** What [match_ip] decides on an address or network, if anything. *)
Lemma match_ip_addr text a len c : client_ok c → host_ok (HAddr text a len) →
  ∃ r, match_ip text (Z.of_nat <$> len) c = Ok r ∧
    match r with
    | Some b => b = bool_decide (in_net a len c)
    | None => inet_pton4 text = Some a ∧ bool_decide (in_net a len c) = false ∧ (uc_ip c ≫= address) ≠ Some a
    end.
Proof.
  intros Hc Hok. assert (address text = Some a ∧ (net_len a len ≤ 8 * length a)%nat ∧ len ≠ Some 0%nat) as (Ea & Hn & H0).
  { destruct len as [n|]; cbn in *; [destruct Hok as [? ?]; repeat split; [done|lia|intros [= ->]; lia]|done]. }
  pose proof (address_facts _ _ Ea) as (_ & _ & Hw & _ & Hb & Hk). unfold UserMatch.match_ip. rewrite Hw.
  destruct Hk as [(Hcol & E6 & Hl)|(Hcol & E4 & Hl)].
  - rewrite strchr_spec, bool_decide_true by done. destruct (uc_ip c) as [ip|] eqn:Eip.
    2: { eexists. split; [done|]. symmetry. by apply in_net_none. }
    destruct (co_ip c Hc ip Eip) as [_ [b Eb]]. assert ((uc_ip c ≫= address) = Some b) as Eipb by by rewrite Eip.
    pose proof (address_facts _ _ Eb) as (_ & _ & _ & _ & Hbb & [(Hci & Ei & Hli)|(Hci & Ei & Hli)]).
    + rewrite strchr_spec, bool_decide_true by done. cbn [negb]. rewrite Ei, E6.
      rewrite (in_net_same a len c b Eipb) by lia. pose proof (comp_net a b len Hb Hbb ltac:(lia) Hn) as Hcomp.
      destruct len as [n|]; cbn [fmap option_fmap option_map] in *; unfold net_len in *; rewrite ?Hl in *.
      * destruct (Z.ltb_spec 128 (Z.of_nat n)); [lia|]. rewrite Hcomp. cbn [rbind]. by eexists.
      * change (Z.of_nat (8 * 16)) with 128 in Hcomp. rewrite Hcomp. cbn [rbind]. by eexists.
    + rewrite strchr_spec, bool_decide_false by done. cbn [negb]. eexists. split; [done|]. symmetry.
      apply (in_net_other a len c b Eipb). lia.
  - rewrite strchr_spec, bool_decide_false by done. destruct (uc_ip c) as [ip|] eqn:Eip.
    2: { eexists. split; [done|]. cbn. split_and!; [done|by apply in_net_none|done]. }
    destruct (co_ip c Hc ip Eip) as [_ [b Eb]]. assert ((uc_ip c ≫= address) = Some b) as Eipb by by rewrite Eip.
    pose proof (address_facts _ _ Eb) as (_ & _ & _ & _ & Hbb & [(Hci & Ei & Hli)|(Hci & Ei & Hli)]); cbn [mbind option_bind].
    + destruct (inet_pton4 ip) as [x|] eqn:Ex; [by destruct (pton4_text _ _ Ex) as (_ & _ & _ & ? & _)|].
      eexists. split; [done|]. cbn. split_and!; [done|by apply (in_net_other a len c b Eipb); lia|].
      rewrite Eb. intros [= ->]. lia.
    + rewrite Ei, E4. rewrite (in_net_same a len c b Eipb) by lia.
      pose proof (comp_net a b len Hb Hbb ltac:(lia) Hn) as Hcomp.
      destruct len as [n|]; cbn [fmap option_fmap option_map] in *; unfold net_len in *; rewrite ?Hl in *.
      * destruct (Z.ltb_spec 32 (Z.of_nat n)); [lia|]. rewrite Hcomp. cbn [rbind]. by eexists.
      * change (Z.of_nat (8 * 4)) with 32 in Hcomp. rewrite Hcomp. cbn [rbind]. destruct (bool_decide _) eqn:Es; [by eexists|]. eexists. split; [done|].
        split_and!; [done..|]. cbn. rewrite Eb. intros [= ->]. apply bool_decide_eq_false in Es. by apply Es.
Qed.

Lemma real_names options m c : client_ok c → cstr m →
  (if option_set options MATCH_CHECK_REAL_HOST then match_opt m (real_host c) else Ok false) =
  Ok (option_set options MATCH_CHECK_REAL_HOST && names m (real_host c)).
Proof.
  intros Hc Hm. pose proof (co_hosts c Hc) as Hh. rewrite match_opt_names by naive_solver. by destruct (option_set _ _).
Qed.

(** The address and the real host. *)
Lemma host_tail_spec options h c : client_ok c → host_ok h →
  (if option_set options MATCH_CHECK_IP then
     match split_cidr (host_text h) with
     | None => Ok false
     | Some (hmask, cidr) =>
         let! r := match_ip hmask cidr c in
         match r with
         | Some b => Ok b
         | None => if option_set options MATCH_CHECK_REAL_HOST then match_opt hmask (real_host c) else Ok false
         end
     end
   else if option_set options MATCH_CHECK_REAL_HOST then match_opt (host_text h) (real_host c) else Ok false) =
  Ok (host_tail options h c).
Proof.
  intros Hc Hh. destruct (host_text_ok h Hh) as [Ht _]. rewrite (split_cidr_host h Hh), (real_names _ (host_text h)) by done.
  destruct h as [m|m|text a len]; cbn [host_tail].
  - destruct Hh as (Hm & _ & Hw & _). unfold UserMatch.match_ip. rewrite Hw, (match_opt_names m (uc_ip c)), (real_names options m) by
      (done || by intros ip Eip; apply (co_ip c Hc)).
    destruct (option_set options MATCH_CHECK_IP); cbn [rbind andb]; [|done]. by destruct (names m (uc_ip c)).
  - destruct Hh as (Hm & _ & Hw & Hcol & _ & H4). unfold UserMatch.match_ip.
    rewrite Hw, strchr_spec, bool_decide_false, H4, (real_names options m) by done.
    destruct (option_set options MATCH_CHECK_IP); [|done]. by destruct (uc_ip c ≫= inet_pton4).
  - destruct (option_set options MATCH_CHECK_IP); [|done]. destruct (match_ip_addr text a len c Hc Hh) as (r & -> & Hr). cbn [rbind].
    destruct r as [b|]; [by rewrite Hr|]. destruct Hr as (E4 & -> & Hne). rewrite real_names by (done || by apply (pton4_text _ _ E4)).
    f_equal. apply andb_false_iff. right. destruct (real_host c) as [rh|] eqn:Er; [|done]. cbn [names].
    apply not_true_is_false. intros Hg. by apply Hne, (co_real c Hc rh text a).
Qed.

Lemma match_host_spec options h c : client_ok c → host_ok h →
  match_host options (host_text h) c = Ok (host_meaning options h c).
Proof.
  intros Hc Hh. destruct (host_text_ok h Hh) as [Ht _]. pose proof (co_hosts c Hc) as Hhosts. unfold UserMatch.match_host, host_meaning.
  rewrite (match_opt_names (host_text h) (visible_host c)), (match_opt_names (host_text h) (us_cloakedhost <$> uc_user c)) by naive_solver.
  rewrite (host_tail_spec options h c Hc Hh).
  destruct (option_set options MATCH_CHECK_VISIBLE_HOST), (option_set options MATCH_CHECK_CLOAKED_HOST);
    cbn [rbind andb orb]; repeat case_match; cbn [orb]; done.
Qed.

Lemma user_host_spec options nick user h c : client_ok c → host_ok h → cstr user → AT ∉ user →
  option_set options MATCH_MASK_IS_HOST = false → default user nick ≠ [] →
  match_user_host inet_pton4 inet_pton6 options nick (user ++ [AT] ++ host_text h) c =
  Ok (glob (simple_toks user) (client_username c) && host_meaning options h c).
Proof.
  intros Hc Hh Hu Hat Ho Hne. unfold match_user_host. rewrite Ho. cbn [app]. rewrite split_first_at by done.
  destruct (host_text_ok h Hh) as [_ Hht]. destruct (host_text h) as [|x t] eqn:Et; [done|]. destruct (default user nick) eqn:Ed; [done|].
  rewrite match_simple_glob by (done || apply Hc). cbn [rbind]. destruct (glob _ _); [|done]. rewrite <-Et. by apply match_host_spec.
Qed.

(** A mask that is read as an extended ban is not looked at here; and the options may say that
    a mask has no part for the nick, or only one for the host. *)
Definition plain_mask (options : Z) (m : usermask) (c : uclient) : Prop :=
  option_set options MATCH_CHECK_EXTENDED && is_extended_server_ban (mask_text m) && bool_decide (is_Some (uc_user c)) = false ∧
  match m with
  | MNickUserHost _ _ _ => option_set options MATCH_MASK_IS_UHOST = false ∧ option_set options MATCH_MASK_IS_HOST = false
  | MUserHost _ _ => option_set options MATCH_MASK_IS_HOST = false
  | MHost _ => True
  end.

Lemma match_user_spec m c options :
  client_ok c → mask_ok m → plain_mask options m c →
  match_user (mask_text m) c options = Ok (mask_meaning options m c).
Proof.
  intros Hc [Hlen Hm] (Hx & Ho). unfold UserMatch.match_user. rewrite strlcpy_fits by done. rewrite Hx.
  assert (∀ s : list Z, BANG ∉ s → (if option_set options MATCH_MASK_IS_UHOST then None else split_first BANG s) = None) as Hnone.
  { intros s Hs. rewrite split_first_notin by done. by destruct (option_set options MATCH_MASK_IS_UHOST). }
  destruct m as [nick user h|user h|h]; cbn [mask_text mask_meaning] in *.
  - destruct Hm as (Hn & Hus & Hne & Hb & Hat & Hho), Ho as [-> Hh]. change (nick ++ [BANG] ++ user ++ [AT] ++ host_text h) with (nick ++ BANG :: user ++ [AT] ++ host_text h).
    rewrite split_first_at by done. destruct nick as [|x nick]; [done|].
    rewrite match_simple_glob by (done || apply Hc). cbn [rbind]. destruct (glob _ (uc_name c)); [|done]. cbn [andb].
    by apply user_host_spec.
  - destruct Hm as (Hus & Hne & Hat & Hb & Hho). rewrite Hnone by set_solver. by apply user_host_spec.
  - destruct Hm as (Hb & Hat & Hho). rewrite Hnone by done. unfold match_user_host.
    destruct (option_set options MATCH_MASK_IS_HOST); [by apply match_host_spec|].
    rewrite split_first_notin by done. by apply match_host_spec.
Qed.

(** *** Lists of addresses *)

Definition ip_entry_ok (h : hostmask) : Prop :=
  host_ok h ∧ (length (host_text h) < 512)%nat ∧ match h with HName _ => False | _ => True end.
Definition ip_entry_meaning (h : hostmask) (c : uclient) : bool :=
  match h with HWild m => names m (uc_ip c) | HName _ => false | HAddr _ a len => bool_decide (in_net a len c) end.

Lemma iplist_entry_spec h c ip b : client_ok c → ip_entry_ok h → uc_ip c = Some ip → address ip = Some b →
  ∃ mask cidr, split_cidr (host_text h) = Some (mask, cidr) ∧
    iplist_entry inet_pton4 inet_pton6 ip b (strchr ip COLON) mask cidr = Ok (ip_entry_meaning h c).
Proof.
  intros Hc (Hh & _ & Hk) Eip Eb. pose proof (co_ip c Hc ip Eip) as [Hip _]. rewrite (split_cidr_host h Hh).
  destruct h as [m|m|text a len]; cbn [ip_entry_meaning]; [|done|]; eexists _, _; (split; [done|]).
  - destruct Hh as (Hm & _ & Hw & _). unfold iplist_entry. unfold wild in Hw. rewrite orb_comm in Hw. rewrite Hw, Eip.
    by apply match_simple_glob.
  - destruct (match_ip_addr text a len c Hc Hh) as (r & Er & Hr).
    assert (address text = Some a) as Ea by (destruct len; [apply Hh|done]).
    pose proof (address_facts _ _ Ea) as (_ & _ & Hw & _ & Hba & Hka). pose proof (address_facts _ _ Eb) as (_ & _ & _ & _ & Hbb & Hkb).
    unfold UserMatch.match_ip in Er. unfold iplist_entry. rewrite Eip, Hw in Er. unfold wild in Hw. rewrite orb_comm in Hw. rewrite Hw.
    cbn [mbind option_bind] in Er. rewrite !strchr_spec in * by done.
    assert (COLON ∈ ip → inet_pton4 ip = None) as Hnot4.
    { intros Hci. destruct (inet_pton4 ip) as [x|] eqn:Ex; [|done]. by destruct (pton4_text _ _ Ex) as (_ & _ & _ & ? & _). }
    destruct Hka as [(Hca & E6 & _)|(Hca & E4 & _)]; [rewrite (bool_decide_true _ Hca) in *|rewrite (bool_decide_false _ Hca) in *];
      (destruct Hkb as [(Hcb & Eb6 & _)|(Hcb & Eb4 & _)]; [rewrite (bool_decide_true _ Hcb) in *|rewrite (bool_decide_false _ Hcb) in *]);
      cbn [negb] in *.
    + rewrite Eb6, E6 in Er. rewrite E6. destruct (Z.of_nat <$> len) as [n|]; [destruct (128 <? n); [injection Er as <-; congruence|]|];
        (destruct (comp_with_mask _ _ _); [cbn [rbind] in Er; injection Er as <-; congruence|done..]).
    + injection Er as <-. congruence.
    + rewrite (Hnot4 Hcb) in Er. injection Er as <-. destruct Hr as (_ & -> & _). done.
    + rewrite Eb4, E4 in Er. rewrite E4. destruct (Z.of_nat <$> len) as [n|]; [destruct (32 <? n); [injection Er as <-; congruence|]|];
        (destruct (comp_with_mask _ _ _) as [x| |]; [cbn [rbind] in Er|done..]); [injection Er as <-; congruence|].
      destruct x; injection Er as <-; [congruence|]. destruct Hr as (_ & -> & _). done.
Qed.

(** A list of addresses, networks and addresses with wildcards matches the clients of all
    of them. *)
Lemma iplist_correct l c : client_ok c → Forall ip_entry_ok l →
  unreal_match_iplist inet_pton4 inet_pton6 c (map host_text l) = Ok (existsb (λ h, ip_entry_meaning h c) l).
Proof.
  intros Hc Hl. unfold unreal_match_iplist. destruct (uc_ip c) as [ip|] eqn:Eip.
  - destruct (co_ip c Hc ip Eip) as [_ [b Eb]]. unfold address in Eb. rewrite Eb.
    induction Hl as [|h l Hh Hl IH]; [done|]. cbn [map iplist_loop existsb]. rewrite strlcpy_fits by apply Hh.
    destruct (iplist_entry_spec h c ip b Hc Hh Eip Eb) as (mask & cidr & -> & ->). cbn [rbind]. destruct (ip_entry_meaning h c); done.
  - induction Hl as [|h l (_ & _ & Hk) Hl IH]; [done|]. injection IH as IH. cbn [existsb]. rewrite <-IH, orb_false_r.
    destruct h as [m|m|text a len]; cbn [ip_entry_meaning]; [by rewrite Eip|done|]. f_equal. symmetry. by apply in_net_none.
Qed.

End Meaning.

(** ** A client, and masks for it *)

(** Dotted numbers, enough for an example; no text is an IPv6 address. *)
Definition demo_pton4 (s : list Z) : option (list Z) :=
  if decide (s = bs "192.0.2.77") then Some [192; 0; 2; 77]
  else if decide (s = bs "192.0.2.64") then Some [192; 0; 2; 64]
  else None.
Definition demo_pton6 (s : list Z) : option (list Z) := None.
#[local] Instance demo_laws : AddressLaws demo_pton4 demo_pton6.
Proof.
  split; unfold demo_pton4, demo_pton6; intros s a E; repeat case_decide; simplify_eq;
    (split_and! || idtac); try (apply (bool_decide_unpack _); vm_compute; done); try done.
Qed.

Definition demo_user : user :=
  MkUser (bs "joe") (bs "host.example.org") (bs "vhost") (bs "cloak.example.org") (bs "Joe") [(bs "#c", bs "o")].
Definition demo_uclient : uclient :=
  UClient 7 (bs "Joe") (bs "unknown") (bs "Joe Doe") (Some (bs "192.0.2.77")) (Some demo_user)
    (Some (LocalClient (bs "host.example.org") 0 (Some 6697))) true false true true false (λ _, None) None.

Lemma demo_client_ok : client_ok demo_pton4 demo_pton6 demo_uclient.
Proof.
  split.
  - by apply (bool_decide_unpack _).
  - by apply (bool_decide_unpack _).
  - cbn. intros h [[= <-]|[[= <-]|[= <-]]]; by apply (bool_decide_unpack _).
  - intros ip [= <-]. split; [by apply (bool_decide_unpack _)|]. by eexists.
  - intros h t a [= <-]. unfold demo_pton4. repeat case_decide; simplify_eq; vm_compute; done.
Qed.


(** Anything from a tilde to a colon counts as an extended ban, not only a name: a mask for
    an ident with a tilde and an IPv6 address is never compared with a client. *)
Lemma ident_mask_extended ext :
  is_extended_server_ban (bs "~joe@2001:db8::1") = true ∧
  match_user demo_pton4 demo_pton6 ext (bs "~joe@2001:db8::1") demo_uclient MATCH_CHECK_ALL = ext (bs "~joe@2001:db8::1") demo_uclient.
Proof. split; reflexivity. Qed.

(** An entry with a bad length ends the search of the list. *)
Lemma iplist_bad_entry :
  unreal_match_iplist demo_pton4 demo_pton6 demo_uclient [bs "192.0.2.77/0"; bs "192.0.2.77"] = Ok false ∧
  unreal_match_iplist demo_pton4 demo_pton6 demo_uclient [bs "192.0.2.77/99"; bs "192.0.2.77"] = Ok true.
Proof. split; vm_compute; reflexivity. Qed.
