(* ===== verification/Extbans.v ===== *)
(** * Extended bans (src/api-extban.c, src/channel.c, src/modules/extbans)

    A ban ~name:parameter is handled by a module that registered the name and a
    letter.  This file has the registry, the conversion of what a user gives to
    the form that is kept, the check of a client against the bans and exceptions
    of a channel, and the modules quiet, join, nickchange, partmsg, account,
    realname, channel and certfp.  A function pointer is the name of a function
    here; functions of other modules are parameters. *)

From stdpp Require Import base tactics list numbers strings sets gmap.
From Stdlib Require Import ZArith Lia.
From S2P Require Import Prelude Chars Support Utf8 Match Hash MemberModes Channel Bans Times UserMatch.

Local Open Scope Z_scope.

Definition BANCHK_JOIN : Z := 0x0001.
Definition BANCHK_MSG : Z := 0x0002.
Definition BANCHK_NICK : Z := 0x0004.
Definition BANCHK_LEAVE_MSG : Z := 0x0008.
Definition BANCHK_TKL : Z := 0x0010.
Definition BANCHK_ALL : Z := 0x000f.
Definition EXTBOPT_ACTMODIFIER : Z := 0x2.
Definition EXTBOPT_NOSTACKCHILD : Z := 0x4.
Definition EXTBOPT_INVEX : Z := 0x8.
Definition EXTBOPT_TKL : Z := 0x10.
Definition REALLEN : nat := 50.
Definition CERT_FP_LEN : nat := 64.
Definition EVP_MAX_MD_SIZE : nat := 64.

Inductive ExtbanType := EXBTYPE_BAN | EXBTYPE_EXCEPT | EXBTYPE_INVEX | EXBTYPE_TKL.
Inductive ExtbanCheck := EXBCHK_ACCESS | EXBCHK_ACCESS_ERR | EXBCHK_PARAM.
Inductive mode_what := MODE_ADD | MODE_DEL.
#[global] Instance ExtbanCheck_eq_dec : EqDecision ExtbanCheck.
Proof. solve_decision. Defined.
#[global] Instance mode_what_eq_dec : EqDecision mode_what.
Proof. solve_decision. Defined.

(** The client may be NULL; [b_channel] is the name of the channel, [b_letters]
    BCTX_CONV_OPTION_WRITE_LETTER_BANS. *)
Record BanContext := BanCtx {
  b_client : option uclient;
  b_channel : list Z;
  b_banstr : list Z;
  b_check_types : Z;
  b_msg : option (list Z);
  b_no_extbans : bool;
  b_what : mode_what;
  b_ban_type : ExtbanType;
  b_is_ok_check : ExtbanCheck;
  b_letters : bool
}.
Definition set_banstr (s : list Z) (b : BanContext) : BanContext :=
  BanCtx (b_client b) (b_channel b) s (b_check_types b) (b_msg b) (b_no_extbans b) (b_what b) (b_ban_type b) (b_is_ok_check b) (b_letters b).
Definition set_msg (m : option (list Z)) (b : BanContext) : BanContext :=
  BanCtx (b_client b) (b_channel b) (b_banstr b) (b_check_types b) m (b_no_extbans b) (b_what b) (b_ban_type b) (b_is_ok_check b) (b_letters b).
Definition set_ban_type (t : ExtbanType) (b : BanContext) : BanContext :=
  BanCtx (b_client b) (b_channel b) (b_banstr b) (b_check_types b) (b_msg b) (b_no_extbans b) (b_what b) t (b_is_ok_check b) (b_letters b).

(** The functions of the modules. *)
Inductive is_ok_fn := extban_is_ok_nuh_extban | extban_inchannel_is_ok | extban_certfp_is_ok | other_is_ok (k : nat).
Inductive conv_fn :=
| extban_conv_param_nuh | extban_conv_param_nuh_or_extban | extban_account_conv_param | extban_realname_conv_param
| extban_inchannel_conv_param | extban_certfp_conv_param | other_conv_param (k : nat).
#[global] Instance conv_fn_eq_dec : EqDecision conv_fn.
Proof. solve_decision. Defined.
Inductive banned_fn :=
| extban_quiet_is_banned | extban_modej_is_banned | extban_nickchange_is_banned | extban_partmsg_is_banned
| extban_account_is_banned | extban_realname_is_banned | extban_inchannel_is_banned | extban_certfp_is_banned
| other_is_banned (k : nat).

Record Extban := MkExtban {
  e_letter : Z;
  e_name : list Z;
  e_options : Z;
  e_events : Z;
  e_is_ok : option is_ok_fn;
  e_conv_param : conv_fn;
  e_is_banned : option banned_fn;
  e_owner : nat;
  e_unloaded : bool;
  e_preregistered : bool
}.
Record ExtbanInfo := MkExtbanInfo {
  req_letter : Z;
  req_name : option (list Z);
  req_options : Z;
  req_is_ok : option is_ok_fn;
  req_conv_param : option conv_fn;
  req_is_banned : option banned_fn;
  req_events : Z
}.

(** ** The registry *)

Definition findmod_by_bantype_raw (extbans : list Extban) (str : list Z) : option Extban :=
  snd <$> list_find (λ e, (length str = 1%nat ∧ e_letter e = deref str) ∨ e_name e = str) extbans.

(** The text between the first character and the colon; the remainder may not
    be empty. *)
Definition findmod_by_bantype (extbans : list Extban) (str : list Z) : option (Extban * list Z) :=
  match split_first COLON str with
  | None | Some (_, []) => None
  | Some (p, remainder) =>
      match p with
      | [] => None
      | _ :: name => (λ e, (e, remainder)) <$> findmod_by_bantype_raw extbans name
      end
  end.

Definition is_valid_extban_name (p : list Z) : bool :=
  negb (bool_decide (p = [])) && (length p <=? 32)%nat &&
  forallb (λ c, islower c || isdigit c || strchr (bs "_-") c) p.

Definition sort_character_lowercase_before_uppercase (x y : Z) : bool :=
  if islower x && isupper y then true else if isupper x && islower y then false else x <? y.

(** A letter that is NUL would end the server. *)
Fixpoint extban_add_sorted (n : Extban) (l : list Extban) : res (list Extban) :=
  match l with
  | [] => Ok [n]
  | m :: r =>
      if e_letter m =? 0 then UB
      else if sort_character_lowercase_before_uppercase (e_letter n) (e_letter m) then Ok (n :: l)
      else let! r := extban_add_sorted n r in Ok (m :: r)
  end.

Inductive moderr := MODERR_NOERROR | MODERR_EXISTS | MODERR_INVALID.
Inductive modflags := MODFLAG_NONE | MODFLAG_TESTING | MODFLAG_OTHER.

(** The list, and of every module its extended bans, by letter, and its error. *)
Record registry := Registry {
  extbans : list Extban;
  ban_objects : gmap nat (list Z);
  errorcode : gmap nat moderr
}.
Definition set_error (m : nat) (x : moderr) (g : registry) : registry := Registry (extbans g) (ban_objects g) (<[m := x]> (errorcode g)).

Definition update_extban (letter : Z) (f : Extban → Extban) (l : list Extban) : list Extban :=
  map (λ e, if e_letter e =? letter then f e else e) l.

(** [ExtbanAdd]: the result is the letter of the extended ban. *)
Definition ExtbanAdd (module : nat) (flags : modflags) (req : ExtbanInfo) (g : registry) : res (registry * option Z) :=
  match req_name req, req_conv_param req with
  | Some name, conv =>
      if ((req_events req =? 0) && bool_decide (is_Some (req_is_banned req))) || negb (isalnum (req_letter req))
         || negb (is_valid_extban_name name) then Ok (set_error module MODERR_INVALID g, None)
      else
        match conv with
        | None => Ok (set_error module MODERR_INVALID g, None)
        | Some conv =>
            let register l :=
              Ok (Registry l (<[module := req_letter req :: default [] (ban_objects g !! module)]> (ban_objects g))
                    (<[module := MODERR_NOERROR]> (errorcode g)), Some (req_letter req)) in
            let fields unloaded prereg (e : Extban) :=
              MkExtban (req_letter req) name (req_options req) (req_events req) (req_is_ok req) conv (req_is_banned req) module
                unloaded (match flags with MODFLAG_NONE => true | _ => prereg end) in
            match list_find (λ e, e_letter e = req_letter req) (extbans g) with
            | Some (_, e) =>
                if e_unloaded e then register (update_extban (req_letter req) (λ e, fields false (e_preregistered e) e) (extbans g))
                else
                  match flags with
                  | MODFLAG_TESTING =>
                      if e_preregistered e then register (update_extban (req_letter req) (fields false false) (extbans g))
                      else Ok (set_error module MODERR_EXISTS g, None)
                  | MODFLAG_NONE => Ok (g, Some (req_letter req))
                  | MODFLAG_OTHER => Ok (set_error module MODERR_EXISTS g, None)
                  end
            | None =>
                let e := MkExtban (req_letter req) [] 0 0 None conv None module false false in
                let! l := extban_add_sorted (fields false false e) (extbans g) in register l
            end
        end
  | None, _ => Ok (set_error module MODERR_INVALID g, None)
  end.

Definition unload_extban_commit (letter : Z) (g : registry) : registry :=
  Registry (filter (λ e, e_letter e ≠ letter) (extbans g)) (ban_objects g) (errorcode g).

Definition unload_all_unused_extbans (g : registry) : registry :=
  Registry (filter (λ e, e_letter e = 0 ∨ e_unloaded e = false) (extbans g)) (ban_objects g) (errorcode g).

(** One object of the owner goes; during a rehash the ban itself stays. *)
Fixpoint del_first (letter : Z) (l : list Z) : list Z :=
  match l with [] => [] | x :: r => if x =? letter then r else x :: del_first letter r end.
Definition ExtbanDel (rehashing : bool) (e : Extban) (g : registry) : registry :=
  let g := Registry (extbans g) (<[e_owner e := del_first (e_letter e) (default [] (ban_objects g !! e_owner e))]> (ban_objects g))
             (errorcode g) in
  if rehashing then
    Registry (update_extban (e_letter e)
      (λ e, MkExtban (e_letter e) (e_name e) (e_options e) (e_events e) (e_is_ok e) (e_conv_param e) (e_is_banned e) (e_owner e)
              true (e_preregistered e)) (extbans g)) (ban_objects g) (errorcode g)
  else unload_extban_commit (e_letter e) g.

(** ** Conversion *)

Section Extended.
(** iConf.named_extended_bans, the value of CHANTYPES and what a name may have
    in it (see [valid_channelname]), and the functions of other modules. *)
Context (named_extended_bans : bool) (chantypes : option (list Z)) (allowed : allowed_channelchars).
Context (other_conv : nat → BanContext → res (option (list Z))) (other_ok : nat → BanContext → res bool).
Context (other_banned : nat → BanContext → res (BanContext * bool)).
Context (inet_pton4 inet_pton6 : list Z → option (list Z)).

Definition prefix_with_extban (remainder : option (list Z)) (b : BanContext) (e : Extban) (buflen : nat) : option (list Z) :=
  match remainder with
  | None => None
  | Some r =>
      Some (take (buflen - 1)
        ([TILDE] ++ (if named_extended_bans && negb (b_letters b) then e_name e else [e_letter e]) ++ [COLON] ++ r))
  end.

Definition conv_nuh (b : BanContext) : option (list Z) :=
  let len := (USERLEN + NICKLEN + HOSTLEN + 3)%nat in
  convert_regular_ban (Strl.strlcpy [] (b_banstr b) len).1 len.

Definition account_conv (b : BanContext) : option (list Z) :=
  match (Strl.strlcpy [] (b_banstr b) (NICKLEN + 4)).1 with [] => None | s => Some s end.

Definition realname_conv (b : BanContext) : option (list Z) :=
  match take REALLEN (Strl.strlcpy [] (b_banstr b) (REALLEN + 8)).1 with
  | [] => None
  | c :: r => Some ((if c =? TILDE then QMARK else c) :: r)
  end.

Definition channel_symbol (c : Z) : bool :=
  (c =? 43) || (c =? PERCENT) || (c =? AT) || (c =? AMP) || (c =? TILDE).
Definition inchannel_conv (b : BanContext) : option (list Z) :=
  let retbuf := (Strl.strlcpy [] (b_banstr b) (CHANNELLEN + 6)).1 in
  let chan := if channel_symbol (deref retbuf) then drop 1 retbuf else retbuf in
  if negb (deref chan =? HASH) && negb (deref chan =? STAR) && negb (deref chan =? QMARK) then None
  else if negb (valid_channelname chantypes allowed chan) then None
  else
    Some (take (length retbuf - length chan) retbuf ++
          match split_first COLON chan with Some (a, _) => a | None => chan end).

Definition certfp_conv (b : BanContext) : option (list Z) :=
  Some (map tolower (Strl.strlcpy [] (b_banstr b) (EVP_MAX_MD_SIZE * 2 + 1)).1).

(** [extban_conv_param_nuh_or_extban]: [recursion] is whether this is the
    second one of a stack, [inner] the call of the stacked function. *)
Definition conv_nuh_or_extban (extbans : list Extban) (recursion : bool) (inner : conv_fn → BanContext → res (option (list Z)))
    (b : BanContext) : res (option (list Z)) :=
  if negb (is_extended_ban (b_banstr b)) then Ok (conv_nuh b)
  else if recursion then Ok None
  else
    match findmod_by_bantype extbans (Strl.strlcpy [] (b_banstr b) (MAXBANLEN + 1)).1 with
    | None => Ok (Some (b_banstr b))
    | Some (e, nextbanstr) =>
        if option_set (e_options e) EXTBOPT_ACTMODIFIER || option_set (e_options e) EXTBOPT_NOSTACKCHILD then Ok None
        else
          let b := set_banstr nextbanstr b in
          let! ret := inner (e_conv_param e) b in
          Ok (prefix_with_extban ret b e (MAXBANLEN + 1))
    end.

Definition conv_call (extbans : list Extban) (recursion : bool) (inner : conv_fn → BanContext → res (option (list Z)))
    (f : conv_fn) (b : BanContext) : res (option (list Z)) :=
  match f with
  | extban_conv_param_nuh => Ok (conv_nuh b)
  | extban_conv_param_nuh_or_extban => conv_nuh_or_extban extbans recursion inner b
  | extban_account_conv_param => Ok (account_conv b)
  | extban_realname_conv_param => Ok (realname_conv b)
  | extban_inchannel_conv_param => Ok (inchannel_conv b)
  | extban_certfp_conv_param => Ok (certfp_conv b)
  | other_conv_param k => other_conv k b
  end.
(** The stacked call never stacks again. *)
Definition conv_stacked (extbans : list Extban) : conv_fn → BanContext → res (option (list Z)) := conv_call extbans true (λ _ _, NoFuel).
Definition conv_param (extbans : list Extban) : conv_fn → BanContext → res (option (list Z)) :=
  conv_call extbans false (conv_stacked extbans).

(** *** Is a parameter acceptable? *)

Definition inchannel_is_ok (b : BanContext) : bool :=
  let my := match b_client b with None => true | Some c => MyUser c end in
  if bool_decide (b_is_ok_check b = EXBCHK_PARAM) && my && bool_decide (b_what b = MODE_ADD) && (3 <? length (b_banstr b))%nat then
    let p := if channel_symbol (deref (b_banstr b)) then drop 1 (b_banstr b) else b_banstr b in
    deref p =? HASH
  else true.

Definition isxdigit (c : Z) : bool := isdigit c || ((97 <=? c) && (c <=? 102)) || ((65 <=? c) && (c <=? 70)).
Definition certfp_is_ok (b : BanContext) : bool :=
  if bool_decide (b_is_ok_check b = EXBCHK_PARAM) then
    (length (b_banstr b) =? CERT_FP_LEN)%nat && forallb isxdigit (b_banstr b)
  else true.

Definition is_ok_call (extbans : list Extban) (recursion : bool) (inner : is_ok_fn → BanContext → res bool) (f : is_ok_fn) (b : BanContext) : res bool :=
  match f with
  | extban_is_ok_nuh_extban =>
      if negb (is_extended_ban (b_banstr b)) then Ok true
      else if recursion then Ok false
      else
        match findmod_by_bantype extbans (b_banstr b) with
        | None => Ok (bool_decide (b_what b = MODE_DEL))
        | Some (e, nextbanstr) =>
            if option_set (e_options e) EXTBOPT_ACTMODIFIER || option_set (e_options e) EXTBOPT_NOSTACKCHILD then Ok false
            else match e_is_ok e with Some f => inner f (set_banstr nextbanstr b) | None => Ok true end
        end
  | extban_inchannel_is_ok => Ok (inchannel_is_ok b)
  | extban_certfp_is_ok => Ok (certfp_is_ok b)
  | other_is_ok k => other_ok k b
  end.
Definition is_ok (extbans : list Extban) : is_ok_fn → BanContext → res bool :=
  is_ok_call extbans false (is_ok_call extbans true (λ _ _, NoFuel)).

(** *** The mask that is kept *)

Definition clean_ban_mask (extbans : list Extban) (mask_in : list Z) (what : mode_what) (ban_type : ExtbanType) (c : uclient)
    (channel : list Z) (letters : bool) : res (option (list Z)) :=
  match drop_while (λ c, c =? COLON) mask_in with
  | [] => Ok None
  | mask_in =>
      let mask := take_while (λ c, negb (c =? SPACE_CH)) (Strl.strlcpy [] mask_in 512).1 in
      if negb (forallb (λ c, SPACE_CH <? c) mask) then Ok None
      else if is_extended_ban mask then
        match findmod_by_bantype extbans mask with
        | None =>
            if negb (MyUser c) || bool_decide (what = MODE_DEL) then
              Ok (Some (match what with MODE_ADD => take MAXBANLEN mask | MODE_DEL => mask end))
            else Ok None
        | Some (e, nextbanstr) =>
            let b := BanCtx (Some c) channel nextbanstr 0 None false what ban_type EXBCHK_ACCESS letters in
            let! ret := conv_param extbans (e_conv_param e) b in
            Ok (take MAXBANLEN <$> prefix_with_extban ret b e 512)
        end
      else Ok (convert_regular_ban mask (NICKLEN + USERLEN + HOSTLEN + 3))
  end.

(** ** Checking a client *)

Definition inchannel_compareflags (symbol : Z) (member_modes : list Z) : bool :=
  let required :=
    if symbol =? 43 then bs "vhoaq" else if symbol =? PERCENT then bs "hoaq" else if symbol =? AT then bs "oaq"
    else if symbol =? AMP then bs "aq" else if symbol =? TILDE then bs "q" else [] in
  existsb (strchr required) member_modes.

Definition account_is_banned (c : uclient) (banstr : list Z) : res bool :=
  if bool_decide (banstr = bs "0") then Ok (negb (IsLoggedIn c))
  else if bool_decide (banstr = bs "*") then Ok (IsLoggedIn c)
  else match uc_user c with Some u => match_simple banstr (us_account u) | None => Ok false end.

(** The channels of the client, in order. *)
Fixpoint inchannel_loop (p : list Z) (symbol : option Z) (l : list (list Z * list Z)) : res bool :=
  match l with
  | [] => Ok false
  | (name, modes) :: r =>
      let! m := match_esc p name in
      if (m : bool) && match symbol with Some c => inchannel_compareflags c modes | None => true end then Ok true
      else inchannel_loop p symbol r
  end.
Definition inchannel_is_banned (c : uclient) (banstr : list Z) : res bool :=
  match uc_user c with
  | None => Ok false
  | Some u =>
      match banstr with
      | [] => UB
      | x :: r => if x =? HASH then inchannel_loop banstr None (us_channels u) else inchannel_loop r (Some x) (us_channels u)
      end
  end.

Definition certfp_is_banned (c : uclient) (banstr : list Z) : bool :=
  match uc_moddata c (bs "certfp") with None => false | Some fp => bool_decide (banstr = fp) end.

(** check_channel_access(client, channel, modes), by the membership of the
    client. *)
Definition has_access (c : uclient) (channel modes : list Z) : bool :=
  match uc_user c with
  | None => false
  | Some u =>
      match list_find (λ m : list Z * list Z, m.1 = channel) (us_channels u) with
      | Some (_, m) => existsb (strchr modes) m.2
      | None => false
      end
  end.

(** The function of an extended ban; [check] is [ban_check_mask]. *)
Definition banned_call (check : BanContext → res (BanContext * bool)) (f : banned_fn) (b : BanContext) : res (BanContext * bool) :=
  match b_client b with
  | None => UB
  | Some c =>
      match f with
      | extban_quiet_is_banned | extban_modej_is_banned => check b
      | extban_nickchange_is_banned => if has_access c (b_channel b) (bs "v") then Ok (b, false) else check b
      | extban_partmsg_is_banned => let! (b, m) := check b in Ok (if m : bool then set_msg None b else b, false)
      | extban_account_is_banned => let! m := account_is_banned c (b_banstr b) in Ok (b, m)
      | extban_realname_is_banned => let! m := match_esc (b_banstr b) (uc_info c) in Ok (b, m)
      | extban_inchannel_is_banned => let! m := inchannel_is_banned c (b_banstr b) in Ok (b, m)
      | extban_certfp_is_banned => Ok (b, certfp_is_banned c (b_banstr b))
      | other_is_banned k => other_banned k b
      end
  end.

(** [_match_user_extended_server_ban], which also finds its way back to
    [ban_check_mask]. *)
Definition match_user_extended_server_ban (extbans : list Extban) (check : BanContext → res (BanContext * bool)) (banstr : list Z)
    (c : uclient) : res bool :=
  if negb (is_extended_server_ban banstr) then Ok false
  else
    match findmod_by_bantype extbans banstr with
    | None => Ok false
    | Some (e, nextbanstr) =>
        if negb (option_set (e_options e) EXTBOPT_TKL) || negb (option_set (e_events e) BANCHK_TKL) then Ok false
        else
          match e_is_banned e with
          | None => UB
          | Some f =>
              let! (_, r) := banned_call check f
                (BanCtx (Some c) [] nextbanstr BANCHK_TKL None false MODE_ADD EXBTYPE_BAN EXBCHK_ACCESS false) in Ok r
          end
    end.

Fixpoint ban_check (extbans : list Extban) (fuel : nat) (b : BanContext) : res (BanContext * bool) :=
  match fuel with
  | O => NoFuel
  | S fuel =>
      if negb (b_no_extbans b) && is_extended_ban (b_banstr b) then
        match findmod_by_bantype extbans (b_banstr b) with
        | None => Ok (b, false)
        | Some (e, nextbanstr) =>
            if negb (option_set (e_events e) (b_check_types b)) then Ok (b, false)
            else
              match e_is_banned e with
              | None => UB
              | Some f => banned_call (ban_check extbans fuel) f (set_banstr nextbanstr b)
              end
        end
      else
        match b_client b with
        | None => UB
        | Some c =>
            let! m := match_user inet_pton4 inet_pton6 (match_user_extended_server_ban extbans (ban_check extbans fuel))
                        (b_banstr b) c MATCH_CHECK_ALL in Ok (b, m)
        end
  end.
(** Every extended ban removes a part of the text. *)
Definition ban_check_mask (extbans : list Extban) (b : BanContext) : res (BanContext * bool) :=
  ban_check extbans (S (length (b_banstr b))) b.

Fixpoint first_match (extbans : list Extban) (l : list ban) (b : BanContext) : res (BanContext * option ban) :=
  match l with
  | [] => Ok (b, None)
  | x :: r =>
      let! (b, m) := ban_check_mask extbans (set_banstr (b_str x) b) in
      if m : bool then Ok (b, Some x) else first_match extbans r b
  end.

Definition set_name (name : list Z) (c : uclient) : uclient :=
  UClient (uc_id c) name (uc_ident c) (uc_info c) (uc_ip c) (uc_user c) (uc_local c) (uc_isuser c) (uc_hidden c)
    (uc_secure_connect c) (uc_tls c) (uc_oper c) (uc_moddata c) (uc_port c).

(** [is_banned_with_nick]: the ban, and the message as it may be sent. *)
Definition is_banned_with_nick (extbans : list Extban) (c : uclient) (channel : list Z) (banlist exlist : list ban) (type : Z)
    (nick msg : option (list Z)) : res (option ban * option (list Z)) :=
  let c := match nick with Some n => set_name (Strl.strlcpy [] n (HOSTLEN + 1)).1 c | None => c end in
  let b := BanCtx (Some c) channel [] type msg false MODE_ADD EXBTYPE_BAN EXBCHK_ACCESS false in
  let! (b, x) := first_match extbans banlist b in
  match x with
  | None => Ok (None, b_msg b)
  | Some x =>
      let! (b, ex) := first_match extbans exlist (set_ban_type EXBTYPE_EXCEPT b) in
      Ok (match ex with Some _ => None | None => Some x end, b_msg b)
  end.

Definition find_invex (extbans : list Extban) (c : uclient) (channel : list Z) (invexlist : list ban) : res bool :=
  let! (_, x) := first_match extbans invexlist
    (BanCtx (Some c) channel [] BANCHK_JOIN None false MODE_ADD EXBTYPE_INVEX EXBCHK_ACCESS false) in
  Ok (bool_decide (is_Some x)).
End Extended.

(** ** The modules *)

Definition ban_module (letter : Z) (name : string) (is_ok : option is_ok_fn) (conv : conv_fn) (banned : banned_fn) (events options : Z) : ExtbanInfo :=
  MkExtbanInfo letter (Some (bs name)) options is_ok (Some conv) (Some banned) events.
Definition quiet_info : ExtbanInfo :=
  ban_module 113 "quiet" (Some extban_is_ok_nuh_extban) extban_conv_param_nuh_or_extban extban_quiet_is_banned BANCHK_MSG EXTBOPT_ACTMODIFIER.
Definition join_info : ExtbanInfo :=
  ban_module 106 "join" (Some extban_is_ok_nuh_extban) extban_conv_param_nuh_or_extban extban_modej_is_banned BANCHK_JOIN EXTBOPT_ACTMODIFIER.
Definition nickchange_info : ExtbanInfo :=
  ban_module 110 "nickchange" (Some extban_is_ok_nuh_extban) extban_conv_param_nuh_or_extban extban_nickchange_is_banned BANCHK_NICK
    EXTBOPT_ACTMODIFIER.
Definition partmsg_info : ExtbanInfo :=
  ban_module 112 "partmsg" (Some extban_is_ok_nuh_extban) extban_conv_param_nuh_or_extban extban_partmsg_is_banned BANCHK_LEAVE_MSG
    EXTBOPT_ACTMODIFIER.
Definition register_account_extban : ExtbanInfo :=
  ban_module 97 "account" None extban_account_conv_param extban_account_is_banned (Z.lor BANCHK_ALL BANCHK_TKL) (Z.lor EXTBOPT_INVEX EXTBOPT_TKL).
Definition register_realname_extban : ExtbanInfo :=
  ban_module 114 "realname" None extban_realname_conv_param extban_realname_is_banned (Z.lor BANCHK_ALL BANCHK_TKL)
    (Z.lor EXTBOPT_INVEX EXTBOPT_TKL).
Definition register_channel_extban : ExtbanInfo :=
  ban_module 99 "channel" (Some extban_inchannel_is_ok) extban_inchannel_conv_param extban_inchannel_is_banned (Z.lor BANCHK_ALL BANCHK_TKL)
    (Z.lor EXTBOPT_INVEX EXTBOPT_TKL).
Definition register_certfp_extban : ExtbanInfo :=
  ban_module 83 "certfp" (Some extban_certfp_is_ok) extban_certfp_conv_param extban_certfp_is_banned (Z.lor BANCHK_ALL BANCHK_TKL)
    (Z.lor EXTBOPT_INVEX EXTBOPT_TKL).

Definition modules : list ExtbanInfo :=
  [quiet_info; join_info; nickchange_info; partmsg_info; register_account_extban; register_realname_extban; register_channel_extban;
   register_certfp_extban].

(** All of them registered, module number [i] with its [i]th request. *)
Fixpoint load (i : nat) (l : list ExtbanInfo) (g : registry) : res registry :=
  match l with
  | [] => Ok g
  | req :: r => let! (g, _) := ExtbanAdd i MODFLAG_TESTING req g in load (S i) r g
  end.
Definition standard : list Extban :=
  Eval vm_compute in match load 0 modules (Registry [] ∅ ∅) with Ok g => extbans g | _ => [] end.

Lemma standard_loaded : ∃ g, load 0 modules (Registry [] ∅ ∅) = Ok g ∧ extbans g = standard.
Proof. eexists. split; [vm_compute; reflexivity|reflexivity]. Qed.

(** ** What a ban means *)

Inductive matcher :=
| MAccount (a : list Z)
| MRealname (r : list Z)
| MChannel (symbol : option Z) (name : list Z)
| MCertfp (fp : list Z).
Inductive action := AQuiet | AJoin | ANick | APart.
Inductive target := TMask (m : usermask) | TMatch (by_name : bool) (x : matcher).
Inductive banmask := BTarget (t : target) | BAct (by_name : bool) (a : action) (t : target).

Definition matcher_ext (x : matcher) : Z * list Z :=
  match x with
  | MAccount _ => (97, bs "account") | MRealname _ => (114, bs "realname") | MChannel _ _ => (99, bs "channel") | MCertfp _ => (83, bs "certfp")
  end.
Definition action_ext (a : action) : Z * list Z :=
  match a with AQuiet => (113, bs "quiet") | AJoin => (106, bs "join") | ANick => (110, bs "nickchange") | APart => (112, bs "partmsg") end.
Definition matcher_arg (x : matcher) : list Z :=
  match x with
  | MAccount a => a | MRealname r => r | MCertfp fp => fp
  | MChannel symbol name => match symbol with Some s => s :: name | None => name end
  end.
Definition ext_text (by_name : bool) (e : Z * list Z) (arg : list Z) : list Z :=
  [TILDE] ++ (if by_name then e.2 else [e.1]) ++ [COLON] ++ arg.
Definition target_text (t : target) : list Z :=
  match t with TMask m => mask_text m | TMatch n x => ext_text n (matcher_ext x) (matcher_arg x) end.
Definition ban_text (x : banmask) : list Z :=
  match x with BTarget t => target_text t | BAct n a t => ext_text n (action_ext a) (target_text t) end.

Section Banned.
Context (inet_pton4 inet_pton6 : list Z → option (list Z)) {L : AddressLaws inet_pton4 inet_pton6}.
Context (other_banned : nat → BanContext → res (BanContext * bool)).
(** The modules above are registered, and perhaps others. *)
Context (l : list Extban)
  (Hstd : ∀ e, e ∈ standard → findmod_by_bantype_raw l [e_letter e] = Some e ∧ findmod_by_bantype_raw l (e_name e) = Some e).
Context (c : uclient) (channel : list Z) (types : Z).
Context (Hc : client_ok inet_pton4 inet_pton6 c) (Htypes : option_set (Z.lor BANCHK_ALL BANCHK_TKL) types = true).
Context (Hinfo : cstr (uc_info c)) (Hmember : ∀ u, uc_user c = Some u → cstr (us_account u) ∧ Forall (λ m, cstr m.1) (us_channels u)).

Definition matcher_ok (x : matcher) : Prop :=
  matcher_arg x ≠ [] ∧
  match x with
  | MAccount a => cstr a
  | MRealname r => cstr r ∧ TLit STAR ∉ esc_toks r
  | MChannel None name => cstr name ∧ TLit STAR ∉ esc_toks name ∧ deref name = HASH
  | MChannel (Some s) name => cstr name ∧ TLit STAR ∉ esc_toks name ∧ s ≠ HASH
  | MCertfp _ => True
  end.
Definition target_ok (t : target) : Prop :=
  match t with
  | TMask m => mask_ok inet_pton4 inet_pton6 m ∧ is_extended_server_ban (mask_text m) = false
  | TMatch _ x => matcher_ok x
  end.
Definition banmask_ok (x : banmask) : Prop := match x with BTarget t | BAct _ _ t => target_ok t end.

Definition in_channel (symbol : option Z) (name : list Z) (m : list Z * list Z) : bool :=
  glob (esc_toks name) m.1 && match symbol with Some s => inchannel_compareflags s m.2 | None => true end.
Definition matcher_meaning (x : matcher) : bool :=
  match x with
  | MAccount a =>
      if bool_decide (a = bs "0") then negb (IsLoggedIn c)
      else if bool_decide (a = bs "*") then IsLoggedIn c
      else match uc_user c with Some u => glob (simple_toks a) (us_account u) | None => false end
  | MRealname r => glob (esc_toks r) (uc_info c)
  | MChannel symbol name => match uc_user c with Some u => existsb (in_channel symbol name) (us_channels u) | None => false end
  | MCertfp fp => bool_decide (uc_moddata c (bs "certfp") = Some fp)
  end.
Definition target_meaning (t : target) : bool :=
  match t with TMask m => mask_meaning inet_pton4 inet_pton6 MATCH_CHECK_ALL m c | TMatch _ x => matcher_meaning x end.

(** An action applies to its kind of check only; nobody is banned by
    [APart], it takes the message away. *)
Definition applies (x : banmask) : bool :=
  match x with
  | BTarget t => target_meaning t
  | BAct _ AQuiet t => option_set BANCHK_MSG types && target_meaning t
  | BAct _ AJoin t => option_set BANCHK_JOIN types && target_meaning t
  | BAct _ ANick t => option_set BANCHK_NICK types && negb (has_access c channel (bs "v")) && target_meaning t
  | BAct _ APart _ => false
  end.
Definition silences (x : banmask) : bool :=
  match x with BAct _ APart t => option_set BANCHK_LEAVE_MSG types && target_meaning t | _ => false end.

Abbreviation ban_check := (ban_check other_banned inet_pton4 inet_pton6 l).
Abbreviation ban_check_mask := (ban_check_mask other_banned inet_pton4 inet_pton6 l).
Abbreviation first_match := (first_match other_banned inet_pton4 inet_pton6 l).

Lemma ext_found n e arg : e ∈ standard → arg ≠ [] →
  is_extended_ban (ext_text n (e_letter e, e_name e) arg) = true ∧
  findmod_by_bantype l (ext_text n (e_letter e, e_name e) arg) = Some (e, arg).
Proof using Hstd.
  clear -Hstd. intros He Ha. destruct (Hstd e He) as [Hl Hn]. unfold ext_text, findmod_by_bantype. cbn [app fst snd].
  assert (COLON ∉ e_name e ∧ e_letter e ≠ COLON) as [Hcn Hcl].
  { assert (Forall (λ e, COLON ∉ e_name e ∧ e_letter e ≠ COLON) standard) as Hf by by apply (bool_decide_unpack _).
    by apply (proj1 (Forall_forall _ _) Hf). }
  split; [unfold is_extended_ban; rewrite Z.eqb_refl; apply bool_decide_eq_true_2; set_solver|].
  set (p := if n then e_name e else [e_letter e]).
  assert (COLON ∉ p) as Hp by (subst p; destruct n; [done|]; set_solver).
  change (TILDE :: p ++ COLON :: arg) with ((TILDE :: p) ++ COLON :: arg). rewrite split_first_at by set_solver.
  destruct arg as [|a arg]; [done|]. subst p. destruct n; rewrite ?Hl, ?Hn; done.
Qed.

Lemma inchannel_spec p symbol ms : cstr p → TLit STAR ∉ esc_toks p → Forall (λ m, cstr m.1) ms →
  inchannel_loop p symbol ms = Ok (existsb (in_channel symbol p) ms).
Proof.
  intros Hp He. induction 1 as [|[name modes] ms Hm Hms IH]; [done|]. cbn [inchannel_loop existsb]. unfold in_channel at 1. cbn [fst snd].
  rewrite match_esc_correct by done. cbn [rbind]. rewrite IH. by destruct (glob _ name), symbol as [s|]; [destruct (inchannel_compareflags s modes)|..].
Qed.

Definition matcher_fn (x : matcher) : banned_fn :=
  match x with
  | MAccount _ => extban_account_is_banned | MRealname _ => extban_realname_is_banned
  | MChannel _ _ => extban_inchannel_is_banned | MCertfp _ => extban_certfp_is_banned
  end.
Definition action_fn (a : action) : banned_fn :=
  match a with
  | AQuiet => extban_quiet_is_banned | AJoin => extban_modej_is_banned
  | ANick => extban_nickchange_is_banned | APart => extban_partmsg_is_banned
  end.
Definition action_events (a : action) : Z :=
  match a with AQuiet => BANCHK_MSG | AJoin => BANCHK_JOIN | ANick => BANCHK_NICK | APart => BANCHK_LEAVE_MSG end.

Lemma matcher_entry x : ∃ e, e ∈ standard ∧ matcher_ext x = (e_letter e, e_name e) ∧
  e_events e = Z.lor BANCHK_ALL BANCHK_TKL ∧ e_is_banned e = Some (matcher_fn x) ∧ e_options e = Z.lor EXTBOPT_INVEX EXTBOPT_TKL.
Proof.
  destruct (standard !! match x with MAccount _ => 0 | MChannel _ _ => 1 | MRealname _ => 6 | MCertfp _ => 7 end%nat) as [e|] eqn:E;
    [|by destruct x].
  exists e. split; [by eapply list_elem_of_lookup_2|]. destruct x; injection E as <-; done.
Qed.
Lemma action_entry a : ∃ e, e ∈ standard ∧ action_ext a = (e_letter e, e_name e) ∧ e_events e = action_events a ∧ e_is_banned e = Some (action_fn a).
Proof.
  destruct (standard !! match a with AJoin => 2 | ANick => 3 | APart => 4 | AQuiet => 5 end%nat) as [e|] eqn:E; [|by destruct a].
  exists e. split; [by eapply list_elem_of_lookup_2|]. destruct a; injection E as <-; done.
Qed.

(** The function of a property of the client. *)
Lemma matcher_call check x b : matcher_ok x → b_client b = Some c → b_banstr b = matcher_arg x →
  banned_call other_banned check (matcher_fn x) b = Ok (b, matcher_meaning x).
Proof using Hstd Hinfo Hmember.
  intros [Hne Hx] Eb Es. unfold banned_call. rewrite Eb, Es. destruct x as [a|r|symbol name|fp]; cbn [matcher_fn matcher_arg matcher_meaning] in *.
  - unfold account_is_banned. case_bool_decide; [done|]. case_bool_decide; [done|].
    destruct (uc_user c) as [u|] eqn:Eu; [|done]. by rewrite match_simple_glob by (done || by apply (Hmember u)).
  - by rewrite match_esc_correct by naive_solver.
  - unfold inchannel_is_banned. destruct (uc_user c) as [u|] eqn:Eu; [|done]. destruct (Hmember u eq_refl) as [_ Hch].
    destruct symbol as [s|].
    + destruct Hx as (H1 & H2 & Hs). destruct (Z.eqb_spec s HASH); [done|]. by rewrite inchannel_spec.
    + destruct Hx as (H1 & H2 & Hd). destruct name as [|z r]; [done|]. cbn in Hd. subst z. by rewrite Z.eqb_refl, inchannel_spec.
  - f_equal. f_equal. unfold certfp_is_banned. destruct (uc_moddata c _) as [f|]; [|done]. apply bool_decide_ext. naive_solver.
Qed.

(** The context of a check; its text and its message change. *)
Record context_ok (b : BanContext) : Prop := ContextOk {
  cx_client : b_client b = Some c;
  cx_channel : b_channel b = channel;
  cx_types : b_check_types b = types;
  cx_extbans : b_no_extbans b = false
}.

Lemma target_check fuel t b : target_ok t → context_ok b →
  ∃ s, ban_check (S fuel) (set_banstr (target_text t) b) = Ok (set_banstr s b, target_meaning t).
Proof using L Hstd Hc Htypes Hinfo Hmember.
  intros Ht [B1 B2 B3 B4]. cbn [Extbans.ban_check]. destruct t as [m|n x]; cbn [target_text target_meaning target_ok] in *.
  - destruct Ht as [Hm Hx]. assert (is_extended_ban (mask_text m) = false) as Hx'.
    { revert Hx. unfold is_extended_server_ban. destruct (mask_text m) as [|z r]; [done|]. destruct (Z.eqb_spec z PERCENT) as [->|]; done. }
    cbn [b_no_extbans b_banstr b_client set_banstr]. rewrite B4, Hx', B1. cbn [negb andb].
    rewrite match_user_spec; [|done..|]; [by eexists|]. split; [|by destruct m]. by rewrite Hx, andb_false_r.
  - destruct (matcher_entry x) as (e & He & -> & Hev & Hf & _). destruct (ext_found n e (matcher_arg x) He (proj1 Ht)) as [Hext Hfind].
    cbn [b_no_extbans b_banstr b_check_types set_banstr]. rewrite B4, Hext, Hfind, B3, Hev, Htypes, Hf. cbn [negb andb].
    rewrite matcher_call by done. by eexists.
Qed.

(** One ban: whether it applies, and whether it takes the message away. *)
Lemma ban_check_spec x b : banmask_ok x → context_ok b →
  ∃ s, ban_check_mask (set_banstr (ban_text x) b) =
    Ok (set_banstr s (if silences x then set_msg None b else b), applies x).
Proof using L Hstd Hc Htypes Hinfo Hmember.
  intros Hx Hb. unfold Extbans.ban_check_mask. cbn [b_banstr set_banstr]. destruct x as [t|n a t]; cbn [ban_text banmask_ok silences applies] in *.
  - by apply target_check.
  - assert (target_text t ≠ []) as Hne.
    { destruct t as [m|k y]; [|done]. destruct Hx as [[_ Hm] _]. cbn [target_text].
      destruct m as [nick user h|user h|h]; cbn [mask_text]; [by destruct nick|by destruct user|].
      by destruct (host_text_ok inet_pton4 inet_pton6 h ltac:(apply Hm)). }
    destruct (action_entry a) as (e & He & -> & Hev & Hf). destruct (ext_found n e (target_text t) He Hne) as [Hext Hfind].
    set (text := ext_text n (e_letter e, e_name e) (target_text t)) in *. assert (∃ k, length text = S k) as [k ->] by by eexists.
    destruct (target_check k t b Hx Hb) as [s Hs]. remember (S k) as f eqn:Ef. cbn [Extbans.ban_check]. cbn [b_no_extbans b_banstr b_check_types set_banstr]. rewrite (cx_extbans b Hb), Hext, Hfind, (cx_types b Hb), Hev, Hf.
    cbn [negb andb]. change (set_banstr (target_text t) (set_banstr text b)) with (set_banstr (target_text t) b).
    unfold banned_call. cbn [b_client b_channel set_banstr]. rewrite (cx_client b Hb), (cx_channel b Hb).
    destruct a; cbn [action_fn action_events].
    + destruct (option_set BANCHK_MSG types); cbn [negb andb]; [by eexists|by exists text].
    + destruct (option_set BANCHK_JOIN types); cbn [negb andb]; [by eexists|by exists text].
    + destruct (option_set BANCHK_NICK types); cbn [negb andb]; [|by exists text]. destruct (has_access _ _ _); cbn [negb andb]; by eexists.
    + destruct (option_set BANCHK_LEAVE_MSG types); cbn [negb andb]; [|by exists text]. rewrite Hs. cbn [rbind].
      exists s. by destruct (target_meaning t).
Qed.

(** A list of bans with what they say. *)
Definition entries_ok (ps : list (ban * banmask)) : Prop := Forall (λ p, b_str p.1 = ban_text p.2 ∧ banmask_ok p.2) ps.
Definition first_applying (ps : list (ban * banmask)) : option ban := (λ r, r.2.1) <$> list_find (λ p, applies p.2 = true) ps.
Definition silenced (ps : list (ban * banmask)) : bool := existsb (λ p, silences p.2) (take_while (λ p, negb (applies p.2)) ps).

Lemma silences_applies x : silences x = true → applies x = false.
Proof. by destruct x as [t|n [] t]. Qed.

Lemma first_match_spec ps b : entries_ok ps → context_ok b →
  ∃ s, first_match (map fst ps) b = Ok (set_banstr s (if silenced ps then set_msg None b else b), first_applying ps).
Proof using L Hstd Hc Htypes Hinfo Hmember.
  intros Hps. revert b. induction Hps as [|[y x] ps [E Hx] Hps IH]; intros b Hb; [exists (b_banstr b); by destruct b|].
  cbn [map Extbans.first_match fst snd] in *. rewrite E. destruct (ban_check_spec x b Hx Hb) as [s ->]. cbn [rbind].
  unfold first_applying, silenced. cbn [list_find take_while snd]. destruct (applies x) eqn:Ea; cbn [negb].
  - rewrite decide_True by done. assert (silences x = false) as ->; [|by exists s].
    apply not_true_is_false. intros Hs%silences_applies. congruence.
  - rewrite decide_False by done. cbn [existsb snd]. set (b1 := if silences x then set_msg None b else b).
    assert (context_ok (set_banstr s b1)) as Hb1 by (subst b1; destruct Hb; by destruct (silences x)).
    destruct (IH _ Hb1) as [s' ->]. exists s'. f_equal. f_equal.
    + subst b1. fold (silenced ps). by destruct (silences x), (silenced ps).
    + unfold first_applying. by destruct (list_find _ ps) as [[? ?]|].
Qed.
End Banned.

(** C13.  Bans.  Whatever extended bans are stacked and whether they are written with names or
    letters, the check of a client returns, and gives the first ban that applies, unless an
    exception applies: a mask or a property of the client matches, and an action in front
    of it is what is being checked.  The message is kept unless a ban for parting messages
    applies that is looked at. *)
Theorem is_banned_correct inet_pton4 inet_pton6 (L : AddressLaws inet_pton4 inet_pton6) other l c channel types bans exs msg :
  (∀ e, e ∈ standard → findmod_by_bantype_raw l [e_letter e] = Some e ∧ findmod_by_bantype_raw l (e_name e) = Some e) →
  client_ok inet_pton4 inet_pton6 c → option_set (Z.lor BANCHK_ALL BANCHK_TKL) types = true → cstr (uc_info c) →
  (∀ u, uc_user c = Some u → cstr (us_account u) ∧ Forall (λ m, cstr m.1) (us_channels u)) →
  entries_ok inet_pton4 inet_pton6 bans → entries_ok inet_pton4 inet_pton6 exs →
  let first := first_applying inet_pton4 inet_pton6 c channel types in
  let silenced := silenced inet_pton4 inet_pton6 c channel types in
  is_banned_with_nick other inet_pton4 inet_pton6 l c channel (map fst bans) (map fst exs) types None msg =
  Ok (match first bans with Some x => match first exs with Some _ => None | None => Some x end | None => None end,
      if silenced bans || (bool_decide (is_Some (first bans)) && silenced exs) then None else msg).
Proof.
  intros Hstd Hc Ht Hi Hm Hb He first silenced_. unfold is_banned_with_nick.
  set (b0 := BanCtx (Some c) channel [] types msg false MODE_ADD EXBTYPE_BAN EXBCHK_ACCESS false).
  destruct (first_match_spec inet_pton4 inet_pton6 other l Hstd c channel types Hc Ht Hi Hm bans b0 Hb ltac:(done)) as [s ->]. cbn [rbind].
  fold first silenced_. destruct (first bans) as [x|]; cbn [is_Some bool_decide].
  - set (b1 := set_ban_type _ _). assert (context_ok c channel types b1) as Hb1 by (subst b1; by destruct (silenced_ bans)).
    destruct (first_match_spec inet_pton4 inet_pton6 other l Hstd c channel types Hc Ht Hi Hm exs b1 He Hb1) as [s' ->]. cbn [rbind].
    fold first silenced_. rewrite bool_decide_true by by eexists. cbn [andb]. subst b1.
    by destruct (first exs), (silenced_ bans), (silenced_ exs).
  - rewrite bool_decide_false by by intros [? ?]. rewrite andb_false_l, orb_false_r. by destruct (silenced_ bans).
Qed.

Lemma standard_found e : e ∈ standard →
  findmod_by_bantype_raw standard [e_letter e] = Some e ∧ findmod_by_bantype_raw standard (e_name e) = Some e.
Proof.
  intros [i Hi]%list_elem_of_lookup. do 8 (destruct i as [|i]; [injection Hi as <-; split; reflexivity|]). done.
Qed.

(** A quiet ban on everybody, with an exception for an account; and one for nick changes. *)
Definition demo_bans : list (ban * banmask) :=
  let all := TMask (MNickUserHost (bs "*") (bs "*") (HWild (bs "*"))) in
  map (λ x, (Ban (ban_text x) (bs "op") 0, x)) [BAct true ANick all; BAct false AQuiet all].
Definition demo_exceptions : list (ban * banmask) :=
  map (λ x, (Ban (ban_text x) (bs "op") 0, x)) [BAct true AQuiet (TMatch true (MAccount (bs "j*")))].

Lemma is_banned_witness :
  map (λ p, b_str p.1) demo_bans = [bs "~nickchange:*!*@*"; bs "~q:*!*@*"] ∧
  map (λ p, b_str p.1) demo_exceptions = [bs "~quiet:~account:j*"] ∧
  is_banned_with_nick (λ _ b, Ok (b, false)) demo_pton4 demo_pton6 standard demo_uclient (bs "#c") (map fst demo_bans)
    (map fst demo_exceptions) BANCHK_MSG None None = Ok (None, None) ∧
  is_banned_with_nick (λ _ b, Ok (b, false)) demo_pton4 demo_pton6 standard demo_uclient (bs "#c") (map fst demo_bans) [] BANCHK_MSG None None =
    Ok (Some (Ban (bs "~q:*!*@*") (bs "op") 0), None).
Proof.
  assert (entries_ok demo_pton4 demo_pton6 demo_bans ∧ entries_ok demo_pton4 demo_pton6 demo_exceptions) as [H1 H2].
  { split; repeat (apply Forall_cons; split); try apply Forall_nil_2; (split; [reflexivity|]).
    1,2: split; [split; [vm_compute; lia|split_and!; by apply (bool_decide_unpack _)]|reflexivity].
    split; [done|by apply (bool_decide_unpack _)]. }
  assert (∀ u, uc_user demo_uclient = Some u → cstr (us_account u) ∧ Forall (λ m, cstr m.1) (us_channels u)) as Hu.
  { intros u [= <-]. split; by apply (bool_decide_unpack _). }
  split; [reflexivity|]. split; [reflexivity|]. split.
  - etransitivity; [refine (is_banned_correct demo_pton4 demo_pton6 demo_laws (λ _ b, Ok (b, false)) standard demo_uclient (bs "#c") BANCHK_MSG
      demo_bans demo_exceptions None standard_found demo_client_ok eq_refl _ Hu H1 H2); by apply (bool_decide_unpack _)|vm_compute; reflexivity].
  - etransitivity; [refine (is_banned_correct demo_pton4 demo_pton6 demo_laws (λ _ b, Ok (b, false)) standard demo_uclient (bs "#c") BANCHK_MSG
      demo_bans [] None standard_found demo_client_ok eq_refl _ Hu H1 (Forall_nil_2 _)); by apply (bool_decide_unpack _)|vm_compute; reflexivity].
Defined.

(** The exception of a ban on parting messages is never looked at, since that ban does not
    count as one: the message is taken away all the same. *)
Lemma partmsg_exception_ignored :
  is_banned_with_nick (λ _ b, Ok (b, false)) demo_pton4 demo_pton6 standard demo_uclient (bs "#c")
    [Ban (bs "~partmsg:*!*@*") [] 0] [Ban (bs "~partmsg:*!*@*") [] 0] BANCHK_LEAVE_MSG None (Some (bs "bye")) = Ok (None, None).
Proof. vm_compute. reflexivity. Qed.

(** ** Converting again changes nothing *)

Definition printable (s : list Z) : Prop := Forall (λ c, SPACE_CH < c < 256) s.

Lemma printable_no_space s : printable s → no_space s.
Proof.
  intros Hs. eapply Forall_impl; [exact Hs|]. intros c Hc.
  assert (Forall (λ c, negb (isspace c) = true) (seqZ 33 223)) as H by (apply (bool_decide_unpack _); vm_compute; exact I).
  rewrite Forall_forall in H. apply H, elem_of_seqZ. cbv beta in Hc. lia.
Qed.

Lemma trim_Forall P s len : P STAR → Forall P (default [] s) → Forall P (default [] (trim_str s len)).
Proof.
  intros Hst H. destruct s as [s|]; [|done]. unfold trim_str. destruct (len <? length s)%nat; [|exact H].
  apply Forall_cons. split; [done|by apply Forall_drop].
Qed.
Lemma part_Forall P s : P STAR → Forall P (default [] s) → Forall P (part s).
Proof. intros Hst H. destruct s as [[|c r]|]; [by constructor|done|by constructor]. Qed.

(** A converted mask has the characters of what was given, and its first one or a star. *)
Lemma convert_chars (P : Z → Prop) buflen m r :
  P STAR → P BANG → P AT → Forall P m → no_space m → (NICKLEN + USERLEN + HOSTLEN + 3 ≤ buflen)%nat →
  convert_regular_ban m buflen = Some r → Forall P r ∧ (head r = Some STAR ∨ head r = head m).
Proof.
  intros P1 P2 P3 Hm Hs Hb.
  assert (∀ n u h, Forall P (default [] n) → Forall P (default [] u) → Forall P (default [] h) →
    no_space (default [] n) → no_space (default [] u) → no_space (default [] h) →
    (n = None ∨ head (default [] n) = None ∨ head (default [] n) = head m) →
    let x := make_nick_user_host_r buflen (trim_str n NICKLEN) (trim_str u USERLEN) (trim_str h HOSTLEN) in
    Forall P x ∧ (head x = Some STAR ∨ head x = head m)) as Hmake.
  { intros n u h Hn Hu Hh Sn Su Sh Hhead x. subst x.
    destruct (trim_spec n NICKLEN) as (L1 & S1 & _ & _); [unfold NICKLEN; lia|done|].
    destruct (trim_spec u USERLEN) as (L2 & S2 & _ & _); [unfold USERLEN; lia|done|].
    destruct (trim_spec h HOSTLEN) as (L3 & S3 & _ & _); [unfold HOSTLEN; lia|done|].
    rewrite make_nuh_spec by done. split.
    - repeat first [apply Forall_app; split|apply Forall_cons; split]; try done; by apply part_Forall, trim_Forall.
    - destruct n as [n|]; cbn [trim_str]; [|by left]. destruct (_ <? _)%nat; [by left|]. destruct n as [|c n]; [by left|]. right. cbn in *. naive_solver. }
  unfold convert_regular_ban. destruct m as [|c0 m0] eqn:Em; [done|]. rewrite <-Em in *. assert (head m = Some c0) as Hh0 by by subst.
  destruct (_ && _); [done|]. destruct (split_first BANG m) as [[a b]|] eqn:E1.
  - apply split_first_Some in E1 as [E1 _]. pose proof Hm as Hm'. rewrite E1 in Hm'. apply Forall_app in Hm' as [Ha [_ Hpb]%Forall_cons].
    destruct (no_space_parts m a b BANG Hs E1) as [Sa Sb].
    assert (head a = None ∨ head a = head m) as Hha by (rewrite E1; destruct a; [by left|by right]).
    cbn [default from_option id]. destruct (split_last AT b) as [[u h]|] eqn:E2;
      [|rewrite bool_decide_eq_false_2 by done; cbn [andb]]; intros [= <-].
    + apply split_last_Some in E2 as [E2 _]. destruct (no_space_parts b u h AT Sb E2) as [Su Sh].
      rewrite E2 in Hpb. apply Forall_app in Hpb as [Hu [_ Hh]%Forall_cons]. apply (Hmake (Some a) (Some u) (Some h)); auto.
    + apply (Hmake (Some a) (Some b) None); cbn; auto; constructor.
  - cbn [default from_option id]. destruct (split_last AT m) as [[u h]|] eqn:E2; [intros [= <-]|].
    + apply split_last_Some in E2 as [E2 _]. destruct (no_space_parts m u h AT Hs E2) as [Su Sh].
      pose proof Hm as Hm'. rewrite E2 in Hm'. apply Forall_app in Hm' as [Hu [_ Hh]%Forall_cons].
      apply (Hmake None (Some u) (Some h)); cbn; auto; constructor.
    + destruct (_ && _); intros [= <-]; [apply (Hmake None None (Some m))|apply (Hmake (Some m) None None)]; cbn; auto; constructor.
Qed.

(** A mask that is not an extended ban does not become one. *)
Lemma convert_plain m r : printable m → is_extended_ban m = false →
  convert_regular_ban m (NICKLEN + USERLEN + HOSTLEN + 3) = Some r →
  printable r ∧ r ≠ [] ∧ is_extended_ban r = false ∧ (head r = Some COLON → head m = Some COLON).
Proof.
  intros Hm Hx E. pose proof (printable_no_space m Hm) as Hs.
  destruct (convert_chars (λ c, SPACE_CH < c < 256) _ m r ltac:(cbv beta; lia) ltac:(cbv beta; lia) ltac:(cbv beta; lia) Hm Hs (le_n _) E) as [Hr Hh].
  destruct (convert_regular_ban_idempotent _ m r Hs (le_n _) E) as (Hfull & _ & _). destruct Hfull as [nn uu hh En ? ? Hn ? ? ? ? ? ? ? ?].
  split_and!; [done|subst r; by destruct nn| |by destruct Hh as [->| ->]].
  destruct r as [|c r]; [done|]. unfold is_extended_ban. destruct (Z.eqb_spec c TILDE) as [->|]; [|done]. cbn [andb].
  destruct Hh as [[=]|Hh]. destruct m as [|c m]; [done|]. injection Hh as <-. unfold is_extended_ban in Hx. cbn in Hx.
  apply bool_decide_eq_false in Hx. apply bool_decide_eq_false_2.
  assert (Forall (λ c, c ≠ COLON) (TILDE :: m)) as Hm'.
  { constructor; [done|]. apply Forall_forall. intros c Hin ->. done. }
  destruct (convert_chars (λ c, c ≠ COLON) _ (TILDE :: m) (TILDE :: r) ltac:(done) ltac:(done) ltac:(done) Hm' Hs (le_n _) E) as [Hcol _].
  apply Forall_cons in Hcol as [_ Hcol]. rewrite Forall_forall in Hcol. intros Hin. by apply (Hcol COLON).
Qed.

(** The buffers are larger than what is written to them. *)
Ltac sizes := unfold CHANNELLEN, REALLEN, EVP_MAX_MD_SIZE, NICKLEN, USERLEN, HOSTLEN, MAXBANLEN in *; cbn [length] in *; lia.

(** A registered ban is found by its letter and by its name, and has one of the functions above. *)
Definition registered (l : list Extban) (e : Extban) : Prop :=
  findmod_by_bantype_raw l [e_letter e] = Some e ∧ findmod_by_bantype_raw l (e_name e) = Some e ∧
  is_valid_extban_name (e_name e) = true ∧ isalnum (e_letter e) = true ∧ cchar (e_letter e) ∧ cstr (e_name e) ∧
  ∀ k, e_conv_param e ≠ other_conv_param k.

Section Idempotent.
Context (named_extended_bans : bool) (chantypes : option (list Z)) (allowed : allowed_channelchars).
Context (other_conv : nat → BanContext → res (option (list Z))).
Context (l : list Extban) (Hl : Forall (registered l) l).

Abbreviation conv_call := (conv_call named_extended_bans chantypes allowed other_conv l).
Abbreviation prefix := (prefix_with_extban named_extended_bans).

Lemma raw_in name e : findmod_by_bantype_raw l name = Some e → e ∈ l.
Proof.
  unfold findmod_by_bantype_raw. destruct (list_find _ l) as [[i x]|] eqn:E; [|done]. intros [= <-].
  apply list_find_Some in E as (E & _). by eapply list_elem_of_lookup_2.
Qed.
Lemma find_in text e arg : findmod_by_bantype l text = Some (e, arg) → e ∈ l ∧ arg ≠ [] ∧ ∃ p, text = p ++ COLON :: arg.
Proof.
  unfold findmod_by_bantype. destruct (split_first COLON text) as [[p [|a r]]|] eqn:E; [done| |done]. apply split_first_Some in E as [-> _].
  destruct p as [|x p]; [done|]. destruct (findmod_by_bantype_raw l p) as [e'|] eqn:Er; [|done]. intros [= <- <-].
  split_and!; [by eapply raw_in|done|]. by exists (x :: p).
Qed.

(** The name in front of the colon, and what is found for it. *)
Definition label (b : BanContext) (e : Extban) : list Z := if named_extended_bans && negb (b_letters b) then e_name e else [e_letter e].
Lemma label_ok b e : e ∈ l → COLON ∉ label b e ∧ printable (label b e) ∧ (length (label b e) ≤ 32)%nat ∧
  findmod_by_bantype_raw l (label b e) = Some e.
Proof using Hl.
  intros He. destruct (proj1 (Forall_forall _ _) Hl e He) as (H1 & H2 & H3 & H4 & H5 & H6 & _).
  assert (∀ c, cchar c → isalnum c = true ∨ islower c || isdigit c || strchr (bs "_-") c = true → 33 ≤ c ∧ c ≠ COLON) as Hch.
  { assert (Forall (λ c, isalnum c || (islower c || isdigit c || strchr (bs "_-") c) = true → 33 ≤ c ∧ c ≠ COLON) (seqZ 1 255)) as Hf
      by (apply (bool_decide_unpack _); vm_compute; exact I).
    rewrite Forall_forall in Hf. intros c Hc Hor. apply Hf; [apply elem_of_seqZ; unfold cchar in Hc; lia|]. apply orb_true_iff. tauto. }
  unfold label. destruct (_ && _).
  - unfold is_valid_extban_name in H3. rewrite !andb_true_iff in H3. destruct H3 as ((_ & Hlen) & Hall).
    rewrite forallb_forall in Hall. apply Nat.leb_le in Hlen. split; [|split; [apply Forall_forall|by split]].
    + intros Hin. destruct (Hch COLON) as [_ []]; [by apply (proj1 (Forall_forall _ _) H6)| |done]. right. apply Hall. by apply list_elem_of_In.
    + intros c Hin. assert (cchar c) as Hc by by apply (proj1 (Forall_forall _ _) H6).
      destruct (Hch c Hc) as [? _]; [right; apply Hall; by apply list_elem_of_In|]. unfold cchar in Hc. lia.
  - destruct (Hch (e_letter e) H5 (or_introl H4)) as [? ?]. split; [set_solver|]. split; [|split; [cbn; lia|done]].
    constructor; [|constructor]. unfold cchar in H5. lia.
Qed.

Lemma prefix_text b e r buflen : (length (label b e) + length r + 2 < buflen)%nat →
  prefix (Some r) b e buflen = Some (TILDE :: label b e ++ COLON :: r).
Proof. intros H. cbn. f_equal. apply take_ge. unfold label in *. cbn. rewrite length_app. cbn. lia. Qed.

Lemma prefix_found b e r : e ∈ l → r ≠ [] →
  is_extended_ban (TILDE :: label b e ++ COLON :: r) = true ∧ findmod_by_bantype l (TILDE :: label b e ++ COLON :: r) = Some (e, r).
Proof using Hl.
  intros He Hr. destruct (label_ok b e He) as (Hc & _ & _ & Hf). split; [cbn; apply bool_decide_eq_true_2; set_solver|].
  unfold findmod_by_bantype. change (TILDE :: label b e ++ COLON :: r) with ((TILDE :: label b e) ++ COLON :: r).
  rewrite split_first_at by set_solver. destruct r; [done|]. by rewrite Hf.
Qed.

(** What a function returns is printable, short, and returned again for itself. *)
Definition fixed (conv : BanContext → res (option (list Z))) (b : BanContext) (bound : nat) (r : list Z) : Prop :=
  printable r ∧ r ≠ [] ∧ (length r ≤ bound)%nat ∧ conv (set_banstr r b) = Ok (Some r).

Lemma printable_take n s : printable s → printable (take n s).
Proof. apply Forall_take. Qed.
Lemma extended_take n s : is_extended_ban s = false → is_extended_ban (take n s) = false.
Proof.
  destruct s as [|c s], n as [|n]; try done. cbn [take is_extended_ban]. destruct (c =? TILDE); [|done]. cbn [andb].
  intros H%bool_decide_eq_false. apply bool_decide_eq_false_2. intros Hin. apply H. rewrite <-(take_drop n s). apply elem_of_app. by left.
Qed.

Lemma nuh_fixed b s r : printable s → conv_nuh (set_banstr s b) = Some r →
  fixed (λ b, Ok (conv_nuh b)) b 105 r ∧ (is_extended_ban s = false → is_extended_ban r = false).
Proof.
  intros Hs E. unfold conv_nuh in E. cbn [b_banstr set_banstr] in E. rewrite Strl.strlcpy_fst in E by (cbn; lia).
  set (m := take _ s) in E. assert (printable m) as Hm by by apply printable_take. pose proof (printable_no_space m Hm) as Hsp.
  destruct (convert_regular_ban_idempotent _ m r Hsp (le_n _) E) as (Hfull & Hlen & _).
  destruct (convert_chars (λ c, SPACE_CH < c < 256) _ m r ltac:(cbv beta; lia) ltac:(cbv beta; lia) ltac:(cbv beta; lia) Hm Hsp (le_n _) E) as [Hr _].
  assert (length r < 106)%nat as Hlen' by exact Hlen.
  split; [split; [done|split; [by destruct Hfull as [[|x n'] ? ? -> ? ? Hn]|split; [lia|]]]|].
  - f_equal. unfold conv_nuh. cbn [b_banstr set_banstr]. rewrite strlcpy_fits by (cbn; lia). by apply full_mask_fixed.
  - intros Hx. destruct (convert_plain m r Hm) as (_ & _ & H & _); [by apply extended_take|exact E|done].
Qed.

Lemma tolower_printable c : SPACE_CH < c < 256 → SPACE_CH < tolower c < 256 ∧ tolower (tolower c) = tolower c.
Proof.
  intros Hc. assert (Forall (λ c, SPACE_CH < tolower c < 256 ∧ tolower (tolower c) = tolower c) (seqZ 33 223)) as H
    by (apply (bool_decide_unpack _); vm_compute; exact I).
  rewrite Forall_forall in H. apply H, elem_of_seqZ. lia.
Qed.

Lemma inchannel_keeps b r : inchannel_conv chantypes allowed b = Some r → r = (Strl.strlcpy [] (b_banstr b) (CHANNELLEN + 6)).1.
Proof.
  unfold inchannel_conv. set (retbuf := (Strl.strlcpy _ _ _).1). set (chan := if channel_symbol (deref retbuf) then drop 1 retbuf else retbuf).
  destruct (_ && _ && _); [done|]. destruct (valid_channelname chantypes allowed chan) eqn:Ev; [|done]. cbn [negb]. intros [= <-].
  assert (split_first COLON chan = None) as ->.
  { apply split_first_notin. intros Hin%list_elem_of_In. unfold valid_channelname in Ev.
    destruct (strchr _ _); [|done]. destruct (_ <? _)%nat; [done|].
    assert (forallb (λ c, negb (bad_name_char c)) chan = true) as Hall.
    { destruct allowed; cbn in Ev; [done| |by apply andb_true_iff in Ev as [? _]].
      apply forallb_forall. intros x Hx. rewrite forallb_forall in Ev. specialize (Ev x Hx). rewrite negb_orb in Ev. by apply andb_true_iff in Ev as [? _]. }
    rewrite forallb_forall in Hall. by specialize (Hall COLON Hin). }
  subst chan. destruct (channel_symbol _); [|by rewrite Nat.sub_diag]. destruct retbuf as [|x r]; [done|].
  cbn [drop length]. replace (S (length r) - length (drop 0 r))%nat with 1%nat by (rewrite drop_0; lia). done.
Qed.

Lemma account_fixed b s r : printable s → account_conv (set_banstr s b) = Some r → fixed (λ b, Ok (account_conv b)) b 33 r.
Proof.
  intros Hs E. unfold account_conv in E. cbn [b_banstr set_banstr] in E. rewrite Strl.strlcpy_fst in E by sizes.
  destruct (take _ s) as [|c t] eqn:Et; [done|]. injection E as <-. pose proof (f_equal length Et) as Hlen. rewrite length_take in Hlen.
  split; [rewrite <-Et; by apply printable_take|]. split; [done|]. split; [sizes|].
  unfold account_conv. cbn [b_banstr set_banstr]. rewrite strlcpy_fits by sizes. done.
Qed.

Lemma realname_fixed b s r : printable s → realname_conv (set_banstr s b) = Some r → fixed (λ b, Ok (realname_conv b)) b 50 r.
Proof.
  intros Hs E. unfold realname_conv in E. cbn [b_banstr set_banstr] in E. rewrite Strl.strlcpy_fst in E by sizes. rewrite take_take in E.
  assert (length (take (REALLEN `min` (REALLEN + 8 - 1)) s) ≤ 50)%nat as Hlen by (rewrite length_take; sizes).
  pose proof (printable_take (REALLEN `min` (REALLEN + 8 - 1)) s Hs) as Hm. destruct (take _ s) as [|c t]; [done|].
  injection E as <-. apply Forall_cons in Hm as [Hc Ht].
  set (c' := if c =? TILDE then QMARK else c). assert (SPACE_CH < c' < 256 ∧ c' ≠ TILDE) as [Hc' Hn'].
  { subst c'. destruct (Z.eqb_spec c TILDE); [done|]. by split. }
  split; [by constructor|]. split; [done|]. split; [sizes|].
  unfold realname_conv. cbn [b_banstr set_banstr]. rewrite strlcpy_fits, take_ge by sizes. destruct (Z.eqb_spec c' TILDE); done.
Qed.

Lemma inchannel_fixed b s r : printable s → s ≠ [] → inchannel_conv chantypes allowed (set_banstr s b) = Some r →
  fixed (λ b, Ok (inchannel_conv chantypes allowed b)) b 37 r.
Proof.
  intros Hs Hne E. pose proof (inchannel_keeps _ _ E) as Er. cbn [b_banstr set_banstr] in Er. rewrite Strl.strlcpy_fst in Er by sizes.
  assert (length r ≤ 37)%nat as Hlen by (rewrite Er, length_take; sizes).
  assert (r ≠ []) as Hr by (rewrite Er; by destruct s). split; [rewrite Er; by apply printable_take|]. split; [done|]. split; [lia|].
  f_equal. rewrite <-E. unfold inchannel_conv. cbn [b_banstr set_banstr].
  rewrite (strlcpy_fits r) by sizes. rewrite Strl.strlcpy_fst by sizes. by rewrite <-Er.
Qed.

Lemma certfp_fixed b s r : printable s → s ≠ [] → certfp_conv (set_banstr s b) = Some r → fixed (λ b, Ok (certfp_conv b)) b 128 r.
Proof.
  intros Hs Hne E. unfold certfp_conv in E. cbn [b_banstr set_banstr] in E. rewrite Strl.strlcpy_fst in E by sizes. injection E as <-.
  set (m := take _ s). assert (printable m) as Hm by by apply printable_take. assert (length m ≤ 128)%nat as Hlen by (subst m; rewrite length_take; sizes).
  split; [|split; [by destruct s|split; [by rewrite length_map|]]].
  - unfold printable. rewrite Forall_map. eapply Forall_impl; [exact Hm|]. intros c Hc. apply tolower_printable, Hc.
  - unfold certfp_conv. cbn [b_banstr set_banstr]. rewrite strlcpy_fits by (rewrite length_map; sizes).
    f_equal. f_equal. rewrite map_map. apply map_ext_in. intros c Hin%list_elem_of_In. apply tolower_printable. by apply (proj1 (Forall_forall _ _) Hm).
Qed.

Lemma fixed_weaken conv conv' b n n' r : fixed conv b n r → (n ≤ n')%nat → conv' (set_banstr r b) = conv (set_banstr r b) → fixed conv' b n' r.
Proof. intros (H1 & H2 & H3 & H4) Hn E. unfold fixed. rewrite E. split_and!; [done|done|lia|done]. Qed.

(** A function, unless it is called for a stack of bans. *)
Lemma call_fixed recursion inner f b s r : (∀ k, f ≠ other_conv_param k) → printable s → s ≠ [] →
  (f = extban_conv_param_nuh_or_extban → is_extended_ban s = false) →
  conv_call recursion inner f (set_banstr s b) = Ok (Some r) → fixed (conv_call recursion inner f) b 128 r.
Proof.
  intros Hf Hs Hne Hx E. destruct f; cbn [Extbans.conv_call] in E; try apply Ok_inj in E.
  - destruct (nuh_fixed b s r Hs E) as [H _]. eapply fixed_weaken; [exact H|lia|done].
  - unfold conv_nuh_or_extban in E. cbn [b_banstr set_banstr] in E. rewrite Hx in E by done. cbn [negb] in E. injection E as E.
    destruct (nuh_fixed b s r Hs E) as [H Hr]. eapply fixed_weaken; [exact H|lia|].
    cbn [Extbans.conv_call]. unfold conv_nuh_or_extban. cbn [b_banstr set_banstr]. by rewrite Hr by auto.
  - eapply fixed_weaken; [by eapply account_fixed|lia|done].
  - eapply fixed_weaken; [by eapply realname_fixed|lia|done].
  - eapply fixed_weaken; [by eapply inchannel_fixed|lia|done].
  - eapply fixed_weaken; [by eapply certfp_fixed|lia|done].
  - by destruct (Hf k).
Qed.

Lemma stacked_fixed f b s r : (∀ k, f ≠ other_conv_param k) → printable s → s ≠ [] →
  conv_call true (λ _ _, NoFuel) f (set_banstr s b) = Ok (Some r) →
  fixed (conv_call true (λ _ _, NoFuel) f) b 128 r.
Proof.
  intros Hf Hs Hne E. eapply call_fixed; try done. intros ->. cbn [Extbans.conv_call] in E. unfold conv_nuh_or_extban in E.
  cbn [b_banstr set_banstr] in E. by destruct (is_extended_ban s).
Qed.

Abbreviation conv_param := (conv_param named_extended_bans chantypes allowed other_conv l).

(** A stack of two bans. *)
Lemma stack_fixed b s r : printable s → is_extended_ban s = true → (length s ≤ 166)%nat →
  conv_param extban_conv_param_nuh_or_extban (set_banstr s b) = Ok (Some r) → fixed (conv_param extban_conv_param_nuh_or_extban) b 166 r.
Proof using Hl.
  intros Hs Hx Hlen E. unfold Extbans.conv_param in *. cbn [Extbans.conv_call] in *. unfold conv_nuh_or_extban in E.
  cbn [b_banstr set_banstr] in E. rewrite Hx in E. rewrite strlcpy_fits in E by sizes. cbn [negb] in E.
  destruct (findmod_by_bantype l s) as [[e next]|] eqn:Ef.
  - destruct (find_in s e next Ef) as (He & Hn & p & ->). destruct (option_set _ _ || option_set _ _) eqn:Eo; [done|].
    apply Forall_app in Hs as [_ [_ Hs]%Forall_cons].
    change (set_banstr next (set_banstr (p ++ COLON :: next) b)) with (set_banstr next b) in E.
    destruct (conv_stacked _ _ _ _ _ _ _) as [[r'|]| |] eqn:Ei; cbn [rbind] in E; try done.
    destruct (stacked_fixed (e_conv_param e) b next r') as (H1 & H2 & H3 & H4); [by apply (proj1 (Forall_forall _ _) Hl)|done..|].
    destruct (label_ok b e He) as (_ & Hp & Hll & _). rewrite prefix_text in E by (change (label (set_banstr next b) e) with (label b e); sizes).
    injection E as <-. destruct (prefix_found b e r' He H2) as [Hx' Hf'].
    split; [by repeat first [apply Forall_app; split|apply Forall_cons; split]|]. split; [done|].
    change (label (set_banstr next b) e) with (label b e).
    assert (length (TILDE :: label b e ++ COLON :: r') ≤ 166)%nat as Hlen' by (cbn [length]; rewrite length_app; cbn [length]; lia).
    split; [done|]. cbn [Extbans.conv_call]. unfold conv_nuh_or_extban. cbn [b_banstr set_banstr]. rewrite Hx', strlcpy_fits, Hf', Eo by sizes. cbn [negb].
    change (set_banstr r' (set_banstr _ b)) with (set_banstr r' b). unfold conv_stacked. rewrite H4. cbn [rbind].
    rewrite prefix_text by (change (label (set_banstr r' b) e) with (label b e); sizes). done.
  - injection E as <-. split; [done|]. split; [by destruct s|]. split; [done|]. cbn [Extbans.conv_call]. unfold conv_nuh_or_extban. cbn [b_banstr set_banstr].
    by rewrite Hx, strlcpy_fits, Ef by sizes.
Qed.

Lemma conv_fixed f b s r : (∀ k, f ≠ other_conv_param k) → printable s → s ≠ [] → (length s ≤ 166)%nat →
  conv_param f (set_banstr s b) = Ok (Some r) → fixed (conv_param f) b 166 r.
Proof using Hl.
  intros Hf Hs Hne Hlen E. destruct (is_extended_ban s) eqn:Hx.
  - destruct (decide (f = extban_conv_param_nuh_or_extban)) as [->|Hn]; [by eapply stack_fixed|].
    eapply fixed_weaken; [by eapply call_fixed|lia|done].
  - eapply fixed_weaken; [by eapply call_fixed|lia|done].
Qed.

Abbreviation clean := (clean_ban_mask named_extended_bans chantypes allowed other_conv l).

(** A mask that is as it is kept goes through the first steps unchanged. *)
Lemma clean_start r what type c channel letters : printable r → r ≠ [] → head r ≠ Some COLON → (length r ≤ MAXBANLEN)%nat →
  clean r what type c channel letters =
  if is_extended_ban r then
    match findmod_by_bantype l r with
    | None => if negb (MyUser c) || bool_decide (what = MODE_DEL) then Ok (Some r) else Ok None
    | Some (e, next) =>
        let b := BanCtx (Some c) channel next 0 None false what type EXBCHK_ACCESS letters in
        let! ret := conv_param (e_conv_param e) b in Ok (take MAXBANLEN <$> prefix ret b e 512)
    end
  else Ok (convert_regular_ban r (NICKLEN + USERLEN + HOSTLEN + 3)).
Proof.
  intros Hr Hne Hh Hlen. unfold clean_ban_mask. destruct r as [|x r]; [done|]. cbn [drop_while].
  destruct (Z.eqb_spec x COLON) as [->|]; [done|]. rewrite strlcpy_fits by sizes.
  rewrite take_while_all by (eapply Forall_impl; [exact Hr|]; intros z Hz; cbv beta in *; apply negb_true_iff, Z.eqb_neq; lia).
  assert (forallb (λ z, SPACE_CH <? z) (x :: r) = true) as ->.
  { apply forallb_forall. intros z Hz%list_elem_of_In. apply Z.ltb_lt. by apply (proj1 (Forall_forall _ _) Hr). }
  cbn [negb]. destruct (is_extended_ban _); [|done]. destruct (findmod_by_bantype _ _) as [[e arg]|]; [done|].
  destruct what; rewrite ?take_ge by done; done.
Qed.

Lemma clean_fixed mask what type c channel letters r : MyUser c = true → what = MODE_ADD →
  printable mask → mask ≠ [] → head mask ≠ Some COLON → (length mask ≤ 168)%nat →
  clean mask what type c channel letters = Ok (Some r) →
  printable r ∧ head r ≠ Some COLON ∧ (length r ≤ MAXBANLEN)%nat ∧ clean r what type c channel letters = Ok (Some r).
Proof using Hl.
  intros Hmy -> Hm Hne Hh Hlen E. rewrite clean_start in E by (done || sizes). destruct (is_extended_ban mask) eqn:Hx.
  - destruct (findmod_by_bantype l mask) as [[e next]|] eqn:Ef; [|by rewrite Hmy in E].
    destruct (find_in mask e next Ef) as (He & Hn & p & Ep). destruct (label_ok (BanCtx (Some c) channel next 0 None false MODE_ADD type EXBCHK_ACCESS letters) e He) as (_ & Hp & Hll & _).
    assert (length next ≤ 166)%nat as Hnext.
    { subst mask. rewrite length_app in Hlen. cbn [length] in Hlen. destruct p; [done|]. cbn [length] in Hlen. lia. }
    subst mask. apply Forall_app in Hm as [_ [_ Hm]%Forall_cons]. cbv zeta in E. set (b := BanCtx _ _ _ _ _ _ _ _ _ _) in *.
    destruct (conv_param _ b) as [[r'|]| |] eqn:Ei; cbn [rbind] in E; try done.
    destruct (conv_fixed (e_conv_param e) b next r') as (H1 & H2 & H3 & H4); [by apply (proj1 (Forall_forall _ _) Hl)|done..|].
    assert (length (TILDE :: label b e ++ COLON :: r') ≤ MAXBANLEN)%nat as Hlen' by (cbn [length]; rewrite length_app; sizes).
    rewrite prefix_text in E by sizes. cbn [fmap option_fmap option_map] in E. rewrite take_ge in E by done. injection E as <-.
    destruct (prefix_found b e r' He H2) as [Hx' Hf']. assert (printable (TILDE :: label b e ++ COLON :: r')) as Hpr
      by by repeat first [apply Forall_app; split|apply Forall_cons; split].
    split_and!; [done|done|done|]. rewrite clean_start, Hx', Hf' by done. cbv zeta.
    change (BanCtx (Some c) channel r' 0 None false MODE_ADD type EXBCHK_ACCESS letters) with (set_banstr r' b). rewrite H4. cbn [rbind].
    rewrite prefix_text by (change (label (set_banstr r' b) e) with (label b e); sizes). cbn [fmap option_fmap option_map].
    by rewrite take_ge.
  - apply Ok_inj in E. destruct (convert_plain mask r Hm Hx E) as (H1 & H2 & H3 & H4).
    destruct (convert_regular_ban_idempotent _ mask r (printable_no_space mask Hm) (le_n _) E) as (_ & Hr & Hagain).
    assert (length r ≤ MAXBANLEN)%nat by sizes. split_and!; [done|auto|done|]. by rewrite clean_start, H3, Hagain by auto.
Qed.
End Idempotent.

(** C19.  Keeping a mask.  What a user gives is brought to the form that is kept: printable, at most as long as a ban may be, not
    starting with a colon, and giving the same mask again, so that the ban is found when it is given as it is listed.  A mask
    of up to 168 bytes is short enough for nothing to be cut after the names of the extended bans are written out. *)
Theorem clean_ban_mask_idempotent named chantypes allowed other l mask_in type c channel letters r :
  Forall (registered l) l → MyUser c = true → cstr mask_in → (length mask_in ≤ 168)%nat →
  clean_ban_mask named chantypes allowed other l mask_in MODE_ADD type c channel letters = Ok (Some r) →
  printable r ∧ head r ≠ Some COLON ∧ (length r ≤ MAXBANLEN)%nat ∧
  clean_ban_mask named chantypes allowed other l r MODE_ADD type c channel letters = Ok (Some r).
Proof.
  intros Hl Hmy Hm Hlen E. unfold clean_ban_mask in E. pose proof (drop_while_length (λ c, c =? COLON) mask_in) as Hd.
  destruct (drop_while _ mask_in) as [|x m] eqn:Ed; [done|]. pose proof (drop_while_head _ _ _ _ Ed) as Hx.
  assert (cstr (x :: m)) as Hxm by (rewrite <-Ed; by apply cstr_drop_while).
  rewrite strlcpy_fits in E by lia. assert (length (take_while (λ c, negb (c =? SPACE_CH)%Z) (x :: m)) ≤ 168)%nat as Hlm.
  { pose proof (f_equal length (take_drop_while (λ c, negb (c =? SPACE_CH)) (x :: m))) as Hl'. rewrite length_app in Hl'. lia. }
  destruct (forallb _ _) eqn:Ep; [|done]. cbn [negb] in E.
  assert (cstr (take_while (λ c, negb (c =? SPACE_CH)) (x :: m))) as Hcm.
  { rewrite <-(take_drop_while (λ c, negb (c =? SPACE_CH)) (x :: m)) in Hxm. by apply Forall_app in Hxm as [? _]. }
  assert (head (take_while (λ c, negb (c =? SPACE_CH)) (x :: m)) ≠ Some COLON) as Hh.
  { cbn [take_while]. destruct (x =? SPACE_CH); intros [= ->]. done. }
  set (mask := take_while _ (x :: m)) in *. clearbody mask.
  assert (printable mask) as Hp.
  { rewrite forallb_forall in Ep. apply Forall_forall. intros z Hz. split; [apply Z.ltb_lt, Ep; by apply list_elem_of_In|].
    by apply (proj1 (Forall_forall _ _) Hcm). }
  assert (mask ≠ []) as Hne by by intros ->.
  eapply (clean_fixed named chantypes allowed other l Hl mask); try done. rewrite clean_start by (done || sizes).
  destruct (is_extended_ban mask); [|done]. destruct (findmod_by_bantype l mask) as [[e arg]|]; [done|]. by rewrite Hmy in E.
Qed.

Lemma standard_registered : Forall (registered standard) standard.
Proof.
  apply Forall_forall. intros e [i Hi]%list_elem_of_lookup.
  do 8 (destruct i as [|i]; [injection Hi as <-; split_and!; [reflexivity..|by apply (bool_decide_unpack _)|by apply (bool_decide_unpack _)|done]|]). done.
Qed.

Lemma clean_ban_mask_witness :
  let clean m := clean_ban_mask true None ALLOWED_CHANNELCHARS_ANY (λ _ _, NoFuel) standard m MODE_ADD EXBTYPE_BAN demo_uclient (bs "#c") false in
  clean (bs ":~q:~a:Joe") = Ok (Some (bs "~quiet:~account:Joe")) ∧ clean (bs "~quiet:~account:Joe") = Ok (Some (bs "~quiet:~account:Joe")).
Proof.
  intros clean. split; [vm_compute; reflexivity|].
  refine (proj2 (proj2 (proj2 (clean_ban_mask_idempotent true None ALLOWED_CHANNELCHARS_ANY (λ _ _, NoFuel) standard (bs ":~q:~a:Joe") EXBTYPE_BAN demo_uclient
    (bs "#c") false _ standard_registered eq_refl _ _ _)))); [by apply (bool_decide_unpack _)|vm_compute; lia|vm_compute; reflexivity].
Defined.
