(* ===== verification/SecurityGroup.v ===== *)
(** * Security groups (src/securitygroup.c) and what rules look at
    (src/modules/crule.c)

    A security group has criteria that exclude a client and criteria that
    include it: flags, masks, addresses, ports, rules, extended bans and other
    groups.  Groups may refer to groups, directly or in a rule, so the
    evaluation counts its depth and gives up behind nine levels.  Criteria that
    the code keeps in fields named with and without exclude_ are two records of
    one type here. *)

From stdpp Require Import base tactics list numbers strings pretty sets gmap.
From Stdlib Require Import ZArith Lia.
From S2P Require Import Prelude Chars Support Utf8 Match Hash Crule MemberModes Channel Bans NameLists Times UserMatch Extbans.

Local Open Scope Z_scope.

Definition SECURITYGROUPLEN : nat := 48.

Record criteria := Criteria {
  cr_identified : Z;
  cr_reputation_score : Z;
  cr_connect_time : Z;
  cr_webirc : Z;
  cr_websocket : Z;
  cr_tls : Z;
  cr_ip : list (list Z);
  cr_mask : list (list Z);
  cr_server_port : list (list Z);
  cr_security_group : list (list Z);
  cr_prettyrule : option (list Z);
  cr_rule : option node;
  cr_destination : list (list Z);
  cr_extended : list NameValuePrioList
}.
Record SecurityGroup := MkGroup {
  sg_name : list Z;
  sg_priority : Z;
  sg_public : Z;
  sg_printable_list : list NameValuePrioList;
  sg_printable_list_counter : Z;
  sg_include : criteria;
  sg_exclude : criteria
}.
Definition no_criteria : criteria := Criteria 0 0 0 0 0 0 [] [] [] [] None None [] [].
Definition new_group : SecurityGroup := MkGroup [] 0 0 [] 0 no_criteria no_criteria.

(** crule_context; what else it has is read by functions that are a parameter. *)
Record crule_context := RuleContext {
  rc_client : option uclient;
  rc_text : option (list Z);
  rc_destination : option (list Z)
}.

(** ** Lists of masks *)

(** Both loops of [unreal_mask_match]: [test] is the comparison with the client
    or the string. *)
Fixpoint mask_match_normal (test : list Z → res bool) (l : list (list Z)) (retval : bool) : res bool :=
  match l with
  | [] => Ok retval
  | m :: r =>
      if deref m =? BANG then mask_match_normal test r retval
      else let! x := test m in if x : bool then Ok true else mask_match_normal test r false
  end.
Fixpoint mask_match_except (test : list Z → res bool) (l : list (list Z)) : res bool :=
  match l with
  | [] => Ok true
  | m :: r =>
      if deref m =? BANG then let! x := test (drop 1 m) in if x : bool then Ok false else mask_match_except test r
      else mask_match_except test r
  end.
Definition mask_match (test : list Z → res bool) (mask : list (list Z)) : res bool :=
  match mask with
  | [] => Ok false
  | _ => let! retval := mask_match_normal test mask true in if retval : bool then mask_match_except test mask else Ok false
  end.
Definition unreal_mask_match_string (name : list Z) (mask : list (list Z)) : res bool :=
  mask_match (λ m, match_simple m name) mask.

(** ** Properties of a client *)

Definition GetReputation (c : uclient) : Z := match uc_moddata c (bs "reputation") with Some s => atoi s | None => 0 end.
Definition atoll (s : list Z) : Z :=
  let s := drop_while c_space s in
  match s with
  | c :: r => if c =? DASH then clamp64 (- digits_val 0 r) else clamp64 (digits_val 0 (if c =? 43 then r else s))
  | [] => 0
  end.
Definition get_connected_time (TStime : Z) (c : uclient) : Z :=
  match uc_local c with
  | Some lc => TStime - lc_creationtime lc
  | None =>
      match uc_moddata c (bs "creationtime") with
      | Some (d :: r) => if d =? 48 then 0 else TStime - atoll (d :: r)
      | _ => 0
      end
  end.
Definition get_server_port (c : uclient) : Z :=
  match uc_local c ≫= lc_port with Some p => p | None => default 0 (uc_port c) end.

Fixpoint any_of (l : list (res bool)) : res bool :=
  match l with
  | [] => Ok false
  | m :: r => let! x := m in if x : bool then Ok true else any_of r
  end.

Section Check.
(** The system's address parsers, the clock, the extended bans, the functions
    of other modules for them, which may ask for a security group by name, and
    the functions of rules that read state outside of this model. *)
Context (inet_pton4 inet_pton6 : list Z → option (list Z)) (TStime : Z) (extbans : list Extban).
Context (other_banned : (uclient → list Z → res bool) → nat → BanContext → res (BanContext * bool)).
Context (other_rule : crule_context → list Z → list (list Z) → Z).

(** Everything below is at one depth; [by_name] is
    [user_allowed_by_security_group_name] at the next one. *)
Section Level.
Context (by_name : uclient → list Z → res bool).

Definition check_extended : BanContext → res (BanContext * bool) := ban_check_mask (other_banned by_name) inet_pton4 inet_pton6 extbans.
Definition group_match_user (mask : list Z) (c : uclient) (options : Z) : res bool :=
  match_user inet_pton4 inet_pton6 (match_user_extended_server_ban (other_banned by_name) extbans check_extended) mask c options.
Definition unreal_mask_match (c : uclient) (mask : list (list Z)) : res bool :=
  mask_match (λ m, group_match_user m c (Z.lor MATCH_CHECK_REAL MATCH_CHECK_EXTENDED)) mask.

(** A value that is NULL would be followed by the function of the ban. *)
Definition user_matches_extended_server_ban (c : uclient) (name : list Z) (value : option (list Z)) : res bool :=
  match findmod_by_bantype_raw extbans name with
  | None => Ok false
  | Some e =>
      if negb (option_set (e_options e) EXTBOPT_TKL) || negb (option_set (e_events e) BANCHK_TKL) then Ok false
      else
        match e_is_banned e, value with
        | Some f, Some v =>
            let! (_, r) := banned_call (other_banned by_name) check_extended f
              (BanCtx (Some c) [] v BANCHK_TKL None false MODE_ADD EXBTYPE_BAN EXBCHK_ACCESS false) in Ok r
        | _, _ => UB
        end
  end.
Fixpoint user_matches_extended_list (c : uclient) (l : list NameValuePrioList) : res bool :=
  match l with
  | [] => Ok false
  | e :: r =>
      let! x := user_matches_extended_server_ban c (nv_name e) (nv_value e) in
      if x : bool then Ok true else user_matches_extended_list c r
  end.
Fixpoint user_allowed_by_security_group_list (c : uclient) (l : list (list Z)) : res bool :=
  match l with
  | [] => Ok false
  | name :: r => let! x := by_name c name in if x : bool then Ok true else user_allowed_by_security_group_list c r
  end.

(** *** Functions of rules *)

Definition z_of (m : res bool) : res Z := let! b := m in Ok (Z.b2z b).
Definition with_client (ctx : crule_context) (k : uclient → res Z) : res Z :=
  match rc_client ctx with None => Ok 0 | Some c => k c end.
Definition crulearg (args : list (list Z)) (k : list Z → res Z) : res Z :=
  match args !! 0%nat with Some a => k a | None => UB end.

Definition crule_is_identified (ctx : crule_context) : res Z := with_client ctx (λ c, Ok (Z.b2z (IsLoggedIn c))).
Definition crule_is_websocket (ctx : crule_context) : res Z :=
  with_client ctx (λ c, Ok (Z.b2z (bool_decide (is_Some (uc_moddata c (bs "websocket")))))).
Definition crule_is_webirc (ctx : crule_context) : res Z :=
  with_client ctx (λ c, Ok (Z.b2z (bool_decide (is_Some (uc_moddata c (bs "webirc")))))).
Definition crule_tls (ctx : crule_context) : res Z := with_client ctx (λ c, Ok (Z.b2z (uc_tls c || uc_secure_connect c))).
Definition crule_online_time (ctx : crule_context) : res Z := with_client ctx (λ c, Ok (i32 (get_connected_time TStime c))).
Definition crule_reputation (ctx : crule_context) : res Z := with_client ctx (λ c, Ok (GetReputation c)).
Definition crule_in_channel (ctx : crule_context) (arg : list Z) : res Z := with_client ctx (λ c, z_of (inchannel_is_banned c arg)).
Definition crule_destination (ctx : crule_context) (arg : list Z) : res Z :=
  match rc_destination ctx with None => Ok 0 | Some d => z_of (match_simple arg d) end.
Definition crule_in_security_group (ctx : crule_context) (arg : list Z) : res Z := with_client ctx (λ c, z_of (by_name c arg)).
Definition crule_match_mask (ctx : crule_context) (arg : list Z) : res Z :=
  with_client ctx (λ c, z_of (group_match_user arg c (Z.lor (Z.lor MATCH_CHECK_REAL_HOST MATCH_CHECK_IP) MATCH_CHECK_EXTENDED))).
Definition crule_match_ip (ctx : crule_context) (arg : list Z) : res Z :=
  with_client ctx (λ c, z_of (group_match_user arg c (Z.lor MATCH_CHECK_IP MATCH_MASK_IS_HOST))).
Definition crule_match_account (ctx : crule_context) (arg : list Z) : res Z :=
  with_client ctx (λ c, z_of (user_matches_extended_server_ban c (bs "account") (Some arg))).
Definition crule_match_country (ctx : crule_context) (arg : list Z) : res Z :=
  with_client ctx (λ c, z_of (user_matches_extended_server_ban c (bs "country") (Some arg))).
Definition crule_match_asn (ctx : crule_context) (arg : list Z) : res Z :=
  with_client ctx (λ c, z_of (user_matches_extended_server_ban c (bs "asn") (Some arg))).
Definition crule_match_certfp (ctx : crule_context) (arg : list Z) : res Z :=
  with_client ctx (λ c, z_of (user_matches_extended_server_ban c (bs "certfp") (Some arg))).
Definition crule_match_realname (ctx : crule_context) (arg : list Z) : res Z := with_client ctx (λ c, z_of (match_simple arg (uc_info c))).
Definition crule_server_port (ctx : crule_context) : res Z := with_client ctx (λ c, Ok (get_server_port c)).
Definition crule_is_local (ctx : crule_context) : res Z := with_client ctx (λ c, Ok (Z.b2z (MyUser c))).
Definition crule_is_oper (ctx : crule_context) : res Z := with_client ctx (λ c, Ok (Z.b2z (uc_oper c))).
Definition crule_match_tls_cipher (ctx : crule_context) (arg : list Z) : res Z :=
  with_client ctx (λ c, match uc_moddata c (bs "tls_cipher") with Some x => z_of (match_simple arg x) | None => Ok 0 end).
Definition crule_match_vhost (ctx : crule_context) (arg : list Z) : res Z :=
  with_client ctx (λ c,
    if negb (uc_isuser c) then Ok 0 else match uc_user c with Some u => z_of (match_simple arg (GetHost c u)) | None => UB end).
Definition crule_match_realhost (ctx : crule_context) (arg : list Z) : res Z :=
  with_client ctx (λ c, match uc_user c with Some u => z_of (match_simple arg (us_realhost u)) | None => Ok 0 end).
Definition crule_text_byte_count (ctx : crule_context) : res Z :=
  Ok (match rc_text ctx with Some s => i32 (Z.of_nat (length s)) | None => 0 end).

(** The function of a name in the table. *)
Definition rule_call (ctx : crule_context) (f : list Z) (args : list (list Z)) : res Z :=
  let named (s : string) := bool_decide (f = bs s) in
  let arg := crulearg args in
  if named "destination" then arg (crule_destination ctx)
  else if named "digit_percentage" then Ok (crule_digit_percentage (rc_text ctx))
  else if named "in_channel" || named "inchannel" then arg (crule_in_channel ctx)
  else if named "in_security_group" then arg (crule_in_security_group ctx)
  else if named "is_identified" then crule_is_identified ctx
  else if named "is_local" then crule_is_local ctx
  else if named "is_oper" then crule_is_oper ctx
  else if named "is_tls" then crule_tls ctx
  else if named "is_webirc" then crule_is_webirc ctx
  else if named "is_websocket" then crule_is_websocket ctx
  else if named "match_account" then arg (crule_match_account ctx)
  else if named "match_asn" then arg (crule_match_asn ctx)
  else if named "match_certfp" then arg (crule_match_certfp ctx)
  else if named "match_country" then arg (crule_match_country ctx)
  else if named "match_ip" then arg (crule_match_ip ctx)
  else if named "match_mask" then arg (crule_match_mask ctx)
  else if named "match_realhost" then arg (crule_match_realhost ctx)
  else if named "match_realname" then arg (crule_match_realname ctx)
  else if named "match_tls_cipher" then arg (crule_match_tls_cipher ctx)
  else if named "match_vhost" then arg (crule_match_vhost ctx)
  else if named "max_repeat_count" then Ok (crule_max_repeat_count (rc_text ctx))
  else if named "non_ascii_percentage" then Ok (crule_non_ascii_percentage (rc_text ctx))
  else if named "online_time" then crule_online_time ctx
  else if named "reputation" then crule_reputation ctx
  else if named "server_port" then crule_server_port ctx
  else if named "text_byte_count" then crule_text_byte_count ctx
  else if named "uppercase_percentage" then Ok (crule_uppercase_percentage (rc_text ctx))
  else if named "word_count" then Ok (crule_word_count (rc_text ctx))
  else Ok (other_rule ctx f args).

(** *** One group *)

Definition above (score v : Z) : bool := ((0 <? score) && (score <=? v)) || ((score <? 0) && (v <? 0 - score)).

(** The criteria in the order of the code; [secure] is what counts as TLS. *)
Definition matches (secure : bool) (c : uclient) (ctx : crule_context) (s : criteria) : res bool :=
  let unless {A} (l : list A) (m : res bool) : res bool := match l with [] => Ok false | _ => m end in
  any_of
    [Ok (negb (cr_identified s =? 0) && IsLoggedIn c);
     Ok (negb (cr_webirc s =? 0) && bool_decide (is_Some (uc_moddata c (bs "webirc"))));
     Ok (negb (cr_websocket s =? 0) && bool_decide (is_Some (uc_moddata c (bs "websocket"))));
     Ok (above (cr_reputation_score s) (GetReputation c));
     Ok (above (cr_connect_time s) (get_connected_time TStime c));
     Ok (negb (cr_tls s =? 0) && secure);
     unless (cr_mask s) (unreal_mask_match c (cr_mask s));
     unless (cr_ip s) (unreal_match_iplist inet_pton4 inet_pton6 c (cr_ip s));
     Ok (bool_decide (is_Some (find_name_list_integer (cr_server_port s) (get_server_port c))));
     match cr_rule s with Some rule => let! z := crule_eval (rule_call ctx) rule in Ok (negb (z =? 0)) | None => Ok false end;
     user_matches_extended_list c (cr_extended s);
     user_allowed_by_security_group_list c (cr_security_group s);
     match rc_destination ctx with
     | Some d => let! m := find_name_list_match (cr_destination s) d in Ok (bool_decide (is_Some m))
     | None => Ok false
     end].
Definition secure_exclude (c : uclient) : bool := uc_secure_connect c || (MyConnect c && uc_tls c).
Definition secure_include (c : uclient) : bool := uc_secure_connect c || (MyConnect c && negb (uc_isuser c) && uc_tls c).
Definition group_criteria (c : uclient) (s : SecurityGroup) (ctx : crule_context) : res bool :=
  let! x := matches (secure_exclude c) c ctx (sg_exclude s) in
  if x : bool then Ok false else matches (secure_include c) c ctx (sg_include s).
End Level.

(** ** Groups by name *)

Definition find_security_group (groups : list SecurityGroup) (name : list Z) : option SecurityGroup :=
  snd <$> list_find (λ s, strcasecmp name (sg_name s) = 0) groups.
Definition security_group_exists (groups : list SecurityGroup) (name : list Z) : bool :=
  bool_decide (name = bs "unknown-users") || bool_decide (is_Some (find_security_group groups name)).

(** The groups, and the one that known_users points to, by its name. *)
Context (groups : list SecurityGroup) (known_users : option (list Z)).
Definition known_group : option SecurityGroup :=
  known_users ≫= λ name, snd <$> list_find (λ s, sg_name s = name) groups.

(** [user_allowed_by_security_group_context]: [levels] is how many levels
    recursion_security_group leaves, 9 at the start. *)
Definition client_context (c : uclient) : crule_context := RuleContext (Some c) None None.
Definition name_at (check : uclient → SecurityGroup → res bool) (c : uclient) (name : list Z) : res bool :=
  let opt (s : option SecurityGroup) : res bool := match s with Some s => check c s | None => Ok false end in
  if bool_decide (name = bs "unknown-users") then
    match known_group with None => Ok false | Some s => let! x := check c s in Ok (negb x) end
  else if bool_decide (name = bs "known-users") then opt known_group
  else opt (find_security_group groups name).
Fixpoint allowed_at (levels : nat) (c : uclient) (s : SecurityGroup) (ctx : crule_context) : res bool :=
  match levels with
  | O => Ok false
  | S levels => group_criteria (name_at (λ c s, allowed_at levels c s (client_context c))) c s ctx
  end.

Definition LEVELS : nat := 9.
Definition user_allowed_by_security_group_context (c : uclient) (s : option SecurityGroup) (ctx : crule_context) : res bool :=
  match s with None => Ok false | Some s => allowed_at LEVELS c s ctx end.
Definition user_allowed_by_security_group (c : uclient) (s : option SecurityGroup) : res bool :=
  user_allowed_by_security_group_context c s (client_context c).
Definition user_allowed_by_security_group_name (c : uclient) (name : list Z) : res bool :=
  name_at (λ c s, user_allowed_by_security_group c (Some s)) c name.

(** *** By account *)

(** The local clients, and account_canonical: [None] if there is no such module
    data, else the client it points to. *)
Context (lclient_list : list uclient) (canon_md : option (uclient → option nat)).

Fixpoint other_session (allowed : uclient → res bool) (c : uclient) (canonical : nat) (md : uclient → option nat) (l : list uclient) : res bool :=
  match l with
  | [] => Ok false
  | x :: r =>
      if negb (uc_isuser x) || (uc_id x =? uc_id c)%nat || negb (bool_decide (md x = Some canonical)) then
        other_session allowed c canonical md r
      else let! a := allowed x in if a : bool then Ok true else other_session allowed c canonical md r
  end.
Definition by_account (allowed : uclient → res bool) (c : uclient) : res bool :=
  let! a := allowed c in
  if a : bool then Ok true
  else
    match canon_md with
    | None => Ok false
    | Some md => match md c with None => Ok false | Some canonical => other_session allowed c canonical md lclient_list end
    end.
Definition user_allowed_by_security_group_account (c : uclient) (s : option SecurityGroup) : res bool :=
  match s with None => Ok false | Some _ => by_account (λ c, user_allowed_by_security_group c s) c end.
Definition user_allowed_by_security_group_account_name (c : uclient) (name : list Z) : res bool :=
  by_account (λ c, user_allowed_by_security_group_name c name) c.

(** *** The list of groups of a client *)

Definition strlcat512 (buf s : list Z) : list Z := take 511 (buf ++ s).
Fixpoint list_groups (c : uclient) (l : list SecurityGroup) (buf : list Z) : res (list Z) :=
  match l with
  | [] => Ok buf
  | s :: r =>
      if bool_decide (sg_name s = bs "known-users") then list_groups c r buf
      else
        let! a := user_allowed_by_security_group_account c (Some s) in
        list_groups c r (if a : bool then strlcat512 (strlcat512 buf (sg_name s)) (bs ",") else buf)
  end.
Definition get_security_groups (c : uclient) : res (list Z) :=
  let! known := match known_group with None => Ok false | Some s => user_allowed_by_security_group_account c (Some s) end in
  let! buf := list_groups c groups (strlcat512 [] (if known : bool then bs "known-users," else bs "unknown-users,")) in
  Ok (take (length buf - 1) buf).

(** ** The extended ban on security groups *)

Definition security_group_valid_name (name : list Z) : bool :=
  (length name <=? SECURITYGROUPLEN)%nat && forallb (λ c, isalnum c || strchr (bs "_-") c) name.
Definition extban_securitygroup_generic (mask : list Z) (strict : bool) : bool :=
  let mask := if deref mask =? BANG then drop 1 mask else mask in
  (if strict then security_group_exists groups mask else security_group_valid_name mask) && negb (bool_decide (mask = [])).
Definition extban_securitygroup_is_ok (b : BanContext) : bool :=
  match b_client b with
  | Some c =>
      if MyUser c && bool_decide (b_what b = MODE_ADD) && bool_decide (b_is_ok_check b = EXBCHK_PARAM) then
        extban_securitygroup_generic (Strl.strlcpy [] (b_banstr b) (SECURITYGROUPLEN + 8)).1 true
      else true
  | None => true
  end.
Definition extban_securitygroup_conv_param (b : BanContext) : option (list Z) :=
  let retbuf := (Strl.strlcpy [] (b_banstr b) (SECURITYGROUPLEN + 8)).1 in
  if extban_securitygroup_generic retbuf false then Some retbuf else None.
End Check.

Definition extban_securitygroup_is_banned (by_name : uclient → list Z → res bool) (b : BanContext) : res bool :=
  match b_client b with
  | None => UB
  | Some c =>
      if deref (b_banstr b) =? BANG then let! x := by_name c (drop 1 (b_banstr b)) in Ok (negb x) else by_name c (b_banstr b)
  end.

(** ** What a group says *)

(** The criteria of a group as they are meant.  Scores and times are (true, n)
    for less than [n], (false, n) for at least [n]; a mask that starts with an
    exclamation mark is (true, m). *)
Record spec := Spec {
  sp_identified : bool;
  sp_reputation : option (bool * Z);
  sp_connect : option (bool * Z);
  sp_webirc : bool;
  sp_websocket : bool;
  sp_tls : bool;
  sp_ips : list hostmask;
  sp_masks : list (bool * target);
  sp_ports : list Z;
  sp_groups : list (list Z);
  sp_rule : option expr;
  sp_destinations : list (list Z);
  sp_extended : list (bool * matcher)
}.
Record gspec := GSpec { g_name : list Z; g_exclude : spec; g_include : spec }.

Definition score_of (o : option (bool * Z)) : Z :=
  match o with None => 0 | Some (less, n) => if less : bool then 0 - n else n end.
Definition mask_entry (m : bool * target) : list Z := (if m.1 then [BANG] else []) ++ target_text m.2.
Definition ext_entry (x : bool * matcher) : NameValuePrioList :=
  NVP 0 (if x.1 then (matcher_ext x.2).2 else [(matcher_ext x.2).1]) (Some (matcher_arg x.2)).
Definition port_text (p : Z) : list Z := bs (pretty p).

(** How they are kept: lists have what was added last in front. *)
Definition criteria_of (sp : spec) : criteria :=
  Criteria (Z.b2z (sp_identified sp)) (score_of (sp_reputation sp)) (score_of (sp_connect sp)) (Z.b2z (sp_webirc sp))
    (Z.b2z (sp_websocket sp)) (Z.b2z (sp_tls sp)) (rev (map host_text (sp_ips sp))) (rev (map mask_entry (sp_masks sp)))
    (rev (map port_text (sp_ports sp))) (rev (sp_groups sp)) (text <$> sp_rule sp) (tree <$> sp_rule sp)
    (rev (sp_destinations sp)) (rev (map ext_entry (sp_extended sp))).

Lemma any_of_pure (bl : list bool) : any_of (map Ok bl) = Ok (existsb id bl).
Proof. induction bl as [|[] bl IH]; [done|done|]. cbn. by rewrite IH. Qed.
Lemma existsb_rev {A} (f : A → bool) l : existsb f (rev l) = existsb f l.
Proof. induction l as [|x l IH]; [done|]. cbn [rev]. rewrite existsb_app, IH. cbn. by rewrite orb_false_r, orb_comm. Qed.
Lemma existsb_map {A B} (f : B → bool) (g : A → B) l : existsb f (map g l) = existsb (λ x, f (g x)) l.
Proof. induction l as [|x l IH]; [done|]. cbn. by rewrite IH. Qed.
Lemma existsb_ext_in {A} (f g : A → bool) l : Forall (λ x, f x = g x) l → existsb f l = existsb g l.
Proof. induction 1 as [|x l Hx _ IH]; [done|]. cbn. by rewrite Hx, IH. Qed.

(** A loop that asks one entry after the other until one says yes. *)
Lemma first_yes {A} (loop : list A → res bool) (f : A → res bool) (g : A → bool) l :
  loop [] = Ok false → (∀ x r, loop (x :: r) = let! b := f x in if b : bool then Ok true else loop r) →
  Forall (λ x, f x = Ok (g x)) l → loop l = Ok (existsb g l).
Proof. intros H0 Hs. induction 1 as [|x l Hx _ IH]; [done|]. rewrite Hs, Hx, IH. cbn. by destruct (g x). Qed.

(** *** Numbers as text *)

Definition digit_char (c : Z) : Prop := c = DASH ∨ 48 ≤ c ≤ 57.
Lemma bs_cons a s : bs (String a s) = Z.of_N (Ascii.N_of_ascii a) :: bs s.
Proof. reflexivity. Qed.
Lemma pretty_go_digits x s : Forall digit_char (bs s) → Forall digit_char (bs (pretty_N_go x s)).
Proof.
  revert s. induction (N.lt_wf_0 x) as [x _ IH]; intros s Hs.
  assert (x = 0 ∨ 0 < x)%N as [->|?] by lia; [by rewrite pretty_N_go_0|].
  rewrite pretty_N_go_step by done. apply IH; [by apply N.div_lt|]. rewrite bs_cons. constructor; [|done].
  assert (x `mod` 10 < 10)%N as Hm by by apply N.mod_lt. unfold digit_char, pretty_N_char. right. repeat case_match; cbn; lia.
Qed.
Lemma port_text_digits p : Forall digit_char (port_text p).
Proof.
  assert (∀ n : N, Forall digit_char (bs (pretty n))) as Hn.
  { intros n. unfold pretty, pretty_N. case_decide; [by apply (bool_decide_unpack _)|]. apply pretty_go_digits. constructor. }
  unfold port_text. destruct p; unfold pretty, pretty_Z; [by apply (bool_decide_unpack _)|apply Hn|]. cbn. constructor; [by left|apply Hn].
Qed.
Lemma bs_inj s s' : bs s = bs s' → s = s'.
Proof.
  revert s'. induction s as [|a s IH]; intros [|a' s'] E; try done. rewrite !bs_cons in E. injection E as E1 E2%IH. f_equal; [|done].
  apply N2Z.inj, (f_equal Ascii.ascii_of_N) in E1. by rewrite !Ascii.ascii_N_embedding in E1.
Qed.
Lemma port_text_cstr p : cstr (port_text p).
Proof. eapply Forall_impl; [apply port_text_digits|]. unfold digit_char, cchar. intros c Hc. cbv beta in Hc. lia. Qed.
Lemma port_text_eq p v : (strcasecmp (port_text p) (port_text v) =? 0) = (p =? v).
Proof.
  rewrite strcasecmp_eq by apply port_text_cstr. assert (∀ z, casefold (port_text z) = port_text z) as Hc.
  { intros z. unfold casefold. rewrite <-(map_id (port_text z)) at 2. apply map_ext_in. intros d Hd%list_elem_of_In.
    pose proof (proj1 (Forall_forall _ _) (port_text_digits z) d Hd) as Hk. unfold digit_char in Hk.
    rewrite tolower_ascii by (unfold byte; lia). unfold ascii_lower. bool_cases. }
  rewrite !Hc. destruct (Z.eqb_spec p v) as [->|Hn]; [by apply bool_decide_eq_true_2|]. apply bool_decide_eq_false_2.
  intros E%bs_inj. by apply (inj pretty) in E.
Qed.
Lemma ports_spec l v : bool_decide (is_Some (find_name_list_integer (map port_text l) v)) = existsb (λ p, p =? v) l.
Proof.
  unfold find_name_list_integer. fold (port_text v). induction l as [|p l IH]; [done|]. cbn [map find_name_list existsb].
  rewrite port_text_eq. by destruct (p =? v).
Qed.
Lemma destinations_spec l d : Forall cstr l → cstr d →
  (let! m := find_name_list_match l d in Ok (bool_decide (is_Some m))) = Ok (existsb (λ p, glob (simple_toks p) d) l).
Proof.
  intros Hl Hd. induction Hl as [|p l Hp Hl IH]; [done|]. cbn [find_name_list_match existsb]. rewrite match_simple_glob by done.
  cbn [rbind]. destruct (glob (simple_toks p) d); [done|]. exact IH.
Qed.

(** *** Masks *)

(** A list of masks: one of the masks without an exclamation mark, if there
    are any, and none of those with one. *)
Definition masks_meaning (f : target → bool) (l : list (bool * target)) : bool :=
  negb (bool_decide (l = [])) && (forallb fst l || existsb (λ m, negb m.1 && f m.2) l) && negb (existsb (λ m, m.1 && f m.2) l).

Lemma mask_match_spec test (f : target → bool) l :
  Forall (λ m : bool * target, test (target_text m.2) = Ok (f m.2) ∧ deref (target_text m.2) ≠ BANG) l →
  mask_match test (map mask_entry l) = Ok (masks_meaning f l).
Proof.
  intros Hl. assert (∀ b, mask_match_normal test (map mask_entry l) b =
      Ok (existsb (λ m, negb m.1 && f m.2) l || (forallb fst l && b))) as Hn.
  { induction Hl as [|[n t] l [Ht Hb] Hl IH]; intros b; [done|]. cbn [map mask_match_normal existsb forallb fst snd].
    destruct n; cbn [mask_entry fst snd app negb andb orb].
    - cbn [deref]. rewrite Z.eqb_refl. apply IH.
    - cbn [snd] in *. destruct (Z.eqb_spec (deref (target_text t)) BANG); [done|]. rewrite Ht. cbn [rbind].
      destruct (f t); [done|]. rewrite IH. by rewrite andb_false_r. }
  assert (mask_match_except test (map mask_entry l) = Ok (negb (existsb (λ m, m.1 && f m.2) l))) as He.
  { clear Hn. induction Hl as [|[n t] l [Ht Hb] Hl IH]; [done|]. cbn [map mask_match_except existsb fst snd].
    destruct n; cbn [mask_entry fst snd app andb].
    - cbn [deref]. rewrite Z.eqb_refl. cbn [drop]. rewrite drop_0. cbn [snd] in Ht. rewrite Ht. cbn [rbind]. destruct (f t); [done|]. exact IH.
    - cbn [snd] in *. by destruct (Z.eqb_spec (deref (target_text t)) BANG). }
  unfold mask_match, masks_meaning. destruct l as [|m l]; [done|]. destruct (map mask_entry (m :: l)) eqn:E; [done|]. rewrite <-E in *. clear E.
  rewrite Hn, He. rewrite bool_decide_false by done. cbn [rbind negb andb]. rewrite andb_true_r, orb_comm.
  by destruct (_ || _).
Qed.
Lemma masks_meaning_rev f l : masks_meaning f (rev l) = masks_meaning f l.
Proof.
  unfold masks_meaning. rewrite !existsb_rev. assert (forallb fst (rev l) = forallb fst l) as ->.
  { induction l as [|x l IH]; [done|]. cbn [rev]. rewrite forallb_app, IH. cbn. by rewrite andb_true_r, andb_comm. }
  f_equal. f_equal. f_equal. apply bool_decide_ext. split; [|by intros ->]. intros E. by rewrite <-(rev_involutive l), E.
Qed.

Section Solution.
Context (inet_pton4 inet_pton6 : list Z → option (list Z)) {L : AddressLaws inet_pton4 inet_pton6}.
Context (TStime : Z) (l : list Extban).
Context (other_banned : (uclient → list Z → res bool) → nat → BanContext → res (BanContext * bool)).
Context (other_rule : crule_context → list Z → list (list Z) → Z).
Context (Hstd : ∀ e, e ∈ standard → findmod_by_bantype_raw l [e_letter e] = Some e ∧ findmod_by_bantype_raw l (e_name e) = Some e).
Context (c : uclient) (u : user) (Hc : client_ok inet_pton4 inet_pton6 c) (Hu : uc_user c = Some u) (Hinfo : cstr (uc_info c)).
Context (Huser : cstr (us_account u) ∧ Forall (λ m, cstr m.1) (us_channels u)).
Context (groups : list SecurityGroup) (known_users : option (list Z)).

Abbreviation user_matches := (user_matches_extended_server_ban inet_pton4 inet_pton6 l other_banned).
Abbreviation rule_call := (rule_call inet_pton4 inet_pton6 TStime l other_banned other_rule).
Abbreviation matcher_meaning := (matcher_meaning c).

Lemma Hmember : ∀ v, uc_user c = Some v → cstr (us_account v) ∧ Forall (λ m, cstr m.1) (us_channels v).
Proof using Hu Huser. intros v E. rewrite Hu in E. injection E as <-. exact Huser. Qed.

Lemma ext_matches by_name x : matcher_ok x.2 →
  user_matches by_name c (nv_name (ext_entry x)) (nv_value (ext_entry x)) = Ok (matcher_meaning x.2).
Proof using Hstd Hinfo Hu Huser.
  intros Hx. destruct x as [n x]. cbn [ext_entry nv_name nv_value fst snd] in *. unfold user_matches_extended_server_ban.
  destruct (matcher_entry x) as (e & He & -> & Hev & Hf & Ho). cbn [fst snd]. destruct (Hstd e He) as [H1 H2].
  assert (findmod_by_bantype_raw l (if n then e_name e else [e_letter e]) = Some e) as -> by by destruct n.
  rewrite Ho, Hev, Hf. change (negb (option_set (Z.lor EXTBOPT_INVEX EXTBOPT_TKL) EXTBOPT_TKL) || negb (option_set (Z.lor BANCHK_ALL BANCHK_TKL) BANCHK_TKL)) with false.
  cbv iota. by rewrite (matcher_call (other_banned by_name) l Hstd c Hinfo Hmember).
Qed.

(** A property of the client as a mask. *)
Definition GROUP_CHECK : Z := Z.lor MATCH_CHECK_REAL MATCH_CHECK_EXTENDED.
Definition gtarget_meaning (t : target) : bool :=
  match t with TMask m => mask_meaning inet_pton4 inet_pton6 GROUP_CHECK m c | TMatch _ x => matcher_meaning x end.

Lemma target_matches by_name t : target_ok inet_pton4 inet_pton6 t →
  group_match_user inet_pton4 inet_pton6 l other_banned by_name (target_text t) c GROUP_CHECK = Ok (gtarget_meaning t) ∧
  deref (target_text t) ≠ BANG.
Proof using L Hstd Hc Hinfo Hu Huser.
  intros Ht. unfold group_match_user. destruct t as [m|n x]; cbn [target_text gtarget_meaning target_ok] in *.
  - destruct Ht as [Hm Hx]. split; [rewrite match_user_spec; [done|done..|]|].
    + split; [|by destruct m]. by rewrite Hx, andb_false_r.
    + destruct Hm as [_ Hm]. destruct m as [nick us h|us h|h]; cbn [mask_text] in *.
      * destruct Hm as (_ & _ & Hne & Hb & _). destruct nick as [|z nick]; [done|]. cbn. set_solver.
      * destruct Hm as (_ & Hne & _ & Hb & _). destruct us as [|z us]; [done|]. cbn. set_solver.
      * destruct Hm as (Hb & _). destruct (host_text h) as [|z r]; [done|]. cbn. set_solver.
  - split; [|done]. destruct (matcher_entry x) as (e & He & -> & Hev & Hf & Ho). destruct (ext_found l Hstd n e (matcher_arg x) He (proj1 Ht)) as [Hext Hfind].
    assert (COLON ∈ take 34 ((if n then e_name e else [e_letter e]) ++ [COLON])) as Hcol.
    { assert (Forall (λ e, COLON ∈ take 34 (e_name e ++ [COLON])) standard) as Hall by by apply (bool_decide_unpack _).
      destruct n; [by apply (proj1 (Forall_forall _ _) Hall)|cbn; set_solver]. }
    unfold match_user. rewrite Strl.strlcpy_fst by (unfold MASKLEN; lia).
    assert (∀ k, (35 ≤ k)%nat → is_extended_server_ban (take k (ext_text n (e_letter e, e_name e) (matcher_arg x))) = true) as Hx.
    { intros k Hk. unfold ext_text. cbn [app fst snd]. destruct k as [|k]; [lia|]. cbn [take]. unfold is_extended_server_ban, is_extended_ban. cbn.
      apply bool_decide_eq_true_2. set (p := if n then e_name e else [e_letter e]) in *.
      replace (p ++ COLON :: matcher_arg x) with ((p ++ [COLON]) ++ matcher_arg x) by by rewrite <-app_assoc.
      rewrite take_app. apply elem_of_app. left. rewrite <-(take_drop 34 (p ++ [COLON])), take_app. apply elem_of_app. left.
      rewrite take_ge; [done|]. rewrite length_take. lia. }
    rewrite Hx by (cbn; lia). rewrite bool_decide_true by by rewrite Hu. cbn [andb]. change (option_set GROUP_CHECK MATCH_CHECK_EXTENDED) with true. cbv iota.
    unfold match_user_extended_server_ban.
    rewrite <-(take_ge (ext_text n (e_letter e, e_name e) (matcher_arg x)) (35 + length (ext_text n (e_letter e, e_name e) (matcher_arg x)))) at 1 by lia.
    rewrite Hx by lia. rewrite Hfind, Ho, Hev, Hf. cbn [negb]. change (negb (option_set (Z.lor EXTBOPT_INVEX EXTBOPT_TKL) EXTBOPT_TKL) || negb (option_set (Z.lor BANCHK_ALL BANCHK_TKL) BANCHK_TKL)) with false.
    cbv iota. by rewrite (matcher_call (other_banned by_name) l Hstd c Hinfo Hmember).
Qed.

(** *** Groups that refer to groups *)

(** The group that a name leads to; unknown-users is the opposite of known-users. *)
Definition refers (name : list Z) : option SecurityGroup :=
  if bool_decide (name = bs "unknown-users") || bool_decide (name = bs "known-users") then known_group groups known_users
  else find_security_group groups name.

Section Named.
(** Who is in which group, and how deep groups refer to groups. *)
Context (M : list Z → bool) (rank : list Z → nat).
Definition name_meaning (name : list Z) : bool :=
  match refers name with Some s => xorb (bool_decide (name = bs "unknown-users")) (M (sg_name s)) | None => false end.
Definition refers_below (r : nat) (name : list Z) : Prop := ∀ s, refers name = Some s → (rank (sg_name s) < r)%nat.

(** A call in a rule is for a group below, or it returns a value that does not depend on groups. *)
Definition leaf_ok (r : nat) (x : list Z * list (list Z)) : Prop :=
  (x.1 = bs "in_security_group" ∧ ∃ name, x.2 = [name] ∧ refers_below r name) ∨
  (∀ ctx, rc_client ctx = Some c → ∃ z, ∀ by_name, rule_call by_name ctx x.1 x.2 = Ok z).
(** Calls that return, whatever the groups are: the functions without arguments, those that match the
    account, the certificate or the channels of the client, and its real name. *)
Inductive plain_call : list Z * list (list Z) → Prop :=
  | plain_direct f args : f ∈ ["digit_percentage"; "is_identified"; "is_local"; "is_oper"; "is_tls"; "is_webirc"; "is_websocket";
      "max_repeat_count"; "non_ascii_percentage"; "online_time"; "reputation"; "server_port"; "text_byte_count"; "uppercase_percentage";
      "word_count"] → plain_call (bs f, args)
  | plain_realname a : cstr a → plain_call (bs "match_realname", [a])
  | plain_account a : matcher_ok (MAccount a) → plain_call (bs "match_account", [a])
  | plain_certfp a : matcher_ok (MCertfp a) → plain_call (bs "match_certfp", [a])
  | plain_channel symbol name : matcher_ok (MChannel symbol name) → plain_call (bs "in_channel", [matcher_arg (MChannel symbol name)]).
Lemma plain_call_ok r x : plain_call x → leaf_ok r x.
Proof using Hstd Hinfo Hu Huser.
  intros Hx. right. intros ctx Ex. destruct Hx as [f args Hf|a Ha|a Ha|a Ha|symbol name Ha]; cbn [fst snd].
  - revert f Hf. apply Forall_forall. repeat (apply Forall_cons; split); [..|apply Forall_nil_2]; eexists; intros by_name;
      unfold SecurityGroup.rule_call, crule_is_identified, crule_is_local, crule_is_oper, crule_tls, crule_is_webirc, crule_is_websocket, crule_online_time,
        crule_reputation, crule_server_port, with_client; rewrite Ex; reflexivity.
  - exists (Z.b2z (glob (simple_toks a) (uc_info c))). intros by_name. transitivity (crule_match_realname ctx a); [reflexivity|].
    unfold crule_match_realname, with_client. rewrite Ex. by rewrite match_simple_glob.
  - exists (Z.b2z (matcher_meaning (MAccount a))). intros by_name.
    transitivity (with_client ctx (λ c, z_of (user_matches by_name c (bs "account") (Some a)))); [reflexivity|].
    unfold with_client. rewrite Ex. pose proof (ext_matches by_name (true, MAccount a) Ha) as E. cbn [ext_entry nv_name nv_value fst snd matcher_arg] in E.
    change (z_of (user_matches by_name c (matcher_ext (MAccount a)).2 (Some a)) = Ok (Z.b2z (matcher_meaning (MAccount a)))). by rewrite E.
  - exists (Z.b2z (matcher_meaning (MCertfp a))). intros by_name.
    transitivity (with_client ctx (λ c, z_of (user_matches by_name c (bs "certfp") (Some a)))); [reflexivity|].
    unfold with_client. rewrite Ex. pose proof (ext_matches by_name (true, MCertfp a) Ha) as E. cbn [ext_entry nv_name nv_value fst snd matcher_arg] in E.
    change (z_of (user_matches by_name c (matcher_ext (MCertfp a)).2 (Some a)) = Ok (Z.b2z (matcher_meaning (MCertfp a)))). by rewrite E.
  - exists (Z.b2z (matcher_meaning (MChannel symbol name))). intros by_name.
    pose proof (matcher_call (other_banned by_name) l Hstd c Hinfo Hmember (λ b, Ok (b, false)) (MChannel symbol name)
      (BanCtx (Some c) [] (matcher_arg (MChannel symbol name)) BANCHK_TKL None false MODE_ADD EXBTYPE_BAN EXBCHK_ACCESS false) Ha eq_refl eq_refl) as E.
    cbn [matcher_fn banned_call b_client b_banstr] in E. transitivity (crule_in_channel ctx (matcher_arg (MChannel symbol name))); [reflexivity|].
    unfold crule_in_channel, with_client, z_of. rewrite Ex. destruct (inchannel_is_banned c _); cbn [rbind] in E |- *; try done. by injection E as ->.
Qed.
Definition call_value (ctx : crule_context) (f : list Z) (args : list (list Z)) : Z :=
  match rule_call (λ _ name, Ok (name_meaning name)) ctx f args with Ok z => z | _ => 0 end.

Definition score_meaning (o : option (bool * Z)) (v : Z) : bool :=
  match o with None => false | Some (less, n) => if less : bool then v <? n else n <=? v end.
Definition spec_meaning (secure : bool) (ctx : crule_context) (sp : spec) : bool :=
  (sp_identified sp && IsLoggedIn c) ||
  (sp_webirc sp && bool_decide (is_Some (uc_moddata c (bs "webirc")))) ||
  (sp_websocket sp && bool_decide (is_Some (uc_moddata c (bs "websocket")))) ||
  score_meaning (sp_reputation sp) (GetReputation c) ||
  score_meaning (sp_connect sp) (get_connected_time TStime c) ||
  (sp_tls sp && secure) ||
  masks_meaning gtarget_meaning (sp_masks sp) ||
  existsb (λ h, ip_entry_meaning inet_pton4 inet_pton6 h c) (sp_ips sp) ||
  existsb (λ p, p =? get_server_port c) (sp_ports sp) ||
  match sp_rule sp with Some e => negb (meaning (call_value ctx) e =? 0) | None => false end ||
  existsb (λ x, matcher_meaning x.2) (sp_extended sp) ||
  existsb name_meaning (sp_groups sp) ||
  match rc_destination ctx with Some d => existsb (λ p, glob (simple_toks p) d) (sp_destinations sp) | None => false end.

Record spec_ok (r : nat) (sp : spec) : Prop := SpecOk {
  so_reputation : ∀ less n, sp_reputation sp = Some (less, n) → 0 < n;
  so_connect : ∀ less n, sp_connect sp = Some (less, n) → 0 < n;
  so_masks : Forall (λ m, target_ok inet_pton4 inet_pton6 m.2) (sp_masks sp);
  so_ips : Forall (ip_entry_ok inet_pton4 inet_pton6) (sp_ips sp);
  so_rule : ∀ e, sp_rule sp = Some e → Forall (leaf_ok r) (leaves e);
  so_extended : Forall (λ x, matcher_ok x.2) (sp_extended sp);
  so_groups : Forall (refers_below r) (sp_groups sp);
  so_destinations : Forall cstr (sp_destinations sp)
}.

Lemma above_score o v : (∀ less n, o = Some (less, n) → 0 < n) → above (score_of o) v = score_meaning o v.
Proof.
  intros Ho. unfold above. destruct o as [[[] n]|]; cbn [score_of score_meaning]; [specialize (Ho true n eq_refl)|specialize (Ho false n eq_refl)|done]; bool_cases.
Qed.

Section Level.
Context (r : nat) (by_name : uclient → list Z → res bool).
Context (Hby : ∀ name, refers_below r name → by_name c name = Ok (name_meaning name)).

Lemma leaf_value ctx x : rc_client ctx = Some c → leaf_ok r x → rule_call by_name ctx x.1 x.2 = Ok (call_value ctx x.1 x.2).
Proof using Hby.
  intros Ex [[Ef (name & Ea & Hb)]|Hx]; unfold call_value.
  - rewrite Ef, Ea. unfold SecurityGroup.rule_call, crulearg. cbn. unfold crule_in_security_group, with_client. rewrite Ex. cbn. by rewrite Hby.
  - destruct (Hx ctx Ex) as [z Hz]. by rewrite !Hz.
Qed.

Lemma unless_nil {A} (k : list A) m b : (k = [] → b = false) → m = Ok b → match k with [] => Ok false | _ => m end = Ok b.
Proof. destruct k; [|done]. by intros ->. Qed.

Lemma mask_criterion sp : spec_ok r sp →
  match cr_mask (criteria_of sp) with [] => Ok false
  | _ => unreal_mask_match inet_pton4 inet_pton6 l other_banned by_name c (cr_mask (criteria_of sp)) end =
  Ok (masks_meaning gtarget_meaning (sp_masks sp)).
Proof using L Hstd Hc Hinfo Hu Huser.
  intros Hsp. cbn [cr_mask criteria_of]. rewrite <-map_rev, <-masks_meaning_rev. apply unless_nil; [by destruct (rev (sp_masks sp))|].
  apply mask_match_spec, Forall_rev. eapply Forall_impl; [apply (so_masks r sp Hsp)|]. intros m Hm. by apply target_matches.
Qed.
Lemma ip_criterion sp : spec_ok r sp →
  match cr_ip (criteria_of sp) with [] => Ok false
  | _ => unreal_match_iplist inet_pton4 inet_pton6 c (cr_ip (criteria_of sp)) end =
  Ok (existsb (λ h, ip_entry_meaning inet_pton4 inet_pton6 h c) (sp_ips sp)).
Proof using L Hc.
  intros Hsp. cbn [cr_ip criteria_of]. rewrite <-map_rev, <-existsb_rev. apply unless_nil; [by destruct (rev (sp_ips sp))|].
  apply iplist_correct; [done..|]. apply Forall_rev, (so_ips r sp Hsp).
Qed.
Lemma rule_criterion ctx sp : rc_client ctx = Some c → spec_ok r sp →
  match cr_rule (criteria_of sp) with
  | Some rule => let! z := crule_eval (rule_call by_name ctx) rule in Ok (negb (z =? 0))
  | None => Ok false
  end = Ok (match sp_rule sp with Some e => negb (meaning (call_value ctx) e =? 0) | None => false end).
Proof using Hby.
  intros Ex Hsp. cbn [cr_rule criteria_of]. destruct (sp_rule sp) as [e|] eqn:Ee; [|done]. cbn [fmap option_fmap option_map].
  rewrite (eval_tree (call_value ctx)); [done|]. eapply Forall_impl; [by apply (so_rule r sp Hsp)|]. intros x Hx. by apply leaf_value.
Qed.
Lemma extended_criterion sp : spec_ok r sp →
  user_matches_extended_list inet_pton4 inet_pton6 l other_banned by_name c (cr_extended (criteria_of sp)) =
  Ok (existsb (λ x, matcher_meaning x.2) (sp_extended sp)).
Proof using Hstd Hinfo Hu Huser.
  intros Hsp. cbn [cr_extended criteria_of]. rewrite <-map_rev, <-existsb_rev. induction (Forall_rev (so_extended r sp Hsp)) as [|x k Hx _ IH]; [done|].
  cbn [map user_matches_extended_list existsb]. rewrite ext_matches by done. cbn [rbind]. by destruct (matcher_meaning x.2).
Qed.
Lemma group_criterion sp : spec_ok r sp →
  user_allowed_by_security_group_list by_name c (cr_security_group (criteria_of sp)) = Ok (existsb name_meaning (sp_groups sp)).
Proof using Hby.
  intros Hsp. cbn [cr_security_group criteria_of]. rewrite <-existsb_rev. apply first_yes with (f := by_name c); [done|done|].
  eapply Forall_impl; [apply Forall_rev, (so_groups r sp Hsp)|]. apply Hby.
Qed.

Lemma matches_spec secure ctx sp : rc_client ctx = Some c → (∀ d, rc_destination ctx = Some d → cstr d) → spec_ok r sp →
  matches inet_pton4 inet_pton6 TStime l other_banned other_rule by_name secure c ctx (criteria_of sp) = Ok (spec_meaning secure ctx sp).
Proof using L Hstd Hc Hinfo Hu Huser Hby.
  intros Ex Hd Hsp. unfold matches. rewrite (mask_criterion sp Hsp), (ip_criterion sp Hsp), (rule_criterion ctx sp Ex Hsp), (extended_criterion sp Hsp),
    (group_criterion sp Hsp).
  cbn [criteria_of cr_identified cr_reputation_score cr_connect_time cr_webirc cr_websocket cr_tls cr_server_port cr_destination].
  rewrite (above_score _ _ (so_reputation r sp Hsp)), (above_score _ _ (so_connect r sp Hsp)), <-map_rev, ports_spec, existsb_rev.
  assert (match rc_destination ctx with
    | Some d => let! m := find_name_list_match (rev (sp_destinations sp)) d in Ok (bool_decide (is_Some m)) | None => Ok false end =
    Ok (match rc_destination ctx with Some d => existsb (λ p, glob (simple_toks p) d) (sp_destinations sp) | None => false end)) as ->.
  { destruct (rc_destination ctx) as [d|] eqn:Ed; [|done]. rewrite destinations_spec, existsb_rev; [done| |by apply Hd]. apply Forall_rev, (so_destinations r sp Hsp). }
  assert (∀ b, negb (Z.b2z b =? 0) = b) as Hz by by intros [].
  rewrite !Hz. etransitivity; [apply (any_of_pure [_; _; _; _; _; _; _; _; _; _; _; _; _])|]. f_equal.
  unfold spec_meaning. cbn [existsb id]. by rewrite !orb_assoc, orb_false_r.
Qed.
End Level.

(** A group is for those that meet one of its criteria and none of those that exclude. *)
Definition group_meaning (ctx : crule_context) (g : gspec) : bool :=
  negb (spec_meaning (secure_exclude c) ctx (g_exclude g)) && spec_meaning (secure_include c) ctx (g_include g).
End Named.

Abbreviation allowed_at := (allowed_at inet_pton4 inet_pton6 TStime l other_banned other_rule groups known_users).
Abbreviation user_allowed_by_security_group :=
  (user_allowed_by_security_group inet_pton4 inet_pton6 TStime l other_banned other_rule groups known_users).

(** Who the code says is in the group of a name. *)
Definition in_group (name : list Z) : bool :=
  match snd <$> list_find (λ s, sg_name s = name) groups with
  | Some s => bool_decide (user_allowed_by_security_group c (Some s) = Ok true)
  | None => false
  end.

Definition reads (g : gspec) (s : SecurityGroup) : Prop :=
  sg_name s = g_name g ∧ sg_include s = criteria_of (g_include g) ∧ sg_exclude s = criteria_of (g_exclude g).
(** The groups are what [gs] says, and refer to each other at most nine deep. *)
Record groups_ok (rank : list Z → nat) (gs : list gspec) : Prop := GroupsOk {
  go_names : NoDup (map sg_name groups);
  go_reads : Forall2 reads gs groups;
  go_rank : Forall (λ g, (rank (g_name g) < LEVELS)%nat ∧ spec_ok rank (rank (g_name g)) (g_exclude g) ∧
    spec_ok rank (rank (g_name g)) (g_include g)) gs
}.

Lemma find_in_groups (P : SecurityGroup → Prop) `{∀ s, Decision (P s)} s : snd <$> list_find P groups = Some s → s ∈ groups.
Proof.
  destruct (list_find P groups) as [[i x]|] eqn:E; [|done]. intros [= <-]. apply list_find_Some in E as (E & _). by eapply list_elem_of_lookup_2.
Qed.
Lemma refers_in name s : refers name = Some s → s ∈ groups.
Proof.
  unfold refers, known_group, find_security_group. destruct (_ || _); [|apply find_in_groups].
  destruct known_users as [k|]; [|done]. apply find_in_groups.
Qed.
Lemma group_spec rank gs s : groups_ok rank gs → s ∈ groups → ∃ g, g ∈ gs ∧ reads g s.
Proof.
  intros Hok [i Hi]%list_elem_of_lookup. destruct (Forall2_lookup_r _ _ _ _ _ (go_reads rank gs Hok) Hi) as (g & Hg & Hr).
  exists g. split; [by eapply list_elem_of_lookup_2|done].
Qed.
Lemma in_group_found rank gs s : groups_ok rank gs → s ∈ groups →
  in_group (sg_name s) = bool_decide (allowed_at LEVELS c s (client_context c) = Ok true).
Proof.
  intros Hok Hs. unfold in_group. assert (snd <$> list_find (λ x, sg_name x = sg_name s) groups = Some s) as ->; [|done].
  apply list_elem_of_lookup in Hs as [i Hi].
  destruct (list_find_elem_of (λ x, sg_name x = sg_name s) groups s) as [[j x] Ej]; [by eapply list_elem_of_lookup_2|done|].
  rewrite Ej. cbn. f_equal. apply list_find_Some in Ej as (Hj & Hx & _).
  assert (i = j) as ->; [|congruence]. eapply (NoDup_lookup (map sg_name groups)); [apply (go_names rank gs Hok)|..];
    rewrite list_lookup_fmap; [by rewrite Hi|by rewrite Hj; cbn; rewrite Hx].
Qed.

Lemma name_at_meaning (check : uclient → SecurityGroup → res bool) M name :
  (∀ s, refers name = Some s → check c s = Ok (M (sg_name s))) → name_at groups known_users check c name = Ok (name_meaning M name).
Proof.
  unfold name_at, name_meaning, refers. intros Hs. destruct (bool_decide (name = bs "unknown-users")); cbn [orb] in *.
  - destruct (known_group _ _) as [s|]; [|done]. rewrite Hs by done. cbn. by destruct (M (sg_name s)).
  - destruct (bool_decide (name = bs "known-users")).
    + destruct (known_group _ _) as [s|]; [|done]. rewrite Hs by done. by destruct (M (sg_name s)).
    + destruct (find_security_group _ _) as [s|]; [|done]. rewrite Hs by done. by destruct (M (sg_name s)).
Qed.

(** With enough levels left the limit is not felt. *)
Lemma levels_enough rank gs : groups_ok rank gs → ∀ n levels s g ctx, (rank (sg_name s) ≤ n)%nat → (n < levels)%nat →
  s ∈ groups → g ∈ gs → reads g s → rc_client ctx = Some c → (∀ d, rc_destination ctx = Some d → cstr d) →
  allowed_at levels c s ctx = Ok (group_meaning in_group ctx g).
Proof using L Hstd Hc Hinfo Hu Huser.
  intros Hok n. induction n as [n IH] using lt_wf_ind. intros levels s g ctx Hn Hlev Hs Hg (E1 & E2 & E3) Ex Hd.
  destruct levels as [|levels]; [lia|]. pose proof (proj1 (Forall_forall _ _) (go_rank rank gs Hok) g Hg) as (Hr & Hse & Hsi). rewrite <-E1 in *.
  assert (∀ name, refers_below rank (rank (sg_name s)) name →
    name_at groups known_users (λ c s, allowed_at levels c s (client_context c)) c name = Ok (name_meaning in_group name)) as Hby.
  { intros name Hb. assert (∀ s', refers name = Some s' → allowed_at levels c s' (client_context c) = Ok (in_group (sg_name s'))) as Hs'.
    { intros s' Hr'. specialize (Hb s' Hr'). apply refers_in in Hr'. destruct (group_spec rank gs s' Hok Hr') as (g' & Hg' & Hread).
      rewrite (in_group_found rank gs s' Hok Hr').
      pose proof (proj1 (Forall_forall _ _) (go_rank rank gs Hok) g' Hg') as (Hr2 & _). rewrite <-(proj1 Hread) in Hr2.
      rewrite !(IH (rank (sg_name s')) ltac:(lia) _ s' g' (client_context c)) by (done || lia).
      f_equal. destruct (group_meaning _ _ _); symmetry; [by apply bool_decide_eq_true_2|by apply bool_decide_eq_false_2]. }
    by apply name_at_meaning. }
  cbn [SecurityGroup.allowed_at]. unfold group_criteria, group_meaning. rewrite E2, E3.
  rewrite !(matches_spec in_group rank (rank (sg_name s)) _ Hby) by done. cbn [rbind]. by destruct (spec_meaning _ _ _ (g_exclude g)).
Qed.
Lemma spec_meaning_ext M M' rank r secure sp :
  (∀ name, refers_below rank r name → name_meaning M name = name_meaning M' name) → spec_ok rank r sp →
  spec_meaning M secure (client_context c) sp = spec_meaning M' secure (client_context c) sp.
Proof using L Hstd Hc Hinfo Hu Huser.
  intros Heq Hsp. apply Ok_inj.
  rewrite <-(matches_spec M rank r (λ _ name, Ok (name_meaning M name)) (λ _ _, eq_refl) secure (client_context c) sp),
    <-(matches_spec M' rank r (λ _ name, Ok (name_meaning M name)) (λ name Hb, f_equal Ok (Heq name Hb)) secure (client_context c) sp)
    by done. done.
Qed.

(** The equations of the groups have one solution. *)
Lemma in_group_solution rank gs g : groups_ok rank gs → g ∈ gs → in_group (g_name g) = group_meaning in_group (client_context c) g.
Proof using L Hstd Hc Hinfo Hu Huser.
  intros Hok Hg. destruct (list_elem_of_lookup_1 _ _ Hg) as [i Hi].
  destruct (Forall2_lookup_l _ _ _ _ _ (go_reads rank gs Hok) Hi) as (s & Hs & Hread). apply list_elem_of_lookup_2 in Hs.
  pose proof (proj1 (Forall_forall _ _) (go_rank rank gs Hok) g Hg) as (Hr & _). rewrite <-(proj1 Hread) in *.
  rewrite (in_group_found rank gs s Hok Hs), (levels_enough rank gs Hok (rank (sg_name s)) LEVELS s g (client_context c)) by (done || lia).
  destruct (group_meaning _ _ _); [by apply bool_decide_eq_true_2|by apply bool_decide_eq_false_2].
Qed.
Lemma solution_unique rank gs M : groups_ok rank gs →
  (∀ g, g ∈ gs → M (g_name g) = group_meaning M (client_context c) g) → ∀ g, g ∈ gs → M (g_name g) = in_group (g_name g).
Proof using L Hstd Hc Hinfo Hu Huser.
  intros Hok HM. assert (∀ n g, g ∈ gs → (rank (g_name g) ≤ n)%nat → M (g_name g) = in_group (g_name g)) as H; [|by eauto].
  intros n. induction n as [n IH] using lt_wf_ind. intros g Hg Hn.
  pose proof (proj1 (Forall_forall _ _) (go_rank rank gs Hok) g Hg) as (Hr & Hse & Hsi).
  assert (∀ name, refers_below rank (rank (g_name g)) name → name_meaning M name = name_meaning in_group name) as Heq.
  { intros name Hb. unfold name_meaning, refers_below in *. destruct (refers name) as [s|] eqn:Es; [|done]. f_equal.
    destruct (group_spec rank gs s Hok (refers_in _ _ Es)) as (g' & Hg' & E & _). specialize (Hb s eq_refl). rewrite E in *. apply (IH (rank (g_name g'))); (done || lia). }
  rewrite HM, (in_group_solution rank gs g Hok) by done. unfold group_meaning.
  by rewrite !(spec_meaning_ext M in_group rank (rank (g_name g))) by done.
Qed.
Lemma all_names rank gs name : groups_ok rank gs →
  user_allowed_by_security_group_name inet_pton4 inet_pton6 TStime l other_banned other_rule groups known_users c name = Ok (name_meaning in_group name).
Proof using L Hstd Hc Hinfo Hu Huser.
  intros Hok. apply name_at_meaning. intros s Hs%refers_in. destruct (group_spec rank gs s Hok Hs) as (g & Hg & Hread).
  pose proof (proj1 (Forall_forall _ _) (go_rank rank gs Hok) g Hg) as (Hr & _). rewrite <-(proj1 Hread) in Hr.
  rewrite (in_group_found rank gs s Hok Hs). unfold SecurityGroup.user_allowed_by_security_group, user_allowed_by_security_group_context.
  rewrite (levels_enough rank gs Hok (rank (sg_name s)) LEVELS s g (client_context c)) by (done || lia).
  f_equal. destruct (group_meaning _ _ _); symmetry; [by apply bool_decide_eq_true_2|by apply bool_decide_eq_false_2].
Qed.
End Solution.

(** C17.  Security groups.  For a client with a user record, and groups that refer to groups at most nine
    deep, in their lists or in rules, every evaluation returns and means what the group says: it decides
    whether the client meets one of the criteria of the group and none of those that exclude, where
    other groups are the ones that their names lead to, unknown-users the opposite of known-users; this is
    the only way to assign clients to groups that agrees with all of them, and the limit on the depth is not
    felt.  Scores and times are positive; the masks of the groups are well-formed, their extended bans
    are of the kinds account, realname, channel and certfp, which are loaded, and have a value (the code crashes on an
    empty one, [empty_certfp]), and the other functions that rules call return a value that does not
    depend on groups ([plain_call_ok] has functions for which this is so). *)
Theorem security_groups_correct inet_pton4 inet_pton6 (L : AddressLaws inet_pton4 inet_pton6) TStime l other_banned other_rule c u groups known_users rank gs :
  (∀ e, e ∈ standard → findmod_by_bantype_raw l [e_letter e] = Some e ∧ findmod_by_bantype_raw l (e_name e) = Some e) →
  client_ok inet_pton4 inet_pton6 c → uc_user c = Some u → cstr (uc_info c) →
  cstr (us_account u) ∧ Forall (λ m, cstr m.1) (us_channels u) →
  groups_ok inet_pton4 inet_pton6 TStime l other_banned other_rule c groups known_users rank gs →
  let inside := in_group inet_pton4 inet_pton6 TStime l other_banned other_rule c groups known_users in
  let meaning M := group_meaning inet_pton4 inet_pton6 TStime l other_banned other_rule c groups known_users M in
  (∀ s ctx, s ∈ groups → rc_client ctx = Some c → (∀ d, rc_destination ctx = Some d → cstr d) → ∃ g, g ∈ gs ∧ reads g s ∧
     user_allowed_by_security_group_context inet_pton4 inet_pton6 TStime l other_banned other_rule groups known_users c (Some s) ctx =
     Ok (meaning inside ctx g)) ∧
  (∀ name, user_allowed_by_security_group_name inet_pton4 inet_pton6 TStime l other_banned other_rule groups known_users c name =
     Ok (name_meaning groups known_users inside name)) ∧
  (∀ g, g ∈ gs → inside (g_name g) = meaning inside (client_context c) g) ∧
  (∀ M, (∀ g, g ∈ gs → M (g_name g) = meaning M (client_context c) g) → ∀ g, g ∈ gs → M (g_name g) = inside (g_name g)).
Proof.
  intros Hstd Hc Hu Hi Hm Hok inside meaning.
  split_and!; [|by intros name; eapply all_names|by intros g; eapply in_group_solution|by intros M; eapply solution_unique].
  intros s ctx Hs Hx Hd. edestruct group_spec as (g & Hg & Hr); [exact Hok|exact Hs|]. exists g. split_and!; [done..|].
  assert (rank (g_name g) < LEVELS)%nat as Hlev by (destruct Hok as [_ _ Hrk]; by apply (proj1 (Forall_forall _ _) Hrk g Hg)). rewrite <-(proj1 Hr) in Hlev.
  by eapply levels_enough.
Qed.

(** *** An example *)

Definition no_spec : spec := Spec false None None false false false [] [] [] [] None [] [].
Definition group_of (g : gspec) : SecurityGroup := MkGroup (g_name g) 0 0 [] 0 (criteria_of (g_include g)) (criteria_of (g_exclude g)).
(** The module of ~security-group as the only other one. *)
Definition demo_other (by_name : uclient → list Z → res bool) (k : nat) (b : BanContext) : res (BanContext * bool) :=
  let! r := extban_securitygroup_is_banned by_name b in Ok (b, r).

Definition demo_groups : list gspec :=
  [GSpec (bs "known-users") no_spec (Spec true (Some (false, 25)) None false false false [] [] [] [] None [] []);
   GSpec (bs "staff") (Spec false None None false true false [] [] [] [] None [] [])
     (Spec false None None false false false [HAddr (bs "192.0.2.64") [192; 0; 2; 64] (Some 29%nat)]
       [(false, TMask (MUserHost (bs "joe") (HWild (bs "*.example.org")))); (true, TMatch true (MAccount (bs "Jim")))] [] [] None [] []);
   GSpec (bs "inner") (Spec false None None false false false [] [] [] [bs "unknown-users"] None [] [])
     (Spec false None None false false false [] [] [6668] []
       (Some (EAnd (EFunc (bs "in_security_group") [bs "staff"] None) (ENot (EFunc (bs "is_oper") [] None)))) [] [])].
Definition demo_rank (name : list Z) : nat := if bool_decide (name = bs "inner") then 1 else 0.

Lemma no_spec_ok i4 i6 t l ob orule c groups known rank r : spec_ok i4 i6 t l ob orule c groups known rank r no_spec.
Proof. split; (constructor || done). Qed.

Lemma demo_groups_ok :
  groups_ok demo_pton4 demo_pton6 0 standard demo_other (λ _ _ _, 0) demo_uclient (map group_of demo_groups) (Some (bs "known-users"))
    demo_rank demo_groups.
Proof.
  split; [by apply (bool_decide_unpack _)|by repeat constructor|].
  assert (∀ r name, refers_below (map group_of demo_groups) (Some (bs "known-users")) demo_rank r name ↔
    match refers (map group_of demo_groups) (Some (bs "known-users")) name with Some s => (demo_rank (sg_name s) < r)%nat | None => True end) as Hb.
  { intros r name. unfold refers_below. destruct (refers _ _ name) as [s|]; [|done]. split; [by intros H; apply H|]. by intros H ? [= <-]. }
  repeat (apply Forall_cons; split); [..|apply Forall_nil_2]; (split; [vm_compute; lia|]; split);
    try apply no_spec_ok; split; cbn [sp_reputation sp_connect sp_masks sp_ips sp_rule sp_extended sp_groups sp_destinations g_include g_exclude];
    try (by intros ? ? [=]); try (by intros ? [=]); repeat (apply Forall_cons; split); try apply Forall_nil_2.
  - intros less n [= <- <-]. lia.
  - split; [split; [vm_compute; lia|split_and!; by apply (bool_decide_unpack _)]|reflexivity].
  - split; [done|]. by apply (bool_decide_unpack _).
  - split; [split_and!; [done|lia|cbn; lia]|split; [vm_compute; lia|done]].
  - apply Hb. vm_compute. lia.
  - intros e [= <-]. apply Forall_cons. split; [left; split; [reflexivity|]; eexists; split; [reflexivity|]; apply Hb; vm_compute; lia|].
    apply Forall_singleton.
    apply (plain_call_ok _ _ _ _ _ _ standard_found demo_uclient demo_user eq_refl); [by apply (bool_decide_unpack _)|split; by apply (bool_decide_unpack _)|].
    apply (plain_direct "is_oper"). set_solver.
Qed.

Lemma security_groups_witness :
  map (user_allowed_by_security_group_name demo_pton4 demo_pton6 0 standard demo_other (λ _ _ _, 0) (map group_of demo_groups)
    (Some (bs "known-users")) demo_uclient) [bs "Staff"; bs "inner"; bs "unknown-users"] = [Ok true; Ok true; Ok false].
Proof.
  assert (∀ name, user_allowed_by_security_group_name demo_pton4 demo_pton6 0 standard demo_other (λ _ _ _, 0) (map group_of demo_groups)
    (Some (bs "known-users")) demo_uclient name = Ok (name_meaning (map group_of demo_groups) (Some (bs "known-users"))
      (in_group demo_pton4 demo_pton6 0 standard demo_other (λ _ _ _, 0) demo_uclient (map group_of demo_groups) (Some (bs "known-users"))) name)) as H.
  { refine (proj1 (proj2 (security_groups_correct demo_pton4 demo_pton6 demo_laws 0 standard demo_other (λ _ _ _, 0) demo_uclient demo_user
      (map group_of demo_groups) (Some (bs "known-users")) demo_rank demo_groups standard_found demo_client_ok eq_refl _ _ demo_groups_ok))).
    - by apply (bool_decide_unpack _).
    - split; by apply (bool_decide_unpack _). }
  cbn [map]. rewrite !H. vm_compute. reflexivity.
Defined.

(** Groups ten deep are cut off: who is in the last group is not in the first. *)
Definition chain (n : nat) : list SecurityGroup :=
  map (λ i, group_of (GSpec (port_text (Z.of_nat i)) no_spec
    (if (i =? n)%nat then Spec true None None false false false [] [] [] [] None [] []
     else Spec false None None false false false [] [] [] [port_text (Z.of_nat i + 1)] None [] []))) (seq 0 (S n)).
Lemma ten_levels :
  let check n := user_allowed_by_security_group_name demo_pton4 demo_pton6 0 standard demo_other (λ _ _ _, 0) (chain n) None demo_uclient (port_text 0) in
  check 8%nat = Ok true ∧ check 9%nat = Ok false.
Proof. split; vm_compute; reflexivity. Qed.

(** A value that was configured as empty is kept as NULL and compared. *)
Lemma empty_certfp :
  user_matches_extended_list demo_pton4 demo_pton6 standard demo_other (λ _ _, Ok false) demo_uclient (add_nvplist [] 0 (bs "certfp") (Some [])) = UB.
Proof. reflexivity. Qed.

(** *** Sessions of an account, and the list of groups *)

Section Sessions.
Context (inet_pton4 inet_pton6 : list Z → option (list Z)) (TStime : Z) (l : list Extban).
Context (other_banned : (uclient → list Z → res bool) → nat → BanContext → res (BanContext * bool)).
Context (other_rule : crule_context → list Z → list (list Z) → Z).
Context (groups : list SecurityGroup) (known_users : option (list Z)).
Context (lclient_list : list uclient) (canon_md : option (uclient → option nat)).

(** The other sessions of the account of a client. *)
Definition sessions (c : uclient) : list uclient :=
  match canon_md with
  | Some md =>
      match md c with
      | Some canonical => filter (λ x, uc_isuser x = true ∧ uc_id x ≠ uc_id c ∧ md x = Some canonical) lclient_list
      | None => []
      end
  | None => []
  end.
Lemma by_account_spec allowed (f : uclient → bool) c : (∀ x, allowed x = Ok (f x)) →
  by_account lclient_list canon_md allowed c = Ok (f c || existsb f (sessions c)).
Proof.
  intros Hf. unfold by_account, sessions. rewrite Hf. cbn [rbind]. destruct (f c); [done|]. destruct canon_md as [md|]; [|done].
  destruct (md c) as [canonical|]; [|done]. cbn [orb]. induction lclient_list as [|x r IH]; [done|]. cbn [other_session].
  destruct (uc_isuser x) eqn:Ei; cbn [negb orb].
  - destruct (Nat.eqb_spec (uc_id x) (uc_id c)); cbn [orb]; [rewrite filter_cons_False by tauto; apply IH|].
    case_bool_decide; cbn [negb].
    + rewrite filter_cons_True by done. cbn [existsb]. rewrite Hf. cbn [rbind]. destruct (f x); [done|]. apply IH.
    + rewrite filter_cons_False by tauto. apply IH.
  - rewrite filter_cons_False by (intros (E & _); congruence). apply IH.
Qed.

(** The groups of a client or of another session of its account, separated by commas, as
    long as there is room for them. *)
Lemma get_security_groups_spec (f : uclient → SecurityGroup → bool) c :
  (∀ x s, user_allowed_by_security_group inet_pton4 inet_pton6 TStime l other_banned other_rule groups known_users x (Some s) = Ok (f x s)) →
  let member s := f c s || existsb (λ x, f x s) (sessions c) in
  let known := match known_group groups known_users with Some s => member s | None => false end in
  let names := (if known then bs "known-users" else bs "unknown-users") ::
    map sg_name (filter (λ s, sg_name s ≠ bs "known-users" ∧ member s = true) groups) in
  (length (concat (map (λ n, n ++ bs ",") names)) ≤ 511)%nat →
  ∃ r, get_security_groups inet_pton4 inet_pton6 TStime l other_banned other_rule groups known_users lclient_list canon_md c = Ok r ∧
    r ++ bs "," = concat (map (λ n, n ++ bs ",") names).
Proof.
  intros Hf member known names Hlen. unfold get_security_groups, user_allowed_by_security_group_account.
  assert (∀ s, by_account lclient_list canon_md
    (λ x, user_allowed_by_security_group inet_pton4 inet_pton6 TStime l other_banned other_rule groups known_users x (Some s)) c = Ok (member s)) as Hm
    by (intros s; by apply (by_account_spec _ (λ x, f x s))).
  assert (match known_group groups known_users with None => Ok false | Some s => by_account lclient_list canon_md
    (λ x, user_allowed_by_security_group inet_pton4 inet_pton6 TStime l other_banned other_rule groups known_users x (Some s)) c end = Ok known) as ->
    by (unfold known; by destruct (known_group _ _)).
  cbn [rbind]. assert (∀ gs buf, (length (buf ++ concat (map (λ n, n ++ bs ",") (map sg_name (filter (λ s, sg_name s ≠ bs "known-users" ∧ member s = true) gs)))) ≤ 511)%nat →
    list_groups inet_pton4 inet_pton6 TStime l other_banned other_rule groups known_users lclient_list canon_md c gs buf =
    Ok (buf ++ concat (map (λ n, n ++ bs ",") (map sg_name (filter (λ s, sg_name s ≠ bs "known-users" ∧ member s = true) gs))))) as Hl.
  { intros gs. induction gs as [|s gs IH]; intros buf Hb; [cbn; by rewrite app_nil_r|]. cbn [list_groups].
    case_bool_decide; [rewrite filter_cons_False in * by tauto; by apply IH|]. unfold user_allowed_by_security_group_account. rewrite Hm. cbn [rbind].
    destruct (member s) eqn:Es; [|rewrite filter_cons_False in * by (intros [_ E]; congruence); by apply IH].
    rewrite filter_cons_True in * by done. cbn [map concat] in *. rewrite !length_app in Hb.
    unfold strlcat512. rewrite !take_ge by (rewrite ?length_app, ?length_take, ?length_app; lia). rewrite IH by (rewrite !length_app; lia). by rewrite !app_assoc. }
  set (first := if known then bs "known-users" else bs "unknown-users") in *.
  assert ((if known then bs "known-users," else bs "unknown-users,") = first ++ bs ",") as -> by (subst first; by destruct known).
  unfold names in Hlen. cbn [map concat] in Hlen. unfold strlcat512. cbn [app]. rewrite take_ge by (rewrite !length_app in *; lia).
  rewrite Hl by done. cbn [rbind]. eexists. split; [done|]. subst names. cbn [map concat].
  set (rest := map sg_name _). clearbody rest. clear.
  induction rest as [|n rest IH] using rev_ind.
  - cbn [map concat]. rewrite app_nil_r, length_app. cbn. by rewrite Nat.add_sub, take_app_length.
  - rewrite map_app, concat_app. cbn [map concat]. rewrite !app_assoc, app_nil_r, length_app. cbn. by rewrite Nat.add_sub, take_app_length.
Qed.
End Sessions.

(** Names that do not fit are cut, and then the last character is taken for a comma. *)
Lemma group_names_cut :
  let gs := map (λ i, group_of (GSpec (replicate 48 (97 + i)) no_spec (Spec true None None false false false [] [] [] [] None [] []))) (seqZ 0 11) in
  get_security_groups demo_pton4 demo_pton6 0 standard demo_other (λ _ _ _, 0) gs None [] None demo_uclient =
  Ok (take 510 (bs "unknown-users," ++ concat (map (λ s, sg_name s ++ bs ",") gs))).
Proof. vm_compute. reflexivity. Qed.
