(* ===== verification/GroupConfig.v ===== *)
(** * Configuration of security groups (src/securitygroup.c, src/misc.c)

    The test of a block, and what running it makes of it: the items of
    security-group blocks and of match blocks, their lists of masks, names and
    extended bans, the list of all groups with its defaults, and copies. *)

From stdpp Require Import base tactics list numbers strings pretty sets gmap.
From Stdlib Require Import ZArith Lia.
From S2P Require Import Prelude Chars Support Utf8 Match Hash Crule MemberModes Channel Bans NameLists ConfPre Times UserMatch Extbans SecurityGroup.

Local Open Scope Z_scope.

(** ** Lists of the configuration *)

Definition unreal_add_mask_string (head : list (list Z)) (name : list Z) : list (list Z) := name :: head.
(** A value, or the name where there is none. *)
Definition value_or_name (ce : ConfigEntry) : list Z := default (ce_name ce) (ce_value ce).
Definition unreal_add_masks (head : list (list Z)) (ce : ConfigEntry) : list (list Z) :=
  match ce_items ce with
  | [] => unreal_add_mask_string head (value_or_name ce)
  | items => foldl (λ h cep, unreal_add_mask_string h (value_or_name cep)) head items
  end.
Definition unreal_duplicate_masks (existing : list (list Z)) : list (list Z) := foldl (λ ret m, m :: ret) [] existing.
Definition unreal_add_names (n : list (list Z)) (ce : ConfigEntry) : list (list Z) :=
  match ce_items ce with
  | [] => match ce_value ce with Some v => add_name_list n v | None => n end
  | items => foldl (λ n cep, add_name_list n (value_or_name cep)) n items
  end.
Definition unreal_add_name_values (n : list NameValuePrioList) (name : list Z) (ce : ConfigEntry) : list NameValuePrioList :=
  match ce_items ce with
  | [] => match ce_value ce with Some v => add_nvplist n 0 name (Some v) | None => n end
  | items => foldl (λ n cep, add_nvplist n 0 name (Some (value_or_name cep))) n items
  end.

(** ** Setting criteria *)

Definition set_identified (v : Z) (s : criteria) : criteria :=
  Criteria v (cr_reputation_score s) (cr_connect_time s) (cr_webirc s) (cr_websocket s) (cr_tls s) (cr_ip s) (cr_mask s) (cr_server_port s)
    (cr_security_group s) (cr_prettyrule s) (cr_rule s) (cr_destination s) (cr_extended s).
Definition set_reputation (v : Z) (s : criteria) : criteria :=
  Criteria (cr_identified s) v (cr_connect_time s) (cr_webirc s) (cr_websocket s) (cr_tls s) (cr_ip s) (cr_mask s) (cr_server_port s)
    (cr_security_group s) (cr_prettyrule s) (cr_rule s) (cr_destination s) (cr_extended s).
Definition set_connect (v : Z) (s : criteria) : criteria :=
  Criteria (cr_identified s) (cr_reputation_score s) v (cr_webirc s) (cr_websocket s) (cr_tls s) (cr_ip s) (cr_mask s) (cr_server_port s)
    (cr_security_group s) (cr_prettyrule s) (cr_rule s) (cr_destination s) (cr_extended s).
Definition set_webirc (v : Z) (s : criteria) : criteria :=
  Criteria (cr_identified s) (cr_reputation_score s) (cr_connect_time s) v (cr_websocket s) (cr_tls s) (cr_ip s) (cr_mask s) (cr_server_port s)
    (cr_security_group s) (cr_prettyrule s) (cr_rule s) (cr_destination s) (cr_extended s).
Definition set_websocket (v : Z) (s : criteria) : criteria :=
  Criteria (cr_identified s) (cr_reputation_score s) (cr_connect_time s) (cr_webirc s) v (cr_tls s) (cr_ip s) (cr_mask s) (cr_server_port s)
    (cr_security_group s) (cr_prettyrule s) (cr_rule s) (cr_destination s) (cr_extended s).
Definition set_tls (v : Z) (s : criteria) : criteria :=
  Criteria (cr_identified s) (cr_reputation_score s) (cr_connect_time s) (cr_webirc s) (cr_websocket s) v (cr_ip s) (cr_mask s) (cr_server_port s)
    (cr_security_group s) (cr_prettyrule s) (cr_rule s) (cr_destination s) (cr_extended s).
Definition set_ip (v : list (list Z)) (s : criteria) : criteria :=
  Criteria (cr_identified s) (cr_reputation_score s) (cr_connect_time s) (cr_webirc s) (cr_websocket s) (cr_tls s) v (cr_mask s) (cr_server_port s)
    (cr_security_group s) (cr_prettyrule s) (cr_rule s) (cr_destination s) (cr_extended s).
Definition set_mask (v : list (list Z)) (s : criteria) : criteria :=
  Criteria (cr_identified s) (cr_reputation_score s) (cr_connect_time s) (cr_webirc s) (cr_websocket s) (cr_tls s) (cr_ip s) v (cr_server_port s)
    (cr_security_group s) (cr_prettyrule s) (cr_rule s) (cr_destination s) (cr_extended s).
Definition set_server_port (v : list (list Z)) (s : criteria) : criteria :=
  Criteria (cr_identified s) (cr_reputation_score s) (cr_connect_time s) (cr_webirc s) (cr_websocket s) (cr_tls s) (cr_ip s) (cr_mask s) v
    (cr_security_group s) (cr_prettyrule s) (cr_rule s) (cr_destination s) (cr_extended s).
Definition set_security_group (v : list (list Z)) (s : criteria) : criteria :=
  Criteria (cr_identified s) (cr_reputation_score s) (cr_connect_time s) (cr_webirc s) (cr_websocket s) (cr_tls s) (cr_ip s) (cr_mask s)
    (cr_server_port s) v (cr_prettyrule s) (cr_rule s) (cr_destination s) (cr_extended s).
Definition set_rule (p : option (list Z)) (v : option node) (s : criteria) : criteria :=
  Criteria (cr_identified s) (cr_reputation_score s) (cr_connect_time s) (cr_webirc s) (cr_websocket s) (cr_tls s) (cr_ip s) (cr_mask s)
    (cr_server_port s) (cr_security_group s) p v (cr_destination s) (cr_extended s).
Definition set_destination (v : list (list Z)) (s : criteria) : criteria :=
  Criteria (cr_identified s) (cr_reputation_score s) (cr_connect_time s) (cr_webirc s) (cr_websocket s) (cr_tls s) (cr_ip s) (cr_mask s)
    (cr_server_port s) (cr_security_group s) (cr_prettyrule s) (cr_rule s) v (cr_extended s).
Definition set_extended (v : list NameValuePrioList) (s : criteria) : criteria :=
  Criteria (cr_identified s) (cr_reputation_score s) (cr_connect_time s) (cr_webirc s) (cr_websocket s) (cr_tls s) (cr_ip s) (cr_mask s)
    (cr_server_port s) (cr_security_group s) (cr_prettyrule s) (cr_rule s) (cr_destination s) v.

Definition set_include (v : criteria) (s : SecurityGroup) : SecurityGroup :=
  MkGroup (sg_name s) (sg_priority s) (sg_public s) (sg_printable_list s) (sg_printable_list_counter s) v (sg_exclude s).
Definition set_exclude (v : criteria) (s : SecurityGroup) : SecurityGroup :=
  MkGroup (sg_name s) (sg_priority s) (sg_public s) (sg_printable_list s) (sg_printable_list_counter s) (sg_include s) v.
Definition set_priority (v : Z) (s : SecurityGroup) : SecurityGroup :=
  MkGroup (sg_name s) v (sg_public s) (sg_printable_list s) (sg_printable_list_counter s) (sg_include s) (sg_exclude s).
Definition set_public (v : Z) (s : SecurityGroup) : SecurityGroup :=
  MkGroup (sg_name s) (sg_priority s) v (sg_printable_list s) (sg_printable_list_counter s) (sg_include s) (sg_exclude s).
Definition add_printable (name : list Z) (value : option (list Z)) (s : SecurityGroup) : SecurityGroup :=
  MkGroup (sg_name s) (sg_priority s) (sg_public s) (add_nvplist (sg_printable_list s) (sg_printable_list_counter s) name value)
    (sg_printable_list_counter s + 1) (sg_include s) (sg_exclude s).

(** ** Testing and running a block *)

(** Whether the name starts with exclude-, and the rest of it. *)
Definition exclude_name (name : list Z) : bool * list Z :=
  if bool_decide (take 8 name = bs "exclude-") then (true, drop 8 name) else (false, name).

(** A less-than sign and what follows; reading a value that is NULL is [None]. *)
Definition less_sign (str : list Z) : bool * list Z :=
  match str with c :: r => if c =? 60 then (true, r) else (false, str) | [] => (false, []) end.

Section Config.
(** What the conversion of extended bans depends on. *)
Context (named_extended_bans : bool) (chantypes : option (list Z)) (allowed : allowed_channelchars).
Context (other_conv : nat → BanContext → res (option (list Z))) (extbans : list Extban).

Definition tkl_ban (e : Extban) : bool := option_set (e_options e) EXTBOPT_TKL && option_set (e_events e) BANCHK_TKL.

(** The number of errors. *)
Definition test_extended_value (e : Extban) (v : list Z) : res bool :=
  let! r := conv_param named_extended_bans chantypes allowed other_conv extbans (e_conv_param e)
    (BanCtx None [] v BANCHK_TKL None false MODE_ADD EXBTYPE_BAN EXBCHK_ACCESS false) in
  Ok (bool_decide (is_Some r)).
Fixpoint test_extended_items (e : Extban) (l : list ConfigEntry) : res Z :=
  match l with
  | [] => Ok 0
  | cep :: r =>
      match ce_value cep with
      | Some _ => Ok 1
      | None => let! ok := test_extended_value e (ce_name cep) in if ok : bool then test_extended_items e r else Ok 1
      end
  end.
Definition test_extended_list (e : Extban) (cep : ConfigEntry) : res Z :=
  let! ok := match ce_value cep with Some v => test_extended_value e v | None => Ok true end in
  if ok : bool then test_extended_items e (ce_items cep) else Ok 1.

(** [test_match_item]: whether the item is handled, and the number of errors.
    An item without a value that needs one is an error and not handled. *)
Definition test_match_item (cep : ConfigEntry) : res (bool * Z) :=
  let '(excl, name) := exclude_name (ce_name cep) in
  let named (s : string) := bool_decide (name = bs s) in
  let with_value (k : list Z → res Z) : res (bool * Z) :=
    match ce_value cep with None | Some [] => Ok (false, 1) | Some v => let! e := k v in Ok (true, e) end in
  if named "webirc" || named "websocket" || named "identified" || named "tls" then with_value (λ _, Ok 0)
  else if named "reputation-score" then
    with_value (λ str, let v := atoi (less_sign str).2 in Ok (if (v <? 1) || (10000 <? v) then 1 else 0))
  else if named "connect-time" then
    with_value (λ str, let! v := config_checkval (Some (less_sign str).2) CFG_TIME in Ok (if v <? 1 then 1 else 0))
  else if named "mask" || (negb excl && named "include-mask") then
    Ok (true, Z.of_nat (length (filter (λ cepp, ce_name cepp ≠ bs "mask" ∧ (ce_items cepp ≠ [] ∨ is_Some (ce_value cepp))) (ce_items cep))))
  else if named "ip" || named "server-port" || named "security-group" || named "destination" then Ok (true, 0)
  else if named "rule" then
    match ce_value cep with
    | None => UB
    | Some v => let! val := crule_test v in Ok (true, if val =? 0 then 0 else 1)
    end
  else
    match findmod_by_bantype_raw extbans name with
    | Some e => if tkl_ban e then let! n := test_extended_list e cep in Ok (true, n) else Ok (false, 0)
    | None => Ok (false, 0)
    end.

Fixpoint test_match_items (l : list ConfigEntry) : res Z :=
  match l with
  | [] => Ok 0
  | cep :: r =>
      let! (handled, n) := test_match_item cep in
      let! m := test_match_items r in
      Ok (n + (if negb handled && bool_decide (is_Some (ce_value cep)) then 1 else 0) + m)
  end.
(** [test_match_block]: the errors; the result says whether there are none. *)
Definition test_match_block (ce : ConfigEntry) : res Z := test_match_items (ce_items ce).

Definition tmbbw_is_wildcard (x : list Z) : bool := bool_decide (x = bs "*") || bool_decide (x = bs "*@*").
Definition wildcard_value (ce : ConfigEntry) : bool := match ce_value ce with Some v => tmbbw_is_wildcard v | None => false end.
Definition test_match_block_too_broad (ce : ConfigEntry) : bool :=
  wildcard_value ce ||
  existsb (λ cep,
    (negb (bool_decide (is_Some (ce_value cep))) && tmbbw_is_wildcard (ce_name cep)) ||
    (bool_decide (ce_name cep ∈ [bs "mask"; bs "include-mask"; bs "ip"]) &&
     (wildcard_value cep || existsb (λ cepp, tmbbw_is_wildcard (ce_name cepp)) (ce_items cep)))) (ce_items ce).

Fixpoint test_group_items (l : list ConfigEntry) : res Z :=
  match l with
  | [] => Ok 0
  | cep :: r =>
      let! n :=
        if bool_decide (ce_name cep = bs "public") || bool_decide (ce_name cep = bs "priority") then
          Ok (match ce_value cep with None | Some [] => 1 | _ => 0 end)
        else let! (handled, n) := test_match_item cep in Ok (n + (if handled : bool then 0 else 1)) in
      let! m := test_group_items r in Ok (n + m)
  end.
Definition test_security_group (ce : ConfigEntry) : res Z :=
  match ce_value ce with
  | None => let! n := test_group_items (ce_items ce) in Ok (1 + n)
  | Some name =>
      if strcasecmp name (bs "unknown-users") =? 0 then Ok 1
      else let! n := test_group_items (ce_items ce) in Ok ((if security_group_valid_name name then 0 else 1) + n)
  end.

(** The items that set fields; the code has the same ones twice, but for
    connect-time, which only exists without exclude-. *)
Definition conf_criterion (excl : bool) (name : list Z) (cep : ConfigEntry) (s : criteria) : option (res criteria) :=
  let named (x : string) := bool_decide (name = bs x) in
  let yesno (set : Z → criteria → criteria) : option (res criteria) :=
    Some (let! v := config_checkval (ce_value cep) CFG_YESNO in Ok (set v s)) in
  let score (value : list Z → res Z) (set : Z → criteria → criteria) : option (res criteria) :=
    Some match ce_value cep with
         | None => UB
         | Some v => let! n := value (less_sign v).2 in Ok (set (if (less_sign v).1 then 0 - n else n) s)
         end in
  if excl && named "webirc" then yesno set_webirc
  else if named "websocket" then yesno set_websocket
  else if named "identified" then yesno set_identified
  else if named "tls" then yesno set_tls
  else if named "reputation-score" then score (λ v, Ok (atoi v)) set_reputation
  else if negb excl && named "connect-time" then score (λ v, config_checkval (Some v) CFG_TIME) set_connect
  else if named "mask" || (negb excl && named "include-mask") then Some (Ok (set_mask (unreal_add_masks (cr_mask s) cep) s))
  else if named "ip" then Some (Ok (set_ip (unreal_add_names (cr_ip s) cep) s))
  else if named "server-port" then Some (Ok (set_server_port (unreal_add_names (cr_server_port s) cep) s))
  else if named "security-group" then Some (Ok (set_security_group (unreal_add_names (cr_security_group s) cep) s))
  else if named "rule" then
    Some match ce_value cep with None => UB | Some v => let! r := crule_parse v in Ok (set_rule (Some v) r s) end
  else if named "destination" then Some (Ok (set_destination (unreal_add_names (cr_destination s) cep) s))
  else
    match findmod_by_bantype_raw extbans name with
    | Some _ => Some (Ok (set_extended (unreal_add_name_values (cr_extended s) name cep) s))
    | None => None
    end.

(** Updating the printable list. *)
Definition printable_item (cep : ConfigEntry) (s : SecurityGroup) : SecurityGroup :=
  match ce_items cep with
  | [] => add_printable (ce_name cep) (ce_value cep) s
  | items => foldl (λ s cep2, add_printable (ce_name cep) (Some (ce_name cep2)) s) s items
  end.

(** [conf_match_item]: no group is made for an item that is not for us.  The
    item webirc sets its field and is then looked for among the extended bans. *)
Definition conf_match_item (cep : ConfigEntry) (block : option SecurityGroup) : res (bool * option SecurityGroup) :=
  let! start := match block with
    | Some s => Ok (Some s)
    | None => let! (handled, _) := test_match_item cep in Ok (if handled : bool then Some new_group else None)
    end in
  match start with
  | None => Ok (false, None)
  | Some s =>
      let! s := if bool_decide (ce_name cep = bs "webirc") then
        let! v := config_checkval (ce_value cep) CFG_YESNO in Ok (set_include (set_webirc v (sg_include s)) s) else Ok s in
      let '(excl, name) := exclude_name (ce_name cep) in
      match conf_criterion excl name cep (if excl then sg_exclude s else sg_include s) with
      | None => Ok (false, Some s)
      | Some m =>
          let! cr := m in
          Ok (true, Some (printable_item cep (if excl then set_exclude cr s else set_include cr s)))
      end
  end.

Fixpoint conf_match_items (l : list ConfigEntry) (s : SecurityGroup) : res SecurityGroup :=
  match l with
  | [] => Ok s
  | cep :: r =>
      let! (handled, s') := conf_match_item cep (Some s) in
      let s := default s s' in
      conf_match_items r
        (if negb handled && negb (bool_decide (is_Some (ce_value cep))) && bool_decide (ce_items cep = []) then
           add_printable (bs "mask") (Some (ce_name cep)) (set_include (set_mask (unreal_add_masks (cr_mask (sg_include s)) cep) (sg_include s)) s)
         else s)
  end.
Definition conf_match_block (ce : ConfigEntry) (block : option SecurityGroup) : res SecurityGroup :=
  let s := default new_group block in
  let s := match ce_value ce with
    | Some v => add_printable (bs "mask") (Some v) (set_include (set_mask (unreal_add_masks (cr_mask (sg_include s)) ce) (sg_include s)) s)
    | None => s
    end in
  conf_match_items (ce_items ce) s.

(** ** The list of groups *)

Definition insert_group (s : SecurityGroup) (l : list SecurityGroup) : list SecurityGroup :=
  take_while (λ y, sg_priority y <? sg_priority s) l ++ s :: drop_while (λ y, sg_priority y <? sg_priority s) l.
Definition remove_group (name : list Z) (l : list SecurityGroup) : list SecurityGroup := filter (λ y, sg_name y ≠ name) l.
(** The name of the group that is found or made, and the list. *)
Definition add_security_group (name : list Z) (priority : Z) (l : list SecurityGroup) : list Z * list SecurityGroup :=
  match find_security_group l name with
  | Some s => (sg_name s, l)
  | None =>
      let n := (Strl.strlcpy [] name (SECURITYGROUPLEN + 1)).1 in
      (n, insert_group (set_priority priority (MkGroup n 0 0 [] 0 no_criteria no_criteria)) l)
  end.
Definition get_group (name : list Z) (l : list SecurityGroup) : option SecurityGroup := snd <$> list_find (λ s, sg_name s = name) l.
Definition put_group (s : SecurityGroup) (l : list SecurityGroup) : list SecurityGroup :=
  map (λ y, if bool_decide (sg_name y = sg_name s) then s else y) l.

Fixpoint conf_group_items (name : list Z) (items : list ConfigEntry) (l : list SecurityGroup) : res (list SecurityGroup) :=
  match items with
  | [] => Ok l
  | cep :: r =>
      match get_group name l with
      | None => UB
      | Some s =>
          let! l' :=
            if bool_decide (ce_name cep = bs "priority") then
              match ce_value cep with
              | None => UB
              | Some v => Ok (insert_group (set_priority (atoi v) s) (remove_group name l))
              end
            else if bool_decide (ce_name cep = bs "public") then
              let! v := config_checkval (ce_value cep) CFG_YESNO in Ok (put_group (set_public v s) l)
            else let! (_, s') := conf_match_item cep (Some s) in Ok (put_group (default s s') l) in
          conf_group_items name r l'
      end
  end.
Definition conf_security_group (ce : ConfigEntry) (l : list SecurityGroup) : res (list SecurityGroup) :=
  match ce_value ce with
  | None => UB
  | Some v => let '(name, l) := add_security_group v 1 l in conf_group_items name (ce_items ce) l
  end.

(** What is set in the default groups; known_users points to the third one. *)
Definition default_group (name : string) (priority : Z) (f : criteria → criteria) (l : list SecurityGroup) : list SecurityGroup :=
  let '(n, l) := add_security_group (bs name) priority l in
  match get_group n l with
  | Some s => put_group (set_include (f (sg_include s)) (set_public 1 s)) l
  | None => l
  end.
Definition set_security_group_defaults : list SecurityGroup * option (list Z) :=
  let l := default_group "webirc-users" 50 (set_webirc 1) [] in
  let l := default_group "websocket-users" 51 (set_websocket 1) l in
  let l := default_group "known-users" 100 (λ s, set_webirc 0 (set_reputation 25 (set_identified 1 s))) l in
  let l := default_group "tls-users" 300 (set_tls 1) l in
  (l, Some (bs "known-users")).

(** Name, priority and the fields that are numbers are not copied. *)
Definition duplicate_criteria (s : criteria) : res criteria :=
  let! rule := match cr_prettyrule s with Some p => crule_parse p | None => Ok None end in
  Ok (Criteria 0 0 0 0 0 0 (duplicate_name_list (cr_ip s)) (unreal_duplicate_masks (cr_mask s)) (duplicate_name_list (cr_server_port s))
        (duplicate_name_list (cr_security_group s)) (cr_prettyrule s) rule (duplicate_name_list (cr_destination s)) (duplicate_nvplist (cr_extended s))).
Definition duplicate_security_group (s : SecurityGroup) : res SecurityGroup :=
  let! i := duplicate_criteria (sg_include s) in
  let! e := duplicate_criteria (sg_exclude s) in
  Ok (MkGroup [] 0 0 (duplicate_nvplist (sg_printable_list s)) 0 i e).
End Config.

(** ** A group written down *)

Definition item (name : list Z) (value : option (list Z)) (items : list ConfigEntry) : ConfigEntry :=
  CE name value items 0 0 0 0 [] false.
Definition entry_if (b : bool) (e : ConfigEntry) : list ConfigEntry := if b then [e] else [].
Definition list_entry (name : list Z) (l : list (list Z)) : list ConfigEntry :=
  match l with [] => [] | _ => [item name None (map (λ x, item x None []) l)] end.
Definition score_entry (name : list Z) (text : Z → list Z) (o : option (bool * Z)) : list ConfigEntry :=
  match o with Some (less, n) => [item name (Some ((if less : bool then bs "<" else []) ++ text n)) []] | None => [] end.

(** The items of a group, each with exclude- in front of its name or not. *)
Definition entries_of (pre : list Z) (sp : spec) : list ConfigEntry :=
  entry_if (sp_identified sp) (item (pre ++ bs "identified") (Some (bs "yes")) []) ++
  score_entry (pre ++ bs "reputation-score") (printf_d 0) (sp_reputation sp) ++
  score_entry (pre ++ bs "connect-time") pretty_time_val (sp_connect sp) ++
  entry_if (sp_webirc sp) (item (pre ++ bs "webirc") (Some (bs "yes")) []) ++
  entry_if (sp_websocket sp) (item (pre ++ bs "websocket") (Some (bs "yes")) []) ++
  entry_if (sp_tls sp) (item (pre ++ bs "tls") (Some (bs "yes")) []) ++
  list_entry (pre ++ bs "ip") (map host_text (sp_ips sp)) ++
  list_entry (pre ++ bs "mask") (map mask_entry (sp_masks sp)) ++
  list_entry (pre ++ bs "server-port") (map port_text (sp_ports sp)) ++
  list_entry (pre ++ bs "security-group") (sp_groups sp) ++
  match sp_rule sp with Some e => [item (pre ++ bs "rule") (Some (text e)) []] | None => [] end ++
  list_entry (pre ++ bs "destination") (sp_destinations sp) ++
  map (λ x, item (pre ++ nv_name (ext_entry x)) (Some (matcher_arg x.2)) []) (sp_extended sp).

Section Written.
Context (named_extended_bans : bool) (chantypes : option (list Z)) (allowed : allowed_channelchars).
Context (other_conv : nat → BanContext → res (option (list Z))) (l : list Extban).
(** No extended ban has the name webirc. *)
Context (Hstd : ∀ e, e ∈ standard → findmod_by_bantype_raw l [e_letter e] = Some e ∧ findmod_by_bantype_raw l (e_name e) = Some e).

Abbreviation test_match_item := (test_match_item named_extended_bans chantypes allowed other_conv l).
Abbreviation conf_match_item := (conf_match_item named_extended_bans chantypes allowed other_conv l).
Abbreviation test_group_items := (test_group_items named_extended_bans chantypes allowed other_conv l).
Abbreviation conf_group_items := (conf_group_items named_extended_bans chantypes allowed other_conv l).

Definition ext_writable (x : bool * matcher) : Prop :=
  matcher_arg x.2 ≠ [] ∧ ∀ e, findmod_by_bantype_raw l (nv_name (ext_entry x)) = Some e →
    test_extended_value named_extended_bans chantypes allowed other_conv l e (matcher_arg x.2) = Ok true.

(** What can be written: scores that the test accepts, rules of the language,
    values that the extended bans accept. *)
Record writable (sp : spec) : Prop := Writable {
  wr_reputation : ∀ less n, sp_reputation sp = Some (less, n) → 1 ≤ n ≤ 10000;
  wr_connect : ∀ less n, sp_connect sp = Some (less, n) → 1 ≤ n < 2 ^ 31;
  wr_rule : ∀ e, sp_rule sp = Some e → wf e;
  wr_extended : Forall ext_writable (sp_extended sp)
}.

(** What is kept of it: exclude-connect-time is accepted, and running it does nothing. *)
Definition kept (excl : bool) (sp : spec) : spec :=
  Spec (sp_identified sp) (sp_reputation sp) (if excl then None else sp_connect sp) (sp_webirc sp) (sp_websocket sp) (sp_tls sp) (sp_ips sp)
    (sp_masks sp) (sp_ports sp) (sp_groups sp) (sp_rule sp) (sp_destinations sp) (sp_extended sp).

(** Every item is accepted, and running it sets its field. *)
Definition prefix_of (excl : bool) : list Z := if excl then bs "exclude-" else [].
Definition part (excl : bool) (s : SecurityGroup) : criteria := if excl then sg_exclude s else sg_include s.
Definition runs (excl : bool) (es : list ConfigEntry) (f : criteria → criteria) : Prop :=
  Forall (λ e, test_match_item e = Ok (true, 0)  ∧ ce_name e ≠ bs "public" ∧ ce_name e ≠ bs "priority") es ∧
  ∀ s, ∃ s', foldl (λ m e, let! s := m in let! (_, o) := conf_match_item e (Some s) in Ok (default s o)) (Ok s) es = Ok s' ∧
    part excl s' = f (part excl s) ∧ part (negb excl) s' = part (negb excl) s ∧
    sg_name s' = sg_name s ∧ sg_priority s' = sg_priority s ∧ sg_public s' = sg_public s.

Lemma runs_nil excl : runs excl [] id.
Proof. split; [done|]. intros s. by exists s. Qed.
Lemma runs_app excl es es' f g : runs excl es f → runs excl es' g → runs excl (es ++ es') (λ s, g (f s)).
Proof.
  intros [H1 H2] [H3 H4]. split; [by apply Forall_app|]. intros s. destruct (H2 s) as (s1 & E1 & P1 & Q1 & N1 & R1 & T1).
  destruct (H4 s1) as (s2 & E2 & P2 & Q2 & N2 & R2 & T2). exists s2. rewrite foldl_app, E1. split_and!; try done; congruence.
Qed.
Lemma runs_ext excl es f g : runs excl es f → (∀ s, f s = g s) → runs excl es g.
Proof. intros [H1 H2] E. split; [done|]. intros s. destruct (H2 s) as (s' & ? & P & ?). exists s'. by rewrite <-E. Qed.

Lemma printable_keeps cep s : let s' := printable_item cep s in
  sg_include s' = sg_include s ∧ sg_exclude s' = sg_exclude s ∧ sg_name s' = sg_name s ∧ sg_priority s' = sg_priority s ∧ sg_public s' = sg_public s.
Proof.
  unfold printable_item. destruct (ce_items cep) as [|e es]; [done|]. generalize (e :: es) as k. clear e es. intros k. revert s.
  induction k as [|e k IH]; intros s; [done|]. cbn [foldl]. apply (IH (add_printable (ce_name cep) (Some (ce_name e)) s)).
Qed.

Lemma run_item excl name e f : exclude_name (ce_name e) = (excl, name) → ce_name e ∉ [bs "webirc"; bs "public"; bs "priority"] →
  test_match_item e = Ok (true, 0) → (∀ s, conf_criterion l excl name e s = Some (Ok (f s))) → runs excl [e] f.
Proof.
  intros En Hn Ht Hf. split; [by repeat constructor; set_solver|]. intros s. cbn [foldl rbind]. unfold GroupConfig.conf_match_item.
  cbn [rbind]. rewrite bool_decide_false by set_solver. cbn [rbind]. rewrite En, Hf. cbn [rbind]. eexists. split; [done|]. cbn [default from_option id].
  pose proof (printable_keeps e (if excl then set_exclude (f (sg_exclude s)) s else set_include (f (sg_include s)) s)) as (H1 & H2 & H3 & H4 & H5).
  destruct excl; cbn [part negb]; rewrite H1, H2, H3, H4, H5; done.
Qed.

Ltac by_name := intros; lazymatch goal with |- _ = _ => vm_compute; reflexivity | _ => apply (bool_decide_unpack _); vm_compute; exact I end.

Ltac unchanged := eapply runs_ext; [apply runs_nil|]; by intros [].
Ltac flag b := destruct b; [eapply run_item; by_name|unchanged].
Abbreviation yes pre b name := (entry_if b (item (pre ++ bs name) (Some (bs "yes")) [])).
Lemma run_identified excl b : runs excl (yes (prefix_of excl) b "identified") (λ s, set_identified (if b then 1 else cr_identified s) s).
Proof. destruct excl; flag b. Qed.
Lemma run_websocket excl b : runs excl (yes (prefix_of excl) b "websocket") (λ s, set_websocket (if b then 1 else cr_websocket s) s).
Proof. destruct excl; flag b. Qed.
Lemma run_tls excl b : runs excl (yes (prefix_of excl) b "tls") (λ s, set_tls (if b then 1 else cr_tls s) s).
Proof. destruct excl; flag b. Qed.
Lemma run_exclude_webirc b : runs true (yes (bs "exclude-") b "webirc") (λ s, set_webirc (if b then 1 else cr_webirc s) s).
Proof. flag b. Qed.
(** Handled, although the result says that it is not. *)
Lemma run_webirc b : findmod_by_bantype_raw l (bs "webirc") = None →
  runs false (yes (prefix_of false) b "webirc") (λ s, set_webirc (if b then 1 else cr_webirc s) s).
Proof.
  intros Hw. destruct b; [|unchanged]. split; [repeat constructor; by_name|]. intros s. eexists. split.
  - cbn [foldl entry_if prefix_of app rbind]. unfold GroupConfig.conf_match_item. cbn [rbind].
    change (exclude_name (ce_name (item (bs "webirc") (Some (bs "yes")) []))) with (false, bs "webirc"). cbv iota.
    change (conf_criterion l false (bs "webirc") (item (bs "webirc") (Some (bs "yes")) [])) with
      (λ s, match findmod_by_bantype_raw l (bs "webirc") with
            | Some _ => Some (Ok (set_extended (unreal_add_name_values (cr_extended s) (bs "webirc") (item (bs "webirc") (Some (bs "yes")) [])) s))
            | None => None end).
    rewrite Hw. vm_compute. reflexivity.
  - done.
Qed.

Lemma less_sign_text (less : bool) c t : c ≠ 60 → less_sign ((if less then bs "<" else []) ++ c :: t) = (less, c :: t).
Proof. intros Hc. destruct less; [done|]. cbn. by destruct (Z.eqb_spec c 60). Qed.

Lemma printed_number n : 0 ≤ n < 2 ^ 31 → ∃ c t, printf_d 0 n = c :: t ∧ c ≠ 60 ∧ atoi (printf_d 0 n) = n.
Proof.
  intros Hn. destruct (unit_number n Hn) as (w & -> & Hw & Hb). pose proof (digits_n_digits w n) as Hd. pose proof (digits_n_length w n) as Hl.
  rewrite (atoi_digits w n Hw Hb ltac:(lia)). destruct Hd as [|c t Hc _]; [cbn in Hl; lia|]. exists c, t. split_and!; [done|lia|done].
Qed.
Lemma time_text n : 0 < n < 2 ^ 31 → ∃ c t, pretty_time_val n = c :: t ∧ c ≠ 60 ∧ config_checkval (Some (pretty_time_val n)) CFG_TIME = Ok n.
Proof.
  intros Hn. pose proof (proj2 config_times_correct n ltac:(lia)) as E. destruct (pretty_time_val n) as [|c t] eqn:Et; [cbn in E; injection E; lia|].
  exists c, t. split_and!; [done| |done]. rewrite pretty_time_text in Et by lia.
  assert (Forall (unit_ok time_factor) (nonzero (time_units n))) as Hok.
  { apply Forall_forall. intros u [_ Hin]%list_elem_of_filter. by apply (proj1 (Forall_forall _ _) (time_units_ok n ltac:(lia))). }
  destruct Hok as [|u us Hu _]; [done|]. destruct (unit_first time_factor u Hu) as (d & r & Eu & Hd). cbn [flat_map] in Et. rewrite Eu in Et.
  injection Et as <- _. lia.
Qed.

Lemma run_reputation excl o : (∀ less n, o = Some (less, n) → 1 ≤ n ≤ 10000) →
  runs excl (score_entry (prefix_of excl ++ bs "reputation-score") (printf_d 0) o) (λ s, set_reputation (match o with Some _ => score_of o | None => cr_reputation_score s end) s).
Proof.
  intros Ho. destruct o as [[less n]|]; [|unchanged]. specialize (Ho less n eq_refl). cbn [score_entry].
  destruct (printed_number n ltac:(lia)) as (c & t & E & Hc & Ha). rewrite E in *.
  assert ((n <? 1) || (10000 <? n) = false) as Hr by lia. apply (run_item excl (bs "reputation-score")).
  - destruct excl; by_name.
  - destruct excl; by_name.
  - transitivity (let! e := Ok (if (atoi (less_sign ((if less then bs "<" else []) ++ c :: t)).2 <? 1) || (10000 <? atoi (less_sign ((if less then bs "<" else []) ++ c :: t)).2) then 1 else 0) in Ok (true, e)).
    { destruct excl, less; reflexivity. }
    rewrite less_sign_text by done. cbn [snd]. by rewrite Ha, Hr.
  - intros s. transitivity (Some (let! n := Ok (atoi (less_sign ((if less then bs "<" else []) ++ c :: t)).2) in
      Ok (set_reputation (if (less_sign ((if less then bs "<" else []) ++ c :: t)).1 then 0 - n else n) s))); [destruct excl; reflexivity|].
    rewrite less_sign_text by done. cbn [snd fst rbind]. by rewrite Ha.
Qed.
Lemma run_connect o : (∀ less n, o = Some (less, n) → 1 ≤ n < 2 ^ 31) →
  runs false (score_entry (prefix_of false ++ bs "connect-time") pretty_time_val o) (λ s, set_connect (match o with Some _ => score_of o | None => cr_connect_time s end) s).
Proof.
  intros Ho. destruct o as [[less n]|]; [|unchanged]. specialize (Ho less n eq_refl). cbn [score_entry].
  destruct (time_text n ltac:(lia)) as (c & t & E & Hc & Ha). rewrite E in *.
  assert (n <? 1 = false) as Hr by lia. apply (run_item false (bs "connect-time")).
  - by_name.
  - by_name.
  - transitivity (let! e := (let! v := config_checkval (Some (less_sign ((if less then bs "<" else []) ++ c :: t)).2) CFG_TIME in Ok (if v <? 1 then 1 else 0)) in Ok (true, e)).
    { destruct less; reflexivity. }
    rewrite less_sign_text by done. cbn [snd]. by rewrite Ha; cbn [rbind]; rewrite Hr.
  - intros s. transitivity (Some (let! n := config_checkval (Some (less_sign ((if less then bs "<" else []) ++ c :: t)).2) CFG_TIME in
      Ok (set_connect (if (less_sign ((if less then bs "<" else []) ++ c :: t)).1 then 0 - n else n) s))); [reflexivity|].
    rewrite less_sign_text by done. cbn [snd fst]. by rewrite Ha.
Qed.
(** With exclude- the item is accepted and not handled. *)
Lemma run_exclude_connect o : findmod_by_bantype_raw l (bs "connect-time") = None → (∀ less n, o = Some (less, n) → 1 ≤ n < 2 ^ 31) →
  runs true (score_entry (prefix_of true ++ bs "connect-time") pretty_time_val o) id.
Proof.
  intros Hl Ho. destruct o as [[less n]|]; [|apply runs_nil]. specialize (Ho less n eq_refl). cbn [score_entry].
  destruct (time_text n ltac:(lia)) as (c & t & E & Hc & Ha). rewrite E in *. assert (n <? 1 = false) as Hr by lia.
  split; [constructor; [split_and!; [|by_name..]|done]|].
  - transitivity (let! e := (let! v := config_checkval (Some (less_sign ((if less then bs "<" else []) ++ c :: t)).2) CFG_TIME in Ok (if v <? 1 then 1 else 0)) in Ok (true, e)).
    { destruct less; reflexivity. }
    rewrite less_sign_text by done. cbn [snd]. by rewrite Ha; cbn [rbind]; rewrite Hr.
  - intros s. exists s. cbn [foldl rbind]. unfold GroupConfig.conf_match_item. cbn [rbind]. rewrite bool_decide_false by by_name. cbn [rbind].
    cbn [ce_name item]. set (e := item _ _ _).
    change (exclude_name (prefix_of true ++ bs "connect-time")) with (true, bs "connect-time"). cbv iota.
    change (conf_criterion l true (bs "connect-time") e (sg_exclude s)) with
      (match findmod_by_bantype_raw l (bs "connect-time") with
       | Some _ => Some (Ok (set_extended (unreal_add_name_values (cr_extended (sg_exclude s)) (bs "connect-time") e) (sg_exclude s)))
       | None => None end).
    by rewrite Hl.
Qed.
Lemma foldl_cons {A B} (f : A → B) (es : list A) h : foldl (λ h e, f e :: h) h es = rev (map f es) ++ h.
Proof. revert h. induction es as [|e es IH]; intros h; [done|]. cbn [foldl map rev]. by rewrite IH, <-app_assoc. Qed.
Lemma add_block (es : list (list Z)) h : foldl (λ h cep, value_or_name cep :: h) h (map (λ x, item x None []) es) = rev es ++ h.
Proof. rewrite foldl_cons, map_map. unfold value_or_name. cbn. by rewrite map_id. Qed.

(** Lists of names. *)
Ltac by_list excl es name :=
  destruct es as [|x es]; [eapply runs_ext; [apply runs_nil|]; by intros []|]; cbn [list_entry]; apply (run_item excl name);
    [destruct excl; by_name|destruct excl; by_name|destruct excl; reflexivity|];
    intros s; rewrite <-add_block; destruct excl; reflexivity.
Lemma run_ip excl es : runs excl (list_entry (prefix_of excl ++ bs "ip") es) (λ s, set_ip (rev es ++ cr_ip s) s).
Proof. by_list excl es (bs "ip"). Qed.
Lemma run_server_port excl es : runs excl (list_entry (prefix_of excl ++ bs "server-port") es) (λ s, set_server_port (rev es ++ cr_server_port s) s).
Proof. by_list excl es (bs "server-port"). Qed.
Lemma run_security_group excl es : runs excl (list_entry (prefix_of excl ++ bs "security-group") es) (λ s, set_security_group (rev es ++ cr_security_group s) s).
Proof. by_list excl es (bs "security-group"). Qed.
Lemma run_destination excl es : runs excl (list_entry (prefix_of excl ++ bs "destination") es) (λ s, set_destination (rev es ++ cr_destination s) s).
Proof. by_list excl es (bs "destination"). Qed.
Lemma run_mask excl es :
  runs excl (list_entry (prefix_of excl ++ bs "mask") es) (λ s, set_mask (rev es ++ cr_mask s) s).
Proof.
  destruct es as [|x es]; [unchanged|]. cbn [list_entry].
  apply (run_item excl (bs "mask")); [destruct excl; by_name|destruct excl; by_name| |].
  - transitivity (Ok (true, Z.of_nat (length (filter (λ cepp, ce_name cepp ≠ bs "mask" ∧ (ce_items cepp ≠ [] ∨ is_Some (ce_value cepp)))
      (map (λ x, item x None []) (x :: es)))))); [destruct excl; reflexivity|].
    assert (filter (λ cepp, ce_name cepp ≠ bs "mask" ∧ (ce_items cepp ≠ [] ∨ is_Some (ce_value cepp))) (map (λ x, item x None []) (x :: es)) = []) as ->; [|done].
    generalize (x :: es) as k. intros k. induction k as [|y k IH]; [done|]. cbn [map]. rewrite filter_cons_False; [done|].
    intros [_ [H|H]]; [done|]. by apply is_Some_None in H.
  - intros s. rewrite <-add_block. destruct excl; reflexivity.
Qed.
Lemma run_rule excl o : (∀ e, o = Some e → wf e) →
  runs excl (match o with Some e => [item (prefix_of excl ++ bs "rule") (Some (text e)) []] | None => [] end)
    (λ s, set_rule (match o with Some e => Some (text e) | None => cr_prettyrule s end)
      (match o with Some e => Some (tree e) | None => cr_rule s end) s).
Proof.
  intros Ho. destruct o as [e|]; [|unchanged]. destruct (parse_of_text e (Ho e eq_refl)) as [E1 E2]. apply (run_item excl (bs "rule")).
  - destruct excl; by_name.
  - destruct excl; by_name.
  - transitivity (let! val := crule_test (text e) in Ok (true, if val =? 0 then 0 else 1)); [destruct excl; reflexivity|]. by rewrite E2.
  - intros s. transitivity (Some (let! r := crule_parse (text e) in Ok (set_rule (Some (text e)) r s))); [destruct excl; reflexivity|]. by rewrite E1.
Qed.
(** A property of the client: the name is none of those above. *)
Definition own_names : list string :=
  ["webirc"; "websocket"; "identified"; "tls"; "reputation-score"; "connect-time"; "mask"; "include-mask"; "ip"; "server-port";
   "security-group"; "destination"; "rule"; "public"; "priority"].
Ltac own := apply (bool_decide_unpack _); vm_compute; exact I.
Lemma not_own name s : name ∉ map bs own_names → s ∈ own_names → bool_decide (name = bs s) = false.
Proof. intros Hn Hs. apply bool_decide_eq_false_2. intros ->. apply Hn. rewrite list_elem_of_In. apply in_map. by apply list_elem_of_In. Qed.

Lemma ext_test excl name cep e v : exclude_name (ce_name cep) = (excl, name) → name ∉ map bs own_names →
  findmod_by_bantype_raw l name = Some e → tkl_ban e = true → ce_value cep = Some v → ce_items cep = [] →
  test_extended_value named_extended_bans chantypes allowed other_conv l e v = Ok true → test_match_item cep = Ok (true, 0).
Proof.
  intros En Hn Hf Ht Hv Hi Hval. unfold GroupConfig.test_match_item. rewrite En. cbv zeta.
  rewrite !(not_own name) by (done || own). rewrite andb_false_r, Hf, Ht. cbn [orb].
  unfold test_extended_list. by rewrite Hv, Hval, Hi.
Qed.
Lemma ext_conf excl name cep e v s : name ∉ map bs own_names → findmod_by_bantype_raw l name = Some e → ce_value cep = Some v → ce_items cep = [] →
  conf_criterion l excl name cep s = Some (Ok (set_extended (add_nvplist (cr_extended s) 0 name (Some v)) s)).
Proof.
  intros Hn Hf Hv Hi. unfold conf_criterion. cbv zeta. rewrite !(not_own name) by (done || own).
  rewrite !andb_false_r, Hf. cbn [orb]. unfold unreal_add_name_values. by rewrite Hi, Hv.
Qed.

(** The names and letters of the standard bans. *)
Lemma standard_names e n : e ∈ standard → let name := if n : bool then e_name e else [e_letter e] in
  name ∉ map bs own_names ∧ ∀ excl, exclude_name (prefix_of excl ++ name) = (excl, name) ∧
    prefix_of excl ++ name ∉ [bs "webirc"; bs "public"; bs "priority"].
Proof.
  intros He. assert (Forall (λ e, Forall (λ m, m ∉ map bs own_names ∧
      (exclude_name (prefix_of true ++ m) = (true, m) ∧ prefix_of true ++ m ∉ [bs "webirc"; bs "public"; bs "priority"]) ∧
      exclude_name (prefix_of false ++ m) = (false, m) ∧ prefix_of false ++ m ∉ [bs "webirc"; bs "public"; bs "priority"])
    [e_name e; [e_letter e]]) standard) as Hall by (apply (bool_decide_unpack _); vm_compute; exact I).
  apply (proj1 (Forall_forall _ _) Hall) in He. apply Forall_cons in He as [H1 [H2 _]%Forall_cons].
  destruct n; (split; [tauto|]); intros []; tauto.
Qed.

Lemma run_extended_one excl x : ext_writable x →
  runs excl [item (prefix_of excl ++ nv_name (ext_entry x)) (Some (matcher_arg x.2)) []]
    (λ s, set_extended (add_nvplist (cr_extended s) 0 (nv_name (ext_entry x)) (nv_value (ext_entry x))) s).
Proof using Hstd.
  intros [Hne Hv]. destruct x as [n x]. cbn [snd ext_entry nv_name nv_value fst] in *.
  destruct (matcher_entry x) as (e & He & Hx & Hev & Hf & Ho). destruct (Hstd e He) as [H1 H2]. rewrite Hx in *. cbn [fst snd] in *.
  destruct (standard_names e n He) as [Hown Hex]. destruct (Hex excl) as [Hx1 Hx2]. set (name := if n then e_name e else [e_letter e]) in *.
  assert (findmod_by_bantype_raw l name = Some e) as Hn by by destruct n.
  apply (run_item excl name); [done|done| |].
  - eapply ext_test; try done; [|by apply Hv]. unfold tkl_ban. by rewrite Ho, Hev.
  - intros s. by eapply ext_conf.
Qed.
Lemma run_extended excl xs : Forall ext_writable xs →
  runs excl (map (λ x, item (prefix_of excl ++ nv_name (ext_entry x)) (Some (matcher_arg x.2)) []) xs)
    (λ s, set_extended (foldl (λ k x, add_nvplist k 0 (nv_name (ext_entry x)) (nv_value (ext_entry x))) (cr_extended s) xs) s).
Proof using Hstd.
  induction 1 as [|x xs Hx Hxs IH]; [eapply runs_ext; [apply runs_nil|by intros []]|]. cbn [map foldl].
  change (?a :: ?b) with ([a] ++ b). eapply runs_ext; [apply (runs_app _ _ _ _ _ (run_extended_one excl x Hx) IH)|]. done.
Qed.
Lemma extended_order xs : Forall ext_writable xs →
  foldl (λ k x, add_nvplist k 0 (nv_name (ext_entry x)) (nv_value (ext_entry x))) [] xs = rev (map ext_entry xs).
Proof.
  induction xs as [|x xs IH] using rev_ind; [done|]. intros [Hxs Hx]%Forall_app. rewrite foldl_app, map_app, rev_app_distr, IH by done.
  cbn [foldl map rev app]. destruct (Forall_inv Hx) as [Hne _]. unfold add_nvplist, insert_prio.
  change (ext_entry x) with (NVP 0 (nv_name (ext_entry x)) (Some (matcher_arg x.2))). cbn [nv_value nv_name nv_priority]. generalize (nv_name (ext_entry x)) as name. intros name.
  destruct (matcher_arg x.2) as [|z r]; [done|]. destruct (rev (map ext_entry xs)) as [|y k] eqn:E; [done|].
  assert (nv_priority y = 0) as Hy.
  { assert (y ∈ rev (map ext_entry xs)) as Hin by (rewrite E; by left). apply list_elem_of_In, in_rev, in_map_iff in Hin as (w & <- & _). done. }
  cbn [take_while drop_while nv_priority]. rewrite Hy. done.
Qed.
(** All items of a group. *)
Lemma run_entries excl sp : writable sp → findmod_by_bantype_raw l (bs "webirc") = None → findmod_by_bantype_raw l (bs "connect-time") = None →
  ∃ f, runs excl (entries_of (prefix_of excl) sp) f ∧ f no_criteria = criteria_of (kept excl sp).
Proof using Hstd.
  intros [H1 H2 H3 H4] Hw Ht. eexists. split; [unfold entries_of|].
  - apply runs_app; [apply run_identified|]. apply runs_app; [by apply run_reputation|]. apply runs_app.
    { instantiate (1 := λ s, set_connect (match sp_connect (kept excl sp) with Some _ => score_of (sp_connect (kept excl sp)) | None => cr_connect_time s end) s).
      destruct excl; [|by apply run_connect]. eapply runs_ext; [by apply run_exclude_connect|]. by intros []. }
    apply runs_app; [instantiate (1 := λ s, set_webirc (if sp_webirc sp then 1 else cr_webirc s) s); destruct excl; [apply run_exclude_webirc|by apply run_webirc]|].
    apply runs_app; [apply run_websocket|]. apply runs_app; [apply run_tls|]. apply runs_app; [apply run_ip|]. apply runs_app; [apply run_mask|].
    apply runs_app; [apply run_server_port|]. apply runs_app; [apply run_security_group|]. apply runs_app; [by apply run_rule|].
    apply runs_app; [apply run_destination|]. by apply run_extended.
  - unfold criteria_of. cbn [kept sp_identified sp_reputation sp_connect sp_webirc sp_websocket sp_tls sp_ips sp_masks sp_ports sp_groups sp_rule
      sp_destinations sp_extended]. set (sc := if excl then None else sp_connect sp). rewrite <-extended_order by done.
    transitivity (Criteria (Z.b2z (sp_identified sp)) (match sp_reputation sp with Some _ => score_of (sp_reputation sp) | None => 0 end)
      (match sc with Some _ => score_of sc | None => 0 end) (Z.b2z (sp_webirc sp)) (Z.b2z (sp_websocket sp))
      (Z.b2z (sp_tls sp)) (rev (map host_text (sp_ips sp)) ++ []) (rev (map mask_entry (sp_masks sp)) ++ [])
      (rev (map port_text (sp_ports sp)) ++ []) (rev (sp_groups sp) ++ []) (text <$> sp_rule sp) (tree <$> sp_rule sp)
      (rev (sp_destinations sp) ++ [])
      (foldl (λ k x, add_nvplist k 0 (nv_name (ext_entry x)) (nv_value (ext_entry x))) [] (sp_extended sp))); [reflexivity|].
    rewrite !app_nil_r. f_equal; first [by destruct (sp_identified sp)|by destruct (sp_reputation sp)|by destruct sc|by destruct (sp_webirc sp)|
      by destruct (sp_websocket sp)|by destruct (sp_tls sp)|by destruct (sp_rule sp)].
Qed.

(** *** In the list of groups *)

Lemma conf_item_name e s h o : conf_match_item e (Some s) = Ok (h, o) → ∃ s', o = Some s' ∧ sg_name s' = sg_name s.
Proof.
  unfold GroupConfig.conf_match_item. cbn [rbind].
  assert (∀ (s1 : SecurityGroup), sg_name s1 = sg_name s → (let '(excl, name) := exclude_name (ce_name e) in
      match conf_criterion l excl name e (if excl then sg_exclude s1 else sg_include s1) with
      | None => Ok (false, Some s1)
      | Some m => let! cr := m in Ok (true, Some (printable_item e (if excl then set_exclude cr s1 else set_include cr s1)))
      end) = Ok (h, o) → ∃ s', o = Some s' ∧ sg_name s' = sg_name s) as Hrest.
  { intros s1 Hs1. destruct (exclude_name (ce_name e)) as [excl name]. destruct (conf_criterion _ _ _ _ _) as [m|].
    - destruct m as [cr| |]; cbn [rbind]; [|done..]. intros [= _ <-]. eexists. split; [done|].
      destruct (printable_keeps e (if excl then set_exclude cr s1 else set_include cr s1)) as (_ & _ & -> & _). by destruct excl.
    - intros [= _ <-]. by eexists. }
  case_bool_decide; cbn [rbind]; [|by apply Hrest]. destruct (config_checkval _ _) as [v| |]; cbn [rbind]; [|done..]. by apply Hrest.
Qed.

Abbreviation conf_items := (foldl (λ m e, let! s := m in let! (_, o) := conf_match_item e (Some s) in Ok (default s o))).
Lemma conf_items_stuck es m : (∀ s, m ≠ Ok s) → ∀ s, conf_items m es ≠ Ok s.
Proof. revert m. induction es as [|e es IH]; intros m Hm; [done|]. apply IH. destruct m; [by destruct (Hm a)|done..]. Qed.

Lemma get_put s k nm : get_group nm k ≠ None → sg_name s = nm → get_group nm (put_group s k) = Some s.
Proof.
  intros Hk <-. induction k as [|y k IH]; [done|]. unfold get_group in *. cbn [put_group map list_find] in *.
  case_bool_decide as E; [by rewrite decide_True|]. rewrite decide_False in Hk by done. rewrite decide_False by done.
  destruct (list_find _ k) as [[i x]|]; [|done]. specialize (IH ltac:(done)). unfold put_group in IH.
  destruct (list_find _ (map _ k)) as [[j z]|]; [exact IH|done].
Qed.
Lemma put_put s s' k : sg_name s = sg_name s' → put_group s' (put_group s k) = put_group s' k.
Proof.
  intros E. unfold put_group. rewrite map_map. apply map_ext. intros y. rewrite E.
  destruct (bool_decide_reflect (sg_name y = sg_name s')) as [H|H]; [by rewrite bool_decide_true by done|by rewrite bool_decide_false].
Qed.

Lemma group_items es nm k s s' : Forall (λ e, ce_name e ≠ bs "public" ∧ ce_name e ≠ bs "priority") es → sg_name s = nm →
  get_group nm k = Some s → put_group s k = k → conf_items (Ok s) es = Ok s' → conf_group_items nm es k = Ok (put_group s' k) ∧ sg_name s' = nm.
Proof.
  intros Hes. revert k s. induction Hes as [|e es [He1 He2] Hes IH]; intros k s Hn Hg Hp E.
  - injection E as <-. cbn. by rewrite Hp.
  - cbn [foldl rbind] in E. cbn [GroupConfig.conf_group_items]. rewrite Hg, !bool_decide_false by done.
    destruct (conf_match_item e (Some s)) as [[h o]| |] eqn:Ei; cbn [rbind] in *; [|exfalso; refine (conf_items_stuck es _ _ _ E); done..].
    destruct (conf_item_name e s h o Ei) as (s1 & -> & Hs1). cbn [default from_option id] in *.
    destruct (IH (put_group s1 k) s1) as [-> Hs']; [congruence|apply get_put; congruence|by apply put_put|done|]. rewrite put_put by congruence. done.
Qed.
Lemma test_entries es : Forall (λ e, test_match_item e = Ok (true, 0) ∧ ce_name e ≠ bs "public" ∧ ce_name e ≠ bs "priority") es →
  test_group_items es = Ok 0.
Proof.
  intros Hes. induction Hes as [|e es (Ht & H1 & H2) Hes IH]; [done|]. cbn [GroupConfig.test_group_items].
  rewrite !bool_decide_false by done. cbn [orb]. rewrite Ht. cbn [rbind]. by rewrite IH.
Qed.

(** The block of a group. *)
Definition group_entry (g : gspec) : ConfigEntry :=
  item (bs "security-group") (Some (g_name g)) (entries_of (bs "exclude-") (g_exclude g) ++ entries_of [] (g_include g)).

Lemma insert_new s groups : sg_name s ∉ map sg_name groups → ∀ s', sg_name s' = sg_name s → sg_priority s' = sg_priority s →
  get_group (sg_name s) (insert_group s groups) = Some s ∧ put_group s' (insert_group s groups) = insert_group s' groups.
Proof.
  intros Hn s' En Ep. unfold insert_group. rewrite Ep.
  rewrite <-(take_drop_while (λ y, sg_priority y <? sg_priority s) groups), map_app, not_elem_of_app in Hn. destruct Hn as [Ha Hb].
  set (a := take_while _ groups) in *. set (b := drop_while _ groups) in *. clearbody a b.
  assert (∀ k, sg_name s ∉ map sg_name k → put_group s' k = k) as Hput.
  { unfold put_group. rewrite En. induction k as [|y k IH]; [done|]. cbn [map]. rewrite not_elem_of_cons. intros [H1 H2].
    rewrite bool_decide_false by congruence. f_equal. by apply IH. }
  split.
  - unfold get_group. induction a as [|y a IH]; cbn [app list_find]; [by rewrite decide_True|]. cbn [map] in Ha. apply not_elem_of_cons in Ha as [H1 H2].
    rewrite decide_False by congruence. specialize (IH H2). by destruct (list_find _ (a ++ s :: b)) as [[? ?]|].
  - unfold put_group. rewrite map_app. cbn [map]. rewrite bool_decide_true by done. f_equal; [by apply Hput|]. f_equal. by apply Hput.
Qed.
Lemma unknown_group g groups : cstr (g_name g) → find_security_group groups (g_name g) = None → g_name g ∉ map sg_name groups.
Proof.
  intros Hn Hf (s & En & Hs)%list_elem_of_fmap. unfold find_security_group in Hf.
  destruct (list_find_elem_of (λ s, strcasecmp (g_name g) (sg_name s) = 0) groups s Hs) as [x Hx]; [|by rewrite Hx in Hf].
  rewrite <-En, strcasecmp_cmpz by done. apply cmpz_refl.
Qed.
End Written.

(** C18.  A group written down.  The block of a group with a valid name, not unknown-users, that is not yet in use, with its items
    and the same for what excludes, passes the test and makes exactly this group: a new entry of the list,
    behind the groups of lower priority than 1, with every criterion kept as it was meant, except
    exclude-connect-time, which is accepted and then dropped.  For scores from 1 to 10000, times
    from one second to 2^31 - 1, rules of the language, and extended bans with values that the ban accepts,
    where none of the extended bans is named webirc or connect-time and the four standard ones are loaded. *)
Theorem group_block_correct named chantypes allowed other_conv l g groups :
  (∀ e, e ∈ standard → findmod_by_bantype_raw l [e_letter e] = Some e ∧ findmod_by_bantype_raw l (e_name e) = Some e) →
  findmod_by_bantype_raw l (bs "webirc") = None → findmod_by_bantype_raw l (bs "connect-time") = None →
  security_group_valid_name (g_name g) = true → cstr (g_name g) → strcasecmp (g_name g) (bs "unknown-users") ≠ 0 →
  writable named chantypes allowed other_conv l (g_exclude g) → writable named chantypes allowed other_conv l (g_include g) →
  find_security_group groups (g_name g) = None →
  test_security_group named chantypes allowed other_conv l (group_entry g) = Ok 0 ∧
  ∃ s, conf_security_group named chantypes allowed other_conv l (group_entry g) groups = Ok (insert_group s groups) ∧
    reads (GSpec (g_name g) (kept true (g_exclude g)) (kept false (g_include g))) s ∧ sg_priority s = 1 ∧ sg_public s = 0.
Proof.
  intros Hstd Hw Ht Hv Hn Hu Hx Hi Hf.
  destruct (run_entries named chantypes allowed other_conv l Hstd true _ Hx Hw Ht) as (f & [Tx Rx] & Fx).
  destruct (run_entries named chantypes allowed other_conv l Hstd false _ Hi Hw Ht) as (f' & [Ti Ri] & Fi).
  split.
  - unfold test_security_group. cbn [group_entry item ce_value ce_items]. destruct (Z.eqb_spec (strcasecmp (g_name g) (bs "unknown-users")) 0); [done|].
    rewrite (test_entries named chantypes allowed other_conv l) by (apply Forall_app; split; [exact Tx|exact Ti]). cbn [rbind]. by rewrite Hv.
  - unfold conf_security_group. cbn [group_entry item ce_value ce_items]. unfold add_security_group. rewrite Hf.
    assert ((Strl.strlcpy [] (g_name g) (SECURITYGROUPLEN + 1)).1 = g_name g) as ->.
    { apply strlcpy_fits. apply andb_true_iff in Hv as [Hv _]. apply Nat.leb_le in Hv. lia. }
    set (s0 := set_priority 1 _). destruct (Rx s0) as (s1 & E1 & P1 & Q1 & N1 & R1 & U1). destruct (Ri s1) as (s2 & E2 & P2 & Q2 & N2 & R2 & U2).
    pose proof (unknown_group g groups Hn Hf) as Hnew.
    destruct (insert_new s0 groups Hnew s0 eq_refl eq_refl) as [Hg Hp].
    destruct (group_items named chantypes allowed other_conv l (entries_of (bs "exclude-") (g_exclude g) ++ entries_of [] (g_include g)) (g_name g)
      (insert_group s0 groups) s0 s2) as [-> _]; [|done|done|done| |].
    + apply Forall_app. split; [eapply Forall_impl; [exact Tx|]|eapply Forall_impl; [exact Ti|]]; intros e (_ & He); exact He.
    + rewrite foldl_app. cbn [prefix_of] in E1, E2. by rewrite E1.
    + exists s2. destruct (insert_new s0 groups Hnew s2) as [_ ->]; [congruence..|]. split; [done|]. unfold reads. cbn [part negb g_name g_include g_exclude] in *.
      split_and!; [by rewrite N2, N1|by rewrite P2, Q1, <-Fi|by rewrite Q2, P1, <-Fx|by rewrite R2, R1|by rewrite U2, U1].
Qed.

Definition demo_group : gspec :=
  GSpec (bs "vip") (Spec false (Some (true, 5)) (Some (false, 60)) true false false [] [] [] [bs "unknown-users"] None [] [(true, MAccount (bs "Jim"))])
    (Spec true None (Some (false, 3600)) false false true [HAddr (bs "192.0.2.64") [192; 0; 2; 64] (Some 29%nat)]
       [(false, TMask (MUserHost (bs "joe") (HWild (bs "*.example.org"))))] [6697] []
       (Some (EAnd (EFunc (bs "in_security_group") [bs "staff"] None) (ENot (EFunc (bs "is_oper") [] None)))) [bs "#ops"]
       [(false, MRealname (bs "Joe*"))]).

Lemma group_block_witness :
  map ce_name (ce_items (group_entry demo_group)) =
    map bs ["exclude-reputation-score"; "exclude-connect-time"; "exclude-webirc"; "exclude-security-group"; "exclude-account"; "identified"; "connect-time"; "tls"; "ip";
            "mask"; "server-port"; "rule"; "destination"; "r"] ∧
  test_security_group true None ALLOWED_CHANNELCHARS_ANY (λ _ _, NoFuel) standard (group_entry demo_group) = Ok 0 ∧
  ∃ s, conf_security_group true None ALLOWED_CHANNELCHARS_ANY (λ _ _, NoFuel) standard (group_entry demo_group)
      (set_security_group_defaults).1 = Ok (s :: (set_security_group_defaults).1) ∧ sg_include s = criteria_of (g_include demo_group) ∧ cr_connect_time (sg_exclude s) = 0.
Proof.
  split; [vm_compute; reflexivity|].
  assert (wf (EAnd (EFunc (bs "in_security_group") [bs "staff"] None) (ENot (EFunc (bs "is_oper") [] None)))) as Hwf.
  { cbn [wf]. unfold plain, arg_ok. change (CR_MAXARGLEN - 1)%nat with (Z.to_nat 159).
    split_and!; try (apply (bool_decide_unpack _); vm_compute; reflexivity); try (eexists; vm_compute; reflexivity); (done || cbn; lia). }
  destruct (group_block_correct true None ALLOWED_CHANNELCHARS_ANY (λ _ _, NoFuel) standard demo_group (set_security_group_defaults).1)
    as (H1 & s & H2 & (_ & H3 & H5) & H4 & _); [exact standard_found|reflexivity|reflexivity|reflexivity|by apply (bool_decide_unpack _)|done| | |reflexivity|].
  - split; cbn.
    + intros less n [= <- <-]. lia.
    + intros less n [= <- <-]. lia.
    + done.
    + repeat constructor; [done|]. intros e. vm_compute. intros [= <-]. reflexivity.
  - split; cbn.
    + done.
    + intros less n [= <- <-]. lia.
    + by intros e [= <-].
    + repeat constructor; [done|]. intros e. vm_compute. intros [= <-]. reflexivity.
  - split; [exact H1|]. exists s. split; [|split; [exact H3|by rewrite H5]]. rewrite H2. f_equal. unfold insert_group. rewrite H4. vm_compute. reflexivity.
Defined.

(** The test accepts exclude-connect-time, and running it does nothing. *)
Lemma exclude_connect_time_ignored s :
  let e := item (bs "exclude-connect-time") (Some (bs "1h")) [] in
  test_match_item true None ALLOWED_CHANNELCHARS_ANY (λ _ _, NoFuel) standard e = Ok (true, 0) ∧
  conf_match_item true None ALLOWED_CHANNELCHARS_ANY (λ _ _, NoFuel) standard e (Some s) = Ok (false, Some s).
Proof. split; reflexivity. Qed.

(** The item webirc is handled and reported as not handled, so it is missing in what is printed. *)
Lemma webirc_not_printed :
  conf_match_item true None ALLOWED_CHANNELCHARS_ANY (λ _ _, NoFuel) standard (item (bs "webirc") (Some (bs "yes")) []) (Some new_group) =
  Ok (false, Some (set_include (set_webirc 1 no_criteria) new_group)).
Proof. reflexivity. Qed.

(** A copy of the group of known users has no criteria left. *)
Lemma duplicate_loses_flags :
  duplicate_security_group (set_include (set_reputation 25 (set_identified 1 no_criteria)) new_group) = Ok new_group.
Proof. reflexivity. Qed.
