(* ===== verification/UserModes.v ===== *)
(** * User modes (src/api-usermode.c, src/user.c)

    The registry of user modes: a list sorted by letter, a bit of a [long] for
    every mode and a table from letters to modes, with modules that come and go;
    the strings of modes and of changes, server notice masks, and what is sent
    when the modes of a user change. *)

From stdpp Require Import base tactics list numbers strings gmap sorting.
From Stdlib Require Import ZArith Lia.
From S2P Require Import Prelude Chars Support MemberModes Operclass Extbans.

Local Open Scope Z_scope.

Definition UMODETABLESZ : nat := 64.
Definition BUFSIZE : nat := 512.

Inductive moderr := MODERR_NOERROR | MODERR_EXISTS | MODERR_NOSPACE | MODERR_INVALID.
#[global] Instance moderr_eq_dec : EqDecision moderr.
Proof. solve_decision. Defined.

(** The variables that receive the bit of a mode: those of the built-in modes,
    and those of modules. *)
Inductive longvar :=
| UMODE_INVISIBLE | UMODE_OPER | UMODE_REGNICK | UMODE_SERVNOTICE | UMODE_HIDE | UMODE_SECURE
| UMODE_DEAF | UMODE_HIDEOPER | UMODE_SETHOST | UMODE_HIDLE
| LongOf (v : nat).
#[global] Instance longvar_eq_dec : EqDecision longvar.
Proof. solve_decision. Defined.

(** The functions that decide who may set a mode; [AllowOther] are those of
    modules that are not modelled. *)
Inductive allow :=
| umode_allow_all | umode_allow_unset | umode_allow_none | umode_allow_opers | umode_hidle_allow
| umode_allow_unkickable_oper
| AllowOther (f : nat).
#[global] Instance allow_eq_dec : EqDecision allow.
Proof. solve_decision. Defined.

Record Umode := MkUmode {
  um_id : nat;                  (* the address *)
  um_mode : Z;
  um_letter : Z;
  um_name : list Z;
  um_unset_on_deoper : bool;
  um_allowed : option allow;
  um_unloaded : bool;
  um_owner : option nat
}.

(** The global variables of the file, and of every module its user modes and
    its error. *)
Record ureg := UReg {
  usermodes : list Umode;
  umode_letter_to_handler : gmap Z nat;
  umodestring : list Z;
  AllUmodes : Z;
  SendUmodes : Z;
  longs : longvar → Z;
  umode_objects : gmap nat (list nat);
  umode_error : gmap nat moderr;
  next_umode : nat
}.

(** ** What is read of users, and of the configuration *)

Record umuser := UmUser {
  mu_id : nat;
  mu_connect : bool;            (* MyConnect *)
  mu_user : bool;               (* IsUser *)
  mu_server : bool;             (* IsServer *)
  mu_me : bool;                 (* IsMe *)
  mu_uline : bool;              (* IsULine *)
  mu_operlogin : option (list Z);
  mu_operclass : option (list Z);
  mu_direction : nat;
  mu_umodes : Z;
  mu_snomask : option (list Z);
  mu_secure : bool;             (* IsSecure *)
  mu_quarantined : bool;        (* IsQuarantined(client->direction) *)
  mu_joined : Z;
  mu_virthost : list Z;
  mu_cloakedhost : list Z;
  mu_named_modes : bool;        (* the capability draft/named-modes *)
  mu_flood_count : Z;           (* local->flood[FLD_VHOST] *)
  mu_flood_t : Z
}.
Definition MyUser (u : umuser) : bool := mu_connect u && mu_user u.

Definition set_umodes (m : Z) (u : umuser) : umuser :=
  let '(UmUser a b c d e f g h i _ k l m' n o p q r s) := u in UmUser a b c d e f g h i m k l m' n o p q r s.
Definition set_sno (x : option (list Z)) (u : umuser) : umuser :=
  let '(UmUser a b c d e f g h i j _ l m n o p q r s) := u in UmUser a b c d e f g h i j x l m n o p q r s.
Definition set_virthost (x : list Z) (u : umuser) : umuser :=
  let '(UmUser a b c d e f g h i j k l m n _ p q r s) := u in UmUser a b c d e f g h i j k l m n x p q r s.
Definition set_flood (count t : Z) (u : umuser) : umuser :=
  let '(UmUser a b c d e f g h i j k l m n o p q _ _) := u in UmUser a b c d e f g h i j k l m n o p q count t.

Inductive HideIdleTimePolicy :=
| HIDE_IDLE_TIME_NEVER | HIDE_IDLE_TIME_ALWAYS | HIDE_IDLE_TIME_USERMODE | HIDE_IDLE_TIME_OPER_USERMODE.
#[global] Instance HideIdleTimePolicy_eq_dec : EqDecision HideIdleTimePolicy.
Proof. solve_decision. Defined.
Inductive UHAllowed := UHALLOW_ALWAYS | UHALLOW_NOCHANS | UHALLOW_REJOIN | UHALLOW_NEVER.

(** Settings, other servers, time, and the functions of other modules. *)
Record uconf := UConf {
  cf_opers : opconf;
  hide_idle_time : HideIdleTimePolicy;
  userhost_allowed : UHAllowed;
  restrict_usermodes : umuser → option (list Z);  (* get_setting_for_user_string *)
  vhost_flood : umuser → Z * Z;                   (* get_floodsettings_for_user: limit and period *)
  timeofday : Z;
  snomasks_in_use : list Z;
  server_list : list nat;
  other_allow : nat → umuser → mode_what → bool
}.

(** What happens besides the changes of the state, and to which client. *)
Inductive uevent :=
| SendUMODE2 (server : nat) (modes : list Z)
| SendMODE (modes : list Z)
| SendPROP (items : list Z)
| SendSETHOST (host : list Z)      (* to servers with PROTO_VHP *)
| SendKILL                         (* to all servers *)
| Numeric (name : list Z) (arg : list Z)
| Notice (text : list Z)
| UserhostSave | UserhostChanged
| SwhoisDelete (tag : list Z)
| HookLocalOper | HookUmodeChange (old new : Z)
| FloodBlocked
| OperListDel.                     (* list_del(&client->special_node) *)

(** ** The registry *)

Definition has_letter (um : Umode) : bool := negb (um_letter um =? 0).

Definition set_letter_handlers (l : list Umode) (h : gmap Z nat) : gmap Z nat :=
  foldl (λ h um, if has_letter um && negb (um_unloaded um) then <[um_letter um := um_id um]> h else h) h l.

Definition umode_letters (l : list Umode) : list Z := map um_letter (base.filter (λ um, has_letter um) l).

Definition make_umodestr (r : ureg) : res ureg :=
  let s := umode_letters (usermodes r) in
  let! _ := require (length s <=? UMODETABLESZ)%nat in
  Ok (UReg (usermodes r) (set_letter_handlers (usermodes r) (umode_letter_to_handler r)) s
        (AllUmodes r) (SendUmodes r) (longs r) (umode_objects r) (umode_error r) (next_umode r)).

(** A mode without letter on the list ends the server. *)
Fixpoint usermode_insert (n : Umode) (l : list Umode) : res (list Umode) :=
  match l with
  | [] => Ok [n]
  | m :: rest =>
      if um_letter m =? 0 then UB
      else if sort_character_lowercase_before_uppercase (um_letter n) (um_letter m) then Ok (n :: l)
      else let! rest := usermode_insert n rest in Ok (m :: rest)
  end.

Definition with_modes (l : list Umode) (r : ureg) : ureg :=
  UReg l (umode_letter_to_handler r) (umodestring r) (AllUmodes r) (SendUmodes r) (longs r)
    (umode_objects r) (umode_error r) (next_umode r).
Definition with_handlers (h : gmap Z nat) (r : ureg) : ureg :=
  UReg (usermodes r) h (umodestring r) (AllUmodes r) (SendUmodes r) (longs r)
    (umode_objects r) (umode_error r) (next_umode r).
Definition with_objects (o : gmap nat (list nat)) (r : ureg) : ureg :=
  UReg (usermodes r) (umode_letter_to_handler r) (umodestring r) (AllUmodes r) (SendUmodes r) (longs r)
    o (umode_error r) (next_umode r).
Definition with_error (module : option nat) (x : moderr) (r : ureg) : ureg :=
  match module with
  | None => r
  | Some m => UReg (usermodes r) (umode_letter_to_handler r) (umodestring r) (AllUmodes r) (SendUmodes r) (longs r)
                (umode_objects r) (<[m := x]> (umode_error r)) (next_umode r)
  end.

Definition usermode_add_sorted (n : Umode) (r : ureg) : res ureg :=
  let! l := usermode_insert n (usermodes r) in
  Ok (with_handlers (<[um_letter n := um_id n]> (umode_letter_to_handler r)) (with_modes l r)).

(** The first bit from 1 to 2^61 that no mode has. *)
Definition UMODE_BITS : nat := 62.
Definition free_bit (l : list Umode) : option Z :=
  find (λ b, negb (existsb (λ um, um_mode um =? b) l)) (map (λ k, 2 ^ Z.of_nat k) (seq 0 UMODE_BITS)).

Definition umode_taken (ch : Z) (name : list Z) (um : Umode) : bool :=
  (negb (ch =? 0) && (um_letter um =? ch)) || bool_decide (um_name um = name).

Definition update_umode (id : nat) (f : Umode → Umode) (l : list Umode) : list Umode :=
  map (λ um, if (um_id um =? id)%nat then f um else um) l.
Definition find_umode (id : nat) (l : list Umode) : option Umode := find (λ um, (um_id um =? id)%nat) l.

(** The assignments at the end of [UmodeAdd]. *)
Definition umode_fill (id : nat) (module : option nat) (name : list Z) (ch : Z) (glob unset : bool)
    (allowed : option allow) (mode : longvar) (r : ureg) : res (ureg * option nat) :=
  match find_umode id (usermodes r) with
  | None => UB
  | Some um =>
      let f um := MkUmode id (um_mode um) ch name unset allowed false module in
      let! r := make_umodestr (with_modes (update_umode id f (usermodes r)) r) in
      let bit := um_mode um in
      let objects := match module with
                     | None => umode_objects r
                     | Some m => <[m := id :: default [] (umode_objects r !! m)]> (umode_objects r)
                     end in
      Ok (with_error module MODERR_NOERROR
            (UReg (usermodes r) (umode_letter_to_handler r) (umodestring r) (Z.lor (AllUmodes r) bit)
               (if glob then Z.lor (SendUmodes r) bit else SendUmodes r)
               (λ v, if decide (v = mode) then bit else longs r v) objects (umode_error r) (next_umode r)), Some id)
  end.

Definition UmodeAdd (module : option nat) (name : option (list Z)) (ch : Z) (glob unset : bool)
    (allowed : option allow) (mode : longvar) (r : ureg) : res (ureg * option nat) :=
  match name with
  | None | Some [] => Ok (with_error module MODERR_INVALID r, None)
  | Some name =>
      match find (umode_taken ch name) (usermodes r) with
      | Some um =>
          if negb (um_unloaded um) then Ok (with_error module MODERR_EXISTS r, None)
          else umode_fill (um_id um) module name ch glob unset allowed mode
                 (with_handlers (<[um_letter um := um_id um]> (umode_letter_to_handler r)) r)
      | None =>
          match free_bit (usermodes r) with
          | None => Ok (with_error module MODERR_NOSPACE r, None)
          | Some l =>
              let id := next_umode r in
              let! r := usermode_add_sorted (MkUmode id l ch [] false None false None)
                          (UReg (usermodes r) (umode_letter_to_handler r) (umodestring r) (AllUmodes r) (SendUmodes r)
                             (longs r) (umode_objects r) (umode_error r) (S id)) in
              umode_fill id module name ch glob unset allowed mode r
          end
      end
  end.

Definition find_user_mode_handler_by_name (name : option (list Z)) (r : ureg) : option Umode :=
  match name with
  | None | Some [] => None
  | Some name => find (λ um, negb (um_unloaded um) && bool_decide (um_name um = name)) (usermodes r)
  end.

(** The table may point to a mode that is gone. *)
Definition find_user_mode (letter : Z) (r : ureg) : res Z :=
  match umode_letter_to_handler r !! letter with
  | None => Ok 0
  | Some id => match find_umode id (usermodes r) with Some um => Ok (um_mode um) | None => UB end
  end.
Definition has_user_mode (u : umuser) (mode : Z) (r : ureg) : res bool :=
  let! m := find_user_mode mode r in Ok (negb (Z.land (mu_umodes u) m =? 0)).

(** The built-in modes, in the order of their registration. *)
Definition builtin_umodes : list (string * Z * bool * bool * allow * longvar) := [
  ("invisible"%string, 105, true, false, umode_allow_all, UMODE_INVISIBLE);
  ("oper"%string, 111, true, true, umode_allow_opers, UMODE_OPER);
  ("obsidianirc/regnick"%string, 114, true, false, umode_allow_none, UMODE_REGNICK);
  ("snomask"%string, 115, false, false, umode_allow_all, UMODE_SERVNOTICE);
  ("cloak"%string, 120, true, false, umode_allow_all, UMODE_HIDE);
  ("obsidianirc/secureconn"%string, 122, true, false, umode_allow_none, UMODE_SECURE);
  ("obsidianirc/deaf"%string, 100, true, false, umode_allow_all, UMODE_DEAF);
  ("obsidianirc/hideoper"%string, 72, true, true, umode_allow_opers, UMODE_HIDEOPER);
  ("obsidianirc/sethost"%string, 116, true, false, umode_allow_unset, UMODE_SETHOST);
  ("obsidianirc/hideidle"%string, 73, true, false, umode_hidle_allow, UMODE_HIDLE)].
Definition add_builtin (r : res ureg) (b : string * Z * bool * bool * allow * longvar) : res ureg :=
  let '(name, ch, glob, unset, f, v) := b in
  let! r := r in let! (r, _) := UmodeAdd None (Some (bs name)) ch glob unset (Some f) v r in Ok r.
Definition empty_ureg : ureg := UReg [] ∅ [] 0 0 (λ _, 0) ∅ ∅ 0.
Definition umode_init : res ureg := foldl add_builtin (Ok empty_ureg) builtin_umodes.

(** What is announced to servers when the letters have changed, and the letters
    that were seen. *)
Definition umodes_check_for_changes (previous_umodestring : list Z) (r : ureg) : res (ureg * list Z * option (list Z)) :=
  let! r := make_umodestr r in
  let seen := (Strl.strlcpy [] (umodestring r) 256).1 in
  Ok (r, seen, match previous_umodestring with
               | [] => None
               | p => if bool_decide (umodestring r = p) then None else Some (bs "PROTOCTL USERMODES=" ++ umodestring r)
               end).

(** ** Modes of a user *)

Definition has_bits (u : umuser) (v : longvar) (r : ureg) : bool := negb (Z.land (mu_umodes u) (longs r v) =? 0).
Definition IsOper (r : ureg) (u : umuser) : bool := has_bits u UMODE_OPER r.
Definition IsInvisible (r : ureg) (u : umuser) : bool := has_bits u UMODE_INVISIBLE r.
Definition IsHidden (r : ureg) (u : umuser) : bool := has_bits u UMODE_HIDE r.
Definition IsSetHost (r : ureg) (u : umuser) : bool := has_bits u UMODE_SETHOST r.
Definition IsHideOper (r : ureg) (u : umuser) : bool := has_bits u UMODE_HIDEOPER r.

(** client->umodes &= ~m *)
Definition clear_bits (m : Z) (u : umuser) : umuser := set_umodes (Z.land (mu_umodes u) (Z.lnot m)) u.
Definition set_bits (m : Z) (u : umuser) : umuser := set_umodes (Z.lor (mu_umodes u) m) u.

(** ValidatePermissionsForPath(path, client, NULL, NULL, NULL) *)
Definition permitted (cf : uconf) (r : ureg) (path : list Z) (u : umuser) : res bool :=
  let! p := ValidatePermissionsForPath (cf_opers cf) path
              (Some (OClient (mu_id u) (mu_server u) (mu_me u) (mu_uline u) (IsOper r u) (MyUser u) (mu_operlogin u) (mu_operclass u)))
              None None None in
  Ok (bool_decide (p = OPER_ALLOW)).

Definition run_allow (cf : uconf) (r : ureg) (a : allow) (u : umuser) (what : mode_what) : res bool :=
  match a with
  | umode_allow_all => Ok true
  | umode_allow_unset => Ok (negb (MyUser u) || bool_decide (what = MODE_DEL))
  | umode_allow_none => Ok (negb (MyUser u))
  | umode_allow_opers => Ok (if MyUser u then IsOper r u else true)
  | umode_hidle_allow =>
      Ok (if negb (MyUser u) then true
          else match hide_idle_time cf with
               | HIDE_IDLE_TIME_OPER_USERMODE => IsOper r u
               | HIDE_IDLE_TIME_USERMODE => true
               | _ => false
               end)
  | umode_allow_unkickable_oper =>
      if MyUser u then
        if IsOper r u then permitted cf r (bs "self:unkickablemode") u else Ok false
      else Ok true
  | AllowOther f => Ok (other_allow cf f u what)
  end.

(** The strings of modes; the buffer has [buflen] bytes. *)
Definition get_usermode_string_raw_r (r : ureg) (umodes : Z) (buflen : nat) : list Z :=
  foldl (λ buf um, if negb (Z.land umodes (um_mode um) =? 0) then Strl.strlcat_letter buf (um_letter um) buflen else buf)
    ((Strl.strlcpy [] (bs "+") buflen).1) (usermodes r).
Definition get_usermode_string_raw (r : ureg) (umodes : Z) : list Z := get_usermode_string_raw_r r umodes 128.
Definition get_usermode_string_r (r : ureg) (u : umuser) (buflen : nat) : list Z := get_usermode_string_raw_r r (mu_umodes u) buflen.
Definition get_usermode_string (r : ureg) (u : umuser) : list Z := get_usermode_string_r r u 128.

(** The modes of a string; the variable is an int. *)
Fixpoint set_usermode_from (l : list Umode) (umode : list Z) (what : mode_what) (newumode : Z) : Z :=
  match umode with
  | [] => newumode
  | c :: rest =>
      if c =? 43 then set_usermode_from l rest MODE_ADD newumode
      else if c =? 45 then set_usermode_from l rest MODE_DEL newumode
      else if (c =? 32) || (c =? LF) || (c =? CR) || (c =? 9) then set_usermode_from l rest what newumode
      else
        set_usermode_from l rest what
          (foldl (λ m um, if um_letter um =? c then
                            i32 (match what with MODE_ADD => Z.lor m (um_mode um) | MODE_DEL => Z.land m (Z.lnot (um_mode um)) end)
                          else m) newumode l)
  end.
Definition set_usermode (r : ureg) (umode : list Z) : Z := set_usermode_from (usermodes r) umode MODE_ADD 0.

(** The change between two sets of modes; the state is the direction of the
    last sign, and what is written. *)
Definition umode_change (u : umuser) (old sendmask : Z) (st : option mode_what * list Z) (um : Umode) : option mode_what * list Z :=
  let '(what, buf) := st in
  let flag := um_mode um in
  let emit d sign := (Some d, buf ++ (if bool_decide (what = Some d) then [] else [sign]) ++ [um_letter um]) in
  if MyUser u && (Z.land flag sendmask =? 0) then st
  else if negb (Z.land flag old =? 0) && (Z.land (mu_umodes u) flag =? 0) then emit MODE_DEL 45
  else if (Z.land flag old =? 0) && negb (Z.land (mu_umodes u) flag =? 0) then emit MODE_ADD 43
  else st.
Definition build_umode_string (r : ureg) (u : umuser) (old sendmask : Z) : list Z :=
  (foldl (umode_change u old sendmask) (None, []) (usermodes r)).2.

(** The items of a PROP line, and the lines that are complete. *)
Definition prop_item (l : list Umode) (st : Z * list Z * list (list Z)) (c : Z) : Z * list Z * list (list Z) :=
  let '(what, propbuf, out) := st in
  if (c =? 43) || (c =? 45) then (c, propbuf, out)
  else match find (λ um, negb (um_unloaded um) && (um_letter um =? c)) l with
       | None => st
       | Some um =>
           let item := take 79 (what :: um_name um) in
           let '(propbuf, out) := if (BUFSIZE <=? length propbuf + length item + 2)%nat then ([], out ++ [propbuf]) else (propbuf, out) in
           (what, (match propbuf with [] => [] | _ => propbuf ++ [32] end) ++ item, out)
       end.
Definition prop_lines (r : ureg) (buf : list Z) : list (list Z) :=
  let '(_, propbuf, out) := foldl (prop_item (usermodes r)) (43, [], []) buf in
  match propbuf with [] => out | _ => out ++ [propbuf] end.

(** Both strings are built in a buffer of 512 bytes; an empty one is not sent. *)
Definition send_umode_out (cf : uconf) (r : ureg) (u : umuser) (show_to_user : bool) (old : Z) : res (list uevent) :=
  let buf := build_umode_string r u old (SendUmodes r) in
  let! _ := require (length buf <? 512)%nat in
  let servers := base.filter (λ s, s ≠ mu_id u ∧ s ≠ mu_direction u ∧ buf ≠ []) (server_list cf) in
  let all := build_umode_string r u old (AllUmodes r) in
  let! _ := require (length all <? 512)%nat in
  Ok (map (λ s, SendUMODE2 s buf) servers ++
      if MyUser u && show_to_user then
        match all with
        | [] => []
        | _ => if mu_named_modes u then map SendPROP (prop_lines r all) else [SendMODE all]
        end
      else []).

(** ** Server notice masks *)

Fixpoint insert_letter (letter : Z) (s : list Z) : list Z :=
  match s with
  | [] => [letter]
  | c :: rest => if sort_character_lowercase_before_uppercase letter c then letter :: s else c :: insert_letter letter rest
  end.
Definition addlettertodynamicstringsorted (str : option (list Z)) (letter : Z) : option (list Z) :=
  match str with
  | None => Some (if letter =? 0 then [] else [letter])
  | Some s => Some (if strchr s letter then s else insert_letter letter s)
  end.

Definition is_valid_snomask (cf : uconf) (c : Z) : bool := strchr (snomasks_in_use cf) c.

Definition remove_all_snomasks (r : ureg) (u : umuser) : umuser := clear_bits (longs r UMODE_SERVNOTICE) (set_sno None u).

Fixpoint set_snomask_from (cf : uconf) (p : list Z) (what : mode_what) (sno : option (list Z)) : option (list Z) :=
  match p with
  | [] => sno
  | c :: rest =>
      if c =? 43 then set_snomask_from cf rest MODE_ADD sno
      else if c =? 45 then set_snomask_from cf rest MODE_DEL sno
      else set_snomask_from cf rest what
             (match what with
              | MODE_ADD => if negb (isalpha c) || negb (is_valid_snomask cf c) then sno else addlettertodynamicstringsorted sno c
              | MODE_DEL => (λ s, delletterfromstring s c) <$> sno
              end)
  end.
Definition set_snomask (cf : uconf) (r : ureg) (snomask : option (list Z)) (u : umuser) : umuser :=
  match snomask with
  | None => remove_all_snomasks r u
  | Some s =>
      let u := set_sno (set_snomask_from cf s MODE_ADD (mu_snomask u)) u in
      match mu_snomask u with Some [] => remove_all_snomasks r u | _ => u end
  end.

(** ** Modes of operators *)

Definition remove_oper_modes (cf : uconf) (r : ureg) (u : umuser) : umuser :=
  let u := foldl (λ u um, if um_unset_on_deoper um then clear_bits (um_mode um) u else u) u (usermodes r) in
  if bool_decide (hide_idle_time cf = HIDE_IDLE_TIME_OPER_USERMODE) then clear_bits (longs r UMODE_HIDLE) u else u.

Definition remove_oper_privileges (cf : uconf) (r : ureg) (u : umuser) (broadcast_mode_change : bool) : res (umuser * list uevent) :=
  let oldumodes := mu_umodes u in
  let u := remove_all_snomasks r (remove_oper_modes cf r u) in
  let! sent := (if broadcast_mode_change && negb (mu_umodes u =? oldumodes) then send_umode_out cf r u true oldumodes else Ok []) in
  Ok (u, sent ++ if MyUser u then [SwhoisDelete (bs "oper")] else []).

(** ** Modes that go *)

(** Take a bit from the local users that have it; [out] names the clients. *)
Fixpoint unload_from_users (cf : uconf) (r : ureg) (bit : Z) (lclient_list : list umuser) : res (list umuser * list (nat * uevent)) :=
  match lclient_list with
  | [] => Ok ([], [])
  | u :: rest =>
      if MyUser u && negb (Z.land (mu_umodes u) bit =? 0) then
        let oldumode := mu_umodes u in
        let u := clear_bits bit u in
        let! sent := send_umode_out cf r u true oldumode in
        let! (rest, out) := unload_from_users cf r bit rest in
        Ok (u :: rest, map (pair (mu_id u)) sent ++ out)
      else
        let! (rest, out) := unload_from_users cf r bit rest in Ok (u :: rest, out)
  end.

Definition unload_usermode_commit (cf : uconf) (id : nat) (r : ureg) (lclient_list : list umuser)
    : res (ureg * list umuser * list (nat * uevent)) :=
  match find_umode id (usermodes r) with
  | None => UB
  | Some um =>
      let! (users, out) := unload_from_users cf r (um_mode um) lclient_list in
      let r := with_modes (base.filter (λ m, um_id m ≠ id) (usermodes r))
                 (with_handlers (delete (um_letter um) (umode_letter_to_handler r)) r) in
      let! r := make_umodestr r in
      Ok (r, users, out)
  end.

Fixpoint remove_object (id : nat) (l : list nat) : list nat :=
  match l with
  | [] => []
  | x :: rest => if (x =? id)%nat then rest else x :: remove_object id rest
  end.

Definition UmodeDel (cf : uconf) (rehashing : bool) (id : nat) (r : ureg) (lclient_list : list umuser)
    : res (ureg * list umuser * list (nat * uevent)) :=
  match find_umode id (usermodes r) with
  | None => UB
  | Some um =>
      let free m := MkUmode (um_id m) (um_mode m) (um_letter m) (um_name m) (um_unset_on_deoper m) (um_allowed m)
                      (um_unloaded m || rehashing) None in
      let objects := match um_owner um with
                     | None => umode_objects r
                     | Some m => <[m := remove_object id (default [] (umode_objects r !! m))]> (umode_objects r)
                     end in
      let r := with_objects objects (with_modes (update_umode id free (usermodes r)) r) in
      if rehashing then Ok (r, lclient_list, []) else unload_usermode_commit cf id r lclient_list
  end.

(** The loop keeps the next mode, so it visits the list as it was. *)
Fixpoint unload_all_from (cf : uconf) (l : list Umode) (r : ureg) (lclient_list : list umuser)
    : res (ureg * list umuser * list (nat * uevent)) :=
  match l with
  | [] => Ok (r, lclient_list, [])
  | um :: rest =>
      if has_letter um && um_unloaded um then
        let! (r, users, out) := unload_usermode_commit cf (um_id um) r lclient_list in
        let! (r, users, out') := unload_all_from cf rest r users in
        Ok (r, users, out ++ out')
      else unload_all_from cf rest r lclient_list
  end.
Definition unload_all_unused_umodes (cf : uconf) (r : ureg) (lclient_list : list umuser)
    : res (ureg * list umuser * list (nat * uevent)) := unload_all_from cf (usermodes r) r lclient_list.

(** Unloading a module (FreeModObj for each of its objects). *)
Fixpoint unload_objects (cf : uconf) (rehashing : bool) (ids : list nat) (r : ureg) (lclient_list : list umuser)
    : res (ureg * list umuser * list (nat * uevent)) :=
  match ids with
  | [] => Ok (r, lclient_list, [])
  | id :: rest =>
      let! (r, users, out) := UmodeDel cf rehashing id r lclient_list in
      let! (r, users, out') := unload_objects cf rehashing rest r users in
      Ok (r, users, out ++ out')
  end.
Definition unload_module (cf : uconf) (rehashing : bool) (m : nat) (r : ureg) (lclient_list : list umuser)
    : res (ureg * list umuser * list (nat * uevent)) :=
  unload_objects cf rehashing (default [] (umode_objects r !! m)) r lclient_list.

(** ** Bits *)

Definition bit_of (m : Z) : Prop := ∃ k, (k < UMODE_BITS)%nat ∧ m = 2 ^ Z.of_nat k.

Lemma land_pow2 m k : 0 ≤ k → (Z.land m (2 ^ k) =? 0) = negb (Z.testbit m k).
Proof.
  intros Hk. destruct (Z.testbit m k) eqn:E; simpl.
  - apply Z.eqb_neq. intros H. apply (f_equal (λ x, Z.testbit x k)) in H.
    rewrite Z.land_spec, Z.pow2_bits_true, E, Z.bits_0 in H by lia. done.
  - apply Z.eqb_eq, Z.bits_inj'. intros n Hn. rewrite Z.land_spec, Z.bits_0, Z.pow2_bits_eqb by lia.
    destruct (Z.eqb_spec k n) as [<-|]; [by rewrite E|by rewrite andb_false_r].
Qed.
Lemma land_pow2' m k : 0 ≤ k → (Z.land (2 ^ k) m =? 0) = negb (Z.testbit m k).
Proof. rewrite Z.land_comm. apply land_pow2. Qed.
Lemma clear_testbit m k n : 0 ≤ k → 0 ≤ n → Z.testbit (Z.land m (Z.lnot (2 ^ k))) n = Z.testbit m n && negb (k =? n).
Proof. intros. by rewrite Z.land_spec, Z.lnot_spec, Z.pow2_bits_eqb by lia. Qed.
Lemma set_testbit m k n : 0 ≤ k → Z.testbit (Z.lor m (2 ^ k)) n = Z.testbit m n || (k =? n).
Proof. intros. by rewrite Z.lor_spec, Z.pow2_bits_eqb by lia. Qed.
Lemma pow2_inj a b : 0 ≤ a → 0 ≤ b → 2 ^ a = 2 ^ b → a = b.
Proof. intros. by apply (Z.pow_inj_r 2). Qed.

(** A set of modes has the mode [um]. *)
Definition has_mode (m : Z) (um : Umode) : bool := negb (Z.land m (um_mode um) =? 0).

(** What holds of the bits of a list of modes. *)
Definition bits_ok (l : list Umode) : Prop := Forall (λ um, bit_of (um_mode um)) l ∧ NoDup (map um_mode l).

Definition all_bits : list Z := map (λ k, 2 ^ Z.of_nat k) (seq 0 UMODE_BITS).
Lemma elem_of_all_bits b : b ∈ all_bits ↔ bit_of b.
Proof.
  unfold all_bits, bit_of. rewrite list_elem_of_fmap. split; intros (k & H1 & H2).
  - exists k. apply elem_of_seq in H2. split; [lia|done].
  - exists k. split; [done|]. apply elem_of_seq. lia.
Qed.

Lemma NoDup_bits_length (l : list Z) : NoDup l → Forall bit_of l → (length l ≤ UMODE_BITS)%nat.
Proof.
  intros Hnd Hl. change UMODE_BITS with (length all_bits). apply submseteq_length, NoDup_submseteq; [done|].
  intros x Hx. apply elem_of_all_bits. by apply (proj1 (Forall_forall _ _) Hl).
Qed.
Lemma bits_ok_length l : bits_ok l → (length l ≤ UMODE_BITS)%nat.
Proof. intros [Hb Hn]. rewrite <-(length_map um_mode). apply NoDup_bits_length; [done|]. by apply Forall_map. Qed.

Lemma free_bit_some l b : free_bit l = Some b → bit_of b ∧ b ∉ map um_mode l.
Proof.
  unfold free_bit. intros [Hb Hf]%find_some. split.
  - apply elem_of_all_bits. by apply list_elem_of_In.
  - intros (um & -> & Hu)%list_elem_of_fmap. apply negb_true_iff in Hf. rewrite <-not_true_iff_false in Hf. apply Hf.
    apply existsb_exists. exists um. split; [by apply list_elem_of_In|apply Z.eqb_refl].
Qed.
Lemma free_bit_none l : bits_ok l → free_bit l = None ↔ (UMODE_BITS ≤ length l)%nat.
Proof.
  intros [Hb Hn]. split.
  - intros Hf. rewrite <-(length_map um_mode). change UMODE_BITS with (length all_bits). apply submseteq_length, NoDup_submseteq.
    + apply NoDup_fmap_2_strong; [|apply NoDup_seq]. intros x y _ _ E%pow2_inj; lia.
    + intros x Hx. unfold free_bit in Hf. pose proof (find_none _ _ Hf x) as Hx'. specialize (Hx' (proj1 (list_elem_of_In _ _) Hx)).
      apply negb_false_iff, existsb_exists in Hx' as (um & Hu & E). apply Z.eqb_eq in E as <-.
      apply list_elem_of_fmap. exists um. split; [done|by apply list_elem_of_In].
  - intros Hl. destruct (free_bit l) as [b|] eqn:E; [exfalso|done]. apply free_bit_some in E as [Hb' Hn'].
    assert (length (b :: map um_mode l) ≤ UMODE_BITS)%nat as H.
    { apply NoDup_bits_length; [by constructor|]. constructor; [done|by apply Forall_map]. }
    simpl in H. rewrite length_map in H. lia.
Qed.

Lemma mode_pow l um : bits_ok l → um ∈ l → ∃ k, 0 ≤ k < 62 ∧ um_mode um = 2 ^ k.
Proof.
  intros [Hb _] Hu. destruct (proj1 (Forall_forall _ _) Hb um Hu) as (k & Hk & E). exists (Z.of_nat k).
  unfold UMODE_BITS in Hk. split; [lia|done].
Qed.
Lemma mode_inj l um um' : bits_ok l → um ∈ l → um' ∈ l → um_mode um = um_mode um' → um = um'.
Proof. intros [_ Hn]. by apply NoDup_map_inj. Qed.

(** ** The table of letters, and the order of the list *)

Definition handlers_exact (l : list Umode) (h : gmap Z nat) : Prop :=
  ∀ c id, h !! c = Some id ↔ ∃ um, um ∈ l ∧ um_letter um = c ∧ um_id um = id.

Lemma insert_exact l h um : NoDup (map um_letter l) → um ∈ l → handlers_exact l h → handlers_exact l (<[um_letter um := um_id um]> h).
Proof.
  intros Hn Hu Hh c id. destruct (decide (um_letter um = c)) as [<-|Hc].
  - rewrite lookup_insert_eq. split.
    + intros [= <-]. eauto.
    + intros (um' & Hu' & E & <-). by rewrite (NoDup_map_inj um_letter l um' um Hn Hu' Hu E).
  - rewrite lookup_insert_ne by done. apply Hh.
Qed.
Lemma set_letter_exact l h : NoDup (map um_letter l) → handlers_exact l h → handlers_exact l (set_letter_handlers l h).
Proof.
  intros Hn. unfold set_letter_handlers. assert (∀ l', (∀ um, um ∈ l' → um ∈ l) → ∀ h, handlers_exact l h → handlers_exact l
    (foldl (λ h um, if has_letter um && negb (um_unloaded um) then <[um_letter um := um_id um]> h else h) h l')) as H; [|apply H; done].
  induction l' as [|um l' IH]; intros Hl h0 Hh; [done|]. cbn [foldl]. apply IH; [intros; apply Hl; by constructor|].
  destruct (_ && _); [|done]. apply insert_exact; [done| |done]. apply Hl. constructor.
Qed.
Lemma handlers_fresh l1 n l2 h :
  NoDup (map um_letter (l1 ++ n :: l2)) → handlers_exact (l1 ++ l2) h → handlers_exact (l1 ++ n :: l2) (<[um_letter n := um_id n]> h).
Proof.
  intros Hn Hh c id. destruct (decide (um_letter n = c)) as [<-|Hc].
  - rewrite lookup_insert_eq. split.
    + intros [= <-]. exists n. split; [set_solver|done].
    + intros (um & Hu & E & <-). f_equal. f_equal. apply (NoDup_map_inj um_letter _ n um Hn); [apply elem_of_app; right; constructor|done|done].
  - rewrite lookup_insert_ne by done. rewrite (Hh c id). split; intros (um & Hu & E & Ei); exists um; (split; [|done]).
    + revert Hu. rewrite !elem_of_app, elem_of_cons. tauto.
    + assert (um ≠ n) by congruence. revert Hu. rewrite !elem_of_app, elem_of_cons. tauto.
Qed.
(** Changing what is neither letter nor address. *)
Lemma handlers_change l1 x y l2 h : um_letter x = um_letter y → um_id x = um_id y →
  handlers_exact (l1 ++ x :: l2) h → handlers_exact (l1 ++ y :: l2) h.
Proof.
  intros El Ei Hh c id. rewrite (Hh c id).
  assert (∀ x y, um_letter x = um_letter y → um_id x = um_id y →
    (∃ um, um ∈ l1 ++ x :: l2 ∧ um_letter um = c ∧ um_id um = id) → ∃ um, um ∈ l1 ++ y :: l2 ∧ um_letter um = c ∧ um_id um = id) as H.
  { intros a b Ea Eb (um & [Hu|[->|Hu]%elem_of_cons]%elem_of_app & E & Ed).
    - exists um. rewrite elem_of_app. auto.
    - exists b. rewrite <-Ea, <-Eb, elem_of_app, elem_of_cons. auto.
    - exists um. rewrite elem_of_app, elem_of_cons. auto. }
  split; by apply H.
Qed.
Lemma handlers_delete l um h : NoDup (map um_letter l) → NoDup (map um_id l) → um ∈ l → handlers_exact l h →
  handlers_exact (base.filter (λ m, um_id m ≠ um_id um) l) (delete (um_letter um) h).
Proof.
  intros Hl Hi Hu Hh c id. rewrite lookup_delete_Some, (Hh c id). split.
  - intros (Hc & um' & Hu' & E & Ei). exists um'. split; [|done]. apply list_elem_of_filter. split; [|done].
    intros Ed. apply Hc. by rewrite <-E, (NoDup_map_inj um_id l um' um Hi Hu' Hu Ed).
  - intros (um' & (Hne & Hu')%list_elem_of_filter & E & Ei). split; [|eauto].
    intros Hc. apply Hne. f_equal. apply (NoDup_map_inj um_letter l um' um Hl Hu' Hu). congruence.
Qed.

Lemma umode_letters_all l : Forall (λ um, um_letter um ≠ 0) l → umode_letters l = map um_letter l.
Proof.
  intros H. unfold umode_letters. f_equal. induction H as [|um l Hu H IH]; [done|].
  rewrite filter_cons_True; [by rewrite IH|]. unfold has_letter. by destruct (Z.eqb_spec (um_letter um) 0).
Qed.

(** Letters come in the order of the alphabet, lower case first. *)
Definition before (x y : Z) : Prop := sort_character_lowercase_before_uppercase x y = true.
Definition letter_key (x : Z) : Z := if islower x then u8 x - 256 else u8 x.
Lemma before_key x y : byte x → byte y → isalpha x = true → isalpha y = true → before x y ↔ letter_key x < letter_key y.
Proof.
  unfold before, sort_character_lowercase_before_uppercase, letter_key, islower, isupper, isalpha. intros Hx Hy -> ->.
  rewrite !u8_byte by done. unfold byte in *. simpl.
  destruct (Z.ltb_spec 95 x), (Z.ltb_spec 95 y), (Z.ltb_spec x 96), (Z.ltb_spec y 96); simpl; try lia.
  all: split; intros; try done; try (apply Z.ltb_lt; lia); try (rewrite Z.ltb_lt in *; lia).
Qed.

Lemma insert_split n l : Forall (λ um, um_letter um ≠ 0) l →
  ∃ l1 l2, l = l1 ++ l2 ∧ usermode_insert n l = Ok (l1 ++ n :: l2) ∧
    Forall (λ um, ¬ before (um_letter n) (um_letter um)) l1 ∧ (∀ um, head l2 = Some um → before (um_letter n) (um_letter um)).
Proof.
  induction 1 as [|um l Hu Hl (l1 & l2 & -> & E & H1 & H2)]; [by exists [], []|].
  cbn [usermode_insert]. destruct (Z.eqb_spec (um_letter um) 0); [done|].
  destruct (sort_character_lowercase_before_uppercase _ _) eqn:Eb.
  - exists [], (um :: l1 ++ l2). split_and!; [done..|]. by intros ? [= <-].
  - exists (um :: l1), l2. rewrite E. split_and!; [done..| |done]. constructor; [|done]. unfold before. by rewrite Eb.
Qed.

Definition alpha (x : Z) : Prop := byte x ∧ isalpha x = true.
Lemma sorted_keys l : Forall alpha l → StronglySorted before l ↔ StronglySorted Z.lt (map letter_key l).
Proof.
  induction 1 as [|x l [Hb Hx] Hl IH]; [by split; constructor|]. simpl.
  split; intros [Hs Hf]%StronglySorted_inv; constructor; try by apply IH.
  all: rewrite ?Forall_map in *; rewrite Forall_forall in *; intros y Hy; specialize (Hl y Hy) as [? ?]; specialize (Hf y Hy); by apply before_key.
Qed.
Lemma key_inj x y : byte x → byte y → isalpha x = true → isalpha y = true → letter_key x = letter_key y → x = y.
Proof.
  unfold letter_key, islower, isalpha. intros Hx Hy -> ->. rewrite !u8_byte by done. unfold byte in *. simpl.
  destruct (Z.ltb_spec 95 x), (Z.ltb_spec 95 y); lia.
Qed.
Lemma umode_insert_sorted l1 n l2 :
  Forall alpha (map um_letter (l1 ++ n :: l2)) → NoDup (map um_letter (l1 ++ n :: l2)) →
  Forall (λ um, ¬ before (um_letter n) (um_letter um)) l1 → (∀ um, head l2 = Some um → before (um_letter n) (um_letter um)) →
  StronglySorted before (map um_letter (l1 ++ l2)) → StronglySorted before (map um_letter (l1 ++ n :: l2)).
Proof.
  intros Ha Hn H1 H2 Hs. assert (Forall alpha (map um_letter (l1 ++ l2))) as Ha'.
  { rewrite map_app in *. apply Forall_app in Ha as [? [? ?]%Forall_cons]. by apply Forall_app. }
  rewrite sorted_keys in * by done. rewrite !map_app in *. cbn [map] in *.
  apply Forall_app in Ha as [A1 [[An1 An2] A2]%Forall_cons].
  apply NoDup_app in Hn as (_ & Hn1 & [Hn2 _]%NoDup_cons).
  apply StronglySorted_app in Hs as (Hc & S1 & S2). apply StronglySorted_app. split_and!; [|done|].
  - intros x y Hx [->|Hy]%elem_of_cons; [|by apply Hc].
    apply list_elem_of_fmap in Hx as (c & -> & Hc1). pose proof (proj1 (Forall_forall _ _) A1 c Hc1) as [B1 B2].
    apply list_elem_of_fmap in Hc1 as (um & -> & Hu). pose proof (proj1 (Forall_forall _ _) H1 um Hu) as Hb. simpl in Hb. rewrite before_key in Hb by done.
    assert (letter_key (um_letter um) ≠ letter_key (um_letter n)); [|lia].
    intros E%key_inj; [|done..]. apply (Hn1 (um_letter um)); [apply list_elem_of_fmap; eauto|]. rewrite E. constructor.
  - constructor; [done|]. destruct l2 as [|um l2]; [constructor|]. cbn [map] in *. apply Forall_cons in A2 as [[? ?] A2].
    specialize (H2 um eq_refl). rewrite before_key in H2 by done. apply StronglySorted_inv in S2 as [_ Hf].
    constructor; [done|]. eapply Forall_impl; [exact Hf|]. simpl. intros; lia.
Qed.

(** ** The registry in use

    A mode has a letter, and a name belongs to one letter: [names] lists the
    pairs that are ever registered. *)
Record names_ok (names : list (list Z * Z)) : Prop := NamesOk {
  no_names : NoDup (map fst names);
  no_letters : NoDup (map snd names);
  no_given : Forall (λ p, p.1 ≠ [] ∧ p.2 ≠ 0) names
}.

Definition owned (o : option (list nat)) (l : list Umode) (m : nat) : Prop :=
  NoDup (default [] o) ∧ ∀ id, id ∈ default [] o ↔ ∃ um, um ∈ l ∧ um_id um = id ∧ um_owner um = Some m.

Definition mode_ok (names : list (list Z * Z)) (all : Z) (next : nat) (um : Umode) : Prop :=
  (um_name um, um_letter um) ∈ names ∧ has_mode all um = true ∧ (um_id um < next)%nat ∧ (um_unloaded um = true → um_owner um = None).

Record reg_ok (names : list (list Z * Z)) (r : ureg) : Prop := RegOk {
  ro_bits : bits_ok (usermodes r);
  ro_letters : NoDup (map um_letter (usermodes r));
  ro_ids : NoDup (map um_id (usermodes r));
  ro_modes : Forall (mode_ok names (AllUmodes r) (next_umode r)) (usermodes r);
  ro_handlers : handlers_exact (usermodes r) (umode_letter_to_handler r);
  ro_string : umodestring r = map um_letter (usermodes r);
  ro_objects : ∀ m, owned (umode_objects r !! m) (usermodes r) m;
  ro_sorted : Forall alpha (map snd names) → StronglySorted before (map um_letter (usermodes r))
}.

(** What a letter stands for, without bits and addresses. *)
Record uattrs := UAttrs {
  ua_name : list Z; ua_unset : bool; ua_allowed : option allow; ua_unloaded : bool; ua_owner : option nat
}.
Definition attrs (um : Umode) : uattrs := UAttrs (um_name um) (um_unset_on_deoper um) (um_allowed um) (um_unloaded um) (um_owner um).
Definition abs_list (l : list Umode) : gmap Z uattrs := list_to_map (map (λ um, (um_letter um, attrs um)) l).
Definition abs (r : ureg) : gmap Z uattrs := abs_list (usermodes r).

Lemma abs_keys (l : list Umode) : (map (λ um, (um_letter um, attrs um)) l).*1 = map um_letter l.
Proof. by rewrite <-list_fmap_compose. Qed.
Lemma abs_lookup l c a : NoDup (map um_letter l) → abs_list l !! c = Some a ↔ ∃ um, um ∈ l ∧ um_letter um = c ∧ attrs um = a.
Proof.
  intros Hn. unfold abs_list. rewrite <-elem_of_list_to_map by by rewrite abs_keys.
  rewrite list_elem_of_fmap. split; [intros (um & [= -> ->] & Hu); eauto|intros (um & Hu & <- & <-); eauto].
Qed.
Lemma abs_middle l1 um l2 : NoDup (map um_letter (l1 ++ um :: l2)) → abs_list (l1 ++ um :: l2) = <[um_letter um := attrs um]> (abs_list (l1 ++ l2)).
Proof.
  intros Hn. unfold abs_list at 1.
  rewrite (list_to_map_proper _ (map (λ um, (um_letter um, attrs um)) (um :: l1 ++ l2))); [done|by rewrite abs_keys|].
  apply Permutation_map. symmetry. apply Permutation_middle.
Qed.
Lemma abs_size l : NoDup (map um_letter l) → size (abs_list l) = length l.
Proof.
  intros Hn. unfold abs_list. rewrite map_size_list_to_map by by rewrite abs_keys. by rewrite length_map.
Qed.

Lemma letters_given names r : names_ok names → Forall (mode_ok names (AllUmodes r) (next_umode r)) (usermodes r) →
  Forall (λ um, um_letter um ≠ 0) (usermodes r).
Proof.
  intros [_ _ Hg] H. eapply Forall_impl; [exact H|]. intros um (Hu & _).
  by apply (proj1 (Forall_forall _ _) Hg) in Hu as [_ ?].
Qed.
Lemma taken_letter names name ch um : names_ok names → (name, ch) ∈ names → (um_name um, um_letter um) ∈ names →
  umode_taken ch name um = (um_letter um =? ch).
Proof.
  intros [Hn Hl Hg] H1 H2. unfold umode_taken. destruct (proj1 (Forall_forall _ _) Hg _ H1) as [_ Hc]. simpl in Hc.
  destruct (Z.eqb_spec ch 0); [done|]. simpl. destruct (Z.eqb_spec (um_letter um) ch) as [E|E]; [done|].
  apply bool_decide_eq_false. intros En. apply E.
  pose proof (NoDup_map_inj fst names (um_name um, um_letter um) (name, ch) Hn H2 H1 En) as [=]. done.
Qed.

Lemma find_split {A} (f : A → bool) l x : find f l = Some x → ∃ l1 l2, l = l1 ++ x :: l2 ∧ f x = true ∧ Forall (λ y, f y = false) l1.
Proof.
  induction l as [|y l IH]; [done|]. simpl. destruct (f y) eqn:E.
  - intros [= ->]. by exists [], l.
  - intros (l1 & l2 & -> & Hx & Hl)%IH. exists (y :: l1), l2. split_and!; [done..|by constructor].
Qed.
Lemma find_letter l um : NoDup (map um_letter l) → um ∈ l → find (λ u, um_letter u =? um_letter um) l = Some um.
Proof.
  intros Hn Hu. destruct (find _ l) as [x|] eqn:E.
  - apply find_some in E as [Hx Ex]. apply list_elem_of_In in Hx. apply Z.eqb_eq in Ex. by rewrite (NoDup_map_inj um_letter l x um).
  - apply list_elem_of_In in Hu. apply (find_none _ _ E) in Hu. by rewrite Z.eqb_refl in Hu.
Qed.
Lemma find_id l um : NoDup (map um_id l) → um ∈ l → find_umode (um_id um) l = Some um.
Proof.
  intros Hn Hu. unfold find_umode. destruct (find _ l) as [x|] eqn:E.
  - apply find_some in E as [Hx Ex]. apply list_elem_of_In in Hx. apply Nat.eqb_eq in Ex. by rewrite (NoDup_map_inj um_id l x um).
  - apply list_elem_of_In in Hu. apply (find_none _ _ E) in Hu. by rewrite Nat.eqb_refl in Hu.
Qed.
Lemma find_id_some id l um : find_umode id l = Some um → um ∈ l ∧ um_id um = id.
Proof. intros [Hu E]%find_some. split; [by apply list_elem_of_In|by apply Nat.eqb_eq]. Qed.
Lemma update_middle id f l1 um l2 : NoDup (map um_id (l1 ++ um :: l2)) → um_id um = id →
  update_umode id f (l1 ++ um :: l2) = l1 ++ f um :: l2.
Proof.
  intros Hn <-. assert (∀ l, um_id um ∉ map um_id l → update_umode (um_id um) f l = l) as H.
  { induction l as [|y l IH]; [done|]. cbn [map update_umode]. intros [Hy Hl]%not_elem_of_cons. unfold update_umode in *. simpl.
    destruct (Nat.eqb_spec (um_id y) (um_id um)); [by rewrite e in Hy|]. by rewrite IH. }
  rewrite map_app in Hn. apply NoDup_app in Hn as (_ & H1 & [H2 _]%NoDup_cons).
  unfold update_umode in *. rewrite map_app. cbn [map]. rewrite Nat.eqb_refl, !H; [done|done|].
  intros Hin. apply (H1 _ Hin). constructor.
Qed.

Lemma has_mode_lor m b um : has_mode m um = true → has_mode (Z.lor m b) um = true.
Proof.
  unfold has_mode. rewrite !negb_true_iff, !Z.eqb_neq, Z.land_lor_distr_l. intros H [H' _]%Z.lor_eq_0_iff. done.
Qed.
Lemma has_own_mode m um : bit_of (um_mode um) → has_mode (Z.lor m (um_mode um)) um = true.
Proof. intros (k & _ & E). unfold has_mode. rewrite E, land_pow2, set_testbit, Z.eqb_refl by lia. by rewrite orb_true_r. Qed.

Lemma middle_ne {B} (f : Umode → B) l1 x l2 y : NoDup (map f (l1 ++ x :: l2)) → y ∈ l1 ∨ y ∈ l2 → f y ≠ f x.
Proof.
  rewrite map_app. intros (_ & H1 & [H2 _]%NoDup_cons)%NoDup_app [Hu|Hu] E.
  - apply (H1 (f y)); [by apply list_elem_of_fmap_2|]. rewrite E. constructor.
  - apply H2. rewrite <-E. by apply list_elem_of_fmap_2.
Qed.
Lemma has_mode_lor_other m um um' l : bits_ok l → um ∈ l → um' ∈ l → um_mode um ≠ um_mode um' →
  has_mode (Z.lor m (um_mode um')) um = has_mode m um.
Proof.
  intros Hb H1 H2 Hne. destruct (mode_pow l um Hb H1) as (j & Hj & Ej), (mode_pow l um' Hb H2) as (k & Hk & Ek).
  unfold has_mode. rewrite Ej, Ek in *. rewrite !land_pow2, set_testbit by lia.
  destruct (Z.eqb_spec k j) as [->|]; [done|by rewrite orb_false_r].
Qed.

Lemma owned_change o l1 x y l2 m : um_id x = um_id y → um_owner x ≠ Some m → um_owner y ≠ Some m →
  owned o (l1 ++ x :: l2) m → owned o (l1 ++ y :: l2) m.
Proof.
  intros Ei Hx Hy [Hn Ho]. split; [done|]. intros id. rewrite (Ho id).
  split; intros (um & Hu & E & Em); exists um; (split; [|done]); revert Hu; rewrite !elem_of_app, !elem_of_cons; intuition congruence.
Qed.
Lemma owned_add o l1 x y l2 m : NoDup (map um_id (l1 ++ x :: l2)) → um_id x = um_id y → um_owner x = None → um_owner y = Some m →
  owned o (l1 ++ x :: l2) m → owned (Some (um_id y :: default [] o)) (l1 ++ y :: l2) m.
Proof.
  intros Hi Ei Hx Hy [Hn Ho]. split; simpl.
  - constructor; [|done]. rewrite Ho. intros (um & Hu & E & Em).
    rewrite (NoDup_map_inj um_id _ um x Hi Hu) in Em; [congruence| |congruence]. apply elem_of_app; right; constructor.
  - intros id. rewrite elem_of_cons, (Ho id). split.
    + intros [->|(um & Hu & E & Em)]; [exists y; split; [apply elem_of_app; right; constructor|done]|].
      exists um. split; [|done]. revert Hu; rewrite !elem_of_app, !elem_of_cons; intuition congruence.
    + intros (um & [Hu|[->|Hu]%elem_of_cons]%elem_of_app & E & Em); [right|by left|right]; exists um;
        (split; [rewrite elem_of_app, elem_of_cons; auto|done]).
Qed.

Lemma map_middle {A B} (f : A → B) l1 x y l2 : f x = f y → map f (l1 ++ x :: l2) = map f (l1 ++ y :: l2).
Proof. intros E. by rewrite !map_app, !map_cons, E. Qed.

Lemma with_error_modes module x r : usermodes (with_error module x r) = usermodes r.
Proof. by destruct module. Qed.
Lemma with_error_longs module x r : longs (with_error module x r) = longs r.
Proof. by destruct module. Qed.
Lemma with_error_send module x r : SendUmodes (with_error module x r) = SendUmodes r.
Proof. by destruct module. Qed.
Lemma with_error_ok names module x r : reg_ok names r → reg_ok names (with_error module x r).
Proof. intros []. by destruct module. Qed.

(** The registry but for one mode, which is about to be filled. *)
Record fill_pre (names : list (list Z * Z)) (r : ureg) (l1 : list Umode) (um0 : Umode) (l2 : list Umode) (ch : Z) : Prop := FillPre {
  fp_modes : usermodes r = l1 ++ um0 :: l2;
  fp_letter : um_letter um0 = ch;
  fp_owner : um_owner um0 = None;
  fp_next : (um_id um0 < next_umode r)%nat;
  fp_bits : bits_ok (usermodes r);
  fp_letters : NoDup (map um_letter (usermodes r));
  fp_ids : NoDup (map um_id (usermodes r));
  fp_others : Forall (mode_ok names (AllUmodes r) (next_umode r)) (l1 ++ l2);
  fp_handlers : handlers_exact (usermodes r) (umode_letter_to_handler r);
  fp_objects : ∀ m, owned (umode_objects r !! m) (usermodes r) m;
  fp_sorted : Forall alpha (map snd names) → StronglySorted before (map um_letter (usermodes r))
}.

Lemma fill_ok names r l1 um0 l2 module name ch glob unset allowed mode :
  names_ok names → (name, ch) ∈ names → fill_pre names r l1 um0 l2 ch →
  let um := MkUmode (um_id um0) (um_mode um0) ch name unset allowed false module in
  ∃ r', umode_fill (um_id um0) module name ch glob unset allowed mode r = Ok (r', Some (um_id um0)) ∧ reg_ok names r' ∧
    usermodes r' = l1 ++ um :: l2 ∧ longs r' = (λ v, if decide (v = mode) then um_mode um0 else longs r v) ∧
    SendUmodes r' = (if glob then Z.lor (SendUmodes r) (um_mode um0) else SendUmodes r).
Proof.
  intros Hnames Hname [Em El Eo Hnx Hb Hl Hi Ho Hh Hobj Hs] um. rewrite Em in *.
  assert (map um_mode (l1 ++ um0 :: l2) = map um_mode (l1 ++ um :: l2)) as E1 by by apply map_middle.
  assert (map um_letter (l1 ++ um0 :: l2) = map um_letter (l1 ++ um :: l2)) as E2 by by apply map_middle.
  assert (map um_id (l1 ++ um0 :: l2) = map um_id (l1 ++ um :: l2)) as E3 by by apply map_middle.
  assert (bits_ok (l1 ++ um :: l2)) as Hb'.
  { destruct Hb as [B1 B2]. split; [|by rewrite <-E1]. rewrite <-Forall_map, <-E1. by apply Forall_map. }
  assert (bit_of (um_mode um0)) as Hbit by (eapply (proj1 (Forall_forall _ _) (proj1 Hb)); apply elem_of_app; right; constructor).
  set (all := Z.lor (AllUmodes r) (um_mode um0)).
  assert (Forall (mode_ok names all (next_umode r)) (l1 ++ um :: l2)) as Hall.
  { apply Forall_app in Ho as [Ho1 Ho2]. apply Forall_app. split; [|constructor].
    - eapply Forall_impl; [exact Ho1|]. intros x (? & ? & ?). split_and!; [done|by apply has_mode_lor|tauto|tauto].
    - split_and!; [done|exact (has_own_mode _ um Hbit)|done|done].
    - eapply Forall_impl; [exact Ho2|]. intros x (? & ? & ?). split_and!; [done|by apply has_mode_lor|tauto|tauto]. }
  assert (umode_letters (l1 ++ um :: l2) = map um_letter (l1 ++ um :: l2)) as Estr.
  { apply umode_letters_all. eapply Forall_impl; [exact Hall|]. intros x (Hx & _).
    by apply (proj1 (Forall_forall _ _) (no_given _ Hnames)) in Hx as [_ ?]. }
  unfold umode_fill. rewrite Em, find_id by (done || (apply elem_of_app; right; constructor)).
  rewrite (update_middle _ _ l1 um0 l2 Hi eq_refl). fold um. unfold make_umodestr. cbn [with_modes usermodes].
  assert ((length (umode_letters (l1 ++ um :: l2)) <=? UMODETABLESZ)%nat = true) as ->.
  { apply Nat.leb_le. rewrite Estr, length_map. pose proof (bits_ok_length _ Hb'). unfold UMODE_BITS, UMODETABLESZ in *. lia. }
  cbn [rbind require]. eexists. split; [done|].
  split_and!; [|by rewrite with_error_modes|by rewrite with_error_longs|by rewrite with_error_send].
  apply with_error_ok. constructor; cbn [usermodes umode_letter_to_handler umodestring AllUmodes next_umode umode_objects]; [done|by rewrite <-E2|by rewrite <-E3|done| |done| |by rewrite <-E2].
  - apply set_letter_exact; [by rewrite <-E2|]. eapply handlers_change; [| |exact Hh]; done.
  - intros m. destruct module as [m'|]; [destruct (decide (m' = m)) as [->|Hm]|].
    + rewrite lookup_insert_eq. eapply (owned_add _ _ um0 um); done.
    + rewrite lookup_insert_ne by done. eapply owned_change; [| | |apply Hobj]; [done|by rewrite Eo|]. simpl. congruence.
    + eapply owned_change; [| | |apply Hobj]; [done|by rewrite Eo|done].
Qed.

(** What adding a mode does to the letters: a letter that is taken is refused,
    one that was given up is taken over, and there is room for 62. *)
Definition spec_add (module : option nat) (name : list Z) (ch : Z) (unset : bool) (allowed : option allow) (a : gmap Z uattrs) : gmap Z uattrs * bool :=
  let new := <[ch := UAttrs name unset allowed false module]> a in
  match a !! ch with
  | Some x => if ua_unloaded x then (new, true) else (a, false)
  | None => if (UMODE_BITS <=? size a)%nat then (a, false) else (new, true)
  end.

(** What every change of the registry keeps of it. *)
Record extends (r r' : ureg) : Prop := Extends {
  ex_loaded : ∀ um, um ∈ usermodes r → um_unloaded um = false → um ∈ usermodes r';
  ex_bits : ∀ um, um ∈ usermodes r → ∃ um', um' ∈ usermodes r' ∧ um_mode um' = um_mode um ∧ um_letter um' = um_letter um;
  ex_send : ∀ um, um ∈ usermodes r → um_unloaded um = false → has_mode (SendUmodes r') um = has_mode (SendUmodes r) um
}.
Lemma ureg_extends_refl r r' : usermodes r' = usermodes r → SendUmodes r' = SendUmodes r → extends r r'.
Proof. intros E1 E2. constructor; rewrite ?E1, ?E2; eauto. Qed.

Lemma reg_ok_letter names r um : names_ok names → reg_ok names r → um ∈ usermodes r → um_letter um ≠ 0.
Proof. intros Hn Hr. apply (proj1 (Forall_forall _ _) (letters_given names r Hn (ro_modes _ _ Hr))). Qed.
Lemma reg_ok_find names r name ch : names_ok names → (name, ch) ∈ names → reg_ok names r →
  find (umode_taken ch name) (usermodes r) = find (λ um, um_letter um =? ch) (usermodes r).
Proof.
  intros Hn Hname Hr. assert (∀ l, (∀ um, um ∈ l → um ∈ usermodes r) → find (umode_taken ch name) l = find (λ um, um_letter um =? ch) l) as H; [|by apply H].
  induction l as [|um l IH]; intros Hl; [done|]. simpl.
  rewrite (taken_letter names), IH; [done|intros; apply Hl; by constructor|done|done|].
  by apply (proj1 (Forall_forall _ _) (ro_modes _ _ Hr)); apply Hl; constructor.
Qed.

(** The registry behind [umode_fill] extends the one before. *)
Lemma fill_step names r r1 l1 l2 l um0 module name ch glob unset allowed mode :
  names_ok names → (name, ch) ∈ names → fill_pre names r1 l1 um0 l2 ch →
  usermodes r = l → (l = l1 ++ l2 ∨ (l = l1 ++ um0 :: l2 ∧ um_unloaded um0 = true)) →
  longs r1 = longs r → SendUmodes r1 = SendUmodes r →
  ∃ r', umode_fill (um_id um0) module name ch glob unset allowed mode r1 = Ok (r', Some (um_id um0)) ∧ reg_ok names r' ∧
    abs r' = <[ch := UAttrs name unset allowed false module]> (abs r) ∧ extends r r' ∧
    (∀ v, v ≠ mode → longs r' v = longs r v) ∧
    ∃ um, um ∈ usermodes r' ∧ um_letter um = ch ∧ um_mode um = longs r' mode ∧ attrs um = UAttrs name unset allowed false module ∧
      (glob = true → has_mode (SendUmodes r') um = true).
Proof.
  intros Hnames Hname Hpre El Hl Elo Ese.
  destruct (fill_ok names r1 l1 um0 l2 module name ch glob unset allowed mode Hnames Hname Hpre) as (r' & E & Hr' & Em & Elongs & Esend).
  set (um := MkUmode _ _ _ _ _ _ _ _) in *. exists r'.
  assert (um ∈ usermodes r') as Hum by (rewrite Em; apply elem_of_app; right; constructor).
  split_and!; [done|done| | | |exists um; split_and!; [done|done| |done|]].
  - unfold abs. rewrite Em, El. pose proof (ro_letters _ _ Hr') as Hlet. rewrite Em in Hlet. rewrite (abs_middle l1 um l2 Hlet).
    destruct Hl as [->|[-> _]]; [done|]. destruct Hpre as [E1 E2 _ _ _ Hlet0 _ _ _ _ _]. rewrite E1 in Hlet0.
    rewrite (abs_middle l1 um0 l2 Hlet0), E2. simpl. by rewrite insert_insert_eq.
  - constructor; rewrite ?El, ?Em.
    + intros x Hx Hu. destruct Hl as [->|[-> Hun]]; revert Hx; rewrite !elem_of_app, !elem_of_cons; [tauto|].
      intros [?|[->|?]]; [auto|congruence|auto].
    + intros x Hx. destruct Hl as [->|[-> Hun]].
      * exists x. split; [|done]. revert Hx; rewrite !elem_of_app, !elem_of_cons; tauto.
      * rewrite elem_of_app, elem_of_cons in Hx. destruct Hx as [?|[->|?]]; [exists x|exists um|exists x].
        all: split; [rewrite elem_of_app, elem_of_cons; auto|done || (split; [done|symmetry; apply (fp_letter _ _ _ _ _ _ Hpre)])].
    + intros x Hx Hun. rewrite Esend, Ese. destruct glob; [|done]. destruct Hpre as [E1 _ _ _ Hbits _ _ _ _ _ _].
      assert (x ∈ l1 ∨ x ∈ l2) as Hx' by (destruct Hl as [->|[-> Hun']]; revert Hx; rewrite !elem_of_app, ?elem_of_cons; intuition congruence).
      rewrite E1 in Hbits. apply (has_mode_lor_other _ x um0 _ Hbits); [rewrite elem_of_app, elem_of_cons; tauto|rewrite elem_of_app, elem_of_cons; auto|].
      by apply (middle_ne um_mode l1 um0 l2 x (proj2 Hbits)).
  - intros v Hv. rewrite Elongs, Elo. by destruct (decide (v = mode)).
  - rewrite Elongs. by destruct (decide (mode = mode)).
  - intros ->. rewrite Esend. exact (has_own_mode _ um (proj1 (Forall_forall _ _) (proj1 (ro_bits _ _ Hr')) um Hum)).
Qed.

Lemma pre_existing names r l1 um0 l2 : reg_ok names r → usermodes r = l1 ++ um0 :: l2 → um_unloaded um0 = true →
  fill_pre names (with_handlers (<[um_letter um0 := um_id um0]> (umode_letter_to_handler r)) r) l1 um0 l2 (um_letter um0).
Proof.
  intros [Hb Hl Hi Hm Hh _ Ho Hs] E Hu. rewrite E in *.
  assert (um0 ∈ l1 ++ um0 :: l2) as Hin by (apply elem_of_app; right; constructor).
  destruct (proj1 (Forall_forall _ _) Hm um0 Hin) as (_ & _ & Hnx & Hown).
  constructor; cbn [with_handlers usermodes AllUmodes next_umode umode_letter_to_handler umode_objects]; rewrite ?E; try done; auto.
  - apply Forall_app in Hm as [? [? ?]%Forall_cons]. by apply Forall_app.
  - by apply insert_exact.
Qed.

Lemma pre_new names r ch b : names_ok names → ch ∉ map um_letter (usermodes r) → bit_of b → b ∉ map um_mode (usermodes r) → reg_ok names r →
  ch ∈ map snd names →
  let n := MkUmode (next_umode r) b ch [] false None false None in
  ∃ l1 l2 r1, usermodes r = l1 ++ l2 ∧ longs r1 = longs r ∧ SendUmodes r1 = SendUmodes r ∧
    usermode_add_sorted n (UReg (usermodes r) (umode_letter_to_handler r) (umodestring r) (AllUmodes r) (SendUmodes r)
       (longs r) (umode_objects r) (umode_error r) (S (next_umode r))) = Ok r1 ∧ fill_pre names r1 l1 n l2 ch.
Proof.
  intros Hnames Hch Hbit Hb Hr Hin n. pose proof (letters_given _ _ Hnames (ro_modes _ _ Hr)) as Hnz. destruct Hr as [Hbits Hl Hi Hm Hh _ Ho Hs].
  destruct (insert_split n (usermodes r) Hnz) as (l1 & l2 & E & Ei & B1 & B2). exists l1, l2.
  unfold usermode_add_sorted. cbn [usermodes]. rewrite Ei. cbn [rbind]. eexists. split_and!; [done| | |reflexivity|]; [done..|]. rewrite E in *.
  assert (∀ {A} (f : Umode → A), NoDup (map f (l1 ++ l2)) → f n ∉ map f (l1 ++ l2) → NoDup (map f (l1 ++ n :: l2))) as Hnd.
  { intros A f H1 H2. rewrite (Permutation_map f (symmetry (Permutation_middle l1 l2 n))). by constructor. }
  assert (NoDup (map um_letter (l1 ++ n :: l2))) as Hl' by by apply Hnd.
  constructor; cbn [with_modes with_handlers usermodes AllUmodes next_umode umode_letter_to_handler umode_objects]; try done.
  - simpl. lia.
  - destruct Hbits as [B B']. split; [|by apply Hnd]. apply Forall_app in B as [? ?]. apply Forall_app. by split; [|constructor].
  - apply Hnd; [done|]. intros (um & Eu & Hu)%list_elem_of_fmap. apply (proj1 (Forall_forall _ _) Hm) in Hu as (_ & _ & Hlt & _). simpl in Eu. lia.
  - eapply Forall_impl; [exact Hm|]. intros um (? & ? & ? & ?). split_and!; [done..|lia|done].
  - by apply handlers_fresh.
  - intros m. destruct (Ho m) as [Hn Hid]. split; [done|]. intros id. rewrite Hid.
    split; intros (um & Hu & Eid & Eo); exists um; (split; [|done]); revert Hu; rewrite !elem_of_app, !elem_of_cons; [tauto|].
    intros [?|[->|?]]; [auto|done|auto].
  - intros Ha. apply umode_insert_sorted; [|done..|by apply Hs].
    apply Forall_map, Forall_forall. intros um Hu. apply (proj1 (Forall_forall _ _) Ha).
    apply elem_of_app in Hu as [Hu|[->|Hu]%elem_of_cons]; [|done|].
    all: assert (um ∈ l1 ++ l2) as Hu' by (apply elem_of_app; auto); apply (proj1 (Forall_forall _ _) Hm) in Hu' as (Hu' & _);
      apply list_elem_of_fmap; by exists (um_name um, um_letter um).
Qed.

Lemma UmodeAdd_ok names r module name ch glob unset allowed mode :
  names_ok names → (name, ch) ∈ names → reg_ok names r →
  ∃ r' id, UmodeAdd module (Some name) ch glob unset allowed mode r = Ok (r', id) ∧ reg_ok names r' ∧
    (abs r', bool_decide (is_Some id)) = spec_add module name ch unset allowed (abs r) ∧ extends r r' ∧
    (∀ v, v ≠ mode → longs r' v = longs r v) ∧
    (is_Some id → ∃ um, um ∈ usermodes r' ∧ um_letter um = ch ∧ um_mode um = longs r' mode ∧ attrs um = UAttrs name unset allowed false module ∧
      (glob = true → has_mode (SendUmodes r') um = true)).
Proof.
  intros Hnames Hname Hr. unfold UmodeAdd. destruct (proj1 (Forall_forall _ _) (no_given _ Hnames) _ Hname) as [Hne Hnz]. simpl in Hne, Hnz.
  destruct name as [|x name]; [done|]. rewrite (reg_ok_find names r _ ch Hnames Hname Hr).
  assert (∀ x, ∃ r' id, Ok (with_error module x r, @None nat) = Ok (r', id) ∧ reg_ok names r' ∧ (abs r', bool_decide (is_Some id)) = (abs r, false) ∧
    extends r r' ∧ (∀ v, v ≠ mode → longs r' v = longs r v) ∧ (is_Some id → False)) as Hfail.
  { intros e. eexists _, _. split; [done|]. split_and!; [by apply with_error_ok|unfold abs; by rewrite with_error_modes| |by intros; rewrite with_error_longs|by intros [? ?]].
    apply ureg_extends_refl; [apply with_error_modes|apply with_error_send]. }
  unfold spec_add. destruct (find (λ um, um_letter um =? ch) (usermodes r)) as [um0|] eqn:Ef.
  - apply find_split in Ef as (l1 & l2 & E & Ech & _). apply Z.eqb_eq in Ech as <-.
    assert (abs r !! um_letter um0 = Some (attrs um0)) as ->.
    { apply abs_lookup; [by apply (ro_letters names)|]. exists um0. split; [rewrite E; apply elem_of_app; right; constructor|done]. }
    cbn [attrs ua_unloaded]. destruct (um_unloaded um0) eqn:Eu; simpl negb; cbv iota.
    + destruct (fill_step names r _ l1 l2 _ um0 module (x :: name) (um_letter um0) glob unset allowed mode Hnames Hname
        (pre_existing names r l1 um0 l2 Hr E Eu) eq_refl) as (r' & E' & H1 & H2 & H3 & H4 & H5); [right; done|done..|].
      exists r', (Some (um_id um0)). split_and!; [done|done|by rewrite H2|done..].
    + destruct (Hfail MODERR_EXISTS) as (r' & id & H1 & H2 & H3 & H4 & H5 & H6). exists r', id. split_and!; [done..|]. intros ?. by destruct H6.
  - assert (ch ∉ map um_letter (usermodes r)) as Hch.
    { intros (um & -> & Hu%list_elem_of_In)%list_elem_of_fmap. apply (find_none _ _ Ef) in Hu. by rewrite Z.eqb_refl in Hu. }
    assert (abs r !! ch = None) as ->.
    { apply eq_None_not_Some. intros [a (um & Hu & E & _)%abs_lookup]; [|by apply (ro_letters names)]. apply Hch, list_elem_of_fmap. eauto. }
    unfold abs at 2. rewrite (abs_size _ (ro_letters _ _ Hr)).
    destruct (free_bit (usermodes r)) as [b|] eqn:Eb.
    + pose proof Eb as Eb'. apply free_bit_some in Eb' as [Hb1 Hb2]. 
      destruct (Nat.leb_spec UMODE_BITS (length (usermodes r))) as [Hle|_]; [apply (free_bit_none _ (ro_bits _ _ Hr)) in Hle; congruence|].
      destruct (pre_new names r ch b) as (l1 & l2 & r1 & E & E1 & E2 & -> & Hpre); [done..|apply list_elem_of_fmap; by exists (x :: name, ch)|]. cbn [rbind].
      destruct (fill_step names r r1 l1 l2 _ _ module (x :: name) ch glob unset allowed mode Hnames Hname Hpre eq_refl) as (r' & E' & H1 & H2 & H3 & H4 & H5); [by left|done..|].
      eexists r', _. split_and!; [exact E'|done|by rewrite H2|done..].
    + apply (free_bit_none _ (ro_bits _ _ Hr)) in Eb. rewrite (proj2 (Nat.leb_le _ _) Eb).
      destruct (Hfail MODERR_NOSPACE) as (r' & id & H1 & H2 & H3 & H4 & H5 & H6). exists r', id. split_and!; [done..|]. intros ?. by destruct H6.
Qed.

(** ** Strings are short, and users lose the bits of modes that go *)

Lemma change_length u old mask st um : (length (umode_change u old mask st um).2 ≤ length st.2 + 2)%nat.
Proof. destruct st as [what buf]. unfold umode_change. repeat case_match; simpl; rewrite ?length_app; simpl; lia. Qed.
Lemma build_length r u old mask : bits_ok (usermodes r) → (length (build_umode_string r u old mask) <= 124)%nat.
Proof.
  intros Hb%bits_ok_length. unfold build_umode_string.
  assert (∀ l st, (length (foldl (umode_change u old mask) st l).2 ≤ length st.2 + 2 * length l)%nat) as H.
  { induction l as [|um l IH]; intros st; simpl; [lia|]. etransitivity; [apply IH|]. pose proof (change_length u old mask st um). lia. }
  specialize (H (usermodes r) (None, [])). simpl in H. unfold UMODE_BITS in Hb. lia.
Qed.

Definition umode_messages (cf : uconf) (r : ureg) (u : umuser) (show_to_user : bool) (old : Z) : list uevent :=
  let buf := build_umode_string r u old (SendUmodes r) in
  let all := build_umode_string r u old (AllUmodes r) in
  map (λ s, SendUMODE2 s buf) (base.filter (λ s, s ≠ mu_id u ∧ s ≠ mu_direction u ∧ buf ≠ []) (server_list cf)) ++
  if MyUser u && show_to_user then
    match all with [] => [] | _ => if mu_named_modes u then map SendPROP (prop_lines r all) else [SendMODE all] end
  else [].
Lemma send_umode_out_ok cf r u show old : bits_ok (usermodes r) → send_umode_out cf r u show old = Ok (umode_messages cf r u show old).
Proof.
  intros Hb. unfold send_umode_out.
  rewrite (proj2 (Nat.ltb_lt _ _)) by (pose proof (build_length r u old (SendUmodes r) Hb); lia). cbn [rbind require].
  rewrite (proj2 (Nat.ltb_lt _ _)) by (pose proof (build_length r u old (AllUmodes r) Hb); lia). done.
Qed.

(** The bits of a user are those of modes of the list. *)
Definition covered (l : list Umode) (m : Z) : Prop := ∀ k, 0 ≤ k → Z.testbit m k = true → ∃ um, um ∈ l ∧ um_mode um = 2 ^ k.
(** The same, but for the bits of [S]. *)
Definition covered_but (S : Z → Prop) (l : list Umode) (m : Z) : Prop :=
  ∀ k, 0 ≤ k → Z.testbit m k = true → S k ∨ ∃ um, um ∈ l ∧ um_mode um = 2 ^ k.
Definition users_covered (S : Z → Prop) (l : list Umode) (us : list umuser) : Prop :=
  Forall (λ u, MyUser u = true → covered_but S l (mu_umodes u)) us.
Lemma covered_none l m : covered_but (λ _, False) l m ↔ covered l m.
Proof. split; intros H k Hk Ht; [by destruct (H k Hk Ht)|right; by apply H]. Qed.

Definition lose_bit (bit : Z) (u : umuser) : umuser :=
  if MyUser u && negb (Z.land (mu_umodes u) bit =? 0) then clear_bits bit u else u.
Lemma unload_from_users_ok cf r bit us : bits_ok (usermodes r) →
  ∃ out, unload_from_users cf r bit us = Ok (map (lose_bit bit) us, out).
Proof.
  intros Hb. induction us as [|u us [out IH]]; [by eexists|]. cbn [unload_from_users map]. unfold lose_bit at 1.
  destruct (_ && _); [rewrite send_umode_out_ok by done; cbn [rbind]|]; rewrite IH; cbn [rbind]; by eexists.
Qed.

Lemma MyUser_umodes m u : MyUser (set_umodes m u) = MyUser u.
Proof. by destruct u. Qed.
Lemma umodes_set m u : mu_umodes (set_umodes m u) = m.
Proof. by destruct u. Qed.
Lemma MyUser_lose bit u : MyUser (lose_bit bit u) = MyUser u.
Proof. unfold lose_bit. destruct (_ && _); [by apply MyUser_umodes|done]. Qed.

(** Nothing but the modes of users changes. *)
Definition lost (us us' : list umuser) : Prop := Forall2 (λ u u', ∃ m, u' = set_umodes m u) us us'.
#[global] Instance lost_preorder : PreOrder lost.
Proof.
  split.
  - intros us. apply Forall_Forall2_diag, Forall_forall. intros u _. exists (mu_umodes u). by destruct u.
  - intros us us' us'' H1. revert us''. induction H1 as [|u u' us us' [m ->] H1 IH]; intros us'' H2; [done|].
    inversion H2 as [|? u'' ? ? [m' ->] H3]; subst. constructor; [exists m'; by destruct u|by apply IH].
Qed.
Lemma lost_lose bit us : lost us (map (lose_bit bit) us).
Proof.
  induction us as [|u us IH]; [done|]. constructor; [|done]. unfold lose_bit, clear_bits. destruct (_ && _); [by eexists|].
  exists (mu_umodes u). by destruct u.
Qed.

Lemma lose_covered S l um m : bits_ok l → NoDup (map um_id l) → um ∈ l → covered_but S l m →
  covered_but S (base.filter (λ x, um_id x ≠ um_id um) l) (Z.land m (Z.lnot (um_mode um))).
Proof.
  intros Hb Hi Hu Hc k Hk Ht. destruct (mode_pow l um Hb Hu) as (j & Hj & Ej). rewrite Ej, clear_testbit in Ht by lia.
  apply andb_true_iff in Ht as [Ht Hne%negb_true_iff%Z.eqb_neq]. destruct (Hc k Hk Ht) as [?|(x & Hx & Ex)]; [by left|].
  right. exists x. split; [|done]. apply list_elem_of_filter. split; [|done]. intros Ei. apply Hne.
  rewrite (NoDup_map_inj um_id l x um Hi Hx Hu Ei), Ej in Ex. apply pow2_inj; [lia..|done].
Qed.
Lemma lose_users S l um us : bits_ok l → NoDup (map um_id l) → um ∈ l → users_covered S l us →
  users_covered S (base.filter (λ x, um_id x ≠ um_id um) l) (map (lose_bit (um_mode um)) us).
Proof.
  intros Hb Hi Hu Hc. apply Forall_map. eapply Forall_impl; [exact Hc|]. intros u Hcu. simpl. rewrite MyUser_lose. intros Hm.
  specialize (Hcu Hm). unfold lose_bit. rewrite Hm. simpl. destruct (Z.eqb_spec (Z.land (mu_umodes u) (um_mode um)) 0) as [E|E]; simpl.
  - pose proof (lose_covered S l um _ Hb Hi Hu Hcu) as H. destruct (mode_pow l um Hb Hu) as (j & Hj & Ej). rewrite Ej in *.
    intros k Hk Ht. apply H; [done|]. rewrite clear_testbit, Ht by lia. simpl. apply negb_true_iff, Z.eqb_neq. intros <-.
    apply Z.eqb_eq in E. rewrite land_pow2, Ht in E by lia. done.
  - unfold clear_bits. rewrite umodes_set. by apply lose_covered.
Qed.

(** ** Modes that go, and modules that are unloaded *)

Definition builtin_var (v : longvar) : Prop := ∀ n, v ≠ LongOf n.
Record keeps (r r' : ureg) : Prop := Keeps {
  ke_modes : ∀ um, um ∈ usermodes r → um_unloaded um = false → um_owner um = None → um ∈ usermodes r';
  ke_longs : ∀ v, builtin_var v → longs r' v = longs r v;
  ke_send : ∀ um, um ∈ usermodes r → um_unloaded um = false → um_owner um = None → has_mode (SendUmodes r') um = has_mode (SendUmodes r) um
}.
#[global] Instance keeps_preorder : PreOrder keeps.
Proof.
  split; [by constructor|]. intros r r' r'' [H1 H2 H3] [K1 K2 K3]. constructor; [eauto| |].
  - intros v Hv. by rewrite K2, H2.
  - intros um Hu H H'. rewrite K3, H3 by eauto. done.
Qed.

Lemma filter_sorted (l : list Umode) id : StronglySorted before (map um_letter l) → StronglySorted before (map um_letter (base.filter (λ m, um_id m ≠ id) l)).
Proof. intros Hs. eapply sorted_sublist; [|exact Hs]. apply (fmap_sublist _), sublist_filter. Qed.
Lemma filter_nodup {A} (f : Umode → A) (l : list Umode) id : NoDup (map f l) → NoDup (map f (base.filter (λ m, um_id m ≠ id) l)).
Proof. intros Hs. eapply sublist_NoDup; [exact Hs|]. apply (fmap_sublist _), sublist_filter. Qed.

Lemma umode_commit_ok S cf names r um us :
  names_ok names → reg_ok names r → um ∈ usermodes r → um_owner um = None → users_covered S (usermodes r) us →
  ∃ r' out, unload_usermode_commit cf (um_id um) r us = Ok (r', map (lose_bit (um_mode um)) us, out) ∧ reg_ok names r' ∧
    usermodes r' = base.filter (λ m, um_id m ≠ um_id um) (usermodes r) ∧ abs r' = delete (um_letter um) (abs r) ∧
    umode_objects r' = umode_objects r ∧ longs r' = longs r ∧ SendUmodes r' = SendUmodes r ∧
    users_covered S (usermodes r') (map (lose_bit (um_mode um)) us).
Proof.
  intros Hn Hr Hu Ho Hc. pose proof (letters_given _ _ Hn (ro_modes _ _ Hr)) as Hnz. destruct Hr as [Hb Hl Hi Hm Hh _ Hobj Hs].
  unfold unload_usermode_commit. rewrite find_id by done. destruct (unload_from_users_ok cf r (um_mode um) us Hb) as [out ->]. cbn [rbind].
  unfold make_umodestr. cbn [with_modes with_handlers usermodes]. set (l' := base.filter _ _).
  assert (bits_ok l') as Hb'.
  { destruct Hb as [B1 B2]. split; [eapply sublist_Forall; [apply sublist_filter|done]|by apply filter_nodup]. }
  assert (umode_letters l' = map um_letter l') as El by (apply umode_letters_all; eapply sublist_Forall; [apply sublist_filter|done]).
  rewrite (proj2 (Nat.leb_le _ _)) by (rewrite El, length_map; pose proof (bits_ok_length _ Hb'); unfold UMODE_BITS, UMODETABLESZ in *; lia).
  cbn [rbind require]. eexists _, out. split; [done|]. split_and!; cbn; [|done| |done..|by apply lose_users].
  - constructor; cbn; [done|by apply filter_nodup|by apply filter_nodup|eapply sublist_Forall; [apply sublist_filter|done]| |done| |intros; by apply filter_sorted, Hs].
    + apply set_letter_exact; [by apply filter_nodup|]. by apply handlers_delete.
    + intros m. destruct (Hobj m) as [H1 H2]. split; [done|]. intros id. rewrite H2. unfold l'.
      split; intros (x & Hx & Ex & Em); exists x; rewrite list_elem_of_filter in *; (split; [|done]); [|tauto].
      split; [|done]. intros E. rewrite (NoDup_map_inj um_id _ x um Hi Hx Hu E) in Em. congruence.
  - apply map_eq. intros c. apply option_eq. intros a. change (abs_list l' !! c = Some a ↔ delete (um_letter um) (abs_list (usermodes r)) !! c = Some a).
    rewrite lookup_delete_Some, !abs_lookup by (done || by apply filter_nodup).
    unfold l'. split.
    + intros (x & [Hne Hx]%list_elem_of_filter & <- & <-). split; [|eauto]. intros E. apply Hne. by rewrite (NoDup_map_inj um_letter _ um x Hl Hu Hx E).
    + intros (Hne & x & Hx & <- & <-). exists x. split; [|done]. apply list_elem_of_filter. split; [|done].
      intros E. apply Hne. by rewrite (NoDup_map_inj um_id _ x um Hi Hx Hu E).
Qed.

Definition free_umode (rehashing : bool) (m : Umode) : Umode :=
  MkUmode (um_id m) (um_mode m) (um_letter m) (um_name m) (um_unset_on_deoper m) (um_allowed m) (um_unloaded m || rehashing) None.

Lemma remove_object_spec id l x : NoDup l → x ∈ remove_object id l ↔ x ∈ l ∧ x ≠ id.
Proof.
  induction 1 as [|y l Hy Hl IH]; simpl; [by split; [intros ?%elem_of_nil|intros [?%elem_of_nil _]]|]. destruct (Nat.eqb_spec y id) as [->|]; rewrite !elem_of_cons, ?IH.
  - split; [intros Hx; split; [by right|by intros ->]|tauto].
  - split; [intros [->|[??]]; auto|intros [[->|?] ?]; auto].
Qed.
Lemma remove_object_NoDup id l : NoDup l → NoDup (remove_object id l).
Proof.
  induction 1 as [|y l Hy Hl IH]; simpl; [constructor|]. destruct (y =? id)%nat; [done|]. constructor; [|done].
  rewrite remove_object_spec by done. tauto.
Qed.

Lemma owned_remove o l1 x y l2 m : NoDup (map um_id (l1 ++ x :: l2)) → um_owner y = None →
  owned o (l1 ++ x :: l2) m → owned (Some (remove_object (um_id x) (default [] o))) (l1 ++ y :: l2) m.
Proof.
  intros Hi Hy [Hn Ho]. split; simpl; [by apply remove_object_NoDup|]. intros id. rewrite remove_object_spec, Ho by done. split.
  - intros [(um & [Hu|[->|Hu]%elem_of_cons]%elem_of_app & E & Em) Hne]; [|congruence|]; exists um;
      (split; [rewrite elem_of_app, elem_of_cons; auto|done]).
  - intros (um & [Hu|[->|Hu]%elem_of_cons]%elem_of_app & E & Em); [|congruence|];
      (split; [exists um; split; [rewrite elem_of_app, elem_of_cons; auto|done]|rewrite <-E; eapply (middle_ne um_id); eauto]).
Qed.

Lemma free_umode_ok names r rehashing um m : reg_ok names r → um ∈ usermodes r → um_owner um = Some m →
  let r1 := with_objects (<[m := remove_object (um_id um) (default [] (umode_objects r !! m))]> (umode_objects r))
              (with_modes (update_umode (um_id um) (free_umode rehashing) (usermodes r)) r) in
  ∃ l1 l2, usermodes r = l1 ++ um :: l2 ∧ usermodes r1 = l1 ++ free_umode rehashing um :: l2 ∧
    reg_ok names r1 ∧ abs r1 = <[um_letter um := attrs (free_umode rehashing um)]> (abs r).
Proof.
  intros [Hb Hl Hi Hm Hh Hst Hobj Hs] Hu Ho r1. apply list_elem_of_split in Hu as (l1 & l2 & E). exists l1, l2. set (f := free_umode rehashing um).
  assert (usermodes r1 = l1 ++ f :: l2) as E1 by (unfold r1; cbn; rewrite E in *; by apply update_middle). rewrite E in *.
  assert (map um_letter (l1 ++ um :: l2) = map um_letter (l1 ++ f :: l2)) as E2 by by apply map_middle.
  split_and!; [done..| |].
  - constructor; rewrite ?E1; cbn [r1 with_objects with_modes AllUmodes next_umode umode_letter_to_handler umodestring umode_objects]; rewrite <-?E2; [| |  | |  | |intros m'|done]; try done.
    + destruct Hb as [B1 B2]. split; [rewrite <-Forall_map in *|]; by rewrite <-(map_middle um_mode l1 um f l2).
    + by rewrite <-(map_middle um_id l1 um f l2).
    + apply Forall_app in Hm as [? [(?&?&?&?) ?]%Forall_cons]. apply Forall_app. split; [done|constructor; [|done]]. by split_and!.
    + by eapply handlers_change; [| |exact Hh].
    + specialize (Hobj m') as Hm'. destruct (decide (m = m')) as [<-|Hne].
      * rewrite lookup_insert_eq. by apply owned_remove.
      * rewrite lookup_insert_ne by done. eapply owned_change; [| | |exact Hm']; [done|congruence|done].
  - unfold abs. rewrite E1, E. rewrite (abs_middle l1 um l2 Hl). rewrite E2 in Hl. rewrite (abs_middle l1 f l2 Hl). by rewrite insert_insert_eq.
Qed.

Definition free_attrs (x : uattrs) : uattrs := UAttrs (ua_name x) (ua_unset x) (ua_allowed x) true None.
(** Unloading a module gives up its modes, at once or, while the configuration
    is read again, only marked. *)
Definition spec_unload (rehashing : bool) (m : nat) (a : gmap Z uattrs) : gmap Z uattrs :=
  if rehashing then (λ x, if decide (ua_owner x = Some m) then free_attrs x else x) <$> a
  else base.filter (λ p, ua_owner p.2 ≠ Some m) a.
(** At the end of the rehash what is still marked goes. *)
Definition spec_unused (a : gmap Z uattrs) : gmap Z uattrs := base.filter (λ p, ua_unloaded p.2 = false) a.

Lemma spec_unload_step rehashing m c x a : a !! c = Some x → ua_owner x = Some m →
  spec_unload rehashing m (if rehashing then <[c := free_attrs x]> a else delete c a) = spec_unload rehashing m a.
Proof.
  intros Hc Ho. unfold spec_unload. apply map_eq. intros i. destruct rehashing.
  - rewrite !lookup_fmap. destruct (decide (c = i)) as [<-|Hi]; [|by rewrite lookup_insert_ne].
    rewrite lookup_insert_eq, Hc. simpl. by destruct (decide (ua_owner x = Some m)).
  - apply option_eq. intros y. rewrite !map_lookup_filter_Some, lookup_delete_Some. split; [tauto|].
    intros [Hi Hy]. split_and!; [|done|done]. intros ->. simpl in Hy. congruence.
Qed.

Lemma abs_some names r c x : reg_ok names r → abs r !! c = Some x ↔ ∃ um, um ∈ usermodes r ∧ um_letter um = c ∧ attrs um = x.
Proof. intros Hr. apply abs_lookup, (ro_letters names r Hr). Qed.

Lemma UmodeDel_ok S cf names r rehashing id m rest us :
  names_ok names → reg_ok names r → umode_objects r !! m = Some (id :: rest) → users_covered S (usermodes r) us →
  ∃ r' us' out, UmodeDel cf rehashing id r us = Ok (r', us', out) ∧ reg_ok names r' ∧ umode_objects r' !! m = Some rest ∧
    spec_unload rehashing m (abs r') = spec_unload rehashing m (abs r) ∧ keeps r r' ∧ users_covered S (usermodes r') us' ∧ lost us us'.
Proof.
  intros Hn Hr Hobj Hc. pose proof (ro_objects _ _ Hr m) as [_ Ho]. rewrite Hobj in Ho. simpl in Ho.
  destruct (proj1 (Ho id) ltac:(constructor)) as (um & Hu & <- & Em).
  destruct (free_umode_ok names r rehashing um m Hr Hu Em) as (l1 & l2 & E & E1 & Hr1 & Ha).
  unfold UmodeDel. rewrite (find_id _ _ (ro_ids _ _ Hr) Hu), Em. fold (free_umode rehashing).
  set (r1 := with_objects _ _) in *. set (f := free_umode rehashing um) in *.
  assert (umode_objects r1 !! m = Some rest) as Hobj1.
  { unfold r1. cbn. rewrite lookup_insert_eq, Hobj. simpl. by rewrite Nat.eqb_refl. }
  assert (abs r !! um_letter um = Some (attrs um)) as Hau by (apply (abs_some names); eauto).
  assert (keeps r r1) as Hk1.
  { constructor; [|done..]. rewrite E, E1. intros x [Hx|[->|Hx]%elem_of_cons]%elem_of_app _ Hox; [|congruence|]; rewrite elem_of_app, elem_of_cons; auto. }
  assert (users_covered S (usermodes r1) us) as Hc1.
  { eapply Forall_impl; [exact Hc|]. intros u Hcu Hm k Hk Ht. destruct (Hcu Hm k Hk Ht) as [?|(x & Hx & Ex)]; [by left|]. right. rewrite E in Hx. rewrite E1.
    apply elem_of_app in Hx as [Hx|[->|Hx]%elem_of_cons]; [exists x|exists f|exists x]; (split; [rewrite elem_of_app, elem_of_cons; auto|done]). }
  destruct rehashing.
  - exists r1, us, []. split_and!; [done|done|done| |done|done|done]. rewrite Ha. rewrite <-(spec_unload_step true m (um_letter um) (attrs um) _ Hau Em).
    unfold f, free_umode, attrs, free_attrs. simpl. by rewrite orb_true_r.
  - destruct (umode_commit_ok S cf names r1 f us Hn Hr1) as (r' & out & Ec & Hr' & El & Ea & Eo & Elo & Ese & Hc'); [rewrite E1; apply elem_of_app; right; constructor|done..|].
    exists r', (map (lose_bit (um_mode um)) us), out. split_and!; [exact Ec|done|by rewrite Eo| | |done|apply lost_lose].
    + rewrite Ea, Ha. cbn [f free_umode um_letter]. rewrite delete_insert_eq. by rewrite (spec_unload_step false m (um_letter um) (attrs um) _ Hau Em).
    + constructor; [|by rewrite Elo|by rewrite Ese]. intros x Hx Hun Hox. rewrite El. apply list_elem_of_filter.
      split; [|by apply (ke_modes _ _ Hk1)]. cbn [f free_umode um_id]. intros Ei.
      rewrite (NoDup_map_inj um_id _ x um (ro_ids _ _ Hr) Hx Hu Ei) in Hox. congruence.
Qed.

Lemma spec_unload_none rehashing m a : (∀ c x, a !! c = Some x → ua_owner x ≠ Some m) → spec_unload rehashing m a = a.
Proof.
  intros Ha. unfold spec_unload. apply map_eq. intros c. destruct rehashing.
  - rewrite lookup_fmap. destruct (a !! c) as [x|] eqn:E; [|done]. simpl. destruct (decide _); [|done]. by apply Ha in E.
  - apply option_eq. intros x. rewrite map_lookup_filter_Some. simpl. split; [by intros [? _]|]. intros Hx. split; [done|]. by eapply Ha.
Qed.

Lemma unload_module_ok S cf names r rehashing m us :
  names_ok names → reg_ok names r → users_covered S (usermodes r) us →
  ∃ r' us' out, unload_module cf rehashing m r us = Ok (r', us', out) ∧ reg_ok names r' ∧
    abs r' = spec_unload rehashing m (abs r) ∧ keeps r r' ∧ users_covered S (usermodes r') us' ∧ lost us us'.
Proof.
  intros Hn Hr Hc. unfold unload_module.
  assert (∀ ids r us, reg_ok names r → users_covered S (usermodes r) us → default [] (umode_objects r !! m) = ids →
    ∃ r' us' out, unload_objects cf rehashing ids r us = Ok (r', us', out) ∧ reg_ok names r' ∧
    abs r' = spec_unload rehashing m (abs r) ∧ keeps r r' ∧ users_covered S (usermodes r') us' ∧ lost us us') as H; [|by apply H].
  clear -Hn. induction ids as [|id ids IH]; intros r us Hr Hc Hobj.
  - exists r, us, []. split_and!; [done|done| |done|done|done]. symmetry. apply spec_unload_none.
    intros c x (um & Hu & _ & <-)%(abs_some names) Ho; [|done]. destruct (ro_objects _ _ Hr m) as [_ Hid]. rewrite Hobj in Hid.
    assert (um_id um ∈ @nil nat) as []%elem_of_nil by (apply Hid; eauto).
  - assert (umode_objects r !! m = Some (id :: ids)) as Hobj' by (by destruct (umode_objects r !! m); simpl in Hobj; subst).
    destruct (UmodeDel_ok S cf names r rehashing id m ids us Hn Hr Hobj' Hc) as (r1 & us1 & out1 & E1 & Hr1 & Ho1 & Ha1 & Hk1 & Hc1 & Hl1).
    destruct (IH r1 us1 Hr1 Hc1) as (r2 & us2 & out2 & E2 & Hr2 & Ha2 & Hk2 & Hc2 & Hl2); [by rewrite Ho1|].
    cbn [unload_objects]. rewrite E1. cbn [rbind]. rewrite E2. cbn [rbind]. exists r2, us2, (out1 ++ out2).
    split_and!; [done|done|by rewrite Ha2, Ha1|by etransitivity|done|by etransitivity].
Qed.

Lemma umode_unused_ok S cf names r us :
  names_ok names → reg_ok names r → users_covered S (usermodes r) us →
  ∃ r' us' out, unload_all_unused_umodes cf r us = Ok (r', us', out) ∧ reg_ok names r' ∧
    abs r' = spec_unused (abs r) ∧ keeps r r' ∧ users_covered S (usermodes r') us' ∧ lost us us'.
Proof.
  intros Hn Hr Hc. unfold unload_all_unused_umodes.
  assert (∀ l r us, reg_ok names r → users_covered S (usermodes r) us → NoDup (map um_id l) → (∀ um, um ∈ l → um ∈ usermodes r) →
    (∀ um, um ∈ usermodes r → um_unloaded um = true → um ∈ l) →
    ∃ r' us' out, unload_all_from cf l r us = Ok (r', us', out) ∧ reg_ok names r' ∧
    abs r' = spec_unused (abs r) ∧ keeps r r' ∧ users_covered S (usermodes r') us' ∧ lost us us') as H; [|by apply H; [..|apply (ro_ids names)| |]].
  clear -Hn. induction l as [|um l IH]; intros r us Hr Hc Hd Hl Hall.
  - exists r, us, []. split_and!; [done|done| |done|done|done]. symmetry. unfold spec_unused. apply map_filter_id.
    intros c x (um & Hu & _ & <-)%(abs_some names); [|done]. simpl. apply not_true_iff_false. intros Hun. by apply (Hall um Hu), elem_of_nil in Hun.
  - apply NoDup_cons in Hd as [Hd1 Hd2]. cbn [unload_all_from].
    assert (has_letter um = true) as ->.
    { unfold has_letter. apply negb_true_iff, Z.eqb_neq, (reg_ok_letter names r); [done|done|apply Hl; constructor]. }
    simpl andb. pose proof (Hl um ltac:(constructor)) as Hu. destruct (um_unloaded um) eqn:Eu.
    + assert (um_owner um = None) as Eo by (apply (proj1 (Forall_forall _ _) (ro_modes _ _ Hr) um Hu); done).
      destruct (umode_commit_ok S cf names r um us Hn Hr Hu Eo Hc) as (r1 & out1 & E1 & Hr1 & El & Ea & _ & Elo & Ese & Hc1). rewrite E1. cbn [rbind].
      destruct (IH r1 _ Hr1 Hc1 Hd2) as (r2 & us2 & out2 & E2 & Hr2 & Ha2 & Hk2 & Hc2 & Hl2).
      { intros x Hx. rewrite El. apply list_elem_of_filter. split; [|apply Hl; by constructor]. intros Ei. apply Hd1. rewrite <-Ei. by apply list_elem_of_fmap_2. }
      { intros x Hx Hun. rewrite El in Hx. apply list_elem_of_filter in Hx as [Hne Hx]. apply (Hall x Hx) in Hun. apply elem_of_cons in Hun as [->|]; done. }
      rewrite E2. cbn [rbind]. exists r2, us2, (out1 ++ out2). split_and!; [done|done| |etransitivity; [|exact Hk2]|done|etransitivity; [apply lost_lose|exact Hl2]].
      * rewrite Ha2, Ea. unfold spec_unused. apply map_eq. intros c. apply option_eq. intros x. rewrite !map_lookup_filter_Some, lookup_delete_Some.
        split; [tauto|]. intros [Hx Hun]. split_and!; [|done|done]. intros <-. simpl in Hun.
        rewrite (proj2 (abs_some names r (um_letter um) (attrs um) Hr)) in Hx by eauto. injection Hx as <-. simpl in Hun. congruence.
      * constructor; [|by rewrite Elo|by rewrite Ese]. intros x Hx Hun _. rewrite El. apply list_elem_of_filter. split; [|done].
        intros Ei. rewrite (NoDup_map_inj um_id _ x um (ro_ids _ _ Hr) Hx Hu Ei) in Hun. congruence.
    + apply IH; [done..| |].
      * intros x Hx. apply Hl. by constructor.
      * intros x Hx Hun. apply (Hall x Hx) in Hun as Hin. apply elem_of_cons in Hin as [->|]; [congruence|done].
Qed.

(** ** The start *)

Definition builtin_names : list (list Z * Z) := map (λ '(name, ch, _, _, _, _), (bs name, ch)) builtin_umodes.

(** A built-in mode is there as it was registered, and the variable has its bit. *)
Definition is_builtin (r : ureg) (b : string * Z * bool * bool * allow * longvar) (um : Umode) : Prop :=
  let '(name, ch, glob, unset, f, v) := b in
  um_letter um = ch ∧ um_mode um = longs r v ∧ um_unset_on_deoper um = unset ∧ um_allowed um = Some f ∧ um_unloaded um = false ∧
  um_owner um = None ∧ has_mode (SendUmodes r) um = glob.
#[global] Instance is_builtin_dec r b um : Decision (is_builtin r b um).
Proof. destruct b as [[[[[name ch] glob] unset] f] v]. apply _. Defined.
Definition builtins_ok (r : ureg) : Prop := Forall (λ b, ∃ um, um ∈ usermodes r ∧ is_builtin r b um) builtin_umodes.

Lemma empty_ok names : reg_ok names empty_ureg.
Proof.
  constructor; cbn; [split; constructor|constructor|constructor|constructor| |done| |constructor].
  - intros c id. split; [done|]. by intros (um & []%elem_of_nil & _).
  - intros m. split; cbn; [constructor|]. intros id. split; [by intros []%elem_of_nil|]. by intros (um & []%elem_of_nil & _).
Qed.

Lemma umode_init_ok names : names_ok names → builtin_names ⊆ names →
  ∃ r, umode_init = Ok r ∧ reg_ok names r ∧ builtins_ok r.
Proof.
  intros Hn Hin. unfold umode_init.
  assert (∀ l r, reg_ok names r → (∀ b, b ∈ l → b ∈ builtin_umodes) → ∃ r', foldl add_builtin (Ok r) l = Ok r' ∧ reg_ok names r') as H.
  { induction l as [|[[[[[name ch] glob] unset] f] v] l IH]; intros r Hr Hl; [by eexists|].
    destruct (UmodeAdd_ok names r None (bs name) ch glob unset (Some f) v Hn) as (r1 & id & E & Hr1 & _); [|done|].
    - apply Hin, list_elem_of_fmap. eexists. split; [|apply Hl; constructor]. done.
    - cbn [foldl add_builtin]. cbn [rbind]. rewrite E. cbn [rbind]. apply IH; [done|]. intros b Hb. apply Hl. by constructor. }
  destruct (H builtin_umodes empty_ureg (empty_ok names)) as (r & E & Hr); [done|]. exists r. split_and!; [done..|].
  assert (match umode_init with Ok r => bool_decide (Forall (λ b, Exists (is_builtin r b) (usermodes r)) builtin_umodes) | _ => false end = true) as Hc by (vm_compute; reflexivity).
  unfold umode_init in Hc. rewrite E in Hc. apply bool_decide_eq_true in Hc. eapply Forall_impl; [exact Hc|].
  intros b (um & Hu & Hb)%Exists_exists. exists um. split; [exact Hu|exact Hb].
Qed.

Lemma builtins_keep r r' : keeps r r' → builtins_ok r → builtins_ok r'.
Proof.
  intros [K1 K2 K3] Hb. unfold builtins_ok in *. rewrite Forall_forall in *. intros b Hin. destruct (Hb b Hin) as (um & Hu & Hub).
  assert (Forall (λ b, match b.2 with LongOf _ => False | _ => True end) builtin_umodes) as Hvars by (repeat constructor).
  assert (builtin_var b.2) as Hv by (apply (proj1 (Forall_forall _ _) Hvars) in Hin; by intros n En; rewrite En in Hin).
  destruct b as [[[[[name ch] glob] unset] f] v]. simpl in Hv. destruct Hub as (H1 & H2 & H3 & H4 & H5 & H6 & H7).
  exists um. split; [by apply K1|]. split_and!; [done|by rewrite K2|done..|by rewrite K3].
Qed.

(** The table answers for every letter of the list, and only for those. *)
Lemma find_user_mode_ok names r c : reg_ok names r →
  find_user_mode c r = Ok (match find (λ um, um_letter um =? c) (usermodes r) with Some um => um_mode um | None => 0 end).
Proof.
  intros Hr. unfold find_user_mode. pose proof (ro_handlers _ _ Hr c) as Hh.
  destruct (find _ _) as [um|] eqn:Ef.
  - apply find_some in Ef as [Hu%list_elem_of_In Ec]. apply Z.eqb_eq in Ec.
    rewrite (proj2 (Hh (um_id um)) (ex_intro _ um (conj Hu (conj Ec eq_refl)))). by rewrite (find_id _ _ (ro_ids _ _ Hr) Hu).
  - destruct (umode_letter_to_handler r !! c) as [id|]; [|done]. destruct (proj1 (Hh id) eq_refl) as (um & Hu & Ec & _).
    apply list_elem_of_In in Hu. apply (find_none _ _ Ef) in Hu. by rewrite Ec, Z.eqb_refl in Hu.
Qed.

(** ** Strings of modes *)

(** The letters of a set of modes, in the order of the list. *)
Definition letters_of (l : list Umode) (m : Z) : list Z := map um_letter (base.filter (λ um, has_mode m um) l).

Lemma get_string_ok r m : bits_ok (usermodes r) → get_usermode_string_raw r m = 43 :: letters_of (usermodes r) m.
Proof.
  intros Hb%bits_ok_length. unfold get_usermode_string_raw, get_usermode_string_raw_r, letters_of.
  change ((Strl.strlcpy [] (bs "+") 128).1) with [43]. unfold UMODE_BITS in Hb.
  assert (∀ l buf, (length buf + length l < 127)%nat →
    foldl (λ buf um, if negb (Z.land m (um_mode um) =? 0) then Strl.strlcat_letter buf (um_letter um) 128 else buf) buf l =
    buf ++ map um_letter (base.filter (λ um, has_mode m um) l)) as H; [|rewrite H; [done|simpl; lia]].
  clear. induction l as [|um l IH]; intros buf Hl; [by rewrite app_nil_r|]. simpl in Hl. cbn [foldl]. rewrite filter_cons.
  change (negb (Z.land m (um_mode um) =? 0)) with (has_mode m um). destruct (decide (has_mode m um)) as [E|E].
  - apply Is_true_true in E as ->. assert (Strl.strlcat_letter buf (um_letter um) 128 = buf ++ [um_letter um]) as ->.
    { unfold Strl.strlcat_letter. cbn [Nat.eqb orb]. destruct (Nat.leb_spec (128 - 1) (length buf)); [lia|done]. }
    rewrite IH by (rewrite length_app; simpl; lia). cbn [map]. by rewrite <-app_assoc.
  - apply Is_true_false in E as ->. apply IH. lia.
Qed.

Definition plain_letter (c : Z) : Prop := c ∉ [43; 45; 32; LF; CR; 9].
Lemma set_from_letters l k : bits_ok l → NoDup (map um_letter l) → Forall (λ um, um_mode um < 2 ^ 31) l → Forall plain_letter (map um_letter k) →
  (∀ um, um ∈ k → um ∈ l) → ∀ m, 0 ≤ m < 2 ^ 31 →
  set_usermode_from l (map um_letter k) MODE_ADD m = foldl (λ m um, Z.lor m (um_mode um)) m k.
Proof.
  intros Hb Hl Hs Hp Hin. induction k as [|um k IH]; intros m Hm; [done|]. cbn [map] in *. apply Forall_cons in Hp as [Hc Hp].
  cbn [set_usermode_from foldl].
  assert ((um_letter um =? 43) = false ∧ (um_letter um =? 45) = false ∧ ((um_letter um =? 32) || (um_letter um =? LF) || (um_letter um =? CR) || (um_letter um =? 9)) = false) as (-> & -> & ->).
  { unfold plain_letter in Hc. rewrite !not_elem_of_cons in Hc. rewrite !orb_false_iff, !Z.eqb_neq. tauto. }
  assert (um ∈ l) as Hu by (apply Hin; constructor).
  destruct (mode_pow l um Hb Hu) as (j & Hj & Ej). pose proof (proj1 (Forall_forall _ _) Hs um Hu) as Hlt. simpl in Hlt.
  assert (0 ≤ Z.lor m (um_mode um) < 2 ^ 31) as Hlor.
  { rewrite Ej in *. split; [apply Z.lor_nonneg; lia|]. destruct (Z.eq_dec (Z.lor m (2 ^ j)) 0) as [->|Hne]; [lia|].
    assert (0 < Z.lor m (2 ^ j)) by (pose proof (Z.lor_nonneg m (2 ^ j)); lia).
    apply Z.log2_lt_pow2; [lia|]. rewrite Z.log2_lor by lia. apply Z.max_lub_lt; [|by apply Z.log2_lt_pow2; lia].
    destruct (Z.eq_dec m 0) as [->|]; [done|]. apply Z.log2_lt_pow2; lia. }
  rewrite <-IH by (done || intros; apply Hin; by constructor). f_equal.
  assert (∀ l', NoDup (map um_letter l') → foldl (λ m0 u, if um_letter u =? um_letter um then i32 (Z.lor m0 (um_mode u)) else m0) m l' =
    match find (λ u, um_letter u =? um_letter um) l' with Some u => i32 (Z.lor m (um_mode u)) | None => m end) as H.
  { clear. intros l'. revert m. induction l' as [|u l' IH]; intros m Hn; [done|]. cbn [map foldl find] in *. apply NoDup_cons in Hn as [Hu Hn].
    destruct (Z.eqb_spec (um_letter u) (um_letter um)) as [E|E]; [|by apply IH]. rewrite IH by done.
    destruct (find _ l') as [v|] eqn:Ef; [|done]. apply find_some in Ef as [Hv%list_elem_of_In Ev%Z.eqb_eq].
    destruct Hu. rewrite E, <-Ev. exact (list_elem_of_fmap_2 um_letter l' v Hv). }
  rewrite H, find_letter by done. apply i32_small. lia.
Qed.

(** The modes of a string are modes of the list, as long as they fit an int. *)
Lemma set_usermode_covered r text : bits_ok (usermodes r) → Forall (λ um, um_mode um < 2 ^ 31) (usermodes r) → covered (usermodes r) (set_usermode r text).
Proof.
  intros Hb Hs. unfold set_usermode. set (l := usermodes r) in *.
  assert (∀ w c k m, (∀ um, um ∈ k → um ∈ l) → 0 ≤ m < 2 ^ 31 → covered l m →
    let m' := foldl (λ m um, if um_letter um =? c then
        i32 (match w with MODE_ADD => Z.lor m (um_mode um) | MODE_DEL => Z.land m (Z.lnot (um_mode um)) end) else m) m k in
    0 ≤ m' < 2 ^ 31 ∧ covered l m') as Hstep.
  { intros w c. induction k as [|um k IH]; intros m Hk Hm Hc; [by split|]. cbn [foldl].
    assert (um ∈ l) as Hu by (apply Hk; constructor). assert (∀ x, x ∈ k → x ∈ l) as Hk' by (intros x Hx; apply Hk; by constructor).
    destruct (um_letter um =? c); [|by apply IH]. destruct (mode_pow l um Hb Hu) as (j & Hj & Ej).
    pose proof (proj1 (Forall_forall _ _) Hs um Hu) as Hlt. simpl in Hlt. rewrite Ej in Hlt.
    assert (j < 31) as Hj' by (apply (Z.pow_lt_mono_r_iff 2); lia).
    assert (∀ x, 0 ≤ x → (∀ i, 31 ≤ i → Z.testbit x i = false) → 0 ≤ x < 2 ^ 31) as Hbound.
    { intros x Hx Hi. split; [done|]. destruct (Z.eq_dec x 0) as [->|]; [lia|]. apply Z.log2_lt_pow2; [lia|]. apply Z.nle_gt. intros Hl.
      pose proof (Hi _ Hl) as Hbit. rewrite Z.bit_log2 in Hbit by lia. done. }
    assert (∀ i, 31 ≤ i → Z.testbit m i = false) as Hhigh.
    { intros i Hi. destruct (Z.eq_dec m 0) as [->|]; [apply Z.bits_0|]. apply Z.bits_above_log2; [lia|]. assert (Z.log2 m < 31) by (apply Z.log2_lt_pow2; lia). lia. }
    assert (∀ x, 0 ≤ x < 2 ^ 31 → i32 x = x) as Hi32 by (intros x Hx; apply i32_small; lia).
    rewrite Ej. destruct w.
    - assert (0 ≤ Z.lor m (2 ^ j) < 2 ^ 31) as Hm'.
      { apply Hbound; [apply Z.lor_nonneg; split; [lia|apply Z.pow_nonneg; lia]|]. intros i Hi. rewrite set_testbit, Hhigh by lia. simpl. apply Z.eqb_neq. lia. }
      rewrite Hi32 by done. apply IH; [done|done|]. intros i Hi Ht. rewrite set_testbit in Ht by lia.
      apply orb_true_iff in Ht as [Ht|<-%Z.eqb_eq]; [by apply Hc|eauto].
    - assert (0 ≤ Z.land m (Z.lnot (2 ^ j)) < 2 ^ 31) as Hm'.
      { apply Hbound; [apply Z.land_nonneg; lia|]. intros i Hi. by rewrite clear_testbit, Hhigh by lia. }
      rewrite Hi32 by done. apply IH; [done|done|]. intros i Hi Ht. rewrite clear_testbit in Ht by lia. apply andb_true_iff in Ht as [Ht _]. by apply Hc. }
  assert (∀ t w m, 0 ≤ m < 2 ^ 31 → covered l m → covered l (set_usermode_from l t w m)) as H.
  { induction t as [|c t IH]; intros w m Hm Hc; [done|]. cbn [set_usermode_from].
    destruct (c =? 43); [by apply IH|]. destruct (c =? 45); [by apply IH|]. destruct (_ || _); [by apply IH|].
    destruct (Hstep w c l m ltac:(auto) Hm Hc) as [H1 H2]. by apply IH. }
  apply H; [lia|]. intros k _. by rewrite Z.bits_0.
Qed.

(** What is printed for modes that fit an int is read as these modes. *)
Lemma usermode_string_roundtrip r m :
  bits_ok (usermodes r) → NoDup (map um_letter (usermodes r)) → Forall plain_letter (map um_letter (usermodes r)) →
  Forall (λ um, um_mode um < 2 ^ 31) (usermodes r) → 0 ≤ m → covered (usermodes r) m →
  set_usermode r (get_usermode_string_raw r m) = m.
Proof.
  intros Hb Hl Hp Hs Hm Hc. rewrite get_string_ok by done. unfold set_usermode, letters_of. cbn [set_usermode_from]. simpl (43 =? 43). cbv iota.
  rewrite set_from_letters; [|done|done|done| | |].
  - apply Z.bits_inj'. intros k Hk.
    assert (∀ l acc, (∀ um, um ∈ l → um ∈ usermodes r) → Z.testbit (foldl (λ m um, Z.lor m (um_mode um)) acc l) k =
      Z.testbit acc k || existsb (λ um, um_mode um =? 2 ^ k) l) as H.
    { induction l as [|um l IH]; intros acc Hin; [by rewrite orb_false_r|]. cbn [foldl existsb]. rewrite IH by (intros; apply Hin; by constructor).
      destruct (mode_pow (usermodes r) um Hb) as (j & Hj & Ej); [apply Hin; constructor|]. rewrite Ej, set_testbit by lia.
      replace (2 ^ j =? 2 ^ k) with (j =? k); [by rewrite orb_assoc|]. destruct (Z.eqb_spec j k) as [->|Hne]; symmetry; [apply Z.eqb_refl|].
      apply Z.eqb_neq. intros E%pow2_inj; lia. }
    rewrite H by (by intros um [_ ?]%list_elem_of_filter). rewrite Z.bits_0. simpl. apply eq_true_iff_eq. rewrite existsb_exists. split.
    + intros (um & Hu%list_elem_of_In & E%Z.eqb_eq). apply list_elem_of_filter in Hu as [Hh _]. unfold has_mode in Hh.
      rewrite E, land_pow2, negb_involutive in Hh by done. by apply Is_true_true.
    + intros Ht. destruct (Hc k Hk Ht) as (um & Hu & E). exists um. split; [|by apply Z.eqb_eq]. apply list_elem_of_In, list_elem_of_filter.
      split; [|done]. unfold has_mode. rewrite E, land_pow2, negb_involutive by done. by apply Is_true_true.
  - rewrite Forall_map in *. eapply sublist_Forall; [apply sublist_filter|done].
  - by intros um [_ ?]%list_elem_of_filter.
  - lia.
Qed.

(** ** Examples *)

Definition standard_modes : ureg := match umode_init with Ok r => r | _ => empty_ureg end.
Definition demo_uconf : uconf :=
  UConf (OpConf [] [] []) HIDE_IDLE_TIME_OPER_USERMODE UHALLOW_ALWAYS (λ _, None) (λ _, (2, 10)) 100 (bs "kcf") [7%nat; 8%nat] (λ _ _ _, true).
Definition demo_umuser (umodes : Z) (cap : bool) : umuser :=
  UmUser 1 true true false false false None None 1 umodes None false false 0 (bs "host") (bs "cloak") cap 0 0.
Definition of_module (name : string) (ch : Z) (glob : bool) (r : ureg) : res ureg :=
  let! (r, _) := UmodeAdd (Some 1%nat) (Some (bs name)) ch glob false None (LongOf 0) r in Ok r.

(** A mode that has only a name is accepted, and the next new mode ends the
    server. *)
Lemma name_only_mode :
  (∃ r id, UmodeAdd (Some 1%nat) (Some (bs "only")) 0 true false None (LongOf 0) standard_modes = Ok (r, Some id)) ∧
  (let! r := of_module "only" 0 true standard_modes in of_module "bot" 66 true r) = UB.
Proof. split; [eexists _, _|]; vm_compute; reflexivity. Qed.

(** A local mode that gets the bit of a global mode that is gone is sent to
    other servers. *)
Lemma stale_send_bit :
  (let! r := of_module "old" 66 true standard_modes in
   let! (r, us, out) := unload_module demo_uconf false 1 r [] in
   let! r := of_module "new" 67 false r in
   let! m := find_user_mode 67 r in
   send_umode_out demo_uconf r (demo_umuser m false) false 0) = Ok [SendUMODE2 7 (bs "+C"); SendUMODE2 8 (bs "+C")].
Proof. vm_compute. reflexivity. Qed.

(** A mode that comes back under its name with another letter stays in the
    table under the old letter. *)
Lemma stale_letter :
  (let! r := of_module "mode" 66 true standard_modes in
   let! (r, us, out) := unload_module demo_uconf true 1 r [] in
   let! r := of_module "mode" 67 true r in
   let! (r, us, out) := unload_all_unused_umodes demo_uconf r [] in
   let! b := find_user_mode 66 r in let! c := find_user_mode 67 r in Ok (umodestring r, b, c)) = Ok (bs "diorstxzCHI", 1024, 1024).
Proof. vm_compute. reflexivity. Qed.

(** The 32nd mode makes all modes behind it part of what is configured. *)
Definition many_modes : res ureg :=
  foldl (λ r k, let! r := r in let! (r, _) := UmodeAdd (Some 1%nat) (Some [100; 128 + k]) (128 + k) true false None (LongOf 0) r in Ok r)
    (Ok standard_modes) (map Z.of_nat (seq 0 30)).
Lemma set_usermode_int :
  (let! r := many_modes in Ok (set_usermode r [43; 128 + 21], set_usermode r [43; 128 + 22])) = Ok (- 2 ^ 31, 0).
Proof. vm_compute. reflexivity. Qed.

(** Whoever is told modes by their names is not told that a mode is gone. *)
Lemma removal_not_told :
  let lost cap :=
    let! r := of_module "bot" 66 true standard_modes in
    let! m := find_user_mode 66 r in
    let! (r, us, out) := unload_module demo_uconf true 1 r [demo_umuser m cap] in
    let! (r, us, out) := unload_all_unused_umodes demo_uconf r us in
    Ok (map mu_umodes us, map snd out) in
  lost false = Ok ([0], [SendUMODE2 7 (bs "-B"); SendUMODE2 8 (bs "-B"); SendMODE (bs "-B")]) ∧
  lost true = Ok ([0], [SendUMODE2 7 (bs "-B"); SendUMODE2 8 (bs "-B")]).
Proof. split; vm_compute; reflexivity. Qed.
