(* ===== verification/UmodeCommand.v ===== *)
(** * Changing user modes (src/modules/mode.c, src/modules/umode2.c, src/user.c)

    The command that users and servers change user modes with, from its
    arguments to what other servers are told; the flood limit on changes of the
    host; and the modes of all local users while modules come and go. *)

From stdpp Require Import base tactics list numbers strings gmap sorting.
From Stdlib Require Import ZArith Lia.
From S2P Require Import Prelude Chars Support MemberModes Operclass Extbans UserModes.

Local Open Scope Z_scope.

Definition OPER_SNOMASKS : list Z := bs "+bBcdfxkqsSoO".

(** The counters of irccounts, with what a recount of operators would give. *)
Record ircounts := IrCounts { operators : Z; invisible : Z; recount : Z }.

Definition add_operators (n : Z) (c : ircounts) : ircounts := IrCounts (operators c + n) (invisible c) (recount c).
Definition add_invisible (n : Z) (c : ircounts) : ircounts := IrCounts (operators c) (invisible c + n) (recount c).
(** A negative number of operators is counted again. *)
Definition VERIFY_OPERCOUNT (c : ircounts) : ircounts :=
  if operators c <? 0 then IrCounts (recount c) (invisible c) (recount c) else c.

(** The counter per user; the limit and the period are those of its group. *)
Definition flood_limit_exceeded (cf : uconf) (u : umuser) : bool * umuser :=
  if negb (MyUser u) then (false, u)
  else
    let '(limit, period) := vhost_flood cf u in
    if limit <=? 0 then (false, u)
    else
      let '(count, t) := if mu_flood_t u + period <=? timeofday cf then (0, timeofday cf) else (mu_flood_count u, mu_flood_t u) in
      let count := if count <=? limit then count + 1 else count in
      (limit <? count, set_flood count t u).

(** ** The loop over the letters *)

Record umstate := UmState {
  st_user : umuser;
  st_what : mode_what;
  st_rpterror : bool;
  st_restrict_err : bool;
  st_modex_err : bool;
  st_out : list uevent
}.
Definition st_with_user (u : umuser) (s : umstate) : umstate :=
  UmState u (st_what s) (st_rpterror s) (st_restrict_err s) (st_modex_err s) (st_out s).
Definition st_emit (out : list uevent) (s : umstate) : umstate :=
  UmState (st_user s) (st_what s) (st_rpterror s) (st_restrict_err s) (st_modex_err s) (st_out s ++ out).
Definition st_set_what (w : mode_what) (s : umstate) : umstate :=
  UmState (st_user s) w (st_rpterror s) (st_restrict_err s) (st_modex_err s) (st_out s).
(** The message about changes of the host, once. *)
Definition st_modex (text : list Z) (s : umstate) : umstate :=
  if st_modex_err s then s
  else UmState (st_user s) (st_what s) (st_rpterror s) (st_restrict_err s) true (st_out s ++ [Notice text]).

(** The label def: a mode of this letter is set or unset if that is allowed. *)
Definition umode_def (cf : uconf) (r : ureg) (c : Z) (s : umstate) : res umstate :=
  let u := st_user s in
  match find (λ um, um_letter um =? c) (usermodes r) with
  | None =>
      Ok (if mu_connect u && negb (st_rpterror s)
          then UmState u (st_what s) true (st_restrict_err s) (st_modex_err s) (st_out s ++ [Numeric (bs "ERR_UMODEUNKNOWNFLAG") []])
          else s)
  | Some um =>
      let! allowed := (match um_allowed um with None => Ok true | Some a => run_allow cf r a u (st_what s) end) in
      Ok (if negb allowed then s
          else st_with_user (match st_what s with MODE_ADD => set_bits (um_mode um) u | MODE_DEL => clear_bits (um_mode um) u end) s)
  end.

Definition umode_s (cf : uconf) (r : ureg) (parv3 : option (list Z)) (c : Z) (s : umstate) : res umstate :=
  let u := st_user s in
  match st_what s with
  | MODE_DEL =>
      match parv3, mu_snomask u with
      | Some p, Some _ =>
          let u := set_snomask cf r (Some p) u in
          match mu_snomask u with None => umode_def cf r c (st_with_user u s) | Some _ => Ok (st_with_user u s) end
      | _, _ => umode_def cf r c (st_with_user (set_snomask cf r None u) s)
      end
  | MODE_ADD =>
      if IsOper r u
      then umode_def cf r c (st_with_user (set_snomask cf r (Some (default OPER_SNOMASKS parv3)) u) s)
      else Ok s
  end.

Definition umode_tx (cf : uconf) (r : ureg) (c : Z) (s : umstate) : res umstate :=
  let u := st_user s in
  let! (throttled, u) :=
    (if MyUser u && bool_decide (st_what s = MODE_DEL) then
       let! immune := permitted cf r (bs "immune:vhost-flood") u in
       Ok (if immune then (false, u) else flood_limit_exceeded cf u)
     else Ok (false, u)) in
  let s := st_with_user u s in
  let sign := match st_what s with MODE_ADD => 43 | MODE_DEL => 45 end in
  if throttled then Ok (st_modex (bs "*** Setting -" ++ [c] ++ bs " too fast. Please try again later.") (st_emit [FloodBlocked] s))
  else match userhost_allowed cf with
  | UHALLOW_ALWAYS | UHALLOW_REJOIN => umode_def cf r c s
  | UHALLOW_NEVER =>
      if MyUser u then Ok (st_modex (bs "*** Setting " ++ [sign; c] ++ bs " is disabled") s) else umode_def cf r c s
  | UHALLOW_NOCHANS =>
      if MyUser u && negb (mu_joined u =? 0)
      then Ok (st_modex (bs "*** Setting " ++ [sign; c] ++ bs " can not be done while you are on channels") s)
      else umode_def cf r c s
  end.

(** The result says whether the user was killed. *)
Definition umode_char (cf : uconf) (r : ureg) (restrict : option (list Z)) (parv3 : option (list Z)) (c : Z) (s : umstate) : res (bool * umstate) :=
  let go m := let! s := m in Ok (false, s) in
  if match restrict with Some l => strchr l c | None => false end then
    Ok (false, if st_restrict_err s then s
               else UmState (st_user s) (st_what s) (st_rpterror s) true (st_modex_err s)
                      (st_out s ++ [Notice (bs "Setting/removing of usermode(s) '" ++ default [] restrict ++ bs "' has been disabled.")]))
  else if c =? 43 then Ok (false, st_set_what MODE_ADD s)
  else if c =? 45 then Ok (false, st_set_what MODE_DEL s)
  else if (c =? 32) || (c =? 9) then Ok (false, s)
  else if c =? 115 then go (umode_s cf r parv3 c s)
  else if (c =? 111) || (c =? 79) then
    if mu_quarantined (st_user s) then Ok (true, st_emit [SendKILL] s)
    else if MyUser (st_user s) && bool_decide (st_what s = MODE_ADD) then Ok (false, s)
    else go (umode_def cf r c s)
  else if (c =? 116) || (c =? 120) then go (umode_tx cf r c s)
  else go (umode_def cf r c s).

Fixpoint umode_loop (cf : uconf) (r : ureg) (restrict parv3 : option (list Z)) (m : list Z) (s : umstate) : res (bool * umstate) :=
  match m with
  | [] => Ok (false, s)
  | c :: rest =>
      let! (killed, s) := umode_char cf r restrict parv3 c s in
      if killed then Ok (true, s) else umode_loop cf r restrict parv3 rest s
  end.

(** ** What is taken back *)

(** Letters that were not set before are removed one by one, from the start of
    the string each time. *)
Definition strip_body (oldsnomask : list Z) (s : list Z) : res (step (list Z) (list Z)) :=
  match find (λ c, negb (strchr oldsnomask c)) s with
  | None => Ok (Done s)
  | Some c => Ok (Next (delletterfromstring s c))
  end.
Definition strip_snomasks (oldsnomask s : list Z) : res (list Z) := loop (strip_body oldsnomask) (S (length s)) s.

Definition umode_strip (cf : uconf) (r : ureg) (oldumodes : Z) (oldsnomask : list Z) (s : umstate) : res umstate :=
  let u := st_user s in
  let! opermodes := permitted cf r (bs "self:opermodes") u in
  if opermodes then Ok s
  else if negb (Z.land oldumodes (longs r UMODE_OPER) =? 0) && IsOper r u then
    let u := foldl (λ u um, if um_unset_on_deoper um && negb (Z.land (mu_umodes u) (um_mode um) =? 0) && (Z.land oldumodes (um_mode um) =? 0)
                            then clear_bits (um_mode um) u else u) u (usermodes r) in
    match mu_snomask u with
    | None => Ok (st_with_user u s)
    | Some sno =>
        let! sno := strip_snomasks oldsnomask sno in
        let u := set_sno (Some sno) u in
        Ok (st_with_user (match sno with [] => remove_all_snomasks r u | _ => u end) s)
    end
  else
    let! (u, out) := remove_oper_privileges cf r u false in
    Ok (st_emit out (st_with_user u s)).

(** Modes that depend on others, and the host that is shown. *)
Definition umode_hosts (r : ureg) (dontspread : bool) (oldumodes : Z) (s : umstate) : umstate :=
  let old v := negb (Z.land oldumodes (longs r v) =? 0) in
  let u := st_user s in
  let u := if MyUser u && has_bits u UMODE_SECURE r && negb (mu_secure u) then clear_bits (longs r UMODE_SECURE) u else u in
  let u := if old UMODE_HIDE && negb (IsHidden r u) then clear_bits (longs r UMODE_SETHOST) u else u in
  let vhost := if old UMODE_SETHOST && negb (IsSetHost r u) then [SwhoisDelete (bs "vhost")] else [] in
  let hide := (IsHidden r u && negb (old UMODE_HIDE)) || (old UMODE_SETHOST && negb (IsSetHost r u) && IsHidden r u) in
  let shown := if hide then (if dontspread then [] else [SendSETHOST (mu_virthost u)]) ++ [UserhostChanged] else [] in
  let u := if hide then set_virthost (mu_cloakedhost u) u else u in
  let unhide := negb (IsHidden r u) && old UMODE_HIDE in
  let u := if unhide then set_virthost (mu_cloakedhost u) u else u in
  st_emit (vhost ++ shown ++ if unhide then [UserhostChanged] else []) (st_with_user u s).

(** An operator that is none any more, and the counters. *)
Definition umode_deoper (cf : uconf) (r : ureg) (oldumodes : Z) (s : umstate) : res umstate :=
  let u := st_user s in
  if negb (Z.land oldumodes (longs r UMODE_OPER) =? 0) && negb (IsOper r u) && mu_connect u then
    let! (u, out) := remove_oper_privileges cf r u false in
    Ok (st_emit ([OperListDel] ++ (if MyUser u then [HookLocalOper] else []) ++ out) (st_with_user u s))
  else Ok s.

Definition umode_counts (r : ureg) (oldumodes : Z) (u : umuser) (c : ircounts) : ircounts :=
  let old v := negb (Z.land oldumodes (longs r v) =? 0) in
  let c := if negb (old UMODE_OPER) && IsOper r u then add_operators 1 c else c in
  let c := if old UMODE_OPER && negb (IsOper r u) then VERIFY_OPERCOUNT (add_operators (-1) c)
           else if negb (old UMODE_HIDEOPER) && IsHideOper r u then VERIFY_OPERCOUNT (add_operators (-1) c) else c in
  let c := if old UMODE_HIDEOPER && negb (IsHideOper r u) then add_operators 1 c else c in
  let c := if negb (old UMODE_INVISIBLE) && IsInvisible r u then add_invisible 1 c else c in
  if old UMODE_INVISIBLE && negb (IsInvisible r u) then add_invisible (-1) c else c.

(** ** The command *)

Record umresult := UmResult { ur_user : umuser; ur_counts : ircounts; ur_out : list uevent; ur_killed : bool }.

(** From the end of the loop, which has left [s]. *)
Definition umode_end (cf : uconf) (r : ureg) (dontspread : bool) (oldumodes : Z) (oldsnomask : list Z) (s : umstate) (counts : ircounts) : res umresult :=
  let! s := umode_strip cf r oldumodes oldsnomask s in
  let! s := umode_deoper cf r oldumodes (umode_hosts r dontspread oldumodes s) in
  let counts := umode_counts r oldumodes (st_user s) counts in
  let! s := (if mu_connect (st_user s) && negb (IsOper r (st_user s)) then
               let! (u, out) := remove_oper_privileges cf r (st_user s) false in Ok (st_emit out (st_with_user u s))
             else Ok s) in
  let u := st_user s in
  let! sent := (if dontspread then Ok [] else send_umode_out cf r u true oldumodes) in
  Ok (UmResult u counts
        (st_out s ++ (if oldumodes =? mu_umodes u then [] else [HookUmodeChange oldumodes (mu_umodes u)]) ++ sent ++
         match mu_snomask u with
         | Some sno => if mu_connect u && negb (bool_decide (sno = oldsnomask)) then [Numeric (bs "RPL_SNOMASK") sno] else []
         | None => []
         end) false).

(** The arguments are those that are there. *)
Definition umode_change_modes (cf : uconf) (r : ureg) (dontspread : bool) (parv2 : list Z) (parv3 : option (list Z))
    (u : umuser) (counts : ircounts) : res umresult :=
  let oldumodes := mu_umodes u in
  let! restrict := (if MyUser u then let! immune := permitted cf r (bs "immune:restrict-usermodes") u in
                                     Ok (if immune then None else restrict_usermodes cf u)
                    else Ok None) in
  let oldsnomask := match mu_snomask u with Some s => (Strl.strlcpy [] s 64).1 | None => [] end in
  let! (killed, s) := umode_loop cf r restrict parv3 parv2 (UmState u MODE_ADD false false false [UserhostSave]) in
  if killed then Ok (UmResult (st_user s) counts (st_out s) true)
  else umode_end cf r dontspread oldumodes oldsnomask s counts.

(** [_cmd_umode]: [target] is the user that parv[1] names, if there is a
    parv[1] and if there is such a user. *)
Definition _cmd_umode (cf : uconf) (r : ureg) (dontspread : bool) (target : option (option nat)) (parv2 parv3 : option (list Z))
    (u : umuser) (counts : ircounts) : res umresult :=
  let answer out := Ok (UmResult u counts out false) in
  match target with
  | None => answer [Numeric (bs "ERR_NEEDMOREPARAMS") []]
  | Some None => answer (if mu_connect u then [Numeric (bs "ERR_NOSUCHNICK") []] else [])
  | Some (Some acptr) =>
      if negb (acptr =? mu_id u)%nat then answer [Numeric (bs "ERR_USERSDONTMATCH") []]
      else match parv2 with
      | None => answer (Numeric (bs "RPL_UMODEIS") (get_usermode_string r u) ::
                        match mu_snomask u with Some s => [Numeric (bs "RPL_SNOMASK") s] | None => [] end)
      | Some modes => umode_change_modes cf r dontspread modes parv3 u counts
      end
  end.

(** [cmd_umode2]: [self] is the user that the name of the client leads to; the
    arguments are those behind the command. *)
Definition cmd_umode2 (cf : uconf) (r : ureg) (dontspread : bool) (self : option nat) (parv : list (list Z))
    (u : umuser) (counts : ircounts) : res umresult :=
  match parv with
  | [] => Ok (UmResult u counts [] false)
  | modes :: rest => _cmd_umode cf r dontspread (Some self) (Some modes) (rest !! 1%nat) u counts
  end.

(** [set_user_modes_dont_spread] *)
Definition set_user_modes_dont_spread (cf : uconf) (r : ureg) (self : option nat) (umode : list Z)
    (u : umuser) (counts : ircounts) : res umresult :=
  _cmd_umode cf r true (Some self) (Some umode) None u counts.

(** ** Theory *)

(** What a change of modes leaves alone. *)
Definition base (u : umuser) : umuser := set_virthost [] (set_flood 0 0 (set_sno None (set_umodes 0 u))).
Lemma base_umodes m u : base (set_umodes m u) = base u.
Proof. by destruct u. Qed.
Lemma base_sno x u : base (set_sno x u) = base u.
Proof. by destruct u. Qed.
Lemma base_flood c t u : base (set_flood c t u) = base u.
Proof. by destruct u. Qed.
Lemma base_virthost x u : base (set_virthost x u) = base u.
Proof. by destruct u. Qed.
Lemma umodes_sno x u : mu_umodes (set_sno x u) = mu_umodes u.
Proof. by destruct u. Qed.
Lemma umodes_flood c t u : mu_umodes (set_flood c t u) = mu_umodes u.
Proof. by destruct u. Qed.
Lemma umodes_virthost x u : mu_umodes (set_virthost x u) = mu_umodes u.
Proof. by destruct u. Qed.
Lemma sno_umodes m u : mu_snomask (set_umodes m u) = mu_snomask u.
Proof. by destruct u. Qed.
Lemma sno_set x u : mu_snomask (set_sno x u) = x.
Proof. by destruct u. Qed.
Lemma sno_virthost x u : mu_snomask (set_virthost x u) = mu_snomask u.
Proof. by destruct u. Qed.
Create Rewrite HintDb umuser.
#[local] Hint Rewrite base_umodes base_sno base_flood base_virthost umodes_set umodes_sno umodes_flood umodes_virthost
  sno_umodes sno_set sno_virthost : umuser.

Lemma base_fields u v : base u = base v →
  mu_id u = mu_id v ∧ mu_connect u = mu_connect v ∧ MyUser u = MyUser v ∧ mu_server u = mu_server v ∧ mu_me u = mu_me v ∧
  mu_uline u = mu_uline v ∧ mu_operlogin u = mu_operlogin v ∧ mu_operclass u = mu_operclass v ∧ mu_secure u = mu_secure v ∧
  mu_quarantined u = mu_quarantined v ∧ mu_direction u = mu_direction v.
Proof. destruct u, v. unfold MyUser. cbn. intros [=]. by subst. Qed.

Lemma umodes_clear m u : mu_umodes (clear_bits m u) = Z.land (mu_umodes u) (Z.lnot m).
Proof. by destruct u. Qed.
Lemma umodes_setb m u : mu_umodes (set_bits m u) = Z.lor (mu_umodes u) m.
Proof. by destruct u. Qed.

Section Registry.
Variables (names : list (list Z * Z)) (r : ureg).
Hypothesis Hr : reg_ok names r.
Hypothesis Hb : builtins_ok r.

Lemma has_mode_clear m um um' : um ∈ usermodes r → um' ∈ usermodes r →
  has_mode (Z.land m (Z.lnot (um_mode um'))) um = has_mode m um && negb (um_mode um' =? um_mode um).
Proof.
  intros H1 H2. destruct (mode_pow _ um (ro_bits _ _ Hr) H1) as (j & Hj & Ej), (mode_pow _ um' (ro_bits _ _ Hr) H2) as (k & Hk & Ek).
  unfold has_mode. rewrite Ej, Ek, !land_pow2, !negb_involutive, clear_testbit by lia. f_equal. f_equal.
  destruct (Z.eqb_spec k j) as [->|Hne]; symmetry; [apply Z.eqb_refl|]. apply Z.eqb_neq. intros E%pow2_inj; lia.
Qed.
Lemma has_mode_set m um um' : um ∈ usermodes r → um' ∈ usermodes r →
  has_mode (Z.lor m (um_mode um')) um = has_mode m um || (um_mode um' =? um_mode um).
Proof.
  intros H1 H2. destruct (mode_pow _ um (ro_bits _ _ Hr) H1) as (j & Hj & Ej), (mode_pow _ um' (ro_bits _ _ Hr) H2) as (k & Hk & Ek).
  unfold has_mode. rewrite Ej, Ek, !land_pow2, !negb_involutive, set_testbit by lia. f_equal.
  destruct (Z.eqb_spec k j) as [->|Hne]; symmetry; [apply Z.eqb_refl|]. apply Z.eqb_neq. intros E%pow2_inj; lia.
Qed.

(** The mode behind a variable. *)
Definition var_entry (v : longvar) : option (string * Z * bool * bool * allow * longvar) := find (λ b, bool_decide (b.2 = v)) builtin_umodes.
Lemma var_mode v b : var_entry v = Some b → ∃ um, um ∈ usermodes r ∧ is_builtin r b um ∧ um_mode um = longs r v ∧
  ∀ m, negb (Z.land m (longs r v) =? 0) = has_mode m um.
Proof.
  intros [Hin Hv%bool_decide_eq_true]%find_some. apply list_elem_of_In in Hin.
  destruct (proj1 (Forall_forall _ _) Hb b Hin) as (um & Hu & Hub). exists um.
  destruct b as [[[[[name ch] glob] unset] f] w]. simpl in Hv. subst w.
  split_and!; [done|done|apply Hub|]. intros m. unfold has_mode. by rewrite (proj1 (proj2 Hub)).
Qed.

(** The modes of [u] are among those of [v]. *)
Definition fewer (u v : umuser) : Prop := ∀ um, um ∈ usermodes r → has_mode (mu_umodes u) um = true → has_mode (mu_umodes v) um = true.
Lemma fewer_bits u v x : fewer u v → (∃ b, var_entry x = Some b) → has_bits u x r = true → has_bits v x r = true.
Proof.
  intros Hf [b Hx]. destruct (var_mode x b Hx) as (um & Hu & _ & _ & E). unfold has_bits. rewrite !E. by apply Hf.
Qed.

Lemma clear_fewer um u : um ∈ usermodes r → fewer (clear_bits (um_mode um) u) u.
Proof. intros Hu x Hx. rewrite umodes_clear, has_mode_clear by done. by intros [? _]%andb_true_iff. Qed.
Lemma clear_var_fewer v b u : var_entry v = Some b → fewer (clear_bits (longs r v) u) u.
Proof. intros (um & Hu & _ & <- & _)%var_mode. by apply clear_fewer. Qed.
Lemma fewer_trans u v w : fewer u v → fewer v w → fewer u w.
Proof. unfold fewer. eauto. Qed.
Lemma fewer_same u v : mu_umodes u = mu_umodes v → fewer u v.
Proof. intros E um _. by rewrite E. Qed.

Lemma covered_clear S m um : um ∈ usermodes r → covered_but S (usermodes r) m → covered_but S (usermodes r) (Z.land m (Z.lnot (um_mode um))).
Proof.
  intros Hu Hc k Hk Ht. destruct (mode_pow _ um (ro_bits _ _ Hr) Hu) as (j & Hj & Ej). rewrite Ej, clear_testbit in Ht by lia.
  apply andb_true_iff in Ht as [Ht _]. by apply Hc.
Qed.
Lemma covered_set S m um : um ∈ usermodes r → covered_but S (usermodes r) m → covered_but S (usermodes r) (Z.lor m (um_mode um)).
Proof.
  intros Hu Hc k Hk Ht. destruct (mode_pow _ um (ro_bits _ _ Hr) Hu) as (j & Hj & Ej). rewrite Ej, set_testbit in Ht by lia.
  apply orb_true_iff in Ht as [Ht|<-%Z.eqb_eq]; [by apply Hc|eauto].
Qed.

(** Steps that only take modes away. *)
Record shrinks (u u' : umuser) : Prop := Shrinks {
  sh_base : base u' = base u;
  sh_fewer : fewer u' u;
  sh_covered S : covered_but S (usermodes r) (mu_umodes u) → covered_but S (usermodes r) (mu_umodes u')
}.
#[export] Instance shrinks_preorder : PreOrder shrinks.
Proof.
  split; [intros u; constructor; [done|by apply fewer_same|done]|]. intros u v w [H1 H2 H3] [K1 K2 K3]. constructor; [congruence|by eapply fewer_trans|auto].
Qed.
Lemma shrinks_same u u' : base u' = base u → mu_umodes u' = mu_umodes u → shrinks u u'.
Proof. intros H1 H2. constructor; [done|by apply fewer_same|by rewrite H2]. Qed.
Lemma shrinks_clear um u : um ∈ usermodes r → shrinks u (clear_bits (um_mode um) u).
Proof.
  intros Hu. constructor; [apply base_umodes|by apply clear_fewer|]. intros S. rewrite umodes_clear. by apply covered_clear.
Qed.
Lemma shrinks_var v u : is_Some (var_entry v) → shrinks u (clear_bits (longs r v) u).
Proof. intros [b (um & Hu & _ & <- & _)%var_mode]. by apply shrinks_clear. Qed.
Lemma shrinks_fold (f : umuser → Umode → umuser) l u :
  (∀ u um, um ∈ usermodes r → shrinks u (f u um)) → (∀ um, um ∈ l → um ∈ usermodes r) → shrinks u (foldl f u l).
Proof.
  intros Hf. revert u. induction l as [|um l IH]; intros u Hl; [reflexivity|]. simpl.
  etransitivity; [apply Hf, Hl; constructor|]. apply IH. intros x Hx. apply Hl. by constructor.
Qed.

Variable cf : uconf.

Lemma shrinks_snomasks u : shrinks u (remove_all_snomasks r u).
Proof.
  unfold remove_all_snomasks. etransitivity; [|apply shrinks_var; by vm_compute; eauto]. apply shrinks_same; by autorewrite with umuser.
Qed.
Lemma shrinks_oper_modes u : shrinks u (remove_oper_modes cf r u).
Proof.
  unfold remove_oper_modes. trans (foldl (λ u um, if um_unset_on_deoper um then clear_bits (um_mode um) u else u) u (usermodes r)).
  - apply shrinks_fold; [|done]. intros v um Hu. destruct (um_unset_on_deoper um); [by apply shrinks_clear|reflexivity].
  - case_bool_decide; [|reflexivity]. apply shrinks_var. by vm_compute; eauto.
Qed.
Lemma privileges_ok u : remove_oper_privileges cf r u false =
  Ok (remove_all_snomasks r (remove_oper_modes cf r u), if MyUser (remove_all_snomasks r (remove_oper_modes cf r u)) then [SwhoisDelete (bs "oper")] else []).
Proof. done. Qed.
Lemma shrinks_privileges u : shrinks u (remove_all_snomasks r (remove_oper_modes cf r u)).
Proof. etransitivity; [apply shrinks_oper_modes|apply shrinks_snomasks]. Qed.

(** Who lost the privileges has no mode of operators. *)
Lemma oper_modes_gone u um : um ∈ usermodes r → um_unset_on_deoper um = true → has_mode (mu_umodes (remove_oper_modes cf r u)) um = false.
Proof.
  intros Hu Hun. unfold remove_oper_modes. set (v := foldl _ _ _).
  assert (has_mode (mu_umodes v) um = false) as Hv.
  { assert (∀ l u, (∀ x, x ∈ l → x ∈ usermodes r) → um ∈ l ∨ has_mode (mu_umodes u) um = false →
      has_mode (mu_umodes (foldl (λ u um, if um_unset_on_deoper um then clear_bits (um_mode um) u else u) u l)) um = false) as H; [|by apply H; [|left]].
    clear u v. induction l as [|x l IH]; intros u Hl Hor; [by destruct Hor as [[]%elem_of_nil|]|]. simpl. apply IH; [intros; apply Hl; by constructor|].
    assert (x ∈ usermodes r) as Hx by (apply Hl; constructor).
    destruct Hor as [[->|?]%elem_of_cons|Hf]; [right| by left|right].
    - rewrite Hun, umodes_clear, has_mode_clear, Z.eqb_refl by done. by rewrite andb_false_r.
    - destruct (um_unset_on_deoper x); [|done]. by rewrite umodes_clear, has_mode_clear, Hf. }
  case_bool_decide; [|done]. destruct (var_mode UMODE_HIDLE _ eq_refl) as (x & Hx & _ & <- & _).
  by rewrite umodes_clear, has_mode_clear, Hv.
Qed.
Lemma stripped_gone u um : um ∈ usermodes r → um_unset_on_deoper um = true →
  has_mode (mu_umodes (remove_all_snomasks r (remove_oper_modes cf r u))) um = false.
Proof.
  intros Hu Hun. apply not_true_iff_false. intros H%(sh_fewer _ _ (shrinks_snomasks _)); [|done]. by rewrite oper_modes_gone in H.
Qed.
End Registry.

(** ** The loop, for a local user *)

Definition umode_paths : list (list Z) :=
  [bs "immune:restrict-usermodes"; bs "immune:vhost-flood"; bs "self:opermodes"; bs "self:unkickablemode"].
(** The operclasses of the configuration can be evaluated for these permissions. *)
Definition perms_total (cf : uconf) : Prop :=
  ∀ path c, path ∈ umode_paths → ∃ p, ValidatePermissionsForPath (cf_opers cf) path (Some c) None None None = Ok p.
(** The functions of other modules look at what a change of modes leaves alone,
    and may ask for operators. *)
Definition others_mono (cf : uconf) (r : ureg) : Prop :=
  ∀ f u v, base u = base v → (IsOper r u = true → IsOper r v = true) → other_allow cf f u MODE_ADD = true → other_allow cf f v MODE_ADD = true.

(** A user may set a mode. *)
Definition may_set (cf : uconf) (r : ureg) (u : umuser) (um : Umode) : Prop :=
  match um_allowed um with None => True | Some a => run_allow cf r a u MODE_ADD = Ok true end.

Definition restricted (restrict : option (list Z)) (c : Z) : bool := match restrict with Some l => strchr l c | None => false end.

Section Local.
Variables (names : list (list Z * Z)) (r : ureg) (cf : uconf).
Hypothesis Hr : reg_ok names r.
Hypothesis Hb : builtins_ok r.
Hypothesis Hperm : perms_total cf.
Hypothesis Hother : others_mono cf r.

Lemma permitted_total path u : path ∈ umode_paths → ∃ b, permitted cf r path u = Ok b.
Proof. intros Hp. unfold permitted. edestruct Hperm as [p ->]; [done|]. by eexists. Qed.
Lemma permitted_same path u v : base u = base v → IsOper r u = IsOper r v → permitted cf r path u = permitted cf r path v.
Proof. intros (H1 & H2 & H3 & H4 & H5 & H6 & H7 & H8 & _)%base_fields Ho. unfold permitted. by rewrite H1, H3, H4, H5, H6, H7, H8, Ho. Qed.
Lemma run_allow_total a u w : ∃ b, run_allow cf r a u w = Ok b.
Proof.
  destruct a; cbn [run_allow]; try by eexists.
  destruct (MyUser u); [|by eexists]. destruct (IsOper r u); [|by eexists]. apply permitted_total. unfold umode_paths. rewrite !elem_of_cons. auto.
Qed.

Lemma may_set_mono u v um : base u = base v → (IsOper r u = true → IsOper r v = true) → may_set cf r u um → may_set cf r v um.
Proof.
  intros Hbase Ho. unfold may_set. destruct (um_allowed um) as [a|]; [|done]. pose proof (base_fields _ _ Hbase) as (_ & _ & Hm & _).
  destruct a; cbn [run_allow]; rewrite <-?Hm; try done.
  - destruct (MyUser u); [|done]. intros [= Hu]. by rewrite Ho.
  - destruct (MyUser u); [|done]. simpl. destruct (hide_idle_time cf); try done. intros [= Hu]. by rewrite Ho.
  - destruct (MyUser u); [|done]. destruct (IsOper r u) eqn:E; [|done]. rewrite (Ho eq_refl). by rewrite (permitted_same _ u v) by (rewrite ?Ho, ?E; done).
  - intros [= Hu]. f_equal. by eapply Hother.
Qed.

(** What the user [u0] may have become. *)
Record within (letters : list Z) (u0 u : umuser) : Prop := Within {
  wi_base : base u = base u0;
  wi_oper : IsOper r u = true → IsOper r u0 = true;
  wi_gain : ∀ um, um ∈ usermodes r → has_mode (mu_umodes u) um = true →
    has_mode (mu_umodes u0) um = true ∨ (um_letter um ∈ letters ∧ may_set cf r u0 um);
  wi_covered S : covered_but S (usermodes r) (mu_umodes u0) → covered_but S (usermodes r) (mu_umodes u)
}.
Lemma within_shrinks letters u0 u v : within letters u0 u → shrinks r u v → within letters u0 v.
Proof.
  intros [H1 H2 H3 H4] [K1 K2 K3]. constructor; [congruence| |by auto|by auto].
  intros Ho. apply H2. eapply (fewer_bits r Hb); [exact K2| |exact Ho]. vm_compute; eauto.
Qed.
Lemma within_refl letters u : within letters u u.
Proof. constructor; auto. Qed.

(** Only an operator may set the mode of operators. *)
Lemma oper_may_set u um : MyUser u = true → um ∈ usermodes r → um_mode um = longs r UMODE_OPER → may_set cf r u um → IsOper r u = true.
Proof.
  intros Hm Hu E. destruct (var_mode r Hb UMODE_OPER _ eq_refl) as (x & Hx & Hxb & Ex & _).
  rewrite (mode_inj (usermodes r) um x (ro_bits _ _ Hr) Hu Hx) by congruence. destruct Hxb as (_ & _ & _ & Ea & _).
  unfold may_set. rewrite Ea. cbn [run_allow]. rewrite Hm. by intros [=].
Qed.

Lemma within_set letters u0 u um : MyUser u0 = true → um ∈ usermodes r → um_letter um ∈ letters → may_set cf r u um →
  within letters u0 u → within letters u0 (set_bits (um_mode um) u).
Proof.
  intros Hm Hu Hl Hs [H1 H2 H3 H4]. assert (may_set cf r u0 um) as Hs0 by by eapply may_set_mono.
  constructor; [by unfold set_bits; rewrite base_umodes| | |].
  - destruct (var_mode r Hb UMODE_OPER _ eq_refl) as (x & Hx & _ & Ex & Eb). unfold IsOper, has_bits. rewrite Eb, umodes_setb, (has_mode_set names r) by done.
    intros [Ho|Ho%Z.eqb_eq]%orb_true_iff; [apply H2; unfold IsOper, has_bits; by rewrite Eb|].
    apply (oper_may_set u0 um Hm Hu); [congruence|done].
  - intros x Hx. rewrite umodes_setb, (has_mode_set names r) by done. intros [Ho|Ho%Z.eqb_eq]%orb_true_iff; [by apply H3|].
    rewrite <-(mode_inj (usermodes r) um x (ro_bits _ _ Hr) Hu Hx Ho). by right.
  - intros S. rewrite umodes_setb. intros Hc. apply (covered_set names); auto.
Qed.

Lemma shrinks_set_snomask x u : shrinks r u (set_snomask cf r x u).
Proof.
  unfold set_snomask. destruct x as [s|]; [|by apply (shrinks_snomasks names)].
  set (v := set_sno _ u). assert (shrinks r u v) as Hv by (apply shrinks_same; unfold v; by autorewrite with umuser).
  destruct (mu_snomask v) as [[|]|]; [|done..]. etransitivity; [exact Hv|by apply (shrinks_snomasks names)].
Qed.

Lemma umode_def_ok letters u0 c s : MyUser u0 = true → c ∈ letters → within letters u0 (st_user s) →
  ∃ s', umode_def cf r c s = Ok s' ∧ within letters u0 (st_user s').
Proof.
  intros Hm Hc Hw. unfold umode_def. destruct (find _ _) as [um|] eqn:Ef; [|eexists; split; [done|by case_match]].
  apply find_some in Ef as [Hu%list_elem_of_In Ec%Z.eqb_eq].
  assert (∃ b, match um_allowed um with None => Ok true | Some a => run_allow cf r a (st_user s) (st_what s) end = Ok b) as [b Eb].
  { destruct (um_allowed um); [apply run_allow_total|by eexists]. }
  rewrite Eb. cbn [rbind]. eexists. split; [done|]. destruct b; [|done]. destruct s as [u w e1 e2 e3 out]. simpl in *. destruct w; simpl.
  - apply within_set; [done|done|by rewrite Ec| |done]. unfold may_set. by destruct (um_allowed um).
  - eapply within_shrinks; [done|]. by apply (shrinks_clear names).
Qed.

Lemma snomask_within letters u0 u x : within letters u0 u → within letters u0 (set_snomask cf r x u).
Proof. intros Hw. eapply within_shrinks; [done|apply shrinks_set_snomask]. Qed.

Lemma umode_s_ok letters u0 parv3 c s : MyUser u0 = true → c ∈ letters → within letters u0 (st_user s) →
  ∃ s', umode_s cf r parv3 c s = Ok s' ∧ within letters u0 (st_user s').
Proof.
  intros Hm Hc Hw. unfold umode_s. assert (∀ x, ∃ s', umode_def cf r c (st_with_user (set_snomask cf r x (st_user s)) s) = Ok s' ∧ within letters u0 (st_user s')) as Hdef.
  { intros x. apply umode_def_ok; [done..|]. by apply snomask_within. }
  destruct (st_what s).
  - destruct (IsOper r (st_user s)); [apply Hdef|by eexists].
  - destruct parv3 as [p|]; [|apply Hdef]. destruct (mu_snomask (st_user s)); [|apply Hdef].
    destruct (mu_snomask (set_snomask cf r (Some p) (st_user s))); [|apply Hdef]. eexists. split; [done|]. by apply snomask_within.
Qed.

Lemma flood_same u : base (flood_limit_exceeded cf u).2 = base u ∧ mu_umodes (flood_limit_exceeded cf u).2 = mu_umodes u.
Proof.
  unfold flood_limit_exceeded. destruct (negb _); [done|]. destruct (vhost_flood cf u) as [limit period]. destruct (limit <=? 0); [done|].
  destruct (if mu_flood_t u + period <=? timeofday cf then _ else _) as [count t]. simpl. by autorewrite with umuser.
Qed.

Lemma modex_user text s : st_user (st_modex text s) = st_user s.
Proof. unfold st_modex. by destruct (st_modex_err s). Qed.
Lemma umode_tx_ok letters u0 c s : MyUser u0 = true → c ∈ letters → within letters u0 (st_user s) →
  ∃ s', umode_tx cf r c s = Ok s' ∧ within letters u0 (st_user s').
Proof.
  intros Hm Hc Hw. unfold umode_tx.
  assert (∃ throttled u, (if MyUser (st_user s) && bool_decide (st_what s = MODE_DEL) then
       let! immune := permitted cf r (bs "immune:vhost-flood") (st_user s) in
       Ok (if immune then (false, st_user s) else flood_limit_exceeded cf (st_user s))
     else Ok (false, st_user s)) = Ok (throttled, u) ∧ within letters u0 u) as (throttled & u & -> & Hu).
  { destruct (_ && _); [|by eexists _, _]. destruct (permitted_total (bs "immune:vhost-flood") (st_user s)) as [[] ->];
      [unfold umode_paths; rewrite !elem_of_cons; auto|by eexists _, _|]. cbn [rbind].
    destruct (flood_same (st_user s)) as [E1 E2]. destruct (flood_limit_exceeded cf (st_user s)) as [b v]. simpl in *.
    eexists _, _. split; [done|]. eapply within_shrinks; [done|]. by apply shrinks_same. }
  cbn [rbind]. assert (∃ s', umode_def cf r c (st_with_user u s) = Ok s' ∧ within letters u0 (st_user s')) as Hdef by by apply umode_def_ok.
  assert (∀ text s', st_user s' = u → ∃ s'', Ok (st_modex text s') = Ok s'' ∧ within letters u0 (st_user s'')) as Hmsg.
  { intros text s' E. eexists. split; [done|]. by rewrite modex_user, E. }
  destruct throttled; [by apply Hmsg|].
  destruct (userhost_allowed cf); [done| |done|]; (match goal with |- context [if ?b then Ok (st_modex _ _) else _] => destruct b end; [by apply Hmsg|done]).
Qed.

Lemma umode_char_ok letters u0 restrict parv3 c s :
  MyUser u0 = true → (restricted restrict c = false → c ∈ letters) → within letters u0 (st_user s) →
  ∃ killed s', umode_char cf r restrict parv3 c s = Ok (killed, s') ∧ within letters u0 (st_user s') ∧ (killed = true → mu_quarantined u0 = true).
Proof.
  intros Hm Hc Hw. unfold umode_char. fold (restricted restrict c). destruct (restricted restrict c).
  { eexists false, _. split_and!; [done| |done]. by destruct (st_restrict_err s). }
  specialize (Hc eq_refl).
  assert (∀ m, (∃ s', m = Ok s' ∧ within letters u0 (st_user s')) →
    ∃ killed s', (let! s := m in Ok (false, s)) = Ok (killed, s') ∧ within letters u0 (st_user s') ∧ (killed = true → mu_quarantined u0 = true)) as Hgo.
  { intros m (s' & -> & Hs'). by exists false, s'. }
  repeat (match goal with |- context [if ?b then _ else _] => destruct b eqn:?H end);
    try (by apply Hgo, umode_def_ok || by apply Hgo, umode_s_ok || by apply Hgo, umode_tx_ok || by (eexists false, _; split_and!)).
  eexists true, _. split_and!; [done|done|]. intros _. by destruct (base_fields _ _ (wi_base _ _ _ Hw)) as (_ & _ & _ & _ & _ & _ & _ & _ & _ & <- & _).
Qed.

Lemma umode_loop_ok letters u0 restrict parv3 m : ∀ s,
  MyUser u0 = true → (∀ c, c ∈ m → restricted restrict c = false → c ∈ letters) → within letters u0 (st_user s) →
  ∃ killed s', umode_loop cf r restrict parv3 m s = Ok (killed, s') ∧ within letters u0 (st_user s') ∧ (killed = true → mu_quarantined u0 = true).
Proof.
  induction m as [|c m IH]; intros s Hm Hl Hw; cbn [umode_loop]; [by eexists false, _|].
  destruct (umode_char_ok letters u0 restrict parv3 c s) as (k & s1 & -> & Hw1 & Hk); [done|intros; apply Hl; [constructor|done]|done|].
  cbn [rbind]. destruct k; [by eexists true, _|]. apply IH; [done| |done]. intros x Hx. apply Hl. by constructor.
Qed.
End Local.

(** ** What is taken back, for every user *)

Lemma var_ne r v w b c (Hb : builtins_ok r) names (Hr : reg_ok names r) : var_entry v = Some b → var_entry w = Some c →
  b.1.1.1.1.2 ≠ c.1.1.1.1.2 → longs r v ≠ longs r w.
Proof.
  intros (um & Hu & Hub & E & _)%(var_mode r Hb) (x & Hx & Hxc & E' & _)%(var_mode r Hb) Hne Heq.
  destruct b as [[[[[? ch] ?] ?] ?] ?], c as [[[[[? ch'] ?] ?] ?] ?]. simpl in Hne. apply Hne.
  rewrite <-(proj1 Hub), <-(proj1 Hxc). f_equal. apply (mode_inj (usermodes r)); [apply (ro_bits _ _ Hr)|done|done|congruence].
Qed.

Section Tail.
Variables (names : list (list Z * Z)) (r : ureg) (cf : uconf).
Hypothesis Hr : reg_ok names r.
Hypothesis Hb : builtins_ok r.

(** Another bit is not touched. *)
Lemma clear_other v w b c u : var_entry v = Some b → var_entry w = Some c → b.1.1.1.1.2 ≠ c.1.1.1.1.2 →
  has_bits (clear_bits (longs r w) u) v r = has_bits u v r.
Proof.
  intros Hv Hw Hne. pose proof (var_ne r v w b c Hb names Hr Hv Hw Hne) as Hl.
  destruct (var_mode r Hb v b Hv) as (um & Hu & _ & E & Eb), (var_mode r Hb w c Hw) as (x & Hx & _ & E' & _).
  unfold has_bits. rewrite !Eb, umodes_clear, <-E', (has_mode_clear names r) by done.
  destruct (Z.eqb_spec (um_mode x) (um_mode um)); [congruence|by rewrite andb_true_r].
Qed.
Lemma clear_own v b u : var_entry v = Some b → has_bits (clear_bits (longs r v) u) v r = false.
Proof.
  intros Hv. destruct (var_mode r Hb v b Hv) as (um & Hu & _ & E & Eb). unfold has_bits.
  by rewrite Eb, umodes_clear, <-E, (has_mode_clear names r), Z.eqb_refl, andb_false_r by done.
Qed.
Lemma same_bits u u' v : mu_umodes u = mu_umodes u' → has_bits u v r = has_bits u' v r.
Proof. unfold has_bits. by intros ->. Qed.

(** A built-in mode that is not one of operators survives the loss of
    privileges. *)
Lemma privileges_keep v b u : var_entry v = Some b → b.1.1.2 = false → b.1.1.1.1.2 ≠ 115 → b.1.1.1.1.2 ≠ 73 →
  has_bits (remove_all_snomasks r (remove_oper_modes cf r u)) v r = has_bits u v r.
Proof.
  intros Hv Hun Hs HI. unfold remove_all_snomasks. rewrite (clear_other v UMODE_SERVNOTICE b _ _ Hv eq_refl) by done.
  rewrite (same_bits (set_sno None _) (remove_oper_modes cf r u)) by by autorewrite with umuser.
  unfold remove_oper_modes. set (w := foldl _ _ _). assert (has_bits w v r = has_bits u v r) as Hw.
  { destruct (var_mode r Hb v b Hv) as (um & Hu & Hub & E & Eb). unfold has_bits. rewrite !Eb.
    assert (um_unset_on_deoper um = false) as Hf by (destruct b as [[[[[? ?] ?] ?] ?] ?]; destruct Hub as (_ & _ & -> & _); exact Hun).
    assert (∀ l u, (∀ x, x ∈ l → x ∈ usermodes r) →
      has_mode (mu_umodes (foldl (λ u um, if um_unset_on_deoper um then clear_bits (um_mode um) u else u) u l)) um = has_mode (mu_umodes u) um) as H; [|by apply H].
    clear u w. induction l as [|x l IH]; intros u Hl; [done|]. simpl. rewrite IH by (intros; apply Hl; by constructor).
    destruct (um_unset_on_deoper x) eqn:Ex; [|done]. assert (x ∈ usermodes r) by (apply Hl; constructor).
    rewrite umodes_clear, (has_mode_clear names r) by done. destruct (Z.eqb_spec (um_mode x) (um_mode um)) as [Em|]; [|by rewrite andb_true_r].
    rewrite (mode_inj (usermodes r) x um) in Ex by (done || apply (ro_bits names r Hr)). congruence. }
  case_bool_decide; [|done]. by rewrite (clear_other v UMODE_HIDLE b _ _ Hv eq_refl).
Qed.
Lemma privileges_lost u : mu_snomask (remove_all_snomasks r (remove_oper_modes cf r u)) = None ∧
  (hide_idle_time cf = HIDE_IDLE_TIME_OPER_USERMODE → has_bits (remove_all_snomasks r (remove_oper_modes cf r u)) UMODE_HIDLE r = false).
Proof.
  split; [unfold remove_all_snomasks, clear_bits; by autorewrite with umuser|]. intros Hh.
  unfold remove_all_snomasks. rewrite (clear_other UMODE_HIDLE UMODE_SERVNOTICE _ _ _ eq_refl eq_refl) by done.
  rewrite (same_bits (set_sno None _) (remove_oper_modes cf r u)) by by autorewrite with umuser.
  unfold remove_oper_modes. rewrite bool_decide_eq_true_2 by done. by rewrite (clear_own UMODE_HIDLE _ _ eq_refl).
Qed.

(** Stripping the letters ends. *)
Lemma delletter_length s c : c ∈ s → S (length (delletterfromstring s c)) = length s.
Proof.
  induction s as [|x s IH]; [by intros ?%elem_of_nil|]. simpl. destruct (Z.eqb_spec x c) as [|Hne]; [done|].
  intros [->|Hc]%elem_of_cons; [done|]. simpl. by rewrite IH.
Qed.
Lemma strip_total old s : ∃ s', strip_snomasks old s = Ok s' ∧ Forall (λ c, strchr old c = true) s'.
Proof.
  unfold strip_snomasks. apply (loop_total (strip_body old) (λ _, True) length (Forall (λ c, strchr old c = true))); [|done|lia].
  intros x _. unfold strip_body. destruct (find _ x) as [c|] eqn:Ef.
  - eexists. split; [done|]. split; [done|]. apply find_some in Ef as [Hc _]. rewrite <-(delletter_length x c); [lia|by apply list_elem_of_In].
  - eexists. split; [done|]. apply Forall_forall. intros c Hc%list_elem_of_In. apply (find_none _ _ Ef) in Hc. by apply negb_false_iff.
Qed.

(** New modes of operators are taken back. *)
Definition strip_new (old : Z) (u : umuser) (um : Umode) : umuser :=
  if um_unset_on_deoper um && negb (Z.land (mu_umodes u) (um_mode um) =? 0) && (Z.land old (um_mode um) =? 0) then clear_bits (um_mode um) u else u.
Lemma strip_new_shrinks old u um : um ∈ usermodes r → shrinks r u (strip_new old u um).
Proof. intros Hu. unfold strip_new. destruct (_ && _); [by apply (shrinks_clear names)|reflexivity]. Qed.
Lemma strip_fold old um : um ∈ usermodes r → ∀ l u, (∀ x, x ∈ l → x ∈ usermodes r) →
  (has_mode old um = true → has_mode (mu_umodes (foldl (strip_new old) u l)) um = has_mode (mu_umodes u) um) ∧
  (um ∈ l → um_unset_on_deoper um = true → has_mode old um = false → has_mode (mu_umodes (foldl (strip_new old) u l)) um = false).
Proof.
  intros Hum. induction l as [|x l IH]; intros u Hl; [split; [done|by intros ?%elem_of_nil]|]. cbn [foldl].
  assert (x ∈ usermodes r) as Hx by (apply Hl; constructor).
  destruct (IH (strip_new old u x)) as [I1 I2]; [intros; apply Hl; by constructor|]. split.
  - intros Ho. rewrite I1 by done. unfold strip_new. destruct (_ && _) eqn:E; [|done]. apply andb_true_iff in E as [_ E].
    rewrite umodes_clear, (has_mode_clear names r) by done. destruct (Z.eqb_spec (um_mode x) (um_mode um)) as [Em|]; [|by rewrite andb_true_r].
    unfold has_mode in Ho. by rewrite <-Em, E in Ho.
  - intros [<-|Hin]%elem_of_cons Hun Ho; [|by apply I2].
    apply not_true_iff_false. intros Hh. assert (shrinks r (strip_new old u um) (foldl (strip_new old) (strip_new old u um) l)) as Hs.
    { apply shrinks_fold; [|intros; apply Hl; by constructor]. intros; by apply strip_new_shrinks. }
    apply (sh_fewer _ _ _ Hs) in Hh; [|done]. unfold strip_new in Hh. rewrite Hun in Hh. unfold has_mode in Ho. apply negb_false_iff in Ho. rewrite Ho in Hh.
    simpl in Hh. rewrite andb_true_r in Hh. fold (has_mode (mu_umodes u) um) in Hh. destruct (has_mode (mu_umodes u) um) eqn:Eh; [|congruence].
    by rewrite umodes_clear, (has_mode_clear names r), Z.eqb_refl, andb_false_r in Hh.
Qed.
End Tail.

(** ** The command, for a local user *)

Section LocalTail.
Variables (names : list (list Z * Z)) (r : ureg) (cf : uconf).
Hypothesis Hr : reg_ok names r.
Hypothesis Hb : builtins_ok r.
Hypothesis Hperm : perms_total cf.

Definition no_oper_modes (u : umuser) : Prop := ∀ um, um ∈ usermodes r → um_unset_on_deoper um = true → has_mode (mu_umodes u) um = false.
Definition local (u : umuser) : Prop := MyUser u = true ∧ mu_server u = false ∧ mu_me u = false ∧ mu_uline u = false.

Lemma no_oper_shrinks u v : shrinks r u v → no_oper_modes u → no_oper_modes v.
Proof. intros [_ Hf _] Hn um Hu Hun. apply not_true_iff_false. intros H%Hf; [|done]. by rewrite Hn in H. Qed.

(** A local user needs to be operator for a permission. *)
Lemma permitted_oper path u : local u → permitted cf r path u = Ok true → IsOper r u = true.
Proof.
  intros (Hm & Hs & He & Hu). unfold permitted, ValidatePermissionsForPath. cbn. rewrite Hs, He, Hu, Hm. simpl.
  rewrite andb_false_r. by destruct (IsOper r u).
Qed.
Lemma local_base u v : base u = base v → local v → local u.
Proof. intros (_ & _ & E1 & E2 & E3 & E4 & _)%base_fields. unfold local. by rewrite E1, E2, E3, E4. Qed.

Lemma umode_strip_ok old oldsno s : local (st_user s) →
  ∃ s', umode_strip cf r old oldsno s = Ok s' ∧ shrinks r (st_user s) (st_user s') ∧
    (IsOper r (st_user s') = false → no_oper_modes (st_user s')) ∧
    (permitted cf r (bs "self:opermodes") (st_user s) = Ok true ∨
     ∀ um, um ∈ usermodes r → um_unset_on_deoper um = true → has_mode (mu_umodes (st_user s')) um = true → has_mode old um = true).
Proof.
  intros Hl. unfold umode_strip. destruct (permitted_total r cf Hperm (bs "self:opermodes") (st_user s)) as [p Hp]; [unfold umode_paths; rewrite !elem_of_cons; auto|].
  rewrite Hp. cbn [rbind]. destruct p.
  { exists s. split_and!; [done|reflexivity| |by left]. by rewrite (permitted_oper _ _ Hl Hp). }
  destruct (var_mode r Hb UMODE_OPER _ eq_refl) as (o & Ho & Hob & Eo & EO).
  destruct (negb (Z.land old (longs r UMODE_OPER) =? 0) && IsOper r (st_user s)) eqn:E.
  - apply andb_true_iff in E as [E1 E2]. rewrite EO in E1. unfold IsOper, has_bits in E2. rewrite EO in E2.
    change (foldl _ (st_user s) (usermodes r)) with (foldl (strip_new old) (st_user s) (usermodes r)). set (u := foldl (strip_new old) _ _).
    assert (shrinks r (st_user s) u) as Hs by (apply shrinks_fold; [intros; by apply (strip_new_shrinks names)|done]).
    assert (has_bits u UMODE_OPER r = true) as Hou.
    { unfold has_bits. rewrite EO. unfold u. by rewrite (proj1 (strip_fold names r Hr old o Ho (usermodes r) (st_user s) ltac:(done)) E1). }
    assert (∀ v, shrinks r u v → has_bits v UMODE_OPER r = true →
      shrinks r (st_user s) v ∧ (IsOper r v = false → no_oper_modes v) ∧
      (∀ um, um ∈ usermodes r → um_unset_on_deoper um = true → has_mode (mu_umodes v) um = true → has_mode old um = true)) as Hfin.
    { intros v Hv Hov. split_and!; [by etransitivity|unfold IsOper; by rewrite Hov|]. intros um Hu Hun Hh%(sh_fewer _ _ _ Hv); [|done].
      destruct (has_mode old um) eqn:Eold; [done|]. unfold u in Hh. by rewrite (proj2 (strip_fold names r Hr old um Hu (usermodes r) (st_user s) ltac:(done)) Hu Hun Eold) in Hh. }
    destruct (mu_snomask u) as [sno|]; [|exists (st_with_user u s); split; [done|]; destruct (Hfin u) as (? & ? & ?); [reflexivity|done|by split_and!; [| |right]]].
    destruct (strip_total oldsno sno) as (sno' & -> & _). cbn [rbind]. eexists. split; [done|].
    destruct (Hfin (match sno' with [] => remove_all_snomasks r (set_sno (Some sno') u) | _ => set_sno (Some sno') u end)) as (? & ? & ?); [| |by split_and!; [| |right]].
    + trans (set_sno (Some sno') u); [apply shrinks_same; by autorewrite with umuser|]. destruct sno'; [by apply (shrinks_snomasks names)|reflexivity].
    + destruct sno'; [unfold remove_all_snomasks; rewrite (clear_other names r Hr Hb UMODE_OPER UMODE_SERVNOTICE _ _ _ eq_refl eq_refl) by done|];
        rewrite <-Hou; apply same_bits; by autorewrite with umuser.
  - rewrite (privileges_ok r cf). cbn [rbind]. eexists. split; [done|]. cbn [st_emit st_with_user st_user].
    split_and!; [by apply (shrinks_privileges names)| |right].
    + intros _ um Hu Hun. by apply (stripped_gone names).
    + intros um Hu Hun Hh. by rewrite (stripped_gone names) in Hh.
Qed.

Lemma shrinks_if (b : bool) v u : is_Some (var_entry v) → shrinks r u (if b then clear_bits (longs r v) u else u).
Proof. intros Hv. destruct b; [by apply (shrinks_var names)|reflexivity]. Qed.

Lemma umode_hosts_ok dontspread old s :
  let s' := umode_hosts r dontspread old s in
  shrinks r (st_user s) (st_user s') ∧ IsOper r (st_user s') = IsOper r (st_user s) ∧ IsHideOper r (st_user s') = IsHideOper r (st_user s) ∧
  IsInvisible r (st_user s') = IsInvisible r (st_user s) ∧
  (MyUser (st_user s) = true → has_bits (st_user s') UMODE_SECURE r = true → mu_secure (st_user s) = true) ∧
  (negb (Z.land old (longs r UMODE_HIDE) =? 0) = true → IsHidden r (st_user s') = false → IsSetHost r (st_user s') = false).
Proof.
  cbn zeta. unfold umode_hosts. set (u1 := if MyUser (st_user s) && _ && _ then _ else _).
  set (u2 := if negb (Z.land old (longs r UMODE_HIDE) =? 0) && _ then _ else u1).
  assert (shrinks r (st_user s) u1) as S1 by (apply shrinks_if; by vm_compute; eauto).
  assert (shrinks r u1 u2) as S2 by (apply shrinks_if; by vm_compute; eauto).
  set (u3 := if _ || _ then set_virthost _ u2 else u2). set (u4 := if negb (IsHidden r u3) && _ then _ else u3).
  cbn [st_emit st_with_user st_user].
  assert (mu_umodes u4 = mu_umodes u2 ∧ base u4 = base u2) as [E4 B4].
  { unfold u4, u3. repeat destruct (_ || _); repeat destruct (_ && _); by autorewrite with umuser. }
  assert (∀ v b, var_entry v = Some b → b.1.1.1.1.2 ∉ [122; 116] → has_bits u4 v r = has_bits (st_user s) v r) as Hkeep.
  { intros v b Hv Hne. rewrite !not_elem_of_cons in Hne. destruct Hne as (N1 & N2 & _). rewrite (same_bits r u4 u2) by done.
    trans (has_bits u1 v r); [unfold u2; generalize (negb (Z.land old (longs r UMODE_HIDE) =? 0) && negb (IsHidden r u1))|
      unfold u1; generalize (MyUser (st_user s) && has_bits (st_user s) UMODE_SECURE r && negb (mu_secure (st_user s)))]; intros [|]; [| done| |done].
    - by rewrite (clear_other names r Hr Hb v UMODE_SETHOST b _ _ Hv eq_refl).
    - by rewrite (clear_other names r Hr Hb v UMODE_SECURE b _ _ Hv eq_refl). }
  split_and!.
  - etransitivity; [exact S1|]. etransitivity; [exact S2|]. by apply shrinks_same.
  - apply (Hkeep UMODE_OPER _ eq_refl). rewrite !not_elem_of_cons, elem_of_nil. simpl; lia.
  - apply (Hkeep UMODE_HIDEOPER _ eq_refl). rewrite !not_elem_of_cons, elem_of_nil. simpl; lia.
  - apply (Hkeep UMODE_INVISIBLE _ eq_refl). rewrite !not_elem_of_cons, elem_of_nil. simpl; lia.
  - intros Hm Hsec. rewrite (same_bits r u4 u2) in Hsec by done.
    assert (has_bits u1 UMODE_SECURE r = true) as H1 by (eapply (fewer_bits r Hb); [apply S2|by vm_compute; eauto|done]).
    revert H1. unfold u1. rewrite Hm. simpl. destruct (has_bits (st_user s) UMODE_SECURE r) eqn:Es; simpl; [|by rewrite Es].
    destruct (mu_secure (st_user s)); [done|]. simpl. by rewrite (clear_own names r Hr Hb UMODE_SECURE _ _ eq_refl).
  - intros Hold Hh. unfold IsHidden, IsSetHost in *. rewrite (same_bits r u4 u2) in * by done. revert Hh. unfold u2. rewrite Hold. simpl.
    unfold IsHidden. destruct (has_bits u1 UMODE_HIDE r) eqn:Eh; simpl; [by rewrite Eh|]. intros _. by rewrite (clear_own names r Hr Hb UMODE_SETHOST _ _ eq_refl).
Qed.
End LocalTail.

(** ** The counters *)

(** Operators count unless they hide. *)
Definition visible_oper (r : ureg) (u : umuser) : bool := IsOper r u && negb (IsHideOper r u).

Lemma umode_counts_ok r u v c :
  (IsHideOper r u = true → IsOper r u = true) → (IsHideOper r v = true → IsOper r v = true) →
  0 ≤ operators c → (IsOper r u = true → 0 < operators c) →
  let c' := umode_counts r (mu_umodes u) v c in
  operators c' = operators c + Z.b2z (visible_oper r v) - Z.b2z (visible_oper r u) ∧
  invisible c' = invisible c + Z.b2z (IsInvisible r v) - Z.b2z (IsInvisible r u) ∧ recount c' = recount c.
Proof.
  intros Hu Hv H0 H1. unfold umode_counts, visible_oper. fold (has_bits u UMODE_OPER r) (has_bits u UMODE_HIDEOPER r) (has_bits u UMODE_INVISIBLE r).
  fold (IsOper r u) (IsHideOper r u) (IsInvisible r u).
  destruct (IsOper r u), (IsHideOper r u), (IsOper r v), (IsHideOper r v); try (by discriminate Hu || by discriminate Hv);
    try (discriminate (Hu eq_refl)); try (discriminate (Hv eq_refl)); specialize (H1 ltac:(done)) || clear H1;
    simpl; unfold VERIFY_OPERCOUNT; simpl;
    repeat match goal with |- context [?x <? 0] => destruct (Z.ltb_spec x 0); [lia|] end; simpl;
    destruct (IsInvisible r u), (IsInvisible r v); simpl; (split_and!; [lia|lia|done]).
Qed.

(** ** What is sent *)

Definition quiet (out : list uevent) : Prop := Forall (λ e, match e with SendUMODE2 _ _ => False | _ => True end) out.
Lemma quiet_out_app a b : quiet (a ++ b) ↔ quiet a ∧ quiet b.
Proof. apply Forall_app. Qed.

Ltac quiet_tac := repeat first [ progress cbn [st_out st_with_user st_emit st_set_what] | rewrite quiet_out_app; split
  | match goal with H : quiet _ |- quiet _ => exact H end | by repeat constructor ].

Lemma quiet_modex text s : quiet (st_out s) → quiet (st_out (st_modex text s)).
Proof. intros H. unfold st_modex. destruct (st_modex_err s); quiet_tac. Qed.
Lemma quiet_def cf r c s s' : umode_def cf r c s = Ok s' → quiet (st_out s) → quiet (st_out s').
Proof.
  unfold umode_def. destruct (find _ _) as [um|]; [intros (b & _ & [= <-])%rbind_Ok|intros [= <-]]; intros H.
  - destruct (negb b); quiet_tac.
  - destruct (_ && _); quiet_tac.
Qed.
Lemma quiet_s cf r parv3 c s s' : umode_s cf r parv3 c s = Ok s' → quiet (st_out s) → quiet (st_out s').
Proof.
  intros H Hq. assert (∀ u, umode_def cf r c (st_with_user u s) = Ok s' → quiet (st_out s')) as Hdef by (intros u Hx; by eapply quiet_def).
  unfold umode_s in H. destruct (st_what s).
  - destruct (IsOper r (st_user s)); [by eapply Hdef|by injection H as <-].
  - destruct parv3 as [p|]; [|by eapply Hdef]. destruct (mu_snomask (st_user s)); [|by eapply Hdef].
    destruct (mu_snomask (set_snomask cf r (Some p) (st_user s))); [by injection H as <-|by eapply Hdef].
Qed.
Lemma quiet_tx cf r c s s' : umode_tx cf r c s = Ok s' → quiet (st_out s) → quiet (st_out s').
Proof.
  intros ([throttled u] & _ & H)%rbind_Ok Hq. cbn beta iota zeta in H.
  assert (umode_def cf r c (st_with_user u s) = Ok s' → quiet (st_out s')) as Hdef by (intros Hx; by eapply quiet_def).
  assert (∀ text, Ok (st_modex text (st_with_user u s)) = Ok s' → quiet (st_out s')) as Hmsg by (intros text [= <-]; by apply quiet_modex).
  destruct throttled; [injection H as <-; apply quiet_modex; quiet_tac|].
  destruct (userhost_allowed cf); [by apply Hdef| |by apply Hdef|];
    (match type of H with (if ?b then _ else _) = _ => destruct b end; [by eapply Hmsg|by apply Hdef]).
Qed.
Lemma quiet_char cf r restrict parv3 c s k s' : umode_char cf r restrict parv3 c s = Ok (k, s') → quiet (st_out s) → quiet (st_out s').
Proof.
  intros H Hq.
  assert (∀ m, (∀ s', m = Ok s' → quiet (st_out s')) → (let! s := m in Ok (false, s)) = Ok (k, s') → quiet (st_out s')) as Hgo.
  { intros m Hm (s1 & H1 & [= <- <-])%rbind_Ok. by apply Hm. }
  assert (∀ k0 s1, quiet (st_out s1) → Ok (k0, s1) = Ok (k, s') → quiet (st_out s')) as Hret by (by intros k0 s1 H1 [= <- <-]).
  unfold umode_char in H. fold (restricted restrict c) in H.
  destruct (restricted restrict c); [eapply Hret; [|exact H]; destruct (st_restrict_err s); quiet_tac|].
  destruct (c =? 43); [by eapply Hret; [|exact H]|]. destruct (c =? 45); [by eapply Hret; [|exact H]|].
  destruct ((c =? 32) || (c =? 9)); [by eapply Hret; [|exact H]|].
  destruct (c =? 115); [eapply Hgo; [|exact H]; intros; by eapply quiet_s|].
  destruct ((c =? 111) || (c =? 79)).
  - destruct (mu_quarantined (st_user s)); [eapply Hret; [|exact H]; quiet_tac|].
    destruct (MyUser (st_user s) && _); [by eapply Hret; [|exact H]|eapply Hgo; [|exact H]; intros; by eapply quiet_def].
  - destruct ((c =? 116) || (c =? 120)).
    + eapply Hgo; [|exact H]. intros x Hx. by eapply quiet_tx.
    + eapply Hgo; [|exact H]. intros x Hx. by eapply quiet_def.
Qed.
Lemma quiet_loop cf r restrict parv3 m : ∀ s k s', umode_loop cf r restrict parv3 m s = Ok (k, s') → quiet (st_out s) → quiet (st_out s').
Proof.
  induction m as [|c m IH]; intros s k s'; cbn [umode_loop]; [by intros [= <- <-]|].
  intros ([k1 s1] & H1 & H)%rbind_Ok Hq. apply quiet_char in H1; [|done]. destruct k1; [by injection H as <- <-|by eapply IH].
Qed.
Lemma quiet_strip cf r old oldsno s s' : umode_strip cf r old oldsno s = Ok s' → quiet (st_out s) → quiet (st_out s').
Proof.
  intros (p & _ & H)%rbind_Ok Hq. destruct p; [by injection H as <-|]. destruct (_ && _) in H.
  - cbn zeta in H. match type of H with context [mu_snomask ?x] => destruct (mu_snomask x) end; [|by injection H as <-]. apply rbind_Ok in H as (sno & _ & [= <-]). done.
  - rewrite privileges_ok in H. cbn [rbind] in H. injection H as <-. destruct (MyUser _); quiet_tac.
Qed.
Lemma quiet_hosts r dontspread old s : quiet (st_out s) → quiet (st_out (umode_hosts r dontspread old s)).
Proof.
  intros Hq. unfold umode_hosts. cbn [st_emit st_with_user st_out]. rewrite !quiet_out_app. split; [done|].
  split_and!; repeat match goal with |- quiet (if ?b then _ else _) => destruct b end; rewrite ?quiet_out_app; try split;
    repeat match goal with |- quiet (if ?b then _ else _) => destruct b end; by repeat constructor.
Qed.
Lemma quiet_deoper cf r old s s' : umode_deoper cf r old s = Ok s' → quiet (st_out s) → quiet (st_out s').
Proof.
  unfold umode_deoper. destruct (_ && mu_connect _); [|by intros [= <-]]. rewrite privileges_ok. cbn [rbind]. intros [= <-] Hq.
  destruct (MyUser _), (MyUser (st_user s)); quiet_tac.
Qed.

(** ** The whole command, for a local user *)

(** A letter of the command that the settings let the user use. *)
Definition usable (cf : uconf) (r : ureg) (u : umuser) (parv2 : list Z) (c : Z) : Prop :=
  c ∈ parv2 ∧ (permitted cf r (bs "immune:restrict-usermodes") u = Ok true ∨ restricted (restrict_usermodes cf u) c = false).

Record local_result (cf : uconf) (r : ureg) (dontspread : bool) (u : umuser) (counts : ircounts) (res : umresult) : Prop := LocalResult {
  lr_oper : IsOper r (ur_user res) = false → no_oper_modes r (ur_user res) ∧ mu_snomask (ur_user res) = None ∧
    (hide_idle_time cf = HIDE_IDLE_TIME_OPER_USERMODE → has_bits (ur_user res) UMODE_HIDLE r = false);
  lr_opermodes : permitted cf r (bs "self:opermodes") u = Ok true ∨
    ∀ um, um ∈ usermodes r → um_unset_on_deoper um = true → has_mode (mu_umodes (ur_user res)) um = true → has_mode (mu_umodes u) um = true;
  lr_secure : has_bits (ur_user res) UMODE_SECURE r = true → mu_secure u = true;
  lr_hosts : IsHidden r u = true → IsHidden r (ur_user res) = false → IsSetHost r (ur_user res) = false;
  lr_counts : ∃ v, ur_counts res = umode_counts r (mu_umodes u) v counts ∧ (IsHideOper r v = true → IsOper r v = true) ∧
    IsOper r v = IsOper r (ur_user res) ∧ IsHideOper r v = IsHideOper r (ur_user res) ∧ IsInvisible r v = IsInvisible r (ur_user res);
  lr_out : ∃ a b, quiet a ∧ quiet b ∧
    ur_out res = a ++ (if dontspread then [] else umode_messages cf r (ur_user res) true (mu_umodes u)) ++ b
}.

Section Command.
Variables (names : list (list Z * Z)) (r : ureg) (cf : uconf).
Hypothesis Hr : reg_ok names r.
Hypothesis Hb : builtins_ok r.
Hypothesis Hperm : perms_total cf.
Hypothesis Hother : others_mono cf r.

Lemma restrict_ok u parv2 : MyUser u = true →
  ∃ restrict, (if MyUser u then let! immune := permitted cf r (bs "immune:restrict-usermodes") u in
                                Ok (if immune then None else restrict_usermodes cf u)
               else Ok None) = Ok restrict ∧
    ∀ c, c ∈ parv2 → restricted restrict c = false → usable cf r u parv2 c.
Proof.
  intros ->. destruct (permitted_total r cf Hperm (bs "immune:restrict-usermodes") u) as [b Hp]; [unfold umode_paths; rewrite !elem_of_cons; auto|].
  unfold usable. rewrite Hp. cbn [rbind]. eexists. split; [done|]. intros c Hc Hres. split; [done|]. destruct b; [by left|by right].
Qed.

(** The end of the command, from what is left of the modes. *)
Lemma hide_is_oper_mode u : no_oper_modes r u → IsHideOper r u = false.
Proof.
  intros Hn. destruct (var_mode r Hb UMODE_HIDEOPER _ eq_refl) as (um & Hu & Hub & _ & E). unfold IsHideOper, has_bits. rewrite E.
  apply Hn; [done|]. apply Hub.
Qed.
Lemma has_oper_fewer u v : fewer r u v → IsOper r v = false → IsOper r u = false.
Proof.
  intros Hf Hv. apply not_true_iff_false. intros Hu. unfold IsOper in *. rewrite (fewer_bits r Hb u v UMODE_OPER Hf) in Hv; [done|by vm_compute; eauto|done].
Qed.
Lemma deoper_ok old s : ∃ s', umode_deoper cf r old s = Ok s' ∧ shrinks r (st_user s) (st_user s') ∧
  (∀ v b, var_entry v = Some b → b.1.1.2 = false → b.1.1.1.1.2 ≠ 115 → b.1.1.1.1.2 ≠ 73 → has_bits (st_user s') v r = has_bits (st_user s) v r) ∧
  (IsOper r (st_user s) = true → st_user s' = st_user s).
Proof.
  unfold umode_deoper. destruct (IsOper r (st_user s)) eqn:Eo.
  { rewrite andb_false_r. exists s. by split_and!. }
  destruct (_ && mu_connect _); [|by exists s; split_and!]. rewrite privileges_ok. cbn [rbind].
  eexists. split; [done|]. cbn [st_emit st_with_user st_user]. split_and!; [by apply (shrinks_privileges names)| |done].
  intros v b Hv Hun Hs HI. by apply (privileges_keep names r cf Hr Hb v b).
Qed.

(** The last loss of privileges, of who is no operator. *)
Lemma last_privileges s : mu_connect (st_user s) = true → no_oper_modes r (st_user s) ∨ IsOper r (st_user s) = true →
  ∃ s', (if mu_connect (st_user s) && negb (IsOper r (st_user s)) then
           let! (u, out) := remove_oper_privileges cf r (st_user s) false in Ok (st_emit out (st_with_user u s))
         else Ok s) = Ok s' ∧ shrinks r (st_user s) (st_user s') ∧ IsOper r (st_user s') = IsOper r (st_user s) ∧
    IsHideOper r (st_user s') = IsHideOper r (st_user s) ∧ IsInvisible r (st_user s') = IsInvisible r (st_user s) ∧
    (IsOper r (st_user s') = false → mu_snomask (st_user s') = None ∧
      (hide_idle_time cf = HIDE_IDLE_TIME_OPER_USERMODE → has_bits (st_user s') UMODE_HIDLE r = false)) ∧
    IsHidden r (st_user s') = IsHidden r (st_user s) ∧ (quiet (st_out s) → quiet (st_out s')).
Proof.
  intros -> Hno. destruct (IsOper r (st_user s)) eqn:Eo; simpl.
  { exists s. split_and!; try done. by rewrite Eo. }
  destruct Hno as [Hno|?]; [|done]. eexists. split; [done|]. set (v := remove_all_snomasks r _).
  assert (shrinks r (st_user s) v) as Hs by by apply (shrinks_privileges names).
  destruct (privileges_lost names r cf Hr Hb (st_user s)) as [L1 L2]. cbn [st_emit st_with_user st_user]. split_and!.
  - done.
  - by eapply has_oper_fewer; [apply Hs|].
  - rewrite (hide_is_oper_mode (st_user s)) by done. apply hide_is_oper_mode. by eapply no_oper_shrinks.
  - by apply (privileges_keep names r cf Hr Hb UMODE_INVISIBLE _ _ eq_refl).
  - intros _. by split.
  - by apply (privileges_keep names r cf Hr Hb UMODE_HIDE _ _ eq_refl).
  - intros Hq. cbn [st_out st_emit st_with_user]. destruct (MyUser v); quiet_tac.
Qed.

Lemma end_out out old u oldsno (dontspread : bool) msgs : quiet out →
  ∃ a b, quiet a ∧ quiet b ∧
    out ++ (if old =? mu_umodes u then [] else [HookUmodeChange old (mu_umodes u)]) ++ (if dontspread then [] else msgs) ++
      match mu_snomask u with
      | Some sno => if mu_connect u && negb (bool_decide (sno = oldsno)) then [Numeric (bs "RPL_SNOMASK") sno] else []
      | None => []
      end = a ++ (if dontspread then [] else msgs) ++ b.
Proof.
  intros Hq. exists (out ++ (if old =? mu_umodes u then [] else [HookUmodeChange old (mu_umodes u)])).
  eexists. split; [|split; [|by rewrite <-app_assoc]].
  - apply quiet_out_app. split; [done|]. destruct (old =? mu_umodes u); repeat constructor.
  - destruct (mu_snomask u) as [sno|]; [|constructor]. destruct (mu_connect u && _); repeat constructor.
Qed.

(** The facts that only look at single modes. *)
Lemma end_modes u s s1 s2 s4 letters : local u → within r cf letters u (st_user s) → shrinks r (st_user s) (st_user s1) →
  fewer r (st_user s4) (st_user s2) → fewer r (st_user s2) (st_user s1) →
  (MyUser (st_user s1) = true → has_bits (st_user s2) UMODE_SECURE r = true → mu_secure (st_user s1) = true) →
  permitted cf r (bs "self:opermodes") (st_user s) = Ok true ∨
    (∀ um, um ∈ usermodes r → um_unset_on_deoper um = true → has_mode (mu_umodes (st_user s1)) um = true → has_mode (mu_umodes u) um = true) →
  (permitted cf r (bs "self:opermodes") u = Ok true ∨
    ∀ um, um ∈ usermodes r → um_unset_on_deoper um = true → has_mode (mu_umodes (st_user s4)) um = true → has_mode (mu_umodes u) um = true) ∧
  (has_bits (st_user s4) UMODE_SECURE r = true → mu_secure u = true).
Proof.
  intros Hl Hw S1 F4 F2 Hsec P1. pose proof (local_base _ _ (wi_base _ _ _ _ _ Hw) Hl) as Hls. split.
  - destruct P1 as [P1|P1]; [left|right].
    + pose proof (permitted_oper r cf _ _ Hls P1) as Ho. rewrite <-P1. symmetry.
      apply permitted_same; [apply Hw|]. rewrite Ho. symmetry. by apply (wi_oper _ _ _ _ _ Hw).
    + intros um Hu Hun Hh. apply P1; [done|done|]. by apply F2, F4.
  - intros Hs. assert (base (st_user s1) = base u) as (_ & _ & Em & _ & _ & _ & _ & _ & Es & _)%base_fields
      by (rewrite (sh_base _ _ _ S1); apply Hw). rewrite <-Es. apply Hsec; [rewrite Em; apply Hl|].
    eapply (fewer_bits r Hb); [exact F4|by vm_compute; eauto|done].
Qed.

Lemma umode_end_ok dontspread u oldsno s counts letters :
  local u → within r cf letters u (st_user s) → quiet (st_out s) →
  ∃ res, umode_end cf r dontspread (mu_umodes u) oldsno s counts = Ok res ∧ ur_killed res = false ∧
    shrinks r (st_user s) (ur_user res) ∧ local_result cf r dontspread u counts res.
Proof.
  intros Hl Hw Hq. pose proof (local_base _ _ (wi_base _ _ _ _ _ Hw) Hl) as Hls. unfold umode_end.
  destruct (umode_strip_ok names r cf Hr Hb Hperm (mu_umodes u) oldsno s Hls) as (s1 & E1 & S1 & N1 & P1). rewrite E1. cbn [rbind].
  destruct (umode_hosts_ok names r Hr Hb dontspread (mu_umodes u) s1) as (S2 & O2 & H2 & I2 & Sec2 & Host2). set (s2 := umode_hosts _ _ _ _) in *.
  destruct (deoper_ok (mu_umodes u) s2) as (s3 & E3 & S3 & K3 & O3). rewrite E3. cbn [rbind].
  assert (shrinks r (st_user s) (st_user s3)) as S13 by (etransitivity; [exact S1|]; by etransitivity).
  assert (base (st_user s3) = base u) as B3 by (rewrite (sh_base _ _ _ S13); apply Hw).
  assert (mu_connect (st_user s3) = true) as C3.
  { destruct (base_fields _ _ B3) as (_ & -> & _). destruct Hl as [Hm _]. by apply andb_true_iff in Hm as [? _]. }
  assert (no_oper_modes r (st_user s3) ∨ IsOper r (st_user s3) = true) as N3.
  { destruct (IsOper r (st_user s2)) eqn:Eo; [right; by rewrite O3|left].
    eapply no_oper_shrinks; [exact S3|]. eapply no_oper_shrinks; [exact S2|]. apply N1. by rewrite <-O2. }
  destruct (last_privileges s3 C3 N3) as (s4 & E4 & S4 & O4 & H4 & I4 & L4 & Hid4 & Q4). rewrite E4. cbn [rbind].
  assert ((if dontspread then Ok [] else send_umode_out cf r (st_user s4) true (mu_umodes u)) =
    Ok (if dontspread then [] else umode_messages cf r (st_user s4) true (mu_umodes u))) as ->.
  { destruct dontspread; [done|]. apply send_umode_out_ok, (ro_bits _ _ Hr). }
  cbn [rbind]. eexists. split; [done|]. split; [done|]. cbn [ur_user]. split; [by etransitivity|].
  assert (quiet (st_out s4)) as Q.
  { apply Q4. eapply quiet_deoper; [exact E3|]. apply quiet_hosts. by eapply quiet_strip. }
  pose proof (end_modes u s s1 s2 s4 letters Hl Hw S1 (fewer_trans _ _ _ _ (sh_fewer _ _ _ S4) (sh_fewer _ _ _ S3)) (sh_fewer _ _ _ S2) Sec2 P1) as M4.
  constructor; cbn [ur_user ur_counts ur_out].
  - intros Ho. destruct (L4 Ho) as [L5 L6]. split_and!; [|done|done]. eapply no_oper_shrinks; [exact S4|].
    destruct N3 as [?|N3]; [done|]. congruence.
  - apply M4.
  - apply M4.
  - intros Hold Hnow. rewrite Hid4 in Hnow. unfold IsHidden in Hnow. rewrite (K3 UMODE_HIDE _ eq_refl) in Hnow by done.
    specialize (Host2 Hold Hnow). apply not_true_iff_false. intros Hset. unfold IsSetHost in *.
    rewrite (fewer_bits r Hb (st_user s4) (st_user s2) UMODE_SETHOST) in Host2; [done|eapply fewer_trans; [apply S4|apply S3]|by vm_compute; eauto|done].
  - exists (st_user s3). split_and!; [done| |done..]. intros Hh. destruct N3 as [N3|?]; [|done]. by rewrite (hide_is_oper_mode _ N3) in Hh.
  - by apply end_out.
Qed.
End Command.

Section Whole.
Variables (names : list (list Z * Z)) (r : ureg) (cf : uconf).
Hypothesis Hr : reg_ok names r.
Hypothesis Hb : builtins_ok r.
Hypothesis Hperm : perms_total cf.
Hypothesis Hother : others_mono cf r.

Lemma umode_change_ok dontspread parv2 parv3 u counts : local u →
  ∃ res letters, umode_change_modes cf r dontspread parv2 parv3 u counts = Ok res ∧ within r cf letters u (ur_user res) ∧
    (∀ c, c ∈ letters → usable cf r u parv2 c) ∧ (ur_killed res = true → mu_quarantined u = true) ∧
    (ur_killed res = false → local_result cf r dontspread u counts res).
Proof.
  intros Hl. unfold umode_change_modes. destruct (restrict_ok r cf Hperm u parv2 (proj1 Hl)) as (restrict & -> & Huse). cbn [rbind].
  set (letters := base.filter (λ c, restricted restrict c = false) parv2).
  set (oldsno := match mu_snomask u with Some s => _ | None => _ end). set (s0 := UmState u MODE_ADD false false false [UserhostSave]).
  destruct (umode_loop_ok names r cf Hr Hb Hperm Hother letters u restrict parv3 parv2 s0 (proj1 Hl)) as (k & s & E & Hw & Hk).
  { intros c Hc Hres. by apply list_elem_of_filter. }
  { apply within_refl. }
  assert (∀ c, c ∈ letters → usable cf r u parv2 c) as Huse' by (intros c [H1 H2]%list_elem_of_filter; by apply Huse).
  pose proof (quiet_loop _ _ _ _ _ _ _ _ E ltac:(by repeat constructor)) as Hq. rewrite E. cbn [rbind]. destruct k.
  - exists (UmResult (st_user s) counts (st_out s) true), letters. split_and!; [done|exact Hw|done|intros _; by apply Hk|done].
  - destruct (umode_end_ok names r cf Hr Hb Hperm dontspread u oldsno s counts letters Hl Hw Hq) as (res & Ee & Ek & Hs & Hres).
    exists res, letters. split_and!; [exact Ee|by eapply within_shrinks|done|by rewrite Ek|done].
Qed.
End Whole.

(** C15.  Changing one's own modes.  Whatever a local user sends: the command returns; a mode that the user has
    afterwards and had not before is named in it, is not restricted for this user, and its own rule lets the
    user set it, a mode of operators only with self:opermodes; nobody becomes operator; only a user of a
    quarantined server is killed.  When the user is not killed: who is no operator afterwards has no mode of
    operators and no server notices; the mode for secure connections stays with them; and the numbers of
    operators and of invisible users change as the user does, if the number of operators is right to the extent
    that it is not negative, and positive when the user is an operator, and if a user that hides that it is an
    operator is one ([hidden_oper_count] shows a number that becomes wrong where this is not so).  The operclasses can be
    evaluated for the four permissions that the command asks for, and functions of other modules that decide about
    a mode look at what changing modes leaves alone, or want an operator. *)
Theorem user_modes_safe names r cf dontspread parv2 parv3 u counts :
  reg_ok names r → builtins_ok r → perms_total cf → others_mono cf r → local u →
  ∃ res, _cmd_umode cf r dontspread (Some (Some (mu_id u))) (Some parv2) parv3 u counts = Ok res ∧
  let v := ur_user res in
  (∀ um, um ∈ usermodes r → has_mode (mu_umodes v) um = true → has_mode (mu_umodes u) um = false →
     usable cf r u parv2 (um_letter um) ∧ may_set cf r u um ∧
     (ur_killed res = false → um_unset_on_deoper um = true → permitted cf r (bs "self:opermodes") u = Ok true)) ∧
  (IsOper r v = true → IsOper r u = true) ∧
  (∀ S, covered_but S (usermodes r) (mu_umodes u) → covered_but S (usermodes r) (mu_umodes v)) ∧
  (ur_killed res = true → mu_quarantined u = true) ∧
  (ur_killed res = false →
     (IsOper r v = false → no_oper_modes r v ∧ mu_snomask v = None) ∧
     (has_bits v UMODE_SECURE r = true → mu_secure u = true) ∧
     ((IsHideOper r u = true → IsOper r u = true) → 0 ≤ operators counts → (IsOper r u = true → 0 < operators counts) →
      operators (ur_counts res) = operators counts + Z.b2z (visible_oper r v) - Z.b2z (visible_oper r u) ∧
      invisible (ur_counts res) = invisible counts + Z.b2z (IsInvisible r v) - Z.b2z (IsInvisible r u))).
Proof.
  intros Hr Hb Hp Ho Hl. destruct (umode_change_ok names r cf Hr Hb Hp Ho dontspread parv2 parv3 u counts Hl) as (res & letters & E & [W1 W2 W3 W4] & Hlet & Hk & Hres).
  exists res. unfold _cmd_umode. rewrite Nat.eqb_refl. simpl negb. cbv iota. split; [exact E|]. split_and!; [|done|done|done|].
  - intros um Hu Hv Hnu. destruct (W3 um Hu Hv) as [Hh|[Hin Hmay]]; [congruence|]. split_and!; [by apply Hlet|done|].
    intros Hnk Hun. destruct (lr_opermodes _ _ _ _ _ _ (Hres Hnk)) as [?|Hold]; [done|]. by rewrite Hold in Hnu.
  - intros Hnk. destruct (Hres Hnk) as [L1 _ L3 _ (w & L5 & L6 & L7 & L8 & L9) _]. split_and!; [by intros Hno; destruct (L1 Hno) as (? & ? & _)|done|].
    intros Hh H0 H1. rewrite L5. destruct (umode_counts_ok r u w counts Hh L6 H0 H1) as (C1 & C2 & _). rewrite C1, C2.
    unfold visible_oper. by rewrite L7, L8, L9.
Qed.

(** ** Changes on their way to other servers *)

(** The changes that a string tells, in order. *)
Definition change_of (u : umuser) (old sendmask : Z) (um : Umode) : option (mode_what * Z) :=
  if MyUser u && (Z.land (um_mode um) sendmask =? 0) then None
  else if has_mode old um && negb (has_mode (mu_umodes u) um) then Some (MODE_DEL, um_letter um)
  else if negb (has_mode old um) && has_mode (mu_umodes u) um then Some (MODE_ADD, um_letter um)
  else None.
Definition sign_of (w : mode_what) : Z := match w with MODE_ADD => 43 | MODE_DEL => 45 end.
Fixpoint change_text (what : option mode_what) (l : list (mode_what * Z)) : list Z :=
  match l with
  | [] => []
  | (w, c) :: rest => (if bool_decide (what = Some w) then [] else [sign_of w]) ++ c :: change_text (Some w) rest
  end.

Lemma build_is_text r u old mask : build_umode_string r u old mask = change_text None (omap (change_of u old mask) (usermodes r)).
Proof.
  unfold build_umode_string. assert (∀ l st, (foldl (umode_change u old mask) st l).2 = st.2 ++ change_text st.1 (omap (change_of u old mask) l)) as H; [|by rewrite H].
  induction l as [|um l IH]; intros [what buf]; cbn [foldl]; [by rewrite app_nil_r|]. rewrite IH. cbn [omap list_omap]. simpl.
  unfold umode_change, change_of, has_mode. rewrite (Z.land_comm (um_mode um) old).
  destruct (MyUser u && _); [done|]. destruct (Z.land old (um_mode um) =? 0), (Z.land (mu_umodes u) (um_mode um) =? 0); simpl; try done;
    by rewrite <-!app_assoc.
Qed.

Lemma change_letter u old mask um p : change_of u old mask um = Some p → p.2 = um_letter um.
Proof. unfold change_of. repeat case_match; intros [= <-]; done. Qed.
Lemma changes_nodup u old mask l : NoDup (map um_letter l) → NoDup (map snd (omap (change_of u old mask) l)).
Proof.
  induction l as [|um l IH]; [constructor|]. intros [Hu Hl]%NoDup_cons. cbn [omap list_omap]. simpl.
  destruct (change_of u old mask um) as [p|] eqn:E; [|by apply IH]. cbn [map]. apply NoDup_cons. split; [|by apply IH].
  apply change_letter in E as ->. intros (q & Eq & (x & Hx & Ex)%list_elem_of_omap)%list_elem_of_fmap. apply Hu.
  apply change_letter in Ex. rewrite Eq, Ex. by apply list_elem_of_fmap_2.
Qed.

(** ** A copy of the user on another server *)

Definition remote (u : umuser) : Prop :=
  mu_connect u = false ∧ mu_server u = false ∧ mu_me u = false ∧ mu_uline u = false ∧ mu_quarantined u = false.
Lemma remote_base u v : base u = base v → remote v → remote u.
Proof. intros (_ & E1 & _ & E2 & E3 & E4 & _ & _ & _ & E5 & _)%base_fields. unfold remote. by rewrite E1, E2, E3, E4, E5. Qed.
Lemma remote_MyUser u : remote u → MyUser u = false.
Proof. intros [H _]. unfold MyUser. by rewrite H. Qed.
(** Functions of modules trust other servers, as those of the core do. *)
Definition others_trust (cf : uconf) : Prop := ∀ f u w, MyUser u = false → other_allow cf f u w = true.

Definition apply_change (l : list Umode) (m : Z) (p : mode_what * Z) : Z :=
  match find (λ um, um_letter um =? p.2) l with
  | None => m
  | Some um => match p.1 with MODE_ADD => Z.lor m (um_mode um) | MODE_DEL => Z.land m (Z.lnot (um_mode um)) end
  end.

Section Remote.
Variables (names : list (list Z * Z)) (r : ureg) (cf : uconf).
Hypothesis Hr : reg_ok names r.
Hypothesis Hb : builtins_ok r.
Hypothesis Htrust : others_trust cf.

Lemma remote_allow a u w : remote u → run_allow cf r a u w = Ok true.
Proof.
  intros H%remote_MyUser. destruct a; cbn [run_allow]; rewrite ?H; simpl; try done. f_equal. by apply Htrust.
Qed.
Lemma remote_def c s : remote (st_user s) →
  ∃ s', umode_def cf r c s = Ok s' ∧ base (st_user s') = base (st_user s) ∧ st_what s' = st_what s ∧
    mu_umodes (st_user s') = apply_change (usermodes r) (mu_umodes (st_user s)) (st_what s, c).
Proof.
  intros Hu. unfold umode_def, apply_change. simpl. destruct (find _ _) as [um|].
  - assert (match um_allowed um with None => Ok true | Some a => run_allow cf r a (st_user s) (st_what s) end = Ok true) as ->
      by (destruct (um_allowed um); [by apply remote_allow|done]). cbn [rbind negb]. eexists. split; [done|].
    destruct (st_what s) eqn:Ew; simpl; rewrite ?umodes_setb, ?umodes_clear; unfold set_bits, clear_bits; by rewrite base_umodes.
  - rewrite (proj1 Hu). simpl. by eexists.
Qed.
Lemma remote_char parv3 c s : remote (st_user s) → plain_letter c → c ≠ 115 →
  ∃ s', umode_char cf r None parv3 c s = Ok (false, s') ∧ base (st_user s') = base (st_user s) ∧ st_what s' = st_what s ∧
    mu_umodes (st_user s') = apply_change (usermodes r) (mu_umodes (st_user s)) (st_what s, c).
Proof.
  intros Hu Hp Hs. destruct (remote_def c s Hu) as (s' & E & H). exists s'. split; [|done].
  unfold plain_letter in Hp. rewrite !not_elem_of_cons in Hp. unfold umode_char.
  destruct (Z.eqb_spec c 43); [tauto|]. destruct (Z.eqb_spec c 45); [tauto|]. destruct (Z.eqb_spec c 32); [tauto|]. destruct (Z.eqb_spec c 9); [tauto|].
  destruct (Z.eqb_spec c 115); [done|]. simpl orb. cbv iota. destruct Hu as (Hc & H1 & H2 & H3 & Hq). rewrite Hq. unfold MyUser at 1. rewrite Hc. simpl.
  destruct ((c =? 111) || (c =? 79)); [by rewrite E|]. destruct ((c =? 116) || (c =? 120)); [|by rewrite E].
  unfold umode_tx, MyUser. rewrite Hc. cbn [andb rbind]. replace (st_with_user (st_user s) s) with s by by destruct s.
  rewrite ?Hc. destruct (userhost_allowed cf); cbn [andb]; by rewrite E.
Qed.

Lemma remote_loop parv3 l : ∀ what s, remote (st_user s) → Forall (λ p, plain_letter p.2 ∧ p.2 ≠ 115) l → (∀ w, what = Some w → st_what s = w) →
  ∃ s', umode_loop cf r None parv3 (change_text what l) s = Ok (false, s') ∧ base (st_user s') = base (st_user s) ∧
    mu_umodes (st_user s') = foldl (apply_change (usermodes r)) (mu_umodes (st_user s)) l.
Proof.
  induction l as [|[w c] l IH]; intros what s Hu Hl Hw; cbn [change_text umode_loop]; [by exists s|].
  apply Forall_cons in Hl as [[Hp Hc] Hl]. simpl in Hp, Hc.
  assert (∀ s1, remote (st_user s1) → st_what s1 = w →
    ∃ s', umode_loop cf r None parv3 (c :: change_text (Some w) l) s1 = Ok (false, s') ∧ base (st_user s') = base (st_user s1) ∧
      mu_umodes (st_user s') = foldl (apply_change (usermodes r)) (mu_umodes (st_user s1)) ((w, c) :: l)) as Hgo.
  { intros s1 Hu1 Hw1. destruct (remote_char parv3 c s1 Hu1 Hp Hc) as (s2 & E & B2 & W2 & M2). cbn [umode_loop]. rewrite E. cbn [rbind].
    destruct (IH (Some w) s2) as (s' & E' & B' & M'); [by eapply remote_base|done|intros ? [= <-]; by rewrite W2|].
    exists s'. split_and!; [done|by rewrite B'|]. rewrite M', M2, Hw1. done. }
  case_bool_decide as Ew; [apply Hgo; [done|by apply Hw]|]. simpl app. cbn [umode_loop].
  destruct (Hgo (st_set_what w s)) as (s' & E & B & M); [done|done|]. exists s'. split_and!; [|done|done].
  destruct w; simpl sign_of; unfold umode_char at 1; simpl; exact E.
Qed.

Lemma apply_spec m l um : um ∈ usermodes r → NoDup (map snd l) →
  ((MODE_ADD, um_letter um) ∈ l → has_mode (foldl (apply_change (usermodes r)) m l) um = true) ∧
  ((MODE_DEL, um_letter um) ∈ l → has_mode (foldl (apply_change (usermodes r)) m l) um = false) ∧
  (um_letter um ∉ map snd l → has_mode (foldl (apply_change (usermodes r)) m l) um = has_mode m um).
Proof.
  intros Hu. revert m. induction l as [|[w c] l IH]; intros m Hn; [split_and!; [by intros ?%elem_of_nil|by intros ?%elem_of_nil|done]|].
  cbn [map] in *. apply NoDup_cons in Hn as [Hc Hn]. simpl in Hc. cbn [foldl]. destruct (IH (apply_change (usermodes r) m (w, c)) Hn) as (I1 & I2 & I3).
  assert (∀ w', (w', um_letter um) ∈ (w, c) :: l → (w' = w ∧ um_letter um = c) ∨ (w', um_letter um) ∈ l) as Hin.
  { intros w' [[= -> ->]|?]%elem_of_cons; [by left|by right]. }
  assert (um_letter um = c → apply_change (usermodes r) m (w, c) = match w with MODE_ADD => Z.lor m (um_mode um) | MODE_DEL => Z.land m (Z.lnot (um_mode um)) end) as Happ.
  { intros <-. unfold apply_change. simpl. by rewrite (find_letter _ _ (ro_letters _ _ Hr) Hu). }
  split_and!.
  - intros [[<- E]|H]%Hin; [|by apply I1]. rewrite I3, Happ by congruence. by rewrite (has_mode_set names r), Z.eqb_refl, orb_true_r.
  - intros [[<- E]|H]%Hin; [|by apply I2]. rewrite I3, Happ by congruence. by rewrite (has_mode_clear names r), Z.eqb_refl, andb_false_r.
  - intros [Hne H]%not_elem_of_cons. rewrite I3 by done. unfold apply_change. simpl in *. destruct (find _ _) as [x|] eqn:Ef; [|done].
    apply find_some in Ef as [Hx%list_elem_of_In Ex%Z.eqb_eq].
    assert (um_mode x ≠ um_mode um) by (intros Em; apply Hne; by rewrite (mode_inj (usermodes r) um x (ro_bits _ _ Hr))).
    destruct w; [rewrite (has_mode_set names r) by done|rewrite (has_mode_clear names r) by done];
      (destruct (Z.eqb_spec (um_mode x) (um_mode um)); [done|by rewrite ?orb_false_r, ?andb_true_r]).
Qed.
End Remote.

(** ** Two servers *)

(** The copies of a user on two servers agree on the modes that the first
    server sends to others; the bits may be different ones. *)
Definition synced (rA rB : ureg) (uA uB : umuser) : Prop :=
  ∀ a b, a ∈ usermodes rA → b ∈ usermodes rB → um_letter a = um_letter b → has_mode (SendUmodes rA) a = true →
    has_mode (mu_umodes uA) a = has_mode (mu_umodes uB) b.

(** The lines of a result that go to a server, and their handling there. *)
Definition lines_to (server : nat) (out : list uevent) : list (list Z) :=
  omap (λ e, match e with SendUMODE2 s m => if (s =? server)%nat then Some m else None | _ => None end) out.
Fixpoint deliver (cf : uconf) (r : ureg) (lines : list (list Z)) (u : umuser) (counts : ircounts) : res umuser :=
  match lines with
  | [] => Ok u
  | m :: rest => let! res := cmd_umode2 cf r false (Some (mu_id u)) [m] u counts in deliver cf r rest (ur_user res) (ur_counts res)
  end.

Lemma lines_app server a b : lines_to server (a ++ b) = lines_to server a ++ lines_to server b.
Proof. apply omap_app. Qed.
Lemma lines_cons server s m l : lines_to server (SendUMODE2 s m :: l) = if (s =? server)%nat then m :: lines_to server l else lines_to server l.
Proof. unfold lines_to. cbn [omap list_omap]. by destruct (s =? server)%nat. Qed.
Lemma lines_quiet server a : quiet a → lines_to server a = [].
Proof. induction 1 as [|e a He Ha IH]; [done|]. unfold lines_to in *. cbn [omap list_omap]. simpl. rewrite IH. by destruct e. Qed.
Lemma lines_messages server cf r u old : NoDup (server_list cf) → server ∈ server_list cf → server ≠ mu_id u → server ≠ mu_direction u →
  lines_to server (umode_messages cf r u true old) =
    match build_umode_string r u old (SendUmodes r) with [] => [] | s => [s] end.
Proof.
  intros Hn Hs Hid Hd. unfold umode_messages. rewrite lines_app. rewrite (lines_quiet _ (if _ && _ then _ else _)), app_nil_r.
  2: { destruct (MyUser u && true); [|constructor]. destruct (build_umode_string r u old (AllUmodes r)); [constructor|].
       destruct (mu_named_modes u); [|by repeat constructor]. apply Forall_map, Forall_forall. done. }
  generalize (build_umode_string r u old (SendUmodes r)). intros [|x s].
  { clear. induction (server_list cf) as [|y l IH]; [done|]. rewrite filter_cons_False by (by intros (_ & _ & ?)). exact IH. }
  assert (∀ l, NoDup l → lines_to server (map (λ s0, SendUMODE2 s0 (x :: s)) (base.filter (λ s0, s0 ≠ mu_id u ∧ s0 ≠ mu_direction u ∧ x :: s ≠ []) l)) =
    if decide (server ∈ l) then [x :: s] else []) as H; [|rewrite H by done; by destruct (decide _)].
  induction 1 as [|y l Hy Hl IH]; [done|]. rewrite filter_cons. destruct (decide (server = y)) as [<-|Hne].
  - rewrite decide_True by done. cbn [map]. rewrite lines_cons, Nat.eqb_refl, IH.
    rewrite (decide_False _ _ Hy), decide_True by (by constructor). done.
  - assert (lines_to server (map (λ s0, SendUMODE2 s0 (x :: s)) (base.filter (λ s0, s0 ≠ mu_id u ∧ s0 ≠ mu_direction u ∧ x :: s ≠ []) l)) = if decide (server ∈ y :: l) then [x :: s] else []) as IH'.
    { rewrite IH. destruct (decide (server ∈ l)), (decide (server ∈ y :: l)) as [H|H]; try done; rewrite elem_of_cons in H; tauto. }
    destruct (decide (y ≠ mu_id u ∧ y ≠ mu_direction u ∧ x :: s ≠ [])) as [_|_]; [|exact IH']. cbn [map]. rewrite lines_cons.
    destruct (Nat.eqb_spec y server); [by subst|exact IH'].
Qed.

Section RemoteEnd.
Variables (names : list (list Z * Z)) (r : ureg) (cf : uconf).
Hypothesis Hr : reg_ok names r.
Hypothesis Hb : builtins_ok r.
Hypothesis Htrust : others_trust cf.

Lemma remote_permitted path u : remote u → permitted cf r path u = Ok (IsOper r u).
Proof.
  intros Hu. pose proof (remote_MyUser u Hu) as Hm. destruct Hu as (_ & Hs & He & Hul & _). unfold permitted, ValidatePermissionsForPath.
  cbn [o_server o_me o_uline o_oper o_myuser]. rewrite Hs, He, Hul, Hm. cbn [orb negb]. rewrite andb_true_r. by destruct (IsOper r u).
Qed.
Lemma clear_letter v e u b : var_entry v = Some e → b ∈ usermodes r →
  has_mode (mu_umodes (clear_bits (longs r v) u)) b = has_mode (mu_umodes u) b && negb (um_letter b =? e.1.1.1.1.2).
Proof.
  intros Hv Hin. destruct (var_mode r Hb v e Hv) as (um & Hu & Hub & E & _). rewrite umodes_clear, <-E, (has_mode_clear names r) by done.
  destruct e as [[[[[? ch] ?] ?] ?] ?]. destruct Hub as (<- & _). simpl. f_equal. f_equal.
  destruct (Z.eqb_spec (um_mode um) (um_mode b)) as [Em|Em].
  - rewrite (mode_inj (usermodes r) um b (ro_bits _ _ Hr) Hu Hin Em). symmetry. apply Z.eqb_refl.
  - symmetry. apply Z.eqb_neq. intros El. apply Em. f_equal. by apply (NoDup_map_inj um_letter _ _ _ (ro_letters _ _ Hr)).
Qed.

(** What the loss of privileges leaves. *)
Lemma privileges_left u b : b ∈ usermodes r → has_mode (mu_umodes u) b = true → um_unset_on_deoper b = false → um_letter b ≠ 115 →
  (hide_idle_time cf = HIDE_IDLE_TIME_OPER_USERMODE → um_letter b ≠ 73) →
  has_mode (mu_umodes (remove_all_snomasks r (remove_oper_modes cf r u))) b = true.
Proof.
  intros Hin Hh Hun Hs HI. unfold remove_all_snomasks. rewrite (clear_letter UMODE_SERVNOTICE _ _ _ eq_refl Hin). simpl.
  rewrite (proj2 (Z.eqb_neq _ _) Hs), andb_true_r, umodes_sno. unfold remove_oper_modes. set (w := foldl _ _ _).
  assert (has_mode (mu_umodes w) b = true) as Hw.
  { assert (∀ l u, (∀ x, x ∈ l → x ∈ usermodes r) → has_mode (mu_umodes u) b = true →
      has_mode (mu_umodes (foldl (λ u um, if um_unset_on_deoper um then clear_bits (um_mode um) u else u) u l)) b = true) as H; [|by apply H].
    clear -Hr Hin Hun. induction l as [|x l IH]; intros u Hl Hu; [done|]. cbn [foldl]. apply IH; [intros; apply Hl; by constructor|].
    assert (x ∈ usermodes r) by (apply Hl; constructor). destruct (um_unset_on_deoper x) eqn:Ex; [|done].
    rewrite umodes_clear, (has_mode_clear names r), Hu by done. destruct (Z.eqb_spec (um_mode x) (um_mode b)) as [Em|]; [|done].
    rewrite (mode_inj (usermodes r) x b (ro_bits _ _ Hr)) in Ex by done. congruence. }
  case_bool_decide as Hp; [|done]. rewrite (clear_letter UMODE_HIDLE _ _ _ eq_refl Hin), Hw. simpl. by rewrite (proj2 (Z.eqb_neq _ _) (HI Hp)).
Qed.

(** A mode that the end of the command for a copy does not take back. *)
Record stays (old m : Z) (b : Umode) : Prop := Stays {
  sy_privileges : negb (Z.land m (longs r UMODE_OPER) =? 0) = true ∨
    (um_unset_on_deoper b = false ∧ um_letter b ≠ 115 ∧ (hide_idle_time cf = HIDE_IDLE_TIME_OPER_USERMODE → um_letter b ≠ 73));
  sy_host : um_letter b = 116 → negb (Z.land old (longs r UMODE_HIDE) =? 0) = true → negb (Z.land m (longs r UMODE_HIDE) =? 0) = true
}.

Lemma remote_strip old oldsno s : remote (st_user s) →
  ∃ s', umode_strip cf r old oldsno s = Ok s' ∧ shrinks r (st_user s) (st_user s') ∧
    ∀ b, b ∈ usermodes r → has_mode (mu_umodes (st_user s)) b = true → stays old (mu_umodes (st_user s)) b → has_mode (mu_umodes (st_user s')) b = true.
Proof.
  intros Hu. unfold umode_strip. rewrite (remote_permitted _ _ Hu). cbn [rbind]. destruct (IsOper r (st_user s)) eqn:Eo.
  { exists s. by split_and!. }
  rewrite andb_false_r, privileges_ok. cbn [rbind]. eexists. split; [done|]. cbn [st_emit st_with_user st_user].
  split; [by apply (shrinks_privileges names)|]. intros b Hin Hh [[Ho|(? & ? & ?)] _]; [|by apply privileges_left].
  unfold IsOper, has_bits in Eo. congruence.
Qed.

Lemma hosts_left dontspread old s b : MyUser (st_user s) = false → b ∈ usermodes r → has_mode (mu_umodes (st_user s)) b = true →
  (um_letter b = 116 → negb (Z.land old (longs r UMODE_HIDE) =? 0) = true → IsHidden r (st_user s) = true) →
  has_mode (mu_umodes (st_user (umode_hosts r dontspread old s))) b = true.
Proof.
  intros Hm Hin Hh Ht. unfold umode_hosts. rewrite Hm. cbn [andb]. set (u2 := if _ && negb (IsHidden r (st_user s)) then _ else _).
  assert (has_mode (mu_umodes u2) b = true) as H2.
  { unfold u2. destruct (negb (Z.land old (longs r UMODE_HIDE) =? 0)) eqn:Eh; [|done]. destruct (IsHidden r (st_user s)) eqn:Ei; [done|]. cbn [andb negb].
    rewrite (clear_letter UMODE_SETHOST _ _ _ eq_refl Hin), Hh. simpl. apply negb_true_iff, Z.eqb_neq. intros El. by discriminate (Ht El eq_refl). }
  cbn [st_emit st_with_user st_user]. set (hide := _ || _). set (u3 := if hide then _ else u2). set (unhide := negb (IsHidden r u3) && _).
  assert (mu_umodes u3 = mu_umodes u2) as E3 by (unfold u3; destruct hide; by autorewrite with umuser).
  destruct unhide; autorewrite with umuser; by rewrite E3.
Qed.

(** The command for a copy: what the text says, less what is taken back. *)
Lemma remote_command l u counts : remote u → Forall (λ p, plain_letter p.2 ∧ p.2 ≠ 115) l →
  let m := foldl (apply_change (usermodes r)) (mu_umodes u) l in
  ∃ res, umode_change_modes cf r false (change_text None l) None u counts = Ok res ∧ base (ur_user res) = base u ∧
    (∀ b, b ∈ usermodes r → has_mode (mu_umodes (ur_user res)) b = true → has_mode m b = true) ∧
    (∀ b, b ∈ usermodes r → has_mode m b = true → stays (mu_umodes u) m b → has_mode (mu_umodes (ur_user res)) b = true).
Proof.
  intros Hu Hl m. unfold umode_change_modes. rewrite (remote_MyUser u Hu). cbn [rbind].
  destruct (remote_loop r cf Htrust None l None (UmState u MODE_ADD false false false [UserhostSave]) Hu Hl ltac:(done)) as (s & E & B & M).
  rewrite E. cbn [rbind]. cbn [st_user] in B, M. fold m in M.
  assert (remote (st_user s)) as Hus by by eapply remote_base.
  destruct (remote_strip (mu_umodes u) (match mu_snomask u with Some s0 => (Strl.strlcpy [] s0 64).1 | None => [] end) s Hus) as (s1 & E1 & S1 & L1). unfold umode_end.
  rewrite E1. cbn [rbind]. assert (remote (st_user s1)) as Hu1 by (eapply remote_base; [apply S1|done]).
  destruct (umode_hosts_ok names r Hr Hb false (mu_umodes u) s1) as (S2 & _). set (s2 := umode_hosts r false (mu_umodes u) s1) in *.
  assert (mu_connect (st_user s2) = false) as C2 by (destruct (base_fields _ _ (sh_base _ _ _ S2)) as (_ & -> & _); apply Hu1).
  unfold umode_deoper. rewrite C2, andb_false_r. cbn [rbind]. rewrite C2. cbn [andb rbind].
  rewrite send_umode_out_ok by apply (ro_bits _ _ Hr). cbn [rbind]. eexists. split; [done|]. cbn [ur_user]. split_and!.
  - by rewrite (sh_base _ _ _ S2), (sh_base _ _ _ S1).
  - intros b Hin Hh. rewrite <-M. apply (sh_fewer _ _ _ S1); [done|]. by apply (sh_fewer _ _ _ S2).
  - intros b Hin Hh [Hy1 Hy2]. unfold s2. apply hosts_left; [by apply remote_MyUser|done|by apply L1; rewrite ?M|].
    intros El Eold. specialize (Hy2 El Eold). destruct (var_mode r Hb UMODE_HIDE _ eq_refl) as (x & Hx & Hxb & _ & EX). unfold IsHidden, has_bits. rewrite EX in *.
    apply L1; [done|by rewrite M|]. rewrite M. constructor.
    + right. destruct Hxb as (-> & _ & -> & _). by split_and!.
    + destruct Hxb as (-> & _). by intros [=].
Qed.
End RemoteEnd.

(** Two servers agree on which of the modes that are sent are modes of operators. *)
Definition compatible (rA rB : ureg) : Prop :=
  ∀ a b, a ∈ usermodes rA → b ∈ usermodes rB → um_letter a = um_letter b → has_mode (SendUmodes rA) a = true →
    um_unset_on_deoper a = um_unset_on_deoper b.

Section Propagate.
Variables (namesA namesB : list (list Z * Z)) (rA rB : ureg) (cfA cfB : uconf).
Hypothesis HrA : reg_ok namesA rA.
Hypothesis HbA : builtins_ok rA.
Hypothesis HrB : reg_ok namesB rB.
Hypothesis HbB : builtins_ok rB.
Hypothesis Htrust : others_trust cfB.
Hypothesis Hplain : Forall plain_letter (map um_letter (usermodes rA)).
Hypothesis Hidle : hide_idle_time cfB = hide_idle_time cfA.
Hypothesis Hcompat : compatible rA rB.

(** A built-in mode that is sent is the same on both servers. *)
Lemma synced_var v e uA uB : synced rA rB uA uB → var_entry v = Some e → e.1.1.1.2 = true → has_bits uA v rA = has_bits uB v rB.
Proof.
  intros Hs Hv Hg. destruct (var_mode rA HbA v e Hv) as (a & Ha & Hab & _ & EA), (var_mode rB HbB v e Hv) as (b & Hb & Hbb & _ & EB).
  unfold has_bits. rewrite EA, EB. destruct e as [[[[[? ch] glob] ?] ?] ?]. simpl in Hg. subst glob.
  destruct Hab as (La & _ & _ & _ & _ & _ & Ga), Hbb as (Lb & _). apply Hs; congruence.
Qed.

Definition changes (uA : umuser) (old : Z) : list (mode_what * Z) := omap (change_of uA old (SendUmodes rA)) (usermodes rA).
Lemma change_sent uA old a : MyUser uA = true → has_mode (SendUmodes rA) a = true →
  change_of uA old (SendUmodes rA) a =
    if has_mode old a && negb (has_mode (mu_umodes uA) a) then Some (MODE_DEL, um_letter a)
    else if negb (has_mode old a) && has_mode (mu_umodes uA) a then Some (MODE_ADD, um_letter a) else None.
Proof.
  intros Hm Hg. unfold change_of. rewrite Hm. unfold has_mode in Hg. apply negb_true_iff in Hg. by rewrite (Z.land_comm (um_mode a)), Hg.
Qed.

(** The lines tell the changes. *)
Lemma changes_sync old uA' uB : MyUser uA' = true →
  (∀ a b, a ∈ usermodes rA → b ∈ usermodes rB → um_letter a = um_letter b → has_mode (SendUmodes rA) a = true → has_mode old a = has_mode (mu_umodes uB) b) →
  ∀ a b, a ∈ usermodes rA → b ∈ usermodes rB → um_letter a = um_letter b → has_mode (SendUmodes rA) a = true →
    has_mode (mu_umodes uA') a = has_mode (foldl (apply_change (usermodes rB)) (mu_umodes uB) (changes uA' old)) b.
Proof.
  intros Hm Hs a b Ha Hb El Hg.
  destruct (apply_spec namesB rB HrB (mu_umodes uB) (changes uA' old) b Hb (changes_nodup uA' old (SendUmodes rA) _ (ro_letters _ _ HrA))) as (A1 & A2 & A3).
  pose proof (change_sent uA' old a Hm Hg) as Hc. specialize (Hs a b Ha Hb El Hg). rewrite <-El in *.
  assert (∀ p, change_of uA' old (SendUmodes rA) a = Some p → p ∈ changes uA' old) as Hin by (intros p Hp; apply list_elem_of_omap; eauto).
  assert (change_of uA' old (SendUmodes rA) a = None → um_letter a ∉ map snd (changes uA' old)) as Hout.
  { intros Hn (p & Ep & (x & Hx & Ex)%list_elem_of_omap)%list_elem_of_fmap. pose proof (change_letter _ _ _ _ _ Ex) as Elx.
    rewrite (NoDup_map_inj um_letter _ x a (ro_letters _ _ HrA) Hx Ha) in Ex by congruence. congruence. }
  destruct (has_mode old a) eqn:Eo, (has_mode (mu_umodes uA') a) eqn:En; simpl in Hc.
  - by rewrite A3, <-Hs by auto.
  - by rewrite A2 by auto.
  - by rewrite A1 by auto.
  - by rewrite A3, <-Hs by auto.
Qed.
Lemma changes_plain old uA' : MyUser uA' = true → Forall (λ p, plain_letter p.2 ∧ p.2 ≠ 115) (changes uA' old).
Proof.
  intros Hm. apply Forall_forall. intros p (a & Ha & Ea)%list_elem_of_omap. pose proof (change_letter _ _ _ _ _ Ea) as ->.
  split; [apply (proj1 (Forall_forall _ _) Hplain), list_elem_of_fmap; eauto|]. intros El.
  unfold change_of in Ea. rewrite Hm in Ea. destruct (var_mode rA HbA UMODE_SERVNOTICE _ eq_refl) as (x & Hx & (Lx & _ & _ & _ & _ & _ & Gx) & _).
  rewrite (NoDup_map_inj um_letter _ a x (ro_letters _ _ HrA) Ha Hx) in Ea by congruence.
  unfold has_mode in Gx. apply negb_false_iff in Gx. by rewrite Z.land_comm, Gx in Ea.
Qed.

(** What the first server sends stays on the second. *)
Lemma sent_stays uA uB counts res m a b :
  local_result cfA rA false uA counts res → synced rA rB uA uB → synced rA rB (ur_user res) (set_umodes m uB) →
  a ∈ usermodes rA → b ∈ usermodes rB → um_letter a = um_letter b → has_mode (SendUmodes rA) a = true →
  has_mode (mu_umodes (ur_user res)) a = true → stays rB cfB (mu_umodes uB) m b.
Proof.
  intros [L1 _ _ L4 _ _] Hs Hs' Ha Hb El Hg Hh.
  assert (∀ v e, var_entry v = Some e → e.1.1.1.2 = true → has_bits (ur_user res) v rA = negb (Z.land m (longs rB v) =? 0)) as Hnew.
  { intros v e Hv Hgl. rewrite (synced_var v e _ _ Hs' Hv Hgl). unfold has_bits. by rewrite umodes_set. }
  assert (∀ v e u, var_entry v = Some e → um_letter a = e.1.1.1.1.2 → has_bits u v rA = has_mode (mu_umodes u) a) as Hvar.
  { intros v e u Hv Ela. destruct (var_mode rA HbA v e Hv) as (x & Hx & Hxb & _ & EX). unfold has_bits. rewrite EX. f_equal.
    apply (NoDup_map_inj um_letter _ x a (ro_letters _ _ HrA) Hx Ha). rewrite Ela. destruct e as [[[[[? ?] ?] ?] ?] ?]. apply Hxb. }
  constructor; rewrite <-?El.
  - rewrite <-(Hnew UMODE_OPER _ eq_refl eq_refl). destruct (has_bits (ur_user res) UMODE_OPER rA) eqn:Eo; [by left|right].
    destruct (L1 Eo) as (N1 & _ & N3). split_and!.
    + rewrite <-(Hcompat a b Ha Hb El Hg). apply not_true_iff_false. intros Hun. rewrite (N1 a Ha Hun) in Hh. done.
    + intros Es. destruct (var_mode rA HbA UMODE_SERVNOTICE _ eq_refl) as (x & Hx & (Lx & _ & _ & _ & _ & _ & Gx) & _).
      rewrite (NoDup_map_inj um_letter _ a x (ro_letters _ _ HrA) Ha Hx) in Hg by congruence. congruence.
    + rewrite Hidle. intros Hp Es. specialize (N3 Hp). rewrite (Hvar UMODE_HIDLE _ _ eq_refl Es) in N3. congruence.
  - intros Et. rewrite <-(Hnew UMODE_HIDE _ eq_refl eq_refl). intros Hold. destruct (has_bits (ur_user res) UMODE_HIDE rA) eqn:Eh; [done|].
    assert (IsHidden rA uA = true) as Hold' by (unfold IsHidden; by rewrite (synced_var UMODE_HIDE _ _ _ Hs eq_refl eq_refl)).
    specialize (L4 Hold' Eh). unfold IsSetHost in L4. rewrite (Hvar UMODE_SETHOST _ _ eq_refl Et) in L4. congruence.
Qed.
End Propagate.

Lemma text_nil what l : change_text what l = [] → l = [].
Proof. destruct l as [|[w c] l]; [done|]. simpl. by destruct (bool_decide _). Qed.

(** C14.  Servers stay in step.  When a local user has changed its modes with whatever it sent and was not killed
    for it (which happens to operators of a quarantined server only), every other server that is linked gets at
    most one line; the copy of the user there, when it had the same modes as the user before, handles the line
    without fault and then has again the same modes as the user, as far as modes are sent to other servers.
    The servers may use different bits and order modules differently; they agree on which modes are for
    operators and on set::hide-idle-time, functions of modules that decide about modes do not refuse users of
    other servers, and the letters of modes are no signs or blanks.  On the user's own server the operclasses and the
    functions of modules are as for changing one's own modes above. *)
Theorem user_modes_propagate namesA namesB rA rB cfA cfB parv2 parv3 uA uB counts countsB server :
  reg_ok namesA rA → builtins_ok rA → reg_ok namesB rB → builtins_ok rB →
  perms_total cfA → others_mono cfA rA → others_trust cfB →
  Forall plain_letter (map um_letter (usermodes rA)) → hide_idle_time cfB = hide_idle_time cfA → compatible rA rB →
  local uA → remote uB → synced rA rB uA uB →
  NoDup (server_list cfA) → server ∈ server_list cfA → server ≠ mu_id uA → server ≠ mu_direction uA →
  ∃ res, _cmd_umode cfA rA false (Some (Some (mu_id uA))) (Some parv2) parv3 uA counts = Ok res ∧
    (ur_killed res = false → (length (lines_to server (ur_out res)) ≤ 1)%nat ∧
     ∃ uB', deliver cfB rB (lines_to server (ur_out res)) uB countsB = Ok uB' ∧ base uB' = base uB ∧ synced rA rB (ur_user res) uB').
Proof.
  intros HrA HbA HrB HbB Hp Ho Ht Hpl Hi Hc Hl Hrem Hs Hnd Hin Hid Hdir.
  destruct (umode_change_ok namesA rA cfA HrA HbA Hp Ho false parv2 parv3 uA counts Hl) as (res & letters & E & W & _ & _ & Hres).
  exists res. unfold _cmd_umode. rewrite Nat.eqb_refl. simpl negb. cbv iota. split; [exact E|]. intros Hk. specialize (Hres Hk).
  pose proof (base_fields _ _ (wi_base _ _ _ _ _ W)) as (Eid & _ & Em & _ & _ & _ & _ & _ & _ & _ & Edir).
  assert (MyUser (ur_user res) = true) as Hm by (rewrite Em; apply Hl).
  destruct (lr_out _ _ _ _ _ _ Hres) as (a & b & Qa & Qb & ->). rewrite !lines_app, (lines_quiet _ _ Qa), (lines_quiet _ _ Qb), app_nil_r. simpl app.
  rewrite lines_messages by (done || congruence). rewrite build_is_text. set (l := omap _ (usermodes rA)).
  assert (synced rA rB (ur_user res) (set_umodes (foldl (apply_change (usermodes rB)) (mu_umodes uB) l) uB)) as Hs'.
  { intros x y Hx Hy El Hg. rewrite umodes_set. by apply (changes_sync namesA namesB rA rB HrA HrB (mu_umodes uA) (ur_user res) uB Hm Hs). }
  assert (Forall (λ p, plain_letter p.2 ∧ p.2 ≠ 115) l) as Hlp by by apply (changes_plain namesA).
  split; [by destruct (change_text None l); cbn [length]; lia|]. destruct (change_text None l) as [|c text] eqn:Et.
  - exists uB. split_and!; [done|done|]. apply text_nil in Et. rewrite Et in Hs'. simpl in Hs'. by destruct uB.
  - destruct (remote_command namesB rB cfB HrB HbB Ht l uB countsB Hrem Hlp) as (resB & EB & BB & F1 & F2). rewrite Et in EB.
    cbn [deliver]. unfold cmd_umode2, _cmd_umode. rewrite Nat.eqb_refl. simpl negb. cbv iota. rewrite lookup_nil. rewrite EB. cbn [rbind].
    exists (ur_user resB). split_and!; [done|done|]. intros x y Hx Hy El Hg. pose proof (Hs' x y Hx Hy El Hg) as Hxy. rewrite umodes_set in Hxy.
    destruct (has_mode (mu_umodes (ur_user res)) x) eqn:Eh; symmetry in Hxy; symmetry.
    + apply F2; [done|done|]. by apply (sent_stays namesA rA rB cfA cfB HrA HbA HbB Hi Hc uA uB counts res _ x y).
    + apply not_true_iff_false. intros Hh. by rewrite F1 in Hxy.
Qed.

(** ** Modules and users over time *)

(** What happens to the registry and to the local clients: modules register
    modes and are unloaded, the configuration is run, a rehash ends, clients
    register and leave, users change their modes. *)
Inductive umode_op :=
| OpAdd (m : nat) (name : list Z) (ch : Z) (glob unset : bool) (allowed : option allow) (v : nat)
| OpUnload (rehashing : bool) (m : nat)
| OpConfig (modes_on_connect : option (list Z)) (of_groups : list (list Z))
| OpUnused
| OpConnect (u : umuser) (which : nat)
| OpExit (i : nat)
| OpCommand (i : nat) (dontspread : bool) (parv2 : list Z) (parv3 : option (list Z)).

(** *** set::modes-on-connect *)

(** What [test_dynamic_set_block_item] accepts. *)
Definition test_modes_on_connect (value : list Z) : bool :=
  bool_decide (value ≠ []) && forallb (λ c, negb (strchr (bs "orzSHqtW") c)) value.
(** The numbers that are kept: of the general block, with its default, and of
    the blocks of security groups. *)
Definition set_modes_on_connect (r : ureg) (value : option (list Z)) (of_groups : list (list Z)) : list Z :=
  set_usermode r (default (bs "+ixw") value) :: map (set_usermode r) of_groups.
(** [get_setting_for_user_number]: [which] is the block that the groups of the
    user lead to. *)
Definition get_modes_on_connect (settings : list Z) (which : nat) : Z := default (default 0 (settings !! 0%nat)) (settings !! which).

(** The modes of a user that registers, and its host; [welcome_user] counts it. *)
Definition connect_user (r : ureg) (setting : Z) (u : umuser) : umuser :=
  let u := set_bits setting u in
  let u := if negb (IsSetHost r u) || bool_decide (mu_virthost u = []) then set_virthost (mu_cloakedhost u) u else u in
  if mu_secure u then set_bits (longs r UMODE_SECURE) u else u.
Definition connect_counts (r : ureg) (u : umuser) (c : ircounts) : ircounts := if IsInvisible r u then add_invisible 1 c else c.
(** [remove_client_from_list] *)
Definition exit_counts (r : ureg) (u : umuser) (c : ircounts) : ircounts :=
  if negb (mu_user u) then c
  else
    let c := if IsInvisible r u then add_invisible (-1) c else c in
    if IsOper r u && negb (IsHideOper r u) then VERIFY_OPERCOUNT (add_operators (-1) c) else c.

Definition umode_state : Type := ureg * list umuser * ircounts * list Z.
(** One of them, with the answer to a registration; who is killed is gone.
    Servers are among the local clients. *)
Definition umode_step (cf : uconf) (st : umode_state) (op : umode_op) : res (umode_state * list bool) :=
  let '(r, us, counts, settings) := st in
  match op with
  | OpAdd m name ch glob unset allowed v =>
      let! (r, id) := UmodeAdd (Some m) (Some name) ch glob unset allowed (LongOf v) r in Ok (r, us, counts, settings, [bool_decide (is_Some id)])
  | OpUnload rehashing m => let! (r, us, _) := unload_module cf rehashing m r us in Ok (r, us, counts, settings, [])
  | OpConfig value of_groups =>
      Ok (r, us, counts,
          if forallb test_modes_on_connect (match value with Some v => v :: of_groups | None => of_groups end)
          then set_modes_on_connect r value of_groups else settings, [])
  | OpUnused => let! (r, us, _) := unload_all_unused_umodes cf r us in Ok (r, us, counts, settings, [])
  | OpConnect u which =>
      if mu_user u then
        let u := connect_user r (get_modes_on_connect settings which) u in Ok (r, u :: us, connect_counts r u counts, settings, [])
      else Ok (r, u :: us, counts, settings, [])
  | OpExit i =>
      match us !! i with
      | Some u => Ok (r, delete i us, exit_counts r u counts, settings, [])
      | None => Ok (st, [])
      end
  | OpCommand i dontspread parv2 parv3 =>
      match us !! i with
      | Some u =>
          if MyUser u then
            let! res := _cmd_umode cf r dontspread (Some (Some (mu_id u))) (Some parv2) parv3 u counts in
            let v := ur_user res in
            Ok (if ur_killed res then (r, delete i us, exit_counts r v (ur_counts res), settings, [])
                else (r, <[i := v]> us, ur_counts res, settings, []))
          else Ok (st, [])
      | None => Ok (st, [])
      end
  end.
Fixpoint umode_run (cf : uconf) (st : umode_state) (ops : list umode_op) : res (umode_state * list bool) :=
  match ops with
  | [] => Ok (st, [])
  | op :: rest => let! (st, out) := umode_step cf st op in let! (st, out') := umode_run cf st rest in Ok (st, out ++ out')
  end.

(** The bits that somebody got when connecting although there was no such mode
    any more: the numbers of modes-on-connect stay as they were when the
    configuration was run. *)
Fixpoint stale_bits (cf : uconf) (st : umode_state) (ops : list umode_op) (k : Z) : Prop :=
  match ops with
  | [] => False
  | op :: rest =>
      match op with
      | OpConnect _ which =>
          let '(r, _, _, settings) := st in
          Z.testbit (get_modes_on_connect settings which) k = true ∧ ¬ (∃ um, um ∈ usermodes r ∧ um_mode um = 2 ^ k)
      | _ => False
      end ∨
      match umode_step cf st op with Ok (st', _) => stale_bits cf st' rest k | _ => False end
  end.

(** The same for a map from letters. *)
Definition spec_step (a : gmap Z uattrs) (op : umode_op) : gmap Z uattrs * list bool :=
  match op with
  | OpAdd m name ch _ unset allowed _ => let '(a, b) := spec_add (Some m) name ch unset allowed a in (a, [b])
  | OpUnload rehashing m => (spec_unload rehashing m a, [])
  | OpUnused => (spec_unused a, [])
  | OpConfig _ _ | OpConnect _ _ | OpExit _ | OpCommand _ _ _ _ => (a, [])
  end.
Fixpoint spec_run (a : gmap Z uattrs) (ops : list umode_op) : gmap Z uattrs * list bool :=
  match ops with
  | [] => (a, [])
  | op :: rest => let '(a, out) := spec_step a op in let '(a, out') := spec_run a rest in (a, out ++ out')
  end.
Definition spec_init : gmap Z uattrs :=
  list_to_map (map (λ '(name, ch, _, unset, f, _), (ch, UAttrs (bs name) unset (Some f) false None)) builtin_umodes).

(** A name keeps its letter; who connects has no modes before it registers. *)
Definition op_ok (names : list (list Z * Z)) (op : umode_op) : Prop :=
  match op with
  | OpAdd _ name ch _ _ _ _ => (name, ch) ∈ names
  | OpConnect u _ => mu_umodes u = 0 ∧ (MyUser u = true → local u)
  | _ => True
  end.

#[global] Instance uattrs_eq_dec : EqDecision uattrs.
Proof. solve_decision. Defined.
Lemma abs_init r : umode_init = Ok r → abs r = spec_init.
Proof.
  intros E. assert (match umode_init with Ok r => bool_decide (abs r = spec_init) | _ => false end = true) as H by (vm_compute; reflexivity).
  rewrite E in H. by apply bool_decide_eq_true in H.
Qed.

Section Run.
Variables (names : list (list Z * Z)) (cf : uconf).
Hypothesis Hn : names_ok names.
Hypothesis Hperm : perms_total cf.
Hypothesis Hother : ∀ r, others_mono cf r.
Variable S : Z → Prop.

(** The invariant of the registry and the local clients. *)
Record world_ok (r : ureg) (us : list umuser) : Prop := WorldOk {
  wo_reg : reg_ok names r;
  wo_builtins : builtins_ok r;
  wo_covered : users_covered S (usermodes r) us;
  wo_local : Forall (λ u, MyUser u = true → local u) us
}.

Lemma lost_local us us' : lost us us' → Forall (λ u, MyUser u = true → local u) us → Forall (λ u, MyUser u = true → local u) us'.
Proof.
  induction 1 as [|u u' us us' [m ->] H IH]; [done|]. intros [Hu Hus]%Forall_cons. constructor; [|by apply IH].
  rewrite MyUser_umodes. intros Hm. eapply local_base; [apply base_umodes|by apply Hu].
Qed.

Lemma step_add r us m name ch glob unset allowed v : world_ok r us → (name, ch) ∈ names →
  ∃ r' id, UmodeAdd (Some m) (Some name) ch glob unset allowed (LongOf v) r = Ok (r', id) ∧ world_ok r' us ∧
    spec_step (abs r) (OpAdd m name ch glob unset allowed v) = (abs r', [bool_decide (is_Some id)]).
Proof.
  intros [Hr Hb Hc Hl] Hname. destruct (UmodeAdd_ok names r (Some m) name ch glob unset allowed (LongOf v) Hn Hname Hr) as (r' & id & E & Hr' & Ha & [X1 X2 X3] & Hlo & _).
  exists r', id. split_and!; [done| |by cbn [spec_step]; rewrite <-Ha]. constructor; [done| | |done].
  - eapply builtins_keep; [|exact Hb]. constructor; [auto| |auto]. intros w Hw. apply Hlo. apply Hw.
  - eapply Forall_impl; [exact Hc|]. intros u Hu Hm k Hk Ht. destruct (Hu Hm k Hk Ht) as [?|(um & Hum & E1)]; [by left|].
    destruct (X2 um Hum) as (um' & Hum' & E2 & _). right. exists um'. by rewrite E2.
Qed.

Lemma covered_setb r m u um : reg_ok names r → um ∈ usermodes r → covered_but S (usermodes r) (mu_umodes u) →
  m = um_mode um → covered_but S (usermodes r) (mu_umodes (set_bits m u)).
Proof. intros Hr Hu Hc ->. unfold set_bits. rewrite umodes_set. by apply (covered_set names). Qed.

Lemma step_connect r us u which settings : world_ok r us → op_ok names (OpConnect u which) →
  (∀ k, Z.testbit (get_modes_on_connect settings which) k = true → S k ∨ ∃ um, um ∈ usermodes r ∧ um_mode um = 2 ^ k) →
  world_ok r ((if mu_user u then connect_user r (get_modes_on_connect settings which) u else u) :: us).
Proof.
  intros [Hr Hb Hc Hl] [H0 Hlu] Hset. set (m := get_modes_on_connect settings which) in *.
  assert (base (connect_user r m u) = base u) as Eb.
  { unfold connect_user, set_bits. destruct (mu_secure _); rewrite ?base_umodes; case_match; by rewrite ?base_virthost, base_umodes. }
  assert (covered_but S (usermodes r) (mu_umodes (connect_user r m u))) as Hcu.
  { unfold connect_user. set (u1 := set_bits m u). set (u2 := if _ || _ then set_virthost _ u1 else u1).
    assert (mu_umodes u2 = m) as E2.
    { unfold u2. transitivity (mu_umodes u1); [destruct (_ || _); [by destruct u1|done]|]. unfold u1, set_bits. by rewrite umodes_set, H0. }
    destruct (var_mode r Hb UMODE_SECURE _ eq_refl) as (um & Hu & _ & Em & _).
    assert (covered_but S (usermodes r) (mu_umodes u2)) as H2 by (rewrite E2; intros k _; apply Hset).
    destruct (mu_secure u2); [by eapply covered_setb|done]. }
  constructor; [done|done| |]; (constructor; [|done]); destruct (mu_user u) eqn:Eu.
  - done.
  - intros _ k _. by rewrite H0, Z.bits_0.
  - intros Hm. eapply local_base; [exact Eb|]. apply Hlu. pose proof (base_fields _ _ Eb) as (_ & _ & Ec & _). by rewrite <-Ec.
  - done.
Qed.

Lemma step_command r us i dontspread parv2 parv3 counts settings : world_ok r us →
  ∃ us' counts', umode_step cf (r, us, counts, settings) (OpCommand i dontspread parv2 parv3) = Ok (r, us', counts', settings, []) ∧ world_ok r us'.
Proof.
  intros Hw. destruct Hw as [Hr Hb Hc Hl]. cbn [umode_step]. destruct (us !! i) as [u|] eqn:Eu; [|by eexists _, _].
  destruct (MyUser u) eqn:Em; [|by eexists _, _].
  assert (local u) as Hu by (apply (proj1 (Forall_forall _ _) Hl u); [by eapply list_elem_of_lookup_2|done]).
  assert (covered_but S (usermodes r) (mu_umodes u)) as Hcu by (apply (proj1 (Forall_forall _ _) Hc u); [by eapply list_elem_of_lookup_2|done]).
  destruct (umode_change_ok names r cf Hr Hb Hperm (Hother r) dontspread parv2 parv3 u counts Hu) as (res & letters & E & W & _).
  unfold _cmd_umode. rewrite Nat.eqb_refl. simpl negb. cbv iota. rewrite E. cbn [rbind]. cbv zeta.
  assert (MyUser (ur_user res) = true → local (ur_user res)) as Hlv by (intros _; eapply local_base; [apply W|done]).
  destruct (ur_killed res); eexists _, _; (split; [done|]); constructor; try done.
  - by apply Forall_delete.
  - by apply Forall_delete.
  - apply Forall_insert; [done|]. intros _. by apply (wi_covered _ _ _ _ _ W).
  - by apply Forall_insert.
Qed.

Lemma umode_step_ok r us counts settings op : world_ok r us → op_ok names op →
  (∀ k, 0 ≤ k → stale_bits cf (r, us, counts, settings) [op] k → S k) →
  ∃ r' us' counts' settings' out, umode_step cf (r, us, counts, settings) op = Ok (r', us', counts', settings', out) ∧ world_ok r' us' ∧
    spec_step (abs r) op = (abs r', out).
Proof.
  intros Hw Hop Hst. pose proof Hw as [Hr Hb Hc Hl].
  destruct op as [m name ch glob unset allowed v|rehashing m|value of_groups| |u which|i|i dontspread parv2 parv3].
  - destruct (step_add r us m name ch glob unset allowed v Hw Hop) as (r' & id & E & Hw' & Es). cbn [umode_step]. rewrite E. cbn [rbind].
    by eexists _, _, _, _, _.
  - destruct (unload_module_ok S cf names r rehashing m us Hn Hr Hc) as (r' & us' & out & E & Hr' & Ha & Hk & Hc' & Hlost). cbn [umode_step]. rewrite E. cbn [rbind].
    eexists _, _, _, _, _. split; [done|]. split; [|by cbn [spec_step]; rewrite Ha].
    constructor; [done|by eapply builtins_keep|done|by eapply lost_local].
  - cbn [umode_step]. by eexists _, _, _, _, _.
  - destruct (umode_unused_ok S cf names r us Hn Hr Hc) as (r' & us' & out & E & Hr' & Ha & Hk & Hc' & Hlost). cbn [umode_step]. rewrite E. cbn [rbind].
    eexists _, _, _, _, _. split; [done|]. split; [|by cbn [spec_step]; rewrite Ha].
    constructor; [done|by eapply builtins_keep|done|by eapply lost_local].
  - assert (world_ok r ((if mu_user u then connect_user r (get_modes_on_connect settings which) u else u) :: us)) as Hw'.
    { apply step_connect; [done|done|]. intros k Hk.
      assert (0 ≤ k) as H0 by (destruct (Z_lt_le_dec k 0); [by rewrite Z.testbit_neg_r in Hk|done]).
      destruct (decide (Exists (λ um, um_mode um = 2 ^ k) (usermodes r))) as [(um & Hu & Ek)%Exists_exists|Hno]; [by right; exists um|left].
      apply Hst; [done|]. left. split; [done|]. intros (um & Hu & Ek). apply Hno, Exists_exists. eauto. }
    cbn [umode_step]. destruct (mu_user u); by eexists _, _, _, _, _.
  - cbn [umode_step]. destruct (us !! i) as [u|]; [|by eexists _, _, _, _, _]. eexists _, _, _, _, _. split; [done|]. split; [|done].
    constructor; [done|done|by apply Forall_delete|by apply Forall_delete].
  - destruct (step_command r us i dontspread parv2 parv3 counts settings Hw) as (us' & counts' & E & Hw'). rewrite E. by eexists _, _, _, _, _.
Qed.

Lemma umode_run_ok ops : Forall (op_ok names) ops → ∀ r us counts settings, world_ok r us →
  (∀ k, 0 ≤ k → stale_bits cf (r, us, counts, settings) ops k → S k) →
  ∃ r' us' counts' settings' out, umode_run cf (r, us, counts, settings) ops = Ok (r', us', counts', settings', out) ∧ world_ok r' us' ∧
    spec_run (abs r) ops = (abs r', out).
Proof.
  induction 1 as [|op ops Hop Hops IH]; intros r us counts settings Hw Hst; [by eexists _, _, _, _, _|].
  destruct (umode_step_ok r us counts settings op Hw Hop) as (r1 & us1 & c1 & s1 & out1 & E1 & Hw1 & S1).
  { intros k Hk Hs. apply Hst; [done|]. cbn [stale_bits] in *. destruct Hs as [Hs|Hs]; [by left|]. by destruct (umode_step _ _ _) as [[? ?]| |]. }
  destruct (IH r1 us1 c1 s1 Hw1) as (r2 & us2 & c2 & s2 & out2 & E2 & Hw2 & S2).
  { intros k Hk Hs. apply Hst; [done|]. cbn [stale_bits]. right. by rewrite E1. }
  cbn [umode_run spec_run]. rewrite E1, S1. cbn [rbind]. rewrite E2, S2. by eexists _, _, _, _, _.
Qed.
End Run.

(** C16.  The registry of user modes.  However modules register modes and are unloaded, with rehashes and with
    users that connect, change their modes and leave: nothing faults; modes come and go as in a map from letters;
    every letter has a bit of its own, which the table of letters gives, and no bit is given twice; the string of
    letters lists them, for letters of the alphabet in their order; the built-in modes stay with their bits; and
    local users have no bits but those of modes that exist, and those that set::modes-on-connect has given away
    when their mode was gone ([connect_stale] shows that this happens: the numbers are made when the configuration
    is run, before the modes of modules that are not loaded any more go).  Names keep their letter, every
    mode has one, and who registers had no modes before; modes that other parts give to users (services,
    OPER, saved sessions) are not in the model.  Operclasses and functions of other
    modules are as for changing one's own modes above. *)
Theorem user_modes_registry_correct cf names ops :
  names_ok names → builtin_names ⊆ names → Forall (op_ok names) ops → perms_total cf → (∀ r, others_mono cf r) →
  ∃ r0 r us counts settings out, umode_init = Ok r0 ∧ umode_run cf (r0, [], IrCounts 0 0 0, []) ops = Ok (r, us, counts, settings, out) ∧
    spec_run spec_init ops = (abs r, out) ∧
    (∀ c, c ∈ umodestring r ↔ is_Some (abs r !! c)) ∧ NoDup (umodestring r) ∧ (length (umodestring r) ≤ 62)%nat ∧
    (Forall alpha (map snd names) → StronglySorted before (umodestring r)) ∧
    (∀ c, ∃ x, find_user_mode c r = Ok x ∧ (x ≠ 0 ↔ c ∈ umodestring r) ∧ (x ≠ 0 → bit_of x) ∧
       ∀ c', x ≠ 0 → find_user_mode c' r = Ok x → c' = c) ∧
    builtins_ok r ∧ users_covered (stale_bits cf (r0, [], IrCounts 0 0 0, []) ops) (usermodes r) us.
Proof.
  intros Hn Hin Hops Hp Ho. destruct (umode_init_ok names Hn Hin) as (r0 & E0 & Hr0 & Hb0).
  set (S := stale_bits cf (r0, [], IrCounts 0 0 0, []) ops).
  destruct (umode_run_ok names cf Hn Hp Ho S ops Hops r0 [] (IrCounts 0 0 0) []) as (r & us & counts & settings & out & E & [Hr Hb Hc _] & Es);
    [constructor; [exact Hr0|exact Hb0|constructor|constructor]|by intros k _|].
  rewrite (abs_init r0 E0) in Es. exists r0, r, us, counts, settings, out. pose proof (ro_string _ _ Hr) as Est.
  assert (∀ c um, um ∈ usermodes r → um_letter um = c → find_user_mode c r = Ok (um_mode um) ∧ um_mode um ≠ 0 ∧ bit_of (um_mode um)) as Hfind.
  { intros c um Hu <-. rewrite (find_user_mode_ok names) by done. rewrite (find_letter _ _ (ro_letters _ _ Hr) Hu). split; [done|].
    pose proof (proj1 (Forall_forall _ _) (proj1 (ro_bits _ _ Hr)) um Hu) as Hbit. split; [|done]. destruct Hbit as (k & _ & ->). lia. }
  assert (∀ c, c ∉ umodestring r → find_user_mode c r = Ok 0) as Hnot.
  { intros c Hnc. rewrite (find_user_mode_ok names) by done. destruct (find _ _) as [um|] eqn:Ef; [|done].
    apply find_some in Ef as [Hu%list_elem_of_In Ec%Z.eqb_eq]. destruct Hnc. rewrite Est, <-Ec. by apply list_elem_of_fmap_2. }
  assert (∀ c, c ∈ umodestring r → ∃ um, um ∈ usermodes r ∧ um_letter um = c) as Hyes by (intros c; rewrite Est; intros (um & -> & Hu)%list_elem_of_fmap; eauto).
  split; [exact E0|]. clear E0. split; [exact E|]. split; [exact Es|]. split; [|split; [|split; [|split; [by rewrite Est; apply (ro_sorted _ _ Hr)|split; [|by split]]]]].
  - intros c. split; [intros (um & Hu & Ec)%Hyes; exists (attrs um); apply (abs_some names); eauto|].
    intros [a (um & Hu & <- & _)%(abs_some names)]; [|done]. rewrite Est. by apply list_elem_of_fmap_2.
  - rewrite Est. apply (ro_letters _ _ Hr).
  - rewrite Est, length_map. apply (bits_ok_length _ (ro_bits _ _ Hr)).
  - intros c. destruct (decide (c ∈ umodestring r)) as [Hc'|Hc'].
    + destruct (Hyes c Hc') as (um & Hu & Ec). destruct (Hfind c um Hu Ec) as (F1 & F2 & F3). exists (um_mode um). split_and!; [done|done|done|].
      intros c' _ F'. destruct (decide (c' ∈ umodestring r)) as [Hc2|Hc2]; [|rewrite (Hnot c' Hc2) in F'; apply Ok_inj in F'; by destruct F2].
      destruct (Hyes c' Hc2) as (um' & Hu' & Ec'). destruct (Hfind c' um' Hu' Ec') as (F1' & _). rewrite F1' in F'. injection F' as F'.
      rewrite <-Ec, <-Ec'. f_equal. by apply (mode_inj (usermodes r) um' um (ro_bits _ _ Hr)).
    + exists 0. split_and!; [by apply Hnot|done|done|done].
Qed.

(** ** Examples *)

Definition demo_names : list (list Z * Z) := builtin_names ++ [(bs "bot", 66); (bs "wallops", 119)].
Lemma demo_names_ok : names_ok demo_names.
Proof.
  constructor; [apply (bool_decide_unpack _); vm_compute; exact I|apply (bool_decide_unpack _); vm_compute; exact I|].
  apply (bool_decide_unpack _); vm_compute; exact I.
Qed.
Lemma of_module_ok r name ch glob : (bs name, ch) ∈ demo_names → reg_ok demo_names r → builtins_ok r →
  match of_module name ch glob r with Ok r' => reg_ok demo_names r' ∧ builtins_ok r' | _ => False end.
Proof.
  intros Hin Hr Hb. destruct (UmodeAdd_ok demo_names r (Some 1%nat) (bs name) ch glob false None (LongOf 0) demo_names_ok Hin Hr) as (r' & id & E & Hr' & _ & [X1 X2 X3] & Hlo & _).
  unfold of_module. rewrite E. cbn [rbind]. split; [done|]. eapply builtins_keep; [|exact Hb]. constructor; [auto| |auto]. intros w Hw. apply Hlo, Hw.
Qed.
Lemma standard_ok : reg_ok demo_names standard_modes ∧ builtins_ok standard_modes.
Proof.
  destruct (umode_init_ok demo_names demo_names_ok) as (r & E & Hr & Hb); [intros p Hp; unfold demo_names; apply elem_of_app; by left|].
  unfold standard_modes. rewrite E. by split.
Qed.

(** Two servers that load the same modules in a different order. *)
Definition server_of (l : list (string * Z)) : ureg :=
  foldl (λ r p, match of_module p.1 p.2 true r with Ok r => r | _ => r end) standard_modes l.
Definition server_A : ureg := server_of [("bot"%string, 66); ("wallops"%string, 119)].
Definition server_B : ureg := server_of [("wallops"%string, 119); ("bot"%string, 66)].
Lemma server_ok l : Forall (λ p, (bs p.1, p.2) ∈ demo_names) l → reg_ok demo_names (server_of l) ∧ builtins_ok (server_of l).
Proof.
  intros H. unfold server_of. generalize standard_ok. generalize standard_modes.
  induction H as [|p l Hp H IH]; intros r [Hr Hb]; [by split|]. cbn [foldl]. apply IH.
  pose proof (of_module_ok r p.1 p.2 true Hp Hr Hb) as Hm. by destruct (of_module p.1 p.2 true r).
Qed.
Lemma server_names : Forall (λ p : string * Z, (bs p.1, p.2) ∈ demo_names) [("bot"%string, 66); ("wallops"%string, 119)] ∧
  Forall (λ p : string * Z, (bs p.1, p.2) ∈ demo_names) [("wallops"%string, 119); ("bot"%string, 66)].
Proof. split; apply (bool_decide_unpack _); vm_compute; exact I. Qed.

Lemma demo_perms : perms_total demo_uconf.
Proof.
  intros path c _. unfold ValidatePermissionsForPath. cbn. destruct (o_server c || _ || _ || _); [by eexists|].
  destruct (negb (o_oper c)); [by eexists|]. destruct (find_oper _ _) as [o|] eqn:E; [by destruct (o_operlogin c)|].
  by destruct (o_moddata c); eexists.
Qed.
Lemma demo_others r : others_mono demo_uconf r.
Proof. by intros f u v. Qed.
Lemma demo_trust : others_trust demo_uconf.
Proof. by intros f u w. Qed.

(** An operator that hides and is the only one: its going is a negative number
    of operators in between, and one that is not there in the end. *)
Lemma hidden_oper_count :
  let u := demo_umuser (2 + 128) false in
  (let! res := _cmd_umode demo_uconf standard_modes false (Some (Some 1%nat)) (Some (bs "-o")) None u (IrCounts 0 0 0) in
   Ok (visible_oper standard_modes u, visible_oper standard_modes (ur_user res), operators (ur_counts res))) = Ok (false, false, 1).
Proof. vm_compute. reflexivity. Qed.

Lemma user_modes_safe_witness :
  let u := demo_umuser 16 false in let counts := IrCounts 0 0 0 in
  ∃ res, _cmd_umode demo_uconf standard_modes false (Some (Some (mu_id u))) (Some (bs "+ioHsdz-x")) None u counts = Ok res ∧
  let v := ur_user res in
  (∀ um, um ∈ usermodes standard_modes → has_mode (mu_umodes v) um = true → has_mode (mu_umodes u) um = false →
     usable demo_uconf standard_modes u (bs "+ioHsdz-x") (um_letter um) ∧ may_set demo_uconf standard_modes u um ∧
     (ur_killed res = false → um_unset_on_deoper um = true → permitted demo_uconf standard_modes (bs "self:opermodes") u = Ok true)) ∧
  mu_umodes v = 65 ∧ (IsOper standard_modes v = false → no_oper_modes standard_modes v).
Proof.
  intros u counts.
  destruct (user_modes_safe demo_names standard_modes demo_uconf false (bs "+ioHsdz-x") None u counts (proj1 standard_ok) (proj2 standard_ok)
    demo_perms (demo_others _) ltac:(repeat split; reflexivity)) as (res & E & H1 & _ & _ & H4 & H5).
  exists res. split; [exact E|]. cbn zeta. split; [exact H1|].
  assert (Hx : match _cmd_umode demo_uconf standard_modes false (Some (Some (mu_id u))) (Some (bs "+ioHsdz-x")) None u counts with
    Ok res => mu_umodes (ur_user res) = 65 ∧ ur_killed res = false | _ => False end) by (vm_compute; split; reflexivity).
  rewrite E in Hx. destruct Hx as [Hx1 Hx2]. split; [exact Hx1|]. intros Ho. apply (H5 Hx2), Ho.
Defined.

Lemma user_modes_propagate_witness :
  let uA := demo_umuser 17 false in
  let uB := UmUser 1 false true false false false None None 7 17 None false false 0 (bs "host") (bs "cloak") false 0 0 in
  let counts := IrCounts 0 1 0 in
  ∃ res, _cmd_umode demo_uconf server_A false (Some (Some (mu_id uA))) (Some (bs "+Bw-i")) None uA counts = Ok res ∧
    lines_to 8 (ur_out res) = [bs "-i+wB"] ∧
    (ur_killed res = false → (length (lines_to 8 (ur_out res)) ≤ 1)%nat ∧
     ∃ uB', deliver demo_uconf server_B (lines_to 8 (ur_out res)) uB counts = Ok uB' ∧ base uB' = base uB ∧ synced server_A server_B (ur_user res) uB').
Proof.
  intros uA uB counts.
  destruct (user_modes_propagate demo_names demo_names server_A server_B demo_uconf demo_uconf (bs "+Bw-i") None uA uB counts counts 8) as (res & E & H).
  - apply (server_ok _ (proj1 server_names)).
  - apply (server_ok _ (proj1 server_names)).
  - apply (server_ok _ (proj2 server_names)).
  - apply (server_ok _ (proj2 server_names)).
  - exact demo_perms.
  - apply demo_others.
  - exact demo_trust.
  - unfold plain_letter. apply (bool_decide_unpack _). vm_compute. exact I.
  - reflexivity.
  - assert (Hc : Forall (λ a, Forall (λ b, um_letter a = um_letter b → um_unset_on_deoper a = um_unset_on_deoper b) (usermodes server_B)) (usermodes server_A))
      by (apply (bool_decide_unpack _); vm_compute; exact I).
    intros a b Ha Hb El _. rewrite Forall_forall in Hc. specialize (Hc a Ha). rewrite Forall_forall in Hc. exact (Hc b Hb El).
  - repeat split; reflexivity.
  - repeat split; reflexivity.
  - assert (Hc : Forall (λ a, Forall (λ b, um_letter a = um_letter b → has_mode (mu_umodes uA) a = has_mode (mu_umodes uB) b) (usermodes server_B)) (usermodes server_A))
      by (apply (bool_decide_unpack _); vm_compute; exact I).
    intros a b Ha Hb El _. rewrite Forall_forall in Hc. specialize (Hc a Ha). rewrite Forall_forall in Hc. exact (Hc b Hb El).
  - apply (bool_decide_unpack _). vm_compute. exact I.
  - apply (bool_decide_unpack _). vm_compute. exact I.
  - discriminate.
  - discriminate.
  - exists res. split; [exact E|]. split; [|exact H].
    assert (Hx : match _cmd_umode demo_uconf server_A false (Some (Some (mu_id uA))) (Some (bs "+Bw-i")) None uA counts with
      Ok res => lines_to 8 (ur_out res) = [bs "-i+wB"] | _ => False end) by (vm_compute; reflexivity).
    rewrite E in Hx. exact Hx.
Defined.

(** A mode that is given on connect and whose module is not loaded any more:
    who connects gets its bit, and has then the next mode that takes it. *)
Definition rehash_without_bot : list umode_op :=
  [OpAdd 1 (bs "bot") 66 true false None 0; OpConfig (Some (bs "+iB")) []; OpUnload true 1; OpConfig (Some (bs "+iB")) []; OpUnused;
   OpConnect (demo_umuser 0 false) 0].
Lemma connect_stale :
  (let! r0 := umode_init in
  let! (st, _) := umode_run demo_uconf (r0, [], IrCounts 0 0 0, []) rehash_without_bot in
  let '(r, us, _, _) := st in
  let! (st, _) := umode_step demo_uconf st (OpAdd 2 (bs "wallops") 119 true false None 0) in
  let '(r', us', _, _) := st in
  Ok (map (λ u, (mu_umodes u, get_usermode_string r u, get_usermode_string r' u)) us, umodestring r, umodestring r')) =
  Ok ([(1025, bs "+i", bs "+iw")], bs "diorstxzHI", bs "diorstwxzHI").
Proof. vm_compute. reflexivity. Qed.

Lemma user_modes_registry_witness :
  let ops := [OpAdd 1 (bs "bot") 66 true false None 0; OpAdd 2 (bs "wallops") 119 true false None 0; OpConfig None [];
              OpConnect (demo_umuser 0 false) 0; OpCommand 0 false (bs "+B") None; OpUnload true 1; OpAdd 3 (bs "bot") 66 true false None 0;
              OpUnload true 2; OpConfig (Some (bs "+ix")) []; OpUnused; OpConnect (demo_umuser 0 false) 0; OpExit 1] in
  ∃ r0 r us counts settings out, umode_init = Ok r0 ∧ umode_run demo_uconf (r0, [], IrCounts 0 0 0, []) ops = Ok (r, us, counts, settings, out) ∧
    spec_run spec_init ops = (abs r, out) ∧ builtins_ok r ∧ users_covered (stale_bits demo_uconf (r0, [], IrCounts 0 0 0, []) ops) (usermodes r) us ∧
    map mu_umodes us = [17] ∧ invisible counts = 1.
Proof.
  intros ops. destruct (user_modes_registry_correct demo_uconf demo_names ops demo_names_ok) as (r0 & r & us & counts & settings & out & E0 & E & Es & _ & _ & _ & _ & _ & Hb & Hc).
  - intros p Hp. unfold demo_names. apply elem_of_app. left. exact Hp.
  - repeat constructor; try (apply (bool_decide_unpack _); vm_compute; exact I); try (intros _; repeat split; reflexivity).
  - exact demo_perms.
  - exact demo_others.
  - exists r0, r, us, counts, settings, out. split; [exact E0|]. split; [exact E|]. split; [exact Es|]. split; [exact Hb|]. split; [exact Hc|].
    assert (Hx : match (let! r0 := umode_init in umode_run demo_uconf (r0, [], IrCounts 0 0 0, []) ops) with
      Ok (_, us, counts, _, _) => map mu_umodes us = [17] ∧ invisible counts = 1 | _ => False end) by (vm_compute; split; reflexivity).
    rewrite E0 in Hx. cbn [rbind] in Hx. rewrite E in Hx. exact Hx.
Defined.
